(* ===== verification/_CoqProject ===== *)
-Q . S2P
Prelude.v
GoText.v
Errors.v
Tx.v
Identifiers.v
Database.v
Server.v
Workflow.v
WorkflowStore.v
WorkflowEngine.v
WorkflowSaga.v
WorkflowIdem.v
WorkflowProps.v
WorkflowParallel.v
WorkflowParallelProps.v
Condition.v
PromotionModels.v
PromotionValidate.v
PromotionDiscounts.v
PromotionCompute.v
PromotionAlloc.v
PromotionLines.v
PromotionProps.v
PromotionStore.v
PromotionAdmin.v
PromotionCounters.v
PromotionHistory.v
PromotionStoreProps.v
TaxModels.v
TaxRates.v
TaxCalculate.v
TaxStack.v
TaxStackFacts.v
TaxLines.v
TaxLedger.v
TaxSelect.v
TaxMemory.v
TaxProps.v
CartModels.v
CartTotals.v
CartStore.v
CartMoves.v
CartService.v
CartLines.v
CartUnits.v
CartMemory.v
CartProps.v
CartFlow.v
CartRound.v
CartCalls.v
CartModules.v
CartCallProps.v
CartRoundFacts.v
CartRoundProps.v
InventoryModels.v
InventoryService.v
InventoryMoves.v
InventoryKept.v
InventoryPromises.v
InventoryFill.v
InventoryClaims.v
InventoryMemory.v
InventoryQueue.v
InventoryForecast.v
InventoryProps.v
PaymentModels.v
PaymentStore.v
PaymentRules.v
PaymentTills.v
PaymentProviders.v
PaymentService.v
PaymentCredit.v
PaymentMoves.v
PaymentRefines.v
PaymentFrames.v
PaymentLedger.v
PaymentCalls.v
PaymentTenders.v
PaymentHistory.v
PaymentProps.v
