(* ===== verification/Prelude.v ===== *)
(** * gobit: a verification development

    gobit is a commerce library in Go: a modular monolith whose modules (cart, promotion, tax,
    inventory, payment, order, ...) keep their own tables, do not import one another and are brought
    together by workflows. This development models the decision-making core of several of them and
    proves what makes it correct. It reads beside the code under [src/]: a definition has the name of
    the Go function it translates wherever that name is free, and its file's comment names the Go
    file.

    ** The parts

    - Shared: [Prelude] (machine integers, sums, sorting, list lemmas), [GoText] (the string, parsing
      and formatting functions of the standard library that the code uses, SHA-256, hex, JSON of string
      maps), [Errors] ([core/errors]: typed errors, wrapping, [errors.Is]/[As], and the [result] type of
      a function that returns a value or an error), [Tx] (transactions over a store: a state-and-error
      computation, the rollback, and the rules that follow a body), [Identifiers] (the time-ordered
      identifiers of the modules), [Database] (tables as maps of rows: what a statement answers,
      constraints, listings, sums over the rows and over a ledger), [Server] (a module's database with
      its failures, the clock and the source of randomness as parameters; what a computation keeps,
      gives and undoes, and what it does where the database does not fail).
    - The saga engine ([internal/core/workflow]): [Workflow] (steps, options, retry), [WorkflowStore]
      (the store contract and the in-memory store), [WorkflowEngine] (attempts, the forward run,
      compensation, idempotent runs, replay, recovery), [WorkflowParallel] (a step made of concurrent
      branches: a branch is a program of atomic acts, the goroutines are an interleaving of them); facts
      in [WorkflowSaga] and [WorkflowIdem]; properties in [WorkflowProps] and [WorkflowParallelProps].
    - Promotions ([internal/core/condition], [internal/modules/promotion]): [Condition],
      [PromotionModels], [PromotionValidate], [PromotionDiscounts] (what one promotion is worth and
      which apply), [PromotionCompute] (from a cart to its discounts), [PromotionStore] (the tables, the
      statements, the repository), [PromotionAdmin] (the rest of the service: promotions, campaigns,
      status switches, rules, redemption); facts in [PromotionAlloc], [PromotionLines];
      [PromotionCounters] is the abstract account of the tables (the acts, and [Sound], which they keep)
      and [PromotionHistory] shows that every call is a sequence of acts; properties in [PromotionProps],
      [PromotionStoreProps] and [Condition].
    - Tax ([internal/modules/tax]): [TaxModels] (arithmetic, rows, input checks), [TaxRates] (rate
      table, selection, the local provider), [TaxCalculate] (the service over any provider), [TaxStack]
      (writes of rates and regions); facts in [TaxStackFacts], [TaxLines], [TaxLedger], [TaxSelect];
      [TaxMemory] is an instance of the repository; properties in [TaxProps].
    - The cart ([internal/modules/cart]): [CartModels] (rows and input checks), [CartTotals] (the checks
      of a calculation round), [CartStore] (the store interface and the statements' effects on rows),
      [CartService] (the operations, the merge, the erasure of a person's data with the declaration it
      answers for ([core/personaldata]) and the deletion of abandoned carts included, and [CartLaws],
      what they rely on), [CartMoves] the abstract account of what can happen to a cart, [CartLines] and
      [CartUnits] that every operation refines it; [CartMemory] is an instance of the store; properties
      in [CartProps].
    - The cart workflow ([internal/workflows/cart]): [CartFlow] (amounts, documents, the surfaces of the
      other modules as records of operations, what is read from the catalog), [CartRound] (a calculation
      round: prices, discounts, taxes, totals, the write and its repetitions), [CartCalls] (lines, coupon
      codes, shipping options, new carts, quotes, the surface for other modules), [CartModules] (the
      surfaces the cart, promotion and tax modules give the workflow, [service/interop.go] of each);
      [CartRoundFacts] follows a round step by step; properties in [CartCallProps] (what a failed call
      leaves) and [CartRoundProps] (the workflow composed with the three modules).
    - The inventory ([internal/modules/inventory]): [InventoryModels] (rows and checks; the store
      interface and the statements' effects on rows), [InventoryService] (every operation, and
      [InventoryLaws], what they rely on), [InventoryForecast] (when units will be back, and the surface
      for the other modules); [InventoryMoves] is the abstract account: what can happen to the stock
      ([move]) and the invariant it keeps ([sound], shown in [InventoryKept] and [InventoryPromises]).
      [InventoryFill] (a write with the fill it starts) and [InventoryClaims] (counts, promises, claims,
      receipts) show that every operation is a run of moves, [InventoryQueue] that any sequence of calls
      is, who is served and that no claim waits in vain; [InventoryMemory] is an instance of the store;
      properties in [InventoryProps].
    - Payment ([internal/modules/payment], the provider contract of [core/provider]): [PaymentModels]
      (rows, the state machine, the checks, gift card codes), [PaymentStore] and [PaymentTills] (the
      statements: the books, which the service alone writes, and the tills of the module's own
      providers), [PaymentProviders] (the registry, the manual and offline providers and the three that
      pay from a balance), [PaymentService] and [PaymentCredit] (every operation that writes).
      [PaymentMoves] is the abstract machine of the books (open, hold, decline, cancel, capture, refund)
      with what they promise ([Sound]), [PaymentLedger] the abstract account of a balance that pays;
      [PaymentRules] and [PaymentFrames] follow the computations, [PaymentRefines], [PaymentCalls],
      [PaymentTenders] and [PaymentHistory] show that every call refines the two accounts; properties in
      [PaymentProps].

    ** How the parts interact

    The calculation of a cart's amounts is the cart workflow's: it reads a snapshot of the cart, asks for
    prices, asks promotions for discounts ([ComputeDiscounts]) and tax for tax ([CalculateTax]), and
    writes the outcome with the cart's [SetTotals]. No side trusts another: the workflow checks every
    answer and the cart checks the round as a whole. [CartRoundProps] composes them: what promotion and
    tax answer passes the workflow's checks ([promotion_answer_accepted], [tax_answer_accepted]) and what
    the workflow computes passes the cart's ([still_cart_is_priced]); so a round fails on a sound cart
    only by a refusal of a module or by a cart that changed, and then it is repeated. The surfaces of
    modules that are not modelled (pricing, region, customer, catalog, links, fulfillment, order) are
    fields that answer anything; where a theorem needs that they leave the cart's tables alone, it says
    so by a class ([Bystanders]), and what the cart module promises of its own surface is another
    ([CarefulCarts]), with the module's instance. What a computation of discounts applied is redeemed
    afterwards, by calls of their own: [offered_can_be_redeemed] composes the two.
    The saga engine runs the longer workflows; the modules' stores and the engine's store are interfaces,
    stated as a [Record] of operations with a class of laws ([StoreLaws], [RateLaws], [CartLaws],
    [InventoryLaws]), and each has an in-memory instance that satisfies the laws. Theorems about a
    module are about any store with the laws. The promotion and payment modules are modelled down to
    their statements and constraints, over any behaviour of what lies outside the database ([Server],
    [Outside]): a statement may fail, and a transaction that fails undoes what it did to the tables and
    not what it did outside. A payment provider is any record of operations; the module's own are
    instances. The checkout, the returns and the cancellations reach the stock through the surface in
    [InventoryForecast], whose answers are identifiers, amounts and one flag.

    Row locks are not state: a locking read is a read, and transactions that share rows follow one
    another as the locks make them. A call is one transaction, but for [SettleBackorder], which drains
    the queue in a transaction for every warehouse after the one that settles, and for the calls of the
    payment service that speak to a provider or give back several captures, which are the transactions
    the code opens, in its order.

    ** Conventions

    [int64] and [int] are [Z] with the wrap-around written out ([add64], [mul64], ...); a theorem
    about amounts shows that no step leaves the range, or says for which inputs. A moment or a duration
    is its number of nanoseconds; the clock, random jitter, fresh identifiers and the database's
    answers are arguments. A nil error is [None] or [Ok]. A Go map is a [gmap]; where its iteration
    order can show, the model takes the entries as a list and a theorem says that the order does not
    matter. [slices.SortFunc] is a merge sort: where the comparison separates all elements, its result
    does not depend on the algorithm ([SortFunc_unique]).

    ** Fuel

    Attempts at a step: [MaxAttempts - attempt] rounds, which is what the policy leaves.
    [run_turns]: two turns, the code's own bound. Calculation rounds: [MaxTotalsAttempts], three, the
    code's own; [CalculateTotals_rounds] says how they end. [stack_rounds]: four, the code's [maxStackDepth].
    Walks down a stack and to its base: one round per rate of the region, which [walk_down_enough]
    shows to suffice. Trimming, runes and digest blocks: one round per byte, each consuming at least
    one. Writes of a level and the fills they start call
    one another: [depth] nestings, which [writes_nest_twice] shows to be as deep as they go. Everything
    else recurses on its data.

    ** What the theorems show

    - Engine: a run goes forward once and then at most backward, compensating in reverse order exactly
      what succeeded; attempts are bounded; one terminal status per execution; idempotency keys answer
      the same run again; recovery compensates exactly the work the records hold. A composite whose
      branches keep apart answers the same under every schedule and leaves nothing behind when it
      fails; when it may be retried; and what its rollback hides from a compensation.
    - Promotions: what is charged adds up and never exceeds a line; shares of an amount are exact and
      fair; the outcome does not depend on the order of candidates, codes or lines; conditions mean
      what they say. Along every history the counters of uses and budgets are the ledger's sums; a use
      is written exactly when it is allowed, once per reference, and a release gives back what it took;
      what a computation offers can be redeemed.
    - Tax: computed tax is exact and bounded; whatever a provider answers, an accepted result adds up;
      rate selection follows its specification; every write keeps the stacks within their base; the
      local provider answers over a sound ledger unless prices that include tax meet a stack, which the
      write checks do not exclude ([stack_over_inclusive_province] shows a market).
    - Cart: the checks of a round accept exactly the rounds that add up; every sequence of calls keeps
      every cart sound; a completed cart is final but for an erasure of its buyer's data; an erasure does
      what its declaration says; merges conserve quantities and add-ons; failures change nothing.
    - Cart workflow: a round's totals follow from the lines, the discounts and the taxes; what the
      modules answer is accepted and what the round computes is; a calculation ends after at most three
      rounds; a failed call changed nothing, or its write stands and only the pricing failed, which its
      code says but for the two calls on coupon codes.
    - Inventory: over any sequence of calls the levels, the standing promises, the ledger, the claims and
      the receipts agree; a promise is settled once; claims are served in queue order and none waits for
      units that are there; the forecast is the fill read forward.
    - Payment: whatever the providers answer and wherever the database fails, the books agree with
      their rows, every call is a sequence of moves of a stated number, no call leaves half of what it does,
      a session is captured once, a refund stays within its cause, each capture and refund is announced once, and the status is the one the figures give;
      the balances agree with the sessions paid from them; a gift card's printed code reads back.

    ** Not modelled

    HTTP handlers, admin UI, OpenAPI, SQL text and drivers, wiring and scaffolding: I/O and
    presentation, whose logic is in the services modelled here. JSON text: a document is the record it
    was encoded from, or bytes that are none. The surfaces of promotion and payment for the checkout,
    the query providers, journals and exports of personal data: encodings of what the operations answer.
    Of the cart workflow the look-up of its surfaces in the container and the trials of a promotion, a
    price list and a tax rate over past orders, which are reports and write nothing. Of payment also the
    listings of movements and moments, the overdue pass over offline methods and the checks of [New].
    Logging, tracing and metrics. The Unicode tables beyond what the accepted inputs need: two characters
    that are not both ASCII fold alike as a parameter says. The order module and its after-sales, pricing,
    the checkout and the other sagas, the component container, the event bus, paging cursors and text
    folding are modules of their own beside the ones modelled; the theorems here do not depend on them. *)
From stdpp Require Export base numbers list gmap strings sorting.
From Stdlib Require Export ZArith Lia.

Set Default Goal Selector "!".

Declare Scope gobit_scope.
Delimit Scope gobit_scope with gobit.

#[global] Open Scope Z_scope.

(** ** Tactics *)

(** Turns boolean tests on integers and strings in the context into propositions. *)
Ltac reflect_bools :=
  repeat match goal with
  | H : (_ && _)%bool = true |- _ => apply andb_true_iff in H as [? ?]
  | H : (_ || _)%bool = false |- _ => apply orb_false_iff in H as [? ?]
  | H : negb _ = true |- _ => apply negb_true_iff in H
  | H : negb _ = false |- _ => apply negb_false_iff in H
  | H : (_ <? _) = true |- _ => apply Z.ltb_lt in H
  | H : (_ <? _) = false |- _ => apply Z.ltb_ge in H
  | H : (_ <=? _) = true |- _ => apply Z.leb_le in H
  | H : (_ <=? _) = false |- _ => apply Z.leb_gt in H
  | H : (_ =? _) = true |- _ => apply Z.eqb_eq in H
  | H : (_ =? _) = false |- _ => apply Z.eqb_neq in H
  | H : bool_decide _ = true |- _ => apply bool_decide_eq_true in H
  | H : bool_decide _ = false |- _ => apply bool_decide_eq_false in H
  end.

(** Splits the goal on every [match] and [if] it shows, keeping the equations. *)
Ltac split_matches := repeat (case_match; simplify_eq/=; try done).

(** ** Machine integers

    Go's [int64] (and [int], which is 64 bits wide on every platform gobit ships for) is a [Z] in
    [[-2^63, 2^63)]; the arithmetic wraps around. *)

Definition int64_min : Z := -9223372036854775808.
Definition int64_max : Z := 9223372036854775807.

Definition in_int64 (z : Z) : Prop := int64_min <= z <= int64_max.

Definition wrap64 (z : Z) : Z := (z + 2 ^ 63) mod 2 ^ 64 - 2 ^ 63.

Definition add64 (a b : Z) : Z := wrap64 (a + b).
Definition sub64 (a b : Z) : Z := wrap64 (a - b).
Definition mul64 (a b : Z) : Z := wrap64 (a * b).

(** Go's integer division truncates toward zero. *)
Definition div64 (a b : Z) : Z := wrap64 (Z.quot a b).
Definition rem64 (a b : Z) : Z := Z.rem a b.

Notation "a +₆₄ b" := (add64 a b) (at level 50, left associativity) : gobit_scope.
Notation "a -₆₄ b" := (sub64 a b) (at level 50, left associativity) : gobit_scope.
Notation "a *₆₄ b" := (mul64 a b) (at level 40, left associativity) : gobit_scope.
#[global] Open Scope gobit_scope.

Create Rewrite HintDb int64.
Create Rewrite HintDb sumZ.
Create HintDb int64.

(** Unfolds the bounds of [int64] so that [lia] sees them. *)
Ltac in64 := unfold in_int64, int64_min, int64_max in *; lia.

Lemma wrap64_id z : in_int64 z -> wrap64 z = z.
Proof.
  unfold wrap64. intros Hz.
  rewrite Z.mod_small; in64.
Qed.

Lemma wrap64_range z : in_int64 (wrap64 z).
Proof.
  unfold wrap64. pose proof (Z.mod_pos_bound (z + 2 ^ 63) (2 ^ 64)). in64.
Qed.

Lemma add64_exact a b : in_int64 (a + b) -> a +₆₄ b = a + b.
Proof. apply wrap64_id. Qed.

Lemma sub64_exact a b : in_int64 (a - b) -> a -₆₄ b = a - b.
Proof. apply wrap64_id. Qed.

Lemma mul64_exact a b : in_int64 (a * b) -> a *₆₄ b = a * b.
Proof. apply wrap64_id. Qed.

(** Division of a non-negative amount by a positive one is the floor and cannot overflow. *)
Lemma div64_exact a b : 0 <= a <= int64_max -> 0 < b -> div64 a b = a / b.
Proof.
  intros Ha Hb. unfold div64. rewrite Z.quot_div_nonneg by lia.
  apply wrap64_id.
  assert (0 <= a / b <= a) by (split; [apply Z.div_pos | apply Z.div_le_upper_bound]; nia).
  in64.
Qed.

Lemma rem64_exact a b : 0 <= a -> 0 < b -> rem64 a b = a mod b.
Proof. intros. unfold rem64. apply Z.rem_mod_nonneg; lia. Qed.

#[export] Hint Rewrite add64_exact sub64_exact mul64_exact using in64 : int64.
#[export] Hint Resolve wrap64_range : int64.

(** An instant: its Unix time in nanoseconds. *)
Definition moment := Z.

(** [time.Time{}]. *)
Definition zero_time : moment := -62135596800000000000.

(** ** Sums over lists *)

Definition sumZ (l : list Z) : Z := foldr Z.add 0 l.

Arguments sumZ : simpl never.

Lemma sumZ_nil : sumZ [] = 0.
Proof. done. Qed.

Lemma sumZ_cons x l : sumZ (x :: l) = x + sumZ l.
Proof. done. Qed.

Lemma sumZ_app l k : sumZ (l ++ k) = sumZ l + sumZ k.
Proof. induction l as [|x l IH]; [done|]. cbn [app]. rewrite !sumZ_cons, IH. lia. Qed.

Lemma sumZ_nonneg l : Forall (Z.le 0) l -> 0 <= sumZ l.
Proof. induction 1; rewrite ?sumZ_nil, ?sumZ_cons; lia. Qed.

Lemma sumZ_perm l k : l ≡ₚ k -> sumZ l = sumZ k.
Proof. induction 1; rewrite ?sumZ_cons; lia. Qed.

Lemma sumZ_le_elem l x : Forall (Z.le 0) l -> x ∈ l -> x <= sumZ l.
Proof.
  intros Hl Hx. apply list_elem_of_split in Hx as (l1 & l2 & ->).
  apply Forall_app in Hl as [Hl1 [_ Hl2]%Forall_cons].
  rewrite sumZ_app, sumZ_cons.
  pose proof (sumZ_nonneg _ Hl1). pose proof (sumZ_nonneg _ Hl2). lia.
Qed.

Lemma sumZ_Forall2_le l k : Forall2 Z.le l k -> sumZ l <= sumZ k.
Proof. induction 1; rewrite ?sumZ_cons; [done|lia]. Qed.

#[export] Hint Rewrite sumZ_nil sumZ_cons sumZ_app : sumZ.

(** The accumulation loop [for ... { total += v }] on [int64]: a fold from the left. *)
Definition sum64 (l : list Z) : Z := foldl add64 0 l.

Lemma foldl_add64 l a :
  Forall (Z.le 0) l -> 0 <= a -> a + sumZ l <= int64_max -> foldl add64 a l = a + sumZ l.
Proof.
  intros Hl. revert a. induction Hl as [|x l Hx Hl IH]; intros a Ha Hs.
  { simpl. rewrite sumZ_nil. lia. }
  rewrite sumZ_cons in *. pose proof (sumZ_nonneg _ Hl). simpl.
  rewrite add64_exact by in64. rewrite IH; lia.
Qed.

Lemma sum64_exact l : Forall (Z.le 0) l -> sumZ l <= int64_max -> sum64 l = sumZ l.
Proof. intros. unfold sum64. rewrite foldl_add64; [done|done|lia|lia]. Qed.

(** ** Comparison functions and [slices.SortFunc]

    A Go comparison returns a negative, zero or positive number. [CmpOrder] is what
    [slices.SortFunc] asks of it: a strict weak order. *)
Class CmpOrder {A} (cmp : A -> A -> Z) := {
  cmp_flip : forall a b, Z.sgn (cmp a b) = - Z.sgn (cmp b a);
  cmp_trans : forall a b c, cmp a b <= 0 -> cmp b c <= 0 -> cmp a c <= 0
}.

Definition cmpZ (a b : Z) : Z :=
  match a ?= b with Lt => -1 | Eq => 0 | Gt => 1 end.

Definition cmpS (a b : string) : Z :=
  match String.compare a b with Lt => -1 | Eq => 0 | Gt => 1 end.

(** [if c := cmp1(a, b); c != 0 { return c }; return cmp2(a, b)]. *)
Definition cmp_then {A} (cmp1 cmp2 : A -> A -> Z) (a b : A) : Z :=
  if cmp1 a b =? 0 then cmp2 a b else cmp1 a b.

Definition cmp_on {A B} (f : A -> B) (cmp : B -> B -> Z) (a b : A) : Z := cmp (f a) (f b).

Definition cmp_le {A} (cmp : A -> A -> Z) : relation A := fun a b => cmp a b <= 0.

#[export] Instance cmp_le_dec {A} (cmp : A -> A -> Z) : RelDecision (cmp_le cmp).
Proof. intros a b. unfold cmp_le. apply _. Defined.

Definition SortFunc {A} (cmp : A -> A -> Z) (l : list A) : list A := merge_sort (cmp_le cmp) l.

#[export] Instance cmpZ_order : CmpOrder cmpZ.
Proof.
  split; unfold cmpZ.
  - intros a b. rewrite (Z.compare_antisym b a). by destruct (b ?= a).
  - intros a b c. destruct (Z.compare_spec a b), (Z.compare_spec b c), (Z.compare_spec a c); lia.
Qed.

Lemma cmpS_le a b : cmpS a b <= 0 <-> String.le a b.
Proof. unfold cmpS, String.le, String.leb. destruct (String.compare a b); simpl; split; lia || done. Qed.

Lemma cmpS_eq a b : cmpS a b = 0 -> a = b.
Proof.
  unfold cmpS. intros H. apply String.compare_eq_iff. by destruct (String.compare a b).
Qed.

#[export] Instance cmpS_order : CmpOrder cmpS.
Proof.
  split.
  - intros a b. unfold cmpS. rewrite (String.compare_antisym b a).
    by destruct (String.compare a b).
  - intros a b c. rewrite !cmpS_le. apply transitivity.
Qed.

(** Not an instance: it would apply to itself. *)
Lemma cmp_flip_order {A} (cmp : A -> A -> Z) :
  CmpOrder cmp -> CmpOrder (fun a b => cmp b a).
Proof. intros [Hf Ht]. split; eauto. Qed.

#[export] Instance cmp_on_order {A B} (f : A -> B) (cmp : B -> B -> Z) :
  CmpOrder cmp -> CmpOrder (cmp_on f cmp).
Proof. intros [Hf Ht]. split; unfold cmp_on; eauto. Qed.

Section CmpFacts.
Context {A : Type} (cmp : A -> A -> Z) `{!CmpOrder cmp}.

Lemma cmp_le_flip a b : cmp a b <= 0 <-> 0 <= cmp b a.
Proof. pose proof (cmp_flip a b). lia. Qed.

Lemma cmp_total a b : cmp a b <= 0 \/ cmp b a <= 0.
Proof. pose proof (cmp_flip a b). lia. Qed.

Lemma cmp_refl a : cmp a a = 0.
Proof. pose proof (cmp_flip a a). lia. Qed.

#[export] Instance cmp_le_trans : Transitive (cmp_le cmp).
Proof. intros a b c. apply cmp_trans. Qed.

#[export] Instance cmp_le_total : Total (cmp_le cmp).
Proof. intros a b. apply cmp_total. Qed.

Lemma SortFunc_perm l : SortFunc cmp l ≡ₚ l.
Proof. apply merge_sort_Permutation. Qed.

Lemma SortFunc_elem x l : x ∈ SortFunc cmp l <-> x ∈ l.
Proof. by rewrite SortFunc_perm. Qed.

Lemma SortFunc_sorted l : StronglySorted (cmp_le cmp) (SortFunc cmp l).
Proof. apply (StronglySorted_merge_sort _). Qed.

(** Where the comparison tells every two elements apart, any two sorted permutations coincide:
    the result does not depend on the algorithm, on its stability or on the input's order. *)
Lemma SortFunc_unique l k :
  (forall a b, a ∈ l -> b ∈ l -> cmp a b = 0 -> a = b) ->
  l ≡ₚ k -> StronglySorted (cmp_le cmp) k -> SortFunc cmp l = k.
Proof.
  intros Hinj Hp Hs. apply (StronglySorted_unique_strong (cmp_le cmp)).
  - intros a b Ha Hb H1 H2. rewrite SortFunc_perm in Ha. rewrite <- Hp in Hb.
    apply Hinj; [done..|]. unfold cmp_le in *. apply cmp_le_flip in H2. lia.
  - apply SortFunc_sorted.
  - done.
  - by rewrite SortFunc_perm.
Qed.

Lemma SortFunc_perm_eq l k :
  (forall a b, a ∈ l -> b ∈ l -> cmp a b = 0 -> a = b) ->
  l ≡ₚ k -> SortFunc cmp l = SortFunc cmp k.
Proof.
  intros Hinj Hp. apply SortFunc_unique; [done| |apply SortFunc_sorted].
  by rewrite SortFunc_perm.
Qed.
End CmpFacts.

#[export] Instance cmp_then_order {A} (cmp1 cmp2 : A -> A -> Z) :
  CmpOrder cmp1 -> CmpOrder cmp2 -> CmpOrder (cmp_then cmp1 cmp2).
Proof.
  intros H1 H2. split; unfold cmp_then.
  - intros a b. pose proof (cmp_flip (cmp := cmp1) a b). pose proof (cmp_flip (cmp := cmp2) a b).
    destruct (Z.eqb_spec (cmp1 a b) 0), (Z.eqb_spec (cmp1 b a) 0); lia.
  - intros a b c.
    pose proof (cmp_trans (cmp := cmp1) a b c). pose proof (cmp_trans (cmp := cmp2) a b c).
    pose proof (cmp_trans (cmp := cmp1) c a b). pose proof (cmp_trans (cmp := cmp1) b c a).
    pose proof (cmp_flip (cmp := cmp1) a b). pose proof (cmp_flip (cmp := cmp1) b c).
    pose proof (cmp_flip (cmp := cmp1) a c).
    destruct (Z.eqb_spec (cmp1 a b) 0), (Z.eqb_spec (cmp1 b c) 0), (Z.eqb_spec (cmp1 a c) 0); lia.
Qed.

(** ** Lists *)

(** [slices.Contains]. *)
Definition Contains (l : list string) (x : string) : bool := bool_decide (x ∈ l).

Lemma Contains_spec l x : Contains l x = true <-> x ∈ l.
Proof. apply bool_decide_eq_true. Qed.

Lemma omap_id_Some {A} (l : list A) : omap id (Some <$> l) = l.
Proof. induction l as [|x l IH]; csimpl; congruence. Qed.

Lemma fmap_fst_zip_eq {A B} (l : list A) (k : list B) :
  length l = length k -> (zip l k).*1 = l.
Proof. intros. apply fst_zip. lia. Qed.

Lemma replicate_fmap {A B} (b : B) (l : list A) : replicate (length l) b = (fun _ => b) <$> l.
Proof. induction l as [|x l IH]; csimpl; congruence. Qed.

Lemma sumZ_const {A} (l : list A) : sumZ ((fun _ => 0) <$> l) = 0.
Proof. induction l as [|x l IH]; csimpl; rewrite ?sumZ_cons; lia || done. Qed.

Lemma filter_all {A} (P : A -> Prop) `{!forall x, Decision (P x)} (l : list A) :
  Forall P l -> filter P l = l.
Proof. induction 1 as [|x l Hx _ IH]; [done|]. rewrite filter_cons_True by done. by rewrite IH. Qed.

Lemma NoDup_fmap_filter {A B} (f : A -> B) (P : A -> Prop) `{!forall x, Decision (P x)} (l : list A) :
  NoDup (f <$> l) -> NoDup (f <$> filter P l).
Proof.
  induction l as [|x l IH]; [done|]. rewrite fmap_cons. intros [Hx Hl]%NoDup_cons.
  destruct (decide (P x)); [rewrite filter_cons_True by done|rewrite filter_cons_False by done; auto].
  rewrite fmap_cons. apply NoDup_cons. split; [|auto].
  intros (y & E & [_ Hy]%list_elem_of_filter)%list_elem_of_fmap. apply Hx. rewrite E. by apply list_elem_of_fmap_2.
Qed.

Lemma Forall2_perm_l {A B} (R : A -> B -> Prop) l l' k :
  l ≡ₚ l' -> Forall2 R l k -> exists k', k ≡ₚ k' /\ Forall2 R l' k'.
Proof.
  intros Hp. revert k. induction Hp as [|x l l' _ IH|x y l|l l1 l' _ IH1 _ IH2]; intros k Hk.
  - by exists k.
  - apply Forall2_cons_inv_l in Hk as (b & k0 & Hb & Hk & ->). destruct (IH k0 Hk) as (k' & ? & ?).
    exists (b :: k'). split; [by constructor|by constructor].
  - apply Forall2_cons_inv_l in Hk as (b & k0 & Hb & Hk & ->).
    apply Forall2_cons_inv_l in Hk as (c & k1 & Hc & Hk & ->).
    exists (c :: b :: k1). split; [constructor|by repeat constructor].
  - destruct (IH1 k Hk) as (k1 & Hp1 & Hk1). destruct (IH2 k1 Hk1) as (k' & Hp2 & Hk').
    exists k'. split; [by etrans|done].
Qed.
