(* ===== verification/GoText.v ===== *)
(** * Strings as Go uses them

    A Go string is a sequence of bytes; here it is a [string], one [ascii] per byte. This file holds
    what the modelled code uses of the packages [strings], [strconv], [fmt], [crypto/sha256], [encoding/hex]
    and [encoding/json].

    [ToUpper] maps the ASCII letters and the two other characters whose upper case is an ASCII
    letter, U+0131 and U+017F; every other non-ASCII character keeps its bytes. The callers here
    accept ASCII results only, so which inputs they accept, and what they return for them, is what
    Go's full Unicode tables give. [quote] keeps non-ASCII bytes as they are; quoted text only ever
    reaches messages. *)
From stdpp Require Import pretty.
From S2P Require Import Prelude.

(** [len(s)]: the number of bytes. *)
Definition len (s : string) : Z := Z.of_nat (String.length s).

Definition byte_of (c : Ascii.ascii) : Z := Z.of_N (Ascii.N_of_ascii c).

Definition bytes (s : string) : list Z := byte_of <$> String.list_ascii_of_string s.

Definition of_bytes (l : list Z) : string :=
  String.string_of_list_ascii ((fun z => Ascii.ascii_of_N (Z.to_N z)) <$> l).

(** ** [strings.TrimSpace]

    The UTF-8 encodings of the characters [unicode.IsSpace] accepts. *)
Definition space_len (l : list Z) : nat :=
  match l with
  | c :: rest =>
      if ((9 <=? c) && (c <=? 13)) || (c =? 32) then 1%nat
      else match c, rest with
      | 0xC2, d :: _ => if (d =? 0x85) || (d =? 0xA0) then 2%nat else 0%nat
      | 0xE1, 0x9A :: 0x80 :: _ => 3%nat
      | 0xE2, 0x80 :: e :: _ =>
          if ((0x80 <=? e) && (e <=? 0x8A)) || (e =? 0xA8) || (e =? 0xA9) || (e =? 0xAF)
          then 3%nat else 0%nat
      | 0xE2, 0x81 :: 0x9F :: _ => 3%nat
      | 0xE3, 0x80 :: 0x80 :: _ => 3%nat
      | _, _ => 0%nat
      end
  | [] => 0%nat
  end.

(** Drops the longest prefix of spaces; every round drops at least one byte, so [length l] rounds
    are enough. *)
Fixpoint trim_left_rounds (rounds : nat) (l : list Z) : list Z :=
  match rounds with
  | O => l
  | S rounds' =>
      match space_len l with
      | O => l
      | n => trim_left_rounds rounds' (drop n l)
      end
  end.

Definition trim_left (l : list Z) : list Z := trim_left_rounds (length l) l.

(** The length of the space [l] ends with, zero when it ends with something else. UTF-8 is
    self-synchronising, so a suffix that is the encoding of a space is that character. *)
Definition space_len_end (l : list Z) : nat :=
  let n := length l in
  if bool_decide (space_len (drop (n - 3) l) = 3%nat /\ 3 <= n)%nat then 3%nat
  else if bool_decide (space_len (drop (n - 2) l) = 2%nat /\ 2 <= n)%nat then 2%nat
  else if bool_decide (space_len (drop (n - 1) l) = 1%nat /\ 1 <= n)%nat then 1%nat
  else 0%nat.

Fixpoint trim_right_rounds (rounds : nat) (l : list Z) : list Z :=
  match rounds with
  | O => l
  | S rounds' =>
      match space_len_end l with
      | O => l
      | n => trim_right_rounds rounds' (take (length l - n) l)
      end
  end.

Definition trim_right (l : list Z) : list Z := trim_right_rounds (length l) l.

Definition TrimSpace (s : string) : string := of_bytes (trim_right (trim_left (bytes s))).

Definition is_upper (c : Z) : bool := (65 <=? c) && (c <=? 90).
Definition is_digit (c : Z) : bool := (48 <=? c) && (c <=? 57).
Definition is_lower (c : Z) : bool := (97 <=? c) && (c <=? 122).

(** ** Runes

    [[]rune(s)], each rune as the bytes it stands for: a well-formed UTF-8 sequence, or one byte
    where there is none (Go reads U+FFFD there). *)
Definition continuation (c : Z) : bool := (0x80 <=? c) && (c <=? 0xBF).

Definition between (lo hi c : Z) : bool := (lo <=? c) && (c <=? hi).

(** What the second byte of a sequence that starts with [c] may be. *)
Definition second_byte (c d : Z) : bool :=
  if c =? 0xE0 then between 0xA0 0xBF d
  else if c =? 0xED then between 0x80 0x9F d
  else if c =? 0xF0 then between 0x90 0xBF d
  else if c =? 0xF4 then between 0x80 0x8F d
  else continuation d.

Definition rune_width (l : list Z) : nat :=
  match l with
  | c :: d :: rest =>
      if between 0xC2 0xDF c && continuation d then 2%nat
      else match rest with
      | e :: rest =>
          if between 0xE0 0xEF c && second_byte c d && continuation e then 3%nat
          else match rest with
          | f :: _ =>
              if between 0xF0 0xF4 c && second_byte c d && continuation e && continuation f
              then 4%nat else 1%nat
          | [] => 1%nat
          end
      | [] => 1%nat
      end
  | _ => 1%nat
  end.

(** Every round takes at least one byte, so [length l] rounds are enough. *)
Fixpoint runes_rounds (rounds : nat) (l : list Z) : list (list Z) :=
  match rounds, l with
  | S rounds', _ :: _ => take (rune_width l) l :: runes_rounds rounds' (drop (rune_width l) l)
  | _, _ => []
  end.

Definition runes (s : string) : list (list Z) := runes_rounds (String.length s) (bytes s).

(** A rune that is an ASCII character accepted by [p]. *)
Definition ascii_rune (p : Z -> bool) (r : list Z) : bool :=
  match r with [c] => (c <? 0x80) && p c | _ => false end.

(** [unicode.IsControl]: U+0000-U+001F and U+007F-U+009F. *)
Definition IsControl (r : list Z) : bool :=
  match r with
  | [c] => (c <=? 0x1F) || (c =? 0x7F)
  | [0xC2; d] => (0x80 <=? d) && (d <=? 0x9F)
  | _ => false
  end.

(** [unicode.IsSpace]. *)
Definition IsSpace (r : list Z) : bool :=
  match space_len r with O => false | _ => true end.

(** ** [strings.ToUpper] *)
Fixpoint upper_bytes (l : list Z) : list Z :=
  match l with
  | 0xC4 :: 0xB1 :: rest => 73 :: upper_bytes rest
  | 0xC5 :: 0xBF :: rest => 83 :: upper_bytes rest
  | c :: rest => (if (97 <=? c) && (c <=? 122) then c - 32 else c) :: upper_bytes rest
  | [] => []
  end.

Definition ToUpper (s : string) : string := of_bytes (upper_bytes (bytes s)).

(** [strings.HasPrefix]. *)
Definition HasPrefix (s prefix : string) : bool := String.prefix prefix s.

(** [strings.Join]. *)
Fixpoint Join_with (sep : string) (l : list string) : string :=
  match l with
  | [] => EmptyString
  | [x] => x
  | x :: l' => String.append x (String.append sep (Join_with sep l'))
  end.

(** ** Numbers in text *)

(** [strconv.ParseInt(s, 10, 64)]: an optional sign, at least one digit, and the value in range. *)
Fixpoint parse_digits (acc : Z) (l : list Z) : option Z :=
  match l with
  | [] => Some acc
  | c :: rest => if (48 <=? c) && (c <=? 57) then parse_digits (acc * 10 + (c - 48)) rest else None
  end.

Definition ParseInt (s : string) : option Z :=
  let '(neg, digits) :=
    match bytes s with
    | 43 :: rest => (false, rest)
    | 45 :: rest => (true, rest)
    | l => (false, l)
    end in
  match digits with
  | [] => None
  | _ =>
      v ← parse_digits 0 digits;
      let z := if neg : bool then - v else v in
      if (int64_min <=? z) && (z <=? int64_max) then Some z else None
  end.

(** ** [fmt.Sprintf] *)
Inductive arg := AStr (s : string) | AInt (z : Z).

#[export] Instance arg_eq_dec : EqDecision arg.
Proof. solve_decision. Defined.

Definition hex_digit (n : Z) : Z := if n <? 10 then 48 + n else 87 + n.

Definition quote_byte (c : Z) : list Z :=
  if c =? 34 then [92; 34]
  else if c =? 92 then [92; 92]
  else if c =? 7 then [92; 97]
  else if c =? 8 then [92; 98]
  else if c =? 12 then [92; 102]
  else if c =? 10 then [92; 110]
  else if c =? 13 then [92; 114]
  else if c =? 9 then [92; 116]
  else if c =? 11 then [92; 118]
  else if (c <? 32) || (c =? 127) then [92; 120; hex_digit (c / 16); hex_digit (c mod 16)]
  else [c].

Definition quote (s : string) : string := of_bytes (34 :: concat (quote_byte <$> bytes s) ++ [34]).

(** The verbs the modelled messages use: [%s], [%d], [%v], [%q] and [%%]. *)
Definition is_byte (c : Ascii.ascii) (z : Z) : bool := byte_of c =? z.

Definition render (verb : Ascii.ascii) (a : arg) : string :=
  match a with
  | AStr s => if is_byte verb 113 then quote s else s
  | AInt z => pretty z
  end.

Fixpoint sprintf (format : string) (args : list arg) : string :=
  match format with
  | EmptyString => EmptyString
  | String c rest =>
      if is_byte c 37 then
        match rest with
        | String verb rest' =>
            if is_byte verb 37 then String verb (sprintf rest' args)
            else match args with
            | a :: args' => String.append (render verb a) (sprintf rest' args')
            | [] => String.append "%!" (String verb (String.append "(MISSING)" (sprintf rest' [])))
            end
        | EmptyString => "%!(NOVERB)"
        end
      else String c (sprintf rest args)
  end.

Arguments sprintf : simpl never.

(** * Digests and JSON as Go computes them

    What the modelled code uses of [crypto/sha256], [encoding/hex] and [encoding/json]: the digest
    of a byte string, its hexadecimal text, and the JSON of a map of strings. *)

(** ** SHA-256 (FIPS 180-4), on 32-bit words kept as [Z] *)

Definition add32 (a b : Z) : Z := (a + b) mod 2 ^ 32.

Definition rotr32 (n x : Z) : Z := Z.lor (Z.shiftr x n) (Z.shiftl x (32 - n) mod 2 ^ 32).

(** The constants are the first 32 bits of the fractional parts of the cube roots of the first 64
    primes, and of the square roots of the first eight. *)
Definition is_prime (n : Z) : bool := forallb (fun d => negb (n mod d =? 0)) (seqZ 2 (n - 2)).

Definition first_primes : list Z := filter (fun n => is_prime n) (seqZ 2 310).

(** The integer cube root, from the bit [bits] downwards. *)
Fixpoint cube_root (bits : nat) (c n : Z) : Z :=
  match bits with
  | O => c
  | S bits' =>
      let c' := c + 2 ^ Z.of_nat bits' in
      cube_root bits' (if c' ^ 3 <=? n then c' else c) n
  end.

Definition sha_k : list Z :=
  Eval vm_compute in (fun p => cube_root 36 0 (p * 2 ^ 96) mod 2 ^ 32) <$> first_primes.

Definition sha_init : list Z :=
  Eval vm_compute in (fun p => Z.sqrt (p * 2 ^ 64) mod 2 ^ 32) <$> take 8 first_primes.

Definition at_word (l : list Z) (i : nat) : Z := default 0 (l !! i).

(** The schedule, newest word first: [w] holds the words so far. *)
Fixpoint sha_extend (rounds : nat) (w : list Z) : list Z :=
  match rounds with
  | O => w
  | S rounds' =>
      let w15 := at_word w 14 in
      let w2 := at_word w 1 in
      let s0 := Z.lxor (Z.lxor (rotr32 7 w15) (rotr32 18 w15)) (Z.shiftr w15 3) in
      let s1 := Z.lxor (Z.lxor (rotr32 17 w2) (rotr32 19 w2)) (Z.shiftr w2 10) in
      sha_extend rounds'
        (add32 (add32 (at_word w 15) s0) (add32 (at_word w 6) s1) :: w)
  end.

Definition sha_round (h : list Z) (kw : Z * Z) : list Z :=
  match h with
  | [a; b; c; d; e; f; g; hh] =>
      let s1 := Z.lxor (Z.lxor (rotr32 6 e) (rotr32 11 e)) (rotr32 25 e) in
      let ch := Z.lxor (Z.land e f) (Z.land (Z.lxor e (2 ^ 32 - 1)) g) in
      let t1 := add32 (add32 hh s1) (add32 (add32 ch kw.1) kw.2) in
      let s0 := Z.lxor (Z.lxor (rotr32 2 a) (rotr32 13 a)) (rotr32 22 a) in
      let maj := Z.lxor (Z.lxor (Z.land a b) (Z.land a c)) (Z.land b c) in
      [add32 t1 (add32 s0 maj); a; b; c; add32 d t1; e; f; g]
  | _ => h
  end.

(** [n] bytes of [z], the most significant first. *)
Fixpoint big_endian (n : nat) (z : Z) : list Z :=
  match n with
  | O => []
  | S n' => big_endian n' (z / 256) ++ [z mod 256]
  end.

Fixpoint words (l : list Z) : list Z :=
  match l with
  | a :: b :: c :: d :: rest => (((a * 256 + b) * 256 + c) * 256 + d) :: words rest
  | _ => []
  end.

Definition sha_block (h : list Z) (block : list Z) : list Z :=
  let w := rev (sha_extend 48 (rev (words block))) in
  zip_with add32 h (foldl sha_round h (zip sha_k w)).

Fixpoint sha_blocks (rounds : nat) (h l : list Z) : list Z :=
  match rounds, l with
  | S rounds', _ :: _ => sha_blocks rounds' (sha_block h (take 64 l)) (drop 64 l)
  | _, _ => h
  end.

(** The message, a one bit, zeros up to eight bytes short of a block, and the length in bits. *)
Definition sha_pad (l : list Z) : list Z :=
  let n := Z.of_nat (length l) in
  l ++ 0x80 :: replicate (Z.to_nat ((55 - n) mod 64)) 0 ++ big_endian 8 (8 * n).

(** [sha256.Sum256]; every block takes 64 bytes, so [length] rounds are enough. *)
Definition Sum256 (l : list Z) : list Z :=
  let padded := sha_pad l in
  concat (big_endian 4 <$> sha_blocks (length padded) sha_init padded).

(** [hex.EncodeToString]. *)
Definition hex (l : list Z) : string :=
  of_bytes (concat ((fun c => [hex_digit (c / 16); hex_digit (c mod 16)]) <$> l)).

Example Sum256_abc : hex (Sum256 (bytes "abc")) =
  "ba7816bf8f01cfea414140de5dae2223b00361a396177a9cb410ff61f20015ad".
Proof. vm_compute. reflexivity. Qed.

Example Sum256_two_blocks :
  hex (Sum256 (bytes "abcdbcdecdefdefgefghfghighijhijkijkljklmklmnlmnomnopnopq")) =
  "248d6a61d20638b8e5c026930c3e6039a33ce45964ff2167f6ecedd419db06c1".
Proof. vm_compute. reflexivity. Qed.

(** ** [json.Marshal] of a string and of a [map[string]string]

    HTML characters are escaped, as [json.Marshal] does; a byte that is not part of a UTF-8
    sequence becomes U+FFFD; keys come in byte order. *)
Definition json_rune (r : list Z) : list Z :=
  match r with
  | [c] =>
      if c =? 34 then [92; 34]
      else if c =? 92 then [92; 92]
      else if c =? 8 then [92; 98]
      else if c =? 12 then [92; 102]
      else if c =? 10 then [92; 110]
      else if c =? 13 then [92; 114]
      else if c =? 9 then [92; 116]
      else if (c <? 32) || (c =? 60) || (c =? 62) || (c =? 38) then
        bytes "\u00" ++ [hex_digit (c / 16); hex_digit (c mod 16)]
      else if 0x80 <=? c then bytes "\ufffd"
      else [c]
  | [0xE2; 0x80; 0xA8] => bytes "\u2028"
  | [0xE2; 0x80; 0xA9] => bytes "\u2029"
  | _ => r
  end.

Definition json_string (s : string) : list Z := 34 :: concat (json_rune <$> runes s) ++ [34].

Fixpoint commas (l : list (list Z)) : list Z :=
  match l with
  | [] => []
  | [x] => x
  | x :: l' => x ++ 44 :: commas l'
  end.

Definition json_object (m : gmap string string) : list Z :=
  123 :: commas ((fun kv => json_string kv.1 ++ 58 :: json_string kv.2) <$>
    SortFunc (cmp_on fst cmpS) (map_to_list m)) ++ [125].

Example json_object_ex : of_bytes (json_object {[ "b" := "x<y"; "a" := "1" ]}) =
  of_bytes ([123] ++ [34;97;34;58;34;49;34;44] ++ [34;98;34;58;34;120] ++ bytes "\u003c" ++ [121;34;125]).
Proof. vm_compute. reflexivity. Qed.

(** ** Strings and bytes *)

Definition upper1 (c : Z) : Z := if (97 <=? c) && (c <=? 122) then c - 32 else c.

Lemma upper_bytes_cons c t : upper_bytes (c :: t) =
  match c, t with
  | 0xC4, 0xB1 :: rest => 73 :: upper_bytes rest
  | 0xC5, 0xBF :: rest => 83 :: upper_bytes rest
  | _, _ => upper1 c :: upper_bytes t
  end.
Proof. reflexivity. Qed.

(** The two characters of two bytes; anything else goes byte by byte. *)
Lemma upper_split c t : (exists rest, c = 0xC4 /\ t = 0xB1 :: rest /\ upper_bytes (c :: t) = 73 :: upper_bytes rest) \/
  (exists rest, c = 0xC5 /\ t = 0xBF :: rest /\ upper_bytes (c :: t) = 83 :: upper_bytes rest) \/
  upper_bytes (c :: t) = upper1 c :: upper_bytes t.
Proof.
  destruct (decide (c = 0xC4)) as [->|H1].
  { destruct t as [|d rest]; [by right; right|]. destruct (decide (d = 0xB1)) as [->|Hd]; [left; by exists rest|right; right].
    rewrite upper_bytes_cons. repeat (case_match; try done). }
  destruct (decide (c = 0xC5)) as [->|H2].
  { destruct t as [|d rest]; [by right; right|]. destruct (decide (d = 0xBF)) as [->|Hd]; [right; left; by exists rest|right; right].
    rewrite upper_bytes_cons. repeat (case_match; try done). }
  right; right. rewrite upper_bytes_cons. repeat (case_match; try done).
Qed.

Lemma bytes_of_bytes l : Forall (fun c => 0 <= c < 256) l -> bytes (of_bytes l) = l.
Proof.
  intros H. unfold bytes, of_bytes. rewrite String.list_ascii_of_string_of_list_ascii.
  rewrite <- list_fmap_compose. rewrite <- (list_fmap_id l) at 2. apply Forall_fmap_ext_1.
  eapply Forall_impl; [exact H|]. intros c Hc. cbn beta in Hc. change (Z.of_N (Ascii.N_of_ascii (Ascii.ascii_of_N (Z.to_N c))) = c).
  rewrite Ascii.N_ascii_embedding by lia. lia.
Qed.

Lemma of_bytes_bytes s : of_bytes (bytes s) = s.
Proof.
  unfold bytes, of_bytes. rewrite <- list_fmap_compose. rewrite <- (String.string_of_list_ascii_of_string s) at 2. f_equal.
  rewrite <- (list_fmap_id (String.list_ascii_of_string s)) at 2. apply list_fmap_ext. intros i c _. cbn. unfold byte_of.
  rewrite N2Z.id. apply Ascii.ascii_N_embedding.
Qed.

Lemma bytes_range s : Forall (fun c => 0 <= c < 256) (bytes s).
Proof.
  unfold bytes. apply Forall_fmap, Forall_forall. intros c _. cbn. unfold byte_of. pose proof (Ascii.N_ascii_bounded c). lia.
Qed.

Lemma upper_bytes_range t : Forall (fun c => 0 <= c < 256) t -> Forall (fun c => 0 <= c < 256) (upper_bytes t).
Proof.
  remember (length t) as k eqn:Ek. revert t Ek. induction (lt_wf k) as [k _ IH]; intros t -> Hb.
  destruct t as [|c t]; [done|]. apply Forall_cons in Hb as [Hc Hb].
  destruct (upper_split c t) as [(r & -> & -> & ->)|[(r & -> & -> & ->)| ->]].
  - apply Forall_cons in Hb as [_ Hb]. constructor; [lia|]. eapply IH; [|done..]. cbn. lia.
  - apply Forall_cons in Hb as [_ Hb]. constructor; [lia|]. eapply IH; [|done..]. cbn. lia.
  - constructor; [unfold upper1; case_match; lia|]. eapply IH; [|done..]. cbn. lia.
Qed.

(** No ASCII letter stays lower case. *)
Lemma upper_bytes_no_lower t : Forall (fun c => 0 <= c < 256) t -> Forall (fun c => is_lower c = false) (upper_bytes t).
Proof.
  remember (length t) as k eqn:Ek. revert t Ek. induction (lt_wf k) as [k _ IH]; intros t -> Hb.
  destruct t as [|c t]; [constructor|]. apply Forall_cons in Hb as [Hc Hb].
  destruct (upper_split c t) as [(r & -> & -> & ->)|[(r & -> & -> & ->)| ->]].
  - apply Forall_cons in Hb as [_ Hb]. constructor; [done|]. eapply IH; [|done..]. cbn. lia.
  - apply Forall_cons in Hb as [_ Hb]. constructor; [done|]. eapply IH; [|done..]. cbn. lia.
  - constructor; [unfold upper1, is_lower; case_match; lia|]. eapply IH; [|done..]. cbn. lia.
Qed.

Lemma ToUpper_no_lower s : Forall (fun c => is_lower c = false) (bytes (ToUpper s)).
Proof.
  unfold ToUpper. rewrite bytes_of_bytes by (apply upper_bytes_range, bytes_range).
  apply upper_bytes_no_lower, bytes_range.
Qed.
