(* ===== verification/Errors.v ===== *)
(** * The typed error model: [core/errors/errors.go]

    An error value is a tree: a sentinel made by [errors.New] (its identity is its text here: the
    program makes every sentinel once), a typed [*Error], or the join of several errors. A nil
    [error] is [None] of [option err]. The chain functions [Is] and [As] walk the tree in the
    standard library's order, parent before children, siblings from left to right. *)
From S2P Require Import Prelude GoText.
Set Warnings "-register-all".

Inductive Kind :=
| KindInternal
| KindNotFound
| KindInvalid
| KindConflict
| KindUnauthorized
| KindForbidden
| KindUnavailable
| KindTooManyRequests
| KindPreconditionFailed.

#[export] Instance Kind_eq_dec : EqDecision Kind.
Proof. solve_decision. Defined.

Definition Kind_String (k : Kind) : string :=
  match k with
  | KindNotFound => "not_found"
  | KindInvalid => "invalid"
  | KindConflict => "conflict"
  | KindUnauthorized => "unauthorized"
  | KindForbidden => "forbidden"
  | KindUnavailable => "unavailable"
  | KindTooManyRequests => "too_many_requests"
  | KindPreconditionFailed => "precondition_failed"
  | KindInternal => "internal"
  end.

(** [Typed] is the struct [Error]: its kind, its code, its message, its details and the error it
    wraps. *)
Inductive err :=
| Sentinel (text : string)
| Typed (kind : Kind) (code message : string) (details : gmap string arg) (cause : option err)
| Joined (errs : list err).

Section ErrInd.
Variable P : err -> Prop.
Hypothesis Hsentinel : forall t, P (Sentinel t).
Hypothesis Htyped0 : forall k c m d, P (Typed k c m d None).
Hypothesis Htyped : forall k c m d e, P e -> P (Typed k c m d (Some e)).
Hypothesis Hjoined : forall l, Forall P l -> P (Joined l).

Fixpoint err_tree_ind (e : err) : P e :=
  match e with
  | Sentinel t => Hsentinel t
  | Typed k c m d None => Htyped0 k c m d
  | Typed k c m d (Some e') => Htyped k c m d e' (err_tree_ind e')
  | Joined l =>
      Hjoined l ((fix go (l : list err) : Forall P l :=
        match l with
        | [] => Forall_nil_2 P
        | e' :: l' => Forall_cons_2 P e' l' (err_tree_ind e') (go l')
        end) l)
  end.
End ErrInd.

Definition newError (kind : Kind) (code format : string) (a : list arg) : err :=
  Typed kind code (sprintf format a) ∅ None.

Definition NotFound := newError KindNotFound.
Definition Invalid := newError KindInvalid.
Definition Conflict := newError KindConflict.
Definition Unauthorized := newError KindUnauthorized.
Definition Forbidden := newError KindForbidden.
Definition TooManyRequests := newError KindTooManyRequests.
Definition PreconditionFailed := newError KindPreconditionFailed.
Definition Unavailable := newError KindUnavailable.
Definition Internal := newError KindInternal.

(** [Wrap] of a non-nil error; [Wrap] itself returns nil for nil. *)
Definition wrap (e : err) (kind : Kind) (code format : string) (a : list arg) : err :=
  Typed kind code (sprintf format a) ∅ (Some e).

Definition Wrap (e : option err) (kind : Kind) (code format : string) (a : list arg) : option err :=
  match e with
  | None => None
  | Some e => Some (wrap e kind code format a)
  end.

(** [errors.Join] drops nils and is nil when nothing is left. *)
Definition Join (l : list (option err)) : option err :=
  match omap id l with
  | [] => None
  | es => Some (Joined es)
  end.

(** [errors.Is] against a sentinel. *)
Fixpoint Is (e : err) (target : string) : bool :=
  match e with
  | Sentinel t => bool_decide (t = target)
  | Typed _ _ _ _ (Some cause) => Is cause target
  | Typed _ _ _ _ None => false
  | Joined l => existsb (fun e' => Is e' target) l
  end.

(** [errors.As] to [*Error]: the kind and the code of the first typed error of the chain. *)
Fixpoint As (e : err) : option (Kind * string) :=
  match e with
  | Sentinel _ => None
  | Typed k code _ _ _ => Some (k, code)
  | Joined l => foldr (fun e' rest => match As e' with Some x => Some x | None => rest end) None l
  end.

Definition KindOf (e : err) : Kind :=
  match As e with Some (k, _) => k | None => KindInternal end.

Definition CodeOf (e : err) : string :=
  match As e with Some (_, code) => code | None => EmptyString end.

Definition HasKind (e : option err) (kind : Kind) : bool :=
  match e with None => false | Some e => bool_decide (KindOf e = kind) end.

Definition IsNotFound (e : option err) : bool := HasKind e KindNotFound.
Definition IsInvalid (e : option err) : bool := HasKind e KindInvalid.
Definition IsConflict (e : option err) : bool := HasKind e KindConflict.

(** [Error.WithDetails]: later keys overwrite. On anything but a typed error it has no meaning;
    its callers reach it through [errors.As]. *)
Definition WithDetails (e : err) (kv : gmap string arg) : err :=
  match e with
  | Typed k c m d cause => Typed k c m (kv ∪ d) cause
  | _ => e
  end.

Definition newline : string := of_bytes [10].

(** The method [Error] of the three shapes; [Joined] puts one message per line. *)
Fixpoint ErrorText (e : err) : string :=
  match e with
  | Sentinel t => t
  | Typed _ code message _ cause =>
      let msg :=
        if bool_decide (code = EmptyString) then message
        else String.append code (String.append ": " message) in
      match cause with
      | Some c => String.append msg (String.append ": " (ErrorText c))
      | None => msg
      end
  | Joined l =>
      (fix go (l : list err) : string :=
        match l with
        | [] => EmptyString
        | [e'] => ErrorText e'
        | e' :: l' => String.append (ErrorText e') (String.append newline (go l'))
        end) l
  end.

Arguments ErrorText : simpl never.

(** ** Results: what a Go function returning [(T, error)] gives *)

Inductive result (A : Type) :=
| Ok (a : A)
| Fail (e : err).
Arguments Ok {A} a.
Arguments Fail {A} e.

#[export] Instance result_ret : MRet result := @Ok.
#[export] Instance result_bind : MBind result :=
  fun A B f m => match m with Ok a => f a | Fail e => Fail e end.
#[export] Instance result_fmap : FMap result :=
  fun A B f m => match m with Ok a => Ok (f a) | Fail e => Fail e end.

(** [if err := check(); err != nil { return err }]. *)
Definition guard_err {A} (c : option err) (k : result A) : result A :=
  match c with Some e => Fail e | None => k end.

Notation "'check' c ';;' k" := (guard_err c k)
  (at level 100, c at level 99, k at level 200, right associativity, only parsing) : gobit_scope.

Definition is_ok {A} (r : result A) : bool := match r with Ok _ => true | Fail _ => false end.

(** Takes a computation of type [result] that succeeded apart into its successful steps. *)
Ltac result_inv :=
  repeat match goal with
  | H : mbind _ ?m = Ok _ |- _ =>
      let E := fresh "E" in destruct m eqn:E; simpl in H; [|discriminate H]
  | H : guard_err ?c _ = Ok _ |- _ =>
      let E := fresh "E" in destruct c eqn:E; simpl in H; [discriminate H|]
  | H : (if ?b then Fail _ else _) = Ok _ |- _ =>
      let E := fresh "E" in destruct b eqn:E; [discriminate H|]
  | H : (if ?b then _ else Fail _) = Ok _ |- _ =>
      let E := fresh "E" in destruct b eqn:E; [|discriminate H]
  | H : Ok _ = Ok _ |- _ => injection H as H
  | H : mret _ = Ok _ |- _ => injection H as H
  end.

(** ** The chain *)

(** The errors [errors.Is] looks at, in its order. *)
Fixpoint chain (e : err) : list err :=
  e :: match e with
  | Sentinel _ => []
  | Typed _ _ _ _ (Some cause) => chain cause
  | Typed _ _ _ _ None => []
  | Joined l => flat_map chain l
  end.

Lemma Is_chain e t : Is e t = true <-> Sentinel t ∈ chain e.
Proof.
  induction e as [t'|k c m d|k c m d e IH|l IH] using err_tree_ind; cbn [Is chain].
  - rewrite bool_decide_eq_true, list_elem_of_singleton. split; [by intros ->|congruence].
  - rewrite list_elem_of_singleton. done.
  - rewrite IH, elem_of_cons. split; [by right|]. by intros [?|?].
  - rewrite existsb_exists, elem_of_cons. split.
    + intros (e' & Hin & He'). right. apply list_elem_of_In, in_flat_map.
      exists e'. split; [done|]. rewrite Forall_forall in IH.
      apply list_elem_of_In. by apply IH; [apply list_elem_of_In|].
    + intros [?|Hin]; [done|]. apply list_elem_of_In, in_flat_map in Hin as (e' & Hin & He').
      exists e'. split; [done|]. rewrite Forall_forall in IH.
      apply IH; [by apply list_elem_of_In|]. by apply list_elem_of_In.
Qed.

(** A wrap is transparent to [Is] and decides kind and code itself. *)
Lemma Is_wrap e k c f a t : Is (wrap e k c f a) t = Is e t.
Proof. done. Qed.

Lemma KindOf_wrap e k c f a : KindOf (wrap e k c f a) = k.
Proof. done. Qed.

Lemma CodeOf_wrap e k c f a : CodeOf (wrap e k c f a) = c.
Proof. done. Qed.

Lemma KindOf_newError k c f a : KindOf (newError k c f a) = k.
Proof. done. Qed.

Lemma Is_newError k c f a t : Is (newError k c f a) t = false.
Proof. done. Qed.

Lemma Is_Joined l t : Is (Joined l) t = existsb (fun e => Is e t) l.
Proof. done. Qed.

Lemma Join_None l : Join l = None <-> Forall (.= None) l.
Proof.
  unfold Join. induction l as [|[e|] l IH]; csimpl.
  - split; [constructor|done].
  - split; [done|]. intros H%Forall_cons_1. by destruct H.
  - rewrite IH. split; [by constructor|]. by intros [_ ?]%Forall_cons_1.
Qed.

Create Rewrite HintDb errors.
#[export] Hint Rewrite Is_wrap KindOf_wrap CodeOf_wrap KindOf_newError Is_newError Is_Joined : errors.
