(* ===== verification/Tx.v ===== *)
(** * Transactions

    A service operation that reads and writes a store: it takes the store's state and gives the
    state after it with what the Go function returned. [yields] states what holds whenever a
    computation succeeds; its rules follow a body statement by statement. *)
From S2P Require Import Prelude GoText Errors.

Definition tx (St A : Type) : Type := St -> St * result A.

#[export] Instance tx_ret St : MRet (tx St) := fun A a st => (st, Ok a).

#[export] Instance tx_bind St : MBind (tx St) := fun A B f m st =>
  match m st with
  | (st', Ok a) => f a st'
  | (st', Fail e) => (st', Fail e)
  end.

Section Tx.
Context {St : Type}.

(** A read of the state. *)
Definition tx_read {A} (f : St -> result A) : tx St A := fun st => (st, f st).

(** A computation that does not touch the store. *)
Definition tx_of {A} (r : result A) : tx St A := fun st => (st, r).

(** [if err := check(); err != nil { return err }]. *)
Definition tx_check (c : option err) : tx St unit :=
  fun st => (st, match c with Some e => Fail e | None => Ok tt end).

(** A write that answers nothing but an error. *)
Definition tx_do (f : St -> St * option err) : tx St unit := fun st =>
  match f st with
  | (st', None) => (st', Ok tt)
  | (st', Some e) => (st', Fail e)
  end.

(** Only what a computation does, not what it answers. *)
Definition ignore {A} (m : tx St A) : tx St unit := _ ← m; mret tt.

(** A transaction: an error of the body or of the commit leaves the state as it was. [commit] is
    the error of committing a state, if any. *)
Definition atomically {A} (commit : St -> option err) (m : tx St A) : tx St A := fun st =>
  match m st with
  | (st', Ok a) => match commit st' with None => (st', Ok a) | Some e => (st, Fail e) end
  | (_, Fail e) => (st, Fail e)
  end.

Definition yields {A} (st : St) (m : tx St A) (Q : A -> St -> Prop) : Prop :=
  forall st' a, m st = (st', Ok a) -> Q a st'.

(** A failed computation leaves the state alone. *)
Definition atomic {A} (m : tx St A) : Prop :=
  forall st st' e, m st = (st', Fail e) -> st' = st.

Lemma yields_ret {A} st (a : A) Q : Q a st -> yields st (mret a) Q.
Proof. by intros H st' a' [= <- <-]. Qed.

Lemma yields_bind {A B} st (m : tx St A) (f : A -> tx St B) Q :
  yields st m (fun a st1 => yields st1 (f a) Q) -> yields st (m ≫= f) Q.
Proof.
  intros H st' b. unfold mbind, tx_bind. destruct (m st) as [st1 [a|e]] eqn:E; [|done].
  apply H. exact E.
Qed.

Lemma yields_read {A} st (f : St -> result A) Q :
  (forall a, f st = Ok a -> Q a st) -> yields st (tx_read f) Q.
Proof. intros H st' a [= <- E]. by apply H. Qed.

Lemma yields_of {A} st (r : result A) Q :
  (forall a, r = Ok a -> Q a st) -> yields st (tx_of r) Q.
Proof. intros H st' a [= <- E]. by apply H. Qed.

Lemma yields_check st c Q : (c = None -> Q tt st) -> yields st (tx_check c) Q.
Proof. intros H st' []. destruct c; [done|]. intros [= <-]. by apply H. Qed.

Lemma yields_do st f (Q : unit -> St -> Prop) :
  (forall st', f st = (st', None) -> Q tt st') -> yields st (tx_do f) Q.
Proof.
  intros H st' []. unfold tx_do. destruct (f st) as [st1 [e|]] eqn:E; [done|]. intros [= <-]. by apply H.
Qed.

Lemma yields_mono {A} st (m : tx St A) (P Q : A -> St -> Prop) :
  yields st m P -> (forall a st', P a st' -> Q a st') -> yields st m Q.
Proof. intros H HPQ st' a E. apply HPQ. by apply H. Qed.

Lemma yields_atomically {A} commit st (m : tx St A) Q :
  yields st m Q -> yields st (atomically commit m) Q.
Proof.
  intros H st' a. unfold atomically. destruct (m st) as [st1 [b|e]] eqn:E; [|done].
  destruct (commit st1); [done|]. intros [= <- <-]. by apply H.
Qed.

(** A guard in front of a body. *)
Lemma yields_guard {A} st (c : option err) (m : tx St A) Q :
  (c = None -> yields st m Q) -> yields st (tx_check c ≫= fun _ => m) Q.
Proof. intros H. by apply yields_bind, yields_check. Qed.

Lemma atomic_atomically {A} commit (m : tx St A) : atomic (atomically commit m).
Proof.
  intros st st' e. unfold atomically. destruct (m st) as [st1 [a|e']]; [|by intros [= ->]].
  destruct (commit st1); [|done]. by intros [= -> _].
Qed.

Lemma atomic_ret {A} (a : A) : atomic (mret a : tx St A).
Proof. by intros st st' e [=]. Qed.

Lemma atomic_of {A} (r : result A) : atomic (tx_of r : tx St A).
Proof. by intros st st' e [=]. Qed.

Lemma atomic_check c : atomic (tx_check c).
Proof. by intros st st' e [=]. Qed.

(** What comes before the transaction reads nothing and what comes after it only returns. *)
Lemma atomic_before {A B} (m : tx St A) (f : A -> tx St B) :
  (forall st a, m st = (st, Ok a) -> atomic (f a)) -> (forall st, (m st).1 = st) -> atomic (m ≫= f).
Proof.
  intros Hf Hm st st' e. unfold mbind, tx_bind. specialize (Hm st).
  destruct (m st) as [st1 [a|e']] eqn:E; simpl in Hm; subst st1.
  - by apply (Hf st).
  - by intros [= ->].
Qed.

Lemma atomic_after {A B} (m : tx St A) (g : A -> B) :
  atomic m -> atomic (m ≫= fun a => mret (g a)).
Proof.
  intros Hm st st' e. unfold mbind, tx_bind. destruct (m st) as [st1 [a|e']] eqn:E; [done|].
  intros [= <- <-]. by apply (Hm st st1 e').
Qed.

Lemma atomic_guard {A} c (m : tx St A) : atomic m -> atomic (tx_check c ≫= fun _ => m).
Proof.
  intros Hm. apply atomic_before; [|done]. intros st []. unfold tx_check. by destruct c; intros [=].
Qed.

Lemma atomic_pure {A B} (r : result A) (f : A -> tx St B) :
  (forall a, r = Ok a -> atomic (f a)) -> atomic (tx_of r ≫= f).
Proof. intros Hf. apply atomic_before; [|done]. intros st a [= E]. by apply Hf. Qed.

(** What follows never fails. *)
Lemma atomic_sure {A B} (m : tx St A) (f : A -> tx St B) :
  atomic m -> (forall a st, is_ok (f a st).2 = true) -> atomic (m ≫= f).
Proof.
  intros Hm Hf st st' e. unfold mbind, tx_bind. destruct (m st) as [st1 [a|e']] eqn:E.
  - intros E'. specialize (Hf a st1). by rewrite E' in Hf.
  - intros [= <- <-]. by apply (Hm st st1 e').
Qed.

(** A read of the state before a body. *)
Lemma atomic_query {A B} (f : St -> result A) (g : A -> tx St B) :
  (forall a, atomic (g a)) -> atomic (tx_read f ≫= g).
Proof. intros Hg. by apply atomic_before. Qed.

(** An answer that is a part of what a computation gave. *)
Lemma yields_part {A B} st (m : tx St A) (f : A -> B) (Q : St -> Prop) :
  yields st m (fun _ => Q) -> yields st (m ≫= fun a => mret (f a)) (fun _ => Q).
Proof. intros H. apply yields_bind. eapply yields_mono; [exact H|]. intros a st' HQ. by apply yields_ret. Qed.

Lemma yields_ignore {A} st (m : tx St A) (Q : St -> Prop) :
  yields st m (fun _ => Q) -> yields st (ignore m) (fun _ => Q).
Proof. apply yields_part. Qed.

(** A run, by what it came to. *)
Lemma run_ok {A} (m : tx St A) st : is_ok (m st).2 = true -> exists st' a, m st = (st', Ok a).
Proof. destruct (m st) as [st' [a|e]]; [by exists st', a|done]. Qed.

Lemma run_fail {A} (m : tx St A) st : is_ok (m st).2 = false -> exists st' e, m st = (st', Fail e).
Proof. destruct (m st) as [st' [a|e]]; [done|by exists st', e]. Qed.
End Tx.

#[export] Hint Resolve atomic_atomically atomic_ret atomic_of atomic_check atomic_after : tx.

(** Follows a body: one rule per statement, naming nothing. *)
Ltac tx_step :=
  first
    [ apply yields_guard; intros ?
    | apply yields_bind
    | apply yields_read; intros ? ?
    | apply yields_of; intros ? ?
    | apply yields_check; intros ?
    | apply yields_do; intros ? ?
    | apply yields_ret
    | apply yields_atomically ].
