(* ===== verification/Identifiers.v ===== *)
(** * Identifiers: the [newID] of the modules' [models/ids.go]

    A prefix and 26 characters of Crockford base32: six bytes of milliseconds and ten random bytes.
    What an identifier is made of is its [seed]: the clock's moment and what the system's source of
    randomness gave, [None] when it failed before it gave anything. *)
From S2P Require Import Prelude GoText.

Record seed := mkSeed { sd_time : moment; sd_random : option (list Z) }.

Definition alphabet : string := "0123456789ABCDEFGHJKMNPQRSTVWXYZ".

Definition digit_char (d : Z) : Ascii.ascii :=
  default Ascii.zero (String.get (Z.to_nat d) alphabet).

(** A big-endian number of bytes. *)
Definition big_endian (l : list Z) : Z := foldl (fun a b => a * 256 + b) 0 l.

(** The [n] digits of [v] in base 32, most significant first. *)
Fixpoint digits32 (n : nat) (v : Z) : list Z :=
  match n with
  | O => []
  | S n => (v / 32 ^ Z.of_nat n) mod 32 :: digits32 n v
  end.

Definition encoded_len (bytes : nat) : nat := (8 * bytes + 4) / 5.

(** [idEncoding.EncodeToString]: the bits are filled up with zeros on the right to whole digits. *)
Definition EncodeToString (l : list Z) : string :=
  let n := encoded_len (length l) in
  let spare := 5 * Z.of_nat n - 8 * Z.of_nat (length l) in
  String.string_of_list_ascii (digit_char <$> digits32 n (big_endian l * 2 ^ spare)).

(** [binary.BigEndian.PutUint64]. *)
Definition PutUint64 (v : Z) : list Z :=
  (fun i : nat => (v / 256 ^ Z.of_nat (7 - i)) mod 256) <$> seq 0 8.

Definition UnixMilli (t : moment) : Z := t / 1000000.

(** The sixteen bytes of an identifier. *)
Definition id_bytes (s : seed) : list Z :=
  let ms := Z.max 0 (UnixMilli (sd_time s)) in
  drop 2 (PutUint64 ms) ++
  match sd_random s with
  | Some random => take 10 random
  | None => [0; 0] ++ PutUint64 (sd_time s mod 2 ^ 64)
  end.

Definition newID (prefix : string) (s : seed) : string :=
  String.append prefix (EncodeToString (id_bytes s)).

Example newID_example :
  newID "invres_" (mkSeed 1700000000123000000 (Some [1;2;3;4;5;6;7;8;9;255])) = "invres_065WZSB8FC0G40R40M30E209ZW".
Proof. vm_compute. reflexivity. Qed.

(** ** Order *)

Definition is_byte_list (l : list Z) : Prop := Forall (fun b => 0 <= b < 256) l.

(** A clock within the 48 bits of a stamp, and ten random bytes. *)
Definition seed_ok (s : seed) (random : list Z) : Prop :=
  UnixMilli (sd_time s) < 2 ^ 48 /\ sd_random s = Some random /\ length random = 10%nat /\ is_byte_list random.

Definition milliseconds (s : seed) : Z := Z.max 0 (UnixMilli (sd_time s)).

(** The alphabet is in ascending order. *)
Lemma digit_char_compare a b : 0 <= a < 32 -> 0 <= b < 32 ->
  Ascii.compare (digit_char a) (digit_char b) = (a ?= b).
Proof.
  assert (forallb (fun i => forallb (fun j =>
    match Ascii.compare (digit_char (Z.of_nat i)) (digit_char (Z.of_nat j)), (Z.of_nat i ?= Z.of_nat j) with
    | Lt, Lt | Eq, Eq | Gt, Gt => true
    | _, _ => false
    end) (seq 0 32)) (seq 0 32) = true) as H by (vm_compute; reflexivity).
  intros Ha Hb. rewrite forallb_forall in H. specialize (H (Z.to_nat a)).
  rewrite forallb_forall in H. specialize (H ltac:(apply in_seq; lia) (Z.to_nat b) ltac:(apply in_seq; lia)).
  rewrite !Z2Nat.id in H by lia. by destruct (Ascii.compare _ _), (a ?= b).
Qed.

Lemma compare_mul_add q a b u v : 0 <= u < q -> 0 <= v < q ->
  (a * q + u ?= b * q + v) = match a ?= b with Eq => u ?= v | c => c end.
Proof.
  intros Hu Hv. destruct (Z.compare_spec a b) as [->|Hl|Hl].
  - apply Z.add_compare_mono_l.
  - apply Z.compare_lt_iff. nia.
  - apply Z.compare_gt_iff. nia.
Qed.

Lemma digits32_compare n u v :
  String.compare (String.string_of_list_ascii (digit_char <$> digits32 n u))
    (String.string_of_list_ascii (digit_char <$> digits32 n v)) =
  (u mod 32 ^ Z.of_nat n ?= v mod 32 ^ Z.of_nat n).
Proof.
  induction n as [|n IH]; [cbn; by rewrite !Z.mod_1_r|].
  cbn [digits32 fmap list_fmap String.string_of_list_ascii String.compare].
  rewrite digit_char_compare by (apply Z.mod_pos_bound; lia). rewrite IH.
  pose proof (Z.pow_pos_nonneg 32 (Z.of_nat n) ltac:(lia) ltac:(lia)) as Hp.
  assert (forall x, x mod 32 ^ Z.of_nat (S n) = (x / 32 ^ Z.of_nat n) mod 32 * 32 ^ Z.of_nat n + x mod 32 ^ Z.of_nat n) as Hx.
  { intros x. rewrite Nat2Z.inj_succ, Z.pow_succ_r by lia. rewrite (Z.mul_comm 32), Z.rem_mul_r by lia. lia. }
  rewrite !Hx, compare_mul_add by (apply Z.mod_pos_bound; lia). done.
Qed.

Lemma ascii_compare_refl c : Ascii.compare c c = Eq.
Proof. apply N.compare_refl. Qed.

Lemma append_compare p s1 s2 : String.compare (String.append p s1) (String.append p s2) = String.compare s1 s2.
Proof.
  induction p as [|c p IH]; [done|].
  change (match Ascii.compare c c with Eq => String.compare (String.append p s1) (String.append p s2) | Lt => Lt | Gt => Gt end
    = String.compare s1 s2).
  by rewrite ascii_compare_refl.
Qed.

Lemma big_endian_from l a : foldl (fun a b => a * 256 + b) a l = a * 256 ^ Z.of_nat (length l) + big_endian l.
Proof.
  unfold big_endian. revert a. induction l as [|b l IH]; intros a; cbn [foldl length]; [lia|].
  rewrite IH, (IH (0 * 256 + b)), Nat2Z.inj_succ, Z.pow_succ_r by lia. ring.
Qed.

Lemma big_endian_app l k : big_endian (l ++ k) = big_endian l * 256 ^ Z.of_nat (length k) + big_endian k.
Proof. unfold big_endian at 1. rewrite foldl_app. apply big_endian_from. Qed.

Lemma big_endian_bound l : is_byte_list l -> 0 <= big_endian l < 256 ^ Z.of_nat (length l).
Proof.
  induction l as [|b l IH]; [cbn; lia|]. intros [Hb Hl]%Forall_cons. specialize (IH Hl).
  change (b :: l) with ([b] ++ l). rewrite big_endian_app. change (big_endian [b]) with (0 * 256 + b).
  cbn [length app]. rewrite Nat2Z.inj_succ, Z.pow_succ_r by lia. nia.
Qed.

Lemma PutUint64_stamp v : 0 <= v < 2 ^ 48 -> big_endian (drop 2 (PutUint64 v)) = v.
Proof.
  intros Hv. unfold PutUint64, big_endian. cbn -[Z.div Z.modulo Z.pow].
  change (256 ^ 5) with (256 * 4294967296). change (256 ^ 4) with 4294967296. change (256 ^ 3) with 16777216.
  change (256 ^ 2) with 65536. change (256 ^ 1) with 256. change (256 ^ 0) with 1.
  Z.div_mod_to_equations. lia.
Qed.

Lemma id_bytes_length s random : seed_ok s random -> length (id_bytes s) = 16%nat.
Proof.
  intros (_ & Hr & Hl & _). unfold id_bytes. rewrite Hr. rewrite length_app, length_drop, length_take, Hl. done.
Qed.

(** The number an identifier's bytes make: the milliseconds, then the random bytes. *)
Lemma id_bytes_number s random : seed_ok s random ->
  big_endian (id_bytes s) = milliseconds s * 256 ^ 10 + big_endian random.
Proof.
  intros (Ht & Hr & Hl & Hb). unfold id_bytes. rewrite Hr. rewrite big_endian_app.
  rewrite PutUint64_stamp by lia. rewrite take_ge by lia. rewrite Hl. done.
Qed.

Lemma newID_compare prefix s1 s2 r1 r2 : seed_ok s1 r1 -> seed_ok s2 r2 ->
  String.compare (newID prefix s1) (newID prefix s2) =
  match milliseconds s1 ?= milliseconds s2 with Eq => big_endian r1 ?= big_endian r2 | c => c end.
Proof.
  intros H1 H2. unfold newID, EncodeToString. rewrite append_compare.
  rewrite (id_bytes_length _ _ H1), (id_bytes_length _ _ H2), digits32_compare.
  rewrite (id_bytes_number _ _ H1), (id_bytes_number _ _ H2).
  destruct H1 as (Ht1 & _ & Hl1 & Hb1), H2 as (Ht2 & _ & Hl2 & Hb2).
  pose proof (big_endian_bound _ Hb1) as B1. pose proof (big_endian_bound _ Hb2) as B2. rewrite Hl1 in B1. rewrite Hl2 in B2.
  assert (0 <= milliseconds s1 < 2 ^ 48) by (unfold milliseconds; lia).
  assert (0 <= milliseconds s2 < 2 ^ 48) by (unfold milliseconds; lia).
  change (Z.of_nat (encoded_len 16)) with 26. change (2 ^ (5 * 26 - 8 * Z.of_nat 16)) with 4.
  change (256 ^ Z.of_nat 10) with (256 ^ 10) in *.
  change (32 ^ 26) with (4 * (2 ^ 48 * 256 ^ 10)).
  rewrite !Z.mod_small by nia. rewrite !(Z.mul_comm _ 4), <- (Zmult_compare_compat_l _ _ 4) by lia.
  by apply compare_mul_add.
Qed.

Lemma digits32_length n v : length (digits32 n v) = n.
Proof. induction n as [|n IH] in v |- *; cbn; [done|]. by rewrite IH. Qed.

Lemma string_of_list_length l : String.length (String.string_of_list_ascii l) = length l.
Proof. induction l as [|c l IH]; cbn; congruence. Qed.

Lemma append_length p s : String.length (String.append p s) = (String.length p + String.length s)%nat.
Proof. induction p as [|c p IH]; [done|]. exact (f_equal S IH). Qed.

Lemma newID_length prefix s random : seed_ok s random ->
  String.length (newID prefix s) = (String.length prefix + 26)%nat.
Proof.
  intros H. unfold newID, EncodeToString. rewrite append_length, (id_bytes_length _ _ H).
  by rewrite string_of_list_length, length_fmap, digits32_length.
Qed.

Lemma newID_nonempty prefix s : prefix <> EmptyString -> newID prefix s <> EmptyString.
Proof. by destruct prefix. Qed.
