(* ===== verification/Database.v ===== *)
(** * Database tables

    What the modules' models of a database share. A table is a map from primary keys to rows: [sum_of f m]
    adds up [f] over the rows, and inserting a new row, changing a row and keeping the rows are the three
    ways a statement moves such a sum; a ledger adds up over a list. A statement answers rows or is refused
    by the database with a SQL state and a constraint's name. *)
From S2P Require Import Prelude GoText Errors.

(** ** Sums over the rows of a table *)

Section MapSum.
Context {V : Type}.
Implicit Types (f g : V -> Z) (m : gmap string V).

Definition sum_of f m : Z := sumZ (f <$> (map_to_list m).*2).

Definition count (P : V -> Prop) `{!forall x, Decision (P x)} m : Z := sum_of (fun v => if decide (P v) then 1 else 0) m.

Lemma sum_of_empty f : sum_of f ∅ = 0.
Proof. unfold sum_of. by rewrite map_to_list_empty. Qed.

Lemma sum_of_insert f m k v : m !! k = None -> sum_of f (<[k := v]> m) = f v + sum_of f m.
Proof.
  intros H. unfold sum_of. erewrite sumZ_perm; [|apply fmap_Permutation, fmap_Permutation, map_to_list_insert, H].
  cbn [fmap list_fmap snd]. by rewrite sumZ_cons.
Qed.

Lemma sum_of_delete f m k v : m !! k = Some v -> sum_of f m = f v + sum_of f (delete k m).
Proof.
  intros H. rewrite <- (insert_delete_id m k v H) at 1. apply sum_of_insert, lookup_delete_eq.
Qed.

Lemma sum_of_update f m k v v' : m !! k = Some v -> sum_of f (<[k := v']> m) = sum_of f m - f v + f v'.
Proof.
  intros H. rewrite (sum_of_delete f m k v H). rewrite <- (insert_delete_eq m k v').
  rewrite sum_of_insert by apply lookup_delete_eq. lia.
Qed.

(** A change of a row that [f] does not see. *)
Lemma sum_of_same f m k v v' : m !! k = Some v -> f v' = f v -> sum_of f (<[k := v']> m) = sum_of f m.
Proof. intros H E. rewrite (sum_of_update f m k v v' H). lia. Qed.

Lemma sum_of_ext f g m : (forall k v, m !! k = Some v -> f v = g v) -> sum_of f m = sum_of g m.
Proof.
  intros H. unfold sum_of. f_equal. apply list_fmap_ext. intros i v Hv. rewrite list_lookup_fmap in Hv.
  apply fmap_Some in Hv as ([k u] & Hk & ->). apply (H k). apply elem_of_map_to_list.
  by eapply list_elem_of_lookup_2.
Qed.

Lemma sum_of_const0 m : sum_of (fun _ => 0) m = 0.
Proof. apply sumZ_const. Qed.

Lemma sum_of_zero f m : (forall k v, m !! k = Some v -> f v = 0) -> sum_of f m = 0.
Proof. intros H. rewrite (sum_of_ext f (fun _ => 0) m H). apply sum_of_const0. Qed.

Lemma sum_of_nonneg f m : (forall k v, m !! k = Some v -> 0 <= f v) -> 0 <= sum_of f m.
Proof.
  intros H. apply sumZ_nonneg, Forall_forall. intros x (v & -> & Hv)%list_elem_of_fmap.
  apply list_elem_of_fmap in Hv as ([k u] & -> & Hk%elem_of_map_to_list). by apply (H k).
Qed.

Lemma sum_of_le f m k v : (forall k v, m !! k = Some v -> 0 <= f v) -> m !! k = Some v -> f v <= sum_of f m.
Proof.
  intros H Hk. rewrite (sum_of_delete f m k v Hk).
  pose proof (sum_of_nonneg f (delete k m)) as Hd. enough (0 <= sum_of f (delete k m)) by lia. apply Hd.
  intros k' v' [_ Hk']%lookup_delete_Some. by apply (H k').
Qed.

(** Nothing is counted where no row is counted. *)
Lemma count_none (P : V -> Prop) `{!forall x, Decision (P x)} m k v :
  count P m <= 0 -> m !! k = Some v -> ~ P v.
Proof.
  unfold count. intros Hc Hk Hv.
  pose proof (sum_of_le (fun v => if decide (P v) then 1 else 0) m k v) as Hle.
  cbn beta in Hle. rewrite decide_True in Hle by done. enough (1 <= 0) by lia. etrans; [apply Hle|exact Hc].
  - intros k' v' _. by destruct (decide (P v')).
  - done.
Qed.
End MapSum.

(** Sums over a log. *)
Section LogSum.
Context {A : Type}.

Definition log_sum (f : A -> Z) (l : list A) : Z := sumZ (f <$> l).

Lemma log_sum_snoc f l x : log_sum f (l ++ [x]) = log_sum f l + f x.
Proof. unfold log_sum. rewrite fmap_app, sumZ_app. cbn [fmap list_fmap]. rewrite sumZ_cons, sumZ_nil. lia. Qed.

Lemma log_sum_zero f l : (forall x, x ∈ l -> f x = 0) -> log_sum f l = 0.
Proof.
  intros H. unfold log_sum. induction l as [|x l IH]; [done|]. rewrite fmap_cons, sumZ_cons.
  rewrite (H x) by apply list_elem_of_here. rewrite IH; [lia|]. intros y Hy. apply H. by apply list_elem_of_further.
Qed.

Lemma log_sum_app f l k : log_sum f (l ++ k) = log_sum f l + log_sum f k.
Proof. unfold log_sum. by rewrite fmap_app, sumZ_app. Qed.

(** Entries that [f] does not see. *)
Lemma log_sum_app_zero f l k : Forall (fun x => f x = 0) k -> log_sum f (l ++ k) = log_sum f l.
Proof. intros H. rewrite log_sum_app, (log_sum_zero f k); [lia|]. by apply Forall_forall. Qed.
End LogSum.

(** ** What a statement answers *)

(** An error of the driver: a [pgconn.PgError] carries the SQL state and the constraint's name. *)
Inductive dberr :=
| DriverError (e : err)
| PgError (state constraint : string).

Inductive answer (A : Type) := Rows (a : A) | Refused (e : dberr).
Arguments Rows {A}.
Arguments Refused {A}.

Definition sqlStateUniqueViolation : string := "23505".
Definition sqlStateForeignKeyViolation : string := "23503".
Definition sqlStateCheckViolation : string := "23514".
Definition sqlStateDeadlockDetected : string := "40P01".
Definition sqlStateOutOfRange : string := "22003".

Definition refuse {A} (state constraint : string) : answer A := Refused (PgError state constraint).

Definition chk (constraint : string) (holds : bool) : string * bool := (constraint, holds).

(** The first of the constraints that does not hold. *)
Fixpoint check_violated (l : list (string * bool)) : option string :=
  match l with
  | [] => None
  | (name, holds) :: rest => if holds : bool then check_violated rest else Some name
  end.

Definition checked {A} (l : list (string * bool)) (a : A) : answer A :=
  match check_violated l with None => Rows a | Some name => refuse sqlStateCheckViolation name end.

(** A [SUM(...)::bigint]. *)
Definition to_bigint (z : Z) : answer Z :=
  if (int64_min <=? z) && (z <=? int64_max) then Rows z else refuse sqlStateOutOfRange EmptyString.

Definition currency_format (s : string) : bool := (len s =? 3) && forallb is_upper (bytes s).

(** [length(btrim(s)) > 0] and [s = btrim(s)]: [btrim] takes spaces off both ends. *)
Definition not_blank (s : string) : bool := negb (forallb (Z.eqb 32) (bytes s)).

Definition btrimmed (s : string) : bool :=
  negb (bool_decide (head (bytes s) = Some 32)) && negb (bool_decide (last (bytes s) = Some 32)).

(** ** Listings *)

Definition cmp_newest {A} (at_ : A -> moment) (id : A -> string) (a b : A) : Z :=
  cmp_then (cmp_on at_ cmpZ) (cmp_on id cmpS) b a.

(** [ORDER BY created_at DESC, id DESC]. *)
Definition newest_first {A} (at_ : A -> moment) (id : A -> string) (l : list A) : list A :=
  SortFunc (cmp_newest at_ id) l.

Definition paged {A} (limit offset : Z) (l : list A) : list A := take (Z.to_nat limit) (drop (Z.to_nat offset) l).

Definition rows {A} (m : gmap string A) : list A := (map_to_list m).*2.

(** ** Rows and constraints *)

Lemma checked_rows {A} l (a x : A) : checked l a = Rows x -> x = a /\ check_violated l = None.
Proof. unfold checked. destruct (check_violated l); [done|]. by intros [= ->]. Qed.

Lemma check_violated_cons name holds l :
  check_violated (chk name holds :: l) = None <-> holds = true /\ check_violated l = None.
Proof. cbn. destruct holds; naive_solver. Qed.

Lemma check_violated_nil : check_violated [] = None <-> True.
Proof. done. Qed.

Lemma to_bigint_rows z x : to_bigint z = Rows x -> x = z.
Proof. unfold to_bigint. case_match; [by intros [= ->]|done]. Qed.

(** A row of a table, by its key. *)
Lemma elem_of_table {A} (m : gmap string A) v : v ∈ rows m <-> exists k, m !! k = Some v.
Proof.
  unfold rows. rewrite list_elem_of_fmap. split.
  - intros ([k x] & -> & H%elem_of_map_to_list). by exists k.
  - intros (k & H). exists (k, v). split; [done|]. by apply elem_of_map_to_list.
Qed.

Lemma head_filter_None {A} (P : A -> Prop) `{!forall x, Decision (P x)} (m : gmap string A) :
  head (filter P (rows m)) = None <-> forall k v, m !! k = Some v -> ~ P v.
Proof.
  split.
  - intros Hh k v Hk Hv. destruct (filter P (rows m)) as [|x l] eqn:E; [|done].
    apply (filter_nil_not_elem_of P (rows m) v) in E; [|done]. apply E, elem_of_table. by exists k.
  - intros Hn. destruct (filter P (rows m)) as [|x l] eqn:E; [done|].
    assert (Hx : x ∈ filter P (rows m)) by (rewrite E; apply list_elem_of_here).
    apply list_elem_of_filter in Hx as [Hx (k & Hk)%elem_of_table]. by destruct (Hn k x).
Qed.

Lemma head_filter_Some {A} (P : A -> Prop) `{!forall x, Decision (P x)} (m : gmap string A) v :
  head (filter P (rows m)) = Some v -> P v /\ exists k, m !! k = Some v.
Proof.
  intros Hh. assert (Hv : v ∈ filter P (rows m)).
  { destruct (filter P (rows m)); [done|]. injection Hh as ->. apply list_elem_of_here. }
  apply list_elem_of_filter in Hv as [HP Hv%elem_of_table]. by split.
Qed.

Lemma sum_of_filter {A} (P : A -> Prop) `{!forall x, Decision (P x)} (f : A -> Z) (m : gmap string A) :
  sumZ (f <$> filter P (rows m)) = sum_of (fun v => if decide (P v) then f v else 0) m.
Proof.
  unfold sum_of, rows. induction (map_to_list m).*2 as [|v l IH]; [done|].
  rewrite filter_cons, fmap_cons, sumZ_cons. destruct (decide (P v)); rewrite ?fmap_cons, ?sumZ_cons, IH; lia.
Qed.

Lemma sum_of_put {A} (f : A -> Z) (m : gmap string A) k v :
  sum_of f (<[k := v]> m) = sum_of f m - from_option f 0 (m !! k) + f v.
Proof.
  destruct (m !! k) as [o|] eqn:E; cbn.
  - by apply sum_of_update.
  - rewrite sum_of_insert by done. lia.
Qed.

Lemma sum_of_mono {A} (f g : A -> Z) (m : gmap string A) :
  (forall k v, m !! k = Some v -> f v <= g v) -> sum_of f m <= sum_of g m.
Proof.
  intros H. pose proof (sum_of_nonneg (fun v => g v - f v) m) as Hn.
  assert (E : sum_of g m = sum_of f m + sum_of (fun v => g v - f v) m).
  { unfold sum_of. induction (map_to_list m).*2 as [|v l IH]; [done|]. rewrite !fmap_cons, !sumZ_cons. lia. }
  enough (0 <= sum_of (fun v => g v - f v) m) by lia. apply Hn. intros k v Hk. specialize (H k v Hk). lia.
Qed.

