(* ===== verification/Server.v ===== *)
(** * A module's database and what surrounds it

    The state a module's service works on: its tables, and a type [W] of what lies outside them, with the
    answers of [Server]. A failed transaction leaves the tables as they were, not what lies outside.
    [keeps], [gives] and [undone] are what proofs say of a computation and the tables. *)
From S2P Require Import Prelude GoText Errors Tx Identifiers Database.

Class Server (W : Type) := {
  (** Whether a statement fails, by its name. *)
  sv_fault : string -> W -> W * option dberr;
  (** The driver's error for a refused write, by SQL state and constraint. *)
  sv_refusal : string -> string -> err;
  (** [time.Now()]. *)
  sv_clock : W -> W * moment;
  (** Ten bytes of [crypto/rand], [None] when it failed. *)
  sv_random : W -> W * option (list Z)
}.

Record Served (T W : Type) := mkServed { sv_tables : T; sv_outside : W }.
Arguments mkServed {T W}.
Arguments sv_tables {T W}.
Arguments sv_outside {T W}.

Section Computations.
Context {T W : Type} `{!Server W}.

(** A statement: it fails as the database does, or answers by the tables. [on_error] is what the
    repository makes of a failure. *)
Definition statement {A} (name : string) (on_error : dberr -> err) (f : T -> answer (T * A)) : tx (Served T W) A :=
  fun st =>
  let '(w, fault) := sv_fault name (sv_outside st) in
  match fault with
  | Some d => (mkServed (sv_tables st) w, Fail (on_error d))
  | None =>
      match f (sv_tables st) with
      | Rows (t, a) => (mkServed t w, Ok a)
      | Refused d => (mkServed (sv_tables st) w, Fail (on_error d))
      end
  end.

(** A statement that only reads. *)
Definition query {A} (name : string) (on_error : dberr -> err) (f : T -> A) : tx (Served T W) A :=
  statement name on_error (fun t => Rows (t, f t)).

(** [pgx.ErrNoRows] of a statement that answers one row. *)
Definition found {A} (missing : err) (m : tx (Served T W) (option A)) : tx (Served T W) A :=
  r ← m; match r with Some a => mret a | None => tx_of (Fail missing) end.

(** A transaction; [on_begin] and [on_commit] are what becomes of a failure to begin and to commit. *)
Definition transaction {A} (on_begin on_commit : dberr -> err) (m : tx (Served T W) A) : tx (Served T W) A := fun st =>
  match sv_fault "BEGIN" (sv_outside st) with
  | (w, Some d) => (mkServed (sv_tables st) w, Fail (on_begin d))
  | (w, None) =>
      match m (mkServed (sv_tables st) w) with
      | (st', Fail e) => (mkServed (sv_tables st) (sv_outside st'), Fail e)
      | (st', Ok a) =>
          match sv_fault "COMMIT" (sv_outside st') with
          | (w', None) => (mkServed (sv_tables st') w', Ok a)
          | (w', Some d) => (mkServed (sv_tables st) w', Fail (on_commit d))
          end
      end
  end.

Definition clock : tx (Served T W) moment := fun st =>
  let '(w, t) := sv_clock (sv_outside st) in (mkServed (sv_tables st) w, Ok t).

(** An identifier for the moment [t]. *)
Definition new_id (prefix : string) (t : moment) : tx (Served T W) string := fun st =>
  let '(w, r) := sv_random (sv_outside st) in (mkServed (sv_tables st) w, Ok (newID prefix (mkSeed t r))).

(** ** What a computation does to the tables *)

Definition keeps {A} (m : tx (Served T W) A) : Prop := forall st, sv_tables (m st).1 = sv_tables st.

Definition undone {A} (m : tx (Served T W) A) : Prop :=
  forall st st' e, m st = (st', Fail e) -> sv_tables st' = sv_tables st.

Definition gives {A} (t : T) (m : tx (Served T W) A) (Q : A -> T -> Prop) : Prop :=
  forall st st' a, sv_tables st = t -> m st = (st', Ok a) -> Q a (sv_tables st').

Lemma sv_keeps_ret {A} (a : A) : keeps (mret a).
Proof. by intros st. Qed.
Lemma sv_keeps_of {A} (r : result A) : keeps (tx_of r).
Proof. by intros st. Qed.
Lemma sv_keeps_check c : keeps (tx_check c).
Proof. by intros st. Qed.
Lemma sv_keeps_clock : keeps clock.
Proof. intros st. unfold clock. by destruct (sv_clock _). Qed.
Lemma sv_keeps_new_id prefix t : keeps (new_id prefix t).
Proof. intros st. unfold new_id. by destruct (sv_random _). Qed.

Lemma sv_keeps_bind {A B} (m : tx (Served T W) A) (f : A -> tx (Served T W) B) :
  keeps m -> (forall a, keeps (f a)) -> keeps (m ≫= f).
Proof.
  intros Hm Hf st. unfold mbind, tx_bind. specialize (Hm st). destruct (m st) as [st1 [a|e]]; [|exact Hm].
  etrans; [apply Hf|exact Hm].
Qed.

Lemma keeps_query {A} name on_error (f : T -> A) : keeps (query name on_error f).
Proof. intros st. unfold query, statement. destruct (sv_fault _ _) as [w [d|]]; done. Qed.

Lemma keeps_found {A} e (m : tx (Served T W) (option A)) : keeps m -> keeps (found e m).
Proof. intros H. apply sv_keeps_bind; [done|]. intros []; [apply sv_keeps_ret|apply sv_keeps_of]. Qed.

(** *** Success *)

Lemma sv_gives_mono {A} t (m : tx (Served T W) A) (P Q : A -> T -> Prop) :
  gives t m P -> (forall a t', P a t' -> Q a t') -> gives t m Q.
Proof. intros H HPQ st st' a Ht E. eapply HPQ, H; done. Qed.

Lemma gives_keeps {A} t (m : tx (Served T W) A) : keeps m -> gives t m (fun _ t' => t' = t).
Proof. intros H st st' a <- E. specialize (H st). by rewrite E in H. Qed.

Lemma sv_gives_ret {A} t (a : A) (Q : A -> T -> Prop) : Q a t -> gives t (mret a) Q.
Proof. by intros H st st' a' <- [= <- <-]. Qed.

Lemma sv_gives_of {A} t (r : result A) (Q : A -> T -> Prop) : (forall a, r = Ok a -> Q a t) -> gives t (tx_of r) Q.
Proof. intros H st st' a <- [= <- E]. by apply H. Qed.

Lemma sv_gives_fail {A} t e (Q : A -> T -> Prop) : gives t (tx_of (Fail e)) Q.
Proof. by apply sv_gives_of. Qed.

Lemma sv_gives_bind {A B} t (m : tx (Served T W) A) (f : A -> tx (Served T W) B) Q :
  gives t m (fun a t1 => gives t1 (f a) Q) -> gives t (m ≫= f) Q.
Proof.
  intros H st st' b Ht. unfold mbind, tx_bind. destruct (m st) as [st1 [a|e]] eqn:E; [|done].
  by apply (H st st1 a Ht E).
Qed.

(** What does not touch the tables, before the rest. *)
Lemma gives_skip {A B} t (m : tx (Served T W) A) (f : A -> tx (Served T W) B) Q :
  keeps m -> (forall a, gives t (f a) Q) -> gives t (m ≫= f) Q.
Proof. intros Hm Hf. apply sv_gives_bind. eapply sv_gives_mono; [by apply gives_keeps|]. by intros a t' ->. Qed.

Lemma gives_guard {A} t c (m : tx (Served T W) A) Q :
  (c = None -> gives t m Q) -> gives t (tx_check c ≫= fun _ => m) Q.
Proof.
  intros H. apply sv_gives_bind. intros st st' [] Ht. unfold tx_check. destruct c; [done|]. intros [= <-]. rewrite Ht. by apply H.
Qed.

Lemma gives_pure {A B} t (r : result A) (f : A -> tx (Served T W) B) Q :
  (forall a, r = Ok a -> gives t (f a) Q) -> gives t (tx_of r ≫= f) Q.
Proof. intros H. apply sv_gives_bind, sv_gives_of. exact H. Qed.

Lemma sv_gives_statement {A} t name on_error (f : T -> answer (T * A)) (Q : A -> T -> Prop) :
  (forall t' a, f t = Rows (t', a) -> Q a t') -> gives t (statement name on_error f) Q.
Proof.
  intros H st st' a <-. unfold statement. destruct (sv_fault _ _) as [w [d|]]; [done|].
  destruct (f _) as [[t' b]|d] eqn:E; [|done]. intros [= <- <-]. by apply H.
Qed.

Lemma gives_query {A} t name on_error (f : T -> A) (Q : A -> T -> Prop) : Q (f t) t -> gives t (query name on_error f) Q.
Proof. intros H. apply sv_gives_statement. by intros t' a [= <- <-]. Qed.

Lemma gives_found {A} t e (m : tx (Served T W) (option A)) (Q : A -> T -> Prop) :
  gives t m (fun r t' => forall a, r = Some a -> Q a t') -> gives t (found e m) Q.
Proof.
  intros H. apply sv_gives_bind. eapply sv_gives_mono; [exact H|]. intros [a|] t' HQ.
  - apply sv_gives_ret. by apply HQ.
  - apply sv_gives_fail.
Qed.

Lemma gives_transaction {A} t on_begin on_commit (m : tx (Served T W) A) Q :
  gives t m Q -> gives t (transaction on_begin on_commit m) Q.
Proof.
  intros H st st' a Ht. unfold transaction. destruct (sv_fault _ _) as [w [d|]]; [done|].
  destruct (m _) as [st1 [b|e]] eqn:E; [|done]. destruct (sv_fault _ _) as [w' [d|]]; [done|]. intros [= <- <-].
  cbn. by eapply (H (mkServed (sv_tables st) w)).
Qed.

(** *** Failure *)

Lemma sv_undone_keeps {A} (m : tx (Served T W) A) : keeps m -> undone m.
Proof. intros H st st' e E. specialize (H st). by rewrite E in H. Qed.

Lemma sv_undone_statement {A} name on_error (f : T -> answer (T * A)) : undone (statement name on_error f).
Proof.
  intros st st' e. unfold statement. destruct (sv_fault _ _) as [w [d|]]; [by intros [= <- _]|].
  destruct (f _) as [[t' a]|d]; [done|]. by intros [= <- _].
Qed.

Lemma sv_undone_transaction {A} on_begin on_commit (m : tx (Served T W) A) : undone (transaction on_begin on_commit m).
Proof.
  intros st st' e. unfold transaction. destruct (sv_fault _ _) as [w [d|]]; [by intros [= <- _]|].
  destruct (m _) as [st1 [a|e']]; [|by intros [= <- _]]. destruct (sv_fault _ _) as [w' [d|]]; [by intros [= <- _]|done].
Qed.

(** Reads before what undoes itself. *)
Lemma undone_skip {A B} (m : tx (Served T W) A) (f : A -> tx (Served T W) B) :
  keeps m -> (forall a, undone (f a)) -> undone (m ≫= f).
Proof.
  intros Hm Hf st st' e. unfold mbind, tx_bind. specialize (Hm st). destruct (m st) as [st1 [a|e']]; cbn in Hm.
  - intros E. rewrite <- Hm. by eapply Hf.
  - by intros [= <- _].
Qed.

(** A statement that answers no row has written nothing. *)
Lemma undone_found {A} e name on_error (f : T -> answer (T * option A)) :
  (forall t t', f t = Rows (t', None) -> t' = t) -> undone (found e (statement name on_error f)).
Proof.
  intros H st st' e'. unfold found, mbind, tx_bind. pose proof (sv_undone_statement name on_error f st) as Hu.
  unfold statement in *. destruct (sv_fault _ _) as [w [d|]]; [by intros [= <- _]|].
  destruct (f _) as [[t' [a|]]|d] eqn:E; [done| |by intros [= <- _]]. intros [= <- _]. by apply H in E.
Qed.

(** After the last write only an answer is made. *)
Lemma sv_undone_after {A B} (m : tx (Served T W) A) (g : A -> B) : undone m -> undone (m ≫= fun a => mret (g a)).
Proof.
  intros H st st' e. unfold mbind, tx_bind. destruct (m st) as [st1 [a|e']] eqn:E; [done|]. intros [= <- _]. by eapply H.
Qed.

Lemma sv_undone_ignore {A} (m : tx (Served T W) A) : undone m -> undone (ignore m).
Proof. apply sv_undone_after. Qed.

(** A statement that answers no row, and what is then read to say why. *)
Lemma undone_explained {A B} name on_error (f : T -> answer (T * option A)) (g : A -> B) m :
  (forall t t', f t = Rows (t', None) -> t' = t) -> keeps m ->
  undone (statement name on_error f ≫= fun r => match r with Some a => mret (g a) | None => m end).
Proof.
  intros Hf Hm st st' e. unfold mbind, tx_bind. pose proof (sv_undone_statement name on_error f st) as Hu.
  unfold statement in *. destruct (sv_fault _ _) as [w [d|]]; [by intros [= <- _]|].
  destruct (f _) as [[t' [a|]]|d] eqn:E; [done| |by intros [= <- _]]. apply Hf in E. subst t'. intros E.
  etrans; [|exact (Hm (mkServed (sv_tables st) w))]. by rewrite E.
Qed.

(** *** Success with no row, explained *)

Lemma sv_gives_ignore {A} t (m : tx (Served T W) A) (Q : A -> T -> Prop) :
  gives t m Q -> gives t (ignore m) (fun _ t' => exists a, Q a t').
Proof. intros H. apply sv_gives_bind. eapply sv_gives_mono; [exact H|]. intros a t' HQ. apply sv_gives_ret. by exists a. Qed.

Lemma gives_explained {A B} t name on_error (f : T -> answer (T * option A)) (g : A -> B) (m : tx (Served T W) B) Q :
  (forall t' a, f t = Rows (t', Some a) -> Q (g a) t') -> (forall st, exists e, (m st).2 = Fail e) ->
  gives t (statement name on_error f ≫= fun r => match r with Some a => mret (g a) | None => m end) Q.
Proof.
  intros Hf Hm. apply sv_gives_bind, sv_gives_statement. intros t' [a|] E; [by apply sv_gives_ret, Hf|].
  intros st st' b _ Eb. destruct (Hm st) as [e He]. by rewrite Eb in He.
Qed.

(** What ends in a failure never succeeds. *)
Lemma fails_after {A B} (m : tx (Served T W) A) (f : A -> tx (Served T W) B) :
  (forall a st, exists e, (f a st).2 = Fail e) -> forall st, exists e, ((m ≫= f) st).2 = Fail e.
Proof. intros H st. unfold mbind, tx_bind. destruct (m st) as [st' [a|e]]; [apply H|by exists e]. Qed.

(** ** A database that does not fail *)

Definition quiet (W : Type) `{!Server W} : Prop := forall name (w : W), (sv_fault name w).2 = None.

(** Where it does not, what a computation that succeeds answers and leaves. *)
Definition does {A} (t : T) (m : tx (Served T W) A) (Q : A -> T -> Prop) : Prop :=
  forall st, sv_tables st = t -> exists st' a, m st = (st', Ok a) /\ Q a (sv_tables st').

Lemma does_ret {A} t (a : A) (Q : A -> T -> Prop) : Q a t -> does t (mret a) Q.
Proof. intros H st <-. by exists st, a. Qed.

Lemma does_bind {A B} t (m : tx (Served T W) A) (f : A -> tx (Served T W) B) Q :
  does t m (fun a t1 => does t1 (f a) Q) -> does t (m ≫= f) Q.
Proof.
  intros H st Ht. destruct (H st Ht) as (st1 & a & E & Hf). destruct (Hf st1 eq_refl) as (st2 & b & E2 & HQ).
  exists st2, b. split; [|done]. unfold mbind, tx_bind. by rewrite E.
Qed.

Lemma does_check {A} t c (m : tx (Served T W) A) Q : c = None -> does t m Q -> does t (tx_check c ≫= fun _ => m) Q.
Proof. intros -> H. apply does_bind. intros st <-. exists st, tt. by split. Qed.

Lemma does_mono {A} t (m : tx (Served T W) A) (P Q : A -> T -> Prop) :
  does t m P -> (forall a t', P a t' -> Q a t') -> does t m Q.
Proof. intros H HPQ st Ht. destruct (H st Ht) as (st' & a & E & HP). exists st', a. auto. Qed.

Lemma does_statement {A} t name on_error (f : T -> answer (T * A)) (Q : A -> T -> Prop) t' a :
  quiet W -> f t = Rows (t', a) -> Q a t' -> does t (statement name on_error f) Q.
Proof.
  intros Hq E HQ st <-. unfold statement. pose proof (Hq name (sv_outside st)) as Hn.
  destruct (sv_fault _ _) as [w c]. cbn in Hn. subst c. rewrite E. by exists (mkServed t' w), a.
Qed.

Lemma does_query {A} t name on_error (f : T -> A) (Q : A -> T -> Prop) :
  quiet W -> Q (f t) t -> does t (query name on_error f) Q.
Proof. intros Hq HQ. by eapply does_statement. Qed.

Lemma does_found {A} t e (m : tx (Served T W) (option A)) (Q : A -> T -> Prop) :
  does t m (fun r t' => exists a, r = Some a /\ Q a t') -> does t (found e m) Q.
Proof. intros H. apply does_bind. eapply does_mono; [exact H|]. intros r t' (a & -> & HQ). by apply does_ret. Qed.

Lemma does_transaction {A} t on_begin on_commit (m : tx (Served T W) A) Q :
  quiet W -> does t m Q -> does t (transaction on_begin on_commit m) Q.
Proof.
  intros Hq H st <-. unfold transaction. pose proof (Hq "BEGIN"%string (sv_outside st)) as Hn.
  destruct (sv_fault _ _) as [w c]. cbn in Hn. subst c. destruct (H (mkServed (sv_tables st) w) eq_refl) as (st1 & a & -> & HQ).
  pose proof (Hq "COMMIT"%string (sv_outside st1)) as Hn. destruct (sv_fault _ _) as [w' c]. cbn in Hn. subst c.
  by exists (mkServed (sv_tables st1) w'), a.
Qed.

End Computations.

Create HintDb served.
#[export] Hint Resolve sv_keeps_ret sv_keeps_of sv_keeps_check sv_keeps_clock sv_keeps_new_id keeps_query keeps_found
  sv_undone_statement sv_undone_transaction : served.

(** That a computation keeps the tables, statement by statement. *)
Ltac keeps_tac :=
  repeat first [ solve [eauto 4 with served] | apply sv_keeps_bind; [|intros ?] | case_match ].

(** That a failure of a computation leaves the tables: reads and checks, then one statement or
    transaction. *)
Ltac undone_tac :=
  repeat first
    [ solve [eauto 3 with served]
    | apply undone_skip; [solve [keeps_tac]|intros ?]
    | solve [apply sv_undone_after; eauto 3 with served]
    | solve [apply undone_found; intros; repeat case_match; simplify_eq; done]
    | solve [apply sv_undone_keeps; keeps_tac]
    | case_match ].
