(* ===== verification/Workflow.v ===== *)
(** * The saga engine's data: [workflow.go], [store.go] and [options.go]
    of [internal/core/workflow]

    Executions and their step records, the retry policy and the run options with their validation,
    the step contract and the workflow definition with its validation.

    [V] is the type of the Go values a saga carries ([any]), [W] the outside world the steps act on.
    A moment is a number of nanoseconds, and so is a duration. *)
From Stdlib Require Import SpecFloat.
From S2P Require Import Prelude GoText Errors.

(** ** The error codes *)

Definition CodeInvalidWorkflow : string := "workflow_invalid".
Definition CodeInvalidOption : string := "workflow_invalid_option".
Definition CodeInvalidOutput : string := "workflow_invalid_output".
Definition CodeStepFailed : string := "workflow_step_failed".
Definition CodeStepPanicked : string := "workflow_step_panicked".
Definition CodeParallelBranchFailed : string := "workflow_parallel_branch_failed".
Definition CodeCompensationFailed : string := "workflow_compensation_failed".
Definition CodeCanceled : string := "workflow_canceled".
Definition CodeStoreFailed : string := "workflow_store_failed".
Definition CodeExecutionRunning : string := "workflow_execution_running".
Definition CodeExecutionFailed : string := "workflow_execution_failed".
Definition CodeExecutionNotFound : string := "workflow_execution_not_found".
Definition CodeExecutionExists : string := "workflow_execution_exists".
Definition CodeRecoveryFailed : string := "workflow_recovery_failed".
Definition CodeExecutionContended : string := "workflow_execution_contended".

(** The texts of the sentinels. *)
Definition panic_text : string := "the step panicked".
Definition uncompensated_text : string := "the step has an uncompensated side effect".
Definition canceled_text : string := "context canceled".
Definition deadline_text : string := "context deadline exceeded".

Definition ErrPanic : err := Sentinel panic_text.
Definition ErrUncompensated : err := Sentinel uncompensated_text.
Definition Canceled : err := Sentinel canceled_text.
Definition DeadlineExceeded : err := Sentinel deadline_text.

(** ** Executions: [store.go]

    A status is a string in Go; a value that is none of the constants is [StatusOther]. *)
Inductive Status :=
| StatusRunning
| StatusCompleted
| StatusFailed
| StatusCompensationFailed
| StatusOther (s : string).

#[export] Instance Status_eq_dec : EqDecision Status.
Proof. solve_decision. Defined.

Definition Status_text (s : Status) : string :=
  match s with
  | StatusRunning => "running"
  | StatusCompleted => "completed"
  | StatusFailed => "failed"
  | StatusCompensationFailed => "compensation_failed"
  | StatusOther s => s
  end.

Inductive StepStatus :=
| StepInvoked
| StepFailed
| StepCompensated
| StepCompensationFailed
| StepOther (s : string).

#[export] Instance StepStatus_eq_dec : EqDecision StepStatus.
Proof. solve_decision. Defined.

Definition Held (s : StepStatus) : bool :=
  bool_decide (s = StepInvoked) || bool_decide (s = StepCompensationFailed).

Definition HeldStepStatuses : list StepStatus := [StepInvoked; StepCompensationFailed].

Definition MaxNameLen : Z := 128.
Definition MaxIdempotencyKeyLen : Z := 256.

(** A [json.RawMessage] is its text; nil is the empty text. *)
Abbreviation RawMessage := string.

Record StepRecord := mkStepRecord {
  sr_Name : string;
  sr_Index : Z;
  sr_Status : StepStatus;
  sr_Output : RawMessage;
  sr_Failure : string;
  sr_Attempts : Z;
  sr_StartedAt : Z;
  sr_EndedAt : Z
}.

#[export] Instance StepRecord_eq_dec : EqDecision StepRecord.
Proof. solve_decision. Defined.

Record Execution := mkExecution {
  ex_ID : string;
  ex_Workflow : string;
  ex_IdempotencyKey : string;
  ex_Status : Status;
  ex_Input : RawMessage;
  ex_Output : RawMessage;
  ex_Failure : string;
  ex_Steps : list StepRecord;
  ex_CreatedAt : Z;
  ex_UpdatedAt : Z
}.

#[export] Instance Execution_eq_dec : EqDecision Execution.
Proof. solve_decision. Defined.

(** [newExecutionID]: a 48-bit millisecond stamp and 80 random bits, 26 characters of Crockford
    base 32, the last of which carries the two padding bits. [rnd] is the randomness read. *)
Definition executionIDPrefix : string := "wfx_".

Definition idAlphabet : string := "0123456789ABCDEFGHJKMNPQRSTVWXYZ".

Definition id_char (d : Z) : Z := nth (Z.to_nat d) (bytes idAlphabet) 0.

(** The [n] base-32 digits of [v], most significant first. *)
Fixpoint base32_digits (n : nat) (v : Z) : list Z :=
  match n with
  | O => []
  | S n' => base32_digits n' (v / 32) ++ [v mod 32]
  end.

Definition newExecutionID (t rnd : Z) : string :=
  let ms := t / 1000000 in
  let ms := if ms <? 0 then 0 else ms in
  let buf := (ms mod 2 ^ 48) * 2 ^ 80 + rnd mod 2 ^ 80 in
  String.append executionIDPrefix (of_bytes (id_char <$> base32_digits 26 (buf * 4))).

(** ** Options: [options.go] *)

Definition second : Z := 1000000000.
Definition DefaultCompensationTimeout : Z := 30 * second.
Definition DefaultStoreTimeout : Z := 5 * second.

(** [Multiplier] is a [float64]; [Retryable] is nil for the default. *)
Record RetryPolicy := mkRetryPolicy {
  rp_MaxAttempts : Z;
  rp_Backoff : Z;
  rp_Multiplier : spec_float;
  rp_MaxBackoff : Z;
  rp_Retryable : option (err -> bool)
}.

Definition float_zero : spec_float := S754_zero false.
Definition float_one : spec_float := S754_finite false 4503599627370496 (-52).

Definition IsNaN (f : spec_float) : bool :=
  match f with S754_nan => true | _ => false end.

Definition NoRetry : RetryPolicy := mkRetryPolicy 1 0 float_zero 0 None.

Definition DefaultRetryable (e : option err) : bool :=
  match e with
  | None => false
  | Some e =>
      if Is e panic_text || Is e uncompensated_text then false
      else if Is e canceled_text || Is e deadline_text then false
      else match KindOf e with
      | KindUnavailable | KindInternal => true
      | _ => false
      end
  end.

Definition allow (p : RetryPolicy) (e : option err) : bool :=
  match e with
  | None => false
  | Some e =>
      if Is e panic_text || Is e uncompensated_text then false
      else if Is e canceled_text || Is e deadline_text then false
      else match rp_Retryable p with
      | Some retryable => retryable e
      | None => DefaultRetryable (Some e)
      end
  end.

Definition normalize (p : RetryPolicy) (what : string) : result RetryPolicy :=
  if rp_MaxAttempts p <? 1 then
    Fail (Invalid CodeInvalidOption "%s: MaxAttempts has to be at least 1, %d was given"
      [AStr what; AInt (rp_MaxAttempts p)])
  else if rp_Backoff p <? 0 then
    Fail (Invalid CodeInvalidOption "%s: Backoff cannot be negative, %s was given"
      [AStr what; AInt (rp_Backoff p)])
  else if rp_MaxBackoff p <? 0 then
    Fail (Invalid CodeInvalidOption "%s: MaxBackoff cannot be negative, %s was given"
      [AStr what; AInt (rp_MaxBackoff p)])
  else if SFltb (rp_Multiplier p) float_zero || IsNaN (rp_Multiplier p) then
    Fail (Invalid CodeInvalidOption "%s: Multiplier cannot be negative or NaN" [AStr what])
  else if SFltb (rp_Multiplier p) float_one then
    Ok (mkRetryPolicy (rp_MaxAttempts p) (rp_Backoff p) float_one (rp_MaxBackoff p)
          (rp_Retryable p))
  else Ok p.

Record runOptions := mkRunOptions {
  ro_idempotencyKey : string;
  ro_retry : RetryPolicy;
  ro_compensationRetry : RetryPolicy;
  ro_compensationTimeout : Z;
  ro_storeTimeout : Z;
  ro_lease : Z;
  ro_compensationRetrySet : bool
}.

(** A [RunOption] is a function, nil is [None]. *)
Definition RunOption : Type := option (runOptions -> result runOptions).

Definition WithIdempotencyKey (key : string) : RunOption := Some (fun o =>
  if bool_decide (key = EmptyString) then
    Fail (Invalid CodeInvalidOption "the idempotency key cannot be empty" [])
  else if MaxIdempotencyKeyLen <? len key then
    Fail (Invalid CodeInvalidOption
      "the idempotency key can be at most %d bytes, %d bytes were given"
      [AInt MaxIdempotencyKeyLen; AInt (len key)])
  else Ok (mkRunOptions key (ro_retry o) (ro_compensationRetry o) (ro_compensationTimeout o)
             (ro_storeTimeout o) (ro_lease o) (ro_compensationRetrySet o))).

Definition WithRetry (p : RetryPolicy) : RunOption := Some (fun o =>
  np ← normalize p "WithRetry";
  Ok (mkRunOptions (ro_idempotencyKey o) np (ro_compensationRetry o) (ro_compensationTimeout o)
        (ro_storeTimeout o) (ro_lease o) (ro_compensationRetrySet o))).

Definition WithCompensationRetry (p : RetryPolicy) : RunOption := Some (fun o =>
  np ← normalize p "WithCompensationRetry";
  Ok (mkRunOptions (ro_idempotencyKey o) (ro_retry o) np (ro_compensationTimeout o)
        (ro_storeTimeout o) (ro_lease o) true)).

Definition WithLease (d : Z) : RunOption := Some (fun o =>
  Ok (mkRunOptions (ro_idempotencyKey o) (ro_retry o) (ro_compensationRetry o)
        (ro_compensationTimeout o) (ro_storeTimeout o) d (ro_compensationRetrySet o))).

Definition WithCompensationTimeout (d : Z) : RunOption := Some (fun o =>
  if d <=? 0 then
    Fail (Invalid CodeInvalidOption "the compensation timeout has to be positive, %s was given"
      [AInt d])
  else Ok (mkRunOptions (ro_idempotencyKey o) (ro_retry o) (ro_compensationRetry o) d
             (ro_storeTimeout o) (ro_lease o) (ro_compensationRetrySet o))).

Definition WithStoreTimeout (d : Z) : RunOption := Some (fun o =>
  if d <=? 0 then
    Fail (Invalid CodeInvalidOption "the store timeout has to be positive, %s was given" [AInt d])
  else Ok (mkRunOptions (ro_idempotencyKey o) (ro_retry o) (ro_compensationRetry o)
             (ro_compensationTimeout o) d (ro_lease o) (ro_compensationRetrySet o))).

Fixpoint apply_options (opts : list RunOption) (o : runOptions) : result runOptions :=
  match opts with
  | [] => Ok o
  | None :: _ => Fail (Invalid CodeInvalidOption "a nil RunOption cannot be given" [])
  | Some opt :: opts' => o' ← opt o; apply_options opts' o'
  end.

Definition newRunOptions (opts : list RunOption) : result runOptions :=
  o ← apply_options opts
        (mkRunOptions EmptyString NoRetry NoRetry DefaultCompensationTimeout DefaultStoreTimeout 0
           false);
  if ro_compensationRetrySet o then Ok o
  else Ok (mkRunOptions (ro_idempotencyKey o) (ro_retry o) (ro_retry o)
             (ro_compensationTimeout o) (ro_storeTimeout o) (ro_lease o)
             (ro_compensationRetrySet o)).

(** ** Steps and workflows: [workflow.go] *)

(** [StepContext.Input] is the caller's Go value on a fresh run and the record's JSON on the
    recovery path. *)
Inductive Input (V : Type) :=
| GoInput (v : V)
| RawInput (r : RawMessage).
Arguments GoInput {V} v.
Arguments RawInput {V} r.

Record StepContext (V : Type) := mkStepContext {
  sc_Input : Input V;
  sc_Shared : gmap string V;
  sc_ExecutionID : string;
  sc_Workflow : string;
  sc_StepName : string;
  sc_StepIndex : Z;
  sc_Attempt : Z
}.
Arguments mkStepContext {V}.
Arguments sc_Input {V}.
Arguments sc_Shared {V}.
Arguments sc_ExecutionID {V}.
Arguments sc_Workflow {V}.
Arguments sc_StepName {V}.
Arguments sc_StepIndex {V}.
Arguments sc_Attempt {V}.

Inductive panic :=
| PanicError (e : err)
| PanicValue (text : string).

(** How a call to step code ends. *)
Inductive outcome (A : Type) :=
| Returned (a : A)
| Errored (e : err)
| Panicked (r : panic).
Arguments Returned {A} a.
Arguments Errored {A} e.
Arguments Panicked {A} r.

(** A step reads and changes the context it is given and the outside world. [Restore] is present
    when the step implements [Recoverable]; [BlocksRecovery] says whether it is a
    [RecoveryBlocker]. *)
Record Step (V W : Type) := mkStep {
  Name : string;
  Invoke : StepContext V -> W -> outcome V * StepContext V * W;
  Compensate : StepContext V -> W -> outcome unit * StepContext V * W;
  Restore : option (StepContext V -> RawMessage -> option err * StepContext V);
  BlocksRecovery : bool
}.
Arguments mkStep {V W}.
Arguments Name {V W}.
Arguments Invoke {V W}.
Arguments Compensate {V W}.
Arguments Restore {V W}.
Arguments BlocksRecovery {V W}.

(** A step slot is [None] when the interface value is nil or carries a nil pointer ([isNilStep]). *)
Record Workflow (V W : Type) := mkWorkflow {
  wf_Name : string;
  wf_Steps : list (option (Step V W))
}.
Arguments mkWorkflow {V W}.
Arguments wf_Name {V W}.
Arguments wf_Steps {V W}.

Section Validate.
Context {V W : Type}.

Fixpoint validate_steps (wf : string) (i : Z) (steps : list (option (Step V W))) : option err :=
  match steps with
  | [] => None
  | None :: _ =>
      Some (Invalid CodeInvalidWorkflow "step %d of the %q workflow is nil" [AInt i; AStr wf])
  | Some s :: steps' =>
      if bool_decide (Name s = EmptyString) then
        Some (Invalid CodeInvalidWorkflow "the name of step %d of the %q workflow is empty"
          [AInt i; AStr wf])
      else if MaxNameLen <? len (Name s) then
        Some (Invalid CodeInvalidWorkflow
          "the name of step %d of the %q workflow can be at most %d bytes, %d bytes were given"
          [AInt i; AStr wf; AInt MaxNameLen; AInt (len (Name s))])
      else validate_steps wf (i + 1) steps'
  end.

Definition Validate (w : Workflow V W) : option err :=
  if bool_decide (wf_Name w = EmptyString) then
    Some (Invalid CodeInvalidWorkflow "the workflow name cannot be empty" [])
  else if MaxNameLen <? len (wf_Name w) then
    Some (Invalid CodeInvalidWorkflow
      "the workflow name can be at most %d bytes, %d bytes were given"
      [AInt MaxNameLen; AInt (len (wf_Name w))])
  else match wf_Steps w with
  | [] => Some (Invalid CodeInvalidWorkflow "the %q workflow has no steps" [AStr (wf_Name w)])
  | steps => validate_steps (wf_Name w) 0 steps
  end.

(** The steps of a validated workflow. *)
Definition live_steps (w : Workflow V W) : list (Step V W) := omap id (wf_Steps w).
End Validate.

(** What no policy retries. *)
Lemma allow_never p e :
  allow p (Some e) = true ->
  Is e panic_text = false /\ Is e uncompensated_text = false /\
  Is e canceled_text = false /\ Is e deadline_text = false.
Proof.
  unfold allow. destruct (_ || _) eqn:H1; [done|]. destruct (_ || _) eqn:H2 in |- *; [done|].
  intros _. by apply orb_false_iff in H1 as [-> ->], H2 as [-> ->].
Qed.
