(* ===== verification/WorkflowStore.v ===== *)
(** * Where executions are kept: [store.go] and [memory.go] of [internal/core/workflow]

    [Store] is the interface the engine is written against, with the optional claiming capability.
    [StoreLaws] is what it promises: a map from ids to executions in which no two executions of a
    workflow hold one idempotency key. [memoryStore] is the in-process implementation, with its two
    maps; its laws are proved here. *)
From S2P Require Import Prelude GoText Errors Workflow.

(** The moment argument of an operation is the store's own reading of the clock. *)
Class Store (S : Type) := {
  st_Create : option Execution -> S -> option err * S;
  st_FindByIdempotencyKey : string -> string -> S -> result (option Execution) * S;
  st_AppendStep : Z -> string -> StepRecord -> S -> option err * S;
  st_UpdateStatus : Z -> string -> Status -> RawMessage -> string -> S -> option err * S;
  st_Get : string -> S -> result (option Execution) * S;
  st_ClaimAbandoned : option (Z -> string -> Z -> S -> result bool * S)
}.

(** ** The in-memory store *)

Record memoryStore := mkMemoryStore {
  byID : gmap string Execution;
  byKey : gmap (string * string) string
}.

Definition NewMemoryStore : memoryStore := mkMemoryStore ∅ ∅.

Definition Create (exec : option Execution) (s : memoryStore) : option err * memoryStore :=
  match exec with
  | None => (Some (Invalid CodeInvalidWorkflow "the execution cannot be nil" []), s)
  | Some exec =>
      if bool_decide (ex_ID exec = EmptyString) then
        (Some (Invalid CodeInvalidWorkflow "the execution id cannot be empty" []), s)
      else if bool_decide (ex_Workflow exec = EmptyString) then
        (Some (Invalid CodeInvalidWorkflow "the execution's workflow name cannot be empty" []), s)
      else match byID s !! ex_ID exec with
      | Some _ =>
          (Some (Conflict CodeExecutionExists "an execution with the id %q already exists"
             [AStr (ex_ID exec)]), s)
      | None =>
          let k := (ex_Workflow exec, ex_IdempotencyKey exec) in
          if bool_decide (ex_IdempotencyKey exec = EmptyString) then
            (None, mkMemoryStore (<[ex_ID exec := exec]> (byID s)) (byKey s))
          else match byKey s !! k with
          | Some existing =>
              (Some (Conflict CodeExecutionExists
                 "the %q workflow already has an execution with the key %q: %s"
                 [AStr (ex_Workflow exec); AStr (ex_IdempotencyKey exec); AStr existing]), s)
          | None =>
              (None, mkMemoryStore (<[ex_ID exec := exec]> (byID s)) (<[k := ex_ID exec]> (byKey s)))
          end
      end
  end.

Definition not_found (id : string) : err :=
  NotFound CodeExecutionNotFound "no execution with the id %q was found" [AStr id].

Definition set_updated (now : Z) (e : Execution) : Execution :=
  mkExecution (ex_ID e) (ex_Workflow e) (ex_IdempotencyKey e) (ex_Status e) (ex_Input e)
    (ex_Output e) (ex_Failure e) (ex_Steps e) (ex_CreatedAt e) now.

Definition ClaimAbandoned (now : Z) (executionID : string) (seen : Z) (s : memoryStore) :
    result bool * memoryStore :=
  match byID s !! executionID with
  | None => (Fail (not_found executionID), s)
  | Some exec =>
      if bool_decide (ex_Status exec <> StatusRunning) || negb (ex_UpdatedAt exec =? seen) then
        (Ok false, s)
      else (Ok true, mkMemoryStore (<[executionID := set_updated now exec]> (byID s)) (byKey s))
  end.

Definition FindByIdempotencyKey (workflow key : string) (s : memoryStore) :
    result (option Execution) * memoryStore :=
  match byKey s !! (workflow, key) with
  | None =>
      (Fail (NotFound CodeExecutionNotFound "the %q workflow has no execution with the key %q"
         [AStr workflow; AStr key]), s)
  | Some id =>
      match byID s !! id with
      | None =>
          (Fail (Internal CodeStoreFailed
             "the key %q points at the id %q but there is no such record" [AStr key; AStr id]), s)
      | Some exec => (Ok (Some exec), s)
      end
  end.

(** [exec.Steps] with the record of [rec]'s index replaced, or [rec] appended. *)
Fixpoint upsert_step (rec : StepRecord) (steps : list StepRecord) : list StepRecord :=
  match steps with
  | [] => [rec]
  | r :: steps' =>
      if sr_Index r =? sr_Index rec then rec :: steps' else r :: upsert_step rec steps'
  end.

Definition append_step (now : Z) (rec : StepRecord) (e : Execution) : Execution :=
  mkExecution (ex_ID e) (ex_Workflow e) (ex_IdempotencyKey e) (ex_Status e) (ex_Input e)
    (ex_Output e) (ex_Failure e) (upsert_step rec (ex_Steps e)) (ex_CreatedAt e) now.

Definition AppendStep (now : Z) (executionID : string) (rec : StepRecord) (s : memoryStore) :
    option err * memoryStore :=
  match byID s !! executionID with
  | None => (Some (not_found executionID), s)
  | Some exec =>
      (None, mkMemoryStore (<[executionID := append_step now rec exec]> (byID s)) (byKey s))
  end.

(** Whether writing [status] over [e] drops the execution's key. *)
Definition releases_key (status : Status) (e : Execution) : bool :=
  bool_decide (status = StatusFailed) && negb (bool_decide (ex_IdempotencyKey e = EmptyString)).

Definition update_status (now : Z) (status : Status) (output : RawMessage) (failure : string)
    (e : Execution) : Execution :=
  mkExecution (ex_ID e) (ex_Workflow e)
    (if releases_key status e then EmptyString else ex_IdempotencyKey e)
    status (ex_Input e) output failure (ex_Steps e) (ex_CreatedAt e) now.

Definition UpdateStatus (now : Z) (executionID : string) (status : Status) (output : RawMessage)
    (failure : string) (s : memoryStore) : option err * memoryStore :=
  match byID s !! executionID with
  | None => (Some (not_found executionID), s)
  | Some exec =>
      let byKey' :=
        if releases_key status exec
        then delete (ex_Workflow exec, ex_IdempotencyKey exec) (byKey s)
        else byKey s in
      (None, mkMemoryStore
               (<[executionID := update_status now status output failure exec]> (byID s)) byKey')
  end.

Definition Get (executionID : string) (s : memoryStore) : result (option Execution) * memoryStore :=
  match byID s !! executionID with
  | None => (Fail (not_found executionID), s)
  | Some exec => (Ok (Some exec), s)
  end.

#[export] Instance memory_store : Store memoryStore := {|
  st_Create := Create;
  st_FindByIdempotencyKey := FindByIdempotencyKey;
  st_AppendStep := AppendStep;
  st_UpdateStatus := UpdateStatus;
  st_Get := Get;
  st_ClaimAbandoned := Some ClaimAbandoned
|}.

(** ** What a store promises *)

(** Some execution of [workflow] holds [key]. *)
Definition holds_key (m : gmap string Execution) (workflow key : string) : Prop :=
  exists id e, m !! id = Some e /\ ex_Workflow e = workflow /\ ex_IdempotencyKey e = key.

(** The change an operation makes to the record of one execution, or a refusal that changes
    nothing. *)
Definition record_write (m m' : gmap string Execution) (id : string) (f : Execution -> Execution)
    (o : option err) : Prop :=
  match m !! id with
  | Some e => o = None /\ m' = <[id := f e]> m
  | None => (exists er, o = Some er /\ KindOf er = KindNotFound) /\ m' = m
  end.

Class StoreLaws (S : Type) `{Store S} := {
  store_ok : S -> Prop;
  records : S -> gmap string Execution;
  law_key_unique s id1 id2 e1 e2 :
    store_ok s -> records s !! id1 = Some e1 -> records s !! id2 = Some e2 ->
    ex_IdempotencyKey e1 <> EmptyString -> ex_Workflow e1 = ex_Workflow e2 ->
    ex_IdempotencyKey e1 = ex_IdempotencyKey e2 -> id1 = id2;
  law_id s id e : store_ok s -> records s !! id = Some e -> ex_ID e = id;
  law_create s exec :
    store_ok s -> ex_ID exec <> EmptyString -> ex_Workflow exec <> EmptyString ->
    let '(o, s') := st_Create (Some exec) s in
    store_ok s' /\
    match o with
    | None =>
        records s !! ex_ID exec = None /\
        (ex_IdempotencyKey exec <> EmptyString ->
         ~ holds_key (records s) (ex_Workflow exec) (ex_IdempotencyKey exec)) /\
        records s' = <[ex_ID exec := exec]> (records s)
    | Some er =>
        KindOf er = KindConflict /\ s' = s /\
        (is_Some (records s !! ex_ID exec) \/
         (ex_IdempotencyKey exec <> EmptyString /\
          holds_key (records s) (ex_Workflow exec) (ex_IdempotencyKey exec)))
    end;
  law_find s workflow key :
    store_ok s ->
    let '(r, s') := st_FindByIdempotencyKey workflow key s in
    s' = s /\
    (key <> EmptyString ->
     match r with
     | Ok (Some e) =>
         records s !! ex_ID e = Some e /\ ex_Workflow e = workflow /\ ex_IdempotencyKey e = key
     | Ok None => False
     | Fail er => KindOf er = KindNotFound /\ ~ holds_key (records s) workflow key
     end);
  law_append s now id rec :
    store_ok s ->
    let '(o, s') := st_AppendStep now id rec s in
    store_ok s' /\ record_write (records s) (records s') id (append_step now rec) o;
  law_update s now id status output failure :
    store_ok s ->
    let '(o, s') := st_UpdateStatus now id status output failure s in
    store_ok s' /\
    record_write (records s) (records s') id (update_status now status output failure) o;
  law_get s id :
    store_ok s ->
    let '(r, s') := st_Get id s in
    s' = s /\
    match records s !! id with
    | Some e => r = Ok (Some e)
    | None => exists er, r = Fail er /\ KindOf er = KindNotFound
    end;
  law_claim claim s now id seen :
    st_ClaimAbandoned = Some claim -> store_ok s ->
    let '(r, s') := claim now id seen s in
    store_ok s' /\
    match r, records s !! id with
    | Ok true, Some e =>
        ex_Status e = StatusRunning /\ ex_UpdatedAt e = seen /\
        records s' = <[id := set_updated now e]> (records s)
    | Ok false, Some e => (ex_Status e <> StatusRunning \/ ex_UpdatedAt e <> seen) /\ s' = s
    | Ok _, None => False
    | Fail _, _ => s' = s
    end
}.

(** ** The in-memory store keeps the promise *)

(** The index [byKey] and the records agree. *)
Record memory_ok (s : memoryStore) : Prop := {
  ok_id id e : byID s !! id = Some e -> ex_ID e = id;
  ok_key id e : byID s !! id = Some e -> ex_IdempotencyKey e <> EmptyString ->
    byKey s !! (ex_Workflow e, ex_IdempotencyKey e) = Some id;
  ok_index workflow key id : byKey s !! (workflow, key) = Some id ->
    key <> EmptyString /\
    exists e, byID s !! id = Some e /\ ex_Workflow e = workflow /\ ex_IdempotencyKey e = key
}.

Lemma memory_ok_new : memory_ok NewMemoryStore.
Proof. split; intros *; simpl; by rewrite lookup_empty. Qed.

Lemma memory_key_unique s id1 id2 e1 e2 :
  memory_ok s -> byID s !! id1 = Some e1 -> byID s !! id2 = Some e2 ->
  ex_IdempotencyKey e1 <> EmptyString -> ex_Workflow e1 = ex_Workflow e2 ->
  ex_IdempotencyKey e1 = ex_IdempotencyKey e2 -> id1 = id2.
Proof.
  intros Hok H1 H2 Hk Hw Hkk.
  pose proof (ok_key _ Hok _ _ H1 Hk). pose proof (ok_key _ Hok _ _ H2).
  rewrite <- Hw, <- Hkk in *. naive_solver.
Qed.

Lemma holds_key_index s workflow key :
  memory_ok s -> key <> EmptyString ->
  holds_key (byID s) workflow key <-> is_Some (byKey s !! (workflow, key)).
Proof.
  intros Hok Hk. split.
  - intros (id & e & He & <- & <-). exists id. by eapply ok_key.
  - intros [id Hid]. apply (ok_index _ Hok) in Hid as (_ & e & ? & ? & ?). by exists id, e.
Qed.

(** Rewriting a record without touching its identity keeps the agreement. *)
Lemma memory_ok_rewrite s id e e' :
  memory_ok s -> byID s !! id = Some e ->
  ex_ID e' = ex_ID e -> ex_Workflow e' = ex_Workflow e ->
  ex_IdempotencyKey e' = ex_IdempotencyKey e ->
  memory_ok (mkMemoryStore (<[id := e']> (byID s)) (byKey s)).
Proof.
  intros Hok He Hid Hw Hk. split; simpl.
  - intros id' e0. destruct (decide (id = id')) as [<-|].
    + rewrite lookup_insert_eq. intros [= <-]. rewrite Hid. by eapply ok_id.
    + rewrite lookup_insert_ne by done. by apply ok_id.
  - intros id' e0. destruct (decide (id = id')) as [<-|].
    + rewrite lookup_insert_eq. intros [= <-]. rewrite Hk, Hw. by apply ok_key.
    + rewrite lookup_insert_ne by done. by apply ok_key.
  - intros wf key id' Hidx. apply (ok_index _ Hok) in Hidx as (? & e0 & He0 & <- & <-).
    split; [done|]. destruct (decide (id = id')) as [<-|].
    + exists e'. rewrite lookup_insert_eq. naive_solver.
    + exists e0. by rewrite lookup_insert_ne.
Qed.

(** Releasing the key of a record drops exactly its own index entry. *)
Lemma memory_ok_release s id e e' :
  memory_ok s -> byID s !! id = Some e -> ex_IdempotencyKey e <> EmptyString ->
  ex_ID e' = ex_ID e -> ex_Workflow e' = ex_Workflow e -> ex_IdempotencyKey e' = EmptyString ->
  memory_ok (mkMemoryStore (<[id := e']> (byID s))
               (delete (ex_Workflow e, ex_IdempotencyKey e) (byKey s))).
Proof.
  intros Hok He Hne Hid Hw Hk. split; simpl.
  - intros id' e0. destruct (decide (id = id')) as [<-|].
    + rewrite lookup_insert_eq. intros [= <-]. rewrite Hid. by eapply ok_id.
    + rewrite lookup_insert_ne by done. by apply ok_id.
  - intros id' e0. destruct (decide (id = id')) as [<-|].
    + rewrite lookup_insert_eq. intros [= <-]. by rewrite Hk.
    + rewrite lookup_insert_ne by done. intros He0 Hk0.
      rewrite lookup_delete_ne; [by apply ok_key|].
      intros [= Hw' Hk']. by pose proof (memory_key_unique _ _ _ _ _ Hok He He0 Hne Hw' Hk').
  - intros wf key id'. destruct (decide ((ex_Workflow e, ex_IdempotencyKey e) = (wf, key))) as [<-|].
    + by rewrite lookup_delete_eq.
    + rewrite lookup_delete_ne by done. intros (? & e0 & He0 & <- & <-)%(ok_index _ Hok).
      split; [done|]. exists e0. rewrite lookup_insert_ne; [done|]. intros ->. naive_solver.
Qed.

(** Opening a record under a free id and a free key keeps the agreement. *)
Lemma memory_ok_open s e :
  memory_ok s -> byID s !! ex_ID e = None ->
  (ex_IdempotencyKey e <> EmptyString -> byKey s !! (ex_Workflow e, ex_IdempotencyKey e) = None) ->
  memory_ok (mkMemoryStore (<[ex_ID e := e]> (byID s))
               (if bool_decide (ex_IdempotencyKey e = EmptyString) then byKey s
                else <[(ex_Workflow e, ex_IdempotencyKey e) := ex_ID e]> (byKey s))).
Proof.
  intros Hok Hid Hkey. split; simpl.
  - intros id' e0. destruct (decide (ex_ID e = id')) as [<-|].
    + rewrite lookup_insert_eq. by intros [= <-].
    + rewrite lookup_insert_ne by done. by apply ok_id.
  - intros id' e0. destruct (decide (ex_ID e = id')) as [<-|].
    + rewrite lookup_insert_eq. intros [= <-] Hne. rewrite bool_decide_eq_false_2 by done.
      by rewrite lookup_insert_eq.
    + rewrite lookup_insert_ne by done. intros He0 Hne0. case_bool_decide; [by apply ok_key|].
      rewrite lookup_insert_ne; [by apply ok_key|]. intros [= Hw Hk].
      pose proof (ok_key _ Hok _ _ He0 Hne0). rewrite <- Hw, <- Hk in *. naive_solver.
  - intros wf key id' Hidx.
    assert (byKey s !! (wf, key) = Some id' \/
            (ex_IdempotencyKey e <> EmptyString /\ wf = ex_Workflow e /\
             key = ex_IdempotencyKey e /\ id' = ex_ID e)) as [Hold|(? & -> & -> & ->)].
    { case_bool_decide; [by left|]. apply lookup_insert_Some in Hidx. naive_solver. }
    + apply (ok_index _ Hok) in Hold as (? & e0 & He0 & <- & <-). split; [done|].
      exists e0. rewrite lookup_insert_ne; [done|]. intros Heq. rewrite Heq in Hid. naive_solver.
    + split; [done|]. exists e. by rewrite lookup_insert_eq.
Qed.

Lemma Create_spec s e :
  memory_ok s -> ex_ID e <> EmptyString -> ex_Workflow e <> EmptyString ->
  let '(o, s') := Create (Some e) s in
  memory_ok s' /\
  match o with
  | None =>
      byID s !! ex_ID e = None /\
      (ex_IdempotencyKey e <> EmptyString ->
       ~ holds_key (byID s) (ex_Workflow e) (ex_IdempotencyKey e)) /\
      byID s' = <[ex_ID e := e]> (byID s)
  | Some er =>
      KindOf er = KindConflict /\ s' = s /\
      (is_Some (byID s !! ex_ID e) \/
       (ex_IdempotencyKey e <> EmptyString /\
        holds_key (byID s) (ex_Workflow e) (ex_IdempotencyKey e)))
  end.
Proof.
  intros Hok Hid Hw. unfold Create. rewrite !bool_decide_eq_false_2 by done.
  destruct (byID s !! ex_ID e) eqn:Hlook; [split_and!; eauto|].
  case_bool_decide as Hk.
  - split; [|naive_solver]. pose proof (memory_ok_open s e Hok Hlook) as H.
    rewrite bool_decide_eq_true_2 in H by done. naive_solver.
  - destruct (byKey s !! _) eqn:Hidx.
    + split; [done|]. split; [done|]. split; [done|]. right. split; [done|].
      apply holds_key_index; [done..|]. by rewrite Hidx.
    + split.
      * pose proof (memory_ok_open s e Hok Hlook) as H.
        rewrite bool_decide_eq_false_2 in H by done. naive_solver.
      * split; [done|]. split; [|done]. intros _. rewrite holds_key_index by done.
        rewrite Hidx. by intros [? ?].
Qed.

(** Also when [Create] refuses. *)
Lemma memory_ok_Create exec s : memory_ok s -> memory_ok (Create exec s).2.
Proof.
  intros Hok. destruct exec as [e|]; [|done].
  destruct (decide (ex_ID e = EmptyString)) as [Hid|Hid].
  { unfold Create. by rewrite bool_decide_eq_true_2. }
  destruct (decide (ex_Workflow e = EmptyString)) as [Hw|Hw].
  { unfold Create. by rewrite bool_decide_eq_false_2, bool_decide_eq_true_2. }
  pose proof (Create_spec s e Hok Hid Hw) as H. destruct (Create _ _). by destruct H.
Qed.

Lemma Find_spec s workflow key :
  memory_ok s ->
  let '(r, s') := FindByIdempotencyKey workflow key s in
  s' = s /\
  (key <> EmptyString ->
   match r with
   | Ok (Some e) =>
       byID s !! ex_ID e = Some e /\ ex_Workflow e = workflow /\ ex_IdempotencyKey e = key
   | Ok None => False
   | Fail er => KindOf er = KindNotFound /\ ~ holds_key (byID s) workflow key
   end).
Proof.
  intros Hok. unfold FindByIdempotencyKey.
  destruct (byKey s !! (workflow, key)) as [id|] eqn:Hidx.
  - apply (ok_index _ Hok) in Hidx as (_ & e & He & <- & <-). rewrite He.
    split; [done|]. by rewrite (ok_id _ Hok _ _ He).
  - split; [done|]. intros Hk. split; [done|]. rewrite holds_key_index by done. rewrite Hidx.
    by intros [? ?].
Qed.

Lemma AppendStep_spec s now id rec :
  memory_ok s ->
  let '(o, s') := AppendStep now id rec s in
  memory_ok s' /\ record_write (byID s) (byID s') id (append_step now rec) o.
Proof.
  intros Hok. unfold AppendStep, record_write. destruct (byID s !! id) as [e|] eqn:He; simpl.
  - split; [|done]. by eapply memory_ok_rewrite.
  - naive_solver.
Qed.

Lemma UpdateStatus_spec s now id status output failure :
  memory_ok s ->
  let '(o, s') := UpdateStatus now id status output failure s in
  memory_ok s' /\
  record_write (byID s) (byID s') id (update_status now status output failure) o.
Proof.
  intros Hok. unfold UpdateStatus, record_write. destruct (byID s !! id) as [e|] eqn:He; simpl.
  - split; [|done]. destruct (releases_key status e) eqn:Hr.
    + assert (ex_IdempotencyKey e <> EmptyString) by (unfold releases_key in Hr; by reflect_bools).
      eapply memory_ok_release; try done. simpl. by rewrite Hr.
    + eapply memory_ok_rewrite; try done. simpl. by rewrite Hr.
  - naive_solver.
Qed.

Lemma ClaimAbandoned_spec s now id seen :
  memory_ok s ->
  let '(r, s') := ClaimAbandoned now id seen s in
  memory_ok s' /\
  match r, byID s !! id with
  | Ok true, Some e =>
      ex_Status e = StatusRunning /\ ex_UpdatedAt e = seen /\
      byID s' = <[id := set_updated now e]> (byID s)
  | Ok false, Some e => (ex_Status e <> StatusRunning \/ ex_UpdatedAt e <> seen) /\ s' = s
  | Ok _, None => False
  | Fail _, _ => s' = s
  end.
Proof.
  intros Hok. unfold ClaimAbandoned. destruct (byID s !! id) as [e|] eqn:He; [|done].
  destruct (bool_decide _ || _) eqn:Hb.
  - split; [done|]. split; [|done]. apply orb_true_iff in Hb as [Hb|Hb]; reflect_bools; auto.
  - apply orb_false_iff in Hb as [Hb1 Hb2]. reflect_bools.
    split; [by eapply memory_ok_rewrite|]. split_and!; [|lia|done].
    by destruct (decide (ex_Status e = StatusRunning)).
Qed.

#[export, program] Instance memory_store_laws : StoreLaws memoryStore := {|
  store_ok := memory_ok;
  records := byID
|}.
Next Obligation. intros. by eapply memory_key_unique. Qed.
Next Obligation. intros. by eapply ok_id. Qed.
Next Obligation. intros. by apply Create_spec. Qed.
Next Obligation. intros. by apply Find_spec. Qed.
Next Obligation. intros. by apply AppendStep_spec. Qed.
Next Obligation. intros. by apply UpdateStatus_spec. Qed.
Next Obligation. intros s id Hok. simpl. unfold Get. destruct (byID s !! id); naive_solver. Qed.
Next Obligation. intros claim s now id seen [= <-] Hok. by apply ClaimAbandoned_spec. Qed.
