(* ===== verification/WorkflowEngine.v ===== *)
(** * A fresh run of a saga: [executor.go] of [internal/core/workflow]

    The engine is a computation over the outside world, the store and the one live [StepContext],
    in the environment of a run: what every look at the caller's context and at a compensation's
    own time budget finds, what every reading of the clock and of the random source gives. Every
    call the engine makes to a step or to the store is an item of the trace the computation
    returns, in order.

    A wait between two attempts is one look at its context, as [wait] ends either with the
    context's error or with the timer; [backoffFor] only decides how long it takes and is not
    modelled. Logging is not modelled. *)
From S2P Require Import Prelude GoText Errors Workflow WorkflowStore.

Record Env := mkEnv {
  env_ctx : nat -> option err;
  env_budget : nat -> option err;
  env_clock : nat -> Z;
  env_rand : nat -> Z
}.

(** What the engine asks of its surroundings. A call to a step carries the step's index, the number
    of the attempt and how it ended. *)
Inductive call :=
| CInvoke (index attempt : Z) (failure : option err)
| CCompensate (index attempt : Z) (failure : option err)
| CRestore (index : Z)
| CCreate (exec : Execution)
| CFind (workflow key : string)
| CGet (id : string)
| CClaim (id : string) (seen : Z)
| CAppend (id : string) (rec : StepRecord)
| CStatus (id : string) (status : Status) (output : RawMessage) (failure : string).

(** A step that enters the compensation chain. *)
Record doneStep (V W : Type) := mkDoneStep {
  ds_step : Step V W;
  ds_rec : StepRecord;
  ds_bestEffort : bool
}.
Arguments mkDoneStep {V W}.
Arguments ds_step {V W}.
Arguments ds_rec {V W}.
Arguments ds_bestEffort {V W}.

Record St (V W S : Type) := mkSt {
  world : W;
  store : S;
  sc : StepContext V;
  tick : nat
}.
Arguments mkSt {V W S}.
Arguments world {V W S}.
Arguments store {V W S}.
Arguments sc {V W S}.
Arguments tick {V W S}.

(** ** The monad *)

Definition M (V W S A : Type) : Type := Env -> St V W S -> A * St V W S * list call.

Definition retM {V W S A} (a : A) : M V W S A := fun _ s => (a, s, []).

Definition bindM {V W S A B} (m : M V W S A) (f : A -> M V W S B) : M V W S B := fun env s =>
  let '(a, s1, t1) := m env s in
  let '(b, s2, t2) := f a env s1 in
  (b, s2, t1 ++ t2).

Notation "'let*' p ':=' m 'in' k" := (bindM m (fun p => k))
  (at level 10, p pattern, m at level 100, k at level 200) : gobit_scope.
Notation "m ';;;' k" := (bindM m (fun _ => k)) (at level 199, right associativity) : gobit_scope.

Section Engine.
Context {V W S : Type} `{!Store S}.
(** [json.Marshal] of a Go value. *)
Context (Marshal : V -> result RawMessage).

Abbreviation M := (M V W S).
Abbreviation Step := (Step V W).
Abbreviation doneStep := (doneStep V W).

Definition look_ctx : M (option err) := fun env s =>
  (env_ctx env (tick s), mkSt (world s) (store s) (sc s) (Datatypes.S (tick s)), []).

Definition look_budget : M (option err) := fun env s =>
  (env_budget env (tick s), mkSt (world s) (store s) (sc s) (Datatypes.S (tick s)), []).

Definition Now : M Z := fun env s =>
  (env_clock env (tick s), mkSt (world s) (store s) (sc s) (Datatypes.S (tick s)), []).

Definition Rand : M Z := fun env s =>
  (env_rand env (tick s), mkSt (world s) (store s) (sc s) (Datatypes.S (tick s)), []).

Definition emit (c : call) : M unit := fun _ s => (tt, s, [c]).

Definition on_store {A} (f : S -> A * S) : M A := fun _ s =>
  let '(a, st) := f (store s) in (a, mkSt (world s) st (sc s) (tick s), []).

Definition get_sc : M (StepContext V) := fun _ s => (sc s, s, []).

Definition put_sc (c : StepContext V) : M unit := fun _ s =>
  (tt, mkSt (world s) (store s) c (tick s), []).

(** [sc.StepName, sc.StepIndex, sc.Attempt = name, index, attempt]. *)
Definition set_step (name : string) (index attempt : Z) : M unit :=
  let* c := get_sc in
  put_sc (mkStepContext (sc_Input c) (sc_Shared c) (sc_ExecutionID c) (sc_Workflow c)
            name index attempt).

(** [sc.Attempt = attempt]. *)
Definition set_attempt (attempt : Z) : M unit :=
  let* c := get_sc in
  put_sc (mkStepContext (sc_Input c) (sc_Shared c) (sc_ExecutionID c) (sc_Workflow c)
            (sc_StepName c) (sc_StepIndex c) attempt).

(** ** Calling a step *)

Definition panicError (step phase : string) (r : panic) : err :=
  match r with
  | PanicError e =>
      wrap (Joined [ErrPanic; e]) KindInternal CodeStepPanicked
        "the %s of the %q step panicked" [AStr phase; AStr step]
  | PanicValue text =>
      wrap ErrPanic KindInternal CodeStepPanicked
        "the %s of the %q step panicked: %v" [AStr phase; AStr step; AStr text]
  end.

(** What [recover] makes of how a call ended; the step's name is read after the panic. *)
Definition safely {A} (phase : string) (c : StepContext V) (o : outcome A) : result A :=
  match o with
  | Returned a => Ok a
  | Errored e => Fail e
  | Panicked r => Fail (panicError (sc_StepName c) phase r)
  end.

Definition call_step {A} (f : StepContext V -> W -> outcome A * StepContext V * W)
    (phase : string) : M (result A) := fun _ s =>
  let '(o, c, w) := f (sc s) (world s) in
  (safely phase c o, mkSt w (store s) c (tick s), []).

Definition failure_of {A} (r : result A) : option err :=
  match r with Ok _ => None | Fail e => Some e end.

Definition safeInvoke (index attempt : Z) (s : Step) : M (result V) :=
  let* r := call_step (Invoke s) "Invoke" in
  emit (CInvoke index attempt (failure_of r)) ;;;
  retM r.

Definition safeCompensate (index attempt : Z) (s : Step) : M (option err) :=
  let* r := call_step (Compensate s) "Compensate" in
  emit (CCompensate index attempt (failure_of r)) ;;;
  retM (failure_of r).

(** The attempts of [invokeStep] from attempt number [attempt] on, when [left] more than this one
    are allowed: [left = MaxAttempts - attempt], and zero when that is negative. *)
Fixpoint invokeLoop (left : nat) (index attempt : Z) (s : Step) (p : RetryPolicy) :
    M (result V * Z) :=
  set_attempt attempt ;;;
  let* r := safeInvoke index attempt s in
  match r, left with
  | Ok out, _ => retM (Ok out, attempt)
  | Fail serr, O => retM (Fail serr, attempt)
  | Fail serr, Datatypes.S left' =>
      if negb (allow p (Some serr)) then retM (Fail serr, attempt)
      else
        let* werr := look_ctx in
        match werr with
        | Some _ => retM (Fail serr, attempt)
        | None => invokeLoop left' index (attempt + 1) s p
        end
  end.

Definition invokeStep (index : Z) (s : Step) (o : runOptions) : M (result V * Z) :=
  invokeLoop (Z.to_nat (rp_MaxAttempts (ro_retry o) - 1)) index 1 s (ro_retry o).

Fixpoint compensateLoop (left : nat) (index attempt : Z) (s : Step) (p : RetryPolicy) :
    M (Z * option err) :=
  set_attempt attempt ;;;
  let* r := safeCompensate index attempt s in
  match r, left with
  | None, _ => retM (attempt, None)
  | Some cerr, O => retM (attempt, Some cerr)
  | Some cerr, Datatypes.S left' =>
      if negb (allow p (Some cerr)) then retM (attempt, Some cerr)
      else
        let* werr := look_budget in
        match werr with
        | Some _ => retM (attempt, Some cerr)
        | None => compensateLoop left' index (attempt + 1) s p
        end
  end.

Definition compensateStep (index : Z) (s : Step) (o : runOptions) : M (Z * option err) :=
  compensateLoop (Z.to_nat (rp_MaxAttempts (ro_compensationRetry o) - 1)) index 1 s
    (ro_compensationRetry o).

(** ** Writing the trace *)

Definition encode (v : V) : RawMessage * string :=
  match Marshal v with
  | Ok payload => (payload, EmptyString)
  | Fail e =>
      (EmptyString, String.append "the output could not be turned into JSON: " (ErrorText e))
  end.

(** The output of the last step; [None] is the nil a run without steps would carry. *)
Definition encode_last (last : option V) : RawMessage * string :=
  match last with
  | Some v => encode v
  | None => ("null"%string, EmptyString)
  end.

Definition persistStep (execID : string) (rec : StepRecord) : M unit :=
  let* now := Now in
  emit (CAppend execID rec) ;;;
  let* _ := on_store (st_AppendStep now execID rec) in
  retM tt.

Definition persistStatus (execID : string) (status : Status) (output : RawMessage)
    (failure : string) : M unit :=
  let* now := Now in
  emit (CStatus execID status output failure) ;;;
  let* _ := on_store (st_UpdateStatus now execID status output failure) in
  retM tt.

Definition joinFailure (existing added : string) : string :=
  if bool_decide (existing = EmptyString) then added
  else String.append existing (String.append "; " added).

(** ** Compensation *)

Definition compensation_record (rec : StepRecord) (ended : Z) (wrapped : option err) : StepRecord :=
  match wrapped with
  | None =>
      mkStepRecord (sr_Name rec) (sr_Index rec) StepCompensated (sr_Output rec) (sr_Failure rec)
        (sr_Attempts rec) (sr_StartedAt rec) ended
  | Some e =>
      mkStepRecord (sr_Name rec) (sr_Index rec) StepCompensationFailed (sr_Output rec)
        (joinFailure (sr_Failure rec) (ErrorText e)) (sr_Attempts rec) (sr_StartedAt rec) ended
  end.

Definition compensate_one (execID : string) (o : runOptions) (d : doneStep) : M (option err) :=
  let rec := ds_rec d in
  set_step (sr_Name rec) (sr_Index rec) 1 ;;;
  let* (_, e) := compensateStep (sr_Index rec) (ds_step d) o in
  let* ended := Now in
  let wrapped :=
    match e with
    | None => None
    | Some e =>
        Some (wrap e (KindOf e) CodeCompensationFailed "the compensation of the %q step (%d) failed"
                [AStr (sr_Name rec); AInt (sr_Index rec)])
    end in
  persistStep execID (compensation_record rec ended wrapped) ;;;
  retM wrapped.

(** The failures of compensating [chain] from its head on; a failure does not stop it. *)
Fixpoint compensate_chain (execID : string) (o : runOptions) (chain : list doneStep) :
    M (list err) :=
  match chain with
  | [] => retM []
  | d :: chain' =>
      let* e := compensate_one execID o d in
      let* es := compensate_chain execID o chain' in
      retM (option_list e ++ es)
  end.

(** [done] is in execution order; the chain is walked from its end. *)
Definition compensate (execID : string) (done : list doneStep) (o : runOptions) :
    M (option err) :=
  match done with
  | [] => retM None
  | _ =>
      let* failures := compensate_chain execID o (reverse done) in
      retM (Join (Some <$> failures))
  end.

Definition stepFailureCode (e : err) : string :=
  if bool_decide (CodeOf e = EmptyString) then CodeStepFailed else CodeOf e.

Definition unwind (execID workflow : string) (done : list doneStep) (o : runOptions) (cause : err) :
    M (result RawMessage) :=
  let* compErr := compensate execID done o in
  if bool_decide (compErr = None) && negb (Is cause uncompensated_text) then
    persistStatus execID StatusFailed EmptyString (ErrorText cause) ;;;
    retM (Fail cause)
  else
    let final :=
      wrap (Joined (cause :: option_list compErr)) KindInternal CodeCompensationFailed
        "the compensation of the %q workflow could not be completed (%s); A HUMAN IS NEEDED"
        [AStr workflow; AStr execID] in
    persistStatus execID StatusCompensationFailed EmptyString (ErrorText final) ;;;
    retM (Fail final).

(** ** The steps in order *)

(** The loop of [execute] from step [i] on, with [done] and [last] as they stand there. *)
Fixpoint execute_from (wf execID : string) (o : runOptions) (i : Z) (steps : list Step)
    (done : list doneStep) (last : option V) : M (result RawMessage) :=
  match steps with
  | [] =>
      let '(output, note) := encode_last last in
      persistStatus execID StatusCompleted output note ;;;
      retM (Ok output)
  | s :: steps' =>
      let* cerr := look_ctx in
      match cerr with
      | Some cerr =>
          let* c := get_sc in
          unwind execID (sc_Workflow c) done o
            (wrap cerr KindUnavailable CodeCanceled "the %q workflow was canceled before step %d"
               [AStr wf; AInt i])
      | None =>
          set_step (Name s) i 1 ;;;
          let* started := Now in
          let* (r, attempts) := invokeStep i s o in
          let* ended := Now in
          match r with
          | Fail serr =>
              let rec := mkStepRecord (Name s) i StepFailed EmptyString (ErrorText serr) attempts
                           started ended in
              persistStep execID rec ;;;
              let done' := if 1 <? attempts then done ++ [mkDoneStep s rec true] else done in
              let* c := get_sc in
              unwind execID (sc_Workflow c) done' o
                (wrap serr (KindOf serr) (stepFailureCode serr)
                   "the %q step (%d) of the %q workflow failed" [AStr (Name s); AInt i; AStr wf])
          | Ok out =>
              let '(output, note) := encode out in
              let rec := mkStepRecord (Name s) i StepInvoked output note attempts started ended in
              persistStep execID rec ;;;
              execute_from wf execID o (i + 1) steps' (done ++ [mkDoneStep s rec false]) (Some out)
          end
      end
  end.

Definition execute (wf : Workflow V W) (input : V) (execID : string) (o : runOptions) :
    M (result RawMessage) :=
  put_sc (mkStepContext (GoInput input) ∅ execID (wf_Name wf) EmptyString 0 0) ;;;
  execute_from (wf_Name wf) execID o 0 (live_steps wf) [] None.
End Engine.

(** * Opening, replaying and recovering executions: the rest of [executor.go] and [recover.go]
    of [internal/core/workflow]

    [Run] opens a record, or answers from the one its idempotency key already names; a record left
    running past its lease is judged abandoned, claimed and compensated from its own step records.
    [Recover] is the same compensation asked for by id.

    An engine built without a store, which refuses every call, is not modelled: the store is always
    there. *)

Inductive claimResult :=
| claimWon
| claimLost
| claimUndecided.

(** What [replay] answers: an outcome, or that the caller should open again. *)
Inductive replayed :=
| ReplayDone (r : result RawMessage)
| ReplayAgain.

Definition hasHeldWork (steps : list StepRecord) : bool :=
  existsb (fun r => Held (sr_Status r)) steps.

(** [time.Since], which saturates like every Go duration difference. *)
Definition Since (now t : Z) : Z := Z.max int64_min (Z.min int64_max (now - t)).

(** The records in ascending order of their index; indices are positions in a step list, so their
    difference does not overflow. *)
Definition cmp_index (a b : StepRecord) : Z := sr_Index a - sr_Index b.

Section Recovery.
Context {V W S : Type} `{!Store S}.

Abbreviation M := (M V W S).
Abbreviation Step := (Step V W).
Abbreviation doneStep := (doneStep V W).

Definition checkRecoveryBoundary (steps : list Step) (records : list StepRecord) : option err :=
  match last records with
  | None => None
  | Some r =>
      let next := sr_Index r + 1 in
      if Z.of_nat (length steps) <=? next then None
      else match steps !! Z.to_nat next with
      | Some s =>
          if BlocksRecovery s then
            Some (Internal CodeRecoveryFailed
              "the %q step (%d) has no record: the process may have died INSIDE it, and that step cannot be assumed not to have run without one; no recovery is done"
              [AStr (Name s); AInt next])
          else None
      | None => None
      end
  end.

(** Calls the step's [Restore] with the live context. *)
Definition call_restore (restore : StepContext V -> RawMessage -> option err * StepContext V)
    (index : Z) (output : RawMessage) : M (option err) :=
  let* c := get_sc in
  emit (CRestore index) ;;;
  let '(e, c') := restore c output in
  put_sc c' ;;;
  retM e.

(** The loop of [rebuildChain] over the sorted records. *)
Fixpoint rebuild_loop (steps : list Step) (records : list StepRecord) (done : list doneStep) :
    M (result (list doneStep)) :=
  match records with
  | [] => retM (Ok done)
  | rec :: records' =>
      if (sr_Index rec <? 0) || (Z.of_nat (length steps) <=? sr_Index rec) then
        retM (Fail (Internal CodeRecoveryFailed
          "step %d has a record but the workflow definition holds %d steps; the definition has changed"
          [AInt (sr_Index rec); AInt (Z.of_nat (length steps))]))
      else match steps !! Z.to_nat (sr_Index rec) with
      | None => retM (Ok done)
      | Some step =>
          if negb (bool_decide (Name step = sr_Name rec)) then
            retM (Fail (Internal CodeRecoveryFailed
              "step %d is %q in the record and %q in the definition; the workflow definition changed after the execution"
              [AInt (sr_Index rec); AStr (sr_Name rec); AStr (Name step)]))
          else match Restore step with
          | None =>
              if negb (Held (sr_Status rec)) then rebuild_loop steps records' done
              else retM (Fail (Internal CodeRecoveryFailed
                "the %q step (%d) did work but cannot rebuild its state (it is not Recoverable)"
                [AStr (sr_Name rec); AInt (sr_Index rec)]))
          | Some restore =>
              let* e := call_restore restore (sr_Index rec) (sr_Output rec) in
              match e with
              | Some e =>
                  retM (Fail (wrap e KindInternal CodeRecoveryFailed
                    "the state of the %q step (%d) could not be rebuilt from the record"
                    [AStr (sr_Name rec); AInt (sr_Index rec)]))
              | None =>
                  rebuild_loop steps records'
                    (if Held (sr_Status rec) then done ++ [mkDoneStep step rec false] else done)
              end
          end
      end
  end.

Definition rebuildChain (steps : list Step) (exec : Execution) : M (result (list doneStep)) :=
  let records := SortFunc cmp_index (ex_Steps exec) in
  let* r := rebuild_loop steps records [] in
  match r with
  | Fail e => retM (Fail e)
  | Ok [] =>
      retM (Fail (Internal CodeRecoveryFailed
        "no step to compensate was found; the record looked as though work had been done" []))
  | Ok done =>
      match checkRecoveryBoundary steps records with
      | Some e => retM (Fail e)
      | None => retM (Ok done)
      end
  end.

(** The first component says that the record reached a terminal state. *)
Definition recoverExecution (wf : Workflow V W) (exec : Execution) (o : runOptions) :
    M (bool * option err) :=
  put_sc (mkStepContext (RawInput (ex_Input exec)) ∅ (ex_ID exec) (wf_Name wf) EmptyString 0 0) ;;;
  let* r := rebuildChain (live_steps wf) exec in
  match r with
  | Fail e =>
      let final :=
        wrap e KindConflict CodeExecutionFailed
          "the execution of the %q workflow with the key %q (%s) was left unfinished with an expired lease and COULD NOT BE RECOVERED; A HUMAN IS NEEDED"
          [AStr (wf_Name wf); AStr (ex_IdempotencyKey exec); AStr (ex_ID exec)] in
      persistStatus (ex_ID exec) StatusCompensationFailed EmptyString (ErrorText final) ;;;
      retM (true, Some final)
  | Ok done =>
      let* compErr := compensate (ex_ID exec) done o in
      match compErr with
      | Some compErr =>
          let final :=
            wrap compErr KindInternal CodeCompensationFailed
              "the compensation of the abandoned execution (%s) of the %q workflow could not be completed; A HUMAN IS NEEDED"
              [AStr (ex_ID exec); AStr (wf_Name wf)] in
          persistStatus (ex_ID exec) StatusCompensationFailed EmptyString (ErrorText final) ;;;
          retM (true, Some final)
      | None =>
          persistStatus (ex_ID exec) StatusFailed EmptyString
            "the execution's lease expired; the compensation chain was run from the record and completed" ;;;
          retM (true, None)
      end
  end.

Definition claimAbandoned (prev : Execution) : M claimResult :=
  match st_ClaimAbandoned with
  | None => retM claimWon
  | Some claim =>
      let* now := Now in
      emit (CClaim (ex_ID prev) (ex_UpdatedAt prev)) ;;;
      let* r := on_store (claim now (ex_ID prev) (ex_UpdatedAt prev)) in
      retM (match r with
            | Fail _ => claimUndecided
            | Ok false => claimLost
            | Ok true => claimWon
            end)
  end.

Definition judgeAbandoned (wf : Workflow V W) (prev : Execution) (o : runOptions) :
    M (bool * option err) :=
  if ro_lease o <=? 0 then retM (false, None)
  else
    let* now := Now in
    if Since now (ex_UpdatedAt prev) <=? ro_lease o then retM (false, None)
    else
      emit (CGet (ex_ID prev)) ;;;
      let* full := on_store (st_Get (ex_ID prev)) in
      match full with
      | Fail _ => retM (false, None)
      | Ok full =>
          let* claimed := claimAbandoned prev in
          match claimed with
          | claimLost => retM (true, None)
          | claimUndecided => retM (false, None)
          | claimWon =>
              match full with
              | Some full =>
                  if hasHeldWork (ex_Steps full) then recoverExecution wf full o
                  else
                    persistStatus (ex_ID prev) StatusFailed EmptyString
                      "the execution's lease expired and no step had done any work; it was taken as abandoned" ;;;
                    retM (true, None)
              | None =>
                  (* [full.Steps] of a nil record: a store that breaks its contract. *)
                  retM (false, None)
              end
          end
      end.

Definition Recover (wf : Workflow V W) (executionID : string) (opts : list RunOption) :
    M (option err) :=
  match newRunOptions opts with
  | Fail e => retM (Some e)
  | Ok o =>
      match Validate wf with
      | Some e => retM (Some e)
      | None =>
          if ro_lease o <=? 0 then
            retM (Some (Invalid CodeInvalidOption
              "recovering %q needs a declared lease (WithLease): without one a saga that is still running cannot be told from an abandoned record"
              [AStr (wf_Name wf)]))
          else
            emit (CGet executionID) ;;;
            let* g := on_store (st_Get executionID) in
            match g with
            | Fail gerr =>
                retM (Some (wrap gerr (KindOf gerr) CodeStoreFailed
                  "the execution %q could not be read" [AStr executionID]))
            | Ok None =>
                retM (Some (Internal CodeStoreFailed
                  "the Store returned a nil record with no error for the execution %q"
                  [AStr executionID]))
            | Ok (Some exec) =>
                if negb (bool_decide (ex_Workflow exec = wf_Name wf)) then
                  retM (Some (Invalid CodeInvalidWorkflow
                    "the execution %q belongs to the %q workflow, the definition given is %q"
                    [AStr executionID; AStr (ex_Workflow exec); AStr (wf_Name wf)]))
                else if negb (bool_decide (ex_Status exec = StatusRunning)) then
                  retM (Some (Conflict CodeExecutionFailed
                    "the execution %q is in the %q state; only a running execution can be recovered"
                    [AStr executionID; AStr (Status_text (ex_Status exec))]))
                else
                  let* now := Now in
                  if Since now (ex_UpdatedAt exec) <=? ro_lease o then
                    retM (Some (Conflict CodeExecutionRunning
                      "the lease of the execution %q has not expired yet (last write %s); it may still be going"
                      [AStr executionID; AInt (ex_UpdatedAt exec)]))
                  else
                    let* claimed := claimAbandoned exec in
                    match claimed with
                    | claimLost =>
                        retM (Some (Conflict CodeExecutionRunning
                          "the execution %q is being recovered by another process right now"
                          [AStr executionID]))
                    | claimUndecided =>
                        retM (Some (Unavailable CodeStoreFailed
                          "the execution %q could not be claimed for recovery; the Store did not answer"
                          [AStr executionID]))
                    | claimWon =>
                        if negb (hasHeldWork (ex_Steps exec)) then
                          persistStatus (ex_ID exec) StatusFailed EmptyString
                            "the execution was closed on request: its lease had expired and no step was holding work" ;;;
                          retM None
                        else
                          let* (_, rerr) := recoverExecution wf exec o in
                          retM rerr
                    end
            end
      end
  end.
End Recovery.

Section Run.
Context {V W S : Type} `{!Store S}.
(** [json.Marshal]. *)
Context (Marshal : V -> result RawMessage).

Abbreviation M := (M V W S).

Definition open (wf : Workflow V W) (payload : RawMessage) (o : runOptions) :
    M (result (option Execution)) :=
  let* now := Now in
  let* rnd := Rand in
  let exec := mkExecution (newExecutionID now rnd) (wf_Name wf) (ro_idempotencyKey o) StatusRunning
                payload EmptyString EmptyString [] now now in
  emit (CCreate exec) ;;;
  let* e := on_store (st_Create (Some exec)) in
  match e with
  | None => retM (Ok (Some exec))
  | Some e =>
      if negb (bool_decide (ro_idempotencyKey o = EmptyString)) && IsConflict (Some e) then
        retM (Ok None)
      else retM (Fail (wrap e (KindOf e) CodeStoreFailed
        "the execution record for the %q workflow could not be opened" [AStr (wf_Name wf)]))
  end.

Definition replay (wf : Workflow V W) (o : runOptions) : M replayed :=
  let key := ro_idempotencyKey o in
  emit (CFind (wf_Name wf) key) ;;;
  let* prev := on_store (st_FindByIdempotencyKey (wf_Name wf) key) in
  match prev with
  | Fail e =>
      if IsNotFound (Some e) then retM ReplayAgain
      else retM (ReplayDone (Fail (wrap e (KindOf e) CodeStoreFailed
        "the execution of the %q workflow with the key %q could not be read"
        [AStr (wf_Name wf); AStr key])))
  | Ok None =>
      retM (ReplayDone (Fail (Internal CodeStoreFailed
        "the Store returned a nil record with no error for the %q key of the %q workflow"
        [AStr key; AStr (wf_Name wf)])))
  | Ok (Some prev) =>
      match ex_Status prev with
      | StatusCompleted => retM (ReplayDone (Ok (ex_Output prev)))
      | StatusRunning =>
          let* (abandoned, aerr) := judgeAbandoned wf prev o in
          match aerr, abandoned with
          | Some aerr, _ => retM (ReplayDone (Fail aerr))
          | None, true => retM ReplayAgain
          | None, false =>
              retM (ReplayDone (Fail (Conflict CodeExecutionRunning
                "the execution of the %q workflow with the key %q (%s) is still going"
                [AStr (wf_Name wf); AStr key; AStr (ex_ID prev)])))
          end
      | StatusFailed =>
          retM (ReplayDone (Fail (Conflict CodeExecutionFailed
            "the execution of the %q workflow with the key %q (%s) failed earlier and was compensated; use a NEW key to try again: %s"
            [AStr (wf_Name wf); AStr key; AStr (ex_ID prev); AStr (ex_Failure prev)])))
      | StatusCompensationFailed =>
          retM (ReplayDone (Fail (Conflict CodeExecutionFailed
            "the execution of the %q workflow with the key %q (%s) could not be compensated; a human is needed: %s"
            [AStr (wf_Name wf); AStr key; AStr (ex_ID prev); AStr (ex_Failure prev)])))
      | StatusOther s =>
          retM (ReplayDone (Fail (Internal CodeStoreFailed "execution %q is in an unknown state: %q"
            [AStr (ex_ID prev); AStr s])))
      end
  end.

(** The turns of the loop of [Run]. *)
Fixpoint run_turns (turns : nat) (wf : Workflow V W) (input : V) (payload : RawMessage)
    (o : runOptions) : M (result RawMessage) :=
  match turns with
  | O =>
      retM (Fail (Unavailable CodeExecutionContended
        "no execution could be opened for the %q workflow with the key %q: the key was held by an execution that looked abandoned on both turns; nothing was run, the request can be repeated"
        [AStr (wf_Name wf); AStr (ro_idempotencyKey o)]))
  | Datatypes.S turns' =>
      let* opened := open wf payload o in
      match opened with
      | Fail e => retM (Fail e)
      | Ok (Some exec) => execute Marshal wf input (ex_ID exec) o
      | Ok None =>
          let* r := replay wf o in
          match r with
          | ReplayDone out => retM out
          | ReplayAgain => run_turns turns' wf input payload o
          end
      end
  end.

Definition Run (wf : Workflow V W) (input : V) (opts : list RunOption) : M (result RawMessage) :=
  match newRunOptions opts with
  | Fail e => retM (Fail e)
  | Ok o =>
      match Validate wf with
      | Some e => retM (Fail e)
      | None =>
          let* cerr := look_ctx in
          match cerr with
          | Some cerr =>
              retM (Fail (wrap cerr KindUnavailable CodeCanceled
                "the %q workflow was not started: the context was already canceled at the moment of the call"
                [AStr (wf_Name wf)]))
          | None =>
              match Marshal input with
              | Fail merr =>
                  retM (Fail (wrap merr KindInvalid CodeInvalidWorkflow
                    "the input of the %q workflow could not be turned into JSON"
                    [AStr (wf_Name wf)]))
              | Ok payload => run_turns 2 wf input payload o
              end
          end
      end
  end.
End Run.
