(* ===== verification/WorkflowSaga.v ===== *)
(** * Reasoning about the engine's runs

    The projections of a trace the engine's properties speak about, inversion of the monad, and what
    each part of the engine contributes to a trace. *)
From S2P Require Import Prelude GoText Errors Workflow WorkflowStore WorkflowEngine.

(** ** Projections of a trace *)

(** The steps whose [Invoke] succeeded, in order. *)
Definition succeeded : list call -> list Z :=
  omap (fun c => match c with CInvoke i _ None => Some i | _ => None end).

(** Every call of an [Invoke]: step and attempt. *)
Definition invokes : list call -> list (Z * Z) :=
  omap (fun c => match c with CInvoke i a _ => Some (i, a) | _ => None end).

(** The steps whose compensation was started, in order. *)
Definition compensated : list call -> list Z :=
  omap (fun c => match c with CCompensate i 1 _ => Some i | _ => None end).

(** Every call of a [Compensate]. *)
Definition compensates : list call -> list (Z * Z) :=
  omap (fun c => match c with CCompensate i a _ => Some (i, a) | _ => None end).

(** The steps recorded as impossible to compensate. *)
Definition hanging : list call -> list Z :=
  omap (fun c => match c with
    | CAppend _ rec =>
        if bool_decide (sr_Status rec = StepCompensationFailed) then Some (sr_Index rec) else None
    | _ => None
    end).

(** The statuses written for an execution. *)
Definition statuses : list call -> list (string * Status) :=
  omap (fun c => match c with CStatus id st _ _ => Some (id, st) | _ => None end).

(** How the calls of [Invoke] ended, in order. *)
Definition invoke_failures : list call -> list (option err) :=
  omap (fun c => match c with CInvoke _ _ f => Some f | _ => None end).

(** The failures after which another attempt of the same call was made. *)
Fixpoint retried_failures (tr : list call) : list err :=
  match tr with
  | CInvoke i a (Some e) :: tr' =>
      match tr' with
      | CInvoke _ a' _ :: _ =>
          if a' =? a + 1 then e :: retried_failures tr' else retried_failures tr'
      | _ => retried_failures tr'
      end
  | _ :: tr' => retried_failures tr'
  | [] => []
  end.

(** The calls of one step that was attempted until [final], from attempt [a] on. *)
Fixpoint attempt_calls (mk : Z -> option err -> call) (a : Z) (retried : list err)
    (final : option err) : list call :=
  match retried with
  | [] => [mk a final]
  | e :: es => mk a (Some e) :: attempt_calls mk (a + 1) es final
  end.

Section Projections.
Implicit Types (i a : Z) (es : list err) (f : option err).

Lemma succeeded_attempts i a es f :
  succeeded (attempt_calls (CInvoke i) a es f) = match f with None => [i] | Some _ => [] end.
Proof.
  revert a. induction es as [|e es IH]; intros a; simpl.
  - by destruct f.
  - apply IH.
Qed.

Lemma invokes_attempts i a es f :
  invokes (attempt_calls (CInvoke i) a es f)
  = (fun k => (i, k)) <$> seqZ a (Z.of_nat (length es) + 1).
Proof.
  revert a. induction es as [|e es IH]; intros a; cbn [attempt_calls length].
  - done.
  - rewrite seqZ_cons by lia. cbn. fold invokes. rewrite IH.
    replace (Z.succ a) with (a + 1) by lia. do 3 f_equal. lia.
Qed.

Lemma invoke_failures_attempts i a es f :
  invoke_failures (attempt_calls (CInvoke i) a es f) = (Some <$> es) ++ [f].
Proof.
  revert a. induction es as [|e es IH]; intros a; csimpl; [done|]. fold invoke_failures.
  by rewrite IH.
Qed.

Lemma compensated_attempts_from i a es f :
  1 < a -> compensated (attempt_calls (CCompensate i) a es f) = [].
Proof.
  revert a. induction es as [|e es IH]; intros a Ha; simpl.
  - destruct a as [|[]|]; simpl; done || lia.
  - specialize (IH (a + 1)). destruct a as [|[]|]; simpl; try lia; apply IH; lia.
Qed.

Lemma compensated_attempts i es f : compensated (attempt_calls (CCompensate i) 1 es f) = [i].
Proof.
  destruct es as [|e es]; simpl; [done|]. fold compensated. f_equal.
  by apply (compensated_attempts_from i 2).
Qed.

Lemma attempts_quiet_invoke i a es f :
  let tr := attempt_calls (CInvoke i) a es f in
  compensated tr = [] /\ compensates tr = [] /\ hanging tr = [] /\ statuses tr = [].
Proof.
  revert a. induction es as [|e es IH]; intros a; simpl; [done|]. apply IH.
Qed.

Lemma attempts_quiet_compensate i a es f :
  let tr := attempt_calls (CCompensate i) a es f in
  succeeded tr = [] /\ invokes tr = [] /\ hanging tr = [] /\ statuses tr = [].
Proof.
  revert a. induction es as [|e es IH]; intros a; simpl; [done|]. apply IH.
Qed.
End Projections.

Lemma succeeded_app l k : succeeded (l ++ k) = succeeded l ++ succeeded k.
Proof. apply omap_app. Qed.
Lemma invokes_app l k : invokes (l ++ k) = invokes l ++ invokes k.
Proof. apply omap_app. Qed.
Lemma compensated_app l k : compensated (l ++ k) = compensated l ++ compensated k.
Proof. apply omap_app. Qed.
Lemma compensates_app l k : compensates (l ++ k) = compensates l ++ compensates k.
Proof. apply omap_app. Qed.
Lemma hanging_app l k : hanging (l ++ k) = hanging l ++ hanging k.
Proof. apply omap_app. Qed.
Lemma statuses_app l k : statuses (l ++ k) = statuses l ++ statuses k.
Proof. apply omap_app. Qed.
Lemma invoke_failures_app l k : invoke_failures (l ++ k) = invoke_failures l ++ invoke_failures k.
Proof. apply omap_app. Qed.

Lemma invoke_failures_none tr : invokes tr = [] -> invoke_failures tr = [].
Proof. induction tr as [|[] tr IH]; cbn; auto; discriminate. Qed.

Create Rewrite HintDb traces.
#[export] Hint Rewrite succeeded_app invokes_app compensated_app compensates_app hanging_app
  statuses_app invoke_failures_app invoke_failures_attempts
  succeeded_attempts invokes_attempts compensated_attempts
  @app_nil_r @app_nil_l : traces.

(** ** Inversion of the monad *)

Section MonadInv.
Context {V W S : Type}.

Lemma bind_inv {A B} (m : M V W S A) (f : A -> M V W S B) env s b s2 t :
  bindM m f env s = (b, s2, t) ->
  exists a s1 t1 t2, m env s = (a, s1, t1) /\ f a env s1 = (b, s2, t2) /\ t = t1 ++ t2.
Proof.
  unfold bindM. destruct (m env s) as [[a s1] t1] eqn:Hm.
  destruct (f a env s1) as [[b' s2'] t2] eqn:Hf. intros [= <- <- <-]. eauto 10.
Qed.

Lemma ret_inv {A} (a b : A) env (s s' : St V W S) t :
  retM a env s = (b, s', t) -> a = b /\ s = s' /\ t = [].
Proof. by intros [= -> -> ->]. Qed.
End MonadInv.

(** Takes a run of a sequence of engine operations apart. The primitive observations are unfolded;
    a named part of the engine is left for its own lemma. *)
Ltac minv1 :=
  match goal with
  | H : bindM _ _ _ _ = (_, _, _) |- _ =>
      let a := fresh "a" in let s := fresh "s" in let t1 := fresh "t" in let t2 := fresh "t" in
      let H1 := fresh "R" in let H2 := fresh "R" in let He := fresh "E" in
      apply bind_inv in H as (a & s & t1 & t2 & H1 & H2 & He); simpl in H2; subst
  | H : retM _ _ _ = (_, _, _) |- _ => apply ret_inv in H as (? & ? & ?); subst
  | H : look_ctx _ _ = _ |- _ => unfold look_ctx in H; injection H as ? ? ?; subst
  | H : look_budget _ _ = _ |- _ => unfold look_budget in H; injection H as ? ? ?; subst
  | H : Now _ _ = _ |- _ => unfold Now in H; injection H as ? ? ?; subst
  | H : Rand _ _ = _ |- _ => unfold Rand in H; injection H as ? ? ?; subst
  | H : emit _ _ _ = _ |- _ => unfold emit in H; injection H as ? ? ?; subst
  | H : get_sc _ _ = _ |- _ => unfold get_sc in H; injection H as ? ? ?; subst
  | H : put_sc _ _ _ = _ |- _ => unfold put_sc in H; injection H as ? ? ?; subst
  | H : set_step _ _ _ _ _ = _ |- _ => unfold set_step in H
  | H : set_attempt _ _ _ = _ |- _ => unfold set_attempt in H
  | H : on_store ?f _ ?s = _ |- _ =>
      unfold on_store in H; destruct (f (store s)) as [? ?] eqn:?; injection H as ? ? ?; subst
  | H : call_step _ _ _ _ = _ |- _ =>
      unfold call_step in H;
      match type of H with context [let '(_, _) := ?x in _] =>
        destruct x as [[? ?] ?] eqn:? end; injection H as ? ? ?; subst
  end.
Ltac minv := repeat (minv1; simplify_eq/=).

(** ** What the parts of the engine do *)

Section Parts.
Context {V W S : Type} `{!Store S}.
Implicit Types (env : Env) (s : St V W S) (o : runOptions).

Lemma persistStep_inv env s id rec u s' t :
  persistStep id rec env s = (u, s', t) -> t = [CAppend id rec] /\ sc s' = sc s.
Proof. unfold persistStep. intros. by minv. Qed.

Lemma persistStatus_inv env s id status output failure u s' t :
  persistStatus id status output failure env s = (u, s', t) ->
  t = [CStatus id status output failure] /\ sc s' = sc s.
Proof. unfold persistStatus. intros. by minv. Qed.

(** The attempts at a step: every failure but the last was allowed to be retried, and attempts stop
    at a success, at the bound, at a failure that may not be retried or at a dead context. *)
Lemma invokeLoop_inv left i a (st : Step V W) p env s r n s' t :
  invokeLoop left i a st p env s = (r, n, s', t) ->
  exists retried,
    t = attempt_calls (CInvoke i) a retried (failure_of r) /\
    n = a + Z.of_nat (length retried) /\ (length retried <= left)%nat /\
    Forall (fun e => allow p (Some e) = true) retried /\
    (forall e, r = Fail e -> length retried = left \/ allow p (Some e) = false \/
       exists k, is_Some (env_ctx env k)).
Proof.
  revert a s t. induction left as [|left IH]; intros a s t; cbn [invokeLoop]; unfold safeInvoke;
    intros H; minv.
  - destruct (safely _ _ _) as [v|e] eqn:Hs; minv; exists []; simpl; split_and!; auto; lia || naive_solver.
  - destruct (safely _ _ _) as [v|e] eqn:Hs; minv.
    { exists []; simpl; split_and!; auto; lia || naive_solver. }
    destruct (negb _) eqn:Hallow; minv.
    { exists []; simpl; split_and!; try (done || lia || by constructor).
      intros ? [= <-]. reflect_bools. auto. }
    destruct (env_ctx env _) eqn:Hctx; minv.
    { exists []; simpl; split_and!; try (done || lia || by constructor).
      intros. right; right. eauto. }
    match goal with HR : invokeLoop left _ _ _ _ _ _ = _ |- _ =>
      destruct (IH _ _ _ HR) as (retried & -> & -> & Hlen & Hall & Hstop) end.
    exists (e :: retried). cbn [attempt_calls length]. reflect_bools.
    split_and!; [done|lia|lia|by constructor|].
    intros e' He'. destruct (Hstop _ He') as [->|?]; auto.
Qed.

Lemma compensateLoop_inv left i a (st : Step V W) p env s n e s' t :
  compensateLoop left i a st p env s = (n, e, s', t) ->
  exists retried,
    t = attempt_calls (CCompensate i) a retried e /\
    n = a + Z.of_nat (length retried) /\ (length retried <= left)%nat /\
    Forall (fun e => allow p (Some e) = true) retried.
Proof.
  revert a s t. induction left as [|left IH]; intros a s t; cbn [compensateLoop];
    unfold safeCompensate; intros H; minv.
  - destruct (safely _ _ _) as [v|e0] eqn:Hs; simpl in *; minv; exists []; simpl; split_and!; auto; lia || naive_solver.
  - destruct (safely _ _ _) as [v|e0] eqn:Hs; simpl in *; minv.
    { exists []; simpl; split_and!; auto; lia || naive_solver. }
    destruct (negb _) eqn:Hallow; minv.
    { exists []; simpl; split_and!; auto; lia || naive_solver. }
    destruct (env_budget env _) eqn:Hctx; minv.
    { exists []; simpl; split_and!; auto; lia || naive_solver. }
    match goal with HR : compensateLoop left _ _ _ _ _ _ = _ |- _ =>
      destruct (IH _ _ _ HR) as (retried & -> & -> & Hlen & Hall) end.
    exists (e0 :: retried). cbn [attempt_calls length]. reflect_bools.
    split_and!; [done|lia|lia|by constructor].
Qed.
End Parts.

(** A trace that only compensates: no step is invoked and no status is written. *)
Definition compensation_only (tr : list call) : Prop :=
  succeeded tr = [] /\ invokes tr = [] /\ statuses tr = [].

Lemma compensation_only_app l k :
  compensation_only l -> compensation_only k -> compensation_only (l ++ k).
Proof.
  unfold compensation_only. autorewrite with traces. intros (-> & -> & ->) (-> & -> & ->). done.
Qed.

(** The part of a trace before the compensation starts. *)
Definition forward_only (tr : list call) : Prop :=
  compensated tr = [] /\ compensates tr = [] /\ hanging tr = [] /\ statuses tr = [].

Lemma forward_only_app l k : forward_only l -> forward_only k -> forward_only (l ++ k).
Proof.
  unfold forward_only. autorewrite with traces. by intros (-> & -> & -> & ->) (-> & -> & -> & ->).
Qed.

(** The step a member of the chain stands for. *)
Definition ds_index {V W} (d : doneStep V W) : Z := sr_Index (ds_rec d).

Section Chains.
Context {V W S : Type} `{!Store S}.
Implicit Types (env : Env) (s : St V W S) (o : runOptions) (d : doneStep V W).

Lemma compensate_one_inv env s id o d e s' t :
  compensate_one id o d env s = (e, s', t) ->
  compensation_only t /\
  compensated t = [sr_Index (ds_rec d)] /\
  (e = None <-> hanging t = []).
Proof.
  unfold compensate_one, compensateStep. intros H. minv.
  match goal with H : compensateLoop _ _ _ _ _ _ _ = (?p, _, _) |- _ =>
    destruct p as [n cerr]; minv;
    apply compensateLoop_inv in H as (retried & -> & -> & _ & _) end.
  match goal with H : persistStep _ _ _ _ = _ |- _ => apply persistStep_inv in H as [-> _] end.
  pose proof (attempts_quiet_compensate (sr_Index (ds_rec d)) 1 retried cerr) as (Q1 & Q2 & Q3 & Q4).
  unfold compensation_only. autorewrite with traces. rewrite Q1, Q2, Q3, Q4.
  destruct cerr; simpl; split_and!; done.
Qed.

(** The chain is walked to its end whatever fails, each member once, and it reports no failure
    exactly when no member is left hanging. *)
Lemma compensate_chain_inv env s id o chain es s' t :
  compensate_chain id o chain env s = (es, s', t) ->
  compensation_only t /\
  compensated t = ds_index <$> chain /\
  (es = [] <-> hanging t = []).
Proof.
  revert es s t. induction chain as [|d chain IH]; intros es s t; cbn [compensate_chain];
    intros H; minv.
  { done. }
  match goal with H : compensate_one _ _ _ _ _ = _ |- _ =>
    apply compensate_one_inv in H as (Ho & Hc & He) end.
  match goal with H : compensate_chain _ _ _ _ _ = _ |- _ =>
    apply IH in H as (Hos & Hcs & Hes) end.
  rewrite app_nil_r. split; [by apply compensation_only_app|].
  autorewrite with traces. rewrite Hc, Hcs. split; [done|].
  rewrite !app_nil, Hes, <- He. destruct a as [e|]; simpl; intuition congruence.
Qed.

Lemma compensate_inv env s id o done r s' t :
  compensate id done o env s = (r, s', t) ->
  compensation_only t /\
  compensated t = ds_index <$> reverse done /\
  (r = None <-> hanging t = []).
Proof.
  unfold compensate. intros H. destruct done as [|d done]; minv.
  { done. }
  match goal with H : compensate_chain _ _ _ _ _ = _ |- _ =>
    apply compensate_chain_inv in H as (Ho & Hc & He) end.
  rewrite app_nil_r. split; [done|]. split; [done|]. rewrite <- He.
  rewrite Join_None, Forall_fmap. destruct a as [|e a]; [by split|].
  split; [|done]. by intros [? ?]%Forall_cons_1.
Qed.

(** Whatever happened before, [unwind] ends in one of two ways. *)
Lemma unwind_inv env s id wf done o cause r s' t :
  unwind id wf done o cause env s = (r, s', t) ->
  succeeded t = [] /\ invokes t = [] /\
  compensated t = ds_index <$> reverse done /\
  ((hanging t = [] /\ Is cause uncompensated_text = false /\
    statuses t = [(id, StatusFailed)] /\ r = Fail cause) \/
   ((hanging t <> [] \/ Is cause uncompensated_text = true) /\
    statuses t = [(id, StatusCompensationFailed)] /\
    exists e, r = Fail e /\ KindOf e = KindInternal /\ CodeOf e = CodeCompensationFailed /\
      forall x, Is cause x = true -> Is e x = true)).
Proof.
  unfold unwind. intros H. minv.
  match goal with H : compensate _ _ _ _ _ = _ |- _ =>
    apply compensate_inv in H as ((Hs & Hi & Hst) & Hc & He) end.
  destruct (bool_decide (a = None) && negb (Is cause uncompensated_text)) eqn:Hb; minv;
  match goal with H : persistStatus _ _ _ _ _ _ = _ |- _ => apply persistStatus_inv in H as [-> _] end;
  autorewrite with traces; rewrite Hs, Hi, Hst, Hc; cbn.
  - reflect_bools. rewrite ?app_nil_r. naive_solver.
  - rewrite ?app_nil_r. split_and!; try done. right. split; [|split; [done|]].
    + apply andb_false_iff in Hb as [Hb|Hb]; reflect_bools; [left|by right]. by rewrite <- He.
    + eexists. split_and!; try done. intros x Hx. autorewrite with errors.
      cbn [existsb]. by rewrite Hx.
Qed.

(** One step's attempts, as the trace shows them. *)
Lemma invokeStep_inv env s i (st : Step V W) o r n s' t :
  invokeStep i st o env s = (r, n, s', t) ->
  forward_only t /\
  succeeded t = (match r with Ok _ => [i] | Fail _ => [] end) /\
  invokes t = (fun k => (i, k)) <$> seqZ 1 n /\ 1 <= n <= Z.max 1 (rp_MaxAttempts (ro_retry o)) /\
  last (invoke_failures t) = Some (failure_of r).
Proof.
  intros H. apply invokeLoop_inv in H as (retried & -> & -> & Hlen & _ & _).
  pose proof (attempts_quiet_invoke i 1 retried (failure_of r)) as Hq. split; [exact Hq|].
  autorewrite with traces. rewrite last_snoc. split; [by destruct r|].
  split; [f_equal; f_equal; lia|]. split; [lia|done].
Qed.

(** What the cause of an unwinding is: the failure of the step whose attempts the trace ends with,
    under a message of the engine's own, or the end of the caller's context. *)
Definition cause_of (env : Env) (pre : list call) (cause : err) : Prop :=
  (exists n c, env_ctx env n = Some c /\ KindOf cause = KindUnavailable /\
     CodeOf cause = CodeCanceled /\ forall x, Is cause x = Is c x) \/
  (exists e, last (invoke_failures pre) = Some (Some e) /\ KindOf cause = KindOf e /\
     CodeOf cause = stepFailureCode e /\ forall x, Is cause x = Is e x).
End Chains.

(** * What a fresh run of a saga does: [execute]

    The shape of a run's trace: the steps go forward in order, each until it succeeds; at the first
    that does not, what had been done is undone from its end, and one terminal status is written. *)

Section Saga.
Context {V W S : Type} `{!Store S}.
Context (Marshal : V -> result RawMessage).
Implicit Types (env : Env) (s : St V W S) (o : runOptions) (done : list (doneStep V W)).

(** How the unwinding of a run that had done [k] steps went: [mine] is what it undid, [st] the
    status it wrote. *)
Definition unwound (id : string) (cause : err) (post : list call) (mine : list Z)
    (r : result RawMessage) : Prop :=
  compensated post = mine /\
  ((hanging post = [] /\ Is cause uncompensated_text = false /\
    statuses post = [(id, StatusFailed)] /\ r = Fail cause) \/
   ((hanging post <> [] \/ Is cause uncompensated_text = true) /\
    statuses post = [(id, StatusCompensationFailed)] /\
    exists e, r = Fail e /\ KindOf e = KindInternal /\ CodeOf e = CodeCompensationFailed /\
      forall x, Is cause x = true -> Is e x = true)).

(** The steps whose failed attempts may have left something behind: the one that stopped the run,
    when it was tried more than once. *)
Definition retried_steps (i : Z) (pre : list call) : list Z :=
  if bool_decide ((i, 2) ∈ invokes pre) then [i] else [].

Lemma retried_steps_app i a b :
  (forall k, (i, k) ∉ invokes a) -> retried_steps i (a ++ b) = retried_steps i b.
Proof.
  intros Ha. unfold retried_steps. rewrite invokes_app.
  rewrite (bool_decide_ext _ ((i, 2) ∈ invokes b)); [done|].
  rewrite elem_of_app. specialize (Ha 2). tauto.
Qed.

Lemma cause_of_last env pre k cause :
  cause_of env k cause -> cause_of env (pre ++ k) cause.
Proof.
  intros [?|(e & He & ?)]; [by left|right]. exists e. autorewrite with traces.
  by rewrite last_app, He.
Qed.

Lemma elem_of_attempts (x a i n : Z) :
  (x, a) ∈ (fun k => (i, k)) <$> seqZ 1 n <-> x = i /\ 1 <= a <= n.
Proof.
  rewrite list_elem_of_fmap. setoid_rewrite elem_of_seqZ. split.
  - intros (k & [= -> ->] & ?). lia.
  - intros [-> ?]. exists a. split; [done|lia].
Qed.

Lemma forward_append id rec :
  sr_Status rec <> StepCompensationFailed -> forward_only [CAppend id rec].
Proof. intros Hrec. unfold forward_only. cbn. by rewrite bool_decide_eq_false_2. Qed.

(** The forward calls and the backward ones of a run from step [i] on. *)
Lemma execute_from_inv env wf id o steps i done last_out s r s' t :
  execute_from Marshal wf id o i steps done last_out env s = (r, s', t) ->
  exists pre post (k : Z),
    0 <= k /\
    t = pre ++ post /\ forward_only pre /\ invokes post = [] /\ succeeded post = [] /\
    succeeded pre = seqZ i k /\ (forall x a, (x, a) ∈ invokes pre -> i <= x) /\
    ((k = Z.of_nat (length steps) /\ compensated post = [] /\ hanging post = [] /\
      statuses post = [(id, StatusCompleted)] /\ exists out, r = Ok out) \/
     (k < Z.of_nat (length steps) /\ exists cause, cause_of env pre cause /\
      unwound id cause post
        (retried_steps (i + k) pre ++ reverse (seqZ i k) ++ reverse (ds_index <$> done)) r)).
Proof.
  revert i done last_out s r s' t.
  induction steps as [|st steps IH]; intros i done last_out s r s' t; cbn [execute_from]; intros H.
  { destruct (encode_last _ _) as [output note]. minv.
    match goal with HP : persistStatus _ _ _ _ _ _ = _ |- _ =>
      apply persistStatus_inv in HP as [-> _] end.
    eexists [], _, 0. split_and!; try done; try lia.
    { intros ? ?. simpl. by intros ?%elem_of_nil. }
    left. split_and!; eauto. }
  minv. match goal with HR : context [match env_ctx env ?n with _ => _ end] |- _ =>
    destruct (env_ctx env n) as [c|] eqn:Hctx end; minv.
  - match goal with HU : unwind _ _ _ _ _ _ _ = _ |- _ =>
      apply unwind_inv in HU as (Hs & Hi & Hc & Hend) end.
    eexists [], _, 0. split_and!; try done; try lia.
    { intros ? ?. simpl. by intros ?%elem_of_nil. }
    right. split; [simpl; lia|]. eexists. split; [|split; [|exact Hend]].
    { left. eexists _, _. split; [done|]. autorewrite with errors. split_and!; try done. }
    rewrite Hc. simpl. by rewrite fmap_reverse.
  - match goal with HI : invokeStep _ _ _ _ _ = (?p, _, _) |- _ =>
      destruct p as [[out|serr] n];
      apply invokeStep_inv in HI as (Hf & Hsucc & Hinv & Hn & Hlast) end; minv.
    + destruct (encode Marshal out) as [output note]. minv.
      match goal with HP : persistStep _ _ _ _ = _ |- _ => apply persistStep_inv in HP as [-> _] end.
      match goal with HE : execute_from _ _ _ _ _ _ _ _ _ _ = _ |- _ =>
        apply IH in HE as (pre & post & k & Hk & -> & Hpre & Hpi & Hps & Hpss & Hge & Hend) end.
      rewrite !(assoc_L (++)).
      eexists _, post, (k + 1). split; [lia|]. split; [done|].
      split. { repeat apply forward_only_app; auto. by apply forward_append. }
      split_and!; [done|done| | |].
      * autorewrite with traces. rewrite Hsucc, Hpss. cbn. rewrite (seqZ_cons i (k + 1)) by lia.
        do 2 f_equal; lia.
      * intros x att. autorewrite with traces. rewrite Hinv. cbn [invokes omap list_omap].
        rewrite ?app_nil_r, ?elem_of_app, elem_of_attempts. intros [?|?%Hge]; lia.
      * destruct Hend as [(-> & Hend)|(Hlt & cause & Hcause & Hun)]; [left|right].
        { split; [cbn; lia|done]. }
        split; [cbn; lia|]. exists cause. split.
        { by apply cause_of_last. }
        rewrite retried_steps_app.
        2:{ intros att. autorewrite with traces. rewrite Hinv. cbn [invokes omap list_omap].
            rewrite ?app_nil_r, ?elem_of_attempts. lia. }
        replace (i + (k + 1)) with (i + 1 + k) by lia.
        rewrite (seqZ_cons i (k + 1)) by lia.
        replace (Z.pred (k + 1)) with k by lia. replace (Z.succ i) with (i + 1) by lia.
        rewrite fmap_app, reverse_app, reverse_cons in *. cbn in Hun. by rewrite <- app_assoc.
    + match goal with HP : persistStep _ _ _ _ = _ |- _ => apply persistStep_inv in HP as [-> _] end.
      match goal with HU : unwind _ _ _ _ _ _ _ = _ |- _ =>
        apply unwind_inv in HU as (Hs & Hi & Hc & Hend) end.
      rewrite ?(assoc_L (++)), ?app_nil_r.
      eexists _, _, 0. split; [lia|]. split; [done|].
      split. { repeat apply forward_only_app; auto. by apply forward_append. }
      split_and!; [done|done| | |].
      * autorewrite with traces. by rewrite Hsucc.
      * intros x att. autorewrite with traces. rewrite Hinv. cbn [invokes omap list_omap].
        rewrite ?app_nil_r, ?elem_of_attempts. lia.
      * right. split; [cbn; lia|]. eexists. split; [|split; [|exact Hend]].
        { right. exists serr. autorewrite with traces errors. split_and!; try done. }
        rewrite Hc. unfold retried_steps. autorewrite with traces. rewrite Hinv.
        cbn [invokes omap list_omap]. rewrite ?app_nil_r, Z.add_0_r.
        rewrite (bool_decide_ext _ (1 < n)) by (rewrite elem_of_attempts; lia).
        rewrite fmap_reverse. simpl. case_bool_decide.
        { rewrite (proj2 (Z.ltb_lt _ _)) by done. by rewrite fmap_app, reverse_app. }
        by rewrite (proj2 (Z.ltb_ge _ _)) by lia.
Qed.
End Saga.
