(* ===== verification/WorkflowIdem.v ===== *)
(** * How the engine moves its store

    [moves R m] says that computation [m] takes the store along the preorder [R], whatever the
    steps do and however the run goes. The parts of the engine are shown to move along any
    preorder the store's own operations move along; the database [moves] puts them together. *)
From S2P Require Import Prelude GoText Errors Workflow WorkflowStore WorkflowEngine WorkflowSaga.

Create HintDb moves.

Section Moves.
Context {V W S : Type} `{!Store S}.
Context (Marshal : V -> result RawMessage).
Context (R : relation S) `{!PreOrder R}.

Definition moves {A} (m : M V W S A) : Prop := forall env s, R (store s) (store (m env s).1.2).

Lemma moves_ret {A} (a : A) : moves (retM a).
Proof. intros env s. by simpl. Qed.

Lemma moves_bind {A B} (m : M V W S A) (f : A -> M V W S B) :
  moves m -> (forall a, moves (f a)) -> moves (bindM m f).
Proof.
  intros Hm Hf env s. unfold bindM. specialize (Hm env s).
  destruct (m env s) as [[a s1] t1]. specialize (Hf a env s1).
  destruct (f a env s1) as [[b s2] t2]. simpl in *. by etrans.
Qed.

Lemma moves_on_store {A} (f : S -> A * S) :
  (forall s, R s (f s).2) -> moves (on_store f).
Proof.
  intros Hf env s. unfold on_store. specialize (Hf (store s)). by destruct (f (store s)).
Qed.

Lemma moves_call_step {A} (f : StepContext V -> W -> outcome A * StepContext V * W) phase :
  moves (call_step f phase).
Proof. intros env s. unfold call_step. by destruct (f _ _) as [[? ?] ?]. Qed.

Lemma moves_look_ctx : moves look_ctx. Proof. intros env s. by simpl. Qed.
Lemma moves_look_budget : moves look_budget. Proof. intros env s. by simpl. Qed.
Lemma moves_Now : moves Now. Proof. intros env s. by simpl. Qed.
Lemma moves_Rand : moves Rand. Proof. intros env s. by simpl. Qed.
Lemma moves_emit c : moves (emit c). Proof. intros env s. by simpl. Qed.
Lemma moves_get_sc : moves get_sc. Proof. intros env s. by simpl. Qed.
Lemma moves_put_sc c : moves (put_sc c). Proof. intros env s. by simpl. Qed.

#[local] Hint Resolve moves_ret moves_bind moves_on_store moves_call_step moves_look_ctx
  moves_look_budget moves_Now moves_Rand moves_emit moves_get_sc moves_put_sc : moves.

(** Goes through a sequence of operations, whichever way its case distinctions fall. *)
Ltac moves_tac :=
  repeat first
    [ progress intros
    | solve [auto with moves]
    | apply moves_bind
    | case_match ].

Lemma moves_set_attempt n : moves (set_attempt n).
Proof. unfold set_attempt. moves_tac. Qed.

Lemma moves_set_step name i n : moves (set_step name i n).
Proof. unfold set_step. moves_tac. Qed.

#[local] Hint Resolve moves_set_attempt moves_set_step : moves.

Lemma moves_invokeLoop left i a (st : Step V W) p : moves (invokeLoop left i a st p).
Proof. revert a. induction left; intros a; cbn [invokeLoop]; unfold safeInvoke; moves_tac. Qed.

Lemma moves_compensateLoop left i a (st : Step V W) p : moves (compensateLoop left i a st p).
Proof. revert a. induction left; intros a; cbn [compensateLoop]; unfold safeCompensate; moves_tac. Qed.

Lemma moves_invokeStep i (st : Step V W) o : moves (invokeStep i st o).
Proof. apply moves_invokeLoop. Qed.

Lemma moves_compensateStep i (st : Step V W) o : moves (compensateStep i st o).
Proof. apply moves_compensateLoop. Qed.

Lemma moves_call_restore restore i out : moves (call_restore restore i out).
Proof. unfold call_restore. moves_tac. Qed.

#[local] Hint Resolve moves_invokeStep moves_compensateStep moves_call_restore : moves.

Lemma moves_rebuild_loop (steps : list (Step V W)) records done :
  moves (rebuild_loop steps records done).
Proof. revert done. induction records; intros done; cbn [rebuild_loop]; moves_tac. Qed.

#[local] Hint Resolve moves_rebuild_loop : moves.

Lemma moves_rebuildChain (steps : list (Step V W)) exec : moves (rebuildChain steps exec).
Proof. unfold rebuildChain. moves_tac. Qed.

#[local] Hint Resolve moves_rebuildChain : moves.

(** The writes to one execution. *)
Section Writes.
Context (id : string).
Context (Happend : forall now rec s, R s (st_AppendStep now id rec s).2).
Context (Hupdate : forall now status out f s, R s (st_UpdateStatus now id status out f s).2).

Lemma moves_persistStep rec : moves (persistStep (V := V) (W := W) id rec).
Proof. unfold persistStep. moves_tac. Qed.

Lemma moves_persistStatus status out f : moves (persistStatus (V := V) (W := W) id status out f).
Proof. unfold persistStatus. moves_tac. Qed.

#[local] Hint Resolve moves_persistStep moves_persistStatus : moves.

Lemma moves_compensate_one o (d : doneStep V W) : moves (compensate_one id o d).
Proof. unfold compensate_one. moves_tac. Qed.

#[local] Hint Resolve moves_compensate_one : moves.

Lemma moves_compensate_chain o (chain : list (doneStep V W)) : moves (compensate_chain id o chain).
Proof. induction chain; cbn [compensate_chain]; moves_tac. Qed.

#[local] Hint Resolve moves_compensate_chain : moves.

Lemma moves_compensate (done : list (doneStep V W)) o : moves (compensate id done o).
Proof. unfold compensate. moves_tac. Qed.

#[local] Hint Resolve moves_compensate : moves.

Lemma moves_unwind wf (done : list (doneStep V W)) o cause : moves (unwind id wf done o cause).
Proof. unfold unwind. moves_tac. Qed.

#[local] Hint Resolve moves_unwind : moves.

Lemma moves_execute_from wf o i steps (done : list (doneStep V W)) last :
  moves (execute_from Marshal wf id o i steps done last).
Proof.
  revert i done last. induction steps; intros i done last; cbn [execute_from]; moves_tac.
Qed.

#[local] Hint Resolve moves_execute_from : moves.

Lemma moves_execute (wf : Workflow V W) input o : moves (execute Marshal wf input id o).
Proof. unfold execute. moves_tac. Qed.
End Writes.

(** Every operation of the store moves along [R]. *)
Record ops_move : Prop := {
  om_create exec s : ex_ID exec <> EmptyString -> ex_Workflow exec <> EmptyString ->
    R s (st_Create (Some exec) s).2;
  om_find wf key s : R s (st_FindByIdempotencyKey wf key s).2;
  om_append now id rec s : R s (st_AppendStep now id rec s).2;
  om_update now id status out f s : R s (st_UpdateStatus now id status out f s).2;
  om_get id s : R s (st_Get id s).2;
  om_claim claim now id seen s : st_ClaimAbandoned = Some claim -> R s (claim now id seen s).2
}.

Context (Hops : ops_move).

Lemma moves_recoverExecution (wf : Workflow V W) exec o : moves (recoverExecution wf exec o).
Proof.
  unfold recoverExecution.
  pose proof (om_append Hops). pose proof (om_update Hops).
  pose proof (moves_compensate (ex_ID exec)). pose proof (moves_persistStatus (ex_ID exec)).
  moves_tac.
Qed.

Lemma moves_claimAbandoned prev : moves (claimAbandoned prev).
Proof.
  unfold claimAbandoned. destruct st_ClaimAbandoned as [claim|] eqn:Hc; [|moves_tac].
  pose proof (om_claim Hops claim). moves_tac.
Qed.

#[local] Hint Resolve moves_recoverExecution moves_claimAbandoned : moves.

Lemma moves_judgeAbandoned (wf : Workflow V W) prev o : moves (judgeAbandoned wf prev o).
Proof.
  unfold judgeAbandoned. pose proof (om_get Hops). pose proof (om_update Hops).
  pose proof (moves_persistStatus (ex_ID prev)). moves_tac.
Qed.

Lemma moves_Recover (wf : Workflow V W) id opts : moves (Recover wf id opts).
Proof.
  unfold Recover. pose proof (om_get Hops). pose proof (om_update Hops).
  pose proof (fun x => moves_persistStatus (ex_ID x)). moves_tac.
Qed.

#[local] Hint Resolve moves_judgeAbandoned : moves.

Lemma moves_replay (wf : Workflow V W) o : moves (replay wf o).
Proof. unfold replay. pose proof (om_find Hops). moves_tac. Qed.

Lemma newExecutionID_ne t rnd : newExecutionID t rnd <> EmptyString.
Proof. done. Qed.

Lemma moves_open (wf : Workflow V W) payload o :
  wf_Name wf <> EmptyString -> moves (open wf payload o).
Proof.
  intros Hwf. unfold open. pose proof (om_create Hops). pose proof newExecutionID_ne. moves_tac.
Qed.

#[local] Hint Resolve moves_replay moves_open : moves.

Lemma moves_run_turns n (wf : Workflow V W) input payload o :
  wf_Name wf <> EmptyString -> moves (run_turns Marshal n wf input payload o).
Proof.
  intros Hwf. pose proof (om_append Hops). pose proof (om_update Hops).
  pose proof (fun id => moves_execute id). induction n; cbn [run_turns]; moves_tac.
Qed.

#[local] Hint Resolve moves_run_turns : moves.

Lemma Validate_name (wf : Workflow V W) : Validate wf = None -> wf_Name wf <> EmptyString.
Proof. unfold Validate. by case_bool_decide. Qed.

Lemma moves_Run (wf : Workflow V W) input opts : moves (Run Marshal wf input opts).
Proof.
  unfold Run. pose proof (Validate_name wf). moves_tac.
Qed.
End Moves.

(** * What a recovery does: [recoverExecution] and its parts

    A chain is rebuilt from the step records alone: no step is invoked, only steps whose record
    says they hold work enter the chain, and the chain is walked from the highest index down. *)

(** The indices of the records that say the step holds work. *)
Definition held_indices (records : list StepRecord) : list Z :=
  sr_Index <$> filter (fun r => Held (sr_Status r) = true) records.

(** Nothing but [Restore] is called. *)
Definition restore_only (tr : list call) : Prop :=
  compensation_only tr /\ compensates tr = [] /\ compensated tr = [] /\ hanging tr = [].

Lemma restore_only_app l k : restore_only l -> restore_only k -> restore_only (l ++ k).
Proof.
  unfold restore_only. autorewrite with traces.
  intros (? & -> & -> & ->) (? & -> & -> & ->). by split; [apply compensation_only_app|].
Qed.

#[export] Instance cmp_index_order : CmpOrder cmp_index.
Proof. split; unfold cmp_index; lia. Qed.

Section Recovery.
Context {V W S : Type} `{!Store S}.
Implicit Types (env : Env) (s : St V W S) (o : runOptions) (done : list (doneStep V W)).

(** The record fits the definition: it names a step of it, under the step's name. *)
Definition record_fits (steps : list (Step V W)) (rec : StepRecord) : Prop :=
  exists st, 0 <= sr_Index rec /\ steps !! Z.to_nat (sr_Index rec) = Some st /\
    Name st = sr_Name rec.

Lemma rebuild_loop_inv env s steps recs done r s' t :
  rebuild_loop steps recs done env s = (r, s', t) ->
  restore_only t /\
  forall done', r = Ok done' ->
    ds_index <$> done' = (ds_index <$> done) ++ held_indices recs /\
    Forall (record_fits steps) recs.
Proof.
  revert s done t. induction recs as [|rec recs IH]; intros s done t Hr; cbn [rebuild_loop] in Hr.
  { minv. split; [done|]. intros done' [= <-]. by rewrite app_nil_r. }
  destruct (_ || _) eqn:Hrange; minv; [done|]. apply orb_false_iff in Hrange as [Hlo Hhi].
  destruct (steps !! _) as [st|] eqn:Hst.
  2:{ apply lookup_ge_None in Hst. lia. }
  destruct (negb _) eqn:Hname; minv; [done|]. reflect_bools.
  assert (record_fits steps rec) as Hfit by (exists st; split_and!; auto with lia).
  destruct (Restore st) as [restore|].
  - unfold call_restore in Hr. minv. destruct (restore _ _) as [e c']. minv.
    case_match; minv; [done|].
    match goal with HR : rebuild_loop _ _ _ _ _ = _ |- _ => apply IH in HR as [Hro Hok] end.
    split; [exact Hro|]. intros done' [Hd Hall]%Hok. split; [|by constructor].
    rewrite Hd. unfold held_indices. destruct (Held (sr_Status rec)) eqn:Hh.
    + rewrite filter_cons_True by done. by rewrite fmap_app, <- app_assoc.
    + by rewrite filter_cons_False by congruence.
  - destruct (negb _) eqn:Hh; minv; [|done]. apply negb_true_iff in Hh.
    apply IH in Hr as [Hro Hok]. split; [done|]. intros done' [Hd Hall]%Hok.
    split; [|by constructor]. rewrite Hd. unfold held_indices.
    by rewrite filter_cons_False by congruence.
Qed.

(** A rebuilt chain is every held record, in index order, and the step after the last record, if
    there is one, does not block recovery. *)
Lemma rebuildChain_inv env s steps exec r s' t :
  rebuildChain steps exec env s = (r, s', t) ->
  restore_only t /\
  forall done, r = Ok done ->
    done <> [] /\
    ds_index <$> done = held_indices (SortFunc cmp_index (ex_Steps exec)) /\
    Forall (record_fits steps) (ex_Steps exec) /\
    checkRecoveryBoundary steps (SortFunc cmp_index (ex_Steps exec)) = None.
Proof.
  unfold rebuildChain. intros H. minv.
  match goal with HR : rebuild_loop _ _ _ _ _ = _ |- _ => apply rebuild_loop_inv in HR as [Hro Hok] end.
  case_match; [case_match|]; minv; rewrite ?app_nil_r.
  - done.
  - destruct (Hok _ eq_refl) as [Hd Hall]. case_match; minv; rewrite ?app_nil_r; (split; [done|]).
    { intros; discriminate. }
    intros done [= <-]. split_and!; try done. by rewrite SortFunc_perm in Hall.
  - done.
Qed.

Lemma recoverExecution_inv env s (wf : Workflow V W) exec o b e s' t :
  recoverExecution wf exec o env s = (b, e, s', t) ->
  b = true /\ invokes t = [] /\
  ((compensates t = [] /\ statuses t = [(ex_ID exec, StatusCompensationFailed)] /\
    exists f, e = Some f /\ KindOf f = KindConflict /\ CodeOf f = CodeExecutionFailed) \/
   (compensated t = reverse (held_indices (SortFunc cmp_index (ex_Steps exec))) /\
    Forall (record_fits (live_steps wf)) (ex_Steps exec) /\
    checkRecoveryBoundary (live_steps wf) (SortFunc cmp_index (ex_Steps exec)) = None /\
    ((hanging t = [] /\ e = None /\ statuses t = [(ex_ID exec, StatusFailed)]) \/
     (hanging t <> [] /\ statuses t = [(ex_ID exec, StatusCompensationFailed)] /\
      exists f, e = Some f /\ KindOf f = KindInternal /\ CodeOf f = CodeCompensationFailed)))).
Proof.
  unfold recoverExecution. intros H. minv.
  match goal with HR : rebuildChain _ _ _ _ = _ |- _ =>
    apply rebuildChain_inv in HR as [((Hs & Hi & Hst) & Hc & Hcd & Hh) Hok] end.
  case_match; minv.
  - destruct (Hok _ eq_refl) as (Hne & Hd & Hfit & Hb).
    match goal with HC : compensate _ _ _ _ _ = _ |- _ =>
      apply compensate_inv in HC as ((Hs2 & Hi2 & Hst2) & Hc2 & He2) end.
    case_match; minv;
    match goal with HP : persistStatus _ _ _ _ _ _ = _ |- _ => apply persistStatus_inv in HP as [-> _] end;
    (split; [done|]); autorewrite with traces; rewrite Hi, Hi2, Hst, Hst2, Hcd, Hc2, Hh;
    (split; [done|]); right; simpl; rewrite ?app_nil_r, fmap_reverse, Hd;
    (do 3 (split; [done|])).
    + right. split; [by intros Hn; apply He2 in Hn|]. split; [done|].
      eexists. autorewrite with errors. done.
    + left. split; [by apply He2|done].
  - match goal with HP : persistStatus _ _ _ _ _ _ = _ |- _ => apply persistStatus_inv in HP as [-> _] end.
    split; [done|]. autorewrite with traces. rewrite Hi, Hst, Hc. split; [done|].
    left. split_and!; [done|done|]. eexists. by autorewrite with errors.
Qed.

End Recovery.

Lemma StronglySorted_reverse {A} (R : relation A) (l : list A) :
  StronglySorted R l -> StronglySorted (flip R) (reverse l).
Proof.
  induction 1 as [|x l Hl IH Hx]; [constructor|].
  rewrite reverse_cons. apply StronglySorted_app_2; [|done|repeat constructor].
  intros y ? Hy ->%list_elem_of_singleton. rewrite elem_of_reverse in Hy. simpl.
  exact (proj1 (Forall_forall _ _) Hx y Hy).
Qed.

Lemma held_indices_sorted records :
  StronglySorted (cmp_le cmp_index) records -> StronglySorted Z.le (held_indices records).
Proof.
  unfold held_indices. induction 1 as [|r l Hl IH Hr]; [constructor|].
  destruct (Held (sr_Status r)) eqn:Hh;
    [rewrite filter_cons_True by done|by rewrite filter_cons_False by congruence].
  rewrite fmap_cons. constructor; [done|]. apply Forall_fmap, Forall_forall.
  intros r' [_ Hr']%list_elem_of_filter. eapply Forall_forall in Hr; [|exact Hr'].
  unfold cmp_le, cmp_index in Hr. simpl. lia.
Qed.

(** * Runs over a store that keeps its promise

    What [StoreLaws] gives the engine: every run keeps the store well formed, a run that completes
    leaves a completed record under its key, and a completed record answers for its key. *)

(** [workflow]'s execution under [key] is complete, with output [out]. *)
Definition completed_record {S} `{StoreLaws S} (st : S) (workflow key : string)
    (out : RawMessage) : Prop :=
  exists id e, records st !! id = Some e /\ ex_Workflow e = workflow /\
    ex_IdempotencyKey e = key /\ ex_Status e = StatusCompleted /\ ex_Output e = out.

Section Lawful.
Context {V W S : Type} `{StoreLaws S}.
Context (Marshal : V -> result RawMessage).
Implicit Types (env : Env) (o : runOptions) (done : list (doneStep V W)).

Definition keeps_ok : relation S := fun s s' => store_ok s -> store_ok s'.

#[export] Instance keeps_ok_preorder : PreOrder keeps_ok.
Proof. split; unfold keeps_ok; repeat intro; eauto. Qed.

Lemma laws_ops_move : ops_move keeps_ok.
Proof.
  split; unfold keeps_ok.
  - intros exec s Hid Hwf Hok. pose proof (law_create s exec Hok Hid Hwf) as Hl.
    destruct (st_Create _ _). by destruct Hl.
  - intros wf key s Hok. pose proof (law_find s wf key Hok) as Hl.
    destruct (st_FindByIdempotencyKey _ _ _). by destruct Hl as [-> _].
  - intros now id rec s Hok. pose proof (law_append s now id rec Hok) as Hl.
    destruct (st_AppendStep _ _ _ _). by destruct Hl.
  - intros now id status out f s Hok. pose proof (law_update s now id status out f Hok) as Hl.
    destruct (st_UpdateStatus _ _ _ _ _ _). by destruct Hl.
  - intros id s Hok. pose proof (law_get s id Hok) as Hl. destruct (st_Get _ _). by destruct Hl as [-> _].
  - intros claim now id seen s Hc Hok. pose proof (law_claim claim s now id seen Hc Hok) as Hl.
    destruct (claim _ _ _ _). by destruct Hl.
Qed.
Lemma keeps_inv {A} (m : M V W S A) env s a s' t :
  moves keeps_ok m -> m env s = (a, s', t) -> store_ok (store s) -> store_ok (store s').
Proof. intros Hm Heq. specialize (Hm env s). by rewrite Heq in Hm. Qed.

Lemma untouched_inv {A} (m : M V W S A) env s a s' t :
  moves eq m -> m env s = (a, s', t) -> store s' = store s.
Proof. intros Hm Heq. specialize (Hm env s). by rewrite Heq in Hm. Qed.

Lemma persistStep_store env s id rec u s' t e :
  persistStep (V := V) (W := W) id rec env s = (u, s', t) ->
  store_ok (store s) -> records (store s) !! id = Some e ->
  store_ok (store s') /\ exists now, records (store s') !! id = Some (append_step now rec e).
Proof.
  unfold persistStep. intros Hp Hok He. minv.
  match goal with Hst : st_AppendStep ?now _ _ ?st = _ |- _ =>
    pose proof (law_append st now id rec Hok) as Hl; rewrite Hst in Hl end.
  destruct Hl as [? Hl]. unfold record_write in Hl. rewrite He in Hl. destruct Hl as [_ Hl].
  split; [done|]. simpl. rewrite Hl. eexists. by rewrite lookup_insert_eq.
Qed.

Lemma persistStatus_store env s id status out f u s' t e :
  persistStatus (V := V) (W := W) id status out f env s = (u, s', t) ->
  store_ok (store s) -> records (store s) !! id = Some e ->
  store_ok (store s') /\
  exists now, records (store s') !! id = Some (update_status now status out f e).
Proof.
  unfold persistStatus. intros Hp Hok He. minv.
  match goal with Hst : st_UpdateStatus ?now _ _ _ _ ?st = _ |- _ =>
    pose proof (law_update st now id status out f Hok) as Hl; rewrite Hst in Hl end.
  destruct Hl as [? Hl]. unfold record_write in Hl. rewrite He in Hl. destruct Hl as [_ Hl].
  split; [done|]. simpl. rewrite Hl. eexists. by rewrite lookup_insert_eq.
Qed.

(** Only the record of [id] is written, and what it stands for stays. *)
Definition writes_only (id : string) : relation S := fun s s' =>
  store_ok s -> store_ok s' /\
  (forall id', id' <> id -> records s' !! id' = records s !! id') /\
  (forall e, records s !! id = Some e -> exists e', records s' !! id = Some e' /\
     ex_Workflow e' = ex_Workflow e /\ ex_IdempotencyKey e' = ex_IdempotencyKey e).

#[export] Instance writes_only_preorder id : PreOrder (writes_only id).
Proof.
  split; unfold writes_only; [by eauto 10|].
  intros s1 s2 s3 H12 H23 Hok. destruct (H12 Hok) as (Hok2 & Ho2 & He2).
  destruct (H23 Hok2) as (Hok3 & Ho3 & He3). split; [done|]. split.
  - intros id' Hne. by rewrite Ho3, Ho2.
  - intros e (e' & Hs2 & Hw & Hk)%He2. apply He3 in Hs2 as (e'' & ? & ? & ?).
    exists e''. split_and!; congruence.
Qed.

Lemma append_writes_only now id rec st : writes_only id st (st_AppendStep now id rec st).2.
Proof.
  intros Hok. pose proof (law_append st now id rec Hok) as Hl.
  destruct (st_AppendStep now id rec st) as [x st']. destruct Hl as [Hok' Hl].
  split; [done|]. unfold record_write in Hl. simpl.
  destruct (records st !! id) as [e|] eqn:He; destruct Hl as [_ ->].
  - split; [intros; by rewrite lookup_insert_ne|]. intros e1 [= <-].
    eexists. by rewrite lookup_insert_eq.
  - split; [done|]. congruence.
Qed.

(** The record of [id] has ended in status [fin], and has kept its key unless it was released. *)
Definition ended_record (st : S) (id workflow key : string) (fin : Status) : Prop :=
  exists e, records st !! id = Some e /\ ex_Workflow e = workflow /\ ex_Status e = fin /\
    ex_IdempotencyKey e = if bool_decide (fin = StatusFailed) then EmptyString else key.

(** What a run does to its own record and to the others. *)
Definition ends_record (id : string) (e : Execution) (st st' : S) (t : list call) : Prop :=
  store_ok st' /\ (forall id', id' <> id -> records st' !! id' = records st !! id') /\
  exists fin, statuses t = [(id, fin)] /\
    ended_record st' id (ex_Workflow e) (ex_IdempotencyKey e) fin.

(** Writing to the record without a status first changes nothing of that. *)
Lemma ends_after id e st1 st2 st3 t1 t2 :
  records st1 !! id = Some e -> statuses t1 = [] -> writes_only id st1 st2 -> store_ok st1 ->
  (forall e2, store_ok st2 -> records st2 !! id = Some e2 -> ends_record id e2 st2 st3 t2) ->
  ends_record id e st1 st3 (t1 ++ t2).
Proof.
  intros He Ht Hw Hok Hend. destruct (Hw Hok) as (Hok2 & Ho & Hrec).
  destruct (Hrec e He) as (e2 & He2 & Hwf & Hk).
  destruct (Hend e2 Hok2 He2) as (Hok3 & Ho' & fin & Hst & Hrec3). split_and!; [done| |].
  - intros id' Hne. by rewrite Ho', Ho.
  - exists fin. rewrite statuses_app, Ht, Hst, <- Hwf, <- Hk. done.
Qed.

Lemma persistStatus_ends env s id status out f u s' t e :
  persistStatus (V := V) (W := W) id status out f env s = (u, s', t) ->
  store_ok (store s) -> records (store s) !! id = Some e ->
  ends_record id e (store s) (store s') t.
Proof.
  unfold persistStatus. intros Hp Hok He. minv.
  match goal with Hst : st_UpdateStatus ?now _ _ _ _ ?st = _ |- _ =>
    pose proof (law_update st now id status out f Hok) as Hl; rewrite Hst in Hl end.
  destruct Hl as [? Hl]. unfold record_write in Hl. rewrite He in Hl. destruct Hl as [_ Hl].
  unfold ends_record. rewrite Hl. simpl. split; [done|].
  split; [intros; by rewrite lookup_insert_ne|]. exists status. split; [done|].
  eexists. rewrite Hl, lookup_insert_eq. split_and!; try done. simpl. unfold releases_key.
  destruct (bool_decide (status = StatusFailed)); [|done]. simpl. by case_bool_decide.
Qed.

Lemma writes_compensate id done o env (s : St V W S) r s' t :
  compensate id done o env s = (r, s', t) -> writes_only id (store s) (store s').
Proof.
  intros Hc. pose proof (moves_compensate (writes_only id) id
    (fun _ _ => append_writes_only _ id _) done o env s) as Hm. by rewrite Hc in Hm.
Qed.

Lemma writes_persistStep id rec env (s : St V W S) r s' t :
  persistStep id rec env s = (r, s', t) -> writes_only id (store s) (store s').
Proof.
  intros Hc. pose proof (moves_persistStep (writes_only id) id
    (fun _ _ => append_writes_only _ id _) rec env s) as Hm. by rewrite Hc in Hm.
Qed.

Lemma unwind_ends id wf done o cause env (s : St V W S) r s' t e :
  unwind id wf done o cause env s = (r, s', t) ->
  store_ok (store s) -> records (store s) !! id = Some e ->
  ends_record id e (store s) (store s') t.
Proof.
  unfold unwind. intros Hu Hok He. minv.
  match goal with HC : compensate _ _ _ _ _ = _ |- _ =>
    pose proof HC as Hw%writes_compensate; apply compensate_inv in HC as ((_ & _ & Hst) & _ & _) end.
  eapply ends_after; [done..|]. intros e2 Hok2 He2.
  destruct (_ && _); minv; rewrite app_nil_r; eauto using persistStatus_ends.
Qed.

Lemma unwind_fails id wf done o cause env (s : St V W S) out s' t :
  unwind id wf done o cause env s = (Ok out, s', t) -> False.
Proof.
  intros (_ & _ & _ & [(_ & _ & _ & ?)|(_ & _ & e & ? & _)])%unwind_inv; discriminate.
Qed.

Lemma execute_from_completes env wf id o steps i done last_out (s : St V W S) out s' t e :
  execute_from Marshal wf id o i steps done last_out env s = (Ok out, s', t) ->
  store_ok (store s) -> records (store s) !! id = Some e ->
  store_ok (store s') /\
  completed_record (store s') (ex_Workflow e) (ex_IdempotencyKey e) out.
Proof.
  revert i done last_out s out s' t e.
  induction steps as [|st steps IH]; intros i done last_out s out s' t e Hex Hok He;
    cbn [execute_from] in Hex.
  { destruct (encode_last _ _) as [output note]. minv.
    match goal with HP : persistStatus _ _ _ _ _ _ = _ |- _ =>
      destruct (persistStatus_store _ _ _ _ _ _ _ _ _ _ HP Hok He) as (? & now & Hn) end.
    split; [done|]. eexists _, _. split; [exact Hn|]. done. }
  minv. case_match; minv.
  { exfalso. eauto using unwind_fails. }
  match goal with HI : invokeStep _ _ _ _ _ = (?p, _, _) |- _ =>
    apply untouched_inv in HI as Hst; [|by apply moves_invokeStep; apply _]; simpl in Hst;
    destruct p as [[v|serr] n] end; minv.
  - destruct (encode Marshal v) as [output note]. minv.
    match goal with HP : persistStep _ _ _ _ = _ |- _ =>
      eapply persistStep_store in HP as (Hok' & now & Hn);
        [|simpl; rewrite Hst; exact Hok|simpl; rewrite Hst; exact He] end.
    match goal with HE : execute_from _ _ _ _ _ _ _ _ _ _ = _ |- _ =>
      exact (IH _ _ _ _ _ _ _ _ HE Hok' Hn) end.
  - exfalso. eauto using unwind_fails.
Qed.

(** A run over its own record ends it with the one status it wrote. *)
Lemma execute_from_ends env wf id o steps i done last_out (s : St V W S) r s' t e :
  execute_from Marshal wf id o i steps done last_out env s = (r, s', t) ->
  store_ok (store s) -> records (store s) !! id = Some e ->
  ends_record id e (store s) (store s') t.
Proof.
  revert i done last_out s r s' t e.
  induction steps as [|st steps IH]; intros i done last_out s r s' t e Hex Hok He;
    cbn [execute_from] in Hex.
  { destruct (encode_last _ _) as [output note]. minv. rewrite app_nil_r.
    eauto using persistStatus_ends. }
  minv. case_match; minv.
  { match goal with HU : unwind _ _ _ _ _ _ _ = _ |- _ =>
      exact (unwind_ends _ _ _ _ _ _ _ _ _ _ _ HU Hok He) end. }
  match goal with HI : invokeStep _ _ _ _ _ = (?p, _, _) |- _ =>
    pose proof HI as Hst; apply untouched_inv in Hst; [|by apply moves_invokeStep; apply _];
    simpl in Hst; destruct p as [[v|serr] n];
    apply invokeStep_inv in HI as ((_ & _ & _ & Hq) & _) end; minv;
    [destruct (encode Marshal v) as [output note]; minv|];
    match goal with HP : persistStep _ _ _ _ = _ |- _ =>
      pose proof HP as Hw%writes_persistStep; apply persistStep_inv in HP as [-> _] end;
    simpl in Hw; rewrite Hst in Hw; rewrite (assoc_L (++));
    (eapply ends_after; [done| |exact Hw|done|]; [by rewrite statuses_app, Hq|]);
    intros e2 Hok2 He2; [by eauto|]. rewrite ?app_nil_r. by eauto using unwind_ends.
Qed.

(** Opening a record under a free key creates it; under a held one it answers that it did not. *)
Lemma open_inv env (s : St V W S) (wf : Workflow V W) payload o r s' t :
  open wf payload o env s = (r, s', t) ->
  store_ok (store s) -> wf_Name wf <> EmptyString ->
  store_ok (store s') /\ invokes t = [] /\ compensates t = [] /\
  match r with
  | Ok (Some e) =>
      records (store s') !! ex_ID e = Some e /\ ex_Workflow e = wf_Name wf /\
      ex_IdempotencyKey e = ro_idempotencyKey o /\ ex_Status e = StatusRunning /\
      (ro_idempotencyKey o <> EmptyString ->
       ~ holds_key (records (store s)) (wf_Name wf) (ro_idempotencyKey o))
  | Ok None => store s' = store s /\ ro_idempotencyKey o <> EmptyString
  | Fail _ => store s' = store s /\
      ~ (ro_idempotencyKey o <> EmptyString /\
         holds_key (records (store s)) (wf_Name wf) (ro_idempotencyKey o))
  end.
Proof.
  unfold open. intros Ho Hok Hwf. minv.
  match goal with Hst : st_Create (Some ?exec) ?st = _ |- _ =>
    pose proof (law_create st exec Hok (newExecutionID_ne _ _) Hwf) as Hl;
    rewrite Hst in Hl end.
  destruct Hl as [Hok' Hl]. case_match; [destruct Hl as (Hkind & -> & Hwhy)|].
  - assert (bool_decide (KindOf e = KindConflict) = true) as Hc by by apply bool_decide_eq_true_2.
    match goal with HR : (if _ then _ else _) _ _ = _ |- _ => rewrite Hc, andb_true_r in HR end.
    destruct (negb _) eqn:Hb; minv; reflect_bools; split_and!; try done. tauto.
  - destruct Hl as (Hnew & Hfree & Hrec). minv. split_and!; try done.
    simpl. rewrite Hrec. by rewrite lookup_insert_eq.
Qed.

(** An answer from a record is the output of a completed one. *)
Lemma replay_ok env (s : St V W S) (wf : Workflow V W) o out s' t :
  replay wf o env s = (ReplayDone (Ok out), s', t) ->
  store_ok (store s) -> ro_idempotencyKey o <> EmptyString ->
  store_ok (store s') /\
  completed_record (store s') (wf_Name wf) (ro_idempotencyKey o) out.
Proof.
  unfold replay. intros Hr Hok Hk. minv.
  match goal with Hst : st_FindByIdempotencyKey _ _ ?st = _ |- _ =>
    pose proof (law_find st (wf_Name wf) (ro_idempotencyKey o) Hok) as Hl; rewrite Hst in Hl end.
  destruct Hl as [-> Hl]. specialize (Hl Hk). case_match; [|case_match; minv].
  case_match; [|done]. destruct Hl as (Hrec & Hwf & Hkey). case_match; minv.
  - case_match. case_match; [|case_match]; minv.
  - split; [done|]. by eexists _, _.
Qed.

(** A completed record answers for its key, and nothing else happens. *)
Lemma replay_completed env (s : St V W S) (wf : Workflow V W) o out :
  store_ok (store s) -> ro_idempotencyKey o <> EmptyString ->
  completed_record (store s) (wf_Name wf) (ro_idempotencyKey o) out ->
  exists s' t, replay wf o env s = (ReplayDone (Ok out), s', t) /\ store s' = store s /\
    invokes t = [] /\ compensates t = [].
Proof.
  intros Hok Hk (id & e & Hrec & Hwf & Hkey & Hst & <-).
  unfold replay, bindM, emit, on_store, retM. simpl.
  pose proof (law_find (store s) (wf_Name wf) (ro_idempotencyKey o) Hok) as Hl.
  destruct (st_FindByIdempotencyKey _ _ _) as [[[e'|]|er] st']; destruct Hl as [-> Hl];
    specialize (Hl Hk); [|done|exfalso; apply Hl; by exists id, e].
  destruct Hl as (Hrec' & Hwf' & Hkey').
  assert (ex_ID e' = id) as Hid.
  { eapply (law_key_unique (store s)); eauto; congruence. }
  rewrite Hid in Hrec'. assert (e' = e) as -> by congruence. rewrite Hst.
  by eexists _, _.
Qed.

Lemma run_turns_ok n env (s : St V W S) (wf : Workflow V W) input payload o out s' t :
  run_turns Marshal n wf input payload o env s = (Ok out, s', t) ->
  store_ok (store s) -> ro_idempotencyKey o <> EmptyString -> wf_Name wf <> EmptyString ->
  store_ok (store s') /\
  completed_record (store s') (wf_Name wf) (ro_idempotencyKey o) out.
Proof.
  intros Hr Hok Hk Hwf. revert s t Hok Hr.
  induction n as [|n IH]; intros s t Hok Hr; cbn [run_turns] in Hr; minv.
  match goal with Ho : open _ _ _ _ _ = _ |- _ =>
    apply open_inv in Ho as (Hok1 & _ & _ & Hopen); [|done..] end.
  case_match; [case_match|minv].
  - destruct Hopen as (Hrec & Hw & Hkey & _). rewrite <- Hw, <- Hkey.
    unfold execute in *. minv. eapply execute_from_completes; eauto.
  - minv. match goal with Hp : replay _ _ _ _ = (?p, _, _) |- _ =>
      rename Hp into Hrep; destruct p end; minv; [by eapply replay_ok|].
    apply keeps_inv in Hrep; [eauto|by apply moves_replay, laws_ops_move; apply _|done].
Qed.

Lemma run_turns_replays n env (s : St V W S) (wf : Workflow V W) input payload o out :
  (0 < n)%nat ->
  store_ok (store s) -> ro_idempotencyKey o <> EmptyString -> wf_Name wf <> EmptyString ->
  completed_record (store s) (wf_Name wf) (ro_idempotencyKey o) out ->
  exists s' t, run_turns Marshal n wf input payload o env s = (Ok out, s', t) /\
    store s' = store s /\ invokes t = [] /\ compensates t = [].
Proof.
  intros Hn Hok Hk Hwf Hcr. destruct n as [|n]; [lia|]. cbn [run_turns].
  destruct (open wf payload o env s) as [[r s1] t1] eqn:Ho.
  pose proof Ho as (Hok1 & Hi & Hc & Hopen)%open_inv; [|done..].
  assert (holds_key (records (store s)) (wf_Name wf) (ro_idempotencyKey o)) as Hh.
  { destruct Hcr as (id & e & ? & ? & ? & _). by exists id, e. }
  destruct r as [[e|]|er];
    [by destruct (proj2 (proj2 (proj2 (proj2 Hopen))) Hk)| |by destruct (proj2 Hopen)].
  destruct Hopen as [Heq _].
  destruct (replay_completed env s1 wf o out) as (s2 & t2 & Hr & Hs2 & Hi2 & Hc2);
    [by rewrite ?Heq..|].
  unfold bindM. rewrite Ho, Hr. simpl. eexists _, _. split; [done|].
  autorewrite with traces. rewrite Hi, Hc, Hi2, Hc2, Hs2. done.
Qed.

#[local] Opaque run_turns.

(** A run that answers has passed the checks before it. *)
Lemma Run_ok_inv env (s : St V W S) (wf : Workflow V W) input opts out s' t :
  Run Marshal wf input opts env s = (Ok out, s', t) ->
  exists o payload s1, newRunOptions opts = Ok o /\ Validate wf = None /\
    Marshal input = Ok payload /\ store s1 = store s /\
    run_turns Marshal 2 wf input payload o env s1 = (Ok out, s', t).
Proof.
  unfold Run. intros Hr. case_match; [|minv]. case_match; minv. case_match; minv.
  case_match; minv.
  eexists _, _, _. do 3 (split; [done|]). split; [|eassumption]. done.
Qed.
End Lawful.
