(* ===== verification/WorkflowProps.v ===== *)
(** * What makes the workflow engine correct

    The properties of [internal/core/workflow], each with the run it is witnessed on. *)
From Stdlib Require Import SpecFloat.
From S2P Require Import Prelude GoText Errors Workflow WorkflowStore WorkflowEngine WorkflowSaga WorkflowIdem.

(** ** A small world to witness the properties in: values are texts, the world is a log *)

Module Sample.

Definition env : Env := mkEnv (fun _ => None) (fun _ => None) (fun n => Z.of_nat n * 1000000) (fun _ => 0).

Definition dead_env : Env :=
  mkEnv (fun _ => Some (Sentinel canceled_text)) (fun _ => None) (fun n => Z.of_nat n) (fun _ => 0).

Definition good (name : string) : Step string (list string) :=
  mkStep name (fun c w => (Returned name, c, w ++ [name]))
    (fun c w => (Returned tt, c, w ++ [String.append "undo " name]))
    (Some (fun c _ => (None, c))) false.

Definition bad (name : string) : Step string (list string) :=
  mkStep name (fun c w => (Errored (Unavailable "down" "down" []), c, w))
    (fun c w => (Returned tt, c, w)) (Some (fun c _ => (None, c))) true.

Definition wf : Workflow string (list string) :=
  mkWorkflow "order" [Some (good "reserve"); Some (good "charge")].

Definition wf_bad : Workflow string (list string) :=
  mkWorkflow "order" [Some (good "reserve"); Some (good "charge"); Some (bad "ship")].

Definition start : St string (list string) memoryStore :=
  mkSt [] NewMemoryStore (mkStepContext (GoInput "in"%string) ∅ EmptyString EmptyString EmptyString 0 0) 0.

Definition after {A} (r : A * St string (list string) memoryStore * list call) := r.1.2.

Definition keyed : list RunOption := [WithIdempotencyKey "k1"; WithRetry (mkRetryPolicy 2 0 float_zero 0 None)].

Definition rec (i : Z) (name : string) (st : StepStatus) : StepRecord :=
  mkStepRecord name i st "null" EmptyString 1 0 0.
End Sample.

Section Props.
Context {V W S : Type} `{!Store S}.
Context (Marshal : V -> result RawMessage).

(** C1: a run goes forward and then, at most, backward. Its steps succeed one after the other from
    the first; no compensation starts before the last step call and none is made when all succeed,
    in which case the one status written is "completed". Otherwise the run fails: the step that
    stopped it, if it was tried more than once, and then every step that had succeeded are
    compensated in reverse order, each once whatever the others' compensations answer; the one
    status written is "failed" when every compensation succeeded, and "compensation_failed", under an
    internal error, when one did not or the cause says work was left behind. *)
Theorem execute_saga (wf : Workflow V W) input id o env (s : St V W S) :
  let '(r, _, t) := execute Marshal wf input id o env s in
  exists forward backward (k : Z),
    t = forward ++ backward /\
    compensates forward = [] /\ invokes backward = [] /\
    0 <= k <= Z.of_nat (length (live_steps wf)) /\ succeeded t = seqZ 0 k /\
    ((k = Z.of_nat (length (live_steps wf)) /\ is_ok r = true /\
      compensated t = [] /\ statuses t = [(id, StatusCompleted)]) \/
     (k < Z.of_nat (length (live_steps wf)) /\
      compensated t = (if bool_decide ((k, 2) ∈ invokes t) then [k] else []) ++ reverse (seqZ 0 k) /\
      exists e, r = Fail e /\
        ((hanging t = [] /\ Is e uncompensated_text = false /\ statuses t = [(id, StatusFailed)]) \/
         ((hanging t <> [] \/ Is e uncompensated_text = true) /\
          statuses t = [(id, StatusCompensationFailed)] /\
          KindOf e = KindInternal /\ CodeOf e = CodeCompensationFailed)))).
Proof.
  destruct (execute Marshal wf input id o env s) as [[r s'] t] eqn:He.
  unfold execute in He. minv.
  match goal with H : execute_from _ _ _ _ _ _ _ _ _ _ = _ |- _ => apply execute_from_inv in H as
    (pre & post & k & Hk & -> & (Hc & Hcs & Hh & Hst) & Hi & Hs & Hss & Hge & Hend) end.
  exists pre, post, k. unfold unwound, retried_steps in Hend.
  autorewrite with traces. rewrite Hc, Hh, Hst, Hi, Hs, Hss, !app_nil_r.
  split_and!; try done.
  { destruct Hend as [[-> _]|[? _]]; lia. }
  destruct Hend as [(Hlen & Hcp & Hhp & Hsp & out & ->)|(Hlt & cause & _ & Hcp & Hend)]; [left|right].
  { rewrite Hcp, Hsp. split_and!; done. }
  rewrite Hcp, Z.add_0_l. simpl. split_and!; try done.
  { by rewrite app_nil_r. }
  destruct Hend as [(Hhp & Hu & Hsp & ->)|(Hhp & Hsp & e & -> & Hkd & Hcd & Hx)];
    eexists; rewrite Hsp; (split; [done|]); [by left|right].
  split_and!; try done. destruct Hhp as [?|Hu]; [by left|right; by apply Hx].
Qed.

(** A failed run's error carries what caused it. The cause is either the end of the caller's
    context, or the failure of the last step call made; every sentinel [errors.Is] finds in that
    cause it also finds in the error returned. When the compensation completed, the error's kind is
    the cause's ("unavailable" for a dead context) and its code the cause's own, or the engine's
    default when it has none. *)
Theorem execute_failure_cause (wf : Workflow V W) input id o env (s : St V W S) :
  let '(r, _, t) := execute Marshal wf input id o env s in
  forall e, r = Fail e ->
  exists cause : err,
    ((exists n, env_ctx env n = Some cause) \/ last (invoke_failures t) = Some (Some cause)) /\
    (forall x, Is cause x = true -> Is e x = true) /\
    (statuses t = [(id, StatusFailed)] ->
     (KindOf e = KindOf cause /\ CodeOf e = stepFailureCode cause) \/
     (KindOf e = KindUnavailable /\ CodeOf e = CodeCanceled)).
Proof.
  destruct (execute Marshal wf input id o env s) as [[r s'] t] eqn:He. intros e ->.
  unfold execute in He. minv.
  match goal with H : execute_from _ _ _ _ _ _ _ _ _ _ = _ |- _ => apply execute_from_inv in H as
    (pre & post & k & Hk & -> & (Hc & Hcs & Hh & Hst) & Hi & Hs & Hss & Hge & Hend) end.
  destruct Hend as [(_ & _ & _ & _ & out & Hout)|(Hlt & cause & Hcause & Hcp & Hend)]; [done|].
  autorewrite with traces. rewrite Hst, (invoke_failures_none post Hi), app_nil_r.
  destruct Hcause as [(n & c & Hctx & Hkd & Hcd & Hx)|(c & Hlast & Hkd & Hcd & Hx)];
    exists c; (split; [eauto|]);
    destruct Hend as [(_ & _ & Hsp & [= ->])|(_ & Hsp & e' & [= <-] & _ & _ & Hx')]; rewrite Hsp; simpl;
    (split; [intros x Hcx; rewrite <- Hx in Hcx; eauto|]); auto; intros; discriminate.
Qed.

(** How often a step is tried. Attempts are numbered from one without a gap and there are at
    most [MaxAttempts] of them; every attempt but the last failed with an error the policy lets be
    retried, which a panic, work left behind, a canceled or a timed out context never is; and a step
    that ends in an error was stopped by the bound, by an error that may not be retried, or by a
    context that ended between two attempts. *)
Theorem invokeStep_attempts (i : Z) (st : Step V W) o env (s : St V W S) :
  let '((r, n), _, t) := invokeStep i st o env s in
  exists retried,
    t = attempt_calls (CInvoke i) 1 retried (failure_of r) /\
    n = Z.of_nat (length retried) + 1 /\ n <= Z.max 1 (rp_MaxAttempts (ro_retry o)) /\
    Forall (fun e => allow (ro_retry o) (Some e) = true /\
      Is e panic_text = false /\ Is e uncompensated_text = false /\
      Is e canceled_text = false /\ Is e deadline_text = false) retried /\
    (forall e, r = Fail e ->
       n = Z.max 1 (rp_MaxAttempts (ro_retry o)) \/ allow (ro_retry o) (Some e) = false \/
       exists k, is_Some (env_ctx env k)).
Proof.
  destruct (invokeStep i st o env s) as [[[r n] s'] t] eqn:He.
  apply invokeLoop_inv in He as (retried & -> & -> & Hlen & Hall & Hstop).
  exists retried. split_and!; [done|lia|lia| |].
  - eapply Forall_impl; [exact Hall|]. intros e He. split; [done|]. exact (allow_never _ _ He).
  - intros e He. destruct (Hstop e He) as [Hmax|?]; [left; lia|auto].
Qed.

(** Nothing happens for a caller that is already gone: with a canceled context [Run] refuses,
    whatever the options and the workflow, and no step, no record and no read is touched. *)
Theorem Run_dead_context (wf : Workflow V W) input opts env (s : St V W S) c
    (Hdead : env_ctx env (tick s) = Some c) :
  let '(r, s', t) := Run Marshal wf input opts env s in
  t = [] /\ store s' = store s /\ world s' = world s /\ exists e, r = Fail e /\
    (is_ok (newRunOptions opts) = true -> Validate wf = None ->
     KindOf e = KindUnavailable /\ CodeOf e = CodeCanceled /\ forall x, Is e x = Is c x).
Proof.
  unfold Run. destruct (newRunOptions opts) as [o|e]; simpl;
    [|split_and!; [done..|]; by eexists].
  destruct (Validate wf) as [e|]; simpl; [split_and!; [done..|]; by eexists|].
  unfold bindM, look_ctx. rewrite Hdead. simpl. split_and!; try done.
  eexists. split; [done|]. intros _ _. by autorewrite with errors.
Qed.
End Props.

Lemma Run_dead_context_witness :
  let '(r, s', t) := Run Ok Sample.wf "in"%string [] Sample.dead_env Sample.start in
  t = [] /\ store s' = NewMemoryStore /\ world s' = [].
Proof.
  pose proof (Run_dead_context Ok Sample.wf "in"%string [] Sample.dead_env Sample.start
    (Sentinel canceled_text) eq_refl) as H.
  destruct (Run _ _ _ _ _ _) as [[r s'] t]. by destruct H as (? & ? & ? & _).
Defined.

Section LawfulProps.
Context {V W S : Type} `{StoreLaws S}.
Context (Marshal : V -> result RawMessage).

#[local] Opaque run_turns.

(** C2: one key, one run. Over any store that keeps its promise, once [Run] has answered under an
    idempotency key, running again under that key answers the same output without a single step
    call and without changing the store, whatever the second call's input, step code, other options
    and environment are, as long as it is accepted and its caller is still there. *)
Theorem Run_idempotent (wf wf2 : Workflow V W) input input2 opts opts2 env env2
    (s s1 s2 : St V W S) out t (payload2 : RawMessage) o o2
    (Hok : store_ok (store s))
    (Ho : newRunOptions opts = Ok o) (Ho2 : newRunOptions opts2 = Ok o2)
    (Hkey : ro_idempotencyKey o <> EmptyString)
    (Hsame : ro_idempotencyKey o2 = ro_idempotencyKey o)
    (Hfirst : Run Marshal wf input opts env s = (Ok out, s1, t))
    (Hs2 : store s2 = store s1)
    (Hname : wf_Name wf2 = wf_Name wf) (Hvalid : Validate wf2 = None)
    (Hpay : Marshal input2 = Ok payload2) (Hctx : env_ctx env2 (tick s2) = None) :
  exists s3 t2, Run Marshal wf2 input2 opts2 env2 s2 = (Ok out, s3, t2) /\
    store s3 = store s2 /\ invokes t2 = [] /\ compensates t2 = [].
Proof.
  apply Run_ok_inv in Hfirst as (o' & payload & s0 & Ho' & Hv & Hp & Hs0 & Hr).
  assert (o' = o) as -> by congruence.
  apply run_turns_ok in Hr as [Hok1 Hcr]; [|by rewrite ?Hs0|done|by apply Validate_name].
  unfold Run. rewrite Ho2, Hvalid. unfold bindM at 1. unfold look_ctx. rewrite Hctx, Hpay.
  set (s2' := mkSt _ _ _ _).
  destruct (run_turns_replays Marshal 2 env2 s2' wf2 input2 payload2 o2 out)
    as (s3 & t2 & Hr & Hs3 & Hi & Hc); try (simpl; lia); subst s2'; simpl.
  - by rewrite Hs2.
  - by rewrite Hsame.
  - rewrite Hname. by apply Validate_name.
  - by rewrite Hs2, Hsame, Hname.
  - exists s3, t2. rewrite Hr. done.
Qed.

(** Whatever the steps do, and however a run or a recovery ends, the store stays well formed:
    every record under its own id and no two executions of a workflow under one key. *)
Theorem engine_keeps_store (wf : Workflow V W) input opts id env (s : St V W S)
    (Hok : store_ok (store s)) :
  store_ok (store (Run Marshal wf input opts env s).1.2) /\
  store_ok (store (Recover wf id opts env s).1.2).
Proof.
  split.
  - by apply (moves_Run Marshal keeps_ok laws_ops_move).
  - by apply (moves_Recover keeps_ok laws_ops_move).
Qed.

(** An abandoned execution has one winner. After one process has claimed the record it saw, no
    other that saw the same write wins it, whenever it tries, unless the winner's clock read the very
    moment of that write. *)
Theorem claim_exclusive prev env1 env2 (s1 s1' s2 : St V W S) t1
    (Hcan : is_Some (st_ClaimAbandoned (S := S))) (Hok : store_ok (store s1))
    (Hclock : env_clock env1 (tick s1) <> ex_UpdatedAt prev)
    (Hwon : claimAbandoned prev env1 s1 = (claimWon, s1', t1))
    (Hnext : store s2 = store s1') :
  (claimAbandoned prev env2 s2).1.1 <> claimWon.
Proof.
  destruct Hcan as [claim Hclaim]. unfold claimAbandoned in *. rewrite Hclaim in *. minv.
  match goal with H : claim ?now ?id ?seen ?st = _ |- _ =>
    pose proof (law_claim claim st now id seen Hclaim Hok) as Hl; rewrite H in Hl end.
  case_match; [case_match|]; simplify_eq. destruct Hl as [Hok1 Hl].
  destruct (records (store s1) !! ex_ID prev) as [e|]; [|done]. destruct Hl as (_ & _ & Hrec).
  unfold bindM, on_store. simpl.
  pose proof (law_claim claim (store s2) (env_clock env2 (tick s2)) (ex_ID prev) (ex_UpdatedAt prev)
    Hclaim Hok1) as Hl2.
  destruct (claim _ _ _ (store s2)) as [[[]|] st2]; simpl; try done.
  rewrite Hrec, lookup_insert_eq in Hl2. destruct Hl2 as (_ & _ & Hu & _). by simpl in Hu.
Qed.

(** How a run leaves its record. It writes no other execution; its own ends completed when the
    run answers, and keeps its idempotency key, so that the key goes on answering; failed when
    everything was undone, and then nobody holds the key any more, so that the same key can be run
    again; and with its key still held when something could not be undone, so that a retry does not
    run over what was left behind. *)
Theorem execute_leaves_record (wf : Workflow V W) input id o env (s : St V W S) e
    (Hok : store_ok (store s)) (He : records (store s) !! id = Some e)
    (Hkey : ex_IdempotencyKey e <> EmptyString) :
  let '(r, s', t) := execute Marshal wf input id o env s in
  let before := records (store s) in
  let after := records (store s') in
  (forall id', id' <> id -> after !! id' = before !! id') /\
  exists e', after !! id = Some e' /\ ex_Workflow e' = ex_Workflow e /\
    ((is_ok r = true /\ ex_Status e' = StatusCompleted /\
      ex_IdempotencyKey e' = ex_IdempotencyKey e) \/
     (is_ok r = false /\ hanging t = [] /\ ex_Status e' = StatusFailed /\
      ~ holds_key after (ex_Workflow e) (ex_IdempotencyKey e)) \/
     (is_ok r = false /\ ex_Status e' = StatusCompensationFailed /\
      ex_IdempotencyKey e' = ex_IdempotencyKey e)).
Proof.
  destruct (execute Marshal wf input id o env s) as [[r s'] t] eqn:Hex.
  unfold execute in Hex. minv.
  match goal with H : execute_from _ _ _ _ _ _ _ _ _ _ = _ |- _ =>
    pose proof (execute_from_ends _ _ _ _ _ _ _ _ _ _ _ _ _ _ H Hok He) as
      (Hok' & Ho & fin & Hst & e' & He' & Hw & Hfin & Hk);
    apply execute_from_inv in H as
      (pre & post & k & _ & -> & (_ & _ & Hh & Hst1) & _ & _ & _ & _ & Hend) end.
  split; [done|]. exists e'. split; [done|]. split; [done|].
  rewrite statuses_app, Hst1 in Hst. rewrite hanging_app, Hh. simpl in *.
  destruct Hend as [(_ & _ & _ & Hs & out & ->)|(_ & cause & _ & _ & Hend)];
    [|destruct Hend as [(Hhp & _ & Hs & ->)|(_ & Hs & e1 & -> & _)]];
    rewrite Hs in Hst; injection Hst as <-; [left|right; left|right; right].
  - split_and!; done.
  - split_and!; try done. intros (id2 & e2 & H2 & Hw2 & Hk2).
    destruct (decide (id2 = id)) as [->|Hne].
    + rewrite H2 in He'. injection He' as ->. apply Hkey. rewrite <- Hk2, Hk. done.
    + rewrite Ho in H2 by done. apply Hne. eapply (law_key_unique (store s)); eauto; congruence.
  - split_and!; done.
Qed.
End LawfulProps.

Section RecoveryProps.
Context {V W S : Type} `{!Store S}.

(** C3: recovery works from the record alone. It calls no [Invoke], writes one terminal status,
    and compensates either nothing, when the chain cannot be rebuilt, or exactly the steps whose
    record says they hold work, from the highest index down. The latter only when every record still
    names its step in the definition and the step after the last record, if there is one, is not a
    recovery blocker: that step may have run without leaving a record. *)
Theorem recovery_chain (wf : Workflow V W) exec o env (s : St V W S) :
  let '((terminal, e), _, t) := recoverExecution wf exec o env s in
  let records := SortFunc cmp_index (ex_Steps exec) in
  terminal = true /\ invokes t = [] /\
  ((compensates t = [] /\ statuses t = [(ex_ID exec, StatusCompensationFailed)] /\
    exists f, e = Some f /\ KindOf f = KindConflict) \/
   (compensated t = reverse (held_indices records) /\ StronglySorted (flip Z.le) (compensated t) /\
    (forall i st, (exists r, last records = Some r /\ sr_Index r + 1 = i) ->
       live_steps wf !! Z.to_nat i = Some st -> BlocksRecovery st = false) /\
    Forall (record_fits (live_steps wf)) (ex_Steps exec) /\
    ((hanging t = [] /\ e = None /\ statuses t = [(ex_ID exec, StatusFailed)]) \/
     (hanging t <> [] /\ statuses t = [(ex_ID exec, StatusCompensationFailed)] /\
      exists f, e = Some f /\ KindOf f = KindInternal)))).
Proof.
  destruct (recoverExecution wf exec o env s) as [[[b e] s'] t] eqn:He.
  apply recoverExecution_inv in He as (-> & Hi & Hend). split_and!; try done.
  destruct Hend as [(Hc & Hs & f & ? & ? & _)|(Hc & Hfit & Hb & Hend)]; [left; by eauto 10|right].
  rewrite Hc. split; [done|]. split.
  { apply StronglySorted_reverse, held_indices_sorted, SortFunc_sorted; apply _. }
  split.
  { intros i st (r & Hlast & <-) Hst. unfold checkRecoveryBoundary in Hb. rewrite Hlast in Hb.
    apply lookup_lt_Some in Hst as Hlt.
    destruct (_ <=? _) eqn:Hle; [lia|]. rewrite Hst in Hb. by destruct (BlocksRecovery st). }
  split; [done|]. destruct Hend as [?|(? & ? & f & ? & ? & _)]; [by left|right; by eauto 10].
Qed.
End RecoveryProps.

(** ** The in-memory store and the options *)

(** The states of the in-memory store any sequence of its operations leads to, refused ones
    included. *)
Inductive reachable : memoryStore -> Prop :=
| reach_new : reachable NewMemoryStore
| reach_create s exec : reachable s -> reachable (Create exec s).2
| reach_claim s now id seen : reachable s -> reachable (ClaimAbandoned now id seen s).2
| reach_append s now id rec : reachable s -> reachable (AppendStep now id rec s).2
| reach_update s now id status out f : reachable s -> reachable (UpdateStatus now id status out f s).2.

(** In every state the in-memory store can reach, an idempotency key names exactly the one
    execution of its workflow that holds it: reading by the key finds that record, and when none
    holds it reading answers "not found". *)
Theorem memory_store_keys s workflow key (Hr : reachable s) (Hkey : key <> EmptyString) :
  match (FindByIdempotencyKey workflow key s).1 with
  | Ok (Some e) =>
      forall id e', byID s !! id = Some e' -> ex_Workflow e' = workflow ->
        ex_IdempotencyKey e' = key -> id = ex_ID e /\ e' = e
  | Ok None => False
  | Fail er => KindOf er = KindNotFound /\ ~ holds_key (byID s) workflow key
  end.
Proof.
  assert (memory_ok s) as Hok.
  { induction Hr as [|s exec _ IH|s now id seen _ IH|s now id rec _ IH|s now id status out f _ IH].
    - apply memory_ok_new.
    - by apply memory_ok_Create.
    - pose proof (ClaimAbandoned_spec s now id seen IH) as Hc. destruct (ClaimAbandoned _ _ _ _). by destruct Hc.
    - pose proof (AppendStep_spec s now id rec IH) as Ha. destruct (AppendStep _ _ _ _). by destruct Ha.
    - pose proof (UpdateStatus_spec s now id status out f IH) as Hu.
      destruct (UpdateStatus _ _ _ _ _ _). by destruct Hu. }
  pose proof (Find_spec s workflow key Hok) as Hf.
  destruct (FindByIdempotencyKey workflow key s) as [[[e|]|er] s']; destruct Hf as [-> Hf];
    specialize (Hf Hkey); [|done|done].
  destruct Hf as (He & Hw & Hk). intros id e' He' Hw' Hk'.
  assert (id = ex_ID e) as -> by (eapply memory_key_unique; eauto; congruence).
  split; [done|congruence].
Qed.

(** The options the package offers. *)
Inductive offered : RunOption -> Prop :=
| offered_key k : offered (WithIdempotencyKey k)
| offered_retry p : offered (WithRetry p)
| offered_compensation p : offered (WithCompensationRetry p)
| offered_lease d : offered (WithLease d)
| offered_compensation_timeout d : offered (WithCompensationTimeout d)
| offered_store_timeout d : offered (WithStoreTimeout d)
| offered_nil : offered None.

(** A policy the engine can follow. *)
Definition sound_policy (p : RetryPolicy) : Prop :=
  p = NoRetry \/
  (1 <= rp_MaxAttempts p /\ 0 <= rp_Backoff p /\ 0 <= rp_MaxBackoff p /\
   IsNaN (rp_Multiplier p) = false /\ SFltb (rp_Multiplier p) float_one = false).

Lemma normalize_sound p what q : normalize p what = Ok q -> sound_policy q.
Proof.
  unfold normalize. intros H. result_inv. apply orb_false_iff in E2 as [_ Hnan].
  destruct (SFltb (rp_Multiplier p) float_one) eqn:Hm; injection H as <-; right; simpl;
    split_and!; try lia; done.
Qed.

Definition sound_options (o : runOptions) : Prop :=
  sound_policy (ro_retry o) /\ sound_policy (ro_compensationRetry o) /\
  0 < ro_compensationTimeout o /\ 0 < ro_storeTimeout o /\
  len (ro_idempotencyKey o) <= MaxIdempotencyKeyLen.

Lemma option_sound f o o' :
  offered (Some f) -> sound_options o -> f o = Ok o' -> sound_options o'.
Proof.
  unfold sound_options. intros Hopt (? & ? & ? & ? & ?) Hf.
  inversion Hopt; subst f; clear Hopt; try case_bool_decide; result_inv; try done; subst o';
    simpl; split_and!; eauto using normalize_sound with lia.
Qed.

Lemma apply_options_sound opts o o' :
  Forall offered opts -> sound_options o -> apply_options opts o = Ok o' -> sound_options o'.
Proof.
  intros Hall. revert o. induction Hall as [|[f|] opts Hopt _ IH]; intros o Ho H;
    cbn [apply_options] in H; [by injection H as <-| |done].
  result_inv. eauto using option_sound.
Qed.

(** Options that are accepted can be run with: both retry policies allow at least one attempt,
    wait a non-negative time and grow by a multiplier of at least one that is a number, both
    timeouts are positive and the key fits its bound; and without [WithCompensationRetry] the
    compensations are retried like the steps. *)
Theorem newRunOptions_sound opts (Hopts : Forall offered opts) :
  forall o, newRunOptions opts = Ok o ->
  sound_policy (ro_retry o) /\ sound_policy (ro_compensationRetry o) /\
  0 < ro_compensationTimeout o /\ 0 < ro_storeTimeout o /\
  len (ro_idempotencyKey o) <= MaxIdempotencyKeyLen /\
  (ro_compensationRetrySet o = false -> ro_compensationRetry o = ro_retry o).
Proof.
  unfold newRunOptions. intros o H.
  destruct (apply_options _ _) as [o'|] eqn:Ha; simpl in H; [|done].
  apply apply_options_sound in Ha as (? & ? & ? & ? & ?); [|done|].
  - destruct (ro_compensationRetrySet o') eqn:Hs; injection H as <-; simpl; split_and!; auto; congruence.
  - split_and!; simpl; try (by left); done.
Qed.

(** ** Runs the properties hold at *)

Definition sample_run := Run Ok Sample.wf "in"%string Sample.keyed Sample.env Sample.start.

Lemma Run_idempotent_witness :
  exists s3 t2,
    Run Ok Sample.wf_bad "other"%string [WithIdempotencyKey "k1"] Sample.env sample_run.1.2
      = (Ok "charge"%string, s3, t2) /\
    store s3 = store sample_run.1.2 /\ invokes t2 = [] /\ compensates t2 = [].
Proof.
  eapply (Run_idempotent Ok Sample.wf Sample.wf_bad "in"%string "other"%string Sample.keyed
    [WithIdempotencyKey "k1"] Sample.env Sample.env Sample.start);
    try (vm_compute; reflexivity).
  - exact memory_ok_new.
  - vm_compute. discriminate.
Defined.

Lemma engine_keeps_store_witness :
  memory_ok (store (Run Ok Sample.wf_bad "in"%string Sample.keyed Sample.env Sample.start).1.2) /\
  memory_ok (store (Recover Sample.wf_bad "x" Sample.keyed Sample.env Sample.start).1.2).
Proof. exact (engine_keeps_store Ok Sample.wf_bad "in"%string Sample.keyed "x" Sample.env Sample.start memory_ok_new). Defined.

Definition sample_exec : Execution :=
  mkExecution "id1" "order" "k1" StatusRunning "null" EmptyString EmptyString [] 5 5.

Definition sample_store : memoryStore := (Create (Some sample_exec) NewMemoryStore).2.

Lemma sample_store_ok : memory_ok sample_store.
Proof. apply memory_ok_Create, memory_ok_new. Qed.

Definition sample_claiming : St string (list string) memoryStore :=
  mkSt [] sample_store (sc Sample.start) 9.

Lemma claim_exclusive_witness :
  let s1 := sample_claiming in
  let s2 := (claimAbandoned sample_exec Sample.env s1).1.2 in
  (claimAbandoned sample_exec Sample.env s1).1.1 = claimWon /\
  (claimAbandoned sample_exec Sample.env s2).1.1 <> claimWon.
Proof.
  split; [vm_compute; reflexivity|].
  eapply (claim_exclusive sample_exec Sample.env Sample.env
    sample_claiming).
  - by eexists.
  - exact sample_store_ok.
  - vm_compute. discriminate.
  - vm_compute. reflexivity.
  - vm_compute. reflexivity.
Defined.

Lemma execute_leaves_record_witness :
  let '(r, s', t) := execute Ok Sample.wf_bad "in"%string "id1" 
      (mkRunOptions "k1" NoRetry NoRetry second second 0 false) Sample.env
      (mkSt [] sample_store (sc Sample.start) 0) in
  hanging t = [] /\ ~ holds_key (byID (store s')) "order" "k1".
Proof.
  pose proof (execute_leaves_record Ok Sample.wf_bad "in"%string "id1"
    (mkRunOptions "k1" NoRetry NoRetry second second 0 false) Sample.env
    (mkSt [] sample_store (sc Sample.start) 0) sample_exec sample_store_ok eq_refl
    (fun E => ltac:(discriminate E))) as H.
  destruct (execute _ _ _ _ _ _ _) as [[r s'] t] eqn:He.
  assert (is_ok r = false) as Hr.
  { apply (f_equal (fun x => is_ok x.1.1)) in He. vm_compute in He. exact (eq_sym He). }
  assert (ex_Status <$> (byID (store s') !! "id1"%string) = Some StatusFailed) as Hs.
  { apply (f_equal (fun x => ex_Status <$> (byID (store x.1.2) !! "id1"%string))) in He.
    vm_compute in He. exact (eq_sym He). }
  destruct H as (_ & e' & He' & _ & [(Hr' & _)|[(_ & Hh & _ & Hn)|(_ & Hst & _)]]).
  - congruence.
  - exact (conj Hh Hn).
  - simpl in He'. rewrite He' in Hs. simpl in Hs. congruence.
Defined.

Lemma memory_store_keys_witness :
  byID sample_store !! "id1"%string = Some sample_exec /\
  ("id1"%string = ex_ID sample_exec /\ sample_exec = sample_exec).
Proof.
  split; [reflexivity|].
  exact (memory_store_keys sample_store "order" "k1"
    (reach_create _ (Some sample_exec) reach_new) (fun H => ltac:(discriminate H))
    "id1"%string sample_exec eq_refl eq_refl eq_refl).
Defined.

Lemma newRunOptions_sound_witness :
  match newRunOptions Sample.keyed with
  | Ok o => sound_policy (ro_retry o) /\ rp_MaxAttempts (ro_retry o) = 2
  | Fail _ => False
  end.
Proof.
  assert (Forall offered Sample.keyed) as Hall by repeat constructor.
  pose proof (newRunOptions_sound Sample.keyed Hall) as H.
  split; [exact (proj1 (H _ eq_refl))|reflexivity].
Defined.
