(* ===== verification/WorkflowParallel.v ===== *)
(** * Concurrent branches: [parallel.go] of [internal/core/workflow]

    A branch is a program of atomic acts on the outside world ([Act]); the goroutines of a composite are an
    interleaving of their branches' acts. Which one is the scheduler's choice ([Schedule]), and so is the
    order in which the failures of compensations arrive under the mutex.

    Deadlines are the branches' own business, as everywhere in the engine's model: [WithRollbackTimeout] and
    the contexts are not modelled, nor is logging. *)
From S2P Require Import Prelude GoText Errors Workflow WorkflowStore WorkflowEngine.

(** ** Programs and their interleavings *)

Inductive Act (W R : Type) :=
| Done (r : R)
| Do (act : W -> W) (rest : W -> Act W R).
Arguments Done {W R} r.
Arguments Do {W R} act rest.

Section Acts.
Context {W R : Type}.
Implicit Types a b : Act W R.

(** [act] is what the world becomes, [rest] what follows for what was found in it. *)

(** A program alone. *)
Fixpoint runs a (w : W) : W * R :=
  match a with
  | Done r => (w, r)
  | Do act rest => runs (rest w) (act w)
  end.

(** One act of the [i]-th program, if it has one left. *)
Definition turn (i : nat) (l : list (Act W R)) (w : W) : list (Act W R) * W :=
  match l !! i with
  | Some (Do act rest) => (<[i := rest w]> l, act w)
  | _ => (l, w)
  end.

(** What is left, one program after the other. *)
Fixpoint finish (l : list (Act W R)) (w : W) : list R * W :=
  match l with
  | [] => ([], w)
  | a :: rest =>
      let '(w1, r) := runs a w in
      let '(rs, w2) := finish rest w1 in
      (r :: rs, w2)
  end.

(** The programs until all are done, the turns taken as they come. *)
Fixpoint interleave (turns : list nat) (l : list (Act W R)) (w : W) : list R * W :=
  match turns with
  | [] => finish l w
  | i :: rest => let '(l1, w1) := turn i l w in interleave rest l1 w1
  end.
End Acts.

(** The scheduler: whose turn it is in each of the concurrent phases, and in which order failures arrive. *)
Record Schedule := mkSchedule {
  sch_invoke : list nat;
  sch_compensate : list nat;
  sch_arrival : list err -> list err;
  sch_arrives : forall l, sch_arrival l ≡ₚ l
}.

(** ** The composite *)

Record Branch (V W : Type) := mkBranch {
  br_Name : string;
  br_Invoke : StepContext V -> Act W (outcome V * StepContext V);
  br_Compensate : StepContext V -> Act W (outcome unit * StepContext V)
}.
Arguments mkBranch {V W}.
Arguments br_Name {V W}.
Arguments br_Invoke {V W}.
Arguments br_Compensate {V W}.

(** A nil branch is [None]. *)
Record ParallelStep (V W : Type) := mkParallelStep {
  pa_name : string;
  pa_branches : list (option (Branch V W))
}.
Arguments mkParallelStep {V W}.
Arguments pa_name {V W}.
Arguments pa_branches {V W}.

Section Parallel.
Context {V W : Type}.
(** [reflect.DeepEqual], and a [[]any] as a value. *)
Context (DeepEqual : V -> V -> bool) (slice : list V -> V).

Definition NewParallel (name : string) (branches : list (option (Branch V W))) : ParallelStep V W :=
  mkParallelStep name branches.

Definition branchContext (parent : StepContext V) (shared : gmap string V) (name : string) (index : Z) : StepContext V :=
  mkStepContext (sc_Input parent) shared (sc_ExecutionID parent) (sc_Workflow parent) name index (sc_Attempt parent).

Fixpoint validate_branches (name : string) (i : Z) (l : list (option (Branch V W))) : option err :=
  match l with
  | [] => None
  | None :: _ =>
      Some (Invalid CodeInvalidWorkflow "branch %d of the %q concurrent composite is nil" [AInt i; AStr name])
  | Some b :: rest =>
      if bool_decide (br_Name b = EmptyString)
      then Some (Invalid CodeInvalidWorkflow "the name of branch %d of the %q concurrent composite is empty"
        [AInt i; AStr name])
      else validate_branches name (i + 1) rest
  end.

Definition validate (p : ParallelStep V W) : option err :=
  if bool_decide (pa_name p = EmptyString)
  then Some (Invalid CodeInvalidWorkflow "the concurrent composite step's name cannot be empty" [])
  else match pa_branches p with
  | [] => Some (Invalid CodeInvalidWorkflow "the %q concurrent composite has no branches" [AStr (pa_name p)])
  | l => validate_branches (pa_name p) 0 l
  end.

(** The branches of a validated composite, each with its index. *)
Definition live_branches (p : ParallelStep V W) : list (Z * Branch V W) :=
  imap (fun i b => (Z.of_nat i, b)) (omap id (pa_branches p)).

Definition branch_invoke (sc : StepContext V) (b : Z * Branch V W) : Act W (outcome V * StepContext V) :=
  br_Invoke b.2 (branchContext sc (sc_Shared sc) (br_Name b.2) b.1).

Definition branch_compensate (sc : StepContext V) (b : Z * Branch V W) : Act W (outcome unit * StepContext V) :=
  br_Compensate b.2 (branchContext sc (sc_Shared sc) (br_Name b.2) b.1).

(** The keys a branch changed, over the parent's map. *)
Definition changed (snapshot : gmap string V) (kv : string * V) : bool :=
  match snapshot !! kv.1 with Some old => negb (DeepEqual old kv.2) | None => true end.

Definition mergeShared (dst snapshot branch : gmap string V) : gmap string V :=
  filter (fun kv => changed snapshot kv = true) branch ∪ dst.

Fixpoint first_refused (failures : list err) : option err :=
  match failures with
  | [] => None
  | f :: rest => if DefaultRetryable (Some f) then first_refused rest else Some f
  end.

Definition combineBranchErrors (name : string) (failures : list err) : err :=
  let joined := Joined failures in
  let kind := match first_refused failures with Some f => KindOf f | None => KindOf joined end in
  wrap joined kind CodeParallelBranchFailed "the %q concurrent composite step failed" [AStr name].

Definition compensation_failure (p : ParallelStep V W) (b : Branch V W) (r : outcome unit * StepContext V) : option err :=
  match safely "Compensate" r.2 r.1 with
  | Ok _ => None
  | Fail e => Some (wrap e (KindOf e) CodeCompensationFailed
      "the compensation of the %q branch of the %q composite failed" [AStr (br_Name b); AStr (pa_name p)])
  end.

Definition compensateBranches (s : Schedule) (p : ParallelStep V W) (sc : StepContext V) (l : list (Z * Branch V W))
    (w : W) : option err * W :=
  let '(rs, w1) := interleave (sch_compensate s) (branch_compensate sc <$> l) w in
  let failures := omap id (zip_with (fun b r => compensation_failure p b.2 r) l rs) in
  (Join (Some <$> SortFunc (cmp_on ErrorText cmpS) (sch_arrival s failures)), w1).

Definition rollback (s : Schedule) (p : ParallelStep V W) (sc : StepContext V) (succeeded : list (Z * Branch V W))
    (w : W) : option err * W :=
  match succeeded with
  | [] => (None, w)
  | _ =>
      match compensateBranches s p sc succeeded w with
      | (None, w1) => (None, w1)
      | (Some e, w1) => (Some (wrap (Joined [ErrUncompensated; e]) KindInternal CodeCompensationFailed
          "the inner rollback of the %q concurrent composite could not be completed; A HUMAN IS NEEDED"
          [AStr (pa_name p)]), w1)
      end
  end.

(** A branch's answer, its panic recovered. *)
Definition branch_answer (r : outcome V * StepContext V) : result V := safely "Invoke" r.2 r.1.

Definition branch_failure (p : ParallelStep V W) (b : Branch V W) (r : outcome V * StepContext V) : option err :=
  match branch_answer r with
  | Ok _ => None
  | Fail e => Some (wrap e (KindOf e) CodeParallelBranchFailed
      "the %q branch of the %q composite failed" [AStr (br_Name b); AStr (pa_name p)])
  end.

Definition with_shared (sc : StepContext V) (shared : gmap string V) : StepContext V :=
  mkStepContext (sc_Input sc) shared (sc_ExecutionID sc) (sc_Workflow sc) (sc_StepName sc) (sc_StepIndex sc) (sc_Attempt sc).

Definition is_returned (r : outcome V * StepContext V) : Prop := is_ok (branch_answer r) = true.
#[export] Instance is_returned_dec r : Decision (is_returned r).
Proof. unfold is_returned. apply _. Defined.

Definition par_Invoke (s : Schedule) (p : ParallelStep V W) (sc : StepContext V) (w : W)
    : outcome V * StepContext V * W :=
  match validate p with
  | Some e => (Errored e, sc, w)
  | None =>
      let l := live_branches p in
      let '(rs, w1) := interleave (sch_invoke s) (branch_invoke sc <$> l) w in
      match omap id (zip_with (fun b r => branch_failure p b.2 r) l rs) with
      | [] =>
          (Returned (slice (omap (fun r => match branch_answer r with Ok v => Some v | Fail _ => None end) rs)),
           with_shared sc (foldl (fun dst r => mergeShared dst (sc_Shared sc) (sc_Shared r.2)) (sc_Shared sc) rs), w1)
      | failures =>
          let succeeded := fst <$> filter (fun br => is_returned br.2) (zip l rs) in
          let '(rerr, w2) := rollback s p sc succeeded w1 in
          (Errored (combineBranchErrors (pa_name p) (failures ++ option_list rerr)), sc, w2)
      end
  end.

Definition par_Compensate (s : Schedule) (p : ParallelStep V W) (sc : StepContext V) (w : W)
    : outcome unit * StepContext V * W :=
  match validate p with
  | Some e => (Errored e, sc, w)
  | None =>
      match compensateBranches s p sc (live_branches p) w with
      | (None, w1) => (Returned tt, sc, w1)
      | (Some e, w1) => (Errored e, sc, w1)
      end
  end.

(** To the engine the composite is one step. *)
Definition composite (s : Schedule) (p : ParallelStep V W) : Step V W :=
  mkStep (pa_name p) (par_Invoke s p) (par_Compensate s p) None false.
End Parallel.

(** * Branches that do not touch each other

    Two programs are [apart] when their acts commute and neither sees the other's. The interleaving of
    programs that are pairwise apart is the same as one after the other, and what one does can be undone
    although the others ran meanwhile. *)

(** ** Acts *)

Section Apart.
Context {W : Type}.

(** A property of every act of a program, wherever it goes. *)
Fixpoint every {R} (P : (W -> W) -> (W -> Act W R) -> Prop) (a : Act W R) : Prop :=
  match a with
  | Done _ => True
  | Do act rest => P act rest /\ forall w, every P (rest w)
  end.

Definition commute {R R'} (act : W -> W) (rest : W -> Act W R) (act' : W -> W) (rest' : W -> Act W R') : Prop :=
  forall w, act' (act w) = act (act' w) /\ rest (act' w) = rest w /\ rest' (act w) = rest' w.

Definition apart {R R'} (a : Act W R) (b : Act W R') : Prop :=
  every (fun act rest => every (commute act rest) b) a.

Lemma every_mono {R} (P Q : (W -> W) -> (W -> Act W R) -> Prop) a :
  (forall act rest, P act rest -> Q act rest) -> every P a -> every Q a.
Proof. intros H. induction a as [r|act rest IH]; [done|]. intros [H1 H2]. split; [by apply H|]. intros w. by apply IH. Qed.

Lemma apart_rest_l {R R'} act (rest : W -> Act W R) (b : Act W R') w : apart (Do act rest) b -> apart (rest w) b.
Proof. intros [_ H]. apply H. Qed.

Lemma apart_rest_r {R R'} (a : Act W R) act (rest : W -> Act W R') w : apart a (Do act rest) -> apart a (rest w).
Proof. apply every_mono. intros f k [_ H]. apply H. Qed.

(** An act before a program that commutes with it. *)
Lemma act_runs {R R'} act (rest : W -> Act W R) (b : Act W R') : every (commute act rest) b -> forall w,
  runs b (act w) = (act (runs b w).1, (runs b w).2) /\ rest (runs b w).1 = rest w.
Proof.
  induction b as [r|act' rest' IH]; [done|]. intros [H1 H2] w. destruct (H1 w) as (E1 & E2 & E3). cbn.
  rewrite E3, E1. destruct (IH w (H2 w) (act' w)) as [-> ->]. done.
Qed.

(** Two programs in either order. *)
Lemma runs_swap {R R'} (a : Act W R) (b : Act W R') : apart a b -> forall w,
  runs a (runs b w).1 = ((runs b (runs a w).1).1, (runs a w).2) /\ (runs b (runs a w).1).2 = (runs b w).2.
Proof.
  induction a as [r|act rest IH]; [done|]. intros [H1 H2] w. cbn.
  destruct (act_runs act rest b H1 w) as [E1 ->]. destruct (IH w (H2 w) (act w)) as [E2 E3].
  rewrite E1 in E2, E3. cbn in E2, E3. by rewrite E2, E3.
Qed.

Definition pairwise_apart {R} (l : list (Act W R)) : Prop :=
  forall i j a b, i <> j -> l !! i = Some a -> l !! j = Some b -> apart a b.

Lemma pairwise_tail {R} a (l : list (Act W R)) : pairwise_apart (a :: l) -> pairwise_apart l.
Proof. intros H i j x y Hij Hi Hj. apply (H (S i) (S j)); [lia|done..]. Qed.

Lemma pairwise_turn {R} i (l : list (Act W R)) act rest w : l !! i = Some (Do act rest) -> pairwise_apart l ->
  pairwise_apart (<[i := rest w]> l).
Proof.
  intros Hi H j k a b Hjk Hj Hk. destruct (decide (j = i)) as [->|Hji], (decide (k = i)) as [->|Hki]; [done|..].
  - rewrite list_lookup_insert_eq in Hj by by eapply lookup_lt_Some. injection Hj as <-. rewrite list_lookup_insert_ne in Hk by done.
    eapply apart_rest_l, (H i k); done.
  - rewrite list_lookup_insert_eq in Hk by by eapply lookup_lt_Some. injection Hk as <-. rewrite list_lookup_insert_ne in Hj by done.
    eapply apart_rest_r, (H j i); done.
  - rewrite list_lookup_insert_ne in Hj, Hk by done. by apply (H j k).
Qed.

(** A turn more or less before all are finished. *)
Lemma finish_turn {R} i (l : list (Act W R)) : pairwise_apart l -> forall w act rest, l !! i = Some (Do act rest) ->
  finish (<[i := rest w]> l) (act w) = finish l w.
Proof.
  revert i. induction l as [|a l IH]; intros i H w act rest Hi; [done|]. destruct i as [|i].
  - injection Hi as ->. reflexivity.
  - cbn in Hi. assert (Ha : every (commute act rest) a).
    { destruct (H (S i) 0%nat (Do act rest) a ltac:(lia) Hi eq_refl) as [Ha _]. exact Ha. }
    destruct (act_runs act rest a Ha w) as [E1 E2]. change (<[S i := rest w]> (a :: l)) with (a :: <[i := rest w]> l).
    cbn [finish]. rewrite E1.
    destruct (runs a w) as [w1 r] eqn:Er. cbn [fst snd] in *. rewrite <- E2.
    by rewrite (IH i (pairwise_tail _ _ H) w1 act rest Hi).
Qed.

(** Every interleaving is one after the other. *)
Lemma interleave_apart {R} turns : forall (l : list (Act W R)) w, pairwise_apart l -> interleave turns l w = finish l w.
Proof.
  induction turns as [|i turns IH]; intros l w H; [done|]. cbn. unfold turn.
  destruct (l !! i) as [[r|act rest]|] eqn:Hi; [by apply IH| |by apply IH].
  rewrite (IH _ _ (pairwise_turn i l act rest w Hi H)). by apply finish_turn.
Qed.

(** Apart from all of a list. *)
Lemma finish_swap {R R'} (a : Act W R) (l : list (Act W R')) : Forall (apart a) l -> forall w,
  (finish l (runs a w).1).1 = (finish l w).1 /\ runs a (finish l w).2 = ((finish l (runs a w).1).2, (runs a w).2).
Proof.
  induction 1 as [|b l Hb _ IH]; intros w; [split; [done|apply surjective_pairing]|]. cbn.
  destruct (runs_swap a b Hb w) as [E1 E2]. destruct (runs b w) as [w1 r] eqn:Eb. cbn [fst snd] in *.
  destruct (runs b (runs a w).1) as [w2 r2] eqn:Eb2. cbn [fst snd] in *. subst r2.
  destruct (IH w1) as [I1 I2]. rewrite E1 in I1, I2. cbn [fst snd] in I1, I2.
  destruct (finish l w1) as [rs w3]. destruct (finish l w2) as [rs' w4]. cbn [fst snd] in *. by rewrite I1, I2.
Qed.
End Apart.

(** ** The branches of a composite *)

Section Composite.
Context {V W : Type} (DeepEqual : V -> V -> bool) (slice : list V -> V).
(** [sc] is what the branches are given, [rc] what their compensations are. *)
Context (p : ParallelStep V W) (sc rc : StepContext V).

Abbreviation inv := (branch_invoke sc).
Abbreviation comp := (branch_compensate rc).
Abbreviation returned := (fun br : (Z * Branch V W) * (outcome V * StepContext V) => is_returned br.2).

(** What a composite's branches have to be for it to leave nothing behind: apart from one another, each
    undone by its compensation, and a failed one without effect. The inner rollback hands a compensation
    the parent's map ([rc] is [sc] then): it has to find its work without what its own branch wrote there. *)
Record separate : Prop := mkSeparate {
  separate_invokes : forall b b', b ∈ live_branches p -> b' ∈ live_branches p -> b.1 <> b'.1 -> apart (inv b) (inv b');
  separate_compensates : forall b b', b ∈ live_branches p -> b' ∈ live_branches p -> b.1 <> b'.1 -> apart (comp b) (comp b');
  separate_undo : forall b b', b ∈ live_branches p -> b' ∈ live_branches p -> b.1 <> b'.1 -> apart (comp b) (inv b');
  undone_by : forall b, b ∈ live_branches p -> forall w, is_returned (runs (inv b) w).2 ->
    exists c, runs (comp b) (runs (inv b) w).1 = (w, (Returned tt, c));
  failed_clean : forall b, b ∈ live_branches p -> forall w, ~ is_returned (runs (inv b) w).2 -> (runs (inv b) w).1 = w
}.

Lemma live_indices : NoDup (live_branches p).*1.
Proof.
  apply NoDup_alt. intros i j x. unfold live_branches. rewrite !list_lookup_fmap, !list_lookup_imap.
  destruct (omap id (pa_branches p) !! i), (omap id (pa_branches p) !! j); try done. cbn. intros [= <-] [= E]. lia.
Qed.

Lemma pairwise_programs {R} (f : Z * Branch V W -> Act W R) l : NoDup l.*1 ->
  (forall b b', b ∈ l -> b' ∈ l -> b.1 <> b'.1 -> apart (f b) (f b')) -> pairwise_apart (f <$> l).
Proof.
  intros Hd H i j x y Hij. rewrite !list_lookup_fmap. destruct (l !! i) as [b|] eqn:Hi; [|done].
  destruct (l !! j) as [b'|] eqn:Hj; [|done]. intros [= <-] [= <-].
  apply H; [by eapply list_elem_of_lookup_2..|]. intros E. apply Hij. apply (NoDup_lookup _ i j b.1 Hd); rewrite list_lookup_fmap.
  - by rewrite Hi.
  - rewrite Hj. by rewrite E.
Qed.

Lemma succeeded_sublist (l : list (Z * Branch V W)) rs :
  (filter returned (zip l rs)).*1 `sublist_of` l.
Proof.
  revert rs. induction l as [|b l IH]; intros [|r rs]; [done|done|apply sublist_nil_l|]. cbn [zip zip_with].
  rewrite filter_cons. case_decide; cbn; [by apply sublist_skip|by apply sublist_cons].
Qed.

(** After all branches ran, the compensations of those that succeeded leave the world as it was. *)
Lemma undo_all (H : separate) l : (forall b, b ∈ l -> b ∈ live_branches p) -> NoDup l.*1 -> forall w rs w1,
  finish (inv <$> l) w = (rs, w1) -> exists cs, finish (comp <$> (filter returned (zip l rs)).*1) w1 = (cs, w) /\
  Forall (fun c => c.1 = Returned tt) cs.
Proof.
  induction l as [|b l IH]; intros Hl Hd w rs w1; [intros [= <- <-]; exists []; by split|]. cbn.
  apply NoDup_cons in Hd as [Hb Hd]. assert (Hl' : forall x, x ∈ l -> x ∈ live_branches p) by (intros; by apply Hl, list_elem_of_further).
  assert (Hbl : b ∈ live_branches p) by by apply Hl, list_elem_of_here.
  destruct (runs (inv b) w) as [w0 r] eqn:Er. destruct (finish (inv <$> l) w0) as [rs' w1'] eqn:Ef. intros [= <- <-].
  cbn [zip zip_with]. rewrite filter_cons. case_decide as Hr; cbn [snd] in Hr.
  - pose proof (undone_by H b Hbl w) as Hu. rewrite Er in Hu. destruct (Hu Hr) as [c Hc]. cbn [fst] in Hc.
    assert (Hs : Forall (apart (comp b)) (inv <$> l)).
    { apply Forall_fmap, Forall_forall. intros x Hx. apply (separate_undo H); [done|by apply Hl'|].
      intros E. apply Hb. rewrite E. by apply list_elem_of_fmap_2. }
    destruct (finish_swap (comp b) (inv <$> l) Hs w0) as [S1 S2]. rewrite Ef, Hc in S1, S2. cbn [fst snd] in S1, S2.
    destruct (finish (inv <$> l) w) as [rs2 w2] eqn:Ef2. cbn [fst snd] in S1, S2. subst rs2.
    destruct (IH Hl' Hd w rs' w2 Ef2) as (cs & Hcs & Hall). exists ((Returned tt, c) :: cs). cbn. rewrite S2, Hcs. by split; [|constructor].
  - pose proof (failed_clean H b Hbl w) as Hf. rewrite Er in Hf. cbn [fst] in Hf. rewrite (Hf Hr) in Ef. by apply (IH Hl' Hd w rs' w1').
Qed.

Lemma compensate_clean (H : separate) s l w w' cs : (forall b, b ∈ l -> b ∈ live_branches p) -> NoDup l.*1 ->
  finish (comp <$> l) w = (cs, w') -> Forall (fun c => c.1 = Returned tt) cs -> compensateBranches s p rc l w = (None, w').
Proof.
  intros Hl Hd Hf Hall. unfold compensateBranches.
  rewrite interleave_apart by (apply pairwise_programs; [done|]; intros; apply (separate_compensates H); auto).
  rewrite Hf. assert (E : omap id (zip_with (fun b r => compensation_failure p b.2 r) l cs) = []).
  { clear Hf Hl Hd. revert l. induction Hall as [|c cs Hc _ IH]; intros [|b l]; [done..|]. cbn.
    unfold compensation_failure at 1. rewrite Hc. cbn. apply IH. }
  rewrite E. assert (E' : sch_arrival s [] = []) by apply Permutation_nil_r, sch_arrives. by rewrite E'.
Qed.

Lemma rollback_clean (H : separate) s w rs w1 : finish (inv <$> live_branches p) w = (rs, w1) ->
  rollback s p rc (filter returned (zip (live_branches p) rs)).*1 w1 = (None, w).
Proof.
  intros Hf. destruct (undo_all H (live_branches p) (fun b Hb => Hb) live_indices w rs w1 Hf) as (cs & Hcs & Hall).
  pose proof (succeeded_sublist (live_branches p) rs) as Hsub. unfold rollback.
  destruct (filter returned (zip (live_branches p) rs)).*1 as [|b l] eqn:El; [by injection Hcs as _ <-|]. rewrite <- El in *.
  rewrite (compensate_clean H s _ w1 w cs); [done|..|done|done].
  - intros x Hx. by eapply elem_of_sublist.
  - eapply sublist_NoDup; [apply live_indices|]. by apply fmap_sublist.
Qed.
End Composite.
