(* ===== verification/WorkflowParallelProps.v ===== *)
(** * What a concurrent composite promises

    To the engine the composite is one step ([composite]), so all it is told of the branches is the step's
    answer. A composite whose branches keep apart answers as if they had run one after the other, and leaves
    nothing behind when one fails; its error may be retried when every branch's may and the rollback was
    clean, and [execute_saga] then settles the run by it; its map is merged key by key. *)
From S2P Require Import Prelude GoText Errors Workflow WorkflowStore WorkflowEngine WorkflowParallel.

Section Answers.
Context {V W : Type} (DeepEqual : V -> V -> bool) (slice : list V -> V).
Implicit Types (p : ParallelStep V W) (sc : StepContext V).

(** The branches one after the other. *)
Definition one_by_one p sc (w : W) : list (outcome V * StepContext V) * W :=
  finish (branch_invoke sc <$> live_branches p) w.

Definition failures_of p (rs : list (outcome V * StepContext V)) : list err :=
  omap id (zip_with (fun b r => branch_failure p b.2 r) (live_branches p) rs).

Definition outputs_of (rs : list (outcome V * StepContext V)) : list V :=
  omap (fun r => match branch_answer r with Ok v => Some v | Fail _ => None end) rs.

(** What a branch wrote under a key. *)
Definition wrote (snapshot : gmap string V) (k : string) (shared : gmap string V) : option V :=
  v ← shared !! k; if changed DeepEqual snapshot (k, v) then Some v else None.

(** The parent's map after the branches: the last write of a key, else what was there. *)
Definition last_write (snapshot : gmap string V) (k : string) (l : list (gmap string V)) : option V :=
  match last (omap (wrote snapshot k) l) with Some v => Some v | None => snapshot !! k end.

Lemma mergeShared_lookup dst snapshot branch k :
  mergeShared DeepEqual dst snapshot branch !! k =
    match wrote snapshot k branch with Some v => Some v | None => dst !! k end.
Proof.
  unfold mergeShared, wrote. rewrite lookup_union, map_lookup_filter. destruct (branch !! k) as [v|]; cbn.
  - destruct (changed DeepEqual snapshot (k, v)) eqn:E.
    + rewrite option_guard_True by done. cbn. by destruct (dst !! k).
    + rewrite option_guard_False by congruence. cbn. by destruct (dst !! k).
  - by destruct (dst !! k).
Qed.

Lemma merge_all snapshot (rs : list (outcome V * StepContext V)) k dst :
  foldl (fun dst r => mergeShared DeepEqual dst snapshot (sc_Shared r.2)) dst rs !! k =
    match last (omap (wrote snapshot k) ((fun r => sc_Shared r.2) <$> rs)) with Some v => Some v | None => dst !! k end.
Proof.
  revert dst. induction rs as [|r rs IH]; intros dst; [done|]. cbn [foldl fmap list_fmap]. rewrite IH, mergeShared_lookup. cbn.
  destruct (wrote snapshot k (sc_Shared r.2)) as [v|] eqn:E; [|done].
  rewrite last_cons. by destruct (last _).
Qed.

(** ** Retrying *)

Lemma retryable_typed f k code : DefaultRetryable (Some f) = true -> As f = Some (k, code) ->
  k = KindUnavailable \/ k = KindInternal.
Proof.
  unfold DefaultRetryable, KindOf. intros H E. rewrite E in H. destruct (_ || _); [done|]. destruct (_ || _); [done|].
  destruct k; auto; done.
Qed.

Lemma joined_retryable l : Forall (fun f => DefaultRetryable (Some f) = true) l -> DefaultRetryable (Some (Joined l)) = true.
Proof.
  intros H. unfold DefaultRetryable. rewrite !Is_Joined.
  assert (E : forall t, (forall f, DefaultRetryable (Some f) = true -> Is f t = false) -> existsb (fun e => Is e t) l = false).
  { intros t Ht. apply not_true_iff_false. rewrite existsb_exists. intros (f & Hf & Hi). rewrite Forall_forall in H.
    rewrite Ht in Hi; [done|]. apply H. by apply list_elem_of_In. }
  assert (Ef : forall f, DefaultRetryable (Some f) = true ->
    Is f panic_text = false /\ Is f uncompensated_text = false /\ Is f canceled_text = false /\ Is f deadline_text = false).
  { intros f. unfold DefaultRetryable. destruct (_ || _) eqn:H1; [done|]. destruct (_ || _) eqn:H2 in |- *; [done|].
    intros _. by apply orb_false_iff in H1 as [-> ->], H2 as [-> ->]. }
  rewrite !E by (intros f Hf; destruct (Ef f Hf) as (?&?&?&?); done). cbn. clear E Ef. unfold KindOf. cbn [As].
  induction H as [|f l Hf _ IH]; [done|]. cbn. destruct (As f) as [[k code]|] eqn:Ea; [|done].
  by destruct (retryable_typed f k code Hf Ea) as [-> | ->].
Qed.

Lemma joined_refused l f : f ∈ l -> DefaultRetryable (Some f) = false -> forall k code format a,
  KindOf f = k -> DefaultRetryable (Some (wrap (Joined l) k code format a)) = false.
Proof.
  intros Hin Hf k code format a Hk. unfold DefaultRetryable in *. autorewrite with errors.
  assert (E : forall t, Is f t = true -> existsb (fun e => Is e t) l = true).
  { intros t Ht. apply existsb_exists. exists f. split; [by apply list_elem_of_In|done]. }
  destruct (Is f panic_text || Is f uncompensated_text) eqn:E1.
  { apply orb_true_iff in E1 as [E1|E1]; rewrite (E _ E1), ?orb_true_r; done. }
  destruct (Is f canceled_text || Is f deadline_text) eqn:E2.
  { apply orb_true_iff in E2 as [E2|E2]; rewrite (E _ E2), ?orb_true_r; cbn [orb]; by repeat case_match. }
  rewrite Hk in Hf. destruct k; try done; by repeat case_match.
Qed.

Lemma combined_retryable name l : DefaultRetryable (Some (combineBranchErrors name l)) = forallb (fun f => DefaultRetryable (Some f)) l.
Proof.
  unfold combineBranchErrors. destruct (first_refused l) as [f|] eqn:E.
  - assert (f ∈ l /\ DefaultRetryable (Some f) = false) as [Hin Hf].
    { induction l as [|g l IH]; [done|]. cbn [first_refused] in E. destruct (DefaultRetryable (Some g)) eqn:Eg.
      - destruct (IH E). split; [by right|done].
      - injection E as ->. split; [by left|done]. }
    rewrite (joined_refused l f Hin Hf) by done. symmetry. apply not_true_iff_false. rewrite forallb_forall.
    intros Hall. rewrite Hall in Hf; [done|]. by apply list_elem_of_In.
  - assert (H : Forall (fun f => DefaultRetryable (Some f) = true) l).
    { induction l as [|g l IH]; [done|]. cbn [first_refused] in E. destruct (DefaultRetryable (Some g)) eqn:Eg; [|done]. auto. }
    transitivity true; [exact (joined_retryable l H)|]. symmetry. apply forallb_forall. intros f Hf.
    rewrite Forall_forall in H. apply H. by apply list_elem_of_In.
Qed.

(** A branch's failure keeps the retryability of what the branch answered. *)
Lemma branch_failure_retryable p b r e : branch_answer r = Fail e ->
  exists f, branch_failure p b r = Some f /\ DefaultRetryable (Some f) = DefaultRetryable (Some e) /\ forall t, Is f t = Is e t.
Proof. unfold branch_failure. intros ->. eexists. by split_and!. Qed.

Lemma outputs_all p rs : failures_of p rs = [] -> length rs = length (live_branches p) ->
  length (outputs_of rs) = length (live_branches p).
Proof.
  unfold failures_of, outputs_of. generalize (live_branches p) as l. intros l. revert rs.
  induction l as [|b l IH]; intros [|r rs]; [done..|]. cbn. unfold branch_failure at 1.
  destruct (branch_answer r) as [v|e]; [|done]. intros Hf [= Hl]. cbn. f_equal. by apply IH.
Qed.

Lemma all_returned p rs : failures_of p rs = [] -> length rs = length (live_branches p) ->
  (filter (fun br => is_returned br.2) (zip (live_branches p) rs)).*1 = live_branches p.
Proof.
  unfold failures_of. generalize (live_branches p) as l. intros l. revert rs.
  induction l as [|b l IH]; intros [|r rs]; [done..|]. cbn [zip_with omap list_omap]. unfold branch_failure at 1.
  destruct (branch_answer r) as [v|e] eqn:E; [|done]. intros Hf [= Hl].
  rewrite filter_cons_True by (unfold is_returned; cbn; by rewrite E). cbn. f_equal. by apply IH.
Qed.
End Answers.

Section Outcomes.
Context {V W : Type} (DeepEqual : V -> V -> bool) (slice : list V -> V).
Implicit Types (p : ParallelStep V W) (sc : StepContext V).

Lemma invoke_in_turn s p sc w : separate p sc sc -> interleave (sch_invoke s) (branch_invoke sc <$> live_branches p) w = one_by_one p sc w.
Proof.
  intros H. apply interleave_apart, pairwise_programs; [apply live_indices|]. intros. by apply (separate_invokes _ _ _ H).
Qed.

Lemma one_by_one_length p sc w rs w1 : one_by_one p sc w = (rs, w1) -> length rs = length (live_branches p).
Proof.
  unfold one_by_one. generalize (live_branches p) as l. intros l. revert w rs w1.
  induction l as [|b l IH]; intros w rs w1; cbn; [by intros [= <- <-]|].
  destruct (runs _ _) as [w2 r]. destruct (finish _ _) as [rs' w3] eqn:E. intros [= <- <-]. cbn. f_equal. by eapply IH.
Qed.

(** C4: A composite whose branches keep apart answers, whatever the scheduler does, as if they had run one
    after the other. When every branch succeeds its output is their outputs in order and a key of the shared
    map holds the last write of the branches that changed it; when one fails, the error joins the failures
    and both the context and the world are what they were before. *)
Theorem parallel_all_or_nothing s p sc w (Hv : validate p = None) (Hs : separate p sc sc) :
  let '(rs, w1) := one_by_one p sc w in
  match failures_of p rs with
  | [] => exists shared, par_Invoke DeepEqual slice s p sc w = (Returned (slice (outputs_of rs)), with_shared sc shared, w1) /\
      length (outputs_of rs) = length (live_branches p) /\
      forall k, shared !! k = last_write DeepEqual (sc_Shared sc) k ((fun r => sc_Shared r.2) <$> rs)
  | fs => par_Invoke DeepEqual slice s p sc w = (Errored (combineBranchErrors (pa_name p) fs), sc, w)
  end.
Proof.
  unfold par_Invoke. rewrite Hv, (invoke_in_turn s p sc w Hs). destruct (one_by_one p sc w) as [rs w1] eqn:Eo.
  fold (failures_of p rs). destruct (failures_of p rs) as [|f fs] eqn:Ef.
  - eexists. split; [done|]. split; [by eapply outputs_all, one_by_one_length|]. intros k. apply merge_all.
  - by rewrite (rollback_clean p sc sc Hs s w rs w1 Eo), app_nil_r.
Qed.

(** A composite that succeeded and is compensated later, the branches apart in the context of that
    moment, leaves the world as it found it and answers nil, whatever the scheduler does. *)
Theorem parallel_undone s s' p sc w v sc' w1 (Hv : validate p = None) (Hs : separate p sc sc) (Hs' : separate p sc sc')
    (Hr : par_Invoke DeepEqual slice s p sc w = (Returned v, sc', w1)) :
  par_Compensate s' p sc' w1 = (Returned tt, sc', w).
Proof.
  unfold par_Invoke in Hr. rewrite Hv, (invoke_in_turn s p sc w Hs) in Hr. destruct (one_by_one p sc w) as [rs w2] eqn:Eo.
  fold (failures_of p rs) in Hr. destruct (failures_of p rs) eqn:Ef; [|by destruct (rollback _ _ _ _ _)].
  injection Hr as _ Hc <-. unfold par_Compensate. rewrite Hv.
  destruct (undo_all p sc sc' Hs' (live_branches p) (fun b Hb => Hb) (live_indices p) w rs w2 Eo) as (cs & Hcs & Hall).
  rewrite (all_returned p rs Ef (one_by_one_length _ _ _ _ _ Eo)) in Hcs.
  by rewrite (compensate_clean p sc sc' Hs' s' (live_branches p) w2 w cs (fun b Hb => Hb) (live_indices p) Hcs Hall).
Qed.

(** Which branches the inner rollback undoes. *)
Definition succeeded_of p (rs : list (outcome V * StepContext V)) : list (Z * Branch V W) :=
  fst <$> filter (fun br => is_returned br.2) (zip (live_branches p) rs).

Lemma failures_each p (P : err -> Prop) rs :
  Forall P (failures_of p rs) <->
  forall b r f, (b, r) ∈ zip (live_branches p) rs -> branch_failure p b.2 r = Some f -> P f.
Proof.
  unfold failures_of. generalize (live_branches p) as l. intros l. revert rs. induction l as [|b l IH]; intros [|r rs]; cbn.
  1-3: (split; [intros _ ??? H; by apply elem_of_nil in H|by constructor]).
  destruct (branch_failure p b.2 r) as [f|] eqn:E; cbn.
  - rewrite Forall_cons, IH. split.
    + intros [H1 H2] b' r' f' [[= -> ->]|Hin]%elem_of_cons Hf; [congruence|by eapply H2].
    + intros H. split; [by eapply H; [by left|]|]. intros b' r' f' Hin. apply H. by right.
  - rewrite IH. split.
    + intros H b' r' f' [[= -> ->]|Hin]%elem_of_cons Hf; [congruence|by eapply H].
    + intros H b' r' f' Hin. apply H. by right.
Qed.

Lemma failures_retryable p rs :
  forallb (fun f => DefaultRetryable (Some f)) (failures_of p rs) = true <->
  forall b r f, (b, r) ∈ zip (live_branches p) rs -> branch_answer r = Fail f -> DefaultRetryable (Some f) = true.
Proof.
  rewrite forallb_forall. transitivity (Forall (fun f => DefaultRetryable (Some f) = true) (failures_of p rs)).
  { rewrite Forall_forall. by setoid_rewrite list_elem_of_In. }
  rewrite failures_each. split.
  - intros H b r f Hin Hf. destruct (branch_failure_retryable p b.2 r f Hf) as (g & Hg & <- & _). by eapply H.
  - intros H b r g Hin Hg. unfold branch_failure in Hg. destruct (branch_answer r) as [|f] eqn:Hf; [done|].
    destruct (branch_failure_retryable p b.2 r f Hf) as (g' & Hg' & E & _). unfold branch_failure in Hg'. rewrite Hf in Hg'.
    rewrite Hg in Hg'. injection Hg' as <-. rewrite E. by eapply H.
Qed.

Lemma rollback_marks s p sc l w e : (rollback s p sc l w).1 = Some e ->
  Is e uncompensated_text = true /\ DefaultRetryable (Some e) = false.
Proof.
  unfold rollback. destruct l; [done|]. destruct (compensateBranches _ _ _ _ _) as [[e'|] w1]; [|done]. cbn.
  intros [= <-]. assert (E : Is (Joined [ErrUncompensated; e']) uncompensated_text = true) by done. split; [exact E|].
  unfold DefaultRetryable. rewrite Is_wrap, Is_wrap, E, orb_true_r. done.
Qed.

(** When a composite fails the parent's context is as it was, and its error carries every sentinel of
    every failed branch. The error may be retried exactly when every branch that failed answered one that may
    and the inner rollback was clean; when it was not, the error says a side effect is left uncompensated. *)
Theorem composite_retry s p sc w e sc' w' (Hv : validate p = None)
    (Hr : par_Invoke DeepEqual slice s p sc w = (Errored e, sc', w')) :
  sc' = sc /\ exists rs w1, interleave (sch_invoke s) (branch_invoke sc <$> live_branches p) w = (rs, w1) /\
    let undone := (rollback s p sc (succeeded_of p rs) w1).1 in
    (forall b r f t, (b, r) ∈ zip (live_branches p) rs -> branch_answer r = Fail f -> Is f t = true -> Is e t = true) /\
    (DefaultRetryable (Some e) = true <-> undone = None /\
      forall b r f, (b, r) ∈ zip (live_branches p) rs -> branch_answer r = Fail f -> DefaultRetryable (Some f) = true) /\
    (undone <> None -> Is e uncompensated_text = true).
Proof.
  unfold par_Invoke in Hr. rewrite Hv in Hr. destruct (interleave _ _ _) as [rs w1]. fold (failures_of p rs) in Hr.
  destruct (failures_of p rs) as [|g gs] eqn:Ef; [done|]. fold (succeeded_of p rs) in Hr. rewrite <- Ef in Hr. clear g gs Ef.
  destruct (rollback s p sc (succeeded_of p rs) w1) as [rerr w2] eqn:Er. injection Hr as <- <- _.
  split; [done|]. exists rs, w1. split; [done|]. rewrite Er. cbn [fst]. rewrite combined_retryable, forallb_app, andb_true_iff, failures_retryable.
  split_and!.
  - intros b r f t Hin Hf Ht. destruct (branch_failure_retryable p b.2 r f Hf) as (g & Hg & _ & Hi).
    unfold combineBranchErrors. rewrite Is_wrap, Is_Joined, existsb_app, orb_true_iff. left. apply existsb_exists.
    exists g. split; [|by rewrite Hi]. apply list_elem_of_In.
    assert (H : Forall (fun f => f ∈ failures_of p rs) (failures_of p rs)) by by apply Forall_forall.
    by eapply (proj1 (failures_each p _ rs) H).
  - destruct rerr as [e'|]; [|cbn; tauto]. destruct (rollback_marks s p sc (succeeded_of p rs) w1 e') as [_ Hd]; [by rewrite Er|].
    cbn -[DefaultRetryable]. rewrite Hd. split; [by intros []|by intros []].
  - intros Hn. destruct rerr as [e'|]; [|done]. destruct (rollback_marks s p sc (succeeded_of p rs) w1 e') as [Hi _]; [by rewrite Er|].
    unfold combineBranchErrors. rewrite Is_wrap, Is_Joined, existsb_app. cbn. by rewrite Hi, !orb_true_r.
Qed.
End Outcomes.

(** ** A composite at work

    Two counters: units held, and cards left. [hold] takes a unit and writes down which; [charge] uses up a
    card if there is one. *)

Definition answer {R} (o : outcome R) (sc : StepContext Z) : Act (Z * Z) (outcome R * StepContext Z) := Done (o, sc).

Definition noted (sc : StepContext Z) (k : string) (v : Z) : StepContext Z := with_shared sc (<[k := v]> (sc_Shared sc)).

Definition hold : Branch Z (Z * Z) := mkBranch "hold"
  (fun sc => Do (fun w => (w.1 + 1, w.2)) (fun w => answer (Returned w.1) (noted sc "unit" w.1)))
  (fun sc => Do (fun w => (w.1 - 1, w.2)) (fun _ => answer (Returned tt) sc)).

Definition charge : Branch Z (Z * Z) := mkBranch "charge"
  (fun sc => Do (fun w => (w.1, if w.2 =? 0 then 0 else w.2 - 1))
     (fun w => answer (if w.2 =? 0 then Errored (Unavailable "no_card" "no card is left" []) else Returned w.2) sc))
  (fun sc => Do (fun w => (w.1, w.2 + 1)) (fun _ => answer (Returned tt) sc)).

(** [hold], its compensation looking for the unit where its invocation wrote it down. *)
Definition hold_noted : Branch Z (Z * Z) := mkBranch "hold" (br_Invoke hold)
  (fun sc => match sc_Shared sc !! "unit" with Some _ => br_Compensate hold sc | None => answer (Returned tt) sc end).

Definition both (h : Branch Z (Z * Z)) : ParallelStep Z (Z * Z) := NewParallel "both" [Some h; Some charge].

Definition parent : StepContext Z := mkStepContext (GoInput 0) ∅ "ex_1" "buy" "both" 0 1.

Definition in_order : Schedule := mkSchedule [] [] id (fun l => Permutation_refl l).

Definition turnwise : Schedule := mkSchedule [1%nat; 0%nat] [1%nat; 1%nat; 0%nat] id (fun l => Permutation_refl l).

Lemma live_both h : live_branches (both h) = [(0, h); (1, charge)].
Proof. done. Qed.

Lemma both_separate rc : separate (both hold) parent rc.
Proof.
  split; rewrite live_both.
  1-3: intros b b' Hb Hb' Hn; apply list_elem_of_In in Hb as [<-|[<-|[]]], Hb' as [<-|[<-|[]]]; try done;
    (split; [|done]); (split; [|done]); intros [x y]; by cbn.
  - intros b Hb [x y] Hr. apply list_elem_of_In in Hb as [<-|[<-|[]]]; eexists; cbn in *.
    + repeat f_equal. lia.
    + unfold is_returned, branch_answer in Hr. cbn in Hr. destruct (y =? 0); [done|]. repeat f_equal. lia.
  - intros b Hb [x y] Hr. apply list_elem_of_In in Hb as [<-|[<-|[]]]; cbn in *; [by destruct Hr|].
    unfold is_returned, branch_answer in Hr. cbn in Hr. destruct (y =? 0) eqn:E; [|by destruct Hr].
    apply Z.eqb_eq in E. by subst.
Qed.

(** C39: The inner rollback hands a compensation the parent's map, so a branch whose compensation looks for
    what its own invocation wrote there is not undone: here the unit stays held under every schedule, the
    context forgets which, and the error is retryable and speaks of nothing uncompensated. The same branch as
    a step of its own is undone. *)
Theorem rollback_forgets_own_write s :
  (let '(w, (_, sc)) := runs (br_Invoke hold_noted parent) (0, 0) in (runs (br_Compensate hold_noted sc) w).1 = (0, 0)) /\
  exists e, par_Invoke Z.eqb (fun l => foldr Z.add 0 l) s (both hold_noted) parent (0, 0) = (Errored e, parent, (1, 0)) /\
    Is e uncompensated_text = false /\ DefaultRetryable (Some e) = true.
Proof.
  split; [done|].
  assert (Hi : forall sc w, interleave (sch_invoke s) (branch_invoke sc <$> live_branches (both hold_noted)) w = one_by_one (both hold_noted) sc w).
  { intros sc w. apply interleave_apart, pairwise_programs; [apply live_indices|].
    intros b b' Hb Hb' Hn. apply list_elem_of_In in Hb as [<-|[<-|[]]], Hb' as [<-|[<-|[]]]; try done;
      (split; [|done]); (split; [|done]); intros [x y]; by cbn. }
  assert (Hc : forall w, interleave (sch_compensate s) (branch_compensate parent <$> [(0, hold_noted)]) w = ([(Returned tt, branchContext parent ∅ "hold" 0)], w)).
  { intros w. rewrite interleave_apart; [done|]. apply pairwise_programs; [apply NoDup_singleton|].
    intros b b' Hb Hb' Hn. apply list_elem_of_singleton in Hb, Hb'. by subst. }
  exists (combineBranchErrors "both" [wrap (Unavailable "no_card" "no card is left" []) KindUnavailable CodeParallelBranchFailed
    "the %q branch of the %q composite failed" [AStr "charge"; AStr "both"]]).
  split; [|by split]. unfold par_Invoke. replace (validate (both hold_noted)) with (@None err) by done. rewrite Hi.
  replace (one_by_one (both hold_noted) parent (0, 0)) with
    ([(Returned 0, noted (branchContext parent ∅ "hold" 0) "unit" 0);
      (Errored (Unavailable "no_card" "no card is left" []), branchContext parent ∅ "charge" 1)], (1, 0)) by done.
  assert (Hr : rollback s (both hold_noted) parent [(0, hold_noted)] (1, 0) = (None, (1, 0))).
  { unfold rollback, compensateBranches. rewrite Hc. cbn. assert (E : sch_arrival s [] = []) by apply Permutation_nil_r, sch_arrives. by rewrite E. }
  replace (fst <$> filter _ _) with [(0, hold_noted)] by done.
  by rewrite Hr.
Qed.

Lemma parallel_all_or_nothing_witness :
  par_Invoke Z.eqb (fun l => foldr Z.add 0 l) turnwise (both hold) parent (5, 0) =
    (Errored (combineBranchErrors "both" (failures_of (both hold) (one_by_one (both hold) parent (5, 0)).1)), parent, (5, 0)).
Proof. exact (parallel_all_or_nothing Z.eqb (fun l => foldr Z.add 0 l) turnwise (both hold) parent (5, 0) eq_refl (both_separate parent)). Defined.

Lemma parallel_undone_witness : exists sc', par_Compensate turnwise (both hold) sc' (6, 2) = (Returned tt, sc', (5, 3)).
Proof.
  exists (par_Invoke Z.eqb (fun l => foldr Z.add 0 l) turnwise (both hold) parent (5, 3)).1.2.
  apply (parallel_undone Z.eqb (fun l => foldr Z.add 0 l) in_order turnwise (both hold) parent (5, 3) 8);
    [reflexivity|apply both_separate|apply both_separate|reflexivity].
Defined.

Lemma composite_retry_witness :
  DefaultRetryable (Some (combineBranchErrors "both" (failures_of (both hold) (one_by_one (both hold) parent (5, 0)).1))) = true.
Proof.
  destruct (composite_retry Z.eqb (fun l => foldr Z.add 0 l) in_order (both hold) parent (5, 0) _ parent (5, 0) eq_refl eq_refl)
    as (_ & rs & w1 & Hi & _ & Hr & _).
  apply Hr. change ((one_by_one (both hold) parent (5, 0)) = (rs, w1)) in Hi. injection Hi as <- <-.
  split; [reflexivity|]. intros b r f Hin Hf. apply list_elem_of_In in Hin. destruct Hin as [E|[E|[]]]; injection E as <- <-; [discriminate Hf|].
  injection Hf as <-. reflexivity.
Defined.
