(* ===== verification/Condition.v ===== *)
(** * Rule conditions: [internal/core/condition/condition.go]

    One condition of a rule, read against one attribute of a context: the nine operators, when a
    rule's value can be read at all, and [Match]. *)
From S2P Require Import Prelude GoText.

(** An [Operator] is any string; the words of the vocabulary have constructors. *)
Inductive Operator :=
| Eq | Ne | In | Nin | Gt | Gte | Lt | Lte | AnyIn
| OperatorOther (s : string).

#[export] Instance Operator_eq_dec : EqDecision Operator.
Proof. solve_decision. Defined.

Definition Operators : list Operator := [Eq; Ne; In; Nin; Gt; Gte; Lt; Lte; AnyIn].

Definition Numeric (o : Operator) : bool :=
  match o with Gt | Gte | Lt | Lte => true | _ => false end.

Definition MultiValue (o : Operator) : bool :=
  match o with In | Nin | AnyIn => true | _ => false end.

Definition ReadsAList (o : Operator) : bool :=
  match o with AnyIn => true | _ => false end.

Definition Readable (op : Operator) (value : string) : bool :=
  if bool_decide (value = EmptyString) then false
  else if Numeric op then
    match ParseInt value with Some _ => true | None => false end
  else true.

Definition Compare (op : Operator) (have want : Z) : bool :=
  match op with
  | Eq => have =? want
  | Ne => negb (have =? want)
  | Gt => want <? have
  | Gte => want <=? have
  | Lt => have <? want
  | Lte => have <=? want
  | _ => false
  end.

Definition Match (op : Operator) (values : list string) (value : string) (present : bool)
    (lst : list string) : bool :=
  match values with
  | [] => false
  | first :: _ =>
      if negb (forallb (Readable op) values) then false
      else if ReadsAList op then existsb (Contains values) lst
      else if negb present then false
      else match op with
      | Eq => bool_decide (value = first)
      | Ne => negb (bool_decide (value = first))
      | In => Contains values value
      | Nin => negb (Contains values value)
      | Gt | Gte | Lt | Lte =>
          match ParseInt value with
          | None => false
          | Some have =>
              match ParseInt first with
              | None => false
              | Some want => Compare op have want
              end
          end
      | _ => false
      end
  end.

(** The words that read the one value of an attribute. *)
Definition reads_value (op : Operator) : bool :=
  match op with AnyIn | OperatorOther _ => false | _ => true end.

(** The word that holds exactly when [op] does not, on a value both can read. *)
Definition opposite (op : Operator) : Operator :=
  match op with
  | Eq => Ne | Ne => Eq | In => Nin | Nin => In
  | Gt => Lte | Lte => Gt | Lt => Gte | Gte => Lt
  | o => o
  end.

(** What a condition means. A rule that cannot be read (no values, an empty one, a word or a number
    outside the vocabulary) matches nothing. [any_in] matches when the context's list and the
    rule's values meet. Every other word needs the attribute to be present, negative words too; and
    on a present attribute that can be compared, the pairs of opposite words exclude each other
    and one of the two holds. *)
Theorem Match_meaning op values value present lst :
  let m := Match op values value present lst in
  (values = [] \/ Exists (fun v => Readable op v = false) values -> m = false) /\
  (op = AnyIn -> values <> [] -> Forall (fun v => v <> EmptyString) values ->
     (m = true <-> exists x, x ∈ lst /\ x ∈ values)) /\
  (op <> AnyIn -> present = false -> m = false) /\
  (present = true -> reads_value op = true -> values <> [] ->
     Forall (fun v => Readable op v = true) values ->
     (Numeric op = true -> is_Some (ParseInt value)) ->
     Match (opposite op) values value present lst = negb m).
Proof.
  intros m. subst m. destruct values as [|first values].
  { split_and!; try done. }
  unfold Match. split_and!.
  - intros [?|Hex]; [done|].
    assert (forallb (Readable op) (first :: values) = false) as ->; [|done].
    apply not_true_is_false. intros Hall. rewrite forallb_forall in Hall.
    apply Exists_exists in Hex as (v & Hv%list_elem_of_In & Hr). rewrite Hall in Hr; done.
  - intros -> _ Hne. assert (forallb (Readable AnyIn) (first :: values) = true) as ->.
    { apply forallb_forall. intros v Hv%list_elem_of_In. rewrite Forall_forall in Hne.
      unfold Readable. by rewrite bool_decide_eq_false_2 by auto. }
    cbn [negb ReadsAList]. rewrite existsb_exists. split.
    + intros (x & Hx%list_elem_of_In & Hc). exists x. by rewrite Contains_spec in Hc.
    + intros (x & Hx & Hc). exists x. by rewrite <- list_elem_of_In, Contains_spec.
  - intros Hop ->. destruct (negb _); [done|]. by destruct op.
  - intros -> Hop _ Hall Hnum.
    assert (forallb (Readable op) (first :: values) = true) as Hread.
    { apply forallb_forall. intros v Hv%list_elem_of_In. by rewrite Forall_forall in Hall; apply Hall. }
    assert (forallb (Readable (opposite op)) (first :: values) = true) as Hread'.
    { rewrite <- Hread. f_equal. by destruct op. }
    rewrite Hread, Hread'. apply Forall_inv in Hall.
    destruct op; try done; cbn [opposite ReadsAList negb]; rewrite ?negb_involutive; try done;
      destruct (Hnum eq_refl) as [have ->];
      unfold Readable in Hall; simpl in Hall; destruct (bool_decide _); try done;
      destruct (ParseInt first) as [want|]; try done; unfold Compare; lia.
Qed.
