(* ===== verification/PromotionModels.v ===== *)
(** * Promotion data: [internal/modules/promotion/models/models.go]

    Money is an [int64] of minor units and is kept as [Z]; a moment is its Unix time in
    nanoseconds, and a nil pointer is [None]. The open string types keep an [Other] constructor for
    what the database may hold beside the words of the code. *)
From S2P Require Import Prelude GoText Condition.

Definition MinAmount : Z := 0.
Definition MaxAmount : Z := 1000000000000.
Definition MinQuantity : Z := 1.
Definition MaxQuantity : Z := 1000000.
Definition BasisPointDenominator : Z := 10000.


Inductive CampaignBudgetType := BudgetNone | BudgetSpend | BudgetUsage | BudgetOther (s : string).

#[export] Instance CampaignBudgetType_eq_dec : EqDecision CampaignBudgetType.
Proof. solve_decision. Defined.

Definition CampaignBudgetType_Valid (t : CampaignBudgetType) : bool :=
  match t with BudgetOther _ => false | _ => true end.

Record Campaign := mkCampaign {
  cp_ID : string;
  cp_Name : string;
  cp_CampaignIdentifier : string;
  cp_Description : string;
  cp_StartsAt : option moment;
  cp_EndsAt : option moment;
  cp_BudgetType : CampaignBudgetType;
  cp_BudgetLimit : option Z;
  cp_BudgetUsed : Z;
  cp_BudgetCurrencyCode : string;
  cp_CreatedAt : moment;
  cp_UpdatedAt : moment;
  cp_DeletedAt : option moment
}.

Definition WindowContains (c : Campaign) (at_ : moment) : bool :=
  if match cp_StartsAt c with Some s => at_ <? s | None => false end then false
  else if match cp_EndsAt c with Some e => e <? at_ | None => false end then false
  else true.

Definition BudgetExhausted (c : Campaign) : bool :=
  match cp_BudgetType c, cp_BudgetLimit c with
  | BudgetNone, _ | _, None => false
  | _, Some limit => limit <=? cp_BudgetUsed c
  end.

Definition BudgetDeltaFor (c : Campaign) (amount : Z) : Z :=
  match cp_BudgetType c with
  | BudgetSpend => amount
  | BudgetUsage => 1
  | BudgetNone => 0
  | BudgetOther _ => 0
  end.

Inductive PromotionType := PromotionStandard | PromotionBuyGet | PromotionTypeOther (s : string).

#[export] Instance PromotionType_eq_dec : EqDecision PromotionType.
Proof. solve_decision. Defined.

Definition PromotionType_Valid (t : PromotionType) : bool :=
  match t with PromotionTypeOther _ => false | _ => true end.

Inductive PromotionStatus :=
| PromotionDraft | PromotionActive | PromotionInactive | PromotionStatusOther (s : string).

#[export] Instance PromotionStatus_eq_dec : EqDecision PromotionStatus.
Proof. solve_decision. Defined.

Definition PromotionStatus_Valid (s : PromotionStatus) : bool :=
  match s with PromotionStatusOther _ => false | _ => true end.

Definition PromotionStatus_text (s : PromotionStatus) : string :=
  match s with
  | PromotionDraft => "draft"
  | PromotionActive => "active"
  | PromotionInactive => "inactive"
  | PromotionStatusOther s => s
  end.

Record Promotion := mkPromotion {
  pr_ID : string;
  pr_Code : string;
  pr_IsAutomatic : bool;
  pr_Type : PromotionType;
  pr_CampaignID : option string;
  pr_Status : PromotionStatus;
  pr_UsageLimit : option Z;
  pr_UsageCount : Z;
  pr_Metadata : gmap string string;
  pr_CreatedAt : moment;
  pr_UpdatedAt : moment;
  pr_DeletedAt : option moment
}.

Definition UsageExhausted (p : Promotion) : bool :=
  match pr_UsageLimit p with
  | None => false
  | Some limit => limit <=? pr_UsageCount p
  end.

Inductive ApplicationMethodType := MethodFixed | MethodPercentage | MethodOther (s : string).

#[export] Instance ApplicationMethodType_eq_dec : EqDecision ApplicationMethodType.
Proof. solve_decision. Defined.

Definition ApplicationMethodType_Valid (t : ApplicationMethodType) : bool :=
  match t with MethodOther _ => false | _ => true end.

Definition ApplicationMethodType_text (t : ApplicationMethodType) : string :=
  match t with MethodFixed => "fixed" | MethodPercentage => "percentage" | MethodOther s => s end.

Inductive ApplicationTargetType :=
| TargetItems | TargetShippingMethods | TargetOrder | TargetOther (s : string).

#[export] Instance ApplicationTargetType_eq_dec : EqDecision ApplicationTargetType.
Proof. solve_decision. Defined.

Definition ApplicationTargetType_Valid (t : ApplicationTargetType) : bool :=
  match t with TargetOther _ => false | _ => true end.

Definition ApplicationTargetType_text (t : ApplicationTargetType) : string :=
  match t with
  | TargetItems => "items"
  | TargetShippingMethods => "shipping_methods"
  | TargetOrder => "order"
  | TargetOther s => s
  end.

(** [AllocationOther EmptyString] is the allocation not given. *)
Inductive Allocation := AllocationEach | AllocationAcross | AllocationOther (s : string).

#[export] Instance Allocation_eq_dec : EqDecision Allocation.
Proof. solve_decision. Defined.

Definition Allocation_Valid (a : Allocation) : bool :=
  match a with AllocationOther _ => false | _ => true end.

Definition Allocation_text (a : Allocation) : string :=
  match a with AllocationEach => "each" | AllocationAcross => "across" | AllocationOther s => s end.

Record ApplicationMethod := mkApplicationMethod {
  am_ID : string;
  am_PromotionID : string;
  am_Type : ApplicationMethodType;
  am_TargetType : ApplicationTargetType;
  am_Allocation : Allocation;
  am_Value : Z;
  am_MaxQuantity : option Z;
  am_BuyQuantity : option Z;
  am_ApplyToQuantity : option Z;
  am_CurrencyCode : string;
  am_CreatedAt : moment;
  am_UpdatedAt : moment
}.

Definition RewardsPurchase (m : ApplicationMethod) : bool :=
  match am_BuyQuantity m, am_ApplyToQuantity m with Some _, Some _ => true | _, _ => false end.

(** [RuleOperator] carries the words of [condition.Operator] over. *)
Abbreviation RuleOperator := Operator.

Definition RuleOperator_Valid (o : RuleOperator) : bool :=
  match o with OperatorOther _ => false | _ => true end.

Inductive RuleType := RuleContext | RuleTarget | RuleBuy | RuleOther (s : string).

#[export] Instance RuleType_eq_dec : EqDecision RuleType.
Proof. solve_decision. Defined.

Definition RuleType_Valid (t : RuleType) : bool :=
  match t with RuleOther _ => false | _ => true end.

Record PromotionRule := mkPromotionRule {
  ru_ID : string;
  ru_PromotionID : string;
  ru_RuleType : RuleType;
  ru_Attribute : string;
  ru_Operator : RuleOperator;
  ru_Values : list string;
  ru_CreatedAt : moment;
  ru_UpdatedAt : moment
}.

Definition ReservedAttributePrefix : string := "cart.".

Record PromotionCandidate := mkPromotionCandidate {
  ca_Promotion : Promotion;
  ca_Campaign : option Campaign;
  ca_Method : option ApplicationMethod;
  ca_Rules : list PromotionRule
}.

Definition rulesOfType (c : PromotionCandidate) (t : RuleType) : list PromotionRule :=
  filter (fun r => ru_RuleType r = t) (ca_Rules c).

Definition ContextRules (c : PromotionCandidate) : list PromotionRule := rulesOfType c RuleContext.
Definition TargetRules (c : PromotionCandidate) : list PromotionRule := rulesOfType c RuleTarget.
Definition BuyRules (c : PromotionCandidate) : list PromotionRule := rulesOfType c RuleBuy.
