(* ===== verification/PromotionValidate.v ===== *)
(** * What the promotion service accepts: [validate.go] and [rule.go] of
    [internal/modules/promotion/service]

    Codes, currencies, amounts, quantities, rule and method inputs; [normalizeMetadata] is in
    [PromotionAdmin]. *)
From S2P Require Import Prelude GoText Errors Condition PromotionModels.

Definition CodeInvalidInput : string := "promotion_invalid_input".
Definition CodeRuleAttributeReserved : string := "promotion_rule_attribute_reserved".

Definition currencyCodeLen : Z := 3.
Definition maxIDLen : Z := 255.
Definition MinCodeLen : Z := 3.
Definition MaxCodeLen : Z := 64.
Definition MaxCodesPerCompute : Z := 20.
Definition MaxAttributeLen : Z := 128.
Definition MaxRuleValues : Z := 100.
Definition DefaultLimit : Z := 50.
Definition MaxLimit : Z := 100.

(** What the loop of [normalizeCode] lets through: A-Z, 0-9, '-' and '_'. *)
Definition code_char (c : Z) : bool := is_upper c || is_digit c || (c =? 45) || (c =? 95).

Definition normalizeCode (code : string) : result string :=
  let trimmed := ToUpper (TrimSpace code) in
  if len trimmed <? MinCodeLen then
    Fail (Invalid CodeInvalidInput "coupon code has to be at least %d characters, %q given"
      [AInt MinCodeLen; AStr code])
  else if MaxCodeLen <? len trimmed then
    Fail (Invalid CodeInvalidInput
      "coupon code can be at most %d characters, %d characters given"
      [AInt MaxCodeLen; AInt (len trimmed)])
  else if negb (forallb code_char (bytes trimmed)) then
    Fail (Invalid CodeInvalidInput
      "coupon code can only contain letters, digits, hyphens and underscores, %q given"
      [AStr code])
  else Ok trimmed.

Definition normalizeCurrency (code : string) : result string :=
  let trimmed := ToUpper (TrimSpace code) in
  if negb (len trimmed =? currencyCodeLen) then
    Fail (Invalid CodeInvalidInput
      "currency code has to be exactly %d letters (ISO 4217), %q given"
      [AInt currencyCodeLen; AStr code])
  else if negb (forallb is_upper (bytes trimmed)) then
    Fail (Invalid CodeInvalidInput "currency code can only contain letters (ISO 4217), %q given"
      [AStr code])
  else Ok trimmed.

Definition validateAmount (label : string) (amount : Z) : option err :=
  if amount <? MinAmount then
    Some (Invalid CodeInvalidInput "%s cannot be negative, %d given (minor unit)"
      [AStr label; AInt amount])
  else if MaxAmount <? amount then
    Some (Invalid CodeInvalidInput "%s can be at most %d (minor unit), %d given"
      [AStr label; AInt MaxAmount; AInt amount])
  else None.

Definition validateQuantity (label : string) (quantity : Z) : option err :=
  if quantity <? MinQuantity then
    Some (Invalid CodeInvalidInput "%s has to be at least %d, %d given"
      [AStr label; AInt MinQuantity; AInt quantity])
  else if MaxQuantity <? quantity then
    Some (Invalid CodeInvalidInput "%s can be at most %d, %d given"
      [AStr label; AInt MaxQuantity; AInt quantity])
  else None.

Definition validateUsageLimit (limit : option Z) : option err :=
  match limit with
  | None => None
  | Some l =>
      if l <? 0 then
        Some (Invalid CodeInvalidInput "usage limit cannot be negative, %d given" [AInt l])
      else None
  end.

Definition validateText (label value : string) (minLen maxLen : Z) : option err :=
  let trimmed := TrimSpace value in
  if len trimmed <? minLen then
    Some (Invalid CodeInvalidInput "%s cannot be empty" [AStr label])
  else if maxLen <? len trimmed then
    Some (Invalid CodeInvalidInput "%s can be at most %d bytes, %d bytes given"
      [AStr label; AInt maxLen; AInt (len trimmed)])
  else None.

Definition requireID (id prefix label : string) : option err :=
  if bool_decide (id = EmptyString) then
    Some (Invalid CodeInvalidInput "%s cannot be empty" [AStr label])
  else if negb (bool_decide (TrimSpace id = id)) then
    Some (Invalid CodeInvalidInput "%s cannot contain leading/trailing whitespace: %q"
      [AStr label; AStr id])
  else if maxIDLen <? len id then
    Some (Invalid CodeInvalidInput "%s can be at most %d bytes, %d bytes given"
      [AStr label; AInt maxIDLen; AInt (len id)])
  else if negb (HasPrefix id prefix) then
    Some (Invalid CodeInvalidInput "%s has to start with the %q prefix, %q given"
      [AStr label; AStr prefix; AStr id])
  else None.

Definition normalizePaging (limit offset : Z) : result (Z * Z) :=
  if offset <? 0 then
    Fail (Invalid CodeInvalidInput "the offset cannot be negative, %d given" [AInt offset])
  else
    let limit := if limit <=? 0 then DefaultLimit else limit in
    let limit := if MaxLimit <? limit then MaxLimit else limit in
    Ok (limit, offset).

Definition clampToInt32 (value : Z) : Z :=
  if 2147483647 <? value then 2147483647
  else if value <? -2147483648 then -2147483648
  else value.

(** ** Rules *)

Record RuleInput := mkRuleInput {
  ri_RuleType : RuleType;
  ri_Attribute : string;
  ri_Operator : RuleOperator;
  ri_Values : list string
}.

Definition RuleType_text (t : RuleType) : string :=
  match t with
  | RuleContext => "context" | RuleTarget => "target" | RuleBuy => "buy" | RuleOther s => s
  end.

Definition Operator_text (o : Operator) : string :=
  match o with
  | Eq => "eq" | Ne => "ne" | In => "in" | Nin => "nin"
  | Gt => "gt" | Gte => "gte" | Lt => "lt" | Lte => "lte" | AnyIn => "any_in"
  | OperatorOther s => s
  end.

Fixpoint validate_rule_values (attribute : string) (op : RuleOperator) (values : list string) :
    option err :=
  match values with
  | [] => None
  | value :: values' =>
      if bool_decide (value = EmptyString) then
        Some (Invalid CodeInvalidInput "the values of the %q rule cannot be empty"
          [AStr attribute])
      else if negb (Readable op value) then
        Some (Invalid CodeInvalidInput "the %q operator expects an integer, %q given"
          [AStr (Operator_text op); AStr value])
      else validate_rule_values attribute op values'
  end.

Definition validateRuleInput (in_ : RuleInput) : option err :=
  let values := ri_Values in_ in
  if negb (RuleType_Valid (ri_RuleType in_)) then
    Some (Invalid CodeInvalidInput "rule type is undefined: %q"
      [AStr (RuleType_text (ri_RuleType in_))])
  else match validateText "rule field name (attribute)" (ri_Attribute in_) 1 MaxAttributeLen with
  | Some e => Some e
  | None =>
      if negb (RuleOperator_Valid (ri_Operator in_)) then
        Some (Invalid CodeInvalidInput "rule operator is undefined: %q"
          [AStr (Operator_text (ri_Operator in_))])
      else if Z.of_nat (length values) =? 0 then
        Some (Invalid CodeInvalidInput "the %q rule has to contain at least one value"
          [AStr (ri_Attribute in_)])
      else if MaxRuleValues <? Z.of_nat (length values) then
        Some (Invalid CodeInvalidInput "the %q rule can contain at most %d values, %d given"
          [AStr (ri_Attribute in_); AInt MaxRuleValues; AInt (Z.of_nat (length values))])
      else if negb (MultiValue (ri_Operator in_)) && negb (Z.of_nat (length values) =? 1) then
        Some (Invalid CodeInvalidInput "the %q operator takes exactly one value, %d values given"
          [AStr (Operator_text (ri_Operator in_)); AInt (Z.of_nat (length values))])
      else validate_rule_values (ri_Attribute in_) (ri_Operator in_) values
  end.

Definition refuseReservedAttribute (in_ : RuleInput) : option err :=
  if HasPrefix (ri_Attribute in_) ReservedAttributePrefix then
    Some (Invalid CodeRuleAttributeReserved
      "a promotion rule cannot name %q: an attribute under %q is the cart's metadata, which reaches no rule"
      [AStr (ri_Attribute in_); AStr ReservedAttributePrefix])
  else None.

Definition matchRule (rule : PromotionRule) (attributes : gmap string string)
    (lists : gmap string (list string)) : bool :=
  let v := attributes !! ru_Attribute rule in
  Match (ru_Operator rule) (ru_Values rule) (default EmptyString v) (bool_decide (is_Some v))
    (default [] (lists !! ru_Attribute rule)).

Definition matchRules (rules : list PromotionRule) (attributes : gmap string string)
    (lists : gmap string (list string)) : bool :=
  forallb (fun r => matchRule r attributes lists) rules.

(** ** Application methods *)

Record ApplicationMethodInput := mkApplicationMethodInput {
  ai_Type : ApplicationMethodType;
  ai_TargetType : ApplicationTargetType;
  ai_Allocation : Allocation;
  ai_Value : Z;
  ai_MaxQuantity : option Z;
  ai_BuyQuantity : option Z;
  ai_ApplyToQuantity : option Z;
  ai_CurrencyCode : string
}.

Definition validateRewardQuantities (buy apply : option Z) : option err :=
  match buy, apply with
  | None, None => None
  | Some b, Some a =>
      match validateQuantity "buy quantity" b with
      | Some e => Some e
      | None => validateQuantity "reward quantity" a
      end
  | _, _ =>
      Some (Invalid CodeInvalidInput
        "the buy quantity and the reward quantity are given together; one cannot be given while the other is left empty"
        [])
  end.

(** The [switch] on the type: the currency of the method. *)
Definition method_currency (in_ : ApplicationMethodInput) : result string :=
  match ai_Type in_ with
  | MethodFixed =>
      check validateAmount "discount amount" (ai_Value in_) ;;
      normalizeCurrency (ai_CurrencyCode in_)
  | MethodPercentage =>
      if (ai_Value in_ <? 0) || (BasisPointDenominator <? ai_Value in_) then
        Fail (Invalid CodeInvalidInput
          "a percentage discount has to be in the [0, %d] basis point range, %d given"
          [AInt BasisPointDenominator; AInt (ai_Value in_)])
      else if negb (bool_decide (ai_CurrencyCode in_ = EmptyString)) then
        Fail (Invalid CodeInvalidInput
          "a percentage discount cannot be given a currency, %q given"
          [AStr (ai_CurrencyCode in_)])
      else Ok EmptyString
  | MethodOther _ => Ok EmptyString
  end.

Definition not_given : Allocation := AllocationOther EmptyString.

Definition buildApplicationMethod (id promotionID : string) (in_ : ApplicationMethodInput)
    (now : moment) : result ApplicationMethod :=
  if negb (ApplicationMethodType_Valid (ai_Type in_)) then
    Fail (Invalid CodeInvalidInput "application method type is undefined: %q"
      [AStr (ApplicationMethodType_text (ai_Type in_))])
  else if negb (ApplicationTargetType_Valid (ai_TargetType in_)) then
    Fail (Invalid CodeInvalidInput "application target is undefined: %q"
      [AStr (ApplicationTargetType_text (ai_TargetType in_))])
  else
    let allocation :=
      if bool_decide (ai_Allocation in_ = not_given) then AllocationEach else ai_Allocation in_ in
    if negb (Allocation_Valid allocation) then
      Fail (Invalid CodeInvalidInput "allocation form is undefined: %q"
        [AStr (Allocation_text (ai_Allocation in_))])
    else if bool_decide (ai_TargetType in_ = TargetOrder) &&
            negb (bool_decide (ai_Allocation in_ = not_given)) &&
            negb (bool_decide (ai_Allocation in_ = AllocationAcross)) then
      Fail (Invalid CodeInvalidInput
        "an order-targeted discount is applied only with the %q allocation, %q given"
        [AStr (Allocation_text AllocationAcross); AStr (Allocation_text (ai_Allocation in_))])
    else
      let allocation :=
        if bool_decide (ai_TargetType in_ = TargetOrder) then AllocationAcross else allocation in
      check (match ai_MaxQuantity in_ with
             | Some q => validateQuantity "maximum quantity" q
             | None => None
             end) ;;
      check validateRewardQuantities (ai_BuyQuantity in_) (ai_ApplyToQuantity in_) ;;
      currency ← method_currency in_;
      Ok (mkApplicationMethod id promotionID (ai_Type in_) (ai_TargetType in_) allocation
            (ai_Value in_) (ai_MaxQuantity in_) (ai_BuyQuantity in_) (ai_ApplyToQuantity in_)
            currency now now).

(** ** What is accepted *)

Lemma validateAmount_None label z : validateAmount label z = None <-> MinAmount <= z <= MaxAmount.
Proof. unfold validateAmount. split_matches; split; (done || lia). Qed.

Lemma validateQuantity_None label z :
  validateQuantity label z = None <-> MinQuantity <= z <= MaxQuantity.
Proof. unfold validateQuantity. split_matches; split; (done || lia). Qed.

Lemma method_currency_Ok in_ currency :
  method_currency in_ = Ok currency ->
  (ai_Type in_ = MethodFixed -> 0 <= ai_Value in_ <= MaxAmount) /\
  (ai_Type in_ = MethodPercentage -> 0 <= ai_Value in_ <= BasisPointDenominator).
Proof.
  unfold method_currency. destruct (ai_Type in_); intros H; (split; intros; [try done|try done]).
  - destruct (validateAmount _ _) eqn:E; [done|]. by apply validateAmount_None in E.
  - split_matches; reflect_bools; lia.
Qed.

Lemma validateRewardQuantities_None buy apply :
  validateRewardQuantities buy apply = None ->
  (forall q, buy = Some q -> MinQuantity <= q <= MaxQuantity) /\
  (forall q, apply = Some q -> MinQuantity <= q <= MaxQuantity) /\
  (is_Some buy <-> is_Some apply).
Proof.
  unfold validateRewardQuantities. destruct buy as [b|], apply as [a|]; try done.
  - destruct (validateQuantity _ b) eqn:Eb; [done|]. intros Ea.
    apply validateQuantity_None in Eb, Ea. split_and!; [by intros ? [= <-]..|by split; eauto].
Qed.

(** A method the service built, as the computation relies on it. *)
Record method_ok (m : ApplicationMethod) : Prop := {
  mo_type : ApplicationMethodType_Valid (am_Type m) = true;
  mo_target : ApplicationTargetType_Valid (am_TargetType m) = true;
  mo_allocation : Allocation_Valid (am_Allocation m) = true;
  mo_order : am_TargetType m = TargetOrder -> am_Allocation m = AllocationAcross;
  mo_fixed : am_Type m = MethodFixed -> 0 <= am_Value m <= MaxAmount;
  mo_percentage : am_Type m = MethodPercentage -> 0 <= am_Value m <= BasisPointDenominator;
  mo_max q : am_MaxQuantity m = Some q -> MinQuantity <= q <= MaxQuantity;
  mo_buy q : am_BuyQuantity m = Some q -> MinQuantity <= q <= MaxQuantity;
  mo_apply q : am_ApplyToQuantity m = Some q -> MinQuantity <= q <= MaxQuantity;
  mo_both : is_Some (am_BuyQuantity m) <-> is_Some (am_ApplyToQuantity m)
}.
