(* ===== verification/PromotionDiscounts.v ===== *)
(** * Computing discounts: [compute.go], [allocate.go], [buyget.go] and [skip_reason.go] of
    [internal/modules/promotion/service]

    The lines a computation charges are two arrays the code points into; a pointer is a [ref], and
    the arrays are passed along. Sorting is by [slices.SortFunc], which leaves the order of elements
    that compare equal open: the theorems about an order assume the ids that decide it are
    distinct, as a normalized input's are. *)
From S2P Require Import Prelude GoText Errors Condition PromotionModels PromotionValidate.

(** ** [allocate.go] *)

Record allocLine := mkAllocLine { al_ID : string; al_Amount : Z }.

(** [mulDivMod]: the 128-bit product in two words, [bits.Div64] when it does not panic. *)
Definition mulDivMod (a b d : Z) : Z * Z :=
  if (a <=? 0) || (b <=? 0) || (d <=? 0) then (0, 0)
  else
    let hi := a * b / 2 ^ 64 in
    let lo := (a * b) mod 2 ^ 64 in
    if d <=? hi then (0, 0)
    else
      let q := (hi * 2 ^ 64 + lo) / d in
      let r := (hi * 2 ^ 64 + lo) mod d in
      if (int64_max <? q) || (int64_max <? r) then (0, 0) else (q, r).

Record share := mkShare {
  sh_index : nat;
  sh_remainder : Z;
  sh_amount : Z;
  sh_id : string
}.

(** Larger remainder first, then larger amount, then id. *)
Definition cmp_share : share -> share -> Z :=
  cmp_then (fun a b => cmpZ (sh_remainder b) (sh_remainder a))
    (cmp_then (fun a b => cmpZ (sh_amount b) (sh_amount a)) (cmp_on sh_id cmpS)).

(** The sum of the positive amounts. *)
Definition alloc_base (lines : list allocLine) : Z :=
  sum64 (al_Amount <$> filter (fun l => 0 < al_Amount l) lines).

(** The first loop over the lines: their floor shares, and the records the remainders are ranked by.
    [i] is the index of the head. *)
Fixpoint floor_shares (total base : Z) (i : nat) (lines : list allocLine) :
    list Z * list share :=
  match lines with
  | [] => ([], [])
  | l :: lines' =>
      let '(out, shares) := floor_shares total base (S i) lines' in
      if al_Amount l <=? 0 then (0 :: out, shares)
      else
        let '(quotient, remainder) := mulDivMod total (al_Amount l) base in
        (quotient :: out, mkShare i remainder (al_Amount l) (al_ID l) :: shares)
  end.

(** The second loop: one unit each to the first shares of the ranking while any is left. *)
Fixpoint give_leftover (out : list Z) (shares : list share) (leftover : Z) : list Z :=
  match shares with
  | [] => out
  | s :: shares' =>
      if 0 <? leftover then
        give_leftover (alter (fun v => v +₆₄ 1) (sh_index s) out) shares' (leftover -₆₄ 1)
      else out
  end.

Definition allocateAcross (total : Z) (lines : list allocLine) : list Z :=
  if (total <=? 0) || (Z.of_nat (length lines) =? 0) then replicate (length lines) 0
  else
    let base := alloc_base lines in
    if base <=? 0 then replicate (length lines) 0
    else
      let total := if base <? total then base else total in
      let '(out, shares) := floor_shares total base 0 lines in
      let leftover := total -₆₄ sum64 out in
      give_leftover out (SortFunc cmp_share shares) leftover.

(** ** The data of a computation: [compute.go] *)

Definition MaxComputeLines : Z := 1000.

Record ComputeItem := mkComputeItem {
  ci_ID : string;
  ci_Amount : Z;
  ci_UnitAmount : Z;
  ci_Quantity : Z;
  ci_Attributes : gmap string string;
  ci_Lists : gmap string (list string)
}.

Record ComputeShippingMethod := mkComputeShippingMethod {
  cs_ID : string;
  cs_Amount : Z;
  cs_Attributes : gmap string string
}.

(** [At] is [None] for the zero time. *)
Record ComputeInput := mkComputeInput {
  in_CurrencyCode : string;
  in_Context : gmap string string;
  in_ContextLists : gmap string (list string);
  in_Items : list ComputeItem;
  in_ShippingMethods : list ComputeShippingMethod;
  in_Codes : list string;
  in_At : option moment
}.

Record LineDiscount := mkLineDiscount { ld_ID : string; ld_Amount : Z }.

Record AppliedPromotion := mkAppliedPromotion {
  ap_PromotionID : string;
  ap_Code : string;
  ap_IsAutomatic : bool;
  ap_Amount : Z
}.

Inductive SkipReason :=
| SkipNotActive
| SkipMechanicUnknown
| SkipNoApplicationMethod
| SkipRewardMismatch
| SkipUsageExhausted
| SkipCodeNotGiven
| SkipCampaignClosed
| SkipCurrencyMismatch
| SkipRulesNotMatched.

#[export] Instance SkipReason_eq_dec : EqDecision SkipReason.
Proof. solve_decision. Defined.

Record SkippedPromotion := mkSkippedPromotion {
  sp_PromotionID : string;
  sp_Code : string;
  sp_Reason : SkipReason
}.

Record ComputeResult := mkComputeResult {
  cr_CurrencyCode : string;
  cr_Items : list LineDiscount;
  cr_ShippingMethods : list LineDiscount;
  cr_ItemsDiscountTotal : Z;
  cr_ShippingDiscountTotal : Z;
  cr_DiscountTotal : Z;
  cr_Applied : list AppliedPromotion;
  cr_Skipped : list SkippedPromotion;
  cr_UnmatchedCodes : list string
}.

(** ** Lines under computation *)

Record lineState := mkLineState {
  ls_id : string;
  ls_amount : Z;
  ls_unitAmount : Z;
  ls_quantity : Z;
  ls_attributes : gmap string string;
  ls_lists : gmap string (list string);
  ls_discount : Z
}.

Definition remaining (l : lineState) : Z :=
  if ls_amount l <=? ls_discount l then 0 else ls_amount l -₆₄ ls_discount l.

Definition with_discount (l : lineState) (d : Z) : lineState :=
  mkLineState (ls_id l) (ls_amount l) (ls_unitAmount l) (ls_quantity l) (ls_attributes l)
    (ls_lists l) d.

(** What [charge] answers, and the line after it. *)
Definition charge (want : Z) (l : lineState) : Z * lineState :=
  if want <=? 0 then (0, l)
  else
    let want := if remaining l <? want then remaining l else want in
    (want, with_discount l (ls_discount l +₆₄ want)).

(** The two arrays and a pointer into them. *)
Record arrays := mkArrays { ar_items : list lineState; ar_shipping : list lineState }.

Inductive ref := ItemRef (i : nat) | ShippingRef (i : nat).

#[export] Instance ref_eq_dec : EqDecision ref.
Proof. solve_decision. Defined.

#[export, refine] Instance ref_countable : Countable ref :=
  inj_countable' (fun r => match r with ItemRef i => inl i | ShippingRef i => inr i end)
    (fun s => match s with inl i => ItemRef i | inr i => ShippingRef i end) _.
Proof. by intros []. Defined.

Definition deref (a : arrays) (r : ref) : option lineState :=
  match r with ItemRef i => ar_items a !! i | ShippingRef i => ar_shipping a !! i end.

Definition set_ref (a : arrays) (r : ref) (l : lineState) : arrays :=
  match r with
  | ItemRef i => mkArrays (<[i := l]> (ar_items a)) (ar_shipping a)
  | ShippingRef i => mkArrays (ar_items a) (<[i := l]> (ar_shipping a))
  end.

(** [line.charge(want)] through a pointer; a pointer is never dangling. *)
Definition charge_ref (a : arrays) (r : ref) (want : Z) : Z * arrays :=
  match deref a r with
  | None => (0, a)
  | Some l => let '(paid, l') := charge want l in (paid, set_ref a r l')
  end.

(** ** Discounts of one method *)

Definition percentageOf (amount basisPoints : Z) : Z :=
  if (amount <=? 0) || (basisPoints <=? 0) then 0
  else
    let amount := if MaxAmount <? amount then MaxAmount else amount in
    let basisPoints :=
      if BasisPointDenominator <? basisPoints then BasisPointDenominator else basisPoints in
    div64 (amount *₆₄ basisPoints) BasisPointDenominator.

Definition eachDiscount (method : ApplicationMethod) (line : lineState) : Z :=
  match am_Type method with
  | MethodFixed =>
      let units := ls_quantity line in
      let units :=
        match am_MaxQuantity method with
        | Some q => if q <? units then q else units
        | None => units
        end in
      if units <=? 0 then 0 else am_Value method *₆₄ units
  | MethodPercentage => percentageOf (ls_amount line) (am_Value method)
  | MethodOther _ => 0
  end.

Definition acrossTotal (method : ApplicationMethod) (targets : list lineState) : Z :=
  let base := sum64 (ls_amount <$> targets) in
  match am_Type method with
  | MethodFixed => am_Value method
  | MethodPercentage => percentageOf base (am_Value method)
  | MethodOther _ => 0
  end.

(** The positions of the lines the rules accept, from [i] on. *)
Fixpoint filter_from (mk : nat -> ref) (i : nat) (lines : list lineState)
    (rules : list PromotionRule) : list ref :=
  match lines with
  | [] => []
  | l :: lines' =>
      let rest := filter_from mk (S i) lines' rules in
      if (0 <? Z.of_nat (length rules)) && negb (matchRules rules (ls_attributes l) (ls_lists l))
      then rest else mk i :: rest
  end.

Definition filterLines (mk : nat -> ref) (lines : list lineState) (rules : list PromotionRule) :
    list ref := filter_from mk 0 lines rules.

Definition selectTargets (c : PromotionCandidate) (target : ApplicationTargetType) (a : arrays) :
    list ref :=
  match target with
  | TargetItems => filterLines ItemRef (ar_items a) (TargetRules c)
  | TargetShippingMethods => filterLines ShippingRef (ar_shipping a) (TargetRules c)
  | TargetOrder => filterLines ItemRef (ar_items a) []
  | TargetOther _ => []
  end.

(** ** Buy X, get Y: [buyget.go] *)

Definition mechanicMatchesMethod (promo : Promotion) (method : option ApplicationMethod) : bool :=
  match method with
  | None => false
  | Some m => Bool.eqb (bool_decide (pr_Type promo = PromotionBuyGet)) (RewardsPurchase m)
  end.

(** A pointer together with the line it points at when an order is drawn up. *)
Definition located (a : arrays) (refs : list ref) : list (ref * lineState) :=
  omap (fun r => (fun l => (r, l)) <$> deref a r) refs.

(** Dearest first, then by id. *)
Definition cmp_bought : ref * lineState -> ref * lineState -> Z :=
  cmp_then (fun a b => cmpZ (ls_unitAmount b.2) (ls_unitAmount a.2))
    (fun a b => cmpS (ls_id a.2) (ls_id b.2)).

(** Cheapest first, then by id. *)
Definition cmp_reward : ref * lineState -> ref * lineState -> Z :=
  cmp_then (fun a b => cmpZ (ls_unitAmount a.2) (ls_unitAmount b.2))
    (fun a b => cmpS (ls_id a.2) (ls_id b.2)).

Fixpoint reserve_from (order : list (ref * lineState)) (left : Z) (reserved : gmap ref Z) :
    gmap ref Z :=
  match order with
  | [] => reserved
  | (r, line) :: order' =>
      if left <=? 0 then reserved
      else
        let take := Z.min (ls_quantity line) left in
        reserve_from order' (left -₆₄ take) (<[r := take]> reserved)
  end.

Definition reserveBoughtUnits (a : arrays) (lines : list ref) (quantity : Z) : gmap ref Z :=
  reserve_from (SortFunc cmp_bought (located a lines)) quantity ∅.

Definition rewardPerUnit (method : ApplicationMethod) (unitAmount : Z) : Z :=
  match am_Type method with
  | MethodFixed => Z.min (am_Value method) unitAmount
  | MethodPercentage => percentageOf unitAmount (am_Value method)
  | MethodOther _ => 0
  end.

(** The loop of [payReward]: what is left to give away, what has been paid. *)
Fixpoint pay_from (method : ApplicationMethod) (order : list (ref * lineState))
    (reserved : gmap ref Z) (left applied : Z) (a : arrays) : Z * arrays :=
  match order with
  | [] => (applied, a)
  | (r, line) :: order' =>
      if left <=? 0 then (applied, a)
      else
        let available := ls_quantity line -₆₄ default 0 (reserved !! r) in
        if available <=? 0 then pay_from method order' reserved left applied a
        else
          let perUnit := rewardPerUnit method (ls_unitAmount line) in
          if perUnit <=? 0 then pay_from method order' reserved left applied a
          else
            let take := Z.min available left in
            let '(paid, a) := charge_ref a r (take *₆₄ perUnit) in
            pay_from method order' reserved (left -₆₄ take) (applied +₆₄ paid) a
  end.

Definition payReward (method : ApplicationMethod) (applyTo : Z) (targets : list ref)
    (reserved : gmap ref Z) (a : arrays) : Z * arrays :=
  pay_from method (SortFunc cmp_reward (located a targets)) reserved applyTo 0 a.

Definition applyBuyGet (c : PromotionCandidate) (method : ApplicationMethod) (targets : list ref)
    (a : arrays) : Z * arrays :=
  match am_BuyQuantity method, am_ApplyToQuantity method with
  | Some buy, Some applyTo =>
      let bought := filterLines ItemRef (ar_items a) (BuyRules c) in
      let count := sum64 ((fun p => ls_quantity p.2) <$> located a bought) in
      if count <? buy then (0, a)
      else payReward method applyTo targets (reserveBoughtUnits a bought buy) a
  | _, _ => (0, a)
  end.

(** ** Applying a promotion *)

(** [applied += line.charge(want)] for the pointers and what each is to be charged. *)
Fixpoint charge_all (charges : list (ref * Z)) (applied : Z) (a : arrays) : Z * arrays :=
  match charges with
  | [] => (applied, a)
  | (r, want) :: charges' =>
      let '(paid, a) := charge_ref a r want in
      charge_all charges' (applied +₆₄ paid) a
  end.

(** A candidate without a method never gets here: it is skipped. *)
Definition applyPromotion (c : PromotionCandidate) (a : arrays) : Z * arrays :=
  match ca_Method c with
  | None => (0, a)
  | Some method =>
      let targets := selectTargets c (am_TargetType method) a in
      if Z.of_nat (length targets) =? 0 then (0, a)
      else if bool_decide (pr_Type (ca_Promotion c) = PromotionBuyGet) then
        applyBuyGet c method targets a
      else
        let allocation :=
          if bool_decide (am_TargetType method = TargetOrder) then AllocationAcross
          else am_Allocation method in
        let lines := located a targets in
        if bool_decide (allocation = AllocationEach) then
          charge_all ((fun p => (p.1, eachDiscount method p.2)) <$> lines) 0 a
        else
          let total := acrossTotal method (snd <$> lines) in
          let shares :=
            allocateAcross total ((fun p => mkAllocLine (ls_id p.2) (ls_amount p.2)) <$> lines) in
          charge_all (zip (fst <$> lines) shares) 0 a
  end.

(** ** Which promotions count: [skip_reason.go] *)

Definition campaignBudgetCurrencyMatches (c : PromotionCandidate) (currencyCode : string) : bool :=
  match ca_Campaign c with
  | None => true
  | Some campaign =>
      if negb (bool_decide (cp_BudgetType campaign = BudgetSpend)) then true
      else bool_decide (cp_BudgetCurrencyCode campaign = currencyCode)
  end.

Definition campaignUsable (c : PromotionCandidate) (at_ : moment) : bool :=
  match pr_CampaignID (ca_Promotion c), ca_Campaign c with
  | None, _ => true
  | Some _, None => false
  | Some _, Some campaign => WindowContains campaign at_ && negb (BudgetExhausted campaign)
  end.

(** [None] is the empty reason: the candidate counts. *)
Definition skipReasonOf (c : PromotionCandidate) (in_ : ComputeInput) : option SkipReason :=
  let promo := ca_Promotion c in
  if negb (bool_decide (pr_Status promo = PromotionActive)) then Some SkipNotActive
  else if negb (PromotionType_Valid (pr_Type promo)) then Some SkipMechanicUnknown
  else match ca_Method c with
  | None => Some SkipNoApplicationMethod
  | Some method =>
      if negb (mechanicMatchesMethod promo (Some method)) then Some SkipRewardMismatch
      else if UsageExhausted promo then Some SkipUsageExhausted
      else if negb (pr_IsAutomatic promo) && negb (Contains (in_Codes in_) (pr_Code promo)) then
        Some SkipCodeNotGiven
      else if negb (campaignUsable c (default zero_time (in_At in_))) then Some SkipCampaignClosed
      else if negb (campaignBudgetCurrencyMatches c (in_CurrencyCode in_)) then
        Some SkipCurrencyMismatch
      else if bool_decide (am_Type method = MethodFixed) &&
              negb (bool_decide (am_CurrencyCode method = in_CurrencyCode in_)) then
        Some SkipCurrencyMismatch
      else if negb (matchRules (ContextRules c) (in_Context in_) (in_ContextLists in_)) then
        Some SkipRulesNotMatched
      else None
  end.

Definition eligible (c : PromotionCandidate) (in_ : ComputeInput) : bool :=
  bool_decide (skipReasonOf c in_ = None).

(** Coupons before automatic promotions, then by id. *)
Definition cmp_candidate : PromotionCandidate -> PromotionCandidate -> Z :=
  cmp_then (fun a b =>
      match pr_IsAutomatic (ca_Promotion a), pr_IsAutomatic (ca_Promotion b) with
      | true, false => 1
      | false, true => -1
      | _, _ => 0
      end)
    (cmp_on (fun c => pr_ID (ca_Promotion c)) cmpS).

(** The loop of [partitionCandidates], before the sort. *)
Fixpoint partition_loop (candidates : list PromotionCandidate) (in_ : ComputeInput) :
    list PromotionCandidate * list SkippedPromotion :=
  match candidates with
  | [] => ([], [])
  | c :: candidates' =>
      let '(out, skipped) := partition_loop candidates' in_ in
      match skipReasonOf c in_ with
      | Some reason =>
          (out, mkSkippedPromotion (pr_ID (ca_Promotion c)) (pr_Code (ca_Promotion c)) reason
                  :: skipped)
      | None => (c :: out, skipped)
      end
  end.

Definition partitionCandidates (candidates : list PromotionCandidate) (in_ : ComputeInput) :
    list PromotionCandidate * list SkippedPromotion :=
  let '(out, skipped) := partition_loop candidates in_ in
  (SortFunc cmp_candidate out, skipped).

Definition unmatchedCodes (codes : list string) (eligible : list PromotionCandidate) :
    list string :=
  filter (fun code => code ∉ ((fun c => pr_Code (ca_Promotion c)) <$> eligible)) codes.

(** The loop over the eligible promotions. *)
Fixpoint apply_all (eligible : list PromotionCandidate) (a : arrays) :
    list AppliedPromotion * arrays :=
  match eligible with
  | [] => ([], a)
  | c :: eligible' =>
      let '(amount, a) := applyPromotion c a in
      let '(applied, a) := apply_all eligible' a in
      if amount <=? 0 then (applied, a)
      else
        let p := ca_Promotion c in
        (mkAppliedPromotion (pr_ID p) (pr_Code p) (pr_IsAutomatic p) amount :: applied, a)
  end.

Definition item_line (i : ComputeItem) : lineState :=
  mkLineState (ci_ID i) (ci_Amount i) (ci_UnitAmount i) (ci_Quantity i) (ci_Attributes i)
    (ci_Lists i) 0.

Definition shipping_line (m : ComputeShippingMethod) : lineState :=
  mkLineState (cs_ID m) (cs_Amount m) (cs_Amount m) 1 (cs_Attributes m) ∅ 0.

Definition line_discount (l : lineState) : LineDiscount := mkLineDiscount (ls_id l) (ls_discount l).

Definition computeDiscounts (candidates : list PromotionCandidate) (in_ : ComputeInput) :
    ComputeResult :=
  let a := mkArrays (item_line <$> in_Items in_) (shipping_line <$> in_ShippingMethods in_) in
  let '(eligible, skipped) := partitionCandidates candidates in_ in
  let '(applied, a) := apply_all eligible a in
  let items_total := sum64 (ls_discount <$> ar_items a) in
  let shipping_total := sum64 (ls_discount <$> ar_shipping a) in
  mkComputeResult (in_CurrencyCode in_) (line_discount <$> ar_items a)
    (line_discount <$> ar_shipping a) items_total shipping_total (items_total +₆₄ shipping_total)
    applied skipped (unmatchedCodes (in_Codes in_) eligible).
