(* ===== verification/PromotionCompute.v ===== *)
(** * The service around a computation: the rest of [compute.go], and [trial.go], of
    [internal/modules/promotion/service]

    Normalizing an input, the entry points, the storefront's coupon lookup and the trial of a
    promotion. The repository is a record of functions: what it answers is up to it. A service that
    was not set up, which answers every call with one error, is not modelled. *)
From S2P Require Import Prelude GoText Errors Condition PromotionModels PromotionValidate PromotionDiscounts.

Definition CodePromotionNotUsable : string := "promotion_not_usable".
Definition PromotionIDPrefix : string := "promo_".

Definition detailItemIndex : string := "item_index".
Definition detailShippingIndex : string := "shipping_index".
Definition detailCodeIndex : string := "code_index".

Definition is_typed (e : err) : bool := match e with Typed _ _ _ _ _ => true | _ => false end.

(** [errors.As] finds the first typed error of the chain, and answers that one with the detail. *)
Definition withIndex (e : err) (key : string) (index : Z) : err :=
  match head (filter (fun e => is_typed e = true) (chain e)) with
  | Some typed => WithDetails typed {[key := AInt index]}
  | None => e
  end.

Definition validateLineID (label id : string) (seen : gset string) : result (gset string) :=
  check validateText label id 1 maxIDLen ;;
  if bool_decide (id ∈ seen) then
    Fail (Invalid CodeInvalidInput "%s is repeated: %q" [AStr label; AStr id])
  else Ok ({[id]} ∪ seen).

Definition validateUnitAmount (item : ComputeItem) : option err :=
  match validateAmount "item unit price" (ci_UnitAmount item) with
  | Some e => Some e
  | None =>
      let product := ci_UnitAmount item *₆₄ ci_Quantity item in
      if negb (product =? ci_Amount item) then
        Some (Invalid CodeInvalidInput
          "the item amount has to be unit price × quantity: %d × %d = %d, %d given"
          [AInt (ci_UnitAmount item); AInt (ci_Quantity item); AInt product;
           AInt (ci_Amount item)])
      else None
  end.

(** [withIndex] on the error of a step, when it has one. *)
Definition at_index {A} (r : result A) (key : string) (index : Z) : result A :=
  match r with Ok a => Ok a | Fail e => Fail (withIndex e key index) end.

Definition at_index_opt (r : option err) (key : string) (index : Z) : option err :=
  (fun e => withIndex e key index) <$> r.

(** The loop over the items from index [i] on. *)
Fixpoint normalize_items (i : Z) (items : list ComputeItem) (seen : gset string) (subtotal : Z) :
    result (list ComputeItem) :=
  match items with
  | [] => Ok []
  | item :: items' =>
      seen ← at_index (validateLineID "item id" (ci_ID item) seen) detailItemIndex i;
      check at_index_opt (validateAmount "item amount" (ci_Amount item)) detailItemIndex i ;;
      check at_index_opt (validateQuantity "item quantity" (ci_Quantity item)) detailItemIndex i ;;
      check at_index_opt (validateUnitAmount item) detailItemIndex i ;;
      let subtotal := subtotal +₆₄ ci_Amount item in
      if MaxAmount <? subtotal then
        Fail (Invalid CodeInvalidInput "the item subtotal can be at most %d (minor unit)"
          [AInt MaxAmount])
      else
        rest ← normalize_items (i + 1) items' seen subtotal;
        Ok (item :: rest)
  end.

Fixpoint normalize_shipping (i : Z) (methods : list ComputeShippingMethod) (seen : gset string)
    (subtotal : Z) : result (list ComputeShippingMethod) :=
  match methods with
  | [] => Ok []
  | m :: methods' =>
      seen ← at_index (validateLineID "shipping method id" (cs_ID m) seen) detailShippingIndex i;
      check at_index_opt (validateAmount "shipping amount" (cs_Amount m)) detailShippingIndex i ;;
      let subtotal := subtotal +₆₄ cs_Amount m in
      if MaxAmount <? subtotal then
        Fail (Invalid CodeInvalidInput "the shipping subtotal can be at most %d (minor unit)"
          [AInt MaxAmount])
      else
        rest ← normalize_shipping (i + 1) methods' seen subtotal;
        Ok (m :: rest)
  end.

Fixpoint normalize_codes_from (i : Z) (codes : list string) (seen : gset string) :
    result (list string) :=
  match codes with
  | [] => Ok []
  | raw :: codes' =>
      code ← at_index (normalizeCode raw) detailCodeIndex i;
      if bool_decide (code ∈ seen) then normalize_codes_from (i + 1) codes' seen
      else
        rest ← normalize_codes_from (i + 1) codes' ({[code]} ∪ seen);
        Ok (code :: rest)
  end.

Definition normalizeCodes (codes : list string) : result (list string) :=
  if Z.of_nat (length codes) =? 0 then Ok []
  else if MaxCodesPerCompute <? Z.of_nat (length codes) then
    Fail (Invalid CodeInvalidInput
      "at most %d coupon codes can be given in a single computation, %d given"
      [AInt MaxCodesPerCompute; AInt (Z.of_nat (length codes))])
  else normalize_codes_from 0 codes ∅.

Definition normalizeComputeInput (in_ : ComputeInput) (now : moment) : result ComputeInput :=
  currency ← normalizeCurrency (in_CurrencyCode in_);
  if MaxComputeLines <? Z.of_nat (length (in_Items in_)) then
    Fail (Invalid CodeInvalidInput "a computation can carry at most %d items, %d given"
      [AInt MaxComputeLines; AInt (Z.of_nat (length (in_Items in_)))])
  else if MaxComputeLines <? Z.of_nat (length (in_ShippingMethods in_)) then
    Fail (Invalid CodeInvalidInput "a computation can carry at most %d shipping methods, %d given"
      [AInt MaxComputeLines; AInt (Z.of_nat (length (in_ShippingMethods in_)))])
  else
    items ← normalize_items 0 (in_Items in_) ∅ 0;
    shipping ← normalize_shipping 0 (in_ShippingMethods in_) ∅ 0;
    codes ← normalizeCodes (in_Codes in_);
    Ok (mkComputeInput currency (in_Context in_) (in_ContextLists in_) items shipping codes
          (Some (default now (in_At in_)))).

(** ** The repository and the entry points *)

Record Repository := mkRepository {
  ListCandidates : list string -> result (list PromotionCandidate);
  ListCandidatesForDiagnosis : list string -> result (list PromotionCandidate);
  repo_GetPromotion : string -> result Promotion;
  repo_GetPromotionByCode : string -> result Promotion;
  repo_GetApplicationMethod : string -> result ApplicationMethod;
  repo_GetCampaign : string -> result Campaign;
  repo_ListPromotionRules : string -> result (list PromotionRule)
}.

Section Service.
Context (repo : Repository).

Definition ComputeDiscounts (in_ : ComputeInput) (clock : moment) : result ComputeResult :=
  normalized ← normalizeComputeInput in_ clock;
  candidates ← ListCandidates repo (in_Codes normalized);
  Ok (computeDiscounts candidates normalized).

Definition ExplainDiscounts (in_ : ComputeInput) (clock : moment) : result ComputeResult :=
  normalized ← normalizeComputeInput in_ clock;
  candidates ← ListCandidatesForDiagnosis repo (in_Codes normalized);
  Ok (computeDiscounts candidates normalized).

(** ** The storefront's coupon *)

Definition storeCouponVisible (c : PromotionCandidate) (at_ : moment) : bool :=
  let promo := ca_Promotion c in
  if negb (bool_decide (pr_Status promo = PromotionActive)) || negb (PromotionType_Valid (pr_Type promo))
  then false
  else if negb (mechanicMatchesMethod promo (ca_Method c)) then false
  else if UsageExhausted promo then false
  else campaignUsable c at_.

Record StoreCoupon := mkStoreCoupon {
  sc_Code : string;
  sc_Mechanic : PromotionType;
  sc_BuyQuantity : option Z;
  sc_ApplyToQuantity : option Z;
  sc_MethodType : ApplicationMethodType;
  sc_TargetType : ApplicationTargetType;
  sc_Value : Z;
  sc_CurrencyCode : string
}.

Definition notUsable (code : string) : err :=
  NotFound CodePromotionNotUsable "coupon is not usable: %s" [AStr (TrimSpace code)].

(** A record that may be missing: only "not found" counts as missing. *)
Definition optional {A} (r : result A) : result (option A) :=
  match r with
  | Ok a => Ok (Some a)
  | Fail e => if IsNotFound (Some e) then Ok None else Fail e
  end.

Definition storeCandidate (code : string) : result PromotionCandidate :=
  promo ← repo_GetPromotionByCode repo code;
  method ← optional (repo_GetApplicationMethod repo (pr_ID promo));
  campaign ← match pr_CampaignID promo with
             | None => Ok None
             | Some id => optional (repo_GetCampaign repo id)
             end;
  Ok (mkPromotionCandidate promo campaign method []).

Definition LookupStoreCoupon (code : string) (clock : moment) : result StoreCoupon :=
  match normalizeCode code with
  | Fail _ => Fail (notUsable code)
  | Ok normalized =>
      match storeCandidate normalized with
      | Fail e => if IsNotFound (Some e) then Fail (notUsable normalized) else Fail e
      | Ok candidate =>
          if negb (storeCouponVisible candidate clock) then Fail (notUsable normalized)
          else match ca_Method candidate with
          | None => Fail (notUsable normalized)
          | Some m =>
              Ok (mkStoreCoupon (pr_Code (ca_Promotion candidate)) (pr_Type (ca_Promotion candidate))
                    (am_BuyQuantity m) (am_ApplyToQuantity m) (am_Type m) (am_TargetType m)
                    (am_Value m) (am_CurrencyCode m))
          end
      end
  end.

(** ** Trying a promotion on past purchases: [trial.go] *)

Definition MaxTrialEntries : Z := 5000.
Definition CodeTrialCannotApply : string := "promotion_trial_cannot_apply".

Definition reasonsNoPurchaseChanges : list SkipReason :=
  [SkipMechanicUnknown; SkipNoApplicationMethod; SkipRewardMismatch].

Record TrialEntry := mkTrialEntry { te_Reference : string; te_Input : ComputeInput }.

(** [to_Skipped] is [None] for the empty reason. *)
Record TrialOutcome := mkTrialOutcome {
  to_Reference : string;
  to_AlreadyApplied : bool;
  to_Skipped : option SkipReason;
  to_Result : ComputeResult
}.

Definition empty_result : ComputeResult := mkComputeResult EmptyString [] [] 0 0 0 [] [] [].

Definition asPublished (c : PromotionCandidate) : PromotionCandidate :=
  let p := ca_Promotion c in
  mkPromotionCandidate
    (mkPromotion (pr_ID p) (pr_Code p) true (pr_Type p) None PromotionActive None
       (pr_UsageCount p) (pr_Metadata p) (pr_CreatedAt p) (pr_UpdatedAt p) (pr_DeletedAt p))
    None (ca_Method c) (ca_Rules c).

Definition SkipReason_text (r : SkipReason) : string :=
  match r with
  | SkipNotActive => "not_active"
  | SkipMechanicUnknown => "mechanic_unknown"
  | SkipNoApplicationMethod => "no_application_method"
  | SkipRewardMismatch => "reward_mismatch"
  | SkipUsageExhausted => "usage_exhausted"
  | SkipCodeNotGiven => "code_not_given"
  | SkipCampaignClosed => "campaign_closed"
  | SkipCurrencyMismatch => "currency_mismatch"
  | SkipRulesNotMatched => "rules_not_matched"
  end.

(** The empty input a promotion is probed with, in its method's currency. *)
Definition probe_input (currency : string) : ComputeInput :=
  mkComputeInput currency ∅ ∅ [] [] [] None.

Definition trialCandidate (promotionID : string) : result PromotionCandidate :=
  check requireID promotionID PromotionIDPrefix "promotion id" ;;
  promotion ← repo_GetPromotion repo promotionID;
  method ← optional (repo_GetApplicationMethod repo promotionID);
  _ ← repo_GetPromotion repo promotionID;
  rules ← repo_ListPromotionRules repo promotionID;
  let published := asPublished (mkPromotionCandidate promotion None method rules) in
  let currency := match method with Some m => am_CurrencyCode m | None => EmptyString end in
  match skipReasonOf published (probe_input currency) with
  | Some reason =>
      if bool_decide (reason ∈ reasonsNoPurchaseChanges) then
        Fail (Conflict CodeTrialCannotApply "promotion %s discounts nothing on any purchase: %s"
          [AStr promotionID; AStr (SkipReason_text reason)])
      else Ok published
  | None => Ok published
  end.

Definition without_codes (in_ : ComputeInput) : ComputeInput :=
  mkComputeInput (in_CurrencyCode in_) (in_Context in_) (in_ContextLists in_) (in_Items in_)
    (in_ShippingMethods in_) [] (in_At in_).

(** The loop over the entries. [redeemed] holds the references that redeemed the promotion
    ([liveReferences]); [clock i] is what the clock reads at the [i]-th entry. *)
Fixpoint trial_entries (candidate : PromotionCandidate) (redeemed : gset string)
    (clock : nat -> moment) (i : nat) (entries : list TrialEntry) : result (list TrialOutcome) :=
  match entries with
  | [] => Ok []
  | e :: entries' =>
      if bool_decide (te_Reference e ∈ redeemed) && negb (bool_decide (te_Reference e = EmptyString))
      then
        rest ← trial_entries candidate redeemed clock (S i) entries';
        Ok (mkTrialOutcome (te_Reference e) true None empty_result :: rest)
      else
        normalized ← normalizeComputeInput (without_codes (te_Input e)) (clock i);
        let r := computeDiscounts [candidate] normalized in
        rest ← trial_entries candidate redeemed clock (S i) entries';
        Ok (mkTrialOutcome (te_Reference e) false (sp_Reason <$> head (cr_Skipped r)) r :: rest)
  end.

Definition TrialDiscounts (promotionID : string) (redeemed : result (gset string))
    (clock : nat -> moment)
    (entries : list TrialEntry) : result (list TrialOutcome) :=
  if MaxTrialEntries <? Z.of_nat (length entries) then
    Fail (Invalid CodeInvalidInput
      "a trial prices at most %d purchases, %d given; narrow the period"
      [AInt MaxTrialEntries; AInt (Z.of_nat (length entries))])
  else
    candidate ← trialCandidate promotionID;
    redeemed ← redeemed;
    trial_entries candidate redeemed clock 0 entries.
End Service.
