(* ===== verification/PromotionAlloc.v ===== *)
(** * Sharing a discount out: what [allocateAcross] computes

    Floor shares by 128-bit division, the units left over to the largest remainders. What the loops
    compute is brought to closed forms here; the properties are in PromotionProps. *)
From S2P Require Import Prelude GoText PromotionModels PromotionDiscounts.

(** ** Sums and sorted lists *)

Lemma sumZ_fmap_mul {A} (f : A -> Z) c l : sumZ ((fun x => c * f x) <$> l) = c * sumZ (f <$> l).
Proof. induction l as [|x l IH]; csimpl; rewrite ?sumZ_nil, ?sumZ_cons, ?IH; lia. Qed.

Lemma sumZ_fmap_add {A} (f g : A -> Z) l :
  sumZ ((fun x => f x + g x) <$> l) = sumZ (f <$> l) + sumZ (g <$> l).
Proof. induction l as [|x l IH]; csimpl; rewrite ?sumZ_nil, ?sumZ_cons, ?IH; lia. Qed.

Lemma sumZ_bound l b : Forall (fun x => x <= b) l -> sumZ l <= Z.of_nat (length l) * b.
Proof. induction 1; rewrite ?sumZ_nil, ?sumZ_cons; cbn [length]; lia. Qed.

(** In a descending list of remainders below [base] that adds up to [k * base], the first [k] are
    positive. *)
Lemma descending_prefix (l : list Z) base k :
  StronglySorted (flip Z.le) l -> Forall (fun r => 0 <= r < base) l ->
  sumZ l = Z.of_nat k * base -> Forall (Z.lt 0) (take k l).
Proof.
  intros Hs Hl Hsum. apply Forall_forall. intros r Hr.
  destruct (decide (0 < r)) as [|Hpos]; [done|exfalso].
  rewrite <- (take_drop k l) in Hs, Hl, Hsum. rewrite sumZ_app in Hsum.
  apply Forall_app in Hl as [Hl1 Hl2].
  assert (sumZ (drop k l) <= Z.of_nat (length (drop k l)) * 0) as Hd.
  { apply sumZ_bound, Forall_forall. intros x Hx.
    pose proof (StronglySorted_app_1_elem_of _ _ _ _ _ Hs Hr Hx) as Hle. simpl in Hle. lia. }
  assert (sumZ (take k l) <= Z.of_nat (length (take k l)) * (base - 1)) as Ht.
  { apply sumZ_bound. eapply Forall_impl; [exact Hl1|]. simpl. lia. }
  assert (0 < base) by (rewrite Forall_forall in Hl1; specialize (Hl1 _ Hr); lia).
  destruct (take k l) as [|x t] eqn:Hk; [by apply elem_of_nil in Hr|].
  assert (length (x :: t) <= k)%nat by (rewrite <- Hk, length_take; lia).
  cbn [length] in *. nia.
Qed.

(** ** [mulDivMod] *)

Lemma two_words z : 0 <= z -> z / 2 ^ 64 * 2 ^ 64 + z mod 2 ^ 64 = z.
Proof. intros. pose proof (Z.div_mod z (2 ^ 64)). lia. Qed.

(** With [a <= d] and both in range, the product divided is exact. *)
Lemma mulDivMod_exact a b d :
  0 < a <= d -> 0 < b <= int64_max -> d <= int64_max ->
  mulDivMod a b d = (a * b / d, (a * b) mod d).
Proof.
  intros Ha Hb Hd. unfold mulDivMod.
  destruct (_ || _) eqn:E; [lia|]. rewrite two_words by nia.
  assert (a * b / 2 ^ 64 < d) by (apply Z.div_lt_upper_bound; unfold int64_max in *; nia).
  rewrite (proj2 (Z.leb_gt _ _)) by lia.
  assert (a * b / d <= b) by (apply Z.div_le_upper_bound; nia).
  pose proof (Z.mod_pos_bound (a * b) d ltac:(lia)).
  rewrite !(proj2 (Z.ltb_ge int64_max _)) by lia. done.
Qed.

(** ** The floor shares *)

Section Alloc.
Context (total base : Z).

Definition line_floor (l : allocLine) : Z :=
  if al_Amount l <=? 0 then 0 else total * al_Amount l / base.

Definition line_rem (l : allocLine) : Z := (total * al_Amount l) mod base.

Definition share_at (p : nat * allocLine) : option share :=
  if al_Amount p.2 <=? 0 then None
  else Some (mkShare p.1 (line_rem p.2) (al_Amount p.2) (al_ID p.2)).

Definition shares_from (i : nat) (lines : list allocLine) : list share :=
  omap share_at (zip (seq i (length lines)) lines).

(** The share of a line wherever it stands. *)
Definition rank_of (l : allocLine) : share := mkShare 0 (line_rem l) (al_Amount l) (al_ID l).

Definition unplaced (s : share) : share := mkShare 0 (sh_remainder s) (sh_amount s) (sh_id s).

Definition positive (lines : list allocLine) : list allocLine :=
  filter (fun l => 0 < al_Amount l) lines.

Lemma shares_from_cons i l lines :
  shares_from i (l :: lines) =
    (if al_Amount l <=? 0 then [] else [mkShare i (line_rem l) (al_Amount l) (al_ID l)])
    ++ shares_from (S i) lines.
Proof. unfold shares_from, share_at. csimpl. by destruct (al_Amount l <=? 0). Qed.

Lemma floor_shares_spec i lines :
  0 < total <= base -> base <= int64_max ->
  Forall (fun l => al_Amount l <= int64_max) lines ->
  floor_shares total base i lines = (line_floor <$> lines, shares_from i lines).
Proof.
  intros Ht Hb Hl. revert i. induction Hl as [|l lines Hl _ IH]; intros i; [done|].
  cbn [floor_shares]. rewrite IH, shares_from_cons. csimpl. unfold line_floor at 3.
  destruct (al_Amount l <=? 0) eqn:E; [done|].
  rewrite mulDivMod_exact by lia. done.
Qed.

Lemma elem_of_shares_from s i lines :
  s ∈ shares_from i lines <->
  exists j l, lines !! j = Some l /\ 0 < al_Amount l /\
    s = mkShare (i + j) (line_rem l) (al_Amount l) (al_ID l).
Proof.
  revert i. induction lines as [|l lines IH]; intros i.
  { split; [by intros ?%elem_of_nil|]. by intros (j & l & ? & _). }
  rewrite shares_from_cons, elem_of_app, IH. split.
  - intros [Hs|(j & l' & Hj & Hpos & ->)].
    + destruct (al_Amount l <=? 0) eqn:E; [by apply elem_of_nil in Hs|].
      apply list_elem_of_singleton in Hs as ->. exists 0%nat, l. split_and!; [done|lia|].
      by rewrite Nat.add_0_r.
    + exists (S j), l'. split_and!; [done|done|]. f_equal. lia.
  - intros ([|j] & l' & Hj & Hpos & ->); simpl in Hj.
    + injection Hj as ->. left. rewrite (proj2 (Z.leb_gt _ _)) by lia.
      rewrite Nat.add_0_r. apply list_elem_of_here.
    + right. exists j, l'. split_and!; [done|done|]. f_equal. lia.
Qed.

Lemma NoDup_shares_index i lines : NoDup (sh_index <$> shares_from i lines).
Proof.
  revert i. induction lines as [|l lines IH]; intros i; [constructor|].
  rewrite shares_from_cons. destruct (al_Amount l <=? 0); [apply IH|].
  cbn [app fmap list_fmap]. constructor; [|apply IH].
  intros (s & Hs & Hin)%list_elem_of_fmap.
  apply elem_of_shares_from in Hin as (j & l' & _ & _ & ->). simpl in Hs. lia.
Qed.

Lemma shares_unplaced i lines : unplaced <$> shares_from i lines = rank_of <$> positive lines.
Proof.
  revert i. induction lines as [|l lines IH]; intros i; [done|].
  rewrite shares_from_cons, fmap_app, IH. unfold positive. rewrite filter_cons.
  destruct (decide (0 < al_Amount l)).
  - by rewrite (proj2 (Z.leb_gt _ _)) by lia.
  - by rewrite (proj2 (Z.leb_le _ _)) by lia.
Qed.

(** Floors and remainders account for the whole total. *)
Lemma floors_and_remainders lines :
  0 < base ->
  total * sumZ (al_Amount <$> positive lines) =
  base * sumZ (line_floor <$> lines) + sumZ (sh_remainder <$> shares_from 0 lines).
Proof.
  intros Hb. generalize 0%nat as i.
  induction lines as [|l lines IH]; intros i.
  { unfold positive. csimpl. rewrite !sumZ_nil. lia. }
  rewrite shares_from_cons, fmap_app, sumZ_app. csimpl. rewrite sumZ_cons.
  specialize (IH (S i)). unfold positive in *. rewrite filter_cons. unfold line_floor at 1.
  destruct (decide (0 < al_Amount l)).
  - rewrite (proj2 (Z.leb_gt _ _)) by lia. csimpl. rewrite !sumZ_cons, sumZ_nil. unfold line_rem.
    pose proof (Z.div_mod (total * al_Amount l) base). nia.
  - rewrite (proj2 (Z.leb_le _ _)) by lia. csimpl. rewrite sumZ_nil. lia.
Qed.

(** ** The order of the shares *)

#[export] Instance cmp_share_order : CmpOrder cmp_share.
Proof.
  apply cmp_then_order; [|apply cmp_then_order; [|apply _]].
  - apply (cmp_flip_order (cmp_on sh_remainder cmpZ)), _.
  - apply (cmp_flip_order (cmp_on sh_amount cmpZ)), _.
Qed.

Lemma cmpZ_eq a b : cmpZ a b = 0 -> a = b.
Proof. unfold cmpZ. destruct (Z.compare_spec a b); lia. Qed.

Lemma cmp_share_eq a b :
  cmp_share a b = 0 ->
  sh_remainder a = sh_remainder b /\ sh_amount a = sh_amount b /\ sh_id a = sh_id b.
Proof.
  unfold cmp_share, cmp_then, cmp_on.
  destruct (Z.eqb_spec (cmpZ (sh_remainder b) (sh_remainder a)) 0) as [H1|]; [|lia].
  destruct (Z.eqb_spec (cmpZ (sh_amount b) (sh_amount a)) 0) as [H2|]; [|lia].
  intros H3%cmpS_eq. apply cmpZ_eq in H1, H2. done.
Qed.

(** Ranking does not look at where a line stands. *)
Lemma sort_unplaced shares :
  unplaced <$> SortFunc cmp_share shares = SortFunc cmp_share (unplaced <$> shares).
Proof.
  symmetry. apply SortFunc_unique; [apply _| | |].
  - intros a b (a' & -> & _)%list_elem_of_fmap (b' & -> & _)%list_elem_of_fmap
      (Hr & Ha & Hi)%cmp_share_eq. simpl in *. unfold unplaced. by rewrite Hr, Ha, Hi.
  - by rewrite SortFunc_perm.
  - apply (StronglySorted_fmap unplaced (cmp_le cmp_share)); [done|apply SortFunc_sorted, _].
Qed.

Lemma sorted_remainders shares :
  StronglySorted (flip Z.le) (sh_remainder <$> SortFunc cmp_share shares).
Proof.
  apply (StronglySorted_fmap sh_remainder (cmp_le cmp_share)); [|apply SortFunc_sorted, _].
  intros a b. unfold cmp_le, cmp_share, cmp_then, cmpZ. simpl.
  destruct (Z.compare_spec (sh_remainder b) (sh_remainder a)); simpl; lia.
Qed.
End Alloc.

(** ** The units left over *)

(** One more for each of the positions. *)
Definition bump (out : list Z) (positions : list nat) : list Z :=
  foldl (fun out i => alter Z.succ i out) out positions.

Lemma bump_length out positions : length (bump out positions) = length out.
Proof. revert out. induction positions; intros out; simpl; [done|]. by rewrite IHpositions, length_alter. Qed.

Lemma bump_sum out positions :
  Forall (fun i => (i < length out)%nat) positions ->
  sumZ (bump out positions) = sumZ out + Z.of_nat (length positions).
Proof.
  revert out. induction positions as [|i positions IH]; intros out Hp; cbn [bump foldl length].
  { lia. }
  apply Forall_cons in Hp as [Hi Hp]. fold (bump (alter Z.succ i out) positions).
  rewrite IH by (by rewrite length_alter).
  assert (sumZ (alter Z.succ i out) = sumZ out + 1) as ->; [|lia].
  clear -Hi. revert i Hi. induction out as [|v out IH]; intros [|i] Hi; simpl in *; try lia.
  - rewrite !sumZ_cons. lia.
  - rewrite !sumZ_cons. specialize (IH i ltac:(lia)). unfold alter in IH. lia.
Qed.

Lemma bump_lookup out positions i :
  NoDup positions ->
  bump out positions !! i = (fun v => if bool_decide (i ∈ positions) then v + 1 else v) <$> out !! i.
Proof.
  intros Hn. revert out. induction Hn as [|j positions Hj Hn IH]; intros out; cbn [bump foldl].
  { rewrite bool_decide_eq_false_2 by apply not_elem_of_nil. by destruct (out !! i). }
  fold (bump (alter Z.succ j out) positions). rewrite IH.
  destruct (decide (i = j)) as [->|Hne].
  - rewrite list_lookup_alter, decide_True by done. rewrite (bool_decide_eq_false_2 (j ∈ positions)) by done.
    rewrite (bool_decide_eq_true_2 (j ∈ j :: positions)) by apply list_elem_of_here. by destruct (out !! j).
  - rewrite list_lookup_alter_ne by done. destruct (out !! i) as [v|]; simpl; [|done].
    rewrite (bool_decide_ext _ (i ∈ j :: positions)); [done|].
    rewrite elem_of_cons. split; [by right|by intros [?|?]].
Qed.

Lemma bump_nonneg out positions : Forall (Z.le 0) out -> Forall (Z.le 0) (bump out positions).
Proof.
  revert out. induction positions as [|i positions IH]; intros out Ho; [done|].
  apply IH. apply Forall_alter; [done|]. intros. simpl. lia.
Qed.

(** The loop gives to the first [k] of the ranking; no share overflows on the way. *)
Lemma give_leftover_spec out shares k :
  Forall (Z.le 0) out -> 0 <= k -> sumZ out + k <= int64_max ->
  Forall (fun s => (sh_index s < length out)%nat) shares ->
  give_leftover out shares k = bump out (sh_index <$> take (Z.to_nat k) shares).
Proof.
  intros Ho Hk Hs Hi. revert out k Ho Hk Hs Hi.
  induction shares as [|s shares IH]; intros out k Ho Hk Hs Hi; cbn [give_leftover].
  { by rewrite take_nil. }
  apply Forall_cons in Hi as [Hi His].
  destruct (0 <? k) eqn:E; [|by replace (Z.to_nat k) with 0%nat by lia].
  replace (Z.to_nat k) with (S (Z.to_nat (k - 1))) by lia. cbn [take fmap list_fmap bump foldl].
  pose proof (sumZ_nonneg _ Ho).
  rewrite sub64_exact by in64.
  assert (alter (fun v => v +₆₄ 1) (sh_index s) out = alter Z.succ (sh_index s) out) as ->.
  { apply list_alter_ext; [|done]. intros v Hv. apply list_elem_of_lookup_2 in Hv.
    pose proof (sumZ_le_elem _ _ Ho Hv). rewrite Forall_forall in Ho. specialize (Ho _ Hv).
    rewrite add64_exact by in64. lia. }
  change (alter Z.succ (sh_index s) out) with (bump out [sh_index s]). apply IH.
  - by apply bump_nonneg.
  - lia.
  - rewrite bump_sum by (repeat constructor; done). simpl. lia.
  - by rewrite bump_length.
Qed.

(** ** The closed form *)

(** The sum of the lines a share can go to; [allocateAcross] assumes it fits an [int64]. *)
Definition base_of (lines : list allocLine) : Z := sumZ (al_Amount <$> positive lines).

Lemma positive_amounts lines : Forall (Z.le 0) (al_Amount <$> positive lines).
Proof.
  apply Forall_fmap, Forall_forall. intros l [Hl _]%list_elem_of_filter. simpl. lia.
Qed.

Lemma base_of_nonneg lines : 0 <= base_of lines.
Proof. apply sumZ_nonneg, positive_amounts. Qed.

Lemma amount_le_base lines l : l ∈ lines -> al_Amount l <= base_of lines.
Proof.
  intros Hl. destruct (decide (0 < al_Amount l)); [|pose proof (base_of_nonneg lines); lia].
  apply sumZ_le_elem; [apply positive_amounts|]. apply list_elem_of_fmap. exists l.
  split; [done|]. by apply list_elem_of_filter.
Qed.

(** The total that is handed out. *)
Definition handed_out (total : Z) (lines : list allocLine) : Z :=
  Z.max 0 (Z.min total (base_of lines)).

Section Closed.
Context (total : Z) (lines : list allocLine).
Context (Hrange : base_of lines <= int64_max).

Lemma allocateAcross_nothing :
  handed_out total lines = 0 -> allocateAcross total lines = replicate (length lines) 0.
Proof.
  unfold handed_out. intros Ht. unfold allocateAcross. destruct (_ || _) eqn:E; [done|].
  assert (alloc_base lines = base_of lines) as ->.
  { apply sum64_exact; [apply positive_amounts|done]. }
  destruct (base_of lines <=? 0) eqn:E2; [done|]. lia.
Qed.

Context (Hsome : 0 < handed_out total lines).

Let paid := handed_out total lines.
Let base := base_of lines.

Definition floors : list Z := line_floor paid base <$> lines.
Definition ranking : list share := SortFunc cmp_share (shares_from paid base 0 lines).
Definition over : Z := paid - sumZ floors.

Lemma base_pos : 0 < base.
Proof. revert Hsome. unfold handed_out, base. lia. Qed.

Lemma paid_bounds : 0 < paid <= base.
Proof. revert Hsome. unfold paid, base, handed_out. lia. Qed.

Lemma line_floor_bounds l : 0 <= line_floor paid base l <= Z.max 0 (al_Amount l).
Proof.
  pose proof paid_bounds. unfold line_floor. destruct (al_Amount l <=? 0) eqn:E; [lia|]. split.
  - apply Z.div_pos; nia.
  - apply Z.div_le_upper_bound; nia.
Qed.

Lemma floors_nonneg : Forall (Z.le 0) floors.
Proof. apply Forall_fmap, Forall_forall. intros l _. apply line_floor_bounds. Qed.

Lemma line_rem_bounds l : 0 <= line_rem paid base l < base.
Proof. apply Z.mod_pos_bound, base_pos. Qed.

Lemma over_remainders : base * over = sumZ (sh_remainder <$> ranking).
Proof.
  unfold ranking. rewrite (sumZ_perm (sh_remainder <$> _) (sh_remainder <$> shares_from paid base 0 lines))
    by by rewrite SortFunc_perm.
  pose proof (floors_and_remainders paid base lines base_pos) as H. fold base_of in H.
  change (sumZ (al_Amount <$> positive lines)) with base in H. unfold over, floors. lia.
Qed.

Lemma ranking_rem : Forall (fun r => 0 <= r < base) (sh_remainder <$> ranking).
Proof.
  apply Forall_fmap, Forall_forall. intros s Hs. apply SortFunc_elem in Hs.
  apply elem_of_shares_from in Hs as (j & l & _ & _ & ->). apply line_rem_bounds.
Qed.

Lemma over_bounds : 0 <= over <= Z.of_nat (length ranking).
Proof.
  pose proof over_remainders as Ho. pose proof base_pos.
  assert (0 <= sumZ (sh_remainder <$> ranking)).
  { apply sumZ_nonneg. eapply Forall_impl; [apply ranking_rem|]. simpl. lia. }
  assert (sumZ (sh_remainder <$> ranking) <= Z.of_nat (length (sh_remainder <$> ranking)) * base).
  { apply sumZ_bound. eapply Forall_impl; [apply ranking_rem|]. simpl. lia. }
  rewrite length_fmap in *. nia.
Qed.

Lemma ranking_in_range : Forall (fun s => (sh_index s < length floors)%nat) ranking.
Proof.
  apply Forall_forall. intros s Hs. apply SortFunc_elem in Hs.
  apply elem_of_shares_from in Hs as (j & l & Hj & _ & ->). unfold floors. rewrite length_fmap.
  by eapply lookup_lt_Some.
Qed.

(** Who gets one of the units left over. *)
Definition lucky : list nat := sh_index <$> take (Z.to_nat over) ranking.

Lemma allocateAcross_closed : allocateAcross total lines = bump floors lucky.
Proof.
  pose proof paid_bounds as Hp. pose proof base_pos as Hb. unfold allocateAcross.
  assert (alloc_base lines = base) as Hab.
  { apply sum64_exact; [apply positive_amounts|done]. }
  assert ((Z.of_nat (length lines) =? 0) = false) as ->.
  { destruct lines; [|done]. by revert Hb. }
  destruct (total <=? 0) eqn:E; [revert Hsome; unfold handed_out; lia|]. cbn [orb].
  rewrite Hab, (proj2 (Z.leb_gt _ _)) by lia.
  assert ((if base <? total then base else total) = paid) as ->.
  { unfold paid, handed_out. fold base. destruct (Z.ltb_spec base total); lia. }
  rewrite floor_shares_spec; [|done|done|].
  2:{ apply Forall_forall. intros l Hl. pose proof (amount_le_base lines l Hl). lia. }
  fold floors. pose proof over_bounds as Hov. pose proof (sumZ_nonneg _ floors_nonneg).
  assert (sumZ floors <= paid) by (unfold over in Hov; lia).
  rewrite sum64_exact; [|apply floors_nonneg|unfold base in *; lia].
  rewrite sub64_exact by (unfold base in *; in64). fold over.
  apply give_leftover_spec.
  - apply floors_nonneg.
  - lia.
  - unfold over, base in *. lia.
  - apply ranking_in_range.
Qed.

Lemma lucky_NoDup : NoDup lucky.
Proof.
  unfold lucky. rewrite fmap_take. apply (NoDup_app _ (drop (Z.to_nat over) (sh_index <$> ranking))).
  rewrite take_drop. unfold ranking. rewrite SortFunc_perm. apply NoDup_shares_index.
Qed.

Lemma lucky_length : Z.of_nat (length lucky) = over.
Proof. unfold lucky. rewrite length_fmap, length_take. pose proof over_bounds. lia. Qed.

(** A unit left over goes to a line with a remainder. *)
Lemma lucky_line i :
  i ∈ lucky -> exists l, lines !! i = Some l /\ 0 < al_Amount l /\ 0 < line_rem paid base l.
Proof.
  intros (s & -> & Hs)%list_elem_of_fmap.
  assert (0 < sh_remainder s) as Hr.
  { assert (Forall (Z.lt 0) (take (Z.to_nat over) (sh_remainder <$> ranking))) as Hf.
    { apply (descending_prefix _ base).
      - apply sorted_remainders.
      - apply ranking_rem.
      - pose proof over_bounds. rewrite <- over_remainders, Z2Nat.id by lia. lia. }
    rewrite <- fmap_take, Forall_fmap, Forall_forall in Hf. exact (Hf s Hs). }
  apply (subseteq_take (Z.to_nat over)) in Hs. apply SortFunc_elem in Hs.
  apply elem_of_shares_from in Hs as (j & l & Hj & Hpos & ->). exists l. done.
Qed.

Lemma allocateAcross_total : sumZ (allocateAcross total lines) = paid.
Proof.
  rewrite allocateAcross_closed, bump_sum, lucky_length; [unfold over; lia|].
  unfold lucky. apply Forall_fmap, Forall_take, ranking_in_range.
Qed.

Lemma allocateAcross_lookup i l :
  lines !! i = Some l ->
  allocateAcross total lines !! i =
    Some (line_floor paid base l + (if bool_decide (i ∈ lucky) then 1 else 0)).
Proof.
  intros Hi. rewrite allocateAcross_closed, bump_lookup by apply lucky_NoDup.
  unfold floors. rewrite list_lookup_fmap, Hi. simpl. case_bool_decide; f_equal; lia.
Qed.

(** A line's share, by its id: what it is given does not depend on where it stands. *)
Definition lucky_ids : list string :=
  sh_id <$> take (Z.to_nat over)
    (SortFunc cmp_share (rank_of paid base <$> positive lines)).

Lemma lucky_by_id i l :
  NoDup (al_ID <$> lines) -> lines !! i = Some l ->
  i ∈ lucky <-> 0 < al_Amount l /\ al_ID l ∈ lucky_ids.
Proof.
  intros Hids Hi. unfold lucky, lucky_ids.
  rewrite <- (shares_unplaced paid base 0), <- sort_unplaced, <- fmap_take, <- list_fmap_compose.
  fold ranking. rewrite !list_elem_of_fmap. simpl.
  assert (forall s, s ∈ take (Z.to_nat over) ranking ->
    exists j l, lines !! j = Some l /\ 0 < al_Amount l /\
      s = mkShare j (line_rem paid base l) (al_Amount l) (al_ID l)) as Hshare.
  { intros s Hs. apply (subseteq_take (Z.to_nat over)), SortFunc_elem in Hs.
    by apply elem_of_shares_from in Hs. }
  split.
  - intros (s & -> & Hs). destruct (Hshare s Hs) as (j & l' & Hj & Hpos & ->). simpl in *.
    assert (l' = l) as -> by congruence. split; [done|]. eexists. split; [|exact Hs]. done.
  - intros (_ & s & Hid & Hs). exists s. split; [|done].
    destruct (Hshare s Hs) as (j & l' & Hj & Hpos & ->). simpl in *.
    apply (NoDup_lookup (al_ID <$> lines) i j (al_ID l)); [done|by rewrite list_lookup_fmap, Hi|].
    by rewrite list_lookup_fmap, Hj, Hid.
Qed.
End Closed.

(** What a line gets, as a function of the line. *)
Definition share_for (total : Z) (lines : list allocLine) (l : allocLine) : Z :=
  line_floor (handed_out total lines) (base_of lines) l +
  (if bool_decide (0 < al_Amount l /\ al_ID l ∈ lucky_ids total lines) then 1 else 0).

Lemma allocateAcross_share_for total lines :
  base_of lines <= int64_max -> 0 < handed_out total lines -> NoDup (al_ID <$> lines) ->
  allocateAcross total lines = share_for total lines <$> lines.
Proof.
  intros Hrange Hsome Hids. apply list_eq. intros i. rewrite list_lookup_fmap.
  destruct (lines !! i) as [l|] eqn:Hl; simpl.
  - rewrite (allocateAcross_lookup total lines Hrange Hsome i l Hl). f_equal. unfold share_for.
    f_equal. by rewrite (bool_decide_ext _ _ (lucky_by_id total lines i l Hids Hl)).
  - apply lookup_ge_None. rewrite allocateAcross_closed by done. unfold floors.
    rewrite bump_length, length_fmap. by apply lookup_ge_None.
Qed.

(** Who is lucky is a matter of which lines there are. *)
Lemma lucky_ids_perm total lines lines' :
  NoDup (al_ID <$> lines) -> lines ≡ₚ lines' -> lucky_ids total lines = lucky_ids total lines'.
Proof.
  intros Hids Hperm.
  assert (positive lines ≡ₚ positive lines') as Hpos by (unfold positive; by rewrite Hperm).
  assert (base_of lines' = base_of lines) as Hbase.
  { unfold base_of. symmetry. apply sumZ_perm. by rewrite Hpos. }
  unfold lucky_ids, over, floors, handed_out. rewrite Hbase.
  rewrite (sumZ_perm _ _ (fmap_Permutation (line_floor _ _) _ _ Hperm)).
  do 2 f_equal. apply SortFunc_perm_eq; [apply _| |by rewrite Hpos].
  intros a b (l1 & -> & H1)%list_elem_of_fmap (l2 & -> & H2)%list_elem_of_fmap
    (_ & _ & Hid)%cmp_share_eq. simpl in Hid.
  apply list_elem_of_filter in H1 as [_ H1], H2 as [_ H2].
  apply list_elem_of_lookup_1 in H1 as [i1 H1], H2 as [i2 H2].
  assert (i1 = i2) as ->.
  { apply (NoDup_lookup (al_ID <$> lines) i1 i2 (al_ID l1)); [done| |].
    - by rewrite list_lookup_fmap, H1.
    - by rewrite list_lookup_fmap, H2, Hid. }
  congruence.
Qed.

Lemma share_for_perm total lines lines' l :
  NoDup (al_ID <$> lines) -> lines ≡ₚ lines' -> share_for total lines' l = share_for total lines l.
Proof.
  intros Hids Hperm. unfold share_for. rewrite (lucky_ids_perm total lines lines' Hids Hperm).
  assert (base_of lines' = base_of lines) as Hbase.
  { unfold base_of, positive. symmetry. apply sumZ_perm. by rewrite Hperm. }
  unfold handed_out. by rewrite Hbase.
Qed.
