(* ===== verification/PromotionLines.v ===== *)
(** * Charging lines: what every promotion does to the lines under computation

    [charged a a' paid] says that the lines of [a'] are those of [a], each with at least the discount
    it had and at most its amount, and that [paid] is what was added over all of them. Every part of
    a computation is shown to charge; the properties are in PromotionProps. *)
From S2P Require Import Prelude GoText Errors PromotionModels PromotionValidate PromotionDiscounts PromotionCompute.

(** A line within its bounds. *)
Definition line_ok (l : lineState) : Prop :=
  0 <= ls_discount l <= ls_amount l /\ ls_amount l <= MaxAmount.

(** The same line, charged more. *)
Definition grown (l l' : lineState) : Prop :=
  l' = with_discount l (ls_discount l') /\ ls_discount l <= ls_discount l' <= ls_amount l.

Definition total_amount (a : arrays) : Z :=
  sumZ (ls_amount <$> ar_items a) + sumZ (ls_amount <$> ar_shipping a).

Definition total_discount (a : arrays) : Z :=
  sumZ (ls_discount <$> ar_items a) + sumZ (ls_discount <$> ar_shipping a).

Record arrays_ok (a : arrays) : Prop := {
  ao_items : Forall line_ok (ar_items a);
  ao_shipping : Forall line_ok (ar_shipping a);
  ao_items_sum : sumZ (ls_amount <$> ar_items a) <= MaxAmount;
  ao_shipping_sum : sumZ (ls_amount <$> ar_shipping a) <= MaxAmount
}.

Record charged (a a' : arrays) (paid : Z) : Prop := {
  ch_items : Forall2 grown (ar_items a) (ar_items a');
  ch_shipping : Forall2 grown (ar_shipping a) (ar_shipping a');
  ch_paid : total_discount a' = total_discount a + paid
}.

(** ** Growing *)

Lemma with_discount_same l : with_discount l (ls_discount l) = l.
Proof. by destruct l. Qed.

Lemma grown_refl l : line_ok l -> grown l l.
Proof. intros [? _]. split; [by rewrite with_discount_same|lia]. Qed.

Lemma grown_trans l1 l2 l3 : grown l1 l2 -> grown l2 l3 -> grown l1 l3.
Proof.
  intros [H2 Hb2] [H3 Hb3]. rewrite H2 in Hb3. simpl in Hb3. split; [|lia]. by rewrite H3, H2.
Qed.

Lemma grown_ok l l' : grown l l' -> line_ok l -> line_ok l'.
Proof. intros [-> H] [? ?]. unfold line_ok in *. simpl in *. lia. Qed.

Lemma grown_amount l l' : grown l l' -> ls_amount l' = ls_amount l.
Proof. by intros [-> _]. Qed.

Lemma Forall2_grown_refl ls : Forall line_ok ls -> Forall2 grown ls ls.
Proof. induction 1; constructor; auto using grown_refl. Qed.

Lemma Forall2_grown_trans l1 l2 l3 :
  Forall2 grown l1 l2 -> Forall2 grown l2 l3 -> Forall2 grown l1 l3.
Proof. apply Forall2_trans. eauto using grown_trans. Qed.

Lemma Forall2_grown_ok ls ls' : Forall2 grown ls ls' -> Forall line_ok ls -> Forall line_ok ls'.
Proof.
  intros H Hok. eapply Forall2_Forall_r; [exact H|]. eapply Forall_impl; [exact Hok|].
  intros l Hl l' Hg. by eapply grown_ok.
Qed.

Lemma Forall2_grown_amounts ls ls' : Forall2 grown ls ls' -> ls_amount <$> ls' = ls_amount <$> ls.
Proof. induction 1 as [|l l' ls ls' Hg _ IH]; csimpl; [done|]. by rewrite IH, (grown_amount l l'). Qed.

Lemma charged_ok a a' paid : charged a a' paid -> arrays_ok a -> arrays_ok a'.
Proof.
  intros [Hi Hs _] [? ? ? ?]. split.
  - by eapply Forall2_grown_ok.
  - by eapply Forall2_grown_ok.
  - by rewrite (Forall2_grown_amounts _ _ Hi).
  - by rewrite (Forall2_grown_amounts _ _ Hs).
Qed.

Lemma charged_refl a : arrays_ok a -> charged a a 0.
Proof. intros []. split; auto using Forall2_grown_refl. lia. Qed.

Lemma charged_trans a1 a2 a3 p q : charged a1 a2 p -> charged a2 a3 q -> charged a1 a3 (p + q).
Proof. intros [? ? ?] [? ? ?]. split; eauto using Forall2_grown_trans. lia. Qed.

Lemma charged_eq a a' p q : charged a a' p -> p = q -> charged a a' q.
Proof. by intros ? <-. Qed.

(** ** Sums *)

Lemma sum_le_amounts ls : Forall line_ok ls -> sumZ (ls_discount <$> ls) <= sumZ (ls_amount <$> ls).
Proof. induction 1 as [|l ls [? _] _ IH]; csimpl; rewrite ?sumZ_cons; lia. Qed.

Lemma discounts_nonneg ls : Forall line_ok ls -> Forall (Z.le 0) (ls_discount <$> ls).
Proof. intros H. apply Forall_fmap. eapply Forall_impl; [exact H|]. intros l [? _]. simpl. lia. Qed.

Lemma arrays_ok_bounds a : arrays_ok a -> 0 <= total_discount a <= 2 * MaxAmount.
Proof.
  intros [Hi Hs ? ?]. unfold total_discount.
  pose proof (sum_le_amounts _ Hi). pose proof (sum_le_amounts _ Hs).
  pose proof (sumZ_nonneg _ (discounts_nonneg _ Hi)).
  pose proof (sumZ_nonneg _ (discounts_nonneg _ Hs)). lia.
Qed.

Lemma sumZ_insert {A} (f : A -> Z) (l : list A) i x y :
  l !! i = Some x -> sumZ (f <$> <[i := y]> l) = sumZ (f <$> l) - f x + f y.
Proof.
  revert i. induction l as [|z l IH]; intros [|i] H; simplify_eq/=; rewrite !sumZ_cons.
  - lia.
  - rewrite (IH i H). lia.
Qed.

(** ** Charging *)

Lemma charge_spec want l :
  line_ok l ->
  let '(paid, l') := charge want l in
  paid = Z.max 0 (Z.min want (ls_amount l - ls_discount l)) /\
  l' = with_discount l (ls_discount l + paid) /\ grown l l'.
Proof.
  intros [Hd Ha]. unfold charge, remaining, MaxAmount in *.
  destruct (want <=? 0) eqn:E1.
  { split; [lia|]. rewrite Z.add_0_r, with_discount_same. split; [done|].
    split; [by rewrite with_discount_same|lia]. }
  assert ((if ls_amount l <=? ls_discount l then 0 else ls_amount l -₆₄ ls_discount l)
    = ls_amount l - ls_discount l) as ->.
  { destruct (ls_amount l <=? ls_discount l) eqn:E2; [lia|]. apply sub64_exact. in64. }
  destruct (_ <? want) eqn:E2; rewrite add64_exact by in64;
    (split; [lia|]); (split; [done|]); unfold grown; simpl; (split; [done|lia]).
Qed.

Lemma Forall2_insert_grown ls i l l' :
  Forall line_ok ls -> ls !! i = Some l -> grown l l' -> Forall2 grown ls (<[i := l']> ls).
Proof.
  intros Hok. revert i. induction Hok as [|x ls Hx Hok IH]; intros [|i] Hi Hg; simplify_eq/=.
  - constructor; [done|by apply Forall2_grown_refl].
  - constructor; [by apply grown_refl|by eapply IH].
Qed.

Lemma deref_ok a r l : arrays_ok a -> deref a r = Some l -> line_ok l.
Proof.
  intros [Hi Hs _ _] Hl. destruct r; simpl in Hl;
    [eapply (Forall_lookup_1 line_ok); [exact Hi|exact Hl]|eapply (Forall_lookup_1 line_ok); [exact Hs|exact Hl]].
Qed.

Lemma charge_ref_spec a r want :
  arrays_ok a ->
  let '(paid, a') := charge_ref a r want in charged a a' paid /\ 0 <= paid.
Proof.
  intros Hok. unfold charge_ref. destruct (deref a r) as [l|] eqn:Hl.
  2:{ split; [by apply charged_refl|done]. }
  assert (line_ok l) as Hline by by eapply deref_ok.
  pose proof (charge_spec want l Hline) as Hc. destruct (charge want l) as [paid l'].
  destruct Hc as (Hpaid & Hl' & Hg). split; [|lia].
  destruct Hok as [Hi Hs _ _], r; simpl in Hl; unfold set_ref; split; simpl;
    try (by apply Forall2_grown_refl); try (by eapply Forall2_insert_grown);
    unfold total_discount; simpl; rewrite (sumZ_insert _ _ _ _ _ Hl), Hl'; simpl; lia.
Qed.

Lemma charge_ref_at_most a r want : arrays_ok a -> (charge_ref a r want).1 <= Z.max 0 want.
Proof.
  intros Hok. unfold charge_ref. destruct (deref a r) as [l|] eqn:Hl; [|simpl; lia].
  assert (line_ok l) as Hline by by eapply deref_ok.
  pose proof (charge_spec want l Hline) as Hc. destruct (charge want l) as [paid l'].
  destruct Hc as (-> & _ & _). simpl. lia.
Qed.

(** The total of a loop that adds up what it charges; nothing overflows, as what is paid ends up in
    the lines' discounts. *)
Lemma paid_so_far a a' paid applied :
  arrays_ok a' -> 0 <= applied <= total_discount a -> charged a a' paid -> 0 <= paid ->
  applied +₆₄ paid = applied + paid /\ 0 <= applied + paid <= total_discount a'.
Proof.
  intros Hok Happ [_ _ Hp] Hpos. pose proof (arrays_ok_bounds _ Hok). unfold MaxAmount in *.
  rewrite add64_exact by in64. lia.
Qed.

Lemma charge_all_spec charges applied a :
  arrays_ok a -> 0 <= applied <= total_discount a ->
  let '(r, a') := charge_all charges applied a in charged a a' (r - applied) /\ applied <= r.
Proof.
  revert applied a. induction charges as [|[r want] charges IH]; intros applied a Hok Happ;
    cbn [charge_all].
  { split; [|lia]. eapply charged_eq; [by apply charged_refl|lia]. }
  pose proof (charge_ref_spec a r want Hok) as Hc. destruct (charge_ref a r want) as [paid a1].
  destruct Hc as [Hc Hpos]. pose proof (charged_ok _ _ _ Hc Hok) as Hok1.
  destruct (paid_so_far _ _ _ _ Hok1 Happ Hc Hpos) as [-> Hnext].
  specialize (IH (applied + paid) a1 Hok1 Hnext).
  destruct (charge_all charges (applied + paid) a1) as [r' a']. destruct IH as [IH Hle].
  split; [|lia]. eapply charged_eq; [by eapply charged_trans|lia].
Qed.

Lemma pay_from_spec method order reserved left applied a :
  arrays_ok a -> 0 <= applied <= total_discount a ->
  let '(r, a') := pay_from method order reserved left applied a in
  charged a a' (r - applied) /\ applied <= r.
Proof.
  assert (forall applied a, arrays_ok a -> charged a a (applied - applied) /\ applied <= applied) as Hstop.
  { intros. split; [|lia]. eapply charged_eq; [by apply charged_refl|lia]. }
  revert left applied a. induction order as [|[r line] order IH]; intros left applied a Hok Happ;
    cbn [pay_from]; [by apply Hstop|].
  destruct (left <=? 0); [by apply Hstop|].
  destruct (_ <=? 0); [by apply IH|]. destruct (_ <=? 0); [by apply IH|].
  generalize (Z.min (ls_quantity line -₆₄ default 0 (reserved !! r)) left) as take. intros take.
  pose proof (charge_ref_spec a r (take *₆₄ rewardPerUnit method (ls_unitAmount line)) Hok) as Hc.
  destruct (charge_ref _ _ _) as [paid a1]. destruct Hc as [Hc Hpos].
  pose proof (charged_ok _ _ _ Hc Hok) as Hok1.
  destruct (paid_so_far _ _ _ _ Hok1 Happ Hc Hpos) as [-> Hnext].
  specialize (IH (left -₆₄ take) (applied + paid) a1 Hok1 Hnext).
  destruct (pay_from _ _ _ _ _ _) as [r' a']. destruct IH as [IH Hle].
  split; [|lia]. eapply charged_eq; [by eapply charged_trans|lia].
Qed.

Lemma applyPromotion_spec c a :
  arrays_ok a -> let '(paid, a') := applyPromotion c a in charged a a' paid /\ 0 <= paid.
Proof.
  intros Hok. pose proof (arrays_ok_bounds a Hok) as Hb.
  assert (forall x : Z * arrays,
    (let '(r, a') := x in charged a a' (r - 0) /\ 0 <= r) ->
    let '(r, a') := x in charged a a' r /\ 0 <= r) as Hzero.
  { intros [r a'] [Hc ?]. split; [|done]. eapply charged_eq; [exact Hc|lia]. }
  pose proof (conj (charged_refl a Hok) (Z.le_refl 0)) as Hnone.
  unfold applyPromotion, applyBuyGet, payReward.
  repeat case_match; simplify_eq; try done;
    match goal with
    | H : pay_from ?m ?o ?r ?l 0 a = _ |- _ =>
        pose proof (Hzero _ (pay_from_spec m o r l 0 a Hok ltac:(lia))) as Hx; by rewrite H in Hx
    | H : charge_all ?l 0 a = _ |- _ =>
        pose proof (Hzero _ (charge_all_spec l 0 a Hok ltac:(lia))) as Hx; by rewrite H in Hx
    end.
Qed.

(** All the promotions, one after the other. *)
Lemma apply_all_spec cs a :
  arrays_ok a ->
  let '(applied, a') := apply_all cs a in
  charged a a' (sumZ (ap_Amount <$> applied)) /\ Forall (fun p => 0 < ap_Amount p) applied.
Proof.
  revert a. induction cs as [|c cs IH]; intros a Hok; cbn [apply_all].
  { split; [by apply charged_refl|constructor]. }
  pose proof (applyPromotion_spec c a Hok) as Hc. destruct (applyPromotion c a) as [paid a1].
  destruct Hc as [Hc Hpos]. specialize (IH a1 (charged_ok _ _ _ Hc Hok)).
  destruct (apply_all cs a1) as [applied a']. destruct IH as [IH Hall].
  destruct (paid <=? 0) eqn:E; (split; [|by try constructor; simpl; try lia]).
  - eapply charged_eq; [by eapply charged_trans|lia].
  - csimpl. rewrite sumZ_cons. simpl. by eapply charged_trans.
Qed.

(** ** Percentages and rewards *)

Lemma percentageOf_exact amount bp :
  0 <= amount <= MaxAmount -> 0 <= bp <= BasisPointDenominator ->
  percentageOf amount bp = amount * bp / BasisPointDenominator /\
  0 <= percentageOf amount bp <= amount.
Proof.
  intros Ha Hb. unfold percentageOf.
  assert (percentageOf amount bp = amount * bp / BasisPointDenominator) as Heq.
  { unfold percentageOf, MaxAmount, BasisPointDenominator in *.
    destruct (_ || _) eqn:E.
    { assert (amount * bp = 0) as -> by nia. done. }
    rewrite !(proj2 (Z.ltb_ge _ _)) by lia.
    rewrite mul64_exact by (split; unfold int64_min, int64_max; nia).
    rewrite div64_exact; [done| |lia]. unfold int64_max. nia. }
  fold (percentageOf amount bp). rewrite Heq. split; [done|].
  unfold BasisPointDenominator in *. split; [apply Z.div_pos; nia|].
  apply Z.div_le_upper_bound; nia.
Qed.

Lemma rewardPerUnit_bound m unit :
  method_ok m -> 0 <= unit <= MaxAmount -> 0 <= rewardPerUnit m unit <= unit.
Proof.
  intros [Ht _ _ _ Hf Hp _ _ _ _] Hu. unfold rewardPerUnit. destruct (am_Type m); [| |done].
  - specialize (Hf eq_refl). lia.
  - apply percentageOf_exact; auto.
Qed.

(** The loop pays for no more units than are left to give, at no more than the dearest of them. *)
Lemma pay_from_bound m dearest :
  method_ok m -> 0 <= dearest <= MaxAmount ->
  forall order reserved left applied a,
  arrays_ok a ->
  Forall (fun p => 0 <= ls_unitAmount p.2 <= dearest) order ->
  0 <= left <= MaxQuantity -> 0 <= applied <= total_discount a ->
  let '(r, _) := pay_from m order reserved left applied a in
  applied <= r <= applied + left * dearest.
Proof.
  intros Hm Hd order. induction order as [|[r line] order IH];
    intros reserved left applied a Hok Hu Hl Happ; cbn [pay_from]; [nia|].
  apply Forall_cons in Hu as [Hu1 Hu]. simpl in Hu1.
  destruct (left <=? 0) eqn:E1; [nia|].
  set (available := ls_quantity line -₆₄ default 0 (reserved !! r)).
  destruct (available <=? 0) eqn:E2; [by apply IH|].
  destruct (rewardPerUnit m (ls_unitAmount line) <=? 0) eqn:E3; [by apply IH|].
  pose proof (rewardPerUnit_bound m (ls_unitAmount line) Hm ltac:(lia)) as Hpu.
  set (take := Z.min available left). assert (0 < take <= left) as Htake by lia.
  unfold MaxQuantity, MaxAmount in *.
  rewrite mul64_exact by (split; unfold int64_min, int64_max; nia).
  rewrite sub64_exact by in64.
  pose proof (charge_ref_spec a r (take * rewardPerUnit m (ls_unitAmount line)) Hok) as Hc.
  pose proof (charge_ref_at_most a r (take * rewardPerUnit m (ls_unitAmount line)) Hok) as Hmost.
  destruct (charge_ref _ _ _) as [paid a1]. destruct Hc as [Hc Hpos]. simpl in Hmost.
  pose proof (charged_ok _ _ _ Hc Hok) as Hok1.
  destruct (paid_so_far _ _ _ _ Hok1 Happ Hc Hpos) as [-> Hnext].
  specialize (IH reserved (left - take) (applied + paid) a1 Hok1 Hu ltac:(lia) Hnext).
  destruct (pay_from _ _ _ _ _ _) as [r' a']. nia.
Qed.

Lemma located_items a rules :
  located a (filterLines ItemRef (ar_items a) rules) =
  omap (fun p => if (0 <? Z.of_nat (length rules)) &&
                    negb (matchRules rules (ls_attributes p.2) (ls_lists p.2))
                 then None else Some (ItemRef p.1, p.2))
    (zip (seq 0 (length (ar_items a))) (ar_items a)).
Proof.
  unfold filterLines, located.
  assert (forall i ls, (forall j l, ls !! j = Some l -> ar_items a !! (i + j)%nat = Some l) ->
    omap (fun r => (fun l => (r, l)) <$> deref a r) (filter_from ItemRef i ls rules) =
    omap (fun p => if (0 <? Z.of_nat (length rules)) &&
                      negb (matchRules rules (ls_attributes p.2) (ls_lists p.2))
                   then None else Some (ItemRef p.1, p.2)) (zip (seq i (length ls)) ls)) as Hgen.
  { intros i ls. revert i. induction ls as [|l ls IH]; intros i Hls; [done|].
    cbn [filter_from length seq zip zip_with]. csimpl.
    assert (forall j l', ls !! j = Some l' -> ar_items a !! (S i + j)%nat = Some l') as Htl.
    { intros j l' Hj. replace (S i + j)%nat with (i + S j)%nat by lia. by apply Hls. }
    destruct (_ && _); [by apply IH|]. csimpl.
    specialize (Hls 0%nat l eq_refl). rewrite Nat.add_0_r in Hls. rewrite Hls. simpl.
    f_equal. by apply IH. }
  by apply Hgen.
Qed.

Lemma bought_count a rules :
  Forall (fun l => MinQuantity <= ls_quantity l <= MaxQuantity) (ar_items a) ->
  Z.of_nat (length (ar_items a)) <= MaxComputeLines ->
  sum64 ((fun p => ls_quantity p.2) <$> located a (filterLines ItemRef (ar_items a) rules)) =
  sumZ ((fun p => ls_quantity p.2) <$> located a (filterLines ItemRef (ar_items a) rules)).
Proof.
  intros Hq Hlen. rewrite located_items.
  assert (forall i ls, Forall (fun l => MinQuantity <= ls_quantity l <= MaxQuantity) ls ->
    let k := (fun p => ls_quantity p.2) <$>
      omap (fun p => if (0 <? Z.of_nat (length rules)) &&
                        negb (matchRules rules (ls_attributes p.2) (ls_lists p.2))
                     then None else Some (ItemRef p.1, p.2)) (zip (seq i (length ls)) ls) in
    Forall (Z.le 0) k /\ sumZ k <= Z.of_nat (length ls) * MaxQuantity) as Hgen.
  { intros i ls Hls. revert i. induction Hls as [|l ls Hl _ IH]; intros i; [by split|].
    destruct (IH (S i)) as [IH1 IH2]. cbn [length seq zip zip_with]. csimpl. destruct (_ && _); csimpl; rewrite ?sumZ_cons;
      unfold MinQuantity, MaxQuantity in *; (split; [try constructor; simpl; try done; lia|lia]). }
  destruct (Hgen 0%nat _ Hq) as [H1 H2]. apply sum64_exact; [done|].
  unfold MaxComputeLines, MaxQuantity, int64_max in *. lia.
Qed.

(** * What a normalized input is

    [normalizeComputeInput] either refuses or hands the computation lines it can rely on. *)

Definition item_ok (i : ComputeItem) : Prop :=
  0 <= ci_Amount i <= MaxAmount /\ 0 <= ci_UnitAmount i <= MaxAmount /\
  MinQuantity <= ci_Quantity i <= MaxQuantity /\ ci_Amount i = ci_UnitAmount i * ci_Quantity i.

Definition shipping_ok (m : ComputeShippingMethod) : Prop := 0 <= cs_Amount m <= MaxAmount.

(** A code as [normalizeCode] leaves it. *)
Definition code_ok (c : string) : Prop :=
  MinCodeLen <= len c <= MaxCodeLen /\ Forall (fun b => code_char b = true) (bytes c).

Record input_ok (n : ComputeInput) : Prop := {
  io_items : Forall item_ok (in_Items n);
  io_item_ids : NoDup (ci_ID <$> in_Items n);
  io_items_sum : sumZ (ci_Amount <$> in_Items n) <= MaxAmount;
  io_items_len : Z.of_nat (length (in_Items n)) <= MaxComputeLines;
  io_shipping : Forall shipping_ok (in_ShippingMethods n);
  io_shipping_ids : NoDup (cs_ID <$> in_ShippingMethods n);
  io_shipping_sum : sumZ (cs_Amount <$> in_ShippingMethods n) <= MaxAmount;
  io_codes : Forall code_ok (in_Codes n);
  io_codes_once : NoDup (in_Codes n);
  io_at : is_Some (in_At n)
}.

Lemma at_index_Ok {A} (r : result A) key i a : at_index r key i = Ok a -> r = Ok a.
Proof. by destruct r. Qed.

Lemma at_index_opt_None r key i : at_index_opt r key i = None -> r = None.
Proof. by destruct r. Qed.

Lemma validateLineID_Ok label id seen seen' :
  validateLineID label id seen = Ok seen' -> (id ∉ seen) /\ seen' = ({[id]} ∪ seen).
Proof. unfold validateLineID. intros H. result_inv. reflect_bools. done. Qed.

Lemma validateUnitAmount_None i :
  0 <= ci_Amount i <= MaxAmount -> MinQuantity <= ci_Quantity i <= MaxQuantity ->
  validateUnitAmount i = None ->
  0 <= ci_UnitAmount i <= MaxAmount /\ ci_Amount i = ci_UnitAmount i * ci_Quantity i.
Proof.
  unfold validateUnitAmount. intros Ha Hq H.
  destruct (validateAmount _ (ci_UnitAmount i)) eqn:Hu; [done|].
  apply validateAmount_None in Hu. unfold MinAmount in Hu. split; [done|].
  assert (ci_UnitAmount i *₆₄ ci_Quantity i = ci_UnitAmount i * ci_Quantity i) as Hm.
  { apply mul64_exact. unfold in_int64, int64_min, int64_max, MaxAmount, MinQuantity, MaxQuantity in *.
    split; nia. }
  rewrite Hm in H. destruct (_ =? _) eqn:E; [lia|done].
Qed.

(** Ids that were not seen when the loop got to them. *)
Lemma seen_cons (x : string) (l : list string) (seen : gset string) :
  x ∉ seen -> (forall id, id ∈ l -> id ∉ ({[x]} ∪ seen)) ->
  (x ∉ l) /\ (forall id, id ∈ x :: l -> id ∉ seen).
Proof.
  intros Hx Hl. split.
  - intros Hin. apply (Hl _ Hin). apply elem_of_union_l, elem_of_singleton_2. done.
  - intros id [->|Hin]%elem_of_cons; [done|]. intros Hs. apply (Hl _ Hin).
    by apply elem_of_union_r.
Qed.

Lemma normalize_items_Ok i items seen sub out :
  normalize_items i items seen sub = Ok out -> 0 <= sub <= MaxAmount ->
  out = items /\ Forall item_ok items /\ NoDup (ci_ID <$> items) /\
  (forall id, id ∈ ci_ID <$> items -> id ∉ seen) /\
  sub + sumZ (ci_Amount <$> items) <= MaxAmount.
Proof.
  revert i seen sub out. induction items as [|item items IH]; intros i seen sub out H Hsub;
    cbn [normalize_items] in H.
  { injection H as <-. csimpl. rewrite sumZ_nil.
    split_and!; [done|constructor|constructor|by intros ? ?%elem_of_nil|lia]. }
  result_inv. apply at_index_Ok, validateLineID_Ok in E as [Hnew ->].
  apply at_index_opt_None, validateAmount_None in E0.
  apply at_index_opt_None, validateQuantity_None in E1.
  apply at_index_opt_None, (validateUnitAmount_None item E0 E1) in E2 as [Hu Hprod].
  assert (sub +₆₄ ci_Amount item = sub + ci_Amount item) as Hadd.
  { apply add64_exact. unfold MinAmount, MaxAmount in *. in64. }
  rewrite Hadd in *. apply IH in E4 as (-> & Hall & Hnd & Hseen & Hsum); [|unfold MinAmount in *; lia].
  destruct (seen_cons _ _ _ Hnew Hseen) as [Hhead Htail].
  csimpl. rewrite sumZ_cons. split_and!; try lia; try done; [|by constructor].
  constructor; [|done]. split_and!; unfold MinAmount in *; lia.
Qed.

Lemma normalize_shipping_Ok i ms seen sub out :
  normalize_shipping i ms seen sub = Ok out -> 0 <= sub <= MaxAmount ->
  out = ms /\ Forall shipping_ok ms /\ NoDup (cs_ID <$> ms) /\
  (forall id, id ∈ cs_ID <$> ms -> id ∉ seen) /\ sub + sumZ (cs_Amount <$> ms) <= MaxAmount.
Proof.
  revert i seen sub out. induction ms as [|m ms IH]; intros i seen sub out H Hsub;
    cbn [normalize_shipping] in H.
  { injection H as <-. csimpl. rewrite sumZ_nil.
    split_and!; [done|constructor|constructor|by intros ? ?%elem_of_nil|lia]. }
  result_inv. apply at_index_Ok, validateLineID_Ok in E as [Hnew ->].
  apply at_index_opt_None, validateAmount_None in E0.
  assert (sub +₆₄ cs_Amount m = sub + cs_Amount m) as Hadd.
  { apply add64_exact. unfold MinAmount, MaxAmount in *. in64. }
  rewrite Hadd in *. apply IH in E2 as (-> & Hall & Hnd & Hseen & Hsum); [|unfold MinAmount in *; lia].
  destruct (seen_cons _ _ _ Hnew Hseen) as [Hhead Htail].
  csimpl. rewrite sumZ_cons. split_and!; try lia; try done; [|by constructor].
  constructor; [|done]. unfold shipping_ok, MinAmount in *. lia.
Qed.

Lemma normalizeCode_Ok raw c : normalizeCode raw = Ok c -> code_ok c /\ c = ToUpper (TrimSpace raw).
Proof.
  unfold normalizeCode. intros H. result_inv. subst c. split; [|done]. split; [lia|].
  apply negb_false_iff in E1. rewrite forallb_forall in E1. apply Forall_forall. intros b Hb.
  by apply E1, list_elem_of_In.
Qed.

Lemma normalize_codes_from_Ok i codes seen out :
  normalize_codes_from i codes seen = Ok out ->
  Forall code_ok out /\ NoDup out /\ (forall c, c ∈ out -> c ∉ seen) /\
  (forall c, c ∈ out -> exists raw, raw ∈ codes /\ c = ToUpper (TrimSpace raw)).
Proof.
  revert i seen out. induction codes as [|raw codes IH]; intros i seen out H;
    cbn [normalize_codes_from] in H.
  { injection H as <-. split_and!; [constructor|constructor|..]; by intros ? ?%elem_of_nil. }
  result_inv. apply at_index_Ok, normalizeCode_Ok in E as [Hc Hraw].
  destruct (bool_decide _) eqn:Hdup; reflect_bools.
  - apply IH in H as (? & ? & Hs & Hin). split_and!; try done.
    intros c' (r & ? & ?)%Hin. exists r. split; [by right|done].
  - result_inv. apply IH in E as (? & ? & Hs & Hin). subst out.
    destruct (seen_cons _ _ _ Hdup Hs) as [Hhead Htail]. split_and!; try done; try by constructor.
     intros c' [->|(r & ? & ?)%Hin]%elem_of_cons; [exists raw; split; [left|done]|exists r; split; [by right|done]].
Qed.

Lemma normalize_ok in_ now n :
  normalizeComputeInput in_ now = Ok n ->
  input_ok n /\ in_Items n = in_Items in_ /\ in_ShippingMethods n = in_ShippingMethods in_.
Proof.
  unfold normalizeComputeInput. intros H. result_inv. subst n. simpl.
  apply normalize_items_Ok in E2 as (-> & ? & ? & _ & ?); [|done].
  apply normalize_shipping_Ok in E3 as (-> & ? & ? & _ & ?); [|done].
  assert (Forall code_ok a2 /\ NoDup a2) as [? ?].
  { unfold normalizeCodes in E4. destruct (_ =? 0); [injection E4 as <-; split; constructor|].
    result_inv. apply normalize_codes_from_Ok in E4 as (? & ? & _). done. }
  split; [|done]. split; simpl; try done; try lia.
Qed.

(** The lines a computation starts from. *)
Definition start_lines (n : ComputeInput) : arrays :=
  mkArrays (item_line <$> in_Items n) (shipping_line <$> in_ShippingMethods n).

Lemma start_lines_ok n : input_ok n -> arrays_ok (start_lines n).
Proof.
  intros []. split; simpl.
  - apply Forall_fmap. eapply Forall_impl; [done|]. intros i (? & _). split; simpl; lia.
  - apply Forall_fmap. eapply Forall_impl; [done|]. intros i ?. unfold shipping_ok in *.
    split; simpl; lia.
  - rewrite <- list_fmap_compose. done.
  - rewrite <- list_fmap_compose. done.
Qed.

Lemma start_lines_discount n : total_discount (start_lines n) = 0.
Proof.
  unfold total_discount. simpl. rewrite <- !list_fmap_compose.
  change (ls_discount ∘ item_line) with (fun _ : ComputeItem => 0).
  change (ls_discount ∘ shipping_line) with (fun _ : ComputeShippingMethod => 0).
  by rewrite !sumZ_const.
Qed.
