(* ===== verification/PromotionProps.v ===== *)
(** * What makes discounts correct

    The properties of [internal/modules/promotion/service] and what it is witnessed on. *)
From S2P Require Import Prelude GoText Errors PromotionModels PromotionValidate PromotionDiscounts PromotionCompute PromotionAlloc PromotionLines.

(** ** Sharing a discount out *)

(** No minor unit is lost or made. Over any lines whose positive amounts fit an [int64] together,
    the shares of [allocateAcross] add up exactly to the total asked for, capped by those amounts (and
    zero for a negative total), and there is one share per line. *)
Theorem allocateAcross_exact total lines (Hrange : base_of lines <= int64_max) :
  length (allocateAcross total lines) = length lines /\
  sumZ (allocateAcross total lines) = Z.max 0 (Z.min total (base_of lines)).
Proof.
  pose proof (base_of_nonneg lines).
  destruct (decide (0 < handed_out total lines)) as [Hsome|Hnone].
  - rewrite (allocateAcross_total _ _ Hrange Hsome). split; [|done].
    rewrite allocateAcross_closed by done. unfold floors. by rewrite bump_length, length_fmap.
  - unfold handed_out in Hnone. rewrite allocateAcross_nothing by (done || unfold handed_out; lia).
    rewrite length_replicate. split; [done|].
    rewrite replicate_fmap, sumZ_const. lia.
Qed.

(** The shares are fair. A line with nothing to discount gets nothing; any other gets its
    proportional share of what is handed out rounded down, or one minor unit more, and never more than
    its own amount. *)
Theorem allocateAcross_fair total lines i l v (Hrange : base_of lines <= int64_max)
    (Hl : lines !! i = Some l) (Hv : allocateAcross total lines !! i = Some v) :
  let paid := Z.max 0 (Z.min total (base_of lines)) in
  (al_Amount l <= 0 -> v = 0) /\
  (0 < al_Amount l ->
   paid * al_Amount l / base_of lines <= v <= paid * al_Amount l / base_of lines + 1 /\
   0 <= v <= al_Amount l).
Proof.
  intros paid. destruct (decide (0 < handed_out total lines)) as [Hsome|Hnone].
  - change paid with (handed_out total lines).
    rewrite (allocateAcross_lookup _ _ Hrange Hsome _ _ Hl) in Hv. injection Hv as <-.
    pose proof (line_floor_bounds total lines Hsome l) as Hf.
    pose proof (paid_bounds total lines Hsome) as Hp.
    unfold line_floor in *. destruct (al_Amount l <=? 0) eqn:E; (split; [intros|intros Hpos]); try lia.
    + rewrite bool_decide_eq_false_2; [lia|]. intros Hlucky.
      destruct (lucky_line total lines Hsome i Hlucky) as (l' & Hl' & Hpos & _).
      rewrite Hl in Hl'. injection Hl' as <-. lia.
    + split; [destruct (bool_decide _); lia|]. case_bool_decide as Hlucky; [|lia].
      destruct (lucky_line total lines Hsome i Hlucky) as (l' & Hl' & _ & Hr).
      rewrite Hl in Hl'. injection Hl' as <-. unfold line_rem in Hr.
      pose proof (Z.div_mod (handed_out total lines * al_Amount l) (base_of lines)). nia.
  - rewrite allocateAcross_nothing in Hv
      by (done || unfold handed_out in *; pose proof (base_of_nonneg lines); lia).
    apply lookup_replicate in Hv as [-> _]. assert (paid = 0) as -> by (unfold handed_out in Hnone; lia).
    split; [done|]. intros Hpos. rewrite Z.mul_0_l, Zdiv_0_l. lia.
Qed.

(** The order of the lines does not matter. When the ids tell the lines apart, what a line is
    given depends on that line and on which lines there are, not on where any of them stands. *)
Theorem allocateAcross_order total lines lines' (Hrange : base_of lines <= int64_max)
    (Hids : NoDup (al_ID <$> lines)) (Hperm : lines ≡ₚ lines') :
  exists f, allocateAcross total lines = f <$> lines /\ allocateAcross total lines' = f <$> lines'.
Proof.
  assert (positive lines ≡ₚ positive lines') as Hpos by (unfold positive; by rewrite Hperm).
  assert (base_of lines' = base_of lines) as Hbase by (unfold base_of; by rewrite (sumZ_perm _ _ (fmap_Permutation al_Amount _ _ Hpos))).
  assert (handed_out total lines' = handed_out total lines) as Hpaid by (unfold handed_out; by rewrite Hbase).
  assert (NoDup (al_ID <$> lines')) as Hids' by by rewrite <- Hperm.
  destruct (decide (0 < handed_out total lines)) as [Hsome|Hnone].
  - exists (share_for total lines).
    split; [by apply allocateAcross_share_for|].
    rewrite (allocateAcross_share_for total lines') by (rewrite ?Hbase, ?Hpaid; done).
    apply list_fmap_ext. intros i l _. symmetry. by apply share_for_perm.
  - exists (fun _ => 0). pose proof (base_of_nonneg lines).
    assert (handed_out total lines = 0) by (unfold handed_out in *; lia).
    rewrite !allocateAcross_nothing by (rewrite ?Hbase, ?Hpaid; done).
    by rewrite !replicate_fmap.
Qed.

(** ** A computation *)

(** The charged lines and what was applied, as [computeDiscounts] finds them. *)
Lemma computeDiscounts_lines cs n :
  input_ok n ->
  exists a, Forall2 grown (item_line <$> in_Items n) (ar_items a) /\
    Forall2 grown (shipping_line <$> in_ShippingMethods n) (ar_shipping a) /\
    arrays_ok a /\
    let r := computeDiscounts cs n in
    cr_Items r = line_discount <$> ar_items a /\
    cr_ShippingMethods r = line_discount <$> ar_shipping a /\
    cr_ItemsDiscountTotal r = sumZ (ls_discount <$> ar_items a) /\
    cr_ShippingDiscountTotal r = sumZ (ls_discount <$> ar_shipping a) /\
    cr_DiscountTotal r = total_discount a /\
    total_discount a = sumZ (ap_Amount <$> cr_Applied r) /\
    Forall (fun p => 0 < ap_Amount p) (cr_Applied r).
Proof.
  intros Hn. unfold computeDiscounts. fold (start_lines n).
  destruct (partitionCandidates cs n) as [el sk].
  pose proof (apply_all_spec el (start_lines n) (start_lines_ok n Hn)) as Ha.
  destruct (apply_all el (start_lines n)) as [applied a]. destruct Ha as [Hc Hpos].
  pose proof (charged_ok _ _ _ Hc (start_lines_ok n Hn)) as Hok.
  destruct Hc as [Hi Hs Hp]. rewrite start_lines_discount in Hp.
  exists a. simpl. pose proof (arrays_ok_bounds _ Hok) as Hb.
  pose proof Hok as [Hoi Hos Hsi Hss].
  pose proof (discounts_nonneg _ Hoi) as Hdi. pose proof (discounts_nonneg _ Hos) as Hds.
  pose proof (sum_le_amounts _ Hoi). pose proof (sum_le_amounts _ Hos).
  pose proof (sumZ_nonneg _ Hdi). pose proof (sumZ_nonneg _ Hds).
  unfold MaxAmount in *.
  rewrite !sum64_exact by (done || in64). rewrite add64_exact by in64.
  unfold total_discount in *. split_and!; try done; lia.
Qed.

Lemma grown_lines {A} (f : A -> lineState) (id : A -> string) (amount : A -> Z) l ls :
  (forall x, ls_id (f x) = id x /\ ls_amount (f x) = amount x /\ ls_discount (f x) = 0) ->
  Forall2 grown (f <$> l) ls ->
  Forall2 (fun x d => ld_ID d = id x /\ 0 <= ld_Amount d <= amount x) l (line_discount <$> ls).
Proof.
  intros Hf H. rewrite Forall2_fmap_l in H. rewrite Forall2_fmap_r. eapply Forall2_impl; [exact H|].
  intros x l' [-> Hb]. destruct (Hf x) as (<- & <- & Hd). simpl. rewrite Hd in Hb. done.
Qed.

(** What an answered computation is. *)
Record computation_sound (in_ : ComputeInput) (r : ComputeResult) : Prop := {
  cs_items : Forall2 (fun i d => ld_ID d = ci_ID i /\ 0 <= ld_Amount d <= ci_Amount i)
    (in_Items in_) (cr_Items r);
  cs_shipping : Forall2 (fun m d => ld_ID d = cs_ID m /\ 0 <= ld_Amount d <= cs_Amount m)
    (in_ShippingMethods in_) (cr_ShippingMethods r);
  cs_items_total : cr_ItemsDiscountTotal r = sumZ (ld_Amount <$> cr_Items r);
  cs_shipping_total : cr_ShippingDiscountTotal r = sumZ (ld_Amount <$> cr_ShippingMethods r);
  cs_total : cr_DiscountTotal r = cr_ItemsDiscountTotal r + cr_ShippingDiscountTotal r;
  cs_applied : cr_DiscountTotal r = sumZ (ap_Amount <$> cr_Applied r);
  cs_positive : Forall (fun p => 0 < ap_Amount p) (cr_Applied r)
}.

Lemma ComputeDiscounts_computed repo in_ clock r : ComputeDiscounts repo in_ clock = Ok r ->
  computation_sound in_ r /\
  exists n, normalizeComputeInput in_ clock = Ok n /\ input_ok n /\ in_Items n = in_Items in_ /\
    cr_CurrencyCode r = in_CurrencyCode n.
Proof.
  unfold ComputeDiscounts. intros Hr. result_inv. subst r.
  pose proof E as (Hn & Hi & Hs)%normalize_ok. split.
  - destruct (computeDiscounts_lines a0 a Hn) as
      (x & Hgi & Hgs & _ & H1 & H2 & H3 & H4 & Ht & Hta & Hpos).
    rewrite Hi in Hgi. rewrite Hs in Hgs.
    split; rewrite ?H1, ?H2, ?H3, ?H4, ?Ht, <- ?list_fmap_compose; unfold total_discount in *;
      [by apply (grown_lines item_line)|by apply (grown_lines shipping_line)|done || lia..].
  - exists a. split_and!; try done. unfold computeDiscounts.
    destruct (partitionCandidates _ _). by destruct (apply_all _ _).
Qed.

(** C7: the money adds up. In every answer of [ComputeDiscounts], whatever the repository holds, each
    line given is answered once, in order, with a discount between zero and its amount; the two
    totals are the sums of the line discounts, the discount total is their sum and is exactly what
    the applied promotions together report; and every promotion reported gave something. *)
Theorem ComputeDiscounts_adds_up repo in_ clock r
    (Hr : ComputeDiscounts repo in_ clock = Ok r) :
  Forall2 (fun i d => ld_ID d = ci_ID i /\ 0 <= ld_Amount d <= ci_Amount i)
    (in_Items in_) (cr_Items r) /\
  Forall2 (fun m d => ld_ID d = cs_ID m /\ 0 <= ld_Amount d <= cs_Amount m)
    (in_ShippingMethods in_) (cr_ShippingMethods r) /\
  cr_ItemsDiscountTotal r = sumZ (ld_Amount <$> cr_Items r) /\
  cr_ShippingDiscountTotal r = sumZ (ld_Amount <$> cr_ShippingMethods r) /\
  cr_DiscountTotal r = cr_ItemsDiscountTotal r + cr_ShippingDiscountTotal r /\
  cr_DiscountTotal r = sumZ (ap_Amount <$> cr_Applied r) /\
  Forall (fun p => 0 < ap_Amount p) (cr_Applied r).
Proof. by destruct (ComputeDiscounts_computed repo in_ clock r Hr) as [[] _]. Qed.

(** What has to hold of a promotion before it may discount anything. *)
Definition may_apply (c : PromotionCandidate) (n : ComputeInput) : Prop :=
  let p := ca_Promotion c in
  pr_Status p = PromotionActive /\
  (exists m, ca_Method c = Some m /\
     (pr_Type p = PromotionBuyGet <-> RewardsPurchase m = true) /\
     (am_Type m = MethodFixed -> am_CurrencyCode m = in_CurrencyCode n)) /\
  (forall limit, pr_UsageLimit p = Some limit -> pr_UsageCount p < limit) /\
  (pr_IsAutomatic p = true \/ pr_Code p ∈ in_Codes n) /\
  (pr_CampaignID p <> None -> exists g, ca_Campaign c = Some g /\
     (forall t, cp_StartsAt g = Some t -> t <= default zero_time (in_At n)) /\
     (forall t, cp_EndsAt g = Some t -> default zero_time (in_At n) <= t) /\
     (forall l, cp_BudgetType g <> BudgetNone -> cp_BudgetLimit g = Some l -> cp_BudgetUsed g < l)) /\
  Forall (fun r => matchRule r (in_Context n) (in_ContextLists n) = true) (ContextRules c).

Lemma eligible_may_apply c n : skipReasonOf c n = None -> may_apply c n.
Proof.
  unfold skipReasonOf, may_apply. intros H.
  destruct (bool_decide (pr_Status _ = _)) eqn:Hst; [|done]. reflect_bools.
  destruct (PromotionType_Valid _); [|done]. destruct (ca_Method c) as [m|] eqn:Hm; [|done].
  cbn [negb] in H.
  destruct (mechanicMatchesMethod _ _) eqn:Hmech; [|done].
  destruct (UsageExhausted _) eqn:Hus; [done|].
  destruct (pr_IsAutomatic (ca_Promotion c) || Contains (in_Codes n) (pr_Code (ca_Promotion c))) eqn:Hcode.
  2:{ apply orb_false_iff in Hcode as [Ha Hc]. rewrite Ha, Hc in H. discriminate H. }
  rewrite <- negb_orb, Hcode in H. cbn [negb] in H.
  destruct (campaignUsable _ _) eqn:Hcamp; [|done].
  destruct (campaignBudgetCurrencyMatches _ _); [|done]. cbn [negb] in H.
  destruct (bool_decide (am_Type m = MethodFixed) && _) eqn:Hcur; [done|].
  destruct (matchRules _ _ _) eqn:Hrules; [|done].
  split_and!.
  - done.
  - exists m. split_and!; [done| |].
    + unfold mechanicMatchesMethod in Hmech. apply Bool.eqb_prop in Hmech. rewrite <- Hmech.
      by rewrite bool_decide_eq_true.
    + intros Hf. rewrite bool_decide_eq_true_2 in Hcur by done. simpl in Hcur.
      by apply negb_false_iff, bool_decide_eq_true in Hcur.
  - intros limit Hl. unfold UsageExhausted in Hus. rewrite Hl in Hus. lia.
  - apply orb_true_iff in Hcode as [?|?%Contains_spec]; auto.
  - intros Hid. unfold campaignUsable in Hcamp.
    destruct (pr_CampaignID _); [|done]. destruct (ca_Campaign c) as [g|]; [|done].
    apply andb_true_iff in Hcamp as [Hw Hb]. exists g. split; [done|].
    unfold WindowContains, BudgetExhausted in *. split_and!.
    + intros t Ht. rewrite Ht in Hw. repeat case_match; done || lia.
    + intros t Ht. rewrite Ht in Hw. repeat case_match; done || lia.
    + intros l Hne Hl. rewrite Hl in Hb. destruct (cp_BudgetType g); done || lia.
  - unfold matchRules in Hrules. rewrite forallb_forall in Hrules. apply Forall_forall.
    intros r Hr. by apply Hrules, list_elem_of_In.
Qed.

Definition skipped_of (n : ComputeInput) (c : PromotionCandidate) : option SkippedPromotion :=
  mkSkippedPromotion (pr_ID (ca_Promotion c)) (pr_Code (ca_Promotion c)) <$> skipReasonOf c n.

Lemma partition_loop_spec cs n :
  partition_loop cs n = (filter (fun c => skipReasonOf c n = None) cs, omap (skipped_of n) cs).
Proof.
  induction cs as [|c cs IH]; [done|]. cbn [partition_loop]. rewrite IH, filter_cons.
  csimpl. assert (skipped_of n c =
    mkSkippedPromotion (pr_ID (ca_Promotion c)) (pr_Code (ca_Promotion c)) <$> skipReasonOf c n) as ->
    by done.
  case_decide as E; [by rewrite E|].
  by destruct (skipReasonOf c n).
Qed.

Lemma apply_all_from cs a p :
  p ∈ (apply_all cs a).1 -> exists c, c ∈ cs /\ ap_PromotionID p = pr_ID (ca_Promotion c) /\
    ap_Code p = pr_Code (ca_Promotion c) /\ ap_IsAutomatic p = pr_IsAutomatic (ca_Promotion c).
Proof.
  revert a. induction cs as [|c cs IH]; intros a; cbn [apply_all]; [by intros ?%elem_of_nil|].
  destruct (applyPromotion c a) as [paid a1]. specialize (IH a1).
  destruct (apply_all cs a1) as [applied a']. simpl in IH.
  assert (p ∈ applied -> exists c', c' ∈ c :: cs /\ ap_PromotionID p = pr_ID (ca_Promotion c') /\
    ap_Code p = pr_Code (ca_Promotion c') /\
    ap_IsAutomatic p = pr_IsAutomatic (ca_Promotion c')) as Hrest.
  { intros (c' & ? & ?)%IH. exists c'. split; [by right|done]. }
  destruct (paid <=? 0); simpl; [done|]. intros [->|?]%elem_of_cons; [|by apply Hrest].
  exists c. split; [apply list_elem_of_here|done].
Qed.

#[export] Instance cmp_candidate_order : CmpOrder cmp_candidate.
Proof.
  unfold cmp_candidate. apply cmp_then_order; [|apply _]. split.
  - intros a b. by destruct (pr_IsAutomatic (ca_Promotion a)), (pr_IsAutomatic (ca_Promotion b)).
  - intros a b c. by destruct (pr_IsAutomatic (ca_Promotion a)), (pr_IsAutomatic (ca_Promotion b)),
      (pr_IsAutomatic (ca_Promotion c)).
Qed.

(** Ids tell candidates apart. *)
Lemma candidates_apart cs n :
  NoDup ((fun c => pr_ID (ca_Promotion c)) <$> cs) ->
  forall a b, a ∈ filter (fun c => skipReasonOf c n = None) cs ->
    b ∈ filter (fun c => skipReasonOf c n = None) cs -> cmp_candidate a b = 0 -> a = b.
Proof.
  intros Hids a b [_ Ha]%list_elem_of_filter [_ Hb]%list_elem_of_filter Hcmp.
  unfold cmp_candidate, cmp_then, cmp_on in Hcmp.
  destruct (_ =? 0) eqn:E in Hcmp; [|lia]. apply cmpS_eq in Hcmp.
  apply list_elem_of_lookup_1 in Ha as [i Ha], Hb as [j Hb].
  assert (i = j) as ->; [|congruence].
  eapply (NoDup_lookup _ i j (pr_ID (ca_Promotion a))); [exact Hids| |].
  - by rewrite list_lookup_fmap, Ha.
  - by rewrite list_lookup_fmap, Hb, Hcmp.
Qed.

Lemma omap_skipped_ext n n' (cs : list PromotionCandidate) :
  (forall c, skipReasonOf c n = skipReasonOf c n') -> omap (skipped_of n) cs = omap (skipped_of n') cs.
Proof.
  intros H. induction cs as [|c cs IH]; [done|]. csimpl. rewrite IH.
  assert (skipped_of n c = skipped_of n' c) as -> by (unfold skipped_of; by rewrite H). done.
Qed.

(** Nothing is discounted that should not be, and everything left out is explained. Every applied
    promotion is one of the candidates and satisfies each condition a promotion has to: active, with a
    method its mechanic agrees with and, for a fixed amount, in the cart's currency, not used up,
    automatic or with its code given, inside its campaign's window and budget, and with all its
    context rules matching. Every candidate that does not count is reported with the first condition
    it fails, in the order given, and no other is. *)
Theorem computeDiscounts_applied cs n :
  let r := computeDiscounts cs n in
  (forall p, p ∈ cr_Applied r -> exists c, c ∈ cs /\ may_apply c n /\
     ap_PromotionID p = pr_ID (ca_Promotion c) /\ ap_Code p = pr_Code (ca_Promotion c)) /\
  cr_Skipped r =
    omap (fun c => mkSkippedPromotion (pr_ID (ca_Promotion c)) (pr_Code (ca_Promotion c))
                     <$> skipReasonOf c n) cs.
Proof.
  unfold computeDiscounts, partitionCandidates. rewrite partition_loop_spec.
  match goal with |- context [apply_all ?el ?a] => pose proof (apply_all_from el a) as Hfrom;
    destruct (apply_all el a) as [applied a'] end.
  simpl in *. split; [|done]. intros p (c & Hc & Hid & Hcode & _)%Hfrom.
  apply SortFunc_elem, list_elem_of_filter in Hc as [Hel Hc].
  exists c. split_and!; auto using eligible_may_apply.
Qed.

(** C36: what is discounted does not depend on the order the repository answers in, nor on the order
    the coupon codes were typed in. *)
Theorem computeDiscounts_order cs cs' n n'
    (Hids : NoDup ((fun c => pr_ID (ca_Promotion c)) <$> cs)) (Hcs : cs ≡ₚ cs')
    (Hcodes : in_Codes n ≡ₚ in_Codes n')
    (Hsame : in_CurrencyCode n = in_CurrencyCode n' /\ in_Context n = in_Context n' /\
       in_ContextLists n = in_ContextLists n' /\ in_Items n = in_Items n' /\
       in_ShippingMethods n = in_ShippingMethods n' /\ in_At n = in_At n') :
  let r := computeDiscounts cs n in
  let r' := computeDiscounts cs' n' in
  cr_Items r = cr_Items r' /\ cr_ShippingMethods r = cr_ShippingMethods r' /\
  cr_DiscountTotal r = cr_DiscountTotal r' /\ cr_Applied r = cr_Applied r' /\
  cr_Skipped r ≡ₚ cr_Skipped r' /\ cr_UnmatchedCodes r ≡ₚ cr_UnmatchedCodes r'.
Proof.
  assert (forall c, skipReasonOf c n = skipReasonOf c n') as Hskip.
  { intros c. destruct Hsame as (H1 & H2 & H3 & _ & _ & H6). unfold skipReasonOf.
    rewrite H1, H2, H3, H6.
    assert (forall x, Contains (in_Codes n) x = Contains (in_Codes n') x) as Hcon.
    { intros x. apply bool_decide_ext. by rewrite Hcodes. }
    by rewrite Hcon. }
  unfold computeDiscounts, partitionCandidates. rewrite !partition_loop_spec.
  assert (filter (fun c => skipReasonOf c n = None) cs
    ≡ₚ filter (fun c => skipReasonOf c n' = None) cs') as Hf.
  { rewrite Hcs. rewrite (list_filter_iff _ (fun c => skipReasonOf c n' = None)); [done|].
    intros c. by rewrite Hskip. }
  rewrite (SortFunc_perm_eq cmp_candidate _ _ (candidates_apart _ _ Hids) Hf).
  destruct Hsame as (H1 & H2 & H3 & -> & -> & H6).
  set (el := SortFunc _ _). destruct (apply_all el _) as [applied a]. simpl.
  split_and!; try done.
  - rewrite (omap_skipped_ext n n' cs Hskip). unfold skipped_of. by rewrite Hcs.
  - unfold unmatchedCodes. by rewrite Hcodes.
Qed.

(** The administrator is shown the discount the customer gets. [ExplainDiscounts] reads a wider set
    of candidates than [ComputeDiscounts], one that is not filtered by status; as long as the narrow
    read is the active part of the wide one, both answer the same discounts, totals, applied
    promotions and unmatched codes, and differ in what they report as skipped alone. *)
Theorem ExplainDiscounts_same repo in_ clock r r'
    (Hreads : forall codes narrow wide, ListCandidates repo codes = Ok narrow ->
       ListCandidatesForDiagnosis repo codes = Ok wide ->
       narrow ≡ₚ filter (fun c => pr_Status (ca_Promotion c) = PromotionActive) wide)
    (Hids : forall codes wide, ListCandidatesForDiagnosis repo codes = Ok wide ->
       NoDup ((fun c => pr_ID (ca_Promotion c)) <$> wide))
    (Hr : ComputeDiscounts repo in_ clock = Ok r) (Hr' : ExplainDiscounts repo in_ clock = Ok r') :
  cr_Items r = cr_Items r' /\ cr_ShippingMethods r = cr_ShippingMethods r' /\
  cr_ItemsDiscountTotal r = cr_ItemsDiscountTotal r' /\
  cr_ShippingDiscountTotal r = cr_ShippingDiscountTotal r' /\
  cr_DiscountTotal r = cr_DiscountTotal r' /\ cr_Applied r = cr_Applied r' /\
  cr_UnmatchedCodes r = cr_UnmatchedCodes r'.
Proof.
  unfold ComputeDiscounts, ExplainDiscounts in *.
  destruct (normalizeComputeInput in_ clock) as [n0|] eqn:Hn; [simpl in Hr, Hr'|done].
  destruct (ListCandidates repo (in_Codes n0)) as [cs|] eqn:Hl; [simpl in Hr|done].
  destruct (ListCandidatesForDiagnosis repo (in_Codes n0)) as [ws|] eqn:Hw; [simpl in Hr'|done].
  injection Hr as <-. injection Hr' as <-.
  pose proof (Hreads _ _ _ Hl Hw) as Hp. specialize (Hids _ _ Hw).
  unfold computeDiscounts, partitionCandidates. rewrite !partition_loop_spec.
  assert (filter (fun c => skipReasonOf c n0 = None) ws
    ≡ₚ filter (fun c => skipReasonOf c n0 = None) cs) as Hf.
  { rewrite Hp, list_filter_filter. rewrite (list_filter_iff _ (fun c =>
      skipReasonOf c n0 = None /\ pr_Status (ca_Promotion c) = PromotionActive)); [done|].
    intros c. split; [|by intros [? _]]. intros Hc. split; [done|].
    by destruct (eligible_may_apply c n0 Hc) as [? _]. }
  rewrite (SortFunc_perm_eq cmp_candidate _ _ (candidates_apart _ _ Hids) Hf).
  set (el := SortFunc _ _). destruct (apply_all el _) as [applied a]. done.
Qed.

(** ** One promotion *)

(** A percentage is exact. On every amount and rate the service accepts, [percentageOf] is the
    mathematical share rounded down, no product overflows, and the discount lies between zero and the
    amount. *)
Theorem percentageOf_floor amount basisPoints
    (Ha : MinAmount <= amount <= MaxAmount) (Hb : 0 <= basisPoints <= BasisPointDenominator) :
  percentageOf amount basisPoints = amount * basisPoints / BasisPointDenominator /\
  0 <= percentageOf amount basisPoints <= amount.
Proof. apply percentageOf_exact; unfold MinAmount in *; lia. Qed.

(** Buying X gives at most Y. A reward promotion pays nothing, and changes no line, unless the
    lines that count as bought hold at least the units it asks for; and when it pays, it pays for at
    most the units it grants, each at no more than the dearest unit it may reward. *)
Theorem applyBuyGet_bounded c m buy grant targets a dearest
    (Hm : method_ok m) (Hbuy : am_BuyQuantity m = Some buy)
    (Hgrant : am_ApplyToQuantity m = Some grant) (Ha : arrays_ok a)
    (Hq : Forall (fun l => MinQuantity <= ls_quantity l <= MaxQuantity) (ar_items a))
    (Hlen : Z.of_nat (length (ar_items a)) <= MaxComputeLines)
    (Hu : Forall (fun p => 0 <= ls_unitAmount p.2 <= dearest) (located a targets))
    (Hd : 0 <= dearest <= MaxAmount) :
  let bought := located a (filterLines ItemRef (ar_items a) (BuyRules c)) in
  let '(paid, a') := applyBuyGet c m targets a in
  (sumZ ((fun p => ls_quantity p.2) <$> bought) < buy -> paid = 0 /\ a' = a) /\
  0 <= paid <= grant * dearest.
Proof.
  intros bought. unfold applyBuyGet. rewrite Hbuy, Hgrant. fold bought.
  assert (sum64 ((fun p => ls_quantity p.2) <$> bought) = sumZ ((fun p => ls_quantity p.2) <$> bought)) as ->.
  { apply bought_count; done. }
  pose proof (mo_apply _ Hm _ Hgrant) as Hg. unfold MinQuantity, MaxQuantity in Hg.
  destruct (_ <? buy) eqn:E; [split; [done|nia]|]. unfold payReward.
  pose proof (pay_from_bound m dearest Hm Hd (SortFunc cmp_reward (located a targets))
    (reserveBoughtUnits a (filterLines ItemRef (ar_items a) (BuyRules c)) buy) grant 0 a) as Hpay.
  destruct (pay_from _ _ _ _ _ _) as [paid a']. split; [lia|].
  destruct Hpay as [? ?]; [done|by rewrite SortFunc_perm|unfold MaxQuantity; lia| |lia].
  pose proof (arrays_ok_bounds _ Ha). lia.
Qed.

(** ** What the service lets in *)

(** A method the service builds is one the computation can rely on: its enumerations are
    members, an order-targeted method is spread across the order, a fixed value is an amount and
    a percentage at most the whole price, given quantities are in range and the two reward
    quantities stand or fall together. *)
Theorem buildApplicationMethod_ok id promotionID in_ now m :
  buildApplicationMethod id promotionID in_ now = Ok m -> method_ok m.
Proof.
  unfold buildApplicationMethod. intros H. result_inv. subst m.
  apply method_currency_Ok in E5 as [Hfixed Hpercent].
  apply validateRewardQuantities_None in E4 as (Hbuy & Happly & Hboth). reflect_bools.
  split; simpl; try done.
  - by destruct (bool_decide (ai_TargetType in_ = TargetOrder)).
  - intros ->. by rewrite bool_decide_true.
  - intros q Hq. rewrite Hq in E3. by apply validateQuantity_None in E3.
Qed.

(** A computation runs only on a cart it can price: every line names itself once, amounts are
    in range and add up within range, the codes are canonical and given once, and the moment of
    pricing is known. The lines are the caller's, in the caller's order. *)
Theorem normalizeComputeInput_ok in_ now n :
  normalizeComputeInput in_ now = Ok n ->
  input_ok n /\ in_Items n = in_Items in_ /\ in_ShippingMethods n = in_ShippingMethods in_.
Proof. apply normalize_ok. Qed.

(** ** Purchases the properties hold at *)

Module Shop.

Definition lines : list allocLine := [mkAllocLine "b" 100; mkAllocLine "a" 100; mkAllocLine "c" 100].

Definition promo (id code : string) (automatic : bool) (status : PromotionStatus) : Promotion :=
  mkPromotion id code automatic PromotionStandard None status None 0 ∅ 0 0 None.

Definition percent (value : Z) : ApplicationMethod :=
  mkApplicationMethod "am" "promo_1" MethodPercentage TargetOrder AllocationAcross value None None None
    EmptyString 0 0.

Definition reward : ApplicationMethod :=
  mkApplicationMethod "am" "promo_3" MethodPercentage TargetItems AllocationEach 10000 None (Some 2) (Some 1)
    EmptyString 0 0.

Definition ten : PromotionCandidate :=
  mkPromotionCandidate (promo "promo_1" "TEN" false PromotionActive) None (Some (percent 1000)) [].

Definition auto : PromotionCandidate :=
  mkPromotionCandidate (promo "promo_2" "AUTO" true PromotionActive) None (Some (percent 2000)) [].

Definition draft : PromotionCandidate :=
  mkPromotionCandidate (promo "promo_0" "DRAFT" true PromotionDraft) None (Some (percent 5000)) [].

Definition item (id : string) (unit qty : Z) : ComputeItem :=
  mkComputeItem id (unit * qty) unit qty ∅ ∅.

Definition cart (codes : list string) : ComputeInput :=
  mkComputeInput "usd" ∅ ∅ [item "line_1" 999 1; item "line_2" 500 3]
    [mkComputeShippingMethod "ship_1" 700 ∅] codes None.

Definition repo : Repository :=
  mkRepository (fun _ => Ok [auto; ten]) (fun _ => Ok [draft; ten; auto])
    (fun _ => Fail (NotFound "x" "x" [])) (fun _ => Fail (NotFound "x" "x" []))
    (fun _ => Fail (NotFound "x" "x" [])) (fun _ => Fail (NotFound "x" "x" [])) (fun _ => Ok []).

Definition answer : ComputeResult :=
  match ComputeDiscounts repo (cart ["ten"%string]) 5 with Ok r => r | Fail _ => empty_result end.

Definition explained : ComputeResult :=
  match ExplainDiscounts repo (cart ["ten"%string]) 5 with Ok r => r | Fail _ => empty_result end.
End Shop.

Lemma allocateAcross_exact_witness :
  allocateAcross 100 Shop.lines = [33; 34; 33] /\
  sumZ (allocateAcross 100 Shop.lines) = Z.max 0 (Z.min 100 (base_of Shop.lines)).
Proof.
  split; [vm_compute; reflexivity|].
  apply (allocateAcross_exact 100 Shop.lines). vm_compute. discriminate.
Defined.

Lemma allocateAcross_fair_witness :
  allocateAcross 100 Shop.lines !! 1%nat = Some 34 /\ 0 <= 34 <= 100.
Proof.
  split; [vm_compute; reflexivity|].
  apply (allocateAcross_fair 100 Shop.lines 1 (mkAllocLine "a" 100) 34);
    [vm_compute; discriminate|reflexivity|vm_compute; reflexivity|reflexivity].
Defined.

Lemma allocateAcross_order_witness :
  exists f, allocateAcross 100 Shop.lines = f <$> Shop.lines /\
    allocateAcross 100 (reverse Shop.lines) = f <$> reverse Shop.lines.
Proof.
  apply (allocateAcross_order 100 Shop.lines (reverse Shop.lines)).
  - vm_compute. discriminate.
  - apply (bool_decide_unpack _). vm_compute. exact I.
  - symmetry. apply reverse_Permutation.
Defined.

Lemma ComputeDiscounts_adds_up_witness :
  ComputeDiscounts Shop.repo (Shop.cart ["ten"%string]) 5 = Ok Shop.answer /\
  cr_DiscountTotal Shop.answer = 748 /\
  cr_DiscountTotal Shop.answer = sumZ (ap_Amount <$> cr_Applied Shop.answer).
Proof.
  split; [vm_compute; reflexivity|]. split; [vm_compute; reflexivity|].
  apply (ComputeDiscounts_adds_up Shop.repo (Shop.cart ["ten"%string]) 5 Shop.answer).
  vm_compute. reflexivity.
Defined.

Lemma computeDiscounts_order_witness :
  cr_DiscountTotal (computeDiscounts [Shop.ten; Shop.auto] (Shop.cart ["TEN"%string; "X"%string])) =
  cr_DiscountTotal (computeDiscounts [Shop.auto; Shop.ten] (Shop.cart ["X"%string; "TEN"%string])).
Proof.
  apply (computeDiscounts_order [Shop.ten; Shop.auto] [Shop.auto; Shop.ten]
    (Shop.cart ["TEN"%string; "X"%string]) (Shop.cart ["X"%string; "TEN"%string])).
  - apply (bool_decide_unpack _). vm_compute. exact I.
  - apply Permutation_swap.
  - apply Permutation_swap.
  - repeat split.
Defined.

Lemma ExplainDiscounts_same_witness :
  cr_Applied Shop.answer = cr_Applied Shop.explained /\
  cr_DiscountTotal Shop.answer = cr_DiscountTotal Shop.explained /\
  length (cr_Skipped Shop.explained) = 1%nat.
Proof.
  pose proof (ExplainDiscounts_same Shop.repo (Shop.cart ["ten"%string]) 5 Shop.answer Shop.explained) as H.
  destruct H as (_ & _ & _ & _ & Ht & Ha & _).
  - intros codes narrow wide [= <-] [= <-]. vm_compute. apply Permutation_swap.
  - intros codes wide [= <-]. apply (bool_decide_unpack _). vm_compute. exact I.
  - vm_compute. reflexivity.
  - vm_compute. reflexivity.
  - split; [exact Ha|]. split; [exact Ht|vm_compute; reflexivity].
Defined.

Lemma percentageOf_floor_witness :
  percentageOf 999 1250 = 124 /\ 0 <= percentageOf 999 1250 <= 999.
Proof.
  split; [vm_compute; reflexivity|].
  apply (percentageOf_floor 999 1250); unfold MinAmount, MaxAmount, BasisPointDenominator; lia.
Defined.

Definition reward_lines : arrays :=
  mkArrays [mkLineState "a" 3000 1000 3 ∅ ∅ 0; mkLineState "b" 400 400 1 ∅ ∅ 0] [].

Lemma reward_ok : method_ok Shop.reward.
Proof.
  split; simpl; try done.
  - intros q [= <-]. unfold MinQuantity, MaxQuantity. lia.
  - intros q [= <-]. unfold MinQuantity, MaxQuantity. lia.
Qed.

Lemma applyBuyGet_bounded_witness :
  (applyBuyGet Shop.ten Shop.reward [ItemRef 0; ItemRef 1] reward_lines).1 = 400 /\
  0 <= (applyBuyGet Shop.ten Shop.reward [ItemRef 0; ItemRef 1] reward_lines).1 <= 1 * 1000.
Proof.
  split; [vm_compute; reflexivity|].
  pose proof (applyBuyGet_bounded Shop.ten Shop.reward 2 1 [ItemRef 0; ItemRef 1] reward_lines 1000
    reward_ok eq_refl eq_refl) as H.
  destruct (applyBuyGet _ _ _ _) as [paid a']. destruct H as [_ H]; [| | | | |exact H].
  - split; simpl; repeat constructor; simpl; unfold MaxAmount; try lia; vm_compute; discriminate.
  - repeat constructor; vm_compute; discriminate.
  - vm_compute. discriminate.
  - repeat constructor; vm_compute; discriminate.
  - unfold MaxAmount. lia.
Defined.

Lemma buildApplicationMethod_ok_witness :
  exists m, buildApplicationMethod "apm_1" "prm_1"
    (mkApplicationMethodInput MethodPercentage TargetOrder not_given 1500 None (Some 2) (Some 1)
      EmptyString) 7 = Ok m /\ am_Allocation m = AllocationAcross /\ method_ok m.
Proof.
  eexists. split; [vm_compute; reflexivity|]. split; [reflexivity|].
  eapply (buildApplicationMethod_ok "apm_1" "prm_1"
    (mkApplicationMethodInput MethodPercentage TargetOrder not_given 1500 None (Some 2) (Some 1)
      EmptyString) 7). vm_compute. reflexivity.
Defined.

Lemma normalizeComputeInput_ok_witness :
  exists n, normalizeComputeInput (Shop.cart ["ten"%string]) 5 = Ok n /\ in_Codes n = ["TEN"%string] /\
    input_ok n.
Proof.
  eexists. split; [vm_compute; reflexivity|]. split; [reflexivity|].
  apply (normalizeComputeInput_ok (Shop.cart ["ten"%string]) 5). vm_compute. reflexivity.
Defined.
