(* ===== verification/PromotionStore.v ===== *)
(** * The promotion module's database: [internal/modules/promotion/repository], [queries/*.sql] and the
    constraints of [migrations/*.sql]

    Deletion is soft: a row keeps its place and its [deleted_at]. The counters of uses and budgets are
    columns; [promotion_redemption] is their ledger. A locking read is a read: the transactions that share
    rows follow one another, as the locks make them. A listing's text order is the byte order of its ASCII
    identifiers. The database keeps microseconds; texts are valid UTF-8 without the zero character, so that
    the jsonb column gives metadata back as they were. *)
From S2P Require Import Prelude GoText Errors Tx Identifiers Database Server Condition PromotionModels PromotionValidate.

(** ** Rows *)

Record Redemption := mkRedemption {
  rd_ID : string;
  rd_PromotionID : string;
  rd_CampaignID : option string;
  rd_Reference : string;
  rd_Amount : Z;
  rd_CurrencyCode : string;
  rd_BudgetDelta : Z;
  rd_CreatedAt : moment;
  rd_UpdatedAt : moment;
  rd_ReleasedAt : option moment
}.

(** A row of a table whose model has no [deleted_at]. *)
Record Kept (A : Type) := mkKept { kept_row : A; kept_DeletedAt : option moment }.
Arguments mkKept {A}.
Arguments kept_row {A}.
Arguments kept_DeletedAt {A}.

(** [models/campaign_terms.go] *)
Record CampaignTerms := mkCampaignTerms {
  ct_Name : string;
  ct_Description : string;
  ct_StartsAt : option moment;
  ct_EndsAt : option moment;
  ct_BudgetLimit : option Z
}.

#[export] Instance CampaignTerms_eq_dec : EqDecision CampaignTerms.
Proof. solve_decision. Defined.

Definition Terms (c : Campaign) : CampaignTerms :=
  mkCampaignTerms (cp_Name c) (cp_Description c) (cp_StartsAt c) (cp_EndsAt c) (cp_BudgetLimit c).

Definition sameInstant (a b : option moment) : bool :=
  match a, b with None, None => true | Some a, Some b => a =? b | _, _ => false end.

Definition Same (t o : CampaignTerms) : bool :=
  let sameLimit := match ct_BudgetLimit t, ct_BudgetLimit o with
    | None, None => true | Some a, Some b => a =? b | _, _ => false end in
  bool_decide (ct_Name t = ct_Name o) && bool_decide (ct_Description t = ct_Description o) &&
  sameInstant (ct_StartsAt t) (ct_StartsAt o) && sameInstant (ct_EndsAt t) (ct_EndsAt o) && sameLimit.

Record Tables := mkTables {
  tb_campaigns : gmap string Campaign;
  tb_promotions : gmap string Promotion;
  tb_methods : gmap string (Kept ApplicationMethod);
  tb_rules : gmap string (Kept PromotionRule);
  tb_redemptions : gmap string Redemption
}.

Definition set_campaigns m t := mkTables m (tb_promotions t) (tb_methods t) (tb_rules t) (tb_redemptions t).
Definition set_promotions m t := mkTables (tb_campaigns t) m (tb_methods t) (tb_rules t) (tb_redemptions t).
Definition set_methods m t := mkTables (tb_campaigns t) (tb_promotions t) m (tb_rules t) (tb_redemptions t).
Definition set_rules m t := mkTables (tb_campaigns t) (tb_promotions t) (tb_methods t) m (tb_redemptions t).
Definition set_redemptions m t := mkTables (tb_campaigns t) (tb_promotions t) (tb_methods t) (tb_rules t) m.

Definition put_campaign (c : Campaign) t := set_campaigns (<[cp_ID c := c]> (tb_campaigns t)) t.
Definition put_promotion (p : Promotion) t := set_promotions (<[pr_ID p := p]> (tb_promotions t)) t.
Definition put_redemption (r : Redemption) t := set_redemptions (<[rd_ID r := r]> (tb_redemptions t)) t.

Definition emptyTables : Tables := mkTables ∅ ∅ ∅ ∅ ∅.

(** [deleted_at IS NULL], and the live row under an identifier. *)
Definition is_null {A} (x : option A) : bool := match x with None => true | Some _ => false end.

Definition live {A} (deleted : A -> option moment) (m : gmap string A) (id : string) : option A :=
  r ← m !! id; if is_null (deleted r) then Some r else None.

Definition live_campaign (t : Tables) : string -> option Campaign := live cp_DeletedAt (tb_campaigns t).
Definition live_promotion (t : Tables) : string -> option Promotion := live pr_DeletedAt (tb_promotions t).

(** What [timestamptz] keeps of a moment. *)
Definition fromTime (t : moment) : moment := t / 1000 * 1000.
Definition fromTimePtr (t : option moment) : option moment := fromTime <$> t.

Definition stored_terms (t : CampaignTerms) : CampaignTerms :=
  mkCampaignTerms (ct_Name t) (ct_Description t) (fromTimePtr (ct_StartsAt t)) (fromTimePtr (ct_EndsAt t)) (ct_BudgetLimit t).

(** ** Errors *)

Definition CodeCampaignNotFound : string := "campaign_not_found".
Definition CodePromotionNotFound : string := "promotion_not_found".
Definition CodeApplicationMethodNotFound : string := "promotion_application_method_not_found".
Definition CodePromotionRuleNotFound : string := "promotion_rule_not_found".
Definition CodeUsageLimitReached : string := "promotion_usage_limit_reached".
Definition CodePromotionNotActive : string := "promotion_not_active".
Definition CodeCampaignWindowClosed : string := "campaign_window_closed".
Definition CodeBudgetUnitLocked : string := "campaign_budget_unit_locked".
Definition CodeBudgetExceeded : string := "campaign_budget_exceeded".
Definition CodeBudgetCurrencyMismatch : string := "campaign_budget_currency_mismatch".
Definition CodeRedemptionRaced : string := "promotion_redemption_raced".
Definition CodeConstraintViolation : string := "promotion_constraint_violation".
Definition CodeDuplicate : string := "promotion_duplicate".
Definition CodeQueryFailed : string := "promotion_query_failed".
Definition CodeCanceled : string := "promotion_canceled".
Definition CodeTxFailed : string := "promotion_tx_failed".

(** The sentinels of [context] and [pgx]. *)
Definition context_Canceled : string := "context canceled".
Definition context_DeadlineExceeded : string := "context deadline exceeded".
Definition ErrNoRows : string := "no rows in result set".
Definition ErrTxClosed : string := "tx is closed".
Definition ErrTxCommitRollback : string := "commit unexpectedly resulted in rollback".

Definition sqlstateNotNullViolation : string := "23502".
Definition sqlstateStringDataRightTrunc : string := "22001".

(** ** Constraints *)

Definition campaign_checks (c : Campaign) : list (string * bool) := [
  chk "campaign_budget_currency_check"
    match cp_BudgetType c with
    | BudgetSpend => currency_format (cp_BudgetCurrencyCode c)
    | _ => bool_decide (cp_BudgetCurrencyCode c = EmptyString)
    end;
  chk "campaign_budget_limit_check"
    match cp_BudgetLimit c with None => true | Some l => (0 <=? l) && (l <=? 1000000000000) end;
  chk "campaign_budget_none_check"
    (negb (bool_decide (cp_BudgetType c = BudgetNone)) || is_null (cp_BudgetLimit c));
  chk "campaign_budget_type_check" (CampaignBudgetType_Valid (cp_BudgetType c));
  chk "campaign_budget_used_check" (0 <=? cp_BudgetUsed c);
  chk "campaign_identifier_check" (negb (bool_decide (cp_CampaignIdentifier c = EmptyString)));
  chk "campaign_name_check" (negb (bool_decide (cp_Name c = EmptyString)));
  chk "campaign_window_check"
    match cp_StartsAt c, cp_EndsAt c with Some s, Some e => s <? e | _, _ => true end].

Definition promotion_checks (p : Promotion) : list (string * bool) := [
  chk "promotion_code_check"
    (negb (bool_decide (pr_Code p = EmptyString)) && bool_decide (pr_Code p = ToUpper (pr_Code p)));
  chk "promotion_status_check" (PromotionStatus_Valid (pr_Status p));
  chk "promotion_type_check" (PromotionType_Valid (pr_Type p));
  chk "promotion_usage_count_check" (0 <=? pr_UsageCount p);
  chk "promotion_usage_limit_check" match pr_UsageLimit p with None => true | Some l => 0 <=? l end].

Definition quantity_check (q : option Z) : bool :=
  match q with None => true | Some q => (1 <=? q) && (q <=? 1000000) end.

Definition method_checks (m : ApplicationMethod) : list (string * bool) := [
  chk "promotion_application_method_alloc_check" (Allocation_Valid (am_Allocation m));
  chk "promotion_application_method_apply_qty_check" (quantity_check (am_ApplyToQuantity m));
  chk "promotion_application_method_buy_qty_check" (quantity_check (am_BuyQuantity m));
  chk "promotion_application_method_currency_check"
    match am_Type m with
    | MethodFixed => currency_format (am_CurrencyCode m)
    | _ => bool_decide (am_CurrencyCode m = EmptyString)
    end;
  chk "promotion_application_method_fixed_check"
    (negb (bool_decide (am_Type m = MethodFixed)) || (am_Value m <=? 1000000000000));
  chk "promotion_application_method_maxqty_check" (quantity_check (am_MaxQuantity m));
  chk "promotion_application_method_order_alloc_check"
    (negb (bool_decide (am_TargetType m = TargetOrder)) || bool_decide (am_Allocation m = AllocationAcross));
  chk "promotion_application_method_pct_check"
    (negb (bool_decide (am_Type m = MethodPercentage)) || (am_Value m <=? 10000));
  chk "promotion_application_method_reward_pair_check"
    (eqb (is_null (am_BuyQuantity m)) (is_null (am_ApplyToQuantity m)));
  chk "promotion_application_method_target_check" (ApplicationTargetType_Valid (am_TargetType m));
  chk "promotion_application_method_type_check" (ApplicationMethodType_Valid (am_Type m));
  chk "promotion_application_method_value_check" (0 <=? am_Value m)].

Definition rule_checks (r : PromotionRule) : list (string * bool) := [
  chk "promotion_rule_attribute_check" (negb (bool_decide (ru_Attribute r = EmptyString)));
  chk "promotion_rule_operator_check" (RuleOperator_Valid (ru_Operator r));
  chk "promotion_rule_type_check" (RuleType_Valid (ru_RuleType r));
  chk "promotion_rule_values_check" (1 <=? Z.of_nat (length (ru_Values r)))].

Definition redemption_checks (r : Redemption) : list (string * bool) := [
  chk "promotion_redemption_amount_check" ((0 <=? rd_Amount r) && (rd_Amount r <=? 1000000000000));
  chk "promotion_redemption_currency_check" (currency_format (rd_CurrencyCode r));
  chk "promotion_redemption_delta_check" (0 <=? rd_BudgetDelta r);
  chk "promotion_redemption_reference_check" (negb (bool_decide (rd_Reference r = EmptyString)))].

(** The unique indexes beside the primary keys, and the foreign keys. *)
Definition identifier_taken (id identifier : string) (t : Tables) : bool :=
  negb (is_null (head (filter (fun c => cp_ID c <> id /\ cp_DeletedAt c = None /\ cp_CampaignIdentifier c = identifier)
    (rows (tb_campaigns t))))).

Definition code_taken (id code : string) (t : Tables) : bool :=
  negb (is_null (head (filter (fun p => pr_ID p <> id /\ pr_DeletedAt p = None /\ pr_Code p = code)
    (rows (tb_promotions t))))).

Definition campaign_exists (id : option string) (t : Tables) : bool :=
  match id with None => true | Some id => negb (is_null (tb_campaigns t !! id)) end.

(** *** Moments of the writes *)

Definition touch_campaign (now : moment) (used : Z) (c : Campaign) : Campaign :=
  mkCampaign (cp_ID c) (cp_Name c) (cp_CampaignIdentifier c) (cp_Description c) (cp_StartsAt c) (cp_EndsAt c)
    (cp_BudgetType c) (cp_BudgetLimit c) used (cp_BudgetCurrencyCode c) (cp_CreatedAt c) now (cp_DeletedAt c).

Definition touch_promotion (now : moment) (campaign : option string) (status : PromotionStatus) (count : Z)
    (p : Promotion) : Promotion :=
  mkPromotion (pr_ID p) (pr_Code p) (pr_IsAutomatic p) (pr_Type p) campaign status (pr_UsageLimit p) count
    (pr_Metadata p) (pr_CreatedAt p) now (pr_DeletedAt p).

(** ** The queries *)

Module Sql.

Definition duplicate {A} (constraint : string) : answer A := refuse sqlStateUniqueViolation constraint.
Definition no_parent {A} (constraint : string) : answer A := refuse sqlStateForeignKeyViolation constraint.

(** Checks come before unique indexes, and foreign keys at the end of the statement. *)
Definition when {A} (bad : bool) (refusal : answer A) (a : answer A) : answer A := if bad then refusal else a.

Definition checking {A} (l : list (string * bool)) (a : answer A) : answer A :=
  match check_violated l with None => a | Some name => refuse sqlStateCheckViolation name end.

(** *** [campaign.sql], [campaign_revise.sql] *)

Definition InsertCampaign (c : Campaign) (t : Tables) : answer (Tables * Campaign) :=
  checking (campaign_checks c)
    (when (negb (is_null (tb_campaigns t !! cp_ID c))) (duplicate "campaign_pkey")
    (when (identifier_taken (cp_ID c) (cp_CampaignIdentifier c) t) (duplicate "campaign_identifier_uniq")
    (Rows (put_campaign c t, c)))).

(** The rest of a campaign's definition is the operator's; its counter stays. *)
Definition UpdateCampaign (c : Campaign) (now : moment) (t : Tables) : answer (Tables * option Campaign) :=
  match live_campaign t (cp_ID c) with
  | None => Rows (t, None)
  | Some old =>
      if (cp_BudgetUsed old =? 0) ||
         (bool_decide (cp_BudgetType old = cp_BudgetType c) &&
          bool_decide (cp_BudgetCurrencyCode old = cp_BudgetCurrencyCode c))
      then
        let row := mkCampaign (cp_ID old) (cp_Name c) (cp_CampaignIdentifier c) (cp_Description c) (cp_StartsAt c)
          (cp_EndsAt c) (cp_BudgetType c) (cp_BudgetLimit c) (cp_BudgetUsed old) (cp_BudgetCurrencyCode c)
          (cp_CreatedAt old) now (cp_DeletedAt old) in
        checking (campaign_checks row)
          (when (identifier_taken (cp_ID row) (cp_CampaignIdentifier row) t) (duplicate "campaign_identifier_uniq")
          (Rows (put_campaign row t, Some row)))
      else Rows (t, None)
  end.

Definition SoftDeleteCampaign (id : string) (now : moment) (t : Tables) : answer (Tables * option string) :=
  match live_campaign t id with
  | None => Rows (t, None)
  | Some c =>
      let row := mkCampaign (cp_ID c) (cp_Name c) (cp_CampaignIdentifier c) (cp_Description c) (cp_StartsAt c)
        (cp_EndsAt c) (cp_BudgetType c) (cp_BudgetLimit c) (cp_BudgetUsed c) (cp_BudgetCurrencyCode c)
        (cp_CreatedAt c) now (Some now) in
      Rows (put_campaign row t, Some id)
  end.

Definition with_terms (n : CampaignTerms) (now : moment) (c : Campaign) : Campaign :=
  mkCampaign (cp_ID c) (ct_Name n) (cp_CampaignIdentifier c) (ct_Description n) (ct_StartsAt n) (ct_EndsAt n)
    (cp_BudgetType c) (ct_BudgetLimit n) (cp_BudgetUsed c) (cp_BudgetCurrencyCode c) (cp_CreatedAt c) now (cp_DeletedAt c).

Definition ReviseCampaign (id : string) (read next : CampaignTerms) (now : moment) (t : Tables)
    : answer (Tables * option Campaign) :=
  match live_campaign t id with
  | Some c =>
      if bool_decide (Terms c = read) && eqb (bool_decide (cp_BudgetType c = BudgetNone)) (is_null (ct_BudgetLimit next))
      then
        let row := with_terms next now c in
        checking (campaign_checks row) (Rows (put_campaign row t, Some row))
      else Rows (t, None)
  | None => Rows (t, None)
  end.

(** A sum out of the range of [bigint] is an error of the statement. *)
Definition in_bigint (z : Z) : bool := (int64_min <=? z) && (z <=? int64_max).

Definition IncrementCampaignBudget (id : string) (delta : Z) (now : moment) (t : Tables) : answer (Tables * option Campaign) :=
  match live_campaign t id with
  | None => Rows (t, None)
  | Some c =>
      let used := cp_BudgetUsed c + delta in
      if negb (in_bigint used) then refuse sqlStateOutOfRange EmptyString
      else if match cp_BudgetLimit c with None => true | Some l => used <=? l end then
        let row := touch_campaign now used c in
        checking (campaign_checks row) (Rows (put_campaign row t, Some row))
      else Rows (t, None)
  end.

Definition DecrementCampaignBudget (id : string) (delta : Z) (now : moment) (t : Tables) : answer (Tables * option Campaign) :=
  match live_campaign t id with
  | None => Rows (t, None)
  | Some c =>
      let row := touch_campaign now (Z.max (cp_BudgetUsed c - delta) 0) c in
      if negb (in_bigint (cp_BudgetUsed c - delta)) then refuse sqlStateOutOfRange EmptyString
      else checking (campaign_checks row) (Rows (put_campaign row t, Some row))
  end.

(** *** [promotion.sql], [promotion_status.sql], [promotion_campaign.sql] *)

Definition InsertPromotion (p : Promotion) (t : Tables) : answer (Tables * Promotion) :=
  checking (promotion_checks p)
    (when (negb (is_null (tb_promotions t !! pr_ID p))) (duplicate "promotion_pkey")
    (when (code_taken (pr_ID p) (pr_Code p) t) (duplicate "promotion_code_uniq")
    (when (negb (campaign_exists (pr_CampaignID p) t)) (no_parent "promotion_campaign_id_fkey")
    (Rows (put_promotion p t, p))))).

Definition promotion_of_code (code : string) (t : Tables) : option Promotion :=
  head (filter (fun p => pr_DeletedAt p = None /\ pr_Code p = code) (rows (tb_promotions t))).

Definition UpdatePromotion (p : Promotion) (now : moment) (t : Tables) : answer (Tables * option Promotion) :=
  match live_promotion t (pr_ID p) with
  | None => Rows (t, None)
  | Some old =>
      let row := mkPromotion (pr_ID old) (pr_Code p) (pr_IsAutomatic p) (pr_Type p) (pr_CampaignID p) (pr_Status p)
        (pr_UsageLimit p) (pr_UsageCount old) (pr_Metadata p) (pr_CreatedAt old) now (pr_DeletedAt old) in
      checking (promotion_checks row)
        (when (code_taken (pr_ID row) (pr_Code row) t) (duplicate "promotion_code_uniq")
        (when (negb (campaign_exists (pr_CampaignID row) t)) (no_parent "promotion_campaign_id_fkey")
        (Rows (put_promotion row t, Some row))))
  end.

Definition SoftDeletePromotion (id : string) (now : moment) (t : Tables) : answer (Tables * option string) :=
  match live_promotion t id with
  | None => Rows (t, None)
  | Some p =>
      let row := mkPromotion (pr_ID p) (pr_Code p) (pr_IsAutomatic p) (pr_Type p) (pr_CampaignID p) (pr_Status p)
        (pr_UsageLimit p) (pr_UsageCount p) (pr_Metadata p) (pr_CreatedAt p) now (Some now) in
      Rows (put_promotion row t, Some id)
  end.

Definition IncrementPromotionUsage (id : string) (now : moment) (t : Tables) : answer (Tables * option Promotion) :=
  match live_promotion t id with
  | None => Rows (t, None)
  | Some p =>
      let count := pr_UsageCount p + 1 in
      if negb (in_bigint count) then refuse sqlStateOutOfRange EmptyString
      else if match pr_UsageLimit p with None => true | Some l => count <=? l end then
        let row := touch_promotion now (pr_CampaignID p) (pr_Status p) count p in
        checking (promotion_checks row) (Rows (put_promotion row t, Some row))
      else Rows (t, None)
  end.

Definition DecrementPromotionUsage (id : string) (now : moment) (t : Tables) : answer (Tables * option Promotion) :=
  match live_promotion t id with
  | None => Rows (t, None)
  | Some p =>
      let row := touch_promotion now (pr_CampaignID p) (pr_Status p) (Z.max (pr_UsageCount p - 1) 0) p in
      checking (promotion_checks row) (Rows (put_promotion row t, Some row))
  end.

Definition SwitchPromotionStatus (id : string) (from to : PromotionStatus) (now : moment) (t : Tables)
    : answer (Tables * option Promotion) :=
  match live_promotion t id with
  | Some p =>
      if bool_decide (pr_Status p = from) then
        let row := touch_promotion now (pr_CampaignID p) to (pr_UsageCount p) p in
        checking (promotion_checks row) (Rows (put_promotion row t, Some row))
      else Rows (t, None)
  | None => Rows (t, None)
  end.

Definition SetPromotionCampaign (id : string) (from to : option string) (now : moment) (t : Tables)
    : answer (Tables * option Promotion) :=
  match live_promotion t id with
  | Some p =>
      if bool_decide (pr_CampaignID p = from) &&
         match to with None => true | Some c => negb (is_null (live_campaign t c)) end
      then
        let row := touch_promotion now to (pr_Status p) (pr_UsageCount p) p in
        checking (promotion_checks row) (Rows (put_promotion row t, Some row))
      else Rows (t, None)
  | None => Rows (t, None)
  end.

Definition applicable (active_only : bool) (codes : list string) (p : Promotion) : bool :=
  is_null (pr_DeletedAt p) && (negb active_only || bool_decide (pr_Status p = PromotionActive)) &&
  (pr_IsAutomatic p || Contains codes (pr_Code p)).

(** [ListApplicablePromotions], and without the status [ListCandidatesForDiagnosis]. *)
Definition ListApplicablePromotions (active_only : bool) (codes : list string) (t : Tables) : list Promotion :=
  SortFunc (cmp_on pr_ID cmpS) (filter (fun p => applicable active_only codes p = true) (rows (tb_promotions t))).

(** *** [application_method.sql], [application_method_revise.sql] *)

Definition GetApplicationMethod (promotion : string) (t : Tables) : option ApplicationMethod :=
  kept_row <$> head (filter (fun k => am_PromotionID (kept_row k) = promotion /\ kept_DeletedAt k = None) (rows (tb_methods t))).

Definition put_method (deleted : option moment) (m : ApplicationMethod) t :=
  set_methods (<[am_ID m := mkKept m deleted]> (tb_methods t)) t.

Definition UpsertApplicationMethod (m : ApplicationMethod) (now : moment) (t : Tables) : answer (Tables * ApplicationMethod) :=
  checking (method_checks m)
    match GetApplicationMethod (am_PromotionID m) t with
    | Some old =>
        let row := mkApplicationMethod (am_ID old) (am_PromotionID old) (am_Type m) (am_TargetType m) (am_Allocation m)
          (am_Value m) (am_MaxQuantity m) (am_BuyQuantity m) (am_ApplyToQuantity m) (am_CurrencyCode m)
          (am_CreatedAt old) now in
        Rows (put_method None row t, row)
    | None =>
        when (negb (is_null (tb_methods t !! am_ID m))) (duplicate "promotion_application_method_pkey")
        (when (is_null (tb_promotions t !! am_PromotionID m)) (no_parent "promotion_application_method_promotion_id_fkey")
        (Rows (put_method None m t, m)))
    end.

Definition with_value (m : ApplicationMethod) (value : Z) (now : moment) : ApplicationMethod :=
  mkApplicationMethod (am_ID m) (am_PromotionID m) (am_Type m) (am_TargetType m) (am_Allocation m) value
    (am_MaxQuantity m) (am_BuyQuantity m) (am_ApplyToQuantity m) (am_CurrencyCode m) (am_CreatedAt m) now.

Definition ReviseMethodValue (promotion : string) (readType : ApplicationMethodType) (readValue value : Z) (now : moment)
    (t : Tables) : answer (Tables * option ApplicationMethod) :=
  match GetApplicationMethod promotion t with
  | Some m =>
      if bool_decide (am_Type m = readType) && (am_Value m =? readValue) then
        let row := with_value m value now in
        checking (method_checks row) (Rows (put_method None row t, Some row))
      else Rows (t, None)
  | None => Rows (t, None)
  end.

Definition SoftDeleteApplicationMethod (promotion : string) (now : moment) (t : Tables) : answer (Tables * option string) :=
  match GetApplicationMethod promotion t with
  | Some m => Rows (put_method (Some now) (with_value m (am_Value m) now) t, Some (am_ID m))
  | None => Rows (t, None)
  end.

(** *** [promotion_rule.sql] *)

Definition put_rule (deleted : option moment) (r : PromotionRule) t :=
  set_rules (<[ru_ID r := mkKept r deleted]> (tb_rules t)) t.

Definition InsertPromotionRule (r : PromotionRule) (t : Tables) : answer (Tables * PromotionRule) :=
  checking (rule_checks r)
    (when (negb (is_null (tb_rules t !! ru_ID r))) (duplicate "promotion_rule_pkey")
    (when (is_null (tb_promotions t !! ru_PromotionID r)) (no_parent "promotion_rule_promotion_id_fkey")
    (Rows (put_rule None r t, r)))).

Definition GetPromotionRule (id : string) (t : Tables) : option PromotionRule :=
  kept_row <$> live kept_DeletedAt (tb_rules t) id.

Definition ListPromotionRules (promotion : string) (t : Tables) : list PromotionRule :=
  SortFunc (cmp_on ru_ID cmpS)
    (kept_row <$> filter (fun k => ru_PromotionID (kept_row k) = promotion /\ kept_DeletedAt k = None) (rows (tb_rules t))).

Definition SoftDeletePromotionRule (id : string) (now : moment) (t : Tables) : answer (Tables * option string) :=
  match GetPromotionRule id t with
  | Some r =>
      Rows (put_rule (Some now) (mkPromotionRule (ru_ID r) (ru_PromotionID r) (ru_RuleType r) (ru_Attribute r)
        (ru_Operator r) (ru_Values r) (ru_CreatedAt r) now) t, Some id)
  | None => Rows (t, None)
  end.

(** *** [redemption.sql] *)

(** A standing use of the promotion for the reference. *)
Definition stands_for (promotion reference : string) (r : Redemption) : Prop :=
  rd_PromotionID r = promotion /\ rd_Reference r = reference /\ rd_ReleasedAt r = None.

#[export] Instance stands_for_dec promotion reference r : Decision (stands_for promotion reference r).
Proof. unfold stands_for. apply _. Defined.

Definition GetActiveRedemption (promotion reference : string) (t : Tables) : option Redemption :=
  head (filter (stands_for promotion reference) (rows (tb_redemptions t))).

Definition InsertRedemption (r : Redemption) (t : Tables) : answer (Tables * Redemption) :=
  checking (redemption_checks r)
    (when (negb (is_null (tb_redemptions t !! rd_ID r))) (duplicate "promotion_redemption_pkey")
    (when (negb (is_null (GetActiveRedemption (rd_PromotionID r) (rd_Reference r) t)))
      (duplicate "promotion_redemption_active_uniq")
    (when (is_null (tb_promotions t !! rd_PromotionID r)) (no_parent "promotion_redemption_promotion_id_fkey")
    (when (negb (campaign_exists (rd_CampaignID r) t)) (no_parent "promotion_redemption_campaign_id_fkey")
    (Rows (put_redemption r t, r)))))).

Definition released (r : Redemption) (now : moment) : Redemption :=
  mkRedemption (rd_ID r) (rd_PromotionID r) (rd_CampaignID r) (rd_Reference r) (rd_Amount r) (rd_CurrencyCode r)
    (rd_BudgetDelta r) (rd_CreatedAt r) now (Some now).

Definition MarkRedemptionReleased (id : string) (now : moment) (t : Tables) : answer (Tables * option Redemption) :=
  match live rd_ReleasedAt (tb_redemptions t) id with
  | Some r => Rows (put_redemption (released r now) t, Some (released r now))
  | None => Rows (t, None)
  end.

Definition ListRedemptions (promotion : string) (t : Tables) : list Redemption :=
  SortFunc (cmp_on rd_ID cmpS) (filter (fun r => rd_PromotionID r = promotion) (rows (tb_redemptions t))).
End Sql.

(** ** The repository *)

Section Wrapping.
Context {W : Type} `{!Server W}.

Definition wrapDB (format : string) (a : list arg) (d : dberr) : err :=
  let e := match d with DriverError e => e | PgError state constraint => sv_refusal state constraint end in
  if Is e context_Canceled || Is e context_DeadlineExceeded then wrap e KindUnavailable CodeCanceled format a
  else if Is e ErrTxClosed || Is e ErrTxCommitRollback then wrap e KindInternal CodeTxFailed format a
  else match d with
  | PgError state constraint =>
      if bool_decide (state = sqlStateUniqueViolation) then
        wrap e KindConflict CodeDuplicate "%s (constraint: %s)" [AStr (sprintf format a); AStr constraint]
      else if bool_decide (state = sqlStateCheckViolation) || bool_decide (state = sqlStateForeignKeyViolation) ||
              bool_decide (state = sqlstateNotNullViolation) || bool_decide (state = sqlstateStringDataRightTrunc) then
        wrap e KindInvalid CodeConstraintViolation "%s (constraint: %s)" [AStr (sprintf format a); AStr constraint]
      else wrap e KindInternal CodeQueryFailed format a
  | DriverError _ => wrap e KindInternal CodeQueryFailed format a
  end.

(** The operator chose the identifier; the constraint's name is not theirs. *)
Definition chosen_twice (conflict : err) (format : string) (a : list arg) (d : dberr) : err :=
  match d with
  | PgError state _ => if bool_decide (state = sqlStateUniqueViolation) then conflict else wrapDB format a d
  | DriverError _ => wrapDB format a d
  end.
End Wrapping.

Module Repo.
Section Repo.
Context {W : Type} `{!Server W}.
Abbreviation op := (tx (Served Tables W)).

Definition inTx {A} (m : op A) : op A :=
  transaction (wrapDB "the transaction could not be started" []) (wrapDB "the transaction could not be completed" []) m.

(** [notFoundOr] of a statement that answers one row. *)
Definition row_or {A} (code format : string) (a : list arg) (name : string) (f : Tables -> answer (Tables * option A)) : op A :=
  found (NotFound code format a) (statement name (wrapDB format a) f).

Definition reading {A} (f : Tables -> A) (t : Tables) : answer (Tables * A) := Rows (t, f t).

(** *** [campaign.go], [campaign_revise.go] *)

Definition stored_campaign (now : moment) (c : Campaign) : Campaign :=
  mkCampaign (cp_ID c) (cp_Name c) (cp_CampaignIdentifier c) (cp_Description c) (fromTimePtr (cp_StartsAt c))
    (fromTimePtr (cp_EndsAt c)) (cp_BudgetType c) (cp_BudgetLimit c) 0 (cp_BudgetCurrencyCode c)
    (fromTime now) (fromTime now) None.

Definition CreateCampaign (c : Campaign) (now : moment) : op Campaign :=
  statement "InsertCampaign"
    (chosen_twice (Conflict CodeDuplicate "a campaign with the identifier %s exists" [AStr (cp_CampaignIdentifier c)])
       "the campaign %s could not be created" [AStr (cp_CampaignIdentifier c)])
    (Sql.InsertCampaign (stored_campaign now c)).

Definition GetCampaign (id : string) : op Campaign :=
  row_or CodeCampaignNotFound "campaign not found: %s" [AStr id] "GetCampaign" (reading (fun t => live_campaign t id)).

Definition GetCampaignByIdentifier (identifier : string) : op Campaign :=
  row_or CodeCampaignNotFound "campaign not found: %s" [AStr identifier] "GetCampaignByIdentifier"
    (reading (fun t => head (filter (fun c => cp_CampaignIdentifier c = identifier /\ cp_DeletedAt c = None)
      (rows (tb_campaigns t))))).

Definition live_campaigns (t : Tables) : list Campaign :=
  SortFunc (cmp_on cp_ID cmpS) (filter (fun c => cp_DeletedAt c = None) (rows (tb_campaigns t))).

Definition ListCampaigns (limit offset : Z) : op (list Campaign * Z) :=
  l ← query "ListCampaigns" (wrapDB "the campaigns could not be listed" []) (fun t => paged limit offset (live_campaigns t));
  n ← query "CountCampaigns" (wrapDB "the campaign count could not be read" []) (fun t => Z.of_nat (length (live_campaigns t)));
  mret (l, n).

Definition GetCampaignsByIDs (ids : list string) : op (list Campaign) :=
  match ids with
  | [] => mret []
  | _ => query "GetCampaignsByIDs" (wrapDB "the campaigns could not be read" [])
      (fun t => filter (fun c => cp_ID c ∈ ids) (live_campaigns t))
  end.

Definition CampaignBudgetType_text (b : CampaignBudgetType) : string :=
  match b with BudgetNone => "none" | BudgetSpend => "spend" | BudgetUsage => "usage" | BudgetOther s => s end.

Definition currencyLabel (code : string) : string := if bool_decide (code = EmptyString) then "-" else code.

Definition campaignUpdateRejected (c : Campaign) : op Campaign :=
  current ← GetCampaign (cp_ID c);
  tx_of (Fail (Conflict CodeBudgetUnitLocked
    "the campaign's budget counter is %d; the budget type or currency cannot be changed until the counter is reset (current: %s/%s, requested: %s/%s)"
    [AInt (cp_BudgetUsed current); AStr (CampaignBudgetType_text (cp_BudgetType current));
     AStr (currencyLabel (cp_BudgetCurrencyCode current)); AStr (CampaignBudgetType_text (cp_BudgetType c));
     AStr (currencyLabel (cp_BudgetCurrencyCode c))])).

Definition UpdateCampaign (c : Campaign) (now : moment) : op Campaign :=
  r ← statement "UpdateCampaign" (wrapDB "the campaign %s could not be updated" [AStr (cp_ID c)])
    (Sql.UpdateCampaign (stored_campaign now c) (fromTime now));
  match r with Some row => mret row | None => campaignUpdateRejected c end.

Definition DeleteCampaign (id : string) (now : moment) : op unit :=
  ignore (row_or CodeCampaignNotFound "campaign not found: %s" [AStr id] "SoftDeleteCampaign"
    (Sql.SoftDeleteCampaign id (fromTime now))).

Definition campaignGone (id : string) : err := Conflict CodeCampaignNotFound "the campaign vanished during use: %s" [AStr id].

(** The terms an operator revises: [models/campaign_terms.go]. *)
Definition ReviseCampaign (id : string) (read next : CampaignTerms) (now : moment) : op (option Campaign) :=
  statement "ReviseCampaign" (wrapDB "the campaign %s could not be revised" [AStr id])
    (Sql.ReviseCampaign id (stored_terms read) (stored_terms next) (fromTime now)).

(** *** [promotion.go], [promotion_status.go], [promotion_campaign.go], [coupon.go] *)

Definition stored_promotion (now : moment) (p : Promotion) : Promotion :=
  mkPromotion (pr_ID p) (pr_Code p) (pr_IsAutomatic p) (pr_Type p) (pr_CampaignID p) (pr_Status p) (pr_UsageLimit p) 0
    (pr_Metadata p) (fromTime now) (fromTime now) None.

Definition CreatePromotion (p : Promotion) (now : moment) : op Promotion :=
  statement "InsertPromotion" (wrapDB "the promotion could not be created: %s" [AStr (pr_Code p)])
    (Sql.InsertPromotion (stored_promotion now p)).

Definition GetPromotion (id : string) : op Promotion :=
  row_or CodePromotionNotFound "promotion not found: %s" [AStr id] "GetPromotion" (reading (fun t => live_promotion t id)).

Definition GetPromotionByCode (code : string) : op Promotion :=
  row_or CodePromotionNotFound "promotion not found: %s" [AStr code] "GetPromotionByCode" (reading (Sql.promotion_of_code code)).

Definition promotion_matches (status campaignID : option string) (p : Promotion) : bool :=
  is_null (pr_DeletedAt p) &&
  match status with None => true | Some s => bool_decide (PromotionStatus_text (pr_Status p) = s) end &&
  match campaignID with None => true | Some c => bool_decide (pr_CampaignID p = Some c) end.

Definition ListPromotions (status campaignID : option string) (limit offset : Z) : op (list Promotion * Z) :=
  l ← query "ListPromotions" (wrapDB "the promotions could not be listed" []) (fun t => paged limit offset
    (SortFunc (cmp_on pr_ID cmpS) (filter (fun p => promotion_matches status campaignID p = true) (rows (tb_promotions t)))));
  n ← query "CountPromotions" (wrapDB "the promotion count could not be read" []) (fun t =>
    Z.of_nat (length (filter (fun p => promotion_matches status campaignID p = true) (rows (tb_promotions t)))));
  mret (l, n).

Definition GetPromotionsByIDs (ids : list string) : op (list Promotion) :=
  match ids with
  | [] => mret []
  | _ => query "GetPromotionsByIDs" (wrapDB "the promotions could not be read" []) (fun t =>
      SortFunc (cmp_on pr_ID cmpS) (filter (fun p => pr_ID p ∈ ids /\ pr_DeletedAt p = None) (rows (tb_promotions t))))
  end.

Definition UpdatePromotion (p : Promotion) (now : moment) : op Promotion :=
  row_or CodePromotionNotFound "promotion not found: %s" [AStr (pr_ID p)] "UpdatePromotion"
    (Sql.UpdatePromotion p (fromTime now)).

Definition DeletePromotion (id : string) (now : moment) : op unit :=
  ignore (row_or CodePromotionNotFound "promotion not found: %s" [AStr id] "SoftDeletePromotion"
    (Sql.SoftDeletePromotion id (fromTime now))).

Definition SwitchPromotionStatus (id : string) (from to : PromotionStatus) (now : moment) : op (option Promotion) :=
  statement "SwitchPromotionStatus" (wrapDB "the status of promotion %s could not be switched" [AStr id])
    (Sql.SwitchPromotionStatus id from to (fromTime now)).

Definition SetPromotionCampaign (id : string) (from to : option string) (now : moment) : op (option Promotion) :=
  statement "SetPromotionCampaign" (wrapDB "the campaign of promotion %s could not be set" [AStr id])
    (Sql.SetPromotionCampaign id from to (fromTime now)).

(** The four reads behind a computation's candidates. *)
Definition candidatesOf (found : list Promotion) : op (list PromotionCandidate) :=
  match found with
  | [] => mret []
  | _ =>
      let ids := pr_ID <$> found in
      methods ← query "GetApplicationMethodsByPromotions" (wrapDB "the application methods could not be read" []) (fun t =>
        list_to_map (M := gmap string ApplicationMethod)
          (omap (fun id => m ← Sql.GetApplicationMethod id t; Some (id, m)) ids));
      rules ← query "ListPromotionRulesByPromotions" (wrapDB "the promotion rules could not be read" []) (fun t =>
        list_to_map (M := gmap string (list PromotionRule)) ((fun id => (id, Sql.ListPromotionRules id t)) <$> ids));
      campaigns ← GetCampaignsByIDs (omap pr_CampaignID found);
      mret ((fun p => mkPromotionCandidate p
        (id ← pr_CampaignID p; head (filter (fun c => cp_ID c = id) campaigns))
        ((methods : gmap string ApplicationMethod) !! pr_ID p)
        (default [] ((rules : gmap string (list PromotionRule)) !! pr_ID p))) <$> found)
  end.

Definition ListCandidates (codes : list string) : op (list PromotionCandidate) :=
  l ← query "ListApplicablePromotions" (wrapDB "the applicable promotions could not be read" [])
    (Sql.ListApplicablePromotions true codes);
  candidatesOf l.

Definition ListCandidatesForDiagnosis (codes : list string) : op (list PromotionCandidate) :=
  l ← query "ListCandidatesForDiagnosis" (wrapDB "the candidate promotions could not be read" [])
    (Sql.ListApplicablePromotions false codes);
  candidatesOf l.

Definition requireLivePromotion (id : string) : op unit :=
  ignore (row_or CodePromotionNotFound "promotion not found: %s" [AStr id] "LockPromotionShared"
    (reading (fun t => live_promotion t id))).

(** *** [application_method.go], [application_method_revise.go], [promotion_rule.go] *)

Definition stored_method (now : moment) (m : ApplicationMethod) : ApplicationMethod :=
  mkApplicationMethod (am_ID m) (am_PromotionID m) (am_Type m) (am_TargetType m) (am_Allocation m) (am_Value m)
    (am_MaxQuantity m) (am_BuyQuantity m) (am_ApplyToQuantity m) (am_CurrencyCode m) (fromTime now) (fromTime now).

Definition SetApplicationMethod (m : ApplicationMethod) (now : moment) : op ApplicationMethod :=
  inTx (
    requireLivePromotion (am_PromotionID m) ≫= fun _ =>
    statement "UpsertApplicationMethod" (wrapDB "the application method could not be written: %s" [AStr (am_PromotionID m)])
      (Sql.UpsertApplicationMethod (stored_method now m) (fromTime now))).

(** The upsert is of the promotion just written. *)
Definition CreatePromotionWithMethod (p : Promotion) (m : ApplicationMethod) (now : moment) : op Promotion :=
  inTx (
    row ← statement "InsertPromotion"
      (chosen_twice (Conflict CodeDuplicate "a promotion with the code %s exists" [AStr (pr_Code p)])
         "the coupon %s could not be created" [AStr (pr_Code p)])
      (Sql.InsertPromotion (stored_promotion now p));
    _ ← statement "UpsertApplicationMethod" (wrapDB "the discount of coupon %s could not be written" [AStr (pr_Code p)])
      (Sql.UpsertApplicationMethod
        (let m := stored_method now m in
         mkApplicationMethod (am_ID m) (pr_ID row) (am_Type m) (am_TargetType m) (am_Allocation m) (am_Value m)
           (am_MaxQuantity m) (am_BuyQuantity m) (am_ApplyToQuantity m) (am_CurrencyCode m) (am_CreatedAt m) (am_UpdatedAt m))
        (fromTime now));
    mret row).

Definition GetApplicationMethod (promotionID : string) : op ApplicationMethod :=
  row_or CodeApplicationMethodNotFound "the promotion has no application method: %s" [AStr promotionID]
    "GetApplicationMethod" (reading (Sql.GetApplicationMethod promotionID)).

Definition ReviseMethodValue (promotionID : string) (readType : ApplicationMethodType) (readValue value : Z) (now : moment)
    : op (option ApplicationMethod) :=
  statement "ReviseMethodValue" (wrapDB "the discount of promotion %s could not be revised" [AStr promotionID])
    (Sql.ReviseMethodValue promotionID readType readValue value (fromTime now)).

Definition DeleteApplicationMethod (promotionID : string) (now : moment) : op unit :=
  ignore (row_or CodeApplicationMethodNotFound "the promotion has no application method: %s" [AStr promotionID]
    "SoftDeleteApplicationMethod" (Sql.SoftDeleteApplicationMethod promotionID (fromTime now))).

Definition stored_rule (now : moment) (r : PromotionRule) : PromotionRule :=
  mkPromotionRule (ru_ID r) (ru_PromotionID r) (ru_RuleType r) (ru_Attribute r) (ru_Operator r) (ru_Values r)
    (fromTime now) (fromTime now).

Definition CreatePromotionRule (r : PromotionRule) (now : moment) : op PromotionRule :=
  inTx (
    requireLivePromotion (ru_PromotionID r) ≫= fun _ =>
    statement "InsertPromotionRule" (wrapDB "the promotion rule could not be added: %s" [AStr (ru_PromotionID r)])
      (Sql.InsertPromotionRule (stored_rule now r))).

Definition GetPromotionRule (id : string) : op PromotionRule :=
  row_or CodePromotionRuleNotFound "promotion rule not found: %s" [AStr id] "GetPromotionRule"
    (reading (Sql.GetPromotionRule id)).

Definition ListPromotionRules (promotionID : string) : op (list PromotionRule) :=
  query "ListPromotionRules" (wrapDB "the promotion rules could not be read: %s" [AStr promotionID])
    (Sql.ListPromotionRules promotionID).

Definition DeletePromotionRule (id : string) (now : moment) : op unit :=
  ignore (row_or CodePromotionRuleNotFound "promotion rule not found: %s" [AStr id] "SoftDeletePromotionRule"
    (Sql.SoftDeletePromotionRule id (fromTime now))).

(** *** [redemption.go] *)

Definition lockBudget (promo : Promotion) (req : Redemption) (now : moment) : op (Z * option string) :=
  match pr_CampaignID promo with
  | None => mret (0, None)
  | Some id =>
      campaign ← found (campaignGone id)
        (query "LockCampaign" (wrapDB "the campaign could not be locked: %s" [AStr id]) (fun t => live_campaign t id));
      tx_check (if negb (WindowContains campaign now) then
          Some (Conflict CodeCampaignWindowClosed
            "the campaign's date window does not cover the moment of redemption: %s" [AStr (cp_ID campaign)])
        else None) ≫= fun _ =>
      tx_check (if bool_decide (cp_BudgetType campaign = BudgetSpend) &&
                   negb (bool_decide (cp_BudgetCurrencyCode campaign = rd_CurrencyCode req)) then
          Some (Conflict CodeBudgetCurrencyMismatch
            "the campaign budget is in %s; the redemption came in %s (campaign: %s)"
            [AStr (cp_BudgetCurrencyCode campaign); AStr (rd_CurrencyCode req); AStr (cp_ID campaign)])
        else None) ≫= fun _ =>
      mret (BudgetDeltaFor campaign (rd_Amount req), Some (cp_ID campaign))
  end.

Definition use_up (promo : Promotion) (req : Redemption) (now : moment) : op (Redemption * bool) :=
  tx_check (if negb (bool_decide (pr_Status promo = PromotionActive)) then
      Some (Conflict CodePromotionNotActive "the promotion is not live: %s (status: %s)"
        [AStr (rd_PromotionID req); AStr (PromotionStatus_text (pr_Status promo))])
    else None) ≫= fun _ =>
  '(delta, campaignID) ← lockBudget promo req now;
  _ ← found (Conflict CodeUsageLimitReached "the promotion's uses have run out: %s" [AStr (rd_PromotionID req)])
    (statement "IncrementPromotionUsage" (wrapDB "the usage counter could not be incremented: %s" [AStr (rd_PromotionID req)])
      (Sql.IncrementPromotionUsage (rd_PromotionID req) (fromTime now)));
  _ ← match campaignID with
    | Some id =>
        if 0 <? delta then
          ignore (found (Conflict CodeBudgetExceeded "the campaign budget does not suffice: %s (requested: %d)" [AStr id; AInt delta])
            (statement "IncrementCampaignBudget" (wrapDB "the campaign budget could not be incremented: %s" [AStr id])
              (Sql.IncrementCampaignBudget id delta (fromTime now))))
        else mret tt
    | None => mret tt
    end;
  row ← statement "InsertRedemption"
    (wrapDB "the redemption record could not be written: %s/%s" [AStr (rd_PromotionID req); AStr (rd_Reference req)])
    (Sql.InsertRedemption (mkRedemption (rd_ID req) (rd_PromotionID req) campaignID (rd_Reference req) (rd_Amount req)
      (rd_CurrencyCode req) delta (fromTime now) (fromTime now) None));
  mret (row, true).

(** The standing use and whether it was written by this call. *)
Definition Redeem (req : Redemption) (now : moment) : op (Redemption * bool) :=
  inTx (
    promo ← row_or CodePromotionNotFound "promotion not found: %s" [AStr (rd_PromotionID req)] "LockPromotion"
      (reading (fun t => live_promotion t (rd_PromotionID req)));
    existing ← query "GetActiveRedemption"
      (wrapDB "the redemption record could not be read: %s/%s" [AStr (rd_PromotionID req); AStr (rd_Reference req)])
      (Sql.GetActiveRedemption (rd_PromotionID req) (rd_Reference req));
    match existing with
    | Some r => mret (r, false)
    | None => use_up promo req now
    end).

Definition Release (promotionID reference : string) (now : moment) : op (option Redemption) :=
  inTx (
    _ ← row_or CodePromotionNotFound "promotion not found: %s" [AStr promotionID] "LockPromotion"
      (reading (fun t => live_promotion t promotionID));
    locked ← query "LockActiveRedemption"
      (wrapDB "the redemption record could not be locked: %s/%s" [AStr promotionID; AStr reference])
      (Sql.GetActiveRedemption promotionID reference);
    match locked with
    | None => mret None
    | Some r =>
        _ ← match rd_CampaignID r with
          | Some id =>
              if 0 <? rd_BudgetDelta r then
                ignore (statement "DecrementCampaignBudget"
                  (wrapDB "the campaign budget could not be decremented: %s" [AStr id])
                  (Sql.DecrementCampaignBudget id (rd_BudgetDelta r) (fromTime now)))
              else mret tt
          | None => mret tt
          end;
        _ ← found (wrap (Sentinel ErrNoRows) KindInternal CodeQueryFailed "the usage counter could not be decremented: %s"
            [AStr promotionID])
          (statement "DecrementPromotionUsage" (wrapDB "the usage counter could not be decremented: %s" [AStr promotionID])
            (Sql.DecrementPromotionUsage promotionID (fromTime now)));
        row ← found (Conflict CodeRedemptionRaced
            "another call got in while the redemption record was being released: %s" [AStr (rd_ID r)])
          (statement "MarkRedemptionReleased" (wrapDB "the redemption record could not be released: %s" [AStr (rd_ID r)])
            (Sql.MarkRedemptionReleased (rd_ID r) (fromTime now)));
        mret (Some row)
    end).

Definition GetRedemption (promotionID reference : string) : op Redemption :=
  row_or CodePromotionNotFound "redemption record not found: %s/%s" [AStr promotionID; AStr reference]
    "GetActiveRedemption" (reading (Sql.GetActiveRedemption promotionID reference)).

Definition ListRedemptions (promotionID : string) (limit offset : Z) : op (list Redemption * Z) :=
  l ← query "ListRedemptions" (wrapDB "the redemption ledger could not be read: %s" [AStr promotionID])
    (fun t => paged limit offset (Sql.ListRedemptions promotionID t));
  n ← query "CountRedemptions" (wrapDB "the redemption count could not be read: %s" [AStr promotionID])
    (fun t => Z.of_nat (length (Sql.ListRedemptions promotionID t)));
  mret (l, n).

Definition ListLatestRedemptions (promotionID : string) (limit : Z) : op (list Redemption) :=
  query "ListLatestRedemptions" (wrapDB "the latest uses of promotion %s could not be read" [AStr promotionID])
    (fun t => take (Z.to_nat limit) (reverse (Sql.ListRedemptions promotionID t))).
End Repo.
End Repo.
