(* ===== verification/PromotionAdmin.v ===== *)
(** * The promotion service over its database: [service.go], [campaign.go], [campaign_revise.go],
    [status.go], [promotion_campaign.go], [coupon.go], [discount_revise.go], [rule.go], [redeem.go] and
    [latest_redemptions.go] of [internal/modules/promotion/service]

    Every operation checks its input and makes one call of the repository, or two where it explains a
    refused write. Logging, and a service that was not set up, are not modelled. A metadata map is the list
    of its entries in the order the loop meets them. *)
From S2P Require Import Prelude GoText Errors Tx Identifiers Database Server Condition PromotionModels PromotionValidate PromotionDiscounts PromotionCompute PromotionStore.

Definition MaxNameLen : Z := 255.
Definition MaxDescriptionLen : Z := 2000.
Definition MaxIdentifierLen : Z := 128.
Definition MaxReferenceLen : Z := 255.
Definition MaxMetadataKeys : Z := 64.
Definition MaxMetadataValueLen : Z := 512.

Definition CampaignIDPrefix : string := "camp_".
Definition PromotionRuleIDPrefix : string := "prule_".
Definition ApplicationMethodIDPrefix : string := "appm_".
Definition RedemptionIDPrefix : string := "predeem_".

Definition CodeStatusMoved : string := "promotion_status_moved".
Definition CodeCampaignMoved : string := "promotion_campaign_moved".
Definition CodeCampaignGone : string := "promotion_campaign_gone".
Definition CodeCampaignRevised : string := "promotion_campaign_revised".
Definition CodeDiscountRevised : string := "promotion_discount_revised".

(** ** [time.RFC3339] of a moment in UTC *)

Definition padded (width : nat) (n : Z) : string :=
  let s := sprintf "%d" [AInt n] in String.append (of_bytes (repeat 48 (width - String.length s))) s.

(** The civil date of a day since 1970. *)
Definition civil (day : Z) : Z * Z * Z :=
  let z := day + 719468 in
  let era := z / 146097 in
  let doe := z mod 146097 in
  let yoe := (doe - doe / 1460 + doe / 36524 - doe / 146096) / 365 in
  let doy := doe - (365 * yoe + yoe / 4 - yoe / 100) in
  let mp := (5 * doy + 2) / 153 in
  let month := if mp <? 10 then mp + 3 else mp - 9 in
  (yoe + era * 400 + (if month <=? 2 then 1 else 0), month, doy - (153 * mp + 2) / 5 + 1).

Definition RFC3339 (t : moment) : string :=
  let s := t / 1000000000 in
  let '(y, m, d) := civil (s / 86400) in
  let r := s mod 86400 in
  String.concat EmptyString [padded 4 y; "-"; padded 2 m; "-"; padded 2 d; "T"; padded 2 (r / 3600); ":";
    padded 2 (r / 60 mod 60); ":"; padded 2 (r mod 60); "Z"]%string.

Example RFC3339_example : RFC3339 1700000000123000000 = "2023-11-14T22:13:20Z"%string.
Proof. vm_compute. reflexivity. Qed.

(** ** Inputs *)

Record CampaignInput := mkCampaignInput {
  ca_Name : string;
  ca_CampaignIdentifier : string;
  ca_Description : string;
  ca_StartsAt : option moment;
  ca_EndsAt : option moment;
  ca_BudgetType : CampaignBudgetType;
  ca_BudgetLimit : option Z;
  ca_BudgetCurrencyCode : string
}.

(** [PromotionTypeOther EmptyString] and [PromotionStatusOther EmptyString] are fields not given. *)
Record PromotionInput := mkPromotionInput {
  pi_Code : string;
  pi_IsAutomatic : bool;
  pi_Type : PromotionType;
  pi_CampaignID : option string;
  pi_Status : PromotionStatus;
  pi_UsageLimit : option Z;
  pi_Metadata : list (string * string)
}.

Record CouponInput := mkCouponInput { cu_Code : string; cu_UsageLimit : option Z; cu_Method : ApplicationMethodInput }.

Record RedeemInput := mkRedeemInput {
  rd_in_PromotionID : string;
  rd_in_Code : string;
  rd_in_Reference : string;
  rd_in_Amount : Z;
  rd_in_CurrencyCode : string
}.

Record ReleaseInput := mkReleaseInput { rl_PromotionID : string; rl_Code : string; rl_Reference : string }.

(** *** Campaigns *)

Definition checkCampaignWindow (startsAt endsAt : option moment) : option err :=
  match startsAt, endsAt with
  | Some s, Some e =>
      if negb (s <? e) then
        Some (Invalid CodeInvalidInput "the campaign start has to be before its end (start: %s, end: %s)"
          [AStr (RFC3339 s); AStr (RFC3339 e)])
      else None
  | _, _ => None
  end.

Definition checkBudgetLimit (limit : Z) : option err :=
  if limit <? 0 then Some (Invalid CodeInvalidInput "budget limit cannot be negative, %d given" [AInt limit])
  else if MaxAmount <? limit then
    Some (Invalid CodeInvalidInput "budget limit can be at most %d, %d given" [AInt MaxAmount; AInt limit])
  else None.

Definition budget_requires_limit (b : CampaignBudgetType) : err :=
  Invalid CodeInvalidInput "a %q budget requires a limit; for an unlimited budget the type has to be %q"
    [AStr (Repo.CampaignBudgetType_text b); AStr (Repo.CampaignBudgetType_text BudgetNone)].

Definition no_budget_no_limit : err :=
  Invalid CodeInvalidInput
    "a campaign without a budget cannot be given a budget limit; a budget type has to be chosen first" [].

(** [BudgetOther EmptyString] is the type not given. *)
Definition normalizeBudget (in_ : CampaignInput) : result (CampaignBudgetType * option Z * string) :=
  let budgetType := if bool_decide (ca_BudgetType in_ = BudgetOther EmptyString) then BudgetNone else ca_BudgetType in_ in
  if negb (CampaignBudgetType_Valid budgetType) then
    Fail (Invalid CodeInvalidInput "campaign budget type is undefined: %q"
      [AStr (Repo.CampaignBudgetType_text (ca_BudgetType in_))])
  else if bool_decide (budgetType = BudgetNone) then
    match ca_BudgetLimit in_ with
    | Some _ => Fail no_budget_no_limit
    | None =>
        if negb (bool_decide (ca_BudgetCurrencyCode in_ = EmptyString)) then
          Fail (Invalid CodeInvalidInput "a campaign without a budget cannot be given a budget currency" [])
        else Ok (BudgetNone, None, EmptyString)
    end
  else match ca_BudgetLimit in_ with
  | None => Fail (budget_requires_limit budgetType)
  | Some limit =>
      check checkBudgetLimit limit ;;
      if bool_decide (budgetType = BudgetUsage) then
        if negb (bool_decide (ca_BudgetCurrencyCode in_ = EmptyString)) then
          Fail (Invalid CodeInvalidInput "a count-measured budget cannot be given a currency, %q given"
            [AStr (ca_BudgetCurrencyCode in_)])
        else Ok (BudgetUsage, Some limit, EmptyString)
      else
        currency ← normalizeCurrency (ca_BudgetCurrencyCode in_);
        Ok (budgetType, Some limit, currency)
  end.

Definition buildCampaign (id : string) (in_ : CampaignInput) (now : moment) : result Campaign :=
  check validateText "campaign name" (ca_Name in_) 1 MaxNameLen ;;
  check validateText "campaign business identifier" (ca_CampaignIdentifier in_) 1 MaxIdentifierLen ;;
  check validateText "campaign description" (ca_Description in_) 0 MaxDescriptionLen ;;
  check checkCampaignWindow (ca_StartsAt in_) (ca_EndsAt in_) ;;
  budget ← normalizeBudget in_;
  let '(budgetType, limit, currency) := budget in
  Ok (mkCampaign id (ca_Name in_) (ca_CampaignIdentifier in_) (ca_Description in_) (ca_StartsAt in_) (ca_EndsAt in_)
    budgetType limit 0 currency now now None).

(** *** Promotions *)

Fixpoint metadata_entries (l : list (string * string)) : option err :=
  match l with
  | [] => None
  | (key, value) :: rest =>
      if bool_decide (TrimSpace key = EmptyString) then Some (Invalid CodeInvalidInput "a metadata key cannot be empty" [])
      else if MaxAttributeLen <? len key then
        Some (Invalid CodeInvalidInput "a metadata key can be at most %d bytes, %q given" [AInt MaxAttributeLen; AStr key])
      else if MaxMetadataValueLen <? len value then
        Some (Invalid CodeInvalidInput "the %q metadata value can be at most %d bytes, %d bytes given"
          [AStr key; AInt MaxMetadataValueLen; AInt (len value)])
      else metadata_entries rest
  end.

Definition normalizeMetadata (md : list (string * string)) : result (gmap string string) :=
  if MaxMetadataKeys <? Z.of_nat (length md) then
    Fail (Invalid CodeInvalidInput "metadata can contain at most %d keys, %d given"
      [AInt MaxMetadataKeys; AInt (Z.of_nat (length md))])
  else check metadata_entries md ;; Ok (list_to_map md).

Definition PromotionType_text (t : PromotionType) : string :=
  match t with PromotionStandard => "standard" | PromotionBuyGet => "buyget" | PromotionTypeOther s => s end.

Definition buildPromotion (id : string) (in_ : PromotionInput) (now : moment) : result Promotion :=
  code ← normalizeCode (pi_Code in_);
  let promoType := if bool_decide (pi_Type in_ = PromotionTypeOther EmptyString) then PromotionStandard else pi_Type in_ in
  if negb (PromotionType_Valid promoType) then
    Fail (Invalid CodeInvalidInput "promotion type is undefined: %q" [AStr (PromotionType_text (pi_Type in_))])
  else
  let status := if bool_decide (pi_Status in_ = PromotionStatusOther EmptyString) then PromotionDraft else pi_Status in_ in
  if negb (PromotionStatus_Valid status) then
    Fail (Invalid CodeInvalidInput "promotion status is undefined: %q" [AStr (PromotionStatus_text (pi_Status in_))])
  else
  check match pi_CampaignID in_ with Some c => requireID c CampaignIDPrefix "campaign id" | None => None end ;;
  check validateUsageLimit (pi_UsageLimit in_) ;;
  metadata ← normalizeMetadata (pi_Metadata in_);
  Ok (mkPromotion id code (pi_IsAutomatic in_) promoType (pi_CampaignID in_) status (pi_UsageLimit in_) 0 metadata
    now now None).

Definition sameCampaign (a b : option string) : bool := bool_decide (a = b).

Definition campaignName (c : option string) : string :=
  match c with None => "no campaign" | Some c => String.append "campaign " c end.

(** ** Operations *)

Section Service.
Context {W : Type} `{!Server W}.
Abbreviation op := (tx (Served Tables W)).

(** The tables as the computations of [PromotionCompute] read them. *)
Definition repository (st : Served Tables W) : Repository :=
  mkRepository (fun codes => (Repo.ListCandidates codes st).2) (fun codes => (Repo.ListCandidatesForDiagnosis codes st).2)
    (fun id => (Repo.GetPromotion id st).2) (fun code => (Repo.GetPromotionByCode code st).2)
    (fun id => (Repo.GetApplicationMethod id st).2) (fun id => (Repo.GetCampaign id st).2)
    (fun id => (Repo.ListPromotionRules id st).2).

(** *** [campaign.go] *)

Definition CreateCampaign (in_ : CampaignInput) : op Campaign :=
  now ← clock;
  id ← new_id CampaignIDPrefix now;
  campaign ← tx_of (buildCampaign id in_ now);
  Repo.CreateCampaign campaign now.

Definition GetCampaign (id : string) : op Campaign :=
  tx_check (requireID id CampaignIDPrefix "campaign id") ≫= fun _ => Repo.GetCampaign id.

Definition GetCampaignByIdentifier (identifier : string) : op Campaign :=
  tx_check (validateText "campaign business identifier" identifier 1 MaxIdentifierLen) ≫= fun _ =>
  Repo.GetCampaignByIdentifier identifier.

(** A page: its items, the number of all, and the limit and the offset applied. *)
Definition ListCampaigns (limit offset : Z) : op (list Campaign * Z * (Z * Z)) :=
  page ← tx_of (normalizePaging limit offset);
  found ← Repo.ListCampaigns page.1 page.2;
  mret (found, page).

Definition UpdateCampaign (id : string) (in_ : CampaignInput) : op Campaign :=
  tx_check (requireID id CampaignIDPrefix "campaign id") ≫= fun _ =>
  now ← clock;
  campaign ← tx_of (buildCampaign id in_ now);
  Repo.UpdateCampaign campaign now.

Definition DeleteCampaign (id : string) : op unit :=
  tx_check (requireID id CampaignIDPrefix "campaign id") ≫= fun _ =>
  now ← clock; Repo.DeleteCampaign id now.

(** *** [campaign_revise.go] *)

Definition terms_check (next : CampaignTerms) : option err :=
  match validateText "campaign name" (ct_Name next) 1 MaxNameLen with
  | Some e => Some e
  | None =>
      match validateText "campaign description" (ct_Description next) 0 MaxDescriptionLen with
      | Some e => Some e
      | None =>
          match checkCampaignWindow (ct_StartsAt next) (ct_EndsAt next) with
          | Some e => Some e
          | None => match ct_BudgetLimit next with Some l => checkBudgetLimit l | None => None end
          end
      end
  end.

Definition trimmed_terms (t : CampaignTerms) : CampaignTerms :=
  mkCampaignTerms (TrimSpace (ct_Name t)) (TrimSpace (ct_Description t)) (ct_StartsAt t) (ct_EndsAt t) (ct_BudgetLimit t).

Definition ReviseCampaign (id : string) (read next : CampaignTerms) : op Campaign :=
  tx_check (requireID id CampaignIDPrefix "campaign id") ≫= fun _ =>
  let next := trimmed_terms next in
  tx_check (terms_check next) ≫= fun _ =>
  now ← clock;
  revised ← Repo.ReviseCampaign id read next now;
  match revised with
  | Some campaign => mret campaign
  | None =>
      current ← Repo.GetCampaign id;
      tx_of (Fail (
        if Same (Terms current) read then
          if bool_decide (cp_BudgetType current = BudgetNone) then no_budget_no_limit
          else budget_requires_limit (cp_BudgetType current)
        else Conflict CodeCampaignRevised
          "campaign %s was revised since it was read: it is %q now; draw the list again"
          [AStr id; AStr (cp_Name current)]))
  end.

(** *** [service.go] *)

Definition CreatePromotion (in_ : PromotionInput) : op Promotion :=
  now ← clock;
  id ← new_id PromotionIDPrefix now;
  promo ← tx_of (buildPromotion id in_ now);
  Repo.CreatePromotion promo now.

Definition GetPromotion (id : string) : op Promotion :=
  tx_check (requireID id PromotionIDPrefix "promotion id") ≫= fun _ => Repo.GetPromotion id.

Definition GetPromotionByCode (code : string) : op Promotion :=
  normalized ← tx_of (normalizeCode code); Repo.GetPromotionByCode normalized.

Definition ListPromotions (status : option PromotionStatus) (campaignID : option string) (limit offset : Z)
    : op (list Promotion * Z * (Z * Z)) :=
  page ← tx_of (normalizePaging limit offset);
  tx_check (match status with
    | Some s => if negb (PromotionStatus_Valid s)
        then Some (Invalid CodeInvalidInput "promotion status is undefined: %q" [AStr (PromotionStatus_text s)]) else None
    | None => None end) ≫= fun _ =>
  tx_check (match campaignID with Some c => requireID c CampaignIDPrefix "campaign id" | None => None end) ≫= fun _ =>
  found ← Repo.ListPromotions (PromotionStatus_text <$> status) campaignID page.1 page.2;
  mret (found, page).

Definition UpdatePromotion (id : string) (in_ : PromotionInput) : op Promotion :=
  tx_check (requireID id PromotionIDPrefix "promotion id") ≫= fun _ =>
  now ← clock;
  promo ← tx_of (buildPromotion id in_ now);
  Repo.UpdatePromotion promo now.

Definition DeletePromotion (id : string) : op unit :=
  tx_check (requireID id PromotionIDPrefix "promotion id") ≫= fun _ =>
  now ← clock; Repo.DeletePromotion id now.

(** *** [status.go], [promotion_campaign.go], [coupon.go] *)

Definition statuses_check (from to : PromotionStatus) : option err :=
  match find (fun s => negb (PromotionStatus_Valid s)) [from; to] with
  | Some s => Some (Invalid CodeInvalidInput "promotion status is undefined: %q" [AStr (PromotionStatus_text s)])
  | None =>
      if bool_decide (from = to) then
        Some (Invalid CodeInvalidInput "the promotion is switched to the status it is in: %q" [AStr (PromotionStatus_text to)])
      else None
  end.

Definition SwitchPromotionStatus (id : string) (from to : PromotionStatus) : op Promotion :=
  tx_check (requireID id PromotionIDPrefix "promotion id") ≫= fun _ =>
  tx_check (statuses_check from to) ≫= fun _ =>
  now ← clock;
  switched ← Repo.SwitchPromotionStatus id from to now;
  match switched with
  | Some promo => mret promo
  | None =>
      current ← GetPromotion id;
      tx_of (Fail (Conflict CodeStatusMoved "promotion %s is %s now, not %s; draw the list again"
        [AStr id; AStr (PromotionStatus_text (pr_Status current)); AStr (PromotionStatus_text from)]))
  end.

Definition campaign_id_check (c : option string) : option err :=
  match c with Some c => requireID c CampaignIDPrefix "campaign id" | None => None end.

(** The last message dereferences [to]: where the promotion was moved into [from] between the two
    statements and [to] is nil, the code panics there. A call that runs undisturbed does not get there. *)
Definition SetPromotionCampaign (id : string) (from to : option string) : op Promotion :=
  tx_check (requireID id PromotionIDPrefix "promotion id") ≫= fun _ =>
  tx_check (campaign_id_check from) ≫= fun _ =>
  tx_check (campaign_id_check to) ≫= fun _ =>
  tx_check (if sameCampaign from to then
      Some (Invalid CodeInvalidInput "the promotion is put into the campaign it is in: %s" [AStr (campaignName to)])
    else None) ≫= fun _ =>
  now ← clock;
  set_ ← Repo.SetPromotionCampaign id from to now;
  match set_ with
  | Some promo => mret promo
  | None =>
      current ← GetPromotion id;
      tx_of (Fail (
        if negb (sameCampaign (pr_CampaignID current) from) then
          Conflict CodeCampaignMoved "promotion %s is in %s now, not %s; draw the page again"
            [AStr id; AStr (campaignName (pr_CampaignID current)); AStr (campaignName from)]
        else NotFound CodeCampaignGone "there is no live campaign %s" [AStr (default EmptyString to)]))
  end.

Definition CreateCoupon (in_ : CouponInput) : op Promotion :=
  now ← clock;
  id ← new_id PromotionIDPrefix now;
  promo ← tx_of (buildPromotion id
    (mkPromotionInput (cu_Code in_) false (PromotionTypeOther EmptyString) None (PromotionStatusOther EmptyString)
      (cu_UsageLimit in_) []) now);
  methodID ← new_id ApplicationMethodIDPrefix now;
  method ← tx_of (buildApplicationMethod methodID (pr_ID promo) (cu_Method in_) now);
  Repo.CreatePromotionWithMethod promo method now.

(** *** [rule.go], [discount_revise.go] *)

Definition AddPromotionRule (promotionID : string) (in_ : RuleInput) : op PromotionRule :=
  tx_check (requireID promotionID PromotionIDPrefix "promotion id") ≫= fun _ =>
  tx_check (validateRuleInput in_) ≫= fun _ =>
  tx_check (refuseReservedAttribute in_) ≫= fun _ =>
  now ← clock;
  id ← new_id PromotionRuleIDPrefix now;
  Repo.CreatePromotionRule (mkPromotionRule id promotionID (ri_RuleType in_) (ri_Attribute in_) (ri_Operator in_)
    (ri_Values in_) now now) now.

Definition GetPromotionRule (id : string) : op PromotionRule :=
  tx_check (requireID id PromotionRuleIDPrefix "promotion rule id") ≫= fun _ => Repo.GetPromotionRule id.

Definition ListPromotionRules (promotionID : string) : op (list PromotionRule) :=
  tx_check (requireID promotionID PromotionIDPrefix "promotion id") ≫= fun _ =>
  _ ← Repo.GetPromotion promotionID;
  Repo.ListPromotionRules promotionID.

Definition DeletePromotionRule (id : string) : op unit :=
  tx_check (requireID id PromotionRuleIDPrefix "promotion rule id") ≫= fun _ =>
  now ← clock; Repo.DeletePromotionRule id now.

Definition SetApplicationMethod (promotionID : string) (in_ : ApplicationMethodInput) : op ApplicationMethod :=
  tx_check (requireID promotionID PromotionIDPrefix "promotion id") ≫= fun _ =>
  now ← clock;
  id ← new_id ApplicationMethodIDPrefix now;
  method ← tx_of (buildApplicationMethod id promotionID in_ now);
  Repo.SetApplicationMethod method now.

Definition GetApplicationMethod (promotionID : string) : op ApplicationMethod :=
  tx_check (requireID promotionID PromotionIDPrefix "promotion id") ≫= fun _ => Repo.GetApplicationMethod promotionID.

Definition DeleteApplicationMethod (promotionID : string) : op unit :=
  tx_check (requireID promotionID PromotionIDPrefix "promotion id") ≫= fun _ =>
  now ← clock; Repo.DeleteApplicationMethod promotionID now.

Definition value_check (readType : ApplicationMethodType) (value : Z) : option err :=
  match readType with
  | MethodFixed => validateAmount "discount amount" value
  | MethodPercentage =>
      if (value <? 0) || (BasisPointDenominator <? value) then
        Some (Invalid CodeInvalidInput "a percentage discount has to be in the [0, %d] basis point range, %d given"
          [AInt BasisPointDenominator; AInt value])
      else None
  | MethodOther s => Some (Invalid CodeInvalidInput "application method type is undefined: %q" [AStr s])
  end.

Definition ReviseDiscountValue (promotionID : string) (readType : ApplicationMethodType) (readValue value : Z)
    : op ApplicationMethod :=
  tx_check (requireID promotionID PromotionIDPrefix "promotion id") ≫= fun _ =>
  tx_check (value_check readType value) ≫= fun _ =>
  now ← clock;
  revised ← Repo.ReviseMethodValue promotionID readType readValue value now;
  match revised with
  | Some method => mret method
  | None =>
      current ← Repo.GetApplicationMethod promotionID;
      tx_of (Fail (Conflict CodeDiscountRevised
        "promotion %s's discount was changed since it was read: it is %s %d now; draw the page again"
        [AStr promotionID; AStr (ApplicationMethodType_text (am_Type current)); AInt (am_Value current)]))
  end.

(** *** [redeem.go], [latest_redemptions.go] *)

Definition resolvePromotion (id code : string) : op Promotion :=
  if negb (bool_decide (id = EmptyString)) then
    tx_check (requireID id PromotionIDPrefix "promotion id") ≫= fun _ =>
    promo ← Repo.GetPromotion id;
    if negb (bool_decide (code = EmptyString)) then
      normalized ← tx_of (normalizeCode code);
      tx_check (if negb (bool_decide (normalized = pr_Code promo)) then
          Some (Invalid CodeInvalidInput "promotion id and coupon code point to different promotions: %s / %s"
            [AStr id; AStr normalized])
        else None) ≫= fun _ => mret promo
    else mret promo
  else if negb (bool_decide (code = EmptyString)) then
    normalized ← tx_of (normalizeCode code); Repo.GetPromotionByCode normalized
  else tx_of (Fail (Invalid CodeInvalidInput "a promotion id or a coupon code must be given" [])).

(** What was redeemed, and whether by this call, which only the log is told. *)
Definition redeem (in_ : RedeemInput) : op (Redemption * bool) :=
  promo ← resolvePromotion (rd_in_PromotionID in_) (rd_in_Code in_);
  tx_check (validateText "redemption reference" (rd_in_Reference in_) 1 MaxReferenceLen) ≫= fun _ =>
  tx_check (validateAmount "discount amount" (rd_in_Amount in_)) ≫= fun _ =>
  currency ← tx_of (normalizeCurrency (rd_in_CurrencyCode in_));
  now ← clock;
  id ← new_id RedemptionIDPrefix now;
  Repo.Redeem (mkRedemption id (pr_ID promo) None (rd_in_Reference in_) (rd_in_Amount in_) currency 0 0 0 None) now.

Definition RedeemPromotion (in_ : RedeemInput) : op Redemption := r ← redeem in_; mret (fst r).

Definition ReleasePromotion (in_ : ReleaseInput) : op bool :=
  promo ← resolvePromotion (rl_PromotionID in_) (rl_Code in_);
  tx_check (validateText "redemption reference" (rl_Reference in_) 1 MaxReferenceLen) ≫= fun _ =>
  now ← clock;
  released ← Repo.Release (pr_ID promo) (rl_Reference in_) now;
  mret (negb (is_null released)).

Definition GetRedemption (promotionID reference : string) : op Redemption :=
  tx_check (requireID promotionID PromotionIDPrefix "promotion id") ≫= fun _ =>
  tx_check (validateText "redemption reference" reference 1 MaxReferenceLen) ≫= fun _ =>
  Repo.GetRedemption promotionID reference.

Definition ListRedemptions (promotionID : string) (limit offset : Z) : op (list Redemption * Z * (Z * Z)) :=
  tx_check (requireID promotionID PromotionIDPrefix "promotion id") ≫= fun _ =>
  page ← tx_of (normalizePaging limit offset);
  _ ← Repo.GetPromotion promotionID;
  found ← Repo.ListRedemptions promotionID page.1 page.2;
  mret (found, page).

Definition LatestRedemptions (promotionID : string) (limit : Z) : op (list Redemption) :=
  tx_check (requireID promotionID PromotionIDPrefix "promotion id") ≫= fun _ =>
  page ← tx_of (normalizePaging limit 0);
  Repo.ListLatestRedemptions promotionID page.1.

(** *** What changes a table *)

Inductive call :=
| CallCreateCampaign (in_ : CampaignInput)
| CallUpdateCampaign (id : string) (in_ : CampaignInput)
| CallReviseCampaign (id : string) (read next : CampaignTerms)
| CallDeleteCampaign (id : string)
| CallCreatePromotion (in_ : PromotionInput)
| CallUpdatePromotion (id : string) (in_ : PromotionInput)
| CallDeletePromotion (id : string)
| CallSwitchPromotionStatus (id : string) (from to : PromotionStatus)
| CallSetPromotionCampaign (id : string) (from to : option string)
| CallCreateCoupon (in_ : CouponInput)
| CallAddPromotionRule (promotionID : string) (in_ : RuleInput)
| CallDeletePromotionRule (id : string)
| CallSetApplicationMethod (promotionID : string) (in_ : ApplicationMethodInput)
| CallReviseDiscountValue (promotionID : string) (readType : ApplicationMethodType) (readValue value : Z)
| CallDeleteApplicationMethod (promotionID : string)
| CallRedeemPromotion (in_ : RedeemInput)
| CallReleasePromotion (in_ : ReleaseInput).

Definition perform (c : call) : op unit :=
  match c with
  | CallCreateCampaign in_ => ignore (CreateCampaign in_)
  | CallUpdateCampaign id in_ => ignore (UpdateCampaign id in_)
  | CallReviseCampaign id read next => ignore (ReviseCampaign id read next)
  | CallDeleteCampaign id => DeleteCampaign id
  | CallCreatePromotion in_ => ignore (CreatePromotion in_)
  | CallUpdatePromotion id in_ => ignore (UpdatePromotion id in_)
  | CallDeletePromotion id => DeletePromotion id
  | CallSwitchPromotionStatus id from to => ignore (SwitchPromotionStatus id from to)
  | CallSetPromotionCampaign id from to => ignore (SetPromotionCampaign id from to)
  | CallCreateCoupon in_ => ignore (CreateCoupon in_)
  | CallAddPromotionRule p in_ => ignore (AddPromotionRule p in_)
  | CallDeletePromotionRule id => DeletePromotionRule id
  | CallSetApplicationMethod p in_ => ignore (SetApplicationMethod p in_)
  | CallReviseDiscountValue p t r v => ignore (ReviseDiscountValue p t r v)
  | CallDeleteApplicationMethod p => DeleteApplicationMethod p
  | CallRedeemPromotion in_ => ignore (RedeemPromotion in_)
  | CallReleasePromotion in_ => ignore (ReleasePromotion in_)
  end.

(** One call after another, whatever each answers. *)
Inductive happens : Served Tables W -> Served Tables W -> Prop :=
| happened (c : call) st : happens st (perform c st).1.

Definition history : Served Tables W -> Served Tables W -> Prop := rtc happens.
End Service.
