(* ===== verification/PromotionCounters.v ===== *)
(** * The counters of uses and budgets, and the acts that move them

    The abstract account of the promotion tables: [Sound] says what they promise one another, an [act] is
    one of the ways they change. The counter of a promotion is the number of its standing uses, the counter
    of a campaign the sum of what its standing uses take of the budget, all in the budget's unit. Every act
    keeps that. *)
From S2P Require Import Prelude GoText Errors Tx Identifiers Database Server Condition PromotionModels PromotionValidate PromotionStore.

(** ** What the ledger says *)

Definition counts_for (id : string) (r : Redemption) : Z :=
  if decide (rd_PromotionID r = id /\ rd_ReleasedAt r = None) then 1 else 0.

Definition draws_on (id : string) (r : Redemption) : Z :=
  if decide (rd_CampaignID r = Some id /\ rd_ReleasedAt r = None) then rd_BudgetDelta r else 0.

Definition uses (id : string) (t : Tables) : Z := sum_of (counts_for id) (tb_redemptions t).
Definition spent (id : string) (t : Tables) : Z := sum_of (draws_on id) (tb_redemptions t).

Definition campaign_ok (c : Campaign) : Prop := check_violated (campaign_checks c) = None.
Definition promotion_ok (p : Promotion) : Prop := check_violated (promotion_checks p) = None.
Definition method_row_ok (m : ApplicationMethod) : Prop := check_violated (method_checks m) = None.
Definition rule_ok (r : PromotionRule) : Prop := check_violated (rule_checks r) = None.
Definition redemption_ok (r : Redemption) : Prop := check_violated (redemption_checks r) = None.

(** What a standing use took is in the unit of the campaign's budget. *)
Definition in_unit (c : Campaign) (r : Redemption) : Prop :=
  match cp_BudgetType c with
  | BudgetSpend => rd_BudgetDelta r = rd_Amount r /\ rd_CurrencyCode r = cp_BudgetCurrencyCode c
  | BudgetUsage => rd_BudgetDelta r = 1
  | _ => False
  end.

(** ** Soundness *)

(** The rows by themselves: keys, constraints, unique indexes and references. *)
Record RowsOk (t : Tables) : Prop := mkRowsOk {
  ro_campaigns : map_Forall (fun id c => cp_ID c = id /\ campaign_ok c) (tb_campaigns t);
  ro_promotions : map_Forall (fun id p => pr_ID p = id /\ promotion_ok p /\
    forall c, pr_CampaignID p = Some c -> is_Some (tb_campaigns t !! c)) (tb_promotions t);
  ro_methods : map_Forall (fun id k => am_ID (kept_row k) = id /\ method_row_ok (kept_row k) /\
    is_Some (tb_promotions t !! am_PromotionID (kept_row k))) (tb_methods t);
  ro_rules : map_Forall (fun id k => ru_ID (kept_row k) = id /\ rule_ok (kept_row k) /\
    is_Some (tb_promotions t !! ru_PromotionID (kept_row k))) (tb_rules t);
  ro_redemptions : map_Forall (fun id r => rd_ID r = id /\ redemption_ok r /\
    is_Some (tb_promotions t !! rd_PromotionID r) /\
    forall c, rd_CampaignID r = Some c -> is_Some (tb_campaigns t !! c)) (tb_redemptions t);
  ro_identifiers : forall i j c d, live_campaign t i = Some c -> live_campaign t j = Some d ->
    cp_CampaignIdentifier c = cp_CampaignIdentifier d -> i = j;
  ro_codes : forall i j p q, live_promotion t i = Some p -> live_promotion t j = Some q -> pr_Code p = pr_Code q -> i = j;
  ro_one_method : forall i j k l, tb_methods t !! i = Some k -> tb_methods t !! j = Some l -> kept_DeletedAt k = None ->
    kept_DeletedAt l = None -> am_PromotionID (kept_row k) = am_PromotionID (kept_row l) -> i = j;
  ro_one_use : forall i j r q, tb_redemptions t !! i = Some r -> tb_redemptions t !! j = Some q ->
    rd_ReleasedAt r = None -> rd_ReleasedAt q = None -> rd_PromotionID r = rd_PromotionID q ->
    rd_Reference r = rd_Reference q -> i = j
}.

(** The counters and the ledger. *)
Record CountersOk (t : Tables) : Prop := mkCountersOk {
  co_uses : forall id p, tb_promotions t !! id = Some p -> pr_UsageCount p = uses id t;
  co_spent : forall id c, tb_campaigns t !! id = Some c ->
    spent id t <= cp_BudgetUsed c /\ (cp_DeletedAt c = None -> cp_BudgetUsed c = spent id t);
  co_unit : forall k r id c, tb_redemptions t !! k = Some r -> rd_ReleasedAt r = None -> rd_CampaignID r = Some id ->
    tb_campaigns t !! id = Some c -> 0 < rd_BudgetDelta r -> in_unit c r
}.

Definition Sound (t : Tables) : Prop := RowsOk t /\ CountersOk t.

(** ** Acts *)

(** What a use takes of its promotion's campaign. *)
Inductive charge (t : Tables) (p : Promotion) (r : Redemption) (now : moment) : Tables -> Prop :=
| charge_nothing : pr_CampaignID p = None -> rd_CampaignID r = None -> rd_BudgetDelta r = 0 -> charge t p r now t
| charge_free id c at_ : pr_CampaignID p = Some id -> rd_CampaignID r = Some id -> live_campaign t id = Some c ->
    WindowContains c at_ = true -> rd_BudgetDelta r = BudgetDeltaFor c (rd_Amount r) -> rd_BudgetDelta r <= 0 ->
    (cp_BudgetType c = BudgetSpend -> cp_BudgetCurrencyCode c = rd_CurrencyCode r) -> charge t p r now t
| charge_budget id c at_ : pr_CampaignID p = Some id -> rd_CampaignID r = Some id -> live_campaign t id = Some c ->
    WindowContains c at_ = true -> rd_BudgetDelta r = BudgetDeltaFor c (rd_Amount r) -> 0 < rd_BudgetDelta r ->
    (cp_BudgetType c = BudgetSpend -> cp_BudgetCurrencyCode c = rd_CurrencyCode r) ->
    (forall l, cp_BudgetLimit c = Some l -> cp_BudgetUsed c + rd_BudgetDelta r <= l) ->
    campaign_ok (touch_campaign now (cp_BudgetUsed c + rd_BudgetDelta r) c) ->
    charge t p r now (put_campaign (touch_campaign now (cp_BudgetUsed c + rd_BudgetDelta r) c) t).

(** What a release gives back. A deleted campaign is left alone. *)
Inductive refund (t : Tables) (r : Redemption) (now : moment) : Tables -> Prop :=
| refund_nothing : rd_CampaignID r = None \/ rd_BudgetDelta r <= 0 -> refund t r now t
| refund_gone id : rd_CampaignID r = Some id -> 0 < rd_BudgetDelta r -> live_campaign t id = None -> refund t r now t
| refund_budget id c : rd_CampaignID r = Some id -> 0 < rd_BudgetDelta r -> live_campaign t id = Some c ->
    refund t r now (put_campaign (touch_campaign now (Z.max (cp_BudgetUsed c - rd_BudgetDelta r) 0) c) t).

Inductive act (t : Tables) : Tables -> Prop :=
| act_open_campaign c : campaign_ok c -> tb_campaigns t !! cp_ID c = None -> cp_BudgetUsed c = 0 ->
    identifier_taken (cp_ID c) (cp_CampaignIdentifier c) t = false -> act t (put_campaign c t)
| act_define_campaign c c' : live_campaign t (cp_ID c') = Some c -> campaign_ok c' -> cp_DeletedAt c' = None ->
    cp_BudgetUsed c' = cp_BudgetUsed c ->
    cp_BudgetUsed c = 0 \/ (cp_BudgetType c' = cp_BudgetType c /\ cp_BudgetCurrencyCode c' = cp_BudgetCurrencyCode c) ->
    cp_CampaignIdentifier c' = cp_CampaignIdentifier c \/
      identifier_taken (cp_ID c') (cp_CampaignIdentifier c') t = false -> act t (put_campaign c' t)
| act_close_campaign c c' : live_campaign t (cp_ID c') = Some c -> campaign_ok c' -> is_Some (cp_DeletedAt c') ->
    cp_BudgetUsed c' = cp_BudgetUsed c -> cp_BudgetType c' = cp_BudgetType c ->
    cp_BudgetCurrencyCode c' = cp_BudgetCurrencyCode c -> act t (put_campaign c' t)
| act_open_promotion p : promotion_ok p -> tb_promotions t !! pr_ID p = None -> pr_UsageCount p = 0 ->
    code_taken (pr_ID p) (pr_Code p) t = false -> campaign_exists (pr_CampaignID p) t = true -> act t (put_promotion p t)
| act_define_promotion p p' : live_promotion t (pr_ID p') = Some p -> promotion_ok p' -> pr_DeletedAt p' = None ->
    pr_UsageCount p' = pr_UsageCount p ->
    pr_Code p' = pr_Code p \/ code_taken (pr_ID p') (pr_Code p') t = false ->
    pr_CampaignID p' = pr_CampaignID p \/ campaign_exists (pr_CampaignID p') t = true -> act t (put_promotion p' t)
| act_close_promotion p p' : live_promotion t (pr_ID p') = Some p -> promotion_ok p' -> is_Some (pr_DeletedAt p') ->
    pr_UsageCount p' = pr_UsageCount p -> pr_CampaignID p' = pr_CampaignID p -> act t (put_promotion p' t)
| act_methods m : RowsOk (set_methods m t) -> act t (set_methods m t)
| act_rules m : RowsOk (set_rules m t) -> act t (set_rules m t)
| act_redeem p r now t1 : live_promotion t (rd_PromotionID r) = Some p -> pr_Status p = PromotionActive ->
    Sql.GetActiveRedemption (rd_PromotionID r) (rd_Reference r) t = None -> tb_redemptions t !! rd_ID r = None ->
    redemption_ok r -> rd_ReleasedAt r = None ->
    (forall l, pr_UsageLimit p = Some l -> pr_UsageCount p + 1 <= l) ->
    promotion_ok (touch_promotion now (pr_CampaignID p) (pr_Status p) (pr_UsageCount p + 1) p) ->
    charge t p r now t1 ->
    act t (put_redemption r (put_promotion (touch_promotion now (pr_CampaignID p) (pr_Status p) (pr_UsageCount p + 1) p) t1))
| act_release p r now t1 : live_promotion t (rd_PromotionID r) = Some p -> tb_redemptions t !! rd_ID r = Some r ->
    rd_ReleasedAt r = None -> refund t r now t1 ->
    act t (put_redemption (Sql.released r now)
      (put_promotion (touch_promotion now (pr_CampaignID p) (pr_Status p) (Z.max (pr_UsageCount p - 1) 0) p) t1)).

(** ** Rows *)

Lemma live_Some {A} (deleted : A -> option moment) m id r :
  live deleted m id = Some r <-> m !! id = Some r /\ deleted r = None.
Proof.
  unfold live. destruct (m !! id) as [a|] eqn:E; cbn; [|by split; [|intros []]].
  destruct (deleted a) eqn:D; cbn; split; [done|by intros [[= ->] ?]; congruence|by intros [= ->]|by intros [[= ->] _]].
Qed.

Lemma kept_lookup {A} (m : gmap string A) k v i : is_Some (m !! i) -> is_Some (<[k := v]> m !! i).
Proof. intros H. destruct (decide (k = i)) as [->|]; [by rewrite lookup_insert_eq|by rewrite lookup_insert_ne]. Qed.

Lemma live_insert {A} (deleted : A -> option moment) m k v i r : live deleted (<[k := v]> m) i = Some r ->
  (i = k /\ r = v /\ deleted v = None) \/ (i <> k /\ live deleted m i = Some r).
Proof.
  rewrite !live_Some. destruct (decide (i = k)) as [->|Hn].
  - rewrite lookup_insert_eq. intros [[= ->] ?]. by left.
  - rewrite lookup_insert_ne by done. intros []. by right.
Qed.

Lemma rows_put_campaign c t : RowsOk t -> campaign_ok c ->
  (cp_DeletedAt c = None -> forall j d, live_campaign t j = Some d -> j <> cp_ID c ->
    cp_CampaignIdentifier d <> cp_CampaignIdentifier c) ->
  RowsOk (put_campaign c t).
Proof.
  intros [H1 H2 H3 H4 H5 H6 H7 H8 H9] Hc Hu. constructor; try done.
  - apply map_Forall_insert_2; [by split|done].
  - eapply map_Forall_impl; [exact H2|]. intros id p (Hi & Hk & Hf). split_and!; [done..|]. intros x Hx. by apply kept_lookup, Hf.
  - eapply map_Forall_impl; [exact H5|]. intros id r (Hi & Hk & Hp & Hf). split_and!; [done..|]. intros x Hx. by apply kept_lookup, Hf.
  - intros i j a b Ha Hb E. apply live_insert in Ha as [(-> & -> & D)|[Hi Ha]], Hb as [(-> & -> & D')|[Hj Hb]]; [done|..].
    + by destruct (Hu D j b Hb Hj).
    + by destruct (Hu D' i a Ha Hi).
    + by apply (H6 i j a b).
Qed.

Lemma rows_put_promotion p t : RowsOk t -> promotion_ok p ->
  (forall c, pr_CampaignID p = Some c -> is_Some (tb_campaigns t !! c)) ->
  (pr_DeletedAt p = None -> forall j q, live_promotion t j = Some q -> j <> pr_ID p -> pr_Code q <> pr_Code p) ->
  RowsOk (put_promotion p t).
Proof.
  intros [H1 H2 H3 H4 H5 H6 H7 H8 H9] Hp Hf Hu. constructor; try done.
  - apply map_Forall_insert_2; [by split_and!|done].
  - eapply map_Forall_impl; [exact H3|]. intros id k (Hi & Hk & Hx). split_and!; [done..|]. by apply kept_lookup.
  - eapply map_Forall_impl; [exact H4|]. intros id k (Hi & Hk & Hx). split_and!; [done..|]. by apply kept_lookup.
  - eapply map_Forall_impl; [exact H5|]. intros id r (Hi & Hk & Hx & Hc). split_and!; [done..| |done]. by apply kept_lookup.
  - intros i j a b Ha Hb E. apply live_insert in Ha as [(-> & -> & D)|[Hi Ha]], Hb as [(-> & -> & D')|[Hj Hb]]; [done|..].
    + by destruct (Hu D j b Hb Hj).
    + by destruct (Hu D' i a Ha Hi).
    + by apply (H7 i j a b).
Qed.

Lemma rows_put_redemption r t : RowsOk t -> redemption_ok r -> is_Some (tb_promotions t !! rd_PromotionID r) ->
  (forall c, rd_CampaignID r = Some c -> is_Some (tb_campaigns t !! c)) ->
  (rd_ReleasedAt r = None -> forall j q, tb_redemptions t !! j = Some q -> j <> rd_ID r -> ~ Sql.stands_for (rd_PromotionID r) (rd_Reference r) q) ->
  RowsOk (put_redemption r t).
Proof.
  intros [H1 H2 H3 H4 H5 H6 H7 H8 H9] Hr Hp Hc Hu. constructor; try done.
  - apply map_Forall_insert_2; [by split_and!|done].
  - intros i j a b Ha Hb Da Db Ep Er. cbn in Ha, Hb. apply lookup_insert_Some in Ha as [[<- <-]|[Hi Ha]], Hb as [[<- <-]|[Hj Hb]]; [done|..].
    + destruct (Hu Da j b Hb); [done|]. by split_and!.
    + destruct (Hu Db i a Ha); [done|]. by split_and!.
    + by apply (H9 i j a b).
Qed.

Lemma identifier_free id identifier t : identifier_taken id identifier t = false -> RowsOk t ->
  forall j d, live_campaign t j = Some d -> j <> id -> cp_CampaignIdentifier d <> identifier.
Proof.
  unfold identifier_taken. intros H Hok j d [Hj Hd]%live_Some Hn E.
  destruct (head _) eqn:Eh; [done|]. destruct (ro_campaigns t Hok j d Hj) as [Ej _].
  eapply head_filter_None in Eh; [|exact Hj]. apply Eh. by rewrite Ej.
Qed.

Lemma code_free id code t : code_taken id code t = false -> RowsOk t ->
  forall j d, live_promotion t j = Some d -> j <> id -> pr_Code d <> code.
Proof.
  unfold code_taken. intros H Hok j d [Hj Hd]%live_Some Hn E.
  destruct (head _) eqn:Eh; [done|]. destruct (ro_promotions t Hok j d Hj) as [Ej _].
  eapply head_filter_None in Eh; [|exact Hj]. apply Eh. by rewrite Ej.
Qed.

Lemma live_same_campaign t id c : RowsOk t -> live_campaign t id = Some c -> cp_ID c = id /\ campaign_ok c /\
  forall j d, live_campaign t j = Some d -> j <> id -> cp_CampaignIdentifier d <> cp_CampaignIdentifier c.
Proof.
  intros Hok Hl. pose proof Hl as [Hc Hd]%live_Some. destruct (ro_campaigns t Hok id c Hc) as [Ei Ho]. split_and!; [done..|].
  intros j d Hj Hn E. apply Hn. by apply (ro_identifiers t Hok j id d c).
Qed.

Lemma live_same_promotion t id p : RowsOk t -> live_promotion t id = Some p -> pr_ID p = id /\ promotion_ok p /\
  (forall c, pr_CampaignID p = Some c -> is_Some (tb_campaigns t !! c)) /\
  forall j d, live_promotion t j = Some d -> j <> id -> pr_Code d <> pr_Code p.
Proof.
  intros Hok Hl. pose proof Hl as [Hp Hd]%live_Some. destruct (ro_promotions t Hok id p Hp) as (Ei & Ho & Hf). split_and!; [done..|].
  intros j d Hj Hn E. apply Hn. by apply (ro_codes t Hok j id d p).
Qed.

(** A promotion's row with another counter. *)
Lemma rows_count_promotion t id p now n : RowsOk t -> live_promotion t id = Some p ->
  promotion_ok (touch_promotion now (pr_CampaignID p) (pr_Status p) n p) ->
  RowsOk (put_promotion (touch_promotion now (pr_CampaignID p) (pr_Status p) n p) t).
Proof.
  intros Hok Hl Hp. destruct (live_same_promotion t id p Hok Hl) as (Ei & _ & Hf & Hu).
  apply rows_put_promotion; [done..|]. intros _ j q Hj Hn. cbn in Hn. rewrite Ei in Hn. by apply (Hu j q).
Qed.

Lemma rows_count_campaign t id c now n : RowsOk t -> live_campaign t id = Some c ->
  campaign_ok (touch_campaign now n c) -> RowsOk (put_campaign (touch_campaign now n c) t).
Proof.
  intros Hok Hl Hc. destruct (live_same_campaign t id c Hok Hl) as (Ei & _ & Hu).
  apply rows_put_campaign; [done..|]. intros _ j q Hj Hn. cbn in Hn. rewrite Ei in Hn. by apply (Hu j q).
Qed.

Lemma campaign_ok_touch now n c : campaign_ok c -> 0 <= n -> campaign_ok (touch_campaign now n c).
Proof.
  unfold campaign_ok, campaign_checks. rewrite !check_violated_cons. cbn [touch_campaign cp_BudgetType cp_BudgetUsed
    cp_BudgetCurrencyCode cp_BudgetLimit cp_CampaignIdentifier cp_Name cp_StartsAt cp_EndsAt].
  intros H Hn. rewrite (proj2 (Z.leb_le 0 n) Hn). tauto.
Qed.

Lemma promotion_ok_touch now campaign n p : promotion_ok p -> 0 <= n ->
  promotion_ok (touch_promotion now campaign (pr_Status p) n p).
Proof.
  unfold promotion_ok, promotion_checks. rewrite !check_violated_cons. cbn [touch_promotion pr_Code pr_Status pr_Type
    pr_UsageCount pr_UsageLimit]. intros H Hn. rewrite (proj2 (Z.leb_le 0 n) Hn). tauto.
Qed.

Lemma rows_charge t p r now t1 : RowsOk t -> charge t p r now t1 -> RowsOk t1.
Proof. intros Hok []; [done|done|]. by eapply rows_count_campaign. Qed.

Lemma rows_refund t r now t1 : RowsOk t -> refund t r now t1 -> RowsOk t1.
Proof.
  intros Hok []; [done|done|]. eapply rows_count_campaign; [done|done|]. apply campaign_ok_touch; [|lia].
  by apply (live_same_campaign t id c Hok).
Qed.

Lemma charge_promotions t p r now t1 : charge t p r now t1 ->
  tb_promotions t1 = tb_promotions t /\ tb_redemptions t1 = tb_redemptions t /\
  (forall id, is_Some (tb_campaigns t !! id) -> is_Some (tb_campaigns t1 !! id)) /\
  forall id, rd_CampaignID r = Some id -> is_Some (tb_campaigns t !! id).
Proof.
  intros [|id c at_ Hp Hr Hl|id c at_ Hp Hr Hl]; split_and!; try done; try congruence.
  - intros i. rewrite Hr. intros [= <-]. apply live_Some in Hl as [-> _]. by eexists.
  - intros i Hi. by apply kept_lookup.
  - intros i. rewrite Hr. intros [= <-]. apply live_Some in Hl as [-> _]. by eexists.
Qed.

Lemma refund_promotions t r now t1 : refund t r now t1 ->
  tb_promotions t1 = tb_promotions t /\ tb_redemptions t1 = tb_redemptions t /\
  forall id, is_Some (tb_campaigns t !! id) -> is_Some (tb_campaigns t1 !! id).
Proof. intros []; split_and!; try done. intros i Hi. by apply kept_lookup. Qed.

Lemma rows_act t t' : RowsOk t -> act t t' -> RowsOk t'.
Proof.
  intros Hok Ha. destruct Ha as [c Hc Hn Hu Hi|c c' Hl Hc Hd _ _ Hi|c c' Hl Hc Hd _ _ _|p Hp Hn _ Hcode Hf|p p' Hl Hp Hd _ Hcode Hf
    |p p' Hl Hp Hd _ Hf|m H|m H|p r now t1 Hl Hs Hg Hn Hr Hrel _ Hp Hch|p r now t1 Hl Hk Hrel Href]; try done.
  - apply rows_put_campaign; [done..|]. intros _. by apply identifier_free.
  - apply rows_put_campaign; [done..|]. intros _. destruct (live_same_campaign t _ c Hok Hl) as (_ & _ & Hu).
    destruct Hi as [-> | Hi]; [done|]. by apply identifier_free.
  - apply rows_put_campaign; [done..|]. intros Hd'. by rewrite Hd' in Hd; destruct Hd.
  - apply rows_put_promotion; [done..| |].
    + intros x Hx. unfold campaign_exists in Hf. rewrite Hx in Hf. destruct (tb_campaigns t !! x); [by eexists|done].
    + intros _. by apply code_free.
  - destruct (live_same_promotion t _ p Hok Hl) as (_ & _ & Hpf & Hu). apply rows_put_promotion; [done..| |].
    + intros x Hx. destruct Hf as [Hf|Hf]; [rewrite Hf in Hx; by apply Hpf|].
      unfold campaign_exists in Hf. rewrite Hx in Hf. destruct (tb_campaigns t !! x); [by eexists|done].
    + intros _. destruct Hcode as [-> | Hcode]; [done|]. by apply code_free.
  - destruct (live_same_promotion t _ p Hok Hl) as (_ & _ & Hpf & Hu). apply rows_put_promotion; [done..| |].
    + intros x Hx. rewrite Hf in Hx. by apply Hpf.
    + intros Hd'. by rewrite Hd' in Hd; destruct Hd.
  - destruct (charge_promotions t p r now t1 Hch) as (Ep & Er & Hc & Hcf).
    assert (Hl1 : live_promotion t1 (rd_PromotionID r) = Some p) by (unfold live_promotion; by rewrite Ep).
    apply rows_put_redemption; [by eapply rows_count_promotion, Hp; [eapply rows_charge|]|done|..].
    + cbn. apply kept_lookup. apply live_Some in Hl1 as [-> _]. by eexists.
    + intros id Hid. cbn. by apply Hc, Hcf.
    + intros _ j q Hj _ Hq. cbn in Hj. rewrite Er in Hj.
      by apply (proj1 (head_filter_None _ _) Hg j q Hj).
  - destruct (refund_promotions t r now t1 Href) as (Ep & Er & Hc).
    destruct (ro_redemptions t Hok _ r Hk) as (_ & Hro & Hpf & Hcf).
    assert (Hl1 : live_promotion t1 (rd_PromotionID r) = Some p) by (unfold live_promotion; by rewrite Ep).
    apply rows_put_redemption; [|done|..].
    + eapply rows_count_promotion; [by eapply rows_refund|done|]. apply promotion_ok_touch; [|lia].
      by apply (live_same_promotion t _ p Hok Hl).
    + cbn. apply kept_lookup. by rewrite Ep.
    + intros id Hid. cbn. by apply Hc, Hcf.
    + done.
Qed.

(** ** Counters *)

Lemma uses_put r t id : uses id (put_redemption r t) =
  uses id t - from_option (counts_for id) 0 (tb_redemptions t !! rd_ID r) + counts_for id r.
Proof. apply sum_of_put. Qed.

Lemma spent_put r t id : spent id (put_redemption r t) =
  spent id t - from_option (draws_on id) 0 (tb_redemptions t !! rd_ID r) + draws_on id r.
Proof. apply sum_of_put. Qed.

Lemma uses_same t t' id : tb_redemptions t' = tb_redemptions t -> uses id t' = uses id t.
Proof. unfold uses. by intros ->. Qed.

Lemma spent_same t t' id : tb_redemptions t' = tb_redemptions t -> spent id t' = spent id t.
Proof. unfold spent. by intros ->. Qed.

Lemma counts_for_nonneg id r : 0 <= counts_for id r.
Proof. unfold counts_for. by case_decide. Qed.

Lemma redemption_delta r : redemption_ok r -> 0 <= rd_BudgetDelta r /\ 0 <= rd_Amount r.
Proof.
  unfold redemption_ok, redemption_checks. rewrite !check_violated_cons, andb_true_iff, !Z.leb_le. tauto.
Qed.

Lemma draws_nonneg id t : RowsOk t -> forall k r, tb_redemptions t !! k = Some r -> 0 <= draws_on id r.
Proof.
  intros Hok k r Hk. unfold draws_on. case_decide; [|done].
  destruct (ro_redemptions t Hok k r Hk) as (_ & Hr & _). by apply redemption_delta.
Qed.

Lemma standing_counts t k r : tb_redemptions t !! k = Some r -> rd_ReleasedAt r = None -> 1 <= uses (rd_PromotionID r) t.
Proof.
  intros Hk Hr. pose proof (sum_of_le (counts_for (rd_PromotionID r)) (tb_redemptions t) k r) as H.
  replace (counts_for (rd_PromotionID r) r) with 1 in H by (unfold counts_for; by rewrite decide_True).
  apply H; [|done]. intros. apply counts_for_nonneg.
Qed.

Lemma standing_draws t k r id : RowsOk t -> tb_redemptions t !! k = Some r -> rd_ReleasedAt r = None ->
  rd_CampaignID r = Some id -> rd_BudgetDelta r <= spent id t.
Proof.
  intros Hok Hk Hr Hc. pose proof (sum_of_le (draws_on id) (tb_redemptions t) k r (draws_nonneg id t Hok) Hk) as H.
  unfold draws_on in H at 1. by rewrite decide_True in H.
Qed.

Lemma counters_put_campaign c t : CountersOk t ->
  spent (cp_ID c) t <= cp_BudgetUsed c -> (cp_DeletedAt c = None -> cp_BudgetUsed c = spent (cp_ID c) t) ->
  (forall k r, tb_redemptions t !! k = Some r -> rd_ReleasedAt r = None -> rd_CampaignID r = Some (cp_ID c) ->
    0 < rd_BudgetDelta r -> in_unit c r) ->
  CountersOk (put_campaign c t).
Proof.
  intros [H1 H2 H3] Hs He Hu. constructor; [done| |].
  - intros id d. cbn. intros [[<- <-]|[_ Hd]]%lookup_insert_Some; [done|]. by apply H2.
  - intros k r id d Hk Hr Hc. cbn. intros [[<- <-]|[_ Hd]]%lookup_insert_Some; [by eapply Hu|by eapply H3].
Qed.

Lemma counters_put_promotion p t : CountersOk t -> pr_UsageCount p = uses (pr_ID p) t -> CountersOk (put_promotion p t).
Proof.
  intros [H1 H2 H3] Hu. constructor; [|done..].
  intros id q. cbn. intros [[<- <-]|[_ Hq]]%lookup_insert_Some; [done|]. by apply H1.
Qed.

(** No use has drawn on a campaign whose counter is zero. *)
Lemma nothing_drawn t id c k r : RowsOk t -> CountersOk t -> tb_campaigns t !! id = Some c -> cp_BudgetUsed c = 0 ->
  tb_redemptions t !! k = Some r -> rd_ReleasedAt r = None -> rd_CampaignID r = Some id -> rd_BudgetDelta r <= 0.
Proof.
  intros Hok Hco Hc Hz Hk Hr Hi. pose proof (standing_draws t k r id Hok Hk Hr Hi).
  destruct (co_spent t Hco id c Hc). intuition lia.
Qed.

Lemma unused_campaign t id : RowsOk t -> tb_campaigns t !! id = None -> spent id t = 0.
Proof.
  intros Hok Hn. apply sum_of_zero. intros k r Hk. unfold draws_on. case_decide as Hd; [|done]. destruct Hd as [Hc _].
  destruct (ro_redemptions t Hok k r Hk) as (_ & _ & _ & Hf). destruct (Hf id Hc) as [c Hx]. congruence.
Qed.

Lemma unused_promotion t id : RowsOk t -> tb_promotions t !! id = None -> uses id t = 0.
Proof.
  intros Hok Hn. apply sum_of_zero. intros k r Hk. unfold counts_for. case_decide as Hd; [|done]. destruct Hd as [<- _].
  destruct (ro_redemptions t Hok k r Hk) as (_ & _ & [p Hp] & _). congruence.
Qed.

Lemma in_unit_touch now n c r : in_unit (touch_campaign now n c) r <-> in_unit c r.
Proof. done. Qed.

Lemma delta_in_unit c r : rd_BudgetDelta r = BudgetDeltaFor c (rd_Amount r) -> 0 < rd_BudgetDelta r ->
  (cp_BudgetType c = BudgetSpend -> cp_BudgetCurrencyCode c = rd_CurrencyCode r) -> in_unit c r.
Proof. unfold in_unit, BudgetDeltaFor. intros -> Hp Hc. destruct (cp_BudgetType c); [lia|by rewrite Hc|done|lia]. Qed.

(** The ledger after a use and after a release. *)
Lemma ledger_redeem t p p' r now t1 id : charge t p r now t1 -> tb_redemptions t !! rd_ID r = None ->
  uses id (put_redemption r (put_promotion p' t1)) = uses id t + counts_for id r /\
  spent id (put_redemption r (put_promotion p' t1)) = spent id t + draws_on id r.
Proof.
  intros Hch Hn. destruct (charge_promotions t p r now t1 Hch) as (_ & Er & _). rewrite uses_put, spent_put. cbn. rewrite Er, Hn.
  cbn. rewrite (uses_same t (put_promotion p' t1)), (spent_same t (put_promotion p' t1)) by done. lia.
Qed.

Lemma ledger_release t r now now' p' t1 id : refund t r now t1 -> tb_redemptions t !! rd_ID r = Some r ->
  uses id (put_redemption (Sql.released r now') (put_promotion p' t1)) = uses id t - counts_for id r /\
  spent id (put_redemption (Sql.released r now') (put_promotion p' t1)) = spent id t - draws_on id r.
Proof.
  intros Href Hk. destruct (refund_promotions t r now t1 Href) as (_ & Er & _). rewrite uses_put, spent_put. cbn. rewrite Er, Hk.
  cbn. rewrite (uses_same t (put_promotion p' t1)), (spent_same t (put_promotion p' t1)) by done.
  unfold counts_for at 2, draws_on at 2. rewrite !decide_False by (by intros [_ ?]). lia.
Qed.

Lemma counters_redeem t p r now t1 : RowsOk t -> CountersOk t -> live_promotion t (rd_PromotionID r) = Some p ->
  tb_redemptions t !! rd_ID r = None -> redemption_ok r -> rd_ReleasedAt r = None -> charge t p r now t1 ->
  CountersOk (put_redemption r (put_promotion (touch_promotion now (pr_CampaignID p) (pr_Status p) (pr_UsageCount p + 1) p) t1)).
Proof.
  intros Hok Hco Hl Hn Hr Hrel Hch. destruct (live_same_promotion t _ p Hok Hl) as (Ei & _).
  apply live_Some in Hl as [Hp _]. destruct (charge_promotions t p r now t1 Hch) as (Ep & Er & _).
  constructor.
  - intros id q. cbn [tb_promotions put_redemption set_redemptions put_promotion set_promotions]. rewrite Ep.
    rewrite (proj1 (ledger_redeem t p _ r now t1 id Hch Hn)). unfold counts_for.
    intros [[<- <-]|[Hid Hq]]%lookup_insert_Some; cbn [touch_promotion pr_ID pr_UsageCount] in *.
    + rewrite decide_True by by split. rewrite Ei. by rewrite (co_uses t Hco _ p Hp).
    + rewrite decide_False by (intros [? _]; congruence). rewrite (co_uses t Hco _ q Hq). lia.
  - intros id c. cbn [tb_campaigns put_redemption set_redemptions put_promotion set_promotions].
    rewrite (proj2 (ledger_redeem t p _ r now t1 id Hch Hn)). unfold draws_on. rewrite Hrel.
    destruct Hch as [_ Hrc _|i d at_ _ Hrc Hd _ _ Hz _|i d at_ _ Hrc Hd _ _ Hpos _ _ _]; rewrite Hrc.
    + rewrite decide_False by (intros [? _]; congruence). intros Hc. destruct (co_spent t Hco id c Hc). intuition lia.
    + replace (if decide (Some i = Some id /\ None = None) then rd_BudgetDelta r else 0) with 0
        by (case_decide; [destruct (redemption_delta r Hr); lia|done]).
      intros Hc. destruct (co_spent t Hco id c Hc). intuition lia.
    + destruct (live_same_campaign t i d Hok Hd) as (Eid & _). apply live_Some in Hd as [Hd Hlive].
      cbn. intros [[<- <-]|[Hid Hc]]%lookup_insert_Some; cbn [touch_campaign cp_ID cp_BudgetUsed cp_DeletedAt] in *.
      * rewrite decide_True by (by rewrite Eid). destruct (co_spent t Hco i d Hd). rewrite Eid. intuition lia.
      * rewrite decide_False by (intros [? _]; congruence). destruct (co_spent t Hco id c Hc). intuition lia.
  - intros k q id c. cbn [tb_redemptions put_redemption set_redemptions put_promotion set_promotions tb_campaigns]. rewrite Er.
    intros Hk Hq Hqc Hc Hpos. apply lookup_insert_Some in Hk as [[<- <-]|[_ Hk]].
    + destruct Hch as [_ Hrc _|i d at_ _ Hrc Hd _ _ Hz _|i d at_ _ Hrc Hd _ Hdel _ Hcur _ _]; [congruence|lia|].
      rewrite Hrc in Hqc. injection Hqc as ->. cbn in Hc. destruct (live_same_campaign t id d Hok Hd) as (Eid & _).
      rewrite <- Eid in Hc. change (cp_ID d) with (cp_ID (touch_campaign now (cp_BudgetUsed d + rd_BudgetDelta r) d)) in Hc at 2.
      rewrite lookup_insert_eq in Hc. injection Hc as <-. apply in_unit_touch. by apply delta_in_unit.
    + destruct Hch as [_ _ _|i d at_ _ _ _ _ _ _ _|i d at_ _ Hrc Hd _ _ _ _ _ _]; [by eapply (co_unit t Hco)..|].
      cbn in Hc. apply lookup_insert_Some in Hc as [[E <-]|[_ Hc]]; [|by eapply (co_unit t Hco)].
      apply in_unit_touch. apply live_Some in Hd as [Hd' _]. destruct (ro_campaigns t Hok i d Hd') as [Eid _].
      cbn in E. rewrite Eid in E. subst id. by eapply (co_unit t Hco).
Qed.

Lemma counters_release t p r now now' t1 : RowsOk t -> CountersOk t -> live_promotion t (rd_PromotionID r) = Some p ->
  tb_redemptions t !! rd_ID r = Some r -> rd_ReleasedAt r = None -> refund t r now t1 ->
  CountersOk (put_redemption (Sql.released r now')
    (put_promotion (touch_promotion now (pr_CampaignID p) (pr_Status p) (Z.max (pr_UsageCount p - 1) 0) p) t1)).
Proof.
  intros Hok Hco Hl Hk Hrel Href. destruct (live_same_promotion t _ p Hok Hl) as (Ei & _).
  apply live_Some in Hl as [Hp _]. destruct (refund_promotions t r now t1 Href) as (Ep & Er & _).
  constructor.
  - intros id q. cbn [tb_promotions put_redemption set_redemptions put_promotion set_promotions]. rewrite Ep.
    rewrite (proj1 (ledger_release t r now now' _ t1 id Href Hk)). unfold counts_for.
    intros [[<- <-]|[Hid Hq]]%lookup_insert_Some; cbn [touch_promotion pr_ID pr_UsageCount] in *.
    + rewrite decide_True by by split. rewrite Ei, (co_uses t Hco _ p Hp). pose proof (standing_counts t _ r Hk Hrel). lia.
    + rewrite decide_False by (intros [? _]; congruence). rewrite (co_uses t Hco _ q Hq). lia.
  - intros id c. cbn [tb_campaigns put_redemption set_redemptions put_promotion set_promotions].
    rewrite (proj2 (ledger_release t r now now' _ t1 id Href Hk)). unfold draws_on.
    destruct (ro_redemptions t Hok _ r Hk) as (_ & Hro & _). pose proof (redemption_delta r Hro) as [Hd0 _].
    destruct Href as [Hz|i Hi Hpos Hg|i d Hi Hpos Hd].
    + intros Hc. destruct (co_spent t Hco id c Hc). case_decide as Hdec; [destruct Hdec, Hz as [Hz|Hz]; [congruence|]|]; intuition lia.
    + intros Hc. destruct (co_spent t Hco id c Hc) as [Hle Heq]. case_decide as Hdec; [|intuition lia].
      destruct Hdec as [Hx _]. rewrite Hi in Hx. injection Hx as ->. split; [lia|]. intros Hdel.
      unfold live_campaign, live in Hg. rewrite Hc in Hg. cbn in Hg. by rewrite Hdel in Hg.
    + destruct (live_same_campaign t i d Hok Hd) as (Eid & _). apply live_Some in Hd as [Hd Hlive].
      pose proof (standing_draws t _ r i Hok Hk Hrel Hi). destruct (co_spent t Hco i d Hd) as [Hle Heq].
      cbn. intros [[<- <-]|[Hid Hc]]%lookup_insert_Some; cbn [touch_campaign cp_ID cp_BudgetUsed cp_DeletedAt] in *.
      * rewrite decide_True by (by rewrite Eid). rewrite Eid, (Heq Hlive). intuition lia.
      * rewrite decide_False by (intros [? _]; congruence). destruct (co_spent t Hco id c Hc). intuition lia.
  - intros k q id c. cbn [tb_redemptions put_redemption set_redemptions put_promotion set_promotions tb_campaigns]. rewrite Er.
    intros Hkq Hq Hqc Hc Hpos. apply lookup_insert_Some in Hkq as [[<- <-]|[_ Hkq]]; [done|].
    destruct Href as [_|i _ _ _|i d _ _ Hd]; [by eapply (co_unit t Hco)..|].
    cbn in Hc. apply lookup_insert_Some in Hc as [[E <-]|[_ Hc]]; [|by eapply (co_unit t Hco)].
    apply in_unit_touch. apply live_Some in Hd as [Hd' _]. destruct (ro_campaigns t Hok i d Hd') as [Eid _].
    cbn in E. rewrite Eid in E. subst id. by eapply (co_unit t Hco).
Qed.

Lemma counters_act t t' : RowsOk t -> CountersOk t -> act t t' -> CountersOk t'.
Proof.
  intros Hok Hco Ha. destruct Ha as [c Hc Hn Hu Hi|c c' Hl Hc Hd Hus Hun Hi|c c' Hl Hc Hd Hus Hty Hcur|p Hp Hn Hu Hcode Hf
    |p p' Hl Hp Hd Hus Hcode Hf|p p' Hl Hp Hd Hus Hf|m H|m H|p r now t1 Hl Hs Hg Hn Hr Hrel _ Hp Hch|p r now t1 Hl Hk Hrel Href].
  - apply counters_put_campaign; [done|..]; rewrite ?(unused_campaign t (cp_ID c) Hok Hn); [lia|done|].
    intros k r Hk _ Hrc _. destruct (ro_redemptions t Hok k r Hk) as (_ & _ & _ & Hf). destruct (Hf _ Hrc) as [x Hx]. congruence.
  - apply live_Some in Hl as [Hl Hlive]. destruct (co_spent t Hco _ c Hl) as [Hle Heq]. specialize (Heq Hlive).
    apply counters_put_campaign; [done|rewrite Hus; lia|intros; by rewrite Hus|].
    intros k r Hk Hrr Hrc Hpos. destruct Hun as [Hz|[E1 E2]].
    + pose proof (nothing_drawn t _ c k r Hok Hco Hl Hz Hk Hrr Hrc). lia.
    + pose proof (co_unit t Hco k r _ c Hk Hrr Hrc Hl Hpos) as Hin. unfold in_unit in *. by rewrite E1, E2.
  - apply live_Some in Hl as [Hl Hlive]. destruct (co_spent t Hco _ c Hl) as [Hle Heq]. specialize (Heq Hlive).
    apply counters_put_campaign; [done|rewrite Hus; lia|intros; by rewrite Hus|].
    intros k r Hk Hrr Hrc Hpos. pose proof (co_unit t Hco k r _ c Hk Hrr Hrc Hl Hpos) as Hin. unfold in_unit in *. by rewrite Hty, Hcur.
  - apply counters_put_promotion; [done|]. by rewrite (unused_promotion t _ Hok Hn).
  - apply live_Some in Hl as [Hl _]. apply counters_put_promotion; [done|]. rewrite Hus. by apply (co_uses t Hco).
  - apply live_Some in Hl as [Hl _]. apply counters_put_promotion; [done|]. rewrite Hus. by apply (co_uses t Hco).
  - destruct Hco as [A B C]. by constructor.
  - destruct Hco as [A B C]. by constructor.
  - by eapply counters_redeem.
  - by eapply counters_release.
Qed.

Lemma act_sound t t' : Sound t -> act t t' -> Sound t'.
Proof. intros [H1 H2] Ha. split; [by eapply rows_act|by eapply counters_act]. Qed.

Lemma acts_sound t t' : Sound t -> rtc act t t' -> Sound t'.
Proof. intros H Ha. induction Ha as [|a b c Hab _ IH]; [done|]. apply IH. by eapply act_sound. Qed.

Lemma sound_empty : Sound emptyTables.
Proof.
  split; [constructor; try apply map_Forall_empty; try done|constructor; done]; intros i j a b H; by apply live_Some in H as [? _].
Qed.
