(* ===== verification/PromotionHistory.v ===== *)
(** * Every call on the promotions is a sequence of acts

    What each statement of the repository does to sound tables is an act, so what a call that succeeds does
    is a sequence of acts; a call that fails does nothing. *)
From S2P Require Import Prelude GoText Errors Tx Identifiers Database Server Condition PromotionModels PromotionValidate PromotionDiscounts PromotionCompute PromotionStore PromotionAdmin PromotionCounters.

(** ** Statements *)

Lemma checking_rows {A} l (a : answer A) x : Sql.checking l a = Rows x -> check_violated l = None /\ a = Rows x.
Proof. unfold Sql.checking. by destruct (check_violated l). Qed.

Lemma when_rows {A} bad (refusal a : answer A) x : (forall y, refusal <> Rows y) -> Sql.when bad refusal a = Rows x ->
  bad = false /\ a = Rows x.
Proof. unfold Sql.when. destruct bad; [intros H E; by destruct (H x)|done]. Qed.

Lemma taken_null {A} (x : option A) : negb (is_null x) = false -> x = None.
Proof. by destruct x. Qed.

Lemma not_null {A} (x : option A) : is_null x = false -> is_Some x.
Proof. destruct x; [by eexists|done]. Qed.

(** What a statement that answers rows has passed. *)
Ltac passed H :=
  repeat first
    [ apply checking_rows in H as [? H]
    | apply when_rows in H as [? H]; [|done]
    | progress simplify_eq ].

Lemma did_insert_campaign c t t' a : Sql.InsertCampaign c t = Rows (t', a) -> cp_BudgetUsed c = 0 -> act t t'.
Proof. unfold Sql.InsertCampaign. intros H Hu. passed H. apply act_open_campaign; try done. by apply taken_null. Qed.

Lemma did_update_campaign c now t t' a : RowsOk t -> Sql.UpdateCampaign c now t = Rows (t', a) ->
  (a = None /\ t' = t) \/ act t t'.
Proof.
  unfold Sql.UpdateCampaign. intros Hok H. destruct (live_campaign t (cp_ID c)) as [old|] eqn:El; [|simplify_eq; by left].
  destruct (_ || _) eqn:Eg; [|simplify_eq; by left]. passed H. right.
  pose proof (live_same_campaign t _ old Hok El) as (Ei & _). pose proof El as [_ Hd]%live_Some.
  apply (act_define_campaign t old); cbn [cp_ID cp_DeletedAt cp_BudgetUsed cp_BudgetType cp_BudgetCurrencyCode cp_CampaignIdentifier];
    [by rewrite Ei|done|done|done| |by right].
  apply orb_true_iff in Eg as [Eg%Z.eqb_eq|Eg]; [by left|]. apply andb_true_iff in Eg as [E1%bool_decide_eq_true E2%bool_decide_eq_true].
  by right.
Qed.

Lemma did_revise_campaign id read next now t t' a : RowsOk t -> Sql.ReviseCampaign id read next now t = Rows (t', a) ->
  (a = None /\ t' = t) \/ act t t'.
Proof.
  unfold Sql.ReviseCampaign. intros Hok H. destruct (live_campaign t id) as [old|] eqn:El; [|simplify_eq; by left].
  destruct (_ && _); [|simplify_eq; by left]. passed H. right.
  pose proof (live_same_campaign t _ old Hok El) as (Ei & _). pose proof El as [_ Hd]%live_Some.
  apply (act_define_campaign t old); cbn; [by rewrite Ei|done|done|done|by right|by left].
Qed.

Lemma did_delete_campaign id now t t' a : RowsOk t -> Sql.SoftDeleteCampaign id now t = Rows (t', a) ->
  (a = None /\ t' = t) \/ act t t'.
Proof.
  unfold Sql.SoftDeleteCampaign. intros Hok H. destruct (live_campaign t id) as [old|] eqn:El; simplify_eq; [right|by left].
  pose proof (live_same_campaign t _ old Hok El) as (Ei & Ho & _).
  apply (act_close_campaign t old); cbn; try done; by rewrite Ei.
Qed.

Lemma did_insert_promotion p t t' a : Sql.InsertPromotion p t = Rows (t', a) -> pr_UsageCount p = 0 ->
  act t t' /\ t' = put_promotion p t /\ a = p.
Proof.
  unfold Sql.InsertPromotion. intros H Hu. passed H. split; [|done]. apply act_open_promotion; try done; [by apply taken_null|].
  by destruct (campaign_exists _ _).
Qed.

Lemma did_update_promotion p now t t' a : RowsOk t -> Sql.UpdatePromotion p now t = Rows (t', a) ->
  (a = None /\ t' = t) \/ act t t'.
Proof.
  unfold Sql.UpdatePromotion. intros Hok H. destruct (live_promotion t (pr_ID p)) as [old|] eqn:El; [|simplify_eq; by left].
  passed H. right. pose proof (live_same_promotion t _ old Hok El) as (Ei & _). pose proof El as [_ Hd]%live_Some.
  apply (act_define_promotion t old); cbn in *; [by rewrite Ei|done|done|done|by right|right].
  by destruct (campaign_exists _ _).
Qed.

Lemma did_delete_promotion id now t t' a : RowsOk t -> Sql.SoftDeletePromotion id now t = Rows (t', a) ->
  (a = None /\ t' = t) \/ act t t'.
Proof.
  unfold Sql.SoftDeletePromotion. intros Hok H. destruct (live_promotion t id) as [old|] eqn:El; simplify_eq; [right|by left].
  pose proof (live_same_promotion t _ old Hok El) as (Ei & Ho & _).
  apply (act_close_promotion t old); cbn; try done; by rewrite Ei.
Qed.

Lemma did_switch_status id from to now t t' a : RowsOk t -> Sql.SwitchPromotionStatus id from to now t = Rows (t', a) ->
  (a = None /\ t' = t) \/ act t t'.
Proof.
  unfold Sql.SwitchPromotionStatus. intros Hok H. destruct (live_promotion t id) as [old|] eqn:El; [|simplify_eq; by left].
  destruct (bool_decide _); [|simplify_eq; by left]. passed H. right.
  pose proof (live_same_promotion t _ old Hok El) as (Ei & _). pose proof El as [_ Hd]%live_Some.
  apply (act_define_promotion t old); cbn in *; [by rewrite Ei|done|done|done|by left|by left].
Qed.

Lemma did_set_campaign id from to now t t' a : RowsOk t -> Sql.SetPromotionCampaign id from to now t = Rows (t', a) ->
  (a = None /\ t' = t) \/ act t t'.
Proof.
  unfold Sql.SetPromotionCampaign. intros Hok H. destruct (live_promotion t id) as [old|] eqn:El; [|simplify_eq; by left].
  destruct (_ && _) eqn:Eg; [|simplify_eq; by left]. apply andb_true_iff in Eg as [_ Eg]. passed H. right.
  pose proof (live_same_promotion t _ old Hok El) as (Ei & _). pose proof El as [_ Hd]%live_Some.
  apply (act_define_promotion t old); cbn in *; [by rewrite Ei|done|done|done|by left|right].
  destruct to as [c|]; [|done]. cbn. destruct (live_campaign t c) as [x|] eqn:Ec; [|done]. by apply live_Some in Ec as [-> _].
Qed.

(** *** Methods and rules *)

Lemma method_read promotion t m : RowsOk t -> Sql.GetApplicationMethod promotion t = Some m ->
  tb_methods t !! am_ID m = Some (mkKept m None) /\ am_PromotionID m = promotion /\ method_row_ok m /\
  is_Some (tb_promotions t !! promotion).
Proof.
  unfold Sql.GetApplicationMethod. intros Hok (k & Hk & ->)%fmap_Some. apply head_filter_Some in Hk as [[Hp Hd] [i Hi]].
  destruct (ro_methods t Hok i k Hi) as (Ei & Ho & Hf). destruct k as [m d]. cbn in *. subst. by split_and!.
Qed.

Lemma rows_put_method d m t : RowsOk t -> method_row_ok m -> is_Some (tb_promotions t !! am_PromotionID m) ->
  (d = None -> forall i k, tb_methods t !! i = Some k -> kept_DeletedAt k = None ->
    am_PromotionID (kept_row k) = am_PromotionID m -> i = am_ID m) ->
  RowsOk (Sql.put_method d m t).
Proof.
  intros [H1 H2 H3 H4 H5 H6 H7 H8 H9] Hm Hp Hu. constructor; try done.
  - apply map_Forall_insert_2; [by split_and!|done].
  - intros i j k l Hk Hl Dk Dl E. cbn in Hk, Hl. apply lookup_insert_Some in Hk as [[<- <-]|[Hi Hk]], Hl as [[<- <-]|[Hj Hl]]; [done|..].
    + symmetry. by apply (Hu Dk j l).
    + by apply (Hu Dl i k).
    + by apply (H8 i j k l).
Qed.

Lemma did_upsert_method m now t t' a : RowsOk t -> Sql.UpsertApplicationMethod m now t = Rows (t', a) -> act t t'.
Proof.
  unfold Sql.UpsertApplicationMethod. intros Hok H. apply checking_rows in H as [Hm H].
  destruct (Sql.GetApplicationMethod _ t) as [old|] eqn:Eg.
  - destruct (method_read _ t old Hok Eg) as (Hk & Ep & Ho & Hpf). simplify_eq. apply act_methods, (rows_put_method None); [done|exact Hm|by rewrite Ep|].
    intros _ i k Hi Hd E. by apply (ro_one_method t Hok i (am_ID old) k (mkKept old None)).
  - passed H. apply act_methods, (rows_put_method None); [done|done|by apply not_null|].
    intros _ i k Hi Hd E. unfold Sql.GetApplicationMethod in Eg. apply fmap_None in Eg.
    eapply head_filter_None in Eg; [|exact Hi]. by destruct Eg.
Qed.

Lemma did_revise_method promotion readType readValue value now t t' a : RowsOk t ->
  Sql.ReviseMethodValue promotion readType readValue value now t = Rows (t', a) -> (a = None /\ t' = t) \/ act t t'.
Proof.
  unfold Sql.ReviseMethodValue. intros Hok H. destruct (Sql.GetApplicationMethod promotion t) as [old|] eqn:Eg; [|simplify_eq; by left].
  destruct (_ && _); [|simplify_eq; by left]. passed H. right. destruct (method_read _ t old Hok Eg) as (Hk & Ep & Ho & Hpf).
  apply act_methods, (rows_put_method None); [done|done|cbn; by rewrite Ep|].
  intros _ i k Hi Hd E. by apply (ro_one_method t Hok i (am_ID old) k (mkKept old None)).
Qed.

Lemma did_delete_method promotion now t t' a : RowsOk t -> Sql.SoftDeleteApplicationMethod promotion now t = Rows (t', a) ->
  (a = None /\ t' = t) \/ act t t'.
Proof.
  unfold Sql.SoftDeleteApplicationMethod. intros Hok H. destruct (Sql.GetApplicationMethod promotion t) as [old|] eqn:Eg; simplify_eq; [|by left].
  right. destruct (method_read _ t old Hok Eg) as (Hk & Ep & Ho & Hpf).
  apply act_methods, (rows_put_method (Some now)); [done|exact Ho|cbn; by rewrite Ep|done].
Qed.

Lemma rows_put_rule d r t : RowsOk t -> rule_ok r -> is_Some (tb_promotions t !! ru_PromotionID r) -> RowsOk (Sql.put_rule d r t).
Proof. intros [H1 H2 H3 H4 H5 H6 H7 H8 H9] Hr Hp. constructor; try done. apply map_Forall_insert_2; [by split_and!|done]. Qed.

Lemma did_insert_rule r t t' a : RowsOk t -> Sql.InsertPromotionRule r t = Rows (t', a) -> act t t'.
Proof.
  unfold Sql.InsertPromotionRule. intros Hok H. passed H. apply act_rules, (rows_put_rule None); [done|done|by apply not_null].
Qed.

Lemma did_delete_rule id now t t' a : RowsOk t -> Sql.SoftDeletePromotionRule id now t = Rows (t', a) ->
  (a = None /\ t' = t) \/ act t t'.
Proof.
  unfold Sql.SoftDeletePromotionRule, Sql.GetPromotionRule. intros Hok H.
  destruct (live kept_DeletedAt (tb_rules t) id) as [k|] eqn:El; cbn in H; simplify_eq; [right|by left].
  apply live_Some in El as [Hk _]. destruct (ro_rules t Hok id k Hk) as (Ei & Ho & Hf).
  apply act_rules, (rows_put_rule (Some now)); [done|exact Ho|exact Hf].
Qed.

(** ** Computations *)

Section Calls.
Context {W : Type} `{!Server W}.

Lemma keeps_row_or {A} code format a name (f : Tables -> option A) :
  keeps (W := W) (Repo.row_or code format a name (Repo.reading f)).
Proof. apply keeps_found, keeps_query. Qed.

Lemma gives_row_or {A} t code format a name (f : Tables -> option A) (Q : A -> Tables -> Prop) :
  (forall x, f t = Some x -> Q x t) -> gives (W := W) t (Repo.row_or code format a name (Repo.reading f)) Q.
Proof. intros H. apply gives_found, sv_gives_statement. intros t' r [= <- <-] x. apply H. Qed.

(** A read and what follows. *)
Lemma gives_row {A B} t code format a name (f : Tables -> option A) (k : A -> tx (Served Tables W) B) Q :
  (forall x, f t = Some x -> gives t (k x) Q) -> gives t (Repo.row_or code format a name (Repo.reading f) ≫= k) Q.
Proof. intros H. by apply sv_gives_bind, gives_row_or. Qed.

Lemma gives_found_query {A B} t e name on_error (f : Tables -> option A) (k : A -> tx (Served Tables W) B) Q :
  (forall x, f t = Some x -> gives t (k x) Q) -> gives t (found e (query name on_error f) ≫= k) Q.
Proof. intros H. apply sv_gives_bind, gives_found, gives_query. exact H. Qed.

Lemma sv_gives_check {B} t c (k : tx (Served Tables W) B) Q :
  (c = None -> gives t k Q) -> gives t (tx_check c ≫= fun _ => k) Q.
Proof. apply gives_guard. Qed.

(** The row of a use that is written. *)
Definition use_row (req : Redemption) (now : moment) (delta : Z) (campaign : option string) : Redemption :=
  mkRedemption (rd_ID req) (rd_PromotionID req) campaign (rd_Reference req) (rd_Amount req) (rd_CurrencyCode req)
    delta (fromTime now) (fromTime now) None.

(** A budget's part of a use. *)
Definition budgeted (t : Tables) (p : Promotion) (req : Redemption) (now : moment) (part : Z * option string) : Prop :=
  match pr_CampaignID p with
  | None => part = (0, None)
  | Some id => exists c, live_campaign t id = Some c /\ WindowContains c now = true /\
      (cp_BudgetType c = BudgetSpend -> cp_BudgetCurrencyCode c = rd_CurrencyCode req) /\
      part = (BudgetDeltaFor c (rd_Amount req), Some (cp_ID c))
  end.

(** What a use that was written did. *)
Record written (t : Tables) (p : Promotion) (req r : Redemption) (now : moment) (t' : Tables) : Prop := mkWritten {
  wr_status : pr_Status p = PromotionActive;
  wr_row : r = use_row req now (rd_BudgetDelta r) (rd_CampaignID r);
  wr_fresh : tb_redemptions t !! rd_ID r = None;
  wr_ok : redemption_ok r;
  wr_budget : budgeted t p req now (rd_BudgetDelta r, rd_CampaignID r);
  wr_limit : forall l, pr_UsageLimit p = Some l -> pr_UsageCount p + 1 <= l;
  wr_promotion : promotion_ok (touch_promotion (fromTime now) (pr_CampaignID p) (pr_Status p) (pr_UsageCount p + 1) p);
  wr_tables : exists t1, charge t p r (fromTime now) t1 /\ t' = put_redemption r (put_promotion
    (touch_promotion (fromTime now) (pr_CampaignID p) (pr_Status p) (pr_UsageCount p + 1) p) t1)
}.

Lemma gives_lockBudget t p req now : gives t (Repo.lockBudget (W := W) p req now) (fun part t' => t' = t /\ budgeted t p req now part).
Proof.
  unfold Repo.lockBudget, budgeted. destruct (pr_CampaignID p) as [id|]; [|by apply sv_gives_ret].
  apply gives_found_query. intros c Hc. apply sv_gives_check. intros Hw. apply sv_gives_check. intros Hcur. apply sv_gives_ret.
  split; [done|]. exists c. split_and!; [done|by destruct (WindowContains c now)| |done].
  intros Hs. rewrite (bool_decide_eq_true_2 _ Hs) in Hcur. cbn in Hcur. by case_bool_decide.
Qed.

Lemma gives_use_up t p req now : RowsOk t -> live_promotion t (rd_PromotionID req) = Some p ->
  gives t (Repo.use_up (W := W) p req now) (fun a t' => a.2 = true /\ written t p req a.1 now t').
Proof.
  intros Hok Hl. destruct (live_same_promotion t _ p Hok Hl) as (Ei & _). unfold Repo.use_up.
  apply sv_gives_check. intros Hs. apply sv_gives_bind. eapply sv_gives_mono; [apply gives_lockBudget|]. intros [delta cid] t' [-> Hb].
  apply sv_gives_bind, gives_found, sv_gives_statement. intros t1 a Hinc p' ->. unfold Sql.IncrementPromotionUsage in Hinc. rewrite Hl in Hinc.
  case_match; [done|]. case_match eqn:Hlim; [|done].
  apply checking_rows in Hinc as [Hpok [= <- <-]].
  assert (Hlimit : forall l, pr_UsageLimit p = Some l -> pr_UsageCount p + 1 <= l) by (intros l E; rewrite E in Hlim; by apply Z.leb_le in Hlim).
  set (p' := touch_promotion _ _ _ _ _) in *.
  assert (Hend : forall t2, charge t p (use_row req now delta cid) (fromTime now) t2 -> gives (put_promotion p' t2)
    (row ← statement "InsertRedemption"
      (wrapDB "the redemption record could not be written: %s/%s" [AStr (rd_PromotionID req); AStr (rd_Reference req)])
      (Sql.InsertRedemption (use_row req now delta cid)); mret (row, true))
    (fun a t' => a.2 = true /\ written t p req a.1 now t')).
  { intros t2 Hch. apply sv_gives_bind, sv_gives_statement. intros t' r Hins. unfold Sql.InsertRedemption in Hins. passed Hins.
    apply sv_gives_ret. split; [done|]. destruct (charge_promotions t p _ _ t2 Hch) as (_ & Er & _).
    constructor; try done; [by case_bool_decide| |by exists t2]. apply taken_null. cbn in *. by rewrite <- Er. }
  unfold budgeted in Hb. destruct (pr_CampaignID p) as [id|] eqn:Ep.
  - destruct Hb as (c & Hc & Hw & Hcur & [= -> ->]). destruct (live_same_campaign t id c Hok Hc) as (Eid & _). rewrite Eid in *.
    destruct (0 <? BudgetDeltaFor c (rd_Amount req)) eqn:Ed.
    + apply Z.ltb_lt in Ed. apply sv_gives_bind, sv_gives_bind, gives_found, sv_gives_statement. intros t2 a Hinc c' ->.
      unfold Sql.IncrementCampaignBudget in Hinc. change (live_campaign (put_promotion p' t) id) with (live_campaign t id) in Hinc.
      rewrite Hc in Hinc. case_match; [done|]. case_match eqn:Hl2; [|done].
      apply checking_rows in Hinc as [Hcok [= <- <-]]. apply sv_gives_ret.
      refine (Hend (put_campaign _ t) _). eapply (charge_budget t p (use_row req now _ (Some id)) (fromTime now) id c now); try done.
      intros l E. rewrite E in Hl2. by apply Z.leb_le in Hl2.
    + apply Z.ltb_ge in Ed. apply sv_gives_bind, sv_gives_ret, Hend. by eapply (charge_free t p _ _ id c now).
  - injection Hb as -> ->. apply sv_gives_bind, sv_gives_ret, Hend. by apply charge_nothing.
Qed.

(** What a call of [Redeem] that succeeds did. *)
Definition redeemed (t : Tables) (req : Redemption) (now : moment) (a : Redemption * bool) (t' : Tables) : Prop :=
  exists p, live_promotion t (rd_PromotionID req) = Some p /\
  if a.2 then Sql.GetActiveRedemption (rd_PromotionID req) (rd_Reference req) t = None /\ written t p req a.1 now t'
  else t' = t /\ Sql.GetActiveRedemption (rd_PromotionID req) (rd_Reference req) t = Some a.1.

Lemma gives_Redeem t req now : RowsOk t -> gives t (Repo.Redeem (W := W) req now) (redeemed t req now).
Proof.
  intros Hok. apply gives_transaction, gives_row. intros p Hp. apply sv_gives_bind, gives_query.
  destruct (Sql.GetActiveRedemption _ _ t) as [r|] eqn:Eg.
  - apply sv_gives_ret. by exists p.
  - eapply sv_gives_mono; [by apply gives_use_up|]. intros a t' [Ha Hw]. exists p. split; [done|]. rewrite Ha. by split.
Qed.

Lemma written_act t p req r now t' : live_promotion t (rd_PromotionID req) = Some p ->
  Sql.GetActiveRedemption (rd_PromotionID req) (rd_Reference req) t = None -> written t p req r now t' -> act t t'.
Proof.
  intros Hl Hg [Hs Hr Hf Hok _ Hlim Hp (t1 & Hch & ->)]. rewrite Hr in *. cbn in *. by eapply (act_redeem t p).
Qed.

Lemma active_row t promotion reference r : RowsOk t -> Sql.GetActiveRedemption promotion reference t = Some r ->
  tb_redemptions t !! rd_ID r = Some r /\ rd_PromotionID r = promotion /\ rd_Reference r = reference /\ rd_ReleasedAt r = None.
Proof.
  intros Hok (Hs & i & Hi)%head_filter_Some. destruct (ro_redemptions t Hok i r Hi) as [Ei _]. subst i. split; [done|exact Hs].
Qed.

(** What a call of [Release] that succeeds did. *)
Definition was_released (t : Tables) (promotion reference : string) (now : moment) (a : option Redemption) (t' : Tables) : Prop :=
  exists p, live_promotion t promotion = Some p /\
  match Sql.GetActiveRedemption promotion reference t with
  | None => a = None /\ t' = t
  | Some r => a = Some (Sql.released r now) /\ exists t1, refund t r now t1 /\
      t' = put_redemption (Sql.released r now)
        (put_promotion (touch_promotion now (pr_CampaignID p) (pr_Status p) (Z.max (pr_UsageCount p - 1) 0) p) t1)
  end.

Lemma gives_Release t promotion reference now : RowsOk t ->
  gives t (Repo.Release (W := W) promotion reference now) (was_released t promotion reference (fromTime now)).
Proof.
  intros Hok. apply gives_transaction, gives_row. intros p Hp. apply sv_gives_bind, gives_query.
  destruct (Sql.GetActiveRedemption promotion reference t) as [r|] eqn:Eg; [|apply sv_gives_ret; exists p; by rewrite Eg].
  destruct (active_row t _ _ r Hok Eg) as (Hk & Epr & Eref & Hrel).
  assert (Hend : forall t1, refund t r (fromTime now) t1 -> gives t1
    (_ ← found (wrap (Sentinel ErrNoRows) KindInternal CodeQueryFailed "the usage counter could not be decremented: %s"
            [AStr promotion])
          (statement "DecrementPromotionUsage" (wrapDB "the usage counter could not be decremented: %s" [AStr promotion])
            (Sql.DecrementPromotionUsage promotion (fromTime now)));
        row ← found (Conflict CodeRedemptionRaced
            "another call got in while the redemption record was being released: %s" [AStr (rd_ID r)])
          (statement "MarkRedemptionReleased" (wrapDB "the redemption record could not be released: %s" [AStr (rd_ID r)])
            (Sql.MarkRedemptionReleased (rd_ID r) (fromTime now)));
        mret (Some row)) (was_released t promotion reference (fromTime now))).
  { intros t1 Href. destruct (refund_promotions t r _ t1 Href) as (Ep & Er & _).
    apply sv_gives_bind, gives_found, sv_gives_statement. intros t2 a Hdec p' ->. unfold Sql.DecrementPromotionUsage, live_promotion in Hdec.
    rewrite Ep in Hdec. change (live pr_DeletedAt (tb_promotions t) promotion) with (live_promotion t promotion) in Hdec.
    rewrite Hp in Hdec. apply checking_rows in Hdec as [_ [= <- <-]].
    apply sv_gives_bind, gives_found, sv_gives_statement. intros t3 a Hmark row ->. unfold Sql.MarkRedemptionReleased, live in Hmark. cbn in Hmark.
    rewrite Er, Hk in Hmark. cbn in Hmark. rewrite Hrel in Hmark. simplify_eq/=. apply sv_gives_ret. exists p. rewrite Eg. split; [done|]. split; [done|].
    by exists t1. }
  apply sv_gives_bind. destruct (rd_CampaignID r) as [id|] eqn:Ec; [|by apply sv_gives_ret, Hend, refund_nothing; left].
  destruct (0 <? rd_BudgetDelta r) eqn:Ed; [apply Z.ltb_lt in Ed|apply sv_gives_ret, Hend, refund_nothing; right; by apply Z.ltb_ge].
  apply sv_gives_bind, sv_gives_statement. intros t1 a Hdec. apply sv_gives_ret, Hend. unfold Sql.DecrementCampaignBudget in Hdec.
  destruct (live_campaign t id) as [c|] eqn:El; [|simplify_eq; by eapply refund_gone].
  case_match; [done|]. apply checking_rows in Hdec as [_ [= <- _]]. by eapply refund_budget.
Qed.

Lemma release_act t promotion reference now a t' : RowsOk t -> was_released t promotion reference now a t' -> rtc act t t'.
Proof.
  intros Hok (p & Hp & H). destruct (Sql.GetActiveRedemption promotion reference t) as [r|] eqn:Eg; [|by destruct H as [_ ->]].
  destruct H as (_ & t1 & Href & ->). destruct (active_row t _ _ r Hok Eg) as (Hk & Epr & _ & Hrel). subst promotion.
  apply rtc_once. by eapply (act_release t p r).
Qed.

(** ** Every call *)

Lemma gives_row_write {A} t code format a name (f : Tables -> answer (Tables * option A)) :
  (forall t' x, f t = Rows (t', Some x) -> act t t') -> gives (W := W) t (Repo.row_or code format a name f) (fun _ => act t).
Proof. intros H. apply gives_found, sv_gives_statement. intros t' r E x ->. by eapply H. Qed.

Lemma wrote {A} (t t' : Tables) (a : option A) x : (a = None /\ t' = t) \/ act t t' -> a = Some x -> act t t'.
Proof. by intros [[-> _]|H]. Qed.

Lemma gives_once {A} t (m : tx (Served Tables W) A) : gives t m (fun _ => act t) -> gives t (ignore m) (fun _ => rtc act t).
Proof. intros H. eapply sv_gives_mono; [by apply sv_gives_ignore|]. intros _ t' [_ Ha]. by apply rtc_once. Qed.

Lemma gives_many {A} t (m : tx (Served Tables W) A) : gives t m (fun _ => rtc act t) -> gives t (ignore m) (fun _ => rtc act t).
Proof. intros H. eapply sv_gives_mono; [by apply sv_gives_ignore|]. by intros _ t' [_ Ha]. Qed.


Lemma sv_keeps_read {A} code format a name (f : Tables -> option A) :
  keeps (W := W) (found (NotFound code format a) (query name (wrapDB format a) f)).
Proof. eauto with served. Qed.

Lemma keeps_resolve id code : keeps (W := W) (resolvePromotion id code).
Proof. unfold resolvePromotion. keeps_tac; apply sv_keeps_read. Qed.
#[local] Hint Resolve keeps_resolve sv_keeps_read : served.

(** Past what only reads and checks. *)
Ltac to_write :=
  repeat first
    [ apply gives_guard; intros _
    | apply gives_pure; intros ? _
    | apply gives_skip; [solve [keeps_tac]|intros ?] ].

Ltac explains := intros st; repeat (apply fails_after; intros ? ?); by eexists.

Lemma gives_coupon t p m now : RowsOk t ->
  gives (W := W) t (Repo.CreatePromotionWithMethod p m now) (fun _ => rtc act t).
Proof.
  intros Hok. apply gives_transaction, sv_gives_bind, sv_gives_statement. intros t1 row H1.
  destruct (did_insert_promotion _ t t1 row H1 eq_refl) as (Ha & _). apply sv_gives_bind, sv_gives_statement. intros t2 ? H2. apply sv_gives_ret.
  eapply rtc_l; [exact Ha|]. apply rtc_once. eapply did_upsert_method; [|exact H2]. by eapply rows_act.
Qed.

Lemma gives_terms t id read next : RowsOk t -> gives (W := W) t (ReviseCampaign id read next) (fun _ => act t).
Proof.
  intros Hok. unfold ReviseCampaign. to_write. apply gives_explained; [|explains].
  intros t' c E. by eapply wrote; [eapply did_revise_campaign|].
Qed.

Lemma gives_status t id from to : RowsOk t -> gives (W := W) t (SwitchPromotionStatus id from to) (fun _ => act t).
Proof.
  intros Hok. unfold SwitchPromotionStatus. to_write. apply gives_explained; [|explains].
  intros t' c E. by eapply wrote; [eapply did_switch_status|].
Qed.

Lemma gives_membership t id from to : RowsOk t -> gives (W := W) t (SetPromotionCampaign id from to) (fun _ => act t).
Proof.
  intros Hok. unfold SetPromotionCampaign. to_write. apply gives_explained; [|explains].
  intros t' c E. by eapply wrote; [eapply did_set_campaign|].
Qed.

Lemma gives_discount t id ty read value : RowsOk t -> gives (W := W) t (ReviseDiscountValue id ty read value) (fun _ => act t).
Proof.
  intros Hok. unfold ReviseDiscountValue. to_write. apply gives_explained; [|explains].
  intros t' c E. by eapply wrote; [eapply did_revise_method|].
Qed.

Lemma gives_redefined t id in_ : RowsOk t -> gives (W := W) t (UpdateCampaign id in_) (fun _ => act t).
Proof.
  intros Hok. unfold UpdateCampaign, Repo.UpdateCampaign, Repo.campaignUpdateRejected. to_write. apply gives_explained; [|explains].
  intros t' c E. by eapply wrote; [eapply did_update_campaign|].
Qed.

Lemma perform_acts t c : RowsOk t -> gives (W := W) t (perform c) (fun _ => rtc act t).
Proof.
  intros Hok. destruct c as [in_|id in_|id read next|id|in_|id in_|id|id from to|id from to|in_|p in_|id|p in_|p ty r v|p|in_|in_]; cbn [perform].
  - apply gives_once. unfold CreateCampaign. to_write. apply sv_gives_statement. intros t' row E. by eapply did_insert_campaign.
  - by apply gives_once, gives_redefined.
  - by apply gives_once, gives_terms.
  - unfold DeleteCampaign. to_write. apply gives_once, gives_row_write. intros t' x E. by eapply wrote; [eapply did_delete_campaign|].
  - apply gives_once. unfold CreatePromotion. to_write. apply sv_gives_statement. intros t' row E. by apply (did_insert_promotion _ t t' row E).
  - apply gives_once. unfold UpdatePromotion. to_write. apply gives_row_write. intros t' x E. by eapply wrote; [eapply did_update_promotion|].
  - unfold DeletePromotion. to_write. apply gives_once, gives_row_write. intros t' x E. by eapply wrote; [eapply did_delete_promotion|].
  - by apply gives_once, gives_status.
  - by apply gives_once, gives_membership.
  - apply gives_many. unfold CreateCoupon. to_write. by apply gives_coupon.
  - apply gives_once. unfold AddPromotionRule. to_write. apply gives_transaction. to_write. apply sv_gives_statement.
    intros t' x E. by eapply did_insert_rule.
  - unfold DeletePromotionRule. to_write. apply gives_once, gives_row_write. intros t' x E. by eapply wrote; [eapply did_delete_rule|].
  - apply gives_once. unfold SetApplicationMethod. to_write. apply gives_transaction. to_write. apply sv_gives_statement.
    intros t' x E. by eapply did_upsert_method.
  - by apply gives_once, gives_discount.
  - unfold DeleteApplicationMethod. to_write. apply gives_once, gives_row_write. intros t' x E. by eapply wrote; [eapply did_delete_method|].
  - apply gives_many. unfold RedeemPromotion, redeem. apply sv_gives_bind. to_write.
    eapply sv_gives_mono; [by apply gives_Redeem|]. intros u t' (p & Hp & H). apply sv_gives_ret. destruct u.2.
    + destruct H as [Hg Hw]. apply rtc_once. by eapply written_act.
    + by destruct H as [-> _].
  - apply gives_many. unfold ReleasePromotion. to_write. apply sv_gives_bind.
    eapply sv_gives_mono; [by apply gives_Release|]. intros r t' H. apply sv_gives_ret. by eapply release_act.
Qed.

(** A statement of the repository that answers no row has written nothing. *)
Ltac writes_nothing :=
  intros ? ?; unfold Sql.UpdateCampaign, Sql.ReviseCampaign, Sql.SoftDeleteCampaign, Sql.UpdatePromotion,
    Sql.SoftDeletePromotion, Sql.SwitchPromotionStatus, Sql.SetPromotionCampaign, Sql.ReviseMethodValue,
    Sql.SoftDeleteApplicationMethod, Sql.SoftDeletePromotionRule, Sql.checking, Sql.when;
  intros ?; repeat case_match; simplify_eq; done.

Lemma undone_row_or {A} code format a name (f : Tables -> answer (Tables * option A)) :
  (forall t t', f t = Rows (t', None) -> t' = t) -> undone (W := W) (Repo.row_or code format a name f).
Proof. apply undone_found. Qed.

Lemma perform_undone c : undone (W := W) (perform c).
Proof.
  destruct c; cbn [perform];
    unfold CreateCampaign, UpdateCampaign, Repo.UpdateCampaign, ReviseCampaign, DeleteCampaign, Repo.DeleteCampaign, CreatePromotion, UpdatePromotion,
      DeletePromotion, Repo.DeletePromotion, SwitchPromotionStatus, SetPromotionCampaign, CreateCoupon, AddPromotionRule,
      DeletePromotionRule, Repo.DeletePromotionRule, SetApplicationMethod, ReviseDiscountValue, DeleteApplicationMethod,
      Repo.DeleteApplicationMethod, RedeemPromotion, redeem, ReleasePromotion;
    repeat first
      [ apply sv_undone_ignore | apply sv_undone_transaction | apply sv_undone_statement
      | apply undone_skip; [solve [keeps_tac]|intros ?]
      | apply undone_explained; [writes_nothing|solve [unfold Repo.campaignUpdateRejected, Repo.row_or; keeps_tac; apply sv_keeps_read]]
      | apply undone_row_or; writes_nothing | apply sv_undone_after ].
Qed.

(** ** Histories *)

Lemma happens_acts st st' : RowsOk (sv_tables st) -> happens (W := W) st st' -> rtc act (sv_tables st) (sv_tables st').
Proof.
  intros Hok H. destruct H as [c st]. destruct (perform c st) as [st1 [[]|e]] eqn:E; cbn.
  - by eapply (perform_acts (sv_tables st) c Hok st st1 tt).
  - by rewrite (perform_undone c st st1 e E).
Qed.

Lemma acts_rows t t' : RowsOk t -> rtc act t t' -> RowsOk t'.
Proof. intros H Ha. induction Ha as [|a b c Hab _ IH]; [done|]. apply IH. by eapply rows_act. Qed.

Lemma history_acts st st' : RowsOk (sv_tables st) -> history (W := W) st st' -> rtc act (sv_tables st) (sv_tables st').
Proof.
  intros Hok H. induction H as [|a b c Hab _ IH]; [done|]. pose proof (happens_acts a b Hok Hab) as H1.
  etrans; [exact H1|]. apply IH. by eapply acts_rows.
Qed.

End Calls.
