(* ===== verification/PromotionStoreProps.v ===== *)
(** * What the redemption of promotions promises

    The counters follow the ledger of uses along every history; a use is written exactly when it is
    allowed, once for each reference; a release gives back what the use took; and what a computation offers
    can be redeemed. [PromotionCounters] and [PromotionHistory] carry the proofs. *)
From S2P Require Import Prelude GoText Errors Tx Identifiers Database Server Condition PromotionModels PromotionValidate PromotionDiscounts PromotionCompute PromotionProps PromotionStore PromotionAdmin PromotionCounters PromotionHistory.

(** ** When a use is allowed *)

(** The budget of a campaign covers a use of [amount]. *)
Definition has_room (c : Campaign) (amount : Z) : Prop :=
  BudgetDeltaFor c amount <= 0 \/
  forall l, cp_BudgetLimit c = Some l -> cp_BudgetUsed c + BudgetDeltaFor c amount <= l.

Record allowed (t : Tables) (p : Promotion) (req : Redemption) (now : moment) : Prop := mkAllowed {
  al_live : live_promotion t (rd_PromotionID req) = Some p;
  al_new : Sql.GetActiveRedemption (rd_PromotionID req) (rd_Reference req) t = None;
  al_active : pr_Status p = PromotionActive;
  al_limit : UsageExhausted p = false;
  al_campaign : forall id, pr_CampaignID p = Some id -> exists c, live_campaign t id = Some c /\
    WindowContains c now = true /\ (cp_BudgetType c = BudgetSpend -> cp_BudgetCurrencyCode c = rd_CurrencyCode req) /\
    has_room c (rd_Amount req)
}.

(** What the service has checked of a request, an identifier that is not taken, and counters away from the
    end of [bigint]. *)
Record presentable (t : Tables) (req : Redemption) : Prop := mkPresentable {
  ps_amount : 0 <= rd_Amount req <= MaxAmount;
  ps_currency : currency_format (rd_CurrencyCode req) = true;
  ps_reference : rd_Reference req <> EmptyString;
  ps_fresh : tb_redemptions t !! rd_ID req = None;
  ps_uses : forall id p, live_promotion t id = Some p -> pr_UsageCount p < int64_max;
  ps_spent : forall id c, live_campaign t id = Some c -> cp_BudgetUsed c <= int64_max - MaxAmount
}.

Lemma limit_left p l : UsageExhausted p = false -> pr_UsageLimit p = Some l -> pr_UsageCount p + 1 <= l.
Proof. unfold UsageExhausted. intros H E. rewrite E in H. apply Z.leb_gt in H. lia. Qed.

Lemma delta_bounds c amount : 0 <= amount <= MaxAmount -> 0 <= BudgetDeltaFor c amount <= MaxAmount.
Proof. unfold BudgetDeltaFor, MaxAmount. destruct (cp_BudgetType c); lia. Qed.

Lemma use_row_ok t req now delta campaign : presentable t req -> 0 <= delta -> redemption_ok (use_row req now delta campaign).
Proof.
  intros [Ha Hc Hr _ _ _] Hd. unfold redemption_ok, redemption_checks. rewrite !check_violated_cons. cbn. rewrite Hc.
  split_and!; [by apply andb_true_iff; rewrite !Z.leb_le|done|by apply Z.leb_le|by apply negb_true_iff, bool_decide_eq_false|done].
Qed.

Lemma counted_ok now p : promotion_ok p -> promotion_ok (touch_promotion now (pr_CampaignID p) (pr_Status p) (pr_UsageCount p + 1) p).
Proof.
  intros Hp. pose proof Hp as Hc. unfold promotion_ok, promotion_checks in Hc. rewrite !check_violated_cons in Hc.
  destruct Hc as (_ & _ & _ & Hn%Z.leb_le & _). apply promotion_ok_touch; [done|lia].
Qed.

Lemma count_statement t id p now : RowsOk t -> live_promotion t id = Some p -> pr_UsageCount p < int64_max ->
  UsageExhausted p = false ->
  let row := touch_promotion now (pr_CampaignID p) (pr_Status p) (pr_UsageCount p + 1) p in
  Sql.IncrementPromotionUsage id now t = Rows (put_promotion row t, Some row).
Proof.
  intros Hok Hl Hr Hu. cbn. destruct (live_same_promotion t id p Hok Hl) as (_ & Hp & _). unfold Sql.IncrementPromotionUsage. rewrite Hl.
  pose proof Hp as Hc. unfold promotion_ok, promotion_checks in Hc. rewrite !check_violated_cons in Hc.
  destruct Hc as (_ & _ & _ & Hn%Z.leb_le & _).
  replace (Sql.in_bigint (pr_UsageCount p + 1)) with true
    by (symmetry; apply andb_true_iff; rewrite !Z.leb_le; unfold int64_min, int64_max in *; lia). cbn [negb].
  assert (match pr_UsageLimit p with Some l => pr_UsageCount p + 1 <=? l | None => true end = true) as ->
    by (destruct (pr_UsageLimit p) eqn:E; [apply Z.leb_le; by apply limit_left|done]).
  unfold Sql.checking. by rewrite (counted_ok now p Hp).
Qed.

Lemma budget_statement t id c now delta : RowsOk t -> live_campaign t id = Some c -> 0 < delta <= MaxAmount ->
  cp_BudgetUsed c <= int64_max - MaxAmount -> (forall l, cp_BudgetLimit c = Some l -> cp_BudgetUsed c + delta <= l) ->
  let row := touch_campaign now (cp_BudgetUsed c + delta) c in
  Sql.IncrementCampaignBudget id delta now t = Rows (put_campaign row t, Some row).
Proof.
  intros Hok Hl Hd Hr Hroom. cbn. destruct (live_same_campaign t id c Hok Hl) as (_ & Hc & _). unfold Sql.IncrementCampaignBudget. rewrite Hl.
  pose proof Hc as Hk. unfold campaign_ok, campaign_checks in Hk. rewrite !check_violated_cons in Hk.
  destruct Hk as (_ & _ & _ & _ & Hn%Z.leb_le & _).
  replace (Sql.in_bigint (cp_BudgetUsed c + delta)) with true
    by (symmetry; apply andb_true_iff; rewrite !Z.leb_le; unfold int64_min, int64_max, MaxAmount in *; lia). cbn [negb].
  assert (match cp_BudgetLimit c with Some l => cp_BudgetUsed c + delta <=? l | None => true end = true) as ->
    by (destruct (cp_BudgetLimit c) eqn:E; [apply Z.leb_le; by apply Hroom|done]).
  unfold Sql.checking. by rewrite (campaign_ok_touch now (cp_BudgetUsed c + delta) c Hc ltac:(lia)).
Qed.

Lemma row_statement t t1 p now req delta campaign : presentable t req -> live_promotion t (rd_PromotionID req) = Some p ->
  Sql.GetActiveRedemption (rd_PromotionID req) (rd_Reference req) t = None -> 0 <= delta ->
  tb_redemptions t1 = tb_redemptions t -> is_Some (tb_promotions t1 !! rd_PromotionID req) ->
  campaign_exists campaign t1 = true ->
  let row := use_row req now delta campaign in Sql.InsertRedemption row t1 = Rows (put_redemption row t1, row).
Proof.
  intros Hps Hl Hg Hd Er [q Hq] Hc. cbv zeta. unfold Sql.InsertRedemption, Sql.checking, Sql.when. rewrite (use_row_ok t req now delta campaign Hps Hd).
  cbn [use_row rd_ID rd_PromotionID rd_Reference rd_CampaignID]. rewrite Er, (ps_fresh t req Hps). cbn.
  unfold Sql.GetActiveRedemption in *. rewrite Er, Hg. cbn. by rewrite Hq, Hc.
Qed.

Section Redeeming.
Context {W : Type} `{!Server W}.

Lemma does_lockBudget t p req now : quiet W -> allowed t p req now ->
  does t (Repo.lockBudget (W := W) p req now) (fun part t' => t' = t /\ budgeted t p req now part).
Proof.
  intros Hq Ha. unfold Repo.lockBudget, budgeted. destruct (pr_CampaignID p) as [id|] eqn:Ep; [|by apply does_ret].
  destruct (al_campaign t p req now Ha id Ep) as (c & Hc & Hw & Hcur & _).
  apply does_bind, does_found, does_query; [done|]. exists c. split; [done|].
  apply does_check; [by rewrite Hw|]. apply does_check.
  - case_bool_decide as E; [|done]. by rewrite (bool_decide_eq_true_2 _ (Hcur E)).
  - apply does_ret. split; [done|]. by exists c.
Qed.

Lemma does_use_up t p req now : quiet W -> RowsOk t -> presentable t req -> allowed t p req now ->
  does t (Repo.use_up (W := W) p req now) (fun a _ => a.2 = true).
Proof.
  intros Hq Hok Hps Ha. pose proof Ha as [Hl Hg Hs Hu Hcamp]. unfold Repo.use_up.
  apply does_check; [by rewrite (bool_decide_eq_true_2 _ Hs)|].
  apply does_bind. eapply does_mono; [by apply does_lockBudget|]. intros [delta cid] t' [-> Hb].
  apply does_bind, does_found. eapply does_statement; [done|by apply (count_statement t (rd_PromotionID req) p); [..|by eapply ps_uses|]|].
  eexists. split; [done|]. set (p' := touch_promotion _ _ _ _ _).
  assert (Hp' : tb_promotions (put_promotion p' t) !! rd_PromotionID req = Some p').
  { cbn. destruct (live_same_promotion t _ p Hok Hl) as (-> & _). apply lookup_insert_eq. }
  assert (Hok' : RowsOk (put_promotion p' t)) by (eapply rows_count_promotion; [done..|by apply counted_ok; apply (live_same_promotion t (rd_PromotionID req) p Hok)]).
  unfold budgeted in Hb. destruct (pr_CampaignID p) as [id|] eqn:Ep.
  - destruct Hb as (c & Hc & Hw & Hcur & [= -> ->]). destruct (live_same_campaign t id c Hok Hc) as (Eid & _). rewrite Eid.
    destruct (Hcamp id eq_refl) as (c' & Hc' & _ & _ & Hroom). assert (c' = c) as -> by congruence.
    pose proof (delta_bounds c _ (ps_amount t req Hps)) as Hd.
    destruct (0 <? BudgetDeltaFor c (rd_Amount req)) eqn:Ed; [apply Z.ltb_lt in Ed|]; apply does_bind.
    + apply does_bind, does_found. eapply does_statement; [done| |].
      * apply (budget_statement (put_promotion p' t) id c); [done|done|lia|by eapply ps_spent|by destruct Hroom; [lia|]].
      * eexists. split; [done|]. apply does_ret, does_bind. eapply does_statement; [done| |by apply does_ret].
        eapply (row_statement t); try done; [lia|]. unfold campaign_exists. cbn. by rewrite Eid, lookup_insert_eq.
    + apply does_ret, does_bind. eapply does_statement; [done| |by apply does_ret].
      eapply (row_statement t); try done; [lia|]. unfold campaign_exists. cbn. by apply live_Some in Hc as [-> _].
  - injection Hb as -> ->. apply does_bind, does_ret, does_bind. eapply does_statement; [done| |by apply does_ret].
    by eapply (row_statement t).
Qed.

Lemma does_Redeem t p req now : quiet W -> RowsOk t -> presentable t req -> allowed t p req now ->
  does t (Repo.Redeem (W := W) req now) (fun a _ => a.2 = true).
Proof.
  intros Hq Hok Hps Ha. apply does_transaction, does_bind, does_found; [done|]. eapply does_statement; [done..|]. exists p. split; [by apply Ha|].
  apply does_bind, does_query; [done|]. rewrite (al_new t p req now Ha). by apply does_use_up.
Qed.

(** What a use that was written was allowed by. *)
Lemma written_allowed t p req r now t' : live_promotion t (rd_PromotionID req) = Some p ->
  Sql.GetActiveRedemption (rd_PromotionID req) (rd_Reference req) t = None -> written t p req r now t' -> allowed t p req now.
Proof.
  intros Hl Hg [Hs Hr Hf Hok Hb Hlim Hp (t1 & Hch & ->)]. constructor; try done.
  - unfold UsageExhausted. destruct (pr_UsageLimit p) as [l|]; [|done]. specialize (Hlim l eq_refl). apply Z.leb_gt. lia.
  - intros id E. unfold budgeted in Hb. rewrite E in Hb. destruct Hb as (c & Hc & Hw & Hcur & [= Ed Ec]).
    exists c. split_and!; try done. unfold has_room. rewrite <- Ed.
    inversion Hch as [E0 _ _|i d a Ei _ _ _ _ Hle _|i d a Ei _ Hd _ _ _ _ Hroom _]; subst; try congruence; [by left|].
    right. assert (i = id) as -> by congruence. assert (d = c) as -> by congruence. done.
Qed.
End Redeeming.

(** ** What becomes of a use *)

Definition kept_use (r r' : Redemption) : Prop :=
  r' = r \/ (rd_ReleasedAt r = None /\ exists now, r' = Sql.released r now).

Lemma kept_use_trans a b c : kept_use a b -> kept_use b c -> kept_use a c.
Proof. intros [-> | (Ha & n & ->)] [-> | (Hb & m & ->)]; [by left|by right; eauto|by right; eauto|done]. Qed.

Lemma act_keeps_uses t t' k r : RowsOk t -> act t t' -> tb_redemptions t !! k = Some r ->
  exists r', tb_redemptions t' !! k = Some r' /\ kept_use r r'.
Proof.
  intros Hok Ha Hk. destruct Ha as [| | | | | | | |p q now t1 Hl Hs Hg Hn Hr Hrel _ Hp Hch|p q now t1 Hl Hq Hrel Href]; cbn; try (exists r; by split; [|left]).
  - destruct (charge_promotions t p q now t1 Hch) as (_ & -> & _). exists r. split; [|by left].
    rewrite lookup_insert_ne; [done|]. intros E. congruence.
  - destruct (refund_promotions t q now t1 Href) as (_ & -> & _). destruct (decide (rd_ID q = k)) as [<-|Hne].
    + assert (q = r) as -> by congruence. exists (Sql.released r now). split; [apply lookup_insert_eq|]. right. eauto.
    + exists r. split; [by rewrite lookup_insert_ne|by left].
Qed.

Lemma acts_keep_uses t t' k r : RowsOk t -> rtc act t t' -> tb_redemptions t !! k = Some r ->
  exists r', tb_redemptions t' !! k = Some r' /\ kept_use r r'.
Proof.
  intros Hok Ha. revert r. induction Ha as [|a b c Hab _ IH]; intros r Hk; [exists r; by split; [|left]|].
  destruct (act_keeps_uses a b k r Hok Hab Hk) as (r1 & Hk1 & Hu1).
  destruct (IH (rows_act a b Hok Hab) r1 Hk1) as (r2 & Hk2 & Hu2). exists r2. split; [done|]. by eapply kept_use_trans.
Qed.

(** ** A use and its release *)

Definition campaign_as (c c' : Campaign) : Prop := c' = c \/ exists now, c' = touch_campaign now (cp_BudgetUsed c) c.
Definition promotion_as (p p' : Promotion) : Prop :=
  p' = p \/ exists now, p' = touch_promotion now (pr_CampaignID p) (pr_Status p) (pr_UsageCount p) p.

Lemma given_back t p r now t1 t1' p' now' t2 : RowsOk t -> charge t p r now t1 ->
  tb_campaigns t1' = tb_campaigns t1 -> refund t1' r now' t2 ->
  (forall id c, tb_campaigns t !! id = Some c -> exists c', tb_campaigns (put_promotion p' t2) !! id = Some c' /\ campaign_as c c').
Proof.
  intros Hok Hch Ec Href id c Hc. change (tb_campaigns (put_promotion p' t2)) with (tb_campaigns t2).
  destruct Hch as [Hp Hr Hd|i d a Hp Hr Hl Hw Hd Hle Hcur|i d a Hp Hr Hl Hw Hd Hpos Hcur Hroom Hco].
  - destruct Href as [_|? Hx _ _|? ? Hx _ _]; [|congruence..]. rewrite Ec. exists c. split; [done|by left].
  - destruct Href as [_|? _ ? _|? ? _ ? _]; [|lia..]. rewrite Ec. exists c. split; [done|by left].
  - destruct (live_same_campaign t i d Hok Hl) as (Ei & _). pose proof Hl as [Hi Hlive]%live_Some.
    assert (Hn : tb_campaigns t1' !! i = Some (touch_campaign now (cp_BudgetUsed d + rd_BudgetDelta r) d))
      by (rewrite Ec; cbn; rewrite Ei; apply lookup_insert_eq).
    destruct Href as [[Hx|Hx]|j Hx _ Hgone|j d' Hx _ Hl']; [congruence|lia| |].
    + unfold live_campaign, live in Hgone. assert (j = i) as -> by congruence. rewrite Hn in Hgone. cbn in Hgone. by rewrite Hlive in Hgone.
    + assert (j = i) as -> by congruence. apply live_Some in Hl' as [Hl' _]. rewrite Hn in Hl'. injection Hl' as <-.
      cbn. rewrite Ei. destruct (decide (i = id)) as [->|Hne].
      * rewrite lookup_insert_eq. assert (c = d) as -> by congruence. eexists. split; [done|]. right. exists now'.
        replace (Z.max (cp_BudgetUsed d + rd_BudgetDelta r - rd_BudgetDelta r) 0) with (cp_BudgetUsed d); [done|].
        destruct (ro_campaigns t Hok id d Hi) as [_ Hok']. unfold campaign_ok, campaign_checks in Hok'. rewrite !check_violated_cons in Hok'.
        destruct Hok' as (_ & _ & _ & _ & Hn0%Z.leb_le & _). lia.
      * rewrite lookup_insert_ne by done. rewrite Ec. cbn. rewrite Ei, lookup_insert_ne by done. exists c. split; [done|by left].
Qed.

Section Histories.
Context {W : Type} `{!Server W}.






(** C19: the counters follow the ledger. From sound tables, whatever calls follow one another, whatever they
    answer and whichever statements fail on the way, every row keeps its constraints, its keys and its
    references, no two live promotions share a code, no two standing uses a promotion and a reference; and
    the uses a promotion counts are its standing redemptions, the budget a live campaign has used is what
    they took of it, in the budget's unit. *)
Theorem uses_stay_counted (st st' : Served Tables W) (Hs : Sound (sv_tables st)) (Hh : history st st') :
  Sound (sv_tables st').
Proof. eapply acts_sound; [exact Hs|]. apply history_acts; [|done]. by apply Hs. Qed.

(** C32: every call is a sequence of acts, and a call that fails did none. [act] is the account of the
    promotions that says what opens, defines or closes a campaign or a promotion, what a use needs and
    takes, and what a release gives back. *)
Theorem calls_are_acts (c : call) (st : Served Tables W) (Hok : RowsOk (sv_tables st)) :
  match perform c st with
  | (st', Ok _) => rtc act (sv_tables st) (sv_tables st')
  | (st', Fail _) => sv_tables st' = sv_tables st
  end.
Proof.
  destruct (perform c st) as [st' [[]|e]] eqn:E.
  - by eapply (perform_acts (sv_tables st) c Hok st st' tt).
  - by eapply perform_undone.
Qed.

(** C0: the ledger of uses only grows. A redemption stays in it through every history, with its promotion,
    reference, amount, currency and what it took of the budget as written; it can be released, once. *)
Theorem ledger_only_grows (st st' : Served Tables W) k r (Hok : RowsOk (sv_tables st)) (Hh : history st st')
    (Hk : tb_redemptions (sv_tables st) !! k = Some r) :
  exists r', tb_redemptions (sv_tables st') !! k = Some r' /\ kept_use r r'.
Proof. eapply acts_keep_uses; [exact Hok|by apply history_acts|done]. Qed.

(** C20: a use is written exactly when it is allowed. Where the database does not fail and the service has
    checked the request, [Redeem] writes a new use if and only if the promotion is live, active and not used
    up, its campaign, if it has one, is live and open at this moment with a budget that covers the use in
    the use's currency, and no use stands for the reference already. *)
Theorem redeem_iff_allowed (req : Redemption) (now : moment) (st : Served Tables W) (Hq : quiet W)
    (Hok : RowsOk (sv_tables st)) (Hps : presentable (sv_tables st) req) :
  (exists r, (Repo.Redeem req now st).2 = Ok (r, true)) <-> exists p, allowed (sv_tables st) p req now.
Proof.
  split.
  - intros [r Hr]. destruct (Repo.Redeem req now st) as [st' a] eqn:E. cbn in Hr. subst a.
    destruct (gives_Redeem (sv_tables st) req now Hok st st' _ eq_refl E) as (p & Hl & Hg & Hw). exists p. by eapply written_allowed.
  - intros [p Ha]. destruct (does_Redeem (sv_tables st) p req now Hq Hok Hps Ha st eq_refl) as (st' & [r b] & -> & E).
    cbn in E. subst b. by exists r.
Qed.


(** The use that stands is found. *)
Lemma active_found t r : RowsOk t -> tb_redemptions t !! rd_ID r = Some r -> rd_ReleasedAt r = None ->
  Sql.GetActiveRedemption (rd_PromotionID r) (rd_Reference r) t = Some r.
Proof.
  intros Hok Hk Hrel. destruct (Sql.GetActiveRedemption _ _ t) as [q|] eqn:Eg.
  - destruct (active_row t _ _ q Hok Eg) as (Hq & Ep & Er & Hq'). f_equal.
    pose proof (ro_one_use t Hok _ _ q r Hq Hk Hq' Hrel Ep Er) as Ei. rewrite Ei in Hq. congruence.
  - exfalso. by apply (proj1 (head_filter_None _ _) Eg _ r Hk).
Qed.

Lemma promotion_given_back t id p now now' : RowsOk t -> live_promotion t id = Some p ->
  let n := pr_UsageCount p + 1 in
  promotion_as p (touch_promotion now' (pr_CampaignID p) (pr_Status p) (Z.max (n - 1) 0)
    (touch_promotion now (pr_CampaignID p) (pr_Status p) n p)).
Proof.
  intros Hok Hl. right. exists now'. cbn. replace (Z.max _ _) with (pr_UsageCount p); [done|].
  destruct (live_same_promotion t id p Hok Hl) as (_ & Hp & _). unfold promotion_ok, promotion_checks in Hp.
  rewrite !check_violated_cons in Hp. destruct Hp as (_ & _ & _ & Hn%Z.leb_le & _). lia.
Qed.

(** C31: a release gives back what the use took. After a use that was written and its release, every
    promotion and every campaign is what it was before, its counter included and only the moment of its
    last update aside, and the ledger has gained the use, released. *)
Theorem release_restores (req : Redemption) (now now' : moment) (st st1 st2 : Served Tables W) r a
    (Hok : RowsOk (sv_tables st)) (Hr : Repo.Redeem req now st = (st1, Ok (r, true)))
    (Hl : Repo.Release (rd_PromotionID req) (rd_Reference req) now' st1 = (st2, Ok a)) :
  a = Some (Sql.released r (fromTime now')) /\
  tb_redemptions (sv_tables st2) = <[rd_ID r := Sql.released r (fromTime now')]> (tb_redemptions (sv_tables st)) /\
  (forall id p, tb_promotions (sv_tables st) !! id = Some p ->
    exists p', tb_promotions (sv_tables st2) !! id = Some p' /\ promotion_as p p') /\
  (forall id c, tb_campaigns (sv_tables st) !! id = Some c ->
    exists c', tb_campaigns (sv_tables st2) !! id = Some c' /\ campaign_as c c').
Proof.
  destruct (gives_Redeem _ req now Hok st st1 _ eq_refl Hr) as (p & Hp & Hg & Hw). cbn in Hg, Hw.
  pose proof (rows_act _ _ Hok (written_act _ p req r now _ Hp Hg Hw)) as Hok1.
  destruct Hw as [_ Er Hf _ _ _ _ (tc & Hch & E1)].
  assert (Hk : tb_redemptions (sv_tables st1) !! rd_ID r = Some r) by (rewrite E1; apply lookup_insert_eq).
  pose proof (active_found _ r Hok1 Hk ltac:(by rewrite Er)) as Ha.
  destruct (gives_Release _ (rd_PromotionID req) (rd_Reference req) now' Hok1 st1 st2 a eq_refl Hl) as (p2 & Hp2 & H2).
  assert (rd_PromotionID r = rd_PromotionID req /\ rd_Reference r = rd_Reference req) as [Eq1 Eq2] by (by rewrite Er).
  rewrite Eq1, Eq2 in Ha. rewrite Ha in H2. destruct H2 as (-> & t3 & Href & E3).
  destruct (charge_promotions _ p r _ tc Hch) as (Epr & Erd & _). destruct (refund_promotions _ r _ t3 Href) as (Epr3 & Erd3 & _).
  destruct (live_same_promotion _ _ p Hok Hp) as (Ei & _).
  assert (p2 = touch_promotion (fromTime now) (pr_CampaignID p) (pr_Status p) (pr_UsageCount p + 1) p) as ->.
  { apply live_Some in Hp2 as [Hp2 _]. rewrite E1 in Hp2. cbn in Hp2. rewrite Ei, lookup_insert_eq in Hp2. congruence. }
  split; [done|]. rewrite E3. split_and!.
  - cbn. rewrite Erd3, E1. cbn. by rewrite insert_insert_eq, Erd.
  - intros id q Hq. cbn. rewrite Ei, Epr3, E1. cbn. rewrite Ei, Epr, insert_insert_eq. destruct (decide (rd_PromotionID req = id)) as [<-|Hne].
    + rewrite lookup_insert_eq. apply live_Some in Hp as [Hp Hlive]. assert (q = p) as -> by congruence. eexists. split; [done|].
      eapply (promotion_given_back _ (rd_PromotionID req)); [exact Hok|]. by apply live_Some.
    + rewrite lookup_insert_ne by done. exists q. split; [done|by left].
  - eapply given_back; [exact Hok|exact Hch| |exact Href]. by rewrite E1.
Qed.


(** *** What a computation offers *)

Lemma applied_eligible d cs n : d ∈ cr_Applied (computeDiscounts cs n) ->
  exists c, c ∈ cs /\ skipReasonOf c n = None /\ ap_PromotionID d = pr_ID (ca_Promotion c).
Proof.
  unfold computeDiscounts, partitionCandidates. rewrite partition_loop_spec.
  match goal with |- context [apply_all ?el ?a] => pose proof (apply_all_from el a d) as Hfrom; destruct (apply_all el a) as [applied a'] end.
  cbn in *. intros (c & Hc & Hid & _)%Hfrom. apply SortFunc_elem, list_elem_of_filter in Hc as [Hel Hc]. by exists c.
Qed.

(** A candidate of the repository: a live promotion, and its live campaign. *)
Definition candidate_of (t : Tables) (c : PromotionCandidate) : Prop :=
  live_promotion t (pr_ID (ca_Promotion c)) = Some (ca_Promotion c) /\
  forall id g, pr_CampaignID (ca_Promotion c) = Some id -> ca_Campaign c = Some g -> live_campaign t id = Some g.

Lemma gives_candidatesOf t l : RowsOk t -> (forall p, p ∈ l -> live_promotion t (pr_ID p) = Some p) ->
  gives t (Repo.candidatesOf (W := W) l) (fun cs _ => forall c, c ∈ cs -> candidate_of t c).
Proof.
  intros Hok Hl. unfold Repo.candidatesOf. destruct l as [|p l']; [apply sv_gives_ret; by intros c ?%elem_of_nil|]. set (l := p :: l') in *.
  apply sv_gives_bind, gives_query, sv_gives_bind, gives_query, sv_gives_bind.
  assert (Hend : forall methods rules campaigns, (forall g, g ∈ campaigns -> live_campaign t (cp_ID g) = Some g) ->
    gives (W := W) t (mret ((fun p => mkPromotionCandidate p (id ← pr_CampaignID p; head (filter (fun c => cp_ID c = id) campaigns))
        ((methods : gmap string ApplicationMethod) !! pr_ID p)
        (default [] ((rules : gmap string (list PromotionRule)) !! pr_ID p))) <$> l)) (fun cs _ => forall c, c ∈ cs -> candidate_of t c)).
  { intros methods rules campaigns Hg. apply sv_gives_ret. intros c (q & -> & Hq)%list_elem_of_fmap. split; [by apply Hl|]. cbn.
    intros id g -> Eh. cbn in Eh. assert (Hin : g ∈ filter (fun c => cp_ID c = id) campaigns).
    { destruct (filter _ campaigns) as [|y ys]; [done|]. injection Eh as ->. apply list_elem_of_here. }
    apply list_elem_of_filter in Hin as [<- Hin]. by apply Hg. }
  unfold Repo.GetCampaignsByIDs. case_match; [apply sv_gives_ret, Hend; by intros g ?%elem_of_nil|]. apply gives_query, Hend.
  intros g [_ Hg]%list_elem_of_filter. unfold Repo.live_campaigns in Hg. apply SortFunc_elem, list_elem_of_filter in Hg as [Hd Hg].
  apply elem_of_table in Hg as [k Hk]. destruct (ro_campaigns t Hok k g Hk) as [-> _]. by apply live_Some.
Qed.

Lemma candidates_of_repository st codes cs : RowsOk (sv_tables st) -> ListCandidates (repository (W := W) st) codes = Ok cs ->
  forall c, c ∈ cs -> candidate_of (sv_tables st) c.
Proof.
  intros Hok. cbn. destruct (Repo.ListCandidates codes st) as [st' a] eqn:E. cbn. intros ->.
  assert (H : gives (sv_tables st) (Repo.ListCandidates (W := W) codes) (fun cs _ => forall c, c ∈ cs -> candidate_of (sv_tables st) c));
    [|exact (H st st' cs eq_refl E)]. apply sv_gives_bind, gives_query, gives_candidatesOf; [done|].
  intros p Hp. unfold Sql.ListApplicablePromotions in Hp. apply SortFunc_elem, list_elem_of_filter in Hp as [Ha Hp].
  apply elem_of_table in Hp as [k Hk]. destruct (ro_promotions _ Hok k p Hk) as [-> _]. apply live_Some. split; [done|].
  unfold Sql.applicable in Ha. apply andb_true_iff in Ha as [[Ha _]%andb_true_iff _]. by destruct (pr_DeletedAt p).
Qed.

Lemma computed_currency cs n : cr_CurrencyCode (computeDiscounts cs n) = in_CurrencyCode n.
Proof. unfold computeDiscounts. destruct (partitionCandidates cs n) as [el sk]. by destruct (apply_all el _) as [ap a]. Qed.

Lemma normalized_at in_ now n : normalizeComputeInput in_ now = Ok n -> default zero_time (in_At n) = default now (in_At in_).
Proof.
  unfold normalizeComputeInput. intros H. repeat first [case_match; [done|]|match type of H with (?m ≫= _) = _ => destruct m; [cbn in H|done] end].
  by injection H as <-.
Qed.

(** An eligible candidate is allowed a use, its budget's room aside. *)
Lemma eligible_allowed t c n req : RowsOk t -> candidate_of t c -> skipReasonOf c n = None ->
  rd_PromotionID req = pr_ID (ca_Promotion c) -> rd_CurrencyCode req = in_CurrencyCode n ->
  Sql.GetActiveRedemption (rd_PromotionID req) (rd_Reference req) t = None ->
  (forall id g, pr_CampaignID (ca_Promotion c) = Some id -> live_campaign t id = Some g -> has_room g (rd_Amount req)) ->
  allowed t (ca_Promotion c) req (default zero_time (in_At n)).
Proof.
  intros Hok [Hl Hc] Hs Ei Ecur Hg Hroom. unfold skipReasonOf in Hs. destruct (bool_decide (pr_Status _ = _)) eqn:E1; [|done]. cbn [negb] in Hs.
  destruct (negb (PromotionType_Valid _)); [done|]. destruct (ca_Method c); [|done]. destruct (negb (mechanicMatchesMethod _ _)); [done|].
  destruct (UsageExhausted _) eqn:E2; [done|]. destruct (_ && _) in Hs; [done|]. destruct (campaignUsable c _) eqn:E3; [|done]. cbn [negb] in Hs.
  destruct (campaignBudgetCurrencyMatches c _) eqn:E4; [|done]. constructor; [by rewrite Ei|done|by apply bool_decide_eq_true in E1|done|].
  intros id Ec. unfold campaignUsable in E3. rewrite Ec in E3. unfold campaignBudgetCurrencyMatches in E4.
  destruct (ca_Campaign c) as [g|] eqn:Eg; [|done]. apply andb_true_iff in E3 as [Hw _]. exists g. split_and!; [by apply Hc|done| |].
  - intros Hb. rewrite (bool_decide_eq_true_2 _ Hb) in E4. cbn in E4. rewrite Ecur. by apply bool_decide_eq_true in E4.
  - apply (Hroom id g Ec). by apply Hc.
Qed.

(** C21: what a computation offers can be redeemed. Where the database does not fail, every promotion
    [ComputeDiscounts] applies to a cart can be redeemed at the moment and in the currency of the computation,
    once for each new reference, for whatever amount the budget of its campaign still covers. *)
Theorem offered_can_be_redeemed (in_ : ComputeInput) (now : moment) (st : Served Tables W) res d (req : Redemption)
    (Hq : quiet W) (Hok : RowsOk (sv_tables st)) (Hres : ComputeDiscounts (repository st) in_ now = Ok res)
    (Hd : d ∈ cr_Applied res) (Hps : presentable (sv_tables st) req)
    (Hreq : rd_PromotionID req = ap_PromotionID d /\ rd_CurrencyCode req = cr_CurrencyCode res)
    (Hnew : Sql.GetActiveRedemption (rd_PromotionID req) (rd_Reference req) (sv_tables st) = None)
    (Hroom : forall p id g, live_promotion (sv_tables st) (rd_PromotionID req) = Some p -> pr_CampaignID p = Some id ->
      live_campaign (sv_tables st) id = Some g -> has_room g (rd_Amount req)) :
  exists r, (Repo.Redeem req (default now (in_At in_)) st).2 = Ok (r, true).
Proof.
  destruct Hreq as [Ei Ecur]. unfold ComputeDiscounts in Hres. destruct (normalizeComputeInput in_ now) as [n|] eqn:En; [|done]. cbn [mbind result_bind] in Hres.
  destruct (ListCandidates _ _) as [cs|] eqn:Ecs; [|done]. injection Hres as <-.
  destruct (applied_eligible d cs n Hd) as (c & Hc & Hs & Ed). pose proof (candidates_of_repository st _ cs Hok Ecs c Hc) as Hcand.
  assert (Ha : allowed (sv_tables st) (ca_Promotion c) req (default zero_time (in_At n))).
  { apply eligible_allowed; try done; [congruence|by rewrite Ecur, computed_currency|]. intros id g. apply Hroom. rewrite Ei, Ed. by apply Hcand. }
  rewrite (normalized_at _ _ _ En) in Ha.
  destruct (does_Redeem _ _ req _ Hq Hok Hps Ha st eq_refl) as (st' & [r b] & -> & E). cbn in E. subst b. by exists r.
Qed.

End Histories.

(** ** An example *)

Module Stall.

(** A database that does not fail, a clock that ticks by seconds, and random bytes that count. *)
#[local] Instance calm : Server Z := {|
  sv_fault := fun _ w => (w, None);
  sv_refusal := fun state constraint => Sentinel (String.append state constraint);
  sv_clock := fun w => (w + 1, 1700000000000000000 + w * 1000000000);
  sv_random := fun w => (w + 1, Some (repeat (w mod 256) 10))
|}.

Definition then_ (st : Served Tables Z) (c : call) : Served Tables Z := (perform c st).1.

Definition opened : Served Tables Z := then_ (mkServed emptyTables 0)
  (CallCreateCampaign (mkCampaignInput "Autumn" "autumn" EmptyString None None BudgetSpend (Some 1000) "EUR")).

Definition campaign : string := default EmptyString (cp_ID <$> head (rows (tb_campaigns (sv_tables opened)))).

Definition offered : Served Tables Z := then_ opened
  (CallCreatePromotion (mkPromotionInput "TENOFF" true PromotionStandard (Some campaign) PromotionActive (Some 2) [])).

Definition promotion : string := default EmptyString (pr_ID <$> head (rows (tb_promotions (sv_tables offered)))).

Definition priced : Served Tables Z := then_ offered
  (CallSetApplicationMethod promotion (mkApplicationMethodInput MethodPercentage TargetItems AllocationAcross 1000 None None None EmptyString)).

Definition first_use : RedeemInput := mkRedeemInput promotion EmptyString "order_1" 700 "eur".

Definition used : Served Tables Z := then_ priced (CallRedeemPromotion first_use).
Definition pause : call := CallSwitchPromotionStatus promotion PromotionActive PromotionInactive.


Definition no_use : Redemption := mkRedemption EmptyString EmptyString None EmptyString 0 EmptyString 0 0 0 None.
Definition use : Redemption := match (RedeemPromotion first_use priced).2 with Ok r => r | Fail _ => no_use end.

(** A request as the service hands it on. *)
Definition request (reference : string) (amount : Z) : Redemption :=
  mkRedemption (String.append "predeem_" reference) promotion None reference amount "EUR" 0 0 0 None.

Definition noon : moment := 1700000000000000000.

Definition ComputeCart : ComputeInput :=
  mkComputeInput "EUR" ∅ ∅ [mkComputeItem "line" 2000 1000 2 ∅ ∅] [] [] (Some noon).

Definition answer : ComputeResult :=
  match ComputeDiscounts (repository priced) ComputeCart 0 with Ok r => r | Fail _ => empty_result end.

Lemma quiet_calm : quiet Z.
Proof. done. Qed.

Lemma then_history st c : history st (then_ st c).
Proof. apply rtc_once. apply (happened c). Qed.

Lemma history_used : history (mkServed emptyTables 0) used.
Proof. repeat (etrans; [|apply then_history]). done. Qed.

Lemma sound_from_empty w st : history (mkServed emptyTables w) st -> Sound (sv_tables st).
Proof. intros H. eapply acts_sound; [apply sound_empty|]. apply (history_acts (mkServed emptyTables w)); [apply sound_empty|done]. Qed.

Lemma priced_ok : RowsOk (sv_tables priced).
Proof. apply (sound_from_empty 0). repeat (etrans; [|apply then_history]). done. Qed.

(** What is asked of the counters, decided row by row. *)
Definition counters_low (t : Tables) : bool :=
  forallb (fun p => pr_UsageCount p <? int64_max) (rows (tb_promotions t)) &&
  forallb (fun c => cp_BudgetUsed c <=? int64_max - MaxAmount) (rows (tb_campaigns t)).

Lemma request_presentable t reference amount : 0 <= amount <= MaxAmount -> reference <> EmptyString ->
  tb_redemptions t !! rd_ID (request reference amount) = None -> counters_low t = true -> presentable t (request reference amount).
Proof.
  intros Ha Hr Hf [Hp Hc]%andb_true_iff. rewrite forallb_forall in Hp, Hc. constructor; try done.
  - intros id p [Hk _]%live_Some. apply Z.ltb_lt, Hp, list_elem_of_In, elem_of_table. by exists id.
  - intros id c [Hk _]%live_Some. apply Z.leb_le, Hc, list_elem_of_In, elem_of_table. by exists id.
Qed.

Lemma second_presentable : presentable (sv_tables priced) (request "order_2" 200).
Proof. apply request_presentable; [done|done|by vm_compute|by vm_compute]. Qed.

Lemma answered_as {A} (m : tx (Served Tables Z) A) st r : (m st).2 = r -> m st = ((m st).1, r).
Proof. intros <-. by destruct (m st). Qed.
End Stall.

Import Stall.
#[local] Existing Instance calm.

Lemma uses_stay_counted_witness :
  Sound (sv_tables used) /\ spent campaign (sv_tables used) = 700 /\ uses promotion (sv_tables used) = 1.
Proof.
  split; [|by vm_compute]. apply (uses_stay_counted (mkServed emptyTables 0)); [apply sound_empty|apply history_used].
Defined.

Lemma calls_are_acts_witness : rtc act (sv_tables priced) (sv_tables used) /\ uses promotion (sv_tables priced) = 0.
Proof.
  split; [|by vm_compute]. pose proof (calls_are_acts (CallRedeemPromotion first_use) priced priced_ok) as H.
  rewrite (answered_as _ priced (Ok tt)) in H by (by vm_compute). exact H.
Defined.

Lemma ledger_only_grows_witness :
  exists r', tb_redemptions (sv_tables (then_ used pause)) !! rd_ID use = Some r' /\ kept_use use r'.
Proof.
  apply (ledger_only_grows used (then_ used pause)); [apply (sound_from_empty 0), history_used|apply then_history|by vm_compute].
Defined.

Lemma redeem_iff_allowed_witness : exists p, allowed (sv_tables priced) p (request "order_2" 200) noon.
Proof.
  apply (redeem_iff_allowed (request "order_2" 200) noon priced); [apply quiet_calm|apply priced_ok|apply second_presentable|].
  eexists. vm_compute. reflexivity.
Defined.


Lemma release_restores_witness :
  exists p', tb_promotions (sv_tables (Repo.Release promotion "order_2" noon (Repo.Redeem (request "order_2" 200) noon priced).1).1)
    !! promotion = Some p' /\ pr_UsageCount p' = 0.
Proof.
  destruct (release_restores (request "order_2" 200) noon noon priced (Repo.Redeem (request "order_2" 200) noon priced).1
    (Repo.Release promotion "order_2" noon (Repo.Redeem (request "order_2" 200) noon priced).1).1
    (match (Repo.Redeem (request "order_2" 200) noon priced).2 with Ok a => a.1 | Fail _ => no_use end)
    (match (Repo.Release promotion "order_2" noon (Repo.Redeem (request "order_2" 200) noon priced).1).2 with Ok a => a | Fail _ => None end))
    as (_ & _ & Hp & _); [apply priced_ok|apply answered_as; by vm_compute|apply answered_as; by vm_compute|].
  destruct (tb_promotions (sv_tables priced) !! promotion) as [p|] eqn:E; [|by vm_compute in E].
  destruct (Hp promotion p E) as (p' & Hp' & Has). exists p'. split; [exact Hp'|].
  assert (pr_UsageCount p = 0) as Hz by (apply (f_equal (fmap pr_UsageCount)) in E; cbn in E; by vm_compute in E; injection E).
  by destruct Has as [-> | [? ->]].
Defined.

Lemma offered_can_be_redeemed_witness : exists r, (Repo.Redeem (request "order_2" 200) noon priced).2 = Ok (r, true).
Proof.
  destruct (head (cr_Applied answer)) as [d|] eqn:Ed; [|by vm_compute in Ed].
  apply (offered_can_be_redeemed ComputeCart 0 priced answer d (request "order_2" 200));
    [apply quiet_calm|apply priced_ok|by vm_compute| |apply second_presentable| |by vm_compute|].
  - destruct (cr_Applied answer); [done|]. injection Ed as ->. apply list_elem_of_here.
  - assert (ap_PromotionID <$> head (cr_Applied answer) = Some promotion) as Hi by (by vm_compute).
    rewrite Ed in Hi. apply (inj Some) in Hi. split; [symmetry; exact Hi|vm_compute; reflexivity].
  - intros p id g Hp Hi Hg. right. intros l Hl.
    assert ((p ← live_promotion (sv_tables priced) promotion; id ← pr_CampaignID p; g ← live_campaign (sv_tables priced) id;
      l ← cp_BudgetLimit g; Some (cp_BudgetUsed g + BudgetDeltaFor g 200 <=? l)) = Some true) as H by (by vm_compute).
    change (live_promotion (sv_tables priced) promotion = Some p) in Hp. rewrite Hp in H. cbn [mbind option_bind] in H. rewrite Hi in H. cbn [mbind option_bind] in H.
    rewrite Hg in H. cbn [mbind option_bind] in H. rewrite Hl in H. cbn [mbind option_bind] in H.
    apply (inj Some) in H. apply Z.leb_le. exact H.
Defined.
