(* ===== verification/TaxModels.v ===== *)
(** * Tax arithmetic, and the rows and checks of the tax tables

    [internal/modules/tax/service/money.go]: sums, the tax on a base and the tax inside a gross
    amount, all on [int64] minor units and integer basis points. The lemmas say that no step
    overflows and what is returned is the exact value rounded down. *)
From S2P Require Import Prelude GoText Errors.

Definition CodeInvalidInput : string := "tax_invalid_input".
Definition CodeUnconfigured : string := "tax_service_unconfigured".
Definition CodeDefaultExists : string := "tax_default_rate_exists".
Definition CodeRateOutOfRange : string := "tax_rate_out_of_range".
Definition CodeAmountOverflow : string := "tax_amount_overflow".
Definition CodeInconsistentConfig : string := "tax_inconsistent_config".
Definition CodeStackExceedsBase : string := "tax_stack_exceeds_base".
Definition CodeStackNotAllowed : string := "tax_stack_not_allowed".
Definition CodeProviderExists : string := "tax_provider_exists".
Definition CodeProviderNotFound : string := "tax_provider_not_found".
Definition CodeProviderMisconfigured : string := "tax_provider_misconfigured".
Definition CodeProviderInvalidResult : string := "tax_provider_invalid_result".

Definition MinRateBps : Z := 0.
Definition MaxRateBps : Z := 10000.

Definition MaxTaxableAmount : Z := 1000000000000000000.
Definition MaxItems : Z := 1000.
Definition BpsScale : Z := 10000.

Definition addAmount (a b : Z) : result Z :=
  if (a <? 0) || (b <? 0) then
    Fail (Internal CodeAmountOverflow "amounts cannot be negative: %d + %d" [AInt a; AInt b])
  else if MaxTaxableAmount -₆₄ b <? a then
    Fail (Invalid CodeAmountOverflow "the sum of amounts exceeds the bound: %d + %d > %d"
      [AInt a; AInt b; AInt MaxTaxableAmount])
  else Ok (a +₆₄ b).

(** The range check both computations start with. *)
Definition rate_refused (rateBps : Z) : option err :=
  if (rateBps <? MinRateBps) || (MaxRateBps <? rateBps) then
    Some (Internal CodeRateOutOfRange
      "the tax rate has to be within [%d, %d] basis points, %d was reported"
      [AInt MinRateBps; AInt MaxRateBps; AInt rateBps])
  else None.

Definition TaxIncludedIn (gross rateBps : Z) : result Z :=
  if gross <? 0 then
    Fail (Internal CodeAmountOverflow "the gross amount cannot be negative: %d" [AInt gross])
  else if MaxTaxableAmount <? gross then
    Fail (Invalid CodeAmountOverflow "the gross amount exceeds the bound: %d > %d"
      [AInt gross; AInt MaxTaxableAmount])
  else check rate_refused rateBps ;;
  if (gross =? 0) || (rateBps =? 0) then Ok 0
  else
    let rate := rateBps in
    let divisor := BpsScale +₆₄ rate in
    let whole := div64 gross divisor *₆₄ rate in
    let remainder := div64 (rem64 gross divisor *₆₄ rate) divisor in
    Ok (whole +₆₄ remainder).

Definition TaxOf (base rateBps : Z) : result Z :=
  if base <? 0 then
    Fail (Internal CodeAmountOverflow "the tax base cannot be negative: %d" [AInt base])
  else if MaxTaxableAmount <? base then
    Fail (Invalid CodeAmountOverflow "the tax base exceeds the bound: %d > %d"
      [AInt base; AInt MaxTaxableAmount])
  else check rate_refused rateBps ;;
  if (base =? 0) || (rateBps =? 0) then Ok 0
  else
    let rate := rateBps in
    let whole := div64 base BpsScale *₆₄ rate in
    let remainder := div64 (rem64 base BpsScale *₆₄ rate) BpsScale in
    Ok (whole +₆₄ remainder).

Definition checkTaxableAmount (label : string) (value : Z) : option err :=
  if value <? 0 then
    Some (Invalid CodeInvalidInput "%s cannot be negative: %d" [AStr label; AInt value])
  else if MaxTaxableAmount <? value then
    Some (Invalid CodeAmountOverflow "%s can be at most %d: %d"
      [AStr label; AInt MaxTaxableAmount; AInt value])
  else None.

(** ** What they compute *)

Definition amount_ok (z : Z) : Prop := 0 <= z <= MaxTaxableAmount.
Definition rate_ok (z : Z) : Prop := MinRateBps <= z <= MaxRateBps.

#[export] Instance amount_ok_dec z : Decision (amount_ok z).
Proof. unfold amount_ok. apply _. Defined.
#[export] Instance rate_ok_dec z : Decision (rate_ok z).
Proof. unfold rate_ok. apply _. Defined.

Ltac tax_bounds :=
  unfold amount_ok, rate_ok, MinRateBps, MaxRateBps, MaxTaxableAmount, BpsScale,
    in_int64, int64_min, int64_max in *.

Lemma addAmount_Ok a b c :
  b <= int64_max ->
  addAmount a b = Ok c <-> 0 <= a /\ 0 <= b /\ a + b <= MaxTaxableAmount /\ c = a + b.
Proof.
  unfold addAmount. intros Hb. split.
  - intros H. destruct (_ || _) eqn:E1 in H; [done|]. reflect_bools.
    destruct (_ <? _) eqn:E2 in H; [done|]. injection H as <-. reflect_bools.
    rewrite sub64_exact in E2 by (tax_bounds; lia). rewrite add64_exact by (tax_bounds; lia). lia.
  - intros (Ha & Hb' & Hs & ->).
    rewrite sub64_exact by (tax_bounds; lia). rewrite add64_exact by (tax_bounds; lia).
    rewrite !(proj2 (Z.ltb_ge _ _)) by lia. done.
Qed.

Lemma rate_refused_None r : rate_refused r = None <-> rate_ok r.
Proof.
  unfold rate_refused, rate_ok. destruct (_ || _) eqn:E; split; try done.
  - apply orb_true_iff in E as [E|E]; reflect_bools; lia.
  - reflect_bools. lia.
Qed.

Lemma checkTaxableAmount_None label z : checkTaxableAmount label z = None <-> amount_ok z.
Proof. unfold checkTaxableAmount, amount_ok. split_matches; split; (done || lia). Qed.

(** The quotient of a product, taken apart so that no intermediate product leaves [int64]. *)
Lemma split_quotient a r d :
  0 <= a <= MaxTaxableAmount -> 0 <= r <= MaxRateBps -> r <= d -> BpsScale <= d <= 2 * BpsScale ->
  (div64 a d *₆₄ r) +₆₄ div64 (rem64 a d *₆₄ r) d = a * r / d.
Proof.
  intros Ha Hr Hrd Hd. tax_bounds.
  rewrite div64_exact, rem64_exact by (unfold int64_max; lia).
  pose proof (Z.mod_pos_bound a d ltac:(lia)). pose proof (Z.div_mod a d ltac:(lia)) as Hdm.
  assert (0 <= a / d) by (apply Z.div_pos; lia).
  assert (a / d * r <= a) by nia.
  assert (a mod d * r <= 20000 * 10000) by nia.
  rewrite (mul64_exact (a mod d)) by in64.
  rewrite div64_exact by (unfold int64_max; lia).
  assert (0 <= a mod d * r / d <= a mod d * r).
  { split; [apply Z.div_pos; nia|apply Z.div_le_upper_bound; nia]. }
  rewrite mul64_exact by in64. rewrite add64_exact by in64.
  rewrite Hdm at 3. replace ((d * (a / d) + a mod d) * r) with (a mod d * r + a / d * r * d) by ring.
  rewrite Z.div_add by lia. lia.
Qed.

Lemma TaxOf_Ok base rate tax :
  TaxOf base rate = Ok tax <-> amount_ok base /\ rate_ok rate /\ tax = base * rate / BpsScale.
Proof.
  unfold TaxOf. split.
  - intros H. destruct (base <? 0) eqn:E1; [done|]. destruct (MaxTaxableAmount <? base) eqn:E2; [done|].
    destruct (rate_refused rate) eqn:E3; [done|]. apply rate_refused_None in E3. reflect_bools.
    simpl in H. split; [done|]. split; [done|].
    destruct (_ || _) eqn:E4 in H; injection H as <-.
    + apply orb_true_iff in E4 as [->%Z.eqb_eq| ->%Z.eqb_eq]; [done|]. by rewrite Z.mul_0_r.
    + apply split_quotient; tax_bounds; lia.
  - intros (Hb & Hr & ->). rewrite !(proj2 (Z.ltb_ge _ _)) by (unfold amount_ok in *; lia).
    rewrite (proj2 (rate_refused_None rate)) by done. simpl.
    destruct (_ || _) eqn:E4.
    + apply orb_true_iff in E4 as [->%Z.eqb_eq| ->%Z.eqb_eq]; [done|]. by rewrite Z.mul_0_r.
    + f_equal. apply split_quotient; tax_bounds; lia.
Qed.

Lemma TaxIncludedIn_Ok gross rate tax :
  TaxIncludedIn gross rate = Ok tax <->
  amount_ok gross /\ rate_ok rate /\ tax = gross * rate / (BpsScale + rate).
Proof.
  unfold TaxIncludedIn. split.
  - intros H. destruct (gross <? 0) eqn:E1; [done|].
    destruct (MaxTaxableAmount <? gross) eqn:E2; [done|].
    destruct (rate_refused rate) eqn:E3; [done|]. apply rate_refused_None in E3. reflect_bools.
    simpl in H. split; [done|]. split; [done|].
    rewrite (add64_exact BpsScale) in H by (tax_bounds; lia).
    destruct (_ || _) eqn:E4 in H; injection H as <-.
    + apply orb_true_iff in E4 as [->%Z.eqb_eq| ->%Z.eqb_eq]; [done|]. by rewrite Z.mul_0_r.
    + apply split_quotient; tax_bounds; lia.
  - intros (Hb & Hr & ->). rewrite !(proj2 (Z.ltb_ge _ _)) by (unfold amount_ok in *; lia).
    rewrite (proj2 (rate_refused_None rate)) by done. simpl.
    rewrite (add64_exact BpsScale) by (tax_bounds; lia).
    destruct (_ || _) eqn:E4.
    + apply orb_true_iff in E4 as [->%Z.eqb_eq| ->%Z.eqb_eq]; [done|]. by rewrite Z.mul_0_r.
    + f_equal. apply split_quotient; tax_bounds; lia.
Qed.

Lemma tax_floor_bounds base rate :
  amount_ok base -> rate_ok rate -> 0 <= base * rate / BpsScale <= base.
Proof.
  intros Hb Hr. tax_bounds. split; [apply Z.div_pos; nia|apply Z.div_le_upper_bound; nia].
Qed.

Lemma included_floor_bounds gross rate :
  amount_ok gross -> rate_ok rate -> 0 <= gross * rate / (BpsScale + rate) <= gross.
Proof.
  intros Hb Hr. tax_bounds. split; [apply Z.div_pos; nia|apply Z.div_le_upper_bound; nia].
Qed.

(** * Tax rows and input checks

    [internal/modules/tax/models/models.go] and [internal/modules/tax/service/validate.go]: regions,
    rates, rules, and what the service accepts of them. A rate of 18.25 percent is 1825 basis
    points. [Metadata] is free JSON no operation looks into; a value of it is its JSON text. *)

Definition CountryCodeLength : Z := 2.
Definition MaxProvinceCodeLength : Z := 10.

Definition metadata := option (gmap string string).

Inductive RuleReference :=
  ReferenceProduct | ReferenceTaxClass | ReferenceProductType | ReferenceShippingOption
  | ReferenceOther (text : string).

#[export] Instance RuleReference_eq_dec : EqDecision RuleReference.
Proof. solve_decision. Defined.

Definition RuleReference_Valid (r : RuleReference) : bool :=
  match r with ReferenceOther _ => false | _ => true end.

(** How specific a rule is; the most specific matching rule picks the rate. *)
Definition Specificity (r : RuleReference) : Z :=
  match r with
  | ReferenceProduct => 3
  | ReferenceTaxClass => 2
  | ReferenceProductType | ReferenceShippingOption => 1
  | ReferenceOther _ => 0
  end.

Record TaxRegion := mkTaxRegion {
  rg_ID : string;
  rg_CountryCode : string;
  rg_ProvinceCode : option string;
  rg_ParentID : option string;
  rg_ProviderID : string;
  rg_PricesIncludeTax : option bool;
  rg_Metadata : metadata;
  rg_CreatedAt : moment;
  rg_UpdatedAt : moment;
  rg_DeletedAt : option moment
}.

Definition IsRoot (r : TaxRegion) : bool := bool_decide (rg_ParentID r = None).

Record TaxRate := mkTaxRate {
  tr_ID : string;
  tr_TaxRegionID : string;
  tr_Name : string;
  tr_Code : option string;
  tr_RateBps : Z;
  tr_IsDefault : bool;
  tr_StacksOnID : option string;
  tr_Compound : bool;
  tr_Metadata : metadata;
  tr_CreatedAt : moment;
  tr_UpdatedAt : moment;
  tr_DeletedAt : option moment
}.

#[export] Instance TaxRate_eq_dec : EqDecision TaxRate.
Proof. solve_decision. Defined.

(** [models.TaxRate{}] with a value and the compound mark. *)
Definition bare_rate (rateBps : Z) (compound : bool) : TaxRate :=
  mkTaxRate EmptyString EmptyString EmptyString None rateBps false None compound None
    zero_time zero_time None.

Record TaxRatePatch := mkTaxRatePatch {
  pa_Name : option string;
  pa_Code : option string;
  pa_RateBps : option Z;
  pa_IsDefault : option bool;
  pa_Metadata : metadata
}.

Definition Empty (p : TaxRatePatch) : bool :=
  match p with mkTaxRatePatch None None None None None => true | _ => false end.

Definition Patched (r : TaxRate) (p : TaxRatePatch) : TaxRate :=
  mkTaxRate (tr_ID r) (tr_TaxRegionID r) (default (tr_Name r) (pa_Name p))
    (match pa_Code p with
     | Some code => if bool_decide (code = EmptyString) then None else Some code
     | None => tr_Code r
     end)
    (default (tr_RateBps r) (pa_RateBps p)) (default (tr_IsDefault r) (pa_IsDefault p))
    (tr_StacksOnID r) (tr_Compound r)
    (match pa_Metadata p with Some m => Some m | None => tr_Metadata r end)
    (tr_CreatedAt r) (tr_UpdatedAt r) (tr_DeletedAt r).

Record TaxRateTerms := mkTaxRateTerms { te_Name : string; te_RateBps : Z }.

Record TaxRateRule := mkTaxRateRule {
  rr_ID : string;
  rr_TaxRateID : string;
  rr_Reference : RuleReference;
  rr_ReferenceID : string;
  rr_CreatedAt : moment;
  rr_UpdatedAt : moment;
  rr_DeletedAt : option moment
}.

(** ** Input checks *)

Definition maxNameLen : Z := 255.
Definition maxCodeLen : Z := 64.
Definition maxIDLen : Z := 255.

Definition TaxRegionIDPrefix : string := "taxreg_".
Definition TaxRateIDPrefix : string := "taxrate_".

Definition is_letter (c : Z) : bool := is_upper c || is_lower c.

Definition NormalizeCountryCode (code : string) : result string :=
  let trimmed := TrimSpace code in
  if negb (Z.of_nat (length (runes trimmed)) =? CountryCodeLength) then
    Fail (Invalid CodeInvalidInput
      "the country code has to be exactly %d letters (ISO 3166-1 alpha-2), %q was given"
      [AInt CountryCodeLength; AStr code])
  else if negb (forallb (ascii_rune is_letter) (runes trimmed)) then
    Fail (Invalid CodeInvalidInput
      "the country code can only contain ASCII letters (ISO 3166-1 alpha-2), %q was given"
      [AStr code])
  else Ok (ToUpper trimmed).

Definition province_rune (first : bool) (r : list Z) : bool :=
  ascii_rune (fun c => is_letter c || is_digit c || ((c =? 45) && negb first)) r.

Definition NormalizeProvinceCode (code : string) : result string :=
  let trimmed := TrimSpace code in
  if bool_decide (trimmed = EmptyString) then Ok EmptyString
  else
    let rs := runes trimmed in
    if MaxProvinceCodeLength <? Z.of_nat (length rs) then
      Fail (Invalid CodeInvalidInput "the province code can be at most %d characters, %q was given"
        [AInt MaxProvinceCodeLength; AStr code])
    else if negb (match rs with
                  | r :: rest => province_rune true r && forallb (province_rune false) rest
                  | [] => true
                  end) then
      Fail (Invalid CodeInvalidInput
        "the province code can contain ASCII letters, digits and hyphens and cannot start with a hyphen, %q was given"
        [AStr code])
    else Ok (ToUpper trimmed).

Definition normalizeName (name : string) : result string :=
  let trimmed := TrimSpace name in
  if bool_decide (trimmed = EmptyString) then
    Fail (Invalid CodeInvalidInput "the tax rate name cannot be empty" [])
  else if maxNameLen <? len trimmed then
    Fail (Invalid CodeInvalidInput
      "the tax rate name can be at most %d bytes, %d bytes were given"
      [AInt maxNameLen; AInt (len trimmed)])
  else if existsb IsControl (runes trimmed) then
    Fail (Invalid CodeInvalidInput "the tax rate name cannot contain control characters" [])
  else Ok trimmed.

Definition normalizeCode (code : string) : result string :=
  let trimmed := TrimSpace code in
  if bool_decide (trimmed = EmptyString) then Ok EmptyString
  else if maxCodeLen <? len trimmed then
    Fail (Invalid CodeInvalidInput
      "the tax rate code can be at most %d bytes, %d bytes were given"
      [AInt maxCodeLen; AInt (len trimmed)])
  else if existsb (fun r => IsControl r || IsSpace r) (runes trimmed) then
    Fail (Invalid CodeInvalidInput
      "the tax rate code cannot contain whitespace or control characters: %q" [AStr code])
  else Ok trimmed.

Definition validateRateBps (rateBps : Z) : option err :=
  if rateBps <? MinRateBps then
    Some (Invalid CodeInvalidInput "the tax rate cannot be negative, %d was given (basis points)"
      [AInt rateBps])
  else if MaxRateBps <? rateBps then
    Some (Invalid CodeInvalidInput
      "the tax rate can be at most %d basis points (100%%), %d was given"
      [AInt MaxRateBps; AInt rateBps])
  else None.

Definition requireID (id prefix label : string) : option err :=
  if bool_decide (id = EmptyString) then
    Some (Invalid CodeInvalidInput "%s cannot be empty" [AStr label])
  else if negb (bool_decide (TrimSpace id = id)) then
    Some (Invalid CodeInvalidInput "%s cannot contain leading/trailing whitespace: %q"
      [AStr label; AStr id])
  else if maxIDLen <? len id then
    Some (Invalid CodeInvalidInput "%s can be at most %d bytes, %d bytes were given"
      [AStr label; AInt maxIDLen; AInt (len id)])
  else if negb (HasPrefix id prefix) then
    Some (Invalid CodeInvalidInput "%s has to start with the %q prefix, %q was given"
      [AStr label; AStr prefix; AStr id])
  else None.

Lemma validateRateBps_None r : validateRateBps r = None <-> rate_ok r.
Proof. unfold validateRateBps, rate_ok. split_matches; split; (done || lia). Qed.
