(* ===== verification/TaxRates.v ===== *)
(** * The local tax provider: [internal/modules/tax/service/local.go] and [component.go]

    The rate table of a calculation, the selection of a rate for a line, the stack of rates that
    stand on it, and the tax of the line. The provider contract ([taxprovider.go]) is the record
    [TaxProvider] with the registry of providers. *)
From S2P Require Import Prelude GoText Errors TaxModels.

Definition ShippingLineID : string := "_shipping".
Definition LocalProviderID : string := "local".

(** ** The data of a calculation *)

Record TaxableItem := mkTaxableItem {
  ti_ID : string;
  ti_ProductID : string;
  ti_ProductTypeID : string;
  ti_TaxClassID : string;
  ti_Amount : Z
}.

Record ShippingInput := mkShippingInput {
  sh_OptionID : string;
  sh_Amount : Z;
  sh_Taxable : bool
}.

Record TaxComponent := mkTaxComponent {
  tc_RateID : string;
  tc_RateBps : Z;
  tc_Compound : bool;
  tc_TaxableAmount : Z;
  tc_TaxAmount : Z
}.

Record ProviderInput := mkProviderInput {
  pi_RegionIDs : list string;
  pi_CountryCode : string;
  pi_ProvinceCode : string;
  pi_Items : list TaxableItem;
  pi_Shipping : ShippingInput;
  pi_PricesIncludeTax : bool
}.

Record ProviderItemTax := mkProviderItemTax {
  pt_ID : string;
  pt_RateID : string;
  pt_RateBps : Z;
  pt_TaxAmount : Z;
  pt_TaxableAmount : Z;
  pt_Components : list TaxComponent
}.

Record ProviderResult := mkProviderResult {
  pr_Items : list ProviderItemTax;
  pr_Shipping : ProviderItemTax
}.

(** A line no rate applies to. *)
Definition untaxed (id : string) (amount : Z) : ProviderItemTax :=
  mkProviderItemTax id EmptyString 0 0 amount [].

(** ** Providers *)

Record TaxProvider := mkTaxProvider {
  prov_ID : string;
  prov_Calculate : ProviderInput -> result ProviderResult
}.

Definition ProviderRegistry := gmap string TaxProvider.

Definition NewProviderRegistry : ProviderRegistry := ∅.

Definition Register (p : option TaxProvider) (r : ProviderRegistry) :
    ProviderRegistry * option err :=
  match p with
  | None => (r, Some (Invalid CodeInvalidInput "the provider cannot be nil" []))
  | Some p =>
      let id := TrimSpace (prov_ID p) in
      if bool_decide (id = EmptyString) then
        (r, Some (Invalid CodeInvalidInput "the provider id cannot be empty" []))
      else if bool_decide (is_Some (r !! id)) then
        (r, Some (Conflict CodeProviderExists
                    "a tax provider with the id %q is already registered" [AStr id]))
      else (<[id := p]> r, None)
  end.

Definition sortedIDs (r : ProviderRegistry) : list string :=
  SortFunc cmpS (map_to_list r).*1.

Definition join_comma (l : list string) : string := String.concat ", " l.

Definition registry_Get (id : string) (r : ProviderRegistry) : result TaxProvider :=
  let wanted := TrimSpace id in
  let wanted := if bool_decide (wanted = EmptyString) then LocalProviderID else wanted in
  match r !! wanted with
  | Some p => Ok p
  | None =>
      Fail (NotFound CodeProviderNotFound
        "the tax provider %q is not registered; the registered ones are: %s"
        [AStr wanted; AStr (join_comma (sortedIDs r))])
  end.

(** ** Match keys *)

Definition matchKey := (RuleReference * string)%type.

Definition key_if (reference : RuleReference) (id : string) : list matchKey :=
  if bool_decide (id = EmptyString) then [] else [(reference, id)].

Definition itemKeys (item : TaxableItem) : list matchKey :=
  key_if ReferenceProduct (ti_ProductID item) ++ key_if ReferenceTaxClass (ti_TaxClassID item) ++
  key_if ReferenceProductType (ti_ProductTypeID item).

Definition shippingKeys (shipping : ShippingInput) : list matchKey :=
  key_if ReferenceShippingOption (sh_OptionID shipping).

(** ** The rate table *)

Record ruledRate := mkRuledRate { rl_rate : TaxRate; rl_rules : list TaxRateRule }.

Record rateTable := mkRateTable {
  rt_chain : list string;
  rt_ruled : gmap string (list ruledRate);
  rt_fallback : gmap string TaxRate;
  rt_standing : gmap string TaxRate
}.

(** [m[k] = append(m[k], v)]. *)
Definition map_append {V} (k : string) (v : V) (m : gmap string (list V)) : gmap string (list V) :=
  <[k := default [] (m !! k) ++ [v]]> m.

Definition str_lt (a b : string) : bool := cmpS a b <? 0.

(** [if existing, ok := m[k]; !ok || rate.ID < existing.ID { m[k] = rate }]. *)
Definition keep_least (k : string) (rate : TaxRate) (m : gmap string TaxRate) : gmap string TaxRate :=
  match m !! k with
  | Some existing => if str_lt (tr_ID rate) (tr_ID existing) then <[k := rate]> m else m
  | None => <[k := rate]> m
  end.

Definition rules_by_rate (rules : list TaxRateRule) : gmap string (list TaxRateRule) :=
  foldl (fun m rule => map_append (rr_TaxRateID rule) rule m) ∅ rules.

(** The body of the loop over the rates. *)
Definition place_rate (byRate : gmap string (list TaxRateRule)) (t : rateTable) (rate : TaxRate) :
    rateTable :=
  match tr_StacksOnID rate with
  | Some base =>
      mkRateTable (rt_chain t) (rt_ruled t) (rt_fallback t) (keep_least base rate (rt_standing t))
  | None =>
      if tr_IsDefault rate then
        mkRateTable (rt_chain t) (rt_ruled t) (keep_least (tr_TaxRegionID rate) rate (rt_fallback t))
          (rt_standing t)
      else
        mkRateTable (rt_chain t)
          (map_append (tr_TaxRegionID rate) (mkRuledRate rate (default [] (byRate !! tr_ID rate)))
            (rt_ruled t))
          (rt_fallback t) (rt_standing t)
  end.

Definition newRateTable (chain : list string) (rates : list TaxRate) (rules : list TaxRateRule) :
    rateTable :=
  let t := foldl (place_rate (rules_by_rate rules)) (mkRateTable chain ∅ ∅ ∅) rates in
  mkRateTable (rt_chain t) (SortFunc (cmp_on (fun r => tr_ID (rl_rate r)) cmpS) <$> rt_ruled t)
    (rt_fallback t) (rt_standing t).

(** ** Selection *)

Definition rule_matches (rule : TaxRateRule) (key : matchKey) : bool :=
  bool_decide (rr_Reference rule = key.1) && bool_decide (rr_ReferenceID rule = key.2).

Definition matchSpecificity (rules : list TaxRateRule) (keys : list matchKey) : Z :=
  foldl (fun best rule =>
    foldl (fun best key =>
      if rule_matches rule key && (best <? Specificity (rr_Reference rule))
      then Specificity (rr_Reference rule) else best) best keys) 0 rules.

(** The loop over a region's candidates: the first of the most specific ones. *)
Fixpoint best_candidate (keys : list matchKey) (best : option TaxRate) (bestSpec : Z)
    (candidates : list ruledRate) : option TaxRate :=
  match candidates with
  | [] => best
  | c :: candidates' =>
      let spec := matchSpecificity (rl_rules c) keys in
      if bestSpec <? spec then best_candidate keys (Some (rl_rate c)) spec candidates'
      else best_candidate keys best bestSpec candidates'
  end.

Fixpoint select_in (t : rateTable) (keys : list matchKey) (chain : list string) : option TaxRate :=
  match chain with
  | [] => None
  | regionID :: chain' =>
      match best_candidate keys None 0 (default [] (rt_ruled t !! regionID)) with
      | Some rate => Some rate
      | None =>
          match rt_fallback t !! regionID with
          | Some rate => Some rate
          | None => select_in t keys chain'
          end
      end
  end.

Definition selectRate (t : rateTable) (keys : list matchKey) : option TaxRate :=
  select_in t keys (rt_chain t).

(** ** Stacks *)

Definition maxStackDepth : Z := 4.

Definition stack_too_deep (base : TaxRate) : err :=
  Internal CodeInconsistentConfig "the tax rate stack exceeds %d components (%s)"
    [AInt maxStackDepth; AStr (tr_ID base)].

(** The unbounded [for]: a round appends a component and stops at four of them, so four rounds are
    enough ([stack_rounds_enough]). *)
Fixpoint stack_rounds (rounds : nat) (standing : gmap string TaxRate) (base : TaxRate)
    (stack : list TaxRate) (current : TaxRate) : result (list TaxRate) :=
  match rounds with
  | O => Fail (stack_too_deep base)
  | S rounds' =>
      let stack := stack ++ [current] in
      match standing !! tr_ID current with
      | None => Ok stack
      | Some next =>
          if maxStackDepth <=? Z.of_nat (length stack) then Fail (stack_too_deep base)
          else stack_rounds rounds' standing base stack next
      end
  end.

Definition stackFrom (t : rateTable) (base : TaxRate) : result (list TaxRate) :=
  stack_rounds 4 (rt_standing t) base [] base.

(** The loop over the stack, on an exclusive price. *)
Fixpoint apply_stack (amount total : Z) (components : list TaxComponent) (stack : list TaxRate) :
    result (Z * list TaxComponent) :=
  match stack with
  | [] => Ok (total, components)
  | rate :: stack' =>
      base ← (if tr_Compound rate then addAmount amount total else Ok amount);
      tax ← TaxOf base (tr_RateBps rate);
      total ← addAmount total tax;
      apply_stack amount total
        (components ++ [mkTaxComponent (tr_ID rate) (tr_RateBps rate) (tr_Compound rate) base tax])
        stack'
  end.

Definition applyTo (t : rateTable) (keys : list matchKey) (lineID : string) (amount : Z)
    (included : bool) : result ProviderItemTax :=
  match selectRate t keys with
  | None => Ok (untaxed lineID amount)
  | Some rate =>
      stack ← stackFrom t rate;
      if included then
        if 1 <? Z.of_nat (length stack) then
          Fail (Internal CodeInconsistentConfig
            "in a region whose prices include tax, rate %s starts a STACK (%d components); on an inclusive price the reverse calculation is defined for a single rate"
            [AStr (tr_ID rate); AInt (Z.of_nat (length stack))])
        else
          tax ← TaxIncludedIn amount (tr_RateBps rate);
          Ok (mkProviderItemTax lineID (tr_ID rate) (tr_RateBps rate) tax (amount -₆₄ tax) [])
      else
        '(total, components) ← apply_stack amount 0 [] stack;
        let first := default rate (head stack) in
        Ok (mkProviderItemTax lineID (tr_ID first) (tr_RateBps first) total amount
              (if 1 <? Z.of_nat (length stack) then components else []))
  end.

(** ** The provider *)

Record RateSource := mkRateSource {
  src_ListTaxRatesByRegions : list string -> result (list TaxRate);
  src_ListTaxRateRulesByRates : list string -> result (list TaxRateRule)
}.

Definition loadRateRows (source : RateSource) (regionIDs : list string) :
    result (list TaxRate * list TaxRateRule) :=
  rates ← src_ListTaxRatesByRegions source regionIDs;
  let ruledIDs := tr_ID <$> filter (fun r => tr_IsDefault r = false) rates in
  rules ← (if 0 <? Z.of_nat (length ruledIDs) then src_ListTaxRateRulesByRates source ruledIDs
           else Ok []);
  Ok (rates, rules).

Definition loadRates (source : RateSource) (regionIDs : list string) : result rateTable :=
  '(rates, rules) ← loadRateRows source regionIDs;
  Ok (newRateTable regionIDs rates rules).

Fixpoint apply_items (t : rateTable) (included : bool) (items : list TaxableItem) :
    result (list ProviderItemTax) :=
  match items with
  | [] => Ok []
  | item :: items' =>
      tax ← applyTo t (itemKeys item) (ti_ID item) (ti_Amount item) included;
      rest ← apply_items t included items';
      Ok (tax :: rest)
  end.

Definition local_Calculate (source : RateSource) (in_ : ProviderInput) : result ProviderResult :=
  if (Z.of_nat (length (pi_RegionIDs in_)) =? 0) ||
     ((Z.of_nat (length (pi_Items in_)) =? 0) && negb (sh_Taxable (pi_Shipping in_))) then
    Ok (mkProviderResult ((fun i => untaxed (ti_ID i) (ti_Amount i)) <$> pi_Items in_)
          (untaxed ShippingLineID 0))
  else
    table ← loadRates source (pi_RegionIDs in_);
    items ← apply_items table (pi_PricesIncludeTax in_) (pi_Items in_);
    shipping ← (if sh_Taxable (pi_Shipping in_) then
                  applyTo table (shippingKeys (pi_Shipping in_)) ShippingLineID
                    (sh_Amount (pi_Shipping in_)) (pi_PricesIncludeTax in_)
                else Ok (untaxed ShippingLineID 0));
    Ok (mkProviderResult items shipping).

Definition NewLocalProvider (source : RateSource) : TaxProvider :=
  mkTaxProvider LocalProviderID (local_Calculate source).
