(* ===== verification/TaxCalculate.v ===== *)
(** * Tax calculation: [internal/modules/tax/service/calculate.go]

    The service's calculation over any tax provider: input normalization, region and provider
    resolution, and the assembly of what the provider answered. A Go map literal's lookup of an
    absent key is the zero value. *)
From S2P Require Import Prelude GoText Errors TaxModels TaxRates.

(** ** The repository

    What the service asks of [Repository]; [St] is the state of the database. Reads that fail
    return the database's error. *)
Record Repository (St : Type) := mkRepository {
  ResolveTaxRegions : string -> string -> St -> result (list TaxRegion);
  repo_GetTaxRegion : string -> St -> result TaxRegion;
  LockTaxRegion : string -> St -> result TaxRegion;
  LockTaxRegionForWrite : string -> St -> result TaxRegion;
  repo_CreateTaxRegion : TaxRegion -> moment -> St -> St * result TaxRegion;
  repo_GetTaxRate : string -> St -> result TaxRate;
  repo_ListTaxRates : string -> St -> result (list TaxRate);
  ListTaxRatesByRegions : list string -> St -> result (list TaxRate);
  ListTaxRateRulesByRates : list string -> St -> result (list TaxRateRule);
  ClassesOfProducts : list string -> St -> result (gmap string string);
  repo_CreateTaxRate : TaxRate -> moment -> St -> St * result TaxRate;
  repo_UpdateTaxRate : string -> TaxRatePatch -> moment -> St -> St * result TaxRate;
  repo_ReviseTaxRate : string -> TaxRateTerms -> TaxRateTerms -> moment -> St ->
    St * result (TaxRate * bool);
  repo_DeleteTaxRate : string -> moment -> St -> St * option err
}.

Arguments ResolveTaxRegions {St}.
Arguments repo_GetTaxRegion {St}.
Arguments LockTaxRegion {St}.
Arguments LockTaxRegionForWrite {St}.
Arguments repo_CreateTaxRegion {St}.
Arguments repo_GetTaxRate {St}.
Arguments repo_ListTaxRates {St}.
Arguments ListTaxRatesByRegions {St}.
Arguments ListTaxRateRulesByRates {St}.
Arguments ClassesOfProducts {St}.
Arguments repo_CreateTaxRate {St}.
Arguments repo_UpdateTaxRate {St}.
Arguments repo_ReviseTaxRate {St}.
Arguments repo_DeleteTaxRate {St}.

(** The repository as the local provider's [RateSource], in a state of the database. *)
Definition rate_source {St} (repo : Repository St) (st : St) : RateSource :=
  mkRateSource (fun ids => ListTaxRatesByRegions repo ids st)
    (fun ids => ListTaxRateRulesByRates repo ids st).

(** ** Inputs and results *)

Record CalculateTaxInput := mkCalculateTaxInput {
  ct_CountryCode : string;
  ct_ProvinceCode : string;
  ct_Items : list TaxableItem;
  ct_Shipping : ShippingInput
}.

Record ItemTax := mkItemTax {
  it_ID : string;
  it_RateID : string;
  it_RateBps : Z;
  it_TaxableAmount : Z;
  it_TaxAmount : Z;
  it_Components : list TaxComponent
}.

Record CalculateTaxResult := mkCalculateTaxResult {
  cr_RegionID : string;
  cr_PricesIncludeTax : bool;
  cr_RegionFound : bool;
  cr_ProviderID : string;
  cr_Items : list ItemTax;
  cr_Shipping : ItemTax;
  cr_TaxTotal : Z
}.

(** ** Normalization *)

Fixpoint normalize_items (i : Z) (seen : gset string) (items : list TaxableItem) :
    result (list TaxableItem) :=
  match items with
  | [] => Ok []
  | item :: items' =>
      if bool_decide (ti_ID item = EmptyString) then
        Fail (Invalid CodeInvalidInput "the id of line item %d is empty" [AInt i])
      else if bool_decide (ti_ID item = ShippingLineID) then
        Fail (Invalid CodeInvalidInput
          "the id %q is reserved for the shipping line and cannot be a line item id"
          [AStr ShippingLineID])
      else if bool_decide (ti_ID item ∈ seen) then
        Fail (Invalid CodeInvalidInput "the line item id %q was given more than once"
          [AStr (ti_ID item)])
      else
        check checkTaxableAmount "the line item's tax base" (ti_Amount item) ;;
        rest ← normalize_items (i + 1) ({[ti_ID item]} ∪ seen) items';
        Ok (item :: rest)
  end.

Definition normalizeCalculateInput (in_ : CalculateTaxInput) : result CalculateTaxInput :=
  country ← NormalizeCountryCode (ct_CountryCode in_);
  province ← NormalizeProvinceCode (ct_ProvinceCode in_);
  if MaxItems <? Z.of_nat (length (ct_Items in_)) then
    Fail (Invalid CodeInvalidInput
      "a single calculation can have at most %d line items, %d were given"
      [AInt MaxItems; AInt (Z.of_nat (length (ct_Items in_)))])
  else
    items ← normalize_items 0 ∅ (ct_Items in_);
    check checkTaxableAmount "the shipping amount" (sh_Amount (ct_Shipping in_)) ;;
    Ok (mkCalculateTaxInput country province items (ct_Shipping in_)).

Definition zeroResult (in_ : CalculateTaxInput) : CalculateTaxResult :=
  mkCalculateTaxResult EmptyString false false EmptyString
    ((fun i => mkItemTax (ti_ID i) EmptyString 0 (ti_Amount i) 0 []) <$> ct_Items in_)
    (mkItemTax ShippingLineID EmptyString 0
      (if sh_Taxable (ct_Shipping in_) then sh_Amount (ct_Shipping in_) else 0) 0 []) 0.

(** ** What is accepted of a provider *)

Fixpoint sum_components (providerID lineID : string) (i total : Z) (components : list TaxComponent) :
    result Z :=
  match components with
  | [] => Ok total
  | c :: components' =>
      if (tc_RateBps c <? MinRateBps) || (MaxRateBps <? tc_RateBps c) then
        Fail (Internal CodeProviderInvalidResult
          "provider %q returned an out-of-contract rate in component %d of line %q: %d basis points ([%d, %d] expected)"
          [AStr providerID; AInt i; AStr lineID; AInt (tc_RateBps c); AInt MinRateBps; AInt MaxRateBps])
      else if (tc_TaxAmount c <? 0) || (tc_TaxableAmount c <? tc_TaxAmount c) then
        Fail (Internal CodeProviderInvalidResult
          "provider %q returned an out-of-contract tax in component %d of line %q: %d on a base of %d"
          [AStr providerID; AInt i; AStr lineID; AInt (tc_TaxAmount c); AInt (tc_TaxableAmount c)])
      else
        sum ← addAmount total (tc_TaxAmount c);
        sum_components providerID lineID (i + 1) sum components'
  end.

Definition validateComponents (providerID lineID : string) (components : list TaxComponent)
    (lineTax : Z) : option err :=
  let n := Z.of_nat (length components) in
  if n =? 0 then None
  else if n <? 2 then
    Some (Internal CodeProviderInvalidResult
      "provider %q returned a single tax component for line %q; a breakdown of one says nothing the line does not, so it must be left empty"
      [AStr providerID; AStr lineID])
  else if maxStackDepth <? n then
    Some (Internal CodeProviderInvalidResult
      "provider %q returned %d tax components for line %q; at most %d are allowed"
      [AStr providerID; AInt n; AStr lineID; AInt maxStackDepth])
  else match sum_components providerID lineID 0 0 components with
  | Fail e => Some e
  | Ok total =>
      if negb (total =? lineTax) then
        Some (Internal CodeProviderInvalidResult
          "provider %q returned components for line %q that do not add up to the line's tax: %d components total %d, the line says %d"
          [AStr providerID; AStr lineID; AInt n; AInt total; AInt lineTax])
      else None
  end.

Definition validateLine (providerID : string) (line : ProviderItemTax) (wantID : string)
    (amount : Z) (included : bool) : result ItemTax :=
  if (pt_RateBps line <? MinRateBps) || (MaxRateBps <? pt_RateBps line) then
    Fail (Internal CodeProviderInvalidResult
      "provider %q returned an out-of-contract rate for line %q: %d basis points ([%d, %d] expected)"
      [AStr providerID; AStr wantID; AInt (pt_RateBps line); AInt MinRateBps; AInt MaxRateBps])
  else if (pt_TaxAmount line <? 0) || (amount <? pt_TaxAmount line) then
    Fail (Internal CodeProviderInvalidResult
      "provider %q returned an out-of-contract tax for line %q: %d ([0, %d] expected)"
      [AStr providerID; AStr wantID; AInt (pt_TaxAmount line); AInt amount])
  else if included && ((pt_TaxableAmount line <? 0) ||
                       negb (pt_TaxableAmount line +₆₄ pt_TaxAmount line =? amount)) then
    Fail (Internal CodeProviderInvalidResult
      "provider %q did not hit the tax-inclusive price for line %q: base %d + tax %d = %d, gross sent %d"
      [AStr providerID; AStr wantID; AInt (pt_TaxableAmount line); AInt (pt_TaxAmount line);
       AInt (pt_TaxableAmount line +₆₄ pt_TaxAmount line); AInt amount])
  else
    let base := if included then pt_TaxableAmount line else amount in
    check validateComponents providerID wantID (pt_Components line) (pt_TaxAmount line) ;;
    Ok (mkItemTax wantID (pt_RateID line) (pt_RateBps line) base (pt_TaxAmount line)
          (pt_Components line)).

(** ** Assembly *)

(** The first loop: the provider's lines by their ids. *)
Fixpoint lines_by_id (providerID : string) (byID : gmap string ProviderItemTax)
    (lines : list ProviderItemTax) : result (gmap string ProviderItemTax) :=
  match lines with
  | [] => Ok byID
  | line :: lines' =>
      if bool_decide (is_Some (byID !! pt_ID line)) then
        Fail (Internal CodeProviderInvalidResult "provider %q returned two results for line %q"
          [AStr providerID; AStr (pt_ID line)])
      else lines_by_id providerID (<[pt_ID line := line]> byID) lines'
  end.

Fixpoint assemble_items (providerID : string) (byID : gmap string ProviderItemTax) (included : bool)
    (total : Z) (items : list TaxableItem) : result (Z * list ItemTax) :=
  match items with
  | [] => Ok (total, [])
  | item :: items' =>
      match byID !! ti_ID item with
      | None =>
          Fail (Internal CodeProviderInvalidResult "provider %q returned no result for line %q"
            [AStr providerID; AStr (ti_ID item)])
      | Some line =>
          out ← validateLine providerID line (ti_ID item) (ti_Amount item) included;
          total ← addAmount total (it_TaxAmount out);
          '(total, rest) ← assemble_items providerID byID included total items';
          Ok (total, out :: rest)
      end
  end.

Definition shipping_base (s : ShippingInput) : Z := if sh_Taxable s then sh_Amount s else 0.

Definition assembleResult (in_ : CalculateTaxInput) (raw : ProviderResult) (providerID : string)
    (included : bool) : result CalculateTaxResult :=
  byID ← lines_by_id providerID ∅ (pr_Items raw);
  if negb (Z.of_nat (size byID) =? Z.of_nat (length (ct_Items in_))) then
    Fail (Internal CodeProviderInvalidResult
      "provider %q was given %d line items and returned %d results"
      [AStr providerID; AInt (Z.of_nat (length (ct_Items in_))); AInt (Z.of_nat (size byID))])
  else
    '(total, items) ← assemble_items providerID byID included 0 (ct_Items in_);
    shipping ← validateLine providerID (pr_Shipping raw) ShippingLineID
                 (shipping_base (ct_Shipping in_)) included;
    total ← addAmount total (it_TaxAmount shipping);
    Ok (mkCalculateTaxResult EmptyString false false providerID items shipping total).

(** ** The service *)

Record Service (St : Type) := mkService {
  s_repo : option (Repository St);
  s_providers : option (St -> ProviderRegistry)
}.

Arguments s_repo {St}.
Arguments s_providers {St}.

(** [ready], and the repository it vouches for. *)
Definition ready {St} (s : Service St) : result (Repository St) :=
  match s_repo s with
  | Some repo => Ok repo
  | None => Fail (Unavailable CodeUnconfigured "the tax service is not configured" [])
  end.

(** [New] without a registry of its own: the local provider over the repository. *)
Definition New {St} (repo : Repository St) : Service St :=
  mkService St (Some repo)
    (Some (fun st => fst (Register (Some (NewLocalProvider (rate_source repo st))) NewProviderRegistry))).

Definition pricesIncludeTax (chain : list TaxRegion) : bool :=
  default false (head (omap rg_PricesIncludeTax chain)).

(** The loop of [providerFor]: the region and the provider the chain names. *)
Fixpoint provider_choice (chain : list TaxRegion) : option (string * string) :=
  match chain with
  | [] => None
  | r :: chain' =>
      let id := TrimSpace (rg_ProviderID r) in
      if bool_decide (id = EmptyString) then provider_choice chain' else Some (rg_ID r, id)
  end.

Definition providerFor {St} (s : Service St) (chain : list TaxRegion) (st : St) :
    result TaxProvider :=
  match s_providers s with
  | None =>
      Fail (Internal CodeProviderMisconfigured "the tax provider registry is not configured" [])
  | Some registry =>
      let first := match head chain with Some r => rg_ID r | None => EmptyString end in
      let '(regionID, providerID) := default (first, LocalProviderID) (provider_choice chain) in
      match registry_Get providerID (registry st) with
      | Ok provider => Ok provider
      | Fail e =>
          Fail (wrap e KindInternal CodeProviderMisconfigured
            "region %s points to the tax provider %q, which is not registered"
            [AStr regionID; AStr providerID])
      end
  end.

(** The product ids of the items, each once, in order. *)
Fixpoint product_ids (seen : gset string) (items : list TaxableItem) : list string :=
  match items with
  | [] => []
  | item :: items' =>
      let id := ti_ProductID item in
      if bool_decide (id = EmptyString) || bool_decide (id ∈ seen) then product_ids seen items'
      else id :: product_ids ({[id]} ∪ seen) items'
  end.

Definition with_class (class : string) (i : TaxableItem) : TaxableItem :=
  mkTaxableItem (ti_ID i) (ti_ProductID i) (ti_ProductTypeID i) class (ti_Amount i).

(** The items are the calculation's own copy; the answer is that copy after the writes. *)
Definition attachTaxClasses {St} (repo : Repository St) (items : list TaxableItem) (st : St) :
    result (list TaxableItem) :=
  let productIDs := product_ids ∅ items in
  if Z.of_nat (length productIDs) =? 0 then Ok items
  else
    classes ← ClassesOfProducts repo productIDs st;
    Ok ((fun i => with_class (default EmptyString (classes !! ti_ProductID i)) i) <$> items).

Definition CalculateTax {St} (s : Service St) (in_ : CalculateTaxInput) (st : St) :
    result CalculateTaxResult :=
  repo ← ready s;
  normalized ← normalizeCalculateInput in_;
  chain ← ResolveTaxRegions repo (ct_CountryCode normalized) (ct_ProvinceCode normalized) st;
  match chain with
  | [] => Ok (zeroResult normalized)
  | first :: _ =>
      provider ← providerFor s chain st;
      let included := pricesIncludeTax chain in
      items ← attachTaxClasses repo (ct_Items normalized) st;
      let normalized :=
        mkCalculateTaxInput (ct_CountryCode normalized) (ct_ProvinceCode normalized) items
          (ct_Shipping normalized) in
      raw ← prov_Calculate provider
              (mkProviderInput (rg_ID <$> chain) (ct_CountryCode normalized)
                (ct_ProvinceCode normalized) items (ct_Shipping normalized) included);
      result ← assembleResult normalized raw (prov_ID provider) included;
      Ok (mkCalculateTaxResult (rg_ID first) included true (cr_ProviderID result) (cr_Items result)
            (cr_Shipping result) (cr_TaxTotal result))
  end.

(** ** The default rate of a country *)

Definition find_default (rates : list TaxRate) : option TaxRate :=
  head (filter (fun r => tr_IsDefault r = true) rates).

Definition DefaultRateForCountry {St} (s : Service St) (countryCode : string) (st : St) :
    result (option Z) :=
  repo ← ready s;
  country ← NormalizeCountryCode countryCode;
  chain ← ResolveTaxRegions repo country EmptyString st;
  match head (filter (fun r => IsRoot r = true) chain) with
  | None => Ok None
  | Some root =>
      if bool_decide (rg_ID root = EmptyString) then Ok None
      else
        rates ← repo_ListTaxRates repo (rg_ID root) st;
        match find_default rates with
        | None => Ok None
        | Some r =>
            if (tr_RateBps r <? MinRateBps) || (MaxRateBps <? tr_RateBps r) then
              Fail (Internal CodeRateOutOfRange
                "rate %s is out of contract: %d basis points ([%d, %d] expected)"
                [AStr (tr_ID r); AInt (tr_RateBps r); AInt MinRateBps; AInt MaxRateBps])
            else Ok (Some (tr_RateBps r))
        end
  end.
