(* ===== verification/TaxStack.v ===== *)
(** * Writing rates: [internal/modules/tax/service/stack.go], [rate.go] and [rate_revise.go]

    The checks a rate passes before it is written, and the operations that write rates and regions.
    An operation takes the state of the database and returns the state after it; a transaction that
    fails leaves the state it found. The clock and the id generator of the code are arguments. *)
From S2P Require Import Prelude GoText Errors TaxModels TaxRates TaxCalculate.

Definition CodeParentInvalid : string := "tax_parent_invalid".
Definition CodeRootExists : string := "tax_region_root_exists".
Definition CodeTaxRateRevised : string := "tax_rate_revised".

(** ** The stack rules *)

Definition notionalBase : Z := 100000000.

(** The loop of [assertStackWithinBase]: what a stack takes of the notional base, each component
    rounded up. *)
Definition taken_after (taken : Z) (rate : TaxRate) : Z :=
  let base := if tr_Compound rate then notionalBase +₆₄ taken else notionalBase in
  let component := div64 ((base *₆₄ tr_RateBps rate +₆₄ BpsScale) -₆₄ 1) BpsScale in
  taken +₆₄ component.

Definition taken_of (chain : list TaxRate) : Z := foldl taken_after 0 chain.

Definition assertStackWithinBase (chain : list TaxRate) : option err :=
  let taken := taken_of chain in
  if notionalBase <? taken then
    Some (Conflict CodeStackExceedsBase
      "this stack would take more than the line itself (out of %d units it takes %d); the rates together cannot exceed the line"
      [AInt notionalBase; AInt taken])
  else None.

Definition by_id (rates : list TaxRate) : gmap string TaxRate :=
  foldl (fun m r => <[tr_ID r := r]> m) ∅ rates.

Definition by_base (rates : list TaxRate) : gmap string TaxRate :=
  foldl (fun m r => match tr_StacksOnID r with Some b => <[b := r]> m | None => m end) ∅ rates.

(** The walk from the rate stood on down to the bottom of its stack. A round visits a rate no
    earlier round visited, so one round more than there are rates is enough ([walk_down_enough]). *)
Fixpoint walk_down (rounds : nat) (byID : gmap string TaxRate) (seen : gset string)
    (chain : list TaxRate) (current : TaxRate) : result (list TaxRate) :=
  if bool_decide (tr_ID current ∈ seen) then
    Fail (Conflict CodeStackNotAllowed "the tax rate stack turns back on itself: %s"
      [AStr (tr_ID current)])
  else
    let chain := chain ++ [current] in
    match tr_StacksOnID current with
    | None => Ok chain
    | Some b =>
        match byID !! b with
        | None =>
            Fail (Conflict CodeStackNotAllowed "the rate %s stands on is not in this region: %s"
              [AStr (tr_ID current); AStr b])
        | Some below =>
            match rounds with
            | O => Fail (Conflict CodeStackNotAllowed "the tax rate stack turns back on itself: %s"
                     [AStr (tr_ID current)])
            | S rounds' => walk_down rounds' byID ({[tr_ID current]} ∪ seen) chain below
            end
        end
    end.

(** What [assertStackable] decides once it has the region's rates: [region_exclusive] is the answer
    of [assertExclusiveRegion]. *)
Definition stackable_on (rates : list TaxRate) (region_exclusive : option err) (stacksOnID : string)
    (rateBps : Z) (compound : bool) (selfID : string) : option err :=
  let others := filter (fun r => tr_ID r <> selfID) rates in
  let byID := by_id others in
  match byID !! stacksOnID with
  | None =>
      Some (Invalid CodeStackNotAllowed "the rate to stand on is not in this region: %s"
        [AStr stacksOnID])
  | Some base =>
      if bool_decide (is_Some (by_base others !! stacksOnID)) then
        Some (Conflict CodeStackNotAllowed
          "a rate already stands on %s; a stack is a LIST and cannot branch in two"
          [AStr stacksOnID])
      else match region_exclusive with
      | Some e => Some e
      | None =>
          match walk_down (length rates) byID ∅ [] base with
          | Fail e => Some e
          | Ok chain =>
              let chain := reverse chain ++ [bare_rate rateBps compound] in
              if maxStackDepth <? Z.of_nat (length chain) then
                Some (Conflict CodeStackNotAllowed
                  "a stack carries at most %d components; this write would make it %d"
                  [AInt maxStackDepth; AInt (Z.of_nat (length chain))])
              else assertStackWithinBase chain
          end
      end
  end.

(** The loop of [stackHolding] down to the base of the stack. *)
Fixpoint find_base (rounds : nat) (byID : gmap string TaxRate) (seen : gset string)
    (base : TaxRate) : TaxRate :=
  match tr_StacksOnID base with
  | None => base
  | Some b =>
      if bool_decide (tr_ID base ∈ seen) then base
      else match byID !! b, rounds with
      | Some below, S rounds' => find_base rounds' byID ({[tr_ID base]} ∪ seen) below
      | _, _ => base
      end
  end.

Definition with_bps (rateBps : Z) (r : TaxRate) : TaxRate :=
  mkTaxRate (tr_ID r) (tr_TaxRegionID r) (tr_Name r) (tr_Code r) rateBps (tr_IsDefault r)
    (tr_StacksOnID r) (tr_Compound r) (tr_Metadata r) (tr_CreatedAt r) (tr_UpdatedAt r)
    (tr_DeletedAt r).

Definition amend (rateID : string) (rateBps : Z) (r : TaxRate) : TaxRate :=
  if bool_decide (tr_ID r = rateID) then with_bps rateBps r else r.

Definition stackHolding (rates : list TaxRate) (rateID : string) (rateBps : Z) :
    result (list TaxRate) :=
  let amended := amend rateID rateBps <$> rates in
  let byID := by_id amended in
  match byID !! rateID with
  | None => Ok []
  | Some rate =>
      let base := find_base (length amended) byID ∅ rate in
      stackFrom (newRateTable [] amended []) base
  end.

(** ** Over the repository *)

Section Operations.
Context {St : Type}.
Implicit Types (repo : Repository St) (st : St).

Definition with_tx {A} (f : St -> St * result A) (st : St) : St * result A :=
  match f st with
  | (st', Ok a) => (st', Ok a)
  | (_, Fail e) => (st, Fail e)
  end.

Definition regionChainOf repo (regionID : string) st : result (list TaxRegion) :=
  region ← repo_GetTaxRegion repo regionID st;
  ResolveTaxRegions repo (rg_CountryCode region) (default EmptyString (rg_ProvinceCode region)) st.

Definition assertExclusiveRegion repo (regionID : string) st : option err :=
  match regionChainOf repo regionID st with
  | Fail e => Some e
  | Ok chain =>
      if pricesIncludeTax chain then
        Some (Conflict CodeStackNotAllowed
          "prices in this region are written tax INCLUSIVE; on an inclusive price the reverse calculation is defined for a single rate (ADR 0086), so no stack can be built" [])
      else None
  end.

Definition assertStackable repo (regionID stacksOnID : string) (isDefault : bool) (rateBps : Z)
    (compound : bool) (selfID : string) st : option err :=
  if bool_decide (stacksOnID = EmptyString) then
    if compound then
      Some (Invalid CodeStackNotAllowed
        "a rate can only be compound while it stands on ANOTHER rate" [])
    else None
  else if isDefault then
    Some (Invalid CodeStackNotAllowed
      "the default rate cannot stand on another rate: the default is CHOSEN, while a standing rate applies by expanding what was chosen" [])
  else match repo_ListTaxRates repo regionID st with
  | Fail e => Some e
  | Ok rates =>
      stackable_on rates (assertExclusiveRegion repo regionID st) stacksOnID rateBps compound selfID
  end.

Definition assertNotStacked repo (rateID : string) st : option err :=
  match repo_GetTaxRate repo rateID st with
  | Fail e => Some e
  | Ok rate =>
      match tr_StacksOnID rate with
      | Some b =>
          Some (Conflict CodeStackNotAllowed
            "rate %s stands on %s and cannot be made the default: the default is CHOSEN, while a standing rate applies by expanding what was chosen"
            [AStr rateID; AStr b])
      | None => None
      end
  end.

Definition assertValueWithinStack repo (rateID : string) (rateBps : Z) st : option err :=
  match
    rate ← repo_GetTaxRate repo rateID st;
    _ ← LockTaxRegionForWrite repo (tr_TaxRegionID rate) st;
    rates ← repo_ListTaxRates repo (tr_TaxRegionID rate) st;
    stackHolding rates rateID rateBps
  with
  | Fail e => Some e
  | Ok stack =>
      if Z.of_nat (length stack) <? 2 then None else assertStackWithinBase stack
  end.

Definition assertNoStackedRate repo (parentID : string) (includes : option bool) st : option err :=
  match includes with
  | Some true =>
      match
        parent ← repo_GetTaxRegion repo parentID st;
        repo_ListTaxRates repo (rg_ID parent) st
      with
      | Fail e => Some e
      | Ok rates =>
          match head (filter (fun r => tr_StacksOnID r <> None) rates) with
          | Some r =>
              Some (Conflict CodeStackNotAllowed
                "the parent region carries a stacked rate (%s); a region whose prices are written tax INCLUSIVE cannot be opened over a stack (ADR 0086)"
                [AStr (tr_ID r)])
          | None => None
          end
      end
  | _ => None
  end.

Definition assertNoDefaultRate repo (regionID : string) st : option err :=
  match repo_ListTaxRates repo regionID st with
  | Fail e => Some e
  | Ok existing =>
      match find_default existing with
      | Some r =>
          Some (Conflict CodeDefaultExists "region %s already has a default rate: %s"
            [AStr regionID; AStr (tr_ID r)])
      | None => None
      end
  end.

(** ** Rates *)

Record CreateTaxRateInput := mkCreateTaxRateInput {
  ni_TaxRegionID : string;
  ni_Name : string;
  ni_Code : string;
  ni_RateBps : Z;
  ni_IsDefault : bool;
  ni_StacksOnID : string;
  ni_Compound : bool;
  ni_Metadata : metadata
}.

(** An empty string is a nil pointer. *)
Definition given (s : string) : option string :=
  if bool_decide (s = EmptyString) then None else Some s.

(** [check] for an operation on the state. *)
Definition step_check {A} (c : option err) (st : St) (k : St * result A) : St * result A :=
  match c with Some e => (st, Fail e) | None => k end.

Definition failed {A} (r : result A) : option err := match r with Ok _ => None | Fail e => Some e end.

Definition CreateTaxRate (s : Service St) (in_ : CreateTaxRateInput) (now : moment) (newID : string)
    st : St * result TaxRate :=
  match
    repo ← ready s;
    check requireID (ni_TaxRegionID in_) TaxRegionIDPrefix "tax region id" ;;
    name ← normalizeName (ni_Name in_);
    code ← normalizeCode (ni_Code in_);
    check validateRateBps (ni_RateBps in_) ;;
    Ok (repo, name, code)
  with
  | Fail e => (st, Fail e)
  | Ok (repo, name, code) =>
      with_tx (fun st =>
        step_check (failed (LockTaxRegion repo (ni_TaxRegionID in_) st)) st
        (step_check
          (if ni_IsDefault in_ then assertNoDefaultRate repo (ni_TaxRegionID in_) st else None) st
        (step_check
          (assertStackable repo (ni_TaxRegionID in_) (ni_StacksOnID in_) (ni_IsDefault in_)
            (ni_RateBps in_) (ni_Compound in_) EmptyString st) st
        (repo_CreateTaxRate repo
          (mkTaxRate newID (ni_TaxRegionID in_) name (given code) (ni_RateBps in_)
            (ni_IsDefault in_) (given (ni_StacksOnID in_)) (ni_Compound in_) (ni_Metadata in_)
            zero_time zero_time None) now st)))) st
  end.

Record UpdateTaxRateInput := mkUpdateTaxRateInput {
  ui_Name : option string;
  ui_Code : option string;
  ui_RateBps : option Z;
  ui_IsDefault : option bool;
  ui_Metadata : metadata
}.

(** A check on a value that may not be given. *)
Definition map_given {A B} (f : A -> result B) (o : option A) : result (option B) :=
  match o with Some a => b ← f a; Ok (Some b) | None => Ok None end.

Definition checked_bps (rateBps : Z) : result Z := check validateRateBps rateBps ;; Ok rateBps.

Definition buildRatePatch (in_ : UpdateTaxRateInput) : result TaxRatePatch :=
  name ← map_given normalizeName (ui_Name in_);
  code ← map_given normalizeCode (ui_Code in_);
  rateBps ← map_given checked_bps (ui_RateBps in_);
  Ok (mkTaxRatePatch name code rateBps (ui_IsDefault in_) (ui_Metadata in_)).

Definition UpdateTaxRate (s : Service St) (id : string) (in_ : UpdateTaxRateInput) (now : moment) st :
    St * result TaxRate :=
  match
    repo ← ready s;
    check requireID id TaxRateIDPrefix "tax rate id" ;;
    patch ← buildRatePatch in_;
    check (if Empty patch then Some (Invalid CodeInvalidInput "no field was given to update" [])
           else None) ;;
    check (match pa_IsDefault patch with
           | Some true => assertNotStacked repo id st
           | _ => None
           end) ;;
    Ok (repo, patch)
  with
  | Fail e => (st, Fail e)
  | Ok (repo, patch) =>
      match pa_RateBps patch with
      | None => repo_UpdateTaxRate repo id patch now st
      | Some rateBps =>
          with_tx (fun st =>
            step_check (assertValueWithinStack repo id rateBps st) st
              (repo_UpdateTaxRate repo id patch now st)) st
      end
  end.

Definition ReviseTaxRate (s : Service St) (id : string) (read next : TaxRateTerms) (now : moment) st :
    St * result TaxRate :=
  match
    repo ← ready s;
    check requireID id TaxRateIDPrefix "tax rate id" ;;
    name ← normalizeName (te_Name next);
    check validateRateBps (te_RateBps next) ;;
    Ok (repo, mkTaxRateTerms name (te_RateBps next))
  with
  | Fail e => (st, Fail e)
  | Ok (repo, next) =>
      let '(st', r) :=
        with_tx (fun st =>
          step_check (assertValueWithinStack repo id (te_RateBps next) st) st
            (repo_ReviseTaxRate repo id read next now st)) st in
      match r with
      | Fail e => (st', Fail e)
      | Ok (rate, true) => (st', Ok rate)
      | Ok (_, false) =>
          step_check (failed (repo_GetTaxRate repo id st')) st'
            (st', Fail (Conflict CodeTaxRateRevised
               "tax rate %s was revised since it was read; draw the list again" [AStr id]))
      end
  end.

Definition DeleteTaxRate (s : Service St) (id : string) (now : moment) st : St * option err :=
  match
    repo ← ready s;
    check requireID id TaxRateIDPrefix "tax rate id" ;;
    Ok repo
  with
  | Fail e => (st, Some e)
  | Ok repo => repo_DeleteTaxRate repo id now st
  end.

(** ** Regions *)

Record CreateTaxRegionInput := mkCreateTaxRegionInput {
  gi_CountryCode : string;
  gi_ProvinceCode : string;
  gi_ParentID : string;
  gi_PricesIncludeTax : option bool;
  gi_ProviderID : string;
  gi_Metadata : metadata
}.

Definition normalizeProviderID (s : Service St) (id : string) st : result string :=
  let trimmed := TrimSpace id in
  if bool_decide (trimmed = EmptyString) then Ok EmptyString
  else if maxIDLen <? len trimmed then
    Fail (Invalid CodeInvalidInput
      "a tax provider id can be at most %d bytes, %d bytes were given"
      [AInt maxIDLen; AInt (len trimmed)])
  else match s_providers s with
  | None =>
      Fail (Internal CodeProviderMisconfigured "the tax provider registry is not configured" [])
  | Some registry =>
      match registry_Get trimmed (registry st) with
      | Fail e =>
          Fail (wrap e KindInvalid CodeProviderNotFound
            "the %q tax provider is not registered in this setup" [AStr trimmed])
      | Ok _ => Ok trimmed
      end
  end.

Definition assertNoRoot repo (country : string) st : option err :=
  match ResolveTaxRegions repo country EmptyString st with
  | Fail e => Some e
  | Ok existing =>
      match head (filter (fun r => IsRoot r = true) existing) with
      | Some r =>
          Some (Conflict CodeRootExists "the root tax region of country %s already exists: %s"
            [AStr country; AStr (rg_ID r)])
      | None => None
      end
  end.

Definition parentForProvince repo (parentID country : string) st : result TaxRegion :=
  parent ← LockTaxRegion repo parentID st;
  if negb (IsRoot parent) then
    Fail (Invalid CodeParentInvalid
      "%s is a province region; the tax hierarchy is two levels and no region can be opened under a province"
      [AStr (rg_ID parent)])
  else if negb (bool_decide (rg_CountryCode parent = country)) then
    Fail (Invalid CodeParentInvalid
      "the province region's country (%s) cannot differ from the root's country (%s)"
      [AStr country; AStr (rg_CountryCode parent)])
  else Ok parent.

Definition CreateTaxRegion (s : Service St) (in_ : CreateTaxRegionInput) (now : moment)
    (newID : string) st : St * result TaxRegion :=
  match
    repo ← ready s;
    country ← NormalizeCountryCode (gi_CountryCode in_);
    province ← NormalizeProvinceCode (gi_ProvinceCode in_);
    providerID ← normalizeProviderID s (gi_ProviderID in_) st;
    Ok (repo, country, province, providerID)
  with
  | Fail e => (st, Fail e)
  | Ok (repo, country, province, providerID) =>
      let region provinceCode parentID :=
        mkTaxRegion newID country provinceCode parentID providerID (gi_PricesIncludeTax in_)
          (gi_Metadata in_) zero_time zero_time None in
      match given province, given (gi_ParentID in_) with
      | None, None =>
          step_check (assertNoRoot repo country st) st
            (repo_CreateTaxRegion repo (region None None) now st)
      | Some province, Some parentID =>
          step_check (assertNoStackedRate repo parentID (gi_PricesIncludeTax in_) st) st
          (step_check (requireID parentID TaxRegionIDPrefix "tax region id") st
          (with_tx (fun st =>
            match parentForProvince repo parentID country st with
            | Fail e => (st, Fail e)
            | Ok parent =>
                repo_CreateTaxRegion repo (region (Some province) (Some (rg_ID parent))) now st
            end) st))
      | None, Some _ =>
          (st, Fail (Invalid CodeInvalidInput
            "when a parent is given the province code is required too; a country root is created without a parent" []))
      | Some _, None =>
          (st, Fail (Invalid CodeInvalidInput
            "the parent (country root) id is required for a province region" []))
      end
  end.
End Operations.
