(* ===== verification/TaxStackFacts.v ===== *)
(** * Stacks of tax rates

    What a region's rates have to satisfy for the calculation to act on them ([rates_ok]), that the
    checks before a write keep it, and that it bounds the tax a stack takes of a line. *)
From S2P Require Import Prelude GoText Errors TaxModels TaxRates TaxCalculate TaxStack.

(** ** Chains of rates

    [stack_path rates l]: [l] is a rate and what stands on it, in the order of application.
    [down_path rates l]: [l] is a rate and what it stands on, down to a rate that stands on none. *)
Fixpoint stack_path (rates l : list TaxRate) : Prop :=
  match l with
  | [] => False
  | x :: rest =>
      x ∈ rates /\
      match rest with
      | [] => forall r, r ∈ rates -> tr_StacksOnID r <> Some (tr_ID x)
      | y :: _ => tr_StacksOnID y = Some (tr_ID x) /\ stack_path rates rest
      end
  end.

Fixpoint down_path (rates l : list TaxRate) : Prop :=
  match l with
  | [] => False
  | x :: rest =>
      x ∈ rates /\
      match rest with
      | [] => tr_StacksOnID x = None
      | y :: _ => tr_StacksOnID x = Some (tr_ID y) /\ down_path rates rest
      end
  end.

Lemma down_path_snoc rates x l :
  x ∈ rates -> tr_StacksOnID x = None -> down_path rates [x] /\
  (forall y, last l = Some y -> tr_StacksOnID y = Some (tr_ID x) -> Forall (.∈ rates) l ->
     (forall i a b, l !! i = Some a -> l !! S i = Some b -> tr_StacksOnID a = Some (tr_ID b)) ->
     down_path rates (l ++ [x])).
Proof.
  intros Hx Hroot. split; [by split|]. induction l as [|a l IH]; intros y Hlast Hy Hin Hstep; [done|].
  apply Forall_cons in Hin as [Ha Hin]. destruct l as [|b l].
  - injection Hlast as ->. repeat split; done.
  - split; [done|]. split; [by apply (Hstep 0%nat)|].
    apply (IH y); [done|done|done|]. intros i. apply (Hstep (S i)).
Qed.

Lemma stack_path_steps rates l :
  stack_path rates l ->
  Forall (.∈ rates) l /\
  (forall i a b, l !! i = Some a -> l !! S i = Some b -> tr_StacksOnID b = Some (tr_ID a)) /\
  exists top, last l = Some top /\ forall r, r ∈ rates -> tr_StacksOnID r <> Some (tr_ID top).
Proof.
  induction l as [|x l IH]; [done|]. intros [Hx Hl]. destruct l as [|y l].
  - split; [by constructor|]. split; [by intros [|i] a b|]. by exists x.
  - destruct Hl as [Hy (Hin & Hstep & Htop)%IH]. split; [by constructor|]. split; [|done].
    intros [|i] a b; [by intros [= <-] [= <-]|apply Hstep].
Qed.

Lemma stack_path_intro rates l top :
  Forall (.∈ rates) l ->
  (forall i a b, l !! i = Some a -> l !! S i = Some b -> tr_StacksOnID b = Some (tr_ID a)) ->
  last l = Some top -> (forall r, r ∈ rates -> tr_StacksOnID r <> Some (tr_ID top)) ->
  stack_path rates l.
Proof.
  induction l as [|x l IH]; [done|]. intros [Hx Hin]%Forall_cons Hstep Hlast Htop.
  destruct l as [|y l].
  - injection Hlast as ->. done.
  - split; [done|]. split; [by apply (Hstep 0%nat)|].
    apply IH; [done| |done|done]. intros i. apply (Hstep (S i)).
Qed.

Lemma down_path_steps rates l :
  down_path rates l ->
  Forall (.∈ rates) l /\
  (forall i a b, l !! i = Some a -> l !! S i = Some b -> tr_StacksOnID a = Some (tr_ID b)) /\
  exists root, last l = Some root /\ tr_StacksOnID root = None.
Proof.
  induction l as [|x l IH]; [done|]. intros [Hx Hl]. destruct l as [|y l].
  - split; [by constructor|]. split; [by intros [|i] a b|]. by exists x.
  - destruct Hl as [Hy (Hin & Hstep & Htop)%IH]. split; [by constructor|]. split; [|done].
    intros [|i] a b; [by intros [= <-] [= <-]|apply Hstep].
Qed.

(** Read from the top, a stack is the way down from its top. *)
Lemma stack_path_down rates root l :
  stack_path rates (root :: l) -> tr_StacksOnID root = None -> down_path rates (reverse (root :: l)).
Proof.
  intros (Hin & Hstep & _)%stack_path_steps Hroot.
  rewrite reverse_cons. destruct (down_path_snoc rates root (reverse l)) as [Hone Hmany];
    [by apply Forall_cons in Hin as [? _]|done|].
  destruct l as [|y l]; [done|].
  apply (Hmany y).
  - rewrite last_reverse. done.
  - by apply (Hstep 0%nat).
  - apply Forall_reverse. by apply Forall_cons in Hin as [_ ?].
  - intros i a b Ha Hb.
    assert (S i < length (y :: l))%nat by (apply lookup_lt_Some in Hb; by rewrite length_reverse in Hb).
    rewrite reverse_lookup in Ha, Hb by (simpl in *; lia).
    apply (Hstep (S (length (y :: l) - S (S i)))); [exact Hb|]. simpl in *.
    by replace (length l - i)%nat with (S (length l - S i)) in Ha by lia.
Qed.

Section Unique.
Context (rates : list TaxRate) (Hids : NoDup (tr_ID <$> rates)).

Lemma same_id a b : a ∈ rates -> b ∈ rates -> tr_ID a = tr_ID b -> a = b.
Proof.
  intros Ha Hb Hab. apply list_elem_of_lookup in Ha as [i Hi]. apply list_elem_of_lookup in Hb as [j Hj].
  assert (i = j) as ->; [|congruence].
  eapply NoDup_lookup; [exact Hids|rewrite list_lookup_fmap, Hi; done|].
  rewrite list_lookup_fmap, Hj. simpl. by rewrite Hab.
Qed.

Lemma down_path_unique l k :
  down_path rates l -> down_path rates k -> head l = head k -> l = k.
Proof.
  revert k. induction l as [|x l IH]; [done|]. intros [|y k]; [done|].
  intros [Hx Hl] [Hy Hk] [= ->].
  destruct l as [|a l], k as [|b k]; [done|destruct Hk; congruence|destruct Hl; congruence|].
  destruct Hl as [Hxa Ha], Hk as [Hxb Hb]. f_equal. apply IH; [done..|]. simpl. f_equal.
  apply same_id; [by destruct Ha|by destruct Hb|congruence].
Qed.

Lemma down_path_suffix l x k : down_path rates (l ++ x :: k) -> down_path rates (x :: k).
Proof.
  induction l as [|y l IH]; [done|]. intros [_ Hl]. apply IH.
  destruct l; simpl in *; destruct Hl; done.
Qed.

Lemma down_path_NoDup l : down_path rates l -> NoDup l.
Proof.
  induction l as [|x l IH]; [done|]. intros Hl. constructor.
  - intros (l1 & l2 & ->)%list_elem_of_split.
    assert (x :: l2 = x :: l1 ++ x :: l2) as E.
    { apply down_path_unique; [|done|done]. by apply (down_path_suffix (x :: l1)). }
    apply (f_equal length) in E. rewrite !length_cons, length_app, length_cons in E. lia.
  - destruct Hl as [_ Hl]. destruct l; [constructor|]. apply IH, Hl.
Qed.

Lemma down_path_length l : down_path rates l -> (length l <= length rates)%nat.
Proof.
  intros Hl. apply submseteq_length, NoDup_submseteq; [by apply down_path_NoDup|].
  apply down_path_steps in Hl as [Hin _]. intros x Hx. by eapply Forall_forall in Hin.
Qed.
End Unique.

(** ** What a stack takes

    The guard's arithmetic without the machine, and the tax of a line of [amount]. *)
Definition guard_step (taken : Z) (r : TaxRate) : Z :=
  taken + ((if tr_Compound r then notionalBase + taken else notionalBase) * tr_RateBps r
           + BpsScale - 1) / BpsScale.

Definition line_step (amount total : Z) (r : TaxRate) : Z :=
  total + (if tr_Compound r then amount + total else amount) * tr_RateBps r / BpsScale.

Definition stack_tax (amount : Z) (stack : list TaxRate) : Z := foldl (line_step amount) 0 stack.

Lemma guard_step_bounds taken r :
  0 <= taken -> rate_ok (tr_RateBps r) -> taken <= guard_step taken r <= 2 * taken + notionalBase.
Proof.
  intros Ht Hr. unfold guard_step, notionalBase in *. tax_bounds.
  assert (forall b, 0 <= b -> 0 <= (b * tr_RateBps r + 10000 - 1) / 10000 <= b) as Hb.
  { intros b Hb. split; [apply Z.div_pos; nia|].
    apply Z.lt_succ_r, Z.div_lt_upper_bound; nia. }
  pose proof (Hb (100000000 + taken) ltac:(lia)). pose proof (Hb 100000000 ltac:(lia)).
  destruct (tr_Compound r); lia.
Qed.

Lemma taken_of_exact chain :
  Forall (fun r => rate_ok (tr_RateBps r)) chain -> (length chain <= 4)%nat ->
  taken_of chain = foldl guard_step 0 chain.
Proof.
  unfold taken_of. intros Hchain Hlen.
  assert (forall taken, 0 <= taken ->
    (taken + notionalBase) * 2 ^ Z.of_nat (length chain) <= 2 ^ 48 ->
    foldl taken_after taken chain = foldl guard_step taken chain) as Hall.
  { clear Hlen. induction Hchain as [|r chain Hr _ IH]; [done|]. intros taken Ht Hb.
    rewrite length_cons, Nat2Z.inj_succ, Z.pow_succ_r in Hb by lia.
    pose proof (guard_step_bounds taken r Ht Hr).
    assert (1 <= 2 ^ Z.of_nat (length chain)) by (apply Z.pow_le_mono_r with (b := 0); lia).
    simpl. assert (taken_after taken r = guard_step taken r) as ->.
    { unfold taken_after, guard_step in *. unfold notionalBase in *. tax_bounds.
      assert (Hm : 2 ^ 48 = 281474976710656) by done. rewrite Hm in Hb.
      assert (0 <= taken <= 281474976710656) by nia.
      assert (0 <= (100000000 + taken) * tr_RateBps r <= 282000000000000 * 10000) by nia.
      assert (0 <= 100000000 * tr_RateBps r <= 100000000 * 10000) by nia.
      assert (forall z, 0 <= z <= 282000000000000 * 10000 ->
        taken +₆₄ div64 ((z +₆₄ 10000) -₆₄ 1) 10000 = taken + (z + 10000 - 1) / 10000) as Hz.
      { intros z Hz. rewrite (add64_exact z) by in64. rewrite sub64_exact by in64.
        rewrite div64_exact by (unfold int64_max; lia).
        assert (0 <= (z + 10000 - 1) / 10000 <= 282000000000000 * 10000)
          by (split; [apply Z.div_pos; lia|apply Z.div_le_upper_bound; lia]).
        apply add64_exact. in64. }
      destruct (tr_Compound r).
      - rewrite (add64_exact 100000000) by in64. rewrite mul64_exact by in64. apply Hz; lia.
      - rewrite mul64_exact by in64. apply Hz; lia. }
    apply IH; [lia|]. unfold notionalBase in *. nia. }
  apply Hall; [lia|]. unfold notionalBase.
  assert (2 ^ Z.of_nat (length chain) <= 2 ^ 4) by (apply Z.pow_le_mono_r; lia). nia.
Qed.

Lemma taken_of_app chain chain' :
  Forall2 (fun a b => tr_RateBps a = tr_RateBps b /\ tr_Compound a = tr_Compound b) chain chain' ->
  taken_of chain = taken_of chain'.
Proof.
  unfold taken_of. generalize 0. intros z H. revert z.
  induction H as [|a b chain chain' [Hb Hc] _ IH]; [done|]. intros z. simpl.
  unfold taken_after at 2 4. rewrite Hb, Hc. apply IH.
Qed.

(** The guard is more pessimistic than the calculation: what it says of the notional base bounds
    what the calculation takes of any amount. *)
Lemma guard_bounds_tax amount stack :
  0 <= amount -> Forall (fun r => rate_ok (tr_RateBps r)) stack ->
  0 <= stack_tax amount stack /\
  notionalBase * stack_tax amount stack <= amount * foldl guard_step 0 stack.
Proof.
  intros Ha. unfold stack_tax.
  assert (forall total taken, 0 <= total -> 0 <= taken -> notionalBase * total <= amount * taken ->
    Forall (fun r => rate_ok (tr_RateBps r)) stack ->
    0 <= foldl (line_step amount) total stack /\
    notionalBase * foldl (line_step amount) total stack <= amount * foldl guard_step taken stack)
    as Hall; [|intros; apply Hall; lia || done].
  induction stack as [|r stack IH]; [done|]. intros total taken Ht Hk Hinv [Hr Hs]%Forall_cons.
  simpl. pose proof (guard_step_bounds taken r Hk Hr).
  assert (forall b B, 0 <= b -> 0 <= B -> notionalBase * b <= amount * B ->
    0 <= b * tr_RateBps r / BpsScale /\
    notionalBase * (b * tr_RateBps r / BpsScale) <=
      amount * ((B * tr_RateBps r + BpsScale - 1) / BpsScale)) as Hstep.
  { intros b B Hb HB HbB. tax_bounds. unfold notionalBase in *.
    pose proof (Z.mul_div_le (b * tr_RateBps r) 10000 ltac:(lia)).
    pose proof (Z.mul_succ_div_gt (B * tr_RateBps r + 10000 - 1) 10000 ltac:(lia)).
    split; [apply Z.div_pos; nia|].
    set (f := b * tr_RateBps r / 10000) in *.
    set (c := (B * tr_RateBps r + 10000 - 1) / 10000) in *.
    assert (B * tr_RateBps r <= 10000 * c) by lia.
    assert (100000000 * (10000 * f) <= 100000000 * (b * tr_RateBps r)) by lia.
    assert (100000000 * b * tr_RateBps r <= amount * B * tr_RateBps r) by nia.
    assert (amount * (B * tr_RateBps r) <= amount * (10000 * c)) by nia. nia. }
  apply IH; [| | |done]; unfold line_step, guard_step in *; unfold notionalBase in *;
    destruct (tr_Compound r).
  all: try (pose proof (Hstep (amount + total) (100000000 + taken)); nia).
  all: pose proof (Hstep amount 100000000); nia.
Qed.

(** ** The table's standing rates *)

Definition stands (rates : list TaxRate) : gmap string TaxRate :=
  foldl (fun m r => match tr_StacksOnID r with Some b => keep_least b r m | None => m end) ∅ rates.

Lemma newRateTable_standing chain rates rules :
  rt_standing (newRateTable chain rates rules) = stands rates.
Proof.
  unfold newRateTable, stands. simpl.
  assert (forall byRate t, rt_standing (foldl (place_rate byRate) t rates) =
    foldl (fun m r => match tr_StacksOnID r with Some b => keep_least b r m | None => m end)
      (rt_standing t) rates) as Hall; [|apply Hall].
  intros byRate. induction rates as [|r rates IH]; intros t; [done|].
  simpl. rewrite IH. f_equal. unfold place_rate. by destruct (tr_StacksOnID r), (tr_IsDefault r).
Qed.

Lemma keep_least_Some k r m b x :
  keep_least k r m !! b = Some x -> (b = k /\ x = r) \/ m !! b = Some x.
Proof.
  unfold keep_least. intros H.
  assert (keep_or : <[k := r]> m !! b = Some x \/ m !! b = Some x)
    by (destruct (m !! k); [case_match|]; auto).
  destruct keep_or as [Hk|Hk]; [|by right].
  apply lookup_insert_Some in Hk as [[-> ->]|[_ Hk]]; [by left|by right].
Qed.

Lemma keep_least_is_Some k r m b : b = k \/ is_Some (m !! b) -> is_Some (keep_least k r m !! b).
Proof.
  intros H. unfold keep_least. destruct (decide (b = k)) as [->|Hne].
  - destruct (m !! k) eqn:E; [case_match|]; rewrite ?lookup_insert_eq, ?E; by eexists.
  - destruct H as [|H]; [done|].
    destruct (m !! k) eqn:E; [case_match|]; rewrite ?lookup_insert_ne by done; done.
Qed.

Lemma stands_Some rates b x : stands rates !! b = Some x -> x ∈ rates /\ tr_StacksOnID x = Some b.
Proof.
  unfold stands. assert (forall m, foldl (fun m r => match tr_StacksOnID r with
    Some b => keep_least b r m | None => m end) m rates !! b = Some x ->
    m !! b = Some x \/ x ∈ rates /\ tr_StacksOnID x = Some b) as Hall.
  { induction rates as [|r rates IH]; intros m; simpl; [by left|]. intros [H|[Hin Hx]]%IH.
    - destruct (tr_StacksOnID r) eqn:E; [|by left]. apply keep_least_Some in H as [[-> ->]|H];
        [right; by split; [left|]|by left].
    - right. split; [by right|done]. }
  intros [H|H]%Hall; [done|done].
Qed.

Lemma stands_None rates b :
  stands rates !! b = None <-> forall r, r ∈ rates -> tr_StacksOnID r <> Some b.
Proof.
  split.
  - intros Hnone r Hr Hb.
    assert (is_Some (stands rates !! b)) as [x Hx]; [|congruence]. clear Hnone. unfold stands.
    assert (forall l m, b ∈ omap tr_StacksOnID l \/ is_Some (m !! b) -> is_Some (foldl (fun m r =>
      match tr_StacksOnID r with Some b => keep_least b r m | None => m end) m l !! b)) as Hall.
    { clear. induction l as [|r l IH]; intros m; csimpl; [by intros [?%not_elem_of_nil|]|].
      intros H. apply IH. destruct (tr_StacksOnID r) as [b'|]; [|done].
      rewrite elem_of_cons in H.
      destruct H as [[->|H]|H]; [right; apply keep_least_is_Some; by left|by left|].
      right. apply keep_least_is_Some. by right. }
    apply Hall. left. apply list_elem_of_omap. by exists r.
  - intros H. destruct (stands rates !! b) as [x|] eqn:E; [|done].
    apply stands_Some in E as [Hx Hb]. by destruct (H x).
Qed.

Definition one_each (rates : list TaxRate) : Prop := forall x y b, x ∈ rates -> y ∈ rates ->
  tr_StacksOnID x = Some b -> tr_StacksOnID y = Some b -> x = y.

Lemma stands_one rates x b :
  one_each rates -> x ∈ rates -> tr_StacksOnID x = Some b -> stands rates !! b = Some x.
Proof.
  intros Hone Hx Hb. destruct (stands rates !! b) as [y|] eqn:E.
  - apply stands_Some in E as [Hy Hyb]. f_equal. by eapply Hone.
  - by destruct (proj1 (stands_None rates b) E x).
Qed.

(** The four rounds of [stackFrom] are enough: where the code would go on, it has four components
    and stops. *)
Lemma stack_rounds_enough extra standing base stack current :
  (length stack < 4)%nat ->
  stack_rounds (4 - length stack + extra) standing base stack current =
  stack_rounds (4 - length stack) standing base stack current.
Proof.
  remember (4 - length stack)%nat as n eqn:Hn. revert stack current Hn.
  induction n as [|n IH]; intros stack current Hn Hlen; [lia|]. simpl.
  destruct (standing !! tr_ID current); [|done].
  destruct (maxStackDepth <=? _) eqn:E; [done|]. unfold maxStackDepth in E. reflect_bools.
  rewrite length_app in E. simpl in E. apply IH; rewrite length_app; simpl; lia.
Qed.

(** [stackFrom] finds the stack on a rate, when it has at most four components. *)
Lemma stackFrom_path rates base l :
  one_each rates -> stack_path rates (base :: l) -> (length (base :: l) <= 4)%nat ->
  stack_rounds 4 (stands rates) base [] base = Ok (base :: l).
Proof.
  intros Hone Hpath Hlen.
  assert (forall rounds done_ current rest, (length done_ + rounds = 4)%nat ->
    stack_path rates (current :: rest) -> (length done_ + length (current :: rest) <= 4)%nat ->
    stack_rounds rounds (stands rates) base done_ current = Ok (done_ ++ current :: rest)) as Hall;
    [|apply (Hall 4%nat []); done].
  clear l Hpath Hlen. induction rounds as [|rounds IH]; intros d current rest Hr Hpath Hlen;
    [simpl in Hlen; lia|].
  destruct Hpath as [Hin Hpath]. simpl. destruct rest as [|y rest].
  - by rewrite (proj2 (stands_None rates _) Hpath).
  - destruct Hpath as [Hy Hpath]. assert (y ∈ rates) by apply Hpath.
    rewrite (stands_one rates y) by done. rewrite length_app. simpl in *.
    rewrite (proj2 (Z.leb_gt _ _)) by (unfold maxStackDepth; lia).
    rewrite (IH _ _ rest); [by rewrite <- app_assoc|rewrite length_app; simpl; lia|done|].
    rewrite length_app. simpl. lia.
Qed.

Lemma stackFrom_Ok rates base l :
  base ∈ rates -> stack_rounds 4 (stands rates) base [] base = Ok l ->
  stack_path rates l /\ head l = Some base /\ (length l <= 4)%nat.
Proof.
  intros Hbase. assert (forall rounds done_ current, (length done_ + rounds = 4)%nat ->
    current ∈ rates -> stack_rounds rounds (stands rates) base done_ current = Ok l ->
    exists rest, l = done_ ++ current :: rest /\ stack_path rates (current :: rest) /\
      (length l <= 4)%nat) as Hall.
  { induction rounds as [|rounds IH]; intros d current Hr Hin; simpl; [done|].
    destruct (stands rates !! tr_ID current) as [y|] eqn:E.
    - destruct (_ <=? _) eqn:El; [done|]. apply stands_Some in E as [Hy Hb]. intros Hok.
      apply IH in Hok as (rest & -> & Hp & Hl); [|rewrite length_app; simpl; lia|done].
      exists (y :: rest). rewrite <- app_assoc in *. split; [done|]. split; [|done]. by split.
    - intros [= <-]. exists []. split; [done|]. split; [|rewrite length_app; simpl; lia].
      split; [done|]. by apply stands_None. }
  intros (rest & -> & Hp & Hl)%(Hall 4%nat []); done.
Qed.

(** ** The walks down a stack *)

Lemma by_id_Some rates id r : by_id rates !! id = Some r -> r ∈ rates /\ tr_ID r = id.
Proof.
  unfold by_id. assert (forall m : gmap string TaxRate,
    foldl (fun m r => <[tr_ID r := r]> m) m rates !! id = Some r ->
    m !! id = Some r \/ r ∈ rates /\ tr_ID r = id) as Hall.
  { induction rates as [|x rates IH]; intros m; simpl; [by left|]. intros [H|[Hin Hr]]%IH.
    - apply lookup_insert_Some in H as [[<- ->]|[_ H]]; [right; by split; [left|]|by left].
    - right. split; [by right|done]. }
  intros [H|H]%Hall; [done|done].
Qed.

Lemma by_id_in rates r : NoDup (tr_ID <$> rates) -> r ∈ rates -> by_id rates !! tr_ID r = Some r.
Proof.
  intros Hids Hr. destruct (by_id rates !! tr_ID r) as [x|] eqn:E.
  - apply by_id_Some in E as [Hx Heq]. f_equal. by apply (same_id rates).
  - exfalso. revert E. unfold by_id.
    assert (forall l (m : gmap string TaxRate), r ∈ l \/ is_Some (m !! tr_ID r) ->
      is_Some (foldl (fun m r => <[tr_ID r := r]> m) m l !! tr_ID r)) as Hall.
    { clear. induction l as [|x l IH]; intros m; simpl; [by intros [?%not_elem_of_nil|]|].
      intros H. apply IH. destruct (decide (tr_ID x = tr_ID r)) as [->|Hne].
      - right. rewrite lookup_insert_eq. by eexists.
      - rewrite lookup_insert_ne by done. destruct H as [[->|H]%elem_of_cons|H]; [done|by left|by right]. }
    destruct (Hall rates ∅) as [x ->]; [by left|done].
Qed.

Lemma walk_down_Ok rates byID rounds seen chain current l :
  (forall id r, byID !! id = Some r -> r ∈ rates /\ tr_ID r = id) -> current ∈ rates ->
  walk_down rounds byID seen chain current = Ok l ->
  exists rest, l = chain ++ current :: rest /\ down_path rates (current :: rest).
Proof.
  intros Hby. revert seen chain current. induction rounds as [|rounds IH]; intros seen chain current Hin;
    simpl; destruct (bool_decide _); try done; destruct (tr_StacksOnID current) as [b|] eqn:Eb.
  - by destruct (byID !! b).
  - intros [= <-]. by exists [].
  - destruct (byID !! b) as [below|] eqn:E; [|done]. apply Hby in E as [Hb Hid].
    intros (rest & -> & Hd)%IH; [|done]. exists (below :: rest). rewrite <- app_assoc.
    split; [done|]. split; [done|]. split; [by rewrite Hid|done].
  - intros [= <-]. by exists [].
Qed.

Lemma find_base_root rates d rounds seen x root :
  NoDup (tr_ID <$> rates) -> down_path rates (x :: d) -> last (x :: d) = Some root ->
  (forall y, y ∈ x :: d -> tr_ID y ∉ seen) -> (length d <= rounds)%nat ->
  find_base rounds (by_id rates) seen x = root.
Proof.
  intros Hids. revert d seen x. induction rounds as [|rounds IH]; intros [|y d] seen x Hd Hlast Hseen Hlen;
    try (simpl in Hlen; lia).
  - injection Hlast as ->. simpl. destruct Hd as [_ ->]. done.
  - injection Hlast as ->. simpl. destruct Hd as [_ ->]. done.
  - assert (NoDup (x :: y :: d)) as Hnd by by apply (down_path_NoDup rates).
    assert (Forall (.∈ rates) (x :: y :: d)) as Hall by by apply down_path_steps in Hd as [? _].
    destruct Hd as [Hx [Hxy Hd]]. simpl. rewrite Hxy, bool_decide_false by (apply Hseen; left).
    assert (y ∈ rates) as Hy by apply Hd. rewrite by_id_in by done.
    apply (IH d); [done|done| |simpl in Hlen; lia].
    intros z Hz. rewrite elem_of_union, elem_of_singleton. intros [Heq|Hs].
    + assert (z = x) as ->.
      { apply (same_id rates); [done| |done|done]. apply (proj1 (Forall_forall _ _) Hall). by right. }
      apply NoDup_cons in Hnd as [Hx' _]. done.
    + apply (Hseen z); [by right|done].
Qed.

(** One round more than there are rates is enough for [walk_down]: the refusal for want of rounds
    is never given to a way down that ends. *)
Lemma walk_down_enough rates byID d rounds seen chain x :
  NoDup (tr_ID <$> rates) -> down_path rates (x :: d) ->
  (forall y, y ∈ rates -> byID !! tr_ID y = Some y) ->
  (forall y, y ∈ x :: d -> tr_ID y ∉ seen) -> (length d <= rounds)%nat ->
  walk_down rounds byID seen chain x = Ok (chain ++ x :: d).
Proof.
  intros Hids. revert d seen chain x.
  induction rounds as [|rounds IH]; intros [|y d] seen chain x Hd Hby Hseen Hlen;
    try (simpl in Hlen; lia); simpl; rewrite bool_decide_false by (apply Hseen; left).
  - by destruct Hd as [_ ->].
  - by destruct Hd as [_ ->].
  - assert (NoDup (x :: y :: d)) as Hnd by by apply (down_path_NoDup rates).
    assert (Forall (.∈ rates) (x :: y :: d)) as Hall by by apply down_path_steps in Hd as [? _].
    destruct Hd as [Hx [Hxy Hd]]. rewrite Hxy. assert (y ∈ rates) as Hy by apply Hd.
    rewrite Hby by done. rewrite (IH d); [by rewrite <- app_assoc|done|done| |simpl in Hlen; lia].
    intros z Hz. rewrite elem_of_union, elem_of_singleton. intros [Heq|Hs].
    + assert (z = x) as ->.
      { apply (same_id rates); [done| |done|done]. apply (proj1 (Forall_forall _ _) Hall). by right. }
      apply NoDup_cons in Hnd as [Hx' _]. done.
    + apply (Hseen z); [by right|done].
Qed.

(** ** Sound rates *)

(** What the calculation relies on: rates in range, one rate at most standing on another, and on
    every rate that can be chosen a stack of at most four that the guard accepts. *)
Record rates_ok (rates : list TaxRate) : Prop := {
  ro_ids : NoDup (tr_ID <$> rates);
  ro_bps : Forall (fun r => rate_ok (tr_RateBps r)) rates;
  ro_one : one_each rates;
  ro_default r : r ∈ rates -> tr_IsDefault r = true -> tr_StacksOnID r = None;
  ro_stacks r : r ∈ rates -> tr_StacksOnID r = None ->
    exists l, stack_path rates (r :: l) /\ (length (r :: l) <= 4)%nat /\
      taken_of (r :: l) <= notionalBase
}.

Lemma assertStackWithinBase_None chain :
  assertStackWithinBase chain = None <-> taken_of chain <= notionalBase.
Proof. unfold assertStackWithinBase. split_matches; reflect_bools; split; (done || lia). Qed.

Lemma taken_of_one r : rate_ok (tr_RateBps r) -> taken_of [r] <= notionalBase.
Proof.
  intros Hr. rewrite taken_of_exact; [|by constructor|simpl; lia]. simpl.
  pose proof (guard_step_bounds 0 r ltac:(lia) Hr). lia.
Qed.

(** Whatever chosen, the stack found takes no more than the line. *)
Lemma rates_ok_stack rates r :
  rates_ok rates -> r ∈ rates -> tr_StacksOnID r = None ->
  exists l, stack_rounds 4 (stands rates) r [] r = Ok (r :: l) /\
    Forall (fun x => x ∈ rates) (r :: l) /\ (length (r :: l) <= 4)%nat /\
    forall amount, 0 <= amount -> 0 <= stack_tax amount (r :: l) <= amount.
Proof.
  intros Hok Hr Hroot. destruct (ro_stacks _ Hok r Hr Hroot) as (l & Hp & Hlen & Htaken).
  exists l. split; [by apply stackFrom_path; [apply Hok| |]|].
  assert (Forall (fun x => x ∈ rates) (r :: l)) as Hin by by apply stack_path_steps in Hp as [? _].
  split; [done|]. split; [done|]. intros amount Ha.
  assert (Forall (fun x => rate_ok (tr_RateBps x)) (r :: l)) as Hbps.
  { eapply Forall_impl; [exact Hin|]. intros x Hx.
    eapply (Forall_forall (fun r => rate_ok (tr_RateBps r))); [apply Hok|done]. }
  rewrite taken_of_exact in Htaken by done.
  destruct (guard_bounds_tax amount (r :: l) Ha Hbps) as [Hpos Hb]. split; [done|].
  unfold notionalBase in *. nia.
Qed.
