(* ===== verification/TaxLines.v ===== *)
(** * Lines of a tax calculation

    What the local provider answers for a line, and what the service makes of any provider's
    answer. *)
From S2P Require Import Prelude GoText Errors TaxModels TaxRates TaxCalculate TaxStack TaxStackFacts.

(** ** Selection *)

Definition from_rates (rates : list TaxRate) (region : string) (r : TaxRate) : Prop :=
  r ∈ rates /\ tr_StacksOnID r = None /\ tr_TaxRegionID r = region.

Lemma place_rates_spec byRate chain (rates : list TaxRate) :
  let t := foldl (place_rate byRate) (mkRateTable chain ∅ ∅ ∅) rates in
  rt_chain t = chain /\
  (forall region l c, rt_ruled t !! region = Some l -> c ∈ l ->
     from_rates rates region (rl_rate c) /\ tr_IsDefault (rl_rate c) = false /\
     rl_rules c = default [] (byRate !! tr_ID (rl_rate c))) /\
  (forall region r, rt_fallback t !! region = Some r ->
     from_rates rates region r /\ tr_IsDefault r = true).
Proof.
  cut (forall all t, (forall r, r ∈ rates -> r ∈ all) ->
    (forall region l c, rt_ruled t !! region = Some l -> c ∈ l ->
       from_rates all region (rl_rate c) /\ tr_IsDefault (rl_rate c) = false /\
       rl_rules c = default [] (byRate !! tr_ID (rl_rate c))) ->
    (forall region r, rt_fallback t !! region = Some r -> from_rates all region r /\ tr_IsDefault r = true) ->
    let t' := foldl (place_rate byRate) t rates in
    rt_chain t' = rt_chain t /\
    (forall region l c, rt_ruled t' !! region = Some l -> c ∈ l ->
       from_rates all region (rl_rate c) /\ tr_IsDefault (rl_rate c) = false /\
       rl_rules c = default [] (byRate !! tr_ID (rl_rate c))) /\
    (forall region r, rt_fallback t' !! region = Some r -> from_rates all region r /\ tr_IsDefault r = true)).
  { intros Hall. apply Hall; [done|done|done]. }
  intros all. induction rates as [|r rates IH]; intros t Hin Hruled Hfall; [done|].
  assert (r ∈ all) as Hr by (apply Hin; left).
  cbn [foldl]. destruct (IH (place_rate byRate t r)) as (Hc & Hr' & Hf'); clear IH.
  - intros x Hx. apply Hin. by right.
  - unfold place_rate. destruct (tr_StacksOnID r) eqn:Es; [done|]. destruct (tr_IsDefault r) eqn:Ed; [done|].
    simpl. intros region l c. unfold map_append.
    destruct (decide (tr_TaxRegionID r = region)) as [<-|Hne].
    + rewrite lookup_insert_eq. intros [= <-] [Hc| ->%list_elem_of_singleton]%elem_of_app; [|done].
      destruct (rt_ruled t !! tr_TaxRegionID r) eqn:E; [by eapply Hruled|by apply not_elem_of_nil in Hc].
    + rewrite lookup_insert_ne by done. apply Hruled.
  - unfold place_rate. destruct (tr_StacksOnID r) eqn:Es; [done|]. destruct (tr_IsDefault r) eqn:Ed; [|done].
    simpl. intros region x [[-> ->]|H]%keep_least_Some; [done|by apply Hfall].
  - split; [|done]. rewrite Hc. unfold place_rate. by destruct (tr_StacksOnID r), (tr_IsDefault r).
Qed.

Lemma best_candidate_in keys l best spec r :
  best_candidate keys best spec l = Some r -> best = Some r \/ exists c, c ∈ l /\ rl_rate c = r.
Proof.
  revert best spec. induction l as [|c l IH]; intros best spec; simpl; [by left|].
  destruct (_ <? _); intros [H|(c' & Hc & Hr)]%IH.
  - injection H as <-. right. exists c. split; [by left|done].
  - right. exists c'. split; [by right|done].
  - by left.
  - right. exists c'. split; [by right|done].
Qed.

Lemma newRateTable_chain chain rates rules : rt_chain (newRateTable chain rates rules) = chain.
Proof. apply (place_rates_spec _ chain rates). Qed.

Lemma selectRate_in chain rates rules keys r :
  selectRate (newRateTable chain rates rules) keys = Some r ->
  exists region, region ∈ chain /\ from_rates rates region r.
Proof.
  unfold selectRate. rewrite newRateTable_chain.
  destruct (place_rates_spec (rules_by_rate rules) chain rates) as (_ & Hruled & Hfall).
  assert (forall walked, select_in (newRateTable chain rates rules) keys walked = Some r ->
    exists region, region ∈ walked /\ from_rates rates region r) as Hall; [|apply Hall].
  induction walked as [|region walked IH]; [done|]. simpl.
  destruct (best_candidate _ _ _ _) as [b|] eqn:E.
  - intros [= ->]. exists region. split; [by left|].
    apply best_candidate_in in E as [|(c & Hc & <-)]; [done|].
    rewrite lookup_fmap in Hc.
    destruct (rt_ruled _ !! region) as [l|] eqn:El; simpl in Hc; [|by apply not_elem_of_nil in Hc].
    apply SortFunc_elem in Hc. by eapply Hruled.
  - destruct (rt_fallback _ !! region) eqn:Ef.
    + intros [= ->]. exists region. split; [by left|]. by apply Hfall.
    + intros (g & ? & ?)%IH. exists g. split; [by right|done].
Qed.

(** ** The tax of a line *)

Lemma line_step_grows amount total r :
  0 <= amount -> 0 <= total -> rate_ok (tr_RateBps r) -> total <= line_step amount total r.
Proof.
  intros Ha Ht Hr. unfold line_step. tax_bounds.
  assert (forall b, 0 <= b -> 0 <= b * tr_RateBps r / 10000) as Hb by (intros; apply Z.div_pos; nia).
  destruct (tr_Compound r); [specialize (Hb (amount + total) ltac:(lia))|specialize (Hb amount ltac:(lia))]; lia.
Qed.

Lemma line_steps_grow amount stack total :
  0 <= amount -> 0 <= total -> Forall (fun r => rate_ok (tr_RateBps r)) stack ->
  total <= foldl (line_step amount) total stack.
Proof.
  intros Ha Ht Hs. revert total Ht. induction Hs as [|r stack Hr _ IH]; intros total Ht; simpl; [lia|].
  pose proof (line_step_grows amount total r Ha Ht Hr). specialize (IH (line_step amount total r)). lia.
Qed.

(** A component as the contract wants it. *)
Definition component_ok (c : TaxComponent) : Prop :=
  rate_ok (tc_RateBps c) /\ 0 <= tc_TaxAmount c <= tc_TaxableAmount c /\ tc_TaxAmount c <= int64_max.

Lemma apply_stack_Ok amount stack total components :
  0 <= amount -> 2 * amount <= MaxTaxableAmount -> 0 <= total ->
  Forall (fun r => rate_ok (tr_RateBps r)) stack -> foldl (line_step amount) total stack <= amount ->
  exists cs, apply_stack amount total components stack =
      Ok (foldl (line_step amount) total stack, components ++ cs) /\
    length cs = length stack /\ Forall component_ok cs /\
    sumZ (tc_TaxAmount <$> cs) = foldl (line_step amount) total stack - total.
Proof.
  intros Ha Hmax Ht Hs. revert total components Ht.
  induction Hs as [|r stack Hr Hs IH]; intros total components Ht Hend; simpl in *.
  { exists []. rewrite app_nil_r, fmap_nil, sumZ_nil. split; [done|]. split; [done|]. split; [done|lia]. }
  pose proof (line_step_grows amount total r Ha Ht Hr).
  pose proof (line_steps_grow amount stack (line_step amount total r) Ha ltac:(lia) Hs).
  set (base := if tr_Compound r then amount + total else amount).
  assert (Hbase : amount_ok base) by (unfold base, amount_ok; destruct (tr_Compound r); lia).
  assert (base' : (if tr_Compound r then addAmount amount total else Ok amount) = Ok base).
  { unfold base. destruct (tr_Compound r); [|done]. apply addAmount_Ok; [tax_bounds; lia|].
    unfold amount_ok in Hbase. lia. }
  assert (Hstep : line_step amount total r = total + base * tr_RateBps r / BpsScale) by done.
  pose proof (tax_floor_bounds base (tr_RateBps r) Hbase Hr) as Htax.
  assert (Hadd : addAmount total (base * tr_RateBps r / BpsScale) = Ok (line_step amount total r)).
  { apply addAmount_Ok; [|lia]. unfold amount_ok in Hbase. tax_bounds. lia. }
  rewrite base'. simpl. rewrite (proj2 (TaxOf_Ok _ _ _) (conj Hbase (conj Hr eq_refl))). simpl.
  rewrite Hadd. simpl.
  destruct (IH (line_step amount total r) (components ++ [mkTaxComponent (tr_ID r) (tr_RateBps r)
    (tr_Compound r) base (base * tr_RateBps r / BpsScale)]) ltac:(lia) Hend) as (cs & Hcs & Hlen & Hok & Hsum).
  rewrite Hcs. eexists. split; [by rewrite <- app_assoc|]. split; [by simpl; rewrite Hlen|].
  split; [|csimpl; rewrite sumZ_cons, Hsum; simpl; lia].
  constructor; [|done]. split; [done|]. simpl. unfold amount_ok in Hbase. tax_bounds. lia.
Qed.

(** A provider's line as the contract wants it. *)
Record line_ok (amount : Z) (included : bool) (line : ProviderItemTax) : Prop := {
  lo_bps : rate_ok (pt_RateBps line);
  lo_tax : 0 <= pt_TaxAmount line <= amount;
  lo_base : included = true -> 0 <= pt_TaxableAmount line /\
    pt_TaxableAmount line + pt_TaxAmount line = amount;
  lo_components : pt_Components line = [] \/ (2 <= length (pt_Components line) <= 4)%nat /\
    Forall component_ok (pt_Components line) /\
    sumZ (tc_TaxAmount <$> pt_Components line) = pt_TaxAmount line
}.

Lemma untaxed_ok id amount included : 0 <= amount -> line_ok amount included (untaxed id amount).
Proof. intros. split; simpl; [by unfold rate_ok, MinRateBps, MaxRateBps| | |]; auto with lia. Qed.

Lemma applyTo_ok chain rates rules keys id amount included :
  rates_ok rates -> (included = true -> Forall (fun r => tr_StacksOnID r = None) rates) ->
  0 <= amount -> 2 * amount <= MaxTaxableAmount ->
  exists line, applyTo (newRateTable chain rates rules) keys id amount included = Ok line /\
    pt_ID line = id /\ line_ok amount included line.
Proof.
  intros Hok Hinc Ha Hmax. unfold applyTo.
  destruct (selectRate _ keys) as [r|] eqn:Er; [|exists (untaxed id amount); auto using untaxed_ok].
  apply selectRate_in in Er as (region & _ & Hr & Hroot & _).
  destruct (rates_ok_stack rates r Hok Hr Hroot) as (l & Hstack & Hin & Hlen & Htotal).
  unfold stackFrom. rewrite newRateTable_standing, Hstack. cbn [mbind result_bind].
  assert (Forall (fun x => rate_ok (tr_RateBps x)) (r :: l)) as Hbps.
  { eapply Forall_impl; [exact Hin|]. intros x Hx.
    eapply (Forall_forall (fun r => rate_ok (tr_RateBps r))); [apply Hok|done]. }
  pose proof (Forall_inv Hbps) as Hrb. simpl in Hrb. destruct included.
  - destruct l as [|x l].
    + simpl. assert (Hamount : amount_ok amount) by (unfold amount_ok; lia).
      rewrite (proj2 (TaxIncludedIn_Ok _ _ _) (conj Hamount (conj Hrb eq_refl))). simpl.
      pose proof (included_floor_bounds amount (tr_RateBps r) Hamount Hrb) as Ht.
      eexists. split; [done|]. split; [done|].
      rewrite sub64_exact by (tax_bounds; lia). split; simpl; [done|done|lia|by left].
    + exfalso. destruct (rates_ok_stack rates r Hok Hr Hroot) as (l' & Hl' & _).
      rewrite Hstack in Hl'. injection Hl' as <-. apply stackFrom_Ok in Hstack as (Hp & _); [|done].
      destruct Hp as [_ [Hxr Hp]]. specialize (Hinc eq_refl).
      rewrite (proj1 (Forall_forall _ _) Hinc x) in Hxr by apply Hp. done.
  - destruct (Htotal amount Ha) as [Hpos Hle].
    destruct (apply_stack_Ok amount (r :: l) 0 [] Ha Hmax ltac:(lia) Hbps Hle) as (cs & -> & Hcl & Hc & Hs).
    cbn [mbind result_bind default head app]. eexists. split; [done|]. split; [done|].
    split; simpl; [done|done|done|]. destruct (1 <? _) eqn:E; [|by left]. reflect_bools.
    right. simpl in *. split; [lia|]. split; [done|]. rewrite Hs. unfold stack_tax. simpl. lia.
Qed.

(** ** What the service accepts *)

Definition component_int64 (c : TaxComponent) : Prop := tc_TaxAmount c <= int64_max.

Lemma sum_components_Ok p id i total cs :
  0 <= total -> Forall component_ok cs -> total + sumZ (tc_TaxAmount <$> cs) <= MaxTaxableAmount ->
  sum_components p id i total cs = Ok (total + sumZ (tc_TaxAmount <$> cs)).
Proof.
  intros Ht Hcs. revert i total Ht. induction Hcs as [|c cs (Hr & Htax & Hmax) Hcs IH]; intros i total Ht Hs.
  { simpl. by rewrite sumZ_nil, Z.add_0_r. }
  csimpl in Hs. csimpl. rewrite sumZ_cons in *.
  assert (0 <= sumZ (tc_TaxAmount <$> cs)).
  { apply sumZ_nonneg, Forall_fmap. eapply Forall_impl; [exact Hcs|]. intros x (_ & ? & _). simpl. lia. }
  assert (Ha : addAmount total (tc_TaxAmount c) = Ok (total + tc_TaxAmount c)) by (apply addAmount_Ok; lia).
  unfold rate_ok in Hr. rewrite !(proj2 (Z.ltb_ge _ _)) by lia. simpl. rewrite Ha. simpl.
  rewrite IH by lia. f_equal. lia.
Qed.

Lemma sum_components_sum p id i total cs sum :
  0 <= total -> Forall component_int64 cs -> sum_components p id i total cs = Ok sum ->
  sum = total + sumZ (tc_TaxAmount <$> cs).
Proof.
  intros Ht Hcs. revert i total Ht. induction Hcs as [|c cs Hc _ IH]; intros i total Ht; cbn [sum_components].
  { intros [= <-]. rewrite fmap_nil, sumZ_nil. lia. }
  destruct (_ || _); [done|]. destruct (_ || _) eqn:E; [done|]. reflect_bools.
  destruct (addAmount _ _) as [s|] eqn:Ea; [|done]. apply addAmount_Ok in Ea; [|done]. cbn [mbind result_bind].
  intros Hsum. destruct Ea as (_ & Hc0 & _ & ->). apply IH in Hsum as ->; [|lia].
  rewrite fmap_cons, sumZ_cons. lia.
Qed.

Lemma sum_components_parts p id i total cs sum :
  sum_components p id i total cs = Ok sum -> Forall (fun c => 0 <= tc_TaxAmount c) cs.
Proof.
  revert i total. induction cs as [|c cs IH]; intros i total; cbn [sum_components]; [constructor|].
  destruct (_ || _); [done|]. destruct (_ || _) eqn:E; [done|]. reflect_bools. intros Hr. result_inv.
  constructor; [done|by eapply IH].
Qed.

Lemma validateLine_ok p line id amount included :
  amount <= MaxTaxableAmount -> line_ok amount included line -> exists out,
  validateLine p line id amount included = Ok out /\ it_TaxAmount out = pt_TaxAmount line.
Proof.
  intros Hmax [Hr Ht Hb Hc]. unfold validateLine. unfold rate_ok in Hr.
  rewrite !(proj2 (Z.ltb_ge _ _)) by lia. cbn [orb].
  assert (included && ((pt_TaxableAmount line <? 0) ||
    negb (pt_TaxableAmount line +₆₄ pt_TaxAmount line =? amount)) = false) as ->.
  { destruct included; [|done]. destruct (Hb eq_refl) as [Hpos Heq].
    rewrite (proj2 (Z.ltb_ge _ _)) by lia. rewrite add64_exact by (tax_bounds; lia). simpl.
    apply negb_false_iff, Z.eqb_eq. done. }
  assert (validateComponents p id (pt_Components line) (pt_TaxAmount line) = None) as ->;
    [|simpl; by eexists].
  unfold validateComponents. destruct Hc as [->|(Hlen & Hall & Hsum)]; [done|].
  unfold maxStackDepth. set (n := Z.of_nat (length (pt_Components line))).
  assert (2 <= n <= 4) by lia.
  rewrite (proj2 (Z.eqb_neq n 0)), (proj2 (Z.ltb_ge n 2)), (proj2 (Z.ltb_ge 4 n)) by lia.
  rewrite sum_components_Ok by (done || lia). rewrite Hsum, Z.add_0_l, Z.eqb_refl. done.
Qed.

(** What is said of an accepted line of [amount]. *)
Record item_sound (amount : Z) (included : bool) (line : ItemTax) : Prop := {
  is_bps : rate_ok (it_RateBps line);
  is_tax : 0 <= it_TaxAmount line <= amount;
  is_base : if included then 0 <= it_TaxableAmount line /\
      it_TaxableAmount line + it_TaxAmount line = amount
    else it_TaxableAmount line = amount;
  is_components : it_Components line = [] \/ (2 <= length (it_Components line) <= 4)%nat;
  is_sum : Forall component_int64 (it_Components line) -> it_Components line <> [] ->
    sumZ (tc_TaxAmount <$> it_Components line) = it_TaxAmount line;
  is_parts : Forall (fun c => 0 <= tc_TaxAmount c) (it_Components line)
}.

Lemma validateLine_sound p line id amount included out :
  amount <= MaxTaxableAmount -> in_int64 (pt_TaxableAmount line) ->
  validateLine p line id amount included = Ok out -> it_ID out = id /\ item_sound amount included out.
Proof.
  intros Hmax Hint. unfold validateLine. destruct (_ || _) eqn:E1; [done|].
  destruct (_ || _) eqn:E2 in |- *; [done|]. destruct (_ && _) eqn:E3; [done|].
  destruct (validateComponents _ _ _ _) eqn:E4; [done|]. intros [= <-]. reflect_bools.
  split; [done|]. split; simpl; [done|lia| | | |].
  - destruct included; [|done]. simpl in E3. reflect_bools.
    assert (pt_TaxableAmount line + pt_TaxAmount line = amount); [|done].
    destruct (decide (in_int64 (pt_TaxableAmount line + pt_TaxAmount line))) as [Hin|Hout].
    + by rewrite add64_exact in * by done.
    + exfalso. revert Hout. unfold add64, wrap64 in *. tax_bounds.
      pose proof (Z.mod_small (pt_TaxableAmount line + pt_TaxAmount line + 2 ^ 63) (2 ^ 64)).
      pose proof (Z.mod_unique (pt_TaxableAmount line + pt_TaxAmount line + 2 ^ 63) (2 ^ 64) 1
        (pt_TaxableAmount line + pt_TaxAmount line + 2 ^ 63 - 2 ^ 64)). lia.
  - unfold validateComponents in E4. unfold maxStackDepth in E4.
    destruct (_ =? _) eqn:Ez in E4; [reflect_bools; left; destruct (pt_Components line); [done|simpl in Ez; lia]|].
    destruct (_ <? _) eqn:E5 in E4; [done|]. destruct (4 <? _) eqn:E6 in E4; [done|].
    reflect_bools. right. lia.
  - intros Hcs Hne. unfold validateComponents in E4.
    destruct (_ =? _) eqn:Ez in E4; [reflect_bools; destruct (pt_Components line); [done|simpl in Ez; lia]|].
    destruct (_ <? _) in E4; [done|]. destruct (_ <? _) in E4; [done|].
    destruct (sum_components _ _ _ _ _) as [t|] eqn:Es; [|done]. apply sum_components_sum in Es; [|lia|done].
    destruct (negb _) eqn:En in E4; [done|]. reflect_bools. lia.
  - unfold validateComponents in E4. destruct (_ =? _) eqn:Ez in E4.
    + reflect_bools. destruct (pt_Components line); [constructor|simpl in Ez; lia].
    + destruct (_ <? _) in E4; [done|]. destruct (_ <? _) in E4; [done|].
      destruct (sum_components _ _ _ _ _) as [t|] eqn:Es; [|done]. by apply sum_components_parts in Es.
Qed.

Lemma assemble_items_sound p byID included items total sum out :
  (forall id line, byID !! id = Some line -> in_int64 (pt_TaxableAmount line)) ->
  0 <= total -> Forall (fun i => amount_ok (ti_Amount i)) items ->
  assemble_items p byID included total items = Ok (sum, out) ->
  it_ID <$> out = ti_ID <$> items /\
  Forall2 (fun i => item_sound (ti_Amount i) included) items out /\
  sum = total + sumZ (it_TaxAmount <$> out) /\ (out = [] \/ sum <= MaxTaxableAmount).
Proof.
  intros Hint Ht Hitems. revert total sum out Ht.
  induction Hitems as [|i items Hi _ IH]; intros total sum out Ht; simpl.
  { intros [= <- <-]. rewrite !fmap_nil, sumZ_nil. split; [done|]. split; [constructor|]. split; [lia|by left]. }
  destruct (byID !! ti_ID i) as [line|] eqn:El; [|done].
  destruct (validateLine _ _ _ _ _) as [o|] eqn:Ev; [|done]. simpl.
  apply validateLine_sound in Ev as [Hid Ho]; [|apply Hi|by eapply Hint].
  destruct (addAmount _ _) as [t|] eqn:Ea; [|done]. simpl.
  pose proof (is_tax _ _ _ Ho) as Hot. unfold amount_ok in Hi.
  apply addAmount_Ok in Ea as (_ & _ & Hmax & ->); [|tax_bounds; lia].
  destruct (assemble_items _ _ _ _ items) as [[s rest]|] eqn:Er; [|done]. simpl. intros [= <- <-].
  apply IH in Er as (Hids & Hall & -> & Hle); [|lia]. csimpl. rewrite Hid, Hids, sumZ_cons.
  split; [done|]. split; [by constructor|]. split; [lia|]. right.
  destruct Hle as [->|Hle]; [|lia]. rewrite fmap_nil, sumZ_nil. lia.
Qed.

Lemma lines_by_id_in p byID lines m :
  lines_by_id p byID lines = Ok m ->
  forall id line, m !! id = Some line -> byID !! id = Some line \/ line ∈ lines.
Proof.
  revert byID. induction lines as [|l lines IH]; intros byID; simpl; [by intros [= <-]; left|].
  destruct (bool_decide _); [done|]. intros Hm id line Hl. destruct (IH _ Hm id line Hl) as [H|H].
  - apply lookup_insert_Some in H as [[_ ->]|[_ H]]; [right; by left|by left].
  - right. by right.
Qed.

(** A provider that answers with machine integers. *)
Definition answer_int64 (raw : ProviderResult) : Prop :=
  Forall (fun l => in_int64 (pt_TaxableAmount l)) (pr_Items raw) /\
  in_int64 (pt_TaxableAmount (pr_Shipping raw)).

Definition input_int64 (i : ProviderInput) : Prop :=
  Forall (fun x => in_int64 (ti_Amount x)) (pi_Items i) /\ in_int64 (sh_Amount (pi_Shipping i)).

Definition input_amounts_ok (n : CalculateTaxInput) : Prop :=
  Forall (fun i => amount_ok (ti_Amount i)) (ct_Items n) /\ amount_ok (sh_Amount (ct_Shipping n)).

Lemma shipping_base_ok s : amount_ok (sh_Amount s) -> amount_ok (shipping_base s).
Proof. unfold shipping_base. destruct (sh_Taxable s); [done|]. unfold amount_ok, MaxTaxableAmount. lia. Qed.

Lemma assembleResult_sound n raw p included r :
  input_amounts_ok n -> answer_int64 raw -> assembleResult n raw p included = Ok r ->
  it_ID <$> cr_Items r = ti_ID <$> ct_Items n /\ it_ID (cr_Shipping r) = ShippingLineID /\
  Forall2 (fun i => item_sound (ti_Amount i) included) (ct_Items n) (cr_Items r) /\
  item_sound (shipping_base (ct_Shipping n)) included (cr_Shipping r) /\
  cr_TaxTotal r = sumZ (it_TaxAmount <$> cr_Items r) + it_TaxAmount (cr_Shipping r) /\
  0 <= cr_TaxTotal r <= MaxTaxableAmount.
Proof.
  intros [Hitems Hship] [Hint Hints]. unfold assembleResult.
  destruct (lines_by_id _ _ _) as [byID|] eqn:Eb; [|done]. simpl. destruct (negb _); [done|].
  destruct (assemble_items _ _ _ _ _) as [[t items]|] eqn:Ei; [|done]. simpl.
  destruct (validateLine _ _ _ _ _) as [s|] eqn:Es; [|done]. simpl.
  destruct (addAmount _ _) as [total|] eqn:Ea; [|done]. simpl. intros [= <-]. simpl.
  apply assemble_items_sound in Ei as (Hids & Hall & Hsum & _); [| |lia|done].
  2:{ intros id line Hl. destruct (lines_by_id_in _ _ _ _ Eb id line Hl) as [H|H]; [done|].
      by apply (proj1 (Forall_forall _ _) Hint). }
  apply shipping_base_ok in Hship.
  apply validateLine_sound in Es as [Hsid Hs]; [|apply Hship|done].
  pose proof (is_tax _ _ _ Hs) as Ht. unfold amount_ok in Hship.
  apply addAmount_Ok in Ea as (? & ? & ? & ->); [|tax_bounds; lia].
  split_and!; [done|done|done|done|lia|lia|lia].
Qed.

(** ** A sound answer is accepted *)

Definition answers_item (included : bool) (i : TaxableItem) (line : ProviderItemTax) : Prop :=
  pt_ID line = ti_ID i /\ line_ok (ti_Amount i) included line.

Lemma lines_by_id_Ok p byID lines :
  NoDup (pt_ID <$> lines) -> (forall l, l ∈ lines -> byID !! pt_ID l = None) ->
  exists m, lines_by_id p byID lines = Ok m /\ (forall l, l ∈ lines -> m !! pt_ID l = Some l) /\
    (forall id, id ∉ pt_ID <$> lines -> m !! id = byID !! id) /\ size m = (size byID + length lines)%nat.
Proof.
  revert byID. induction lines as [|l lines IH]; intros byID; cbn [lines_by_id fmap list_fmap].
  { intros _ _. exists byID. split; [done|]. split; [by intros ? ?%not_elem_of_nil|].
    split; [done|]. simpl. lia. }
  intros [Hl Hnd]%NoDup_cons Hnone.
  rewrite bool_decide_false by (rewrite (Hnone l) by (by left); by intros [? ?]).
  destruct (IH (<[pt_ID l := l]> byID) Hnd) as (m & -> & Hm & Hother & Hsize).
  { intros l' Hl'. rewrite lookup_insert_ne; [apply Hnone; by right|].
    intros Heq. apply Hl. rewrite Heq. by apply list_elem_of_fmap_2. }
  exists m. split; [done|]. split; [|split].
  - intros l' [->|Hl']%elem_of_cons; [|by apply Hm]. rewrite Hother by done. apply lookup_insert_eq.
  - intros id [Hne Hin]%not_elem_of_cons. rewrite Hother by done. by rewrite lookup_insert_ne.
  - rewrite Hsize, map_size_insert_None by (apply Hnone; by left). simpl. lia.
Qed.

Lemma assemble_items_Ok p byID included items lines total :
  Forall2 (answers_item included) items lines -> (forall l, l ∈ lines -> byID !! pt_ID l = Some l) ->
  0 <= total -> total + sumZ (ti_Amount <$> items) <= MaxTaxableAmount ->
  exists sum out, assemble_items p byID included total items = Ok (sum, out) /\
    0 <= sum <= total + sumZ (ti_Amount <$> items).
Proof.
  intros Hall. revert total. induction Hall as [|i l items lines [Hid Hok] Hall IH];
    intros total Hby Ht Hsum; cbn [assemble_items].
  { exists total, []. split; [done|]. rewrite fmap_nil, sumZ_nil in *. lia. }
  rewrite fmap_cons, sumZ_cons in *. pose proof (lo_tax _ _ _ Hok).
  assert (0 <= sumZ (ti_Amount <$> items)).
  { apply sumZ_nonneg, Forall_fmap. clear -Hall. induction Hall as [|i l items lines [_ H] _ IH];
      [constructor|]. constructor; [|done]. simpl. pose proof (lo_tax _ _ _ H). lia. }
  rewrite <- Hid, (Hby l) by by left.
  destruct (validateLine_ok p l (pt_ID l) (ti_Amount i) included) as (o & -> & Ho); [lia|done|].
  cbn [mbind result_bind].
  assert (addAmount total (it_TaxAmount o) = Ok (total + it_TaxAmount o)) as ->.
  { apply addAmount_Ok; [tax_bounds; lia|]. lia. }
  cbn [mbind result_bind].
  destruct (IH (total + it_TaxAmount o)) as (sum & out & -> & Hle);
    [intros; apply Hby; by right|lia|lia|].
  cbn [mbind result_bind]. eexists _, _. split; [done|]. lia.
Qed.

Lemma assembleResult_Ok n raw p included :
  NoDup (ti_ID <$> ct_Items n) -> Forall2 (answers_item included) (ct_Items n) (pr_Items raw) ->
  line_ok (shipping_base (ct_Shipping n)) included (pr_Shipping raw) ->
  sumZ (ti_Amount <$> ct_Items n) + shipping_base (ct_Shipping n) <= MaxTaxableAmount ->
  exists r, assembleResult n raw p included = Ok r /\
    cr_TaxTotal r <= sumZ (ti_Amount <$> ct_Items n) + shipping_base (ct_Shipping n).
Proof.
  intros Hnd Hall Hship Hsum. pose proof (lo_tax _ _ _ Hship).
  assert (pt_ID <$> pr_Items raw = ti_ID <$> ct_Items n) as Hids.
  { clear -Hall. induction Hall as [|i l ? ? [Hid _] _ IH]; [done|]. csimpl. by rewrite Hid, IH. }
  assert (0 <= sumZ (ti_Amount <$> ct_Items n)) as Hpos.
  { apply sumZ_nonneg, Forall_fmap. clear -Hall. induction Hall as [|i l items lines [_ H] _ IH];
      [constructor|]. constructor; [|done]. simpl. pose proof (lo_tax _ _ _ H). lia. }
  unfold assembleResult.
  destruct (lines_by_id_Ok p ∅ (pr_Items raw)) as (m & -> & Hm & _ & Hsize);
    [by rewrite Hids|done|]. cbn [mbind result_bind].
  rewrite Hsize, map_size_empty. pose proof (Forall2_length _ _ _ Hall) as ->.
  rewrite (proj2 (Z.eqb_eq _ _)) by lia. cbn [negb].
  destruct (assemble_items_Ok p m included (ct_Items n) (pr_Items raw) 0 Hall Hm)
    as (sum & out & -> & Hle); [lia|lia|]. cbn [mbind result_bind].
  destruct (validateLine_ok p (pr_Shipping raw) ShippingLineID (shipping_base (ct_Shipping n)) included)
    as (o & -> & Ho); [lia|done|]. cbn [mbind result_bind].
  assert (addAmount sum (it_TaxAmount o) = Ok (sum + it_TaxAmount o)) as ->.
  { apply addAmount_Ok; [tax_bounds; lia|]. lia. }
  cbn [mbind result_bind]. eexists. split; [done|]. simpl. lia.
Qed.

(** ** The local provider answers soundly *)

Definition small (amount : Z) : Prop := 0 <= amount /\ 2 * amount <= MaxTaxableAmount.

Lemma apply_items_ok chain rates rules included items :
  rates_ok rates -> (included = true -> Forall (fun r => tr_StacksOnID r = None) rates) ->
  Forall (fun i => small (ti_Amount i)) items -> exists lines,
  apply_items (newRateTable chain rates rules) included items = Ok lines /\
  Forall2 (answers_item included) items lines.
Proof.
  intros Hok Hinc. induction 1 as [|i items [Hpos Hsmall] _ (lines & Hl & Hall)]; [by exists []|].
  destruct (applyTo_ok chain rates rules (itemKeys i) (ti_ID i) (ti_Amount i) included)
    as (line & Hline & Hid & Hlo); [done..|].
  exists (line :: lines). cbn [apply_items]. rewrite Hline. cbn [mbind result_bind]. rewrite Hl.
  split; [done|]. by constructor.
Qed.

Lemma local_Calculate_ok source in_ rates :
  src_ListTaxRatesByRegions source (pi_RegionIDs in_) = Ok rates ->
  (forall ids, exists rules, src_ListTaxRateRulesByRates source ids = Ok rules) ->
  rates_ok rates ->
  (pi_PricesIncludeTax in_ = true -> Forall (fun r => tr_StacksOnID r = None) rates) ->
  Forall (fun i => small (ti_Amount i)) (pi_Items in_) -> small (sh_Amount (pi_Shipping in_)) ->
  pi_RegionIDs in_ <> [] -> exists raw, local_Calculate source in_ = Ok raw /\
    Forall2 (answers_item (pi_PricesIncludeTax in_)) (pi_Items in_) (pr_Items raw) /\
    line_ok (shipping_base (pi_Shipping in_)) (pi_PricesIncludeTax in_) (pr_Shipping raw).
Proof.
  intros Hrates Hrules Hok Hinc Hitems [Hpos Hsmall] Hregions. unfold local_Calculate.
  assert (Hun : line_ok 0 (pi_PricesIncludeTax in_) (untaxed ShippingLineID 0)) by by apply untaxed_ok.
  unfold shipping_base. destruct (_ || _) eqn:E.
  - rewrite (proj2 (Z.eqb_neq _ _)) in E by (destruct (pi_RegionIDs in_); simpl; [done|lia]). simpl in E.
    reflect_bools. destruct (pi_Items in_) as [|]; [|simpl in *; lia].
    eexists. split; [done|]. simpl. rewrite H0. split; [constructor|done].
  - unfold loadRates, loadRateRows. rewrite Hrates. cbn [mbind result_bind].
    assert (exists rules, (if 0 <? Z.of_nat (length (tr_ID <$> filter (fun r => tr_IsDefault r = false) rates))
      then src_ListTaxRateRulesByRates source (tr_ID <$> filter (fun r => tr_IsDefault r = false) rates)
      else Ok []) = Ok rules) as [rules ->] by (destruct (_ <? _); [apply Hrules|by exists []]).
    cbn [mbind result_bind].
    destruct (apply_items_ok (pi_RegionIDs in_) rates rules (pi_PricesIncludeTax in_) (pi_Items in_))
      as (lines & -> & Hall); [done..|]. cbn [mbind result_bind].
    destruct (sh_Taxable (pi_Shipping in_)).
    + destruct (applyTo_ok (pi_RegionIDs in_) rates rules (shippingKeys (pi_Shipping in_)) ShippingLineID
        (sh_Amount (pi_Shipping in_)) (pi_PricesIncludeTax in_)) as (line & -> & _ & Hlo); [done..|].
      cbn [mbind result_bind]. eexists. split; [done|]. by split.
    + cbn [mbind result_bind]. eexists. split; [done|]. by split.
Qed.

Lemma applyTo_int64 t keys id amount included line :
  in_int64 amount -> applyTo t keys id amount included = Ok line -> in_int64 (pt_TaxableAmount line).
Proof.
  intros Ha. unfold applyTo. destruct (selectRate t keys); [|by intros [= <-]].
  intros H. destruct included; result_inv.
  - subst line. apply wrap64_range.
  - by match type of H with context [match ?p with _ => _ end] => destruct p; injection H as <- end.
Qed.

(** The local provider answers with machine integers. *)
Lemma local_answer_int64 source i raw :
  input_int64 i -> local_Calculate source i = Ok raw -> answer_int64 raw.
Proof.
  intros [Hitems Hship]. unfold local_Calculate, answer_int64. assert (H0 : in_int64 0) by in64.
  destruct (_ || _).
  - intros [= <-]. simpl. split; [|done]. by apply Forall_fmap.
  - intros H. result_inv. subst raw. simpl. split.
    + clear -Hitems E0. revert a0 E0. induction Hitems as [|x l Hx _ IH]; intros out; cbn [apply_items].
      * by intros [= <-].
      * intros H. result_inv. subst out. constructor; [|by apply IH]. by eapply applyTo_int64.
    + destruct (sh_Taxable _) in E1; [eapply applyTo_int64; [exact Hship|exact E1]|by injection E1 as <-].
Qed.
