(* ===== verification/TaxLedger.v ===== *)
(** * The writes keep a region's rates sound

    [rates_ok] under each of the checks of [stack.go], and under the writes that follow them. *)
From S2P Require Import Prelude GoText Errors TaxModels TaxRates TaxCalculate TaxStack TaxStackFacts.

(** ** The order of the rows does not matter *)

#[export] Instance stack_path_perm : Proper ((≡ₚ) ==> eq ==> iff) stack_path.
Proof.
  intros rates rates' Hp l ? <-. induction l as [|x l IH]; [done|]. simpl. rewrite Hp.
  destruct l as [|y l]; [|by rewrite IH]. by setoid_rewrite Hp.
Qed.

#[export] Instance rates_ok_perm : Proper ((≡ₚ) ==> iff) rates_ok.
Proof.
  assert (forall rates rates' : list TaxRate, rates ≡ₚ rates' -> rates_ok rates -> rates_ok rates') as Hall.
  { intros rates rates' Hp Hok. split.
    - rewrite <- Hp. apply Hok.
    - rewrite <- Hp. apply Hok.
    - intros x y b. rewrite <- Hp. apply Hok.
    - intros r. rewrite <- Hp. apply Hok.
    - intros r Hr Hroot. rewrite <- Hp in Hr.
      destruct (ro_stacks _ Hok r Hr Hroot) as (l & Hl & ?). exists l. split; [by rewrite <- Hp|done]. }
  intros rates rates' Hp. split; apply Hall; [done|by symmetry].
Qed.

(** ** A new rate *)

Definition fresh (id : string) (rates : list TaxRate) : Prop :=
  forall r, r ∈ rates -> tr_ID r <> id /\ tr_StacksOnID r <> Some id.

Lemma stack_path_new rates new l top :
  fresh (tr_ID new) rates -> tr_StacksOnID new <> Some (tr_ID new) ->
  stack_path rates l -> last l = Some top ->
  if decide (tr_StacksOnID new = Some (tr_ID top)) then stack_path (new :: rates) (l ++ [new])
  else stack_path (new :: rates) l.
Proof.
  intros Hfresh Hself (Hin & Hstep & top' & Htop & Hnone)%stack_path_steps Hlast.
  assert (top' = top) as -> by congruence.
  assert (Forall (.∈ new :: rates) l) as Hin' by (eapply Forall_impl; [exact Hin|by right]).
  case_decide as Hnew.
  - apply stack_path_intro with new.
    + apply Forall_app. split; [done|]. constructor; [by left|constructor].
    + intros i a b Ha Hb. apply lookup_app_Some in Hb as [Hb|[Hle Hb]].
      * apply Hstep with i; [|done]. apply lookup_app_Some in Ha as [Ha|[Hlt _]]; [done|].
        apply lookup_lt_Some in Hb. lia.
      * apply list_lookup_singleton_Some in Hb as [Hi <-].
        rewrite lookup_app_l in Ha by lia. rewrite last_lookup in Hlast.
        replace (pred (length l)) with i in Hlast by lia. congruence.
    + apply last_snoc.
    + intros r [->|Hr]%elem_of_cons; [done|]. by apply Hfresh.
  - apply stack_path_intro with top; [done|done|done|].
    intros r [->|Hr]%elem_of_cons; [done|by apply Hnone].
Qed.

Lemma rates_ok_new rates new :
  rates_ok rates -> rate_ok (tr_RateBps new) -> fresh (tr_ID new) rates ->
  (tr_IsDefault new = true -> tr_StacksOnID new = None) ->
  (forall b, tr_StacksOnID new = Some b -> b <> tr_ID new /\
     (forall r, r ∈ rates -> tr_StacksOnID r <> Some b) /\
     (forall root l top, stack_path rates (root :: l) -> tr_StacksOnID root = None -> last (root :: l) = Some top -> tr_ID top = b ->
        (length (root :: l) < 4)%nat /\ taken_of ((root :: l) ++ [new]) <= notionalBase)) ->
  rates_ok (new :: rates).
Proof.
  intros Hok Hbps Hfresh Hdefault Hbase.
  assert (Hself : tr_StacksOnID new <> Some (tr_ID new)) by (intros E; by apply Hbase in E as [? _]).
  split.
  - simpl. constructor; [|apply Hok]. intros (r & Hid & Hr)%list_elem_of_fmap.
    by destruct (Hfresh r Hr).
  - constructor; [done|apply Hok].
  - intros x y b [->|Hx]%elem_of_cons [->|Hy]%elem_of_cons Hxb Hyb; [done| | |by eapply (ro_one _ Hok)].
    + by destruct (Hbase _ Hxb) as (_ & Hnone & _); destruct (Hnone y).
    + by destruct (Hbase _ Hyb) as (_ & Hnone & _); destruct (Hnone x).
  - intros r [->|Hr]%elem_of_cons; [done|by apply (ro_default _ Hok)].
  - intros r [->|Hr]%elem_of_cons Hroot.
    + exists []. split; [|split; [simpl; lia|by apply taken_of_one]].
      split; [by left|]. intros x [->|Hx]%elem_of_cons; [congruence|by apply Hfresh].
    + destruct (ro_stacks _ Hok r Hr Hroot) as (l & Hp & Hlen & Htaken).
      destruct (last (r :: l)) as [top|] eqn:Htop; [|by apply last_None in Htop].
      pose proof (stack_path_new rates new (r :: l) top Hfresh Hself Hp Htop) as Hnew.
      case_decide as E; [|by exists l].
      destruct (Hbase _ E) as (_ & _ & Hstack). destruct (Hstack r l top) as [? ?]; [done..|].
      exists (l ++ [new]). split; [done|]. split; [|done]. simpl in *. rewrite length_app. simpl. lia.
Qed.

(** What [stackable_on] accepts is what a new stacked rate has to satisfy. *)
Lemma stackable_on_None rates excl b bps compound new :
  rates_ok rates -> Forall (fun r => tr_ID r <> EmptyString) rates ->
  tr_RateBps new = bps -> tr_Compound new = compound ->
  stackable_on rates excl b bps compound EmptyString = None ->
  (exists r, r ∈ rates /\ tr_ID r = b) /\ excl = None /\
  (forall r, r ∈ rates -> tr_StacksOnID r <> Some b) /\
  (forall root l top, stack_path rates (root :: l) -> tr_StacksOnID root = None ->
     last (root :: l) = Some top -> tr_ID top = b ->
     (length (root :: l) < 4)%nat /\ taken_of ((root :: l) ++ [new]) <= notionalBase).
Proof.
  intros Hok Hnamed Hbps Hcomp. unfold stackable_on. rewrite filter_all by done.
  destruct (by_id rates !! b) as [base|] eqn:Eb; [|done]. apply by_id_Some in Eb as [Hbase Hid].
  destruct (bool_decide _) eqn:Etaken; [done|]. apply bool_decide_eq_false in Etaken.
  destruct excl; [done|]. destruct (walk_down _ _ _ _ _) as [chain|] eqn:Ew; [|done].
  destruct (_ <? _) eqn:Elen; [done|]. reflect_bools. intros Hguard.
  apply assertStackWithinBase_None in Hguard.
  split; [by exists base|]. split; [done|]. split.
  { intros r Hr Hrb. apply Etaken. clear -Hr Hrb. unfold by_base.
    assert (forall l (m : gmap string TaxRate), r ∈ l \/ is_Some (m !! b) -> is_Some (foldl (fun m r =>
      match tr_StacksOnID r with Some b => <[b := r]> m | None => m end) m l !! b)) as Hall.
    { clear Hr. induction l as [|x l IH]; intros m; simpl; [by intros [?%not_elem_of_nil|]|].
      rewrite elem_of_cons. intros [[->|H]|H]; apply IH; [right|by left|right].
      - rewrite Hrb, lookup_insert_eq. by eexists.
      - destruct (tr_StacksOnID x) as [b'|]; [|done]. apply lookup_insert_is_Some'. by right. }
    apply Hall. by left. }
  intros root l top Hp Hroot Hlast Htop.
  apply (walk_down_Ok rates) in Ew as (rest & -> & Hd);
    [|intros id r Hr; by apply by_id_Some|done]. rewrite app_nil_l in *.
  assert (base :: rest = reverse (root :: l)) as Heq.
  { apply (down_path_unique rates (ro_ids _ Hok)); [done|by apply stack_path_down|].
    rewrite head_reverse, Hlast. simpl. f_equal. apply (same_id rates); [apply Hok|done| |congruence].
    apply stack_path_steps in Hp as (Hin & _). apply last_Some_elem_of in Hlast.
    by eapply (proj1 (Forall_forall _ _) Hin). }
  rewrite Heq, reverse_involutive in Hguard, Elen.
  rewrite length_app in Elen. unfold maxStackDepth in Elen. split; [simpl in *; lia|].
  erewrite taken_of_app; [exact Hguard|]. apply Forall2_app; [|by repeat constructor].
  apply Forall_Forall2_diag, Forall_true. done.
Qed.

(** ** A changed rate *)

(** A rewriting of the rows that leaves what stands on what. *)
Definition in_place (f : TaxRate -> TaxRate) : Prop :=
  forall r, tr_ID (f r) = tr_ID r /\ tr_StacksOnID (f r) = tr_StacksOnID r.

Lemma stack_path_map f rates l : in_place f -> stack_path rates l -> stack_path (f <$> rates) (f <$> l).
Proof.
  intros Hf. induction l as [|x l IH]; [done|]. intros [Hx Hl]. csimpl.
  split; [by apply list_elem_of_fmap_2|]. destruct l as [|y l].
  - intros r (r' & -> & Hr)%list_elem_of_fmap. rewrite (proj1 (Hf x)), (proj2 (Hf r')). by apply Hl.
  - csimpl. rewrite (proj1 (Hf x)), (proj2 (Hf y)). destruct Hl as [Hxy Hl]. split; [done|]. by apply IH.
Qed.

Lemma down_path_map f rates l : in_place f -> down_path rates l -> down_path (f <$> rates) (f <$> l).
Proof.
  intros Hf. induction l as [|x l IH]; [done|]. intros [Hx Hl]. csimpl.
  split; [by apply list_elem_of_fmap_2|]. destruct l as [|y l].
  - by rewrite (proj2 (Hf x)).
  - csimpl. rewrite (proj1 (Hf y)), (proj2 (Hf x)). destruct Hl as [Hxy Hl]. split; [done|]. by apply IH.
Qed.

Lemma in_place_ids f (rates : list TaxRate) : in_place f -> tr_ID <$> (f <$> rates) = tr_ID <$> rates.
Proof. intros Hf. rewrite <- list_fmap_compose. apply list_fmap_ext. intros ? r _. apply Hf. Qed.

Lemma one_each_map f rates : in_place f -> one_each rates -> one_each (f <$> rates).
Proof.
  intros Hf Hone x y b (x' & -> & Hx)%list_elem_of_fmap (y' & -> & Hy)%list_elem_of_fmap.
  rewrite !(proj2 (Hf _)). intros Hxb Hyb. f_equal. by eapply Hone.
Qed.

Lemma rates_ok_map f rates :
  rates_ok rates -> in_place f ->
  (forall r, r ∈ rates -> rate_ok (tr_RateBps (f r))) ->
  (forall r, r ∈ rates -> tr_IsDefault (f r) = true -> tr_StacksOnID r = None) ->
  (forall root l, stack_path rates (root :: l) -> tr_StacksOnID root = None ->
     taken_of (root :: l) <= notionalBase -> (length (root :: l) <= 4)%nat ->
     taken_of (f <$> root :: l) <= notionalBase) ->
  rates_ok (f <$> rates).
Proof.
  intros Hok Hf Hbps Hdef Hstack. split.
  - rewrite in_place_ids by done. apply Hok.
  - apply Forall_fmap, Forall_forall. exact Hbps.
  - apply one_each_map; [done|apply Hok].
  - intros r (r' & -> & Hr)%list_elem_of_fmap Hd. rewrite (proj2 (Hf r')). by apply Hdef.
  - intros r (r' & -> & Hr)%list_elem_of_fmap. rewrite (proj2 (Hf r')). intros Hroot.
    destruct (ro_stacks _ Hok r' Hr Hroot) as (l & Hp & Hlen & Htaken). exists (f <$> l).
    split; [by apply (stack_path_map f _ (r' :: l))|]. split; [by csimpl; rewrite length_fmap|].
    apply (Hstack r' l); done.
Qed.

Lemma amend_in_place id bps : in_place (amend id bps).
Proof. intros r. unfold amend. by case_bool_decide. Qed.

Lemma last_cons_fmap {A B} (f : A -> B) (x : A) (l : list A) y :
  last (x :: l) = Some y -> last (f x :: (f <$> l)) = Some (f y).
Proof. intros H. change (f x :: (f <$> l)) with (f <$> x :: l). by rewrite fmap_last, H. Qed.

(** What [stackHolding] returns for a rate of the stack on [root]. *)
Lemma stackHolding_stack rates id bps root l :
  rates_ok rates -> stack_path rates (root :: l) -> tr_StacksOnID root = None ->
  (length (root :: l) <= 4)%nat -> id ∈ tr_ID <$> root :: l ->
  stackHolding rates id bps = Ok (amend id bps <$> root :: l).
Proof.
  intros Hok Hp Hroot Hlen (x & -> & Hx)%list_elem_of_fmap.
  pose proof (amend_in_place (tr_ID x) bps) as Hf. set (f := amend (tr_ID x) bps) in *.
  pose proof (stack_path_down _ _ _ Hp Hroot) as Hd.
  assert (x ∈ rates) as Hxr.
  { apply stack_path_steps in Hp as (Hin & _). by apply (proj1 (Forall_forall _ _) Hin). }
  assert (Hids : NoDup (tr_ID <$> (f <$> rates))) by (rewrite in_place_ids by done; apply Hok).
  rewrite <- elem_of_reverse in Hx. apply list_elem_of_split in Hx as (l1 & l2 & Hsplit).
  assert (down_path rates (x :: l2)) as Hxd.
  { rewrite Hsplit in Hd. by apply down_path_suffix in Hd. }
  assert (last (x :: l2) = Some root) as Hlast.
  { apply (f_equal last) in Hsplit. rewrite last_reverse, last_app_cons in Hsplit. done. }
  unfold stackHolding. fold f. replace (tr_ID x) with (tr_ID (f x)) at 1 by apply Hf.
  rewrite by_id_in by (done || by apply list_elem_of_fmap_2). simpl.
  rewrite (find_base_root (f <$> rates) (f <$> l2) _ _ (f x) (f root)); first last.
  - pose proof (down_path_length rates (ro_ids _ Hok) _ Hxd) as Hdl.
    rewrite !length_fmap. simpl in Hdl. lia.
  - intros y _. apply not_elem_of_empty.
  - by apply last_cons_fmap.
  - by apply (down_path_map f rates (x :: l2)).
  - done.
  - unfold stackFrom. rewrite newRateTable_standing.
    apply (stackFrom_path (f <$> rates) (f root) (f <$> l)).
    + apply one_each_map; [done|apply Hok].
    + by apply (stack_path_map f rates (root :: l)).
    + csimpl. by rewrite length_fmap.
Qed.

Lemma amend_other id bps (l : list TaxRate) : id ∉ tr_ID <$> l -> amend id bps <$> l = l.
Proof.
  induction l as [|r l IH]; [done|]. csimpl. intros [Hne Hl]%not_elem_of_cons.
  rewrite IH by done. unfold amend. by rewrite bool_decide_false.
Qed.

(** A value [assertValueWithinStack] accepts leaves every stack within its line. *)
Lemma stackHolding_guard rates id bps stack root l :
  rates_ok rates -> rate_ok bps -> stackHolding rates id bps = Ok stack ->
  (if Z.of_nat (length stack) <? 2 then None else assertStackWithinBase stack) = None ->
  stack_path rates (root :: l) -> tr_StacksOnID root = None ->
  taken_of (root :: l) <= notionalBase -> (length (root :: l) <= 4)%nat ->
  taken_of (amend id bps <$> root :: l) <= notionalBase.
Proof.
  intros Hok Hbps Hstack Hguard Hp Hroot Htaken Hlen.
  destruct (decide (id ∈ tr_ID <$> root :: l)) as [Hin|Hout]; [|by rewrite amend_other].
  rewrite (stackHolding_stack _ _ _ root l) in Hstack by done. injection Hstack as <-.
  destruct (_ <? _) eqn:E; [|by apply assertStackWithinBase_None]. reflect_bools.
  destruct l; [|csimpl in E; lia]. csimpl. apply taken_of_one. unfold amend.
  case_bool_decide; [done|]. apply stack_path_steps in Hp as (Hr%Forall_inv & _).
  eapply (Forall_forall (fun r => rate_ok (tr_RateBps r))); [apply Hok|done].
Qed.

(** ** A deleted rate *)

Lemma taken_of_prefix l k :
  Forall (fun r => rate_ok (tr_RateBps r)) (l ++ k) -> (length (l ++ k) <= 4)%nat ->
  taken_of l <= taken_of (l ++ k).
Proof.
  intros Hbps Hlen. pose proof Hbps as Hbps'. apply Forall_app in Hbps' as [Hl Hk].
  rewrite !taken_of_exact by (done || (rewrite length_app in Hlen; lia)). rewrite foldl_app.
  assert (forall z, 0 <= z -> 0 <= foldl guard_step z l) as Hnonneg.
  { clear -Hl. induction Hl as [|r l Hr _ IH]; [done|]. intros z Hz. simpl. apply IH.
    pose proof (guard_step_bounds z r Hz Hr). lia. }
  specialize (Hnonneg 0 ltac:(lia)). revert Hnonneg. generalize (foldl guard_step 0 l).
  clear -Hk. induction Hk as [|r k Hr _ IH]; intros z Hz; simpl; [lia|].
  pose proof (guard_step_bounds z r Hz Hr). specialize (IH (guard_step z r)). lia.
Qed.

(** Without the rate [id] a stack is cut before it. *)
Lemma stack_path_without rates id l :
  NoDup (tr_ID <$> rates) -> one_each rates -> stack_path rates l ->
  (match l with x :: _ => tr_ID x <> id | [] => True end) ->
  exists l1 l2, l = l1 ++ l2 /\ head l = head l1 /\
    stack_path (filter (fun r => tr_ID r <> id) rates) l1.
Proof.
  intros Hids Hone. induction l as [|x l IH]; [done|]. intros [Hx Hl] Hne.
  destruct l as [|y l].
  - exists [x], []. do 2 (split; [done|]). split; [by apply list_elem_of_filter|].
    intros r [_ Hr]%list_elem_of_filter. by apply Hl.
  - destruct Hl as [Hy Hl]. destruct (decide (tr_ID y = id)) as [Hyid|Hyid].
    + exists [x], (y :: l). do 2 (split; [done|]). split; [by apply list_elem_of_filter|].
      intros r [Hrid Hr]%list_elem_of_filter Hrx. assert (y ∈ rates) by apply Hl.
      apply Hrid. by rewrite (Hone r y (tr_ID x)).
    + destruct (IH Hl Hyid) as ([|y' l1] & l2 & Heq & Hhead & Hp); [done|].
      injection Hhead as <-. exists (x :: y :: l1), l2. rewrite Heq.
      do 2 (split; [done|]). split; [by apply list_elem_of_filter|done].
Qed.

Lemma rates_ok_without rates id :
  rates_ok rates -> rates_ok (filter (fun r => tr_ID r <> id) rates).
Proof.
  intros Hok. split.
  - eapply sublist_NoDup; [apply (ro_ids _ Hok)|]. apply fmap_sublist, sublist_filter.
  - apply Forall_forall. intros r [_ Hr]%list_elem_of_filter.
    eapply (Forall_forall (fun r => rate_ok (tr_RateBps r))); [apply Hok|done].
  - intros x y b [_ Hx]%list_elem_of_filter [_ Hy]%list_elem_of_filter. by apply (ro_one _ Hok).
  - intros r [_ Hr]%list_elem_of_filter. by apply (ro_default _ Hok).
  - intros r [Hid Hr]%list_elem_of_filter Hroot.
    destruct (ro_stacks _ Hok r Hr Hroot) as (l & Hp & Hlen & Htaken).
    destruct (stack_path_without rates id (r :: l)) as ([|r' l1] & l2 & Heq & Hhead & Hp');
      [apply Hok|apply Hok|done|done|done|].
    injection Hhead as <-. exists l1. split; [done|].
    assert (Hbps : Forall (fun r => rate_ok (tr_RateBps r)) (r :: l)).
    { apply stack_path_steps in Hp as (Hin & _). eapply Forall_impl; [exact Hin|]. intros x Hx.
      eapply (Forall_forall (fun r => rate_ok (tr_RateBps r))); [apply Hok|done]. }
    rewrite Heq in Hlen, Htaken, Hbps. pose proof (taken_of_prefix (r :: l1) l2 Hbps Hlen).
    rewrite length_app in Hlen. split; lia.
Qed.

(** * The rate ledger

    What the service relies on of the repository ([RateLaws]), what every state of the rates has to
    satisfy ([ledger_ok]), and that the service's writes keep it. *)

(** The rewriting of the row [id] by an update at [now]. *)
Definition touched (now : moment) (r : TaxRate) : TaxRate :=
  mkTaxRate (tr_ID r) (tr_TaxRegionID r) (tr_Name r) (tr_Code r) (tr_RateBps r) (tr_IsDefault r)
    (tr_StacksOnID r) (tr_Compound r) (tr_Metadata r) (tr_CreatedAt r) now (tr_DeletedAt r).

Definition stamped (now : moment) (r : TaxRate) : TaxRate :=
  mkTaxRate (tr_ID r) (tr_TaxRegionID r) (tr_Name r) (tr_Code r) (tr_RateBps r) (tr_IsDefault r)
    (tr_StacksOnID r) (tr_Compound r) (tr_Metadata r) now now (tr_DeletedAt r).

Definition patched_row (id : string) (patch : TaxRatePatch) (now : moment) (r : TaxRate) : TaxRate :=
  if bool_decide (tr_ID r = id) then touched now (Patched r patch) else r.

Definition terms_patch (terms : TaxRateTerms) : TaxRatePatch :=
  mkTaxRatePatch (Some (te_Name terms)) None (Some (te_RateBps terms)) None None.

Definition not_id (id : string) (r : TaxRate) : Prop := tr_ID r <> id.

#[export] Instance not_id_dec id r : Decision (not_id id r).
Proof. unfold not_id. apply _. Defined.

(** ** The repository's promises

    [rows region st] are a region's live rows; the rows come in an order the laws leave open. A call is
    one step on the state. [LockTaxRegion] reads FOR SHARE, so that two creations on one region may
    interleave in the database; the theorems speak of writes that follow one another. *)
Class RateLaws {St} (repo : Repository St) := {
  law_rows region st rates : repo_ListTaxRates repo region st = Ok rates ->
    Forall (fun r => tr_ID r <> EmptyString /\ tr_TaxRegionID r = region) rates;
  law_apart st g1 g2 l1 l2 r1 r2 :
    repo_ListTaxRates repo g1 st = Ok l1 -> repo_ListTaxRates repo g2 st = Ok l2 ->
    r1 ∈ l1 -> r2 ∈ l2 -> tr_ID r1 = tr_ID r2 -> g1 = g2;
  law_get id st r : repo_GetTaxRate repo id st = Ok r -> tr_ID r = id /\
    forall g l x, repo_ListTaxRates repo g st = Ok l -> x ∈ l -> tr_ID x = id -> x = r;
  law_by_regions ids st rates : ListTaxRatesByRegions repo ids st = Ok rates -> NoDup ids ->
    exists lists, Forall2 (fun g l => repo_ListTaxRates repo g st = Ok l) ids lists /\
      rates ≡ₚ mjoin lists;
  law_create rate now st st' r : repo_CreateTaxRate repo rate now st = (st', Ok r) ->
    (forall g l, repo_ListTaxRates repo g st = Ok l -> fresh (tr_ID rate) l) /\
    forall g l', repo_ListTaxRates repo g st' = Ok l' -> exists l, repo_ListTaxRates repo g st = Ok l /\
      l' ≡ₚ if bool_decide (g = tr_TaxRegionID rate) then stamped now rate :: l else l;
  law_update id patch now st st' o : repo_UpdateTaxRate repo id patch now st = (st', o) ->
    forall g l', repo_ListTaxRates repo g st' = Ok l' -> exists l, repo_ListTaxRates repo g st = Ok l /\
      l' ≡ₚ match o with Ok _ => patched_row id patch now <$> l | Fail _ => l end;
  law_revise id read next now st st' o : repo_ReviseTaxRate repo id read next now st = (st', Ok o) ->
    forall g l', repo_ListTaxRates repo g st' = Ok l' -> exists l, repo_ListTaxRates repo g st = Ok l /\
      l' ≡ₚ if o.2 then patched_row id (terms_patch next) now <$> l else l;
  law_delete id now st st' o : repo_DeleteTaxRate repo id now st = (st', o) ->
    forall g l', repo_ListTaxRates repo g st' = Ok l' -> exists l, repo_ListTaxRates repo g st = Ok l /\
      l' ≡ₚ match o with None => filter (not_id id) l | Some _ => l end
}.

Section Ledger.
Context {St : Type} (repo : Repository St) `{!RateLaws repo}.
Implicit Types (st : St).

Definition rows (g : string) st (l : list TaxRate) : Prop := repo_ListTaxRates repo g st = Ok l.

Record ledger_ok st : Prop := {
  le_rates g l : rows g st l -> rates_ok l;
  le_within g1 g2 l1 l2 r x : rows g1 st l1 -> rows g2 st l2 -> r ∈ l1 -> x ∈ l2 ->
    tr_StacksOnID r = Some (tr_ID x) -> g1 = g2;
  le_bases g1 g2 l1 l2 r x b : rows g1 st l1 -> rows g2 st l2 -> r ∈ l1 -> x ∈ l2 ->
    tr_StacksOnID r = Some b -> tr_StacksOnID x = Some b -> g1 = g2
}.

(** Rows rewritten in place, the same way in every region. *)
Lemma ledger_ok_rows st st' (F : list TaxRate -> list TaxRate) :
  ledger_ok st ->
  (forall g l', rows g st' l' -> exists l, rows g st l /\ l' ≡ₚ F l) ->
  (forall l x, x ∈ F l -> exists x', x' ∈ l /\ tr_ID x = tr_ID x' /\ tr_StacksOnID x = tr_StacksOnID x') ->
  (forall g l, rows g st l -> rates_ok l -> rates_ok (F l)) ->
  ledger_ok st'.
Proof.
  intros [Hrates Hwithin Hbases] Hrows HF Hok. split.
  - intros g l' (l & Hl & ->)%Hrows. by eapply Hok, Hrates.
  - intros g1 g2 l1' l2' r x (l1 & H1 & Hp1)%Hrows (l2 & H2 & Hp2)%Hrows. rewrite Hp1, Hp2.
    intros (r' & Hr & _ & ->)%HF (x' & Hx & -> & _)%HF. by eapply Hwithin.
  - intros g1 g2 l1' l2' r x b (l1 & H1 & Hp1)%Hrows (l2 & H2 & Hp2)%Hrows. rewrite Hp1, Hp2.
    intros (r' & Hr & _ & ->)%HF (x' & Hx & _ & ->)%HF. by eapply Hbases.
Qed.

Lemma patched_in_place id patch now : in_place (patched_row id patch now).
Proof. intros r. unfold patched_row. by case_bool_decide. Qed.

Lemma in_place_elem f (l : list TaxRate) x : in_place f -> x ∈ f <$> l ->
  exists x', x' ∈ l /\ tr_ID x = tr_ID x' /\ tr_StacksOnID x = tr_StacksOnID x'.
Proof. intros Hf (x' & -> & Hx)%list_elem_of_fmap. exists x'. split; [done|]. apply Hf. Qed.

(** What the checks before an update come to. *)
Lemma ledger_ok_patched st st' id patch now :
  ledger_ok st ->
  (forall g l', rows g st' l' -> exists l, rows g st l /\ l' ≡ₚ patched_row id patch now <$> l) ->
  (forall bps, pa_RateBps patch = Some bps -> rate_ok bps /\ assertValueWithinStack repo id bps st = None) ->
  (pa_IsDefault patch = Some true -> assertNotStacked repo id st = None) ->
  ledger_ok st'.
Proof.
  intros Hok Hrows Hbps Hdef. eapply ledger_ok_rows; [done|exact Hrows| |].
  { intros l x. apply in_place_elem, patched_in_place. }
  intros g l Hl Hlok. pose proof (patched_in_place id patch now) as Hf.
  assert (Hfields : forall r, tr_Compound (patched_row id patch now r) = tr_Compound r /\
    tr_RateBps (patched_row id patch now r) = match pa_RateBps patch with
      Some bps => tr_RateBps (amend id bps r) | None => tr_RateBps r end).
  { intros r. unfold patched_row, amend. case_bool_decide; simpl; split; try done; by destruct (pa_RateBps patch). }
  apply rates_ok_map; [done|done| | |].
  - intros r Hr. rewrite (proj2 (Hfields r)). pose proof (ro_bps _ Hlok) as Hb.
    apply (proj1 (Forall_forall _ _)) with (x := r) in Hb; [|done].
    destruct (pa_RateBps patch) as [bps|] eqn:E; [|done]. unfold amend.
    case_bool_decide; [by apply Hbps|done].
  - intros r Hr. unfold patched_row. case_bool_decide as Hid; simpl; [|by apply (ro_default _ Hlok)].
    destruct (pa_IsDefault patch) as [[]|] eqn:E; simpl; [|done|by apply (ro_default _ Hlok)].
    intros _. specialize (Hdef eq_refl). unfold assertNotStacked in Hdef.
    destruct (repo_GetTaxRate repo id st) as [r0|] eqn:Eg; [|done].
    apply law_get in Eg as [_ Hg]. rewrite (Hg g l r Hl Hr Hid). by destruct (tr_StacksOnID r0).
  - intros root k Hp Hroot Htaken Hlen.
    assert (forall f', (forall r, tr_RateBps (patched_row id patch now r) = tr_RateBps (f' r) /\
      tr_Compound r = tr_Compound (f' r)) ->
      taken_of (patched_row id patch now <$> root :: k) = taken_of (f' <$> root :: k)) as Hext.
    { intros f' Hf'. apply taken_of_app. apply Forall2_fmap_l, Forall2_fmap_r, Forall_Forall2_diag, Forall_true.
      intros r. split; [apply Hf'|]. etrans; [apply Hfields|apply Hf']. }
    destruct (pa_RateBps patch) as [bps|] eqn:Eb.
    2:{ rewrite (Hext (fun r => r)); [|intros r; split; [apply Hfields|done]]. by rewrite list_fmap_id. }
    rewrite (Hext (amend id bps));
      [|intros r; split; [apply Hfields|unfold amend; by case_bool_decide]].
    destruct (Hbps bps eq_refl) as [Hrb Hguard].
    destruct (decide (id ∈ tr_ID <$> root :: k)) as [Hin|Hout]; [|by rewrite amend_other].
    unfold assertValueWithinStack in Hguard.
    destruct (repo_GetTaxRate repo id st) as [r0|] eqn:Eg; [|done]. cbn [mbind result_bind] in Hguard.
    destruct (LockTaxRegionForWrite _ _ _); [|done]. cbn [mbind result_bind] in Hguard.
    apply list_elem_of_fmap in Hin as (x & Hid & Hx).
    assert (x ∈ l) as Hxl.
    { apply stack_path_steps in Hp as (Hall & _). by apply (proj1 (Forall_forall _ _) Hall). }
    apply law_get in Eg as [_ Hg]. rewrite <- (Hg g l x Hl Hxl (eq_sym Hid)) in Hguard.
    pose proof (law_rows _ _ _ Hl) as Hrg. apply (proj1 (Forall_forall _ _)) with (x := x) in Hrg as [_ Hrg];
      [|done]. rewrite Hrg, Hl in Hguard. cbn [mbind result_bind] in Hguard.
    destruct (stackHolding l id bps) as [stack|] eqn:Es; [|done].
    by eapply stackHolding_guard.
Qed.

(** What the checks before a creation come to. *)
Lemma ledger_ok_created st st' rate now :
  ledger_ok st ->
  (forall g l, rows g st l -> fresh (tr_ID rate) l) ->
  (forall g l', rows g st' l' -> exists l, rows g st l /\
     l' ≡ₚ if bool_decide (g = tr_TaxRegionID rate) then stamped now rate :: l else l) ->
  rate_ok (tr_RateBps rate) ->
  assertStackable repo (tr_TaxRegionID rate) (default EmptyString (tr_StacksOnID rate))
    (tr_IsDefault rate) (tr_RateBps rate) (tr_Compound rate) EmptyString st = None ->
  tr_StacksOnID rate <> Some EmptyString ->
  ledger_ok st'.
Proof.
  intros Hok Hfresh Hrows Hbps Hcheck Hne. unfold assertStackable in Hcheck.
  assert (Hbase : forall b, tr_StacksOnID rate = Some b -> tr_IsDefault rate = false /\
    exists l, rows (tr_TaxRegionID rate) st l /\ (exists x, x ∈ l /\ tr_ID x = b) /\
      (forall r, r ∈ l -> tr_StacksOnID r <> Some b) /\
      (forall root k top, stack_path l (root :: k) -> tr_StacksOnID root = None ->
         last (root :: k) = Some top -> tr_ID top = b ->
         (length (root :: k) < 4)%nat /\ taken_of ((root :: k) ++ [stamped now rate]) <= notionalBase)).
  { intros b Hb. rewrite Hb in Hcheck. simpl in Hcheck.
    rewrite bool_decide_false in Hcheck by congruence.
    destruct (tr_IsDefault rate); [done|]. split; [done|].
    destruct (repo_ListTaxRates repo (tr_TaxRegionID rate) st) as [l|] eqn:El; [|done].
    exists l. split; [done|].
    destruct (stackable_on_None l _ b _ _ (stamped now rate) (le_rates _ Hok _ _ El)
      ltac:(eapply Forall_impl; [apply (law_rows _ _ _ El)|by intros ? [? _]]) eq_refl eq_refl Hcheck)
      as (Hx & _ & Hnone & Hstack). done. }
  clear Hcheck.
  assert (Helem : forall g l' x, rows g st' l' -> x ∈ l' ->
    (x = stamped now rate /\ g = tr_TaxRegionID rate) \/ exists l, rows g st l /\ x ∈ l).
  { intros g l' x (l & Hl & Hp)%Hrows. rewrite Hp. case_bool_decide; [|right; by exists l].
    intros [->|Hx]%elem_of_cons; [by left|right; by exists l]. }
  split.
  - intros g l' (l & Hl & ->)%Hrows. pose proof (le_rates _ Hok _ _ Hl) as Hlok.
    case_bool_decide as Hg; [|done]. subst g. apply rates_ok_new; [done|done|by eapply Hfresh| |].
    + simpl. intros Hd. destruct (tr_StacksOnID rate) as [b|] eqn:Eb; [|done].
      destruct (Hbase b eq_refl) as [? _]. congruence.
    + simpl. intros b Hb. destruct (Hbase b Hb) as (_ & l0 & Hl0 & (x & Hx & Hid) & Hnone & Hstack).
      unfold rows in *. rewrite Hl in Hl0. injection Hl0 as <-.
      split; [|done]. intros ->. by destruct (Hfresh _ l Hl x Hx).
  - intros g1 g2 l1 l2 r x H1 H2 Hr Hx Hrx.
    destruct (Helem _ _ _ H1 Hr) as [[-> ->]|(k1 & Hk1 & Hr1)], (Helem _ _ _ H2 Hx) as [[-> ->]|(k2 & Hk2 & Hx2)].
    + done.
    + simpl in Hrx. destruct (Hbase _ Hrx) as (_ & l0 & Hl0 & (y & Hy & Hid) & _).
      eapply law_apart; [exact Hl0|exact Hk2|done|done|done].
    + simpl in Hrx. by destruct (Hfresh _ _ Hk1 _ Hr1).
    + by eapply (le_within _ Hok).
  - intros g1 g2 l1 l2 r x b H1 H2 Hr Hx Hrb Hxb.
    destruct (Helem _ _ _ H1 Hr) as [[-> ->]|(k1 & Hk1 & Hr1)], (Helem _ _ _ H2 Hx) as [[-> ->]|(k2 & Hk2 & Hx2)].
    + done.
    + simpl in Hrb. destruct (Hbase _ Hrb) as (_ & l0 & Hl0 & (y & Hy & <-) & _).
      symmetry. eapply (le_within _ Hok); [exact Hk2|exact Hl0|done|done|done].
    + simpl in Hxb. destruct (Hbase _ Hxb) as (_ & l0 & Hl0 & (y & Hy & <-) & _).
      eapply (le_within _ Hok); [exact Hk1|exact Hl0|done|done|done].
    + by eapply (le_bases _ Hok).
Qed.

Lemma ledger_ok_same st st' :
  ledger_ok st -> (forall g l', rows g st' l' -> exists l, rows g st l /\ l' ≡ₚ l) -> ledger_ok st'.
Proof.
  intros Hok Hrows. eapply (ledger_ok_rows st st' (fun l => l)); [done|exact Hrows| |done].
  intros l x Hx. by exists x.
Qed.

Lemma with_tx_inv {A} (f : St -> St * result A) st st' r :
  with_tx f st = (st', r) -> (exists a, f st = (st', Ok a) /\ r = Ok a) \/ (st' = st /\ exists e, r = Fail e).
Proof.
  unfold with_tx. destruct (f st) as [s [a|e]]; intros [= <- <-]; [left; by exists a|right; eauto].
Qed.

Lemma step_check_inv {A} c st (k : St * result A) st' a :
  step_check c st k = (st', Ok a) -> c = None /\ k = (st', Ok a).
Proof. unfold step_check. by destruct c. Qed.

(** ** The writes of the service *)

Inductive rate_write (s : Service St) : St -> St -> Prop :=
  | write_create in_ now newID st st' o : CreateTaxRate s in_ now newID st = (st', o) -> rate_write s st st'
  | write_update id in_ now st st' o : UpdateTaxRate s id in_ now st = (st', o) -> rate_write s st st'
  | write_revise id read next now st st' o : ReviseTaxRate s id read next now st = (st', o) ->
      rate_write s st st'
  | write_delete id now st st' o : DeleteTaxRate s id now st = (st', o) -> rate_write s st st'.

Lemma given_nonempty s : given s <> Some EmptyString.
Proof. unfold given. case_bool_decide; congruence. Qed.

Lemma default_given s : default EmptyString (given s) = s.
Proof. unfold given. by case_bool_decide. Qed.

Lemma created_ok s in_ now newID st st' o :
  s_repo s = Some repo -> ledger_ok st -> CreateTaxRate s in_ now newID st = (st', o) -> ledger_ok st'.
Proof.
  intros Hs Hok. unfold CreateTaxRate, ready. rewrite Hs. cbn [mbind result_bind].
  destruct (requireID _ _ _); [by intros [= <- _]|]. cbn [guard_err].
  destruct (normalizeName _) as [name|]; [|by intros [= <- _]]. cbn [mbind result_bind].
  destruct (normalizeCode _) as [code|]; [|by intros [= <- _]]. cbn [mbind result_bind].
  destruct (validateRateBps _) eqn:Eb; [by intros [= <- _]|]. cbn [guard_err].
  apply validateRateBps_None in Eb.
  intros [(r & Hr & _)|[-> _]]%with_tx_inv; [|done].
  apply step_check_inv in Hr as [_ Hr]. apply step_check_inv in Hr as [_ Hr].
  apply step_check_inv in Hr as [Hcheck Hr]. apply law_create in Hr as [Hfresh Hrows].
  eapply ledger_ok_created; [done|exact Hfresh|exact Hrows|done| |apply given_nonempty].
  simpl. by rewrite default_given.
Qed.

Lemma buildRatePatch_Ok in_ patch :
  buildRatePatch in_ = Ok patch -> forall bps, pa_RateBps patch = Some bps -> rate_ok bps.
Proof.
  unfold buildRatePatch. intros H. result_inv. subst patch. simpl. intros bps ->.
  unfold map_given, checked_bps in *. destruct (ui_RateBps in_) as [b|]; [|done]. result_inv.
  subst. by apply validateRateBps_None.
Qed.

Lemma updated_ok s id in_ now st st' o :
  s_repo s = Some repo -> ledger_ok st -> UpdateTaxRate s id in_ now st = (st', o) -> ledger_ok st'.
Proof.
  intros Hs Hok. unfold UpdateTaxRate, ready. rewrite Hs. cbn [mbind result_bind].
  destruct (requireID _ _ _); [by intros [= <- _]|]. cbn [guard_err].
  destruct (buildRatePatch in_) as [patch|] eqn:Ep; [|by intros [= <- _]]. cbn [mbind result_bind].
  destruct (Empty patch); [by intros [= <- _]|]. cbn [guard_err].
  destruct (match pa_IsDefault patch with Some true => assertNotStacked repo id st | _ => None end) eqn:Ed;
    [by intros [= <- _]|]. cbn [guard_err].
  assert (Hdef : pa_IsDefault patch = Some true -> assertNotStacked repo id st = None)
    by (intros Edef; rewrite Edef in Ed; exact Ed).
  pose proof (buildRatePatch_Ok _ _ Ep) as Hbps.
  destruct (pa_RateBps patch) as [bps|] eqn:Eb.
  - intros [(r & Hr & _)|[-> _]]%with_tx_inv; [|done]. apply step_check_inv in Hr as [Hcheck Hr].
    apply (ledger_ok_patched st st' id patch now); [done|exact (law_update _ _ _ _ _ _ Hr)| |done].
    rewrite Eb. intros ? [= <-]. split; [by apply Hbps|done].
  - intros Hr. pose proof (law_update _ _ _ _ _ _ Hr) as Hrows. destruct o.
    + apply (ledger_ok_patched st st' id patch now); [done|exact Hrows|by rewrite Eb|done].
    + by apply (ledger_ok_same st st').
Qed.

Lemma revised_ok s id read next now st st' o :
  s_repo s = Some repo -> ledger_ok st -> ReviseTaxRate s id read next now st = (st', o) -> ledger_ok st'.
Proof.
  intros Hs Hok. unfold ReviseTaxRate, ready. rewrite Hs. cbn [mbind result_bind].
  destruct (requireID _ _ _); [by intros [= <- _]|]. cbn [guard_err].
  destruct (normalizeName _) as [name|]; [|by intros [= <- _]]. cbn [mbind result_bind].
  destruct (validateRateBps _) eqn:Eb; [by intros [= <- _]|]. cbn [guard_err].
  apply validateRateBps_None in Eb. destruct (with_tx _ _) as [s1 r1] eqn:Etx.
  assert (Hs1 : ledger_ok s1).
  { apply with_tx_inv in Etx as [(r & Hr & _)|[-> _]]; [|done].
    apply step_check_inv in Hr as [Hcheck Hr]. pose proof (law_revise _ _ _ _ _ _ _ Hr) as Hrows.
    destruct r.2; [|by apply (ledger_ok_same st s1)].
    eapply ledger_ok_patched; [done|exact Hrows| |done]. intros bps [= <-]. done. }
  destruct r1 as [[rate []]|]; [by intros [= <- _]| |by intros [= <- _]].
  unfold step_check. destruct (failed _); by intros [= <- _].
Qed.

Lemma deleted_ok s id now st st' o :
  s_repo s = Some repo -> ledger_ok st -> DeleteTaxRate s id now st = (st', o) -> ledger_ok st'.
Proof.
  intros Hs Hok. unfold DeleteTaxRate, ready. rewrite Hs. cbn [mbind result_bind].
  destruct (requireID _ _ _); [by intros [= <- _]|]. cbn [guard_err]. intros Hr.
  pose proof (law_delete _ _ _ _ _ Hr) as Hrows. destruct o; [by apply (ledger_ok_same st st')|].
  apply (ledger_ok_rows st st' (filter (not_id id))); [done|exact Hrows| |].
  - intros l x [_ Hx]%list_elem_of_filter. by exists x.
  - intros g l _ Hl. by apply rates_ok_without.
Qed.

Lemma rate_write_ok s st st' : s_repo s = Some repo -> ledger_ok st -> rate_write s st st' -> ledger_ok st'.
Proof.
  intros Hs Hok Hw. destruct Hw as [????? o Ho|????? o Ho|?????? o Ho|???? o Ho].
  - eapply created_ok; [exact Hs|exact Hok|exact Ho].
  - eapply updated_ok; [exact Hs|exact Hok|exact Ho].
  - eapply revised_ok; [exact Hs|exact Hok|exact Ho].
  - eapply deleted_ok; [exact Hs|exact Hok|exact Ho].
Qed.

(** ** The rates of several regions together *)

Lemma stack_path_app a b l :
  stack_path a l -> (forall x y, x ∈ a -> y ∈ b -> tr_StacksOnID y <> Some (tr_ID x)) -> stack_path (a ++ b) l.
Proof.
  intros (Hin & Hstep & top & Htop & Hnone)%stack_path_steps Happ.
  apply stack_path_intro with top; [|done|done|].
  - eapply Forall_impl; [exact Hin|]. intros x Hx. apply elem_of_app. by left.
  - intros r [Hr|Hr]%elem_of_app; [by apply Hnone|]. apply Happ; [|done].
    apply (proj1 (Forall_forall _ _) Hin). by apply last_Some_elem_of.
Qed.

Lemma rates_ok_app a b :
  rates_ok a -> rates_ok b ->
  (forall x y, x ∈ a -> y ∈ b -> tr_ID x <> tr_ID y /\ tr_StacksOnID y <> Some (tr_ID x) /\
     tr_StacksOnID x <> Some (tr_ID y) /\ (tr_StacksOnID x <> None -> tr_StacksOnID x <> tr_StacksOnID y)) ->
  rates_ok (a ++ b).
Proof.
  intros Ha Hb Happ. split.
  - rewrite fmap_app. apply NoDup_app. split; [apply Ha|]. split; [|apply Hb].
    intros id (x & -> & Hx)%list_elem_of_fmap (y & Hxy & Hy)%list_elem_of_fmap.
    by destruct (Happ x y Hx Hy) as [? _].
  - apply Forall_app. split; [apply Ha|apply Hb].
  - intros x y base [Hx|Hx]%elem_of_app [Hy|Hy]%elem_of_app Hxb Hyb;
      [by eapply (ro_one _ Ha)| | |by eapply (ro_one _ Hb)].
    + destruct (Happ x y Hx Hy) as (_ & _ & _ & Hdiff). exfalso; apply Hdiff; congruence.
    + destruct (Happ y x Hy Hx) as (_ & _ & _ & Hdiff). exfalso; apply Hdiff; congruence.
  - intros r [Hr|Hr]%elem_of_app; [by apply (ro_default _ Ha)|by apply (ro_default _ Hb)].
  - intros r [Hr|Hr]%elem_of_app Hroot.
    + destruct (ro_stacks _ Ha r Hr Hroot) as (l & Hl & ?). exists l. split; [|done].
      apply stack_path_app; [done|]. intros x y Hx Hy. by destruct (Happ x y Hx Hy) as (_ & ? & _).
    + destruct (ro_stacks _ Hb r Hr Hroot) as (l & Hl & ?). exists l. split; [|done].
      rewrite (comm (++) a b). apply stack_path_app; [done|]. intros x y Hx Hy.
      by destruct (Happ y x Hy Hx) as (_ & _ & ? & _).
Qed.

Lemma ledger_ok_regions st ids rates :
  ledger_ok st -> NoDup ids -> ListTaxRatesByRegions repo ids st = Ok rates -> rates_ok rates.
Proof.
  intros Hok Hnd Hrates. destruct (law_by_regions _ _ _ Hrates Hnd) as (lists & Hlists & ->).
  clear Hrates. induction Hlists as [|g l ids lists Hl Hlists IH]; simpl.
  { split; [constructor|constructor| | |]; intros ? *; by intros ?%not_elem_of_nil. }
  apply NoDup_cons in Hnd as [Hg Hnd].
  apply rates_ok_app; [by eapply (le_rates _ Hok)|by apply IH|].
  intros x y Hx (l' & Hy & Hl')%list_elem_of_join.
  apply list_elem_of_lookup in Hl' as [i Hi].
  destruct (Forall2_lookup_r _ _ _ _ _ Hlists Hi) as (g' & Hg' & Hrows).
  assert (g <> g') by (intros ->; apply Hg; by eapply list_elem_of_lookup_2).
  split_and!.
  - intros Heq. by assert (g = g') by by eapply law_apart.
  - intros Heq. by assert (g' = g) by by eapply (le_within _ Hok).
  - intros Heq. by assert (g = g') by by eapply (le_within _ Hok).
  - intros Hne Heq. destruct (tr_StacksOnID x) as [b|] eqn:Eb; [|done].
    by assert (g = g') by by eapply (le_bases _ Hok).
Qed.
End Ledger.
