(* ===== verification/TaxSelect.v ===== *)
(** * Which rate applies to a line

    The selection of [local.go] against a description of it that mentions neither the table nor the
    order of the rows. *)
From S2P Require Import Prelude GoText Errors TaxModels TaxRates TaxCalculate TaxStack TaxStackFacts TaxLines.

(** ** The description *)

(** [r] is reached through a rule of specificity [n]. *)
Definition matches (rules : list TaxRateRule) (keys : list matchKey) (r : TaxRate) (n : Z) : Prop :=
  exists rule, rule ∈ rules /\ rr_TaxRateID rule = tr_ID r /\
    (rr_Reference rule, rr_ReferenceID rule) ∈ keys /\ n = Specificity (rr_Reference rule).

Definition candidate (rates : list TaxRate) (region : string) (r : TaxRate) : Prop :=
  from_rates rates region r /\ tr_IsDefault r = false.

Definition default_of (rates : list TaxRate) (region : string) (r : TaxRate) : Prop :=
  from_rates rates region r /\ tr_IsDefault r = true.

Definition id_le (a b : TaxRate) : Prop := cmpS (tr_ID a) (tr_ID b) <= 0.

(** The most specific of the region's ruled rates; among equals the least id. *)
Definition best_ruled rates rules keys region r : Prop :=
  candidate rates region r /\ exists n, 0 < n /\ matches rules keys r n /\
    forall c m, candidate rates region c -> matches rules keys c m -> m < n \/ m = n /\ id_le r c.

Definition none_ruled rates rules keys region : Prop :=
  forall c m, candidate rates region c -> matches rules keys c m -> m <= 0.

Definition best_default rates region r : Prop :=
  default_of rates region r /\ forall d, default_of rates region d -> id_le r d.

(** The first region of the chain that has a ruled rate for the line or a default decides. *)
Fixpoint chosen rates rules keys (chain : list string) (o : option TaxRate) : Prop :=
  match chain with
  | [] => o = None
  | region :: chain' =>
      (exists r, o = Some r /\ best_ruled rates rules keys region r) \/
      none_ruled rates rules keys region /\
      ((exists r, o = Some r /\ best_default rates region r) \/
       (forall d, ~ default_of rates region d) /\ chosen rates rules keys chain' o)
  end.

(** ** The parts of the selection *)

Lemma matchSpecificity_max rules keys :
  (forall rule, rule ∈ rules -> (rr_Reference rule, rr_ReferenceID rule) ∈ keys ->
     Specificity (rr_Reference rule) <= matchSpecificity rules keys) /\
  (matchSpecificity rules keys = 0 \/ exists rule, rule ∈ rules /\
     (rr_Reference rule, rr_ReferenceID rule) ∈ keys /\
     matchSpecificity rules keys = Specificity (rr_Reference rule)).
Proof.
  unfold matchSpecificity.
  assert (Hmatch : forall rule key, rule_matches rule key = true <->
    key = (rr_Reference rule, rr_ReferenceID rule)).
  { intros rule [ref id]. unfold rule_matches. simpl.
    rewrite andb_true_iff, !bool_decide_eq_true. split; [by intros [-> ->]|by intros [= -> ->]]. }
  assert (Hinner : forall rule ks best,
    let out := foldl (fun best key => if rule_matches rule key && (best <? Specificity (rr_Reference rule))
      then Specificity (rr_Reference rule) else best) best ks in
    best <= out /\ ((rr_Reference rule, rr_ReferenceID rule) ∈ ks -> Specificity (rr_Reference rule) <= out) /\
    (out = best \/ (rr_Reference rule, rr_ReferenceID rule) ∈ ks /\ out = Specificity (rr_Reference rule))).
  { intros rule ks. induction ks as [|key ks IH]; intros best; simpl.
    { split; [lia|]. split; [by intros ?%not_elem_of_nil|by left]. }
    destruct (rule_matches rule key) eqn:Em; simpl.
    - apply Hmatch in Em as ->. destruct (Z.ltb_spec best (Specificity (rr_Reference rule))) as [Hlt|Hge].
      + destruct (IH (Specificity (rr_Reference rule))) as (H1 & H2 & H3).
        split; [lia|]. split; [lia|]. right. split; [by left|]. destruct H3 as [H3|[_ H3]]; done.
      + destruct (IH best) as (H1 & H2 & H3). split; [done|]. split; [lia|].
        destruct H3 as [H3|[Hin H3]]; [by left|right; split; [by right|done]].
    - destruct (IH best) as (H1 & H2 & H3). split; [done|]. split.
      + intros [Heq|Hin]%elem_of_cons; [|by apply H2]. exfalso.
        assert (rule_matches rule key = true) by (by apply Hmatch). congruence.
      + destruct H3 as [H3|[Hin H3]]; [by left|right; split; [by right|done]]. }
  cut (forall best,
    let out := foldl (fun best rule => foldl (fun best key =>
      if rule_matches rule key && (best <? Specificity (rr_Reference rule))
      then Specificity (rr_Reference rule) else best) best keys) best rules in
    best <= out /\ (forall rule, rule ∈ rules -> (rr_Reference rule, rr_ReferenceID rule) ∈ keys ->
      Specificity (rr_Reference rule) <= out) /\
    (out = best \/ exists rule, rule ∈ rules /\ (rr_Reference rule, rr_ReferenceID rule) ∈ keys /\
      out = Specificity (rr_Reference rule))).
  { intros Hall. destruct (Hall 0) as (_ & H1 & H2). done. }
  induction rules as [|rule rules IH]; intros best; cbn [foldl].
  { split; [lia|]. split; [by intros ? ?%not_elem_of_nil|by left]. }
  destruct (Hinner rule keys best) as (I1 & I2 & I3).
  match goal with |- context [foldl _ (foldl ?f best keys) rules] =>
    destruct (IH (foldl f best keys)) as (H1 & H2 & H3) end.
  split; [simpl in *; lia|]. split.
  - intros x [->|Hx]%elem_of_cons Hin; [|by apply H2]. specialize (I2 Hin). simpl in *. lia.
  - destruct H3 as [H3|(x & Hx & Hin & H3)]; [|right; exists x; split; [by right|done]].
    destruct I3 as [I3|[Hin I3]]; [left; etrans; [exact H3|exact I3]|].
    right. exists rule. split; [by left|]. split; [done|]. etrans; [exact H3|exact I3].
Qed.

Lemma Specificity_nonneg r : 0 <= Specificity r.
Proof. by destruct r. Qed.

Lemma rules_by_rate_lookup rules id :
  default [] (rules_by_rate rules !! id) = filter (fun x => rr_TaxRateID x = id) rules.
Proof.
  unfold rules_by_rate.
  assert (forall m, default [] (foldl (fun m rule => map_append (rr_TaxRateID rule) rule m) m rules !! id) =
    default [] (m !! id) ++ filter (fun x => rr_TaxRateID x = id) rules) as Hall; [|apply Hall].
  induction rules as [|rule rules IH]; intros m; cbn [foldl]; [by rewrite app_nil_r|].
  rewrite IH. unfold map_append. destruct (decide (rr_TaxRateID rule = id)) as [<-|Hne].
  - rewrite lookup_insert_eq, filter_cons_True by done. simpl. by rewrite <- app_assoc.
  - by rewrite lookup_insert_ne, filter_cons_False by done.
Qed.

#[export] Instance candidate_dec rates region r : Decision (candidate rates region r).
Proof. unfold candidate, from_rates. apply _. Defined.

Lemma ruled_lookup byRate chain (rates : list TaxRate) region :
  default [] (rt_ruled (foldl (place_rate byRate) (mkRateTable chain ∅ ∅ ∅) rates) !! region) =
  (fun r => mkRuledRate r (default [] (byRate !! tr_ID r))) <$> filter (candidate rates region) rates.
Proof.
  assert (forall all t, (forall r, r ∈ rates -> r ∈ all) ->
    default [] (rt_ruled (foldl (place_rate byRate) t rates) !! region) = default [] (rt_ruled t !! region) ++
      ((fun r => mkRuledRate r (default [] (byRate !! tr_ID r))) <$> filter (candidate all region) rates))
    as Hall; [|exact (Hall rates (mkRateTable chain ∅ ∅ ∅) (fun r Hr => Hr))].
  intros all. induction rates as [|r rates IH]; intros t Hin; cbn [foldl].
  { by rewrite filter_nil, fmap_nil, app_nil_r. }
  assert (r ∈ all) as Hr by (apply Hin; left). rewrite IH by (intros x Hx; apply Hin; by right).
  unfold place_rate. destruct (decide (candidate all region r)) as [Hc|Hc].
  - rewrite filter_cons_True by done. destruct Hc as [(_ & Hs & Hg) Hd]. rewrite Hs, Hd. simpl.
    unfold map_append. rewrite Hg, lookup_insert_eq. simpl. by rewrite <- app_assoc.
  - rewrite filter_cons_False by done. f_equal.
    destruct (tr_StacksOnID r) eqn:Es; [done|]. destruct (tr_IsDefault r) eqn:Ed; [done|]. simpl.
    unfold map_append. rewrite lookup_insert_ne; [done|]. intros Hg. by apply Hc.
Qed.

Lemma id_le_trans a b c : id_le a b -> id_le b c -> id_le a c.
Proof. unfold id_le. apply cmp_trans. Qed.

Lemma keep_least_least k r (m : gmap string TaxRate) :
  exists x, keep_least k r m !! k = Some x /\ id_le x r /\ forall y, m !! k = Some y -> id_le x y.
Proof.
  unfold keep_least, id_le. destruct (m !! k) as [y|] eqn:E.
  - unfold str_lt. destruct (Z.ltb_spec (cmpS (tr_ID r) (tr_ID y)) 0) as [Hlt|Hge].
    + exists r. rewrite lookup_insert_eq. split; [done|]. split; [by rewrite (cmp_refl cmpS)|].
      intros ? [= <-]. lia.
    + exists y. split; [done|]. split; [by apply (cmp_le_flip cmpS)|]. intros ? [= <-].
      by rewrite (cmp_refl cmpS).
  - exists r. rewrite lookup_insert_eq. split; [done|]. split; [by rewrite (cmp_refl cmpS)|done].
Qed.

Lemma fallback_lookup byRate chain (rates : list TaxRate) region :
  let t := foldl (place_rate byRate) (mkRateTable chain ∅ ∅ ∅) rates in
  match rt_fallback t !! region with
  | Some r => best_default rates region r
  | None => forall d, ~ default_of rates region d
  end.
Proof.
  pose proof (place_rates_spec byRate chain rates) as (_ & _ & Hfrom).
  assert (forall t, (forall d, d ∈ rates -> tr_StacksOnID d = None -> tr_IsDefault d = true ->
      tr_TaxRegionID d = region ->
      exists x, rt_fallback (foldl (place_rate byRate) t rates) !! region = Some x /\ id_le x d) /\
    (forall y, rt_fallback t !! region = Some y ->
      exists x, rt_fallback (foldl (place_rate byRate) t rates) !! region = Some x /\ id_le x y)) as Hall.
  { clear. induction rates as [|r rates IH]; intros t; cbn [foldl].
    { split; [by intros ? ?%not_elem_of_nil|]. intros y Hy. exists y. split; [done|]. unfold id_le.
      by rewrite (cmp_refl cmpS). }
    destruct (IH (place_rate byRate t r)) as [Hin Hold]. split.
    - intros d [->|Hd]%elem_of_cons Hs Hdef Hg; [|by apply Hin].
      destruct (keep_least_least (tr_TaxRegionID r) r (rt_fallback t)) as (x & Hx & Hle & _).
      destruct (Hold x) as (z & Hz & Hzx).
      { unfold place_rate. rewrite Hs, Hdef. simpl. by rewrite <- Hg. }
      exists z. split; [done|]. by eapply id_le_trans.
    - intros y Hy. assert (exists x, rt_fallback (place_rate byRate t r) !! region = Some x /\ id_le x y)
        as (x & Hx & Hle).
      { assert (Hsame : exists x, rt_fallback t !! region = Some x /\ id_le x y).
        { exists y. split; [done|]. unfold id_le. by rewrite (cmp_refl cmpS). }
        unfold place_rate. destruct (tr_StacksOnID r); [done|]. destruct (tr_IsDefault r); [|done]. simpl.
        destruct (decide (tr_TaxRegionID r = region)) as [Hg|Hne].
        - destruct (keep_least_least (tr_TaxRegionID r) r (rt_fallback t)) as (x & Hx & _ & Hle).
          rewrite Hg in *. exists x. split; [done|by apply Hle].
        - exists y. split; [|by destruct Hsame as (x & Hx & ?); unfold id_le; rewrite (cmp_refl cmpS)].
          unfold keep_least. destruct (rt_fallback t !! tr_TaxRegionID r); [case_match|];
            by rewrite ?lookup_insert_ne by done. }
      destruct (Hold x Hx) as (z & Hz & Hzx). exists z. split; [done|]. by eapply id_le_trans. }
  destruct (Hall (mkRateTable chain ∅ ∅ ∅)) as [Hin _]. clear Hall. simpl.
  destruct (rt_fallback _ !! region) as [r|] eqn:E.
  - split; [by apply Hfrom|]. intros d [(Hd & Hs & Hg) Hdef].
    destruct (Hin d Hd Hs Hdef Hg) as (x & Hx & Hle). congruence.
  - intros d [(Hd & Hs & Hg) Hdef]. destruct (Hin d Hd Hs Hdef Hg) as (x & Hx & Hle). congruence.
Qed.

Lemma best_candidate_spec keys l best spec :
  0 <= spec ->
  match best_candidate keys best spec l with
  | Some r =>
      (best = Some r /\ forall c, c ∈ l -> matchSpecificity (rl_rules c) keys <= spec) \/
      exists l1 c l2, l = l1 ++ c :: l2 /\ rl_rate c = r /\ spec < matchSpecificity (rl_rules c) keys /\
        (forall x, x ∈ l1 -> matchSpecificity (rl_rules x) keys < matchSpecificity (rl_rules c) keys) /\
        (forall x, x ∈ l2 -> matchSpecificity (rl_rules x) keys <= matchSpecificity (rl_rules c) keys)
  | None => best = None /\ forall c, c ∈ l -> matchSpecificity (rl_rules c) keys <= spec
  end.
Proof.
  revert best spec. induction l as [|c l IH]; intros best spec Hs; cbn [best_candidate].
  { destruct best; [left|]; (split; [done|by intros ? ?%not_elem_of_nil]). }
  destruct (Z.ltb_spec spec (matchSpecificity (rl_rules c) keys)) as [Hlt|Hge].
  - specialize (IH (Some (rl_rate c)) _ (Z.le_trans _ _ _ Hs (Z.lt_le_incl _ _ Hlt))).
    destruct (best_candidate _ _ _ l) as [r|]; [|by destruct IH].
    right. destruct IH as [[[= <-] Hl]|(l1 & c' & l2 & -> & Hr & Hsp & H1 & H2)].
    + exists [], c, l. split_and!; [done|done|done|by intros ? ?%not_elem_of_nil|done].
    + exists (c :: l1), c', l2. split_and!; [done|done|lia| |done].
      intros x [->|Hx]%elem_of_cons; [done|by apply H1].
  - specialize (IH best spec Hs). destruct (best_candidate _ _ _ l) as [r|].
    + destruct IH as [[-> Hl]|(l1 & c' & l2 & -> & Hr & Hsp & H1 & H2)].
      * left. split; [done|]. intros x [->|Hx]%elem_of_cons; [done|by apply Hl].
      * right. exists (c :: l1), c', l2. split_and!; [done|done|done| |done].
        intros x [->|Hx]%elem_of_cons; [lia|by apply H1].
    + destruct IH as [-> Hl]. split; [done|]. intros x [->|Hx]%elem_of_cons; [done|by apply Hl].
Qed.

(** ** The selection meets the description *)

Section Meets.
Context (rates : list TaxRate) (rules : list TaxRateRule) (keys : list matchKey).

Definition spec_of (r : TaxRate) : Z :=
  matchSpecificity (filter (fun x => rr_TaxRateID x = tr_ID r) rules) keys.

Lemma spec_of_matches r :
  (forall n, matches rules keys r n -> n <= spec_of r) /\ (0 < spec_of r -> matches rules keys r (spec_of r)).
Proof.
  destruct (matchSpecificity_max (filter (fun x => rr_TaxRateID x = tr_ID r) rules) keys) as [Hle Hattain].
  split.
  - intros n (rule & Hr & Hid & Hk & ->). apply Hle; [by apply list_elem_of_filter|done].
  - intros Hpos. destruct Hattain as [H0|(rule & Hrule & Hk & Heq)]; [unfold spec_of in *; lia|].
    apply list_elem_of_filter in Hrule as [Hid Hr]. by exists rule.
Qed.

Lemma best_candidate_region chain region :
  match best_candidate keys None 0 (default [] (rt_ruled (newRateTable chain rates rules) !! region)) with
  | Some r => best_ruled rates rules keys region r
  | None => none_ruled rates rules keys region
  end.
Proof.
  set (ruled := (fun r => mkRuledRate r (filter (fun x => rr_TaxRateID x = tr_ID r) rules)) <$>
    filter (candidate rates region) rates).
  assert (Hl : default [] (rt_ruled (newRateTable chain rates rules) !! region) =
    SortFunc (cmp_on (fun r => tr_ID (rl_rate r)) cmpS) ruled).
  { unfold newRateTable. simpl. rewrite lookup_fmap.
    pose proof (ruled_lookup (rules_by_rate rules) chain rates region) as Hr.
    assert (Hm : ruled = (fun r => mkRuledRate r (default [] (rules_by_rate rules !! tr_ID r))) <$>
      filter (candidate rates region) rates).
    { apply list_fmap_ext. intros _ r _. by rewrite rules_by_rate_lookup. }
    rewrite Hm, <- Hr. by destruct (rt_ruled _ !! region). }
  rewrite Hl. set (sorted := SortFunc _ ruled).
  assert (Hin : forall c, c ∈ sorted <-> exists r, candidate rates region r /\
    c = mkRuledRate r (filter (fun x => rr_TaxRateID x = tr_ID r) rules)).
  { intros c. unfold sorted, ruled. rewrite SortFunc_elem, list_elem_of_fmap. split.
    - intros (r & -> & [Hc _]%list_elem_of_filter). by exists r.
    - intros (r & Hc & ->). exists r. split; [done|]. apply list_elem_of_filter. split; [done|]. apply Hc. }
  pose proof (best_candidate_spec keys sorted None 0 ltac:(lia)) as Hbest.
  destruct (best_candidate keys None 0 sorted) as [r|].
  - destruct Hbest as [[? _]|(l1 & c & l2 & Hsplit & Hr & Hpos & H1 & H2)]; [done|].
    assert (c ∈ sorted) as (r' & Hc & ->)%Hin by (rewrite Hsplit; apply elem_of_app; right; left).
    simpl in Hr. subst r'. change (0 < spec_of r) in Hpos. split; [done|].
    exists (spec_of r). split; [done|]. split; [by apply spec_of_matches|].
    intros c m Hcand Hm. pose proof (proj1 (spec_of_matches c) m Hm) as Hle.
    assert (Hcs : mkRuledRate c (filter (fun x => rr_TaxRateID x = tr_ID c) rules) ∈ sorted)
      by (apply Hin; by exists c).
    rewrite Hsplit in Hcs. apply elem_of_app in Hcs as [Hx|[Heq|Hx]%elem_of_cons].
    + apply H1 in Hx. change (spec_of c < spec_of r) in Hx. left. lia.
    + injection Heq as -> _. destruct (decide (m = spec_of r)) as [->|?]; [right|left; lia].
      split; [done|]. unfold id_le. by rewrite (cmp_refl cmpS).
    + pose proof (H2 _ Hx) as Hxle. change (spec_of c <= spec_of r) in Hxle.
      destruct (decide (m = spec_of r)) as [->|?]; [right|left; lia]. split; [done|].
      pose proof (SortFunc_sorted (cmp_on (fun r => tr_ID (rl_rate r)) cmpS) ruled) as Hs.
      fold sorted in Hs. rewrite Hsplit in Hs. apply StronglySorted_app_1_r in Hs.
      apply StronglySorted_inv in Hs as [_ Hall]. by apply (proj1 (Forall_forall _ _) Hall) in Hx.
  - destruct Hbest as [_ Hall]. intros c m Hc Hm. pose proof (proj1 (spec_of_matches c) m Hm).
    assert (Hle : spec_of c <= 0); [|lia].
    apply (Hall (mkRuledRate c (filter (fun x => rr_TaxRateID x = tr_ID c) rules))), Hin. by exists c.
Qed.

Lemma selectRate_meets chain : chosen rates rules keys chain (selectRate (newRateTable chain rates rules) keys).
Proof.
  unfold selectRate. rewrite newRateTable_chain.
  assert (forall walked, chosen rates rules keys walked (select_in (newRateTable chain rates rules) keys walked))
    as Hall; [|apply Hall].
  induction walked as [|region walked IH]; [done|]. cbn [select_in chosen].
  pose proof (best_candidate_region chain region) as Hb.
  destruct (best_candidate _ _ _ _) as [r|]; [left; by exists r|right].
  split; [done|]. pose proof (fallback_lookup (rules_by_rate rules) chain rates region) as Hf.
  cbv zeta in Hf.
  change (rt_fallback (newRateTable chain rates rules)) with
    (rt_fallback (foldl (place_rate (rules_by_rate rules)) (mkRateTable chain ∅ ∅ ∅) rates)).
  destruct (rt_fallback _ !! region) as [r|]; [left; by exists r|right]. done.
Qed.

Lemma id_le_antisym a b : NoDup (tr_ID <$> rates) -> a ∈ rates -> b ∈ rates -> id_le a b -> id_le b a -> a = b.
Proof.
  intros Hids Ha Hb Hab Hba. apply (same_id rates); [done..|]. apply cmpS_eq.
  unfold id_le in *. apply (cmp_le_flip cmpS) in Hba. lia.
Qed.

(** At most one rate fits the description. *)
Lemma chosen_unique chain o o' :
  NoDup (tr_ID <$> rates) -> chosen rates rules keys chain o -> chosen rates rules keys chain o' -> o = o'.
Proof.
  intros Hids. revert o o'. induction chain as [|region chain IH]; intros o o'; [by intros -> ->|].
  cbn [chosen]. intros [(r & -> & Hc & n & Hn & Hm & Hb)|[Hnone Ho]] [(r' & -> & Hc' & n' & Hn' & Hm' & Hb')|[Hnone' Ho']].
  - f_equal. destruct (Hb r' n' Hc' Hm') as [Hlt|[-> Hle]]; destruct (Hb' r n Hc Hm) as [Hlt'|[Heq Hle']]; try lia.
    apply id_le_antisym; [done|apply Hc|apply Hc'|done|done].
  - specialize (Hnone' r n Hc Hm). lia.
  - specialize (Hnone r' n' Hc' Hm'). lia.
  - destruct Ho as [(d & -> & Hd & Hle)|[Hnd Ho]], Ho' as [(d' & -> & Hd' & Hle')|[Hnd' Ho']].
    + f_equal. apply id_le_antisym; [done|apply Hd|apply Hd'|by apply Hle|by apply Hle'].
    + by destruct (Hnd' d).
    + by destruct (Hnd d').
    + by apply IH.
Qed.
End Meets.

(** The description does not look at the order of the rows. *)
Lemma chosen_perm rates rates' rules rules' keys chain o :
  rates ≡ₚ rates' -> rules ≡ₚ rules' -> chosen rates rules keys chain o -> chosen rates' rules' keys chain o.
Proof.
  intros Hrates Hrules.
  assert (Hfrom : forall g r, from_rates rates' g r <-> from_rates rates g r)
    by (intros g r; unfold from_rates; by rewrite Hrates).
  assert (Hmatch : forall r n, matches rules' keys r n <-> matches rules keys r n)
    by (intros r n; unfold matches; by setoid_rewrite Hrules).
  induction chain as [|region chain IH]; [done|].
  cbn [chosen]. unfold best_ruled, none_ruled, best_default, candidate, default_of in *.
  setoid_rewrite Hfrom. setoid_rewrite Hmatch. tauto.
Qed.
