(* ===== verification/TaxMemory.v ===== *)
(** * The tax tables in memory

    An instance of the repository interface, after the statements of
    [internal/modules/tax/queries/*.sql]: it shows that [RateLaws] can hold and is what the
    calculations and writes are tried on. *)
From S2P Require Import Prelude GoText Errors TaxModels TaxRates TaxCalculate TaxStack TaxStackFacts TaxLedger.

Record tables := mkTables {
  tb_regions : list TaxRegion;
  tb_rates : gmap string TaxRate;
  tb_rules : list TaxRateRule;
  tb_classes : gmap string string
}.

Definition with_rates (m : gmap string TaxRate) (st : tables) : tables :=
  mkTables (tb_regions st) m (tb_rules st) (tb_classes st).

Definition not_found (id : string) : err := NotFound "tax_not_found" "not found: %s" [AStr id].
Definition constraint_violated : err := Conflict "tax_constraint_violation" "a constraint was violated" [].

(** A row under its own id. *)
Definition proper_row (region : string) (row : string * TaxRate) : Prop :=
  row.1 = tr_ID row.2 /\ tr_TaxRegionID row.2 = region /\ tr_ID row.2 <> EmptyString.

#[export] Instance proper_row_dec region row : Decision (proper_row region row).
Proof. unfold proper_row. apply _. Defined.

Definition live (region : string) (m : gmap string TaxRate) : list TaxRate :=
  SortFunc (cmp_on tr_ID cmpS) (snd <$> filter (proper_row region) (map_to_list m)).

Definition find_region (id : string) (st : tables) : result TaxRegion :=
  match head (filter (fun r => rg_ID r = id) (tb_regions st)) with
  | Some r => Ok r
  | None => Fail (not_found id)
  end.

(** The province's region before the root. *)
Definition resolve (country province : string) (st : tables) : list TaxRegion :=
  let found := filter (fun r => rg_CountryCode r = country /\
    (rg_ParentID r = None \/ rg_ProvinceCode r = Some province)) (tb_regions st) in
  filter (fun r => IsRoot r = false) found ++ filter (fun r => IsRoot r = true) found.

Definition known (id : string) (m : gmap string TaxRate) : bool :=
  bool_decide (is_Some (m !! id)) ||
  existsb (fun r => bool_decide (tr_StacksOnID r = Some id)) (snd <$> map_to_list m).

Definition insert_rate (rate : TaxRate) (now : moment) (st : tables) : tables * result TaxRate :=
  if known (tr_ID rate) (tb_rates st) || bool_decide (tr_ID rate = EmptyString) then
    (st, Fail constraint_violated)
  else (with_rates (<[tr_ID rate := stamped now rate]> (tb_rates st)) st, Ok (stamped now rate)).

Definition get_rate (id : string) (st : tables) : result TaxRate :=
  match tb_rates st !! id with
  | Some r => if bool_decide (tr_ID r = id) then Ok r else Fail (not_found id)
  | None => Fail (not_found id)
  end.

Definition update_rate (id : string) (patch : TaxRatePatch) (now : moment) (st : tables) :
    tables * result TaxRate :=
  match get_rate id st with
  | Ok r =>
      let r' := patched_row id patch now r in (with_rates (<[id := r']> (tb_rates st)) st, Ok r')
  | Fail e => (st, Fail e)
  end.

Definition revise_rate (id : string) (read next : TaxRateTerms) (now : moment) (st : tables) :
    tables * result (TaxRate * bool) :=
  match get_rate id st with
  | Ok r =>
      if bool_decide (tr_Name r = te_Name read) && (tr_RateBps r =? te_RateBps read) then
        let r' := patched_row id (terms_patch next) now r in
        (with_rates (<[id := r']> (tb_rates st)) st, Ok (r', true))
      else (st, Ok (r, false))
  | Fail _ => (st, Ok (bare_rate 0 false, false))
  end.

Definition delete_rate (id : string) (now : moment) (st : tables) : tables * option err :=
  match get_rate id st with
  | Ok _ => (with_rates (delete id (tb_rates st)) st, None)
  | Fail e => (st, Some e)
  end.

Definition memory : Repository tables := mkRepository tables
  (fun country province st => Ok (resolve country province st))
  find_region find_region find_region
  (fun region now st => (mkTables (region :: tb_regions st) (tb_rates st) (tb_rules st) (tb_classes st), Ok region))
  get_rate
  (fun region st => Ok (live region (tb_rates st)))
  (fun ids st => Ok (mjoin ((fun g => live g (tb_rates st)) <$> ids)))
  (fun ids st => Ok (filter (fun r => rr_TaxRateID r ∈ ids) (tb_rules st)))
  (fun ids st => Ok (filter (fun kv => kv.1 ∈ ids) (tb_classes st)))
  insert_rate update_rate revise_rate delete_rate.

(** ** It keeps the interface's laws *)

Lemma live_elem g m r : r ∈ live g m <-> m !! tr_ID r = Some r /\ tr_TaxRegionID r = g /\ tr_ID r <> EmptyString.
Proof.
  unfold live. rewrite SortFunc_elem, list_elem_of_fmap. split.
  - intros ([k x] & -> & [(Hk & Hg & Hne) Hx]%list_elem_of_filter). simpl in *. subst k.
    by apply elem_of_map_to_list in Hx.
  - intros (Hm & Hg & Hne). exists (tr_ID r, r). split; [done|]. apply list_elem_of_filter.
    split; [done|]. by apply elem_of_map_to_list.
Qed.

Lemma live_ids g m : NoDup (tr_ID <$> live g m).
Proof.
  unfold live. rewrite SortFunc_perm.
  assert (tr_ID <$> (snd <$> filter (proper_row g) (map_to_list m)) =
    fst <$> filter (proper_row g) (map_to_list m)) as ->.
  { rewrite <- list_fmap_compose. apply list_fmap_ext. intros i [k x] Hx.
    apply list_elem_of_lookup_2, list_elem_of_filter in Hx as [(Hk & _) _]. done. }
  eapply sublist_NoDup; [apply (NoDup_fst_map_to_list m)|]. apply fmap_sublist, sublist_filter.
Qed.

Lemma live_perm g m l : NoDup (tr_ID <$> l) ->
  (forall r, r ∈ l <-> m !! tr_ID r = Some r /\ tr_TaxRegionID r = g /\ tr_ID r <> EmptyString) ->
  live g m ≡ₚ l.
Proof.
  intros Hl Helem. apply NoDup_Permutation.
  - eapply NoDup_fmap_1, live_ids.
  - by eapply NoDup_fmap_1.
  - intros r. by rewrite live_elem, Helem.
Qed.

Lemma known_false id m : known id m = false ->
  m !! id = None /\ forall k r, m !! k = Some r -> tr_StacksOnID r <> Some id.
Proof.
  unfold known. intros [H1 H2]%orb_false_iff. apply bool_decide_eq_false, eq_None_not_Some in H1.
  split; [done|]. intros k r Hr Hs. assert (existsb (fun r => bool_decide (tr_StacksOnID r = Some id))
    (snd <$> map_to_list m) = true); [|congruence].
  apply existsb_exists. exists r. split; [|by apply bool_decide_eq_true].
  apply list_elem_of_In, list_elem_of_fmap. exists (k, r). split; [done|]. by apply elem_of_map_to_list.
Qed.

(** A row rewritten under its id. *)
Lemma live_rewritten g id patch now m r :
  m !! id = Some r -> tr_ID r = id ->
  live g (<[id := patched_row id patch now r]> m) ≡ₚ patched_row id patch now <$> live g m.
Proof.
  intros Hr Hid. pose proof (patched_in_place id patch now) as Hf.
  assert (Hg : forall x, tr_TaxRegionID (patched_row id patch now x) = tr_TaxRegionID x)
    by (intros x; unfold patched_row; by case_bool_decide).
  apply live_perm; [rewrite in_place_ids by done; apply live_ids|].
  intros x. rewrite list_elem_of_fmap. split.
  - intros (y & -> & (Hy & Hyg & Hne)%live_elem). rewrite (proj1 (Hf y)), Hg. split; [|done].
    destruct (decide (tr_ID y = id)) as [Heq|Hne'].
    + rewrite Heq in *. rewrite lookup_insert_eq. congruence.
    + rewrite lookup_insert_ne by done. rewrite Hy. unfold patched_row. by rewrite bool_decide_false.
  - intros (Hx & Hxg & Hne). destruct (decide (tr_ID x = id)) as [Heq|Hne'].
    + rewrite Heq, lookup_insert_eq in Hx. injection Hx as <-. exists r. split; [done|].
      apply live_elem. rewrite Hg in Hxg. rewrite (proj1 (Hf r)) in Hne. rewrite Hid. by rewrite <- Hid at 2.
    + rewrite lookup_insert_ne in Hx by done. exists x. split; [|by apply live_elem].
      unfold patched_row. by rewrite bool_decide_false.
Qed.

#[export] Instance memory_laws : RateLaws memory.
Proof.
  split; simpl.
  - intros g st l [= <-]. apply Forall_forall. intros r (_ & Hg & Hne)%live_elem. done.
  - intros st g1 g2 l1 l2 r1 r2 [= <-] [= <-] (H1 & G1 & _)%live_elem (H2 & G2 & _)%live_elem Heq.
    rewrite Heq in H1. congruence.
  - unfold get_rate. intros id st r H. destruct (tb_rates st !! id) as [x|] eqn:E; [|done].
    case_bool_decide as Hid; [|done]. injection H as <-. split; [done|].
    intros g l y [= <-] (Hy & _)%live_elem Hyid. rewrite Hyid in Hy. congruence.
  - intros ids st l [= <-] _. exists ((fun g => live g (tb_rates st)) <$> ids). split; [|done].
    clear. induction ids as [|g ids IH]; csimpl; [constructor|]. by constructor.
  - unfold insert_rate. intros rate now st st' r H. destruct (_ || _) eqn:E; [done|].
    apply orb_false_iff in E as [Hk Hne]. apply bool_decide_eq_false in Hne.
    apply known_false in Hk as [Hnone Hfree]. injection H as <- <-. simpl. split.
    + intros g l [= <-] x (Hx & _ & _)%live_elem. split; [congruence|by eapply Hfree].
    + intros g l' [= <-]. exists (live g (tb_rates st)). split; [done|]. apply live_perm.
      * case_bool_decide; [|apply live_ids]. csimpl. constructor; [|apply live_ids].
        intros (x & Hid & (Hx & _)%live_elem)%list_elem_of_fmap. congruence.
      * intros x. destruct (decide (tr_ID x = tr_ID rate)) as [Heq|Hdiff].
        -- rewrite Heq, lookup_insert_eq. case_bool_decide as Hg.
           ++ rewrite elem_of_cons, live_elem, Heq. subst g. split; [intros [->|[? _]]; [done|congruence]|].
              intros ([= <-] & _). by left.
           ++ rewrite live_elem, Heq. split; [intros [? _]; congruence|]. intros ([= <-] & Hg' & _).
              by destruct Hg.
        -- rewrite lookup_insert_ne by done. rewrite <- live_elem.
           case_bool_decide; [|done]. rewrite elem_of_cons. split; [|by right].
           intros [->|?]; [done|done].
  - unfold update_rate, get_rate. intros id patch now st st' o H.
    destruct (tb_rates st !! id) as [r|] eqn:Er; [|injection H as <- <-; by eexists].
    case_bool_decide as Hid; injection H as <- <-; intros g l' [= <-]; (eexists; split; [done|]); [|done].
    by apply live_rewritten.
  - unfold revise_rate, get_rate. intros id read next now st st' o H.
    destruct (tb_rates st !! id) as [r|] eqn:Er; [|injection H as <- <-; by eexists].
    case_bool_decide as Hid; [|injection H as <- <-; by eexists].
    destruct (_ && _); injection H as <- <-; intros g l' [= <-]; (eexists; split; [done|]); [|done].
    by apply live_rewritten.
  - unfold delete_rate, get_rate. intros id now st st' o H.
    destruct (tb_rates st !! id) as [r|] eqn:Er; [|injection H as <- <-; by eexists].
    case_bool_decide as Hid; injection H as <- <-; intros g l' [= <-]; (eexists; split; [done|]); [|done].
    apply live_perm.
    + eapply sublist_NoDup; [apply live_ids|]. apply fmap_sublist, sublist_filter.
    + intros x. unfold not_id. rewrite list_elem_of_filter, live_elem, lookup_delete_Some.
      split; [intros (Hne & Hx & Hg & He)|intros ((Hne & Hx) & Hg & He)]; by split_and!.
Qed.
