(* ===== verification/TaxProps.v ===== *)
(** * What makes taxes correct

    The properties of [internal/modules/tax/service] and what it is witnessed on. *)
From S2P Require Import Prelude GoText Errors TaxModels TaxRates TaxCalculate TaxStack TaxStackFacts TaxLines TaxLedger TaxSelect TaxMemory.

(** ** Arithmetic *)

(** The tax on a base and the tax inside a gross amount are exact. [TaxOf] answers precisely for
    a base within the bound and a rate of at most the whole, and then with base × rate / 10000 rounded
    down; [TaxIncludedIn] under the same conditions with gross × rate / (10000 + rate) rounded down.
    No intermediate product overflows. *)
Theorem tax_exact amount rate tax :
  (TaxOf amount rate = Ok tax <->
     0 <= amount <= MaxTaxableAmount /\ MinRateBps <= rate <= MaxRateBps /\
     tax = amount * rate / BpsScale) /\
  (TaxIncludedIn amount rate = Ok tax <->
     0 <= amount <= MaxTaxableAmount /\ MinRateBps <= rate <= MaxRateBps /\
     tax = amount * rate / (BpsScale + rate)).
Proof. split; [apply TaxOf_Ok|apply TaxIncludedIn_Ok]. Qed.

(** Exclusive and inclusive prices agree. A gross price made by adding the tax to a base contains
    exactly that tax, so the base is recovered to the minor unit. *)
Theorem tax_roundtrip base rate tax (Htax : TaxOf base rate = Ok tax)
    (Hgross : base + tax <= MaxTaxableAmount) :
  TaxIncludedIn (base + tax) rate = Ok tax.
Proof.
  apply TaxOf_Ok in Htax as (Hb & Hr & ->). pose proof (tax_floor_bounds base rate Hb Hr).
  apply TaxIncludedIn_Ok. split; [unfold amount_ok in *; lia|]. split; [done|].
  set (q := base * rate / BpsScale). tax_bounds.
  pose proof (Z.div_mod (base * rate) 10000 ltac:(lia)) as Hdm.
  pose proof (Z.mod_pos_bound (base * rate) 10000 ltac:(lia)). fold q in Hdm.
  apply Z.div_unique_pos with (base * rate mod 10000); nia.
Qed.

(** A stack the write check accepts never takes more than the line. Whatever the amount, the
    calculation over such a stack answers, its components add up to the line's tax, and the tax lies
    between nothing and the amount. *)
Theorem assertStackWithinBase_sound stack amount
    (Hbps : Forall (fun r => MinRateBps <= tr_RateBps r <= MaxRateBps) stack)
    (Hlen : (length stack <= 4)%nat) (Hguard : assertStackWithinBase stack = None)
    (Hamount : 0 <= amount) (Hsmall : 2 * amount <= MaxTaxableAmount) :
  exists tax components, apply_stack amount 0 [] stack = Ok (tax, components) /\ 0 <= tax <= amount /\
    length components = length stack /\ sumZ (tc_TaxAmount <$> components) = tax.
Proof.
  apply assertStackWithinBase_None in Hguard. rewrite taken_of_exact in Hguard by done.
  destruct (guard_bounds_tax amount stack Hamount Hbps) as [Hpos Hb].
  assert (Hle : stack_tax amount stack <= amount) by (unfold notionalBase in *; nia).
  destruct (apply_stack_Ok amount stack 0 [] Hamount Hsmall ltac:(lia) Hbps Hle) as (cs & Hcs & Hl & _ & Hsum).
  exists (stack_tax amount stack), cs. split; [exact Hcs|]. split; [done|]. split; [done|].
  rewrite Hsum. unfold stack_tax. lia.
Qed.

(** ** Selection *)

(** C37: the rate of a line is the one the rules describe: the first region of the chain that has a
    matching ruled rate or a default decides; there the most specific matching rate wins, the least id
    among equals, and only when none matches the region's default applies. *)
Theorem selectRate_chosen chain rates rules keys (Hids : NoDup (tr_ID <$> rates)) o :
  chosen rates rules keys chain o <-> selectRate (newRateTable chain rates rules) keys = o.
Proof.
  split; [intros Ho|intros <-; apply selectRate_meets].
  eapply chosen_unique; [done|apply selectRate_meets|done].
Qed.

(** The tax of a line does not depend on the order in which the database returned the rates and
    the rules. *)
Theorem applyTo_order chain rates rates' rules rules' keys id amount included (Hok : rates_ok rates)
    (Hrates : rates ≡ₚ rates') (Hrules : rules ≡ₚ rules') :
  applyTo (newRateTable chain rates rules) keys id amount included =
  applyTo (newRateTable chain rates' rules') keys id amount included.
Proof.
  assert (Hsel : selectRate (newRateTable chain rates rules) keys =
    selectRate (newRateTable chain rates' rules') keys).
  { eapply (chosen_unique rates'); [rewrite <- Hrates; apply Hok| |apply selectRate_meets].
    eapply chosen_perm; [done|done|apply selectRate_meets]. }
  assert (Hstands : stands rates = stands rates').
  { apply map_eq. intros b. destruct (stands rates !! b) as [x|] eqn:E.
    - apply stands_Some in E as [Hx Hb]. symmetry. apply stands_one; [|by rewrite <- Hrates|done].
      rewrite Hrates in Hok. apply Hok.
    - symmetry. apply stands_None. setoid_rewrite <- Hrates. by apply stands_None. }
  unfold applyTo, stackFrom. rewrite Hsel, !newRateTable_standing, Hstands. done.
Qed.

(** ** The calculation *)

Lemma normalize_items_same i seen items out :
  normalize_items i seen items = Ok out ->
  out = items /\ NoDup (ti_ID <$> items) /\ Forall (fun x => ti_ID x ∉ seen) items /\
  Forall (fun x => amount_ok (ti_Amount x)) items.
Proof.
  revert i seen out. induction items as [|item items IH]; intros i seen out; cbn [normalize_items].
  { intros [= <-]. repeat constructor. }
  case_bool_decide; [done|]. case_bool_decide; [done|]. case_bool_decide as Hseen; [done|]. intros Hok.
  destruct (checkTaxableAmount _ _) eqn:Ec; [done|]. apply checkTaxableAmount_None in Ec.
  cbn [guard_err] in Hok. destruct (normalize_items _ _ items) as [rest|] eqn:Er; [|done].
  injection Hok as <-. apply IH in Er as (-> & Hnd & Hnew & Ham).
  split; [done|]. split; [|split; [constructor; [done|]|by constructor]].
  - csimpl. constructor; [|done]. intros (x & Hx & Hin)%list_elem_of_fmap.
    apply (proj1 (Forall_forall _ _) Hnew) in Hin. apply Hin. rewrite <- Hx. by apply elem_of_union_l, elem_of_singleton.
  - eapply Forall_impl; [exact Hnew|]. intros x Hx Hin. apply Hx. by apply elem_of_union_r.
Qed.

Lemma normalizeCalculateInput_same in_ n :
  normalizeCalculateInput in_ = Ok n ->
  ct_Items n = ct_Items in_ /\ ct_Shipping n = ct_Shipping in_ /\ NoDup (ti_ID <$> ct_Items n) /\
  input_amounts_ok n.
Proof.
  unfold normalizeCalculateInput. intros H. result_inv. subst n. simpl.
  apply normalize_items_same in E2 as (-> & Hnd & _ & Ham).
  split; [done|]. split; [done|]. split; [done|]. split; [done|]. by apply checkTaxableAmount_None in E3.
Qed.

Lemma attachTaxClasses_same {St} (repo : Repository St) items st out :
  attachTaxClasses repo items st = Ok out ->
  ti_ID <$> out = ti_ID <$> items /\ ti_Amount <$> out = ti_Amount <$> items.
Proof.
  unfold attachTaxClasses. destruct (_ =? _); [by intros [= <-]|].
  destruct (ClassesOfProducts _ _ _); [|done]. intros [= <-].
  rewrite <- !list_fmap_compose. by split; apply list_fmap_ext.
Qed.

Lemma same_amounts (P : Z -> Prop) (a b : list TaxableItem) : ti_Amount <$> a = ti_Amount <$> b ->
  Forall (fun i => P (ti_Amount i)) a <-> Forall (fun i => P (ti_Amount i)) b.
Proof.
  intros Heq. change (Forall (P ∘ ti_Amount) a <-> Forall (P ∘ ti_Amount) b).
  by rewrite <- !Forall_fmap, Heq.
Qed.

Lemma same_amounts_lines (P : Z -> ItemTax -> Prop) (a b : list TaxableItem) out :
  ti_Amount <$> a = ti_Amount <$> b ->
  Forall2 (fun i => P (ti_Amount i)) a out -> Forall2 (fun i => P (ti_Amount i)) b out.
Proof.
  intros Heq Hall. apply (Forall2_fmap_l (B := Z)). rewrite <- Heq. by apply Forall2_fmap_l.
Qed.

(** What an accepted calculation is. *)
Record calculation_sound (in_ : CalculateTaxInput) (r : CalculateTaxResult) : Prop := {
  cs_ids : it_ID <$> cr_Items r = ti_ID <$> ct_Items in_;
  cs_lines : Forall2 (fun i => item_sound (ti_Amount i) (cr_PricesIncludeTax r)) (ct_Items in_) (cr_Items r);
  cs_shipping : item_sound (shipping_base (ct_Shipping in_)) (cr_PricesIncludeTax r) (cr_Shipping r);
  cs_total : cr_TaxTotal r = sumZ (it_TaxAmount <$> cr_Items r) + it_TaxAmount (cr_Shipping r);
  cs_bound : 0 <= cr_TaxTotal r <= MaxTaxableAmount;
  cs_unconfigured : cr_RegionFound r = false -> cr_TaxTotal r = 0
}.

Lemma CalculateTax_calculated {St} (s : Service St) in_ st r :
  (forall chain p i raw, providerFor s chain st = Ok p -> input_int64 i ->
     prov_Calculate p i = Ok raw -> answer_int64 raw) ->
  CalculateTax s in_ st = Ok r -> calculation_sound in_ r.
Proof.
  intros Hint Hr. unfold CalculateTax in Hr. result_inv.
  apply normalizeCalculateInput_same in E0 as (Hitems & Hship & _ & Ham & Hsham).
  assert (calculation_sound a0 r) as []; [|by split; rewrite <- ?Hitems, <- ?Hship]. clear Hitems Hship.
  destruct a1 as [|first chain].
  - injection Hr as <-.
    assert (Hzero : forall id amount, 0 <= amount ->
      item_sound amount false (mkItemTax id EmptyString 0 amount 0 [])).
    { intros id amount Hpos. split; simpl; [by unfold rate_ok, MinRateBps, MaxRateBps|lia|done|by left|done|constructor]. }
    split; cbn [zeroResult cr_Items cr_Shipping cr_TaxTotal cr_PricesIncludeTax].
    + by rewrite <- list_fmap_compose.
    + apply Forall2_fmap_r, Forall_Forall2_diag. eapply Forall_impl; [exact Ham|]. intros i Hi.
      apply Hzero, Hi.
    + apply Hzero, shipping_base_ok, Hsham.
    + rewrite <- list_fmap_compose. change (it_TaxAmount ∘ _) with (fun _ : TaxableItem => 0). by rewrite sumZ_const.
    + by unfold MaxTaxableAmount.
    + done.
  - result_inv. subst r. apply attachTaxClasses_same in E2 as [Hids Hamounts].
    apply assembleResult_sound in E4 as (H1 & _ & H2 & H3 & H4 & H5).
    + split; simpl in *; try done.
      * by rewrite H1, Hids.
      * by apply (same_amounts_lines (fun z => item_sound z (pricesIncludeTax (first :: chain))) a2).
    + split; [by apply (same_amounts amount_ok _ _ Hamounts)|done].
    + assert (Hint64 : forall z, amount_ok z -> in_int64 z) by (intros z Hz; tax_bounds; lia).
      eapply (Hint _ _ _ _ E0); [|exact E3]. split; simpl; [|by apply Hint64].
      apply (same_amounts in_int64 _ _ Hamounts). eapply Forall_impl; [exact Ham|]. intros i. apply Hint64.
Qed.

(** C11: whatever provider computed it, an accepted tax adds up. The lines are the caller's in the
    caller's order; each line's tax lies between nothing and its amount at a rate of at most the
    whole; on an inclusive price base and tax make the gross, otherwise the base is the amount; a
    breakdown has two to four components that make the line's tax; and the total is the sum of the
    lines and the shipping, within the bound. *)
Theorem CalculateTax_sound {St} (s : Service St) in_ st r
    (Hint : forall chain p i raw, providerFor s chain st = Ok p -> input_int64 i ->
       prov_Calculate p i = Ok raw -> answer_int64 raw)
    (Hr : CalculateTax s in_ st = Ok r) :
  it_ID <$> cr_Items r = ti_ID <$> ct_Items in_ /\
  Forall2 (fun i => item_sound (ti_Amount i) (cr_PricesIncludeTax r)) (ct_Items in_) (cr_Items r) /\
  item_sound (shipping_base (ct_Shipping in_)) (cr_PricesIncludeTax r) (cr_Shipping r) /\
  cr_TaxTotal r = sumZ (it_TaxAmount <$> cr_Items r) + it_TaxAmount (cr_Shipping r) /\
  0 <= cr_TaxTotal r <= MaxTaxableAmount /\ (cr_RegionFound r = false -> cr_TaxTotal r = 0).
Proof. by destruct (CalculateTax_calculated s in_ st r Hint Hr) as []. Qed.

(** C40: when the local provider can be relied on. A request that is well formed, over a sound ledger
    whose reads succeed, is answered and the service accepts the answer, with a tax of at most what is
    taxed, provided that no region of the chain names another provider, that the amounts taxed are each
    within half the bound and together within it, and that prices which include their tax meet no rate
    that stands on another. The last proviso is needed: the write checks do not exclude it (see
    [stack_over_inclusive_province] below). *)
Theorem CalculateTax_available {St} (repo : Repository St) `{!RateLaws repo} st in_ n chain rates
    (Hledger : ledger_ok repo st) (Hin : normalizeCalculateInput in_ = Ok n)
    (Hchain : ResolveTaxRegions repo (ct_CountryCode n) (ct_ProvinceCode n) st = Ok chain)
    (Hnd : NoDup (rg_ID <$> chain)) (Hlocal : provider_choice chain = None)
    (Hrates : ListTaxRatesByRegions repo (rg_ID <$> chain) st = Ok rates)
    (Hinc : pricesIncludeTax chain = true -> Forall (fun r => tr_StacksOnID r = None) rates)
    (Hrules : forall ids, exists rules, ListTaxRateRulesByRates repo ids st = Ok rules)
    (Hclasses : forall ids, exists classes, ClassesOfProducts repo ids st = Ok classes)
    (Hitems : Forall (fun i => small (ti_Amount i)) (ct_Items n)) (Hship : small (sh_Amount (ct_Shipping n)))
    (Hsum : sumZ (ti_Amount <$> ct_Items n) + shipping_base (ct_Shipping n) <= MaxTaxableAmount) :
  exists r, CalculateTax (New repo) in_ st = Ok r /\
    cr_TaxTotal r <= sumZ (ti_Amount <$> ct_Items n) + shipping_base (ct_Shipping n).
Proof.
  destruct (normalizeCalculateInput_same _ _ Hin) as (_ & _ & Hids & Ham & Hsham).
  pose proof (shipping_base_ok _ Hsham) as Hsb. unfold amount_ok in Hsb.
  assert (Hpos : 0 <= sumZ (ti_Amount <$> ct_Items n)).
  { apply sumZ_nonneg, Forall_fmap. eapply Forall_impl; [exact Ham|]. intros i Hi. apply Hi. }
  unfold CalculateTax. cbn [ready New s_repo mbind result_bind]. rewrite Hin. cbn [mbind result_bind].
  rewrite Hchain. cbn [mbind result_bind]. destruct chain as [|first chain]; [eexists; split; [done|simpl; lia]|].
  unfold providerFor. cbn [New s_providers]. rewrite Hlocal. cbn [default].
  change (registry_Get LocalProviderID _) with (Ok (NewLocalProvider (rate_source repo st))).
  cbn [mbind result_bind].
  assert (exists items, attachTaxClasses repo (ct_Items n) st = Ok items) as [items Hattach].
  { unfold attachTaxClasses. destruct (_ =? _); [by eexists|].
    destruct (Hclasses (product_ids ∅ (ct_Items n))) as [classes ->]. by eexists. }
  rewrite Hattach. cbn [mbind result_bind]. apply attachTaxClasses_same in Hattach as [Hsame Hamounts].
  destruct (local_Calculate_ok (rate_source repo st)
    (mkProviderInput (rg_ID <$> first :: chain) (ct_CountryCode n) (ct_ProvinceCode n) items (ct_Shipping n)
      (pricesIncludeTax (first :: chain))) rates) as (raw & Hraw & Hall & Hline); simpl;
    [done|done|exact (ledger_ok_regions repo st _ _ Hledger Hnd Hrates)|done|by apply (same_amounts small _ _ Hamounts)|done|done|].
  cbv zeta. cbn [prov_Calculate NewLocalProvider prov_ID ct_CountryCode ct_ProvinceCode ct_Items ct_Shipping].
  change (rg_ID first :: list_fmap TaxRegion string rg_ID chain) with (rg_ID <$> first :: chain).
  rewrite Hraw. cbn [mbind result_bind].
  destruct (assembleResult_Ok (mkCalculateTaxInput (ct_CountryCode n) (ct_ProvinceCode n) items (ct_Shipping n))
    raw LocalProviderID (pricesIncludeTax (first :: chain))) as (r & -> & Hle); simpl;
    [by rewrite Hsame|done|done|by rewrite Hamounts|].
  cbn [mbind result_bind]. eexists. split; [done|]. simpl in *. by rewrite <- Hamounts.
Qed.

(** ** The writes *)

(** C35: the service keeps its rates fit to calculate with. From a sound ledger, any sequence of
    creations, updates, revisions and deletions of rates, successful or not, leaves a sound ledger: in
    every region the ids are unique, the rates in range, the default stands on nothing, at most one
    rate stands on another, and what stands on a rate that can be chosen is a list of at most four
    that takes no more than the line; no rate stands on another region's. *)
Theorem rate_writes_keep_ledger {St} (repo : Repository St) `{!RateLaws repo} (s : Service St) st st'
    (Hs : s_repo s = Some repo) (Hok : ledger_ok repo st) (Hwrites : rtc (rate_write s) st st') :
  ledger_ok repo st'.
Proof. induction Hwrites as [|st1 st2 st3 Hw _ IH]; [done|]. by eapply IH, rate_write_ok. Qed.

(** ** A market the properties are tried on *)

Module Market.
Definition root : TaxRegion :=
  mkTaxRegion "taxreg_tr" "TR" None None EmptyString (Some false) None 0 0 None.
Definition st0 : tables := mkTables [root] ∅ [] ∅.
Definition service : Service tables := New memory.

Definition vat : CreateTaxRateInput :=
  mkCreateTaxRateInput "taxreg_tr" "VAT" EmptyString 2000 true EmptyString false None.
Definition levy : CreateTaxRateInput :=
  mkCreateTaxRateInput "taxreg_tr" "Levy" EmptyString 1000 false "taxrate_a" true None.
Definition st1 : tables := (CreateTaxRate service vat 10 "taxrate_a" st0).1.
Definition st2 : tables := (CreateTaxRate service levy 11 "taxrate_b" st1).1.

Definition cart (province : string) : CalculateTaxInput :=
  mkCalculateTaxInput "tr" province
    [mkTaxableItem "line_1" EmptyString EmptyString EmptyString 10000;
     mkTaxableItem "line_2" EmptyString EmptyString EmptyString 999]
    (mkShippingInput EmptyString 500 true).

Definition in_tr : CalculateTaxInput := mkCalculateTaxInput "TR" EmptyString (ct_Items (cart EmptyString))
  (ct_Shipping (cart EmptyString)).
Definition answer : CalculateTaxResult :=
  match CalculateTax service (cart EmptyString) st2 with Ok r => r | Fail _ => zeroResult in_tr end.

Definition rates : list TaxRate := live "taxreg_tr" (tb_rates st2).
End Market.

Lemma market_empty : ledger_ok memory Market.st0.
Proof.
  assert (Hnone : forall g l (x : TaxRate), rows memory g Market.st0 l -> x ∉ l).
  { intros g l x [= <-] (Hx & _)%live_elem. by rewrite lookup_empty in Hx. }
  split.
  - intros g l Hl. assert (l = []) as -> by (apply elem_of_nil_inv; intros x; by apply (Hnone g)).
    split; [constructor|constructor| | |]; intros ? *; by intros ?%not_elem_of_nil.
  - intros g1 g2 l1 l2 r x H1 _ Hr. by destruct (Hnone _ _ _ H1 Hr).
  - intros g1 g2 l1 l2 r x b H1 _ Hr. by destruct (Hnone _ _ _ H1 Hr).
Qed.

Lemma market_created st in_ now newID :
  ledger_ok memory st -> ledger_ok memory (CreateTaxRate Market.service in_ now newID st).1.
Proof.
  intros Hok. destruct (CreateTaxRate _ _ _ _ _) as [st' o] eqn:E.
  by eapply (created_ok memory Market.service).
Qed.

Lemma market_ok : ledger_ok memory Market.st2.
Proof. apply market_created, market_created, market_empty. Qed.

Lemma tax_roundtrip_witness : TaxOf 999 1825 = Ok 182 /\ TaxIncludedIn (999 + 182) 1825 = Ok 182.
Proof.
  split; [vm_compute; reflexivity|].
  apply (tax_roundtrip 999 1825 182); [vm_compute; reflexivity|unfold MaxTaxableAmount; lia].
Defined.

Lemma assertStackWithinBase_sound_witness :
  exists tax components, apply_stack 999 0 [] [bare_rate 6000 false; bare_rate 2500 true] = Ok (tax, components) /\
    0 <= tax <= 999 /\ length components = 2%nat /\ sumZ (tc_TaxAmount <$> components) = tax.
Proof.
  apply (assertStackWithinBase_sound [bare_rate 6000 false; bare_rate 2500 true] 999).
  - repeat constructor; simpl; unfold MinRateBps, MaxRateBps; lia.
  - simpl. lia.
  - vm_compute. reflexivity.
  - lia.
  - unfold MaxTaxableAmount. lia.
Defined.

(** Two rules match the line: the product's rule beats the product type's, though its id is greater. *)
Lemma selectRate_chosen_witness :
  let rate id := mkTaxRate id "taxreg_tr" "VAT" None 800 false None false None 0 0 None in
  let rule id ref ref_id := mkTaxRateRule "taxrule_1" id ref ref_id 0 0 None in
  let rates := [rate "taxrate_a"; rate "taxrate_b"]%string in
  let rules := [rule "taxrate_a" ReferenceProductType "type"; rule "taxrate_b" ReferenceProduct "prod"]%string in
  let keys := [(ReferenceProduct, "prod"); (ReferenceProductType, "type")]%string in
  chosen rates rules keys ["taxreg_tr"%string] (Some (rate "taxrate_b"%string)).
Proof.
  cbv zeta. apply (selectRate_chosen ["taxreg_tr"%string]).
  - apply (bool_decide_unpack _). vm_compute. exact I.
  - vm_compute. reflexivity.
Defined.

Lemma applyTo_order_witness :
  applyTo (newRateTable ["taxreg_tr"%string] Market.rates []) [] "line_1" 10000 false =
  applyTo (newRateTable ["taxreg_tr"%string] (reverse Market.rates) []) [] "line_1" 10000 false.
Proof.
  apply (applyTo_order ["taxreg_tr"%string] Market.rates (reverse Market.rates) [] []).
  - apply (le_rates memory Market.st2 market_ok "taxreg_tr" Market.rates). reflexivity.
  - symmetry. apply reverse_Permutation.
  - reflexivity.
Defined.

(** The service of the sample market answers values of their types. *)
Lemma market_typed st chain p i raw : providerFor Market.service chain st = Ok p -> input_int64 i ->
  prov_Calculate p i = Ok raw -> answer_int64 raw.
Proof.
  intros Hp Hi. unfold providerFor in Hp. cbn [s_providers Market.service New] in Hp.
  destruct (default _ (provider_choice chain)) as [regionID providerID].
  destruct (registry_Get providerID _) as [provider|] eqn:Eg; [|discriminate Hp]. injection Hp as <-.
  unfold registry_Get in Eg.
  destruct (_ !! _) as [q|] eqn:El in Eg; [|discriminate Eg]. injection Eg as <-.
  change (Register _ _).1 with
    (<[LocalProviderID := NewLocalProvider (rate_source memory st)]> NewProviderRegistry) in El.
  apply lookup_insert_Some in El as [[_ <-]|[_ El]]; [apply local_answer_int64; exact Hi|].
  change (None = Some q) in El. discriminate El.
Qed.

Lemma CalculateTax_sound_witness :
  CalculateTax Market.service (Market.cart EmptyString) Market.st2 = Ok Market.answer /\
  cr_TaxTotal Market.answer = 3678 /\
  cr_TaxTotal Market.answer =
    sumZ (it_TaxAmount <$> cr_Items Market.answer) + it_TaxAmount (cr_Shipping Market.answer).
Proof.
  split; [vm_compute; reflexivity|]. split; [vm_compute; reflexivity|].
  apply (CalculateTax_sound Market.service (Market.cart EmptyString) Market.st2 Market.answer);
    [apply market_typed|vm_compute; reflexivity].
Defined.

Lemma CalculateTax_available_witness :
  exists r, CalculateTax (New memory) (Market.cart EmptyString) Market.st2 = Ok r /\ cr_TaxTotal r <= 11499.
Proof.
  apply (CalculateTax_available memory Market.st2 (Market.cart EmptyString) Market.in_tr [Market.root]
    Market.rates market_ok).
  - vm_compute. reflexivity.
  - vm_compute. reflexivity.
  - apply (bool_decide_unpack _). vm_compute. exact I.
  - vm_compute. reflexivity.
  - vm_compute. reflexivity.
  - discriminate.
  - intros ids. eexists. reflexivity.
  - intros ids. eexists. reflexivity.
  - repeat constructor; unfold small, MaxTaxableAmount; simpl; lia.
  - unfold small, MaxTaxableAmount; simpl; lia.
  - vm_compute. discriminate.
Defined.

Lemma rate_writes_keep_ledger_witness : Market.st2 <> Market.st0 /\ ledger_ok memory Market.st2.
Proof.
  split.
  { intros H. apply (f_equal (fun st => size (tb_rates st))) in H. vm_compute in H. discriminate H. }
  apply (rate_writes_keep_ledger memory Market.service Market.st0 Market.st2 eq_refl market_empty).
  apply rtc_l with Market.st1.
  - apply (write_create _ Market.vat 10 "taxrate_a" _ _ (CreateTaxRate Market.service Market.vat 10 "taxrate_a" Market.st0).2).
    apply surjective_pairing.
  - apply rtc_once.
    apply (write_create _ Market.levy 11 "taxrate_b" _ _ (CreateTaxRate Market.service Market.levy 11 "taxrate_b" Market.st1).2).
    apply surjective_pairing.
Defined.

(** ** A gap in the write checks

    "Prices include their tax" is looked up along a region's chain, province before root. A stack
    written under an inclusive chain is refused, and so is an inclusive province opened over a stack;
    but a stack written on an exclusive root is accepted while an inclusive province of that root
    exists, and from then on a cart of the province that the root's rate decides cannot be taxed. *)
Module Gap.
Definition province : TaxRegion :=
  mkTaxRegion "taxreg_34" "TR" (Some "34"%string) (Some "taxreg_tr"%string) EmptyString (Some true) None 0 0 None.
Definition before : tables := mkTables (province :: tb_regions Market.st1) (tb_rates Market.st1) [] ∅.
Definition after : tables * result TaxRate := CreateTaxRate Market.service Market.levy 11 "taxrate_b" before.
End Gap.

(** In a market whose province says that prices include tax, under a
    root that does not, a cart of the province is taxed; writing a second rate that stands on the
    root's default is accepted; and after it the same cart fails with an internal error, because an
    inclusive price met a stack. A province whose own rate decides does not meet the root's stack and is
    taxed still. *)
Lemma stack_over_inclusive_province :
  is_ok (CalculateTax Market.service (Market.cart "34") Gap.before) = true /\
  is_ok Gap.after.2 = true /\
  exists e, CalculateTax Market.service (Market.cart "34") Gap.after.1 = Fail e /\
    KindOf e = KindInternal /\ CodeOf e = CodeInconsistentConfig.
Proof.
  split; [vm_compute; reflexivity|]. split; [vm_compute; reflexivity|].
  eexists. split; [vm_compute; reflexivity|]. split; reflexivity.
Qed.
