(* ===== verification/CartModels.v ===== *)
(** * Cart data: [internal/modules/cart/models/*.go]

    The rows of a cart and the normal form of what a shopper writes on a line. Amounts are minor
    units on [int64]. A nil map and an empty one are both the empty map here: the repository reads
    an empty document back as nil, and [NormalizeLineProperties] answers nil and never an empty
    map. *)
From S2P Require Import Prelude GoText Errors.
Set Warnings "-level-tolerance".

Definition MinAmount : Z := 0.
Definition MaxAmount : Z := 1000000000000.
Definition MinQuantity : Z := 1.
Definition MaxQuantity : Z := 1000000.
Definition MaxTotal : Z := MaxAmount *₆₄ MaxQuantity.

Abbreviation properties := (gmap string string).

Record Cart := mkCart {
  cart_ID : string;
  cart_RegionID : string;
  cart_CustomerID : string;
  cart_Email : string;
  cart_CurrencyCode : string;
  cart_AddsToOrderID : string;
  cart_OpenedBy : string;
  cart_SalesChannelID : string;
  cart_Subtotal : Z;
  cart_DiscountTotal : Z;
  cart_TaxTotal : Z;
  cart_ShippingTotal : Z;
  cart_Total : Z;
  cart_Revision : Z;
  cart_TotalsRevision : Z;
  cart_PricesIncludeTax : bool;
  cart_Metadata : properties;
  cart_CompletedAt : option moment;
  cart_CreatedAt : moment;
  cart_UpdatedAt : moment;
  cart_DeletedAt : option moment
}.

Definition Completed (c : Cart) : bool := bool_decide (is_Some (cart_CompletedAt c)).

Definition TotalsStale (c : Cart) : bool := negb (cart_TotalsRevision c =? cart_Revision c).

Definition Cart_TotalsConsistent (c : Cart) : bool :=
  cart_Total c =?
    cart_Subtotal c -₆₄ cart_DiscountTotal c +₆₄ cart_TaxTotal c +₆₄ cart_ShippingTotal c.

Record LineItem := mkLineItem {
  li_ID : string;
  li_CartID : string;
  li_VariantID : string;
  li_Title : string;
  li_Quantity : Z;
  li_UnitPrice : Z;
  li_Subtotal : Z;
  li_DiscountTotal : Z;
  li_TaxTotal : Z;
  li_Total : Z;
  li_Metadata : properties;
  li_Properties : properties;
  li_ParentLineID : option string;
  li_AddOnKey : string;
  li_CreatedAt : moment;
  li_UpdatedAt : moment
}.

Definition LineItem_TotalsConsistent (l : LineItem) : bool :=
  li_Total l =? li_Subtotal l -₆₄ li_DiscountTotal l +₆₄ li_TaxTotal l.

Record CartTotals := mkCartTotals {
  ctt_Subtotal : Z;
  ctt_DiscountTotal : Z;
  ctt_TaxTotal : Z;
  ctt_ShippingTotal : Z;
  ctt_Total : Z;
  ctt_Revision : Z;
  ctt_PricesIncludeTax : bool
}.

Record CartContact := mkCartContact { cc_Email : string; cc_CustomerID : string }.

(** [models.LineTotals]; the service's input of the same name is [LineTotals] of CartTotals. *)
Record StoredLineTotals := mkStoredLineTotals {
  slt_UnitPrice : Z;
  slt_Subtotal : Z;
  slt_DiscountTotal : Z;
  slt_TaxTotal : Z;
  slt_Total : Z
}.

Record LineItemTotals := mkLineItemTotals { lit_LineItemID : string; lit_Totals : StoredLineTotals }.

Inductive AddressType := AddressShipping | AddressBilling.

#[export] Instance AddressType_eq_dec : EqDecision AddressType.
Proof. solve_decision. Defined.

Record CartAddress := mkCartAddress {
  ad_ID : string;
  ad_CartID : string;
  ad_Type : AddressType;
  ad_SourceAddressID : string;
  ad_FirstName : string;
  ad_LastName : string;
  ad_Company : string;
  ad_Address1 : string;
  ad_Address2 : string;
  ad_City : string;
  ad_Province : string;
  ad_PostalCode : string;
  ad_CountryCode : string;
  ad_Phone : string;
  ad_Metadata : properties;
  ad_CreatedAt : moment;
  ad_UpdatedAt : moment
}.

Record ShippingMethod := mkShippingMethod {
  sm_ID : string;
  sm_CartID : string;
  sm_Name : string;
  sm_ShippingOptionID : string;
  sm_Amount : Z;
  sm_Data : properties;
  sm_CreatedAt : moment;
  sm_UpdatedAt : moment
}.

(** ** What a shopper writes on a line: [models/properties.go] *)

Definition MaxLineProperties : Z := 10.
Definition MaxPropertyNameLength : Z := 64.
Definition MaxPropertyValueLength : Z := 500.

Definition CodePropertiesInvalid : string := "cart_line_properties_invalid".

Definition checkProperty (what text : string) (limit : Z) : option err :=
  let length := Z.of_nat (length (runes text)) in
  if (length =? 0) || (limit <? length) then
    Some (Invalid CodePropertiesInvalid "a property's %s is 1 to %d characters, %d given"
      [AStr what; AInt limit; AInt length])
  else if existsb IsControl (runes text) then
    Some (Invalid CodePropertiesInvalid "a property's %s holds a control character" [AStr what])
  else None.

(** The loop over the map's entries, in the order the runtime yields them. *)
Fixpoint clean_properties (out : properties) (entries : list (string * string)) :
    result properties :=
  match entries with
  | [] => Ok out
  | (name, value) :: rest =>
      let cleanName := TrimSpace name in
      let cleanValue := TrimSpace value in
      check checkProperty "name" cleanName MaxPropertyNameLength ;;
      check checkProperty (String.append "value of " cleanName) cleanValue MaxPropertyValueLength ;;
      if bool_decide (is_Some (out !! cleanName)) then
        Fail (Invalid CodePropertiesInvalid "the property %q is named twice" [AStr cleanName])
      else clean_properties (<[cleanName := cleanValue]> out) rest
  end.

(** [entries] are the map's: Go leaves the order of a range over a map open. *)
Definition NormalizeLineProperties (entries : list (string * string)) : result properties :=
  if bool_decide (entries = []) then Ok ∅
  else if MaxLineProperties <? Z.of_nat (length entries) then
    Fail (Invalid CodePropertiesInvalid "a line carries at most %d properties, %d given"
      [AInt MaxLineProperties; AInt (Z.of_nat (length entries))])
  else clean_properties ∅ entries.

(** ** The identity of a line's add-ons: [models/add_on.go] *)

Record AddOn := mkAddOn { ao_VariantID : string; ao_Properties : properties }.

(** [json.Marshal] of a nil map is [null]. *)
Definition marshal_properties (m : properties) : list Z :=
  if bool_decide (m = ∅) then bytes "null" else json_object m.

Definition add_on_entry (a : AddOn) : string :=
  of_bytes (bytes (ao_VariantID a) ++ 0 :: marshal_properties (ao_Properties a)).

Definition AddOnKey (addOns : list AddOn) : string :=
  match addOns with
  | [] => EmptyString
  | _ =>
      let entries := SortFunc cmpS (add_on_entry <$> addOns) in
      hex (Sum256 (bytes (Join_with (of_bytes [1]) entries)))
  end.

(** ** Facts *)

Lemma MaxTotal_val : MaxTotal = 1000000000000000000.
Proof. vm_compute. reflexivity. Qed.

Lemma Completed_false c : Completed c = false <-> cart_CompletedAt c = None.
Proof. unfold Completed. rewrite bool_decide_eq_false, eq_None_not_Some. done. Qed.

Lemma TotalsStale_false c : TotalsStale c = false <-> cart_TotalsRevision c = cart_Revision c.
Proof. unfold TotalsStale. rewrite negb_false_iff, Z.eqb_eq. done. Qed.

(** The digest is a text of 64 characters: the key of a line with add-ons is not the empty one. *)
Lemma of_bytes_length l : String.length (of_bytes l) = length l.
Proof.
  unfold of_bytes. induction l as [|z l IH]; [done|]. csimpl. by rewrite IH.
Qed.

Lemma hex_length l : String.length (hex l) = (2 * length l)%nat.
Proof.
  unfold hex. rewrite of_bytes_length. induction l as [|z l IH]; [done|].
  csimpl. rewrite IH. lia.
Qed.

Lemma big_endian_length n z : length (big_endian n z) = n.
Proof. revert z. induction n as [|n IH]; intros z; [done|]. simpl. rewrite length_app, IH. simpl. lia. Qed.

Lemma sha_round_length h kw : length h = 8%nat -> length (sha_round h kw) = 8%nat.
Proof. intros H. by do 9 (destruct h as [|? h]; try done). Qed.

Lemma sha_rounds_length kws h : length h = 8%nat -> length (foldl sha_round h kws) = 8%nat.
Proof.
  revert h. induction kws as [|kw kws IH]; intros h H; [done|]. simpl. by apply IH, sha_round_length.
Qed.

Lemma sha_blocks_length rounds h l : length h = 8%nat -> length (sha_blocks rounds h l) = 8%nat.
Proof.
  revert h l. induction rounds as [|rounds IH]; intros h l H; [done|]. destruct l as [|z l]; [done|].
  cbn [sha_blocks]. apply IH. unfold sha_block.
  by rewrite length_zip_with, sha_rounds_length, H.
Qed.

Lemma Sum256_length l : length (Sum256 l) = 32%nat.
Proof.
  unfold Sum256. pose proof (sha_blocks_length (length (sha_pad l)) sha_init (sha_pad l) eq_refl) as H.
  revert H. generalize (sha_blocks (length (sha_pad l)) sha_init (sha_pad l)). intros k H.
  assert (length (concat (big_endian 4 <$> k)) = (4 * length k)%nat) as ->; [|lia].
  clear H. induction k as [|w k IH]; [done|]. rewrite fmap_cons. cbn [concat].
  rewrite length_app, big_endian_length, IH. simpl. lia.
Qed.

Lemma AddOnKey_empty addOns : AddOnKey addOns = EmptyString <-> addOns = [].
Proof.
  split; [|by intros ->]. destruct addOns as [|a addOns]; [done|]. unfold AddOnKey.
  intros H. apply (f_equal String.length) in H. by rewrite hex_length, Sum256_length in H.
Qed.

(** The key does not depend on the order the add-ons were named in. *)
Lemma AddOnKey_perm l k : l ≡ₚ k -> AddOnKey l = AddOnKey k.
Proof.
  intros Hp. destruct l as [|a l], k as [|b k]; try done.
  - by apply Permutation_nil_cons in Hp.
  - by apply Permutation_sym, Permutation_nil_cons in Hp.
  - unfold AddOnKey. f_equal. f_equal. f_equal. f_equal. apply SortFunc_perm_eq; [apply _| |].
    + intros x y _ _. apply cmpS_eq.
    + by rewrite Hp.
Qed.

(** *** The loop over the properties *)

Definition clean_entry (kv : string * string) : string * string := (TrimSpace kv.1, TrimSpace kv.2).

Record entry_ok (kv : string * string) : Prop := {
  en_name : checkProperty "name" kv.1 MaxPropertyNameLength = None;
  en_value : checkProperty (String.append "value of " kv.1) kv.2 MaxPropertyValueLength = None
}.

Lemma clean_properties_Ok out entries m :
  clean_properties out entries = Ok m <->
  Forall entry_ok (clean_entry <$> entries) /\ NoDup (clean_entry <$> entries).*1 /\
  (forall name, name ∈ (clean_entry <$> entries).*1 -> out !! name = None) /\
  m = list_to_map (clean_entry <$> entries) ∪ out.
Proof.
  revert out m. induction entries as [|[name value] rest IH]; intros out m.
  { cbn [clean_properties fmap list_fmap list_to_map foldr]. rewrite (left_id_L ∅ (∪)). split; [intros [= ->]|intros (_ & _ & _ & ->); done].
    split; [constructor|]. split; [constructor|]. split; [|done]. intros ? []%not_elem_of_nil. }
  cbn [clean_properties]. set (n := TrimSpace name). set (v := TrimSpace value).
  change (clean_entry <$> (name, value) :: rest) with ((n, v) :: (clean_entry <$> rest)).
  rewrite !fmap_cons, Forall_cons, NoDup_cons. cbn [fst].
  destruct (checkProperty "name" n _) as [e|] eqn:En; cbn [guard_err].
  { split; [done|]. intros ([[E _] _] & _). simpl in E. by rewrite En in E. }
  destruct (checkProperty (String.append _ n) v _) as [e|] eqn:Ev; cbn [guard_err].
  { split; [done|]. intros ([[_ E] _] & _). simpl in E. by rewrite Ev in E. }
  case_bool_decide as Ht.
  { split; [done|]. intros (_ & _ & H & _). rewrite (H n) in Ht by constructor. by destruct Ht. }
  apply eq_None_not_Some in Ht. rewrite IH. split.
  - intros (Hok & Hnd & Hout & ->). split; [done|]. split; [split; [|done]|].
    { intros Hin. specialize (Hout n Hin). by rewrite lookup_insert_eq in Hout. }
    split.
    + intros x [->|Hx]%elem_of_cons; [done|]. specialize (Hout x Hx).
      by apply lookup_insert_None in Hout as [? _].
    + rewrite list_to_map_cons, <- insert_union_l. rewrite insert_union_r; [done|].
      apply not_elem_of_list_to_map_1. intros Hin. specialize (Hout n Hin). by rewrite lookup_insert_eq in Hout.
  - intros ([_ Hok] & [Hn Hnd] & Hout & ->). split; [done|]. split; [done|]. split.
    + intros x Hx. apply lookup_insert_None. split; [apply Hout; by constructor|congruence].
    + rewrite list_to_map_cons, <- insert_union_l. rewrite insert_union_r; [done|].
      by apply not_elem_of_list_to_map_1.
Qed.

(** Whether the entries are accepted, and the map they make, does not depend on their order. *)
Lemma NormalizeLineProperties_perm entries entries' m :
  entries ≡ₚ entries' -> NormalizeLineProperties entries = Ok m -> NormalizeLineProperties entries' = Ok m.
Proof.
  intros Hp. unfold NormalizeLineProperties. rewrite <- (Permutation_length Hp).
  case_bool_decide as E; case_bool_decide as E'; subst.
  - done.
  - by apply Permutation_nil_l in Hp.
  - by apply Permutation_nil_r in Hp.
  - destruct (MaxLineProperties <? _); [done|].
    assert (clean_entry <$> entries ≡ₚ clean_entry <$> entries') as Hc by by apply fmap_Permutation.
    assert ((clean_entry <$> entries).*1 ≡ₚ (clean_entry <$> entries').*1) as Hk by by apply fmap_Permutation.
    intros (Hok & Hnd & Hout & ->)%clean_properties_Ok. apply clean_properties_Ok.
    split; [by rewrite <- Hc|]. split; [by rewrite <- Hk|]. split; [intros n; by rewrite <- Hk; apply Hout|].
    f_equal. by apply list_to_map_proper.
Qed.

(** * Cart input checks

    [internal/modules/cart/service/service.go], the checks of [lineitem.go] and
    [promotion_code.go], and the constants they share. *)

Definition CodeInvalidInput : string := "cart_invalid_input".
Definition CodeCompleted : string := "cart_completed".
Definition CodeTotalsInconsistent : string := "cart_totals_inconsistent".
Definition CodeTotalsStale : string := "cart_totals_stale".
Definition CodeCartEmpty : string := "cart_empty".
Definition CodeCustomerMismatch : string := "cart_customer_mismatch".
Definition CodeLineItemNotFound : string := "cart_line_item_not_found".

Definition maxTextLen : Z := 512.
Definition maxIDLen : Z := 255.

Definition completedError (cartID : string) : err :=
  Conflict CodeCompleted "the cart is completed and cannot be changed: %s" [AStr cartID].

Definition requireID (label value : string) : option err :=
  if bool_decide (value = EmptyString) then
    Some (Invalid CodeInvalidInput "%s cannot be empty" [AStr label])
  else if negb (bool_decide (TrimSpace value = value)) then
    Some (Invalid CodeInvalidInput "%s cannot contain leading/trailing whitespace: %q"
      [AStr label; AStr value])
  else if maxIDLen <? len value then
    Some (Invalid CodeInvalidInput "%s can be at most %d bytes: %d"
      [AStr label; AInt maxIDLen; AInt (len value)])
  else None.

Definition checkTextLen (label value : string) : option err :=
  if maxTextLen <? len value then
    Some (Invalid CodeInvalidInput "%s can be at most %d bytes: %d"
      [AStr label; AInt maxTextLen; AInt (len value)])
  else None.

Definition requireText (label value : string) : option err :=
  if bool_decide (value = EmptyString) then
    Some (Invalid CodeInvalidInput "%s cannot be empty" [AStr label])
  else checkTextLen label value.

Definition checkAmount (label : string) (value upper : Z) : option err :=
  if value <? MinAmount then
    Some (Invalid CodeInvalidInput "%s cannot be negative: %d" [AStr label; AInt value])
  else if upper <? value then
    Some (Invalid CodeInvalidInput "%s can be at most %d: %d" [AStr label; AInt upper; AInt value])
  else None.

Definition checkQuantity (quantity : Z) : option err :=
  if quantity <? MinQuantity then
    Some (Invalid CodeInvalidInput "the quantity must be at least %d: %d"
      [AInt MinQuantity; AInt quantity])
  else if MaxQuantity <? quantity then
    Some (Invalid CodeInvalidInput "the quantity can be at most %d: %d"
      [AInt MaxQuantity; AInt quantity])
  else None.

(** The first complaint of a list of checks. *)
Fixpoint first_error (checks : list (option err)) : option err :=
  match checks with
  | [] => None
  | Some e :: _ => Some e
  | None :: rest => first_error rest
  end.

Definition check_amounts (upper : Z) (fields : list (string * Z)) : option err :=
  first_error ((fun f => checkAmount f.1 f.2 upper) <$> fields).

Definition alphaCode (label standard code : string) (length : Z) : result string :=
  let normalized := ToUpper (TrimSpace code) in
  if negb (len normalized =? length) then
    Fail (Invalid CodeInvalidInput "%s must be a %d-letter %s code: %q"
      [AStr label; AInt length; AStr standard; AStr code])
  else if negb (forallb (ascii_rune is_upper) (runes normalized)) then
    Fail (Invalid CodeInvalidInput "%s can contain letters only: %q" [AStr label; AStr code])
  else Ok normalized.

Definition normalizeCurrency (code : string) : result string :=
  if bool_decide (TrimSpace code = EmptyString) then
    Fail (Invalid CodeInvalidInput "currency_code cannot be empty" [])
  else alphaCode "currency_code" "ISO 4217" code 3.

Definition normalizeCountry (code : string) : result string :=
  if bool_decide (TrimSpace code = EmptyString) then Ok EmptyString
  else alphaCode "country_code" "ISO 3166-1 alpha-2" code 2.

(** [strings.IndexByte]; -1 where the byte does not occur. *)
Fixpoint index_byte (i : Z) (l : list Z) (c : Z) : Z :=
  match l with
  | [] => -1
  | d :: l' => if d =? c then i else index_byte (i + 1) l' c
  end.

Definition count_byte (l : list Z) (c : Z) : Z := Z.of_nat (length (filter (fun d => d = c) l)).

Definition email_invalid (email : string) : err :=
  Invalid CodeInvalidInput "the email does not look valid: %q" [AStr email].

Section Email.
(** [strings.ToLower], whose Unicode tables are not part of the repository. *)
Context (ToLower : string -> string).

Definition NormalizeEmail (email : string) : string := ToLower (TrimSpace email).

Definition normalizeEmail (email : string) : result string :=
  let normalized := NormalizeEmail email in
  if bool_decide (normalized = EmptyString) then Ok EmptyString
  else
    check checkTextLen "email" normalized ;;
    let at_ := index_byte 0 (bytes normalized) 64 in
    if (at_ <=? 0) || (at_ =? len normalized - 1) ||
       existsb (fun c => (c =? 32) || (c =? 9) || (c =? 10)) (bytes normalized) then
      Fail (email_invalid email)
    else if negb (count_byte (bytes normalized) 64 =? 1) then Fail (email_invalid email)
    else Ok normalized.
End Email.

(** ** Coupon codes *)

Definition MaxPromotionCodes : Z := 20.
Definition maxPromotionCodeLen : Z := 64.
Definition CodeTooManyPromotionCodes : string := "cart_too_many_promotion_codes".

Definition normalizePromotionCode (code : string) : result string :=
  let normalized := ToUpper (TrimSpace code) in
  if bool_decide (normalized = EmptyString) then
    Fail (Invalid CodeInvalidInput "code cannot be empty" [])
  else if maxPromotionCodeLen <? len normalized then
    Fail (Invalid CodeInvalidInput "code can be at most %d characters (given: %d)"
      [AInt maxPromotionCodeLen; AInt (len normalized)])
  else if existsb (fun c => 0x80 <=? c) (bytes normalized) then
    Fail (Invalid CodeInvalidInput "code can only contain ASCII characters: %q" [AStr code])
  else Ok normalized.

(** ** Add-ons *)

Definition MaxLineItems : Z := 100.
Definition CodeLineLimit : string := "cart_workflow_line_limit_reached".
Definition MaxLineAddOns : Z := 10.
Definition CodeAddOnInvalid : string := "cart_line_add_on_invalid".
Definition CodeAddOnFollows : string := "cart_line_is_an_add_on".

(** The properties are the entries of the map the caller gives, in the order they are read. *)
Record AddOnInput := mkAddOnInput {
  ai_VariantID : string;
  ai_Title : string;
  ai_UnitPrice : Z;
  ai_Properties : list (string * string)
}.

(** An [AddOnInput] after its title was trimmed and its properties were normalized. *)
Record CleanAddOn := mkCleanAddOn {
  ca_VariantID : string;
  ca_Title : string;
  ca_UnitPrice : Z;
  ca_Properties : properties
}.

Fixpoint clean_add_ons (i : Z) (out : list CleanAddOn) (in_ : list AddOnInput) :
    result (list CleanAddOn) :=
  match in_ with
  | [] => Ok out
  | addOn :: rest =>
      if bool_decide (is_Some (requireID "add_on variant_id" (ai_VariantID addOn))) then
        Fail (Invalid CodeAddOnInvalid "add-on %d names no variant" [AInt i])
      else
        let title := TrimSpace (ai_Title addOn) in
        check requireText "add_on title" title ;;
        check checkAmount "add_on unit_price" (ai_UnitPrice addOn) MaxAmount ;;
        props ← NormalizeLineProperties (ai_Properties addOn);
        if bool_decide (ai_VariantID addOn ∈ ca_VariantID <$> out) then
          Fail (Invalid CodeAddOnInvalid "the add-on %s is named twice on one line"
            [AStr (ai_VariantID addOn)])
        else
          clean_add_ons (i + 1)
            (out ++ [mkCleanAddOn (ai_VariantID addOn) title (ai_UnitPrice addOn) props]) rest
  end.

Definition identity_of (a : CleanAddOn) : AddOn := mkAddOn (ca_VariantID a) (ca_Properties a).

Definition normalizeAddOns (in_ : list AddOnInput) : result (list CleanAddOn * string) :=
  if bool_decide (in_ = []) then Ok ([], EmptyString)
  else if MaxLineAddOns <? Z.of_nat (length in_) then
    Fail (Invalid CodeAddOnInvalid "a line carries at most %d add-ons, %d given"
      [AInt MaxLineAddOns; AInt (Z.of_nat (length in_))])
  else
    out ← clean_add_ons 0 [] in_;
    Ok (out, AddOnKey (identity_of <$> out)).

Definition addOnFollows (lineID : string) : err :=
  Invalid CodeAddOnFollows
    "line %s is an add-on: its quantity is its line's and it is removed with it" [AStr lineID].

(** ** Facts *)

Lemma first_error_None checks : first_error checks = None <-> Forall (fun c => c = None) checks.
Proof.
  induction checks as [|[e|] checks IH]; simpl; [done| |].
  - split; [done|]. by intros [? _]%Forall_cons.
  - rewrite IH, Forall_cons. by split; [|intros [_ ?]].
Qed.

Lemma checkAmount_None label value upper :
  checkAmount label value upper = None <-> 0 <= value <= upper.
Proof.
  unfold checkAmount, MinAmount. destruct (Z.ltb_spec value 0), (Z.ltb_spec upper value); split; try done; lia.
Qed.

Lemma check_amounts_None upper fields :
  check_amounts upper fields = None <-> Forall (fun f => 0 <= f.2 <= upper) fields.
Proof.
  unfold check_amounts. rewrite first_error_None, Forall_fmap.
  apply Forall_proper; [|done]. intros f. apply checkAmount_None.
Qed.

Lemma checkQuantity_None q : checkQuantity q = None <-> MinQuantity <= q <= MaxQuantity.
Proof.
  unfold checkQuantity. destruct (Z.ltb_spec q MinQuantity), (Z.ltb_spec MaxQuantity q); split; try done; lia.
Qed.

Lemma requireID_None label value : requireID label value = None ->
  value <> EmptyString /\ TrimSpace value = value /\ len value <= maxIDLen.
Proof.
  unfold requireID. case_bool_decide; [done|]. case_bool_decide; [|done]. simpl.
  destruct (Z.ltb_spec maxIDLen (len value)); [done|]. auto.
Qed.

Lemma normalizePromotionCode_Ok code c : normalizePromotionCode code = Ok c ->
  c <> EmptyString /\ len c <= maxPromotionCodeLen /\ Forall (fun b => b < 0x80 /\ is_lower b = false) (bytes c).
Proof.
  unfold normalizePromotionCode. case_bool_decide; [done|].
  destruct (Z.ltb_spec maxPromotionCodeLen (len (ToUpper (TrimSpace code)))); [done|].
  destruct (existsb _ _) eqn:E; [done|]. intros [= <-]. split; [done|]. split; [done|].
  apply Forall_forall. intros b Hb. split; [|by apply (proj1 (Forall_forall _ _) (ToUpper_no_lower (TrimSpace code)))].
  apply Z.nle_gt. intros H'.
  assert (existsb (fun c => 0x80 <=? c) (bytes (ToUpper (TrimSpace code))) = true); [|congruence].
  apply existsb_exists. exists b. split; [by apply list_elem_of_In|lia].
Qed.

Record clean_ok (a : CleanAddOn) : Prop := {
  cl_title : ca_Title a <> EmptyString;
  cl_price : 0 <= ca_UnitPrice a <= MaxAmount
}.

Lemma clean_add_ons_Ok i out in_ out' :
  clean_add_ons i out in_ = Ok out' -> NoDup (ca_VariantID <$> out) -> Forall clean_ok out ->
  NoDup (ca_VariantID <$> out') /\ Forall clean_ok out' /\
  length out' = (length out + length in_)%nat.
Proof.
  revert i out. induction in_ as [|a in_ IH]; intros i out; simpl.
  { intros [= <-] Hn Ho. split; [done|]. split; [done|lia]. }
  case_bool_decide; [done|]. intros Hr Hn Ho. result_inv.
  case_bool_decide as Hv; [done|].
  apply checkAmount_None in E0. unfold requireText in E. case_bool_decide as Ht; [done|].
  apply IH in Hr as (? & ? & Hl); [split; [done|split; [done|]]; rewrite Hl, length_app; simpl; lia| |].
  - rewrite fmap_app. apply NoDup_app. split; [done|]. split; [|apply NoDup_singleton].
    intros x Hx ->%list_elem_of_singleton. done.
  - apply Forall_app. split; [done|]. apply Forall_singleton. by split.
Qed.

Lemma normalizeAddOns_Ok in_ out key : normalizeAddOns in_ = Ok (out, key) ->
  Forall clean_ok out /\ (length out = length in_)%nat /\ Z.of_nat (length out) <= MaxLineAddOns /\
  NoDup (ca_VariantID <$> out) /\ (key = EmptyString <-> out = []).
Proof.
  unfold normalizeAddOns. case_bool_decide as E.
  { intros [= <- <-]. subst. split; [done|]. split; [done|]. split; [done|]. split; [constructor|done]. }
  destruct (Z.ltb_spec MaxLineAddOns (Z.of_nat (length in_))); [done|]. intros Hr. result_inv.
  subst.
  apply clean_add_ons_Ok in E0 as (? & ? & Hl); [|constructor|constructor]. simpl in Hl.
  split; [done|]. split; [done|]. split; [lia|]. split; [done|].
  rewrite AddOnKey_empty. split; [by intros ?%fmap_nil_inv|by intros ->].
Qed.

(** *** The order of the add-ons *)

Definition clean_one (a : AddOnInput) : option CleanAddOn :=
  match requireID "add_on variant_id" (ai_VariantID a),
        requireText "add_on title" (TrimSpace (ai_Title a)),
        checkAmount "add_on unit_price" (ai_UnitPrice a) MaxAmount,
        NormalizeLineProperties (ai_Properties a) with
  | None, None, None, Ok props =>
      Some (mkCleanAddOn (ai_VariantID a) (TrimSpace (ai_Title a)) (ai_UnitPrice a) props)
  | _, _, _, _ => None
  end.

Lemma clean_one_variant a c : clean_one a = Some c -> ca_VariantID c = ai_VariantID a.
Proof. unfold clean_one. repeat case_match; try done. by intros [= <-]. Qed.

Lemma clean_add_ons_spec i out in_ out' : NoDup (ca_VariantID <$> out) ->
  clean_add_ons i out in_ = Ok out' <->
  exists cs, Forall2 (fun a c => clean_one a = Some c) in_ cs /\
    NoDup (ca_VariantID <$> out ++ cs) /\ out' = out ++ cs.
Proof.
  revert i out. induction in_ as [|a in_ IH]; intros i out Hnd; cbn [clean_add_ons].
  { split.
    - intros [= <-]. exists []. rewrite app_nil_r. split; [constructor|done].
    - intros (cs & ->%Forall2_nil_inv_l & _ & ->). by rewrite app_nil_r. }
  assert (forall c cs, (ca_VariantID <$> out ++ c :: cs) = (ca_VariantID <$> (out ++ [c]) ++ cs)) as Happ.
  { intros c cs. by rewrite <- app_assoc. }
  transitivity (exists c, clean_one a = Some c /\ ca_VariantID c ∉ ca_VariantID <$> out /\
    clean_add_ons (i + 1) (out ++ [c]) in_ = Ok out').
  - unfold clean_one. destruct (requireID _ _) as [e|] eqn:E1.
    { rewrite bool_decide_eq_true_2 by done. split; [done|]. by intros (c & [=] & _). }
    rewrite bool_decide_eq_false_2 by (by intros [? [=]]).
    destruct (requireText _ _) as [e|] eqn:E2; cbn [guard_err]; [split; [done|by intros (c & [=] & _)]|].
    destruct (checkAmount _ _ _) as [e|] eqn:E3; cbn [guard_err]; [split; [done|by intros (c & [=] & _)]|].
    destruct (NormalizeLineProperties _) as [props|e] eqn:E4; cbn [mbind result_bind]; [|split; [done|by intros (c & [=] & _)]].
    case_bool_decide as Hin.
    + split; [done|]. by intros (c & [= <-] & Hv & _).
    + split; [by eauto|]. by intros (c & [= <-] & _ & ?).
  - split.
    + intros (c & Hc & Hv & Hr). apply IH in Hr as (cs & Hcs & Hn & ->).
      * exists (c :: cs). split; [by constructor|]. rewrite Happ. split; [done|]. by rewrite <- app_assoc.
      * rewrite fmap_app. apply NoDup_app. split; [done|]. split; [|apply NoDup_singleton].
        by intros x Hx ->%list_elem_of_singleton.
    + intros (cs & Hcs & Hn & ->). apply Forall2_cons_inv_l in Hcs as (c & cs' & Hc & Hcs & ->).
      exists c. split; [done|]. rewrite Happ in Hn.
      assert (NoDup (ca_VariantID <$> out ++ [c])) as Hn1.
      { rewrite fmap_app in Hn. by apply NoDup_app in Hn as [? _]. }
      split.
      * intros Hin. rewrite fmap_app in Hn1. apply NoDup_app in Hn1 as (_ & Hd & _). apply (Hd _ Hin). by left.
      * apply IH; [done|]. exists cs'. split; [done|]. split; [done|]. by rewrite <- app_assoc.
Qed.

(** A selection of add-ons named in another order is accepted alike and has the same key. *)
Lemma normalizeAddOns_perm in_ in_' out key : in_ ≡ₚ in_' -> normalizeAddOns in_ = Ok (out, key) ->
  exists out', normalizeAddOns in_' = Ok (out', key) /\ out' ≡ₚ out.
Proof.
  intros Hp. unfold normalizeAddOns. rewrite <- (Permutation_length Hp).
  case_bool_decide as E; case_bool_decide as E'; subst.
  - intros [= <- <-]. by exists [].
  - by apply Permutation_nil_l in Hp.
  - by apply Permutation_nil_r in Hp.
  - destruct (MaxLineAddOns <? _); [done|]. intros Hr. result_inv. subst.
    apply clean_add_ons_spec in E0 as (cs & Hcs & Hn & ->); [|constructor].
    destruct (Forall2_perm_l _ _ _ _ Hp Hcs) as (cs' & Hpc & Hcs').
    exists cs'. cbn [app] in *. split; [|by symmetry].
    rewrite (proj2 (clean_add_ons_spec 0 [] in_' cs' (NoDup_nil_2))).
    + cbn [mbind result_bind]. do 2 f_equal. apply AddOnKey_perm. by rewrite Hpc.
    + exists cs'. split; [done|]. split; [|done]. cbn [app]. by rewrite <- Hpc.
Qed.
