(* ===== verification/CartTotals.v ===== *)
(** * Cart totals: [internal/modules/cart/service/totals.go]

    The checks a calculation round has to pass before its amounts are written. [SetTotals] itself,
    which runs them under the cart's lock, is in CartService. The facts say that the checks accept
    exactly the rounds that add up ([totals_ok], [line_ok]), without overflow. *)
From S2P Require Import Prelude GoText Errors CartModels.
Set Warnings "-clear-no-such-hyp".
Set Warnings "-level-tolerance".

(** [service.LineTotals] *)
Record LineTotals := mkLineTotals {
  lt_LineItemID : string;
  lt_UnitPrice : Z;
  lt_Subtotal : Z;
  lt_DiscountTotal : Z;
  lt_TaxTotal : Z;
  lt_Total : Z
}.

Record Totals := mkTotals {
  to_Revision : Z;
  to_Subtotal : Z;
  to_DiscountTotal : Z;
  to_TaxTotal : Z;
  to_ShippingTotal : Z;
  to_Total : Z;
  to_PricesIncludeTax : bool;
  to_Lines : list LineTotals
}.

Definition storeLineTotals (lines : list LineTotals) : list LineItemTotals :=
  (fun line => mkLineItemTotals (lt_LineItemID line)
    (mkStoredLineTotals (lt_UnitPrice line) (lt_Subtotal line) (lt_DiscountTotal line)
      (lt_TaxTotal line) (lt_Total line))) <$> lines.

Definition validateCartTotals (in_ : Totals) : option err :=
  if to_Revision in_ <? 0 then
    Some (Invalid CodeInvalidInput "revision cannot be negative: %d" [AInt (to_Revision in_)])
  else match check_amounts MaxTotal
    [("subtotal", to_Subtotal in_); ("discount_total", to_DiscountTotal in_);
     ("tax_total", to_TaxTotal in_); ("shipping_total", to_ShippingTotal in_);
     ("total", to_Total in_)] with
  | Some e => Some e
  | None =>
      if to_Subtotal in_ <? to_DiscountTotal in_ then
        Some (Invalid CodeTotalsInconsistent
          "the discount cannot exceed the subtotal: discount_total=%d, subtotal=%d"
          [AInt (to_DiscountTotal in_); AInt (to_Subtotal in_)])
      else
        let expected :=
          to_Subtotal in_ -₆₄ to_DiscountTotal in_ +₆₄ to_TaxTotal in_ +₆₄ to_ShippingTotal in_ in
        if negb (to_Total in_ =? expected) then
          Some (Invalid CodeTotalsInconsistent
            "the cart total is inconsistent: total=%d given, subtotal(%d) - discount_total(%d) + tax_total(%d) + shipping_total(%d) = %d"
            [AInt (to_Total in_); AInt (to_Subtotal in_); AInt (to_DiscountTotal in_);
             AInt (to_TaxTotal in_); AInt (to_ShippingTotal in_); AInt expected])
        else None
  end.

Definition multiplyAmount (unitPrice quantity : Z) : result Z :=
  if (quantity <? 0) || (unitPrice <? 0) then
    Fail (Invalid CodeInvalidInput "the unit price and the quantity cannot be negative: %d x %d"
      [AInt unitPrice; AInt quantity])
  else if (unitPrice =? 0) || (quantity =? 0) then Ok 0
  else if div64 MaxTotal unitPrice <? quantity then
    Fail (Invalid CodeInvalidInput "the line subtotal exceeds the limit: %d x %d > %d"
      [AInt unitPrice; AInt quantity; AInt MaxTotal])
  else Ok (unitPrice *₆₄ quantity).

Definition validateLineTotals (line : LineTotals) (quantity : Z) (pricesIncludeTax : bool) :
    option err :=
  match checkAmount "unit_price" (lt_UnitPrice line) MaxAmount with
  | Some e => Some e
  | None =>
  match check_amounts MaxTotal
    [("subtotal", lt_Subtotal line); ("discount_total", lt_DiscountTotal line);
     ("tax_total", lt_TaxTotal line); ("total", lt_Total line)] with
  | Some e => Some e
  | None =>
  match multiplyAmount (lt_UnitPrice line) quantity with
  | Fail e => Some e
  | Ok quoted =>
      if pricesIncludeTax && negb (lt_Subtotal line +₆₄ lt_TaxTotal line =? quoted) then
        Some (Invalid CodeTotalsInconsistent
          "the line subtotal is inconsistent (%s): subtotal=%d + tax_total=%d given, the prices include their tax and unit_price(%d) x quantity(%d) = %d"
          [AStr (lt_LineItemID line); AInt (lt_Subtotal line); AInt (lt_TaxTotal line);
           AInt (lt_UnitPrice line); AInt quantity; AInt quoted])
      else if negb pricesIncludeTax && negb (lt_Subtotal line =? quoted) then
        Some (Invalid CodeTotalsInconsistent
          "the line subtotal is inconsistent (%s): subtotal=%d given, unit_price(%d) x quantity(%d) = %d"
          [AStr (lt_LineItemID line); AInt (lt_Subtotal line); AInt (lt_UnitPrice line);
           AInt quantity; AInt quoted])
      else if lt_Subtotal line <? lt_DiscountTotal line then
        Some (Invalid CodeTotalsInconsistent
          "the line discount cannot exceed the subtotal (%s): discount_total=%d, subtotal=%d"
          [AStr (lt_LineItemID line); AInt (lt_DiscountTotal line); AInt (lt_Subtotal line)])
      else
        let expectedTotal := lt_Subtotal line -₆₄ lt_DiscountTotal line +₆₄ lt_TaxTotal line in
        if negb (lt_Total line =? expectedTotal) then
          Some (Invalid CodeTotalsInconsistent
            "the line total is inconsistent (%s): total=%d given, subtotal(%d) - discount_total(%d) + tax_total(%d) = %d"
            [AStr (lt_LineItemID line); AInt (lt_Total line); AInt (lt_Subtotal line);
             AInt (lt_DiscountTotal line); AInt (lt_TaxTotal line); AInt expectedTotal])
        else None
  end end end.

(** The index of every stored line; of two lines under one id the later one's. *)
Fixpoint index_from (i : nat) (m : gmap string nat) (stored : list LineItem) : gmap string nat :=
  match stored with
  | [] => m
  | l :: rest => index_from (S i) (<[li_ID l := i]> m) rest
  end.

Definition index_lines (stored : list LineItem) : gmap string nat := index_from 0 ∅ stored.

(** Writing the amounts of [line] onto a line. *)
Definition with_amounts (line : LineTotals) (l : LineItem) : LineItem :=
  mkLineItem (li_ID l) (li_CartID l) (li_VariantID l) (li_Title l) (li_Quantity l)
    (lt_UnitPrice line) (lt_Subtotal line) (lt_DiscountTotal line) (lt_TaxTotal line)
    (lt_Total line) (li_Metadata l) (li_Properties l) (li_ParentLineID l) (li_AddOnKey l)
    (li_CreatedAt l) (li_UpdatedAt l).

Definition missingIDs (stored : list LineItem) (seen : gset string) : list string :=
  filter (fun id => id ∉ seen) (li_ID <$> stored).

Section Apply.
Context (byID : gmap string nat) (pricesIncludeTax : bool).

Fixpoint apply_loop (seen : gset string) (applied : list LineItem) (updates : list LineTotals) :
    result (gset string * list LineItem) :=
  match updates with
  | [] => Ok (seen, applied)
  | line :: rest =>
      check requireID "line_item_id" (lt_LineItemID line) ;;
      if bool_decide (lt_LineItemID line ∈ seen) then
        Fail (Invalid CodeTotalsInconsistent "more than one amount was given for the same line: %s"
          [AStr (lt_LineItemID line)])
      else
        match byID !! lt_LineItemID line with
        | None =>
            Fail (NotFound CodeLineItemNotFound
              "the line the amount is to be written to is not in the cart: %s"
              [AStr (lt_LineItemID line)])
        | Some idx =>
            check validateLineTotals line (from_option li_Quantity 0 (applied !! idx))
              pricesIncludeTax ;;
            apply_loop ({[lt_LineItemID line]} ∪ seen) (alter (with_amounts line) idx applied) rest
        end
  end.
End Apply.

Definition applyLineTotals (stored : list LineItem) (updates : list LineTotals)
    (pricesIncludeTax : bool) : result (list LineItem) :=
  '(seen, applied) ← apply_loop (index_lines stored) pricesIncludeTax ∅ stored updates;
  if negb (bool_decide (size seen = length stored)) then
    Fail (Invalid CodeTotalsInconsistent
      "the calculation must cover ALL of the cart's lines; the lines with no amount given: %s"
      [AStr (Join_with ", " (missingIDs stored seen))])
  else Ok applied.

Fixpoint sum_loop (sum : Z) (lines : list LineItem) : result Z :=
  match lines with
  | [] => Ok sum
  | l :: rest =>
      let subtotal := li_Subtotal l in
      if subtotal <? 0 then
        Fail (Invalid CodeTotalsInconsistent "the line subtotal is negative: %s (%d)"
          [AStr (li_ID l); AInt subtotal])
      else if MaxTotal -₆₄ subtotal <? sum then
        Fail (Invalid CodeTotalsInconsistent
          "the sum of the line subtotals exceeds the limit (%d)" [AInt MaxTotal])
      else sum_loop (sum +₆₄ subtotal) rest
  end.

Definition sumSubtotals (lines : list LineItem) : result Z := sum_loop 0 lines.

(** ** What the checks accept *)

Record totals_ok (t : Totals) : Prop := {
  tk_revision : 0 <= to_Revision t;
  tk_subtotal : 0 <= to_Subtotal t <= MaxTotal;
  tk_discount : 0 <= to_DiscountTotal t <= to_Subtotal t;
  tk_tax : 0 <= to_TaxTotal t <= MaxTotal;
  tk_shipping : 0 <= to_ShippingTotal t <= MaxTotal;
  tk_bound : 0 <= to_Total t <= MaxTotal;
  tk_total : to_Total t =
    to_Subtotal t - to_DiscountTotal t + to_TaxTotal t + to_ShippingTotal t
}.

(** A line whose amounts follow from its price and quantity. *)
Record line_ok (inclusive : bool) (quantity : Z) (l : LineTotals) : Prop := {
  lk_quantity : 0 <= quantity;
  lk_price : 0 <= lt_UnitPrice l <= MaxAmount;
  lk_subtotal : 0 <= lt_Subtotal l <= MaxTotal;
  lk_discount : 0 <= lt_DiscountTotal l <= lt_Subtotal l;
  lk_tax : 0 <= lt_TaxTotal l <= MaxTotal;
  lk_bound : 0 <= lt_Total l <= MaxTotal;
  lk_total : lt_Total l = lt_Subtotal l - lt_DiscountTotal l + lt_TaxTotal l;
  lk_limit : lt_UnitPrice l * quantity <= MaxTotal;
  lk_quoted : lt_UnitPrice l * quantity =
    lt_Subtotal l + (if inclusive then lt_TaxTotal l else 0)
}.

Lemma validateCartTotals_None t : validateCartTotals t = None <-> totals_ok t.
Proof.
  unfold validateCartTotals. destruct (Z.ltb_spec (to_Revision t) 0).
  { split; [done|]. intros []. lia. }
  destruct (check_amounts _ _) as [e|] eqn:E.
  { split; [done|]. intros []. assert (Some e = None :> option err) as [=].
    rewrite <- E. apply check_amounts_None. repeat constructor; simpl; lia. }
  apply check_amounts_None in E. rewrite !Forall_cons in E. cbn [fst snd] in E.
  pose proof MaxTotal_val as HM. destruct E as (E1 & E2 & E3 & E4 & E5 & _).
  destruct (Z.ltb_spec (to_Subtotal t) (to_DiscountTotal t)).
  { split; [done|]. intros []. lia. }
  rewrite (sub64_exact (to_Subtotal t)), !add64_exact by (rewrite ?sub64_exact, ?add64_exact; in64).
  case_match eqn:Et.
  - apply negb_true_iff, Z.eqb_neq in Et. split; [done|]. intros []. lia.
  - apply negb_false_iff, Z.eqb_eq in Et. split; [|done]. intros _. split; lia.
Qed.

(** For factors in range the product is exact, and refused exactly when it is out of bounds. *)
Lemma multiplyAmount_Ok p q v : in_int64 p -> in_int64 q ->
  multiplyAmount p q = Ok v <-> 0 <= p /\ 0 <= q /\ p * q <= MaxTotal /\ v = p * q.
Proof.
  pose proof MaxTotal_val as HM. intros Hp Hq. unfold multiplyAmount.
  destruct (Z.ltb_spec p 0) as [Hp0|Hp0].
  { rewrite orb_true_r. split; [discriminate|lia]. }
  destruct (Z.ltb_spec q 0) as [Hq0|Hq0]; cbn [orb]; [split; [discriminate|lia]|].
  destruct (Z.eqb_spec p 0) as [->|Hpz]; cbn [orb].
  { rewrite Z.mul_0_l. split; [intros [= <-]; lia|by intros (_ & _ & _ & ->)]. }
  destruct (Z.eqb_spec q 0) as [->|Hqz].
  { rewrite Z.mul_0_r. split; [intros [= <-]; lia|by intros (_ & _ & _ & ->)]. }
  rewrite div64_exact by in64. destruct (Z.ltb_spec (MaxTotal / p) q) as [Hlt|Hle].
  - split; [done|]. intros (_ & _ & Hb & _).
    assert (q <= MaxTotal / p); [|lia]. apply Z.div_le_lower_bound; lia.
  - assert (p * q <= MaxTotal) as Hb.
    { pose proof (Z.mul_div_le MaxTotal p). nia. }
    rewrite mul64_exact by in64. split; [intros [= <-]; lia|by intros (_ & _ & _ & ->)].
Qed.

Lemma multiplyAmount_bounded p q : 0 <= p <= MaxAmount -> 0 <= q <= MaxQuantity ->
  multiplyAmount p q = Ok (p * q).
Proof.
  pose proof MaxTotal_val. unfold MaxAmount, MaxQuantity. intros. apply multiplyAmount_Ok; [in64..|].
  repeat split; lia || nia.
Qed.

Lemma validateLineTotals_None inclusive q l : in_int64 q ->
  validateLineTotals l q inclusive = None <-> line_ok inclusive q l.
Proof.
  intros Hq. pose proof MaxTotal_val as HM. unfold validateLineTotals.
  destruct (checkAmount _ _ MaxAmount) as [e|] eqn:Ep.
  { split; [done|]. intros []. assert (Some e = None :> option err) as [=].
    rewrite <- Ep. by apply checkAmount_None. }
  apply checkAmount_None in Ep. destruct (check_amounts _ _) as [e|] eqn:E.
  { split; [done|]. intros []. assert (Some e = None :> option err) as [=].
    rewrite <- E. apply check_amounts_None. repeat constructor; simpl; lia. }
  apply check_amounts_None in E. rewrite !Forall_cons in E. cbn [fst snd] in E.
  destruct E as (E1 & E2 & E3 & E4 & _).
  assert (in_int64 (lt_UnitPrice l)) as Hp64 by (unfold MaxAmount in *; in64).
  destruct (multiplyAmount (lt_UnitPrice l) q) as [v|e] eqn:Ev.
  2:{ split; [done|]. intros []. assert (multiplyAmount (lt_UnitPrice l) q = Ok (lt_UnitPrice l * q));
        [|congruence]. apply multiplyAmount_Ok; [done..|]. repeat split; lia. }
  apply multiplyAmount_Ok in Ev as (Hp0 & Hq0 & Hb & ->); [|done..].
  rewrite (add64_exact (lt_Subtotal l)) by in64.
  rewrite (sub64_exact (lt_Subtotal l)), add64_exact by (rewrite ?sub64_exact; in64).
  destruct inclusive; simpl.
  - destruct (Z.eqb_spec (lt_Subtotal l + lt_TaxTotal l) (lt_UnitPrice l * q)); simpl.
    2:{ split; [done|]. intros []. lia. }
    destruct (Z.ltb_spec (lt_Subtotal l) (lt_DiscountTotal l)).
    { split; [done|]. intros []. lia. }
    destruct (Z.eqb_spec (lt_Total l) (lt_Subtotal l - lt_DiscountTotal l + lt_TaxTotal l)); simpl.
    + split; [|done]. intros _. split; lia.
    + split; [done|]. intros []. lia.
  - destruct (Z.eqb_spec (lt_Subtotal l) (lt_UnitPrice l * q)); simpl.
    2:{ split; [done|]. intros []. lia. }
    destruct (Z.ltb_spec (lt_Subtotal l) (lt_DiscountTotal l)).
    { split; [done|]. intros []. lia. }
    destruct (Z.eqb_spec (lt_Total l) (lt_Subtotal l - lt_DiscountTotal l + lt_TaxTotal l)); simpl.
    + split; [|done]. intros _. split; lia.
    + split; [done|]. intros []. lia.
Qed.

Lemma sum_loop_Ok sum ls s : 0 <= sum <= MaxTotal -> Forall (fun l => in_int64 (li_Subtotal l)) ls ->
  sum_loop sum ls = Ok s <->
  Forall (fun l => 0 <= li_Subtotal l) ls /\ s = sum + sumZ (li_Subtotal <$> ls) /\ s <= MaxTotal.
Proof.
  pose proof MaxTotal_val as HM. intros Hs Hls. revert sum Hs.
  induction Hls as [|l ls Hl Hls IH]; intros sum Hs; cbn [sum_loop].
  { rewrite fmap_nil, sumZ_nil. split; [intros [= <-]; split; [done|lia]|]. intros (_ & -> & _). f_equal. lia. }
  rewrite Forall_cons, fmap_cons, sumZ_cons. destruct (Z.ltb_spec (li_Subtotal l) 0).
  { split; [done|]. intros ([? _] & _). lia. }
  rewrite sub64_exact by in64. destruct (Z.ltb_spec (MaxTotal - li_Subtotal l) sum) as [Hlt|Hle].
  { split; [done|]. intros ([_ Hf] & -> & Hb). assert (0 <= sumZ (li_Subtotal <$> ls)); [|lia].
    apply sumZ_nonneg. by apply Forall_fmap. }
  rewrite add64_exact by in64. rewrite IH by lia. rewrite Z.add_assoc. intuition lia.
Qed.

Lemma sumSubtotals_Ok ls s : Forall (fun l => in_int64 (li_Subtotal l)) ls ->
  sumSubtotals ls = Ok s <->
  Forall (fun l => 0 <= li_Subtotal l) ls /\ s = sumZ (li_Subtotal <$> ls) /\ s <= MaxTotal.
Proof.
  pose proof MaxTotal_val as HM. intros H. unfold sumSubtotals. rewrite sum_loop_Ok by (done || lia). intuition lia.
Qed.

(** ** What applying a round makes of the lines *)

Definition amounts_of (updates : list LineTotals) (id : string) : option LineTotals :=
  head (filter (fun u => lt_LineItemID u = id) updates).

Definition priced (updates : list LineTotals) (l : LineItem) : LineItem :=
  match amounts_of updates (li_ID l) with Some u => with_amounts u l | None => l end.

(** The round covers the stored lines: one valid amount for each and nothing else. *)
Record covers (inclusive : bool) (stored : list LineItem) (updates : list LineTotals) : Prop := {
  co_ids : Forall (fun u => requireID "line_item_id" (lt_LineItemID u) = None) updates;
  co_same : lt_LineItemID <$> updates ≡ₚ li_ID <$> stored;
  co_ok : forall u l, u ∈ updates -> l ∈ stored -> lt_LineItemID u = li_ID l ->
    line_ok inclusive (li_Quantity l) u
}.

Lemma index_from_lookup i m ls id j : NoDup (li_ID <$> ls) ->
  index_from i m ls !! id = Some j <->
  (exists k l, j = (i + k)%nat /\ ls !! k = Some l /\ li_ID l = id) \/
  (id ∉ li_ID <$> ls /\ m !! id = Some j).
Proof.
  revert i m. induction ls as [|l ls IH]; intros i m Hnd; cbn [index_from].
  { split; [right; split; [apply not_elem_of_nil|done]|]. intros [(k & x & _ & [=] & _)|[_ ?]]. done. }
  rewrite fmap_cons in *. apply NoDup_cons in Hnd as [Hl Hnd]. rewrite IH by done.
  rewrite not_elem_of_cons. split.
  - intros [(k & x & -> & Hx & <-)|[Hid Hm]].
    + left. exists (S k), x. split; [lia|done].
    + destruct (decide (id = li_ID l)) as [->|].
      * rewrite lookup_insert_eq in Hm. injection Hm as <-. left. exists 0%nat, l. split; [lia|done].
      * rewrite lookup_insert_ne in Hm by done. right. done.
  - intros [(k & x & -> & Hx & <-)|[[Hne Hid] Hm]].
    + destruct k as [|k]; simpl in Hx.
      * injection Hx as <-. right. rewrite lookup_insert_eq. split; [done|]. f_equal. lia.
      * left. exists k, x. split; [lia|done].
    + right. rewrite lookup_insert_ne by done. done.
Qed.

Lemma index_lines_lookup ls id j : NoDup (li_ID <$> ls) ->
  index_lines ls !! id = Some j <-> exists l, ls !! j = Some l /\ li_ID l = id.
Proof.
  intros H. unfold index_lines. rewrite index_from_lookup by done. split.
  - intros [(k & l & -> & Hl & Hid)|[_ [=]]]. by exists l.
  - intros (l & Hl & Hid). left. by exists j, l.
Qed.

Lemma alter_by_id (f : LineItem -> LineItem) ls j l : NoDup (li_ID <$> ls) -> ls !! j = Some l ->
  alter f j ls = (fun x => if decide (li_ID x = li_ID l) then f x else x) <$> ls.
Proof.
  revert j. induction ls as [|x ls IH]; intros j Hnd Hj; [done|]. rewrite fmap_cons in *.
  apply NoDup_cons in Hnd as [Hx Hnd]. destruct j as [|j]; simpl in Hj.
  - injection Hj as ->. rewrite decide_True by done. change (alter f 0%nat (l :: ls)) with (f l :: ls). f_equal.
    rewrite <- (list_fmap_id ls) at 1. apply list_fmap_ext. intros i y Hy. rewrite decide_False; [done|].
    intros E. apply Hx. rewrite <- E. apply list_elem_of_fmap. exists y. split; [done|]. by eapply list_elem_of_lookup_2.
  - rewrite decide_False.
    + change (alter f (S j) (x :: ls)) with (x :: alter f j ls). f_equal. by apply IH.
    + intros E. apply Hx. rewrite E. apply list_elem_of_fmap. exists l. split; [done|]. by eapply list_elem_of_lookup_2.
Qed.

Lemma amounts_of_Some updates id u : amounts_of updates id = Some u -> u ∈ updates /\ lt_LineItemID u = id.
Proof. unfold amounts_of. intros H%head_Some_elem_of. apply list_elem_of_filter in H as [? ?]. done. Qed.

Lemma amounts_of_None updates id : amounts_of updates id = None <-> id ∉ lt_LineItemID <$> updates.
Proof.
  unfold amounts_of. split.
  - intros H%head_None Hin. apply list_elem_of_fmap in Hin as (u & -> & Hu).
    assert (u ∈ filter (fun u' => lt_LineItemID u' = lt_LineItemID u) updates) as Hf.
    { by apply list_elem_of_filter. }
    rewrite H in Hf. by apply not_elem_of_nil in Hf.
  - intros H. destruct (head _) as [u|] eqn:E; [|done]. exfalso. apply H.
    apply head_Some_elem_of, list_elem_of_filter in E as [<- Hu]. by apply list_elem_of_fmap_2.
Qed.

Lemma amounts_of_cons u updates id : amounts_of (u :: updates) id =
  if decide (lt_LineItemID u = id) then Some u else amounts_of updates id.
Proof.
  unfold amounts_of. case_decide as H.
  - by rewrite filter_cons_True.
  - by rewrite filter_cons_False.
Qed.

Lemma amounts_of_elem updates u : NoDup (lt_LineItemID <$> updates) -> u ∈ updates ->
  amounts_of updates (lt_LineItemID u) = Some u.
Proof.
  induction updates as [|x updates IH]; [by intros _ ?%not_elem_of_nil|].
  rewrite fmap_cons. intros [Hx Hnd]%NoDup_cons [->|Hu]%elem_of_cons; rewrite amounts_of_cons.
  - by rewrite decide_True.
  - rewrite decide_False; [by apply IH|]. intros E. apply Hx. rewrite E. by apply list_elem_of_fmap_2.
Qed.

Lemma priced_ID updates l : li_ID (priced updates l) = li_ID l.
Proof. unfold priced. by destruct (amounts_of _ _). Qed.

Lemma priced_Quantity updates l : li_Quantity (priced updates l) = li_Quantity l.
Proof. unfold priced. by destruct (amounts_of _ _). Qed.

Section ApplyFacts.
Context (byID : gmap string nat) (inclusive : bool).

Definition indexes (ls : list LineItem) : Prop :=
  forall id j, byID !! id = Some j <-> exists l, ls !! j = Some l /\ li_ID l = id.

Definition one_amount (u : LineTotals) (x : LineItem) : LineItem :=
  if decide (li_ID x = lt_LineItemID u) then with_amounts u x else x.

Lemma one_amount_ID u x : li_ID (one_amount u x) = li_ID x.
Proof. unfold one_amount. by case_decide. Qed.

Lemma one_amount_Quantity u x : li_Quantity (one_amount u x) = li_Quantity x.
Proof. unfold one_amount. by case_decide. Qed.

Lemma one_amount_IDs u (ls : list LineItem) : li_ID <$> (one_amount u <$> ls) = li_ID <$> ls.
Proof. rewrite <- list_fmap_compose. apply list_fmap_ext. intros i x _. apply one_amount_ID. Qed.

Lemma indexes_one u (ls : list LineItem) : indexes ls -> indexes (one_amount u <$> ls).
Proof.
  intros H id j. rewrite (H id j). split.
  - intros (l & Hl & Hid). exists (one_amount u l). rewrite list_lookup_fmap, Hl, one_amount_ID. done.
  - intros (l & Hl & Hid). rewrite list_lookup_fmap in Hl. apply fmap_Some in Hl as (x & Hx & ->).
    rewrite one_amount_ID in Hid. by exists x.
Qed.

Lemma priced_cons u rest x : lt_LineItemID u ∉ lt_LineItemID <$> rest ->
  priced rest (one_amount u x) = priced (u :: rest) x.
Proof.
  intros H. unfold priced. rewrite one_amount_ID, amounts_of_cons. unfold one_amount.
  repeat case_decide; try congruence. rewrite (proj2 (amounts_of_None _ _)); [done|congruence].
Qed.

Lemma apply_loop_Ok seen ls updates seen' ls' :
  NoDup (li_ID <$> ls) -> indexes ls -> Forall (fun l => in_int64 (li_Quantity l)) ls ->
  apply_loop byID inclusive seen ls updates = Ok (seen', ls') <->
  Forall (fun u => requireID "line_item_id" (lt_LineItemID u) = None) updates /\
  NoDup (lt_LineItemID <$> updates) /\ Forall (fun u => lt_LineItemID u ∉ seen) updates /\
  Forall (fun u => lt_LineItemID u ∈ li_ID <$> ls) updates /\
  (forall u l, u ∈ updates -> l ∈ ls -> lt_LineItemID u = li_ID l -> line_ok inclusive (li_Quantity l) u) /\
  seen' = list_to_set (lt_LineItemID <$> updates) ∪ seen /\ ls' = priced updates <$> ls.
Proof.
  revert seen ls. induction updates as [|u rest IH]; intros seen ls Hnd Hix Hq; cbn [apply_loop].
  { rewrite fmap_nil. cbn [list_to_set]. rewrite (left_id_L ∅ (∪)).
    assert (priced [] <$> ls = ls) as -> by apply list_fmap_id.
    split; [intros [= <- <-]|by intros (_ & _ & _ & _ & _ & -> & ->)].
    repeat (split; [by constructor|]). split; [|done]. by intros ? ? ?%not_elem_of_nil. }
  rewrite !Forall_cons, fmap_cons, NoDup_cons. cbn [list_to_set].
  destruct (requireID _ _) as [e|] eqn:Er; cbn [guard_err]; [split; [done|by intros ([? _] & _)]|].
  case_bool_decide as Hs; [split; [done|by intros (_ & _ & [? _] & _)]|].
  destruct (byID !! lt_LineItemID u) as [j|] eqn:Ej.
  2:{ split; [done|]. intros (_ & _ & _ & [(l & Hid & Hl)%list_elem_of_fmap _] & _).
      apply list_elem_of_lookup in Hl as [j Hl]. rewrite (proj2 (Hix _ j)) in Ej; [done|]. by exists l. }
  apply Hix in Ej as (l & Hl & Hid). rewrite Hl. cbn [from_option].
  pose proof (list_elem_of_lookup_2 _ _ _ Hl) as Hin.
  pose proof (proj1 (Forall_forall _ _) Hq l Hin) as Hql.
  destruct (validateLineTotals _ _ _) as [e|] eqn:Ev; cbn [guard_err].
  { split; [done|]. intros (_ & _ & _ & _ & Hok & _). exfalso.
    assert (Some e = None :> option err) as [=]. rewrite <- Ev. apply validateLineTotals_None; [done|].
    apply Hok; [constructor|done|done]. }
  apply validateLineTotals_None in Ev; [|done].
  rewrite (alter_by_id _ _ _ l) by done. rewrite Hid. change (fun x => if decide _ then _ else _) with (one_amount u).
  rewrite IH; [|by rewrite one_amount_IDs|by apply indexes_one|].
  2:{ apply Forall_fmap. eapply Forall_impl; [exact Hq|]. intros x. simpl. by rewrite one_amount_Quantity. }
  rewrite one_amount_IDs. split.
  - intros (H1 & H2 & H3 & H4 & H5 & -> & ->).
    assert (lt_LineItemID u ∉ lt_LineItemID <$> rest) as Hu.
    { intros (x & E & Hx)%list_elem_of_fmap. apply (proj1 (Forall_forall _ _) H3 x Hx). set_solver. }
    split; [done|]. split; [done|]. split.
    { split; [done|]. eapply Forall_impl; [exact H3|]. set_solver. }
    split. { split; [|done]. rewrite <- Hid. by apply list_elem_of_fmap_2. }
    split.
    { intros v x [->|Hv]%elem_of_cons Hx E.
      - assert (x = l) as ->; [|done]. apply list_elem_of_lookup in Hx as [i Hx].
        assert (i = j) as ->; [|congruence]. apply (NoDup_lookup _ _ _ (li_ID l) Hnd);
          rewrite list_lookup_fmap; [rewrite Hx|by rewrite Hl]; simpl; congruence.
      - specialize (H5 v (one_amount u x) Hv). rewrite one_amount_ID, one_amount_Quantity in H5. apply H5; [|done].
        by apply list_elem_of_fmap_2. }
    split; [set_solver|]. rewrite <- list_fmap_compose. apply list_fmap_ext. intros i x _. by apply priced_cons.
  - intros ([_ H1] & [Hu H2] & [_ H3] & [_ H4] & H5 & -> & ->). split; [done|]. split; [done|]. split.
    { rewrite Forall_forall in H3 |- *. intros v Hv. apply not_elem_of_union. split; [|by apply H3].
      intros E%elem_of_singleton. apply Hu. rewrite <- E. by apply list_elem_of_fmap_2. }
    split; [done|]. split.
    { intros v x Hv (x' & -> & Hx)%list_elem_of_fmap. rewrite one_amount_ID, one_amount_Quantity.
      apply H5; [by constructor|done]. }
    split; [set_solver|]. rewrite <- list_fmap_compose. apply list_fmap_ext. intros i x _. symmetry. by apply priced_cons.
Qed.
End ApplyFacts.

Lemma applyLineTotals_Ok inclusive stored updates applied :
  NoDup (li_ID <$> stored) -> Forall (fun l => in_int64 (li_Quantity l)) stored ->
  applyLineTotals stored updates inclusive = Ok applied <->
  covers inclusive stored updates /\ applied = priced updates <$> stored.
Proof.
  intros Hnd Hq. unfold applyLineTotals.
  assert (forall j id, index_lines stored !! id = Some j <-> exists l, stored !! j = Some l /\ li_ID l = id) as Hix.
  { intros j id. by apply index_lines_lookup. }
  pose proof (fun s' a' => apply_loop_Ok (index_lines stored) inclusive ∅ stored updates s' a' Hnd
    (fun id j => Hix j id) Hq) as Hloop.
  assert (forall s, s = list_to_set (lt_LineItemID <$> updates) ∪ ∅ -> NoDup (lt_LineItemID <$> updates) ->
    size (s : gset string) = length updates) as Hsize.
  { intros s -> H. rewrite (right_id_L ∅ (∪)), size_list_to_set by done. by rewrite length_fmap. }
  split.
  - destruct (apply_loop _ _ _ _ _) as [[s a]|e]; [|done]. cbn [mbind result_bind].
    destruct (proj1 (Hloop s a) eq_refl) as (H1 & H2 & _ & H4 & H5 & Hs & ->).
    case_bool_decide as Hl; [|done]. intros [= <-]. split; [|done]. split; [done| |done].
    apply submseteq_length_Permutation; [|rewrite !length_fmap; rewrite Hsize in Hl; [lia|done|done]].
    apply NoDup_submseteq; [done|]. intros id (u & -> & Hu)%list_elem_of_fmap.
    by apply (proj1 (Forall_forall _ _) H4).
  - intros [[H1 H2 H3] ->].
    assert (NoDup (lt_LineItemID <$> updates)) as Hnu by by rewrite H2.
    rewrite (proj2 (Hloop (list_to_set (lt_LineItemID <$> updates) ∪ ∅) (priced updates <$> stored))).
    2:{ split; [done|]. split; [done|]. split; [apply Forall_true; intros; apply not_elem_of_empty|].
        split; [|done]. apply Forall_forall. intros u Hu. rewrite <- H2. by apply list_elem_of_fmap_2. }
    cbn [mbind result_bind]. rewrite bool_decide_eq_true_2; [done|].
    rewrite Hsize by done. apply Permutation_length in H2. by rewrite !length_fmap in H2.
Qed.
