(* ===== verification/CartStore.v ===== *)
(** * The cart's store: [internal/modules/cart/service/store.go]

    What the service asks of its store. [St] is the state of the database; a read that fails
    returns the database's error. [moment] arguments are the transaction's [now()]. Locks are not
    state here: [LockCart] is the read of the row, and the transactions on one cart follow one
    another, as the row lock makes them. *)
From S2P Require Import Prelude GoText Errors CartModels CartTotals.

(** What the events of the module carry ([events.go]); the moment is rendered as RFC 3339 text. *)
Record EventPayload := mkEventPayload {
  ep_cart_id : string;
  ep_region_id : string;
  ep_currency_code : string;
  ep_occurred_at : moment
}.

Record Store (St : Type) := mkStore {
  db_Commit : St -> option err;
  db_CreateCart : Cart -> moment -> St -> St * result Cart;
  db_GetCart : string -> St -> result Cart;
  db_LockCart : string -> St -> result Cart;
  db_UpdateCartContact : string -> CartContact -> moment -> St -> St * result Cart;
  db_UpdateCartTotals : string -> CartTotals -> moment -> St -> St * result Cart;
  db_BumpCartRevision : string -> moment -> St -> St * result Cart;
  db_MarkCartCompleted : string -> moment -> St -> St * result Cart;
  db_SoftDeleteCart : string -> moment -> St -> St * option err;
  db_CreateLineItem : LineItem -> moment -> St -> St * result LineItem;
  db_GetLineItem : string -> string -> St -> result LineItem;
  db_GetLineItemByVariant : string -> string -> properties -> string -> St -> result LineItem;
  db_SetAddOnQuantities : string -> string -> Z -> moment -> St -> St * option err;
  db_SoftDeleteAddOnLines : string -> string -> moment -> St -> St * option err;
  db_ListLineItems : string -> St -> result (list LineItem);
  db_CountLineItems : string -> St -> result Z;
  db_SetLineItemQuantity : string -> string -> Z -> moment -> St -> St * result LineItem;
  db_SetLineItemTotals : string -> list LineItemTotals -> moment -> St -> St * option err;
  db_SoftDeleteLineItem : string -> string -> moment -> St -> St * option err;
  db_SoftDeleteLineItemsByCart : string -> moment -> St -> St * option err;
  db_UpsertCartAddress : CartAddress -> moment -> St -> St * result CartAddress;
  db_ListCartAddresses : string -> St -> result (list CartAddress);
  db_SoftDeleteCartAddressesByCart : string -> moment -> St -> St * option err;
  db_CreateShippingMethod : ShippingMethod -> moment -> St -> St * result ShippingMethod;
  db_ListShippingMethods : string -> St -> result (list ShippingMethod);
  db_SoftDeleteShippingMethod : string -> string -> moment -> St -> St * option err;
  db_SoftDeleteShippingMethodsByCart : string -> moment -> St -> St * option err;
  db_AddPromotionCode : string -> string -> moment -> St -> St * option err;
  db_ListPromotionCodes : string -> St -> result (list string);
  db_RemovePromotionCode : string -> string -> St -> St * option err;
  db_DeletePromotionCodesByCart : string -> St -> St * option err;
  db_WriteOutboxEvent : string -> string -> EventPayload -> St -> St * option err;
  db_CartsForErasure : string -> string -> St -> result (list string);
  db_AnonymizeCartContacts : list string -> moment -> St -> St * result Z;
  db_AnonymizeCartAddresses : list string -> moment -> St -> St * result Z;
  (* a statement of its own, outside any transaction: a failure leaves no state after it *)
  db_DeleteAbandonedCarts : moment -> Z -> St -> result (St * Z)
}.

Arguments db_Commit {St}.
Arguments db_CreateCart {St}.
Arguments db_GetCart {St}.
Arguments db_LockCart {St}.
Arguments db_UpdateCartContact {St}.
Arguments db_UpdateCartTotals {St}.
Arguments db_BumpCartRevision {St}.
Arguments db_MarkCartCompleted {St}.
Arguments db_SoftDeleteCart {St}.
Arguments db_CreateLineItem {St}.
Arguments db_GetLineItem {St}.
Arguments db_GetLineItemByVariant {St}.
Arguments db_SetAddOnQuantities {St}.
Arguments db_SoftDeleteAddOnLines {St}.
Arguments db_ListLineItems {St}.
Arguments db_CountLineItems {St}.
Arguments db_SetLineItemQuantity {St}.
Arguments db_SetLineItemTotals {St}.
Arguments db_SoftDeleteLineItem {St}.
Arguments db_SoftDeleteLineItemsByCart {St}.
Arguments db_UpsertCartAddress {St}.
Arguments db_ListCartAddresses {St}.
Arguments db_SoftDeleteCartAddressesByCart {St}.
Arguments db_CreateShippingMethod {St}.
Arguments db_ListShippingMethods {St}.
Arguments db_SoftDeleteShippingMethod {St}.
Arguments db_SoftDeleteShippingMethodsByCart {St}.
Arguments db_AddPromotionCode {St}.
Arguments db_ListPromotionCodes {St}.
Arguments db_RemovePromotionCode {St}.
Arguments db_DeletePromotionCodesByCart {St}.
Arguments db_WriteOutboxEvent {St}.
Arguments db_CartsForErasure {St}.
Arguments db_AnonymizeCartContacts {St}.
Arguments db_AnonymizeCartAddresses {St}.
Arguments db_DeleteAbandonedCarts {St}.

(** ** What a cart is: the rows under one cart *)

Record CartView := mkCartView {
  cv_cart : Cart;
  cv_lines : list LineItem;
  cv_codes : list string;
  cv_methods : list ShippingMethod;
  cv_addresses : list CartAddress
}.

Definition on_cart (f : Cart -> Cart) (v : CartView) : CartView :=
  mkCartView (f (cv_cart v)) (cv_lines v) (cv_codes v) (cv_methods v) (cv_addresses v).

Definition on_lines (f : list LineItem -> list LineItem) (v : CartView) : CartView :=
  mkCartView (cv_cart v) (f (cv_lines v)) (cv_codes v) (cv_methods v) (cv_addresses v).

Definition on_codes (f : list string -> list string) (v : CartView) : CartView :=
  mkCartView (cv_cart v) (cv_lines v) (f (cv_codes v)) (cv_methods v) (cv_addresses v).

Definition on_methods (f : list ShippingMethod -> list ShippingMethod) (v : CartView) : CartView :=
  mkCartView (cv_cart v) (cv_lines v) (cv_codes v) (f (cv_methods v)) (cv_addresses v).

Definition on_addresses (f : list CartAddress -> list CartAddress) (v : CartView) : CartView :=
  mkCartView (cv_cart v) (cv_lines v) (cv_codes v) (cv_methods v) (f (cv_addresses v)).

(** ** The statements' effects on rows: [internal/modules/cart/queries/*.sql] *)

Definition new_row (c : Cart) (now : moment) : Cart :=
  mkCart (cart_ID c) (cart_RegionID c) (cart_CustomerID c) (cart_Email c) (cart_CurrencyCode c)
    (cart_AddsToOrderID c) (cart_OpenedBy c) (cart_SalesChannelID c) 0 0 0 0 0 0 0 false
    (cart_Metadata c) None now now None.

Definition with_contact (contact : CartContact) (now : moment) (c : Cart) : Cart :=
  mkCart (cart_ID c) (cart_RegionID c) (cc_CustomerID contact) (cc_Email contact)
    (cart_CurrencyCode c) (cart_AddsToOrderID c) (cart_OpenedBy c) (cart_SalesChannelID c)
    (cart_Subtotal c) (cart_DiscountTotal c) (cart_TaxTotal c) (cart_ShippingTotal c)
    (cart_Total c) (cart_Revision c) (cart_TotalsRevision c) (cart_PricesIncludeTax c)
    (cart_Metadata c) (cart_CompletedAt c) (cart_CreatedAt c) now (cart_DeletedAt c).

Definition with_totals (t : CartTotals) (now : moment) (c : Cart) : Cart :=
  mkCart (cart_ID c) (cart_RegionID c) (cart_CustomerID c) (cart_Email c)
    (cart_CurrencyCode c) (cart_AddsToOrderID c) (cart_OpenedBy c) (cart_SalesChannelID c)
    (ctt_Subtotal t) (ctt_DiscountTotal t) (ctt_TaxTotal t) (ctt_ShippingTotal t)
    (ctt_Total t) (cart_Revision c) (ctt_Revision t) (ctt_PricesIncludeTax t)
    (cart_Metadata c) (cart_CompletedAt c) (cart_CreatedAt c) now (cart_DeletedAt c).

Definition bumped (now : moment) (c : Cart) : Cart :=
  mkCart (cart_ID c) (cart_RegionID c) (cart_CustomerID c) (cart_Email c)
    (cart_CurrencyCode c) (cart_AddsToOrderID c) (cart_OpenedBy c) (cart_SalesChannelID c)
    (cart_Subtotal c) (cart_DiscountTotal c) (cart_TaxTotal c) (cart_ShippingTotal c)
    (cart_Total c) (cart_Revision c + 1) (cart_TotalsRevision c) (cart_PricesIncludeTax c)
    (cart_Metadata c) (cart_CompletedAt c) (cart_CreatedAt c) now (cart_DeletedAt c).

Definition stamped_completed (now : moment) (c : Cart) : Cart :=
  mkCart (cart_ID c) (cart_RegionID c) (cart_CustomerID c) (cart_Email c)
    (cart_CurrencyCode c) (cart_AddsToOrderID c) (cart_OpenedBy c) (cart_SalesChannelID c)
    (cart_Subtotal c) (cart_DiscountTotal c) (cart_TaxTotal c) (cart_ShippingTotal c)
    (cart_Total c) (cart_Revision c) (cart_TotalsRevision c) (cart_PricesIncludeTax c)
    (cart_Metadata c) (Some now) (cart_CreatedAt c) now (cart_DeletedAt c).

Definition with_quantity (q : Z) (now : moment) (l : LineItem) : LineItem :=
  mkLineItem (li_ID l) (li_CartID l) (li_VariantID l) (li_Title l) q (li_UnitPrice l)
    (li_Subtotal l) (li_DiscountTotal l) (li_TaxTotal l) (li_Total l) (li_Metadata l)
    (li_Properties l) (li_ParentLineID l) (li_AddOnKey l) (li_CreatedAt l) now.

Definition new_line (l : LineItem) (now : moment) : LineItem :=
  mkLineItem (li_ID l) (li_CartID l) (li_VariantID l) (li_Title l) (li_Quantity l) (li_UnitPrice l)
    0 0 0 0 (li_Metadata l) (li_Properties l) (li_ParentLineID l) (li_AddOnKey l) now now.

Definition set_quantity_of (lineID : string) (q : Z) (now : moment) (l : LineItem) : LineItem :=
  if bool_decide (li_ID l = lineID) then with_quantity q now l else l.

Definition set_add_on_quantity (parent : string) (q : Z) (now : moment) (l : LineItem) : LineItem :=
  if bool_decide (li_ParentLineID l = Some parent) then with_quantity q now l else l.

(** What an erasure matches and what it empties: [erasure.sql]. An absent text is the empty one. *)
Definition of_subject (customerID email : string) (c : Cart) : bool :=
  (negb (bool_decide (customerID = EmptyString)) && bool_decide (cart_CustomerID c = customerID)) ||
  (negb (bool_decide (email = EmptyString)) && bool_decide (cart_Email c = email)).

Definition without_email (now : moment) (c : Cart) : Cart :=
  mkCart (cart_ID c) (cart_RegionID c) (cart_CustomerID c) EmptyString
    (cart_CurrencyCode c) (cart_AddsToOrderID c) (cart_OpenedBy c) (cart_SalesChannelID c)
    (cart_Subtotal c) (cart_DiscountTotal c) (cart_TaxTotal c) (cart_ShippingTotal c)
    (cart_Total c) (cart_Revision c) (cart_TotalsRevision c) (cart_PricesIncludeTax c)
    (cart_Metadata c) (cart_CompletedAt c) (cart_CreatedAt c) now (cart_DeletedAt c).

Definition anonymous_address (now : moment) (a : CartAddress) : CartAddress :=
  let e := EmptyString in
  mkCartAddress (ad_ID a) (ad_CartID a) (ad_Type a) e e e e e e e e e (ad_CountryCode a) e (ad_Metadata a)
    (ad_CreatedAt a) now.

Definition anonymized (now : moment) (v : CartView) : CartView :=
  on_addresses (fmap (anonymous_address now)) (on_cart (without_email now) v).

(** The carts with these identifiers, changed. *)
Definition on_carts (ids : list string) (f : CartView -> CartView) (w : gmap string CartView) : gmap string CartView :=
  map_imap (fun id v => Some (if decide (id ∈ ids) then f v else v)) w.

Definition row_of (rows : list LineItemTotals) (id : string) : option LineItemTotals :=
  head (filter (fun r => lit_LineItemID r = id) rows).

Definition with_row (r : LineItemTotals) (now : moment) (l : LineItem) : LineItem :=
  let t := lit_Totals r in
  mkLineItem (li_ID l) (li_CartID l) (li_VariantID l) (li_Title l) (li_Quantity l)
    (slt_UnitPrice t) (slt_Subtotal t) (slt_DiscountTotal t) (slt_TaxTotal t) (slt_Total t)
    (li_Metadata l) (li_Properties l) (li_ParentLineID l) (li_AddOnKey l) (li_CreatedAt l) now.

Definition set_totals_of (rows : list LineItemTotals) (now : moment) (l : LineItem) : LineItem :=
  match row_of rows (li_ID l) with Some r => with_row r now l | None => l end.

Definition is_line (lineID : string) (l : LineItem) : Prop := li_ID l = lineID.
Definition is_add_on_of (parent : string) (l : LineItem) : Prop := li_ParentLineID l = Some parent.

#[export] Instance is_line_dec lineID l : Decision (is_line lineID l).
Proof. unfold is_line. apply _. Defined.

#[export] Instance is_add_on_of_dec parent l : Decision (is_add_on_of parent l).
Proof. unfold is_add_on_of. apply _. Defined.

(** A line that stands on its own and has this identity. *)
Definition has_identity (variant : string) (props : properties) (key : string) (l : LineItem) :
    Prop :=
  li_VariantID l = variant /\ li_Properties l = props /\ li_ParentLineID l = None /\
  li_AddOnKey l = key.

#[export] Instance has_identity_dec variant props key l : Decision (has_identity variant props key l).
Proof. unfold has_identity. apply _. Defined.

#[global] Typeclasses Opaque is_line is_add_on_of has_identity.
