(* ===== verification/CartMoves.v ===== *)
(** * The shape of a cart

    What the lines and the codes of a cart always satisfy, and that the edits the operations are
    made of keep it: an abstract account of what can happen to a cart's rows. *)
From S2P Require Import Prelude GoText Errors CartModels CartTotals CartStore.

Definition is_root (l : LineItem) : Prop := li_ParentLineID l = None.

Definition same_identity (l k : LineItem) : Prop :=
  li_VariantID l = li_VariantID k /\ li_Properties l = li_Properties k /\ li_AddOnKey l = li_AddOnKey k.

Record line_range (l : LineItem) : Prop := {
  lr_quantity : MinQuantity <= li_Quantity l <= MaxQuantity;
  lr_price : 0 <= li_UnitPrice l <= MaxAmount
}.

Record lines_ok (ls : list LineItem) : Prop := {
  ls_ids : NoDup (li_ID <$> ls);
  ls_range l : l ∈ ls -> line_range l;
  ls_identity l k : l ∈ ls -> k ∈ ls -> is_root l -> is_root k -> same_identity l k -> l = k;
  (* an add-on has a living line it belongs to, which says so, and follows its quantity *)
  ls_add_on a p : a ∈ ls -> li_ParentLineID a = Some p ->
    exists r, r ∈ ls /\ li_ID r = p /\ is_root r /\ li_AddOnKey r <> EmptyString /\
      li_Quantity a = li_Quantity r
}.

(** A code as [normalizePromotionCode] leaves it: ASCII, and no letter lower case. *)
Definition code_ok (c : string) : Prop :=
  c <> EmptyString /\ len c <= maxPromotionCodeLen /\ Forall (fun b => b < 0x80 /\ is_lower b = false) (bytes c).

Record codes_ok (codes : list string) : Prop := {
  cs_nodup : NoDup codes;
  cs_limit : Z.of_nat (length codes) <= MaxPromotionCodes;
  cs_codes : Forall code_ok codes
}.

Record shape_ok (v : CartView) : Prop := {
  sh_lines : lines_ok (cv_lines v);
  sh_limit : Z.of_nat (length (cv_lines v)) <= MaxLineItems;
  sh_codes : codes_ok (cv_codes v)
}.

(** ** Edits *)

(** The quantity of a line and of its add-ons. *)
Definition grow (now : moment) (id : string) (q : Z) (l : LineItem) : LineItem :=
  set_add_on_quantity id q now (set_quantity_of id q now l).

(** A line that is opened with its add-ons. *)
Record opening (root : LineItem) (add_ons : list LineItem) (ls : list LineItem) : Prop := {
  op_root : is_root root;
  op_identity l : l ∈ ls -> is_root l -> ~ same_identity root l;
  op_ids : NoDup ((li_ID <$> root :: add_ons) ++ (li_ID <$> ls));
  op_range l : l ∈ root :: add_ons -> line_range l;
  op_add_ons : Forall (fun a => li_ParentLineID a = Some (li_ID root) /\
    li_Quantity a = li_Quantity root) add_ons;
  op_key : add_ons <> [] -> li_AddOnKey root <> EmptyString
}.

Inductive edit (now : moment) : CartView -> CartView -> Prop :=
| ed_contact contact v : edit now v (on_cart (with_contact contact now) v)
| ed_quantity l q v : l ∈ cv_lines v -> is_root l -> MinQuantity <= q <= MaxQuantity ->
    edit now v (on_lines (fmap (grow now (li_ID l) q)) v)
| ed_open root add_ons ls v : opening root add_ons (cv_lines v) ->
    ls ≡ₚ (root :: add_ons) ++ cv_lines v -> Z.of_nat (length ls) <= MaxLineItems ->
    edit now v (on_lines (fun _ => ls) v)
| ed_remove l v : l ∈ cv_lines v -> is_root l ->
    edit now v (on_lines (fun ls => filter (fun x => ~ is_line (li_ID l) x)
      (filter (fun x => ~ is_add_on_of (li_ID l) x) ls)) v)
| ed_codes k v : codes_ok k -> edit now v (on_codes (fun _ => k) v)
| ed_methods k v : edit now v (on_methods (fun _ => k) v)
| ed_addresses k v : edit now v (on_addresses (fun _ => k) v).

(** ** The lines keep their shape *)

Lemma lines_ok_perm ls ls' : ls ≡ₚ ls' -> lines_ok ls -> lines_ok ls'.
Proof.
  intros Hp [Hids Hr Hi Ha]. split.
  - by rewrite <- Hp.
  - intros l. rewrite <- Hp. apply Hr.
  - intros l k. rewrite <- Hp. apply Hi.
  - intros a p. rewrite <- Hp. intros Hin Hpar. destruct (Ha a p Hin Hpar) as (r & Hrin & H).
    exists r. by rewrite <- Hp.
Qed.

#[export] Instance lines_ok_proper : Proper ((≡ₚ) ==> iff) lines_ok.
Proof. intros ls ls' H. split; apply lines_ok_perm; [done|by symmetry]. Qed.

Lemma line_of_id (ls : list LineItem) l k : NoDup (li_ID <$> ls) -> l ∈ ls -> k ∈ ls -> li_ID l = li_ID k -> l = k.
Proof.
  intros Hn [i Hi]%list_elem_of_lookup [j Hj]%list_elem_of_lookup E.
  assert (i = j) as ->; [|congruence].
  apply (NoDup_lookup _ _ _ (li_ID k) Hn); rewrite list_lookup_fmap; [by rewrite Hi, <- E|by rewrite Hj].
Qed.

Section Grow.
Context (now : moment) (id : string) (q : Z).

Lemma grow_fixed l : li_ID (grow now id q l) = li_ID l /\ li_ParentLineID (grow now id q l) = li_ParentLineID l /\
  li_AddOnKey (grow now id q l) = li_AddOnKey l /\ li_VariantID (grow now id q l) = li_VariantID l /\
  li_Properties (grow now id q l) = li_Properties l /\ li_UnitPrice (grow now id q l) = li_UnitPrice l.
Proof. unfold grow, set_add_on_quantity, set_quantity_of. by repeat case_bool_decide. Qed.

Lemma grow_quantity l : li_Quantity (grow now id q l) =
  if bool_decide (li_ID l = id \/ li_ParentLineID l = Some id) then q else li_Quantity l.
Proof.
  unfold grow, set_add_on_quantity, set_quantity_of.
  destruct (decide (li_ID l = id)) as [E1|E1], (decide (li_ParentLineID l = Some id)) as [E2|E2];
    rewrite ?(bool_decide_eq_true_2 (li_ID l = id)), ?(bool_decide_eq_false_2 (li_ID l = id)) by done; simpl;
    rewrite ?(bool_decide_eq_true_2 (li_ParentLineID l = Some id)),
      ?(bool_decide_eq_false_2 (li_ParentLineID l = Some id)) by done;
    case_bool_decide as H; simpl; tauto.
Qed.

Lemma grow_ids (ls : list LineItem) : li_ID <$> (grow now id q <$> ls) = li_ID <$> ls.
Proof. rewrite <- list_fmap_compose. apply list_fmap_ext. intros i l _. apply grow_fixed. Qed.

Lemma grow_root l : is_root (grow now id q l) <-> is_root l.
Proof. unfold is_root. by destruct (grow_fixed l) as (_ & -> & _). Qed.

Lemma grow_identity l k : same_identity (grow now id q l) (grow now id q k) <-> same_identity l k.
Proof.
  unfold same_identity. destruct (grow_fixed l) as (_ & _ & -> & -> & -> & _).
  by destruct (grow_fixed k) as (_ & _ & -> & -> & -> & _).
Qed.

Lemma lines_ok_grow (ls : list LineItem) : MinQuantity <= q <= MaxQuantity ->
  (exists l, l ∈ ls /\ li_ID l = id /\ is_root l) -> lines_ok ls -> lines_ok (grow now id q <$> ls).
Proof.
  intros Hq (l0 & Hl0 & Hid & Hroot) [Hids Hr Hi Ha]. split.
  - by rewrite grow_ids.
  - intros ? (l & -> & Hl)%list_elem_of_fmap. destruct (Hr l Hl) as [H1 H2].
    split; [rewrite grow_quantity; by case_bool_decide|]. by destruct (grow_fixed l) as (_ & _ & _ & _ & _ & ->).
  - intros ? ? (l & -> & Hl)%list_elem_of_fmap (k & -> & Hk)%list_elem_of_fmap.
    rewrite !grow_root, grow_identity. intros H1 H2 H3. f_equal. by apply Hi.
  - intros ? p (a & -> & Hin)%list_elem_of_fmap. destruct (grow_fixed a) as (_ & -> & _). intros Hpar.
    destruct (Ha a p Hin Hpar) as (r & Hrin & Hrid & Hrr & Hkey & Hqr).
    exists (grow now id q r). destruct (grow_fixed r) as (-> & _ & -> & _). rewrite grow_root, !grow_quantity.
    split; [by apply list_elem_of_fmap_2|]. split; [done|]. split; [done|]. split; [done|].
    rewrite Hpar, Hrid, Hqr. unfold is_root in *. rewrite Hrr.
    destruct (decide (p = id)) as [->|Hne].
    + by rewrite !bool_decide_eq_true_2 by auto.
    + rewrite !bool_decide_eq_false_2; [done|intros [E|[=]]; congruence|]. intros [E|E]; [|congruence].
      assert (a = l0) as -> by (apply (line_of_id ls); [done..|congruence]). congruence.
Qed.
End Grow.

Lemma lines_ok_open root add_ons ls :
  opening root add_ons ls -> lines_ok ls -> lines_ok ((root :: add_ons) ++ ls).
Proof.
  intros [Hroot Hident Hnd Hrange Hadd Hkey] [Hids Hr Hi Ha].
  assert (forall a, a ∈ add_ons -> ~ is_root a) as Hnr.
  { intros a Hin E. apply (proj1 (Forall_forall _ _)) with (x := a) in Hadd as [Hp _]; [|done].
    unfold is_root in E. congruence. }
  split.
  - by rewrite fmap_app.
  - intros l [Hl|Hl]%elem_of_app; [by apply Hrange|by apply Hr].
  - intros l k [[->|Hl]%elem_of_cons|Hl]%elem_of_app [[->|Hk]%elem_of_cons|Hk]%elem_of_app Hrl Hrk Hs;
      try done; try (by edestruct Hnr).
    + by edestruct Hident.
    + destruct (Hident l Hl Hrl). destruct Hs as (? & ? & ?). split; [done|by split].
    + by apply Hi.
  - intros a p [[->|Hin]%elem_of_cons|Hin]%elem_of_app Hpar.
    + unfold is_root in Hroot. congruence.
    + pose proof (proj1 (Forall_forall _ _) Hadd a Hin) as [Hp Hq]. rewrite Hp in Hpar. injection Hpar as <-.
      exists root. split; [by left|]. split; [done|]. split; [done|]. split; [|done]. apply Hkey. intros ->. by apply not_elem_of_nil in Hin.
    + destruct (Ha a p Hin Hpar) as (r & Hrin & H). exists r. split; [|done]. apply elem_of_app. by right.
Qed.

Lemma lines_ok_remove ls id : lines_ok ls ->
  lines_ok (filter (fun x => ~ is_line id x) (filter (fun x => ~ is_add_on_of id x) ls)).
Proof.
  intros [Hids Hr Hi Ha]. split.
  - by apply NoDup_fmap_filter, NoDup_fmap_filter.
  - intros l [_ [_ Hl]%list_elem_of_filter]%list_elem_of_filter. by apply Hr.
  - intros l k [_ [_ Hl]%list_elem_of_filter]%list_elem_of_filter [_ [_ Hk]%list_elem_of_filter]%list_elem_of_filter.
    by apply Hi.
  - intros a p [Hnl [Hna Hin]%list_elem_of_filter]%list_elem_of_filter Hpar.
    destruct (Ha a p Hin Hpar) as (r & Hrin & Hrid & Hroot & H). exists r. split; [|done].
    apply list_elem_of_filter. split.
    { unfold is_line, is_add_on_of in *. congruence. }
    apply list_elem_of_filter. split; [|done]. unfold is_add_on_of, is_root in *. congruence.
Qed.

(** A line no add-on can name is a line without add-ons. *)
Lemma no_add_ons ls l : lines_ok ls -> l ∈ ls -> li_AddOnKey l = EmptyString ->
  Forall (fun a => ~ is_add_on_of (li_ID l) a) ls.
Proof.
  intros [Hids Hr Hi Ha] Hl Hkey. apply Forall_forall. intros a Hin Hp.
  destruct (Ha a _ Hin Hp) as (r & Hrin & Hrid & _ & Hne & _). apply Hne.
  by rewrite (line_of_id ls r l).
Qed.

Lemma set_add_on_quantity_none now id q (ls : list LineItem) : Forall (fun a => ~ is_add_on_of id a) ls ->
  set_add_on_quantity id q now <$> ls = ls.
Proof.
  intros H. rewrite <- (list_fmap_id ls) at 2. apply list_fmap_ext. intros i l Hl%list_elem_of_lookup_2.
  unfold set_add_on_quantity. rewrite bool_decide_eq_false_2; [done|].
  by apply (proj1 (Forall_forall _ _) H).
Qed.

Lemma edit_keeps_shape now v v' : edit now v v' -> shape_ok v -> shape_ok v'.
Proof.
  intros Hed [Hl Hlim Hc]. destruct Hed as [contact v|l q v Hin Hroot Hq|root add_ons ls v Hop Hp Hlen|l v Hin Hroot|k v Hk|k v|k v];
    split; simpl; try done.
  - apply lines_ok_grow; [done| |done]. by exists l.
  - by rewrite length_fmap.
  - rewrite Hp. by apply lines_ok_open.
  - by apply lines_ok_remove.
  - etrans; [|exact Hlim]. apply inj_le. etrans; apply length_filter.
Qed.

Lemma edits_keep_shape now v v' : rtc (edit now) v v' -> shape_ok v -> shape_ok v'.
Proof. induction 1; [done|]. eauto using edit_keeps_shape. Qed.

(** Edits touch neither the amounts nor the counters of the cart's row. *)
Record same_row (c c' : Cart) : Prop := {
  sr_id : cart_ID c' = cart_ID c;
  sr_revision : cart_Revision c' = cart_Revision c;
  sr_totals : cart_TotalsRevision c' = cart_TotalsRevision c;
  sr_completed : cart_CompletedAt c' = cart_CompletedAt c
}.

Lemma edit_same_row now v v' : edit now v v' -> same_row (cv_cart v) (cv_cart v').
Proof. by destruct 1. Qed.

Lemma edits_same_row now v v' : rtc (edit now) v v' -> same_row (cv_cart v) (cv_cart v').
Proof.
  induction 1 as [|v1 v2 v3 H _ IH]; [done|]. apply edit_same_row in H.
  destruct H, IH. by split; etrans.
Qed.

(** * What can happen to the carts

    The abstract account the service refines: how one call moves the carts the tables show
    ([step]), the invariant of a cart ([view_ok]), and that every step keeps it and leaves a
    completed cart alone. *)

(** The amounts a line and a cart carry, as the checks of a round read them. *)
Definition amounts (l : LineItem) : LineTotals :=
  mkLineTotals (li_ID l) (li_UnitPrice l) (li_Subtotal l) (li_DiscountTotal l) (li_TaxTotal l) (li_Total l).

Definition totals_of (c : Cart) : Totals :=
  mkTotals (cart_Revision c) (cart_Subtotal c) (cart_DiscountTotal c) (cart_TaxTotal c)
    (cart_ShippingTotal c) (cart_Total c) (cart_PricesIncludeTax c) [].

(** The amounts of the cart follow from its lines, and those of a line from its price and
    quantity. *)
Record adds_up (v : CartView) : Prop := {
  au_totals : totals_ok (totals_of (cv_cart v));
  au_lines : Forall (fun l => line_ok (cart_PricesIncludeTax (cv_cart v)) (li_Quantity l) (amounts l))
    (cv_lines v);
  au_subtotal : cart_Subtotal (cv_cart v) = sumZ (li_Subtotal <$> cv_lines v)
}.

Record view_ok (id : string) (v : CartView) : Prop := {
  vk_id : cart_ID (cv_cart v) = id;
  vk_shape : shape_ok v;
  vk_revision : 0 <= cart_TotalsRevision (cv_cart v) <= cart_Revision (cv_cart v);
  vk_current : TotalsStale (cv_cart v) = false -> adds_up v;
  vk_completed : Completed (cv_cart v) = true -> TotalsStale (cv_cart v) = false /\ cv_lines v <> []
}.

Definition is_open (v : CartView) : Prop := Completed (cv_cart v) = false.

(** A calculation round that belongs to the cart. *)
Record round_ok (v : CartView) (t : Totals) : Prop := {
  rd_totals : totals_ok t;
  rd_covers : covers (to_PricesIncludeTax t) (cv_lines v) (to_Lines t);
  rd_subtotal : to_Subtotal t = sumZ (lt_Subtotal <$> to_Lines t);
  rd_revision : cart_Revision (cv_cart v) = to_Revision t
}.

Definition cart_totals (t : Totals) : CartTotals :=
  mkCartTotals (to_Subtotal t) (to_DiscountTotal t) (to_TaxTotal t) (to_ShippingTotal t)
    (to_Total t) (to_Revision t) (to_PricesIncludeTax t).

Definition priced_view (t : Totals) (now : moment) (v : CartView) : CartView :=
  on_cart (with_totals (cart_totals t) now)
    (on_lines (fmap (set_totals_of (storeLineTotals (to_Lines t)) now)) v).

Inductive move (now : moment) (v : CartView) : CartView -> Prop :=
| mv_edit v' : is_open v -> rtc (edit now) v v' -> move now v (on_cart (bumped now) v')
| mv_totals t : is_open v -> round_ok v t -> move now v (priced_view t now v)
| mv_complete : is_open v -> cv_lines v <> [] -> TotalsStale (cv_cart v) = false ->
    move now v (on_cart (stamped_completed now) v).

Abbreviation world := (gmap string CartView).

Definition carts_ok (w : world) : Prop := map_Forall view_ok w.

Inductive step (now : moment) (w : world) : world -> Prop :=
| st_stay : step now w w
| st_create c : w !! cart_ID c = None ->
    step now w (<[cart_ID c := mkCartView (new_row c now) [] [] [] []]> w)
| st_move id v v' : w !! id = Some v -> move now v v' -> step now w (<[id := v']> w)
| st_delete id v : w !! id = Some v -> is_open v -> step now w (delete id w)
| st_merge source target vs vt vt' : source <> target -> w !! source = Some vs ->
    w !! target = Some vt -> is_open vs -> is_open vt -> (vt' = vt \/ move now vt vt') ->
    step now w (delete source (<[target := vt']> w))
| st_abandon cutoff (gone : gset string) :
    (forall id, id ∈ gone -> exists v, w !! id = Some v /\ is_open v /\ cart_UpdatedAt (cv_cart v) < cutoff) ->
    step now w (filter (fun p => p.1 ∉ gone) w).

(** An erasure reaches the carts of a person, the completed ones too, and leaves their records without
    the person's data. *)
Definition erased (customerID email : string) (now : moment) (w w' : world) : Prop :=
  exists ids : list string,
    (forall id v, w !! id = Some v -> id ∈ ids <-> of_subject customerID email (cv_cart v) = true) /\
    w' = on_carts ids (anonymized now) w.

Lemma lookup_on_carts ids f (w : world) id :
  on_carts ids f w !! id = (fun v => if decide (id ∈ ids) then f v else v) <$> w !! id.
Proof. unfold on_carts. rewrite map_lookup_imap. by destruct (w !! id). Qed.

Lemma on_carts_twice ids f g (w : world) : on_carts ids g (on_carts ids f w) = on_carts ids (fun v => g (f v)) w.
Proof. apply map_eq. intros id. rewrite !lookup_on_carts. destruct (w !! id); [|done]. cbn. by destruct (decide (id ∈ ids)). Qed.

Lemma on_carts_ext ids f g (w : world) : (forall v, f v = g v) -> on_carts ids f w = on_carts ids g w.
Proof.
  intros H. apply map_eq. intros id. rewrite !lookup_on_carts. destruct (w !! id) as [v|]; [|done]. cbn. by rewrite H.
Qed.

(** What an erasure does to a cart it finds or does not find. *)
Lemma erased_lookup customerID email now w w' id v : erased customerID email now w w' -> w !! id = Some v ->
  w' !! id = Some (if of_subject customerID email (cv_cart v) then anonymized now v else v).
Proof.
  intros (ids & Hids & ->) Hv. rewrite lookup_on_carts, Hv. cbn. f_equal. specialize (Hids id v Hv).
  destruct (of_subject _ _ _); [rewrite decide_True by (by apply Hids)|rewrite decide_False by (by rewrite Hids)]; done.
Qed.

Lemma erased_none customerID email now w w' id : erased customerID email now w w' -> w !! id = None -> w' !! id = None.
Proof. intros (ids & _ & ->) Hv. by rewrite lookup_on_carts, Hv. Qed.

(** Anonymizing again changes the stamp alone. *)
Lemma anonymized_twice now now' v : anonymized now' (anonymized now v) = anonymized now' v.
Proof.
  unfold anonymized, on_addresses, on_cart. simpl. f_equal. rewrite <- list_fmap_compose. by apply list_fmap_ext.
Qed.

(** Who is found without the e-mail was found with it. *)
Lemma of_subject_anonymized customerID email now v :
  of_subject customerID email (cv_cart (anonymized now v)) = true -> of_subject customerID email (cv_cart v) = true.
Proof.
  unfold of_subject. simpl. intros [E|[E1%negb_true_iff%bool_decide_eq_false_1 E2%bool_decide_eq_true_1]%andb_true_iff]%orb_true_iff;
    [by rewrite E|congruence].
Qed.

(** ** The invariant is kept *)

Lemma row_of_stored updates id :
  row_of (storeLineTotals updates) id = (fun u => mkLineItemTotals (lt_LineItemID u)
    (mkStoredLineTotals (lt_UnitPrice u) (lt_Subtotal u) (lt_DiscountTotal u) (lt_TaxTotal u)
      (lt_Total u))) <$> amounts_of updates id.
Proof.
  unfold row_of, amounts_of, storeLineTotals. induction updates as [|u updates IH]; [done|].
  rewrite fmap_cons. destruct (decide (lt_LineItemID u = id)) as [E|E].
  - by rewrite !filter_cons_True by done.
  - by rewrite !filter_cons_False by done.
Qed.

(** What the statement writes are the amounts the checks read. *)
Lemma set_totals_priced updates now l :
  amounts (set_totals_of (storeLineTotals updates) now l) = amounts (priced updates l) /\
  li_Quantity (set_totals_of (storeLineTotals updates) now l) = li_Quantity l.
Proof.
  unfold set_totals_of, priced. rewrite row_of_stored. by destruct (amounts_of updates (li_ID l)).
Qed.

Lemma priced_covered inclusive stored updates l : NoDup (li_ID <$> stored) ->
  covers inclusive stored updates -> l ∈ stored ->
  exists u, u ∈ updates /\ lt_LineItemID u = li_ID l /\ amounts (priced updates l) = u.
Proof.
  intros Hnd [_ Hsame _] Hl.
  assert (li_ID l ∈ lt_LineItemID <$> updates) as (u & Hid & Hu)%list_elem_of_fmap.
  { rewrite Hsame. by apply list_elem_of_fmap_2. }
  exists u. split; [done|]. split; [done|]. unfold priced. rewrite Hid, amounts_of_elem; [|by rewrite Hsame|done].
  unfold amounts, with_amounts. simpl. rewrite Hid. by destruct u.
Qed.

Lemma covered_subtotals inclusive stored updates : NoDup (li_ID <$> stored) ->
  covers inclusive stored updates ->
  sumZ (li_Subtotal <$> (priced updates <$> stored)) = sumZ (lt_Subtotal <$> updates).
Proof.
  intros Hnd Hc. pose proof (co_same _ _ _ Hc) as Hsame. apply sumZ_perm.
  set (f := fun id => from_option lt_Subtotal 0 (amounts_of updates id)).
  assert (li_Subtotal <$> (priced updates <$> stored) = f <$> (li_ID <$> stored)) as ->.
  { rewrite <- !list_fmap_compose. apply list_fmap_ext. intros i l Hl%list_elem_of_lookup_2. unfold f. simpl.
    destruct (priced_covered _ _ _ _ Hnd Hc Hl) as (u & Hu & Hid & Ha).
    rewrite <- Hid, amounts_of_elem; [|by rewrite Hsame|done]. simpl. by rewrite <- Ha. }
  rewrite <- Hsame, <- list_fmap_compose. apply Permutation_refl'. apply list_fmap_ext.
  intros i u Hu%list_elem_of_lookup_2. unfold f. simpl. by rewrite amounts_of_elem; [|rewrite Hsame|].
Qed.

Lemma lines_ok_set_totals rows now ls :
  (forall l, l ∈ ls -> 0 <= li_UnitPrice (set_totals_of rows now l) <= MaxAmount) ->
  lines_ok ls -> lines_ok (set_totals_of rows now <$> ls).
Proof.
  intros Hp [Hids Hr Hi Ha].
  assert (forall l, li_ID (set_totals_of rows now l) = li_ID l /\
    li_ParentLineID (set_totals_of rows now l) = li_ParentLineID l /\
    li_Quantity (set_totals_of rows now l) = li_Quantity l /\
    li_AddOnKey (set_totals_of rows now l) = li_AddOnKey l /\
    li_VariantID (set_totals_of rows now l) = li_VariantID l /\
    li_Properties (set_totals_of rows now l) = li_Properties l) as Hf.
  { intros l. unfold set_totals_of. by destruct (row_of rows (li_ID l)). }
  split.
  - rewrite <- list_fmap_compose. rewrite (list_fmap_ext _ li_ID); [done|]. intros i l _. apply Hf.
  - intros ? (l & -> & Hl)%list_elem_of_fmap. destruct (Hr l Hl) as [H1 _].
    split; [by destruct (Hf l) as (_ & _ & -> & _)|by apply Hp].
  - intros ? ? (l & -> & Hl)%list_elem_of_fmap (k & -> & Hk)%list_elem_of_fmap. unfold is_root, same_identity.
    destruct (Hf l) as (_ & -> & _ & -> & -> & ->), (Hf k) as (_ & -> & _ & -> & -> & ->).
    intros H1 H2 H3. f_equal. by apply Hi.
  - intros ? p (a & -> & Hin)%list_elem_of_fmap. destruct (Hf a) as (_ & -> & -> & _). intros Hpar.
    destruct (Ha a p Hin Hpar) as (r & Hrin & H). exists (set_totals_of rows now r). unfold is_root.
    destruct (Hf r) as (-> & -> & -> & -> & _). split; [by apply list_elem_of_fmap_2|done].
Qed.

Lemma round_adds_up t now v : lines_ok (cv_lines v) -> round_ok v t -> adds_up (priced_view t now v).
Proof.
  intros Hl [Ht Hc Hs Hrev]. pose proof (ls_ids _ Hl) as Hnd. split; simpl.
  - destruct Ht. split; simpl; try done. by rewrite Hrev.
  - apply Forall_fmap, Forall_forall. intros l Hin. simpl.
    destruct (set_totals_priced (to_Lines t) now l) as [-> ->].
    destruct (priced_covered _ _ _ _ Hnd Hc Hin) as (u & Hu & Hid & ->). by eapply co_ok.
  - rewrite Hs, <- (covered_subtotals _ _ _ Hnd Hc). f_equal. rewrite <- !list_fmap_compose.
    apply list_fmap_ext. intros i l _. simpl. destruct (set_totals_priced (to_Lines t) now l) as [E _].
    by apply (f_equal lt_Subtotal) in E.
Qed.

Lemma round_keeps_shape t now v : round_ok v t -> shape_ok v -> shape_ok (priced_view t now v).
Proof.
  intros Hr [Hl Hlim Hc]. split; simpl; [|by rewrite length_fmap|done].
  apply lines_ok_set_totals; [|done]. intros l Hin.
  pose proof (au_lines _ (round_adds_up t now v Hl Hr)) as Ha. simpl in Ha. rewrite Forall_fmap in Ha.
  apply (proj1 (Forall_forall _ _)) with (x := l) in Ha; [|done]. apply (lk_price _ _ _ Ha).
Qed.

Lemma bumped_stale now c : cart_TotalsRevision c <= cart_Revision c -> TotalsStale (bumped now c) = true.
Proof. intros H. unfold TotalsStale. simpl. apply negb_true_iff, Z.eqb_neq. lia. Qed.

Lemma move_keeps_ok now id v v' : move now v v' -> view_ok id v -> view_ok id v'.
Proof.
  intros [v1 Hop Hed|t Hop Hr|Hop Hne Hst] [Hid Hsh Hrev Hcur Hdone].
  - pose proof (edits_same_row _ _ _ Hed) as [Eid Erev Etot Ecomp].
    assert (TotalsStale (bumped now (cv_cart v1)) = true) as Hstale by (apply bumped_stale; lia).
    split; simpl; [congruence| |lia|congruence|].
    + destruct (edits_keep_shape _ _ _ Hed Hsh). by split.
    + unfold is_open in Hop. apply Completed_false in Hop. unfold Completed at 1. simpl. rewrite Ecomp, Hop. done.
  - pose proof (round_adds_up t now v (sh_lines _ Hsh) Hr) as Hadd. pose proof (tk_revision _ (rd_totals _ _ Hr)).
    pose proof (rd_revision _ _ Hr) as Er.
    split; simpl; [done|by apply round_keeps_shape|lia|done|].
    unfold is_open in Hop. apply Completed_false in Hop. unfold Completed. simpl. by rewrite Hop.
  - split; simpl; [done|destruct Hsh; by split|done| |done].
    intros _. destruct (Hcur Hst) as [[] Hls Hsum]. by split.
Qed.

Lemma step_keeps_ok now w w' : step now w w' -> carts_ok w -> carts_ok w'.
Proof.
  intros [|c Hc|id v v' Hv Hm|id v Hv Ho|source target vs vt vt' Hne Hs Ht Hos Hot Hm|cutoff gone _] Hw; [done| | | | |].
  - apply map_Forall_insert_2; [|done]. split; simpl; [done| |lia| |done].
    + split; simpl; [|done|split; [constructor|done|constructor]].
      split; [rewrite fmap_nil; apply NoDup_nil_2|..];
        intros; by match goal with H : _ ∈ [] |- _ => apply not_elem_of_nil in H end.
    + intros _. split; simpl; [|constructor|done]. split; simpl; rewrite ?MaxTotal_val; lia.
  - apply map_Forall_insert_2; [|done]. eapply move_keeps_ok; [done|]. by apply Hw.
  - by apply map_Forall_delete.
  - apply map_Forall_delete, map_Forall_insert_2; [|done].
    destruct Hm as [->|Hm]; [by apply Hw|]. eapply move_keeps_ok; [done|]. by apply Hw.
  - intros id v [Hv _]%map_lookup_filter_Some. by apply Hw.
Qed.

Lemma anonymized_keeps_ok now id v : view_ok id v -> view_ok id (anonymized now v).
Proof.
  intros [Hid Hsh Hrev Hcur Hdone]. split; simpl; [done|by destruct Hsh|done| |exact Hdone].
  intros Hst. destruct (Hcur Hst) as [Ht Hl Hs]. by split.
Qed.

Lemma erased_keeps_ok customerID email now w w' : erased customerID email now w w' -> carts_ok w -> carts_ok w'.
Proof.
  intros (ids & _ & ->) Hw id v. rewrite lookup_on_carts. intros (u & Hu & ->)%fmap_Some.
  case_decide; [apply anonymized_keeps_ok|]; by apply Hw.
Qed.

(** A completed cart stays as it is. *)
Lemma step_frozen now w w' id v : step now w w' -> w !! id = Some v -> Completed (cv_cart v) = true ->
  w' !! id = Some v.
Proof.
  unfold is_open. intros [|c Hc|i u u' Hu Hm|i u Hu Ho|source target vs vt vt' Hne Hs Ht Hos Hot Hm|cutoff gone Hg] Hv Hd; [done| | | | |].
  - rewrite lookup_insert_ne by congruence. done.
  - assert (i <> id). { intros ->. assert (u = v) as -> by congruence. destruct Hm; unfold is_open in *; congruence. }
    by rewrite lookup_insert_ne.
  - assert (i <> id). { intros ->. assert (u = v) as -> by congruence. congruence. }
    by rewrite lookup_delete_ne.
  - assert (source <> id) by (intros ->; assert (vs = v) as -> by congruence; congruence).
    assert (target <> id) by (intros ->; assert (vt = v) as -> by congruence; congruence).
    by rewrite lookup_delete_ne, lookup_insert_ne.
  - apply map_lookup_filter_Some. split; [done|]. simpl. intros Hid. destruct (Hg id Hid) as (u & Hu & Ho & _).
    unfold is_open in Ho. congruence.
Qed.
