(* ===== verification/CartService.v ===== *)
(** * The cart service: [internal/modules/cart/service/*.go]

    Every operation on a cart, over any store. An operation takes the state and gives the state
    after it with what Go returns. [now] is the transaction's time, [newID n] the [n]-th identifier
    the operation draws. A closure's captured variables are what the model's body returns. *)
From S2P Require Import Prelude GoText Errors Tx CartModels CartTotals CartStore.

Record Event := mkEvent { ev_ID : string; ev_Name : string; ev_Data : EventPayload }.

(** The store, the event bus, the Unicode lower case of the standard library, and how long an open cart is kept
    untouched, in nanoseconds, zero for ever. *)
Record Service (St : Type) := mkService {
  svc_store : Store St;
  svc_Publish : Event -> St -> St * option err;
  svc_ToLower : string -> string;
  svc_retention : Z
}.

Arguments svc_store {St}.
Arguments svc_Publish {St}.
Arguments svc_ToLower {St}.
Arguments svc_retention {St}.

(** ** Events: [events.go], [event_key.go] *)

Definition EventCartCreated : string := "cart.created".
Definition EventCartCompleted : string := "cart.completed".

Definition cartEventKeyBytes : nat := 16.

Definition cartEventKey (cartID : string) : string :=
  hex (take cartEventKeyBytes (Sum256 (bytes cartID))).

Definition EventID (topic cartID : string) : string :=
  String.append topic (String.append ":" (cartEventKey cartID)).

Definition cartEventPayload (cart : Cart) (at_ : moment) : EventPayload :=
  mkEventPayload (cart_ID cart) (cart_RegionID cart) (cart_CurrencyCode cart) at_.

(** ** Inputs *)

Record CreateCartInput := mkCreateCartInput {
  ci_RegionID : string;
  ci_CustomerID : string;
  ci_Email : string;
  ci_CurrencyCode : string;
  ci_AddsToOrderID : string;
  ci_OpenedBy : string;
  ci_SalesChannelID : string;
  ci_Metadata : properties
}.

Record UpdateCartInput := mkUpdateCartInput { ui_Email : option string; ui_CustomerID : string }.

Record AddLineItemInput := mkAddLineItemInput {
  al_VariantID : string;
  al_Title : string;
  al_Quantity : Z;
  al_UnitPrice : Z;
  al_Metadata : properties;
  al_Properties : list (string * string);
  al_AddOns : list AddOnInput
}.

Record AddShippingMethodInput := mkAddShippingMethodInput {
  as_Name : string;
  as_ShippingOptionID : string;
  as_Amount : Z;
  as_Data : properties
}.

Record AddressInput := mkAddressInput {
  ia_SourceAddressID : string;
  ia_FirstName : string;
  ia_LastName : string;
  ia_Company : string;
  ia_Address1 : string;
  ia_Address2 : string;
  ia_City : string;
  ia_Province : string;
  ia_PostalCode : string;
  ia_CountryCode : string;
  ia_Phone : string;
  ia_Metadata : properties
}.

Record CartDetail := mkCartDetail {
  cd_Cart : Cart;
  cd_Items : list LineItem;
  cd_ShippingAddress : option CartAddress;
  cd_BillingAddress : option CartAddress;
  cd_ShippingMethods : list ShippingMethod;
  cd_PromotionCodes : list string
}.

Section Operations.
Context {St : Type} (svc : Service St) (now : moment) (newID : nat -> string).

Let db : Store St := svc_store svc.

Definition WithTx {A} (m : tx St A) : tx St A := atomically (db_Commit db) m.

Definition recordCartEvent (topic : string) (cart : Cart) (at_ : moment) : tx St unit :=
  tx_do (db_WriteOutboxEvent db (EventID topic (cart_ID cart)) topic (cartEventPayload cart at_)).

(** A failed publication is logged and nothing else. *)
Definition publishCartEvent (topic : string) (cart : Cart) (at_ : moment) : tx St unit := fun st =>
  ((svc_Publish svc (mkEvent (EventID topic (cart_ID cart)) topic (cartEventPayload cart at_)) st).1,
   Ok tt).

Definition mutate {A} (cartID : string) (fn : Cart -> tx St A) : tx St (Cart * A) :=
  tx_check (requireID "cart_id" cartID) ;;
  WithTx (
    cart ← tx_read (db_LockCart db cartID);
    tx_check (if Completed cart then Some (completedError (cart_ID cart)) else None) ;;
    a ← fn cart;
    updated ← db_BumpCartRevision db cartID now;
    mret (updated, a)).

(** [if value != ""] in front of [requireID]. *)
Definition optionalID (label value : string) : option err :=
  if bool_decide (value = EmptyString) then None else requireID label value.

Definition CreateCart (in_ : CreateCartInput) : tx St Cart :=
  tx_check (requireID "region_id" (ci_RegionID in_)) ;;
  tx_check (optionalID "customer_id" (ci_CustomerID in_)) ;;
  tx_check (optionalID "adds_to_order_id" (ci_AddsToOrderID in_)) ;;
  tx_check (optionalID "opened_by" (ci_OpenedBy in_)) ;;
  tx_check (optionalID "sales_channel_id" (ci_SalesChannelID in_)) ;;
  currency ← tx_of (normalizeCurrency (ci_CurrencyCode in_));
  email ← tx_of (normalizeEmail (svc_ToLower svc) (ci_Email in_));
  created ← WithTx (
    created ← db_CreateCart db
      (mkCart (newID 0) (ci_RegionID in_) (ci_CustomerID in_) email currency
        (ci_AddsToOrderID in_) (ci_OpenedBy in_) (ci_SalesChannelID in_) 0 0 0 0 0 0 0 false
        (ci_Metadata in_) None zero_time zero_time None) now;
    recordCartEvent EventCartCreated created (cart_CreatedAt created) ;;
    mret created);
  publishCartEvent EventCartCreated created (cart_CreatedAt created) ;;
  mret created.

(** The address of a type, the later one where there are two. *)
Definition address_of (kind : AddressType) (addresses : list CartAddress) : option CartAddress :=
  last (filter (fun a => ad_Type a = kind) addresses).

Definition GetCart (cartID : string) : tx St CartDetail :=
  tx_check (requireID "cart_id" cartID) ;;
  WithTx (
    cart ← tx_read (db_GetCart db cartID);
    items ← tx_read (db_ListLineItems db cartID);
    addresses ← tx_read (db_ListCartAddresses db cartID);
    methods ← tx_read (db_ListShippingMethods db cartID);
    codes ← tx_read (db_ListPromotionCodes db cartID);
    mret (mkCartDetail cart items (address_of AddressShipping addresses)
      (address_of AddressBilling addresses) methods codes)).

Definition UpdateCart (cartID : string) (in_ : UpdateCartInput) : tx St Cart :=
  email ← tx_of (match ui_Email in_ with
    | Some e => n ← normalizeEmail (svc_ToLower svc) e; Ok (Some n)
    | None => Ok None
    end);
  tx_check (optionalID "customer_id" (ui_CustomerID in_)) ;;
  tx_check
    (if bool_decide (email = None /\ ui_CustomerID in_ = EmptyString) then
       Some (Invalid CodeInvalidInput
         "no field was given to update: email or customer_id is required" [])
     else None) ;;
  r ← mutate cartID (fun cart =>
    tx_check
      (if bool_decide (ui_CustomerID in_ <> EmptyString /\ cart_CustomerID cart <> EmptyString /\
          cart_CustomerID cart <> ui_CustomerID in_) then
         Some (Conflict CodeCustomerMismatch
           "the cart belongs to another customer: %s (requested: %s)"
           [AStr (cart_CustomerID cart); AStr (ui_CustomerID in_)])
       else None) ;;
    let contact := mkCartContact (default (cart_Email cart) email)
      (if bool_decide (ui_CustomerID in_ = EmptyString) then cart_CustomerID cart
       else ui_CustomerID in_) in
    _ ← db_UpdateCartContact db (cart_ID cart) contact now;
    mret tt);
  mret r.1.

Definition DeleteCart (cartID : string) : tx St unit :=
  tx_check (requireID "cart_id" cartID) ;;
  WithTx (
    cart ← tx_read (db_LockCart db cartID);
    tx_check (if Completed cart then Some (completedError (cart_ID cart)) else None) ;;
    tx_do (db_SoftDeleteLineItemsByCart db cartID now) ;;
    tx_do (db_SoftDeleteCartAddressesByCart db cartID now) ;;
    tx_do (db_SoftDeleteShippingMethodsByCart db cartID now) ;;
    tx_do (db_DeletePromotionCodesByCart db cartID) ;;
    tx_do (db_SoftDeleteCart db cartID now)).

(** [clock] is [time.Now()], for a store that answers no completion time. *)
Definition MarkCompleted (clock : moment) (cartID : string) : tx St Cart :=
  tx_check (requireID "cart_id" cartID) ;;
  r ← WithTx (
    cart ← tx_read (db_LockCart db cartID);
    tx_check (if Completed cart then Some (completedError (cart_ID cart)) else None) ;;
    items ← tx_read (db_ListLineItems db (cart_ID cart));
    tx_check (if bool_decide (items = []) then
        Some (Conflict CodeCartEmpty "the cart cannot be completed: it has no lines at all (%s)"
          [AStr (cart_ID cart)])
      else None) ;;
    tx_check (if TotalsStale cart then
        Some (Conflict CodeTotalsStale
          "the cart cannot be completed: the totals are not current (cart shape %d, totals %d); calculate_totals must be run again"
          [AInt (cart_Revision cart); AInt (cart_TotalsRevision cart)])
      else None) ;;
    completed ← db_MarkCartCompleted db cartID now;
    let at_ := default clock (cart_CompletedAt completed) in
    recordCartEvent EventCartCompleted completed at_ ;;
    mret (completed, at_));
  publishCartEvent EventCartCompleted r.1 r.2 ;;
  mret r.1.

(** ** Lines: [lineitem.go] *)

Definition openLine (item : LineItem) (lines : Z) : tx St LineItem :=
  tx_check (if MaxLineItems <=? lines then
      Some (Invalid CodeLineLimit
        "a cart can carry at most %d lines; cart %s has %d lines (the quantity of an existing line can be increased)"
        [AInt MaxLineItems; AStr (li_CartID item); AInt lines])
    else None) ;;
  db_CreateLineItem db item now.

(** A line as it is opened: no amounts yet but the price quoted. *)
Definition opened (id cartID variant title : string) (quantity unitPrice : Z)
    (meta props : properties) (parent : option string) (key : string) : LineItem :=
  mkLineItem id cartID variant title quantity unitPrice 0 0 0 0 meta props parent key
    zero_time zero_time.

(** The error as a value, for the code that looks at it. *)
Definition tx_try {A} (f : St -> result A) : tx St (result A) := fun st => (st, Ok (f st)).

Fixpoint open_add_ons (cartID parent : string) (quantity lines : Z) (i : nat)
    (addOns : list CleanAddOn) : tx St unit :=
  match addOns with
  | [] => mret tt
  | a :: rest =>
      _ ← openLine (opened (newID (1 + i)) cartID (ca_VariantID a) (ca_Title a) quantity
        (ca_UnitPrice a) ∅ (ca_Properties a) (Some parent) EmptyString) (lines + 1 + Z.of_nat i);
      open_add_ons cartID parent quantity lines (S i) rest
  end.

Definition AddLineItem (cartID : string) (in_ : AddLineItemInput) : tx St LineItem :=
  tx_check (requireID "variant_id" (al_VariantID in_)) ;;
  let title := TrimSpace (al_Title in_) in
  tx_check (requireText "title" title) ;;
  tx_check (checkQuantity (al_Quantity in_)) ;;
  tx_check (checkAmount "unit_price" (al_UnitPrice in_) MaxAmount) ;;
  props ← tx_of (NormalizeLineProperties (al_Properties in_));
  addOnsKey ← tx_of (normalizeAddOns (al_AddOns in_));
  let addOns := addOnsKey.1 in
  let key := addOnsKey.2 in
  r ← mutate cartID (fun cart =>
    found ← tx_try (db_GetLineItemByVariant db (cart_ID cart) (al_VariantID in_) props key);
    match found with
    | Ok existing =>
        tx_check (if MaxQuantity -₆₄ al_Quantity in_ <? li_Quantity existing then
            Some (Invalid CodeInvalidInput
              "the line quantity exceeds the limit once merged: %d + %d > %d"
              [AInt (li_Quantity existing); AInt (al_Quantity in_); AInt MaxQuantity])
          else None) ;;
        item ← db_SetLineItemQuantity db (cart_ID cart) (li_ID existing)
          (li_Quantity existing +₆₄ al_Quantity in_) now;
        (if bool_decide (key = EmptyString) then mret tt
         else tx_do (db_SetAddOnQuantities db (cart_ID cart) (li_ID existing) (li_Quantity item) now)) ;;
        mret item
    | Fail e =>
        if IsNotFound (Some e) then
          lines ← tx_read (db_CountLineItems db (cart_ID cart));
          item ← openLine (opened (newID 0) (cart_ID cart) (al_VariantID in_) title
            (al_Quantity in_) (al_UnitPrice in_) (al_Metadata in_) props None key) lines;
          open_add_ons (cart_ID cart) (li_ID item) (al_Quantity in_) lines 0 addOns ;;
          mret item
        else tx_of (Fail e)
    end);
  mret r.2.

Definition UpdateLineItemQuantity (cartID lineID : string) (quantity : Z) : tx St LineItem :=
  tx_check (requireID "line_item_id" lineID) ;;
  tx_check (checkQuantity quantity) ;;
  r ← mutate cartID (fun cart =>
    line ← tx_read (db_GetLineItem db (cart_ID cart) lineID);
    tx_check (if bool_decide (li_ParentLineID line <> None) then Some (addOnFollows lineID)
              else None) ;;
    item ← db_SetLineItemQuantity db (cart_ID cart) lineID quantity now;
    (if bool_decide (li_AddOnKey line = EmptyString) then mret tt
     else tx_do (db_SetAddOnQuantities db (cart_ID cart) lineID quantity now)) ;;
    mret item);
  mret r.2.

Definition RemoveLineItem (cartID lineID : string) : tx St unit :=
  tx_check (requireID "line_item_id" lineID) ;;
  r ← mutate cartID (fun cart =>
    line ← tx_read (db_GetLineItem db (cart_ID cart) lineID);
    tx_check (if bool_decide (li_ParentLineID line <> None) then Some (addOnFollows lineID)
              else None) ;;
    (if bool_decide (li_AddOnKey line = EmptyString) then mret tt
     else tx_do (db_SoftDeleteAddOnLines db (cart_ID cart) lineID now)) ;;
    tx_do (db_SoftDeleteLineItem db (cart_ID cart) lineID now));
  mret r.2.

(** ** Shipping methods, coupon codes, addresses *)

Definition AddShippingMethod (cartID : string) (in_ : AddShippingMethodInput) :
    tx St ShippingMethod :=
  let name := TrimSpace (as_Name in_) in
  tx_check (requireText "name" name) ;;
  tx_check (optionalID "shipping_option_id" (as_ShippingOptionID in_)) ;;
  tx_check (checkAmount "amount" (as_Amount in_) MaxAmount) ;;
  r ← mutate cartID (fun cart =>
    db_CreateShippingMethod db
      (mkShippingMethod (newID 0) (cart_ID cart) name (as_ShippingOptionID in_) (as_Amount in_)
        (as_Data in_) zero_time zero_time) now);
  mret r.2.

Definition RemoveShippingMethod (cartID methodID : string) : tx St unit :=
  tx_check (requireID "shipping_method_id" methodID) ;;
  r ← mutate cartID (fun cart => tx_do (db_SoftDeleteShippingMethod db (cart_ID cart) methodID now));
  mret r.2.

Definition AddPromotionCode (cartID code : string) : tx St (list string) :=
  normalized ← tx_of (normalizePromotionCode code);
  r ← mutate cartID (fun cart =>
    existing ← tx_read (db_ListPromotionCodes db (cart_ID cart));
    if bool_decide (normalized ∈ existing) then mret existing
    else
      tx_check (if MaxPromotionCodes <=? Z.of_nat (length existing) then
          Some (Invalid CodeTooManyPromotionCodes "the cart can hold at most %d coupon codes"
            [AInt MaxPromotionCodes])
        else None) ;;
      tx_do (db_AddPromotionCode db (cart_ID cart) normalized now) ;;
      tx_read (db_ListPromotionCodes db (cart_ID cart)));
  mret r.2.

Definition RemovePromotionCode (cartID code : string) : tx St unit :=
  normalized ← tx_of (normalizePromotionCode code);
  r ← mutate cartID (fun cart => tx_do (db_RemovePromotionCode db (cart_ID cart) normalized));
  mret r.2.

Definition setAddress (cartID : string) (kind : AddressType) (in_ : AddressInput) :
    tx St CartAddress :=
  tx_check (optionalID "source_address_id" (ia_SourceAddressID in_)) ;;
  country ← tx_of (normalizeCountry (ia_CountryCode in_));
  tx_check (first_error
    [checkTextLen "first_name" (ia_FirstName in_); checkTextLen "last_name" (ia_LastName in_);
     checkTextLen "company" (ia_Company in_); checkTextLen "address_1" (ia_Address1 in_);
     checkTextLen "address_2" (ia_Address2 in_); checkTextLen "city" (ia_City in_);
     checkTextLen "province" (ia_Province in_); checkTextLen "postal_code" (ia_PostalCode in_);
     checkTextLen "phone" (ia_Phone in_)]) ;;
  r ← mutate cartID (fun cart =>
    db_UpsertCartAddress db
      (mkCartAddress (newID 0) (cart_ID cart) kind (ia_SourceAddressID in_)
        (TrimSpace (ia_FirstName in_)) (TrimSpace (ia_LastName in_)) (TrimSpace (ia_Company in_))
        (TrimSpace (ia_Address1 in_)) (TrimSpace (ia_Address2 in_)) (TrimSpace (ia_City in_))
        (TrimSpace (ia_Province in_)) (TrimSpace (ia_PostalCode in_)) country
        (TrimSpace (ia_Phone in_)) (ia_Metadata in_) zero_time zero_time) now);
  mret r.2.

Definition SetShippingAddress (cartID : string) := setAddress cartID AddressShipping.
Definition SetBillingAddress (cartID : string) := setAddress cartID AddressBilling.

(** ** Totals: [totals.go] *)

Definition SetTotals (cartID : string) (in_ : Totals) : tx St unit :=
  tx_check (requireID "cart_id" cartID) ;;
  tx_check (validateCartTotals in_) ;;
  WithTx (
    cart ← tx_read (db_LockCart db cartID);
    tx_check (if Completed cart then Some (completedError (cart_ID cart)) else None) ;;
    tx_check (if negb (cart_Revision cart =? to_Revision in_) then
        Some (Conflict CodeTotalsStale
          "the calculation does not belong to the cart's current shape: it was made for %d, the cart is at %d; calculate_totals must be run again"
          [AInt (to_Revision in_); AInt (cart_Revision cart)])
      else None) ;;
    stored ← tx_read (db_ListLineItems db (cart_ID cart));
    applied ← tx_of (applyLineTotals stored (to_Lines in_) (to_PricesIncludeTax in_));
    sum ← tx_of (sumSubtotals applied);
    tx_check (if negb (to_Subtotal in_ =? sum) then
        Some (Invalid CodeTotalsInconsistent
          "the cart subtotal must equal the sum of the line subtotals: %d given, the lines come to %d"
          [AInt (to_Subtotal in_); AInt sum])
      else None) ;;
    tx_do (db_SetLineItemTotals db (cart_ID cart) (storeLineTotals (to_Lines in_)) now) ;;
    _ ← db_UpdateCartTotals db (cart_ID cart)
      (mkCartTotals (to_Subtotal in_) (to_DiscountTotal in_) (to_TaxTotal in_)
        (to_ShippingTotal in_) (to_Total in_) (to_Revision in_) (to_PricesIncludeTax in_)) now;
    mret tt).
End Operations.

(** * Merging two carts: [internal/modules/cart/service/merge.go]

    A shopper's cart is folded into another: quantities of lines the target already holds are
    summed, other lines are opened on it with their add-ons, coupon codes follow, and the source is
    deleted. *)

Definition CodeRegionMismatch : string := "cart_region_mismatch".
Definition CodeCurrencyMismatch : string := "cart_currency_mismatch".
Definition CodeAdditionMismatch : string := "cart_addition_mismatch".

Definition mergeable (source target : Cart) : option err :=
  if Completed source then Some (completedError (cart_ID source))
  else if Completed target then Some (completedError (cart_ID target))
  else if negb (bool_decide (cart_RegionID source = cart_RegionID target)) then
    Some (Conflict CodeRegionMismatch "the carts are in different regions: %s and %s"
      [AStr (cart_RegionID source); AStr (cart_RegionID target)])
  else if negb (bool_decide (cart_CurrencyCode source = cart_CurrencyCode target)) then
    Some (Conflict CodeCurrencyMismatch "the carts are in different currencies: %s and %s"
      [AStr (cart_CurrencyCode source); AStr (cart_CurrencyCode target)])
  else if bool_decide (cart_CustomerID source <> EmptyString /\
      cart_CustomerID source <> cart_CustomerID target) then
    Some (Conflict CodeCustomerMismatch "the cart belongs to another customer: %s (merging into: %s)"
      [AStr (cart_CustomerID source); AStr (cart_CustomerID target)])
  else if negb (bool_decide (cart_AddsToOrderID source = cart_AddsToOrderID target)) then
    Some (Conflict CodeAdditionMismatch "the carts do not add to the same order: %q and %q"
      [AStr (cart_AddsToOrderID source); AStr (cart_AddsToOrderID target)])
  else None.

Definition roots_of (lines : list LineItem) : gset string :=
  list_to_set (li_ID <$> filter (fun l => li_ParentLineID l = None) lines).

(** The add-ons under their line, in the order of the listing. *)
Fixpoint group_add_ons (roots : gset string) (acc : gmap string (list LineItem))
    (lines : list LineItem) : result (gmap string (list LineItem)) :=
  match lines with
  | [] => Ok acc
  | l :: rest =>
      match li_ParentLineID l with
      | None => group_add_ons roots acc rest
      | Some parent =>
          if negb (bool_decide (parent ∈ roots)) then
            Fail (Internal CodeInvalidInput
              "the add-on line %s names %s, which the merge did not carry"
              [AStr (li_ID l); AStr parent])
          else group_add_ons roots (<[parent := default [] (acc !! parent) ++ [l]]> acc) rest
      end
  end.

Section Merge.
Context {St : Type} (svc : Service St) (now : moment) (newID : nat -> string).

Let db : Store St := svc_store svc.

Definition lockPair (sourceID targetID : string) : tx St (Cart * Cart) :=
  if 0 <? cmpS sourceID targetID then
    former ← tx_read (db_LockCart db targetID);
    latter ← tx_read (db_LockCart db sourceID);
    mret (latter, former)
  else
    former ← tx_read (db_LockCart db sourceID);
    latter ← tx_read (db_LockCart db targetID);
    mret (former, latter).

(** [n] identifiers were drawn and the cart holds [held] lines. *)
Fixpoint fold_add_ons (target parent : string) (n : nat) (held : Z) (addOns : list LineItem) :
    tx St unit :=
  match addOns with
  | [] => mret tt
  | a :: rest =>
      _ ← openLine svc now (opened (newID n) target (li_VariantID a) (li_Title a) (li_Quantity a)
        (li_UnitPrice a) (li_Metadata a) (li_Properties a) (Some parent) EmptyString) held;
      fold_add_ons target parent (S n) (held + 1) rest
  end.

Fixpoint fold_lines (target : string) (addOnsOf : gmap string (list LineItem)) (n : nat) (held : Z)
    (lines : list LineItem) : tx St unit :=
  match lines with
  | [] => mret tt
  | line :: rest =>
      if bool_decide (li_ParentLineID line <> None) then fold_lines target addOnsOf n held rest
      else
        found ← tx_try (db_GetLineItemByVariant db target (li_VariantID line) (li_Properties line)
          (li_AddOnKey line));
        match found with
        | Ok existing =>
            tx_check (if MaxQuantity -₆₄ li_Quantity line <? li_Quantity existing then
                Some (Invalid CodeInvalidInput
                  "the line quantity exceeds the limit once merged: %d + %d > %d"
                  [AInt (li_Quantity existing); AInt (li_Quantity line); AInt MaxQuantity])
              else None) ;;
            let summed := li_Quantity existing +₆₄ li_Quantity line in
            _ ← db_SetLineItemQuantity db target (li_ID existing) summed now;
            (if bool_decide (li_AddOnKey line = EmptyString) then mret tt
             else tx_do (db_SetAddOnQuantities db target (li_ID existing) summed now)) ;;
            fold_lines target addOnsOf n held rest
        | Fail e =>
            if IsNotFound (Some e) then
              created ← openLine svc now (opened (newID n) target (li_VariantID line)
                (li_Title line) (li_Quantity line) (li_UnitPrice line) (li_Metadata line)
                (li_Properties line) None (li_AddOnKey line)) held;
              let addOns := default [] (addOnsOf !! li_ID line) in
              fold_add_ons target (li_ID created) (S n) (held + 1) addOns ;;
              fold_lines target addOnsOf (S n + length addOns)
                (held + 1 + Z.of_nat (length addOns)) rest
            else tx_of (Fail e)
        end
  end.

Definition foldLines (source target : Cart) : tx St Z :=
  lines ← tx_read (db_ListLineItems db (cart_ID source));
  addOnsOf ← tx_of (group_add_ons (roots_of lines) ∅ lines);
  held ← tx_read (db_CountLineItems db (cart_ID target));
  fold_lines (cart_ID target) addOnsOf 0 held lines ;;
  mret (Z.of_nat (length lines)).

Fixpoint fold_codes (target : string) (already : gset string) (moved : Z) (codes : list string) :
    tx St Z :=
  match codes with
  | [] => mret moved
  | code :: rest =>
      if bool_decide (code ∈ already) then fold_codes target already moved rest
      else
        tx_check (if MaxPromotionCodes <=? Z.of_nat (size already) + moved then
            Some (Invalid CodeTooManyPromotionCodes
              "the merged cart would hold more than %d coupon codes" [AInt MaxPromotionCodes])
          else None) ;;
        tx_do (db_AddPromotionCode db target code now) ;;
        fold_codes target already (moved + 1) rest
  end.

Definition foldCodes (source target : Cart) : tx St Z :=
  codes ← tx_read (db_ListPromotionCodes db (cart_ID source));
  if bool_decide (codes = []) then mret 0
  else
    held ← tx_read (db_ListPromotionCodes db (cart_ID target));
    fold_codes (cart_ID target) (list_to_set held) 0 codes.

Definition closeSource (sourceID : string) : tx St unit :=
  tx_do (db_SoftDeleteLineItemsByCart db sourceID now) ;;
  tx_do (db_SoftDeleteCartAddressesByCart db sourceID now) ;;
  tx_do (db_SoftDeleteShippingMethodsByCart db sourceID now) ;;
  tx_do (db_DeletePromotionCodesByCart db sourceID) ;;
  tx_do (db_SoftDeleteCart db sourceID now).

Definition MergeCart (sourceID targetID : string) : tx St Cart :=
  tx_check (requireID "source_cart_id" sourceID) ;;
  tx_check (requireID "target_cart_id" targetID) ;;
  tx_check (if bool_decide (sourceID = targetID) then
      Some (Invalid CodeInvalidInput "a cart cannot be merged into itself: %s" [AStr sourceID])
    else None) ;;
  WithTx svc (
    pair ← lockPair sourceID targetID;
    let source := pair.1 in
    let target := pair.2 in
    tx_check (mergeable source target) ;;
    moved ← foldLines source target;
    codes ← foldCodes source target;
    closeSource (cart_ID source) ;;
    if moved + codes =? 0 then mret target
    else db_BumpCartRevision db (cart_ID target) now).
End Merge.

(** * Erasure and retention: [erasure.go], [retention.go], [core/personaldata/personaldata.go] *)

Module PersonalData.
Inductive Kind := Named | Open.
Inductive OnErasure := Emptied | Kept.
Inductive Outcome := Deleted | Anonymized | Retained.

Record Subject := mkSubject { sb_CustomerID : string; sb_Email : string }.

Record Result := mkResult {
  rs_Holder : string;
  rs_Outcome : Outcome;
  rs_Rows : Z;
  rs_Kept : list string;
  rs_Why : string
}.

Record Holding := mkHolding {
  hd_Table : string;
  hd_Column : string;
  hd_Kind : Kind;
  hd_Why : string;
  hd_OnErasure : OnErasure
}.

Definition Path (h : Holding) : string := String.append (hd_Table h) (String.append "." (hd_Column h)).

#[export] Instance on_erasure_eq_dec : EqDecision OnErasure.
Proof. solve_decision. Defined.

Definition KeptOnErasure (holdings : list Holding) : list string :=
  Path <$> filter (fun h => hd_OnErasure h = Kept) holdings.
End PersonalData.
Import PersonalData.

Definition ErasureHolder : string := "cart".
Definition CodeErasureSubjectEmpty : string := "cart_erasure_subject_empty".
Definition tableCarts : string := "carts".
Definition tableCartLineItems : string := "cart_line_items".
Definition tableCartAddresses : string := "cart_addresses".
Definition tableCartShippingMethods : string := "cart_shipping_methods".
Definition columnMetadata : string := "metadata".
Definition columnProperties : string := "properties".
Definition columnShippingData : string := "data".
Definition columnCustomerID : string := "customer_id".
Definition columnEmail : string := "email".
Definition columnSourceAddressID : string := "source_address_id".
Definition columnFirstName : string := "first_name".
Definition columnLastName : string := "last_name".
Definition columnCompany : string := "company".
Definition columnAddress1 : string := "address_1".
Definition columnAddress2 : string := "address_2".
Definition columnCity : string := "city".
Definition columnProvince : string := "province".
Definition columnPostalCode : string := "postal_code".
Definition columnCountryCode : string := "country_code".
Definition columnPhone : string := "phone".

Definition personalColumns : list Holding :=
  [mkHolding tableCarts columnCustomerID Named
     "the customer module's identifier for the shopper; a guest cart has none" Kept;
   mkHolding tableCarts columnEmail Named
     "the address the shopper gave; on a guest cart it is the only handle to them" Emptied;
   mkHolding tableCarts columnMetadata Open
     "the caller's own data on the cart; gobit does not look inside it" Kept;
   mkHolding tableCartLineItems columnMetadata Open
     "the caller's own data on a line — a personalisation, an engraving, a gift note" Kept;
   mkHolding tableCartLineItems columnProperties Open
     "what the shopper wrote on a line — an engraving, a gift message; it may name somebody" Kept;
   mkHolding tableCartAddresses columnSourceAddressID Named
     "which entry of the shopper's address book this copy was taken from" Emptied;
   mkHolding tableCartAddresses columnFirstName Named
     "the shopper's given name as it was written on the cart" Emptied;
   mkHolding tableCartAddresses columnLastName Named
     "the shopper's family name as it was written on the cart" Emptied;
   mkHolding tableCartAddresses columnCompany Named
     "the company on the address; a one-person business is a person" Emptied;
   mkHolding tableCartAddresses columnAddress1 Named
     "the street the cart would have been shipped to or billed to" Emptied;
   mkHolding tableCartAddresses columnAddress2 Named
     "the rest of the street address — the building, the floor, the flat" Emptied;
   mkHolding tableCartAddresses columnCity Named
     "the city of the address" Emptied;
   mkHolding tableCartAddresses columnProvince Named
     "the province of the address, the unit under the country (ADR 0067)" Emptied;
   mkHolding tableCartAddresses columnPostalCode Named
     "the postal code, which in a small district reaches a household on its own" Emptied;
   mkHolding tableCartAddresses columnCountryCode Named
     "the country the cart was addressed to; it is the one address column the erasure keeps" Kept;
   mkHolding tableCartAddresses columnPhone Named
     "the number given for the delivery" Emptied;
   mkHolding tableCartAddresses columnMetadata Open
     "the caller's own data on the address — delivery instructions are typed here" Kept;
   mkHolding tableCartShippingMethods columnShippingData Open
     "the delivery provider's own data on the chosen method — a pickup branch or a locker is typed here" Kept].

Definition keptAfterAnonymize : list string := KeptOnErasure personalColumns.

Definition whyAnonymized : string :=
  "the name, address and phone on every cart of this person were set to NULL along with the e-mail on the cart itself, and what is listed stayed: gobit never rewrites a free-form column, because ADR 0029 leaves the judgement of whether a metadata blob holds personal data in this deployment with the controller; carts.customer_id stayed because it is the handle by which a repeated request finds these carts again, and it reaches the person only through the customer module's record, which answers the same request on its own account; cart_addresses.country_code stayed so that the surviving row is still readable as an address the cart HAD, which a deleted row could not be, and a country does not identify anybody on its own.".

(** [erasureResult]: [carts] is how many were found. *)
Definition erasureResult (rows : Z) (carts : nat) : Result :=
  match carts with
  | O => mkResult ErasureHolder Anonymized rows [] EmptyString
  | _ => mkResult ErasureHolder Anonymized rows keptAfterAnonymize whyAnonymized
  end.

Section Erasure.
Context {St : Type} (svc : Service St) (now : moment).

Let db : Store St := svc_store svc.

Definition normalizeSubject (subject : Subject) (emptyCode request : string) : result (string * string) :=
  check optionalID "customer_id" (sb_CustomerID subject) ;;
  email ← normalizeEmail (svc_ToLower svc) (sb_Email subject);
  if bool_decide (sb_CustomerID subject = EmptyString) && bool_decide (email = EmptyString)
  then Fail (Invalid emptyCode "%s has to name somebody: give a customer id, an e-mail address, or both" [AStr request])
  else Ok (sb_CustomerID subject, email).

Definition normalizeErasureSubject (subject : Subject) : result (string * string) :=
  normalizeSubject subject CodeErasureSubjectEmpty "an erasure request".

Definition Erase (subject : Subject) : tx St Result :=
  who ← tx_of (normalizeErasureSubject subject);
  out ← WithTx svc (
    ids ← tx_read (db_CartsForErasure db who.1 who.2);
    match ids with
    | [] => mret (0, 0%nat)
    | _ =>
        contacts ← db_AnonymizeCartContacts db ids now;
        addresses ← db_AnonymizeCartAddresses db ids now;
        mret ((contacts +₆₄ addresses), length ids)
    end);
  mret (erasureResult out.1 out.2).

(** [at_] is the caller's clock. *)
Definition DeleteAbandonedCarts (at_ : moment) (limit : Z) : tx St Z :=
  if (svc_retention svc =? 0) || (limit <=? 0) then mret 0
  else fun st =>
    match db_DeleteAbandonedCarts db (at_ - svc_retention svc) limit st with
    | Ok (st', deleted) => (st', Ok deleted)
    | Fail e => (st, Fail e)
    end.

Definition AbandonedCartsExpire : bool := 0 <? svc_retention svc.
End Erasure.

(** * What the service relies on of its store

    [view] is what the tables show: the living carts, each with its living rows. The laws say what
    a statement that succeeded did to it, after [internal/modules/cart/queries/*.sql]; a statement
    that failed is covered by the rollback. The place a new row takes in a listing is left open. *)

Definition shows {St} (view : St -> gmap string CartView) (st st' : St) (id : string)
    (v' : CartView) : Prop := view st' = <[id := v']> (view st).

Class CartLaws {St} (svc : Service St) (view : St -> gmap string CartView) := {
  law_lock id st c : db_LockCart (svc_store svc) id st = Ok c ->
    exists v, view st !! id = Some v /\ cv_cart v = c /\ cart_ID c = id;
  law_get id st c : db_GetCart (svc_store svc) id st = Ok c ->
    exists v, view st !! id = Some v /\ cv_cart v = c;
  law_list_methods id st k v : view st !! id = Some v ->
    db_ListShippingMethods (svc_store svc) id st = Ok k -> k = cv_methods v;
  law_create_cart c now st st' r : db_CreateCart (svc_store svc) c now st = (st', Ok r) ->
    r = new_row c now /\ view st !! cart_ID c = None /\
    shows view st st' (cart_ID c) (mkCartView (new_row c now) [] [] [] []);
  law_contact id contact now st st' r v : view st !! id = Some v ->
    db_UpdateCartContact (svc_store svc) id contact now st = (st', Ok r) ->
    shows view st st' id (on_cart (with_contact contact now) v);
  law_totals id t now st st' r v : view st !! id = Some v ->
    db_UpdateCartTotals (svc_store svc) id t now st = (st', Ok r) ->
    shows view st st' id (on_cart (with_totals t now) v);
  law_bump id now st st' r v : view st !! id = Some v ->
    db_BumpCartRevision (svc_store svc) id now st = (st', Ok r) ->
    r = bumped now (cv_cart v) /\ shows view st st' id (on_cart (bumped now) v);
  law_complete id now st st' r v : view st !! id = Some v ->
    db_MarkCartCompleted (svc_store svc) id now st = (st', Ok r) ->
    r = stamped_completed now (cv_cart v) /\ shows view st st' id (on_cart (stamped_completed now) v);
  law_delete_cart id now st st' : db_SoftDeleteCart (svc_store svc) id now st = (st', None) ->
    view st' = delete id (view st);
  law_create_line item now st st' r v : view st !! li_CartID item = Some v ->
    db_CreateLineItem (svc_store svc) item now st = (st', Ok r) ->
    r = new_line item now /\ li_ID item ∉ li_ID <$> cv_lines v /\
    exists ls, ls ≡ₚ new_line item now :: cv_lines v /\
      shows view st st' (li_CartID item) (on_lines (fun _ => ls) v);
  law_get_line id line st l v : view st !! id = Some v ->
    db_GetLineItem (svc_store svc) id line st = Ok l -> l ∈ cv_lines v /\ li_ID l = line;
  law_by_variant id variant props key st l v : view st !! id = Some v ->
    db_GetLineItemByVariant (svc_store svc) id variant props key st = Ok l ->
    l ∈ cv_lines v /\ has_identity variant props key l;
  law_no_variant id variant props key st e v : view st !! id = Some v ->
    db_GetLineItemByVariant (svc_store svc) id variant props key st = Fail e ->
    IsNotFound (Some e) = true -> Forall (fun l => ~ has_identity variant props key l) (cv_lines v);
  law_list_lines id st ls v : view st !! id = Some v ->
    db_ListLineItems (svc_store svc) id st = Ok ls -> ls = cv_lines v;
  law_count_lines id st n v : view st !! id = Some v ->
    db_CountLineItems (svc_store svc) id st = Ok n -> n = Z.of_nat (length (cv_lines v));
  law_set_quantity id line q now st st' r v : view st !! id = Some v ->
    db_SetLineItemQuantity (svc_store svc) id line q now st = (st', Ok r) ->
    (exists l, l ∈ cv_lines v /\ li_ID l = line /\ r = with_quantity q now l) /\
    shows view st st' id (on_lines (fmap (set_quantity_of line q now)) v);
  law_add_on_quantities id parent q now st st' v : view st !! id = Some v ->
    db_SetAddOnQuantities (svc_store svc) id parent q now st = (st', None) ->
    shows view st st' id (on_lines (fmap (set_add_on_quantity parent q now)) v);
  law_delete_add_ons id parent now st st' v : view st !! id = Some v ->
    db_SoftDeleteAddOnLines (svc_store svc) id parent now st = (st', None) ->
    shows view st st' id (on_lines (filter (fun l => ~ is_add_on_of parent l)) v);
  law_delete_line id line now st st' v : view st !! id = Some v ->
    db_SoftDeleteLineItem (svc_store svc) id line now st = (st', None) ->
    shows view st st' id (on_lines (filter (fun l => ~ is_line line l)) v);
  law_delete_lines id now st st' v : view st !! id = Some v ->
    db_SoftDeleteLineItemsByCart (svc_store svc) id now st = (st', None) ->
    shows view st st' id (on_lines (fun _ => []) v);
  law_set_totals id rows now st st' v : view st !! id = Some v ->
    db_SetLineItemTotals (svc_store svc) id rows now st = (st', None) ->
    shows view st st' id (on_lines (fmap (set_totals_of rows now)) v);
  law_address a now st st' r v : view st !! ad_CartID a = Some v ->
    db_UpsertCartAddress (svc_store svc) a now st = (st', Ok r) ->
    exists k, k ≡ₚ r :: filter (fun x => ad_Type x <> ad_Type a) (cv_addresses v) /\
      shows view st st' (ad_CartID a) (on_addresses (fun _ => k) v);
  law_delete_addresses id now st st' v : view st !! id = Some v ->
    db_SoftDeleteCartAddressesByCart (svc_store svc) id now st = (st', None) ->
    shows view st st' id (on_addresses (fun _ => []) v);
  law_create_method m now st st' r v : view st !! sm_CartID m = Some v ->
    db_CreateShippingMethod (svc_store svc) m now st = (st', Ok r) ->
    exists k, k ≡ₚ r :: cv_methods v /\ shows view st st' (sm_CartID m) (on_methods (fun _ => k) v);
  law_delete_method id m now st st' v : view st !! id = Some v ->
    db_SoftDeleteShippingMethod (svc_store svc) id m now st = (st', None) ->
    shows view st st' id (on_methods (filter (fun x => sm_ID x <> m)) v);
  law_delete_methods id now st st' v : view st !! id = Some v ->
    db_SoftDeleteShippingMethodsByCart (svc_store svc) id now st = (st', None) ->
    shows view st st' id (on_methods (fun _ => []) v);
  law_add_code id code now st st' v : view st !! id = Some v -> code ∉ cv_codes v ->
    db_AddPromotionCode (svc_store svc) id code now st = (st', None) ->
    exists k, k ≡ₚ code :: cv_codes v /\ shows view st st' id (on_codes (fun _ => k) v);
  law_list_codes id st k v : view st !! id = Some v ->
    db_ListPromotionCodes (svc_store svc) id st = Ok k -> k = cv_codes v;
  law_remove_code id code st st' v : view st !! id = Some v ->
    db_RemovePromotionCode (svc_store svc) id code st = (st', None) ->
    shows view st st' id (on_codes (filter (fun c => c <> code)) v);
  law_delete_codes id st st' v : view st !! id = Some v ->
    db_DeletePromotionCodesByCart (svc_store svc) id st = (st', None) ->
    shows view st st' id (on_codes (fun _ => []) v);
  law_outbox eid name payload st st' :
    db_WriteOutboxEvent (svc_store svc) eid name payload st = (st', None) -> view st' = view st;
  law_publish e st : view (svc_Publish svc e st).1 = view st;
  (* what an erasure reads may name carts that are deleted already, which the view does not show *)
  law_for_erasure customerID email st ids : db_CartsForErasure (svc_store svc) customerID email st = Ok ids ->
    forall id v, view st !! id = Some v -> id ∈ ids <-> of_subject customerID email (cv_cart v) = true;
  law_anonymize_contacts ids now st st' n : db_AnonymizeCartContacts (svc_store svc) ids now st = (st', Ok n) ->
    view st' = on_carts ids (on_cart (without_email now)) (view st);
  law_anonymize_addresses ids now st st' n : db_AnonymizeCartAddresses (svc_store svc) ids now st = (st', Ok n) ->
    view st' = on_carts ids (on_addresses (fmap (anonymous_address now))) (view st);
  (* rows another transaction holds are left for the next run, so that not every old cart need be among them *)
  law_delete_abandoned cutoff limit st st' n : 0 <= limit ->
    db_DeleteAbandonedCarts (svc_store svc) cutoff limit st = Ok (st', n) ->
    exists gone : gset string, Z.of_nat (size gone) <= n <= limit /\
      view st' = filter (fun p => p.1 ∉ gone) (view st) /\
      forall id, id ∈ gone -> exists v, view st !! id = Some v /\ Completed (cv_cart v) = false /\
        cart_UpdatedAt (cv_cart v) < cutoff
}.
