(* ===== verification/CartLines.v ===== *)
(** * The operations refine the account

    Over any store that keeps [CartLaws], a call that succeeds is a [step] of CartMoves on the carts
    the tables show, and what it is is said operation by operation. *)
From S2P Require Import Prelude GoText Errors Tx CartModels CartTotals CartStore CartMoves CartService.
Set Warnings "-level-tolerance".

Section Refine.
Context {St : Type} (svc : Service St) (view : St -> gmap string CartView) `{!CartLaws svc view}.
Context (now : moment) (newID : nat -> string).
Implicit Types (st : St) (v : CartView).

Lemma shows_lookup st st' id v : shows view st st' id v -> view st' !! id = Some v.
Proof. unfold shows. intros ->. apply lookup_insert_eq. Qed.

Lemma shows_trans st st1 st2 id v v' :
  shows view st st1 id v -> shows view st1 st2 id v' -> shows view st st2 id v'.
Proof. unfold shows. intros ->. by rewrite insert_insert_eq. Qed.

Lemma shows_refl st id v : view st !! id = Some v -> shows view st st id v.
Proof. unfold shows. intros H. by rewrite insert_id. Qed.

(** The state shows the carts of [st], with [v'] under [id] such that [E v']. *)
Definition edited st id (E : CartView -> Prop) st' : Prop :=
  exists v', shows view st st' id v' /\ E v'.

Lemma mutate_yields {A} id (fn : Cart -> tx St A) st (E : CartView -> A -> CartView -> Prop) :
  (forall v, view st !! id = Some v -> cart_ID (cv_cart v) = id -> is_open v ->
    yields st (fn (cv_cart v)) (fun a => edited st id (E v a))) ->
  yields st (mutate svc now id fn) (fun r st' => exists v v', view st !! id = Some v /\ is_open v /\
    cart_ID (cv_cart v) = id /\ E v r.2 v' /\ shows view st st' id (on_cart (bumped now) v')).
Proof.
  intros Hfn. unfold mutate. tx_step. unfold WithTx. tx_step. tx_step. tx_step.
  match goal with H : db_LockCart _ _ _ = Ok _ |- _ => apply law_lock in H as (v & Hv & <- & Hid) end.
  tx_step. assert (is_open v) as Hopen by (unfold is_open; by destruct (Completed (cv_cart v))).
  apply yields_bind. eapply yields_mono; [by apply Hfn|].
  intros a st1 (v' & Hs & He). apply yields_bind. intros st2 c Hb.
  apply (law_bump _ _ _ _ _ v') in Hb as [_ Hs']; [|by eapply shows_lookup].
  apply yields_ret. exists v, v'. split_and!; try done. by eapply shows_trans.
Qed.

(** A body made of edits. *)
Lemma edits_step st st' id v v' : view st !! id = Some v -> is_open v -> rtc (edit now) v v' ->
  shows view st st' id (on_cart (bumped now) v') -> step now (view st) (view st').
Proof. unfold shows. intros Hv Ho He ->. eapply st_move; [done|]. by constructor. Qed.

Lemma mutate_step {A} id (fn : Cart -> tx St A) st :
  (forall v, view st !! id = Some v -> cart_ID (cv_cart v) = id -> is_open v ->
    yields st (fn (cv_cart v)) (fun _ => edited st id (rtc (edit now) v))) ->
  yields st (mutate svc now id fn) (fun _ st' => step now (view st) (view st')).
Proof.
  intros H. eapply yields_mono; [by apply (mutate_yields id fn st (fun v _ => rtc (edit now) v))|].
  intros r st' (v & v' & Hv & Ho & _ & He & Hs). by eapply edits_step.
Qed.

(** ** The cart's row *)

Lemma CreateCart_step in_ st : carts_ok (view st) ->
  yields st (CreateCart svc now newID in_) (fun _ st' => step now (view st) (view st')).
Proof.
  intros _. unfold CreateCart. do 5 tx_step. do 4 tx_step. apply yields_bind. unfold WithTx. tx_step.
  apply yields_bind. intros st1 c [-> [Hfresh Hs]]%law_create_cart.
  unfold recordCartEvent. tx_step. tx_step.
  match goal with H : db_WriteOutboxEvent _ _ _ _ _ = _ |- _ => apply law_outbox in H as Ho end.
  apply yields_ret. apply yields_bind. intros st3 [] [= <-]. apply yields_ret.
  rewrite law_publish, Ho, Hs. by apply st_create.
Qed.

Lemma UpdateCart_step in_ id st : carts_ok (view st) ->
  yields st (UpdateCart svc now id in_) (fun _ st' => step now (view st) (view st')).
Proof.
  intros _. unfold UpdateCart. do 2 tx_step. do 2 tx_step. apply yields_part, mutate_step.
  intros v Hv Hid Ho. tx_step. apply yields_bind. intros st1 c Hc. rewrite Hid in Hc.
  eapply law_contact in Hc; [|exact Hv]. apply yields_ret. eexists. split; [exact Hc|]. apply rtc_once. constructor.
Qed.

(** A cart with everything under it is deleted. *)
Lemma delete_all_yields id st v : view st !! id = Some v ->
  yields st (
    tx_do (db_SoftDeleteLineItemsByCart (svc_store svc) id now) ;;
    tx_do (db_SoftDeleteCartAddressesByCart (svc_store svc) id now) ;;
    tx_do (db_SoftDeleteShippingMethodsByCart (svc_store svc) id now) ;;
    tx_do (db_DeletePromotionCodesByCart (svc_store svc) id) ;;
    tx_do (db_SoftDeleteCart (svc_store svc) id now))
    (fun _ st' => view st' = delete id (view st)).
Proof.
  intros Hv.
  tx_step. tx_step. match goal with H : _ = (_, None) |- _ => eapply law_delete_lines in H as S1; [|exact Hv] end.
  tx_step. tx_step. match goal with H : db_SoftDeleteCartAddressesByCart _ _ _ _ = _ |- _ =>
    eapply law_delete_addresses in H as S2; [|by eapply shows_lookup] end.
  tx_step. tx_step. match goal with H : db_SoftDeleteShippingMethodsByCart _ _ _ _ = _ |- _ =>
    eapply law_delete_methods in H as S3; [|by eapply shows_lookup] end.
  tx_step. tx_step. match goal with H : db_DeletePromotionCodesByCart _ _ _ = _ |- _ =>
    eapply law_delete_codes in H as S4; [|by eapply shows_lookup] end.
  tx_step. match goal with H : db_SoftDeleteCart _ _ _ _ = _ |- _ => apply law_delete_cart in H as S5 end.
  pose proof (shows_trans _ _ _ _ _ _ (shows_trans _ _ _ _ _ _ (shows_trans _ _ _ _ _ _ S1 S2) S3) S4) as S.
  by rewrite S5, S, delete_insert_eq.
Qed.

Lemma DeleteCart_step id st : carts_ok (view st) ->
  yields st (DeleteCart svc now id) (fun _ st' => step now (view st) (view st')).
Proof.
  intros _. unfold DeleteCart. tx_step. unfold WithTx. do 3 tx_step.
  match goal with H : db_LockCart _ _ _ = Ok _ |- _ => apply law_lock in H as (v & Hv & <- & Hid) end.
  tx_step. assert (is_open v) as Hopen by (unfold is_open; by destruct (Completed (cv_cart v))).
  eapply yields_mono; [by eapply delete_all_yields|]. intros [] st' ->. by eapply st_delete.
Qed.

Lemma MarkCompleted_step clock id st : carts_ok (view st) ->
  yields st (MarkCompleted svc now clock id) (fun _ st' => step now (view st) (view st')).
Proof.
  intros _. unfold MarkCompleted. tx_step. apply yields_bind. unfold WithTx. do 3 tx_step.
  match goal with H : db_LockCart _ _ _ = Ok _ |- _ => apply law_lock in H as (v & Hv & <- & Hid) end.
  tx_step. assert (is_open v) as Hopen by (unfold is_open; by destruct (Completed (cv_cart v))).
  rewrite Hid. do 2 tx_step.
  match goal with H : db_ListLineItems _ _ _ = _ |- _ => eapply law_list_lines in H as ->; [|exact Hv] end.
  tx_step. tx_step. apply yields_bind. intros st1 c Hc. eapply law_complete in Hc as [-> Hs]; [|exact Hv].
  unfold recordCartEvent. tx_step. tx_step.
  match goal with H : db_WriteOutboxEvent _ _ _ _ _ = _ |- _ => apply law_outbox in H as Hw end.
  apply yields_ret. apply yields_bind. intros st3 [] [= <-]. apply yields_ret.
  rewrite law_publish, Hw, Hs. eapply st_move; [exact Hv|]. apply mv_complete; [done| |].
  - by case_bool_decide.
  - by destruct (TotalsStale (cv_cart v)).
Qed.
End Refine.

(** * The operations on lines, codes, methods and totals refine the account *)

(** A line without add-ons grows alone. *)
Lemma grow_alone now q ls l : lines_ok ls -> l ∈ ls -> li_AddOnKey l = EmptyString ->
  grow now (li_ID l) q <$> ls = set_quantity_of (li_ID l) q now <$> ls.
Proof.
  intros Hok Hl Hkey. unfold grow. change (fun x => ?f (?g x)) with (f ∘ g).
  rewrite (list_fmap_compose (set_quantity_of (li_ID l) q now)). apply set_add_on_quantity_none.
  apply Forall_fmap. eapply Forall_impl; [by apply (no_add_ons ls l)|]. intros a Ha. unfold is_add_on_of in *. simpl.
  unfold set_quantity_of. by case_bool_decide.
Qed.

Lemma remove_alone ls l : lines_ok ls -> l ∈ ls -> li_AddOnKey l = EmptyString ->
  filter (fun x => ~ is_add_on_of (li_ID l) x) ls = ls.
Proof. intros Hok Hl Hkey. by apply filter_all, no_add_ons. Qed.

(** What an addition makes of a cart. *)
Inductive added (now : moment) (variant : string) (props : properties) (key : string) (q : Z)
    (v : CartView) : LineItem -> CartView -> Prop :=
| ad_merged l : l ∈ cv_lines v -> has_identity variant props key l ->
    li_Quantity l + q <= MaxQuantity ->
    added now variant props key q v (with_quantity (li_Quantity l + q) now l)
      (on_lines (fmap (grow now (li_ID l) (li_Quantity l + q))) v)
| ad_opened root add_ons ls : opening root add_ons (cv_lines v) ->
    has_identity variant props key root -> li_Quantity root = q ->
    ls ≡ₚ (root :: add_ons) ++ cv_lines v -> Z.of_nat (length ls) <= MaxLineItems ->
    added now variant props key q v root (on_lines (fun _ => ls) v).

Lemma added_edit now variant props key q v l v' : shape_ok v -> 0 <= q ->
  added now variant props key q v l v' -> rtc (edit now) v v'.
Proof.
  intros Hsh Hq [x Hx Hi Hm|root adds ls Ho Hi _ Hp Hlen]; apply rtc_once.
  - apply ed_quantity; [done|by destruct Hi as (_ & _ & ? & _)|].
    destruct (ls_range _ (sh_lines _ Hsh) x Hx) as [Hr _]. unfold MinQuantity in *. lia.
  - by eapply ed_open.
Qed.

(** The line an addition answers is a line of the cart. *)
Lemma added_answer now variant props key q v r v' : lines_ok (cv_lines v) ->
  added now variant props key q v r v' -> r ∈ cv_lines v' /\ has_identity variant props key r.
Proof.
  intros Hok [l Hl Hi _|root adds ls Ho Hi Hq Hp _]; simpl.
  - split; [|exact Hi]. apply list_elem_of_fmap. exists l. split; [|done].
    unfold grow, set_quantity_of, set_add_on_quantity. rewrite (bool_decide_eq_true_2 (li_ID l = li_ID l)) by done. simpl.
    destruct Hi as (_ & _ & -> & _). by rewrite bool_decide_eq_false_2.
  - split; [|done]. rewrite Hp. by left.
Qed.

Section Lines.
Context {St : Type} (svc : Service St) (view : St -> gmap string CartView) `{!CartLaws svc view}.
Context (now : moment) (newID : nat -> string).
Implicit Types (st : St) (v : CartView).

Lemma follow_shows st st1 id l q r v : view st !! id = Some v -> lines_ok (cv_lines v) ->
  l ∈ cv_lines v -> db_SetLineItemQuantity (svc_store svc) id (li_ID l) q now st = (st1, Ok r) ->
  r = with_quantity q now l /\
  yields st1 (if bool_decide (li_AddOnKey l = EmptyString) then mret tt
              else tx_do (db_SetAddOnQuantities (svc_store svc) id (li_ID l) q now))
    (fun _ st2 => shows view st st2 id (on_lines (fmap (grow now (li_ID l) q)) v)).
Proof.
  intros Hv Hok Hl E. eapply law_set_quantity in E as [(l' & Hl' & Hid & ->) Hs]; [|exact Hv].
  rewrite (line_of_id _ l' l (ls_ids _ Hok) Hl' Hl Hid). split; [done|]. case_bool_decide as Hk.
  - apply yields_ret. unfold shows, on_lines. by rewrite grow_alone.
  - tx_step. match goal with H : _ = (_, None) |- _ => eapply law_add_on_quantities in H as Hs';
      [|by eapply shows_lookup] end.
    pose proof (shows_trans _ _ _ _ _ _ _ Hs Hs') as Ht. unfold shows, on_lines in *. simpl in Ht.
    by rewrite <- list_fmap_compose in Ht.
Qed.

Lemma openLine_yields st id item lines v : view st !! id = Some v -> li_CartID item = id ->
  yields st (openLine svc now item lines) (fun r st' => lines < MaxLineItems /\ r = new_line item now /\
    li_ID item ∉ li_ID <$> cv_lines v /\ exists ls, ls ≡ₚ new_line item now :: cv_lines v /\
      shows view st st' id (on_lines (fun _ => ls) v)).
Proof.
  intros Hv Hid. unfold openLine. tx_step. intros st' r E. destruct (Z.leb_spec MaxLineItems lines); [done|].
  subst id. eapply law_create_line in E as (-> & Hf & ls & Hp & Hs); [|exact Hv]. by eauto 10.
Qed.

Definition add_on_line (id parent : string) (q : Z) (i : nat) (a : CleanAddOn) : LineItem :=
  new_line (opened (newID (1 + i)) id (ca_VariantID a) (ca_Title a) q (ca_UnitPrice a) ∅
    (ca_Properties a) (Some parent) EmptyString) now.

Lemma open_add_ons_yields st id parent q lines i addOns v : view st !! id = Some v ->
  NoDup (li_ID <$> cv_lines v) -> Z.of_nat (length (cv_lines v)) = lines + 1 + Z.of_nat i ->
  lines + 1 + Z.of_nat i <= MaxLineItems ->
  yields st (open_add_ons svc now newID id parent q lines i addOns) (fun _ st' => exists new ls,
    Forall2 (fun a x => exists j, x = add_on_line id parent q j a) addOns new /\
    ls ≡ₚ new ++ cv_lines v /\ NoDup (li_ID <$> ls) /\ Z.of_nat (length ls) <= MaxLineItems /\
    shows view st st' id (on_lines (fun _ => ls) v)).
Proof.
  revert st i v. induction addOns as [|a addOns IH]; intros st i v Hv Hnd Hlen Hmax; cbn [open_add_ons].
  { apply yields_ret. exists [], (cv_lines v). split; [done|]. split; [done|]. split; [done|]. split; [lia|].
    unfold on_lines. destruct v. by apply shows_refl. }
  apply yields_bind. eapply yields_mono; [by eapply (openLine_yields _ id)|].
  intros r st1 (Hlt & -> & Hf & ls1 & Hp1 & Hs1). simpl in Hf.
  eapply yields_mono; [eapply (IH _ (S i) (on_lines (fun _ => ls1) v))|].
  - by eapply shows_lookup.
  - simpl. rewrite Hp1, fmap_cons. by apply NoDup_cons.
  - simpl. rewrite Hp1. simpl. lia.
  - lia.
  - intros [] st2 (new & ls & Hnew & Hp & Hnd' & Hmax' & Hs2). simpl in Hp, Hs2.
    exists (add_on_line id parent q i a :: new), ls. split; [constructor; [by exists i|done]|].
    split; [rewrite Hp, Hp1; symmetry; apply Permutation_middle|]. split; [done|]. split; [done|].
    eapply shows_trans; [exact Hs1|]. exact Hs2.
Qed.

(** What the body of [AddLineItem] made of the new line and its add-ons. *)
Lemma opening_of v root q parent id addOns new ls ls1 key variant props :
  root = new_line (opened (newID 0) id variant parent q (li_UnitPrice root) (li_Metadata root) props None key) now ->
  lines_ok (cv_lines v) -> 0 <= li_UnitPrice root <= MaxAmount -> MinQuantity <= q <= MaxQuantity ->
  Forall clean_ok addOns -> (key = EmptyString <-> addOns = []) ->
  Forall (fun l => ~ has_identity variant props key l) (cv_lines v) ->
  Forall2 (fun a x => exists j, x = add_on_line id (li_ID root) q j a) addOns new ->
  ls1 ≡ₚ root :: cv_lines v -> ls ≡ₚ new ++ ls1 -> NoDup (li_ID <$> ls) ->
  opening root new (cv_lines v).
Proof.
  intros Hroot Hok Hprice Hq Hclean Hkey Hno Hnew Hp1 Hp Hnd.
  assert (li_Quantity root = q) as Hrq by by rewrite Hroot.
  assert (Forall (fun x => line_range x /\ li_ParentLineID x = Some (li_ID root) /\ li_Quantity x = q) new) as Hall.
  { clear -Hnew Hclean Hq. induction Hnew as [|a x addOns new (j & ->) _ IH]; [constructor|].
    apply Forall_cons in Hclean as [[_ Hc] Hclean]. constructor; [|by apply IH]. split; [by split|]. done. }
  split.
  - by rewrite Hroot.
  - intros l Hl Hr (E1 & E2 & E3). apply (proj1 (Forall_forall _ _) Hno l Hl). rewrite Hroot in E1, E2, E3. by split_and!.
  - rewrite <- fmap_app. cbn [app]. by rewrite Permutation_middle, <- Hp1, <- Hp.
  - intros l [->|Hl]%elem_of_cons; [split; [by rewrite Hrq|done]|].
    by apply (proj1 (Forall_forall _ _) Hall) in Hl as [? _].
  - eapply Forall_impl; [exact Hall|]. intros x (_ & ? & ?). split; [done|congruence].
  - intros Hne E. rewrite Hroot in E. simpl in E. apply Hkey in E as ->. by apply Forall2_nil_inv_l in Hnew.
Qed.

Lemma AddLineItem_yields id in_ st : carts_ok (view st) ->
  yields st (AddLineItem svc now newID id in_) (fun r st' => exists v v' props addOns key,
    view st !! id = Some v /\ is_open v /\ view_ok id v /\
    NormalizeLineProperties (al_Properties in_) = Ok props /\
    normalizeAddOns (al_AddOns in_) = Ok (addOns, key) /\
    MinQuantity <= al_Quantity in_ <= MaxQuantity /\
    added now (al_VariantID in_) props key (al_Quantity in_) v r v' /\
    shows view st st' id (on_cart (bumped now) v')).
Proof.
  intros Hok. unfold AddLineItem. tx_step. tx_step. tx_step.
  match goal with H : checkQuantity _ = None |- _ => apply checkQuantity_None in H as Hq end.
  tx_step. match goal with H : checkAmount _ _ _ = None |- _ => apply checkAmount_None in H as Hprice end.
  tx_step. tx_step. rename a into props. tx_step. tx_step. destruct a as [addOns key]. cbn [fst snd].
  match goal with H : normalizeAddOns _ = _ |- _ =>
    pose proof (normalizeAddOns_Ok _ _ _ H) as (Hclean & _ & _ & _ & Hkey) end.
  apply yields_bind. eapply yields_mono.
  { apply (mutate_yields svc view now id _ _
      (fun v r v' => added now (al_VariantID in_) props key (al_Quantity in_) v r v')).
    intros v Hv Hid Ho. rewrite Hid. pose proof (Hok id v Hv) as Hvk.
    pose proof (sh_lines _ (vk_shape _ _ Hvk)) as Hls.
    apply yields_bind. intros st1 found [= -> <-].
    destruct (db_GetLineItemByVariant _ _ _ _ _ _) as [x|e] eqn:Ef.
    - eapply law_by_variant in Ef as [Hx Hi]; [|exact Hv]. tx_step.
      destruct (ls_range _ Hls x Hx) as [Hxq _].
      assert (in_int64 (li_Quantity x + al_Quantity in_)) by (unfold MinQuantity, MaxQuantity in *; in64).
      rewrite sub64_exact in * by (unfold MinQuantity, MaxQuantity in *; in64). rewrite add64_exact by done.
      destruct (Z.ltb_spec (MaxQuantity - al_Quantity in_) (li_Quantity x)); [done|].
      apply yields_bind. intros st2 r Er. eapply follow_shows in Er as [-> Hy]; [|done..].
      apply yields_bind. assert (li_AddOnKey x = key) as <- by by destruct Hi as (_ & _ & _ & ?).
      cbn [li_Quantity with_quantity]. eapply yields_mono; [exact Hy|]. intros [] st3 Hs. apply yields_ret.
      eexists. split; [exact Hs|]. apply ad_merged; [done|done|lia].
    - destruct (IsNotFound (Some e)) eqn:Enf; [|by intros ? ? [=]].
      eapply law_no_variant in Ef; [|exact Hv|exact Enf]. tx_step. tx_step.
      match goal with H : db_CountLineItems _ _ _ = _ |- _ => eapply law_count_lines in H as ->; [|exact Hv] end.
      apply yields_bind. eapply yields_mono; [by eapply (openLine_yields _ id)|].
      intros r st2 (Hlt & -> & Hf & ls1 & Hp1 & Hs1). apply yields_bind.
      eapply yields_mono; [eapply (open_add_ons_yields _ id _ _ _ 0 _ (on_lines (fun _ => ls1) v))|].
      + by eapply shows_lookup.
      + simpl. rewrite Hp1, fmap_cons. apply NoDup_cons. split; [done|apply Hls].
      + simpl. rewrite Hp1. simpl. lia.
      + lia.
      + intros [] st3 (new & ls & Hnew & Hp & Hnd & Hmax & Hs2). apply yields_ret. simpl in Hp, Hs2.
        exists (on_lines (fun _ => ls) v). split; [by eapply shows_trans|].
        apply ad_opened with (add_ons := new); [|by split_and!|done| |done].
        * by eapply opening_of.
        * rewrite Hp, Hp1. symmetry. cbn [app]. apply Permutation_middle. }
  intros [c r] st' (v & v' & Hv & Ho & Hid & Ha & Hs). apply yields_ret.
  exists v, v', props, addOns, key. split_and!; try done; try lia. by apply Hok.
Qed.

Lemma AddLineItem_step id in_ st : carts_ok (view st) ->
  yields st (AddLineItem svc now newID id in_) (fun _ st' => step now (view st) (view st')).
Proof.
  intros Hok. eapply yields_mono; [by apply AddLineItem_yields|].
  intros r st' (v & v' & props & addOns & key & Hv & Ho & Hvk & _ & _ & Hq & Ha & Hs).
  eapply edits_step; [done|done| |exact Hs]. eapply added_edit; [apply Hvk| |done]. unfold MinQuantity in Hq. lia.
Qed.

Lemma UpdateLineItemQuantity_step id line q st : carts_ok (view st) ->
  yields st (UpdateLineItemQuantity svc now id line q) (fun _ st' => step now (view st) (view st')).
Proof.
  intros Hok. unfold UpdateLineItemQuantity. tx_step. tx_step.
  match goal with H : checkQuantity _ = None |- _ => apply checkQuantity_None in H as Hq end.
  apply yields_part, mutate_step; [done|]. intros v Hv Hid Ho. rewrite Hid.
  pose proof (sh_lines _ (vk_shape _ _ (Hok id v Hv))) as Hls.
  tx_step. tx_step. match goal with H : db_GetLineItem _ _ _ _ = _ |- _ => eapply law_get_line in H as [Hl <-]; [|exact Hv] end.
  tx_step. case_bool_decide as Hr; [done|].
  apply yields_bind. intros st1 r Er. eapply follow_shows in Er as [-> Hy]; [|done..].
  apply yields_bind. eapply yields_mono; [exact Hy|]. intros [] st2 Hs. apply yields_ret.
  eexists. split; [exact Hs|]. by apply rtc_once, ed_quantity.
Qed.

Lemma RemoveLineItem_step id line st : carts_ok (view st) ->
  yields st (RemoveLineItem svc now id line) (fun _ st' => step now (view st) (view st')).
Proof.
  intros Hok. unfold RemoveLineItem. tx_step. apply yields_part, mutate_step; [done|].
  intros v Hv Hid Ho. rewrite Hid. pose proof (sh_lines _ (vk_shape _ _ (Hok id v Hv))) as Hls.
  tx_step. tx_step. match goal with H : db_GetLineItem _ _ _ _ = _ |- _ => eapply law_get_line in H as [Hl <-]; [|exact Hv] end.
  tx_step. case_bool_decide as Hr; [done|]. apply yields_bind.
  apply yields_mono with (P := fun _ st1 => shows view st st1 id
    (on_lines (filter (fun x => ~ is_add_on_of (li_ID a) x)) v)).
  { case_bool_decide as Hk.
    - apply yields_ret. unfold shows, on_lines. rewrite remove_alone by done. destruct v. by apply shows_refl.
    - tx_step. by eapply law_delete_add_ons. }
  intros [] st1 Hs1. tx_step.
  match goal with H : db_SoftDeleteLineItem _ _ _ _ _ = _ |- _ => eapply law_delete_line in H as Hs2;
    [|by eapply shows_lookup] end.
  eexists. split; [by eapply shows_trans|]. apply rtc_once. exact (ed_remove now _ v Hl Hr).
Qed.
End Lines.

(** * Shipping methods, coupon codes, addresses and totals refine the account *)

Lemma lines_int64 ls : lines_ok ls -> Forall (fun l => in_int64 (li_Quantity l)) ls.
Proof.
  intros Hok. apply Forall_forall. intros l Hl. destruct (ls_range _ Hok l Hl) as [Hq _].
  unfold MinQuantity, MaxQuantity in *. in64.
Qed.

(** The last check of a round, on the lines as they would be. *)
Lemma covered_sum inclusive stored updates s : lines_ok stored -> covers inclusive stored updates ->
  sumSubtotals (priced updates <$> stored) = Ok s <->
  s = sumZ (lt_Subtotal <$> updates) /\ s <= MaxTotal.
Proof.
  intros Hok Hc. pose proof MaxTotal_val as HM. pose proof (ls_ids _ Hok) as Hnd.
  assert (Forall (fun l => 0 <= li_Subtotal l <= MaxTotal) (priced updates <$> stored)) as Hr.
  { apply Forall_fmap, Forall_forall. intros l Hl.
    destruct (priced_covered _ _ _ _ Hnd Hc Hl) as (u & Hu & Hid & Ha).
    apply (f_equal lt_Subtotal) in Ha as Hs. simpl in Hs. simpl. rewrite Hs.
    apply (lk_subtotal _ _ _ (co_ok _ _ _ Hc u l Hu Hl Hid)). }
  rewrite sumSubtotals_Ok by (eapply Forall_impl; [exact Hr|]; intros l ?; simpl in *; in64).
  rewrite (covered_subtotals _ _ _ Hnd Hc). split; [by intros (_ & ? & ?)|]. intros [-> ?]. split; [|done].
  eapply Forall_impl; [exact Hr|]. simpl. lia.
Qed.

Section Rest.
Context {St : Type} (svc : Service St) (view : St -> gmap string CartView) `{!CartLaws svc view}.
Context (now : moment) (newID : nat -> string).
Implicit Types (st : St) (v : CartView).

Lemma AddShippingMethod_step id in_ st : carts_ok (view st) ->
  yields st (AddShippingMethod svc now newID id in_) (fun _ st' => step now (view st) (view st')).
Proof.
  intros Hok. unfold AddShippingMethod. do 3 tx_step. apply yields_part, mutate_step; [done|].
  intros v Hv Hid Ho st' r E. rewrite Hid in E.
  eapply law_create_method in E as (k & _ & Hs); [|exact Hv]. eexists. split; [exact Hs|].
  apply rtc_once, ed_methods.
Qed.

Lemma RemoveShippingMethod_step id m st : carts_ok (view st) ->
  yields st (RemoveShippingMethod svc now id m) (fun _ st' => step now (view st) (view st')).
Proof.
  intros Hok. unfold RemoveShippingMethod. tx_step. apply yields_part, mutate_step; [done|].
  intros v Hv Hid Ho. rewrite Hid. tx_step.
  match goal with H : _ = (_, None) |- _ => eapply law_delete_method in H as Hs; [|exact Hv] end.
  eexists. split; [exact Hs|]. apply rtc_once. exact (ed_methods now _ v).
Qed.

Lemma AddPromotionCode_step id code st : carts_ok (view st) ->
  yields st (AddPromotionCode svc now id code) (fun _ st' => step now (view st) (view st')).
Proof.
  intros Hok. unfold AddPromotionCode. tx_step. tx_step.
  match goal with H : normalizePromotionCode _ = _ |- _ => apply normalizePromotionCode_Ok in H as Hc end.
  apply yields_part, mutate_step; [done|]. intros v Hv Hid Ho. rewrite Hid.
  destruct (sh_codes _ (vk_shape _ _ (Hok id v Hv))) as [Hnd Hlen Hcodes].
  tx_step. tx_step. match goal with H : db_ListPromotionCodes _ _ _ = _ |- _ =>
    eapply law_list_codes in H as ->; [|exact Hv] end.
  case_bool_decide as Hin.
  { apply yields_ret. exists v. split; [by apply shows_refl|done]. }
  tx_step. destruct (Z.leb_spec MaxPromotionCodes (Z.of_nat (length (cv_codes v)))); [done|].
  tx_step. tx_step. match goal with H : _ = (_, None) |- _ =>
    eapply law_add_code in H as (k & Hp & Hs); [|exact Hv|exact Hin] end.
  tx_step. eexists. split; [exact Hs|]. apply rtc_once, ed_codes. split.
  - rewrite Hp. by apply NoDup_cons.
  - rewrite Hp. simpl. lia.
  - rewrite Hp. by constructor.
Qed.

Lemma RemovePromotionCode_step id code st : carts_ok (view st) ->
  yields st (RemovePromotionCode svc now id code) (fun _ st' => step now (view st) (view st')).
Proof.
  intros Hok. unfold RemovePromotionCode. tx_step. tx_step. apply yields_part, mutate_step; [done|].
  intros v Hv Hid Ho. rewrite Hid. destruct (sh_codes _ (vk_shape _ _ (Hok id v Hv))) as [Hnd Hlen Hcodes].
  tx_step. match goal with H : _ = (_, None) |- _ => eapply law_remove_code in H as Hs; [|exact Hv] end.
  eexists. split; [exact Hs|]. apply rtc_once. refine (ed_codes now _ v _). split.
  - by apply NoDup_filter.
  - etrans; [|exact Hlen]. apply inj_le, length_filter.
  - apply Forall_forall. intros c [_ Hc]%list_elem_of_filter. by apply (proj1 (Forall_forall _ _) Hcodes).
Qed.

Lemma setAddress_step id kind in_ st : carts_ok (view st) ->
  yields st (setAddress svc now newID id kind in_) (fun _ st' => step now (view st) (view st')).
Proof.
  intros Hok. unfold setAddress. do 4 tx_step. apply yields_part, mutate_step; [done|].
  intros v Hv Hid Ho st' r E. rewrite Hid in E.
  eapply law_address in E as (k & _ & Hs); [|exact Hv]. eexists. split; [exact Hs|].
  apply rtc_once, ed_addresses.
Qed.

Lemma SetTotals_yields id t st : carts_ok (view st) ->
  yields st (SetTotals svc now id t) (fun _ st' => exists v, view st !! id = Some v /\ is_open v /\
    round_ok v t /\ shows view st st' id (priced_view t now v)).
Proof.
  intros Hok. unfold SetTotals. tx_step. tx_step.
  match goal with H : validateCartTotals _ = None |- _ => apply validateCartTotals_None in H as Ht end.
  unfold WithTx. do 3 tx_step.
  match goal with H : db_LockCart _ _ _ = Ok _ |- _ => apply law_lock in H as (v & Hv & <- & Hid) end.
  pose proof (sh_lines _ (vk_shape _ _ (Hok id v Hv))) as Hls.
  tx_step. assert (is_open v) as Hopen by (unfold is_open; by destruct (Completed (cv_cart v))).
  tx_step. destruct (Z.eqb_spec (cart_Revision (cv_cart v)) (to_Revision t)) as [Hrev|]; [|done].
  rewrite Hid. tx_step. tx_step. match goal with H : db_ListLineItems _ _ _ = _ |- _ =>
    eapply law_list_lines in H as ->; [|exact Hv] end.
  tx_step. tx_step. match goal with H : applyLineTotals _ _ _ = _ |- _ =>
    apply applyLineTotals_Ok in H as [Hc ->]; [|apply Hls|by apply lines_int64] end.
  tx_step. tx_step. match goal with H : sumSubtotals _ = _ |- _ =>
    apply (covered_sum _ _ _ _ Hls Hc) in H as [-> Hmax] end.
  tx_step. destruct (Z.eqb_spec (to_Subtotal t) (sumZ (lt_Subtotal <$> to_Lines t))) as [Hsub|]; [|done].
  tx_step. tx_step. match goal with H : _ = (_, None) |- _ => eapply law_set_totals in H as Hs1; [|exact Hv] end.
  apply yields_bind. intros st2 c E. eapply law_totals in E; [|by eapply shows_lookup].
  apply yields_ret. exists v. split; [done|]. split; [done|]. split; [by split|]. by eapply shows_trans.
Qed.

Lemma SetTotals_step id t st : carts_ok (view st) ->
  yields st (SetTotals svc now id t) (fun _ st' => step now (view st) (view st')).
Proof.
  intros Hok. eapply yields_mono; [by apply SetTotals_yields|]. intros [] st' (v & Hv & Ho & Hr & Hs).
  unfold shows in Hs. rewrite Hs. eapply st_move; [done|]. by apply mv_totals.
Qed.

(** The checks accept exactly the rounds that belong to the cart. *)
Lemma round_checks id t st v : carts_ok (view st) -> view st !! id = Some v -> round_ok v t ->
  validateCartTotals t = None /\ cart_Revision (cv_cart v) = to_Revision t /\
  exists applied, applyLineTotals (cv_lines v) (to_Lines t) (to_PricesIncludeTax t) = Ok applied /\
    sumSubtotals applied = Ok (to_Subtotal t).
Proof.
  intros Hok Hv [Ht Hc Hs Hrev]. pose proof (sh_lines _ (vk_shape _ _ (Hok id v Hv))) as Hls.
  split; [by apply validateCartTotals_None|]. split; [done|]. eexists. split.
  - apply applyLineTotals_Ok; [apply Hls|by apply lines_int64|]. split; [exact Hc|done].
  - apply (covered_sum _ _ _ _ Hls Hc). split; [done|apply Ht].
Qed.

Lemma SetTotals_accepts id t st st1 st2 v c : carts_ok (view st) -> view st !! id = Some v ->
  is_open v -> round_ok v t -> requireID "cart_id" id = None ->
  db_LockCart (svc_store svc) id st = Ok (cv_cart v) ->
  db_ListLineItems (svc_store svc) id st = Ok (cv_lines v) ->
  db_SetLineItemTotals (svc_store svc) id (storeLineTotals (to_Lines t)) now st = (st1, None) ->
  db_UpdateCartTotals (svc_store svc) id (cart_totals t) now st1 = (st2, Ok c) ->
  db_Commit (svc_store svc) st2 = None ->
  SetTotals svc now id t st = (st2, Ok tt).
Proof.
  intros Hok Hv Ho Hr Hid Elock Elist Elines Etotals Ecommit.
  destruct (round_checks id t st v Hok Hv Hr) as (Et & Erev & applied & Ea & Es).
  pose proof (vk_id _ _ (Hok id v Hv)) as Hcid. unfold is_open in Ho.
  unfold SetTotals, WithTx, atomically, mbind, tx_bind, tx_check, tx_read, tx_of, tx_do.
  rewrite Hid, Et, Elock, Ho, Erev, Z.eqb_refl, Hcid, Elist, Ea, Es, Z.eqb_refl, Elines.
  cbn [negb]. unfold cart_totals in Etotals. rewrite Etotals. cbn. by rewrite Ecommit.
Qed.
End Rest.
