(* ===== verification/CartUnits.v ===== *)
(** * Counting what a cart holds

    [units] of an identity are the quantity the cart holds of it, read off its line; [lot] is the line
    with its add-on lines, their quantities apart, which follow the line's. An addition changes the
    units of what it adds and nothing else's; a merge adds the source's units to the target's, and under
    an identity leaves the target's lot or, where the target had none, the source's. *)
From S2P Require Import Prelude GoText Errors Tx CartModels CartTotals CartStore CartMoves CartService CartLines.
Set Warnings "-level-tolerance".
Set Warnings "-clear-no-such-hyp".

(** A variant with its properties and add-ons. *)
Record identity := mkIdentity { id_variant : string; id_properties : properties; id_key : string }.

#[export] Instance identity_eq_dec : EqDecision identity.
Proof. solve_decision. Defined.

Definition identity_of_line (l : LineItem) : identity :=
  mkIdentity (li_VariantID l) (li_Properties l) (li_AddOnKey l).

Definition counts (i : identity) (l : LineItem) : Prop := is_root l /\ identity_of_line l = i.

#[export] Instance counts_dec i l : Decision (counts i l).
Proof. unfold counts, is_root. apply _. Defined.

Definition units (i : identity) (ls : list LineItem) : Z :=
  sumZ (li_Quantity <$> filter (counts i) ls).

Lemma has_identity_counts variant props key l :
  has_identity variant props key l <-> counts (mkIdentity variant props key) l.
Proof.
  unfold has_identity, counts, is_root, identity_of_line. split.
  - by intros (-> & -> & -> & ->).
  - by intros [-> [= -> -> ->]].
Qed.

Lemma units_perm i ls ls' : ls ≡ₚ ls' -> units i ls = units i ls'.
Proof. intros H. unfold units. apply sumZ_perm. by rewrite H. Qed.

Lemma units_cons i l ls : units i (l :: ls) = (if decide (counts i l) then li_Quantity l else 0) + units i ls.
Proof.
  unfold units. case_decide; [rewrite filter_cons_True by done|rewrite filter_cons_False by done].
  - by rewrite fmap_cons, sumZ_cons.
  - lia.
Qed.

Lemma units_app i ls ls' : units i (ls ++ ls') = units i ls + units i ls'.
Proof. unfold units. by rewrite filter_app, fmap_app, sumZ_app. Qed.

Lemma units_none i ls : Forall (fun l => ~ is_root l) ls -> units i ls = 0.
Proof.
  induction 1 as [|l ls Hl _ IH]; [done|]. rewrite units_cons, IH, decide_False; [done|]. by intros [? _].
Qed.

Lemma grow_counts now id q i l : counts i (grow now id q l) <-> counts i l.
Proof.
  unfold counts, identity_of_line. rewrite grow_root.
  by destruct (grow_fixed now id q l) as (_ & _ & -> & -> & -> & _).
Qed.

(** Lines other than [id] and its add-ons count as before. *)
Lemma units_grow_others now id q i ls : id ∉ li_ID <$> ls -> units i (grow now id q <$> ls) = units i ls.
Proof.
  induction ls as [|l ls IH]; [done|]. rewrite !fmap_cons, not_elem_of_cons. intros [Hl Hls].
  rewrite !units_cons, IH by done. f_equal.
  destruct (decide (counts i l)) as [Hc|Hc].
  - rewrite decide_True by (by apply grow_counts). rewrite grow_quantity, bool_decide_eq_false_2; [done|].
    destruct Hc as [Hr _]. unfold is_root in Hr. intros [E|E]; congruence.
  - rewrite decide_False; [done|]. by rewrite grow_counts.
Qed.

Lemma added_units now variant props key q v r v' i : lines_ok (cv_lines v) ->
  added now variant props key q v r v' ->
  units i (cv_lines v') = units i (cv_lines v) +
    (if decide (i = mkIdentity variant props key) then q else 0).
Proof.
  intros Hok [l Hl Hi _|root adds ls Ho Hi Hq Hp _]; simpl; apply has_identity_counts in Hi.
  - destruct (proj1 (elem_of_Permutation _ _) Hl) as [rest Hp].
    rewrite (units_perm i _ _ Hp), units_cons.
    rewrite (units_perm i (grow now (li_ID l) (li_Quantity l + q) <$> cv_lines v)
      (grow now (li_ID l) (li_Quantity l + q) <$> l :: rest)) by (by rewrite Hp).
    rewrite fmap_cons, units_cons, units_grow_others.
    2:{ pose proof (ls_ids _ Hok) as Hnd. rewrite Hp, fmap_cons in Hnd. by apply NoDup_cons in Hnd as [? _]. }
    rewrite grow_quantity, bool_decide_eq_true_2 by (by left).
    destruct (decide (counts i l)) as [Hc|Hc].
    + rewrite decide_True by (by apply grow_counts). destruct Hc as [_ <-], Hi as [_ ->]. rewrite decide_True by done. lia.
    + rewrite decide_False by (by rewrite grow_counts). rewrite decide_False; [lia|]. intros ->. by apply Hc.
  - rewrite (units_perm i _ _ Hp), units_app, units_cons, (units_none i adds).
    2:{ eapply Forall_impl; [apply (op_add_ons _ _ _ Ho)|]. unfold is_root. intros a [E _]. congruence. }
    destruct (decide (counts i root)) as [Hc|Hc].
    + destruct Hc as [_ <-], Hi as [_ ->]. rewrite decide_True by done. lia.
    + rewrite decide_False; [lia|]. intros ->. by apply Hc.
Qed.

(** ** What stands under an identity *)

Lemma filter_nothing {A} (P : A -> Prop) `{!forall x, Decision (P x)} (l : list A) :
  Forall (fun x => ~ P x) l -> filter P l = [].
Proof. induction 1 as [|x l Hx _ IH]; [done|]. by rewrite filter_cons_False. Qed.

(** What a line is of, its quantity and its identifiers apart. *)
Definition goods (l : LineItem) : string * string * Z * CartModels.properties * CartModels.properties :=
  (li_VariantID l, li_Title l, li_UnitPrice l, li_Metadata l, li_Properties l).

(** A line and its add-ons. *)
Definition under (r a : LineItem) : Prop := li_ID a = li_ID r \/ li_ParentLineID a = Some (li_ID r).

#[export] Instance under_dec r a : Decision (under r a).
Proof. unfold under. apply _. Defined.

Definition belongs (i : identity) (ls : list LineItem) (a : LineItem) : Prop := Exists (fun r => counts i r /\ under r a) ls.

#[export] Instance belongs_dec i ls a : Decision (belongs i ls a).
Proof. unfold belongs. apply _. Defined.

(** The line of an identity and its add-ons, in any order. *)
Definition lot (i : identity) (ls : list LineItem) : list (string * string * Z * CartModels.properties * CartModels.properties) :=
  goods <$> filter (belongs i ls) ls.

(** Whether a line of the identity is there. *)
Definition stocked (i : identity) (ls : list LineItem) : Prop := Exists (counts i) ls.

#[export] Instance stocked_dec i ls : Decision (stocked i ls).
Proof. unfold stocked. apply _. Defined.

Lemma lot_none i ls : ~ stocked i ls -> lot i ls = [].
Proof.
  intros H. unfold lot. destruct (filter (belongs i ls) ls) as [|a l] eqn:E; [done|].
  assert (a ∈ filter (belongs i ls) ls) as [Ha _]%list_elem_of_filter by (rewrite E; by left).
  apply Exists_exists in Ha as (r & Hr & Hc & _). destruct H. apply Exists_exists. by exists r.
Qed.

Lemma stocked_perm i ls ls' : ls ≡ₚ ls' -> stocked i ls <-> stocked i ls'.
Proof. intros H. unfold stocked. by rewrite H. Qed.

Lemma lot_perm i ls ls' : ls ≡ₚ ls' -> lot i ls ≡ₚ lot i ls'.
Proof.
  intros H. unfold lot. rewrite (list_filter_iff (belongs i ls) (belongs i ls')); [by rewrite H|].
  intros a. unfold belongs. by rewrite H.
Qed.

(** The line of an identity is one. *)
Lemma lot_root ls r : lines_ok ls -> r ∈ ls -> is_root r ->
  lot (identity_of_line r) ls ≡ₚ goods <$> r :: filter (is_add_on_of (li_ID r)) ls.
Proof.
  intros Hok Hr Hroot. unfold lot. apply fmap_Permutation.
  rewrite (list_filter_iff _ (under r)).
  2:{ intros a. unfold belongs. rewrite Exists_exists. split; [|intros Ha; by exists r].
      intros (x & Hx & [Hxr Hxi] & Ha). rewrite (ls_identity _ Hok r x Hr Hx Hroot Hxr); [done|]. by injection Hxi. }
  destruct (proj1 (elem_of_Permutation _ _) Hr) as [rest Hp]. rewrite Hp. pose proof (ls_ids _ Hok) as Hnd.
  rewrite Hp, fmap_cons in Hnd. apply NoDup_cons in Hnd as [Hn _]. rewrite !filter_cons.
  rewrite decide_True by (by left). rewrite decide_False by (unfold is_add_on_of, is_root in *; congruence).
  apply perm_skip. clear Hp. induction rest as [|a rest IH]; [done|]. rewrite fmap_cons, not_elem_of_cons in Hn.
  destruct Hn as [Ha Hn]. specialize (IH Hn). rewrite !filter_cons. unfold under, is_add_on_of in *.
  apply not_eq_sym in Ha. repeat case_decide; try (by apply perm_skip); try done; tauto.
Qed.

(** Growing a line changes quantities only. *)
Lemma goods_grow now id q l : goods (grow now id q l) = goods l.
Proof. unfold goods, grow, set_add_on_quantity, set_quantity_of. by repeat case_bool_decide. Qed.

Lemma lot_grow now id q i ls : lot i (grow now id q <$> ls) = lot i ls.
Proof.
  unfold lot. assert (Hb : forall a, belongs i (grow now id q <$> ls) (grow now id q a) <-> belongs i ls a).
  { intros a. unfold belongs. rewrite Exists_fmap. apply Exists_proper; [|done]. intros r. cbn. rewrite grow_counts. unfold under.
    destruct (grow_fixed now id q r) as (-> & _). by destruct (grow_fixed now id q a) as (-> & -> & _). }
  enough (H : forall k, goods <$> filter (belongs i (grow now id q <$> ls)) (grow now id q <$> k) =
    goods <$> filter (belongs i ls) k) by apply H.
  induction k as [|a k IH]; [done|]. rewrite fmap_cons, !filter_cons.
  destruct (decide (belongs i ls a)) as [Ha|Ha].
  - rewrite decide_True by (by apply Hb). by rewrite !fmap_cons, goods_grow, IH.
  - rewrite decide_False by (by rewrite Hb). exact IH.
Qed.

(** A line opened brings its lot; the other lots are as they were. *)
Lemma lot_opening i root adds ls ls' : opening root adds ls -> lines_ok ls -> ls' ≡ₚ (root :: adds) ++ ls ->
  lot i ls' ≡ₚ if decide (i = identity_of_line root) then goods <$> root :: adds else lot i ls.
Proof.
  intros Ho Hok Hp. pose proof (lines_ok_open _ _ _ Ho Hok) as Hok'. rewrite (lot_perm i _ _ Hp). case_decide as Ei.
  - subst i. rewrite lot_root; [|done|by left|apply Ho]. apply fmap_Permutation, perm_skip.
    rewrite <- app_comm_cons, filter_cons_False by (unfold is_add_on_of; rewrite (op_root _ _ _ Ho); done).
    rewrite filter_app, (filter_all _ adds) by (eapply Forall_impl; [apply (op_add_ons _ _ _ Ho)|by intros a [? _]]).
    rewrite (filter_nothing _ ls); [by rewrite app_nil_r|]. apply Forall_forall. intros a Ha Hpar.
    destruct (ls_add_on _ Hok a _ Ha Hpar) as (r & Hr & Er & _). pose proof (op_ids _ _ _ Ho) as Hnd.
    apply NoDup_app in Hnd as (_ & Hnd & _). apply (Hnd (li_ID root)); [rewrite fmap_cons; by left|].
    rewrite <- Er. by apply list_elem_of_fmap_2.
  - assert (Hnot : forall r, r ∈ root :: adds -> ~ counts i r).
    { intros r [->|Hr]%elem_of_cons [Hroot Hi]; [done|].
      pose proof (proj1 (Forall_forall _ _) (op_add_ons _ _ _ Ho) r Hr) as [Hpar _]. unfold is_root in Hroot. congruence. }
    unfold lot. rewrite filter_app, fmap_app, (filter_nothing _ (root :: adds)).
    + cbn [fmap list_fmap app]. rewrite (list_filter_iff _ (belongs i ls)); [done|]. intros a. unfold belongs.
      change (root :: adds ++ ls) with ((root :: adds) ++ ls). rewrite Exists_app. split; [intros [H|H]; [|done]|by right]. exfalso.
      apply Exists_exists in H as (r & Hr & Hc & _). by apply (Hnot r).
    + apply Forall_forall. intros a Ha (r & Hr & Hc & Hu)%Exists_exists.
      apply elem_of_app in Hr as [Hr|Hr]; [by apply (Hnot r)|]. destruct Hu as [Hu|Hu].
      * pose proof (op_ids _ _ _ Ho) as Hnd. apply NoDup_app in Hnd as (_ & Hnd & _). apply (Hnd (li_ID a)); [by apply list_elem_of_fmap_2|].
        rewrite Hu. by apply list_elem_of_fmap_2.
      * apply elem_of_cons in Ha as [->|Ha]; [by rewrite (op_root _ _ _ Ho) in Hu|].
        pose proof (proj1 (Forall_forall _ _) (op_add_ons _ _ _ Ho) a Ha) as [Hpar _]. rewrite Hpar in Hu. injection Hu as Hu.
        pose proof (op_ids _ _ _ Ho) as Hnd. apply NoDup_app in Hnd as (_ & Hnd & _). apply (Hnd (li_ID root)); [rewrite fmap_cons; by left|].
        rewrite Hu. by apply list_elem_of_fmap_2.
Qed.

Lemma added_stocked now variant props key q v r v' i : added now variant props key q v r v' ->
  stocked i (cv_lines v') <-> stocked i (cv_lines v) \/ i = mkIdentity variant props key.
Proof.
  intros [l Hl Hi _|root adds ls Ho Hi Hq Hp _]; simpl; apply has_identity_counts in Hi.
  - unfold stocked. rewrite Exists_fmap.
    assert (Exists (counts i ∘ grow now (li_ID l) (li_Quantity l + q)) (cv_lines v) <-> Exists (counts i) (cv_lines v)) as ->
      by (apply Exists_proper; [intros a; apply grow_counts|done]).
    split; [by left|]. intros [H| ->]; [done|]. apply Exists_exists. by exists l.
  - rewrite (stocked_perm i _ _ Hp). unfold stocked. rewrite Exists_app, Exists_cons. split.
    + intros [[[_ <-]|H]|H]; [right; by destruct Hi| |by left]. exfalso. apply Exists_exists in H as (a & Ha & Hr & _).
      pose proof (proj1 (Forall_forall _ _) (op_add_ons _ _ _ Ho) a Ha) as [Hpar _]. unfold is_root in Hr. congruence.
    + intros [H| ->]; [by right|]. left. by left.
Qed.

Lemma added_lot now variant props key q v r v' i : lines_ok (cv_lines v) -> added now variant props key q v r v' ->
  stocked i (cv_lines v) \/ i <> mkIdentity variant props key -> lot i (cv_lines v') ≡ₚ lot i (cv_lines v).
Proof.
  intros Hok [l Hl Hi _|root adds ls Ho Hi Hq Hp _] H; simpl; [by rewrite lot_grow|].
  rewrite (lot_opening i root adds _ _ Ho Hok Hp). apply has_identity_counts in Hi as [_ Hroot]. case_decide as Ei; [|done].
  destruct H as [(x & Hx & Hr & Hxi)%Exists_exists|H]; [exfalso; apply (op_identity _ _ _ Ho x Hx Hr)|].
  - rewrite Ei in Hxi. by injection Hxi.
  - congruence.
Qed.

(** ** The add-ons the merge carries *)

Lemma group_add_ons_Ok roots acc lines m : group_add_ons roots acc lines = Ok m ->
  forall p, default [] (m !! p) = default [] (acc !! p) ++ filter (is_add_on_of p) lines.
Proof.
  revert acc. induction lines as [|l rest IH]; intros acc; simpl.
  { intros [= ->] p. by rewrite app_nil_r. }
  destruct (li_ParentLineID l) as [parent|] eqn:Ep.
  - case_bool_decide; [|done]. intros Hm p. rewrite (IH _ Hm p).
    destruct (decide (p = parent)) as [->|Hne].
    + rewrite lookup_insert_eq, filter_cons_True by done. simpl. by rewrite <- app_assoc.
    + rewrite lookup_insert_ne by done. rewrite filter_cons_False; [done|]. unfold is_add_on_of. congruence.
  - intros Hm p. rewrite (IH _ Hm p), filter_cons_False; [done|]. unfold is_add_on_of. congruence.
Qed.

Lemma group_add_ons_total lines acc : lines_ok lines -> forall ls, (forall l, l ∈ ls -> l ∈ lines) ->
  exists m, group_add_ons (roots_of lines) acc ls = Ok m.
Proof.
  intros Hok ls. revert acc. induction ls as [|l ls IH]; intros acc Hin; simpl; [by eexists|].
  assert (forall x, x ∈ ls -> x ∈ lines) as Hls by (intros x ?; apply Hin; by right).
  destruct (li_ParentLineID l) as [p|] eqn:Ep; [|by apply IH].
  rewrite bool_decide_eq_true_2; [by apply IH|].
  destruct (ls_add_on _ Hok l p (Hin l (list_elem_of_here _ _)) Ep) as (r & Hr & <- & Hroot & _).
  unfold roots_of. apply elem_of_list_to_set, list_elem_of_fmap_2, list_elem_of_filter. done.
Qed.

Section MergeFacts.
Context {St : Type} (svc : Service St) (view : St -> gmap string CartView) `{!CartLaws svc view}.
Context (now : moment) (newID : nat -> string).
Implicit Types (st : St) (v : CartView).

(** A new line with the fields of [a], under [parent]. *)
Definition carried (id parent : string) (n : nat) (a : LineItem) : LineItem :=
  new_line (opened (newID n) id (li_VariantID a) (li_Title a) (li_Quantity a) (li_UnitPrice a)
    (li_Metadata a) (li_Properties a) (Some parent) EmptyString) now.

Lemma carried_goods id parent addOns new :
  Forall2 (fun a x => exists j, x = carried id parent j a) addOns new -> goods <$> new = goods <$> addOns.
Proof. induction 1 as [|a x addOns new [j ->] _ IH]; [done|]. by rewrite !fmap_cons, IH. Qed.

Lemma fold_add_ons_yields st id parent n held addOns v : view st !! id = Some v ->
  NoDup (li_ID <$> cv_lines v) -> Z.of_nat (length (cv_lines v)) = held -> held <= MaxLineItems ->
  yields st (fold_add_ons svc now newID id parent n held addOns) (fun _ st' => exists new ls,
    Forall2 (fun a x => exists j, x = carried id parent j a) addOns new /\
    ls ≡ₚ new ++ cv_lines v /\ NoDup (li_ID <$> ls) /\ Z.of_nat (length ls) <= MaxLineItems /\
    shows view st st' id (on_lines (fun _ => ls) v)).
Proof.
  revert st n held v. induction addOns as [|a addOns IH]; intros st n held v Hv Hnd Hlen Hmax; cbn [fold_add_ons].
  { apply yields_ret. exists [], (cv_lines v). split; [done|]. split; [done|]. split; [done|]. split; [lia|].
    unfold on_lines. destruct v. by apply shows_refl. }
  apply yields_bind. eapply yields_mono; [by eapply (openLine_yields svc view now _ id)|].
  intros r st1 (Hlt & -> & Hf & ls1 & Hp1 & Hs1). simpl in Hf.
  eapply yields_mono; [eapply (IH _ (S n) (held + 1) (on_lines (fun _ => ls1) v))|].
  - by eapply shows_lookup.
  - simpl. rewrite Hp1, fmap_cons. by apply NoDup_cons.
  - simpl. rewrite Hp1. simpl. lia.
  - lia.
  - intros [] st2 (new & ls & Hnew & Hp & Hnd' & Hmax' & Hs2). simpl in Hp, Hs2.
    exists (carried id parent n a :: new), ls. split; [constructor; [by exists n|done]|].
    split; [rewrite Hp, Hp1; symmetry; apply Permutation_middle|]. split; [done|]. split; [done|].
    eapply shows_trans; [exact Hs1|]. exact Hs2.
Qed.

(** Opening a line of the source on the target with what it carries. *)
Lemma carried_opening source line v new ls ls1 id n addOns root :
  lines_ok source -> line ∈ source -> is_root line -> addOns = filter (is_add_on_of (li_ID line)) source ->
  Forall (fun l => ~ has_identity (li_VariantID line) (li_Properties line) (li_AddOnKey line) l) (cv_lines v) ->
  root = new_line (opened (newID n) id (li_VariantID line) (li_Title line) (li_Quantity line)
    (li_UnitPrice line) (li_Metadata line) (li_Properties line) None (li_AddOnKey line)) now ->
  Forall2 (fun a x => exists j, x = carried id (li_ID root) j a) addOns new ->
  ls1 ≡ₚ root :: cv_lines v -> ls ≡ₚ new ++ ls1 -> NoDup (li_ID <$> ls) ->
  opening root new (cv_lines v).
Proof.
  intros Hok Hline Hroot -> Hno Er Hnew Hp1 Hp Hnd.
  assert (forall x, x ∈ new -> exists a, a ∈ source /\ li_ParentLineID a = Some (li_ID line) /\
    exists j, x = carried id (li_ID root) j a) as Hx.
  { intros x [i Hi]%list_elem_of_lookup. destruct (Forall2_lookup_r _ _ _ _ _ Hnew Hi) as (a & Ha & Hj).
    apply list_elem_of_lookup_2, list_elem_of_filter in Ha as [Hpar Hin]. by exists a. }
  destruct (ls_range _ Hok line Hline) as [Hlq Hlp]. split.
  - by rewrite Er.
  - intros l Hl Hr (E1 & E2 & E3). apply (proj1 (Forall_forall _ _) Hno l Hl). rewrite Er in E1, E2, E3. by split_and!.
  - rewrite <- fmap_app. cbn [app]. by rewrite Permutation_middle, <- Hp1, <- Hp.
  - intros l [->|Hl]%elem_of_cons; [rewrite Er; by split|].
    destruct (Hx l Hl) as (a & Ha & _ & j & ->). destruct (ls_range _ Hok a Ha). by split.
  - apply Forall_forall. intros x Hin. destruct (Hx x Hin) as (a & Ha & Hpar & j & ->). split; [done|].
    destruct (ls_add_on _ Hok a _ Ha Hpar) as (r & Hr & Hrid & _ & _ & Hq). rewrite Er. simpl. rewrite Hq.
    by rewrite (line_of_id _ _ _ (ls_ids _ Hok) Hr Hline Hrid).
  - intros Hne. destruct new as [|x new]; [done|].
    destruct (Hx x (list_elem_of_here _ _)) as (a & Ha & Hpar & _).
    destruct (ls_add_on _ Hok a _ Ha Hpar) as (r & Hr & Hrid & _ & Hkey & _).
    rewrite Er. simpl. by rewrite <- (line_of_id _ _ _ (ls_ids _ Hok) Hr Hline Hrid).
Qed.

(** [v'] is [v] with the root lines of [lines] added, lines of [source]: nothing but the lines is touched,
    the units add up, and under an identity stands what stood there, or what [source] has there. *)
Record folded (source : list LineItem) (v : CartView) (lines : list LineItem) (v' : CartView) : Prop := mkFolded {
  fd_edits : rtc (edit now) v v';
  fd_lines_only : v' = on_lines (fun _ => cv_lines v') v;
  fd_units i : units i (cv_lines v') = units i (cv_lines v) + units i lines;
  fd_lots i : lot i (cv_lines v') ≡ₚ if decide (stocked i (cv_lines v)) then lot i (cv_lines v)
    else if decide (stocked i lines) then lot i source else [];
  fd_nothing : lines = [] -> v' = v
}.

Lemma folded_nil source v : folded source v [] v.
Proof.
  split; [done|by destruct v| | |done].
  - intros i. rewrite (units_none i []) by constructor. lia.
  - intros i. case_decide; [done|]. rewrite lot_none by done. rewrite decide_False; [done|]. by inversion 1.
Qed.

(** Add-ons are carried under their line. *)
Lemma folded_skip source v v' line rest : ~ is_root line -> folded source v rest v' -> folded source v (line :: rest) v'.
Proof.
  intros Hl [He Ho Hu Hlot _]. split; [done|done| | |done].
  - intros i. rewrite Hu, units_cons, decide_False; [lia|]. by intros [? _].
  - intros i. rewrite Hlot. case_decide; [done|]. apply reflexive_eq, decide_ext.
    unfold stocked. rewrite Exists_cons. split; [by right|]. by intros [[? _]|].
Qed.

Lemma folded_cons source v v1 v2 line rest r : shape_ok v -> is_root line -> line_range line ->
  added now (li_VariantID line) (li_Properties line) (li_AddOnKey line) (li_Quantity line) v r v1 ->
  (~ stocked (identity_of_line line) (cv_lines v) ->
    lot (identity_of_line line) (cv_lines v1) ≡ₚ lot (identity_of_line line) source) ->
  folded source v1 rest v2 -> folded source v (line :: rest) v2.
Proof.
  intros Hsh Hroot [Hq _] Ha Hnew [He Ho Hu Hlot _]. split; [| | | |done].
  - etrans; [|exact He]. eapply added_edit; [done| |exact Ha]. unfold MinQuantity in Hq. lia.
  - rewrite Ho. by destruct Ha.
  - intros i. rewrite Hu, (added_units _ _ _ _ _ _ _ _ i (sh_lines _ Hsh) Ha), units_cons.
    unfold counts, identity_of_line. repeat case_decide; try lia; naive_solver.
  - intros i. rewrite Hlot. pose proof (added_stocked _ _ _ _ _ _ _ _ i Ha) as Hst.
    assert (Hc : stocked i (line :: rest) <-> i = identity_of_line line \/ stocked i rest).
    { unfold stocked at 1. rewrite Exists_cons. unfold counts at 1. split; [intros [[_ <-]|]; tauto|]. intros [-> |]; [by left|by right]. }
    pose proof (added_lot _ _ _ _ _ _ _ _ i (sh_lines _ Hsh) Ha) as Hal. fold (identity_of_line line) in *.
    destruct (decide (i = identity_of_line line)) as [->|Hne].
    + rewrite decide_True by tauto. case_decide; [by apply Hal; left|]. rewrite decide_True by tauto. by apply Hnew.
    + destruct (decide (stocked i (cv_lines v))) as [Hs|Hs].
      * rewrite decide_True by tauto. by apply Hal; left.
      * rewrite decide_False by tauto. apply reflexive_eq, decide_ext. tauto.
Qed.

Lemma fold_lines_yields source st id m n held lines v : lines_ok source ->
  (forall l, l ∈ lines -> l ∈ source) ->
  (forall p, default [] (m !! p) = filter (is_add_on_of p) source) ->
  view st !! id = Some v -> shape_ok v -> held = Z.of_nat (length (cv_lines v)) ->
  yields st (fold_lines svc now newID id m n held lines)
    (fun _ => edited view st id (folded source v lines)).
Proof.
  intros Hok Hsub Hm. revert st n held v. induction lines as [|line rest IH]; intros st n held v Hv Hsh Hheld; cbn [fold_lines].
  { apply yields_ret. exists v. split; [by apply shows_refl|]. apply folded_nil. }
  assert (line ∈ source) as Hline by (apply Hsub; by left).
  assert (forall l, l ∈ rest -> l ∈ source) as Hrest by (intros l ?; apply Hsub; by right).
  specialize (IH Hrest). pose proof (ls_range _ Hok line Hline) as Hrange. pose proof (lr_quantity _ Hrange) as Hq.
  case_bool_decide as Hpar.
  { eapply yields_mono; [by apply IH|]. intros [] st' (v' & Hs & Hf). exists v'. split; [done|]. by apply folded_skip. }
  apply yields_bind. intros st1 found [= -> <-].
  destruct (db_GetLineItemByVariant _ _ _ _ _ _) as [x|e] eqn:Ef.
  - eapply law_by_variant in Ef as [Hx Hi]; [|exact Hv]. tx_step.
    destruct (ls_range _ (sh_lines _ Hsh) x Hx) as [Hxq _].
    assert (in_int64 (li_Quantity x + li_Quantity line)) by (unfold MinQuantity, MaxQuantity in *; in64).
    rewrite sub64_exact in * by (unfold MinQuantity, MaxQuantity in *; in64). rewrite add64_exact by done.
    destruct (Z.ltb_spec (MaxQuantity - li_Quantity line) (li_Quantity x)); [done|].
    apply yields_bind. intros st2 r Er. eapply follow_shows in Er as [-> Hy]; [|done|done|apply Hsh|done].
    apply yields_bind. assert (li_AddOnKey x = li_AddOnKey line) as <- by by destruct Hi as (_ & _ & _ & ?).
    eapply yields_mono; [exact Hy|]. intros [] st3 Hs.
    pose proof (ad_merged now _ _ _ (li_Quantity line) v x Hx Hi ltac:(lia)) as Ha.
    eapply yields_mono; [eapply IH|].
    + by eapply shows_lookup.
    + eapply edits_keep_shape; [|done]. eapply added_edit; [done| |exact Ha]. unfold MinQuantity in Hq. lia.
    + simpl. by rewrite length_fmap.
    + intros [] st' (v' & Hs' & Hf). exists v'. split; [by eapply shows_trans|].
      eapply folded_cons; [done|done|done|exact Ha| |exact Hf]. intros Hns. destruct Hns. apply Exists_exists.
      exists x. split; [done|]. by apply has_identity_counts.
  - destruct (IsNotFound (Some e)) eqn:Enf; [|by intros ? ? [=]].
    eapply law_no_variant in Ef; [|exact Hv|exact Enf].
    apply yields_bind. eapply yields_mono; [by eapply (openLine_yields svc view now _ id)|].
    intros r st2 (Hlt & -> & Hf & ls1 & Hp1 & Hs1). apply yields_bind.
    eapply yields_mono; [eapply (fold_add_ons_yields _ id _ _ _ _ (on_lines (fun _ => ls1) v))|].
    + by eapply shows_lookup.
    + simpl. rewrite Hp1, fmap_cons. apply NoDup_cons. split; [done|apply Hsh].
    + simpl. rewrite Hp1. simpl. lia.
    + lia.
    + intros [] st3 (new & ls & Hnew & Hp & Hnd & Hmax & Hs2). simpl in Hp, Hs2. rewrite Hm in Hnew.
      set (root := new_line _ now) in *.
      assert (opening root new (cv_lines v)) as Hop.
      { eapply (carried_opening source line); [done..| | |exact Hp1|exact Hp|done].
        - reflexivity.
        - exact Hnew. }
      assert (added now (li_VariantID line) (li_Properties line) (li_AddOnKey line) (li_Quantity line) v root
        (on_lines (fun _ => ls) v)) as Ha.
      { apply ad_opened with (add_ons := new); [done|by split_and!|done| |done].
        rewrite Hp, Hp1. symmetry. cbn [app]. apply Permutation_middle. }
      assert (shows view st1 st3 id (on_lines (fun _ => ls) v)) as Hs by by eapply shows_trans.
      eapply yields_mono; [eapply IH|].
      * by eapply shows_lookup.
      * eapply edits_keep_shape; [|done]. eapply added_edit; [done| |exact Ha]. unfold MinQuantity in Hq. lia.
      * simpl. rewrite Hp, Hp1, length_app. simpl. rewrite Hm, <- (Forall2_length _ _ _ Hnew). lia.
      * intros [] st' (v' & Hs' & Hf'). exists v'. split; [by eapply shows_trans|].
        eapply folded_cons; [done|done|done|exact Ha| |exact Hf']. intros _.
        rewrite (lot_root source line) by done. cbn [cv_lines on_lines].
        rewrite (lot_opening _ root new (cv_lines v)); [|done|apply Hsh|rewrite Hp, Hp1; symmetry; apply Permutation_middle].
        rewrite decide_True by done. rewrite !fmap_cons. apply reflexive_eq.
        f_equal. by eapply carried_goods.
Qed.
End MergeFacts.

(** * A merge refines the account, and adds the source to the target *)

(** What the target is after a merge. *)
Record merged (now : moment) (vs vt vt' : CartView) : Prop := {
  mg_move : vt' = vt \/ move now vt vt';
  mg_untouched : cv_methods vt' = cv_methods vt /\ cv_addresses vt' = cv_addresses vt /\
    (cv_cart vt' = cv_cart vt \/ cv_cart vt' = bumped now (cv_cart vt));
  mg_units i : units i (cv_lines vt') = units i (cv_lines vt) + units i (cv_lines vs);
  mg_lots i : lot i (cv_lines vt') ≡ₚ if decide (stocked i (cv_lines vt)) then lot i (cv_lines vt) else lot i (cv_lines vs);
  mg_codes c : c ∈ cv_codes vt' <-> c ∈ cv_codes vt \/ c ∈ cv_codes vs
}.

Lemma mergeable_None s t : mergeable s t = None ->
  Completed s = false /\ Completed t = false /\ cart_RegionID s = cart_RegionID t /\
  cart_CurrencyCode s = cart_CurrencyCode t /\
  (cart_CustomerID s <> EmptyString -> cart_CustomerID s = cart_CustomerID t) /\
  cart_AddsToOrderID s = cart_AddsToOrderID t.
Proof.
  unfold mergeable. destruct (Completed s), (Completed t); try done.
  case_bool_decide; [|done]. case_bool_decide; [|done]. cbn [negb].
  case_bool_decide as Hc; [done|]. case_bool_decide; [|done]. intros _. split_and!; try done.
  intros Hne. destruct (decide (cart_CustomerID s = cart_CustomerID t)); [done|]. by destruct Hc.
Qed.

Section Merged.
Context {St : Type} (svc : Service St) (view : St -> gmap string CartView) `{!CartLaws svc view}.
Context (now : moment) (newID : nat -> string).
Implicit Types (st : St) (v : CartView).

Lemma fold_codes_yields id already moved codes st v : view st !! id = Some v ->
  codes_ok (cv_codes v) -> NoDup codes -> Forall code_ok codes ->
  (forall c, c ∈ codes -> c ∈ cv_codes v <-> c ∈ already) ->
  Z.of_nat (length (cv_codes v)) = Z.of_nat (size already) + moved ->
  yields st (fold_codes svc now id already moved codes) (fun r st' => exists k,
    shows view st st' id (on_codes (fun _ => k) v) /\ codes_ok k /\
    (forall c, c ∈ k <-> c ∈ cv_codes v \/ c ∈ codes) /\ moved <= r /\ (r = moved -> k = cv_codes v)).
Proof.
  revert moved st v. induction codes as [|code rest IH]; intros moved st v Hv Hok Hnd Hcodes Hin Hlen;
    cbn [fold_codes].
  { apply yields_ret. exists (cv_codes v). split; [destruct v; by apply shows_refl|]. split; [done|].
    split; [|by split]. intros c. split; [by left|]. by intros [?|?%not_elem_of_nil]. }
  apply NoDup_cons in Hnd as [Hnew Hnd]. apply Forall_cons in Hcodes as [Hcode Hcodes].
  case_bool_decide as Ha.
  { eapply yields_mono; [apply IH; try done; intros c ?; apply Hin; by right|].
    intros r st' (k & Hs & Hk & Hc & Hr). exists k. split; [done|]. split; [done|]. split; [|done].
    intros c. rewrite Hc, elem_of_cons. assert (code ∈ cv_codes v) by (apply Hin; [by left|done]).
    split; [tauto|]. intros [?|[->|?]]; tauto. }
  assert (code ∉ cv_codes v) as Hnv by (intros E; apply Ha, Hin; [by left|done]).
  destruct Hok as [Hnd' Hlim Hall].
  tx_step. destruct (Z.leb_spec MaxPromotionCodes (Z.of_nat (size already) + moved)); [done|].
  tx_step. tx_step. match goal with H : _ = (_, None) |- _ => eapply law_add_code in H as (k1 & Hp & Hs1); [|done..] end.
  eapply yields_mono; [apply (IH (moved + 1) _ (on_codes (fun _ => k1) v)); [by eapply shows_lookup| |done|done| |]|].
  - split; simpl; rewrite Hp; [by apply NoDup_cons|simpl; lia|by constructor].
  - intros c Hc. simpl. rewrite Hp, elem_of_cons. split.
    + intros [->|?]; [done|]. apply Hin; [by right|done].
    + intros ?. right. apply Hin; [by right|done].
  - simpl. rewrite Hp. simpl. lia.
  - intros r st2 (k & Hs & Hk & Hc & Hr & _). exists k. split; [by eapply shows_trans|]. split; [done|].
    split; [|split; [lia|lia]]. intros c. rewrite Hc. simpl. rewrite Hp, !elem_of_cons. tauto.
Qed.

Lemma lockPair_yields source target st : yields st (lockPair svc source target) (fun p st' =>
  st' = st /\ exists vs vt, view st !! source = Some vs /\ view st !! target = Some vt /\
    p = (cv_cart vs, cv_cart vt) /\ cart_ID (cv_cart vs) = source /\ cart_ID (cv_cart vt) = target).
Proof.
  unfold lockPair. destruct (0 <? _).
  - do 4 tx_step. repeat match goal with H : db_LockCart _ _ _ = Ok _ |- _ =>
      apply law_lock in H as (? & ? & <- & ?) end. apply yields_ret. split; [done|]. by do 2 eexists.
  - do 4 tx_step. repeat match goal with H : db_LockCart _ _ _ = Ok _ |- _ =>
      apply law_lock in H as (? & ? & <- & ?) end. apply yields_ret. split; [done|]. by do 2 eexists.
Qed.

Lemma foldLines_yields source target st vs vt : source <> target ->
  view st !! source = Some vs -> view st !! target = Some vt -> shape_ok vs -> shape_ok vt ->
  cart_ID (cv_cart vs) = source -> cart_ID (cv_cart vt) = target ->
  yields st (foldLines svc now newID (cv_cart vs) (cv_cart vt)) (fun n st' =>
    n = Z.of_nat (length (cv_lines vs)) /\ edited view st target (folded now (cv_lines vs) vt (cv_lines vs)) st').
Proof.
  intros Hne Hs Ht Hss Hst Hids Hidt. unfold foldLines. rewrite Hids, Hidt.
  tx_step. tx_step. match goal with H : db_ListLineItems _ _ _ = _ |- _ => eapply law_list_lines in H as ->; [|exact Hs] end.
  tx_step. tx_step. match goal with H : group_add_ons _ _ _ = Ok _ |- _ => rename H into Hg end.
  tx_step. tx_step. match goal with H : db_CountLineItems _ _ _ = _ |- _ => eapply law_count_lines in H as ->; [|exact Ht] end.
  apply yields_bind. eapply yields_mono; [eapply (fold_lines_yields svc view now newID (cv_lines vs)); try done|].
  - apply Hss.
  - intros p. rewrite (group_add_ons_Ok _ _ _ _ Hg p). by rewrite lookup_empty.
  - intros [] st' He. by apply yields_ret.
Qed.

Lemma foldCodes_yields source target st vs vt : source <> target ->
  view st !! source = Some vs -> view st !! target = Some vt ->
  codes_ok (cv_codes vs) -> codes_ok (cv_codes vt) ->
  forall cs ct, cart_ID cs = source -> cart_ID ct = target ->
  yields st (foldCodes svc now cs ct) (fun n st' => exists k,
    shows view st st' target (on_codes (fun _ => k) vt) /\ codes_ok k /\
    (forall c, c ∈ k <-> c ∈ cv_codes vt \/ c ∈ cv_codes vs) /\ 0 <= n /\ (n = 0 -> k = cv_codes vt)).
Proof.
  intros Hne Hs Ht [Hnds _ Hall] Hok cs ct Ecs Ect. unfold foldCodes. rewrite Ecs, Ect.
  tx_step. tx_step. match goal with H : db_ListPromotionCodes _ _ _ = _ |- _ => eapply law_list_codes in H as ->; [|exact Hs] end.
  case_bool_decide as E.
  { apply yields_ret. exists (cv_codes vt). split; [destruct vt; by apply shows_refl|]. split; [done|].
    rewrite E. split; [|done]. intros c. split; [by left|]. by intros [?|?%not_elem_of_nil]. }
  tx_step. tx_step. match goal with H : db_ListPromotionCodes _ _ _ = _ |- _ => eapply law_list_codes in H as ->; [|exact Ht] end.
  apply fold_codes_yields; try done.
  - intros c _. by rewrite elem_of_list_to_set.
  - rewrite size_list_to_set by apply Hok. lia.
Qed.

Lemma MergeCart_yields source target st : carts_ok (view st) ->
  yields st (MergeCart svc now newID source target) (fun _ st' => source <> target /\
    exists vs vt vt', view st !! source = Some vs /\ view st !! target = Some vt /\
      mergeable (cv_cart vs) (cv_cart vt) = None /\ merged now vs vt vt' /\
      view st' = delete source (<[target := vt']> (view st))).
Proof.
  intros Hok. unfold MergeCart. tx_step. tx_step. tx_step.
  case_bool_decide as Hne; [done|]. unfold WithTx. tx_step. apply yields_bind.
  eapply yields_mono; [apply lockPair_yields|]. intros p st0 (-> & vs & vt & Hs & Ht & -> & Hids & Hidt).
  cbn [fst snd]. tx_step. match goal with H : mergeable _ _ = None |- _ =>
    rename H into Hm; pose proof (mergeable_None _ _ Hm) as (Hos & Hot & _) end.
  pose proof (vk_shape _ _ (Hok _ _ Hs)) as Hss. pose proof (vk_shape _ _ (Hok _ _ Ht)) as Hst.
  apply yields_bind. eapply yields_mono; [by eapply foldLines_yields|].
  intros n st1 (-> & v1 & Hs1 & [He Hlo Hu Hlot Hnil]).
  assert (cv_codes v1 = cv_codes vt) as Hc1 by (by rewrite Hlo).
  assert (view st1 !! source = Some vs) as Hvs1 by (unfold shows in Hs1; by rewrite Hs1, lookup_insert_ne).
  apply yields_bind. eapply yields_mono.
  { eapply (foldCodes_yields source target st1 vs v1); [done|done|by eapply shows_lookup|apply Hss| |done|done].
    rewrite Hc1. apply Hst. }
  intros m st2 (k & Hs2 & Hk & Hc & Hpos & Hzero).
  pose proof (shows_trans view _ _ _ _ _ _ Hs1 Hs2) as Hs12.
  assert (view st2 !! source = Some vs) as Hvs2 by (unfold shows in Hs12; by rewrite Hs12, lookup_insert_ne).
  set (v2 := on_codes (fun _ => k) v1) in *.
  assert (rtc (edit now) vt v2) as He2 by (etrans; [exact He|apply rtc_once; by apply ed_codes]).
  assert (forall i, units i (cv_lines v2) = units i (cv_lines vt) + units i (cv_lines vs)) as Hu2 by apply Hu.
  assert (forall i, lot i (cv_lines v2) ≡ₚ
    if decide (stocked i (cv_lines vt)) then lot i (cv_lines vt) else lot i (cv_lines vs)) as Hl2.
  { intros i. simpl. rewrite Hlot. case_decide; [done|]. case_decide; [done|]. by rewrite lot_none. }
  assert (forall c, c ∈ cv_codes v2 <-> c ∈ cv_codes vt \/ c ∈ cv_codes vs) as Hc2.
  { intros c. simpl. by rewrite Hc, Hc1. }
  rewrite Hids. apply yields_bind. eapply yields_mono; [by eapply (delete_all_yields svc view now)|]. intros [] st3 Hv3.
  assert (view st3 !! target = Some v2) as Ht3.
  { rewrite Hv3, lookup_delete_ne by done. by eapply shows_lookup. }
  unfold shows in Hs12. destruct (Z.eqb_spec (Z.of_nat (length (cv_lines vs)) + m) 0) as [E0|E0].
  - apply yields_ret. split; [done|]. exists vs, vt, v2. split_and!; [done..| |by rewrite Hv3, Hs12].
    assert (cv_lines vs = []) as Enil by (destruct (cv_lines vs); [done|simpl in E0; lia]).
    assert (v2 = vt) as ->.
    { unfold v2. rewrite Hzero by lia. rewrite Hnil by done. by destruct vt. }
    split; [by left|by auto|done|exact Hl2|done].
  - rewrite Hidt. intros st4 c Hb. eapply law_bump in Hb as [_ Hb]; [|exact Ht3].
    split; [done|]. exists vs, vt, (on_cart (bumped now) v2). split_and!; [done..| |].
    + split; [right; by apply mv_edit|simpl; rewrite Hlo; by auto|exact Hu2|exact Hl2|exact Hc2].
    + unfold shows in Hb. rewrite Hb, Hv3, Hs12. rewrite <- delete_insert_ne by done. by rewrite insert_insert_eq.
Qed.

Lemma MergeCart_step source target st : carts_ok (view st) ->
  yields st (MergeCart svc now newID source target) (fun _ st' => step now (view st) (view st')).
Proof.
  intros Hok. eapply yields_mono; [by apply MergeCart_yields|].
  intros c st' (Hne & vs & vt & vt' & Hs & Ht & Hm & Hmg & ->).
  apply mergeable_None in Hm as (Hos & Hot & _). eapply st_merge; try done. apply Hmg.
Qed.
End Merged.
