(* ===== verification/CartMemory.v ===== *)
(** * The cart's tables in memory

    An instance of the store after [internal/modules/cart/repository] and its queries: it shows
    that [CartLaws] can hold and is what the operations are tried on. *)
From S2P Require Import Prelude GoText Errors Tx CartModels CartTotals CartStore CartMoves CartService.

Definition cart_not_found (id : string) : err := NotFound "cart_not_found" "cart not found: %s" [AStr id].

Definition line_not_found (id line : string) : err :=
  NotFound CodeLineItemNotFound "cart line item not found (cart: %s, line: %s)" [AStr id; AStr line].

Definition row_conflict (code : string) : err := Conflict code "a constraint was violated" [].

Definition find_cart (id : string) (st : world) : result Cart :=
  match st !! id with
  | Some v => if bool_decide (cart_ID (cv_cart v) = id) then Ok (cv_cart v) else Fail (cart_not_found id)
  | None => Fail (cart_not_found id)
  end.

(** An update of rows that answers nothing. *)
Definition update_rows (id : string) (f : CartView -> CartView) (st : world) : world * option err :=
  (alter f id st, None).

(** An update of the cart's row that answers it; a completed cart has no such row. *)
Definition update_cart (id : string) (f : Cart -> Cart) (st : world) : world * result Cart :=
  match st !! id with
  | Some v =>
      if Completed (cv_cart v) then (st, Fail (cart_not_found id))
      else (<[id := on_cart f v]> st, Ok (f (cv_cart v)))
  | None => (st, Fail (cart_not_found id))
  end.

Definition find_line (id : string) (P : LineItem -> bool) (e : err) (st : world) : result LineItem :=
  match st !! id with
  | Some v => match head (filter (fun l => P l = true) (cv_lines v)) with Some l => Ok l | None => Fail e end
  | None => Fail e
  end.

Definition rows_of {A} (id : string) (f : CartView -> list A) (st : world) : list A :=
  match st !! id with Some v => f v | None => [] end.

(** The identifiers of the carts a test finds, in order. *)
Definition carts_that (P : Cart -> bool) (st : world) : list string :=
  SortFunc cmpS (map_to_list (filter (fun p => P (cv_cart p.2) = true) st)).*1.

(** The carts untouched since the cutoff, the oldest first. *)
Definition abandoned (cutoff : moment) (st : world) : list string :=
  fst <$> SortFunc (cmp_then (cmp_on (fun p => cart_UpdatedAt (cv_cart p.2)) cmpZ) (cmp_on fst cmpS))
    (map_to_list (filter (fun p => negb (Completed (cv_cart p.2)) && (cart_UpdatedAt (cv_cart p.2) <? cutoff) = true) st)).

Definition memory_store : Store world := mkStore world
  (fun _ => None)
  (fun c now st =>
    if bool_decide (is_Some (st !! cart_ID c)) then (st, Fail (row_conflict "cart_exists"))
    else (<[cart_ID c := mkCartView (new_row c now) [] [] [] []]> st, Ok (new_row c now)))
  find_cart
  find_cart
  (fun id contact now => update_cart id (with_contact contact now))
  (fun id t now => update_cart id (with_totals t now))
  (fun id now => update_cart id (bumped now))
  (fun id now => update_cart id (stamped_completed now))
  (fun id now st => if bool_decide (is_Some (st !! id)) then (delete id st, None)
    else (st, Some (cart_not_found id)))
  (fun item now st =>
    match st !! li_CartID item with
    | Some v =>
        if bool_decide (li_ID item ∈ li_ID <$> cv_lines v) then (st, Fail (row_conflict "cart_line_item_exists"))
        else (<[li_CartID item := on_lines (fun ls => ls ++ [new_line item now]) v]> st, Ok (new_line item now))
    | None => (st, Fail (cart_not_found (li_CartID item)))
    end)
  (fun id line => find_line id (fun l => bool_decide (li_ID l = line)) (line_not_found id line))
  (fun id variant props key =>
    find_line id (fun l => bool_decide (has_identity variant props key l)) (line_not_found id variant))
  (fun id parent q now => update_rows id (on_lines (fmap (set_add_on_quantity parent q now))))
  (fun id parent now => update_rows id (on_lines (filter (fun l => ~ is_add_on_of parent l))))
  (fun id st => Ok (rows_of id cv_lines st))
  (fun id st => Ok (Z.of_nat (length (rows_of id cv_lines st))))
  (fun id line q now st =>
    match find_line id (fun l => bool_decide (li_ID l = line)) (line_not_found id line) st with
    | Ok l => (alter (on_lines (fmap (set_quantity_of line q now))) id st, Ok (with_quantity q now l))
    | Fail e => (st, Fail e)
    end)
  (fun id rows now st =>
    if bool_decide (Forall (fun r => lit_LineItemID r ∈ li_ID <$> rows_of id cv_lines st) rows) then
      update_rows id (on_lines (fmap (set_totals_of rows now))) st
    else (st, Some (line_not_found id EmptyString)))
  (fun id line now st =>
    if bool_decide (line ∈ li_ID <$> rows_of id cv_lines st) then
      update_rows id (on_lines (filter (fun l => ~ is_line line l))) st
    else (st, Some (line_not_found id line)))
  (fun id now => update_rows id (on_lines (fun _ => [])))
  (fun a now st => (alter (on_addresses (fun k => a :: filter (fun x => ad_Type x <> ad_Type a) k)) (ad_CartID a) st, Ok a))
  (fun id st => Ok (rows_of id cv_addresses st))
  (fun id now => update_rows id (on_addresses (fun _ => [])))
  (fun m now st => (alter (on_methods (fun k => k ++ [m])) (sm_CartID m) st, Ok m))
  (fun id st => Ok (rows_of id cv_methods st))
  (fun id m now => update_rows id (on_methods (filter (fun x => sm_ID x <> m))))
  (fun id now => update_rows id (on_methods (fun _ => [])))
  (fun id code now => update_rows id (on_codes (fun k => k ++ [code])))
  (fun id st => Ok (rows_of id cv_codes st))
  (fun id code st =>
    if bool_decide (code ∈ rows_of id cv_codes st) then
      update_rows id (on_codes (filter (fun c => c <> code))) st
    else (st, Some (NotFound "cart_promotion_code_not_found" "the cart is not holding that coupon code: %s" [AStr code])))
  (fun id => update_rows id (on_codes (fun _ => [])))
  (fun eid name payload st => (st, None))
  (fun customerID email st => Ok (carts_that (of_subject customerID email) st))
  (fun ids now st => (on_carts ids (on_cart (without_email now)) st, Ok (Z.of_nat (length ids))))
  (fun ids now st => (on_carts ids (on_addresses (fmap (anonymous_address now))) st,
    Ok (sumZ ((fun id => Z.of_nat (length (rows_of id cv_addresses st))) <$> ids))))
  (fun cutoff limit st =>
    let gone := take (Z.to_nat limit) (abandoned cutoff st) in
    Ok (filter (fun p => p.1 ∉ (list_to_set gone : gset string)) st, Z.of_nat (length gone))).

(** Events go nowhere; the lower case of ASCII letters is enough for the carts tried here. Open carts are
    kept for a thousand nanoseconds. *)
Definition memory : Service world :=
  mkService world memory_store (fun _ st => (st, None)) (fun s => s) 1000.


Lemma alter_insert_some (f : CartView -> CartView) id (st : world) v : st !! id = Some v ->
  alter f id st = <[id := f v]> st.
Proof.
  intros H. apply map_eq. intros j. destruct (decide (j = id)) as [->|Hne].
  - by rewrite lookup_alter_eq, H, lookup_insert_eq.
  - by rewrite lookup_alter_ne, lookup_insert_ne.
Qed.

Lemma update_rows_shows (f : CartView -> CartView) id (st st' : world) v : st !! id = Some v ->
  update_rows id f st = (st', None) -> st' = <[id := f v]> st.
Proof. intros H [= <-]. by apply alter_insert_some. Qed.

Lemma update_cart_shows f id (st st' : world) v r : st !! id = Some v ->
  update_cart id f st = (st', Ok r) -> r = f (cv_cart v) /\ st' = <[id := on_cart f v]> st.
Proof. unfold update_cart. intros ->. destruct (Completed _); [done|]. by intros [= <- <-]. Qed.

Lemma find_line_Ok id P e (st : world) v l : st !! id = Some v -> find_line id P e st = Ok l ->
  l ∈ cv_lines v /\ P l = true.
Proof.
  unfold find_line. intros ->. destruct (head _) as [x|] eqn:E; [|done]. intros [= <-].
  by apply head_Some_elem_of, list_elem_of_filter in E as [? ?].
Qed.

#[export] Instance memory_laws : CartLaws memory (fun st => st).
Proof.
  split; unfold shows; cbn; intros.
  all: repeat match goal with H : ?P |- _ => match type of P with Prop => revert H end end.
  - unfold find_cart. destruct (st !! id) as [v|]; [|done]. case_bool_decide; [|done]. intros [= <-]. by exists v.
  - unfold find_cart. destruct (st !! id) as [v|]; [|done]. case_bool_decide; [|done]. intros [= <-]. by exists v.
  - unfold rows_of. intros ->. by intros [= <-].
  - case_bool_decide as E; [done|]. intros [= <- <-]. by apply eq_None_not_Some in E.
  - intros Hv E. by apply (update_cart_shows _ _ _ _ _ _ Hv) in E as [_ ->].
  - intros Hv E. by apply (update_cart_shows _ _ _ _ _ _ Hv) in E as [_ ->].
  - intros Hv E. by apply (update_cart_shows _ _ _ _ _ _ Hv) in E.
  - intros Hv E. by apply (update_cart_shows _ _ _ _ _ _ Hv) in E.
  - case_bool_decide; [|done]. by intros [= <-].
  - intros ->. case_bool_decide; [done|]. intros [= <- <-]. split; [done|]. split; [done|].
    eexists. split; [|done]. rewrite Permutation_app_comm. done.
  - intros Hv [? H%bool_decide_eq_true]%(find_line_Ok _ _ _ _ _ _ Hv). done.
  - intros Hv [? H%bool_decide_eq_true]%(find_line_Ok _ _ _ _ _ _ Hv). done.
  - intros Hv. unfold find_line. rewrite Hv. destruct (head _) as [x|] eqn:E; [done|]. intros _ _.
    apply head_None in E. apply Forall_forall. intros l Hl Hi.
    assert (l ∈ filter (fun l => bool_decide (has_identity variant props key l) = true) (cv_lines v)) as Hf.
    { apply list_elem_of_filter. by rewrite bool_decide_eq_true. }
    rewrite E in Hf. by apply not_elem_of_nil in Hf.
  - unfold rows_of. intros ->. by intros [= <-].
  - unfold rows_of. intros ->. by intros [= <-].
  - intros Hv. destruct (find_line _ _ _ _) as [l|] eqn:E; [|done]. intros [= <- <-].
    apply (find_line_Ok _ _ _ _ _ _ Hv) in E as [? H%bool_decide_eq_true]. split; [by exists l|].
    by apply alter_insert_some.
  - apply update_rows_shows.
  - apply update_rows_shows.
  - intros Hv. case_bool_decide; [|done]. by apply update_rows_shows.
  - apply update_rows_shows.
  - intros Hv. case_bool_decide; [|done]. by apply update_rows_shows.
  - intros Hv [= <- <-]. eexists. split; [|by rewrite (alter_insert_some _ _ _ _ Hv)]. done.
  - apply update_rows_shows.
  - intros Hv [= <- <-]. eexists. split; [|by rewrite (alter_insert_some _ _ _ _ Hv)].
    by rewrite Permutation_app_comm.
  - apply update_rows_shows.
  - apply update_rows_shows.
  - intros Hv _ E. eexists. split; [|by rewrite (update_rows_shows _ _ _ _ _ Hv E)]. by rewrite Permutation_app_comm.
  - unfold rows_of. intros ->. by intros [= <-].
  - intros Hv. case_bool_decide; [|done]. by apply update_rows_shows.
  - apply update_rows_shows.
  - by intros [= <-].
  - done.
  - intros [= <-] Hv. unfold carts_that. rewrite SortFunc_perm, list_elem_of_fmap. split.
    + intros ([i u] & -> & [Hu Hp]%elem_of_map_to_list%map_lookup_filter_Some). cbn in *. congruence.
    + intros Hp. exists (id, v). split; [done|]. by apply elem_of_map_to_list, map_lookup_filter_Some.
  - by intros [= <- <-].
  - by intros [= <- <-].
  - intros Hl [= <- <-]. eexists. split; [|split; [reflexivity|]].
    + assert (NoDup (take (Z.to_nat limit) (abandoned cutoff st))) as Hnd.
      { apply (sublist_NoDup _ (abandoned cutoff st)); [|apply sublist_take]. unfold abandoned. rewrite SortFunc_perm.
        apply NoDup_fst_map_to_list. }
      split; [by rewrite size_list_to_set|]. pose proof (length_take (abandoned cutoff st) (Z.to_nat limit)). lia.
    + intros id Hid%elem_of_list_to_set%elem_of_take. destruct Hid as (i & Hi & _). apply list_elem_of_lookup_2 in Hi.
      unfold abandoned in Hi. apply list_elem_of_fmap in Hi as ([k u] & -> & Hu).
      rewrite SortFunc_perm in Hu. apply elem_of_map_to_list, map_lookup_filter_Some in Hu as [Hu Hp].
      cbn in *. apply andb_true_iff in Hp as [Hp1%negb_true_iff Hp2%Z.ltb_lt]. by exists u.
Qed.
