(* ===== verification/CartProps.v ===== *)
(** * Any sequence of calls on the carts

    The writes of the cart service as one type, the shop's calls, the erasure of a person's data and the
    deletion of abandoned carts, and what every one of them keeps. *)
From S2P Require Import Prelude GoText Errors Tx CartModels CartTotals CartStore CartMoves CartService CartLines CartUnits CartMemory.

Import PersonalData.

Inductive request :=
| ReqCreateCart (in_ : CreateCartInput)
| ReqGetCart (id : string)
| ReqUpdateCart (id : string) (in_ : UpdateCartInput)
| ReqDeleteCart (id : string)
| ReqMarkCompleted (clock : moment) (id : string)
| ReqAddLineItem (id : string) (in_ : AddLineItemInput)
| ReqUpdateLineItemQuantity (id line : string) (q : Z)
| ReqRemoveLineItem (id line : string)
| ReqAddShippingMethod (id : string) (in_ : AddShippingMethodInput)
| ReqRemoveShippingMethod (id method : string)
| ReqAddPromotionCode (id code : string)
| ReqRemovePromotionCode (id code : string)
| ReqSetShippingAddress (id : string) (in_ : AddressInput)
| ReqSetBillingAddress (id : string) (in_ : AddressInput)
| ReqSetTotals (id : string) (t : Totals)
| ReqMergeCart (source target : string)
| ReqErase (subject : Subject)
| ReqDeleteAbandonedCarts (at_ : moment) (limit : Z).

Section Requests.
Context {St : Type} (svc : Service St).

Definition perform (now : moment) (newID : nat -> string) (r : request) : tx St unit :=
  match r with
  | ReqCreateCart in_ => ignore (CreateCart svc now newID in_)
  | ReqGetCart id => ignore (GetCart svc id)
  | ReqUpdateCart id in_ => ignore (UpdateCart svc now id in_)
  | ReqDeleteCart id => DeleteCart svc now id
  | ReqMarkCompleted clock id => ignore (MarkCompleted svc now clock id)
  | ReqAddLineItem id in_ => ignore (AddLineItem svc now newID id in_)
  | ReqUpdateLineItemQuantity id line q => ignore (UpdateLineItemQuantity svc now id line q)
  | ReqRemoveLineItem id line => RemoveLineItem svc now id line
  | ReqAddShippingMethod id in_ => ignore (AddShippingMethod svc now newID id in_)
  | ReqRemoveShippingMethod id m => RemoveShippingMethod svc now id m
  | ReqAddPromotionCode id code => ignore (AddPromotionCode svc now id code)
  | ReqRemovePromotionCode id code => RemovePromotionCode svc now id code
  | ReqSetShippingAddress id in_ => ignore (SetShippingAddress svc now newID id in_)
  | ReqSetBillingAddress id in_ => ignore (SetBillingAddress svc now newID id in_)
  | ReqSetTotals id t => SetTotals svc now id t
  | ReqMergeCart source target => ignore (MergeCart svc now newID source target)
  | ReqErase subject => ignore (Erase svc now subject)
  | ReqDeleteAbandonedCarts at_ limit => ignore (DeleteAbandonedCarts svc at_ limit)
  end.

(** One call after another; each comes with its time and its identifiers. *)
Definition serve (calls : list (moment * (nat -> string) * request)) (st : St) : St :=
  foldl (fun st c => (perform c.1.1 c.1.2 c.2 st).1) st calls.

(** ** A failed call changes nothing *)

Lemma atomic_mutate {A} now id (fn : Cart -> tx St A) : atomic (mutate svc now id fn).
Proof. apply atomic_guard, atomic_atomically. Qed.

(** After the transaction only an event is published and the result returned. *)
Lemma atomic_publish {A B} topic (m : tx St A) (cart : A -> Cart) (at_ : A -> moment) (g : A -> B) :
  atomic m -> atomic (m ≫= fun a => publishCartEvent svc topic (cart a) (at_ a) ≫= fun _ => mret (g a)).
Proof.
  intros Hm st st' e. unfold mbind at 1, tx_bind. destruct (m st) as [st1 [a|e']] eqn:E; [done|].
  intros [= <- <-]. by apply (Hm st st1 e').
Qed.

Ltac atomic_tac :=
  repeat first
    [ apply atomic_guard
    | apply atomic_pure; intros ? ?
    | apply atomic_mutate
    | apply atomic_atomically
    | apply atomic_publish
    | apply atomic_after ].

Lemma DeleteAbandonedCarts_atomic at_ limit : atomic (DeleteAbandonedCarts svc at_ limit).
Proof.
  unfold DeleteAbandonedCarts. destruct (_ || _); [done|]. intros st st' e.
  by destruct (db_DeleteAbandonedCarts _ _ _ st) as [[st1 n]|e1]; intros [= <- <-].
Qed.

Lemma perform_atomic now newID r : atomic (perform now newID r).
Proof.
  destruct r; cbn [perform]; try apply atomic_after, DeleteAbandonedCarts_atomic; unfold ignore, CreateCart, GetCart, UpdateCart, DeleteCart, MarkCompleted, AddLineItem,
    UpdateLineItemQuantity, RemoveLineItem, AddShippingMethod, RemoveShippingMethod, AddPromotionCode,
    RemovePromotionCode, SetShippingAddress, SetBillingAddress, setAddress, SetTotals, MergeCart, Erase, WithTx;
    atomic_tac.
Qed.

(** ** A call that succeeds is a step *)

Context (view : St -> gmap string CartView) `{!CartLaws svc view}.

Lemma GetCart_step now id st : yields st (GetCart svc id) (fun _ st' => step now (view st) (view st')).
Proof. unfold GetCart, WithTx. do 12 tx_step. apply yields_ret. constructor. Qed.

(** What an erasure did: it reached the carts of the subject and no other. *)
Definition erased_by (subject : Subject) (now : moment) (w w' : gmap string CartView) : Prop :=
  exists customerID email, normalizeErasureSubject svc subject = Ok (customerID, email) /\
    erased customerID email now w w'.

(** It answers for the carts it found. *)
Lemma Erase_yields now subject st :
  yields st (Erase svc now subject) (fun r st' => exists customerID email rows carts,
    normalizeErasureSubject svc subject = Ok (customerID, email) /\
    erased customerID email now (view st) (view st') /\ r = erasureResult rows carts /\
    (carts = O -> forall id v, view st !! id = Some v -> of_subject customerID email (cv_cart v) = false)).
Proof.
  unfold Erase, WithTx. tx_step. tx_step.
  match goal with E : normalizeErasureSubject _ _ = Ok ?who |- _ => destruct who as [customerID email]; rename E into Ewho end.
  apply yields_bind, yields_atomically. tx_step. tx_step.
  match goal with E : db_CartsForErasure _ _ _ _ = Ok ?ids |- _ => rename ids into found; rename E into Eids end.
  pose proof (law_for_erasure _ _ _ _ Eids) as Hids. destruct found as [|i found].
  - do 2 apply yields_ret. exists customerID, email, 0, O. split_and!; [done| |done|].
    + exists []. split; [done|]. apply map_eq. intros id. rewrite lookup_on_carts. by destruct (view st !! id).
    + intros _ id v Hv. destruct (of_subject _ _ _) eqn:Ho; [|done]. apply (Hids id v Hv) in Ho. by apply not_elem_of_nil in Ho.
  - intros st' r E. unfold mbind, tx_bind in E.
    destruct (db_AnonymizeCartContacts _ _ _ st) as [st1 [n|e]] eqn:E1; [|done].
    destruct (db_AnonymizeCartAddresses _ _ _ st1) as [st2 [k|e]] eqn:E2; [|done].
    injection E as <- <-. apply yields_ret. exists customerID, email. eexists _, _. split_and!; [done| |done|done].
    exists (i :: found). split; [done|].
    rewrite (law_anonymize_addresses _ _ _ _ _ E2), (law_anonymize_contacts _ _ _ _ _ E1), on_carts_twice. done.
Qed.

Lemma DeleteAbandonedCarts_step now at_ limit st :
  yields st (DeleteAbandonedCarts svc at_ limit) (fun _ st' => step now (view st) (view st')).
Proof.
  unfold DeleteAbandonedCarts. destruct (_ || _) eqn:Hl; [apply yields_ret; constructor|].
  intros st' n E. destruct (db_DeleteAbandonedCarts _ _ _ st) as [[st1 m]|e] eqn:Ed; [|done]. injection E as <- <-.
  apply orb_false_elim in Hl as [_ Hl%Z.leb_gt].
  destruct (law_delete_abandoned _ _ _ _ _ (Z.lt_le_incl _ _ Hl) Ed) as (gone & _ & -> & Hg). by eapply st_abandon.
Qed.

(** What a call did to the carts: a step, or, where it was an erasure, the erasure of its subject. *)
Definition happened (r : request) (now : moment) (w w' : gmap string CartView) : Prop :=
  step now w w' \/ exists subject, r = ReqErase subject /\ erased_by subject now w w'.

Lemma happened_step r now st (m : tx St unit) : yields st m (fun _ st' => step now (view st) (view st')) ->
  yields st m (fun _ st' => happened r now (view st) (view st')).
Proof. intros H. eapply yields_mono; [exact H|]. by left. Qed.

Lemma perform_happened now newID r st : carts_ok (view st) ->
  yields st (perform now newID r) (fun _ st' => happened r now (view st) (view st')).
Proof.
  intros Hok. destruct r; cbn [perform];
    try (apply happened_step; try apply yields_ignore;
      first [by apply CreateCart_step|by apply GetCart_step|by apply UpdateCart_step|by apply DeleteCart_step
        |by apply MarkCompleted_step|by apply AddLineItem_step|by apply UpdateLineItemQuantity_step
        |by apply RemoveLineItem_step|by apply AddShippingMethod_step|by apply RemoveShippingMethod_step
        |by apply AddPromotionCode_step|by apply RemovePromotionCode_step|by apply setAddress_step
        |by apply SetTotals_step|by apply MergeCart_step|by apply DeleteAbandonedCarts_step]).
  apply yields_ignore. eapply yields_mono; [apply Erase_yields|].
  intros a st' (c & e & _ & _ & Hn & He & _). right. exists subject. split; [done|]. by exists c, e.
Qed.

Lemma perform_moves now newID r st : carts_ok (view st) ->
  happened r now (view st) (view (perform now newID r st).1).
Proof.
  intros Hok. destruct (perform now newID r st) as [st' [u|e]] eqn:E; simpl.
  - by apply (perform_happened now newID r st Hok st' u).
  - rewrite (perform_atomic now newID r st st' e E). left. constructor.
Qed.

Lemma happened_keeps_ok r now w w' : happened r now w w' -> carts_ok w -> carts_ok w'.
Proof. intros [H|(s & _ & c & e & _ & H)]; [by eapply step_keeps_ok|by eapply erased_keeps_ok]. Qed.

(** Induction over a sequence of calls. *)
Lemma serve_ind (P : gmap string CartView -> Prop) calls st : carts_ok (view st) -> P (view st) ->
  (forall c w w', c ∈ calls -> carts_ok w -> happened c.2 c.1.1 w w' -> P w -> P w') ->
  carts_ok (view (serve calls st)) /\ P (view (serve calls st)).
Proof.
  revert st. induction calls as [|c calls IH]; intros st Hok HP Hstep; [done|].
  cbn [serve foldl]. pose proof (perform_moves c.1.1 c.1.2 c.2 st Hok) as Hm. apply IH.
  - by eapply happened_keeps_ok.
  - eapply Hstep; [by left|done..].
  - intros c' w w' Hc'. apply Hstep. by right.
Qed.
End Requests.

(** * The properties of the cart *)

(** ** A sample shop, for the witnesses *)

Module Shop.

Definition ids (prefix : string) (n : nat) : string := String.append prefix (nat_rect _ "0" (fun _ => String.append "i") n).

Definition open_cart : request := ReqCreateCart (mkCreateCartInput "reg_1" EmptyString EmptyString "try" EmptyString EmptyString EmptyString ∅).

Definition wrap : AddOnInput := mkAddOnInput "var_wrap" "Gift wrap" 50 [].

Definition shirt (q : Z) : AddLineItemInput :=
  mkAddLineItemInput "var_shirt" " Shirt " q 1000 ∅ [("engraving", " A.B. ")] [wrap].

Definition mug (q : Z) : AddLineItemInput := mkAddLineItemInput "var_mug" "Mug" q 300 ∅ [] [].

(** Two carts: one with two shirts and their wraps, the other with a mug and a shirt. *)
Definition calls : list (moment * (nat -> string) * request) :=
  [(1, ids "cart_a", open_cart); (2, ids "cart_b", open_cart);
   (3, ids "li_a", ReqAddLineItem "cart_a0" (shirt 2));
   (4, ids "li_b", ReqAddLineItem "cart_b0" (mug 1));
   (5, ids "li_c", ReqAddLineItem "cart_b0" (shirt 1));
   (6, ids "x", ReqAddPromotionCode "cart_b0" " summer20 ")].

Definition shop : world := Eval vm_compute in serve memory calls ∅.

Definition no_cart : CartView :=
  let e := EmptyString in mkCartView (mkCart e e e e e e e e 0 0 0 0 0 0 0 false ∅ None 0 0 None) [] [] [] [].

Definition cart_a : CartView := Eval vm_compute in default no_cart (shop !! "cart_a0").

(** Two shirts at 1000 with wraps at 50, 100 off, 200 tax, 300 shipping. *)
Definition round : Totals :=
  mkTotals 1 2100 100 200 300 2500 false
    [mkLineTotals "li_a0" 1000 2000 100 200 2100; mkLineTotals "li_ai0" 50 100 0 0 100].

Lemma empty_ok : carts_ok ((fun st => st) (∅ : world)).
Proof. unfold carts_ok. apply map_Forall_empty. Qed.

Lemma shop_ok : carts_ok ((fun st => st) shop).
Proof.
  assert (shop = serve memory calls ∅) as -> by (vm_compute; reflexivity).
  apply (serve_ind memory (fun st => st) (fun _ => True) calls ∅ empty_ok I). done.
Qed.

(** A cart with a mug alone besides. *)
Definition more : list (moment * (nat -> string) * request) :=
  [(7, ids "cart_c", open_cart); (8, ids "li_d", ReqAddLineItem "cart_c0" (mug 1))].

Definition lone : world := Eval vm_compute in serve memory more shop.

Lemma lone_ok : carts_ok ((fun st => st) lone).
Proof.
  assert (lone = serve memory more shop) as -> by (vm_compute; reflexivity).
  apply (serve_ind memory (fun st => st) (fun _ => True) more shop shop_ok I). done.
Qed.
End Shop.

(** C12: a calculation round is written exactly when it belongs to the cart. Over any store, on an
    open cart whose statements the database executes: a round made for the cart's present shape, with
    one amount for every line and no other, each line's amounts following from its own price and
    quantity (less its tax where prices include it), the subtotal the sum of the lines' and the total
    following from the parts, all within bounds, is accepted and is what the cart then shows; any
    other round is refused and changes nothing. No step overflows. *)
Theorem SetTotals_exact {St} (svc : Service St) (view : St -> gmap string CartView)
    `{!CartLaws svc view} (now : moment) (id : string) (t : Totals) (st st1 st2 : St) (v : CartView) (c : Cart) :
  carts_ok (view st) -> view st !! id = Some v -> is_open v -> requireID "cart_id" id = None ->
  db_LockCart (svc_store svc) id st = Ok (cv_cart v) ->
  db_ListLineItems (svc_store svc) id st = Ok (cv_lines v) ->
  db_SetLineItemTotals (svc_store svc) id (storeLineTotals (to_Lines t)) now st = (st1, None) ->
  db_UpdateCartTotals (svc_store svc) id (cart_totals t) now st1 = (st2, Ok c) ->
  db_Commit (svc_store svc) st2 = None ->
  (round_ok v t -> SetTotals svc now id t st = (st2, Ok tt) /\
     view st2 = <[id := priced_view t now v]> (view st)) /\
  (~ round_ok v t -> exists e, SetTotals svc now id t st = (st, Fail e)).
Proof.
  intros Hok Hv Ho Hid El Ell Es Et Ec. split.
  - intros Hr. assert (SetTotals svc now id t st = (st2, Ok tt)) as E by by eapply (SetTotals_accepts svc view).
    split; [done|]. destruct (SetTotals_yields svc view now id t st Hok _ _ E) as (v' & Hv' & _ & _ & Hs). unfold shows in Hs. congruence.
  - intros Hn. destruct (SetTotals svc now id t st) as [st' [[]|e]] eqn:E.
    + destruct (SetTotals_yields svc view now id t st Hok _ _ E) as (v' & Hv' & _ & Hr & _).
      destruct Hn. congruence.
    + exists e. f_equal. by apply (perform_atomic svc now (fun _ => EmptyString) (ReqSetTotals id t) st st' e).
Qed.

(** C13: whatever calls are served, in whatever order and over any store that keeps its laws, every
    cart stays sound: a variant with its properties and add-ons stands on one line, quantities and
    prices stay in bounds, an add-on belongs to a living line and has its quantity, lines and codes
    stay within their limits, the codes are distinct and canonical (ASCII without a lower-case letter, 1 to 64
    bytes), the totals are never stamped for a shape the cart has not had, and totals that are current
    add up with the lines. The calls are every write of the service: the shop's, the erasure of a
    person's data and the deletion of abandoned carts. *)
Theorem carts_stay_sound {St} (svc : Service St) (view : St -> gmap string CartView) `{!CartLaws svc view}
    (calls : list (moment * (nat -> string) * request)) (st : St) :
  carts_ok (view st) -> carts_ok (view (serve svc calls st)).
Proof. intros Hok. by apply (serve_ind svc view (fun _ => True) calls st Hok I). Qed.

(** Whether a call is an erasure that names the customer or the e-mail of a cart. *)
Definition erases {St} (svc : Service St) (r : request) (v : CartView) : bool :=
  match r with
  | ReqErase subject =>
      match normalizeErasureSubject svc subject with
      | Ok (customerID, email) => of_subject customerID email (cv_cart v)
      | Fail _ => false
      end
  | _ => false
  end.

(** C27: a completed cart is settled and final, but for the person's right to be forgotten. It has
    lines, its amounts follow from them, and whatever calls follow it is still there; it is the same in
    every row, unless an erasure among the calls named its customer or its e-mail, and then all that
    changed is that the e-mail, the contact cells of its addresses and the address-book pointer are empty
    and the rows restamped: the lines, the amounts, the codes, the shipping methods, the counters and the
    completion are as they were. *)
Theorem completed_cart_final {St} (svc : Service St) (view : St -> gmap string CartView) `{!CartLaws svc view}
    (calls : list (moment * (nat -> string) * request)) (st : St) (id : string) (v : CartView) :
  carts_ok (view st) -> view st !! id = Some v -> Completed (cv_cart v) = true ->
  adds_up v /\ cv_lines v <> [] /\
  exists v', view (serve svc calls st) !! id = Some v' /\
    (v' = v \/ exists c, c ∈ calls /\ erases svc c.2 v = true /\ v' = anonymized c.1.1 v).
Proof.
  intros Hok Hv Hd. destruct (vk_completed _ _ (Hok id v Hv) Hd) as [Hst Hne].
  split; [by apply (vk_current _ _ (Hok id v Hv))|]. split; [done|].
  apply (serve_ind svc view (fun w => exists v', w !! id = Some v' /\
    (v' = v \/ exists c, c ∈ calls /\ erases svc c.2 v = true /\ v' = anonymized c.1.1 v)) calls st Hok);
    [exists v; auto|].
  intros c w w' Hc _ [Hstep|(subject & Er & cust & email & En & He)] (u & Hu & Hcase).
  - exists u. split; [|done]. eapply step_frozen; [done..|]. destruct Hcase as [->|(c' & _ & _ & ->)]; done.
  - eexists. split; [by eapply erased_lookup|]. destruct (of_subject cust email (cv_cart u)) eqn:Ho; [|done].
    right. exists c. split; [done|]. unfold erases. rewrite Er, En. destruct Hcase as [->|(c' & _ & _ & ->)]; [done|].
    split; [by eapply of_subject_anonymized|apply anonymized_twice].
Qed.

(** ** An erasure and its declaration *)








(** An addition adds. When [AddLineItem] answers, the cart holds exactly [Quantity] more of the
    variant with these properties and add-ons and as much as before of anything else, on one line,
    which is the one answered; no other cart changed. *)
Theorem AddLineItem_units {St} (svc : Service St) (view : St -> gmap string CartView) `{!CartLaws svc view}
    (now : moment) (newID : nat -> string) (id : string) (in_ : AddLineItemInput) (st st' : St) (r : LineItem) :
  carts_ok (view st) -> AddLineItem svc now newID id in_ st = (st', Ok r) ->
  exists v v' props addOns key, view st !! id = Some v /\ view st' = <[id := v']> (view st) /\
    NormalizeLineProperties (al_Properties in_) = Ok props /\
    normalizeAddOns (al_AddOns in_) = Ok (addOns, key) /\
    let this := mkIdentity (al_VariantID in_) props key in
    (forall i, units i (cv_lines v') =
      units i (cv_lines v) + (if decide (i = this) then al_Quantity in_ else 0)) /\
    (forall l, l ∈ cv_lines v' -> counts this l -> l = r) /\ r ∈ cv_lines v' /\ counts this r.
Proof.
  intros Hok E.
  destruct (AddLineItem_yields svc view now newID id in_ st Hok _ _ E)
    as (v & v' & props & addOns & key & Hv & Ho & Hvk & Hp & Hk & Hq & Ha & Hs).
  pose proof (vk_shape _ _ Hvk) as Hsh.
  exists v, (on_cart (bumped now) v'), props, addOns, key. split_and!; [done..|].
  assert (shape_ok v') as Hsh'.
  { eapply edits_keep_shape; [|exact Hsh]. eapply added_edit; [done| |exact Ha]. unfold MinQuantity in Hq. lia. }
  pose proof (added_answer _ _ _ _ _ _ _ _ (sh_lines _ Hsh) Ha) as [Hin Hc%has_identity_counts]. split_and!.
  - intros i. simpl. by eapply added_units; [apply Hsh|].
  - simpl. intros l Hl [Hr Hi]. destruct Hc as [Hr' Hi'].
    apply (ls_identity _ (sh_lines _ Hsh')); [done..|]. rewrite <- Hi' in Hi. by injection Hi.
  - done.
  - done.
Qed.

(** C29: a merge loses nothing and invents nothing. Afterwards the source is gone and the target holds
    of every variant with its properties and add-ons what the two held together. Under each of them
    stands the line with the add-on lines the target had, or, where it had none, those of the source
    ([lot]: variant, title, unit price, metadata and properties), and every add-on line belongs to a
    living line and has its quantity. The target's coupon codes are those of either; its shipping
    methods and addresses are as they were, and its row is, but for the revision a change bumps. Every
    other cart is as it was. The two were open, in one region and currency, and the source was nobody
    else's. *)
Theorem MergeCart_conserves {St} (svc : Service St) (view : St -> gmap string CartView) `{!CartLaws svc view}
    (now : moment) (newID : nat -> string) (source target : string) (st st' : St) (c : Cart) :
  carts_ok (view st) -> MergeCart svc now newID source target st = (st', Ok c) ->
  exists vs vt vt', view st !! source = Some vs /\ view st !! target = Some vt /\
    view st' !! source = None /\ view st' !! target = Some vt' /\
    (forall i, units i (cv_lines vt') = units i (cv_lines vt) + units i (cv_lines vs)) /\
    (forall i, lot i (cv_lines vt') ≡ₚ
      if decide (stocked i (cv_lines vt)) then lot i (cv_lines vt) else lot i (cv_lines vs)) /\
    (forall a p, a ∈ cv_lines vt' -> li_ParentLineID a = Some p ->
      exists r, r ∈ cv_lines vt' /\ li_ID r = p /\ is_root r /\ li_Quantity a = li_Quantity r) /\
    (forall code, code ∈ cv_codes vt' <-> code ∈ cv_codes vt \/ code ∈ cv_codes vs) /\
    (cv_methods vt' = cv_methods vt /\ cv_addresses vt' = cv_addresses vt /\
      (cv_cart vt' = cv_cart vt \/ cv_cart vt' = bumped now (cv_cart vt))) /\
    (forall id, id <> source -> id <> target -> view st' !! id = view st !! id) /\
    is_open vs /\ is_open vt /\ cart_RegionID (cv_cart vs) = cart_RegionID (cv_cart vt) /\
    cart_CurrencyCode (cv_cart vs) = cart_CurrencyCode (cv_cart vt) /\
    (cart_CustomerID (cv_cart vs) <> EmptyString ->
      cart_CustomerID (cv_cart vs) = cart_CustomerID (cv_cart vt)).
Proof.
  intros Hok E.
  destruct (MergeCart_yields svc view now newID source target st Hok _ _ E)
    as (Hne & vs & vt & vt' & Hs & Ht & Hm & [Hmove Hsame Hu Hl Hc] & Hv).
  apply mergeable_None in Hm as (? & ? & ? & ? & ? & _).
  exists vs, vt, vt'. rewrite Hv. split_and!; try done.
  - by rewrite lookup_delete_eq.
  - by rewrite lookup_delete_ne, lookup_insert_eq.
  - assert (view_ok target vt') as [_ [Hls _ _] _ _ _].
    { destruct Hmove as [->|Hmove]; [by apply Hok|]. eapply move_keeps_ok; [done|by apply Hok]. }
    intros a p Ha Hp. destruct (ls_add_on _ Hls a p Ha Hp) as (r & ? & ? & ? & _ & ?). by exists r.
  - by destruct Hsame.
  - by destruct Hsame as (_ & ? & _).
  - by destruct Hsame as (_ & _ & ?).
  - intros id Hi1 Hi2. by rewrite lookup_delete_ne, lookup_insert_ne.
Qed.

(** A call that answers an error, whichever call and wherever it failed, left the database as it
    was. *)
Theorem failed_call_changes_nothing {St} (svc : Service St) (now : moment) (newID : nat -> string)
    (r : request) (st st' : St) (e : err) :
  perform svc now newID r st = (st', Fail e) -> st' = st.
Proof. apply perform_atomic. Qed.

(** The identity of a line does not depend on the order things are named in. Properties are
    accepted alike in every order the runtime may yield a map's entries in and make the same map; a
    selection of add-ons is accepted alike in every order and has the same key. *)
Theorem line_identity_order (entries entries' : list (string * string)) (addOns addOns' : list AddOnInput)
    (m : properties) (out : list CleanAddOn) (key : string) :
  entries ≡ₚ entries' -> addOns ≡ₚ addOns' ->
  (NormalizeLineProperties entries = Ok m -> NormalizeLineProperties entries' = Ok m) /\
  (normalizeAddOns addOns = Ok (out, key) ->
    exists out', normalizeAddOns addOns' = Ok (out', key) /\ out' ≡ₚ out).
Proof.
  intros He Ha. split; [by apply NormalizeLineProperties_perm|by apply normalizeAddOns_perm].
Qed.

(** ** Witnesses *)

Module Written.
Definition st1 : world :=
  Eval vm_compute in (db_SetLineItemTotals memory_store "cart_a0" (storeLineTotals (to_Lines Shop.round)) 7 Shop.shop).1.
Definition st2 : world :=
  Eval vm_compute in (db_UpdateCartTotals memory_store "cart_a0" (cart_totals Shop.round) 7 st1).1.
End Written.

Lemma SetTotals_exact_witness :
  ((round_ok Shop.cart_a Shop.round -> SetTotals memory 7 "cart_a0" Shop.round Shop.shop = (Written.st2, Ok tt) /\
     Written.st2 = <["cart_a0" := priced_view Shop.round 7 Shop.cart_a]> Shop.shop) /\
   (~ round_ok Shop.cart_a Shop.round -> exists e,
     SetTotals memory 7 "cart_a0" Shop.round Shop.shop = (Shop.shop, Fail e))) /\
  SetTotals memory 7 "cart_a0" Shop.round Shop.shop = (Written.st2, Ok tt).
Proof.
  split; [|vm_compute; reflexivity].
  eapply (SetTotals_exact memory (fun st => st) 7 "cart_a0" Shop.round Shop.shop Written.st1 Written.st2
    Shop.cart_a _ Shop.shop_ok); vm_compute; reflexivity.
Defined.

Lemma carts_stay_sound_witness :
  carts_ok ((fun st => st) (serve memory Shop.calls ∅)) /\ serve memory Shop.calls ∅ = Shop.shop.
Proof.
  split; [apply (carts_stay_sound memory (fun st => st) Shop.calls ∅ Shop.empty_ok)|vm_compute; reflexivity].
Defined.

Module Sold.
Definition calls : list (moment * (nat -> string) * request) :=
  [(7, Shop.ids "x", ReqSetTotals "cart_a0" Shop.round); (8, Shop.ids "x", ReqMarkCompleted 8 "cart_a0")].
Definition shop : world := Eval vm_compute in serve memory calls Shop.shop.
Definition cart_a : CartView := Eval vm_compute in default Shop.no_cart (shop !! "cart_a0").

Lemma sold_ok : carts_ok ((fun st => st) shop).
Proof.
  assert (shop = serve memory calls Shop.shop) as -> by (vm_compute; reflexivity).
  apply (serve_ind memory (fun st => st) (fun _ => True) calls Shop.shop Shop.shop_ok I). done.
Qed.

(** Calls after the completion, among them the erasure of another person. *)
Definition later : list (moment * (nat -> string) * request) :=
  [(9, Shop.ids "y", ReqAddLineItem "cart_a0" (Shop.mug 1)); (10, Shop.ids "y", ReqDeleteCart "cart_a0");
   (11, Shop.ids "y", ReqMergeCart "cart_a0" "cart_b0");
   (12, Shop.ids "y", ReqErase (mkSubject EmptyString "somebody@example.com"));
   (5000, Shop.ids "y", ReqDeleteAbandonedCarts 5000 100)].
End Sold.

Lemma completed_cart_final_witness :
  (adds_up Sold.cart_a /\ cv_lines Sold.cart_a <> [] /\
  exists v', serve memory Sold.later Sold.shop !! "cart_a0" = Some v' /\
    (v' = Sold.cart_a \/ exists c, c ∈ Sold.later /\ erases memory c.2 Sold.cart_a = true /\
      v' = anonymized c.1.1 Sold.cart_a)) /\
  serve memory Sold.later Sold.shop !! "cart_a0" = Some Sold.cart_a.
Proof.
  split; [|vm_compute; reflexivity].
  apply (completed_cart_final memory (fun st => st) Sold.later Sold.shop "cart_a0" Sold.cart_a Sold.sold_ok);
    vm_compute; reflexivity.
Defined.

(** A guest's cart with an address, completed before the guest asks to be forgotten. *)
Module Forgotten.
Definition guest : CreateCartInput := mkCreateCartInput "reg_1" EmptyString "ada@example.com" "try" EmptyString EmptyString EmptyString ∅.
Definition home : AddressInput :=
  mkAddressInput EmptyString "Ada" "L." EmptyString "Street 1" EmptyString "Izmir" EmptyString "35000" "tr" "555" ∅.
Definition calls : list (moment * (nat -> string) * request) :=
  [(1, Shop.ids "cart_g", ReqCreateCart guest); (2, Shop.ids "li_g", ReqAddLineItem "cart_g0" (Shop.mug 1));
   (3, Shop.ids "ad_g", ReqSetShippingAddress "cart_g0" home);
   (4, Shop.ids "x", ReqSetTotals "cart_g0" (mkTotals 2 300 0 0 0 300 false [mkLineTotals "li_g0" 300 300 0 0 300]));
   (5, Shop.ids "x", ReqMarkCompleted 5 "cart_g0")].
Definition shop : world := Eval vm_compute in serve memory calls ∅.
End Forgotten.


Lemma AddLineItem_units_witness : exists st' r v v' props addOns key,
  AddLineItem memory 9 (Shop.ids "y") "cart_a0" (Shop.shirt 3) Shop.shop = (st', Ok r) /\
  Shop.shop !! "cart_a0" = Some v /\ st' = <["cart_a0" := v']> Shop.shop /\
  NormalizeLineProperties (al_Properties (Shop.shirt 3)) = Ok props /\
  normalizeAddOns (al_AddOns (Shop.shirt 3)) = Ok (addOns, key) /\
  units (mkIdentity "var_shirt" props key) (cv_lines v') =
    units (mkIdentity "var_shirt" props key) (cv_lines v) + 3.
Proof.
  destruct (run_ok (AddLineItem memory 9 (Shop.ids "y") "cart_a0" (Shop.shirt 3)) Shop.shop)
    as (st' & r & E); [vm_compute; reflexivity|].
  destruct (AddLineItem_units memory (fun st => st) 9 (Shop.ids "y") "cart_a0" (Shop.shirt 3) Shop.shop _ _
    Shop.shop_ok E) as (v & v' & props & addOns & key & Hv & Hs & Hp & Hk & Hu & _).
  exists st', r, v, v', props, addOns, key. split; [exact E|]. do 4 (split; [assumption|]).
  rewrite (Hu (mkIdentity "var_shirt" props key)). rewrite decide_True by reflexivity. reflexivity.
Defined.

(** What the target did not have is carried over with its add-on lines: the mug's cart gets the shirts. *)
Lemma MergeCart_conserves_witness : exists st' c vs vt vt',
  MergeCart memory 9 (Shop.ids "y") "cart_a0" "cart_c0" Shop.lone = (st', Ok c) /\
  Shop.lone !! "cart_a0" = Some vs /\ Shop.lone !! "cart_c0" = Some vt /\ st' !! "cart_a0" = None /\
  st' !! "cart_c0" = Some vt' /\
  (forall i, units i (cv_lines vt') = units i (cv_lines vt) + units i (cv_lines vs)) /\
  (forall i, lot i (cv_lines vt') ≡ₚ
      if decide (stocked i (cv_lines vt)) then lot i (cv_lines vt) else lot i (cv_lines vs)) /\
  length (cv_lines vt) = 1%nat /\ length (cv_lines vs) = 2%nat /\ length (cv_lines vt') = 3%nat.
Proof.
  destruct (run_ok (MergeCart memory 9 (Shop.ids "y") "cart_a0" "cart_c0") Shop.lone)
    as (st' & c & E); [vm_compute; reflexivity|].
  destruct (MergeCart_conserves memory (fun st => st) 9 (Shop.ids "y") "cart_a0" "cart_c0" Shop.lone _ _
    Shop.lone_ok E) as (vs & vt & vt' & Hs & Ht & Hn & Ht' & Hu & Hl & _).
  exists st', c, vs, vt, vt'. split; [exact E|]. do 6 (split; [assumption|]).
  assert (length <$> (cv_lines <$> Shop.lone !! "cart_c0") = Some 1%nat) as H1 by (vm_compute; reflexivity).
  assert (length <$> (cv_lines <$> Shop.lone !! "cart_a0") = Some 2%nat) as H2 by (vm_compute; reflexivity).
  assert (length <$> (cv_lines <$> (MergeCart memory 9 (Shop.ids "y") "cart_a0" "cart_c0" Shop.lone).1 !! "cart_c0")
    = Some 3%nat) as H3 by (vm_compute; reflexivity).
  rewrite E in H3. rewrite Hs in H2. rewrite Ht in H1. cbn [fst] in H3. rewrite Ht' in H3.
  cbn in H1, H2, H3. split; [congruence|]. split; congruence.
Defined.

Lemma failed_call_changes_nothing_witness : exists e,
  perform memory 9 (Shop.ids "y") (ReqMergeCart "cart_b0" "cart_c0") Shop.shop = (Shop.shop, Fail e).
Proof.
  destruct (run_fail (perform memory 9 (Shop.ids "y") (ReqMergeCart "cart_b0" "cart_c0")) Shop.shop)
    as (st' & e & E); [vm_compute; reflexivity|].
  exists e. pose proof (failed_call_changes_nothing memory _ _ _ _ _ _ E) as Es. rewrite <- Es at 2. exact E.
Defined.

Module Names.
Definition card : AddOnInput := mkAddOnInput "var_card" " Card" 20 [("text", "Hi")].
End Names.

Lemma line_identity_order_witness : exists key,
  (NormalizeLineProperties [("a", "1"); ("b ", "2")] = Ok {[ "a" := "1"; "b" := "2" ]} ->
   NormalizeLineProperties [("b ", "2"); ("a", "1")] = Ok {[ "a" := "1"; "b" := "2" ]}) /\
  exists out out', normalizeAddOns [Shop.wrap; Names.card] = Ok (out, key) /\
    normalizeAddOns [Names.card; Shop.wrap] = Ok (out', key) /\ out' ≡ₚ out.
Proof.
  assert (exists r, normalizeAddOns [Shop.wrap; Names.card] = Ok r) as [[out key] E]
    by (eexists; vm_compute; reflexivity).
  destruct (line_identity_order [("a", "1"); ("b ", "2")] [("b ", "2"); ("a", "1")]
    [Shop.wrap; Names.card] [Names.card; Shop.wrap] {[ "a" := "1"; "b" := "2" ]} out key
    (perm_swap _ _ _) (perm_swap _ _ _)) as [Hp Ha].
  exists key. split; [exact Hp|]. destruct (Ha E) as (out' & E' & Hperm). exists out, out'. split; [exact E|]. split; [exact E'|exact Hperm].
Defined.
