(* ===== verification/CartFlow.v ===== *)
(** * The cart workflow: [internal/workflows/cart/deps.go], [money.go], [snapshot.go] and [catalog.go]

    What the workflow is given, the surfaces of the modules, and what it reads from them. [W] is the state
    of everything behind the surfaces: a call of one takes it and gives it back, so whatever else happens
    in between is part of what a call answers. A body of JSON is what it decodes to; the requests are
    encoded from records, which cannot fail, and are passed as the records. [channels] is the sales
    channels of the request's context, [None] where it names none. Logging is not modelled. *)
From S2P Require Import Prelude GoText Errors Tx.
Set Warnings "-register-all".

(** A [json.RawMessage] as a reader sees it: nothing, text that is not a document of the schema, or what
    the document says. *)
Inductive RawMessage (A : Type) :=
| NoBytes
| Garbled
| Document (a : A).

Arguments NoBytes {A}.
Arguments Garbled {A}.
Arguments Document {A}.

(** [json.Unmarshal]; the text of the package's own errors is left out. *)
Definition Unmarshal {A} (raw : RawMessage A) : result A :=
  match raw with
  | Document a => Ok a
  | NoBytes | Garbled => Fail (Sentinel "encoding/json")
  end.

Definition wrapping {A} (r : result A) (kind : Kind) (code format : string) (a : list arg) : result A :=
  match r with Ok x => Ok x | Fail e => Fail (wrap e kind code format a) end.

(** The same, of the error's own kind. *)
Definition wrapping_kind {A} (r : result A) (code format : string) (a : list arg) : result A :=
  match r with Ok x => Ok x | Fail e => Fail (wrap e (KindOf e) code format a) end.

(** A call whose error is only looked at. *)
Definition attempt {W A} (m : tx W A) : tx W (result A) := fun st => let '(st', r) := m st in (st', Ok r).

(** A call whose error is handed on as another. *)
Definition mapping {W A B} (f : result A -> result B) (m : tx W A) : tx W B :=
  fun st => let '(st', r) := m st in (st', f r).

(** ** Error codes and names: [deps.go] *)

Definition ServiceCart : string := "cart.interop".
Definition ServicePricing : string := "pricing.service".
Definition ServiceRegion : string := "region.service".
Definition ServiceCustomer : string := "customer.service".
Definition ServiceFulfillment : string := "fulfillment.interop".
Definition ServiceOrder : string := "order.interop".
Definition ServiceLink : string := "core.link".
Definition ServiceQuery : string := "core.query".

Definition LinkVariantPriceSet : string := "product_variant_price_set".
Definition EntityVariant : string := "variant".
Definition EntityProduct : string := "product".
Definition EntityRegion : string := "region".
Definition IDField : string := "id".
Definition FieldTitle : string := "title".
Definition FieldProductID : string := "product_id".
Definition FieldAddOnVariantIDs : string := "add_on_variant_ids".
Definition FieldCountries : string := "countries".
Definition FieldCode : string := "code".
Definition FilterSalesChannelIDs : string := "sales_channel_ids".
Definition FilterIDs : string := "ids".

Definition CodeInvalidInput : string := "cart_workflow_invalid_input".
Definition CodeNotReady : string := "cart_workflow_not_ready".
Definition CodeVariantUnknown : string := "cart_workflow_variant_unknown".
Definition CodeVariantNotPriced : string := "cart_workflow_variant_not_priced".
Definition CodeLinkReadFailed : string := "cart_workflow_link_read_failed".
Definition CodeCatalogReadFailed : string := "cart_workflow_catalog_read_failed".
Definition CodeVariantPriceSetAmbiguous : string := "cart_workflow_variant_price_set_ambiguous".
Definition CodePriceUnavailable : string := "cart_workflow_price_unavailable".
Definition CodeQuoteRegionUnknown : string := "cart_workflow_quote_region_unknown".
Definition CodePriceResponseInvalid : string := "cart_workflow_price_response_invalid".
Definition CodeAddOnNotAccepted : string := "cart_workflow_add_on_not_accepted".
Definition CodeCartCompleted : string := "cart_workflow_cart_completed".
Definition CodeSnapshotInvalid : string := "cart_workflow_snapshot_invalid".
Definition CodeTaxRateInvalid : string := "cart_workflow_tax_rate_invalid".
Definition CodeAmountOverflow : string := "cart_workflow_amount_overflow".
Definition CodeTotalsConflict : string := "cart_workflow_totals_conflict".
Definition CodeTotalsAfterChange : string := "cart_workflow_totals_after_change_failed".
Definition CodeDiscountFailed : string := "cart_workflow_discount_failed".
Definition CodeDiscountInvalid : string := "cart_workflow_discount_invalid".
Definition CodeTaxFailed : string := "cart_workflow_tax_failed".
Definition CodeTaxInvalid : string := "cart_workflow_tax_invalid".
Definition CodeAdditionsUnavailable : string := "cart_workflow_additions_unavailable".
Definition CodeRegionReadFailed : string := "cart_workflow_region_read_failed".

(** ** Amounts: [money.go] *)

Definition MinQuantity : Z := 1.
Definition MaxQuantity : Z := 1000000.
Definition MaxAmount : Z := 1000000000000.
Definition MaxTotal : Z := MaxAmount *₆₄ MaxQuantity.
Definition BpsScale : Z := 10000.
Definition MaxTaxRateBps : Z := 10000.
Definition maxIDLen : Z := 255.
Definition MaxInt32 : Z := 2147483647.

Definition addAmount (a b : Z) : result Z :=
  if (a <? 0) || (b <? 0) then
    Fail (Internal CodeAmountOverflow "the amounts cannot be negative: %d + %d" [AInt a; AInt b])
  else if MaxTotal -₆₄ b <? a then
    Fail (Invalid CodeAmountOverflow "the amount total exceeds the limit: %d + %d > %d"
      [AInt a; AInt b; AInt MaxTotal])
  else Ok (a +₆₄ b).

Definition mulAmount (unitPrice quantity : Z) : result Z :=
  if (unitPrice <? 0) || (quantity <? 0) then
    Fail (Internal CodeAmountOverflow "the unit price and the quantity cannot be negative: %d x %d"
      [AInt unitPrice; AInt quantity])
  else if (unitPrice =? 0) || (quantity =? 0) then Ok 0
  else if div64 MaxTotal unitPrice <? quantity then
    Fail (Invalid CodeAmountOverflow "the line subtotal exceeds the limit: %d x %d > %d"
      [AInt unitPrice; AInt quantity; AInt MaxTotal])
  else Ok (unitPrice *₆₄ quantity).

Definition taxOf (base rateBps : Z) : result Z :=
  if base <? 0 then
    Fail (Internal CodeAmountOverflow "the tax base cannot be negative: %d" [AInt base])
  else if MaxTotal <? base then
    Fail (Invalid CodeAmountOverflow "the tax base exceeds the limit: %d > %d" [AInt base; AInt MaxTotal])
  else if (rateBps <? 0) || (MaxTaxRateBps <? rateBps) then
    Fail (Internal CodeTaxRateInvalid
      "the tax rate must be in the range [0, %d] basis points, %d was reported"
      [AInt MaxTaxRateBps; AInt rateBps])
  else if (base =? 0) || (rateBps =? 0) then Ok 0
  else
    let rate := rateBps in
    let whole := div64 base BpsScale *₆₄ rate in
    let remainder := div64 (rem64 base BpsScale *₆₄ rate) BpsScale in
    Ok (whole +₆₄ remainder).

Definition quantity32 (quantity : Z) : result Z :=
  if (quantity <? MinQuantity) || (MaxQuantity <? quantity) then
    Fail (Invalid CodeInvalidInput "the quantity must be in the range [%d, %d], %d was given"
      [AInt MinQuantity; AInt MaxQuantity; AInt quantity])
  else if MaxInt32 <? quantity then
    Fail (Internal CodeAmountOverflow "the quantity does not fit in an int32: %d" [AInt quantity])
  else Ok quantity.

Definition checkAmount (label : string) (value upper : Z) : option err :=
  if value <? 0 then
    Some (Invalid CodeAmountOverflow "%s cannot be negative: %d" [AStr label; AInt value])
  else if upper <? value then
    Some (Invalid CodeAmountOverflow "%s can be at most %d: %d" [AStr label; AInt upper; AInt value])
  else None.

Definition requireID (label value : string) : option err :=
  if bool_decide (value = EmptyString) then
    Some (Invalid CodeInvalidInput "%s cannot be empty" [AStr label])
  else if negb (bool_decide (TrimSpace value = value)) then
    Some (Invalid CodeInvalidInput "%s cannot contain leading/trailing whitespace: %q"
      [AStr label; AStr value])
  else if maxIDLen <? len value then
    Some (Invalid CodeInvalidInput "%s can be at most %d bytes: %d"
      [AStr label; AInt maxIDLen; AInt (len value)])
  else None.

(** ** What a cart looks like to a round: [snapshot.go] *)

Record SnapshotItem := mkSnapshotItem {
  si_ID : string;
  si_VariantID : string;
  si_Quantity : Z;
  si_Metadata : gmap string string;
  si_Properties : gmap string string;
  si_ParentLineID : string
}.

Record SnapshotShippingMethod := mkSnapshotShippingMethod { ss_ID : string; ss_Amount : Z }.

Record Snapshot := mkSnapshot {
  sn_ID : string;
  sn_RegionID : string;
  sn_CustomerID : string;
  sn_CurrencyCode : string;
  sn_SalesChannelID : string;
  sn_Revision : Z;
  sn_Completed : bool;
  sn_Items : list SnapshotItem;
  sn_ShippingMethods : list SnapshotShippingMethod;
  sn_PromotionCodes : list string
}.

(** Each identifier once, at its first place. *)
Fixpoint distinct (seen : gset string) (ids : list string) : list string :=
  match ids with
  | [] => []
  | id :: rest => if bool_decide (id ∈ seen) then distinct seen rest else id :: distinct ({[id]} ∪ seen) rest
  end.

Definition VariantIDs (s : Snapshot) : list string := distinct ∅ (si_VariantID <$> sn_Items s).

Definition SnapshotItem_validate (cartID : string) (i : SnapshotItem) : option err :=
  if bool_decide (si_ID i = EmptyString) then
    Some (Internal CodeSnapshotInvalid "cart has a line without an identity: %s" [AStr cartID])
  else if bool_decide (si_VariantID i = EmptyString) then
    Some (Internal CodeSnapshotInvalid "line variant is empty: %s (%q)" [AStr cartID; AStr (si_ID i)])
  else if (si_Quantity i <? MinQuantity) || (MaxQuantity <? si_Quantity i) then
    Some (Internal CodeSnapshotInvalid
      "the line quantity must be in the range [%d, %d]: %s (%q -> %d)"
      [AInt MinQuantity; AInt MaxQuantity; AStr cartID; AStr (si_ID i); AInt (si_Quantity i)])
  else None.

Definition shipping_method_check (cartID : string) (m : SnapshotShippingMethod) : option err :=
  if (ss_Amount m <? 0) || (MaxAmount <? ss_Amount m) then
    Some (Internal CodeSnapshotInvalid "the shipping amount must be in the range [0, %d]: %s (%q -> %d)"
      [AInt MaxAmount; AStr cartID; AStr (ss_ID m); AInt (ss_Amount m)])
  else None.

(** The first error of a loop that checks. *)
Definition first_error {A} (f : A -> option err) (l : list A) : option err := head (omap f l).

Definition Snapshot_validate (s : Snapshot) (cartID : string) : option err :=
  if negb (bool_decide (sn_ID s = cartID)) then
    Some (Internal CodeSnapshotInvalid "snapshot belongs to another cart: requested %s, received %q"
      [AStr cartID; AStr (sn_ID s)])
  else if bool_decide (sn_RegionID s = EmptyString) then
    Some (Internal CodeSnapshotInvalid "cart region is empty: %s" [AStr cartID])
  else if bool_decide (sn_CurrencyCode s = EmptyString) then
    Some (Internal CodeSnapshotInvalid "cart currency is empty: %s" [AStr cartID])
  else if sn_Revision s <? 0 then
    Some (Internal CodeSnapshotInvalid "the cart shape counter is negative: %s (%d)"
      [AStr cartID; AInt (sn_Revision s)])
  else match first_error (SnapshotItem_validate cartID) (sn_Items s) with
  | Some e => Some e
  | None => first_error (shipping_method_check cartID) (sn_ShippingMethods s)
  end.

Definition decodeSnapshot (cartID : string) (payload : RawMessage Snapshot) : result Snapshot :=
  match payload with
  | NoBytes => Fail (Internal CodeSnapshotInvalid "cart snapshot came back empty: %s" [AStr cartID])
  | _ =>
      snap ← wrapping (Unmarshal payload) KindInternal CodeSnapshotInvalid
        "cart snapshot could not be decoded: %s" [AStr cartID];
      check Snapshot_validate snap cartID ;;
      Ok snap
  end.

(** ** Records of the query layer: [core/query] *)

(** An [any] of a record: [int], [int32] and [int64] are one constructor, a [float64] is its conversion to
    [int64]; [[]query.Record] and [[]map[string]any] are one too. *)
Inductive value :=
| VNil
| VText (s : string)
| VBool (b : bool)
| VInt (z : Z)
| VFloat (z : Z)
| VTexts (l : list string)
| VList (l : list value)
| VRecord (r : list (string * value))
| VRecords (l : list (list (string * value))).

(** A [query.Record]: its fields, each name once. *)
Abbreviation record := (list (string * value)).

Definition field (r : record) (name : string) : value :=
  default VNil (snd <$> head (filter (fun f => f.1 = name) r)).

(** [v.(string)] and [v.(bool)]. *)
Definition as_text (v : value) : option string := match v with VText s => Some s | _ => None end.
Definition as_bool (v : value) : option bool := match v with VBool b => Some b | _ => None end.

(** A text that is there and not empty. *)
Definition filled (v : value) : option string :=
  match v with VText s => if bool_decide (s = EmptyString) then None else Some s | _ => None end.

Record GraphSpec := mkGraphSpec {
  gs_Entity : string;
  gs_Fields : list string;
  gs_Filters : list (string * value);
  gs_Limit : Z
}.

(** ** The bodies that cross the surfaces *)

(** [pricedAddOn] of [add_line_item.go]. *)
Record pricedAddOn := mkPricedAddOn {
  pa_VariantID : string;
  pa_Title : string;
  pa_UnitPrice : Z;
  pa_Properties : gmap string string
}.

Record LineTaxComponent := mkLineTaxComponent {
  tc_RateID : string;
  tc_RateBps : Z;
  tc_Compound : bool;
  tc_TaxableAmount : Z;
  tc_TaxAmount : Z
}.

Record LineTotals := mkLineTotals {
  lt_LineItemID : string;
  lt_UnitPrice : Z;
  lt_Subtotal : Z;
  lt_DiscountTotal : Z;
  lt_TaxTotal : Z;
  lt_TaxRateBps : Z;
  lt_TaxComponents : list LineTaxComponent;
  lt_Total : Z;
  lt_PriceID : string;
  lt_PriceListID : option string;
  lt_PriceListType : string
}.

Record AppliedPromotion := mkAppliedPromotion {
  ap_PromotionID : string;
  ap_Code : string;
  ap_Amount : Z
}.

Record Totals := mkTotals {
  to_Revision : Z;
  to_Subtotal : Z;
  to_DiscountTotal : Z;
  to_TaxTotal : Z;
  to_ShippingTotal : Z;
  to_Total : Z;
  to_TaxSource : string;
  to_PricesIncludeTax : bool;
  to_Lines : list LineTotals;
  to_Applied : list AppliedPromotion
}.

(** [priceRequest] and [priceResponse] of [totals.go]. *)
Record priceRequestItem := mkPriceRequestItem { pq_PriceSetID : string; pq_Quantity : Z }.

Record priceRequest := mkPriceRequest {
  pq_CurrencyCode : string;
  pq_Attributes : gmap string string;
  pq_Items : list priceRequestItem
}.

Record priceResponseItem := mkPriceResponseItem {
  ps_Amount : Z;
  ps_Priced : bool;
  ps_PriceID : string;
  ps_PriceListID : option string;
  ps_PriceListType : string
}.

Record priceResponse := mkPriceResponse { ps_Items : list priceResponseItem }.

(** The requests and responses of [discount.go]. *)
Record discountRequestItem := mkDiscountRequestItem {
  dq_ID : string;
  dq_Amount : Z;
  dq_UnitAmount : Z;
  dq_Quantity : Z;
  dq_Attributes : gmap string string;
  dq_Lists : gmap string (list string)
}.

Record discountRequestShipping := mkDiscountRequestShipping {
  dqs_ID : string;
  dqs_Amount : Z;
  dqs_Attributes : gmap string string
}.

Record discountRequest := mkDiscountRequest {
  dq_CurrencyCode : string;
  dq_Context : gmap string string;
  dq_ContextLists : gmap string (list string);
  dq_Items : list discountRequestItem;
  dq_ShippingMethods : list discountRequestShipping;
  dq_Codes : list string;
  dq_At : string
}.

Record discountLine := mkDiscountLine { dl_ID : string; dl_Amount : Z }.

Record discountApplied := mkDiscountApplied {
  da_PromotionID : string;
  da_Code : string;
  da_IsAutomatic : bool;
  da_Amount : Z
}.

Record discountResponse := mkDiscountResponse {
  dr_CurrencyCode : string;
  dr_Items : list discountLine;
  dr_ShippingMethods : list discountLine;
  dr_ItemsDiscountTotal : Z;
  dr_ShippingDiscountTotal : Z;
  dr_DiscountTotal : Z;
  dr_Applied : list discountApplied;
  dr_UnmatchedCodes : list string
}.

(** The requests and responses of [tax.go]. *)
Record taxRequestItem := mkTaxRequestItem {
  tq_ID : string;
  tq_ProductID : string;
  tq_ProductTypeID : string;
  tq_Amount : Z
}.

Record taxRequestShipping := mkTaxRequestShipping {
  tqs_OptionID : string;
  tqs_Amount : Z;
  tqs_Taxable : bool
}.

Record taxRequest := mkTaxRequest {
  tq_CountryCode : string;
  tq_ProvinceCode : string;
  tq_Items : list taxRequestItem;
  tq_Shipping : taxRequestShipping
}.

Record taxResponseComponent := mkTaxResponseComponent {
  trc_RateID : string;
  trc_RateBps : Z;
  trc_Compound : bool;
  trc_TaxableAmount : Z;
  trc_TaxAmount : Z
}.

Record taxResponseLine := mkTaxResponseLine {
  trl_ID : string;
  trl_RateID : string;
  trl_RateBps : Z;
  trl_TaxableAmount : Z;
  trl_TaxAmount : Z;
  trl_Components : list taxResponseComponent
}.

Record taxResponse := mkTaxResponse {
  tr_RegionID : string;
  tr_RegionFound : bool;
  tr_ProviderID : string;
  tr_PricesIncludeTax : bool;
  tr_TaxTotal : Z;
  tr_Items : list taxResponseLine;
  tr_Shipping : taxResponseLine
}.

(** The bodies of [shipping.go] and [quote_cart.go]. *)
Record quoteLine := mkQuoteLine {
  ql_ID : string;
  ql_VariantID : string;
  ql_ProductID : string;
  ql_Quantity : Z;
  ql_UnitPrice : Z;
  ql_Subtotal : Z;
  ql_VariantWeight : Z;
  ql_ProductWeight : Z;
  ql_ProductLength : Z;
  ql_ProductWidth : Z;
  ql_ProductHeight : Z
}.

Record quoteCart := mkQuoteCart { qc_ID : string; qc_CurrencyCode : string; qc_Lines : list quoteLine }.

Record quoteRequest := mkQuoteRequest {
  qr_RegionID : string;
  qr_CurrencyCode : string;
  qr_CountryCode : string;
  qr_Subtotal : Z;
  qr_ItemCount : Z;
  qr_TotalWeight : Z;
  qr_IncludeAdminOnly : bool;
  qr_Cart : option quoteCart
}.

Record DeliveryDays := mkDeliveryDays { dd_Min : Z; dd_Max : Z }.

Record quotedOption := mkQuotedOption {
  qo_ID : string;
  qo_Name : string;
  qo_Amount : Z;
  qo_CurrencyCode : string;
  qo_IsReturn : bool;
  qo_AdminOnly : bool;
  qo_DeliveryDays : option DeliveryDays
}.

Record quoteResponse := mkQuoteResponse { qs_Options : list quotedOption }.

(** ** The surfaces: [deps.go]

    The operations the trials alone call ([CompareListJSON], [TrialDiscountsJSON], [CompareRateJSON]) are
    not here, as the trials are not. *)

Record Carts (W : Type) := mkCarts {
  OpenCart : string -> string -> string -> string -> string -> string -> string ->
    RawMessage (gmap string string) -> tx W string;
  carts_AddShippingMethod : string -> string -> string -> Z -> RawMessage (gmap string string) -> tx W string;
  CartSnapshotJSON : string -> tx W (RawMessage Snapshot);
  AddCartLineItem : string -> string -> string -> Z -> Z -> RawMessage (gmap string string) ->
    gmap string string -> RawMessage (list pricedAddOn) -> tx W string;
  SetCartLineItemQuantity : string -> string -> Z -> tx W unit;
  carts_RemoveLineItem : string -> string -> tx W unit;
  SetCartTotalsJSON : string -> Totals -> tx W unit;
  AddCartPromotionCode : string -> string -> tx W unit;
  RemoveCartPromotionCode : string -> string -> tx W unit
}.

Record Prices (W : Type) := mkPrices {
  CalculateAmount : string -> string -> Z -> gmap string string -> tx W Z;
  CalculateAmountsJSON : priceRequest -> tx W (RawMessage priceResponse)
}.

Record Regions (W : Type) := mkRegions {
  RegionIDForCountry : string -> tx W string;
  RegionCurrency : string -> tx W (string * Z);
  RegionTax : string -> tx W (Z * bool)
}.

Record Customers (W : Type) := mkCustomers {
  CustomerEmail : string -> tx W string;
  CustomerGroupIDs : string -> tx W (list string)
}.

Record Companies (W : Type) := mkCompanies { CompanyOfCustomer : string -> tx W string }.

Record Orders (W : Type) := mkOrders { CheckAddition : string -> string -> string -> tx W unit }.

Record Discounts (W : Type) := mkDiscounts {
  ComputeDiscountsJSON : discountRequest -> tx W (RawMessage discountResponse);
  CouponApplies : string -> tx W unit
}.

Record Taxes (W : Type) := mkTaxes { CalculateTaxJSON : taxRequest -> tx W (RawMessage taxResponse) }.

Record Shipping (W : Type) := mkShipping { ListOptionsJSON : quoteRequest -> tx W (RawMessage quoteResponse) }.

Record Links (W : Type) := mkLinks { ListMany : string -> list string -> tx W (gmap string (list string)) }.

Record Catalog (W : Type) := mkCatalog { Graph : GraphSpec -> tx W (list record) }.

Arguments OpenCart {W}.
Arguments carts_AddShippingMethod {W}.
Arguments CartSnapshotJSON {W}.
Arguments AddCartLineItem {W}.
Arguments SetCartLineItemQuantity {W}.
Arguments carts_RemoveLineItem {W}.
Arguments SetCartTotalsJSON {W}.
Arguments AddCartPromotionCode {W}.
Arguments RemoveCartPromotionCode {W}.
Arguments CalculateAmount {W}.
Arguments CalculateAmountsJSON {W}.
Arguments RegionIDForCountry {W}.
Arguments RegionCurrency {W}.
Arguments RegionTax {W}.
Arguments CustomerEmail {W}.
Arguments CustomerGroupIDs {W}.
Arguments CompanyOfCustomer {W}.
Arguments CheckAddition {W}.
Arguments ComputeDiscountsJSON {W}.
Arguments CouponApplies {W}.
Arguments CalculateTaxJSON {W}.
Arguments ListOptionsJSON {W}.
Arguments ListMany {W}.
Arguments Graph {W}.

(** A nil surface is [None]. *)
Record Deps (W : Type) := mkDeps {
  dep_Carts : option (Carts W);
  dep_Prices : option (Prices W);
  dep_Regions : option (Regions W);
  dep_Customers : option (Customers W);
  dep_Companies : option (Companies W);
  dep_Discounts : option (Discounts W);
  dep_Taxes : option (Taxes W);
  dep_Shipping : option (Shipping W);
  dep_Orders : option (Orders W);
  dep_Links : option (Links W);
  dep_Catalog : option (Catalog W)
}.

Arguments dep_Carts {W}.
Arguments dep_Prices {W}.
Arguments dep_Regions {W}.
Arguments dep_Customers {W}.
Arguments dep_Companies {W}.
Arguments dep_Discounts {W}.
Arguments dep_Taxes {W}.
Arguments dep_Shipping {W}.
Arguments dep_Orders {W}.
Arguments dep_Links {W}.
Arguments dep_Catalog {W}.

(** The six surfaces a workflow cannot do without are there: [New] makes no other. *)
Record Workflows (W : Type) := mkWorkflows {
  wf_carts : Carts W;
  wf_prices : Prices W;
  wf_regions : Regions W;
  wf_customers : Customers W;
  wf_companies : option (Companies W);
  wf_discounts : option (Discounts W);
  wf_taxes : option (Taxes W);
  wf_shipping : option (Shipping W);
  wf_orders : option (Orders W);
  wf_links : Links W;
  wf_catalog : Catalog W
}.

Arguments wf_carts {W}.
Arguments wf_prices {W}.
Arguments wf_regions {W}.
Arguments wf_customers {W}.
Arguments wf_companies {W}.
Arguments wf_discounts {W}.
Arguments wf_taxes {W}.
Arguments wf_shipping {W}.
Arguments wf_orders {W}.
Arguments wf_links {W}.
Arguments wf_catalog {W}.

(** A surface that has to be there. *)
Definition wired {A} (surface : option A) (name : string) : result A :=
  match surface with
  | Some a => Ok a
  | None => Fail (Internal CodeNotReady "the cart workflows cannot be wired without the %q surface" [AStr name])
  end.

Definition New {W} (deps : Deps W) : result (Workflows W) :=
  carts ← wired (dep_Carts deps) ServiceCart;
  prices ← wired (dep_Prices deps) ServicePricing;
  regions ← wired (dep_Regions deps) ServiceRegion;
  customers ← wired (dep_Customers deps) ServiceCustomer;
  links ← wired (dep_Links deps) ServiceLink;
  catalog ← wired (dep_Catalog deps) ServiceQuery;
  Ok (mkWorkflows W carts prices regions customers (dep_Companies deps) (dep_Discounts deps) (dep_Taxes deps)
    (dep_Shipping deps) (dep_Orders deps) links catalog).

(** ** What is read from the catalog and the customers: [catalog.go], [saleschannel.go] *)

Definition attrRegionID : string := "region_id".
Definition AttrCustomerGroupID : string := "customer_group_id".
Definition AttrCustomerID : string := "customer_id".
Definition AttrCompanyID : string := "company_id".
Definition AttrSalesChannelID : string := "sales_channel_id".

(** The loop of [priceSetsFor]: each variant's one price set. *)
Fixpoint one_set_each (linked : gmap string (list string)) (out : gmap string string) (variantIDs : list string) :
    result (gmap string string) :=
  match variantIDs with
  | [] => Ok out
  | variantID :: rest =>
      match default [] (linked !! variantID) with
      | [] =>
          Fail (Invalid CodeVariantNotPriced
            "variant %s has no price; a product without a price cannot enter the cart" [AStr variantID])
      | [set] => one_set_each linked (<[variantID := set]> out) rest
      | sets =>
          Fail (Internal CodeVariantPriceSetAmbiguous
            "variant %s appears to be bound to %d price sets; the %q definition must be singular"
            [AStr variantID; AInt (Z.of_nat (length sets)); AStr LinkVariantPriceSet])
      end
  end.

Record priceSubject := mkPriceSubject {
  sj_RegionID : string;
  sj_SalesChannelID : string;
  sj_CustomerID : string
}.

Definition priceSubjectOf (snap : Snapshot) : priceSubject :=
  mkPriceSubject (sn_RegionID snap) (sn_SalesChannelID snap) (sn_CustomerID snap).

(** The one channel of a request in exactly one. *)
Definition pricingChannel (channels : option (list string)) : string :=
  match channels with Some [c] => c | _ => EmptyString end.

Definition salesChannelFilter (channels : option (list string)) : list (string * value) :=
  match channels with Some l => [(FilterSalesChannelIDs, VTexts l)] | None => [] end.

(** The loop of [productIDsFor]: a record that says too little is passed over. *)
Definition product_of_record (out : gmap string string) (r : record) : gmap string string :=
  match filled (field r IDField), filled (field r FieldProductID) with
  | Some variantID, Some productID => <[variantID := productID]> out
  | _, _ => out
  end.

Section Reads.
Context {W : Type} (w : Workflows W) (channels : option (list string)).

Definition priceSetsFor (variantIDs : list string) : tx W (gmap string string) :=
  match variantIDs with
  | [] => mret ∅
  | _ =>
      linked ← mapping (fun r => wrapping_kind r CodeLinkReadFailed "could not read the %q link (%d variants)"
          [AStr LinkVariantPriceSet; AInt (Z.of_nat (length variantIDs))])
        (ListMany (wf_links w) LinkVariantPriceSet variantIDs);
      tx_of (one_set_each linked ∅ variantIDs)
  end.

(** The message leaves out how the record's value prints. *)
Definition variantTitle (variantID : string) : tx W string :=
  records ← mapping (fun r => wrapping_kind r CodeCatalogReadFailed
      "could not read variant %s from the catalog" [AStr variantID])
    (Graph (wf_catalog w) (mkGraphSpec EntityVariant [IDField; FieldTitle]
      ((IDField, VText variantID) :: salesChannelFilter channels) 1));
  match records with
  | [] => tx_of (Fail (NotFound CodeVariantUnknown "variant %s is not in the catalog" [AStr variantID]))
  | r :: _ =>
      match filled (field r FieldTitle) with
      | Some title => mret title
      | None => tx_of (Fail (Internal CodeVariantUnknown "could not read the title of variant %s (field %q)"
          [AStr variantID; AStr FieldTitle]))
      end
  end.

Definition productIDsFor (variantIDs : list string) : tx W (gmap string string) :=
  match variantIDs with
  | [] => mret ∅
  | _ =>
      records ← mapping (fun r => wrapping_kind r CodeCatalogReadFailed
          "could not read the products of %d variants from the catalog" [AInt (Z.of_nat (length variantIDs))])
        (Graph (wf_catalog w) (mkGraphSpec EntityVariant [IDField; FieldProductID]
          ((FilterIDs, VTexts variantIDs) :: salesChannelFilter channels) (Z.of_nat (length variantIDs))));
      mret (foldl product_of_record ∅ records)
  end.

(** The company of a customer, when the surface is there and answers one. *)
Definition with_company (attributes : gmap string string) (customerID : string) :
    tx W (gmap string string * option err) :=
  match wf_companies w with
  | None => mret (attributes, None)
  | Some companies =>
      r ← attempt (CompanyOfCustomer companies customerID);
      mret match r with
      | Ok company =>
          (if bool_decide (company = EmptyString) then attributes else <[AttrCompanyID := company]> attributes, None)
      | Fail e => (attributes, Some e)
      end
  end.

(** The attributes, the lists and the error beside them. *)
Definition priceContext (subject : priceSubject) :
    tx W (gmap string string * gmap string (list string) * option err) :=
  let attributes : gmap string string := {[attrRegionID := sj_RegionID subject]} in
  let attributes := if bool_decide (sj_SalesChannelID subject = EmptyString) then attributes
    else <[AttrSalesChannelID := sj_SalesChannelID subject]> attributes in
  let customerID := sj_CustomerID subject in
  if bool_decide (customerID = EmptyString) then mret (attributes, ∅, None)
  else
    '(attributes, companyErr) ← with_company (<[AttrCustomerID := customerID]> attributes) customerID;
    groups ← attempt (CustomerGroupIDs (wf_customers w) customerID);
    mret match groups with
    | Fail groupErr => (attributes, ∅, Join [companyErr; Some groupErr])
    | Ok [] => (attributes, ∅, companyErr)
    | Ok ((first :: _) as groups) =>
        (<[AttrCustomerGroupID := first]> attributes, {[AttrCustomerGroupID := groups]}, companyErr)
    end.
End Reads.
