(* ===== verification/CartRound.v ===== *)
(** * A calculation round: [internal/workflows/cart/totals.go], [discount.go] and [tax.go]

    From the cart's snapshot to its totals: prices, then discounts, then taxes, and the round that writes
    them. The lines are a slice the steps fill in; a step here answers the lines after it. *)
From S2P Require Import Prelude GoText Errors Tx CartFlow.

Definition MaxTotalsAttempts : nat := 3.

Definition TaxSourceTax : string := "tax".
Definition TaxSourceTaxUnconfigured : string := "tax_unconfigured".
Definition TaxSourceRegion : string := "region".
Definition codeProviderNotFound : string := "query_provider_not_found".

Definition attrVariantID : string := "variant_id".
Definition attrIsGiftcard : string := "is_giftcard".
Definition attrDiscountable : string := "discountable".
Definition attrProductID : string := "product_id".
Definition attrCollectionID : string := "collection_id".
Definition attrTypeID : string := "type_id".
Definition attrCategoryIDs : string := "category_ids".
Definition attrTagIDs : string := "tag_ids".
Definition AttrCategoryTreeIDs : string := "category_tree_ids".

(** ** [strings.EqualFold]

    Characters that are not both ASCII are the same under Unicode's simple folding; [same_fold] is that
    table's answer for two different ones, their bytes given (a byte that starts no character is read as
    U+FFFD). *)
Definition fold_byte (c : Z) : Z := if is_upper c then c + 32 else c.

Definition same_rune (same_fold : list Z -> list Z -> bool) (a b : list Z) : bool :=
  bool_decide (a = b) ||
  match a, b with
  | [c], [d] => if (c <? 0x80) && (d <? 0x80) then fold_byte c =? fold_byte d else same_fold a b
  | _, _ => same_fold a b
  end.

Fixpoint same_runes (same_fold : list Z -> list Z -> bool) (a b : list (list Z)) : bool :=
  match a, b with
  | [], [] => true
  | x :: a', y :: b' => same_rune same_fold x y && same_runes same_fold a' b'
  | _, _ => false
  end.

Definition EqualFold (same_fold : list Z -> list Z -> bool) (s t : string) : bool :=
  same_runes same_fold (runes s) (runes t).

(** ** Products' facts: [discount.go] *)

Record productFacts := mkProductFacts {
  pf_IsGiftcard : bool;
  pf_Discountable : bool;
  pf_ProductID : string;
  pf_CollectionID : string;
  pf_CategoryIDs : list string;
  pf_TagIDs : list string;
  pf_CategoryTreeIDs : list string;
  pf_TypeID : string
}.

Definition stringList (v : value) : list string :=
  match v with
  | VTexts l => l
  | VList l => omap filled l
  | _ => []
  end.

(** The values of a map, each once, sorted. *)
Definition uniqueProductIDs (productIDs : gmap string string) : list string :=
  SortFunc cmpS (distinct ∅ (map_to_list productIDs).*2).

(** The loop of [productFactsFor]: a record without an identity or with a flag that is no flag is passed
    over. *)
Definition facts_of_record (out : gmap string productFacts) (r : record) : gmap string productFacts :=
  match filled (field r IDField), as_bool (field r attrIsGiftcard), as_bool (field r attrDiscountable) with
  | Some productID, Some giftcard, Some discountable =>
      <[productID := mkProductFacts giftcard discountable productID
          (default EmptyString (as_text (field r attrCollectionID)))
          (stringList (field r attrCategoryIDs)) (stringList (field r attrTagIDs))
          (stringList (field r AttrCategoryTreeIDs)) (default EmptyString (as_text (field r attrTypeID)))]> out
  | _, _, _ => out
  end.

Definition facts_by_variant (productIDs : gmap string string) (flags : gmap string productFacts) :
    gmap string productFacts := omap (fun productID => flags !! productID) productIDs.

(** A nil map of facts is [None]; reading one is reading an empty map. *)
Abbreviation facts_map := (option (gmap string productFacts)).

Definition fact (facts : facts_map) (variantID : string) : option productFacts := default ∅ facts !! variantID.

Section Facts.
Context {W : Type} (w : Workflows W) (channels : option (list string)).

Definition productFactsFor (productIDs : list string) : tx W (gmap string productFacts) :=
  records ← mapping (fun r => wrapping_kind r CodeCatalogReadFailed
      "could not read the flags of %d products from the catalog" [AInt (Z.of_nat (length productIDs))])
    (Graph (wf_catalog w) (mkGraphSpec EntityProduct
      [IDField; attrIsGiftcard; attrDiscountable; attrTypeID; attrCollectionID; attrCategoryIDs; attrTagIDs;
       AttrCategoryTreeIDs]
      [(FilterIDs, VTexts productIDs)] (Z.of_nat (length productIDs))));
  mret (foldl facts_of_record ∅ records).

Definition lineProductFacts (snap : Snapshot) : tx W facts_map :=
  match VariantIDs snap with
  | [] => mret None
  | variantIDs =>
      productIDs ← productIDsFor w channels variantIDs;
      if bool_decide (productIDs = ∅) then mret None
      else
        flags ← productFactsFor (uniqueProductIDs productIDs);
        mret (Some (facts_by_variant productIDs flags))
  end.

(** A failed read is a nil map and a line in the log. *)
Definition facts_or_none (snap : Snapshot) : tx W facts_map :=
  r ← attempt (lineProductFacts snap);
  mret match r with Ok facts => facts | Fail _ => None end.
End Facts.

Definition bool_text (b : bool) : string := if b then "true" else "false".

Definition put_filled (key value : string) (m : gmap string string) : gmap string string :=
  if bool_decide (value = EmptyString) then m else <[key := value]> m.

Definition lineAttributes (variantID : string) (flags : facts_map) : gmap string string :=
  let attributes : gmap string string := {[attrVariantID := variantID]} in
  match fact flags variantID with
  | None => attributes
  | Some flag =>
      put_filled attrCollectionID (pf_CollectionID flag) (put_filled attrProductID (pf_ProductID flag)
        (<[attrDiscountable := bool_text (pf_Discountable flag)]>
          (<[attrIsGiftcard := bool_text (pf_IsGiftcard flag)]> attributes)))
  end.

Definition put_list (key : string) (l : list string) (m : gmap string (list string)) : gmap string (list string) :=
  match l with [] => m | _ => <[key := l]> m end.

Definition lineLists (variantID : string) (flags : facts_map) : gmap string (list string) :=
  match fact flags variantID with
  | None => ∅
  | Some flag =>
      put_list AttrCategoryTreeIDs (pf_CategoryTreeIDs flag) (put_list attrTagIDs (pf_TagIDs flag)
        (put_list attrCategoryIDs (pf_CategoryIDs flag) ∅))
  end.

(** ** Prices: [lineSubtotals], [unitPrices] of [totals.go] *)

Record linePrice := mkLinePrice {
  lp_Amount : Z;
  lp_PriceID : string;
  lp_PriceListID : option string;
  lp_PriceListType : string
}.

Fixpoint price_items (priceSets : gmap string string) (items : list SnapshotItem) :
    result (list priceRequestItem) :=
  match items with
  | [] => Ok []
  | item :: rest =>
      quantity ← quantity32 (si_Quantity item);
      out ← price_items priceSets rest;
      Ok (mkPriceRequestItem (default EmptyString (priceSets !! si_VariantID item)) quantity :: out)
  end.

Definition checkPriceOrigin (item : priceResponseItem) : option err :=
  if bool_decide (ps_PriceID item = EmptyString) then
    Some (Invalid CodePriceResponseInvalid "a priced line carries no price id" [])
  else if bool_decide (ps_PriceListType item = EmptyString) then
    match ps_PriceListID item with
    | Some list => Some (Invalid CodePriceResponseInvalid "a price from list %s carries no list type" [AStr list])
    | None => None
    end
  else if bool_decide (ps_PriceListType item = "sale" \/ ps_PriceListType item = "override")%string then
    match ps_PriceListID item with
    | None => Some (Invalid CodePriceResponseInvalid "a %s price carries no list id" [AStr (ps_PriceListType item)])
    | Some _ => None
    end
  else Some (Invalid CodePriceResponseInvalid "%q is not a price list type" [AStr (ps_PriceListType item)]).

(** One line without a price is named alone, several together. *)
Definition priceUnavailable (snap : Snapshot) (unpriced : list SnapshotItem) : err :=
  match unpriced with
  | [item] =>
      Invalid CodePriceUnavailable "variant %s has no price in currency %s at quantity %d (line: %s)"
        [AStr (si_VariantID item); AStr (sn_CurrencyCode snap); AInt (si_Quantity item); AStr (si_ID item)]
  | _ =>
      Invalid CodePriceUnavailable "%d lines have no price in currency %s: %s"
        [AInt (Z.of_nat (length unpriced)); AStr (sn_CurrencyCode snap);
         AStr (Join_with ", " ((fun item => sprintf "%s (line: %s, quantity: %d)"
           [AStr (si_VariantID item); AStr (si_ID item); AInt (si_Quantity item)]) <$> unpriced))]
  end.

(** The items whose answer has no price. *)
Definition unpriced_items (items : list SnapshotItem) (answers : list priceResponseItem) : list SnapshotItem :=
  (filter (fun p => ps_Priced p.2 = false) (zip items answers)).*1.

Fixpoint accept_prices (snapID : string) (i : Z) (answers : list priceResponseItem) : result (list linePrice) :=
  match answers with
  | [] => Ok []
  | item :: rest =>
      check checkAmount "unit_price" (ps_Amount item) MaxAmount ;;
      check Wrap (checkPriceOrigin item) KindInternal CodePriceResponseInvalid
        "the bulk price result's line %d names no coherent price (%s)" [AInt i; AStr snapID] ;;
      out ← accept_prices snapID (i + 1) rest;
      Ok (mkLinePrice (ps_Amount item) (ps_PriceID item) (ps_PriceListID item) (ps_PriceListType item) :: out)
  end.

Definition acceptPrices (snap : Snapshot) (raw : RawMessage priceResponse) : result (list linePrice) :=
  resp ← wrapping (Unmarshal raw) KindInternal CodePriceResponseInvalid
    "the bulk price result could not be decoded: %s" [AStr (sn_ID snap)];
  if negb (bool_decide (length (ps_Items resp) = length (sn_Items snap))) then
    Fail (Internal CodePriceResponseInvalid "for %d lines the bulk price result returned %d records (%s)"
      [AInt (Z.of_nat (length (sn_Items snap))); AInt (Z.of_nat (length (ps_Items resp))); AStr (sn_ID snap)])
  else match unpriced_items (sn_Items snap) (ps_Items resp) with
  | [] => accept_prices (sn_ID snap) 0 (ps_Items resp)
  | unpriced => Fail (priceUnavailable snap unpriced)
  end.

Fixpoint price_lines (items : list SnapshotItem) (prices : list linePrice) : result (list LineTotals) :=
  match items, prices with
  | item :: items', p :: prices' =>
      subtotal ← mulAmount (lp_Amount p) (si_Quantity item);
      rest ← price_lines items' prices';
      Ok (mkLineTotals (si_ID item) (lp_Amount p) subtotal 0 0 0 [] 0 (lp_PriceID p) (lp_PriceListID p)
            (lp_PriceListType p) :: rest)
  | _, _ => Ok []
  end.

Section Lines.
Context {W : Type} (w : Workflows W).

Definition unitPrices (snap : Snapshot) (priceSets : gmap string string) : tx W (list linePrice) :=
  match sn_Items snap with
  | [] => mret []
  | items =>
      '(attributes, _, _) ← priceContext w (priceSubjectOf snap);
      request ← tx_of (price_items priceSets items);
      raw ← CalculateAmountsJSON (wf_prices w) (mkPriceRequest (sn_CurrencyCode snap) attributes request);
      tx_of (acceptPrices snap raw)
  end.

Definition lineSubtotals (snap : Snapshot) : tx W (list LineTotals) :=
  priceSets ← priceSetsFor w (VariantIDs snap);
  prices ← unitPrices snap priceSets;
  tx_of (price_lines (sn_Items snap) prices).
End Lines.

(** ** Discounts: [discount.go] *)

Section Requests.
Variable same_fold : list Z -> list Z -> bool.

(** One item of the request for each line. *)
Definition discount_item (flags : facts_map) (p : SnapshotItem * LineTotals) : discountRequestItem :=
  mkDiscountRequestItem (lt_LineItemID p.2) (lt_Subtotal p.2) (lt_UnitPrice p.2) (si_Quantity p.1)
    (lineAttributes (si_VariantID p.1) flags) (lineLists (si_VariantID p.1) flags).

Definition discountRequestWith (snap : Snapshot) (lines : list LineTotals) (flags : facts_map)
    (attributes : gmap string string) (lists : gmap string (list string)) : discountRequest :=
  mkDiscountRequest (sn_CurrencyCode snap) attributes lists
    (discount_item flags <$> zip (sn_Items snap) lines) [] (sn_PromotionCodes snap) EmptyString.

(** The loop over the answered items: each is its line's, in order and within the line; their sum. *)
Fixpoint discount_sum (snapID : string) (i sum : Z) (lines : list LineTotals) (items : list discountLine) :
    result Z :=
  match items, lines with
  | item :: items', line :: lines' =>
      if negb (bool_decide (dl_ID item = lt_LineItemID line)) then
        Fail (Internal CodeDiscountInvalid
          "discount result did not preserve the request order: record %d is %q, expected %q (%s)"
          [AInt i; AStr (dl_ID item); AStr (lt_LineItemID line); AStr snapID])
      else if (dl_Amount item <? 0) || (lt_Subtotal line <? dl_Amount item) then
        Fail (Internal CodeDiscountInvalid "line discount must be in the range [0, %d]: %q -> %d (%s)"
          [AInt (lt_Subtotal line); AStr (dl_ID item); AInt (dl_Amount item); AStr snapID])
      else
        sum ← addAmount sum (dl_Amount item);
        discount_sum snapID (i + 1) sum lines' items'
  | _, _ => Ok sum
  end.

Definition with_discount (line : LineTotals) (item : discountLine) : LineTotals :=
  mkLineTotals (lt_LineItemID line) (lt_UnitPrice line) (lt_Subtotal line) (dl_Amount item)
    (lt_TaxTotal line) (lt_TaxRateBps line) (lt_TaxComponents line) (lt_Total line) (lt_PriceID line)
    (lt_PriceListID line) (lt_PriceListType line).

Definition applyDiscountResponse (snap : Snapshot) (lines : list LineTotals) (resp : discountResponse) :
    result (list LineTotals) :=
  if negb (EqualFold same_fold (dr_CurrencyCode resp) (sn_CurrencyCode snap)) then
    Fail (Internal CodeDiscountInvalid "discount was calculated in a different currency: cart %q, result %q (%s)"
      [AStr (sn_CurrencyCode snap); AStr (dr_CurrencyCode resp); AStr (sn_ID snap)])
  else if negb (bool_decide (length (dr_Items resp) = length lines)) then
    Fail (Internal CodeDiscountInvalid "discount result returned a wrong record count: %d lines, %d records (%s)"
      [AInt (Z.of_nat (length lines)); AInt (Z.of_nat (length (dr_Items resp))); AStr (sn_ID snap)])
  else if negb (dr_ShippingDiscountTotal resp =? 0) || negb (bool_decide (length (dr_ShippingMethods resp) = 0%nat)) then
    Fail (Internal CodeDiscountInvalid "a shipping discount came back although no shipping method was sent: %d (%s)"
      [AInt (dr_ShippingDiscountTotal resp); AStr (sn_ID snap)])
  else
    sum ← discount_sum (sn_ID snap) 0 0 lines (dr_Items resp);
    if negb (sum =? dr_ItemsDiscountTotal resp) || negb (dr_DiscountTotal resp =? dr_ItemsDiscountTotal resp) then
      Fail (Internal CodeDiscountInvalid
        "discount total does not match the line discounts: Σ=%d, items total=%d, grand total=%d (%s)"
        [AInt sum; AInt (dr_ItemsDiscountTotal resp); AInt (dr_DiscountTotal resp); AStr (sn_ID snap)])
    else Ok (zip_with with_discount lines (dr_Items resp)).

Definition appliedPromotionsOf (resp : discountResponse) : list AppliedPromotion :=
  (fun a => mkAppliedPromotion (da_PromotionID a) (da_Code a) (da_Amount a)) <$> dr_Applied resp.

Section Apply.
Context {W : Type} (w : Workflows W).

Definition discountRequestFor (snap : Snapshot) (lines : list LineTotals) (flags : facts_map) :
    tx W discountRequest :=
  '(attributes, lists, _) ← priceContext w (priceSubjectOf snap);
  mret (discountRequestWith snap lines flags attributes lists).

(** The lines after it and the record of what applied. *)
Definition applyDiscounts (snap : Snapshot) (lines : list LineTotals) (facts : facts_map) :
    tx W (list LineTotals * list AppliedPromotion) :=
  match wf_discounts w with
  | None => mret (lines, [])
  | Some discounts =>
      tx_check (if negb (bool_decide (length lines = length (sn_Items snap))) then
          Some (Internal CodeDiscountInvalid "line count does not match the snapshot: %d calculated, %d lines (%s)"
            [AInt (Z.of_nat (length lines)); AInt (Z.of_nat (length (sn_Items snap))); AStr (sn_ID snap)])
        else None) ;;
      request ← discountRequestFor snap lines facts;
      raw ← mapping (fun r => wrapping_kind r CodeDiscountFailed
          "cart discount could not be calculated: %s (%d lines)"
          [AStr (sn_ID snap); AInt (Z.of_nat (length lines))])
        (ComputeDiscountsJSON discounts request);
      resp ← tx_of (wrapping (Unmarshal raw) KindInternal CodeDiscountInvalid
        "discount result could not be decoded: %s" [AStr (sn_ID snap)]);
      lines ← tx_of (applyDiscountResponse snap lines resp);
      mret (lines, appliedPromotionsOf resp)
  end.
End Apply.
End Requests.

(** ** Taxes: [tax.go] *)

Record taxOutcome := mkTaxOutcome { ot_source : string; ot_pricesIncludeTax : bool }.

(** The identities of the lines whose product is a gift card. *)
Definition giftCardLines (snap : Snapshot) (facts : facts_map) : gset string :=
  list_to_set (si_ID <$> filter (fun i => pf_IsGiftcard <$> fact facts (si_VariantID i) = Some true) (sn_Items snap)).

Definition with_tax (line : LineTotals) (subtotal tax rateBps : Z) (components : list LineTaxComponent) : LineTotals :=
  mkLineTotals (lt_LineItemID line) (lt_UnitPrice line) subtotal (lt_DiscountTotal line) tax rateBps components
    (lt_Total line) (lt_PriceID line) (lt_PriceListID line) (lt_PriceListType line).

(** The loop of [applyRegionTax]. *)
Fixpoint region_tax (rateBps : Z) (cards : gset string) (lines : list LineTotals) : result (list LineTotals) :=
  match lines with
  | [] => Ok []
  | line :: rest =>
      line' ← (if bool_decide (lt_LineItemID line ∈ cards) then Ok line
        else
          tax ← taxOf (lt_Subtotal line -₆₄ lt_DiscountTotal line) rateBps;
          Ok (with_tax line (lt_Subtotal line) tax rateBps (lt_TaxComponents line)));
      rest' ← region_tax rateBps cards rest;
      Ok (line' :: rest')
  end.

Definition taxComponentsOf (line : taxResponseLine) : list LineTaxComponent :=
  (fun c => mkLineTaxComponent (trc_RateID c) (trc_RateBps c) (trc_Compound c) (trc_TaxableAmount c)
    (trc_TaxAmount c)) <$> trl_Components line.

Fixpoint component_sum (sum : Z) (components : list taxResponseComponent) : result Z :=
  match components with
  | [] => Ok sum
  | c :: rest => sum ← addAmount sum (trc_TaxAmount c); component_sum sum rest
  end.

(** What one answered line has to satisfy. *)
Definition tax_line_check (snapID : string) (i : Z) (included : bool) (line : LineTotals) (answer : taxResponseLine) :
    option err :=
  let base := lt_Subtotal line -₆₄ lt_DiscountTotal line in
  if negb (bool_decide (trl_ID answer = lt_LineItemID line)) then
    Some (Internal CodeTaxInvalid
      "the tax result did not preserve the order of the request: record %d is %q, expected %q (%s)"
      [AInt i; AStr (trl_ID answer); AStr (lt_LineItemID line); AStr snapID])
  else if included && ((trl_TaxableAmount answer <? 0) ||
      negb (trl_TaxableAmount answer +₆₄ trl_TaxAmount answer =? base)) then
    Some (Internal CodeTaxInvalid
      "the tax-inclusive line does not add up: %q -> base %d + tax %d = %d, sent %d (%s)"
      [AStr (trl_ID answer); AInt (trl_TaxableAmount answer); AInt (trl_TaxAmount answer);
       AInt (trl_TaxableAmount answer +₆₄ trl_TaxAmount answer); AInt base; AStr snapID])
  else if negb included && negb (trl_TaxableAmount answer =? base) then
    Some (Internal CodeTaxInvalid "the tax base differs from the one sent: %q -> %d, sent %d (%s)"
      [AStr (trl_ID answer); AInt (trl_TaxableAmount answer); AInt base; AStr snapID])
  else if (trl_TaxAmount answer <? 0) || (base <? trl_TaxAmount answer) then
    Some (Internal CodeTaxInvalid "the line tax must be in the range [0, %d]: %q -> %d (%s)"
      [AInt base; AStr (trl_ID answer); AInt (trl_TaxAmount answer); AStr snapID])
  else match component_sum 0 (trl_Components answer) with
  | Fail e => Some e
  | Ok components =>
      if (0 <? Z.of_nat (length (trl_Components answer))) && negb (components =? trl_TaxAmount answer) then
        Some (Internal CodeTaxInvalid
          "the line's tax components do not add up to its tax: %q -> Σ=%d, line=%d (%s)"
          [AStr (trl_ID answer); AInt components; AInt (trl_TaxAmount answer); AStr snapID])
      else None
  end.

Fixpoint tax_sum (snapID : string) (i : Z) (included : bool) (sum : Z) (lines : list LineTotals)
    (answers : list taxResponseLine) : result Z :=
  match lines, answers with
  | line :: lines', answer :: answers' =>
      check tax_line_check snapID i included line answer ;;
      sum ← addAmount sum (trl_TaxAmount answer);
      tax_sum snapID (i + 1) included sum lines' answers'
  | _, _ => Ok sum
  end.

Definition taxed_line (included : bool) (line : LineTotals) (answer : taxResponseLine) : LineTotals :=
  with_tax line (if included then trl_TaxableAmount answer +₆₄ lt_DiscountTotal line else lt_Subtotal line)
    (trl_TaxAmount answer) (trl_RateBps answer) (taxComponentsOf answer).

Definition applyTaxResponse (snap : Snapshot) (lines : list LineTotals) (resp : taxResponse) :
    result (list LineTotals) :=
  if negb (bool_decide (length (tr_Items resp) = length lines)) then
    Fail (Internal CodeTaxInvalid "for %d lines the tax result returned %d records (%s)"
      [AInt (Z.of_nat (length lines)); AInt (Z.of_nat (length (tr_Items resp))); AStr (sn_ID snap)])
  else if negb (trl_TaxAmount (tr_Shipping resp) =? 0) then
    Fail (Internal CodeTaxInvalid
      "shipping tax was returned even though shipping was asked not to be taxed: %d (%s)"
      [AInt (trl_TaxAmount (tr_Shipping resp)); AStr (sn_ID snap)])
  else
    sum ← tax_sum (sn_ID snap) 0 (tr_PricesIncludeTax resp) 0 lines (tr_Items resp);
    if negb (sum =? tr_TaxTotal resp) then
      Fail (Internal CodeTaxInvalid "the tax total does not match the line taxes: Σ=%d, reported=%d (%s)"
        [AInt sum; AInt (tr_TaxTotal resp); AStr (sn_ID snap)])
    else Ok (zip_with (taxed_line (tr_PricesIncludeTax resp)) lines (tr_Items resp)).

(** ** The country of a region *)

Definition as_record (v : value) : option record := match v with VRecord r => Some r | _ => None end.

Definition countryCodes (v : value) : list string :=
  omap (fun r => filled (field r FieldCode)) match v with
  | VRecords l => l
  | VList l => omap as_record l
  | _ => []
  end.

Section Taxes.
Context {W : Type} (w : Workflows W) (channels : option (list string)).

(** The country's code, or why there is none. *)
Definition countryForRegion (regionID : string) : tx W (string + string) :=
  r ← attempt (Graph (wf_catalog w)
    (mkGraphSpec EntityRegion [IDField; FieldCountries] [(IDField, VText regionID)] 1));
  match r with
  | Fail e =>
      if bool_decide (CodeOf e = codeProviderNotFound) then
        mret (inr "the region provider is not registered in the Query layer"%string)
      else tx_of (Fail (wrap e (KindOf e) CodeRegionReadFailed "region %s could not be read from the Query layer"
        [AStr regionID]))
  | Ok [] => mret (inr "the region was not found in the Query layer"%string)
  | Ok (region :: _) =>
      mret match countryCodes (field region FieldCountries) with
      | [code] => inl code
      | [] => inr "no country is bound to the region"%string
      | _ => inr "the region is bound to more than one country"%string
      end
  end.

Definition taxRate (regionID : string) : tx W Z :=
  '(rateBps, automatic) ← RegionTax (wf_regions w) regionID;
  tx_of (if negb automatic then Ok 0
    else if (rateBps <? 0) || (MaxTaxRateBps <? rateBps) then
      Fail (Internal CodeTaxRateInvalid
        "region %s reported an out-of-contract tax rate: %d basis points ([0, %d] expected)"
        [AStr regionID; AInt rateBps; AInt MaxTaxRateBps])
    else Ok rateBps).

Definition applyRegionTax (snap : Snapshot) (lines : list LineTotals) (facts : facts_map) :
    tx W (list LineTotals) :=
  rateBps ← taxRate (sn_RegionID snap);
  facts ← (if (0 <? rateBps) && negb (bool_decide (is_Some facts)) then facts_or_none w channels snap
           else mret facts);
  tx_of (region_tax rateBps (giftCardLines snap facts) lines).

(** The positions of the lines that are sent, in order. *)
Definition taxed_indices (cards : gset string) (lines : list LineTotals) : list nat :=
  filter (fun i => from_option (fun l => bool_decide (lt_LineItemID l ∉ cards)) false (lines !! i) = true)
    (seq 0 (length lines)).

(** [lines[i]] for the positions, and writing such lines back. *)
Definition pick (lines : list LineTotals) (indices : list nat) : list LineTotals :=
  omap (fun i => lines !! i) indices.

Definition put_back (lines : list LineTotals) (indices : list nat) (sent : list LineTotals) : list LineTotals :=
  foldl (fun ls p => <[p.1 := p.2]> ls) lines (zip indices sent).

(** Of two lines under one identity the later one's variant. *)
Definition line_variants (snap : Snapshot) : gmap string string :=
  foldl (fun m i => if bool_decide (si_VariantID i = EmptyString) then m else <[si_ID i := si_VariantID i]> m)
    ∅ (sn_Items snap).

Definition tax_item (snap : Snapshot) (productIDs : gmap string string) (facts : facts_map) (line : LineTotals) :
    taxRequestItem :=
  let variantID := default EmptyString (line_variants snap !! lt_LineItemID line) in
  mkTaxRequestItem (lt_LineItemID line) (default EmptyString (productIDs !! variantID))
    (from_option pf_TypeID EmptyString (fact facts variantID)) (lt_Subtotal line -₆₄ lt_DiscountTotal line).

Definition applyModuleTax (taxes : Taxes W) (snap : Snapshot) (countryCode : string) (shippingTotal : Z)
    (lines : list LineTotals) (facts : facts_map) (cards : gset string) : tx W (list LineTotals * taxOutcome) :=
  let variantIDs := filter (fun id => id <> EmptyString) (si_VariantID <$> sn_Items snap) in
  productIDs ← productIDsFor w channels variantIDs;
  let taxed := taxed_indices cards lines in
  raw ← mapping (fun r => wrapping_kind r CodeTaxFailed "the cart tax could not be computed: %s (%q, %d lines)"
      [AStr (sn_ID snap); AStr countryCode; AInt (Z.of_nat (length lines))])
    (CalculateTaxJSON taxes (mkTaxRequest countryCode EmptyString
      (tax_item snap productIDs facts <$> pick lines taxed)
      (mkTaxRequestShipping EmptyString shippingTotal false)));
  resp ← tx_of (wrapping (Unmarshal raw) KindInternal CodeTaxInvalid
    "the tax result could not be decoded: %s" [AStr (sn_ID snap)]);
  sent ← tx_of (applyTaxResponse snap (pick lines taxed) resp);
  mret (put_back lines taxed sent,
    mkTaxOutcome (if tr_RegionFound resp then TaxSourceTax else TaxSourceTaxUnconfigured) (tr_PricesIncludeTax resp)).

Definition applyTaxes (snap : Snapshot) (shippingTotal : Z) (lines : list LineTotals) (facts : facts_map) :
    tx W (list LineTotals * taxOutcome) :=
  let by_region :=
    lines ← applyRegionTax snap lines facts;
    mret (lines, mkTaxOutcome TaxSourceRegion false) in
  match wf_taxes w with
  | None => by_region
  | Some taxes =>
      country ← countryForRegion (sn_RegionID snap);
      match country with
      | inr _ => by_region
      | inl country => applyModuleTax taxes snap country shippingTotal lines facts (giftCardLines snap facts)
      end
  end.
End Taxes.

(** ** Totals: [totals.go] *)

Fixpoint sum_amounts (total : Z) (amounts : list Z) : result Z :=
  match amounts with
  | [] => Ok total
  | a :: rest => total ← addAmount total a; sum_amounts total rest
  end.

Definition shippingTotalOf (snap : Snapshot) : result Z := sum_amounts 0 (ss_Amount <$> sn_ShippingMethods snap).

Definition with_line_total (line : LineTotals) (total : Z) : LineTotals :=
  mkLineTotals (lt_LineItemID line) (lt_UnitPrice line) (lt_Subtotal line) (lt_DiscountTotal line)
    (lt_TaxTotal line) (lt_TaxRateBps line) (lt_TaxComponents line) total (lt_PriceID line)
    (lt_PriceListID line) (lt_PriceListType line).

(** The loop of [assembleTotals]: the three sums and the lines with their totals. *)
Fixpoint assemble_lines (subtotal discount tax : Z) (lines : list LineTotals) :
    result (Z * Z * Z * list LineTotals) :=
  match lines with
  | [] => Ok (subtotal, discount, tax, [])
  | line :: rest =>
      subtotal ← addAmount subtotal (lt_Subtotal line);
      discount ← addAmount discount (lt_DiscountTotal line);
      tax ← addAmount tax (lt_TaxTotal line);
      total ← addAmount (lt_Subtotal line -₆₄ lt_DiscountTotal line) (lt_TaxTotal line);
      '(sums, rest) ← assemble_lines subtotal discount tax rest;
      Ok (sums, with_line_total line total :: rest)
  end.

Definition assembleTotals (snap : Snapshot) (lines : list LineTotals) (shippingTotal : Z) (taxSource : string) :
    result Totals :=
  '(subtotal, discount, taxTotal, lines) ← assemble_lines 0 0 0 lines;
  total ← addAmount (subtotal -₆₄ discount) taxTotal;
  total ← addAmount total shippingTotal;
  Ok (mkTotals (sn_Revision snap) subtotal discount taxTotal shippingTotal total taxSource false lines []).

(** [totals.Applied = applied] and [totals.PricesIncludeTax = included]. *)
Definition with_outcome (t : Totals) (applied : list AppliedPromotion) (included : bool) : Totals :=
  mkTotals (to_Revision t) (to_Subtotal t) (to_DiscountTotal t) (to_TaxTotal t) (to_ShippingTotal t) (to_Total t)
    (to_TaxSource t) included (to_Lines t) applied.

Section Round.
Context {W : Type} (w : Workflows W) (same_fold : list Z -> list Z -> bool) (channels : option (list string)).

Definition snapshot (cartID : string) : tx W Snapshot :=
  payload ← CartSnapshotJSON (wf_carts w) cartID;
  tx_of (decodeSnapshot cartID payload).

(** Whether anybody wants the products' facts. *)
Definition facts_wanted : bool :=
  bool_decide (is_Some (wf_discounts w)) || bool_decide (is_Some (wf_taxes w)).

Definition computeTotals (snap : Snapshot) : tx W Totals :=
  lines ← lineSubtotals w snap;
  shippingTotal ← tx_of (shippingTotalOf snap);
  facts ← (if facts_wanted then facts_or_none w channels snap else mret None);
  '(lines, applied) ← applyDiscounts same_fold w snap lines facts;
  '(lines, tax) ← applyTaxes w channels snap shippingTotal lines facts;
  totals ← tx_of (assembleTotals snap lines shippingTotal (ot_source tax));
  mret (with_outcome totals applied (ot_pricesIncludeTax tax)).

(** The part of a round before its write. *)
Definition round_totals (cartID : string) : tx W Totals :=
  snap ← snapshot cartID;
  tx_check (if sn_Completed snap then
      Some (Conflict CodeCartCompleted "no calculation can be done on a completed cart: %s" [AStr cartID])
    else None) ;;
  computeTotals snap.

(** The flag says that the write met a changed cart: the round can be done again. *)
Definition totalsRound (cartID : string) (st : W) : W * (result Totals * bool) :=
  match round_totals cartID st with
  | (st, Fail e) => (st, (Fail e, false))
  | (st, Ok totals) =>
      match SetCartTotalsJSON (wf_carts w) cartID totals st with
      | (st, Fail e) => (st, (Fail e, IsConflict (Some e)))
      | (st, Ok _) => (st, (Ok totals, false))
      end
  end.

Definition zero_totals : Totals := mkTotals 0 0 0 0 0 0 EmptyString false [] [].

(** The rounds that are left, and the last one's error. *)
Fixpoint totals_rounds (cartID : string) (rounds : nat) (lastErr : option err) (st : W) : W * result Totals :=
  match rounds with
  | O =>
      (st, match Wrap lastErr KindConflict CodeTotalsConflict
          "cart %s changed too often for the calculation to be written (%d attempts); the request has to be sent again"
          [AStr cartID; AInt (Z.of_nat MaxTotalsAttempts)] with
        | Some e => Fail e
        | None => Ok zero_totals
        end)
  | S rounds =>
      match totalsRound cartID st with
      | (st, (Ok totals, _)) => (st, Ok totals)
      | (st, (Fail e, false)) => (st, Fail e)
      | (st, (Fail e, true)) => totals_rounds cartID rounds (Some e) st
      end
  end.

Definition CalculateTotals (cartID : string) : tx W Totals :=
  tx_check (requireID "cart_id" cartID) ;;
  totals_rounds cartID MaxTotalsAttempts None.
End Round.
