(* ===== verification/CartCalls.v ===== *)
(** * The calls of the cart workflow: [add_line_item.go], [update_line_item.go], [create_cart.go],
    [promotion_code.go], [shipping.go], [quote_cart.go], [quote.go] and [exchange_quote.go] of
    [internal/workflows/cart]

    What changes a cart reprices it. A price never comes from the caller: a line's from pricing, a shipping
    method's from the fulfillment module's quote for the cart's own facts. *)
From S2P Require Import Prelude GoText Errors Tx CartFlow CartRound.

Definition CodeShippingUnavailable : string := "cart_workflow_shipping_unavailable".
Definition CodeShippingOptionUnknown : string := "cart_workflow_shipping_option_unknown".
Definition CodeShippingQuoteFailed : string := "cart_workflow_shipping_quote_failed".
Definition CodeCouponNotUsable : string := "cart_coupon_not_usable".
Definition FieldWeight : string := "weight".
Definition FieldLength : string := "length".
Definition FieldWidth : string := "width".
Definition FieldHeight : string := "height".
Definition MaxExchangeQuoteLines : Z := 100.

Record AddOnRequest := mkAddOnRequest { ar_VariantID : string; ar_Properties : gmap string string }.

Record AddLineItemInput := mkAddLineItemInput {
  ali_CartID : string;
  ali_VariantID : string;
  ali_Quantity : Z;
  ali_Metadata : RawMessage (gmap string string);
  ali_Properties : gmap string string;
  ali_AddOns : list AddOnRequest
}.

Record AddLineItemResult := mkAddLineItemResult {
  alr_LineItemID : string;
  alr_VariantID : string;
  alr_Title : string;
  alr_UnitPrice : Z;
  alr_Totals : Totals
}.

Record UpdateLineItemInput := mkUpdateLineItemInput {
  uli_CartID : string;
  uli_LineItemID : string;
  uli_Quantity : Z
}.

Record UpdateLineItemResult := mkUpdateLineItemResult {
  ulr_LineItemID : string;
  ulr_Quantity : Z;
  ulr_Removed : bool;
  ulr_Totals : Totals
}.

Record CreateCartInput := mkCreateCartInput {
  cci_CountryCode : string;
  cci_CustomerID : string;
  cci_Email : string;
  cci_AddsToOrderID : string;
  cci_Metadata : RawMessage (gmap string string);
  cci_OpenedBy : string
}.

Record CreateCartResult := mkCreateCartResult {
  ccr_CartID : string;
  ccr_RegionID : string;
  ccr_CurrencyCode : string;
  ccr_CustomerID : string;
  ccr_Email : string;
  ccr_Guest : bool;
  ccr_AddsToOrderID : string;
  ccr_SalesChannelID : string
}.

Record ListedOption := mkListedOption {
  lo_ID : string;
  lo_Name : string;
  lo_Amount : Z;
  lo_CurrencyCode : string;
  lo_DeliveryDays : option DeliveryDays
}.

Record ExchangeQuoteLine := mkExchangeQuoteLine {
  eql_VariantID : string;
  eql_Quantity : Z;
  eql_UnitPrice : option Z
}.

Record ExchangeQuoteInput := mkExchangeQuoteInput {
  eqi_RegionID : string;
  eqi_SalesChannelID : string;
  eqi_CustomerID : string;
  eqi_Lines : list ExchangeQuoteLine
}.

Record ExchangeQuote := mkExchangeQuote {
  eq_CurrencyCode : string;
  eq_PricesIncludeTax : bool;
  eq_TaxSource : string;
  eq_Lines : list LineTotals
}.

(** [decodeAddOnRequests]; [null] is a document that says nothing. *)
Definition decodeAddOnRequests (raw : RawMessage (list AddOnRequest)) : result (list AddOnRequest) :=
  match raw with
  | NoBytes => Ok []
  | _ => wrapping (Unmarshal raw) KindInvalid CodeAddOnNotAccepted
      "the add-ons must be a JSON array of variant_id and properties" []
  end.

(** The loop of [productTakes]. *)
Fixpoint takes_add_ons (productID : string) (accepted : list string) (seen : gset string)
    (addOns : list AddOnRequest) : option err :=
  match addOns with
  | [] => None
  | a :: rest =>
      if bool_decide (ar_VariantID a ∈ seen) then
        Some (Invalid CodeAddOnNotAccepted "the add-on %s is named twice on one line" [AStr (ar_VariantID a)])
      else if negb (Contains accepted (ar_VariantID a)) then
        Some (Invalid CodeAddOnNotAccepted "variant %s is not an add-on the lines of product %s take"
          [AStr (ar_VariantID a); AStr productID])
      else takes_add_ons productID accepted ({[ar_VariantID a]} ∪ seen) rest
  end.

Definition totalsAfterChange (e : err) (cartID what : string) : err :=
  wrap e (KindOf e) CodeTotalsAfterChange
    "%s (%s) but the totals could not be calculated; the cart's totals are stale, the calculation has to be run again"
    [AStr what; AStr cartID].

Section Calls.
Context {W : Type} (w : Workflows W) (same_fold : list Z -> list Z -> bool) (channels : option (list string)).

(** The round after a change. *)
Definition reprice (cartID what : string) : tx W Totals :=
  mapping (fun r => match r with Ok t => Ok t | Fail e => Fail (totalsAfterChange e cartID what) end)
    (CalculateTotals w same_fold channels cartID).

(** ** Lines *)

Definition productTakes (productID : string) (addOns : list AddOnRequest) : tx W unit :=
  records ← mapping (fun r => wrapping_kind r CodeCatalogReadFailed
      "could not read the add-ons product %s accepts" [AStr productID])
    (Graph (wf_catalog w) (mkGraphSpec EntityProduct [IDField; FieldAddOnVariantIDs]
      [(FilterIDs, VTexts [productID])] 1));
  let accepted := match records with r :: _ => stringList (field r FieldAddOnVariantIDs) | [] => [] end in
  tx_check (takes_add_ons productID accepted ∅ addOns).

Definition not_in_catalog (variantID : string) : err :=
  NotFound CodeVariantUnknown "variant %s is not in the catalog" [AStr variantID].

Definition checkAddOns (variantID : string) (addOns : list AddOnRequest) : tx W unit :=
  match addOns with
  | [] => mret tt
  | _ =>
      products ← productIDsFor w channels [variantID];
      match products !! variantID with
      | None => tx_of (Fail (not_in_catalog variantID))
      | Some productID => productTakes productID addOns
      end
  end.

Fixpoint price_add_ons (addOns : list AddOnRequest) (priceSets : gmap string string) (currency : string)
    (quantity : Z) (attributes : gmap string string) : tx W (list pricedAddOn) :=
  match addOns with
  | [] => mret []
  | a :: rest =>
      title ← variantTitle w channels (ar_VariantID a);
      amount ← mapping (fun r => match r with
          | Ok z => Ok z
          | Fail e => Fail (if IsNotFound (Some e) then
              wrap e KindInvalid CodePriceUnavailable "add-on %s has no price in currency %s at quantity %d"
                [AStr (ar_VariantID a); AStr currency; AInt quantity]
            else e) end)
        (CalculateAmount (wf_prices w) (default EmptyString (priceSets !! ar_VariantID a)) currency quantity
          attributes);
      tx_check (checkAmount "add_on unit_price" amount MaxAmount) ;;
      priced ← price_add_ons rest priceSets currency quantity attributes;
      mret (mkPricedAddOn (ar_VariantID a) title amount (ar_Properties a) :: priced)
  end.

Definition priceAddOns (addOns : list AddOnRequest) (priceSets : gmap string string) (currency : string)
    (quantity : Z) (attributes : gmap string string) : tx W (RawMessage (list pricedAddOn)) :=
  match addOns with
  | [] => mret NoBytes
  | _ => priced ← price_add_ons addOns priceSets currency quantity attributes; mret (Document priced)
  end.

Definition AddLineItem (in_ : AddLineItemInput) : tx W AddLineItemResult :=
  tx_check (requireID "cart_id" (ali_CartID in_)) ;;
  tx_check (requireID "variant_id" (ali_VariantID in_)) ;;
  quantity ← tx_of (quantity32 (ali_Quantity in_));
  snap ← snapshot w (ali_CartID in_);
  tx_check (if sn_Completed snap then
      Some (Conflict CodeCartCompleted "no line can be added to a completed cart: %s" [AStr (ali_CartID in_)])
    else None) ;;
  title ← variantTitle w channels (ali_VariantID in_);
  checkAddOns (ali_VariantID in_) (ali_AddOns in_) ;;
  priceSets ← priceSetsFor w (ali_VariantID in_ :: (ar_VariantID <$> ali_AddOns in_));
  '(attributes, _, _) ← priceContext w (priceSubjectOf snap);
  unitPrice ← mapping (fun r => match r with
      | Ok z => Ok z
      | Fail e => Fail (if IsNotFound (Some e) then
          wrap e KindInvalid CodePriceUnavailable "variant %s has no price in currency %s at quantity %d"
            [AStr (ali_VariantID in_); AStr (sn_CurrencyCode snap); AInt (ali_Quantity in_)]
        else e) end)
    (CalculateAmount (wf_prices w) (default EmptyString (priceSets !! ali_VariantID in_)) (sn_CurrencyCode snap)
      quantity attributes);
  tx_check (checkAmount "unit_price" unitPrice MaxAmount) ;;
  addOns ← priceAddOns (ali_AddOns in_) priceSets (sn_CurrencyCode snap) quantity attributes;
  lineID ← AddCartLineItem (wf_carts w) (ali_CartID in_) (ali_VariantID in_) title (ali_Quantity in_) unitPrice
    (ali_Metadata in_) (ali_Properties in_) addOns;
  totals ← reprice (ali_CartID in_) "line added";
  mret (mkAddLineItemResult lineID (ali_VariantID in_) title unitPrice totals).

(** The line's add-ons of a raise, and what the catalog still says of them. *)
Definition mayRaiseAddOns (snap : Snapshot) (line : SnapshotItem) : tx W unit :=
  match filter (fun i => si_ParentLineID i = si_ID line) (sn_Items snap) with
  | [] => mret tt
  | children =>
      let ids := si_VariantID <$> children in
      inScope ← productIDsFor w channels (si_VariantID line :: ids);
      match inScope !! si_VariantID line with
      | None => tx_of (Fail (not_in_catalog (si_VariantID line)))
      | Some productID =>
          productTakes productID ((fun id => mkAddOnRequest id ∅) <$> ids) ;;
          tx_check (first_error (fun id => if bool_decide (is_Some (inScope !! id)) then None
            else Some (not_in_catalog id)) ids)
      end
  end.

Definition mayRaise (in_ : UpdateLineItemInput) : tx W unit :=
  snap ← snapshot w (uli_CartID in_);
  match head (filter (fun i => si_ID i = uli_LineItemID in_) (sn_Items snap)) with
  | None => mret tt
  | Some item =>
      if uli_Quantity in_ <=? si_Quantity item then mret tt
      else
        _ ← variantTitle w channels (si_VariantID item);
        mayRaiseAddOns snap item
  end.

Definition UpdateLineItem (in_ : UpdateLineItemInput) : tx W UpdateLineItemResult :=
  tx_check (requireID "cart_id" (uli_CartID in_)) ;;
  tx_check (requireID "line_item_id" (uli_LineItemID in_)) ;;
  tx_check (if uli_Quantity in_ <? 0 then
      Some (Invalid CodeInvalidInput "the quantity cannot be negative: %d (give 0 to remove the line)"
        [AInt (uli_Quantity in_)])
    else None) ;;
  tx_check (if MaxQuantity <? uli_Quantity in_ then
      Some (Invalid CodeInvalidInput "the quantity can be at most %d: %d" [AInt MaxQuantity; AInt (uli_Quantity in_)])
    else None) ;;
  let removed := uli_Quantity in_ =? 0 in
  (if removed then carts_RemoveLineItem (wf_carts w) (uli_CartID in_) (uli_LineItemID in_)
   else
     mayRaise in_ ;;
     SetCartLineItemQuantity (wf_carts w) (uli_CartID in_) (uli_LineItemID in_) (uli_Quantity in_)) ;;
  totals ← reprice (uli_CartID in_) (if removed then "line removed" else "line quantity updated");
  mret (mkUpdateLineItemResult (uli_LineItemID in_) (uli_Quantity in_) removed totals).

(** ** A new cart *)

Definition checkAddition (orderID customerID currency : string) : tx W unit :=
  match wf_orders w with
  | None => tx_of (Fail (Internal CodeAdditionsUnavailable
      "the order surface (%q) is not wired, so no cart can be opened to add to order %s"
      [AStr ServiceOrder; AStr orderID]))
  | Some orders => CheckAddition orders orderID customerID currency
  end.

Definition CreateCart (in_ : CreateCartInput) : tx W CreateCartResult :=
  let country := TrimSpace (cci_CountryCode in_) in
  let customerID := cci_CustomerID in_ in
  let guest := bool_decide (customerID = EmptyString) in
  tx_check (if bool_decide (country = EmptyString) then
      Some (Invalid CodeInvalidInput "country_code cannot be empty" [])
    else None) ;;
  tx_check (if guest then None else requireID "customer_id" customerID) ;;
  let addsTo := TrimSpace (cci_AddsToOrderID in_) in
  regionID ← RegionIDForCountry (wf_regions w) country;
  '(currency, _) ← RegionCurrency (wf_regions w) regionID;
  let email := TrimSpace (cci_Email in_) in
  email ← (if guest then mret email
    else
      known ← CustomerEmail (wf_customers w) customerID;
      mret (if bool_decide (email = EmptyString) then known else email));
  (if bool_decide (addsTo = EmptyString) then mret tt else checkAddition addsTo customerID currency) ;;
  let channel := pricingChannel channels in
  cartID ← OpenCart (wf_carts w) regionID currency customerID email addsTo (cci_OpenedBy in_) channel
    (cci_Metadata in_);
  mret (mkCreateCartResult cartID regionID currency customerID email guest addsTo channel).

(** ** Coupon codes *)

Definition ApplyPromotionCode (cartID code : string) : tx W unit :=
  match wf_discounts w with
  | None => tx_of (Fail (Internal CodeCouponNotUsable
      "the promotion module is not installed; a coupon code cannot be applied" []))
  | Some discounts =>
      mapping (fun r => match r with
          | Ok _ => Ok tt
          | Fail e => Fail (if IsNotFound (Some e) then
              wrap e KindInvalid CodeCouponNotUsable "the coupon code cannot be applied: %s" [AStr code]
            else e) end)
        (CouponApplies discounts code) ;;
      AddCartPromotionCode (wf_carts w) cartID code ;;
      ignore (CalculateTotals w same_fold channels cartID)
  end.

Definition RemovePromotionCode (cartID code : string) : tx W unit :=
  RemoveCartPromotionCode (wf_carts w) cartID code ;;
  ignore (CalculateTotals w same_fold channels cartID).

(** ** Shipping: [shipping.go], [quote_cart.go] *)

(** [measure]: a number of a record, at least zero. *)
Definition measure (v : value) : Z :=
  Z.max match v with VInt z => z | VFloat z => z | _ => 0 end 0.

Record measures := mkMeasures {
  ms_productID : string;
  ms_variantWeight : Z;
  ms_productWeight : Z;
  ms_length : Z;
  ms_width : Z;
  ms_height : Z
}.

Definition no_measures : measures := mkMeasures EmptyString 0 0 0 0 0.

(** The loop over the variants' records; [productOf] and [out] in one. *)
Definition measure_variant (out : gmap string measures) (r : record) : gmap string measures :=
  match filled (field r IDField) with
  | None => out
  | Some variantID =>
      <[variantID := mkMeasures (default EmptyString (as_text (field r FieldProductID)))
          (measure (field r FieldWeight)) 0 0 0 0]> out
  end.

Definition record_by_id (out : gmap string record) (r : record) : gmap string record :=
  match filled (field r IDField) with None => out | Some id => <[id := r]> out end.

Definition measure_product (byProduct : gmap string record) (m : measures) : measures :=
  match byProduct !! ms_productID m with
  | None => m
  | Some r =>
      mkMeasures (ms_productID m) (ms_variantWeight m) (measure (field r FieldWeight))
        (measure (field r FieldLength)) (measure (field r FieldWidth)) (measure (field r FieldHeight))
  end.

Definition lineMeasures (snap : Snapshot) : tx W (gmap string measures) :=
  match VariantIDs snap with
  | [] => mret ∅
  | variantIDs =>
      variants ← mapping (fun r => wrapping_kind r CodeCatalogReadFailed
          "could not read the measures of %d variants from the catalog" [AInt (Z.of_nat (length variantIDs))])
        (Graph (wf_catalog w) (mkGraphSpec EntityVariant [IDField; FieldProductID; FieldWeight]
          [(FilterIDs, VTexts variantIDs)] (Z.of_nat (length variantIDs))));
      let out := foldl measure_variant ∅ variants in
      match uniqueProductIDs (ms_productID <$> out) with
      | [] => mret out
      | productIDs =>
          products ← mapping (fun r => wrapping_kind r CodeCatalogReadFailed
              "could not read the measures of %d products from the catalog" [AInt (Z.of_nat (length productIDs))])
            (Graph (wf_catalog w) (mkGraphSpec EntityProduct
              [IDField; FieldWeight; FieldLength; FieldWidth; FieldHeight]
              [(FilterIDs, VTexts productIDs)] (Z.of_nat (length productIDs))));
          mret (measure_product (foldl record_by_id ∅ products) <$> out)
      end
  end.

(** A line of the quoted cart; [amounts] is the line's amounts where the round has them. *)
Definition quote_line (measured : gmap string measures) (item : SnapshotItem) (amounts : option LineTotals) :
    quoteLine :=
  let m := default no_measures (measured !! si_VariantID item) in
  mkQuoteLine (si_ID item) (si_VariantID item) (ms_productID m) (si_Quantity item)
    (from_option lt_UnitPrice 0 amounts)
    (from_option (fun l => lt_Subtotal l -₆₄ lt_DiscountTotal l) 0 amounts)
    (ms_variantWeight m) (ms_productWeight m) (ms_length m) (ms_width m) (ms_height m).

Definition quoteCartFor (snap : Snapshot) (lines : list LineTotals) (cards : gset string) : tx W quoteCart :=
  measured ← lineMeasures snap;
  mret (mkQuoteCart (sn_ID snap) (sn_CurrencyCode snap)
    (omap (fun p => if bool_decide (si_ID p.2 ∈ cards) then None
        else Some (quote_line measured p.2 (lines !! p.1)))
      (imap pair (sn_Items snap)))).

Definition quoteRequestFor (snap : Snapshot) : tx W quoteRequest :=
  lines ← lineSubtotals w snap;
  facts ← facts_or_none w channels snap;
  '(lines, _) ← applyDiscounts same_fold w snap lines facts;
  subtotal ← tx_of (sum_amounts 0 ((fun l => lt_Subtotal l -₆₄ lt_DiscountTotal l) <$> lines));
  let cards := giftCardLines snap facts in
  itemCount ← tx_of (sum_amounts 0 (si_Quantity <$> filter (fun i => si_ID i ∉ cards) (sn_Items snap)));
  country ← countryForRegion w (sn_RegionID snap);
  cart ← attempt (quoteCartFor snap lines cards);
  mret (mkQuoteRequest (sn_RegionID snap) (sn_CurrencyCode snap)
    match country with inl code => code | inr _ => EmptyString end subtotal itemCount 0 false
    match cart with Ok c => Some c | Fail _ => None end).

Definition for_operator (operator : bool) (r : quoteRequest) : quoteRequest :=
  mkQuoteRequest (qr_RegionID r) (qr_CurrencyCode r) (qr_CountryCode r) (qr_Subtotal r) (qr_ItemCount r)
    (qr_TotalWeight r) operator (qr_Cart r).

(** [quote], on the surface its callers have found wired. *)
Definition quote_options (shipping : Shipping W) (snap : Snapshot) (operator : bool) : tx W quoteResponse :=
  request ← quoteRequestFor snap;
  raw ← mapping (fun r => wrapping_kind r CodeShippingQuoteFailed
      "the shipping options could not be quoted for cart %s" [AStr (sn_ID snap)])
    (ListOptionsJSON shipping (for_operator operator request));
  tx_of (wrapping (Unmarshal raw) KindInternal CodeShippingQuoteFailed
    "the shipping quote answer could not be parsed for cart %s" [AStr (sn_ID snap)]).

(** Whether the audience may choose an option. *)
Definition may_choose (operator : bool) (o : quotedOption) : bool :=
  negb ((qo_AdminOnly o && negb operator) || qo_IsReturn o).

Definition option_unknown (snap : Snapshot) (shippingOptionID : string) : err :=
  Invalid CodeShippingOptionUnknown "the shipping option %q is not available for cart %s"
    [AStr shippingOptionID; AStr (sn_ID snap)].

(** The first option under the identity, if it may be chosen. *)
Definition quoteOption (shipping : Shipping W) (snap : Snapshot) (shippingOptionID : string) (operator : bool) :
    tx W quotedOption :=
  answer ← quote_options shipping snap operator;
  tx_of match head (filter (fun o => qo_ID o = shippingOptionID) (qs_Options answer)) with
  | Some o => if may_choose operator o then Ok o else Fail (option_unknown snap shippingOptionID)
  | None => Fail (option_unknown snap shippingOptionID)
  end.

Definition other_currency (snap : Snapshot) (o : quotedOption) : bool :=
  negb (bool_decide (qo_CurrencyCode o = EmptyString)) && negb (bool_decide (qo_CurrencyCode o = sn_CurrencyCode snap)).

Definition addQuotedShippingMethod (cartID shippingOptionID : string) (data : RawMessage (gmap string string))
    (operator : bool) : tx W string :=
  tx_check (if bool_decide (cartID = EmptyString) then
      Some (Invalid CodeInvalidInput "the cart id is required" [])
    else None) ;;
  tx_check (if bool_decide (shippingOptionID = EmptyString) then
      Some (Invalid CodeInvalidInput
        "the shipping option id is required; the price is quoted from the option and there is no other place it could come from" [])
    else None) ;;
  match wf_shipping w with
  | None => tx_of (Fail (Internal CodeShippingUnavailable
      "the fulfillment surface (%q) is not wired, so no shipping option can be priced; the method is not added rather than written at a price the caller chose"
      [AStr ServiceFulfillment]))
  | Some shipping =>
      snap ← snapshot w cartID;
      option ← quoteOption shipping snap shippingOptionID operator;
      tx_check (if other_currency snap option then
          Some (Invalid CodeShippingOptionUnknown "the shipping option %q is priced in %s and the cart is in %s"
            [AStr shippingOptionID; AStr (qo_CurrencyCode option); AStr (sn_CurrencyCode snap)])
        else None) ;;
      methodID ← carts_AddShippingMethod (wf_carts w) cartID (qo_Name option) (qo_ID option) (qo_Amount option) data;
      _ ← reprice cartID "shipping method added";
      mret methodID
  end.

Definition AddQuotedShippingMethod (cartID shippingOptionID : string) (data : RawMessage (gmap string string)) :
    tx W string := addQuotedShippingMethod cartID shippingOptionID data false.

Definition AddOperatorShippingMethod (cartID shippingOptionID : string) (data : RawMessage (gmap string string)) :
    tx W string := addQuotedShippingMethod cartID shippingOptionID data true.

Definition shippingOptions (cartID : string) (operator : bool) : tx W (list ListedOption) :=
  match wf_shipping w with
  | None => tx_of (Fail (Internal CodeShippingUnavailable
      "the fulfillment surface (%q) is not wired, so no shipping option can be priced" [AStr ServiceFulfillment]))
  | Some shipping =>
      snap ← snapshot w cartID;
      answer ← quote_options shipping snap operator;
      mret ((fun o => mkListedOption (qo_ID o) (qo_Name o) (qo_Amount o) (sn_CurrencyCode snap) (qo_DeliveryDays o))
        <$> filter (fun o => may_choose operator o && negb (other_currency snap o) = true) (qs_Options answer))
  end.

Definition ShippingOptionsFor (cartID : string) : tx W (list ListedOption) := shippingOptions cartID false.
Definition OperatorShippingOptionsFor (cartID : string) : tx W (list ListedOption) := shippingOptions cartID true.

(** ** Quotes: [quote.go], [exchange_quote.go] *)

Definition region_currency (regionID : string) : tx W (string * Z) :=
  mapping (fun r => match r with
      | Ok c => Ok c
      | Fail e => Fail (if IsNotFound (Some e) then
          wrap e KindNotFound CodeQuoteRegionUnknown "region %s does not exist" [AStr regionID]
        else e) end)
    (RegionCurrency (wf_regions w) regionID).

(** The variants with exactly one price set, with it. *)
Definition priced_variants (linked : gmap string (list string)) (variantIDs : list string) :
    list (string * string) :=
  omap (fun v => match default [] (linked !! v) with [set] => Some (v, set) | _ => None end) variantIDs.

Definition QuoteUnitPrices (regionID customerID : string) (variantIDs : list string) :
    tx W (string * gmap string Z) :=
  tx_check (if bool_decide (TrimSpace regionID = EmptyString) then
      Some (Invalid CodeInvalidInput "a quote needs a region" [])
    else None) ;;
  '(currency, _) ← region_currency regionID;
  match variantIDs with
  | [] => mret (currency, ∅)
  | _ =>
      linked ← mapping (fun r => wrapping_kind r CodeLinkReadFailed "could not read the %q link (%d variants)"
          [AStr LinkVariantPriceSet; AInt (Z.of_nat (length variantIDs))])
        (ListMany (wf_links w) LinkVariantPriceSet variantIDs);
      match priced_variants linked variantIDs with
      | [] => mret (currency, ∅)
      | priced =>
          '(attributes, _, _) ← priceContext w (mkPriceSubject regionID EmptyString customerID);
          raw ← CalculateAmountsJSON (wf_prices w)
            (mkPriceRequest currency attributes ((fun p => mkPriceRequestItem p.2 1) <$> priced));
          resp ← tx_of (wrapping (Unmarshal raw) KindInternal CodePriceResponseInvalid
            "the quote result could not be decoded" []);
          tx_check (if negb (bool_decide (length (ps_Items resp) = length priced)) then
              Some (Internal CodePriceResponseInvalid "for %d variants the quote returned %d records"
                [AInt (Z.of_nat (length priced)); AInt (Z.of_nat (length (ps_Items resp)))])
            else None) ;;
          mret (currency, foldl (fun m p => if ps_Priced p.2 then <[p.1.1 := ps_Amount p.2]> m else m)
            ∅ (zip priced (ps_Items resp)))
      end
  end.

Definition exchange_line_check (line : ExchangeQuoteLine) : option err :=
  match requireID "variant_id" (eql_VariantID line) with
  | Some e => Some e
  | None =>
      match quantity32 (eql_Quantity line) with
      | Fail e => Some e
      | Ok _ =>
          match eql_UnitPrice line with
          | Some price => checkAmount "unit_price" price MaxAmount
          | None => None
          end
      end
  end.

Definition exchange_items (lines : list ExchangeQuoteLine) : list SnapshotItem :=
  imap (fun i l => mkSnapshotItem (sprintf "line-%d" [AInt (Z.of_nat i)]) (eql_VariantID l) (eql_Quantity l)
    ∅ ∅ EmptyString) lines.

Definition exchange_snapshot (in_ : ExchangeQuoteInput) (currency : string) (items : list SnapshotItem) : Snapshot :=
  mkSnapshot "exchange-quote" (eqi_RegionID in_) (eqi_CustomerID in_) currency (eqi_SalesChannelID in_) 0 false
    items [] [].

(** The lines in order: those without a price of their own from the list, one after the other; the list has
    one for each. *)
Fixpoint exchange_lines (lines : list ExchangeQuoteLine) (items : list SnapshotItem) (fromList : list LineTotals) :
    result (list LineTotals) :=
  match lines, items with
  | line :: lines', item :: items' =>
      match eql_UnitPrice line with
      | None =>
          match fromList with
          | l :: fromList' => rest ← exchange_lines lines' items' fromList'; Ok (l :: rest)
          | [] => Ok []
          end
      | Some price =>
          subtotal ← mulAmount price (eql_Quantity line);
          rest ← exchange_lines lines' items' fromList;
          Ok (mkLineTotals (si_ID item) price subtotal 0 0 0 [] 0 EmptyString None EmptyString :: rest)
      end
  | _, _ => Ok []
  end.

Definition QuoteExchangeLines (in_ : ExchangeQuoteInput) : tx W ExchangeQuote :=
  let n := Z.of_nat (length (eqi_Lines in_)) in
  tx_check (requireID "region_id" (eqi_RegionID in_)) ;;
  tx_check (if (n =? 0) || (MaxExchangeQuoteLines <? n) then
      Some (Invalid CodeInvalidInput "an exchange quote prices between 1 and %d lines, %d were given"
        [AInt MaxExchangeQuoteLines; AInt n])
    else None) ;;
  tx_check (first_error exchange_line_check (eqi_Lines in_)) ;;
  '(currency, _) ← region_currency (eqi_RegionID in_);
  let items := exchange_items (eqi_Lines in_) in
  let snap := exchange_snapshot in_ currency items in
  let listed := (filter (fun p => eql_UnitPrice p.1 = None) (zip (eqi_Lines in_) items)).*2 in
  fromList ← lineSubtotals w (exchange_snapshot in_ currency listed);
  lines ← tx_of (exchange_lines (eqi_Lines in_) items fromList);
  facts ← (if bool_decide (is_Some (wf_taxes w)) then facts_or_none w channels snap else mret None);
  '(lines, tax) ← applyTaxes w channels snap 0 lines facts;
  totals ← tx_of (assembleTotals snap lines 0 (ot_source tax));
  mret (mkExchangeQuote currency (ot_pricesIncludeTax tax) (ot_source tax) (to_Lines totals)).

(** [Interop.RepriceAfter]: a change and the round after it. *)
Definition RepriceAfter (cartID : string) (change : tx W unit) : tx W unit :=
  change ;;
  ignore (reprice cartID "the cart was changed").

(** ** The surface for the other modules: [interop.go]

    What it passes on unchanged ([AddQuotedShippingMethod], [AddOperatorShippingMethod],
    [ApplyPromotionCode], [RemovePromotionCode]) is the operation itself. *)
Definition OpenCartForCountry (countryCode customerID email addsToOrderID openedBy : string)
    (metadata : RawMessage (gmap string string)) : tx W string :=
  result ← CreateCart (mkCreateCartInput countryCode customerID email addsToOrderID metadata openedBy);
  mret (ccr_CartID result).

Definition AddPricedLineItem (cartID variantID : string) (quantity : Z) (metadata : RawMessage (gmap string string))
    (properties : gmap string string) (addOns : RawMessage (list AddOnRequest)) : tx W string :=
  requested ← tx_of (decodeAddOnRequests addOns);
  result ← AddLineItem (mkAddLineItemInput cartID variantID quantity metadata properties requested);
  mret (alr_LineItemID result).

Definition ShippingOptionsJSON (cartID : string) : tx W (RawMessage (list ListedOption)) :=
  options ← ShippingOptionsFor cartID;
  mret (Document options).

Definition OperatorShippingOptionsJSON (cartID : string) : tx W (RawMessage (list ListedOption)) :=
  options ← OperatorShippingOptionsFor cartID;
  mret (Document options).

Definition SetLineItemQuantity (cartID lineItemID : string) (quantity : Z) : tx W bool :=
  result ← UpdateLineItem (mkUpdateLineItemInput cartID lineItemID quantity);
  mret (ulr_Removed result).

Definition QuoteExchangeLinesJSON (request : RawMessage ExchangeQuoteInput) : tx W (RawMessage ExchangeQuote) :=
  in_ ← tx_of (wrapping (Unmarshal request) KindInvalid CodeInvalidInput
    "the exchange quote request could not be read" []);
  quote ← QuoteExchangeLines in_;
  mret (Document quote).
End Calls.
