(* ===== verification/CartModules.v ===== *)
(** * The modules behind the cart workflow: [service/interop.go] of [internal/modules/cart], [promotion] and
    [tax]

    Each module's surface for the workflow: a request is read into the module's own types, the service is
    called and its answer written back. The workflow's requests and the modules' documents have the same
    fields, so what one side encodes the other decodes; a text that is not such a document cannot come from
    the workflow. *)
From S2P Require Import Prelude GoText Errors Tx CartModels CartTotals CartStore CartService PromotionModels PromotionDiscounts PromotionCompute TaxRates TaxCalculate CartFlow.

(** A computation on a part of a state. *)
Definition on_part {W S A} (get : W -> S) (put : S -> W -> W) (m : tx S A) : tx W A :=
  fun st => let '(s, r) := m (get st) in (put s st, r).

(** ** The cart: [cart/service/interop.go] *)

Definition CodeInteropMetadataInvalid : string := "cart_interop_metadata_invalid".
Definition CodeInteropTotalsInvalid : string := "cart_interop_totals_invalid".

(** The lines, methods and codes of a cart and what of its row a round reads. *)
Definition interop_item (l : LineItem) : SnapshotItem :=
  mkSnapshotItem (li_ID l) (li_VariantID l) (li_Quantity l) (li_Metadata l) (li_Properties l)
    (default EmptyString (li_ParentLineID l)).

Definition interop_method (m : ShippingMethod) : SnapshotShippingMethod :=
  mkSnapshotShippingMethod (sm_ID m) (sm_Amount m).

Definition interop_snapshot (d : CartDetail) : Snapshot :=
  let c := cd_Cart d in
  mkSnapshot (cart_ID c) (cart_RegionID c) (cart_CustomerID c) (cart_CurrencyCode c) (cart_SalesChannelID c)
    (cart_Revision c) (Completed c) (interop_item <$> cd_Items d) (interop_method <$> cd_ShippingMethods d)
    (cd_PromotionCodes d).

Definition interop_line_totals (l : CartFlow.LineTotals) : CartTotals.LineTotals :=
  CartTotals.mkLineTotals (lt_LineItemID l) (lt_UnitPrice l) (lt_Subtotal l) (lt_DiscountTotal l)
    (lt_TaxTotal l) (lt_Total l).

Definition interop_totals (t : CartFlow.Totals) : CartTotals.Totals :=
  CartTotals.mkTotals (to_Revision t) (to_Subtotal t) (to_DiscountTotal t) (to_TaxTotal t) (to_ShippingTotal t)
    (to_Total t) (to_PricesIncludeTax t) (interop_line_totals <$> to_Lines t).

Definition decodeInteropMetadata (raw : RawMessage (gmap string string)) : result (gmap string string) :=
  match raw with
  | NoBytes => Ok ∅
  | _ => wrapping (Unmarshal raw) KindInvalid CodeInteropMetadataInvalid "metadata must be a JSON object" []
  end.

Definition decodeInteropAddOns (raw : RawMessage (list pricedAddOn)) : result (list AddOnInput) :=
  match raw with
  | NoBytes => Ok []
  | _ =>
      wire ← wrapping (Unmarshal raw) KindInvalid CodeAddOnInvalid
        "the add-ons must be a JSON array of variant_id, title, unit_price and properties" [];
      Ok (map (fun a => mkAddOnInput (pa_VariantID a) (pa_Title a) (pa_UnitPrice a)
        (map_to_list (pa_Properties a))) wire)
  end.

(** What the transaction's clock reads, and the identifiers drawn, are the state's. *)
Section Cart.
Context {St : Type} (svc : CartService.Service St) (now : St -> moment) (newID : St -> nat -> string).

Definition cart_OpenCart (regionID currencyCode customerID email addsToOrderID openedBy salesChannelID : string)
    (metadata : RawMessage (gmap string string)) : tx St string := fun st =>
  (extra ← tx_of (decodeInteropMetadata metadata);
   cart ← CartService.CreateCart svc (now st) (newID st)
     (CartService.mkCreateCartInput regionID customerID email currencyCode addsToOrderID openedBy salesChannelID extra);
   mret (cart_ID cart)) st.

Definition cart_CartSnapshotJSON (cartID : string) : tx St (RawMessage Snapshot) :=
  detail ← CartService.GetCart svc cartID;
  mret (Document (interop_snapshot detail)).

Definition cart_AddCartLineItem (cartID variantID title : string) (quantity unitPrice : Z)
    (metadata : RawMessage (gmap string string)) (properties : gmap string string)
    (addOns : RawMessage (list pricedAddOn)) : tx St string := fun st =>
  (extra ← tx_of (decodeInteropMetadata metadata);
   lines ← tx_of (decodeInteropAddOns addOns);
   line ← CartService.AddLineItem svc (now st) (newID st) cartID
     (CartService.mkAddLineItemInput variantID title quantity unitPrice extra (map_to_list properties) lines);
   mret (li_ID line)) st.

Definition cart_SetCartLineItemQuantity (cartID lineItemID : string) (quantity : Z) : tx St unit := fun st =>
  ignore (CartService.UpdateLineItemQuantity svc (now st) cartID lineItemID quantity) st.

Definition cart_RemoveLineItem (cartID lineItemID : string) : tx St unit := fun st =>
  CartService.RemoveLineItem svc (now st) cartID lineItemID st.

Definition cart_AddShippingMethod (cartID name shippingOptionID : string) (amount : Z)
    (data : RawMessage (gmap string string)) : tx St string := fun st =>
  (blob ← tx_of match data with
     | NoBytes => Ok ∅
     | _ => wrapping (Unmarshal data) KindInvalid CodeInteropTotalsInvalid
         "the shipping method data could not be parsed: %s" [AStr cartID]
     end;
   method ← CartService.AddShippingMethod svc (now st) (newID st) cartID
     (CartService.mkAddShippingMethodInput name shippingOptionID amount blob);
   mret (sm_ID method)) st.

Definition cart_SetCartTotalsJSON (cartID : string) (totals : CartFlow.Totals) : tx St unit := fun st =>
  CartService.SetTotals svc (now st) cartID (interop_totals totals) st.

Definition cart_AddCartPromotionCode (cartID code : string) : tx St unit := fun st =>
  ignore (CartService.AddPromotionCode svc (now st) cartID code) st.

Definition cart_RemoveCartPromotionCode (cartID code : string) : tx St unit := fun st =>
  CartService.RemovePromotionCode svc (now st) cartID code st.

(** Two more, for the checkout: the completion, its time the service's clock's, and the money alone. *)
Definition cart_MarkCompleted (clock : moment) (cartID : string) : tx St unit := fun st =>
  ignore (CartService.MarkCompleted svc (now st) clock cartID) st.

Record interopCartTotals := mkInteropCartTotals {
  ict_CurrencyCode : string;
  ict_Subtotal : Z;
  ict_DiscountTotal : Z;
  ict_TaxTotal : Z;
  ict_ShippingTotal : Z;
  ict_Total : Z;
  ict_Completed : bool
}.

Definition cart_CartTotalsJSON (cartID : string) : tx St (RawMessage interopCartTotals) :=
  detail ← CartService.GetCart svc cartID;
  let c := cd_Cart detail in
  mret (Document (mkInteropCartTotals (cart_CurrencyCode c) (cart_Subtotal c) (cart_DiscountTotal c)
    (cart_TaxTotal c) (cart_ShippingTotal c) (cart_Total c) (Completed c))).

(** The cart module as the workflow's surface, its tables a part of the world. *)
Definition cart_interop {W} (get : W -> St) (put : St -> W -> W) : Carts W :=
  mkCarts W
    (fun region currency customer email adds opened channel metadata =>
       on_part get put (cart_OpenCart region currency customer email adds opened channel metadata))
    (fun id name option amount data => on_part get put (cart_AddShippingMethod id name option amount data))
    (fun id => on_part get put (cart_CartSnapshotJSON id))
    (fun id variant title quantity price metadata properties addOns =>
       on_part get put (cart_AddCartLineItem id variant title quantity price metadata properties addOns))
    (fun id line quantity => on_part get put (cart_SetCartLineItemQuantity id line quantity))
    (fun id line => on_part get put (cart_RemoveLineItem id line))
    (fun id totals => on_part get put (cart_SetCartTotalsJSON id totals))
    (fun id code => on_part get put (cart_AddCartPromotionCode id code))
    (fun id code => on_part get put (cart_RemoveCartPromotionCode id code)).
End Cart.

(** ** Promotions: [promotion/service/interop.go] *)

Definition promotion_CodeInteropRequestInvalid : string := "promotion_interop_request_invalid".

(** [parse] is [time.Parse] of the RFC 3339 layout, in nanoseconds, the zero time as none: the service takes
    it for a time not given. *)
Definition parseInteropTime (parse : string -> result (option moment)) (raw : string) : result (option moment) :=
  if bool_decide (raw = EmptyString) then Ok None
  else wrapping (parse raw) KindInvalid promotion_CodeInteropRequestInvalid
    "the computation moment must be in RFC 3339 format, %q was given" [AStr raw].

Definition decodeDiscountRequest (parse : string -> result (option moment)) (req : discountRequest) : result ComputeInput :=
  at_ ← parseInteropTime parse (dq_At req);
  Ok (mkComputeInput (dq_CurrencyCode req) (dq_Context req) (dq_ContextLists req)
    ((fun i => mkComputeItem (dq_ID i) (dq_Amount i) (dq_UnitAmount i) (dq_Quantity i) (dq_Attributes i) (dq_Lists i))
      <$> dq_Items req)
    ((fun m => mkComputeShippingMethod (dqs_ID m) (dqs_Amount m) (dqs_Attributes m)) <$> dq_ShippingMethods req)
    (dq_Codes req) at_).

Definition interop_discount (d : LineDiscount) : discountLine := mkDiscountLine (ld_ID d) (ld_Amount d).

Definition interop_discounts (r : ComputeResult) : discountResponse :=
  mkDiscountResponse (PromotionDiscounts.cr_CurrencyCode r) (interop_discount <$> PromotionDiscounts.cr_Items r)
    (interop_discount <$> PromotionDiscounts.cr_ShippingMethods r) (cr_ItemsDiscountTotal r)
    (cr_ShippingDiscountTotal r) (cr_DiscountTotal r)
    ((fun a => mkDiscountApplied (PromotionDiscounts.ap_PromotionID a) (PromotionDiscounts.ap_Code a)
      (ap_IsAutomatic a) (PromotionDiscounts.ap_Amount a)) <$> cr_Applied r)
    (cr_UnmatchedCodes r).

Definition promotion_ComputeDiscountsJSON (parse : string -> result (option moment)) (repo : PromotionCompute.Repository)
    (clock : moment) (req : discountRequest) : result (RawMessage discountResponse) :=
  in_ ← decodeDiscountRequest parse req;
  r ← ComputeDiscounts repo in_ clock;
  Ok (Document (interop_discounts r)).

Definition promotion_CouponApplies (repo : PromotionCompute.Repository) (clock : moment) (code : string) :
    result unit :=
  _ ← LookupStoreCoupon repo code clock;
  Ok tt.

(** The promotion module as the workflow's surface: what its tables hold and its clock reads are the
    world's. *)
Definition promotion_interop {W} (parse : string -> result (option moment)) (repo : W -> PromotionCompute.Repository)
    (clock : W -> moment) : Discounts W :=
  mkDiscounts W
    (fun req => tx_read (fun st => promotion_ComputeDiscountsJSON parse (repo st) (clock st) req))
    (fun code => tx_read (fun st => promotion_CouponApplies (repo st) (clock st) code)).

(** ** Taxes: [tax/service/interop.go] *)

Definition taxableItems (items : list taxRequestItem) : list TaxableItem :=
  (fun i => mkTaxableItem (tq_ID i) (tq_ProductID i) (tq_ProductTypeID i) EmptyString (tq_Amount i)) <$> items.

Definition toInteropItemTax (item : ItemTax) : taxResponseLine :=
  mkTaxResponseLine (it_ID item) (it_RateID item) (it_RateBps item) (it_TaxableAmount item) (it_TaxAmount item)
    ((fun c => mkTaxResponseComponent (TaxRates.tc_RateID c) (TaxRates.tc_RateBps c) (TaxRates.tc_Compound c)
      (TaxRates.tc_TaxableAmount c) (TaxRates.tc_TaxAmount c)) <$> it_Components item).

Definition interop_taxes (r : CalculateTaxResult) : taxResponse :=
  mkTaxResponse (TaxCalculate.cr_RegionID r) (cr_RegionFound r) (cr_ProviderID r) (TaxCalculate.cr_PricesIncludeTax r)
    (cr_TaxTotal r) (toInteropItemTax <$> TaxCalculate.cr_Items r) (toInteropItemTax (TaxCalculate.cr_Shipping r)).

Definition tax_CalculateTaxJSON {St} (s : TaxCalculate.Service St) (req : taxRequest) (st : St) :
    result (RawMessage taxResponse) :=
  r ← CalculateTax s (mkCalculateTaxInput (tq_CountryCode req) (tq_ProvinceCode req) (taxableItems (tq_Items req))
    (mkShippingInput (tqs_OptionID (tq_Shipping req)) (tqs_Amount (tq_Shipping req)) (tqs_Taxable (tq_Shipping req)))) st;
  Ok (Document (interop_taxes r)).

Definition tax_interop {W St} (s : TaxCalculate.Service St) (get : W -> St) : Taxes W :=
  mkTaxes W (fun req => tx_read (fun st => tax_CalculateTaxJSON s req (get st))).
