(* ===== verification/CartCallProps.v ===== *)
(** * What a failed call leaves

    A call of the cart workflow reads the modules, changes the cart and prices it again. What the cart
    module promises of its surface and the others of theirs is stated as two classes, and the calls are
    proved against them. *)
From S2P Require Import Prelude GoText Errors Tx CartModels CartTotals CartStore CartMoves CartService CartMemory CartProps PromotionModels PromotionDiscounts PromotionCompute PromotionProps CartFlow CartRound CartCalls CartModules.
Set Warnings "-level-tolerance".

(** ** Looking at a part of the world *)

Section Look.
Context {W C : Type} (get : W -> C).

(** A call after which the part is as it was, whatever it answers; and one after whose failure it is. *)
Definition leaves {A} (m : tx W A) : Prop := forall st, get (m st).1 = get st.
Definition spares {A} (m : tx W A) : Prop := forall st st' e, m st = (st', Fail e) -> get st' = get st.

Lemma leaves_spares {A} (m : tx W A) : leaves m -> spares m.
Proof. intros H st st' e E. specialize (H st). by rewrite E in H. Qed.

Lemma leaves_ret {A} (a : A) : leaves (mret a).
Proof. done. Qed.

Lemma leaves_of {A} (r : result A) : leaves (tx_of r).
Proof. done. Qed.

Lemma leaves_check c : leaves (tx_check c).
Proof. done. Qed.

Lemma leaves_bind {A B} (m : tx W A) (f : A -> tx W B) : leaves m -> (forall a, leaves (f a)) -> leaves (m ≫= f).
Proof.
  intros Hm Hf st. unfold mbind, tx_bind. specialize (Hm st). destruct (m st) as [st1 [a|e]]; [|done].
  cbn in Hm. by rewrite Hf.
Qed.

Lemma leaves_read {A} (f : W -> result A) : leaves (tx_read f).
Proof. done. Qed.

Lemma leaves_atomically {A} commit (m : tx W A) : leaves m -> leaves (atomically commit m).
Proof.
  intros Hm st. unfold atomically. specialize (Hm st). destruct (m st) as [st1 [a|e]]; [|done].
  by destruct (commit st1).
Qed.

Lemma leaves_mapping {A B} (f : result A -> result B) (m : tx W A) : leaves m -> leaves (mapping f m).
Proof. intros Hm st. unfold mapping. specialize (Hm st). by destruct (m st). Qed.

Lemma leaves_attempt {A} (m : tx W A) : leaves m -> leaves (attempt m).
Proof. intros Hm st. unfold attempt. specialize (Hm st). by destruct (m st). Qed.

Lemma spares_bind {A B} (m : tx W A) (f : A -> tx W B) : leaves m -> (forall a, spares (f a)) -> spares (m ≫= f).
Proof.
  intros Hm Hf st st' e. unfold mbind, tx_bind. specialize (Hm st). destruct (m st) as [st1 [a|e']] eqn:E.
  - intros H. rewrite <- Hm. by eapply Hf.
  - by intros [= <- _].
Qed.
End Look.

Create HintDb leaves.
#[export] Hint Resolve leaves_ret leaves_of leaves_check leaves_bind leaves_mapping leaves_attempt leaves_spares : leaves.

(** ** What the surfaces promise of the cart module's tables *)

(** The cart module reads without a change, and a write that fails changes nothing. *)
Class CarefulCarts {W C} (get : W -> C) (c : Carts W) := {
  cc_snapshot id : leaves get (CartSnapshotJSON c id);
  cc_open region currency customer email adds opened channel metadata :
    spares get (OpenCart c region currency customer email adds opened channel metadata);
  cc_add id variant title quantity price metadata properties addOns :
    spares get (AddCartLineItem c id variant title quantity price metadata properties addOns);
  cc_quantity id line quantity : spares get (SetCartLineItemQuantity c id line quantity);
  cc_remove id line : spares get (carts_RemoveLineItem c id line);
  cc_method id name option amount data : spares get (carts_AddShippingMethod c id name option amount data);
  cc_totals id totals : spares get (SetCartTotalsJSON c id totals);
  cc_code id code : spares get (AddCartPromotionCode c id code);
  cc_uncode id code : spares get (RemoveCartPromotionCode c id code)
}.

(** The other modules do not touch them. *)
Class Bystanders {W C} (get : W -> C) (w : Workflows W) := {
  bs_amount set currency quantity attributes : leaves get (CalculateAmount (wf_prices w) set currency quantity attributes);
  bs_amounts req : leaves get (CalculateAmountsJSON (wf_prices w) req);
  bs_region country : leaves get (RegionIDForCountry (wf_regions w) country);
  bs_currency id : leaves get (RegionCurrency (wf_regions w) id);
  bs_rate id : leaves get (RegionTax (wf_regions w) id);
  bs_email id : leaves get (CustomerEmail (wf_customers w) id);
  bs_groups id : leaves get (CustomerGroupIDs (wf_customers w) id);
  bs_company c id : wf_companies w = Some c -> leaves get (CompanyOfCustomer c id);
  bs_order o order customer currency : wf_orders w = Some o -> leaves get (CheckAddition o order customer currency);
  bs_discounts d req : wf_discounts w = Some d -> leaves get (ComputeDiscountsJSON d req);
  bs_coupon d code : wf_discounts w = Some d -> leaves get (CouponApplies d code);
  bs_tax t req : wf_taxes w = Some t -> leaves get (CalculateTaxJSON t req);
  bs_shipping s req : wf_shipping w = Some s -> leaves get (ListOptionsJSON s req);
  bs_links name ids : leaves get (ListMany (wf_links w) name ids);
  bs_graph spec : leaves get (Graph (wf_catalog w) spec)
}.

#[export] Hint Resolve cc_snapshot bs_amount bs_amounts bs_region bs_currency bs_email bs_groups bs_company bs_order
  bs_discounts bs_coupon bs_rate bs_tax bs_shipping bs_links bs_graph : leaves.

(** Follows a body whose calls leave the part alone. *)
Ltac leaves_step :=
  first
    [ progress intros
    | apply leaves_ret
    | apply leaves_of
    | apply leaves_check
    | apply leaves_read
    | apply leaves_atomically
    | apply leaves_mapping
    | apply leaves_attempt
    | solve [eauto with leaves]
    | apply leaves_bind
    | case_match ].
Ltac leaves_tac := repeat leaves_step.

Section Reads.
Context {W C : Type} (get : W -> C) (w : Workflows W) `{!CarefulCarts get (wf_carts w), !Bystanders get w}.
Context (same_fold : list Z -> list Z -> bool) (channels : option (list string)).

Lemma snapshot_leaves id : leaves get (snapshot w id).
Proof. unfold snapshot. leaves_tac. Qed.

Lemma priceSetsFor_leaves ids : leaves get (priceSetsFor w ids).
Proof. unfold priceSetsFor. leaves_tac. Qed.

Lemma variantTitle_leaves id : leaves get (variantTitle w channels id).
Proof. unfold variantTitle. leaves_tac. Qed.

Lemma productIDsFor_leaves ids : leaves get (productIDsFor w channels ids).
Proof. unfold productIDsFor. leaves_tac. Qed.

Lemma priceContext_leaves subject : leaves get (priceContext w subject).
Proof. unfold priceContext, with_company. leaves_tac. Qed.
End Reads.

#[export] Hint Resolve snapshot_leaves priceSetsFor_leaves variantTitle_leaves productIDsFor_leaves priceContext_leaves : leaves.

Section Calls.
Context {W C : Type} (get : W -> C) (w : Workflows W) `{!CarefulCarts get (wf_carts w), !Bystanders get w}.
Context (same_fold : list Z -> list Z -> bool) (channels : option (list string)).

Lemma facts_or_none_leaves snap : leaves get (facts_or_none w channels snap).
Proof. unfold facts_or_none, lineProductFacts, productFactsFor. leaves_tac. Qed.

Lemma lineSubtotals_leaves snap : leaves get (lineSubtotals w snap).
Proof. unfold lineSubtotals, unitPrices. leaves_tac. Qed.

Lemma applyDiscounts_leaves snap lines facts : leaves get (applyDiscounts same_fold w snap lines facts).
Proof. unfold applyDiscounts, discountRequestFor. leaves_tac. Qed.

Lemma quoteRequestFor_leaves snap : leaves get (quoteRequestFor w same_fold channels snap).
Proof.
  unfold quoteRequestFor, countryForRegion, quoteCartFor, lineMeasures.
  pose proof facts_or_none_leaves. pose proof lineSubtotals_leaves. pose proof applyDiscounts_leaves. leaves_tac.
Qed.

Lemma quoteOption_leaves shipping snap option operator : wf_shipping w = Some shipping ->
  leaves get (quoteOption w same_fold channels shipping snap option operator).
Proof. intros Hs. unfold quoteOption, quote_options. pose proof quoteRequestFor_leaves. leaves_tac. Qed.

Lemma productTakes_leaves product addOns : leaves get (productTakes w product addOns).
Proof. unfold productTakes. leaves_tac. Qed.

Lemma checkAddOns_leaves variant addOns : leaves get (checkAddOns w channels variant addOns).
Proof. unfold checkAddOns. pose proof productTakes_leaves. leaves_tac. Qed.

Lemma priceAddOns_leaves addOns priceSets currency quantity attributes :
  leaves get (priceAddOns w channels addOns priceSets currency quantity attributes).
Proof.
  unfold priceAddOns. assert (leaves get (price_add_ons w channels addOns priceSets currency quantity attributes)) as H.
  { induction addOns as [|a addOns IH]; cbn [price_add_ons]; leaves_tac. }
  destruct addOns; leaves_tac.
Qed.

Lemma mayRaise_leaves in_ : leaves get (mayRaise w channels in_).
Proof. unfold mayRaise, mayRaiseAddOns. pose proof productTakes_leaves. leaves_tac. Qed.

(** ** A round *)

Lemma applyTaxes_leaves snap shipping lines facts : leaves get (applyTaxes w channels snap shipping lines facts).
Proof.
  unfold applyTaxes, applyRegionTax, taxRate, countryForRegion, applyModuleTax. pose proof facts_or_none_leaves. leaves_tac.
Qed.

Lemma round_totals_leaves id : leaves get (round_totals w same_fold channels id).
Proof.
  unfold round_totals, computeTotals.
  pose proof facts_or_none_leaves. pose proof lineSubtotals_leaves. pose proof applyDiscounts_leaves.
  pose proof applyTaxes_leaves. leaves_tac.
Qed.

Lemma totals_rounds_spares id rounds last : spares get (totals_rounds w same_fold channels id rounds last).
Proof.
  revert last. induction rounds as [|rounds IH]; intros last st st' e; cbn [totals_rounds]; [by intros [= <- _]|].
  unfold totalsRound. pose proof (round_totals_leaves id st) as Hr.
  destruct (round_totals _ _ _ id st) as [st1 [totals|e1]]; cbn [fst] in Hr; [|by intros [= <- _]].
  destruct (SetCartTotalsJSON (wf_carts w) id totals st1) as [st2 [u|e2]] eqn:E; [done|].
  pose proof (cc_totals id totals _ _ _ E) as Hs. destruct (IsConflict _); [|intros [= <- _]; congruence].
  intros H%IH. congruence.
Qed.

(** A failed pricing leaves the tables, however many rounds it took. *)
Lemma CalculateTotals_spares id : spares get (CalculateTotals w same_fold channels id).
Proof. unfold CalculateTotals. apply spares_bind; [leaves_tac|]. intros _. apply totals_rounds_spares. Qed.

(** ** The calls that change a cart *)

(** Every operation of the workflow that writes: the three kinds of change, the coupon codes, a change the
    cart module makes on its own, and the pricing itself. *)
Inductive cart_call :=
| CallOpen (in_ : CreateCartInput)
| CallAdd (in_ : AddLineItemInput)
| CallUpdate (in_ : UpdateLineItemInput)
| CallShip (operator : bool) (cartID shippingOptionID : string) (data : RawMessage (gmap string string))
| CallApply (cartID code : string)
| CallRemove (cartID code : string)
| CallChange (cartID : string) (change : tx W unit)
| CallTotals (cartID : string).

Definition place (c : cart_call) : tx W unit :=
  match c with
  | CallOpen in_ => ignore (CreateCart w channels in_)
  | CallAdd in_ => ignore (AddLineItem w same_fold channels in_)
  | CallUpdate in_ => ignore (UpdateLineItem w same_fold channels in_)
  | CallShip operator cartID option data => ignore (addQuotedShippingMethod w same_fold channels cartID option data operator)
  | CallApply cartID code => ApplyPromotionCode w same_fold channels cartID code
  | CallRemove cartID code => RemovePromotionCode w same_fold channels cartID code
  | CallChange cartID change => RepriceAfter w same_fold channels cartID change
  | CallTotals cartID => ignore (CalculateTotals w same_fold channels cartID)
  end.

(** The write a call makes on the cart module, once it knows what to write. *)
Inductive write_of : cart_call -> tx W unit -> Prop :=
| write_add in_ title price addOns :
    write_of (CallAdd in_) (ignore (AddCartLineItem (wf_carts w) (ali_CartID in_) (ali_VariantID in_) title
      (ali_Quantity in_) price (ali_Metadata in_) (ali_Properties in_) addOns))
| write_quantity in_ : uli_Quantity in_ <> 0 ->
    write_of (CallUpdate in_)
      (ignore (SetCartLineItemQuantity (wf_carts w) (uli_CartID in_) (uli_LineItemID in_) (uli_Quantity in_)))
| write_remove in_ : uli_Quantity in_ = 0 ->
    write_of (CallUpdate in_) (ignore (carts_RemoveLineItem (wf_carts w) (uli_CartID in_) (uli_LineItemID in_)))
| write_ship operator cartID option data chosen : qo_ID chosen = option ->
    write_of (CallShip operator cartID option data)
      (ignore (carts_AddShippingMethod (wf_carts w) cartID (qo_Name chosen) (qo_ID chosen) (qo_Amount chosen) data))
| write_code cartID code : write_of (CallApply cartID code) (ignore (AddCartPromotionCode (wf_carts w) cartID code))
| write_uncode cartID code : write_of (CallRemove cartID code) (ignore (RemoveCartPromotionCode (wf_carts w) cartID code))
| write_change cartID change : write_of (CallChange cartID change) (ignore change).

Definition cart_of (c : cart_call) : string :=
  match c with
  | CallOpen _ => EmptyString
  | CallAdd in_ => ali_CartID in_
  | CallUpdate in_ => uli_CartID in_
  | CallShip _ cartID _ _ | CallApply cartID _ | CallRemove cartID _ | CallChange cartID _ | CallTotals cartID => cartID
  end.

(** What the failure of the round is answered as: with the code of a change that stands, or, by the coupon
    codes' calls, as it is. *)
Definition announced (c : cart_call) (round e : err) : Prop :=
  match c with
  | CallApply _ _ | CallRemove _ _ => e = round
  | _ => (exists what, e = totalsAfterChange round (cart_of c) what) /\ CodeOf e = CodeTotalsAfterChange
  end.

(** A failure after the call's own write was accepted: only the pricing failed, and left the tables as the
    write had left them. *)
Definition stands (c : cart_call) (st1 st' : W) (e : err) : Prop :=
  exists write st2 round, write_of c write /\ write st1 = (st2, Ok tt) /\
    CalculateTotals w same_fold channels (cart_of c) st2 = (st', Fail round) /\ get st' = get st2 /\
    announced c round e.

(** A body whose failure changed nothing or left the change it says. *)
Definition honest {A} (c : cart_call) (m : tx W A) : Prop := forall st st' e, m st = (st', Fail e) ->
  get st' = get st \/ exists st1, get st1 = get st /\ stands c st1 st' e.

Lemma honest_spares {A} c (m : tx W A) : spares get m -> honest c m.
Proof. intros H st st' e E. left. by eapply H. Qed.

Lemma honest_bind {A B} c (m : tx W A) (f : A -> tx W B) : leaves get m -> (forall a, honest c (f a)) -> honest c (m ≫= f).
Proof.
  intros Hm Hf st st' e. unfold mbind, tx_bind. specialize (Hm st). destruct (m st) as [st1 [a|e']].
  - cbn in Hm. intros H%Hf. destruct H as [H|(st2 & Heq & H)]; [left; congruence|].
    right. exists st2. split; [congruence|done].
  - intros [= <- _]. by left.
Qed.

Lemma honest_ignore {A} c (m : tx W A) : honest c m -> honest c (ignore m).
Proof.
  intros Hm st st' e. unfold ignore, mbind, tx_bind. destruct (m st) as [st1 [a|e']] eqn:E; [done|].
  intros [= <- <-]. by eapply Hm.
Qed.

(** A write and the pricing after it. *)
Lemma stands_write {A} c (write : tx W A) st st1 st' a e round : write_of c (ignore write) ->
  write st = (st1, Ok a) -> CalculateTotals w same_fold channels (cart_of c) st1 = (st', Fail round) -> announced c round e ->
  stands c st st' e.
Proof.
  intros Hof Ew Er Ha. exists (ignore write), st1, round. split; [done|].
  split; [unfold ignore, mbind, tx_bind; by rewrite Ew|]. split; [done|]. split; [by eapply CalculateTotals_spares|done].
Qed.

Lemma honest_write {A B} c (write : tx W A) what (f : A -> Totals -> B) : spares get write ->
  write_of c (ignore write) -> (forall round, announced c round (totalsAfterChange round (cart_of c) what)) ->
  honest c (a ← write; t ← reprice w same_fold channels (cart_of c) what; mret (f a t)).
Proof.
  intros Hw Hof Ha st st' e. unfold mbind, tx_bind, reprice, mapping.
  destruct (write st) as [st1 [a|e']] eqn:E; [|intros [= <- <-]; left; by eapply Hw].
  destruct (CalculateTotals _ _ _ _ st1) as [st2 [t|e']] eqn:Er; [done|]. intros [= <- <-]. right.
  exists st. split; [done|]. by eapply stands_write.
Qed.

(** The coupon codes' pricing answers its own error. *)
Lemma honest_coupon c (write : tx W unit) : spares get write -> write_of c (ignore write) ->
  (forall round, announced c round round) ->
  honest c (write ≫= fun _ => ignore (CalculateTotals w same_fold channels (cart_of c))).
Proof.
  intros Hw Hof Ha st st' e. unfold ignore, mbind, tx_bind.
  destruct (write st) as [st1 [a|e']] eqn:E; [|intros [= <- <-]; left; by eapply Hw].
  destruct (CalculateTotals _ _ _ _ st1) as [st2 [t|e']] eqn:Er; [done|]. intros [= <- <-]. right.
  exists st. split; [done|]. by eapply stands_write.
Qed.

Lemma announced_code id round what : (exists what', totalsAfterChange round id what = totalsAfterChange round id what') /\
  CodeOf (totalsAfterChange round id what) = CodeTotalsAfterChange.
Proof. split; [by exists what|done]. Qed.

Lemma AddLineItem_honest in_ : honest (CallAdd in_) (AddLineItem w same_fold channels in_).
Proof.
  unfold AddLineItem. pose proof checkAddOns_leaves. pose proof priceAddOns_leaves.
  repeat (apply honest_bind; [solve [leaves_tac]|intros ?]; repeat (case_match; [])).
  apply (honest_write (CallAdd in_) _ _ (fun lineID totals => mkAddLineItemResult lineID _ _ _ totals)); [apply cc_add|apply write_add|intros; exact (announced_code _ _ _)].
Qed.

(** Two computations in front of a third. *)
Lemma honest_assoc {A B D} c (m : tx W A) (f : A -> tx W B) (g : B -> tx W D) :
  honest c (m ≫= fun a => f a ≫= g) -> honest c ((m ≫= f) ≫= g).
Proof. intros H st st' e E. apply (H st). unfold mbind, tx_bind in *. by destruct (m st) as [st1 [a|e']]. Qed.

Lemma UpdateLineItem_honest in_ : honest (CallUpdate in_) (UpdateLineItem w same_fold channels in_).
Proof.
  unfold UpdateLineItem. do 4 (apply honest_bind; [solve [leaves_tac]|intros ?]).
  destruct (Z.eqb_spec (uli_Quantity in_) 0) as [Hq|Hq].
  - apply (honest_write (CallUpdate in_) _ _ (fun _ totals => mkUpdateLineItemResult _ _ _ totals)); [apply cc_remove|by apply write_remove|intros; exact (announced_code _ _ _)].
  - apply honest_assoc, honest_bind; [apply mayRaise_leaves|]. intros ?.
    apply (honest_write (CallUpdate in_) _ _ (fun _ totals => mkUpdateLineItemResult _ _ _ totals)); [apply cc_quantity|by apply write_quantity|intros; exact (announced_code _ _ _)].
Qed.

Lemma CreateCart_spares in_ : spares get (CreateCart w channels in_).
Proof.
  unfold CreateCart, checkAddition.
  repeat (apply spares_bind; [solve [leaves_tac]|intros ?]; repeat (case_match; [])).
  intros st st' e. unfold mbind, tx_bind. destruct (OpenCart _ _ _ _ _ _ _ _ _ st) as [st1 [id|e']] eqn:E; [done|].
  intros [= <- _]. by eapply cc_open.
Qed.

Lemma quoteOption_id shipping snap option operator st st' o :
  quoteOption w same_fold channels shipping snap option operator st = (st', Ok o) -> qo_ID o = option.
Proof.
  unfold quoteOption, mbind, tx_bind, tx_of. destruct (quote_options _ _ _ _ _ _ st) as [st1 [answer|e]]; [|done].
  destruct (head _) as [o'|] eqn:E; [|done]. destruct (may_choose operator o'); [|done]. intros [= _ <-].
  destruct (filter _ _) as [|x l] eqn:Ef; [done|]. injection E as <-.
  assert (x ∈ filter (fun o => qo_ID o = option) (qs_Options answer)) as [Hx _]%list_elem_of_filter; [|done].
  rewrite Ef. constructor.
Qed.

(** The answer of a read may be looked at. *)
Lemma honest_bind_of {A B} c (m : tx W A) (f : A -> tx W B) : leaves get m ->
  (forall a, (exists st st', m st = (st', Ok a)) -> honest c (f a)) -> honest c (m ≫= f).
Proof.
  intros Hm Hf st st' e. unfold mbind, tx_bind. specialize (Hm st). destruct (m st) as [st1 [a|e']] eqn:E.
  - cbn in Hm. intros H%(Hf a ltac:(by exists st, st1)). destruct H as [H|(st2 & Heq & H)]; [left; congruence|].
    right. exists st2. split; [congruence|done].
  - intros [= <- _]. by left.
Qed.

Lemma addQuotedShippingMethod_honest operator cartID option data :
  honest (CallShip operator cartID option data) (addQuotedShippingMethod w same_fold channels cartID option data operator).
Proof.
  unfold addQuotedShippingMethod. do 2 (apply honest_bind; [leaves_tac|intros ?]).
  destruct (wf_shipping w) as [shipping|] eqn:Es; [|apply honest_spares, leaves_spares, leaves_of].
  apply honest_bind; [leaves_tac|]. intros snap.
  apply honest_bind_of; [by apply quoteOption_leaves|]. intros o (st & st' & Ho%quoteOption_id).
  apply honest_bind; [leaves_tac|]. intros ?.
  apply (honest_write (CallShip operator cartID option data) _ _ (fun methodID _ => methodID)); [apply cc_method|by apply write_ship|intros; exact (announced_code _ _ _)].
Qed.

Lemma ApplyPromotionCode_honest cartID code : honest (CallApply cartID code) (ApplyPromotionCode w same_fold channels cartID code).
Proof.
  unfold ApplyPromotionCode. destruct (wf_discounts w) as [discounts|] eqn:Ed; [|apply honest_spares, leaves_spares, leaves_of].
  apply honest_bind; [leaves_tac|]. intros _. by apply (honest_coupon (CallApply cartID code)); [apply cc_code|apply write_code|].
Qed.

Lemma RepriceAfter_honest cartID change : spares get change ->
  honest (CallChange cartID change) (RepriceAfter w same_fold channels cartID change).
Proof.
  intros Hc st st' e. unfold RepriceAfter, reprice, ignore, mapping, mbind, tx_bind.
  destruct (change st) as [st1 [[]|e']] eqn:E; [|intros [= <- <-]; left; by eapply Hc].
  destruct (CalculateTotals _ _ _ _ st1) as [st2 [t|e']] eqn:Er; [done|]. intros [= <- <-]. right.
  exists st. split; [done|]. by eapply (stands_write (CallChange cartID change) change); [apply write_change|exact E|exact Er|intros; exact (announced_code _ _ _)].
Qed.

(** C18: a failed call says what stands. Over a cart module that keeps its promises and modules that leave its
    tables alone, every operation of the workflow that writes, when it answers an error, either left the
    cart module's tables as they were, or its own write was accepted and only the pricing after it failed,
    which leaves the tables as the write left them. In the second case the calls on lines and on shipping and
    a change of the cart module's own answer the pricing's error under the code that says a change stands;
    the two calls on coupon codes answer the pricing's error as it is, so that theirs alone does not say it.
    Opening a cart and pricing one never end in the second case. *)
Theorem failed_call_says_what_stands (c : cart_call) (st st' : W) (e : err)
    (Hchange : forall id change, c = CallChange id change -> spares get change) :
  place c st = (st', Fail e) ->
  get st' = get st \/
  (exists st1, get st1 = get st /\ stands c st1 st' e /\ (forall in_, c <> CallOpen in_) /\ forall id, c <> CallTotals id).
Proof.
  intros E. assert (honest c (place c)) as H.
  { destruct c; cbn [place]; try apply honest_ignore.
    - apply honest_spares, CreateCart_spares.
    - apply AddLineItem_honest.
    - apply UpdateLineItem_honest.
    - apply addQuotedShippingMethod_honest.
    - apply ApplyPromotionCode_honest.
    - by apply (honest_coupon (CallRemove cartID code)); [apply cc_uncode|apply write_uncode|].
    - by apply RepriceAfter_honest, (Hchange cartID).
    - apply honest_spares, CalculateTotals_spares. }
  destruct (H st st' e E) as [Heq|(st1 & Heq & Hs)]; [by left|]. right. exists st1. split_and!; [done..| |].
  all: intros x ->; destruct Hs as (write & st2 & round & Hw & _); inversion Hw.
Qed.
End Calls.

(** ** The cart module keeps its promises *)

Section Module.
Context {W St : Type} (svc : CartService.Service St) (now : St -> moment) (newID : St -> nat -> string).
Context (get : W -> St) (put : St -> W -> W) (get_put : forall s st, get (put s st) = s).

Lemma on_part_leaves {A} (m : tx St A) : leaves (fun st => st) m -> leaves get (on_part get put m).
Proof.
  intros H st. unfold on_part. specialize (H (get st)). destruct (m (get st)) as [s r]. cbn in *.
  by rewrite get_put.
Qed.

Lemma on_part_spares {A} (m : tx St A) : (forall st st' e, m st = (st', Fail e) -> st' = st) ->
  spares get (on_part get put m).
Proof.
  intros H st st' e. unfold on_part. destruct (m (get st)) as [s [a|e']] eqn:E; [done|]. intros [= <- _].
  rewrite get_put. by eapply H.
Qed.

Lemma after_atomic {A B} (m : tx St A) (g : A -> B) : atomic (ignore m) -> atomic (m ≫= fun a => mret (g a)).
Proof.
  intros H. apply atomic_after. intros st st' e E. apply (H st st' e). unfold ignore, mbind, tx_bind. by rewrite E.
Qed.

#[export] Instance module_careful : CarefulCarts get (cart_interop svc now newID get put).
Proof.
  split; intros; cbn.
  - apply on_part_leaves. unfold cart_CartSnapshotJSON, GetCart, WithTx. leaves_tac.
  - apply on_part_spares. intros st st' e.
    apply atomic_pure. intros extra _. apply after_atomic.
    apply (perform_atomic svc (now st) (newID st) (ReqCreateCart _)).
  - apply on_part_spares. intros st st' e. apply atomic_pure. intros extra _. apply atomic_pure. intros lines _.
    apply after_atomic. apply (perform_atomic svc (now st) (newID st) (ReqAddLineItem id _)).
  - apply on_part_spares. intros st st' e. apply (perform_atomic svc (now st) (newID st) (ReqUpdateLineItemQuantity id line quantity)).
  - apply on_part_spares. intros st st' e. apply (perform_atomic svc (now st) (newID st) (ReqRemoveLineItem id line)).
  - apply on_part_spares. intros st st' e. apply atomic_pure. intros blob _. apply after_atomic.
    apply (perform_atomic svc (now st) (newID st) (ReqAddShippingMethod id _)).
  - apply on_part_spares. intros st st' e. apply (perform_atomic svc (now st) (newID st) (ReqSetTotals id _)).
  - apply on_part_spares. intros st st' e. apply (perform_atomic svc (now st) (newID st) (ReqAddPromotionCode id code)).
  - apply on_part_spares. intros st st' e. apply (perform_atomic svc (now st) (newID st) (ReqRemovePromotionCode id code)).
Qed.
End Module.

(** ** Witnesses *)

(** The sample shop behind the workflow: fixed prices, the sample promotions, nothing known of the products.
    [busy] is what happens to the tables while prices are computed, [tax] the region's tax. *)
Module Desk.
Definition nobody {A} : tx world A := tx_of (Fail (NotFound "x" "x" [])).

Definition price_of (set : string) : priceResponseItem :=
  mkPriceResponseItem (if bool_decide (set = "var_wrap"%string) then 50 else 1000) true "price_1" None EmptyString.

Definition desk (busy : tx world unit) (tax : tx world (Z * bool)) : Workflows world :=
  mkWorkflows world
    (cart_interop CartMemory.memory (fun _ => 20) (fun _ => CartProps.Shop.ids "z") (fun st => st) (fun st _ => st))
    (mkPrices world (fun set _ _ _ => mret (ps_Amount (price_of set)))
      (fun req => _ ← busy; mret (Document (mkPriceResponse ((fun i => price_of (pq_PriceSetID i)) <$> pq_Items req)))))
    (mkRegions world (fun _ => nobody) (fun _ => nobody) (fun _ => tax))
    (mkCustomers world (fun _ => nobody) (fun _ => nobody)) None
    (Some (promotion_interop (fun _ => Ok None) (fun _ => PromotionProps.Shop.repo) (fun _ => 5))) None None None
    (mkLinks world (fun _ ids => mret (list_to_map ((fun id => (id, [id])) <$> ids))))
    (mkCatalog world (fun _ => mret [[("id", VText "var_mug"); ("title", VText "Mug")]])).

(** One of 20 per cent, one where somebody keeps adding mugs, and one that cannot be read. *)
Definition idle : Workflows world := desk (mret tt) (mret (2000, true)).
Definition crowded : Workflows world :=
  desk (perform CartMemory.memory 19 (CartProps.Shop.ids "y") (ReqAddLineItem "cart_a0" (CartProps.Shop.mug 1)))
    (mret (2000, true)).
Definition untaxed : Workflows world := desk (mret tt) nobody.

Definition no_fold : list Z -> list Z -> bool := fun _ _ => false.
Definition mug : AddLineItemInput := mkAddLineItemInput "cart_a0" "var_mug" 1 NoBytes ∅ [].
End Desk.

#[export] Instance desk_bystanders : Bystanders (fun st : world => st) Desk.untaxed.
Proof. split; intros; try done; by simplify_eq/=. Qed.

#[export] Instance desk_careful : CarefulCarts (fun st : world => st) (wf_carts Desk.untaxed).
Proof.
  exact (module_careful CartMemory.memory (fun _ => 20) (fun _ => CartProps.Shop.ids "z") (fun st => st) (fun st _ => st)
    (fun _ _ => eq_refl)).
Qed.

(** Two failures after the write: a line added, whose error says so, and a coupon code taken off, whose
    error is the pricing's own. *)
Abbreviation placed c := (place Desk.untaxed Desk.no_fold None c CartProps.Shop.shop).

Lemma failed_call_says_what_stands_witness :
  (exists e, stands (fun st : world => st) Desk.untaxed Desk.no_fold None (CallAdd Desk.mug) CartProps.Shop.shop
    (placed (CallAdd Desk.mug)).1 e) /\
  (exists e, stands (fun st : world => st) Desk.untaxed Desk.no_fold None (CallRemove "cart_b0" "SUMMER20") CartProps.Shop.shop
    (placed (CallRemove "cart_b0" "SUMMER20")).1 e).
Proof.
  assert (Hcase : forall c (P : world -> nat), (forall id change, c <> CallChange id change) ->
    is_ok (placed c).2 = false -> P (placed c).1 <> P CartProps.Shop.shop ->
    exists e, stands (fun st : world => st) Desk.untaxed Desk.no_fold None c CartProps.Shop.shop (placed c).1 e).
  { intros c P Hc Hf Hp. destruct (placed c) as [st' [u|e]] eqn:E; [discriminate Hf|]. exists e. cbn [fst] in *.
    destruct (failed_call_says_what_stands (fun st : world => st) Desk.untaxed Desk.no_fold None c CartProps.Shop.shop st' e
      ltac:(intros id change ->; by destruct (Hc id change)) E) as [Heq|(st1 & Heq & Hs & _)].
    - exfalso. apply Hp. by rewrite Heq.
    - rewrite <- Heq. exact Hs. }
  split.
  - apply (Hcase (CallAdd Desk.mug) (fun st => length (cv_lines (default CartProps.Shop.no_cart (st !! "cart_a0")))));
      [discriminate|vm_compute; reflexivity|vm_compute; discriminate].
  - apply (Hcase (CallRemove "cart_b0" "SUMMER20") (fun st => length (cv_codes (default CartProps.Shop.no_cart (st !! "cart_b0")))));
      [discriminate|vm_compute; reflexivity|vm_compute; discriminate].
Defined.

(** A coupon code that was taken off while the round failed: the error has the round's own code. *)
Fact coupon_failure_is_silent : exists st' e,
  RemovePromotionCode Desk.untaxed Desk.no_fold None "cart_b0" "SUMMER20" CartProps.Shop.shop = (st', Fail e) /\
  CodeOf e <> CodeTotalsAfterChange /\
  (cv_codes <$> CartProps.Shop.shop !! "cart_b0") = Some ["SUMMER20"] /\ (cv_codes <$> st' !! "cart_b0") = Some [].
Proof.
  destruct (RemovePromotionCode Desk.untaxed Desk.no_fold None "cart_b0" "SUMMER20" CartProps.Shop.shop) as [st' r] eqn:E.
  assert (CodeOf match r with Fail e => e | Ok _ => Internal CodeTotalsAfterChange "" [] end = "x"%string) as Hc.
  { change r with (st', r).2. rewrite <- E. vm_compute. reflexivity. }
  assert ((cv_codes <$> st' !! "cart_b0") = Some []) as Hs.
  { change st' with (st', r).1. rewrite <- E. vm_compute. reflexivity. }
  destruct r as [u|e]; [discriminate Hc|]. exists st', e. split_and!; [done|by rewrite Hc| |done]. by vm_compute.
Qed.
