(* ===== verification/CartRoundFacts.v ===== *)
(** * What a round computes

    Step by step: the lines after pricing, after the discounts, after the taxes, and the totals made of
    them, whatever the surfaces answered. *)
From S2P Require Import Prelude GoText Errors Tx CartFlow CartRound.
Set Warnings "-level-tolerance".

Lemma flow_MaxTotal : MaxTotal = 1000000000000000000.
Proof. reflexivity. Qed.

(** ** Amounts *)

Lemma flow_addAmount_Ok a b c : 0 <= b <= int64_max ->
  addAmount a b = Ok c -> 0 <= a /\ a + b <= MaxTotal /\ c = a + b.
Proof.
  pose proof flow_MaxTotal. intros Hb. unfold addAmount. destruct (Z.ltb_spec a 0); [done|]. cbn [orb].
  destruct (Z.ltb_spec b 0); [lia|]. rewrite sub64_exact by in64.
  destruct (Z.ltb_spec (MaxTotal - b) a); [done|]. intros [= <-]. rewrite add64_exact by in64. lia.
Qed.

Lemma flow_addAmount_fits a b : 0 <= a -> 0 <= b -> a + b <= MaxTotal -> addAmount a b = Ok (a + b).
Proof.
  pose proof flow_MaxTotal. intros. unfold addAmount. destruct (Z.ltb_spec a 0); [lia|].
  destruct (Z.ltb_spec b 0); [lia|]. cbn [orb]. rewrite sub64_exact by in64.
  destruct (Z.ltb_spec (MaxTotal - b) a); [lia|]. by rewrite add64_exact by in64.
Qed.

Lemma mulAmount_exact p q : 0 <= p <= MaxAmount -> 0 <= q <= MaxQuantity -> mulAmount p q = Ok (p * q).
Proof.
  pose proof flow_MaxTotal. unfold MaxAmount, MaxQuantity. intros. unfold mulAmount.
  destruct (Z.ltb_spec p 0); [lia|]. destruct (Z.ltb_spec q 0); [lia|]. cbn [orb].
  destruct (Z.eqb_spec p 0) as [->|]; [done|]. destruct (Z.eqb_spec q 0) as [->|]; cbn [orb].
  { by rewrite Z.mul_0_r. }
  rewrite div64_exact by in64. destruct (Z.ltb_spec (MaxTotal / p) q) as [Hlt|].
  - assert (q <= MaxTotal / p); [|lia]. apply Z.div_le_lower_bound; nia.
  - rewrite mul64_exact by (unfold in_int64, int64_min, int64_max; nia). done.
Qed.

(** The region's tax is a part of its base. *)
Lemma taxOf_within base rateBps tax : taxOf base rateBps = Ok tax -> 0 <= tax <= base.
Proof.
  pose proof flow_MaxTotal. unfold taxOf, MaxTaxRateBps, BpsScale. destruct (Z.ltb_spec base 0); [done|].
  destruct (Z.ltb_spec MaxTotal base); [done|]. destruct (Z.ltb_spec rateBps 0); [done|]. cbn [orb].
  destruct (Z.ltb_spec 10000 rateBps); [done|]. destruct (_ || _) eqn:E; [intros [= <-]; lia|].
  intros [= <-]. pose proof (Z.div_mod base 10000). pose proof (Z.mod_pos_bound base 10000).
  rewrite div64_exact by in64. rewrite rem64_exact by lia.
  assert (0 <= base / 10000) by (apply Z.div_pos; lia).
  assert (0 <= base mod 10000 * rateBps / 10000 <= base mod 10000).
  { split; [apply Z.div_pos; nia|]. apply Z.div_le_upper_bound; nia. }
  assert (0 <= base / 10000 * rateBps <= base / 10000 * 10000) by nia.
  rewrite (mul64_exact (base mod 10000)) by (unfold in_int64, int64_min, int64_max; nia).
  rewrite div64_exact by (unfold int64_max; nia). rewrite mul64_exact by in64. rewrite add64_exact by in64. lia.
Qed.

(** ** Lists *)

Lemma Forall2_put {A B} (P : A -> B -> Prop) l k i x y :
  Forall2 P l k -> l !! i = Some x -> P x y -> Forall2 P l (<[i := y]> k).
Proof.
  intros H Hx Hy. rewrite <- (list_insert_id l i x Hx). by apply Forall2_insert.
Qed.

Lemma no_first_error {A} (f : A -> option err) l : first_error f l = None -> Forall (fun x => f x = None) l.
Proof.
  unfold first_error. induction l as [|x l IH]; [constructor|]. csimpl. destruct (f x) eqn:E; [done|].
  intros H. constructor; [done|by apply IH].
Qed.

(** ** Valid snapshots *)

Record item_valid (i : SnapshotItem) : Prop := {
  iv_id : si_ID i <> EmptyString;
  iv_quantity : MinQuantity <= si_Quantity i <= MaxQuantity
}.

Record snapshot_valid (cartID : string) (s : Snapshot) : Prop := {
  sv_id : sn_ID s = cartID;
  sv_revision : 0 <= sn_Revision s;
  sv_items : Forall item_valid (sn_Items s);
  sv_methods : Forall (fun m => 0 <= ss_Amount m <= MaxAmount) (sn_ShippingMethods s)
}.

Lemma Snapshot_validate_None s cartID : Snapshot_validate s cartID = None -> snapshot_valid cartID s.
Proof.
  unfold Snapshot_validate. case_bool_decide as Hid; cbn [negb]; [|done]. case_bool_decide; [done|].
  case_bool_decide; [done|]. destruct (Z.ltb_spec (sn_Revision s) 0); [done|].
  destruct (first_error _ (sn_Items s)) eqn:E; [done|]. intros Em.
  apply no_first_error in E, Em. split; [done..| |].
  - eapply Forall_impl; [exact E|]. intros i. unfold SnapshotItem_validate. case_bool_decide; [done|].
    case_bool_decide; [done|]. destruct (Z.ltb_spec (si_Quantity i) MinQuantity); [done|].
    destruct (Z.ltb_spec MaxQuantity (si_Quantity i)); [done|]. by split.
  - eapply Forall_impl; [exact Em|]. intros m. unfold shipping_method_check.
    destruct (Z.ltb_spec (ss_Amount m) 0); [done|]. by destruct (Z.ltb_spec MaxAmount (ss_Amount m)).
Qed.

(** ** Prices *)

(** A line as pricing leaves it. *)
Record line_priced (i : SnapshotItem) (l : LineTotals) : Prop := {
  lpr_id : lt_LineItemID l = si_ID i;
  lpr_price : 0 <= lt_UnitPrice l <= MaxAmount;
  lpr_subtotal : lt_Subtotal l = lt_UnitPrice l * si_Quantity i;
  lpr_bound : 0 <= lt_Subtotal l <= MaxTotal;
  lpr_discount : lt_DiscountTotal l = 0;
  lpr_tax : lt_TaxTotal l = 0
}.

Lemma accept_prices_range snapID i answers prices : accept_prices snapID i answers = Ok prices ->
  Forall (fun p => 0 <= lp_Amount p <= MaxAmount) prices /\ length prices = length answers.
Proof.
  revert i prices. induction answers as [|a answers IH]; intros i prices; cbn [accept_prices].
  { intros [= <-]. by split. }
  unfold checkAmount. destruct (Z.ltb_spec (ps_Amount a) 0); [done|].
  destruct (Z.ltb_spec MaxAmount (ps_Amount a)); [done|]. cbn [guard_err]. intros Hr. result_inv. subst prices.
  apply IH in E0 as [? ?]. split; [by constructor|]. cbn. by f_equal.
Qed.

Lemma acceptPrices_range snap raw prices : acceptPrices snap raw = Ok prices ->
  Forall (fun p => 0 <= lp_Amount p <= MaxAmount) prices /\ length prices = length (sn_Items snap).
Proof.
  unfold acceptPrices. intros Hr. result_inv. case_bool_decide as El; [|done].
  destruct (unpriced_items _ _); [|done]. apply accept_prices_range in Hr as [? ?]. split; [done|congruence].
Qed.

Lemma price_lines_priced items prices lines : Forall item_valid items ->
  Forall (fun p => 0 <= lp_Amount p <= MaxAmount) prices -> length prices = length items ->
  price_lines items prices = Ok lines -> Forall2 line_priced items lines.
Proof.
  pose proof flow_MaxTotal as HM. intros Hi. revert prices lines.
  induction Hi as [|i items Hi _ IH]; intros [|p prices] lines Hp Hlen; cbn [price_lines]; try discriminate Hlen.
  { intros [= <-]. constructor. }
  apply Forall_cons in Hp as [Hp Hps]. destruct (iv_quantity i Hi) as [Hq1 Hq2].
  unfold MinQuantity in Hq1. rewrite mulAmount_exact by lia. cbn. intros H. result_inv. subst lines. constructor.
  - split; cbn; [done|done|done| |done|done]. unfold MaxAmount, MaxQuantity in *. nia.
  - by apply (IH prices); [|injection Hlen|].
Qed.

(** ** Discounts *)

(** A line as the discounts leave it. *)
Record line_discounted (i : SnapshotItem) (l : LineTotals) : Prop := {
  ldc_id : lt_LineItemID l = si_ID i;
  ldc_price : 0 <= lt_UnitPrice l <= MaxAmount;
  ldc_subtotal : lt_Subtotal l = lt_UnitPrice l * si_Quantity i;
  ldc_bound : 0 <= lt_DiscountTotal l <= lt_Subtotal l;
  ldc_max : lt_Subtotal l <= MaxTotal;
  ldc_tax : lt_TaxTotal l = 0
}.

Lemma priced_discounted i l : line_priced i l -> line_discounted i l.
Proof. intros []. split; lia || done. Qed.

Lemma discount_sum_within snapID i sum lines items s : length items = length lines ->
  discount_sum snapID i sum lines items = Ok s ->
  Forall2 (fun l d => dl_ID d = lt_LineItemID l /\ 0 <= dl_Amount d <= lt_Subtotal l) lines items.
Proof.
  revert i sum items. induction lines as [|l lines IH]; intros i sum [|d items]; cbn [discount_sum]; try discriminate 1.
  { constructor. }
  case_bool_decide as Hid; cbn [negb]; [|done]. destruct (Z.ltb_spec (dl_Amount d) 0); [done|].
  destruct (Z.ltb_spec (lt_Subtotal l) (dl_Amount d)); [done|]. cbn [orb]. intros [= Hlen] Hr. result_inv.
  constructor; [by split|]. by eapply IH.
Qed.

Lemma applyDiscountResponse_within same_fold snap lines resp lines' : Forall2 line_priced (sn_Items snap) lines ->
  applyDiscountResponse same_fold snap lines resp = Ok lines' -> Forall2 line_discounted (sn_Items snap) lines'.
Proof.
  unfold applyDiscountResponse. intros Hl Hr. result_inv. subst lines'.
  apply negb_false_iff, bool_decide_eq_true in E0. apply discount_sum_within in E2; [|done]. clear -Hl E2.
  revert E2. generalize (dr_Items resp). induction Hl as [|i l items lines Hl _ IH]; intros ds Hd;
    inversion Hd as [|? d ? ? [Hid Hb]]; subst; cbn; constructor; [|by apply IH].
  destruct Hl. split; cbn; lia || done.
Qed.

(** ** Taxes *)

(** A line as the taxes leave it, the price including them or not. *)
Record line_taxed (included : bool) (i : SnapshotItem) (l : LineTotals) : Prop := {
  ltx_id : lt_LineItemID l = si_ID i;
  ltx_price : 0 <= lt_UnitPrice l <= MaxAmount;
  ltx_subtotal : lt_UnitPrice l * si_Quantity i = lt_Subtotal l + (if included then lt_TaxTotal l else 0);
  ltx_limit : lt_UnitPrice l * si_Quantity i <= MaxTotal;
  ltx_bound : 0 <= lt_DiscountTotal l <= lt_Subtotal l;
  ltx_tax : 0 <= lt_TaxTotal l <= MaxTotal
}.

Lemma discounted_taxed included i l : line_discounted i l -> line_taxed included i l.
Proof. pose proof flow_MaxTotal. intros []. split; try (by destruct included; lia); lia || done. Qed.

Lemma discounted_base i l : line_discounted i l ->
  lt_Subtotal l -₆₄ lt_DiscountTotal l = lt_Subtotal l - lt_DiscountTotal l.
Proof. pose proof flow_MaxTotal. intros []. apply sub64_exact. in64. Qed.

Lemma region_tax_taxed rateBps cards items lines lines' : Forall2 line_discounted items lines ->
  region_tax rateBps cards lines = Ok lines' -> Forall2 (line_taxed false) items lines'.
Proof.
  intros Hl. revert lines'. induction Hl as [|i l items lines Hl _ IH]; intros lines'; cbn [region_tax].
  { intros [= <-]. constructor. }
  intros Hr. result_inv. subst lines'. constructor; [|by apply IH]. case_bool_decide.
  - injection E as <-. by apply discounted_taxed.
  - result_inv. subst a. apply taxOf_within in E1. rewrite (discounted_base i) in E1 by done. destruct Hl.
    split; cbn; lia || done.
Qed.

(** What a line's accepted answer is. *)
Record answer_fits (included : bool) (l : LineTotals) (a : taxResponseLine) : Prop := {
  af_tax : 0 <= trl_TaxAmount a <= lt_Subtotal l - lt_DiscountTotal l;
  af_base : included = true -> 0 <= trl_TaxableAmount a /\
    trl_TaxableAmount a + trl_TaxAmount a = lt_Subtotal l - lt_DiscountTotal l
}.

Lemma tax_line_check_None snapID k included i l a : line_discounted i l -> in_int64 (trl_TaxableAmount a) ->
  tax_line_check snapID k included l a = None -> answer_fits included l a.
Proof.
  pose proof flow_MaxTotal as HM. intros Hl Hty. unfold tax_line_check. rewrite (discounted_base i) by done. destruct Hl.
  case_bool_decide; cbn [negb]; [|done]. destruct (included && _) eqn:Ei; [done|]. destruct (negb included && _); [done|].
  destruct (Z.ltb_spec (trl_TaxAmount a) 0); [done|].
  destruct (Z.ltb_spec (lt_Subtotal l - lt_DiscountTotal l) (trl_TaxAmount a)); [done|]. cbn [orb]. intros _.
  split; [lia|]. intros ->. cbn [andb] in Ei. apply orb_false_iff in Ei as [E1%Z.ltb_ge E2%negb_false_iff%Z.eqb_eq].
  split; [done|]. unfold add64 in E2. destruct (decide (trl_TaxableAmount a + trl_TaxAmount a <= int64_max)).
  - by rewrite wrap64_id in E2 by in64.
  - exfalso. unfold wrap64 in E2. rewrite <- (Z.mod_add _ (-1)), Z.mod_small in E2 by in64. in64.
Qed.

Lemma tax_sum_fits snapID k included sum items lines answers s : Forall2 line_discounted items lines ->
  length answers = length lines -> Forall (fun a => in_int64 (trl_TaxableAmount a)) answers ->
  tax_sum snapID k included sum lines answers = Ok s -> Forall2 (answer_fits included) lines answers.
Proof.
  intros Hl. revert k sum answers. induction Hl as [|i l items lines Hl _ IH]; intros k sum [|a answers];
    cbn [tax_sum]; try discriminate 1.
  { constructor. }
  intros [= Hlen] [Ha Has]%Forall_cons Hr. result_inv. constructor; [by eapply tax_line_check_None|]. by eapply IH.
Qed.

Lemma taxed_line_taxed included i l a : line_discounted i l -> answer_fits included l a ->
  line_taxed included i (taxed_line included l a).
Proof.
  pose proof flow_MaxTotal. intros [] [Ht Hb]. unfold taxed_line. destruct included; [|split; cbn; lia || done].
  destruct (Hb eq_refl). rewrite add64_exact by in64. split; cbn; lia || done.
Qed.

Lemma pick_lookup (lines : list LineTotals) indices : Forall (fun k => is_Some (lines !! k)) indices ->
  Forall2 (fun k l => lines !! k = Some l) indices (pick lines indices).
Proof. induction 1 as [|k ks [l Hl] _ IH]; [constructor|]. unfold pick. csimpl. rewrite Hl. by constructor. Qed.

Lemma taxed_indices_valid cards (lines : list LineTotals) : Forall (fun k => is_Some (lines !! k)) (taxed_indices cards lines).
Proof.
  apply Forall_forall. intros k [Hk _]%list_elem_of_filter. destruct (lines !! k); [done|discriminate Hk].
Qed.

Lemma put_back_Forall2 (P : SnapshotItem -> LineTotals -> Prop) items lines indices sent :
  Forall2 P items lines -> Forall2 (fun k l => exists i, items !! k = Some i /\ P i l) indices sent ->
  Forall2 P items (put_back lines indices sent).
Proof.
  unfold put_back. intros H Hs. revert lines H. induction Hs as [|k l indices sent (i & Hi & Hp) _ IH]; intros lines H; [done|].
  cbn. apply IH. by eapply Forall2_put.
Qed.

Definition answers_typed (resp : taxResponse) : Prop := Forall (fun a => in_int64 (trl_TaxableAmount a)) (tr_Items resp).

Lemma module_tax_taxed snap items lines cards resp sent : Forall2 line_discounted items lines -> answers_typed resp ->
  applyTaxResponse snap (pick lines (taxed_indices cards lines)) resp = Ok sent ->
  Forall2 (line_taxed (tr_PricesIncludeTax resp)) items (put_back lines (taxed_indices cards lines) sent).
Proof.
  unfold applyTaxResponse. intros Hl Hty Hr. result_inv. subst sent.
  apply negb_false_iff, bool_decide_eq_true in E. pose proof (pick_lookup _ _ (taxed_indices_valid cards lines)) as Hp.
  revert Hp E E1. generalize (taxed_indices cards lines). intros ks Hp Hlen Hsum.
  apply put_back_Forall2; [eapply Forall2_impl; [exact Hl|apply discounted_taxed]|].
  assert (exists its, Forall2 (fun k i => items !! k = Some i) ks its /\ Forall2 line_discounted its (pick lines ks)) as (its & Hi & Hd).
  { clear -Hl Hp. induction Hp as [|k l ks ls Hk _ (its & Hi & Hd)]; [by exists []|].
    eapply Forall2_lookup_r in Hl as (i & Hi' & Hd'); [|exact Hk]. exists (i :: its). by split; constructor. }
  eapply tax_sum_fits in Hsum; [|exact Hd|done|done]. clear -Hi Hd Hsum. revert Hd Hsum. generalize (pick lines ks) (tr_Items resp).
  induction Hi as [|k i ks its Hk _ IH]; intros ls as_ Hd Hsum; inversion Hd; subst; [inversion Hsum; subst; constructor|].
  inversion Hsum; subst. cbn. constructor; [|by apply IH]. exists i. split; [done|]. by apply taxed_line_taxed.
Qed.

(** ** Totals *)

(** A line with its total. *)
Record line_done (included : bool) (i : SnapshotItem) (l : LineTotals) : Prop := {
  ldn_taxed : line_taxed included i l;
  ldn_total : lt_Total l = lt_Subtotal l - lt_DiscountTotal l + lt_TaxTotal l;
  ldn_bound : 0 <= lt_Total l <= MaxTotal
}.

Lemma assemble_lines_sums included items lines s d t s' d' t' lines' : Forall2 (line_taxed included) items lines ->
  assemble_lines s d t lines = Ok (s', d', t', lines') ->
  Forall2 (line_done included) items lines' /\
  s' = s + sumZ (lt_Subtotal <$> lines') /\ d' = d + sumZ (lt_DiscountTotal <$> lines') /\
  t' = t + sumZ (lt_TaxTotal <$> lines') /\
  (0 <= s <= MaxTotal -> 0 <= d <= s -> 0 <= t <= MaxTotal ->
     0 <= s' <= MaxTotal /\ 0 <= d' <= s' /\ 0 <= t' <= MaxTotal).
Proof.
  pose proof flow_MaxTotal as HM. intros Hl. revert s d t s' d' t' lines'.
  induction Hl as [|i l items lines Hl _ IH]; intros s d t s' d' t' lines'; cbn [assemble_lines].
  { intros [= <- <- <- <-]. rewrite !fmap_nil, !sumZ_nil. split; [constructor|]. lia. }
  intros Hr. result_inv. destruct a3 as [[[s1 d1] t1] ls]. cbn in Hr. injection Hr as <- <- <- <-.
  assert (lt_Subtotal l <= MaxTotal) by (destruct Hl, included; lia).
  apply flow_addAmount_Ok in E as (? & ? & ->); [|destruct Hl; unfold int64_max; lia].
  apply flow_addAmount_Ok in E0 as (? & ? & ->); [|destruct Hl; unfold int64_max; lia].
  apply flow_addAmount_Ok in E1 as (? & ? & ->); [|destruct Hl; unfold int64_max; lia].
  rewrite sub64_exact in E2 by (destruct Hl; in64).
  apply flow_addAmount_Ok in E2 as (? & ? & ->); [|destruct Hl; unfold int64_max; lia].
  apply IH in E3 as (Hls & -> & -> & -> & Hb). rewrite !fmap_cons, !sumZ_cons. cbn [lt_Subtotal lt_DiscountTotal lt_TaxTotal with_line_total]. split_and!; [|lia..|].
  - constructor; [|done]. destruct Hl. split; cbn; [by split|done|lia].
  - intros. destruct Hl. specialize (Hb ltac:(lia) ltac:(lia) ltac:(lia)). lia.
Qed.

Lemma sum_amounts_sum total amounts s : Forall (fun a => 0 <= a <= int64_max) amounts -> 0 <= total <= MaxTotal ->
  sum_amounts total amounts = Ok s -> s = total + sumZ amounts /\ 0 <= s <= MaxTotal.
Proof.
  intros Ha. revert total. induction Ha as [|a amounts Ha _ IH]; intros total Ht; cbn [sum_amounts].
  { intros [= <-]. rewrite sumZ_nil. lia. }
  intros Hr. result_inv. apply flow_addAmount_Ok in E as (? & ? & ->); [|done]. apply IH in Hr as [-> ?]; [|lia].
  rewrite sumZ_cons. lia.
Qed.

(** What a round's totals are. *)
Record totals_done (snap : Snapshot) (t : Totals) : Prop := {
  td_lines : Forall2 (line_done (to_PricesIncludeTax t)) (sn_Items snap) (to_Lines t);
  td_revision : to_Revision t = sn_Revision snap;
  td_subtotal : to_Subtotal t = sumZ (lt_Subtotal <$> to_Lines t);
  td_discount : to_DiscountTotal t = sumZ (lt_DiscountTotal <$> to_Lines t);
  td_tax : to_TaxTotal t = sumZ (lt_TaxTotal <$> to_Lines t);
  td_shipping : to_ShippingTotal t = sumZ (ss_Amount <$> sn_ShippingMethods snap);
  td_total : to_Total t = to_Subtotal t - to_DiscountTotal t + to_TaxTotal t + to_ShippingTotal t;
  td_bounds : 0 <= to_Subtotal t <= MaxTotal /\ 0 <= to_DiscountTotal t <= to_Subtotal t /\
    0 <= to_TaxTotal t <= MaxTotal /\ 0 <= to_ShippingTotal t <= MaxTotal /\ 0 <= to_Total t <= MaxTotal
}.

Lemma assembleTotals_done snap lines shippingTotal source included applied t :
  Forall2 (line_taxed included) (sn_Items snap) lines ->
  shippingTotal = sumZ (ss_Amount <$> sn_ShippingMethods snap) -> 0 <= shippingTotal <= MaxTotal ->
  assembleTotals snap lines shippingTotal source = Ok t -> totals_done snap (with_outcome t applied included).
Proof.
  pose proof flow_MaxTotal as HM. unfold assembleTotals. intros Hl Hs Hsb Hr. result_inv.
  destruct a as [[[s d] tax] ls]. result_inv. subst t.
  apply (assemble_lines_sums included (sn_Items snap)) in E as (Hls & -> & -> & -> & Hb); [|done].
  destruct (Hb ltac:(lia) ltac:(lia) ltac:(lia)) as (H1 & H2 & H3).
  rewrite sub64_exact in E0 by in64.
  apply flow_addAmount_Ok in E0 as (? & ? & ->); [|unfold int64_max; lia].
  apply flow_addAmount_Ok in E1 as (? & ? & ->); [|unfold int64_max; lia].
  split; cbn; done || lia.
Qed.

Section Steps.
Context {W : Type} (w : Workflows W) (same_fold : list Z -> list Z -> bool) (channels : option (list string)).

(** A call whose answer can be anything. *)
Lemma yields_skip {A B} st (m : tx W A) (f : A -> tx W B) (Q : B -> W -> Prop) :
  (forall a st', yields st' (f a) Q) -> yields st (m ≫= f) Q.
Proof. intros H. apply yields_bind. intros st' a _. apply H. Qed.

Lemma unitPrices_range snap priceSets st : yields st (unitPrices w snap priceSets) (fun prices _ =>
  Forall (fun p => 0 <= lp_Amount p <= MaxAmount) prices /\ length prices = length (sn_Items snap)).
Proof.
  unfold unitPrices. destruct (sn_Items snap) as [|i items] eqn:E; [by apply yields_ret|]. rewrite <- E.
  apply yields_skip. intros [[attributes lists] e] st1. apply yields_skip. intros request st2.
  apply yields_skip. intros raw st3. apply yields_of. apply acceptPrices_range.
Qed.

Lemma lineSubtotals_priced snap st : Forall item_valid (sn_Items snap) ->
  yields st (lineSubtotals w snap) (fun lines _ => Forall2 line_priced (sn_Items snap) lines).
Proof.
  intros Hi. unfold lineSubtotals. apply yields_skip. intros priceSets st1. apply yields_bind.
  eapply yields_mono; [apply unitPrices_range|]. intros prices st2 [Hp Hl]. apply yields_of. intros lines.
  by apply price_lines_priced.
Qed.
Lemma applyDiscounts_discounted snap lines facts st : Forall2 line_priced (sn_Items snap) lines ->
  yields st (applyDiscounts same_fold w snap lines facts) (fun r _ => Forall2 line_discounted (sn_Items snap) r.1).
Proof.
  intros Hl. unfold applyDiscounts. destruct (wf_discounts w) as [discounts|].
  - apply yields_guard. intros _. apply yields_skip. intros request st1. apply yields_skip. intros raw st2.
    apply yields_skip. intros resp st3. apply yields_bind, yields_of. intros lines' E. apply yields_ret. cbn.
    by eapply applyDiscountResponse_within.
  - apply yields_ret. cbn. eapply Forall2_impl; [exact Hl|apply priced_discounted].
Qed.

(** The tax surface answers amounts of its type. *)
Definition tax_typed : Prop := forall taxes req st st' resp, wf_taxes w = Some taxes ->
  CalculateTaxJSON taxes req st = (st', Ok (Document resp)) -> answers_typed resp.

Lemma applyTaxes_taxed snap shippingTotal lines facts st : tax_typed -> Forall2 line_discounted (sn_Items snap) lines ->
  yields st (applyTaxes w channels snap shippingTotal lines facts) (fun r _ =>
    Forall2 (line_taxed (ot_pricesIncludeTax r.2)) (sn_Items snap) r.1).
Proof.
  intros Hty Hl. unfold applyTaxes.
  assert (forall st, yields st (lines' ← applyRegionTax w channels snap lines facts;
      mret (lines', mkTaxOutcome TaxSourceRegion false))
    (fun r _ => Forall2 (line_taxed (ot_pricesIncludeTax r.2)) (sn_Items snap) r.1)) as Hregion.
  { intros st0. unfold applyRegionTax. apply yields_bind. apply yields_skip. intros rateBps st1. apply yields_skip.
    intros facts' st2. apply yields_of. intros lines' E. apply yields_ret. cbn. by eapply region_tax_taxed. }
  destruct (wf_taxes w) as [taxes|] eqn:Et; [|apply Hregion].
  apply yields_skip. intros [country|reason] st1; [|apply Hregion]. unfold applyModuleTax.
  apply yields_skip. intros productIDs st2. apply yields_bind. intros st3 raw Eraw.
  apply yields_bind, yields_of. intros resp Eresp. apply yields_bind, yields_of. intros sent Es.
  apply yields_ret. cbn. eapply module_tax_taxed; [exact Hl| |exact Es].
  unfold mapping in Eraw. destruct (CalculateTaxJSON taxes _ st2) as [st4 [raw'|e]] eqn:Ec; [|discriminate Eraw].
  injection Eraw as -> ->. destruct raw as [| |doc]; try discriminate Eresp. injection Eresp as ->.
  by eapply Hty.
Qed.

Lemma computeTotals_done snap cartID st : tax_typed -> snapshot_valid cartID snap ->
  yields st (computeTotals w same_fold channels snap) (fun t _ => totals_done snap t).
Proof.
  pose proof flow_MaxTotal as HM. intros Hty Hv. unfold computeTotals. apply yields_bind.
  eapply yields_mono; [by apply lineSubtotals_priced, (sv_items _ _ Hv)|]. intros lines st1 Hl.
  apply yields_bind, yields_of. intros shippingTotal Es. apply yields_skip. intros facts st2. apply yields_bind.
  eapply yields_mono; [by apply applyDiscounts_discounted|]. intros [lines1 applied] st3 Hd. apply yields_bind.
  eapply yields_mono; [by apply applyTaxes_taxed|]. intros [lines2 tax] st4 Ht.
  apply yields_bind, yields_of. intros totals Ea. apply yields_ret.
  unfold shippingTotalOf in Es. apply sum_amounts_sum in Es as [-> Hs]; [| |lia].
  - by eapply assembleTotals_done.
  - apply Forall_fmap. eapply Forall_impl; [apply (sv_methods _ _ Hv)|]. unfold MaxAmount, int64_max. cbn. lia.
Qed.

(** The part of a round before its write. *)
Lemma round_totals_done cartID st : tax_typed ->
  yields st (round_totals w same_fold channels cartID) (fun t _ => exists snap st1,
    CartSnapshotJSON (wf_carts w) cartID st = (st1, Ok (Document snap)) /\ sn_Completed snap = false /\
    snapshot_valid cartID snap /\ totals_done snap t).
Proof.
  intros Hty. unfold round_totals, snapshot. apply yields_bind, yields_bind. intros st1 payload Ep.
  apply yields_of. intros snap Ed. apply yields_guard. intros Hc. unfold decodeSnapshot in Ed.
  destruct payload as [| |doc]; try discriminate Ed. cbn in Ed. destruct (Snapshot_validate doc cartID) eqn:Ev; [discriminate Ed|].
  injection Ed as ->. apply Snapshot_validate_None in Ev.
  eapply yields_mono; [by eapply computeTotals_done|]. intros t st2 Hd. exists snap, st1.
  split_and!; try done. by destruct (sn_Completed snap).
Qed.

(** ** Rounds *)

(** So many rounds, one after the other, that each met a changed cart. *)
Inductive stale_rounds (cartID : string) : nat -> W -> W -> option err -> Prop :=
| no_round st : stale_rounds cartID 0 st st None
| one_more n st st1 st2 last e : stale_rounds cartID n st st1 last ->
    totalsRound w same_fold channels cartID st1 = (st2, (Fail e, true)) ->
    stale_rounds cartID (S n) st st2 (Some e).

Lemma stale_round_conflict cartID n st st' e : stale_rounds cartID n st st' (Some e) -> IsConflict (Some e) = true.
Proof.
  intros H. inversion H as [|? ? ? ? ? ? _ E]; subst. unfold totalsRound in E.
  destruct (round_totals _ _ _ _ _) as [st2 [t|e']]; [|done].
  destruct (SetCartTotalsJSON _ _ _ _) as [st3 [[]|e'']]; [done|]. by injection E as _ -> Eb.
Qed.

Lemma totals_rounds_spec cartID rounds done st0 st last st' r : stale_rounds cartID done st0 st last ->
  totals_rounds w same_fold channels cartID rounds last st = (st', r) ->
  (exists n st1 last1 t b, (done <= n < done + rounds)%nat /\ stale_rounds cartID n st0 st1 last1 /\
     totalsRound w same_fold channels cartID st1 = (st', (Ok t, b)) /\ r = Ok t) \/
  (exists n st1 last1 e, (done <= n < done + rounds)%nat /\ stale_rounds cartID n st0 st1 last1 /\
     totalsRound w same_fold channels cartID st1 = (st', (Fail e, false)) /\ r = Fail e) \/
  (exists last1, stale_rounds cartID (done + rounds) st0 st' last1 /\
     r = match Wrap last1 KindConflict CodeTotalsConflict
          "cart %s changed too often for the calculation to be written (%d attempts); the request has to be sent again"
          [AStr cartID; AInt (Z.of_nat MaxTotalsAttempts)] with Some e => Fail e | None => Ok zero_totals end).
Proof.
  revert done st last. induction rounds as [|rounds IH]; intros done st last Hs; cbn [totals_rounds].
  { intros [= -> <-]. right. right. exists last. by rewrite Nat.add_0_r. }
  destruct (totalsRound _ _ _ _ st) as [st1 [[t|e] b]] eqn:E.
  - intros [= -> <-]. left. exists done, st, last, t, b. split_and!; done || lia.
  - destruct b.
    + intros Hr. apply (IH (S done) st1 (Some e)) in Hr; [|by econstructor].
      destruct Hr as [(n & ? & ? & ? & ? & ? & ?)|[(n & ? & ? & ? & ? & ?)|(l & ? & ?)]].
      * left. exists n. do 4 eexists. split; [lia|]. done.
      * right. left. exists n. do 3 eexists. split; [lia|]. done.
      * right. right. exists l. by rewrite Nat.add_succ_r.
    + intros [= -> <-]. right. left. exists done, st, last, e. split_and!; done || lia.
Qed.
End Steps.
