(* ===== verification/CartRoundProps.v ===== *)
(** * What a calculation round promises

    The workflow and the modules behind it together: a round's totals are accepted by the cart they were
    computed for, what promotion and tax answer is accepted by the round, and a round is repeated only for
    a cart that changed under it. *)
From S2P Require Import Prelude GoText Errors Tx CartModels CartTotals CartStore CartService CartMoves CartLines CartMemory CartProps PromotionModels PromotionValidate PromotionDiscounts PromotionCompute PromotionLines PromotionProps TaxModels TaxRates TaxCalculate TaxLines TaxMemory TaxProps CartFlow CartRound CartModules CartCallProps CartRoundFacts.
Set Warnings "-level-tolerance".

Lemma flow_MaxTotal_cart : CartFlow.MaxTotal = CartModels.MaxTotal.
Proof. reflexivity. Qed.

(** ** The cart's side *)

(** What a round sees of a cart. *)
Definition view_snapshot (v : CartView) : Snapshot :=
  interop_snapshot (mkCartDetail (cv_cart v) (cv_lines v) None None (cv_methods v) (cv_codes v)).

Lemma flow_requireID label value : CartFlow.requireID label value = None -> CartModels.requireID label value = None.
Proof.
  unfold CartFlow.requireID, CartModels.requireID. repeat case_bool_decide; try done; cbn.
  unfold CartFlow.maxIDLen, CartModels.maxIDLen. by destruct (_ <? _).
Qed.

Lemma line_done_ok included q i l : line_done included i l -> si_Quantity i = q -> 0 <= q ->
  CartTotals.line_ok included q (interop_line_totals l).
Proof.
  pose proof flow_MaxTotal_cart as HM. intros [[] ? ?] <- ?. rewrite HM in *. split; cbn; done || lia || (destruct included; lia).
Qed.

Lemma done_round_ok v t : lines_ok (cv_lines v) -> Forall (fun l => CartModels.requireID "line_item_id" (li_ID l) = None) (cv_lines v) ->
  totals_done (view_snapshot v) t -> 0 <= cart_Revision (cv_cart v) -> round_ok v (interop_totals t).
Proof.
  intros Hls Hids [Hl Hr Hs Hd Ht Hsh Htot Hb] Hrev. rewrite !flow_MaxTotal_cart in Hb. cbn in Hl, Hr.
  assert (lt_LineItemID <$> to_Lines t = li_ID <$> cv_lines v) as Hsame.
  { rewrite Forall2_fmap_l in Hl. clear -Hl. induction Hl as [|l u ls us Hl _ IH]; [done|].
    rewrite !fmap_cons. f_equal; [|done]. by destruct Hl as [[]]. }
  split; cbn.
  - split; cbn; lia.
  - split.
    + apply Forall_forall. intros u (x & -> & Hx)%list_elem_of_fmap. cbn.
      apply (list_elem_of_fmap_2 lt_LineItemID) in Hx. rewrite Hsame in Hx.
      apply list_elem_of_fmap in Hx as (l & -> & Hin). by eapply Forall_forall in Hids.
    + rewrite <- list_fmap_compose. by rewrite <- Hsame.
    + intros u l Hu Hin Hid. apply list_elem_of_fmap in Hu as (x & -> & Hx).
      rewrite Forall2_fmap_l in Hl. apply list_elem_of_lookup in Hx as [k Hk].
      eapply Forall2_lookup_r in Hl as (l' & Hl' & Hd'); [|exact Hk].
      assert (l' = l) as ->.
      { apply list_elem_of_lookup in Hin as [k' Hk']. cbn in Hid.
        assert (k = k') as ->; [|congruence]. eapply (NoDup_lookup (li_ID <$> cv_lines v)); [apply Hls| |].
        - by rewrite list_lookup_fmap, Hl'.
        - rewrite list_lookup_fmap, Hk'. cbn. rewrite <- Hid. f_equal. by destruct Hd' as [[]]. }
      eapply line_done_ok; [exact Hd'|done|]. pose proof (ls_range _ Hls l Hin) as [Hq _].
      unfold CartModels.MinQuantity in Hq. lia.
  - rewrite Hs, <- list_fmap_compose. done.
  - by rewrite Hr.
Qed.

(** The cart module's answer is the cart as it stands. *)
Lemma snapshot_is_view {St} (svc : CartService.Service St) view `{!CartLaws svc view} id st :
  yields st (cart_CartSnapshotJSON svc id) (fun raw _ => exists v, view st !! id = Some v /\ raw = Document (view_snapshot v)).
Proof.
  unfold cart_CartSnapshotJSON, CartService.GetCart, WithTx. do 5 tx_step.
  match goal with H : db_GetCart _ _ _ = _ |- _ => apply law_get in H as (v & Hv & <-) end.
  do 8 tx_step. apply yields_ret, yields_ret. exists v. split; [done|].
  match goal with H : db_ListLineItems _ _ _ = _ |- _ => eapply law_list_lines in H as ->; [|exact Hv] end.
  match goal with H : db_ListShippingMethods _ _ _ = _ |- _ => eapply law_list_methods in H as ->; [|exact Hv] end.
  match goal with H : db_ListPromotionCodes _ _ _ = _ |- _ => eapply law_list_codes in H as ->; [|exact Hv] end.
  done.
Qed.

(** ** Promises *)

(** C14: pricing a cart that nobody else touches succeeds. The workflow over the cart module, whatever the
    other surfaces answer: when a round's computation ends with totals while the cart stayed as it was and
    the database executes the statements of the write, the calculation's first round writes them and ends
    with exactly these totals. Every line the cart then shows is priced from its own quantity, the discount
    within it, the tax added or contained as the tax module says; the cart's subtotal, discount and tax are
    the sums of the lines' and its total follows from them and the shipping methods' amounts. *)
Theorem still_cart_is_priced {St W} (svc : CartService.Service St) (view : St -> gmap string CartView)
    `{!CartLaws svc view} (now : St -> moment) (newID : St -> nat -> string) (get : W -> St) (put : St -> W -> W)
    (w : Workflows W) (same_fold : list Z -> list Z -> bool) (channels : option (list string))
    (id : string) (t : CartFlow.Totals) (v : CartView) (c : Cart) (wst wst1 : W) (st1 st2 : St) :
  wf_carts w = cart_interop svc now newID get put -> tax_typed w ->
  carts_ok (view (get wst)) -> view (get wst) !! id = Some v -> CartFlow.requireID "cart_id" id = None ->
  Forall (fun l => CartModels.requireID "line_item_id" (li_ID l) = None) (cv_lines v) ->
  round_totals w same_fold channels id wst = (wst1, Ok t) -> view (get wst1) = view (get wst) ->
  db_LockCart (svc_store svc) id (get wst1) = Ok (cv_cart v) ->
  db_ListLineItems (svc_store svc) id (get wst1) = Ok (cv_lines v) ->
  db_SetLineItemTotals (svc_store svc) id (storeLineTotals (CartTotals.to_Lines (interop_totals t)))
    (now (get wst1)) (get wst1) = (st1, None) ->
  db_UpdateCartTotals (svc_store svc) id (cart_totals (interop_totals t)) (now (get wst1)) st1 = (st2, Ok c) ->
  db_Commit (svc_store svc) st2 = None ->
  CalculateTotals w same_fold channels id wst = (put st2 wst1, Ok t) /\
  view st2 = <[id := priced_view (interop_totals t) (now (get wst1)) v]> (view (get wst)) /\
  totals_done (view_snapshot v) t.
Proof.
  intros Hw Hty Hok Hv Hid Hids Hround Hview Hlock Hlines Hset Hup Hcommit.
  destruct (round_totals_done w same_fold channels id wst Hty _ _ Hround) as (snap & st' & Hs & Hc & Hval & Hd).
  rewrite Hw in Hs. cbn in Hs. unfold on_part in Hs.
  destruct (cart_CartSnapshotJSON svc id (get wst)) as [s [raw|e]] eqn:Es; [|discriminate Hs].
  injection Hs as _ ->. destruct (snapshot_is_view svc view id (get wst) _ _ Es) as (v' & Hv' & E).
  rewrite Hv in Hv'. injection Hv' as <-. injection E as ->.
  assert (round_ok v (interop_totals t)) as Hr.
  { apply done_round_ok; [apply (vk_shape _ _ (Hok id v Hv))|done|done|apply (sv_revision _ _ Hval)]. }
  rewrite <- Hview in Hok, Hv.
  assert (CartService.SetTotals svc (now (get wst1)) id (interop_totals t) (get wst1) = (st2, Ok tt)) as Ew.
  { eapply (SetTotals_accepts svc view); try done. by apply flow_requireID. }
  split; [|split; [|done]].
  - assert (totalsRound w same_fold channels id wst = (put st2 wst1, (Ok t, false))) as Er.
    { unfold totalsRound. rewrite Hround, Hw. unfold cart_interop, on_part, cart_SetCartTotalsJSON. cbn.
      by rewrite Ew. }
    unfold CalculateTotals, MaxTotalsAttempts, mbind, tx_bind, tx_check. rewrite Hid.
    cbn [totals_rounds]. by rewrite Er.
  - destruct (SetTotals_yields svc view _ _ _ _ Hok _ _ Ew) as (v' & Hv' & _ & _ & Hsh). unfold shows in Hsh. congruence.
Qed.

(** ** The promotion module's side *)

Lemma same_runes_refl same_fold l : same_runes same_fold l l = true.
Proof. induction l as [|r l IH]; [done|]. cbn. unfold same_rune. by rewrite bool_decide_true. Qed.

(** Both modules normalize a currency code to the same text. *)
Lemma same_currency code n : CartModels.normalizeCurrency code = Ok code ->
  PromotionValidate.normalizeCurrency code = Ok n -> n = code.
Proof.
  unfold CartModels.normalizeCurrency, CartModels.alphaCode, PromotionValidate.normalizeCurrency.
  intros H1 H2. result_inv. congruence.
Qed.

Lemma discount_sum_accepts snapID i sum lines items : 0 <= sum ->
  Forall2 (fun l d => dl_ID d = lt_LineItemID l /\ 0 <= dl_Amount d <= lt_Subtotal l) lines items ->
  sum + sumZ (dl_Amount <$> items) <= CartFlow.MaxTotal ->
  discount_sum snapID i sum lines items = Ok (sum + sumZ (dl_Amount <$> items)).
Proof.
  intros Hs H. revert i sum Hs. induction H as [|l d lines items [Hid Hd] H IH]; intros i sum Hs; cbn [discount_sum].
  { by rewrite fmap_nil, sumZ_nil, Z.add_0_r. }
  rewrite fmap_cons, sumZ_cons. intros Hb. rewrite bool_decide_true by done. cbn [negb].
  assert (0 <= sumZ (dl_Amount <$> items)).
  { apply sumZ_nonneg, Forall_fmap. clear -H. induction H as [|? ? ? ? [_ ?]]; constructor; [cbn; lia|done]. }
  destruct (Z.ltb_spec (dl_Amount d) 0); [lia|]. destruct (Z.ltb_spec (lt_Subtotal l) (dl_Amount d)); [lia|]. cbn [orb].
  rewrite flow_addAmount_fits by lia. cbn [mbind result_bind]. rewrite IH by lia. f_equal. lia.
Qed.

(** The items a round sends are its lines'. *)
Lemma sent_items snap lines flags : Forall2 line_priced (sn_Items snap) lines ->
  Forall2 (fun l i => dq_ID i = lt_LineItemID l /\ dq_Amount i = lt_Subtotal l) lines
    (discount_item flags <$> zip (sn_Items snap) lines).
Proof. induction 1; cbn; by constructor. Qed.

(** What the module reads of a round's request. *)
Lemma sent_decoded parse snap lines flags attributes lists in_ : Forall2 line_priced (sn_Items snap) lines ->
  decodeDiscountRequest parse (discountRequestWith snap lines flags attributes lists) = Ok in_ ->
  in_CurrencyCode in_ = sn_CurrencyCode snap /\ in_ShippingMethods in_ = [] /\
    Forall2 (fun l i => ci_ID i = lt_LineItemID l /\ ci_Amount i = lt_Subtotal l) lines (in_Items in_).
Proof.
  intros Hl%(sent_items _ _ flags) Hd. unfold decodeDiscountRequest in Hd. cbn in Hd. injection Hd as <-.
  split_and!; [done..|]. cbn. apply Forall2_fmap_r. eapply Forall2_impl; [exact Hl|]. done.
Qed.

Lemma discounts_accepted same_fold snap lines r : PromotionDiscounts.cr_CurrencyCode r = sn_CurrencyCode snap ->
  Forall2 (fun l d => ld_ID d = lt_LineItemID l /\ 0 <= ld_Amount d <= lt_Subtotal l) lines (PromotionDiscounts.cr_Items r) ->
  PromotionDiscounts.cr_ShippingMethods r = [] ->
  cr_ItemsDiscountTotal r = sumZ (ld_Amount <$> PromotionDiscounts.cr_Items r) ->
  cr_ShippingDiscountTotal r = 0 -> cr_DiscountTotal r = cr_ItemsDiscountTotal r ->
  sumZ (lt_Subtotal <$> lines) <= CartFlow.MaxTotal ->
  is_ok (applyDiscountResponse same_fold snap lines (interop_discounts r)) = true.
Proof.
  intros Hc Hw Hsm Hit Hst Ht Hmax. unfold applyDiscountResponse, interop_discounts. cbn.
  unfold EqualFold. rewrite Hc, same_runes_refl. cbn [negb].
  rewrite length_fmap, <- (Forall2_length _ _ _ Hw), bool_decide_true by done. cbn [negb].
  rewrite Hst, Hsm. cbn [Z.eqb negb orb fmap list_fmap length]. rewrite bool_decide_true by done. cbn [negb].
  assert (dl_Amount <$> (interop_discount <$> PromotionDiscounts.cr_Items r) = ld_Amount <$> PromotionDiscounts.cr_Items r) as E.
  { by rewrite <- list_fmap_compose. }
  assert (sumZ (ld_Amount <$> PromotionDiscounts.cr_Items r) <= sumZ (lt_Subtotal <$> lines)) as Hle.
  { clear -Hw. induction Hw as [|l d ls ds [_ ?] _ IH]; [done|]. rewrite !fmap_cons, !sumZ_cons. lia. }
  rewrite discount_sum_accepts; [|done|by apply Forall2_fmap_r|rewrite E; lia].
  rewrite E. cbn [mbind result_bind]. by rewrite Ht, Hit, Z.add_0_l, !Z.eqb_refl.
Qed.

(** C15: what the promotion module computes for a round, the round accepts. For the priced lines of a cart in
    a canonical currency, whatever the promotions stored, the flags, attributes and codes: an answer of the
    module's surface preserves the lines and their order, each discount is within its line's subtotal, the
    sums agree and nothing is taken off the shipping, so none of the round's checks refuses it. The module
    answers for carts of at most its own ceiling, 10^12, though cart and round go up to 10^18. *)
Theorem promotion_answer_accepted (parse : string -> result (option moment)) (repo : PromotionCompute.Repository)
    (clock : moment) (same_fold : list Z -> list Z -> bool) (snap : Snapshot) (lines : list CartFlow.LineTotals)
    (flags : facts_map) (attributes : gmap string string) (lists : gmap string (list string))
    (raw : RawMessage discountResponse) :
  Forall2 line_priced (sn_Items snap) lines ->
  CartModels.normalizeCurrency (sn_CurrencyCode snap) = Ok (sn_CurrencyCode snap) ->
  promotion_ComputeDiscountsJSON parse repo clock (discountRequestWith snap lines flags attributes lists) = Ok raw ->
  exists resp lines', raw = Document resp /\ applyDiscountResponse same_fold snap lines resp = Ok lines' /\
    Forall2 line_discounted (sn_Items snap) lines' /\
    sumZ (lt_Subtotal <$> lines) <= PromotionModels.MaxAmount.
Proof.
  intros Hl Hcur Hr. unfold promotion_ComputeDiscountsJSON in Hr.
  destruct (decodeDiscountRequest parse _) as [in_|] eqn:Ed; [|discriminate Hr]. cbn [mbind result_bind] in Hr.
  destruct (ComputeDiscounts repo in_ clock) as [r|] eqn:Ec; [|discriminate Hr]. injection Hr as <-.
  destruct (ComputeDiscounts_computed repo in_ clock r Ec) as ([Hi Hs Hit Hst Ht _ _] & n & En & Hn & Hitems & Hc).
  destruct (sent_decoded _ _ _ _ _ _ _ Hl Ed) as (Ecur & Esm & Hsent).
  assert (Forall2 (fun l d => ld_ID d = lt_LineItemID l /\ 0 <= ld_Amount d <= lt_Subtotal l) lines
    (PromotionDiscounts.cr_Items r)) as Hw.
  { eapply Forall2_trans; [|exact Hsent|exact Hi]. intros l i d [H1 H2]. by rewrite H1, H2. }
  assert (sumZ (lt_Subtotal <$> lines) <= PromotionModels.MaxAmount) as Hmax.
  { pose proof (io_items_sum _ Hn) as Hm. rewrite Hitems in Hm.
    assert (lt_Subtotal <$> lines = ci_Amount <$> in_Items in_) as ->; [|done].
    clear -Hsent. induction Hsent as [|l i ls ks [_ Ha] _ IH]; [done|]. rewrite !fmap_cons. congruence. }
  rewrite Esm in Hs. apply Forall2_nil_inv_l in Hs as Hsm. rewrite Hsm, fmap_nil, sumZ_nil in Hst.
  assert (PromotionDiscounts.cr_CurrencyCode r = sn_CurrencyCode snap) as Hrc.
  { rewrite Hc. unfold normalizeComputeInput in En. rewrite Ecur in En. result_inv. subst n. cbn. by eapply same_currency. }
  assert (is_ok (applyDiscountResponse same_fold snap lines (interop_discounts r)) = true) as Hok.
  { apply discounts_accepted; try done. { lia. } unfold PromotionModels.MaxAmount in Hmax. rewrite flow_MaxTotal. lia. }
  destruct (applyDiscountResponse _ _ _ _) as [lines'|] eqn:E; [|done].
  exists (interop_discounts r), lines'. split_and!; try done. by eapply applyDiscountResponse_within.
Qed.

(** ** The tax module's side *)

(** A line's answer, of the types it has in Go, fits the line. *)
Record answered (included : bool) (l : CartFlow.LineTotals) (item : ItemTax) : Prop := {
  an_line : exists i, line_discounted i l;
  an_id : it_ID item = lt_LineItemID l;
  an_sound : item_sound (lt_Subtotal l -₆₄ lt_DiscountTotal l) included item;
  an_typed : Forall component_int64 (it_Components item)
}.

Lemma component_sum_fits sum cs : 0 <= sum -> Forall (fun c => 0 <= trc_TaxAmount c) cs ->
  sum + sumZ (trc_TaxAmount <$> cs) <= CartFlow.MaxTotal ->
  component_sum sum cs = Ok (sum + sumZ (trc_TaxAmount <$> cs)).
Proof.
  intros Hs H. revert sum Hs. induction H as [|c cs Hc H IH]; intros sum Hs; cbn [component_sum].
  { by rewrite fmap_nil, sumZ_nil, Z.add_0_r. }
  rewrite fmap_cons, sumZ_cons. intros Hb.
  assert (0 <= sumZ (trc_TaxAmount <$> cs)) by by apply sumZ_nonneg, Forall_fmap.
  rewrite flow_addAmount_fits by lia. cbn [mbind result_bind]. rewrite IH by lia. f_equal. lia.
Qed.

Lemma answered_components included l item : answered included l item ->
  let a := toInteropItemTax item in
  exists total, component_sum 0 (trl_Components a) = Ok total /\ (trl_Components a = [] \/ total = trl_TaxAmount a).
Proof.
  pose proof flow_MaxTotal as HM. intros [[i Hl] _ Hs Hty]. rewrite (discounted_base i) in Hs by done. cbn.
  assert (trc_TaxAmount <$> trl_Components (toInteropItemTax item) = TaxRates.tc_TaxAmount <$> it_Components item) as E.
  { cbn. by rewrite <- list_fmap_compose. }
  cbn in E. destruct (it_Components item) as [|c cs] eqn:Ec; [by eexists; split; [done|left]|]. rewrite <- Ec in *.
  pose proof (is_sum _ _ _ Hs Hty ltac:(by rewrite Ec)) as Hsum. destruct (is_tax _ _ _ Hs) as [? ?].
  exists (it_TaxAmount item). split; [|by right]. rewrite component_sum_fits; rewrite ?E, ?Hsum; [by f_equal|done| |].
  - apply Forall_fmap. apply (is_parts _ _ _ Hs).
  - destruct Hl. lia.
Qed.

Lemma tax_line_accepted snapID k included l item : answered included l item ->
  tax_line_check snapID k included l (toInteropItemTax item) = None.
Proof.
  pose proof flow_MaxTotal as HM. intros Ha. destruct (answered_components _ _ _ Ha) as (total & Ec & Hc).
  destruct Ha as [[i Hl] Hid Hs _]. unfold tax_line_check. rewrite Ec.
  rewrite (discounted_base i) in * by done. destruct (is_tax _ _ _ Hs). pose proof (is_base _ _ _ Hs) as Hb.
  rewrite bool_decide_true by done. cbn [negb].
  assert (included && ((trl_TaxableAmount (toInteropItemTax item) <? 0) || negb
    (trl_TaxableAmount (toInteropItemTax item) +₆₄ trl_TaxAmount (toInteropItemTax item) =? lt_Subtotal l - lt_DiscountTotal l)) = false) as ->.
  { destruct included; [|done]. cbn. destruct Hb as [H1 H2]. destruct Hl. rewrite add64_exact by in64.
    rewrite H2, Z.eqb_refl. by destruct (Z.ltb_spec (it_TaxableAmount item) 0); [lia|]. }
  assert (negb included && negb (trl_TaxableAmount (toInteropItemTax item) =? lt_Subtotal l - lt_DiscountTotal l) = false) as ->.
  { destruct included; [done|]. cbn. by rewrite Hb, Z.eqb_refl. }
  cbn [trl_TaxAmount toInteropItemTax]. destruct (Z.ltb_spec (it_TaxAmount item) 0); [lia|].
  destruct (Z.ltb_spec (lt_Subtotal l - lt_DiscountTotal l) (it_TaxAmount item)); [lia|]. cbn [orb].
  destruct Hc as [->| ->]; [done|]. cbn. by rewrite Z.eqb_refl, andb_false_r.
Qed.

Lemma tax_sum_accepts snapID k included sum lines items : 0 <= sum -> Forall2 (answered included) lines items ->
  sum + sumZ (it_TaxAmount <$> items) <= CartFlow.MaxTotal ->
  tax_sum snapID k included sum lines (toInteropItemTax <$> items) = Ok (sum + sumZ (it_TaxAmount <$> items)).
Proof.
  intros Hs H. revert k sum Hs. induction H as [|l item lines items Ha H IH]; intros k sum Hs; cbn.
  { by rewrite sumZ_nil, Z.add_0_r. }
  rewrite sumZ_cons. intros Hb. rewrite tax_line_accepted by done. cbn.
  assert (forall item l, answered included l item -> 0 <= it_TaxAmount item) as Hpos.
  { intros item' l' [_ _ Hs' _]. apply (is_tax _ _ _ Hs'). }
  assert (0 <= sumZ (it_TaxAmount <$> items)).
  { apply sumZ_nonneg, Forall_fmap. clear -H Hpos. induction H; constructor; [by eapply Hpos|done]. }
  pose proof (Hpos _ _ Ha). change (list_fmap _ _ it_TaxAmount items) with (it_TaxAmount <$> items) in *.
  rewrite flow_addAmount_fits by lia. cbn. change (list_fmap _ _ toInteropItemTax items) with (toInteropItemTax <$> items).
  rewrite IH by lia. f_equal. lia.
Qed.

(** An answer of the tax surface has the widths of its Go types. *)
Definition response_int64 (resp : taxResponse) : Prop :=
  Forall (fun a => Forall (fun c => trc_TaxAmount c <= int64_max) (trl_Components a)) (tr_Items resp).

Lemma lines_answered snap productIDs facts sent r country shippingTotal :
  Forall (fun l => exists i, line_discounted i l) sent ->
  calculation_sound (mkCalculateTaxInput country EmptyString (taxableItems (tax_item snap productIDs facts <$> sent))
    (mkShippingInput EmptyString shippingTotal false)) r ->
  response_int64 (interop_taxes r) ->
  Forall2 (answered (TaxCalculate.cr_PricesIncludeTax r)) sent (TaxCalculate.cr_Items r).
Proof.
  intros Hl [Hids Hlines _ _ _ _] Hty. unfold response_int64 in Hty. cbn in Hty. rewrite Forall_fmap in Hty.
  cbn in Hids, Hlines. unfold taxableItems in Hids, Hlines. rewrite <- !list_fmap_compose in Hids.
  rewrite <- list_fmap_compose in Hlines. revert Hids Hlines Hty. generalize (TaxCalculate.cr_Items r).
  generalize (TaxCalculate.cr_PricesIncludeTax r). intros included.
  induction Hl as [|l sent Hl _ IH]; intros items Hids Hlines Hty; inversion Hlines as [|? item ? ? Hi Hrest]; subst.
  { constructor. }
  rewrite !fmap_cons in Hids. injection Hids as Hid Hids. apply Forall_cons in Hty as [Ht Hty].
  constructor; [|by apply IH]. split; [done|done|done|]. by apply (proj1 (Forall_fmap _ _ _)) in Ht.
Qed.

(** C16: what the tax module computes for a round, the round accepts. For lines as prices and discounts leave
    them, whatever provider the region names and whatever it answers: a result the module's service accepts
    passes every check of the round: the lines and their order, base and tax making the sent amount where
    prices include tax and the base being it otherwise, the tax within it, its components making it, nothing
    taxed on the shipping, and the total. The lines then carry that tax. *)
Theorem tax_answer_accepted {St} (s : TaxCalculate.Service St) (snap : Snapshot) (productIDs : gmap string string)
    (facts : facts_map) (sent : list CartFlow.LineTotals) (country : string) (shippingTotal : Z) (st : St)
    (resp : taxResponse) :
  (forall chain p i raw, providerFor s chain st = Ok p -> input_int64 i ->
     prov_Calculate p i = Ok raw -> answer_int64 raw) ->
  Forall (fun l => exists i, line_discounted i l) sent ->
  tax_CalculateTaxJSON s (mkTaxRequest country EmptyString (tax_item snap productIDs facts <$> sent)
    (mkTaxRequestShipping EmptyString shippingTotal false)) st = Ok (Document resp) -> response_int64 resp ->
  exists lines', applyTaxResponse snap sent resp = Ok lines' /\
    lt_TaxTotal <$> lines' = trl_TaxAmount <$> tr_Items resp /\
    tr_TaxTotal resp = sumZ (lt_TaxTotal <$> lines').
Proof.
  intros Hint Hl Hr Hty. unfold tax_CalculateTaxJSON in Hr. cbn in Hr.
  destruct (CalculateTax s _ st) as [r|] eqn:Ec; [|discriminate Hr]. injection Hr as <-.
  pose proof (CalculateTax_calculated s _ st r Hint Ec) as Hs.
  pose proof (lines_answered _ _ _ _ _ _ _ Hl Hs Hty) as Ha. destruct Hs as [_ _ Hship Htotal Hb _].
  assert (it_TaxAmount (TaxCalculate.cr_Shipping r) = 0) as Hz by (destruct (is_tax _ _ _ Hship); cbn in *; lia).
  pose proof (Forall2_length _ _ _ Ha) as Hlen.
  exists (zip_with (taxed_line (tr_PricesIncludeTax (interop_taxes r))) sent (tr_Items (interop_taxes r))).
  assert (lt_TaxTotal <$> zip_with (taxed_line (tr_PricesIncludeTax (interop_taxes r))) sent
    (tr_Items (interop_taxes r)) = trl_TaxAmount <$> tr_Items (interop_taxes r)) as Et.
  { cbn. clear -Hlen. revert Hlen. generalize (TaxCalculate.cr_Items r). induction sent as [|l sent IH]; intros [|i items] Hlen;
      try done. cbn. f_equal. apply IH. by injection Hlen. }
  split_and!; [|done|].
  - unfold applyTaxResponse. cbn [tr_Items interop_taxes tr_Shipping toInteropItemTax trl_TaxAmount tr_TaxTotal tr_PricesIncludeTax].
    rewrite length_fmap, <- Hlen, bool_decide_true by done. cbn [negb]. rewrite Hz. cbn [Z.eqb negb].
    rewrite tax_sum_accepts; [|done|done|]. 2: { rewrite Hz in Htotal. unfold MaxTaxableAmount in Hb. rewrite flow_MaxTotal. lia. }
    cbn [mbind result_bind]. rewrite Z.add_0_l, Htotal, Hz, Z.add_0_r, Z.eqb_refl. done.
  - rewrite Et. cbn. rewrite Htotal, Hz, <- list_fmap_compose. by rewrite Z.add_0_r.
Qed.

(** ** The rounds of a calculation *)

Lemma round_written {W} (w : Workflows W) same_fold channels id st st' t b :
  totalsRound w same_fold channels id st = (st', (Ok t, b)) ->
  exists st1, round_totals w same_fold channels id st = (st1, Ok t) /\
    SetCartTotalsJSON (wf_carts w) id t st1 = (st', Ok tt).
Proof.
  unfold totalsRound. destruct (round_totals _ _ _ _ st) as [st1 [t'|e]]; [|done].
  destruct (SetCartTotalsJSON _ _ _ st1) as [st2 [[]|e]] eqn:E; [|done]. intros [= <- <- <-]. by exists st1.
Qed.

(** C17: a calculation ends, after at most three rounds. Whatever the surfaces answer: it ends with the totals
    of the round whose write succeeded, or with the error of a round that failed in any other way than a
    write refused for a conflict, and every round before that one was such a write; when three rounds met
    one, it ends with a conflict of its own. *)
Theorem CalculateTotals_rounds {W} (w : Workflows W) (same_fold : list Z -> list Z -> bool)
    (channels : option (list string)) (id : string) (st st' : W) (r : result CartFlow.Totals) :
  CartFlow.requireID "cart_id" id = None -> CalculateTotals w same_fold channels id st = (st', r) ->
  (exists n st1 last st2 t, (n < MaxTotalsAttempts)%nat /\ stale_rounds w same_fold channels id n st st1 last /\
     round_totals w same_fold channels id st1 = (st2, Ok t) /\
     SetCartTotalsJSON (wf_carts w) id t st2 = (st', Ok tt) /\ r = Ok t) \/
  (exists n st1 last e, (n < MaxTotalsAttempts)%nat /\ stale_rounds w same_fold channels id n st st1 last /\
     totalsRound w same_fold channels id st1 = (st', (Fail e, false)) /\ r = Fail e) \/
  (exists met e, stale_rounds w same_fold channels id MaxTotalsAttempts st st' (Some met) /\
     IsConflict (Some met) = true /\ r = Fail e /\ KindOf e = KindConflict /\ CodeOf e = CodeTotalsConflict).
Proof.
  intros Hid E. unfold CalculateTotals, mbind, tx_bind, tx_check in E. rewrite Hid in E. cbn [mbind] in E.
  eapply (totals_rounds_spec w same_fold channels id MaxTotalsAttempts 0) in E; [|constructor].
  destruct E as [(n & st1 & last & t & b & Hn & Hs & Hr & ->)|[(n & st1 & last & e & Hn & Hs & Hr & ->)|(last & Hs & ->)]].
  - left. apply round_written in Hr as (st2 & ? & ?). exists n, st1, last, st2, t. split_and!; done || lia.
  - right. left. exists n, st1, last, e. split_and!; done || lia.
  - right. right. inversion Hs as [|? ? st1 ? ? met Hs' Hr']; subst. exists met. eexists. split; [exact Hs|].
    split; [by eapply stale_round_conflict|]. done.
Qed.

(** ** Witnesses *)

Module Priced.
Definition zero : CartFlow.Totals := zero_totals.

Definition totals : CartFlow.Totals := Eval vm_compute in
  match round_totals Desk.idle Desk.no_fold None "cart_a0" CartProps.Shop.shop with (_, Ok t) => t | _ => zero end.

Definition st1 : world := Eval vm_compute in
  (db_SetLineItemTotals CartMemory.memory_store "cart_a0" (storeLineTotals (CartTotals.to_Lines (interop_totals totals))) 20
    CartProps.Shop.shop).1.
Definition st2 : world := Eval vm_compute in
  (db_UpdateCartTotals CartMemory.memory_store "cart_a0" (cart_totals (interop_totals totals)) 20 st1).1.
End Priced.

Lemma desk_typed : tax_typed Desk.idle.
Proof. intros taxes req st st' resp E. discriminate E. Qed.

Lemma still_cart_is_priced_witness :
  CalculateTotals Desk.idle Desk.no_fold None "cart_a0" CartProps.Shop.shop = (Priced.st2, Ok Priced.totals) /\
  to_Total Priced.totals = 2016.
Proof.
  split; [|vm_compute; reflexivity].
  eapply (still_cart_is_priced CartMemory.memory (fun st => st) (fun _ => 20) (fun _ => CartProps.Shop.ids "z") (fun st => st)
    (fun st _ => st) Desk.idle Desk.no_fold None "cart_a0" Priced.totals CartProps.Shop.cart_a _ CartProps.Shop.shop
    CartProps.Shop.shop Priced.st1 Priced.st2 eq_refl desk_typed CartProps.Shop.shop_ok);
    try (vm_compute; reflexivity). repeat constructor.
Defined.

Module Sent.
Definition snap : Snapshot := Eval vm_compute in view_snapshot CartProps.Shop.cart_a.

(** Two shirts and their wraps, priced. *)
Definition line (id : string) (price subtotal discount : Z) : CartFlow.LineTotals :=
  CartFlow.mkLineTotals id price subtotal discount 0 0 [] 0 "price_1" None EmptyString.
Definition lines : list CartFlow.LineTotals := [line "li_a0" 1000 2000 0; line "li_ai0" 50 100 0].

Definition request : discountRequest := discountRequestWith snap lines None ∅ ∅.
Definition answer : RawMessage discountResponse := Eval vm_compute in
  match promotion_ComputeDiscountsJSON (fun _ => Ok None) PromotionProps.Shop.repo 5 request with
  | Ok raw => raw | Fail _ => NoBytes
  end.

(** The same lines discounted, and what the sample tax market answers for them. *)
Definition discounted : list CartFlow.LineTotals := [line "li_a0" 1000 2000 400; line "li_ai0" 50 100 20].
Definition tax_request : taxRequest :=
  mkTaxRequest "tr" EmptyString (tax_item snap ∅ None <$> discounted) (mkTaxRequestShipping EmptyString 300 false).
Definition taxed : taxResponse := Eval vm_compute in
  match tax_CalculateTaxJSON Market.service tax_request Market.st2 with
  | Ok (Document resp) => resp
  | _ => mkTaxResponse EmptyString false EmptyString false 0 [] (mkTaxResponseLine EmptyString EmptyString 0 0 0 [])
  end.
End Sent.

Lemma promotion_answer_accepted_witness : exists resp lines', Sent.answer = Document resp /\
  applyDiscountResponse Desk.no_fold Sent.snap Sent.lines resp = Ok lines' /\
  dr_DiscountTotal resp = 420.
Proof.
  destruct (promotion_answer_accepted (fun _ => Ok None) PromotionProps.Shop.repo 5 Desk.no_fold Sent.snap Sent.lines
    None ∅ ∅ Sent.answer) as (resp & lines' & Er & Ea & _).
  - repeat (constructor; [split; vm_compute; reflexivity || (split; discriminate)|]). constructor.
  - vm_compute. reflexivity.
  - vm_compute. reflexivity.
  - exists resp, lines'. split; [exact Er|]. split; [exact Ea|]. injection Er as <-. reflexivity.
Defined.

Lemma tax_answer_accepted_witness : exists lines',
  applyTaxResponse Sent.snap Sent.discounted Sent.taxed = Ok lines' /\
  tr_TaxTotal Sent.taxed = sumZ (lt_TaxTotal <$> lines') /\ 0 < tr_TaxTotal Sent.taxed.
Proof.
  destruct (tax_answer_accepted Market.service Sent.snap ∅ None Sent.discounted "tr" 300 Market.st2 Sent.taxed
    (market_typed Market.st2)) as (lines' & Ea & _ & Et).
  - constructor; [|constructor; [|constructor]].
    + exists (mkSnapshotItem "li_a0" "var_shirt" 2 ∅ ∅ EmptyString). split; vm_compute; reflexivity || (split; discriminate) || discriminate.
    + exists (mkSnapshotItem "li_ai0" "var_wrap" 2 ∅ ∅ EmptyString). split; vm_compute; reflexivity || (split; discriminate) || discriminate.
  - vm_compute. reflexivity.
  - unfold response_int64. repeat constructor; vm_compute; discriminate.
  - exists lines'. split; [exact Ea|]. split; [exact Et|]. vm_compute. reflexivity.
Defined.

Lemma CalculateTotals_rounds_witness : exists st' e,
  CalculateTotals Desk.crowded Desk.no_fold None "cart_a0" CartProps.Shop.shop = (st', Fail e) /\
  CodeOf e = CodeTotalsConflict /\
  ((exists n st1 last e', (n < MaxTotalsAttempts)%nat /\
     stale_rounds Desk.crowded Desk.no_fold None "cart_a0" n CartProps.Shop.shop st1 last /\
     totalsRound Desk.crowded Desk.no_fold None "cart_a0" st1 = (st', (Fail e', false)) /\ e = e') \/
   exists met, stale_rounds Desk.crowded Desk.no_fold None "cart_a0" MaxTotalsAttempts CartProps.Shop.shop st' (Some met) /\
     IsConflict (Some met) = true).
Proof.
  destruct (run_fail (CalculateTotals Desk.crowded Desk.no_fold None "cart_a0") CartProps.Shop.shop)
    as (st' & e & E); [vm_compute; reflexivity|].
  assert (CodeOf e = CodeTotalsConflict) as Hc.
  { assert (match (CalculateTotals Desk.crowded Desk.no_fold None "cart_a0" CartProps.Shop.shop).2 with
      | Fail e => CodeOf e | Ok _ => EmptyString end = CodeTotalsConflict) as Ev by (vm_compute; reflexivity).
    rewrite E in Ev. exact Ev. }
  exists st', e. split; [exact E|]. split; [exact Hc|].
  destruct (CalculateTotals_rounds Desk.crowded Desk.no_fold None "cart_a0" CartProps.Shop.shop st' (Fail e) eq_refl E)
    as [(n & st1 & last & st2 & t & _ & _ & _ & _ & H)|[(n & st1 & last & e' & Hn & Hs & Hr & H)|(met & e' & Hs & Hm & _)]].
  - discriminate H.
  - left. exists n, st1, last, e'. injection H as ->. auto.
  - right. exists met. auto.
Defined.
