(* ===== verification/InventoryModels.v ===== *)
(** * Inventory data and checks

    [internal/modules/inventory/models/*.go] and the input checks of
    [internal/modules/inventory/service/service.go]. The Go types of statuses, purposes and reasons
    are strings, and the code answers for the strings it does not know. *)
From S2P Require Import Prelude GoText Errors Identifiers.
Set Warnings "-level-tolerance".

(** ** Statuses, purposes and reasons *)

Abbreviation ReservationStatus := string (only parsing).
Definition ReservationActive : ReservationStatus := "active".
Definition ReservationReleased : ReservationStatus := "released".
Definition ReservationConfirmed : ReservationStatus := "confirmed".

Abbreviation ReservationPurpose := string (only parsing).
Definition PurposeSale : ReservationPurpose := "sale".
Definition PurposeReplacement : ReservationPurpose := "replacement".

Definition ReservationPurpose_Valid (p : ReservationPurpose) : bool :=
  Contains [PurposeSale; PurposeReplacement] p.

Abbreviation MovementReason := string (only parsing).
Definition MovementStockCount : MovementReason := "stock_count".
Definition MovementAdjustment : MovementReason := "adjustment".
Definition MovementSale : MovementReason := "sale".
Definition MovementReturnRestock : MovementReason := "return_restock".
Definition MovementReplacement : MovementReason := "replacement".
Definition MovementCancellation : MovementReason := "cancellation".
Definition MovementSupplierReceipt : MovementReason := "supplier_receipt".

Definition MovementReason_Valid (r : MovementReason) : bool :=
  Contains [MovementStockCount; MovementAdjustment; MovementSale; MovementReturnRestock;
    MovementReplacement; MovementCancellation; MovementSupplierReceipt] r.

Definition CarriesAReference (r : MovementReason) : bool :=
  bool_decide (r = MovementSale) || bool_decide (r = MovementCancellation) ||
  bool_decide (r = MovementSupplierReceipt).

Definition LeavesAgainstAPromise (r : MovementReason) : bool :=
  bool_decide (r = MovementSale) || bool_decide (r = MovementReplacement).

(** The reason a promise's units leave for. *)
Definition ReservationPurpose_MovementReason (p : ReservationPurpose) : MovementReason :=
  if bool_decide (p = PurposeReplacement) then MovementReplacement else MovementSale.

Definition ErrMovementAlreadyRecorded : err :=
  Sentinel "inventory: that movement is already in the ledger".

Abbreviation BackorderStatus := string (only parsing).
Definition BackorderWaiting : BackorderStatus := "waiting".
Definition BackorderFilled : BackorderStatus := "filled".
Definition BackorderWithdrawn : BackorderStatus := "withdrawn".

Definition BackorderStatus_Valid (s : BackorderStatus) : bool :=
  Contains [BackorderWaiting; BackorderFilled; BackorderWithdrawn] s.

Abbreviation SupplierReceiptStatus := string (only parsing).
Definition SupplierReceiptExpected : SupplierReceiptStatus := "expected".
Definition SupplierReceiptReceived : SupplierReceiptStatus := "received".
Definition SupplierReceiptCanceled : SupplierReceiptStatus := "canceled".

Definition SupplierReceiptStatus_Valid (s : SupplierReceiptStatus) : bool :=
  Contains [SupplierReceiptExpected; SupplierReceiptReceived; SupplierReceiptCanceled] s.

(** ** Rows *)

Record StockLocation := mkStockLocation {
  sl_ID : string;
  sl_Name : string;
  sl_Address1 : string;
  sl_Address2 : string;
  sl_City : string;
  sl_Province : string;
  sl_PostalCode : string;
  sl_CountryCode : string;
  sl_CreatedAt : moment;
  sl_UpdatedAt : moment;
  sl_ClosedAt : option moment
}.

Definition Closed (l : StockLocation) : bool := bool_decide (is_Some (sl_ClosedAt l)).

Record InventoryItem := mkInventoryItem {
  it_ID : string;
  it_SKU : string;
  it_Title : string;
  it_Description : string;
  it_RequiresShipping : bool;
  it_CreatedAt : moment;
  it_UpdatedAt : moment
}.

Record InventoryLevel := mkInventoryLevel {
  lv_ID : string;
  lv_InventoryItemID : string;
  lv_LocationID : string;
  lv_StockedQuantity : Z;
  lv_ReservedQuantity : Z;
  lv_CreatedAt : moment;
  lv_UpdatedAt : moment
}.

Definition Available (l : InventoryLevel) : Z := lv_StockedQuantity l -₆₄ lv_ReservedQuantity l.

Record Reservation := mkReservation {
  rs_ID : string;
  rs_InventoryItemID : string;
  rs_LocationID : string;
  rs_Quantity : Z;
  rs_LineItemID : string;
  rs_Description : string;
  rs_Purpose : ReservationPurpose;
  rs_Status : ReservationStatus;
  rs_CreatedAt : moment;
  rs_UpdatedAt : moment
}.

Record Movement := mkMovement {
  mv_ID : string;
  mv_InventoryItemID : string;
  mv_LocationID : string;
  mv_ReservationID : string;
  mv_Reason : MovementReason;
  mv_Reference : string;
  mv_LineItemID : string;
  mv_Delta : Z;
  mv_StockedAfter : Z;
  mv_CreatedAt : moment
}.

Record Backorder := mkBackorder {
  bo_ID : string;
  bo_InventoryItemID : string;
  bo_OrderID : string;
  bo_OrderLineItemID : string;
  bo_Quantity : Z;
  bo_WithdrawnQuantity : Z;
  bo_LocationIDs : list string;
  bo_Status : BackorderStatus;
  bo_ReservationID : string;
  bo_FilledLocationID : string;
  bo_Seq : Z;
  bo_CreatedAt : moment;
  bo_UpdatedAt : moment
}.

Definition Owed (b : Backorder) : Z := bo_Quantity b -₆₄ bo_WithdrawnQuantity b.

Definition Undeducted (b : Backorder) : Z :=
  if bool_decide (bo_Status b = BackorderFilled) then bo_WithdrawnQuantity b else bo_Quantity b.

Record SupplierReceipt := mkSupplierReceipt {
  sr_ID : string;
  sr_InventoryItemID : string;
  sr_LocationID : string;
  sr_Quantity : Z;
  sr_ExpectedAt : moment;
  sr_Reference : string;
  sr_Status : SupplierReceiptStatus;
  sr_ReceivedQuantity : Z;
  sr_ReceivedAt : option moment;
  sr_CanceledAt : option moment;
  sr_CreatedAt : moment;
  sr_UpdatedAt : moment
}.

(** ** Identifiers: [models/ids.go] *)

Definition StockLocationIDPrefix : string := "sloc_".
Definition InventoryItemIDPrefix : string := "invitem_".
Definition InventoryLevelIDPrefix : string := "invlevel_".
Definition ReservationIDPrefix : string := "invres_".
Definition MovementIDPrefix : string := "invmov_".
Definition BackorderIDPrefix : string := "invbo_".
Definition SupplierReceiptIDPrefix : string := "invsup_".

Definition NewStockLocationID (s : seed) : string := newID StockLocationIDPrefix s.
Definition NewInventoryItemID (s : seed) : string := newID InventoryItemIDPrefix s.
Definition NewInventoryLevelID (s : seed) : string := newID InventoryLevelIDPrefix s.
Definition NewReservationID (s : seed) : string := newID ReservationIDPrefix s.
Definition NewMovementID (s : seed) : string := newID MovementIDPrefix s.
Definition NewBackorderID (s : seed) : string := newID BackorderIDPrefix s.
Definition NewSupplierReceiptID (s : seed) : string := newID SupplierReceiptIDPrefix s.

(** ** Codes and checks: [service/service.go] *)

Definition CodeInvalidInput : string := "inventory_invalid_input".
Definition CodeInsufficientStock : string := "inventory_insufficient_stock".
Definition CodeStockMoved : string := "inventory_stock_moved".
Definition CodeReservationNotActive : string := "inventory_reservation_not_active".
Definition CodeItemHasReservations : string := "inventory_item_has_reservations".
Definition CodeLocationNotEmpty : string := "inventory_location_not_empty".
Definition CodeLocationClosed : string := "inventory_location_closed".
Definition CodeItemOwesOrders : string := "inventory_item_owes_orders".
Definition CodeBackorderMismatch : string := "inventory_backorder_mismatch".
Definition CodeItemExpectsUnits : string := "inventory_item_expects_units".
Definition CodeSupplierReceiptNotExpected : string := "inventory_supplier_receipt_not_expected".
Definition CodeInconsistentState : string := "inventory_inconsistent_state".
Definition codeSupplierReceiptNotFound : string := "inventory_supplier_receipt_not_found".

Definition DefaultLimit : Z := 50.
Definition MaxLimit : Z := 100.
Definition maxTextLen : Z := 512.

Record Page := mkPage { pg_Limit : Z; pg_Offset : Z }.

Definition normalize (p : Page) : result Page :=
  if pg_Limit p <? 0 then
    Fail (Invalid CodeInvalidInput "the limit cannot be negative: %d" [AInt (pg_Limit p)])
  else if pg_Offset p <? 0 then
    Fail (Invalid CodeInvalidInput "the offset cannot be negative: %d" [AInt (pg_Offset p)])
  else if MaxLimit <? pg_Limit p then
    Fail (Invalid CodeInvalidInput "the limit can be at most %d: %d" [AInt MaxLimit; AInt (pg_Limit p)])
  else if pg_Limit p =? 0 then Ok (mkPage DefaultLimit (pg_Offset p))
  else Ok p.

Definition checkTextLen (label value : string) : option err :=
  if maxTextLen <? len value then
    Some (Invalid CodeInvalidInput "%s can be at most %d bytes: %d"
      [AStr label; AInt maxTextLen; AInt (len value)])
  else None.

Definition requireText (label value : string) : option err :=
  if bool_decide (value = EmptyString) then
    Some (Invalid CodeInvalidInput "%s cannot be empty" [AStr label])
  else checkTextLen label value.

Definition requireIDs (itemID locationID : string) : option err :=
  match requireText "inventory_item_id" itemID with
  | Some e => Some e
  | None => requireText "location_id" locationID
  end.

(** [if b { return errors.X(...) }]. *)
Definition refuse (b : bool) (e : err) : option err := if b then Some e else None.

Definition addQuantity (current delta : Z) : result Z :=
  if (0 <? delta) && (int64_max -₆₄ delta <? current) then
    Fail (Invalid CodeInvalidInput "quantity overflow: %d + %d exceeds the int64 limit"
      [AInt current; AInt delta])
  else Ok (current +₆₄ delta).

Definition stockUnmoved (read : option Z) (current : Z) (locationID : string) : option err :=
  match read with
  | None => None
  | Some r =>
      refuse (negb (r =? current)) (Conflict CodeStockMoved
        "the physical count at %s is %d, not the %d the form was drawn with; nothing was saved, so look again and count from what is there"
        [AStr locationID; AInt current; AInt r])
  end.

Definition receivedAlready (receipt : SupplierReceipt) (quantity : Z) : option err :=
  if bool_decide (sr_Status receipt = SupplierReceiptReceived) && (sr_ReceivedQuantity receipt =? quantity)
  then None
  else if bool_decide (sr_Status receipt = SupplierReceiptCanceled) then
    Some (Conflict CodeSupplierReceiptNotExpected
      "supplier receipt %s was canceled; units that arrived anyway are a new receipt" [AStr (sr_ID receipt)])
  else Some (Conflict CodeSupplierReceiptNotExpected
    "supplier receipt %s was received with %d units, not %d; a miscount is corrected by an adjustment and units still owed are a new receipt"
    [AStr (sr_ID receipt); AInt (sr_ReceivedQuantity receipt); AInt quantity]).

Definition canceledAlready (receipt : SupplierReceipt) : option err :=
  if bool_decide (sr_Status receipt = SupplierReceiptCanceled) then None
  else Some (Conflict CodeSupplierReceiptNotExpected
    "supplier receipt %s was received; its units are in the ledger and are corrected by an adjustment, not a cancel"
    [AStr (sr_ID receipt)]).

(** ** Facts *)

Lemma refuse_None b e : refuse b e = None -> b = false.
Proof. by destruct b. Qed.

(** What the guards that let a body through said, as propositions. *)
Ltac allowed :=
  repeat match goal with H : refuse _ _ = None |- _ => apply refuse_None in H end;
  reflect_bools.

Lemma addQuantity_Ok current delta q : in_int64 current -> in_int64 delta -> addQuantity current delta = Ok q ->
  (delta <= 0 -> int64_min <= current + delta) -> q = current + delta /\ current + delta <= int64_max.
Proof.
  unfold addQuantity. intros Hc Hd. destruct (Z.ltb_spec 0 delta) as [H|H]; cbn [andb].
  - rewrite sub64_exact by in64. destruct (Z.ltb_spec (int64_max - delta) current); [done|].
    intros [= <-] _. rewrite add64_exact by in64. lia.
  - intros [= <-] Hm. rewrite add64_exact by in64. in64.
Qed.

(** * The inventory's store: [internal/modules/inventory/service/store.go]

    What the service asks of its store. [St] is the state of the database; a statement that fails
    answers the database's error. The moments a row carries come from the database's clock, so they
    are the store's. Locks are not state here: a [Lock...] call is the read of the row it locks, and
    the transactions that share rows follow one another, as the row locks make them. *)

Record MovementFilter := mkMovementFilter {
  mf_InventoryItemID : string;
  mf_LocationID : string;
  mf_After : moment * string;
  mf_Limit : Z
}.

Record InventoryItemFilter := mkInventoryItemFilter {
  if_SKU : option string;
  if_RequiresShipping : option bool;
  if_Limit : Z;
  if_Offset : Z
}.

(** [BackorderFilter] and [SupplierReceiptFilter] have the same fields. *)
Record StatusFilter := mkStatusFilter {
  sf_InventoryItemID : string;
  sf_Status : string;
  sf_Limit : Z;
  sf_Offset : Z
}.

Record Store (St : Type) := mkStore {
  db_Commit : St -> option err;
  db_CreateStockLocation : StockLocation -> St -> St * result StockLocation;
  db_GetStockLocation : string -> St -> result StockLocation;
  db_ListStockLocations : Z -> Z -> bool -> St -> result (list StockLocation * Z);
  db_LockStockLocation : string -> St -> result StockLocation;
  db_LockStockLocationShared : string -> St -> result StockLocation;
  db_CloseStockLocation : string -> St -> St * result StockLocation;
  db_StockHeldAtLocation : string -> St -> result (Z * Z);
  db_CountActiveReservationsAtLocation : string -> St -> result Z;
  db_CreateInventoryItem : InventoryItem -> St -> St * result InventoryItem;
  db_GetInventoryItem : string -> St -> result InventoryItem;
  db_LockInventoryItem : string -> St -> option err;
  db_LockInventoryItemShared : string -> St -> option err;
  db_ListInventoryItems : InventoryItemFilter -> St -> result (list InventoryItem * Z);
  db_InventoryItemsByIDs : list string -> St -> result (list InventoryItem);
  db_SoftDeleteInventoryItem : string -> St -> St * option err;
  db_SoftDeleteInventoryLevelsByItem : string -> St -> St * option err;
  db_LockInventoryLevel : string -> string -> St -> result InventoryLevel;
  db_CreateInventoryLevel : InventoryLevel -> St -> St * result InventoryLevel;
  db_UpdateInventoryLevelQuantities : string -> Z -> Z -> St -> St * result InventoryLevel;
  db_ListInventoryLevels : string -> St -> result (list InventoryLevel);
  db_AvailableByItemIDs : list string -> St -> result (gmap string Z);
  db_AvailableByItemLocation : list string -> St -> result (gmap string (gmap string Z));
  db_CreateReservation : Reservation -> St -> St * result Reservation;
  db_LockReservation : string -> St -> result Reservation;
  db_GetReservation : string -> St -> result Reservation;
  db_SetReservationStatus : string -> ReservationStatus -> St -> St * option err;
  db_CountActiveReservations : string -> St -> result Z;
  db_AppendMovement : Movement -> St -> St * result Movement;
  db_ReturnedForLine : string -> string -> St -> result Z;
  db_CancellationRecorded : string -> St -> result bool;
  db_SaleLocations : string -> St -> result (gmap string string);
  db_ListMovements : MovementFilter -> St -> result (list Movement);
  db_CreateBackorder : Backorder -> St -> St * result (Backorder * bool);
  db_GetBackorderOfLine : string -> string -> St -> result Backorder;
  db_LockBackordersOfLine : string -> St -> result (list Backorder);
  db_LockWaitingBackordersAt : string -> string -> Z -> St -> result (list Backorder);
  db_FillBackorder : string -> string -> string -> St -> St * result Z;
  db_WithdrawBackorder : string -> Z -> BackorderStatus -> St -> St * result Backorder;
  db_CountWaitingBackorders : string -> St -> result Z;
  db_ListBackorders : StatusFilter -> St -> result (list Backorder * Z);
  db_OpenStockLocationIDs : St -> result (list string);
  db_CreateSupplierReceipt : SupplierReceipt -> St -> St * result SupplierReceipt;
  db_GetSupplierReceipt : string -> St -> result SupplierReceipt;
  db_LockSupplierReceipt : string -> St -> result SupplierReceipt;
  db_ReceiveSupplierReceipt : string -> St -> St * result Z;
  db_CancelSupplierReceipt : string -> St -> St * result Z;
  db_ListSupplierReceipts : StatusFilter -> St -> result (list SupplierReceipt * Z);
  db_CountExpectedSupplierReceipts : string -> St -> result Z;
  db_CountExpectedSupplierReceiptsAtLocation : string -> St -> result Z;
  db_ExpectedSupplierReceiptsOfItems : list string -> St -> result (list SupplierReceipt);
  db_WaitingBackordersOfItems : list string -> St -> result (list Backorder)
}.

Arguments db_Commit {St}.
Arguments db_CreateStockLocation {St}.
Arguments db_GetStockLocation {St}.
Arguments db_ListStockLocations {St}.
Arguments db_LockStockLocation {St}.
Arguments db_LockStockLocationShared {St}.
Arguments db_CloseStockLocation {St}.
Arguments db_StockHeldAtLocation {St}.
Arguments db_CountActiveReservationsAtLocation {St}.
Arguments db_CreateInventoryItem {St}.
Arguments db_GetInventoryItem {St}.
Arguments db_LockInventoryItem {St}.
Arguments db_LockInventoryItemShared {St}.
Arguments db_ListInventoryItems {St}.
Arguments db_InventoryItemsByIDs {St}.
Arguments db_SoftDeleteInventoryItem {St}.
Arguments db_SoftDeleteInventoryLevelsByItem {St}.
Arguments db_LockInventoryLevel {St}.
Arguments db_CreateInventoryLevel {St}.
Arguments db_UpdateInventoryLevelQuantities {St}.
Arguments db_ListInventoryLevels {St}.
Arguments db_AvailableByItemIDs {St}.
Arguments db_AvailableByItemLocation {St}.
Arguments db_CreateReservation {St}.
Arguments db_LockReservation {St}.
Arguments db_GetReservation {St}.
Arguments db_SetReservationStatus {St}.
Arguments db_CountActiveReservations {St}.
Arguments db_AppendMovement {St}.
Arguments db_ReturnedForLine {St}.
Arguments db_CancellationRecorded {St}.
Arguments db_SaleLocations {St}.
Arguments db_ListMovements {St}.
Arguments db_CreateBackorder {St}.
Arguments db_GetBackorderOfLine {St}.
Arguments db_LockBackordersOfLine {St}.
Arguments db_LockWaitingBackordersAt {St}.
Arguments db_FillBackorder {St}.
Arguments db_WithdrawBackorder {St}.
Arguments db_CountWaitingBackorders {St}.
Arguments db_ListBackorders {St}.
Arguments db_OpenStockLocationIDs {St}.
Arguments db_CreateSupplierReceipt {St}.
Arguments db_GetSupplierReceipt {St}.
Arguments db_LockSupplierReceipt {St}.
Arguments db_ReceiveSupplierReceipt {St}.
Arguments db_CancelSupplierReceipt {St}.
Arguments db_ListSupplierReceipts {St}.
Arguments db_CountExpectedSupplierReceipts {St}.
Arguments db_CountExpectedSupplierReceiptsAtLocation {St}.
Arguments db_ExpectedSupplierReceiptsOfItems {St}.
Arguments db_WaitingBackordersOfItems {St}.

(** ** What the tables show *)

(** The rows by primary key. Items and levels are the living ones; [wh_retired] are the keys of the
    items that were deleted, which no new row may take. The ledger is in the order of its writes. *)
Record Warehouse := mkWarehouse {
  wh_locations : gmap string StockLocation;
  wh_items : gmap string InventoryItem;
  wh_retired : gset string;
  wh_levels : gmap string InventoryLevel;
  wh_reservations : gmap string Reservation;
  wh_movements : list Movement;
  wh_backorders : gmap string Backorder;
  wh_receipts : gmap string SupplierReceipt
}.

Definition on_locations (f : gmap string StockLocation -> gmap string StockLocation) (w : Warehouse) : Warehouse :=
  mkWarehouse (f (wh_locations w)) (wh_items w) (wh_retired w) (wh_levels w)
    (wh_reservations w) (wh_movements w) (wh_backorders w) (wh_receipts w).

Definition on_items (f : gmap string InventoryItem -> gmap string InventoryItem) (w : Warehouse) : Warehouse :=
  mkWarehouse (wh_locations w) (f (wh_items w)) (wh_retired w) (wh_levels w)
    (wh_reservations w) (wh_movements w) (wh_backorders w) (wh_receipts w).

Definition on_levels (f : gmap string InventoryLevel -> gmap string InventoryLevel) (w : Warehouse) : Warehouse :=
  mkWarehouse (wh_locations w) (wh_items w) (wh_retired w) (f (wh_levels w))
    (wh_reservations w) (wh_movements w) (wh_backorders w) (wh_receipts w).

Definition on_reservations (f : gmap string Reservation -> gmap string Reservation) (w : Warehouse) : Warehouse :=
  mkWarehouse (wh_locations w) (wh_items w) (wh_retired w) (wh_levels w)
    (f (wh_reservations w)) (wh_movements w) (wh_backorders w) (wh_receipts w).

Definition on_movements (f : list Movement -> list Movement) (w : Warehouse) : Warehouse :=
  mkWarehouse (wh_locations w) (wh_items w) (wh_retired w) (wh_levels w)
    (wh_reservations w) (f (wh_movements w)) (wh_backorders w) (wh_receipts w).

Definition on_backorders (f : gmap string Backorder -> gmap string Backorder) (w : Warehouse) : Warehouse :=
  mkWarehouse (wh_locations w) (wh_items w) (wh_retired w) (wh_levels w)
    (wh_reservations w) (wh_movements w) (f (wh_backorders w)) (wh_receipts w).

Definition on_receipts (f : gmap string SupplierReceipt -> gmap string SupplierReceipt) (w : Warehouse) : Warehouse :=
  mkWarehouse (wh_locations w) (wh_items w) (wh_retired w) (wh_levels w)
    (wh_reservations w) (wh_movements w) (wh_backorders w) (f (wh_receipts w)).

(** An item goes and its key stays taken. *)
Definition retire_item (id : string) (w : Warehouse) : Warehouse :=
  mkWarehouse (wh_locations w) (delete id (wh_items w)) ({[id]} ∪ wh_retired w) (wh_levels w)
    (wh_reservations w) (wh_movements w) (wh_backorders w) (wh_receipts w).

(** ** The statements' effects on rows: [internal/modules/inventory/queries/*.sql] *)

Definition new_location (t : moment) (l : StockLocation) : StockLocation :=
  mkStockLocation (sl_ID l) (sl_Name l) (sl_Address1 l) (sl_Address2 l) (sl_City l) (sl_Province l)
    (sl_PostalCode l) (sl_CountryCode l) t t None.

Definition closed_location (t : moment) (l : StockLocation) : StockLocation :=
  mkStockLocation (sl_ID l) (sl_Name l) (sl_Address1 l) (sl_Address2 l) (sl_City l) (sl_Province l)
    (sl_PostalCode l) (sl_CountryCode l) (sl_CreatedAt l) t (Some t).

Definition new_item (t : moment) (i : InventoryItem) : InventoryItem :=
  mkInventoryItem (it_ID i) (it_SKU i) (it_Title i) (it_Description i) (it_RequiresShipping i) t t.

Definition new_level (t : moment) (l : InventoryLevel) : InventoryLevel :=
  mkInventoryLevel (lv_ID l) (lv_InventoryItemID l) (lv_LocationID l) (lv_StockedQuantity l)
    (lv_ReservedQuantity l) t t.

Definition with_quantities (stocked reserved : Z) (t : moment) (l : InventoryLevel) : InventoryLevel :=
  mkInventoryLevel (lv_ID l) (lv_InventoryItemID l) (lv_LocationID l) stocked reserved
    (lv_CreatedAt l) t.

Definition new_reservation (t : moment) (r : Reservation) : Reservation :=
  mkReservation (rs_ID r) (rs_InventoryItemID r) (rs_LocationID r) (rs_Quantity r) (rs_LineItemID r)
    (rs_Description r) (rs_Purpose r) (rs_Status r) t t.

Definition with_status (status : ReservationStatus) (t : moment) (r : Reservation) : Reservation :=
  mkReservation (rs_ID r) (rs_InventoryItemID r) (rs_LocationID r) (rs_Quantity r) (rs_LineItemID r)
    (rs_Description r) (rs_Purpose r) status (rs_CreatedAt r) t.

Definition new_backorder (seq : Z) (t : moment) (b : Backorder) : Backorder :=
  mkBackorder (bo_ID b) (bo_InventoryItemID b) (bo_OrderID b) (bo_OrderLineItemID b) (bo_Quantity b) 0
    (bo_LocationIDs b) BackorderWaiting EmptyString EmptyString seq t t.

Definition filled_backorder (reservationID locationID : string) (t : moment) (b : Backorder) : Backorder :=
  mkBackorder (bo_ID b) (bo_InventoryItemID b) (bo_OrderID b) (bo_OrderLineItemID b) (bo_Quantity b)
    (bo_WithdrawnQuantity b) (bo_LocationIDs b) BackorderFilled reservationID locationID (bo_Seq b)
    (bo_CreatedAt b) t.

Definition withdrawn_backorder (withdrawn : Z) (status : BackorderStatus) (t : moment) (b : Backorder) :
    Backorder :=
  mkBackorder (bo_ID b) (bo_InventoryItemID b) (bo_OrderID b) (bo_OrderLineItemID b) (bo_Quantity b)
    withdrawn (bo_LocationIDs b) status (bo_ReservationID b) (bo_FilledLocationID b) (bo_Seq b)
    (bo_CreatedAt b) t.

Definition new_receipt (t : moment) (r : SupplierReceipt) : SupplierReceipt :=
  mkSupplierReceipt (sr_ID r) (sr_InventoryItemID r) (sr_LocationID r) (sr_Quantity r)
    (sr_ExpectedAt r) (sr_Reference r) SupplierReceiptExpected 0 None None t t.

(** A receipt closed by the movement that names it. *)
Definition received_receipt (m : Movement) (r : SupplierReceipt) : SupplierReceipt :=
  mkSupplierReceipt (sr_ID r) (sr_InventoryItemID r) (sr_LocationID r) (sr_Quantity r)
    (sr_ExpectedAt r) (sr_Reference r) SupplierReceiptReceived (mv_Delta m) (Some (mv_CreatedAt m))
    (sr_CanceledAt r) (sr_CreatedAt r) (mv_CreatedAt m).

Definition canceled_receipt (t : moment) (r : SupplierReceipt) : SupplierReceipt :=
  mkSupplierReceipt (sr_ID r) (sr_InventoryItemID r) (sr_LocationID r) (sr_Quantity r)
    (sr_ExpectedAt r) (sr_Reference r) SupplierReceiptCanceled (sr_ReceivedQuantity r)
    (sr_ReceivedAt r) (Some t) (sr_CreatedAt r) t.

(** ** What the statements select *)

Definition at_shelf (item location : string) (l : InventoryLevel) : Prop :=
  lv_InventoryItemID l = item /\ lv_LocationID l = location.

Definition active_at_location (location : string) (r : Reservation) : Prop :=
  rs_LocationID r = location /\ rs_Status r = ReservationActive.

Definition active_of_item (item : string) (r : Reservation) : Prop :=
  rs_InventoryItemID r = item /\ rs_Status r = ReservationActive.

Definition waiting_of_item (item : string) (b : Backorder) : Prop :=
  bo_InventoryItemID b = item /\ bo_Status b = BackorderWaiting.

(** A claim that waits at a shelf and can be completed with [available] units. *)
Definition fits_at (item location : string) (available : Z) (b : Backorder) : Prop :=
  waiting_of_item item b /\ location ∈ bo_LocationIDs b /\
  bo_Quantity b - bo_WithdrawnQuantity b <= available.

Definition expected_of_item (item : string) (r : SupplierReceipt) : Prop :=
  sr_InventoryItemID r = item /\ sr_Status r = SupplierReceiptExpected.

Definition expected_at_location (location : string) (r : SupplierReceipt) : Prop :=
  sr_LocationID r = location /\ sr_Status r = SupplierReceiptExpected.

(** A cancellation that put units of a line back. *)
Definition put_back (item line : string) (m : Movement) : Prop :=
  mv_Reason m = MovementCancellation /\ mv_LineItemID m = line /\ mv_InventoryItemID m = item.

Definition cancellation_of (reference : string) (m : Movement) : Prop :=
  mv_Reason m = MovementCancellation /\ mv_Reference m = reference.

Definition receipt_movement (receipt : string) (m : Movement) : Prop :=
  mv_Reason m = MovementSupplierReceipt /\ mv_Reference m = receipt.

#[export] Instance at_shelf_dec item location l : Decision (at_shelf item location l).
Proof. unfold at_shelf. apply _. Defined.

#[export] Instance active_at_location_dec location r : Decision (active_at_location location r).
Proof. unfold active_at_location. apply _. Defined.

#[export] Instance active_of_item_dec item r : Decision (active_of_item item r).
Proof. unfold active_of_item. apply _. Defined.

#[export] Instance waiting_of_item_dec item b : Decision (waiting_of_item item b).
Proof. unfold waiting_of_item. apply _. Defined.

#[export] Instance fits_at_dec item location available b : Decision (fits_at item location available b).
Proof. unfold fits_at. apply _. Defined.

#[export] Instance expected_of_item_dec item r : Decision (expected_of_item item r).
Proof. unfold expected_of_item. apply _. Defined.

#[export] Instance expected_at_location_dec location r : Decision (expected_at_location location r).
Proof. unfold expected_at_location. apply _. Defined.

#[export] Instance put_back_dec item line m : Decision (put_back item line m).
Proof. unfold put_back. apply _. Defined.

#[export] Instance cancellation_of_dec reference m : Decision (cancellation_of reference m).
Proof. unfold cancellation_of. apply _. Defined.

#[export] Instance receipt_movement_dec receipt m : Decision (receipt_movement receipt m).
Proof. unfold receipt_movement. apply _. Defined.

#[global] Typeclasses Opaque at_shelf active_at_location active_of_item waiting_of_item fits_at
  expected_of_item expected_at_location put_back cancellation_of receipt_movement.
