(* ===== verification/InventoryService.v ===== *)
(** * The inventory service: [internal/modules/inventory/service/*.go]

    Every operation that reads or changes the stock, over any store. An operation takes the state and
    gives the state after it with what Go returns; a closure's captured variables are what the model's
    body returns. The seeds of the identifiers an operation draws are named by where it draws them
    ([seeds]).

    [writeQuantities], [fillWaiting] and [deductHeld] call one another: a write that raises what is
    sellable fills the claims that wait, and a fill writes. They are written over the write they nest
    ([write_with], [fill_with], [deduct_with]) and tied with a bound on the nesting. *)
From S2P Require Import Prelude GoText Errors Tx Identifiers Database InventoryModels.

Definition seeds := list nat -> seed.

(** What the [n]-th inner call draws. *)
Definition inner (n : nat) (g : seeds) : seeds := fun path => g (n :: path).

Definition depth : nat := 2.

Definition too_deep : err := Sentinel "the writes nest too deep".

(** A read whose "not found" the caller handles. *)
Definition tx_find {St A} (f : St -> result A) : tx St (option A) := tx_read (fun st =>
  match f st with
  | Ok a => Ok (Some a)
  | Fail e => if HasKind (Some e) KindNotFound then Ok None else Fail e
  end).

(** A computation whose error the caller looks at. *)
Definition tx_try {St A} (m : tx St A) : tx St (result A) := fun st => ((m st).1, Ok (m st).2).

(** [if err := lock(); err != nil { return err }]. *)
Definition tx_lock {St} (f : St -> option err) : tx St unit :=
  tx_read (fun st => match f st with Some e => Fail e | None => Ok tt end).

Section Operations.
Context {St : Type} (db : Store St).

Definition WithTx {A} (m : tx St A) : tx St A := atomically (db_Commit db) m.

Definition requireOpenLocation (locationID : string) : tx St unit :=
  location ← tx_read (db_LockStockLocationShared db locationID);
  tx_check (refuse (Closed location) (Conflict CodeLocationClosed
    "the location is closed and takes no stock (%s)" [AStr locationID])).

(** ** Writes: [movements.go], [backorder.go], [stock.go] *)

Definition recordMovement (g : seeds) (level : InventoryLevel) (delta : Z) (reason : MovementReason)
    (reservationID reference lineItemID : string) : tx St unit :=
  if delta =? 0 then mret tt
  else
    tx_check (refuse (negb (MovementReason_Valid reason)) (Internal CodeInconsistentState
      "the physical count of level %s changed by %d with no reason to record; every change to stocked_quantity is explained by a movement (ADR 0068)"
      [AStr (lv_ID level); AInt delta])) ;;
    tx_check (refuse (negb (Bool.eqb (negb (bool_decide (reservationID = EmptyString)))
        (LeavesAgainstAPromise reason))) (Internal CodeInconsistentState
      "a %q movement carries reservation %q; a reservation is named by the reasons that take units out against one, and by nothing else"
      [AStr reason; AStr reservationID])) ;;
    tx_check (refuse (negb (Bool.eqb (negb (bool_decide (reference = EmptyString)))
        (CarriesAReference reason))) (Internal CodeInconsistentState
      "a %q movement carries reference %q; a reference is named by the reasons that have something to point at, and by nothing else"
      [AStr reason; AStr reference])) ;;
    db_AppendMovement db (mkMovement (NewMovementID (g [])) (lv_InventoryItemID level) (lv_LocationID level) reservationID
      reason reference lineItemID delta (lv_StockedQuantity level) (lv_UpdatedAt level)) ;;
    mret tt.

Section Fill.
Variable write : seeds -> InventoryLevel -> Z -> Z -> MovementReason -> string -> string -> string ->
  tx St InventoryLevel.

Definition deduct_with (g : seeds) (reservation : Reservation) (level : InventoryLevel) (orderID : string) :
    tx St InventoryLevel :=
  let newStocked := lv_StockedQuantity level -₆₄ rs_Quantity reservation in
  let newReserved := lv_ReservedQuantity level -₆₄ rs_Quantity reservation in
  tx_check (refuse ((newStocked <? 0) || (newReserved <? 0)) (Internal CodeInconsistentState
    "the confirmation would take the stock negative: physical %d, reserved %d, reservation %d (%s)"
    [AInt (lv_StockedQuantity level); AInt (lv_ReservedQuantity level); AInt (rs_Quantity reservation);
     AStr (rs_ID reservation)])) ;;
  updated ← write g level newStocked newReserved
    (ReservationPurpose_MovementReason (rs_Purpose reservation)) (rs_ID reservation) orderID EmptyString;
  tx_do (db_SetReservationStatus db (rs_ID reservation) ReservationConfirmed) ;;
  mret updated.

(** One claim that the units complete. *)
Definition fill_claim (g : seeds) (level : InventoryLevel) (claim : Backorder) (need : Z) :
    tx St InventoryLevel :=
  reservation ← db_CreateReservation db (mkReservation (NewReservationID (g [])) (lv_InventoryItemID level)
    (lv_LocationID level) need (bo_OrderLineItemID claim) EmptyString PurposeSale ReservationActive
    zero_time zero_time);
  reserved ← tx_of (addQuantity (lv_ReservedQuantity level) need);
  held ← write (inner 0 g) level (lv_StockedQuantity level) reserved EmptyString EmptyString EmptyString
    EmptyString;
  deducted ← deduct_with (inner 1 g) reservation held (bo_OrderID claim);
  changed ← db_FillBackorder db (bo_ID claim) (rs_ID reservation) (lv_LocationID deducted);
  tx_check (refuse (changed =? 0) (Internal CodeInconsistentState
    "backorder %s was locked waiting and could not be marked filled" [AStr (bo_ID claim)])) ;;
  mret deducted.

(** The loop over the locked claims; [filled] are the ones filled so far. *)
Fixpoint fill_claims (g : seeds) (level : InventoryLevel) (claims : list Backorder) (filled : list string) :
    tx St (InventoryLevel * list string) :=
  match claims with
  | [] => mret (level, filled)
  | claim :: claims =>
      let need := Owed claim in
      if (need <=? 0) || (Available level <? need) then fill_claims (inner 1 g) level claims filled
      else
        level' ← fill_claim (inner 0 g) level claim need;
        fill_claims (inner 1 g) level' claims (filled ++ [bo_ID claim])
  end.

Definition fill_with (g : seeds) (level : InventoryLevel) : tx St (InventoryLevel * list string) :=
  claims ← tx_read (db_LockWaitingBackordersAt db (lv_InventoryItemID level) (lv_LocationID level)
    (Available level));
  fill_claims g level claims [].

Definition write_with (g : seeds) (level : InventoryLevel) (stocked reserved : Z) (reason : MovementReason)
    (reservationID reference lineItemID : string) : tx St InventoryLevel :=
  updated ← db_UpdateInventoryLevelQuantities db (lv_ID level) stocked reserved;
  recordMovement (inner 0 g) updated (stocked -₆₄ lv_StockedQuantity level) reason reservationID
    reference lineItemID ;;
  if Available level <? Available updated then
    filled ← fill_with (inner 1 g) updated;
    mret filled.1
  else mret updated.
End Fill.

(** The writes nested to a depth; [InventoryFill] proves that [depth] is never passed. *)
Fixpoint writeQuantities (fuel : nat) : seeds -> InventoryLevel -> Z -> Z -> MovementReason -> string ->
    string -> string -> tx St InventoryLevel :=
  match fuel with
  | O => fun _ _ _ _ _ _ _ _ => tx_of (Fail too_deep)
  | S fuel => write_with (writeQuantities fuel)
  end.

Definition fillWaiting (fuel : nat) : seeds -> InventoryLevel -> tx St (InventoryLevel * list string) :=
  fill_with (writeQuantities fuel).

Definition deductHeld (fuel : nat) : seeds -> Reservation -> InventoryLevel -> string -> tx St InventoryLevel :=
  deduct_with (writeQuantities fuel).

Definition openLevel (g : seeds) (itemID locationID : string) (stocked : Z) (reason : MovementReason)
    (reference : string) : tx St InventoryLevel :=
  level ← db_CreateInventoryLevel db
    (mkInventoryLevel (NewInventoryLevelID (g [])) itemID locationID stocked 0 zero_time zero_time);
  recordMovement (inner 0 g) level stocked reason EmptyString reference EmptyString ;;
  if 0 <? Available level then
    filled ← fillWaiting depth (inner 1 g) level;
    mret filled.1
  else mret level.

(** ** The physical count: [stock.go] *)

Definition setInventoryLevel (g : seeds) (itemID locationID : string) (stockedQty : Z) (read : option Z) :
    tx St InventoryLevel :=
  tx_check (requireIDs itemID locationID) ;;
  tx_check (refuse (stockedQty <? 0) (Invalid CodeInvalidInput
    "the stocked quantity cannot be negative: %d" [AInt stockedQty])) ;;
  WithTx (
    requireOpenLocation locationID ;;
    tx_lock (db_LockInventoryItem db itemID) ;;
    found ← tx_find (db_LockInventoryLevel db itemID locationID);
    match found with
    | None =>
        tx_check (stockUnmoved read 0 locationID) ;;
        openLevel g itemID locationID stockedQty MovementStockCount EmptyString
    | Some level =>
        tx_check (stockUnmoved read (lv_StockedQuantity level) locationID) ;;
        tx_check (refuse (stockedQty <? lv_ReservedQuantity level) (Conflict CodeInsufficientStock
          "the physical quantity (%d) cannot be lowered below the reserved quantity (%d); release the reservations first"
          [AInt stockedQty; AInt (lv_ReservedQuantity level)])) ;;
        writeQuantities depth g level stockedQty (lv_ReservedQuantity level) MovementStockCount EmptyString
          EmptyString EmptyString
    end).

Definition SetInventoryLevel (g : seeds) (itemID locationID : string) (stockedQty : Z) : tx St InventoryLevel :=
  setInventoryLevel g itemID locationID stockedQty None.

Definition SetInventoryLevelFrom (g : seeds) (itemID locationID : string) (read stockedQty : Z) :
    tx St InventoryLevel :=
  setInventoryLevel g itemID locationID stockedQty (Some read).

Definition adjust (g : seeds) (itemID locationID : string) (delta : Z) (reason : MovementReason) :
    tx St InventoryLevel :=
  tx_check (requireIDs itemID locationID) ;;
  WithTx (
    requireOpenLocation locationID ;;
    tx_lock (db_LockInventoryItemShared db itemID) ;;
    level ← tx_read (db_LockInventoryLevel db itemID locationID);
    newStocked ← tx_of (addQuantity (lv_StockedQuantity level) delta);
    tx_check (refuse (newStocked <? lv_ReservedQuantity level) (Conflict CodeInsufficientStock
      "the stock cannot be lowered that far: the result would be %d (current %d, reserved %d); the sellable quantity cannot go negative"
      [AInt newStocked; AInt (lv_StockedQuantity level); AInt (lv_ReservedQuantity level)])) ;;
    writeQuantities depth g level newStocked (lv_ReservedQuantity level) reason EmptyString EmptyString
      EmptyString).

Definition AdjustInventory (g : seeds) (itemID locationID : string) (delta : Z) : tx St InventoryLevel :=
  tx_check (refuse (delta =? 0) (Invalid CodeInvalidInput "delta cannot be zero" [])) ;;
  adjust g itemID locationID delta MovementAdjustment.

Definition RestockInventory (g : seeds) (itemID locationID : string) (quantity : Z) : tx St InventoryLevel :=
  tx_check (refuse (quantity <=? 0) (Invalid CodeInvalidInput
    "the restocked quantity has to be positive: %d (item %s)" [AInt quantity; AStr itemID])) ;;
  adjust g itemID locationID quantity MovementReturnRestock.

Definition ReturnCanceledInventory (g : seeds) (itemID locationID lineItemID : string) (target : Z)
    (reference : string) : tx St InventoryLevel :=
  tx_check (refuse (target <=? 0) (Invalid CodeInvalidInput
    "the target on the shelf has to be positive: %d (item %s)" [AInt target; AStr itemID])) ;;
  tx_check (requireText "reference" reference) ;;
  tx_check (requireText "line_item_id" lineItemID) ;;
  tx_check (requireIDs itemID locationID) ;;
  WithTx (
    requireOpenLocation locationID ;;
    tx_lock (db_LockInventoryItemShared db itemID) ;;
    level ← tx_read (db_LockInventoryLevel db itemID locationID);
    returned ← tx_read (db_ReturnedForLine db itemID lineItemID);
    let quantity := target -₆₄ returned in
    tx_check (refuse (quantity <=? 0) ErrMovementAlreadyRecorded) ;;
    newStocked ← tx_of (addQuantity (lv_StockedQuantity level) quantity);
    writeQuantities depth g level newStocked (lv_ReservedQuantity level) MovementCancellation EmptyString
      reference lineItemID).

(** ** Promises: [stock.go], [replacement_recall.go] *)

Record ReserveInput := mkReserveInput {
  ri_InventoryItemID : string;
  ri_LocationID : string;
  ri_Quantity : Z;
  ri_LineItemID : string;
  ri_Description : string;
  ri_Purpose : ReservationPurpose
}.

(** The purpose a reservation is made for; none named is a sale. *)
Definition purpose_of (p : ReservationPurpose) : ReservationPurpose :=
  if bool_decide (p = EmptyString) then PurposeSale else p.

Definition Reserve (g : seeds) (in_ : ReserveInput) : tx St Reservation :=
  tx_check (requireIDs (ri_InventoryItemID in_) (ri_LocationID in_)) ;;
  tx_check (refuse (ri_Quantity in_ <=? 0) (Invalid CodeInvalidInput
    "the reservation quantity has to be positive: %d" [AInt (ri_Quantity in_)])) ;;
  tx_check (checkTextLen "line_item_id" (ri_LineItemID in_)) ;;
  tx_check (checkTextLen "description" (ri_Description in_)) ;;
  let purpose := purpose_of (ri_Purpose in_) in
  tx_check (refuse (negb (ReservationPurpose_Valid purpose)) (Invalid CodeInvalidInput
    "unknown reservation purpose: %q" [AStr (ri_Purpose in_)])) ;;
  WithTx (
    tx_lock (db_LockInventoryItemShared db (ri_InventoryItemID in_)) ;;
    level ← tx_read (db_LockInventoryLevel db (ri_InventoryItemID in_) (ri_LocationID in_));
    tx_check (refuse (Available level <? ri_Quantity in_) (Conflict CodeInsufficientStock
      "insufficient stock: %d sellable, %d requested (item: %s, location: %s)"
      [AInt (Available level); AInt (ri_Quantity in_); AStr (ri_InventoryItemID in_);
       AStr (ri_LocationID in_)])) ;;
    newReserved ← tx_of (addQuantity (lv_ReservedQuantity level) (ri_Quantity in_));
    writeQuantities depth (inner 0 g) level (lv_StockedQuantity level) newReserved EmptyString EmptyString
      EmptyString EmptyString ;;
    db_CreateReservation db (mkReservation (NewReservationID (g [])) (ri_InventoryItemID in_) (ri_LocationID in_)
      (ri_Quantity in_) (TrimSpace (ri_LineItemID in_)) (TrimSpace (ri_Description in_)) purpose
      ReservationActive zero_time zero_time)).

Definition unknown_status (reservation : Reservation) (reservationID : string) : err :=
  Internal CodeInconsistentState "unknown reservation status %q (%s)"
    [AStr (rs_Status reservation); AStr reservationID].

Definition ReleaseReservation (g : seeds) (reservationID : string) : tx St unit :=
  tx_check (requireText "reservation_id" reservationID) ;;
  WithTx (
    reservation ← tx_read (db_LockReservation db reservationID);
    let status := rs_Status reservation in
    if bool_decide (status = ReservationReleased) then mret tt
    else if bool_decide (status = ReservationConfirmed) then
      tx_of (Fail (Conflict CodeReservationNotActive
        "a confirmed reservation cannot be released: %s" [AStr reservationID]))
    else if negb (bool_decide (status = ReservationActive)) then
      tx_of (Fail (unknown_status reservation reservationID))
    else
      tx_lock (db_LockInventoryItemShared db (rs_InventoryItemID reservation)) ;;
      level ← tx_read (db_LockInventoryLevel db (rs_InventoryItemID reservation)
        (rs_LocationID reservation));
      let newReserved := lv_ReservedQuantity level -₆₄ rs_Quantity reservation in
      tx_check (refuse (newReserved <? 0) (Internal CodeInconsistentState
        "the reserved quantity (%d) is smaller than the reservation's quantity (%d) (%s)"
        [AInt (lv_ReservedQuantity level); AInt (rs_Quantity reservation); AStr reservationID])) ;;
      writeQuantities depth g level (lv_StockedQuantity level) newReserved EmptyString EmptyString
        EmptyString EmptyString ;;
      tx_do (db_SetReservationStatus db reservationID ReservationReleased)).

Definition ConfirmReservation (g : seeds) (reservationID orderID : string) : tx St unit :=
  tx_check (requireText "reservation_id" reservationID) ;;
  WithTx (
    reservation ← tx_read (db_LockReservation db reservationID);
    let status := rs_Status reservation in
    if bool_decide (status = ReservationConfirmed) then mret tt
    else if bool_decide (status = ReservationReleased) then
      tx_of (Fail (Conflict CodeReservationNotActive
        "a released reservation cannot be confirmed: %s" [AStr reservationID]))
    else if negb (bool_decide (status = ReservationActive)) then
      tx_of (Fail (unknown_status reservation reservationID))
    else
      tx_lock (db_LockInventoryItemShared db (rs_InventoryItemID reservation)) ;;
      level ← tx_read (db_LockInventoryLevel db (rs_InventoryItemID reservation)
        (rs_LocationID reservation));
      deductHeld depth g reservation level orderID ;;
      mret tt).

Definition RecallReplacementUnits (g : seeds) (reservationID : string) : tx St InventoryLevel :=
  tx_check (requireText "reservation_id" reservationID) ;;
  WithTx (
    reservation ← tx_read (db_LockReservation db reservationID);
    tx_check (refuse (negb (bool_decide (rs_Purpose reservation = PurposeReplacement)))
      (Conflict CodeReservationNotActive
        "reservation %s was made for a %s; only a replacement's units are recalled here"
        [AStr reservationID; AStr (rs_Purpose reservation)])) ;;
    tx_check (refuse (negb (bool_decide (rs_Status reservation = ReservationConfirmed)))
      (Conflict CodeReservationNotActive
        "reservation %s is %s, so its units never left the count"
        [AStr reservationID; AStr (rs_Status reservation)])) ;;
    recorded ← tx_read (db_CancellationRecorded db reservationID);
    tx_check (refuse recorded ErrMovementAlreadyRecorded) ;;
    requireOpenLocation (rs_LocationID reservation) ;;
    tx_lock (db_LockInventoryItemShared db (rs_InventoryItemID reservation)) ;;
    level ← tx_read (db_LockInventoryLevel db (rs_InventoryItemID reservation) (rs_LocationID reservation));
    stocked ← tx_of (addQuantity (lv_StockedQuantity level) (rs_Quantity reservation));
    writeQuantities depth g level stocked (lv_ReservedQuantity level) MovementCancellation EmptyString
      reservationID EmptyString).

(** ** Claims: [backorder.go] *)

Record ClaimBackorderInput := mkClaimBackorderInput {
  cb_InventoryItemID : string;
  cb_OrderID : string;
  cb_OrderLineItemID : string;
  cb_Quantity : Z;
  cb_LocationIDs : list string
}.

(** The distinct locations in the order given, or the first one's complaint. *)
Fixpoint claim_locations (given locations : list string) : result (list string) :=
  match given with
  | [] => Ok locations
  | id :: given =>
      check requireText "location_id" id;;
      claim_locations given (if Contains locations id then locations else locations ++ [id])
  end.

Definition ClaimBackorder (g : seeds) (in_ : ClaimBackorderInput) : tx St Backorder :=
  tx_check (requireText "inventory_item_id" (cb_InventoryItemID in_)) ;;
  tx_check (requireText "order_id" (TrimSpace (cb_OrderID in_))) ;;
  tx_check (requireText "order_line_item_id" (TrimSpace (cb_OrderLineItemID in_))) ;;
  tx_check (refuse (cb_Quantity in_ <=? 0) (Invalid CodeInvalidInput
    "a backorder owes a positive quantity: %d" [AInt (cb_Quantity in_)])) ;;
  locations ← tx_of (claim_locations (cb_LocationIDs in_) []);
  WithTx (
    tx_lock (db_LockInventoryItemShared db (cb_InventoryItemID in_)) ;;
    created ← db_CreateBackorder db (mkBackorder (NewBackorderID (g [])) (cb_InventoryItemID in_) (cb_OrderID in_)
      (cb_OrderLineItemID in_) (cb_Quantity in_) 0 locations BackorderWaiting EmptyString EmptyString 0
      zero_time zero_time);
    if created.2 : bool then mret created.1
    else
      existing ← tx_read (db_GetBackorderOfLine db (cb_OrderLineItemID in_) (cb_InventoryItemID in_));
      tx_check (refuse (negb (bo_Quantity existing =? cb_Quantity in_)) (Conflict CodeBackorderMismatch
        "line %s already owes %d of item %s, not %d" [AStr (cb_OrderLineItemID in_);
        AInt (bo_Quantity existing); AStr (cb_InventoryItemID in_); AInt (cb_Quantity in_)])) ;;
      mret existing).

Record Settlement := mkSettlement {
  se_Undeducted : gmap string Z;
  se_FilledAt : gmap string string
}.

(** What of a claim its line withdraws when [window] of the [bought] will not leave. *)
Definition settle_claim (bought window : Z) (claim : Backorder) : tx St Backorder :=
  let perUnit := div64 (bo_Quantity claim) bought in
  tx_check (refuse (negb (perUnit *₆₄ bought =? bo_Quantity claim)) (Internal CodeInconsistentState
    "backorder %s owes %d units, which is not a whole number per each of the %d bought"
    [AStr (bo_ID claim); AInt (bo_Quantity claim); AInt bought])) ;;
  if bool_decide (bo_Status claim = BackorderWaiting) then
    let withdrawn :=
      Z.max (bo_WithdrawnQuantity claim) (Z.min (bo_Quantity claim) (window *₆₄ perUnit)) in
    if negb (withdrawn =? bo_WithdrawnQuantity claim) then
      db_WithdrawBackorder db (bo_ID claim) withdrawn
        (if withdrawn =? bo_Quantity claim then BackorderWithdrawn else BackorderWaiting)
    else mret claim
  else mret claim.

(** The claims of the line one after another: the settlement and the claims that still wait. *)
Fixpoint settle_claims (bought window : Z) (claims : list Backorder) (out : Settlement)
    (waiting : list Backorder) : tx St (Settlement * list Backorder) :=
  match claims with
  | [] => mret (out, waiting)
  | claim :: claims =>
      claim ← settle_claim bought window claim;
      let item := bo_InventoryItemID claim in
      let out := mkSettlement (<[item := Undeducted claim]> (se_Undeducted out))
        (if bool_decide (bo_Status claim = BackorderFilled)
         then <[item := bo_FilledLocationID claim]> (se_FilledAt out) else se_FilledAt out) in
      settle_claims bought window claims out
        (if bool_decide (bo_Status claim = BackorderWaiting) then waiting ++ [claim] else waiting)
  end.

(** One location of a drain: whether the claim was filled there. *)
Definition drain_at (g : seeds) (claim : Backorder) (locationID : string) : tx St bool :=
  WithTx (
    requireOpenLocation locationID ;;
    tx_lock (db_LockInventoryItemShared db (bo_InventoryItemID claim)) ;;
    level ← tx_read (db_LockInventoryLevel db (bo_InventoryItemID claim) locationID);
    if Available level <=? 0 then mret false
    else
      filled ← fillWaiting depth g level;
      mret (Contains filled.2 (bo_ID claim))).

Fixpoint drain (g : seeds) (claim : Backorder) (locations : list string) : tx St (option err) :=
  match locations with
  | [] => mret None
  | locationID :: locations =>
      r ← tx_try (drain_at (inner 0 g) claim locationID);
      match r with
      | Ok true => mret None
      | Ok false => drain (inner 1 g) claim locations
      | Fail e =>
          if IsNotFound (Some e) || bool_decide (CodeOf e = CodeLocationClosed) then
            drain (inner 1 g) claim locations
          else mret (Some e)
      end
  end.

Fixpoint drain_all (g : seeds) (waiting : list Backorder) : tx St (list (option err)) :=
  match waiting with
  | [] => mret []
  | claim :: waiting =>
      e ← drain (inner 0 g) claim (bo_LocationIDs claim);
      es ← drain_all (inner 1 g) waiting;
      mret (e :: es)
  end.

(** The settlement with the error of the drains; where the settlement itself fails, Go answers an
    empty one. *)
Definition SettleBackorder (g : seeds) (orderLineItemID : string) (bought window : Z) :
    tx St (Settlement * option err) :=
  tx_check (requireText "order_line_item_id" orderLineItemID) ;;
  tx_check (refuse (bought <=? 0) (Invalid CodeInvalidInput
    "a line bought a positive quantity: %d" [AInt bought])) ;;
  tx_check (refuse ((window <? 0) || (bought <? window)) (Invalid CodeInvalidInput
    "the units that will not leave are between 0 and the %d bought: %d" [AInt bought; AInt window])) ;;
  settled ← WithTx (
    claims ← tx_read (db_LockBackordersOfLine db orderLineItemID);
    settle_claims bought window claims (mkSettlement ∅ ∅) []);
  errs ← drain_all g settled.2;
  mret (settled.1, Join errs).

(** ** Supplier receipts: [supplier_receipt.go] *)

Record RecordSupplierReceiptInput := mkRecordSupplierReceiptInput {
  rr_InventoryItemID : string;
  rr_LocationID : string;
  rr_Quantity : Z;
  rr_ExpectedAt : moment;
  rr_Reference : string
}.

Definition RecordSupplierReceipt (g : seeds) (in_ : RecordSupplierReceiptInput) : tx St SupplierReceipt :=
  tx_check (requireIDs (rr_InventoryItemID in_) (rr_LocationID in_)) ;;
  tx_check (refuse (rr_Quantity in_ <=? 0) (Invalid CodeInvalidInput
    "a supplier receipt expects a positive quantity: %d" [AInt (rr_Quantity in_)])) ;;
  tx_check (refuse (bool_decide (rr_ExpectedAt in_ = zero_time)) (Invalid CodeInvalidInput
    "a supplier receipt names when its units are expected to be sellable" [])) ;;
  let reference := TrimSpace (rr_Reference in_) in
  tx_check (refuse (negb (bool_decide (rr_Reference in_ = EmptyString)) && bool_decide (reference = EmptyString))
    (Invalid CodeInvalidInput "a reference, when given, cannot be blank" [])) ;;
  tx_check (checkTextLen "reference" reference) ;;
  WithTx (
    requireOpenLocation (rr_LocationID in_) ;;
    tx_lock (db_LockInventoryItemShared db (rr_InventoryItemID in_)) ;;
    db_CreateSupplierReceipt db (mkSupplierReceipt (NewSupplierReceiptID (g [])) (rr_InventoryItemID in_) (rr_LocationID in_)
      (rr_Quantity in_) (rr_ExpectedAt in_) reference SupplierReceiptExpected 0 None None zero_time
      zero_time)).

Definition supplierReceiptOf (itemID receiptID : string) : tx St SupplierReceipt :=
  receipt ← tx_read (db_GetSupplierReceipt db receiptID);
  tx_check (refuse (negb (bool_decide (sr_InventoryItemID receipt = itemID)))
    (NotFound codeSupplierReceiptNotFound "item %s has no supplier receipt %s" [AStr itemID; AStr receiptID])) ;;
  mret receipt.

(** The level of an item at a location among its levels, the first where there are several. *)
Definition levelAt (itemID locationID : string) : tx St (option InventoryLevel) :=
  levels ← tx_read (db_ListInventoryLevels db itemID);
  mret (head (filter (fun l => lv_LocationID l = locationID) levels)).

(** The units of a receipt come in, at the level there is or at a new one. *)
Definition arrive (g : seeds) (itemID : string) (locked : SupplierReceipt) (quantity : Z)
    (current : option InventoryLevel) : tx St InventoryLevel :=
  match current with
  | Some level =>
      stocked ← tx_of (addQuantity (lv_StockedQuantity level) quantity);
      writeQuantities depth g level stocked (lv_ReservedQuantity level) MovementSupplierReceipt
        EmptyString (sr_ID locked) EmptyString
  | None => openLevel g itemID (sr_LocationID locked) quantity MovementSupplierReceipt (sr_ID locked)
  end.

(** The transaction of a receipt once its shelf is locked. *)
Definition receive_locked (g : seeds) (itemID receiptID : string) (quantity : Z)
    (current : option InventoryLevel) : tx St (SupplierReceipt * option InventoryLevel) :=
  locked ← tx_read (db_LockSupplierReceipt db receiptID);
  if negb (bool_decide (sr_Status locked = SupplierReceiptExpected)) then
    tx_check (receivedAlready locked quantity) ;;
    mret (locked, current)
  else
    after ← arrive g itemID locked quantity current;
    changed ← db_ReceiveSupplierReceipt db (sr_ID locked);
    tx_check (refuse (changed =? 0) (Internal CodeInconsistentState
      "supplier receipt %s was locked expected and could not be closed as received"
      [AStr (sr_ID locked)])) ;;
    out ← tx_read (db_GetSupplierReceipt db (sr_ID locked));
    mret (out, Some after).

Definition ReceiveSupplierReceipt (g : seeds) (itemID receiptID : string) (quantity : Z) :
    tx St (SupplierReceipt * option InventoryLevel) :=
  tx_check (requireText "inventory_item_id" itemID) ;;
  tx_check (requireText "receipt_id" receiptID) ;;
  tx_check (refuse (quantity <=? 0) (Invalid CodeInvalidInput
    "a receipt receives the positive quantity counted: %d" [AInt quantity])) ;;
  receipt ← supplierReceiptOf itemID receiptID;
  if negb (bool_decide (sr_Status receipt = SupplierReceiptExpected)) then
    tx_check (receivedAlready receipt quantity) ;;
    level ← levelAt (sr_InventoryItemID receipt) (sr_LocationID receipt);
    mret (receipt, level)
  else
    WithTx (
      requireOpenLocation (sr_LocationID receipt) ;;
      tx_lock (db_LockInventoryItem db itemID) ;;
      current ← tx_find (db_LockInventoryLevel db itemID (sr_LocationID receipt));
      receive_locked g itemID receiptID quantity current).

Definition CancelSupplierReceipt (itemID receiptID : string) : tx St SupplierReceipt :=
  tx_check (requireText "inventory_item_id" itemID) ;;
  tx_check (requireText "receipt_id" receiptID) ;;
  receipt ← supplierReceiptOf itemID receiptID;
  if negb (bool_decide (sr_Status receipt = SupplierReceiptExpected)) then
    tx_check (canceledAlready receipt) ;;
    mret receipt
  else
    WithTx (
      locked ← tx_read (db_LockSupplierReceipt db receiptID);
      if negb (bool_decide (sr_Status locked = SupplierReceiptExpected)) then
        tx_check (canceledAlready locked) ;;
        mret locked
      else
        changed ← db_CancelSupplierReceipt db (sr_ID locked);
        tx_check (refuse (changed =? 0) (Internal CodeInconsistentState
          "supplier receipt %s was locked expected and could not be canceled" [AStr (sr_ID locked)])) ;;
        tx_read (db_GetSupplierReceipt db (sr_ID locked))).

(** ** Locations and items: [service.go], [stock_item.go] *)

Record CreateStockLocationInput := mkCreateStockLocationInput {
  cs_Name : string;
  cs_Address1 : string;
  cs_Address2 : string;
  cs_City : string;
  cs_Province : string;
  cs_PostalCode : string;
  cs_CountryCode : string
}.

Definition CreateStockLocation (g : seeds) (in_ : CreateStockLocationInput) : tx St StockLocation :=
  let name := TrimSpace (cs_Name in_) in
  tx_check (requireText "name" name) ;;
  let country := ToUpper (TrimSpace (cs_CountryCode in_)) in
  tx_check (refuse (negb (bool_decide (country = EmptyString)) && negb (len country =? 2))
    (Invalid CodeInvalidInput "country_code has to be a two-letter ISO 3166-1 alpha-2 code: %q"
      [AStr (cs_CountryCode in_)])) ;;
  tx_check (checkTextLen "address_1" (cs_Address1 in_)) ;;
  tx_check (checkTextLen "address_2" (cs_Address2 in_)) ;;
  tx_check (checkTextLen "city" (cs_City in_)) ;;
  tx_check (checkTextLen "province" (cs_Province in_)) ;;
  tx_check (checkTextLen "postal_code" (cs_PostalCode in_)) ;;
  db_CreateStockLocation db (mkStockLocation (NewStockLocationID (g [])) name (TrimSpace (cs_Address1 in_))
    (TrimSpace (cs_Address2 in_)) (TrimSpace (cs_City in_)) (TrimSpace (cs_Province in_))
    (TrimSpace (cs_PostalCode in_)) country zero_time zero_time None).

Definition CloseStockLocation (id : string) : tx St StockLocation :=
  tx_check (requireText "id" id) ;;
  WithTx (
    location ← tx_read (db_LockStockLocation db id);
    if Closed location then mret location
    else
      held ← tx_read (db_StockHeldAtLocation db id);
      tx_check (refuse (0 <? held.1) (Conflict CodeLocationNotEmpty
        "the location still holds %d units, %d of them promised to a sale; move them or write them down first (%s)"
        [AInt held.1; AInt held.2; AStr id])) ;;
      active ← tx_read (db_CountActiveReservationsAtLocation db id);
      tx_check (refuse (0 <? active) (Conflict CodeLocationNotEmpty
        "the location cannot be closed: %d reservations are still active there; release or confirm them first (%s)"
        [AInt active; AStr id])) ;;
      expected ← tx_read (db_CountExpectedSupplierReceiptsAtLocation db id);
      tx_check (refuse (0 <? expected) (Conflict CodeLocationNotEmpty
        "the location cannot be closed: %d supplier receipts are still expected there; receive or cancel them first (%s)"
        [AInt expected; AStr id])) ;;
      db_CloseStockLocation db id).

Record CreateInventoryItemInput := mkCreateInventoryItemInput {
  ii_SKU : string;
  ii_Title : string;
  ii_Description : string;
  ii_RequiresShipping : option bool
}.

Definition CreateInventoryItem (g : seeds) (in_ : CreateInventoryItemInput) : tx St InventoryItem :=
  let sku := TrimSpace (ii_SKU in_) in
  tx_check (requireText "sku" sku) ;;
  tx_check (checkTextLen "title" (ii_Title in_)) ;;
  tx_check (checkTextLen "description" (ii_Description in_)) ;;
  db_CreateInventoryItem db (mkInventoryItem (NewInventoryItemID (g [])) sku (TrimSpace (ii_Title in_))
    (TrimSpace (ii_Description in_)) (default true (ii_RequiresShipping in_)) zero_time zero_time).

Definition CreateItemForStock (g : seeds) (sku title : string) : tx St string :=
  item ← CreateInventoryItem g (mkCreateInventoryItemInput sku title EmptyString None);
  mret (it_ID item).

Definition DeleteInventoryItem (id : string) : tx St unit :=
  tx_check (requireText "id" id) ;;
  WithTx (
    tx_lock (db_LockInventoryItem db id) ;;
    active ← tx_read (db_CountActiveReservations db id);
    tx_check (refuse (0 <? active) (Conflict CodeItemHasReservations
      "the item cannot be deleted: it has %d active reservations (%s)" [AInt active; AStr id])) ;;
    owed ← tx_read (db_CountWaitingBackorders db id);
    tx_check (refuse (0 <? owed) (Conflict CodeItemOwesOrders
      "the item cannot be deleted: %d orders still wait for its units (%s)" [AInt owed; AStr id])) ;;
    expected ← tx_read (db_CountExpectedSupplierReceipts db id);
    tx_check (refuse (0 <? expected) (Conflict CodeItemExpectsUnits
      "the item cannot be deleted: %d supplier receipts are still expected for it; receive or cancel them first (%s)"
      [AInt expected; AStr id])) ;;
    tx_do (db_SoftDeleteInventoryLevelsByItem db id) ;;
    tx_do (db_SoftDeleteInventoryItem db id)).

(** ** Reads *)

Definition ListInventoryLevels (itemID : string) : tx St (list InventoryLevel) :=
  tx_check (requireText "inventory_item_id" itemID) ;;
  tx_read (db_GetInventoryItem db itemID) ;;
  tx_read (db_ListInventoryLevels db itemID).

Definition AvailableQuantity (itemID : string) : tx St Z :=
  levels ← ListInventoryLevels itemID;
  mret (sum64 (Available <$> levels)).

Definition AvailableQuantitiesByLocation (itemIDs : list string) : tx St (gmap string (gmap string Z)) :=
  if bool_decide (itemIDs = []) then mret ∅
  else tx_read (db_AvailableByItemLocation db itemIDs).

Definition AvailableQuantities (itemIDs : list string) : tx St (gmap string Z) :=
  if bool_decide (itemIDs = []) then mret ∅
  else
    found ← tx_read (db_AvailableByItemIDs db itemIDs);
    mret (foldl (fun out id => <[id := default 0 (found !! id)]> out) ∅ itemIDs).

Definition LocationsWithStock (itemID : string) (quantity : Z) : tx St (list string) :=
  tx_check (refuse (quantity <=? 0) (Invalid CodeInvalidInput
    "the requested quantity has to be positive: %d" [AInt quantity])) ;;
  levels ← ListInventoryLevels itemID;
  mret (SortFunc cmpS (lv_LocationID <$> filter (fun l => quantity <= Available l) levels)).

Definition GetReservation (reservationID : string) : tx St Reservation :=
  tx_check (requireText "reservation_id" reservationID) ;;
  tx_read (db_GetReservation db reservationID).

Definition SaleLocations (orderID : string) : tx St (gmap string string) :=
  tx_check (requireText "order_id" orderID) ;;
  tx_read (db_SaleLocations db orderID).

Definition GetStockLocation (id : string) : tx St StockLocation :=
  tx_check (requireText "id" id) ;;
  tx_read (db_GetStockLocation db id).

Definition ListStockLocations (includeClosed : bool) (page : Page) : tx St (list StockLocation * Z) :=
  page ← tx_of (normalize page);
  tx_read (db_ListStockLocations db (pg_Limit page) (pg_Offset page) includeClosed).

Definition GetInventoryItem (id : string) : tx St InventoryItem :=
  tx_check (requireText "id" id) ;;
  tx_read (db_GetInventoryItem db id).

Definition ListInventoryItems (sku : option string) (requiresShipping : option bool) (page : Page) :
    tx St (list InventoryItem * Z) :=
  page ← tx_of (normalize page);
  match sku with
  | None =>
      tx_read (db_ListInventoryItems db
        (mkInventoryItemFilter None requiresShipping (pg_Limit page) (pg_Offset page)))
  | Some s =>
      let s := TrimSpace s in
      tx_check (requireText "sku" s) ;;
      tx_read (db_ListInventoryItems db
        (mkInventoryItemFilter (Some s) requiresShipping (pg_Limit page) (pg_Offset page)))
  end.

Definition ListInventoryItemsByIDs (ids : list string) : tx St (list InventoryItem) :=
  if bool_decide (ids = []) then mret [] else tx_read (db_InventoryItemsByIDs db ids).

Definition OpenLocationIDs : tx St (list string) := tx_read (db_OpenStockLocationIDs db).

Record ListMovementsInput := mkListMovementsInput {
  lm_InventoryItemID : string;
  lm_LocationID : string;
  lm_After : moment * string;
  lm_Limit : Z
}.

Definition ListMovements (in_ : ListMovementsInput) : tx St (list Movement) :=
  tx_check (requireText "inventory_item_id" (lm_InventoryItemID in_)) ;;
  tx_check (checkTextLen "location_id" (lm_LocationID in_)) ;;
  tx_check (refuse (negb (Bool.eqb (bool_decide ((lm_After in_).1 = zero_time))
      (bool_decide ((lm_After in_).2 = EmptyString))))
    (Invalid CodeInvalidInput "a paging position needs both a moment and an id, or neither" [])) ;;
  paging ← tx_of (normalize (mkPage (lm_Limit in_) 0));
  tx_read (db_GetInventoryItem db (lm_InventoryItemID in_)) ;;
  tx_read (db_ListMovements db (mkMovementFilter (lm_InventoryItemID in_) (lm_LocationID in_)
    (lm_After in_) (pg_Limit paging))).

Definition ListBackorders (itemID status : string) (page : Page) : tx St (list Backorder * Z) :=
  tx_check (requireText "inventory_item_id" itemID) ;;
  tx_check (refuse (negb (bool_decide (status = EmptyString)) && negb (BackorderStatus_Valid status))
    (Invalid CodeInvalidInput "unknown backorder status %q; one of waiting, filled, withdrawn" [AStr status])) ;;
  paging ← tx_of (normalize page);
  tx_read (db_GetInventoryItem db itemID) ;;
  tx_read (db_ListBackorders db (mkStatusFilter itemID status (pg_Limit paging) (pg_Offset paging))).

Definition ListSupplierReceipts (itemID status : string) (page : Page) : tx St (list SupplierReceipt * Z) :=
  tx_check (requireText "inventory_item_id" itemID) ;;
  tx_check (refuse (negb (bool_decide (status = EmptyString)) && negb (SupplierReceiptStatus_Valid status))
    (Invalid CodeInvalidInput "unknown supplier receipt status %q; one of expected, received, canceled"
      [AStr status])) ;;
  paging ← tx_of (normalize page);
  tx_read (db_GetInventoryItem db itemID) ;;
  tx_read (db_ListSupplierReceipts db (mkStatusFilter itemID status (pg_Limit paging) (pg_Offset paging))).
End Operations.

(** * What the inventory service relies on of its store

    [view] is what the tables show. The laws say what a statement that succeeded read or did, after
    [internal/modules/inventory/queries/*.sql] and the constraints of the module's migrations: keys
    are unique, the index of levels and the one of claims hold, rows reference rows that exist. A
    statement that failed is covered by the rollback, its own where it runs outside a transaction. Moments and the queue position of a new claim
    are left open; so is the order of a listing the laws do not speak of. *)

(** The claims a statement locks: the rows it selects, each once, in queue order. *)
Record locked_claims (P : Backorder -> Prop) (w : Warehouse) (claims : list Backorder) : Prop := {
  lc_rows b : b ∈ claims -> wh_backorders w !! bo_ID b = Some b /\ P b;
  lc_all k b : wh_backorders w !! k = Some b -> P b -> b ∈ claims;
  lc_once : NoDup (bo_ID <$> claims);
  lc_order : StronglySorted Z.le (bo_Seq <$> claims)
}.

Class InventoryLaws {St} (db : Store St) (view : St -> Warehouse) := {
  law_create_location l st st' r : db_CreateStockLocation db l st = (st', Ok r) ->
    wh_locations (view st) !! sl_ID l = None /\
    exists t, r = new_location t l /\ view st' = on_locations <[sl_ID l := r]> (view st);
  law_create_location_fails l st st' e : db_CreateStockLocation db l st = (st', Fail e) -> st' = st;
  law_lock_location id st l : db_LockStockLocation db id st = Ok l -> wh_locations (view st) !! id = Some l;
  law_lock_location_shared id st l : db_LockStockLocationShared db id st = Ok l ->
    wh_locations (view st) !! id = Some l;
  law_close_location id st st' r : db_CloseStockLocation db id st = (st', Ok r) ->
    exists l t, wh_locations (view st) !! id = Some l /\ r = closed_location t l /\
      view st' = on_locations <[id := r]> (view st);
  law_held_at id st s q : db_StockHeldAtLocation db id st = Ok (s, q) ->
    s = sum_of (fun l => if decide (lv_LocationID l = id) then lv_StockedQuantity l else 0) (wh_levels (view st)) /\
    q = sum_of (fun l => if decide (lv_LocationID l = id) then lv_ReservedQuantity l else 0) (wh_levels (view st));
  law_count_active_at id st n : db_CountActiveReservationsAtLocation db id st = Ok n ->
    n = count (active_at_location id) (wh_reservations (view st));
  law_create_item i st st' r : db_CreateInventoryItem db i st = (st', Ok r) ->
    wh_items (view st) !! it_ID i = None /\ it_ID i ∉ wh_retired (view st) /\
    exists t, r = new_item t i /\ view st' = on_items <[it_ID i := r]> (view st);
  law_create_item_fails i st st' e : db_CreateInventoryItem db i st = (st', Fail e) -> st' = st;
  law_lock_item id st : db_LockInventoryItem db id st = None -> is_Some (wh_items (view st) !! id);
  law_lock_item_shared id st : db_LockInventoryItemShared db id st = None ->
    is_Some (wh_items (view st) !! id);
  law_delete_item id st st' : db_SoftDeleteInventoryItem db id st = (st', None) ->
    is_Some (wh_items (view st) !! id) /\ view st' = retire_item id (view st);
  law_delete_levels id st st' : db_SoftDeleteInventoryLevelsByItem db id st = (st', None) ->
    view st' = on_levels (filter (fun kl => lv_InventoryItemID kl.2 <> id)) (view st);
  law_lock_level item location st l : db_LockInventoryLevel db item location st = Ok l ->
    wh_levels (view st) !! lv_ID l = Some l /\ at_shelf item location l;
  law_no_level item location st e k l : db_LockInventoryLevel db item location st = Fail e ->
    HasKind (Some e) KindNotFound = true -> wh_levels (view st) !! k = Some l -> ~ at_shelf item location l;
  law_create_level l st st' r : db_CreateInventoryLevel db l st = (st', Ok r) ->
    wh_levels (view st) !! lv_ID l = None /\
    (forall k l', wh_levels (view st) !! k = Some l' ->
      ~ at_shelf (lv_InventoryItemID l) (lv_LocationID l) l') /\
    exists t, r = new_level t l /\ view st' = on_levels <[lv_ID l := r]> (view st);
  law_update_level id s q st st' r : db_UpdateInventoryLevelQuantities db id s q st = (st', Ok r) ->
    exists l t, wh_levels (view st) !! id = Some l /\ r = with_quantities s q t l /\
      view st' = on_levels <[id := r]> (view st);
  law_create_reservation r0 st st' r : db_CreateReservation db r0 st = (st', Ok r) ->
    wh_reservations (view st) !! rs_ID r0 = None /\
    exists t, r = new_reservation t r0 /\ view st' = on_reservations <[rs_ID r0 := r]> (view st);
  law_lock_reservation id st r : db_LockReservation db id st = Ok r ->
    wh_reservations (view st) !! id = Some r;
  law_set_status id status st st' : db_SetReservationStatus db id status st = (st', None) ->
    exists r t, wh_reservations (view st) !! id = Some r /\
      view st' = on_reservations <[id := with_status status t r]> (view st);
  law_count_active id st n : db_CountActiveReservations db id st = Ok n ->
    n = count (active_of_item id) (wh_reservations (view st));
  law_append m st st' r : db_AppendMovement db m st = (st', Ok r) ->
    view st' = on_movements (fun led => led ++ [m]) (view st);
  law_returned item line st n : db_ReturnedForLine db item line st = Ok n ->
    n = log_sum (fun m => if decide (put_back item line m) then mv_Delta m else 0) (wh_movements (view st));
  law_recorded reference st b : db_CancellationRecorded db reference st = Ok b ->
    b = true <-> Exists (cancellation_of reference) (wh_movements (view st));
  law_create_backorder b st st' r fresh : db_CreateBackorder db b st = (st', Ok (r, fresh)) ->
    if fresh : bool then
      wh_backorders (view st) !! bo_ID b = None /\
      (forall k b', wh_backorders (view st) !! k = Some b' ->
        ~ (bo_OrderLineItemID b' = bo_OrderLineItemID b /\ bo_InventoryItemID b' = bo_InventoryItemID b)) /\
      exists seq t, r = new_backorder seq t b /\ view st' = on_backorders <[bo_ID b := r]> (view st)
    else view st' = view st;
  law_backorder_of_line line item st b : db_GetBackorderOfLine db line item st = Ok b ->
    wh_backorders (view st) !! bo_ID b = Some b /\ bo_OrderLineItemID b = line /\ bo_InventoryItemID b = item;
  law_lock_line line st claims : db_LockBackordersOfLine db line st = Ok claims ->
    locked_claims (fun b => bo_OrderLineItemID b = line) (view st) claims;
  law_lock_waiting item location available st claims :
    db_LockWaitingBackordersAt db item location available st = Ok claims ->
    locked_claims (fits_at item location available) (view st) claims;
  law_fill id reservation location st st' n : db_FillBackorder db id reservation location st = (st', Ok n) ->
    n <> 0 -> exists b t, wh_backorders (view st) !! id = Some b /\ bo_Status b = BackorderWaiting /\
      view st' = on_backorders <[id := filled_backorder reservation location t b]> (view st);
  law_withdraw id withdrawn status st st' r : db_WithdrawBackorder db id withdrawn status st = (st', Ok r) ->
    exists b t, wh_backorders (view st) !! id = Some b /\ r = withdrawn_backorder withdrawn status t b /\
      view st' = on_backorders <[id := r]> (view st);
  law_count_waiting id st n : db_CountWaitingBackorders db id st = Ok n ->
    n = count (waiting_of_item id) (wh_backorders (view st));
  law_create_receipt r0 st st' r : db_CreateSupplierReceipt db r0 st = (st', Ok r) ->
    wh_receipts (view st) !! sr_ID r0 = None /\
    exists t, r = new_receipt t r0 /\ view st' = on_receipts <[sr_ID r0 := r]> (view st);
  law_get_receipt id st r : db_GetSupplierReceipt db id st = Ok r -> wh_receipts (view st) !! id = Some r;
  law_lock_receipt id st r : db_LockSupplierReceipt db id st = Ok r -> wh_receipts (view st) !! id = Some r;
  law_receive id st st' n : db_ReceiveSupplierReceipt db id st = (st', Ok n) -> n <> 0 ->
    exists r m, wh_receipts (view st) !! id = Some r /\ sr_Status r = SupplierReceiptExpected /\
      m ∈ wh_movements (view st) /\ receipt_movement id m /\
      view st' = on_receipts <[id := received_receipt m r]> (view st);
  law_cancel_receipt id st st' n : db_CancelSupplierReceipt db id st = (st', Ok n) -> n <> 0 ->
    exists r t, wh_receipts (view st) !! id = Some r /\ sr_Status r = SupplierReceiptExpected /\
      view st' = on_receipts <[id := canceled_receipt t r]> (view st);
  law_count_expected id st n : db_CountExpectedSupplierReceipts db id st = Ok n ->
    n = count (expected_of_item id) (wh_receipts (view st));
  law_count_expected_at id st n : db_CountExpectedSupplierReceiptsAtLocation db id st = Ok n ->
    n = count (expected_at_location id) (wh_receipts (view st))
}.
