(* ===== verification/InventoryMoves.v ===== *)
(** * What can happen to the stock

    The abstract account the service refines: how the tables move ([move]), and the invariant they
    keep ([sound]). Units are counted three ways, by the levels, by the standing promises and by the
    ledger, and the invariant says the three agree. *)
From S2P Require Import Prelude GoText Errors Identifiers Database InventoryModels.
Set Warnings "-clear-no-such-hyp".

(** ** Counting *)

(** What a movement adds at a shelf. *)
Definition units_here (item location : string) (m : Movement) : Z :=
  if decide (mv_InventoryItemID m = item /\ mv_LocationID m = location) then mv_Delta m else 0.

Definition moved (item location : string) (led : list Movement) : Z := log_sum (units_here item location) led.

(** What an active promise holds of a shelf. *)
Definition held_here (item location : string) (r : Reservation) : Z :=
  if decide (rs_InventoryItemID r = item /\ rs_LocationID r = location /\ rs_Status r = ReservationActive)
  then rs_Quantity r else 0.

Definition held (item location : string) (rs : gmap string Reservation) : Z :=
  sum_of (held_here item location) rs.

(** What left against a promise, and what a receipt brought. *)
Definition left_for (id : string) (m : Movement) : Z :=
  if decide (mv_ReservationID m = id) then mv_Delta m else 0.

Definition received_for (id : string) (m : Movement) : Z :=
  if decide (receipt_movement id m) then mv_Delta m else 0.

(** ** The ledger *)

(** The reasons that only add. *)
Definition adds (r : MovementReason) : bool :=
  Contains [MovementReturnRestock; MovementCancellation; MovementSupplierReceipt] r.

Record explains (led : list Movement) (m : Movement) : Prop := {
  ex_delta : mv_Delta m <> 0;
  ex_after : mv_StockedAfter m = moved (mv_InventoryItemID m) (mv_LocationID m) led + mv_Delta m;
  ex_range : 0 <= mv_StockedAfter m <= int64_max;
  ex_reason : MovementReason_Valid (mv_Reason m) = true;
  ex_promise : mv_ReservationID m <> EmptyString <-> LeavesAgainstAPromise (mv_Reason m) = true;
  ex_reference : mv_Reference m <> EmptyString <-> CarriesAReference (mv_Reason m) = true;
  ex_leaves : LeavesAgainstAPromise (mv_Reason m) = true -> mv_Delta m < 0;
  ex_adds : adds (mv_Reason m) = true -> 0 < mv_Delta m
}.

Inductive ledger_ok : list Movement -> Prop :=
| lg_nil : ledger_ok []
| lg_snoc led m : ledger_ok led -> explains led m -> ledger_ok (led ++ [m]).

(** ** The invariant *)

Record level_ok (w : Warehouse) (k : string) (l : InventoryLevel) : Prop := {
  lk_id : lv_ID l = k;
  lk_bounds : 0 <= lv_ReservedQuantity l <= lv_StockedQuantity l /\ lv_StockedQuantity l <= int64_max;
  lk_reserved : lv_ReservedQuantity l = held (lv_InventoryItemID l) (lv_LocationID l) (wh_reservations w);
  lk_stocked : lv_StockedQuantity l = moved (lv_InventoryItemID l) (lv_LocationID l) (wh_movements w);
  lk_item : is_Some (wh_items w !! lv_InventoryItemID l);
  lk_location : is_Some (wh_locations w !! lv_LocationID l)
}.

(** A level stands at the shelf. *)
Definition has_level (w : Warehouse) (item location : string) : Prop :=
  exists k l, wh_levels w !! k = Some l /\ at_shelf item location l.

Record reservation_ok (w : Warehouse) (k : string) (r : Reservation) : Prop := {
  rk_id : rs_ID r = k;
  rk_named : k <> EmptyString;
  rk_quantity : 0 < rs_Quantity r <= int64_max;
  rk_status : rs_Status r ∈ [ReservationActive; ReservationReleased; ReservationConfirmed];
  rk_purpose : ReservationPurpose_Valid (rs_Purpose r) = true;
  rk_left : log_sum (left_for k) (wh_movements w) =
    if decide (rs_Status r = ReservationConfirmed) then - rs_Quantity r else 0;
  rk_level : rs_Status r = ReservationActive -> has_level w (rs_InventoryItemID r) (rs_LocationID r)
}.

Record movement_ok (w : Warehouse) (m : Movement) : Prop := {
  mk_item : is_Some (wh_items w !! mv_InventoryItemID m) \/ mv_InventoryItemID m ∈ wh_retired w;
  mk_level : is_Some (wh_items w !! mv_InventoryItemID m) ->
    has_level w (mv_InventoryItemID m) (mv_LocationID m);
  mk_reservation : mv_ReservationID m <> EmptyString -> is_Some (wh_reservations w !! mv_ReservationID m);
  mk_receipt : mv_Reason m = MovementSupplierReceipt -> is_Some (wh_receipts w !! mv_Reference m)
}.

(** The promise a filled claim was turned into. *)
Definition fulfilled (w : Warehouse) (b : Backorder) : Prop :=
  exists r, wh_reservations w !! bo_ReservationID b = Some r /\ rs_Status r = ReservationConfirmed /\
    rs_Quantity r = bo_Quantity b - bo_WithdrawnQuantity b /\ rs_InventoryItemID r = bo_InventoryItemID b /\
    rs_LocationID r = bo_FilledLocationID b /\ bo_FilledLocationID b ∈ bo_LocationIDs b.

Record backorder_ok (w : Warehouse) (k : string) (b : Backorder) : Prop := {
  bk_id : bo_ID b = k;
  bk_quantity : 0 < bo_Quantity b <= int64_max;
  bk_withdrawn : 0 <= bo_WithdrawnQuantity b <= bo_Quantity b;
  bk_status : bo_Status b ∈ [BackorderWaiting; BackorderFilled; BackorderWithdrawn];
  bk_whole : bo_Status b = BackorderWithdrawn <-> bo_WithdrawnQuantity b = bo_Quantity b;
  bk_waiting : bo_Status b = BackorderWaiting -> is_Some (wh_items w !! bo_InventoryItemID b);
  bk_filled : bo_Status b = BackorderFilled -> fulfilled w b
}.

Record receipt_ok (w : Warehouse) (k : string) (r : SupplierReceipt) : Prop := {
  ck_id : sr_ID r = k;
  ck_quantity : 0 < sr_Quantity r;
  ck_status : sr_Status r ∈ [SupplierReceiptExpected; SupplierReceiptReceived; SupplierReceiptCanceled];
  ck_none : sr_Status r <> SupplierReceiptReceived ->
    sr_ReceivedQuantity r = 0 /\ Forall (fun m => ~ receipt_movement k m) (wh_movements w);
  ck_received : sr_Status r = SupplierReceiptReceived ->
    0 < sr_ReceivedQuantity r /\ log_sum (received_for k) (wh_movements w) = sr_ReceivedQuantity r;
  ck_expected : sr_Status r = SupplierReceiptExpected -> is_Some (wh_items w !! sr_InventoryItemID r)
}.

(** Nothing is at a location: no units, no standing promise, nothing on its way. *)
Record vacant (w : Warehouse) (location : string) : Prop := {
  vc_levels k l : wh_levels w !! k = Some l -> lv_LocationID l = location -> lv_StockedQuantity l = 0;
  vc_active k r : wh_reservations w !! k = Some r -> ~ active_at_location location r;
  vc_expected k r : wh_receipts w !! k = Some r -> ~ expected_at_location location r
}.

Record sound (w : Warehouse) : Prop := {
  so_levels k l : wh_levels w !! k = Some l -> level_ok w k l;
  so_shelves k k' l l' : wh_levels w !! k = Some l -> wh_levels w !! k' = Some l' ->
    at_shelf (lv_InventoryItemID l) (lv_LocationID l) l' -> k = k';
  so_reservations k r : wh_reservations w !! k = Some r -> reservation_ok w k r;
  so_ledger : ledger_ok (wh_movements w);
  so_movements m : m ∈ wh_movements w -> movement_ok w m;
  so_backorders k b : wh_backorders w !! k = Some b -> backorder_ok w k b;
  so_lines k k' b b' : wh_backorders w !! k = Some b -> wh_backorders w !! k' = Some b' ->
    bo_OrderLineItemID b = bo_OrderLineItemID b' -> bo_InventoryItemID b = bo_InventoryItemID b' -> k = k';
  so_fills k k' b b' : wh_backorders w !! k = Some b -> wh_backorders w !! k' = Some b' ->
    bo_Status b = BackorderFilled -> bo_Status b' = BackorderFilled ->
    bo_ReservationID b = bo_ReservationID b' -> k = k';
  so_receipts k r : wh_receipts w !! k = Some r -> receipt_ok w k r;
  so_closed k l : wh_locations w !! k = Some l -> Closed l = true -> vacant w k;
  so_retired k : is_Some (wh_items w !! k) -> k ∉ wh_retired w
}.

(** ** Moves *)

Definition append_entries (ms : list Movement) : Warehouse -> Warehouse := on_movements (fun led => led ++ ms).

Definition put_level (l : InventoryLevel) : Warehouse -> Warehouse := on_levels <[lv_ID l := l]>.

(** A movement that explains that a level became [l], by [d]. *)
Record entry (l : InventoryLevel) (d : Z) (m : Movement) : Prop := {
  en_item : mv_InventoryItemID m = lv_InventoryItemID l;
  en_location : mv_LocationID m = lv_LocationID l;
  en_delta : mv_Delta m = d;
  en_nonzero : d <> 0;
  en_after : mv_StockedAfter m = lv_StockedQuantity l;
  en_reason : MovementReason_Valid (mv_Reason m) = true;
  en_promise : mv_ReservationID m <> EmptyString <-> LeavesAgainstAPromise (mv_Reason m) = true;
  en_reference : mv_Reference m <> EmptyString <-> CarriesAReference (mv_Reason m) = true
}.

(** No movement where nothing moved, or the one that explains it. *)
Inductive accounted (l : InventoryLevel) (d : Z) : list Movement -> Prop :=
| ac_none : d = 0 -> accounted l d []
| ac_one m : entry l d m -> accounted l d [m].

(** A new physical count, at a shelf that has a level or at one that gets it. *)
Inductive counted (w : Warehouse) : InventoryLevel -> Z -> Prop :=
| ct_write l t s : wh_levels w !! lv_ID l = Some l -> lv_ReservedQuantity l <= s <= int64_max ->
    counted w (with_quantities s (lv_ReservedQuantity l) t l) (s - lv_StockedQuantity l)
| ct_open l : wh_levels w !! lv_ID l = None -> ~ has_level w (lv_InventoryItemID l) (lv_LocationID l) ->
    is_Some (wh_items w !! lv_InventoryItemID l) -> lv_ReservedQuantity l = 0 ->
    0 <= lv_StockedQuantity l <= int64_max -> counted w l (lv_StockedQuantity l).

Definition open_location (w : Warehouse) (location : string) : Prop :=
  exists loc, wh_locations w !! location = Some loc /\ Closed loc = false.

(** A movement a count makes: no promise is kept by it, and an arrival adds. *)
Definition plain (d : Z) (m : Movement) : Prop :=
  LeavesAgainstAPromise (mv_Reason m) = false /\ (adds (mv_Reason m) = true -> 0 < d).

(** A promise at the level's shelf. *)
Definition promised_at (l : InventoryLevel) (r : Reservation) : Prop :=
  at_shelf (rs_InventoryItemID r) (rs_LocationID r) l.

(** The movement that a promise's units leave by. *)
Definition leaving (l : InventoryLevel) (r : Reservation) (m : Movement) : Prop :=
  entry l (- rs_Quantity r) m /\ mv_ReservationID m = rs_ID r /\
  mv_Reason m = ReservationPurpose_MovementReason (rs_Purpose r).

Inductive move (w : Warehouse) : Warehouse -> Prop :=
| mv_location l : wh_locations w !! sl_ID l = None -> Closed l = false ->
    move w (on_locations <[sl_ID l := l]> w)
| mv_close id l t : wh_locations w !! id = Some l -> vacant w id ->
    move w (on_locations <[id := closed_location t l]> w)
| mv_item i : wh_items w !! it_ID i = None -> it_ID i ∉ wh_retired w ->
    move w (on_items <[it_ID i := i]> w)
| mv_delete id : is_Some (wh_items w !! id) ->
    (forall k r, wh_reservations w !! k = Some r -> ~ active_of_item id r) ->
    (forall k b, wh_backorders w !! k = Some b -> ~ waiting_of_item id b) ->
    (forall k r, wh_receipts w !! k = Some r -> ~ expected_of_item id r) ->
    move w (retire_item id (on_levels (filter (fun kl => lv_InventoryItemID kl.2 <> id)) w))
| mv_count l d ms : counted w l d -> open_location w (lv_LocationID l) -> accounted l d ms ->
    Forall (fun m => plain d m /\ mv_Reason m <> MovementSupplierReceipt) ms ->
    move w (append_entries ms (put_level l w))
| mv_receive l d m id r : counted w l d -> open_location w (lv_LocationID l) -> entry l d m ->
    plain d m -> receipt_movement id m -> wh_receipts w !! id = Some r ->
    sr_Status r = SupplierReceiptExpected ->
    move w (on_receipts <[id := received_receipt m r]> (append_entries [m] (put_level l w)))
| mv_hold l t r : wh_levels w !! lv_ID l = Some l -> wh_reservations w !! rs_ID r = None ->
    rs_ID r <> EmptyString -> promised_at l r -> rs_Status r = ReservationActive ->
    ReservationPurpose_Valid (rs_Purpose r) = true ->
    0 < rs_Quantity r <= lv_StockedQuantity l - lv_ReservedQuantity l ->
    move w (on_reservations <[rs_ID r := r]>
      (put_level (with_quantities (lv_StockedQuantity l) (lv_ReservedQuantity l + rs_Quantity r) t l) w))
| mv_release l t r t' : wh_levels w !! lv_ID l = Some l -> wh_reservations w !! rs_ID r = Some r ->
    promised_at l r -> rs_Status r = ReservationActive ->
    move w (on_reservations <[rs_ID r := with_status ReservationReleased t' r]>
      (put_level (with_quantities (lv_StockedQuantity l) (lv_ReservedQuantity l - rs_Quantity r) t l) w))
| mv_confirm l l' t r t' m : wh_levels w !! lv_ID l = Some l -> wh_reservations w !! rs_ID r = Some r ->
    promised_at l r -> rs_Status r = ReservationActive ->
    l' = with_quantities (lv_StockedQuantity l - rs_Quantity r) (lv_ReservedQuantity l - rs_Quantity r) t l ->
    leaving l' r m ->
    move w (on_reservations <[rs_ID r := with_status ReservationConfirmed t' r]>
      (append_entries [m] (put_level l' w)))
| mv_fill l l' t r m b t' : wh_levels w !! lv_ID l = Some l -> wh_reservations w !! rs_ID r = None ->
    rs_ID r <> EmptyString -> promised_at l r -> rs_Status r = ReservationConfirmed ->
    rs_Purpose r = PurposeSale ->
    wh_backorders w !! bo_ID b = Some b ->
    fits_at (lv_InventoryItemID l) (lv_LocationID l) (lv_StockedQuantity l - lv_ReservedQuantity l) b ->
    rs_Quantity r = bo_Quantity b - bo_WithdrawnQuantity b -> 0 < rs_Quantity r ->
    l' = with_quantities (lv_StockedQuantity l - rs_Quantity r) (lv_ReservedQuantity l) t l ->
    leaving l' r m ->
    move w (on_backorders <[bo_ID b := filled_backorder (rs_ID r) (lv_LocationID l) t' b]>
      (on_reservations <[rs_ID r := r]> (append_entries [m] (put_level l' w))))
| mv_claim b : wh_backorders w !! bo_ID b = None -> is_Some (wh_items w !! bo_InventoryItemID b) ->
    (forall k b', wh_backorders w !! k = Some b' ->
      ~ (bo_OrderLineItemID b' = bo_OrderLineItemID b /\ bo_InventoryItemID b' = bo_InventoryItemID b)) ->
    0 < bo_Quantity b <= int64_max -> bo_WithdrawnQuantity b = 0 -> bo_Status b = BackorderWaiting ->
    move w (on_backorders <[bo_ID b := b]> w)
| mv_withdraw b withdrawn t : wh_backorders w !! bo_ID b = Some b -> bo_Status b = BackorderWaiting ->
    bo_WithdrawnQuantity b <= withdrawn <= bo_Quantity b ->
    move w (on_backorders <[bo_ID b := withdrawn_backorder withdrawn
      (if withdrawn =? bo_Quantity b then BackorderWithdrawn else BackorderWaiting) t b]> w)
| mv_expect r : wh_receipts w !! sr_ID r = None -> is_Some (wh_items w !! sr_InventoryItemID r) ->
    open_location w (sr_LocationID r) -> 0 < sr_Quantity r -> sr_Status r = SupplierReceiptExpected ->
    sr_ReceivedQuantity r = 0 -> move w (on_receipts <[sr_ID r := r]> w)
| mv_cancel r t : wh_receipts w !! sr_ID r = Some r -> sr_Status r = SupplierReceiptExpected ->
    move w (on_receipts <[sr_ID r := canceled_receipt t r]> w).

(** * Every move keeps the stock sound *)

Arguments append_entries ms w /.
Arguments put_level l w /.

(** ** Counting facts *)

Lemma moved_snoc item location led m :
  moved item location (led ++ [m]) = moved item location led + units_here item location m.
Proof. apply log_sum_snoc. Qed.

Lemma entry_units l d m item location : entry l d m ->
  units_here item location m = if decide (at_shelf item location l) then d else 0.
Proof.
  intros [Hi Hl Hd _ _ _ _ _]. unfold units_here, at_shelf. rewrite Hi, Hl, Hd. done.
Qed.

Lemma moved_accounted l d ms item location led : accounted l d ms ->
  moved item location (led ++ ms) = moved item location led + (if decide (at_shelf item location l) then d else 0).
Proof.
  intros [->|m Hm].
  - rewrite app_nil_r. destruct (decide _); lia.
  - by rewrite moved_snoc, (entry_units _ _ _ _ _ Hm).
Qed.

Lemma held_insert item location rs k r : rs !! k = None ->
  held item location (<[k := r]> rs) = held_here item location r + held item location rs.
Proof. apply sum_of_insert. Qed.

Lemma held_update item location rs k r r' : rs !! k = Some r ->
  held item location (<[k := r']> rs) = held item location rs - held_here item location r + held_here item location r'.
Proof. apply sum_of_update. Qed.

Lemma held_here_active item location l r : promised_at l r -> rs_Status r = ReservationActive ->
  held_here item location r = if decide (at_shelf item location l) then rs_Quantity r else 0.
Proof.
  unfold promised_at, held_here, at_shelf. intros [E1 E2] E3.
  repeat destruct (decide _); naive_solver.
Qed.

Lemma held_here_inactive item location r : rs_Status r <> ReservationActive -> held_here item location r = 0.
Proof. intros Hs. unfold held_here. rewrite decide_False; [done|]. by intros (_ & _ & ?). Qed.

Lemma at_own_shelf l : at_shelf (lv_InventoryItemID l) (lv_LocationID l) l.
Proof. done. Qed.

Lemma at_shelf_trans item location l l' : at_shelf item location l ->
  at_shelf (lv_InventoryItemID l) (lv_LocationID l) l' -> at_shelf item location l'.
Proof. unfold at_shelf. intros [<- <-]. done. Qed.

Lemma at_shelf_sym l l' : at_shelf (lv_InventoryItemID l) (lv_LocationID l) l' ->
  at_shelf (lv_InventoryItemID l') (lv_LocationID l') l.
Proof. by intros [-> ->]. Qed.

Lemma plain_unnamed d m l : plain d m -> entry l d m -> mv_ReservationID m = EmptyString.
Proof.
  intros [Hl _] Hm. pose proof (en_promise _ _ _ Hm) as Hp. rewrite Hl in Hp.
  destruct (decide (mv_ReservationID m = EmptyString)) as [E|E]; [done|]. by apply Hp in E.
Qed.

Lemma left_for_other k m : mv_ReservationID m <> k -> left_for k m = 0.
Proof. intros H. unfold left_for. by rewrite decide_False. Qed.

(** ** The place of a level *)

(** A level is put where its row was, or at a shelf that had none. *)
Definition placed (w : Warehouse) (l' : InventoryLevel) : Prop :=
  forall k l, wh_levels w !! k = Some l ->
    (k = lv_ID l' <-> at_shelf (lv_InventoryItemID l) (lv_LocationID l) l').

Section Placed.
Context (w : Warehouse) (Hw : sound w).

Lemma placed_write l l' : wh_levels w !! lv_ID l = Some l -> lv_ID l' = lv_ID l ->
  at_shelf (lv_InventoryItemID l) (lv_LocationID l) l' -> placed w l'.
Proof.
  intros Hl Hid Hs k l0 Hk. rewrite Hid. split.
  - intros ->. rewrite Hl in Hk. by injection Hk as <-.
  - intros Ha. apply (so_shelves _ Hw k (lv_ID l) l0 l Hk Hl).
    eapply at_shelf_trans; [exact Ha|]. by apply at_shelf_sym.
Qed.

Lemma placed_quantities l s q t : wh_levels w !! lv_ID l = Some l -> placed w (with_quantities s q t l).
Proof. intros Hl. by apply (placed_write l). Qed.

Lemma counted_placed l d : counted w l d -> placed w l.
Proof.
  intros [l0 t s Hl _|l0 Hn Hno _ _ _]; [by apply placed_quantities|].
  intros k l' Hk. split.
  - intros ->. by rewrite Hk in Hn.
  - intros Ha. destruct Hno. exists k, l'. split; [done|]. by apply at_shelf_sym.
Qed.

Lemma has_level_put l' item location (w' : Warehouse) : placed w l' ->
  wh_levels w' = <[lv_ID l' := l']> (wh_levels w) -> has_level w item location -> has_level w' item location.
Proof.
  intros Hp E (k & l & Hk & Ha). unfold has_level. rewrite E.
  destruct (decide (k = lv_ID l')) as [->|Hne].
  - exists (lv_ID l'), l'. rewrite lookup_insert_eq. split; [done|].
    eapply at_shelf_trans; [exact Ha|]. by apply (Hp _ _ Hk).
  - exists k, l. by rewrite lookup_insert_ne.
Qed.

(** The levels after one was put. *)
Lemma levels_after l' (w' : Warehouse) : placed w l' ->
  wh_levels w' = <[lv_ID l' := l']> (wh_levels w) -> wh_items w' = wh_items w ->
  wh_locations w' = wh_locations w -> level_ok w' (lv_ID l') l' ->
  (forall item location, ~ at_shelf item location l' ->
    held item location (wh_reservations w') = held item location (wh_reservations w) /\
    moved item location (wh_movements w') = moved item location (wh_movements w)) ->
  (forall k l, wh_levels w' !! k = Some l -> level_ok w' k l) /\
  (forall k k' l l0, wh_levels w' !! k = Some l -> wh_levels w' !! k' = Some l0 ->
    at_shelf (lv_InventoryItemID l) (lv_LocationID l) l0 -> k = k').
Proof.
  intros Hp E Ei El Hok Hsame. split; rewrite E.
  - intros k l [[<- <-]|[Hne Hk]]%lookup_insert_Some; [done|].
    destruct (so_levels _ Hw k l Hk) as [Hid Hb Hr Hs Hi Hloc].
    destruct (Hsame (lv_InventoryItemID l) (lv_LocationID l)) as [Hh Hm].
    { intros Ha. apply Hne. symmetry. by apply (Hp k l Hk). }
    split; rewrite ?Hh, ?Hm, ?Ei, ?El; done.
  - intros k k' l l0 [[<- <-]|[Hne Hk]]%lookup_insert_Some [[<- <-]|[Hne' Hk']]%lookup_insert_Some Ha; [done|..].
    + symmetry. apply (Hp _ _ Hk'). by apply at_shelf_sym.
    + by apply (Hp _ _ Hk).
    + by apply (so_shelves _ Hw k k' l l0).
Qed.
End Placed.

(** ** What a move keeps of what others refer to *)

Record grows (w w' : Warehouse) : Prop := {
  gr_items i : is_Some (wh_items w !! i) -> is_Some (wh_items w' !! i);
  gr_fresh i : is_Some (wh_items w' !! i) -> i ∈ wh_retired w -> is_Some (wh_items w !! i);
  gr_retired : wh_retired w' = wh_retired w;
  gr_levels item location : has_level w item location -> has_level w' item location;
  gr_reservations k : is_Some (wh_reservations w !! k) -> is_Some (wh_reservations w' !! k);
  gr_confirmed k r : wh_reservations w !! k = Some r -> rs_Status r = ReservationConfirmed ->
    wh_reservations w' !! k = Some r;
  gr_receipts k : is_Some (wh_receipts w !! k) -> is_Some (wh_receipts w' !! k)
}.

Section Grows.
Context (w w' : Warehouse) (Hg : grows w w').

Lemma movement_grows m : movement_ok w m -> movement_ok w' m.
Proof.
  intros [Hi Hl Hr Hc]. split.
  - rewrite (gr_retired _ _ Hg). destruct Hi; [left; by apply Hg|by right].
  - intros H. apply (gr_levels _ _ Hg), Hl. destruct Hi as [Hi|Hi]; [done|]. by apply (gr_fresh _ _ Hg).
  - intros H. by apply (gr_reservations _ _ Hg), Hr.
  - intros H. by apply (gr_receipts _ _ Hg), Hc.
Qed.

Lemma fulfilled_grows b : fulfilled w b -> fulfilled w' b.
Proof. intros (r & Hr & Hs & Hrest). exists r. split_and!; try apply Hrest; [by apply (gr_confirmed _ _ Hg)|done]. Qed.

Lemma backorder_grows k b : backorder_ok w k b -> backorder_ok w' k b.
Proof.
  intros [? ? ? ? ? Hw Hf]. split; try done.
  - intros H. by apply (gr_items _ _ Hg), Hw.
  - intros H. by apply fulfilled_grows, Hf.
Qed.

(** A receipt that no new movement names. *)
Lemma receipt_grows ms k r : wh_movements w' = wh_movements w ++ ms ->
  Forall (fun m => ~ receipt_movement k m) ms -> receipt_ok w k r -> receipt_ok w' k r.
Proof.
  intros E Hms [? ? ? Hn Hr He]. split; try done.
  - intros H. destruct (Hn H) as [? Hf]. split; [done|]. rewrite E. by apply Forall_app.
  - intros H. destruct (Hr H) as [? Hsum]. split; [done|]. rewrite E, <- Hsum.
    apply log_sum_app_zero. eapply Forall_impl; [exact Hms|]. intros m Hm. unfold received_for.
    by rewrite decide_False.
  - intros H. by apply (gr_items _ _ Hg), He.
Qed.

(** A reservation that no new movement names. *)
Lemma reservation_grows ms k r : wh_movements w' = wh_movements w ++ ms ->
  Forall (fun m => mv_ReservationID m <> k) ms -> reservation_ok w k r -> reservation_ok w' k r.
Proof.
  intros E Hms [? ? ? ? ? Hl Hv]. split; try done.
  - rewrite E, <- Hl. apply log_sum_app_zero. eapply Forall_impl; [exact Hms|]. apply left_for_other.
  - intros H. by apply (gr_levels _ _ Hg), Hv.
Qed.
End Grows.
