(* ===== verification/InventoryKept.v ===== *)
(** * Every move keeps the stock sound

    The moves that touch no level first, then those that change one and the physical count. Promises and
    claims are in InventoryPromises. *)
From S2P Require Import Prelude GoText Errors Identifiers Database InventoryModels InventoryMoves.

(** ** Moves that touch neither a level, nor a promise, nor the ledger *)

Record claims_ok (w : Warehouse) : Prop := {
  cl_rows k b : wh_backorders w !! k = Some b -> backorder_ok w k b;
  cl_lines k k' b b' : wh_backorders w !! k = Some b -> wh_backorders w !! k' = Some b' ->
    bo_OrderLineItemID b = bo_OrderLineItemID b' -> bo_InventoryItemID b = bo_InventoryItemID b' -> k = k';
  cl_fills k k' b b' : wh_backorders w !! k = Some b -> wh_backorders w !! k' = Some b' ->
    bo_Status b = BackorderFilled -> bo_Status b' = BackorderFilled ->
    bo_ReservationID b = bo_ReservationID b' -> k = k'
}.

Definition receipts_ok (w : Warehouse) : Prop := forall k r, wh_receipts w !! k = Some r -> receipt_ok w k r.

Definition closures_ok (w : Warehouse) : Prop :=
  forall k l, wh_locations w !! k = Some l -> Closed l = true -> vacant w k.

Section Parts.
Context (w : Warehouse) (Hw : sound w).

Lemma claims_grow w' : grows w w' -> wh_backorders w' = wh_backorders w -> claims_ok w'.
Proof.
  intros Hg E. split; rewrite E.
  - intros k b Hb. by apply (backorder_grows w w' Hg), (so_backorders _ Hw).
  - apply (so_lines _ Hw).
  - apply (so_fills _ Hw).
Qed.

Lemma receipts_grow w' ms : grows w w' -> wh_receipts w' = wh_receipts w ->
  wh_movements w' = wh_movements w ++ ms -> Forall (fun m => mv_Reason m <> MovementSupplierReceipt) ms ->
  receipts_ok w'.
Proof.
  intros Hg E Em Hms k r Hr. rewrite E in Hr. apply (receipt_grows w w' Hg ms); [done| |by apply (so_receipts _ Hw)].
  eapply Forall_impl; [exact Hms|]. by intros m Hm [? _].
Qed.

Lemma closures_same w' : wh_locations w' = wh_locations w -> wh_levels w' = wh_levels w ->
  wh_reservations w' = wh_reservations w -> wh_receipts w' = wh_receipts w -> closures_ok w'.
Proof.
  intros El Ev Er Ec k l. rewrite El. intros Hl Hc. destruct (so_closed _ Hw k l Hl Hc) as [H1 H2 H3].
  split; rewrite ?Ev, ?Er, ?Ec; done.
Qed.

Lemma vacant_same w' k : wh_levels w' = wh_levels w -> wh_reservations w' = wh_reservations w ->
  wh_receipts w' = wh_receipts w -> vacant w k -> vacant w' k.
Proof. intros Ev Er Ec [H1 H2 H3]. split; rewrite ?Ev, ?Er, ?Ec; done. Qed.

Lemma quiet_sound w' : grows w w' -> wh_levels w' = wh_levels w -> wh_reservations w' = wh_reservations w ->
  wh_movements w' = wh_movements w -> (forall k, is_Some (wh_locations w !! k) -> is_Some (wh_locations w' !! k)) ->
  claims_ok w' -> receipts_ok w' -> closures_ok w' ->
  (forall k, is_Some (wh_items w' !! k) -> k ∉ wh_retired w') -> sound w'.
Proof.
  intros Hg Ev Er Em El [? ? ?] Hc Hcl Hret. split; try done; rewrite ?Ev, ?Er, ?Em.
  - intros k l Hk. destruct (so_levels _ Hw k l Hk) as [? ? ? ? ? ?].
    split; rewrite ?Er, ?Em; try done; [by apply (gr_items _ _ Hg)|by apply El].
  - apply (so_shelves _ Hw).
  - intros k r Hr. apply (reservation_grows w w' Hg []); [by rewrite app_nil_r|constructor|by apply (so_reservations _ Hw)].
  - apply (so_ledger _ Hw).
  - intros m Hm. by apply (movement_grows w w' Hg), (so_movements _ Hw).
Qed.

Lemma grows_quiet w' : (forall i, is_Some (wh_items w !! i) -> is_Some (wh_items w' !! i)) ->
  (forall i, is_Some (wh_items w' !! i) -> i ∈ wh_retired w -> is_Some (wh_items w !! i)) ->
  wh_retired w' = wh_retired w -> wh_levels w' = wh_levels w -> wh_reservations w' = wh_reservations w ->
  (forall k, is_Some (wh_receipts w !! k) -> is_Some (wh_receipts w' !! k)) -> grows w w'.
Proof.
  intros Hi Hf Hr Hl Hrs Hc. split; try done; rewrite ?Hrs; try done.
  intros item location. unfold has_level. by rewrite Hl.
Qed.

Lemma location_sound l : wh_locations w !! sl_ID l = None -> Closed l = false ->
  sound (on_locations <[sl_ID l := l]> w).
Proof.
  intros Hn Ho. assert (grows w (on_locations <[sl_ID l := l]> w)) as Hg by by apply grows_quiet.
  apply quiet_sound; try done; cbn.
  - intros k Hk. destruct (decide (k = sl_ID l)) as [->|Hne]; [by rewrite lookup_insert_eq|by rewrite lookup_insert_ne].
  - by apply claims_grow.
  - apply (receipts_grow _ []); [done..|by rewrite app_nil_r|constructor].
  - intros k l0; cbn; intros [[<- <-]|[Hne Hk]]%lookup_insert_Some Hc; [congruence|].
    apply vacant_same; try done. by apply (so_closed _ Hw k l0).
  - apply (so_retired _ Hw).
Qed.

Lemma close_sound id l t : wh_locations w !! id = Some l -> vacant w id ->
  sound (on_locations <[id := closed_location t l]> w).
Proof.
  intros Hl Hv. assert (grows w (on_locations <[id := closed_location t l]> w)) as Hg by by apply grows_quiet.
  apply quiet_sound; try done; cbn.
  - intros k Hk. destruct (decide (k = id)) as [->|Hne]; [by rewrite lookup_insert_eq|by rewrite lookup_insert_ne].
  - by apply claims_grow.
  - apply (receipts_grow _ []); [done..|by rewrite app_nil_r|constructor].
  - intros k l0; cbn; intros [[<- <-]|[Hne Hk]]%lookup_insert_Some Hc; [by apply vacant_same|].
    apply vacant_same; try done. by apply (so_closed _ Hw k l0).
  - apply (so_retired _ Hw).
Qed.

Lemma item_sound i : wh_items w !! it_ID i = None -> it_ID i ∉ wh_retired w ->
  sound (on_items <[it_ID i := i]> w).
Proof.
  intros Hn Hr. assert (grows w (on_items <[it_ID i := i]> w)) as Hg.
  { apply grows_quiet; try done; cbn.
    - intros k Hk. destruct (decide (k = it_ID i)) as [->|Hne]; [by rewrite lookup_insert_eq|by rewrite lookup_insert_ne].
    - intros k Hk Hin. rewrite lookup_insert_ne in Hk; [done|]. by intros <-. }
  apply quiet_sound; try done; cbn.
  - by apply claims_grow.
  - apply (receipts_grow _ []); [done..|by rewrite app_nil_r|constructor].
  - by apply closures_same.
  - intros k Hk. destruct (decide (k = it_ID i)) as [->|Hne]; [done|].
    rewrite lookup_insert_ne in Hk by done. by apply (so_retired _ Hw).
Qed.

(** A change of the claims alone. *)
Lemma backorders_sound f : claims_ok (on_backorders f w) -> sound (on_backorders f w).
Proof.
  intros Hc. assert (grows w (on_backorders f w)) as Hg by by apply grows_quiet.
  apply quiet_sound; try done.
  - apply (receipts_grow _ []); [done..|by rewrite app_nil_r|constructor].
  - by apply closures_same.
  - apply (so_retired _ Hw).
Qed.

Lemma claim_sound b : wh_backorders w !! bo_ID b = None -> is_Some (wh_items w !! bo_InventoryItemID b) ->
  (forall k b', wh_backorders w !! k = Some b' ->
    ~ (bo_OrderLineItemID b' = bo_OrderLineItemID b /\ bo_InventoryItemID b' = bo_InventoryItemID b)) ->
  0 < bo_Quantity b <= int64_max -> bo_WithdrawnQuantity b = 0 -> bo_Status b = BackorderWaiting ->
  sound (on_backorders <[bo_ID b := b]> w).
Proof.
  intros Hn Hi Hno Hq Hwd Hs. apply backorders_sound.
  assert (grows w (on_backorders <[bo_ID b := b]> w)) as Hg by by apply grows_quiet.
  split; cbn.
  - intros k b0 [[<- <-]|[Hne Hk]]%lookup_insert_Some; [|by apply (backorder_grows w _ Hg), (so_backorders _ Hw)].
    split; rewrite ?Hwd, ?Hs; try done; try lia.
    + apply list_elem_of_here.
    + split; [done|lia].
  - intros k k' b0 b1 [[<- <-]|[Hne Hk]]%lookup_insert_Some [[<- <-]|[Hne' Hk']]%lookup_insert_Some Hl Hit;
      [done|by destruct (Hno _ _ Hk')|by destruct (Hno _ _ Hk)|by apply (so_lines _ Hw k k' b0 b1)].
  - intros k k' b0 b1 [[<- <-]|[Hne Hk]]%lookup_insert_Some [[<- <-]|[Hne' Hk']]%lookup_insert_Some Hf Hf';
      [done|by rewrite Hs in Hf|by rewrite Hs in Hf'|by apply (so_fills _ Hw k k' b0 b1)].
Qed.

Lemma withdraw_sound b withdrawn t : wh_backorders w !! bo_ID b = Some b -> bo_Status b = BackorderWaiting ->
  bo_WithdrawnQuantity b <= withdrawn <= bo_Quantity b ->
  sound (on_backorders <[bo_ID b := withdrawn_backorder withdrawn
    (if withdrawn =? bo_Quantity b then BackorderWithdrawn else BackorderWaiting) t b]> w).
Proof.
  intros Hb Hs Hwd. apply backorders_sound. set (status := if withdrawn =? bo_Quantity b then BackorderWithdrawn else BackorderWaiting).
  assert (status <> BackorderFilled) as Hnf by (unfold status; by destruct (_ =? _)).
  assert (grows w (on_backorders <[bo_ID b := withdrawn_backorder withdrawn status t b]> w)) as Hg by by apply grows_quiet.
  destruct (so_backorders _ Hw _ _ Hb) as [Hid Hq Hw0 _ _ Hwait _].
  split; cbn.
  - intros k b0 [[<- <-]|[Hne Hk]]%lookup_insert_Some; [|by apply (backorder_grows w _ Hg), (so_backorders _ Hw)].
    split; cbn; try done; try lia.
    + unfold status. destruct (_ =? _); set_solver.
    + unfold status. destruct (Z.eqb_spec withdrawn (bo_Quantity b)); naive_solver.
    + intros _. by apply Hwait.
  - intros k k' b0 b1 [[<- <-]|[Hne Hk]]%lookup_insert_Some [[<- <-]|[Hne' Hk']]%lookup_insert_Some; cbn;
      [done|by apply (so_lines _ Hw (bo_ID b) k' b b1)|by apply (so_lines _ Hw k (bo_ID b) b0 b)|by apply (so_lines _ Hw k k' b0 b1)].
  - intros k k' b0 b1 [[<- <-]|[Hne Hk]]%lookup_insert_Some [[<- <-]|[Hne' Hk']]%lookup_insert_Some; cbn;
      [done|done|done|by apply (so_fills _ Hw k k' b0 b1)].
Qed.

(** A change of the receipts alone. *)
Lemma receipts_sound f : (forall k, is_Some (wh_receipts w !! k) -> is_Some (f (wh_receipts w) !! k)) ->
  receipts_ok (on_receipts f w) -> closures_ok (on_receipts f w) -> sound (on_receipts f w).
Proof.
  intros Hf Hc Hcl. assert (grows w (on_receipts f w)) as Hg by by apply grows_quiet.
  apply quiet_sound; try done; [by apply claims_grow|apply (so_retired _ Hw)].
Qed.

Lemma is_Some_insert {A} (m : gmap string A) k k' v : is_Some (m !! k') -> is_Some (<[k := v]> m !! k').
Proof. destruct (decide (k' = k)) as [->|Hne]; [by rewrite lookup_insert_eq|by rewrite lookup_insert_ne]. Qed.

(** No movement names a receipt that is not there. *)
Lemma unnamed_receipt k : wh_receipts w !! k = None -> Forall (fun m => ~ receipt_movement k m) (wh_movements w).
Proof.
  intros Hn. apply Forall_forall. intros m Hm [Hr Hk].
  pose proof (mk_receipt _ _ (so_movements _ Hw m Hm) Hr) as [r E]. by rewrite Hk, Hn in E.
Qed.

Lemma expect_sound r : wh_receipts w !! sr_ID r = None -> is_Some (wh_items w !! sr_InventoryItemID r) ->
  open_location w (sr_LocationID r) -> 0 < sr_Quantity r -> sr_Status r = SupplierReceiptExpected ->
  sr_ReceivedQuantity r = 0 -> sound (on_receipts <[sr_ID r := r]> w).
Proof.
  intros Hn Hi (loc & Hloc & Ho) Hq Hs Hrq.
  apply receipts_sound; [intros k; by apply is_Some_insert|..].
  - assert (grows w (on_receipts <[sr_ID r := r]> w)) as Hg
      by (apply grows_quiet; try done; intros k; by apply is_Some_insert).
    intros k r0; cbn; intros [[<- <-]|[Hne Hk]]%lookup_insert_Some;
      [|by apply (receipt_grows w _ Hg []); [rewrite app_nil_r|constructor|apply (so_receipts _ Hw)]].
    split; rewrite ?Hs; try done; [apply list_elem_of_here|].
    intros _. split; [done|]. by apply unnamed_receipt.
  - intros k l Hl Hc. destruct (so_closed _ Hw k l Hl Hc) as [H1 H2 H3]. split; try done. cbn.
    intros k0 r0 [[<- <-]|[Hne Hk]]%lookup_insert_Some; [|by apply (H3 k0)].
    intros [E _]. rewrite E in Hloc. cbn in Hl. congruence.
Qed.

Lemma cancel_sound r t : wh_receipts w !! sr_ID r = Some r -> sr_Status r = SupplierReceiptExpected ->
  sound (on_receipts <[sr_ID r := canceled_receipt t r]> w).
Proof.
  intros Hr Hs. apply receipts_sound; [intros k; by apply is_Some_insert|..].
  - assert (grows w (on_receipts <[sr_ID r := canceled_receipt t r]> w)) as Hg
      by (apply grows_quiet; try done; intros k; by apply is_Some_insert).
    intros k r0; cbn; intros [[<- <-]|[Hne Hk]]%lookup_insert_Some;
      [|by apply (receipt_grows w _ Hg []); [rewrite app_nil_r|constructor|apply (so_receipts _ Hw)]].
    destruct (so_receipts _ Hw _ _ Hr) as [? ? _ Hnone _ _]. split; try done; cbn; [set_solver|].
    intros _. apply Hnone. by rewrite Hs.
  - intros k l Hl Hc. destruct (so_closed _ Hw k l Hl Hc) as [H1 H2 H3]. split; try done. cbn.
    intros k0 r0 [[<- <-]|[Hne Hk]]%lookup_insert_Some; [|by apply (H3 k0)]. by intros [_ ?].
Qed.
End Parts.

(** * Every move keeps the stock sound: the moves that change a level *)

Section Kept.
Context (w : Warehouse) (Hw : sound w).

(** ** An item goes *)

Lemma delete_sound id : is_Some (wh_items w !! id) ->
  (forall k r, wh_reservations w !! k = Some r -> ~ active_of_item id r) ->
  (forall k b, wh_backorders w !! k = Some b -> ~ waiting_of_item id b) ->
  (forall k r, wh_receipts w !! k = Some r -> ~ expected_of_item id r) ->
  sound (retire_item id (on_levels (filter (fun kl => lv_InventoryItemID kl.2 <> id)) w)).
Proof.
  intros Hid Ha Hb Hr. set (w' := retire_item id _).
  assert (forall i, is_Some (wh_items w !! i) -> i <> id -> is_Some (wh_items w' !! i)) as Hi.
  { intros i Hi Hne. cbn. by rewrite lookup_delete_ne. }
  assert (forall item location, has_level w item location -> item <> id -> has_level w' item location) as Hl.
  { intros item location (k & l & Hk & Hs) Hne. exists k, l. split; [|done]. cbn. apply map_lookup_filter_Some.
    split; [done|]. cbn. by destruct Hs as [-> _]. }
  split; cbn.
  - intros k l [Hk Hne]%map_lookup_filter_Some. destruct (so_levels _ Hw k l Hk) as [? ? ? ? Hit ?]. split; try done. by apply Hi.
  - intros k k' l l' [Hk _]%map_lookup_filter_Some [Hk' _]%map_lookup_filter_Some. by apply (so_shelves _ Hw k k' l l').
  - intros k r Hk. destruct (so_reservations _ Hw k r Hk) as [? ? ? ? ? ? Hv]. split; try done.
    intros Hs. apply Hl; [by apply Hv|]. intros E. by apply (Ha k r Hk).
  - apply (so_ledger _ Hw).
  - intros m Hm. destruct (so_movements _ Hw m Hm) as [Hmi Hml ? ?]. split; try done; cbn.
    + destruct (decide (mv_InventoryItemID m = id)) as [->|Hne]; [right; by apply elem_of_union_l, elem_of_singleton|].
      destruct Hmi as [?|?]; [left; by apply Hi|right; by apply elem_of_union_r].
    + intros Hs. destruct (decide (mv_InventoryItemID m = id)) as [E|Hne].
      { rewrite E, lookup_delete_eq in Hs. by destruct Hs. }
      rewrite lookup_delete_ne in Hs by done. by apply Hl; [apply Hml|].
  - intros k b Hk. destruct (so_backorders _ Hw k b Hk) as [? ? ? ? ? Hwt ?]. split; try done.
    intros Hs. apply Hi; [by apply Hwt|]. intros E. by apply (Hb k b Hk).
  - apply (so_lines _ Hw).
  - apply (so_fills _ Hw).
  - intros k r Hk. destruct (so_receipts _ Hw k r Hk) as [? ? ? ? ? He]. split; try done.
    intros Hs. apply Hi; [by apply He|]. intros E. by apply (Hr k r Hk).
  - intros k l Hk Hc. destruct (so_closed _ Hw k l Hk Hc) as [H1 H2 H3]. split; try done.
    intros k0 l0 [Hk0 _]%map_lookup_filter_Some. by apply (H1 k0).
  - intros k [Hne Hk]%lookup_delete_is_Some. pose proof (so_retired _ Hw k Hk).
    apply not_elem_of_union. by rewrite not_elem_of_singleton.
Qed.

(** ** A level is put *)

(** A promise or a movement at a shelf needs a level there. *)
Lemma held_none item location : ~ has_level w item location -> held item location (wh_reservations w) = 0.
Proof.
  intros Hn. apply sum_of_zero. intros k r Hr. unfold held_here. destruct (decide _) as [(<- & <- & Hs)|]; [|done].
  destruct Hn. by apply (rk_level _ _ _ (so_reservations _ Hw k r Hr)).
Qed.

Lemma moved_none item location : is_Some (wh_items w !! item) -> ~ has_level w item location ->
  moved item location (wh_movements w) = 0.
Proof.
  intros Hi Hn. apply log_sum_zero. intros m Hm. unfold units_here. destruct (decide _) as [[E <-]|]; [|done].
  destruct Hn. rewrite <- E in Hi |- *. by apply (mk_level _ _ (so_movements _ Hw m Hm)).
Qed.

Lemma counted_moved l d : counted w l d ->
  moved (lv_InventoryItemID l) (lv_LocationID l) (wh_movements w) + d = lv_StockedQuantity l.
Proof.
  intros [l0 t s Hl Hs|l0 Hn Hno Hi Hr Hb]; cbn.
  - rewrite <- (lk_stocked _ _ _ (so_levels _ Hw _ _ Hl)). lia.
  - by rewrite moved_none.
Qed.

Lemma counted_reserved l d : counted w l d ->
  lv_ReservedQuantity l = held (lv_InventoryItemID l) (lv_LocationID l) (wh_reservations w).
Proof.
  intros [l0 t s Hl Hs|l0 Hn Hno Hi Hr Hb]; cbn.
  - apply (lk_reserved _ _ _ (so_levels _ Hw _ _ Hl)).
  - by rewrite held_none.
Qed.

Lemma counted_bounds l d : counted w l d ->
  0 <= lv_ReservedQuantity l <= lv_StockedQuantity l /\ lv_StockedQuantity l <= int64_max.
Proof.
  intros [l0 t s Hl Hs|l0 Hn Hno Hi Hr Hb]; cbn; [|lia].
  pose proof (lk_bounds _ _ _ (so_levels _ Hw _ _ Hl)). lia.
Qed.

Lemma counted_item l d : counted w l d -> is_Some (wh_items w !! lv_InventoryItemID l).
Proof. intros [l0 t s Hl Hs|l0 Hn Hno Hi Hr Hb]; cbn; [|done]. apply (lk_item _ _ _ (so_levels _ Hw _ _ Hl)). Qed.

(** The next entry of the ledger. *)
Lemma entry_explains l d m : entry l d m ->
  moved (lv_InventoryItemID l) (lv_LocationID l) (wh_movements w) + d = lv_StockedQuantity l ->
  0 <= lv_StockedQuantity l <= int64_max ->
  (LeavesAgainstAPromise (mv_Reason m) = true -> d < 0) -> (adds (mv_Reason m) = true -> 0 < d) ->
  ledger_ok (wh_movements w ++ [m]).
Proof.
  intros [Hi Hl Hd Hn Ha Hr Hp Hf] Hm Hb Hleave Hadd. constructor; [apply (so_ledger _ Hw)|].
  split; rewrite ?Hi, ?Hl, ?Hd, ?Ha; done.
Qed.

Lemma grows_put l' w' : placed w l' -> wh_levels w' = <[lv_ID l' := l']> (wh_levels w) ->
  wh_items w' = wh_items w -> wh_retired w' = wh_retired w ->
  (forall k, is_Some (wh_reservations w !! k) -> is_Some (wh_reservations w' !! k)) ->
  (forall k r, wh_reservations w !! k = Some r -> rs_Status r = ReservationConfirmed ->
    wh_reservations w' !! k = Some r) ->
  (forall k, is_Some (wh_receipts w !! k) -> is_Some (wh_receipts w' !! k)) -> grows w w'.
Proof.
  intros Hp El Ei Er Hrs Hcf Hrc. split; try done; rewrite ?Ei; try done.
  intros item location. by apply (has_level_put w l').
Qed.

Lemma put_sound l' ms w' : placed w l' -> wh_levels w' = <[lv_ID l' := l']> (wh_levels w) ->
  wh_items w' = wh_items w -> wh_locations w' = wh_locations w -> wh_retired w' = wh_retired w ->
  wh_movements w' = wh_movements w ++ ms -> grows w w' -> level_ok w' (lv_ID l') l' ->
  (forall item location, ~ at_shelf item location l' ->
    held item location (wh_reservations w') = held item location (wh_reservations w) /\
    moved item location (wh_movements w') = moved item location (wh_movements w)) ->
  (forall k r, wh_reservations w' !! k = Some r -> reservation_ok w' k r) ->
  ledger_ok (wh_movements w ++ ms) -> Forall (movement_ok w') ms ->
  claims_ok w' -> receipts_ok w' -> closures_ok w' -> sound w'.
Proof.
  intros Hp El Ei Eloc Er Em Hg Hl' Hsame Hrs Hled Hms [? ? ?] Hrc Hcl.
  destruct (levels_after w Hw l' w' Hp El Ei Eloc Hl' Hsame) as [Hlv Hsh].
  split; try done; rewrite ?Em, ?Ei, ?Er; try done.
  - intros m [Hm|Hm]%elem_of_app.
    + by apply (movement_grows w w' Hg), (so_movements _ Hw).
    + rewrite Forall_forall in Hms. by apply Hms.
  - apply (so_retired _ Hw).
Qed.

(** A location where a level is put is open, so the closed ones stay vacant. *)
Lemma closures_put l' w' : open_location w (lv_LocationID l') -> wh_locations w' = wh_locations w ->
  wh_levels w' = <[lv_ID l' := l']> (wh_levels w) ->
  (forall k location r, wh_reservations w' !! k = Some r -> active_at_location location r ->
    location <> lv_LocationID l' ->
    exists k0 r0, wh_reservations w !! k0 = Some r0 /\ active_at_location location r0) ->
  (forall k location r, wh_receipts w' !! k = Some r -> expected_at_location location r ->
    exists k0 r0, wh_receipts w !! k0 = Some r0 /\ expected_at_location location r0) ->
  closures_ok w'.
Proof.
  intros (loc & Hloc & Ho) El Ev Hrs Hrc k l Hk Hc. rewrite El in Hk. destruct (so_closed _ Hw k l Hk Hc) as [H1 H2 H3].
  split.
  - rewrite Ev. intros k0 l0 [[<- <-]|[Hne Hk0]]%lookup_insert_Some E; [congruence|by apply (H1 k0)].
  - intros k0 r Hr Ha. destruct (Hrs _ _ _ Hr Ha) as (k1 & r1 & Hr1 & Ha1); [congruence|]. by apply (H2 k1 r1).
  - intros k0 r Hr Ha. destruct (Hrc _ _ _ Hr Ha) as (k1 & r1 & Hr1 & Ha1). by apply (H3 k1 r1).
Qed.

(** ** A new physical count *)

Section Counted.
Context (l : InventoryLevel) (d : Z) (ms : list Movement) (Hc : counted w l d)
  (Ho : open_location w (lv_LocationID l)) (Ha : accounted l d ms) (Hp : Forall (plain d) ms).
Context (w' : Warehouse) (El : wh_levels w' = <[lv_ID l := l]> (wh_levels w)) (Ei : wh_items w' = wh_items w)
  (Eloc : wh_locations w' = wh_locations w) (Er : wh_retired w' = wh_retired w)
  (Em : wh_movements w' = wh_movements w ++ ms) (Ers : wh_reservations w' = wh_reservations w)
  (Eb : wh_backorders w' = wh_backorders w)
  (Hrc : forall k, is_Some (wh_receipts w !! k) -> is_Some (wh_receipts w' !! k)).

Lemma counted_grows : grows w w'.
Proof. apply (grows_put l); rewrite ?Ers; try done. by apply counted_placed with d. Qed.

Lemma counted_ledger : ledger_ok (wh_movements w ++ ms).
Proof.
  destruct Ha as [|m Hm]; [rewrite app_nil_r; apply (so_ledger _ Hw)|].
  apply Forall_cons in Hp as [[Hlv Had] _].
  pose proof (counted_bounds _ _ Hc). apply (entry_explains l d); [done|by apply counted_moved|lia| |done].
  by rewrite Hlv.
Qed.

Lemma counted_unnamed k : k <> EmptyString -> Forall (fun m => mv_ReservationID m <> k) ms.
Proof.
  intros Hk. destruct Ha as [|m Hm]; [constructor|]. apply Forall_cons in Hp as [Hp1 _]. apply Forall_singleton.
  rewrite (plain_unnamed _ _ _ Hp1 Hm). congruence.
Qed.

(** Whatever the receipts became. *)
Lemma counted_sound :
  Forall (fun m => mv_Reason m = MovementSupplierReceipt -> is_Some (wh_receipts w' !! mv_Reference m)) ms ->
  receipts_ok w' ->
  (forall k location r, wh_receipts w' !! k = Some r -> expected_at_location location r ->
    exists k0 r0, wh_receipts w !! k0 = Some r0 /\ expected_at_location location r0) -> sound w'.
Proof.
  intros Hmr Hok Hex. pose proof counted_grows as Hg.
  pose proof (counted_placed w Hw l d Hc) as Hpl.
  apply (put_sound l ms); try done.
  - split; [done|by apply (counted_bounds l d)| | | |].
    + rewrite Ers. by apply counted_reserved with d.
    + rewrite Em, (moved_accounted l d) by done. rewrite decide_True by done. by rewrite counted_moved.
    + rewrite Ei. by apply counted_item with d.
    + rewrite Eloc. destruct Ho as (loc & -> & _). done.
  - intros item location Hs. split; [by rewrite Ers|]. rewrite Em, (moved_accounted l d) by done. rewrite decide_False by done. lia.
  - rewrite Ers. intros k r Hr. pose proof (so_reservations _ Hw k r Hr) as Hok'.
    apply (reservation_grows w w' Hg ms); [done| |done]. by apply counted_unnamed, (rk_named _ _ _ Hok').
  - apply counted_ledger.
  - destruct Ha as [|m Hm]; [constructor|]. apply Forall_singleton.
    apply Forall_cons in Hp as [Hp1 _], Hmr as [Hmr1 _].
    split.
    + left. rewrite (en_item _ _ _ Hm), Ei. by apply counted_item with d.
    + intros _. rewrite (en_item _ _ _ Hm), (en_location _ _ _ Hm). exists (lv_ID l), l. by rewrite El, lookup_insert_eq.
    + by rewrite (plain_unnamed _ _ _ Hp1 Hm).
    + done.
  - by apply (claims_grow w).
  - apply (closures_put l); try done. rewrite Ers. intros k location r Hr Hact _. by exists k, r.
Qed.
End Counted.

Lemma count_sound l d ms : counted w l d -> open_location w (lv_LocationID l) -> accounted l d ms ->
  Forall (fun m => plain d m /\ mv_Reason m <> MovementSupplierReceipt) ms ->
  sound (append_entries ms (put_level l w)).
Proof.
  intros Hc Ho Ha [Hp Hr]%Forall_and. set (w' := append_entries ms _).
  assert (grows w w') as Hg by by eapply (counted_grows l d).
  apply (counted_sound l d ms); try done.
  - eapply Forall_impl; [exact Hr|]. by intros m ? ?.
  - by apply (receipts_grow w Hw w' ms).
  - intros k location r Hk He. by exists k, r.
Qed.

(** The receipt that the arrival closes. *)
Lemma receive_sound l d m id r : counted w l d -> open_location w (lv_LocationID l) -> entry l d m ->
  plain d m -> receipt_movement id m -> wh_receipts w !! id = Some r ->
  sr_Status r = SupplierReceiptExpected ->
  sound (on_receipts <[id := received_receipt m r]> (append_entries [m] (put_level l w))).
Proof.
  intros Hc Ho Hm Hp [Hrm Href] Hr Hs. set (w' := on_receipts _ _).
  assert (accounted l d [m]) as Ha by by constructor. assert (Forall (plain d) [m]) as Hps by by constructor.
  assert (forall k, is_Some (wh_receipts w !! k) -> is_Some (wh_receipts w' !! k)) as Hrc
    by (intros k; by apply is_Some_insert).
  assert (grows w w') as Hg by by eapply (counted_grows l d).
  pose proof (so_receipts _ Hw id r Hr) as Hrok.
  assert (0 < d) as Hd by (apply Hp; by rewrite Hrm).
  apply (counted_sound l d [m]); try done.
  - apply Forall_singleton. intros _. rewrite Href. cbn. by rewrite lookup_insert_eq.
  - intros k r0; cbn; intros [[<- <-]|[Hne Hk]]%lookup_insert_Some.
    + destruct (ck_none _ _ _ Hrok) as [_ Hnone]; [by rewrite Hs|]. destruct Hrok as [? ? _ _ _ He].
      split; try done; cbn; [set_solver|]. intros _. rewrite (en_delta _ _ _ Hm). split; [done|].
      rewrite log_sum_snoc, (log_sum_zero _ (wh_movements w)).
      * unfold received_for. rewrite decide_True by done. rewrite (en_delta _ _ _ Hm). lia.
      * intros x Hx. unfold received_for. rewrite Forall_forall in Hnone. by rewrite decide_False by by apply Hnone.
    + apply (receipt_grows w w' Hg [m]); [done| |by apply (so_receipts _ Hw)].
      apply Forall_singleton. intros [_ E]. by rewrite Href in E.
  - intros k location r0; cbn; intros [[<- <-]|[Hne Hk]]%lookup_insert_Some He; [by destruct He|by exists k, r0].
Qed.
End Kept.
