(* ===== verification/InventoryPromises.v ===== *)
(** * Every move keeps the stock sound: promises and claims *)
From S2P Require Import Prelude GoText Errors Identifiers Database InventoryModels InventoryMoves InventoryKept.

Section Promises.
Context (w : Warehouse) (Hw : sound w).

(** Units at a shelf mean that the location is open. *)
Lemma stocked_open l : wh_levels w !! lv_ID l = Some l -> 0 < lv_StockedQuantity l ->
  open_location w (lv_LocationID l).
Proof.
  intros Hl Hs. destruct (lk_location _ _ _ (so_levels _ Hw _ _ Hl)) as [loc Hloc]. exists loc. split; [done|].
  destruct (Closed loc) eqn:E; [|done].
  pose proof (vc_levels _ _ (so_closed _ Hw _ _ Hloc E) _ _ Hl eq_refl). lia.
Qed.

Lemma promised_elsewhere item location l r : promised_at l r -> ~ at_shelf item location l ->
  held_here item location r = 0.
Proof.
  unfold promised_at, held_here, at_shelf. intros [E1 E2] Hn. rewrite decide_False; [done|].
  intros (H1 & H2 & _). apply Hn. split; congruence.
Qed.

Lemma unnamed_reservation k : k <> EmptyString -> wh_reservations w !! k = None ->
  log_sum (left_for k) (wh_movements w) = 0.
Proof.
  intros Hk Hn. apply log_sum_zero. intros m Hm. unfold left_for. destruct (decide _) as [E|]; [|done].
  destruct (mk_reservation _ _ (so_movements _ Hw m Hm)) as [r Hr]; [by rewrite E|]. by rewrite E, Hn in Hr.
Qed.

(** What an active promise holds is part of what is reserved. *)
Lemma held_part l r : wh_levels w !! lv_ID l = Some l -> wh_reservations w !! rs_ID r = Some r ->
  promised_at l r -> rs_Status r = ReservationActive -> rs_Quantity r <= lv_ReservedQuantity l.
Proof.
  intros Hl Hr Hp Hs. rewrite (lk_reserved _ _ _ (so_levels _ Hw _ _ Hl)).
  pose proof (held_here_active (lv_InventoryItemID l) (lv_LocationID l) l r Hp Hs) as E. rewrite decide_True in E by done.
  rewrite <- E. apply (sum_of_le _ _ (rs_ID r)); [|done]. intros k r0 Hr0. unfold held_here.
  destruct (decide _); [|done]. pose proof (rk_quantity _ _ _ (so_reservations _ Hw k r0 Hr0)). lia.
Qed.

(** ** A promise at a level changes *)

Section Changed.
Context (l l' : InventoryLevel) (r' : Reservation) (d : Z) (ms : list Movement) (w' : Warehouse).
Context (Hl : wh_levels w !! lv_ID l = Some l) (Hid : lv_ID l' = lv_ID l)
  (Hsh : at_shelf (lv_InventoryItemID l) (lv_LocationID l) l') (Hpos : 0 < lv_StockedQuantity l)
  (Hb : 0 <= lv_ReservedQuantity l' <= lv_StockedQuantity l' /\ lv_StockedQuantity l' <= int64_max)
  (Hd : lv_StockedQuantity l' = lv_StockedQuantity l + d) (Hp : promised_at l r')
  (Hold : wh_reservations w !! rs_ID r' = None \/
    exists r, wh_reservations w !! rs_ID r' = Some r /\ promised_at l r /\ rs_Status r = ReservationActive)
  (Hheld : held (lv_InventoryItemID l) (lv_LocationID l) (<[rs_ID r' := r']> (wh_reservations w)) =
    lv_ReservedQuantity l')
  (Hacc : accounted l' d ms)
  (Hms : Forall (fun m => mv_ReservationID m = rs_ID r' /\ mv_Reason m <> MovementSupplierReceipt /\
    adds (mv_Reason m) = false /\ d < 0) ms).
Context (El : wh_levels w' = <[lv_ID l' := l']> (wh_levels w)) (Ei : wh_items w' = wh_items w)
  (Eloc : wh_locations w' = wh_locations w) (Er : wh_retired w' = wh_retired w)
  (Em : wh_movements w' = wh_movements w ++ ms)
  (Ers : wh_reservations w' = <[rs_ID r' := r']> (wh_reservations w))
  (Erc : wh_receipts w' = wh_receipts w).

Lemma changed_placed : placed w l'.
Proof. by apply (placed_write w Hw l). Qed.

Lemma changed_grows : grows w w'.
Proof.
  apply (grows_put w l'); rewrite ?Ers, ?Erc; try done; [apply changed_placed|..].
  - intros k. apply is_Some_insert.
  - intros k r Hr Hs. destruct (decide (k = rs_ID r')) as [->|Hne]; [|by rewrite lookup_insert_ne].
    destruct Hold as [Hn|(r0 & Hr0 & _ & Ha)]; [congruence|]. rewrite Hr in Hr0. injection Hr0 as <-. by rewrite Hs in Ha.
Qed.

Lemma changed_held item location : ~ at_shelf item location l ->
  held item location (<[rs_ID r' := r']> (wh_reservations w)) = held item location (wh_reservations w).
Proof.
  intros Hn. pose proof (promised_elsewhere item location l r' Hp Hn) as E'.
  destruct Hold as [Ho|(r & Ho & Hpr & _)].
  - rewrite held_insert by done. lia.
  - rewrite (held_update _ _ _ _ r) by done. rewrite (promised_elsewhere item location l r) by done. lia.
Qed.

Lemma changed_sound : reservation_ok w' (rs_ID r') r' -> claims_ok w' -> sound w'.
Proof.
  intros Hok Hcl. pose proof changed_grows as Hg. pose proof (so_levels _ Hw _ _ Hl) as Hlv.
  assert (forall item location, at_shelf item location l <-> at_shelf item location l') as Hiff.
  { intros item location. destruct Hsh as [E1 E2]. unfold at_shelf. by rewrite E1, E2. }
  assert (moved (lv_InventoryItemID l) (lv_LocationID l) (wh_movements w) + d = lv_StockedQuantity l') as Hmv
    by (rewrite Hd, <- (lk_stocked _ _ _ Hlv); lia).
  destruct Hsh as [Esi Esl].
  apply (put_sound w Hw l' ms); try done.
  - apply changed_placed.
  - split; [done|done|..]; rewrite ?Esi, ?Esl.
    + by rewrite Ers.
    + rewrite Em, (moved_accounted l' d) by done. rewrite decide_True by by apply Hiff. done.
    + rewrite Ei. apply Hlv.
    + rewrite Eloc. apply Hlv.
  - intros item location Hn. split.
    + rewrite Ers. apply changed_held. by rewrite Hiff.
    + rewrite Em, (moved_accounted l' d) by done. rewrite decide_False by done. lia.
  - rewrite Ers. intros k r [[<- <-]|[Hne Hk]]%lookup_insert_Some; [done|].
    apply (reservation_grows w w' Hg ms); [done| |by apply (so_reservations _ Hw)].
    eapply Forall_impl; [exact Hms|]. cbn. intros m (-> & _). congruence.
  - destruct Hacc as [|m Hm]; [rewrite app_nil_r; apply (so_ledger _ Hw)|].
    apply Forall_cons in Hms as [(_ & _ & Had & Hneg) _].
    apply (entry_explains w Hw l' d); [done|by rewrite Esi, Esl|lia|done|intros E; congruence].
  - destruct Hacc as [|m Hm]; [constructor|]. apply Forall_cons in Hms as [(Hn & Hr & _) _]. apply Forall_singleton.
    split; rewrite ?(en_item _ _ _ Hm), ?(en_location _ _ _ Hm), ?Esi, ?Esl, ?Ei.
    + left. apply Hlv.
    + intros _. exists (lv_ID l'), l'. by rewrite El, lookup_insert_eq.
    + intros _. rewrite Ers, Hn, lookup_insert_eq. done.
    + done.
  - apply (receipts_grow w Hw w' ms); [done..|]. eapply Forall_impl; [exact Hms|]. by intros m (_ & ? & _).
  - apply (closures_put w Hw l'); try done.
    + rewrite Esl. by apply stocked_open.
    + rewrite Ers. intros k location r [[<- <-]|[Hne Hk]]%lookup_insert_Some Hact Hloc; [|by exists k, r].
      destruct Hloc, Hact as [Ha _], Hp as [_ E]. congruence.
    + rewrite Erc. intros k location r Hk He. by exists k, r.
Qed.
End Changed.

(** ** The moves *)

Lemma held_insert_active l r : wh_levels w !! lv_ID l = Some l -> wh_reservations w !! rs_ID r = None ->
  promised_at l r -> rs_Status r = ReservationActive ->
  held (lv_InventoryItemID l) (lv_LocationID l) (<[rs_ID r := r]> (wh_reservations w)) =
  lv_ReservedQuantity l + rs_Quantity r.
Proof.
  intros Hl Hn Hp Hs. rewrite held_insert, (held_here_active _ _ l) by done. rewrite decide_True by done.
  rewrite <- (lk_reserved _ _ _ (so_levels _ Hw _ _ Hl)). lia.
Qed.

Lemma held_insert_inactive l r : wh_levels w !! lv_ID l = Some l -> wh_reservations w !! rs_ID r = None ->
  rs_Status r <> ReservationActive ->
  held (lv_InventoryItemID l) (lv_LocationID l) (<[rs_ID r := r]> (wh_reservations w)) = lv_ReservedQuantity l.
Proof.
  intros Hl Hn Hs. rewrite held_insert, held_here_inactive by done.
  rewrite <- (lk_reserved _ _ _ (so_levels _ Hw _ _ Hl)). lia.
Qed.

Lemma held_settled l r status t : wh_levels w !! lv_ID l = Some l -> wh_reservations w !! rs_ID r = Some r ->
  promised_at l r -> rs_Status r = ReservationActive -> status <> ReservationActive ->
  held (lv_InventoryItemID l) (lv_LocationID l) (<[rs_ID r := with_status status t r]> (wh_reservations w)) =
  lv_ReservedQuantity l - rs_Quantity r.
Proof.
  intros Hl Hr Hp Hs Hne. rewrite (held_update _ _ _ _ r) by done. rewrite (held_here_active _ _ l) by done.
  rewrite decide_True by done. rewrite (held_here_inactive _ _ (with_status _ _ _)) by done.
  rewrite <- (lk_reserved _ _ _ (so_levels _ Hw _ _ Hl)). lia.
Qed.

Lemma hold_sound l t r : wh_levels w !! lv_ID l = Some l -> wh_reservations w !! rs_ID r = None ->
  rs_ID r <> EmptyString -> promised_at l r -> rs_Status r = ReservationActive ->
  ReservationPurpose_Valid (rs_Purpose r) = true ->
  0 < rs_Quantity r <= lv_StockedQuantity l - lv_ReservedQuantity l ->
  sound (on_reservations <[rs_ID r := r]>
    (put_level (with_quantities (lv_StockedQuantity l) (lv_ReservedQuantity l + rs_Quantity r) t l) w)).
Proof.
  intros Hl Hn Hid Hp Hs Hpu Hq. pose proof (lk_bounds _ _ _ (so_levels _ Hw _ _ Hl)) as Hb.
  set (l' := with_quantities _ _ _ _). set (w' := on_reservations _ _).
  assert (grows w w') as Hg by (apply (changed_grows l l' r); try done; by left).
  apply (changed_sound l l' r 0 []); try done; cbn; try lia.
  - by left.
  - by apply held_insert_active.
  - by constructor.
  - by rewrite app_nil_r.
  - split; try done; rewrite ?Hs; try done; [lia|apply list_elem_of_here| |].
    + cbn. rewrite decide_False by done. by apply unnamed_reservation.
    + intros _. exists (lv_ID l), l'. cbn. by rewrite lookup_insert_eq.
  - by apply (claims_grow w).
Qed.

Lemma release_sound l t r t' : wh_levels w !! lv_ID l = Some l -> wh_reservations w !! rs_ID r = Some r ->
  promised_at l r -> rs_Status r = ReservationActive ->
  sound (on_reservations <[rs_ID r := with_status ReservationReleased t' r]>
    (put_level (with_quantities (lv_StockedQuantity l) (lv_ReservedQuantity l - rs_Quantity r) t l) w)).
Proof.
  intros Hl Hr Hp Hs. pose proof (lk_bounds _ _ _ (so_levels _ Hw _ _ Hl)) as Hb.
  pose proof (so_reservations _ Hw _ _ Hr) as Hrok. pose proof (rk_quantity _ _ _ Hrok) as Hq.
  pose proof (held_part l r Hl Hr Hp Hs) as Hpart.
  set (l' := with_quantities _ _ _ _). set (r' := with_status _ _ _). set (w' := on_reservations _ _).
  assert (grows w w') as Hg by (apply (changed_grows l l' r'); try done; right; by exists r).
  apply (changed_sound l l' r' 0 []); try done; cbn; try lia.
  - right. by exists r.
  - by apply held_settled.
  - by constructor.
  - by rewrite app_nil_r.
  - destruct Hrok as [? ? ? ? ? Hleft ?]. rewrite decide_False in Hleft by by rewrite Hs.
    split; try done. cbn. set_solver.
  - by apply (claims_grow w).
Qed.

(** What the movement by which units leave is. *)
Lemma leaving_entry l r m d : leaving l r m -> d = - rs_Quantity r -> 0 < rs_Quantity r ->
  accounted l d [m] /\ Forall (fun m => mv_ReservationID m = rs_ID r /\ mv_Reason m <> MovementSupplierReceipt /\
    adds (mv_Reason m) = false /\ d < 0) [m] /\ log_sum (left_for (rs_ID r)) [m] = - rs_Quantity r.
Proof.
  intros (He & Hn & Hr) -> Hq. split; [by constructor|]. split.
  - constructor; [|constructor]. rewrite Hn, Hr. unfold ReservationPurpose_MovementReason.
    split; [done|]. case_bool_decide; split_and!; done || lia.
  - unfold log_sum. cbn. unfold left_for. rewrite decide_True by done. rewrite sumZ_cons, sumZ_nil, (en_delta _ _ _ He). lia.
Qed.

Lemma confirm_sound l l' t r t' m : wh_levels w !! lv_ID l = Some l -> wh_reservations w !! rs_ID r = Some r ->
  promised_at l r -> rs_Status r = ReservationActive ->
  l' = with_quantities (lv_StockedQuantity l - rs_Quantity r) (lv_ReservedQuantity l - rs_Quantity r) t l ->
  leaving l' r m ->
  sound (on_reservations <[rs_ID r := with_status ReservationConfirmed t' r]>
    (append_entries [m] (put_level l' w))).
Proof.
  intros Hl Hr Hp Hs -> Hm. set (l' := with_quantities _ _ _ _) in *. pose proof (lk_bounds _ _ _ (so_levels _ Hw _ _ Hl)) as Hb.
  pose proof (so_reservations _ Hw _ _ Hr) as Hrok. pose proof (rk_quantity _ _ _ Hrok) as Hq.
  pose proof (held_part l r Hl Hr Hp Hs) as Hpart.
  destruct (leaving_entry l' r m _ Hm eq_refl) as (Hacc & Hms & Hleft); [lia|].
  set (r' := with_status _ _ _). set (w' := on_reservations _ _).
  assert (grows w w') as Hg.
  { apply (changed_grows l l' r'); try done; right; by exists r. }
  apply (changed_sound l l' r' (- rs_Quantity r) [m]); try done; cbn; try lia.
  - right. by exists r.
  - by apply held_settled.
  - destruct Hrok as [? ? ? ? ? Hleft0 ?]. rewrite decide_False in Hleft0 by by rewrite Hs.
    split; try done; cbn; [set_solver|]. by rewrite log_sum_app, Hleft0, Hleft.
  - by apply (claims_grow w).
Qed.

Lemma fill_claims_ok l l' t r m b t' (w' := on_backorders <[bo_ID b := filled_backorder (rs_ID r) (lv_LocationID l) t' b]>
    (on_reservations <[rs_ID r := r]> (append_entries [m] (put_level l' w)))) :
  grows w w' -> wh_reservations w !! rs_ID r = None -> promised_at l r -> rs_Status r = ReservationConfirmed ->
  wh_backorders w !! bo_ID b = Some b ->
  fits_at (lv_InventoryItemID l) (lv_LocationID l) t b -> rs_Quantity r = bo_Quantity b - bo_WithdrawnQuantity b ->
  0 < rs_Quantity r -> claims_ok w'.
Proof.
  intros Hg Hn Hp Hs Hbo ([Hbi Hbw] & Hin & _) Hq Hpos.
  destruct (so_backorders _ Hw _ _ Hbo) as [? ? ? _ Hwhole _ _].
  assert (forall k b', wh_backorders w !! k = Some b' -> bo_Status b' = BackorderFilled ->
    bo_ReservationID b' = rs_ID r -> False) as Hfresh.
  { intros k b' Hb' Hf E. destruct (bk_filled _ _ _ (so_backorders _ Hw _ _ Hb') Hf) as (r0 & Hr0 & _).
    by rewrite E, Hn in Hr0. }
  destruct Hp as [Hpi Hpl]. split; cbn.
  - intros k b' [[<- <-]|[Hne Hk]]%lookup_insert_Some; [|by apply (backorder_grows w w' Hg), (so_backorders _ Hw)].
    split; try done; cbn; try lia.
    + set_solver.
    + split; [done|lia].
    + intros _. exists r. cbn. rewrite lookup_insert_eq. split_and!; try done. by rewrite <- Hpi, Hbi.
  - intros k k' b0 b1 [[<- <-]|[Hne Hk]]%lookup_insert_Some [[<- <-]|[Hne' Hk']]%lookup_insert_Some; cbn;
      [done|by apply (so_lines _ Hw (bo_ID b) k' b b1)|by apply (so_lines _ Hw k (bo_ID b) b0 b)|by apply (so_lines _ Hw k k' b0 b1)].
  - intros k k' b0 b1 [[<- <-]|[Hne Hk]]%lookup_insert_Some [[<- <-]|[Hne' Hk']]%lookup_insert_Some; cbn;
      [done|intros _ Hf E; by destruct (Hfresh _ _ Hk' Hf)|intros Hf _ E; by destruct (Hfresh _ _ Hk Hf)|by apply (so_fills _ Hw k k' b0 b1)].
Qed.

Lemma fill_sound l l' t r m b t' : wh_levels w !! lv_ID l = Some l -> wh_reservations w !! rs_ID r = None ->
  rs_ID r <> EmptyString -> promised_at l r -> rs_Status r = ReservationConfirmed ->
  rs_Purpose r = PurposeSale -> wh_backorders w !! bo_ID b = Some b ->
  fits_at (lv_InventoryItemID l) (lv_LocationID l) (lv_StockedQuantity l - lv_ReservedQuantity l) b ->
  rs_Quantity r = bo_Quantity b - bo_WithdrawnQuantity b -> 0 < rs_Quantity r ->
  l' = with_quantities (lv_StockedQuantity l - rs_Quantity r) (lv_ReservedQuantity l) t l ->
  leaving l' r m ->
  sound (on_backorders <[bo_ID b := filled_backorder (rs_ID r) (lv_LocationID l) t' b]>
    (on_reservations <[rs_ID r := r]> (append_entries [m] (put_level l' w)))).
Proof.
  intros Hl Hn Hid Hp Hs Hpu Hbo Hf Hq Hpos -> Hm. set (l' := with_quantities _ _ _ _) in *.
  pose proof (lk_bounds _ _ _ (so_levels _ Hw _ _ Hl)) as Hb.
  destruct (leaving_entry l' r m _ Hm eq_refl) as (Hacc & Hms & Hleft); [lia|].
  pose proof Hf as (_ & _ & Hfit).
  set (w' := on_backorders _ _).
  assert (grows w w') as Hg.
  { apply (changed_grows l l' r); try done; by left. }
  apply (changed_sound l l' r (- rs_Quantity r) [m]); try done; cbn; try lia.
  - by left.
  - apply held_insert_inactive; [done..|]. by rewrite Hs.
  - split; try done; rewrite ?Hs; try done; [lia|set_solver|by rewrite Hpu|].
    cbn. rewrite decide_True by done. by rewrite log_sum_app, unnamed_reservation, Hleft.
  - by apply (fill_claims_ok l l' (lv_StockedQuantity l - lv_ReservedQuantity l)).
Qed.
End Promises.

(** ** The invariant is kept *)

Lemma move_sound w w' : sound w -> move w w' -> sound w'.
Proof.
  intros Hw [| | | |l d ms Hc Ho Ha Hp|l d m id r Hc Ho He Hp Hrm Hr Hs| | | | | | | |].
  - by apply location_sound.
  - by apply close_sound.
  - by apply item_sound.
  - by apply delete_sound.
  - by apply (count_sound w Hw l d).
  - by apply (receive_sound w Hw l d).
  - by apply hold_sound.
  - by apply release_sound.
  - by eapply confirm_sound.
  - by eapply fill_sound.
  - by apply claim_sound.
  - by apply withdraw_sound.
  - by apply expect_sound.
  - by apply cancel_sound.
Qed.

Lemma moves_sound w w' : sound w -> rtc move w w' -> sound w'.
Proof. intros Hw H. induction H as [|w w1 w' Hm _ IH]; [done|]. by apply IH, (move_sound w). Qed.
