(* ===== verification/InventoryFill.v ===== *)
(** * Writes and fills

    What a write of a level does, the fill it may start included: the level and the ledger move
    together, and afterwards no waiting claim fits what is left at the shelf. The nesting of writes
    stops by itself. *)
From S2P Require Import Prelude GoText Errors Tx Identifiers Database InventoryModels InventoryService InventoryMoves.
Set Warnings "-level-tolerance,-clear-no-such-hyp".

(** ** Filling, as steps on the tables *)

Inductive fill_step (w : Warehouse) (l : InventoryLevel) : Warehouse -> InventoryLevel -> string -> Prop :=
| fs_fill t r m b t' l' : wh_levels w !! lv_ID l = Some l -> wh_reservations w !! rs_ID r = None ->
    rs_ID r <> EmptyString -> promised_at l r -> rs_Status r = ReservationConfirmed ->
    rs_Purpose r = PurposeSale -> wh_backorders w !! bo_ID b = Some b ->
    fits_at (lv_InventoryItemID l) (lv_LocationID l) (lv_StockedQuantity l - lv_ReservedQuantity l) b ->
    rs_Quantity r = bo_Quantity b - bo_WithdrawnQuantity b -> 0 < rs_Quantity r ->
    l' = with_quantities (lv_StockedQuantity l - rs_Quantity r) (lv_ReservedQuantity l) t l ->
    leaving l' r m ->
    fill_step w l (on_backorders <[bo_ID b := filled_backorder (rs_ID r) (lv_LocationID l) t' b]>
      (on_reservations <[rs_ID r := r]> (append_entries [m] (put_level l' w)))) l' (bo_ID b).

Inductive fills : Warehouse -> InventoryLevel -> list string -> Warehouse -> InventoryLevel -> Prop :=
| fl_none w l : fills w l [] w l
| fl_more w l w1 l1 id ids w2 l2 : fill_step w l w1 l1 id -> fills w1 l1 ids w2 l2 ->
    fills w l (id :: ids) w2 l2.

Lemma fill_step_move w l w' l' id : fill_step w l w' l' id -> move w w'.
Proof. intros [t r m b t' l'']. by eapply mv_fill. Qed.

Lemma fills_moves w l ids w' l' : fills w l ids w' l' -> rtc move w w'.
Proof. induction 1 as [|w l w1 l1 id ids w2 l2 Hs _ IH]; [constructor|]. econstructor; [by eapply fill_step_move|done]. Qed.

(** What a fill leaves at the level. *)
Lemma fill_step_level w l w' l' id : fill_step w l w' l' id ->
  lv_ID l' = lv_ID l /\ at_shelf (lv_InventoryItemID l) (lv_LocationID l) l' /\
  wh_levels w' = <[lv_ID l' := l']> (wh_levels w) /\ wh_levels w' !! lv_ID l' = Some l' /\
  lv_ReservedQuantity l' = lv_ReservedQuantity l /\
  exists b r, wh_backorders w !! bo_ID b = Some b /\ bo_ID b = id /\
    lv_StockedQuantity l' = lv_StockedQuantity l - (bo_Quantity b - bo_WithdrawnQuantity b) /\
    0 < bo_Quantity b - bo_WithdrawnQuantity b <= lv_StockedQuantity l - lv_ReservedQuantity l /\
    exists t, wh_backorders w' = <[id := filled_backorder r (lv_LocationID l) t b]> (wh_backorders w).
Proof.
  intros [t r m b t' l'' Hl Hn Hid Hp Hs Hpu Hb (_ & _ & Hf) Hq Hpos -> Hm]. cbn. rewrite lookup_insert_eq.
  split_and!; try done. exists b, (rs_ID r). split_and!; try done; try lia. by exists t'.
Qed.

(** A fill does not see a promise that stands, nor a receipt. *)
Lemma fill_step_reservation w l w' l' id k r0 : is_Some (wh_reservations w !! k) -> fill_step w l w' l' id ->
  wh_reservations w' !! k = wh_reservations w !! k /\
  fill_step (on_reservations <[k := r0]> w) l (on_reservations <[k := r0]> w') l' id.
Proof.
  intros Hk [t r m b t' l'' Hl Hn Hid Hp Hs Hpu Hb Hf Hq Hpos El' Hm].
  assert (rs_ID r <> k) as Hne by (intros E; rewrite <- E, Hn in Hk; by destruct Hk).
  split; [cbn; by rewrite lookup_insert_ne|].
  assert (forall m0 bs lv, on_reservations <[k := r0]> (on_backorders bs (on_reservations <[rs_ID r := r]> (append_entries m0 (put_level lv w))))
    = on_backorders bs (on_reservations <[rs_ID r := r]> (append_entries m0 (put_level lv (on_reservations <[k := r0]> w))))) as E.
  { intros. unfold on_backorders, on_reservations, append_entries, put_level, on_movements, on_levels. cbn.
    by rewrite insert_insert_ne. }
  rewrite E. econstructor; try done. cbn. by rewrite lookup_insert_ne.
Qed.

Lemma fills_reservation w l ids w' l' k r0 : is_Some (wh_reservations w !! k) -> fills w l ids w' l' ->
  wh_reservations w' !! k = wh_reservations w !! k /\
  fills (on_reservations <[k := r0]> w) l ids (on_reservations <[k := r0]> w') l'.
Proof.
  intros Hk H. induction H as [|w l w1 l1 id ids w2 l2 Hs _ IH]; [by split; [|constructor]|].
  destruct (fill_step_reservation _ _ _ _ _ k r0 Hk Hs) as [E Hs']. destruct IH as [E' Hf]; [by rewrite E|].
  split; [by rewrite E'|]. by econstructor.
Qed.

Lemma fill_step_receipts w l w' l' id f : fill_step w l w' l' id ->
  wh_receipts w' = wh_receipts w /\ fill_step (on_receipts f w) l (on_receipts f w') l' id.
Proof. intros [t r m b t' l'']. split; [done|]. by apply (fs_fill (on_receipts f w) l t r m b t' l''). Qed.

Lemma fills_receipts w l ids w' l' f : fills w l ids w' l' ->
  wh_receipts w' = wh_receipts w /\ fills (on_receipts f w) l ids (on_receipts f w') l'.
Proof.
  intros H. induction H as [|w l w1 l1 id ids w2 l2 Hs _ [E' Hf]]; [by split; [|constructor]|].
  destruct (fill_step_receipts _ _ _ _ _ f Hs) as [E Hs'].
  split; [by rewrite E'|]. by econstructor.
Qed.

(** The movements of a fill are sales. *)
Lemma fills_ledger w l ids w' l' : fills w l ids w' l' ->
  exists ms, wh_movements w' = wh_movements w ++ ms /\ Forall (fun m => mv_Reason m = MovementSale) ms.
Proof.
  induction 1 as [w l|w l w1 l1 id ids w2 l2 Hs _ (ms & E & Hms)]; [exists []; by rewrite app_nil_r|].
  destruct Hs as [t r m b t' l'' Hl Hn Hid Hp Hs Hpu Hb Hf Hq Hpos El' (_ & _ & Hr)].
  exists (m :: ms). rewrite E. cbn. rewrite <- app_assoc. split; [done|]. constructor; [|done].
  by rewrite Hr, Hpu.
Qed.

(** ** What a fill needs of the tables *)

Definition claims_bounded (w : Warehouse) : Prop := forall k b, wh_backorders w !! k = Some b ->
  bo_ID b = k /\ 0 < bo_Quantity b <= int64_max /\ 0 <= bo_WithdrawnQuantity b <= bo_Quantity b /\
  (bo_Status b = BackorderWaiting -> bo_WithdrawnQuantity b < bo_Quantity b).

Lemma sound_claims w : sound w -> claims_bounded w.
Proof.
  intros Hw k b Hb. destruct (so_backorders _ Hw k b Hb) as [? ? Hwd ? Hwhole ? ?]. split_and!; try done; try lia.
  intros Hs. destruct (decide (bo_WithdrawnQuantity b = bo_Quantity b)) as [E|E]; [|lia].
  apply Hwhole in E. by rewrite Hs in E.
Qed.

Definition in_bounds (l : InventoryLevel) : Prop :=
  0 <= lv_ReservedQuantity l <= lv_StockedQuantity l /\ lv_StockedQuantity l <= int64_max.

Definition sellable (l : InventoryLevel) : Z := lv_StockedQuantity l - lv_ReservedQuantity l.

Lemma Available_exact l : in_bounds l -> Available l = sellable l.
Proof. intros H. unfold Available, in_bounds, sellable in *. apply sub64_exact. in64. Qed.

(** No claim that waits at the shelf can be completed with what is sellable there. *)
Definition served (w : Warehouse) (l : InventoryLevel) : Prop := forall k b,
  wh_backorders w !! k = Some b ->
  ~ fits_at (lv_InventoryItemID l) (lv_LocationID l) (sellable l) b.

(** The claims that are completed when units go to each in turn that they complete whole, and the units
    that are left. *)
Fixpoint greedy (units : Z) (claims : list Backorder) : list string * Z :=
  match claims with
  | [] => ([], units)
  | c :: claims =>
      let need := bo_Quantity c - bo_WithdrawnQuantity c in
      if need <=? units then
        let r := greedy (units - need) claims in (bo_ID c :: r.1, r.2)
      else greedy units claims
  end.

(** The claims served at a level: in queue order, each that what is left completes. *)
Definition queued (w : Warehouse) (l : InventoryLevel) (ids : list string) (l' : InventoryLevel) : Prop :=
  exists claims, locked_claims (fits_at (lv_InventoryItemID l) (lv_LocationID l) (sellable l)) w claims /\
    greedy (sellable l) claims = (ids, sellable l').

Section Fill.
Context {St : Type} (db : Store St) (view : St -> Warehouse) `{!InventoryLaws db view}.

Abbreviation write_fn := (seeds -> InventoryLevel -> Z -> Z -> MovementReason -> string -> string -> string ->
  tx St InventoryLevel).

(** ** One movement *)

Definition described (reason : MovementReason) (reservation reference line : string) (m : Movement) : Prop :=
  mv_Reason m = reason /\ mv_ReservationID m = reservation /\ mv_Reference m = reference /\ mv_LineItemID m = line.

Lemma recordMovement_yields g l d reason reservation reference line st :
  yields st (recordMovement db g l d reason reservation reference line) (fun _ st' =>
    exists ms, accounted l d ms /\ Forall (described reason reservation reference line) ms /\
      view st' = append_entries ms (view st)).
Proof.
  unfold recordMovement. destruct (Z.eqb_spec d 0) as [->|Hd].
  { apply yields_ret. exists []. split_and!; [by constructor|constructor|]. cbn. unfold on_movements.
    rewrite app_nil_r. by destruct (view st). }
  do 4 tx_step. allowed. intros st1 r E%law_append. apply yields_ret.
  lazymatch goal with Hp : Bool.eqb _ (LeavesAgainstAPromise _) = true, Hf : Bool.eqb _ (CarriesAReference _) = true |- _ =>
    apply eqb_prop in Hp, Hf; rename Hp into Hprom, Hf into Href end.
  refine (ex_intro _ _ (conj _ (conj _ E))); [apply ac_one|by repeat constructor].
  split; try done; cbn.
  - by rewrite <- Hprom, negb_true_iff, bool_decide_eq_false.
  - by rewrite <- Href, negb_true_iff, bool_decide_eq_false.
Qed.

(** ** A write that makes nothing sellable *)

(** The tables after a level became [l'] by [d]. *)
Definition written (w : Warehouse) (l l' : InventoryLevel) (s q : Z) (ms : list Movement) : Prop :=
  (exists t, l' = with_quantities s q t l) /\ accounted l' (s -₆₄ lv_StockedQuantity l) ms.

Lemma write_quiet_yields (rec : write_fn) g l s q reason reservation reference line st :
  wh_levels (view st) !! lv_ID l = Some l -> (s -₆₄ q) <= Available l ->
  yields st (write_with db rec g l s q reason reservation reference line) (fun l' st' =>
    exists ms, written (view st) l l' s q ms /\ Forall (described reason reservation reference line) ms /\
      view st' = append_entries ms (put_level l' (view st))).
Proof.
  intros Hl Hq. unfold write_with. tx_step. intros st1 l' (l0 & t & Hl0 & -> & Hv)%law_update_level.
  rewrite Hl in Hl0. injection Hl0 as <-. tx_step. eapply yields_mono; [apply recordMovement_yields|].
  intros _ st2 (ms & Ha & Hd & Hv2). assert (Available l <? Available (with_quantities s q t l) = false) as ->.
  { apply Z.ltb_ge. exact Hq. }
  apply yields_ret. exists ms. split_and!; [|done|by rewrite Hv2, Hv]. split; [by exists t|done].
Qed.

Lemma accounted_zero l ms : accounted l 0 ms -> ms = [].
Proof. intros H. inversion H as [|m Hm]; [done|]. by destruct (en_nonzero _ _ _ Hm). Qed.

Lemma accounted_nonzero l d ms : d <> 0 -> accounted l d ms -> exists m, ms = [m] /\ entry l d m.
Proof. intros Hd H. inversion H as [|m Hm]; [done|]. by exists m. Qed.

Lemma append_nothing w : append_entries [] w = w.
Proof. cbn. unfold on_movements. rewrite app_nil_r. by destruct w. Qed.

(** Units leave against a promise. *)
Lemma deduct_yields (rec : write_fn) g r level orderID st :
  wh_levels (view st) !! lv_ID level = Some level -> in_bounds level ->
  wh_reservations (view st) !! rs_ID r = Some r -> 0 < rs_Quantity r <= int64_max ->
  yields st (deduct_with db (write_with db rec) g r level orderID) (fun l' st' => exists t t' m,
    l' = with_quantities (lv_StockedQuantity level - rs_Quantity r) (lv_ReservedQuantity level - rs_Quantity r) t level /\
    leaving l' r m /\ mv_Reference m = orderID /\ rs_Quantity r <= lv_ReservedQuantity level /\
    view st' = on_reservations <[rs_ID r := with_status ReservationConfirmed t' r]>
      (append_entries [m] (put_level l' (view st)))).
Proof.
  intros Hl Hb Hr Hq. unfold deduct_with, in_bounds in *. rewrite !sub64_exact by in64.
  tx_step. allowed. tx_step.
  eapply yields_mono; [apply write_quiet_yields; [done|]|].
  { rewrite Available_exact by done. unfold sellable. rewrite sub64_exact by in64. lia. }
  intros l' st1 (ms & [[t El'] Ha] & Hd & Hv). rewrite sub64_exact in Ha by in64.
  destruct (accounted_nonzero l' (lv_StockedQuantity level - rs_Quantity r - lv_StockedQuantity level) ms)
    as (m & -> & Hm); [lia|done|].
  apply Forall_cons in Hd as [(Hd1 & Hd2 & Hd3 & _) _].
  do 2 tx_step. apply law_set_status in H1 as (r0 & t' & Hr0 & Hv').
  rewrite Hv in Hr0. cbn in Hr0. rewrite Hr in Hr0. injection Hr0 as <-.
  apply yields_ret. exists t, t', m. split_and!; [done| |done|lia|by rewrite Hv', Hv].
  split_and!; [|done|done]. replace (- rs_Quantity r) with (lv_StockedQuantity level - rs_Quantity r - lv_StockedQuantity level) by lia.
  exact Hm.
Qed.

(** ** One claim *)

Lemma fits_owed w c : claims_bounded w -> wh_backorders w !! bo_ID c = Some c ->
  Owed c = bo_Quantity c - bo_WithdrawnQuantity c /\ Owed c <= int64_max.
Proof.
  intros Hc Hb. destruct (Hc _ _ Hb) as (_ & Hq & Hw & _). unfold Owed. rewrite sub64_exact by in64. lia.
Qed.

Lemma fill_claim_yields (rec : write_fn) g level claim st :
  wh_levels (view st) !! lv_ID level = Some level -> in_bounds level -> claims_bounded (view st) ->
  wh_backorders (view st) !! bo_ID claim = Some claim ->
  fits_at (lv_InventoryItemID level) (lv_LocationID level) (sellable level) claim -> 0 < Owed claim ->
  yields st (fill_claim db (write_with db rec) g level claim (Owed claim)) (fun l' st' =>
    fill_step (view st) level (view st') l' (bo_ID claim)).
Proof.
  intros Hl Hb Hc Hclaim Hfit Hpos. destruct (fits_owed (view st) claim Hc Hclaim) as [Eo Hmax].
  pose proof Hfit as (_ & _ & Hle). rewrite <- Eo in Hle. unfold sellable, in_bounds in *.
  unfold fill_claim. tx_step. intros st1 r (Hfresh & t0 & -> & Hv1)%law_create_reservation.
  set (r := new_reservation t0 _) in *. tx_step. tx_step.
  apply addQuantity_Ok in H as [-> Hres]; [|in64..]. tx_step.
  eapply yields_mono; [apply write_quiet_yields; [by rewrite Hv1|]|].
  { rewrite Available_exact by done. unfold sellable. rewrite sub64_exact by in64. lia. }
  intros held st2 (ms & [[t1 Eheld] Ha] & _ & Hv2). rewrite sub64_exact, Z.sub_diag in Ha by in64.
  apply accounted_zero in Ha as ->. rewrite append_nothing in Hv2. tx_step.
  eapply yields_mono; [apply (deduct_yields rec _ r held)|].
  { rewrite Hv2. cbn. by rewrite lookup_insert_eq. }
  { rewrite Eheld. unfold in_bounds. cbn. lia. }
  { rewrite Hv2, Hv1. cbn. by rewrite lookup_insert_eq. }
  { cbn. lia. }
  rewrite Eheld. cbn [with_quantities lv_StockedQuantity lv_ReservedQuantity].
  intros l' st3 (t2 & t3 & m & El' & Hm & _ & _ & Hv3). tx_step. intros st4 n Hn. tx_step. allowed.
  apply (law_fill _ _ _ _ _ _ Hn) in H as (b & t4 & Hb4 & _ & Hv4).
  rewrite Hv3, Hv2, Hv1 in Hb4. cbn in Hb4. rewrite Hclaim in Hb4. injection Hb4 as <-.
  apply yields_ret.
  assert (view st4 = on_backorders <[bo_ID claim := filled_backorder (rs_ID r) (lv_LocationID level) t4 claim]>
    (on_reservations <[rs_ID r := with_status ReservationConfirmed t3 r]>
      (append_entries [m] (put_level l' (view st))))) as ->.
  { rewrite Hv4, Hv3, Hv2, Hv1, El', Eheld. unfold on_backorders, on_reservations, append_entries, put_level, on_movements, on_levels. cbn.
    by rewrite !insert_insert_eq. }
  apply (fs_fill (view st) level t2 (with_status ReservationConfirmed t3 r) m claim t4 l'); try done.
  rewrite El'. unfold with_quantities. cbn. f_equal. lia.
Qed.

(** ** The loop *)

Lemma fill_step_bounds w l w' l' id : fill_step w l w' l' id -> in_bounds l -> in_bounds l'.
Proof.
  intros (_ & _ & _ & _ & Hr & b & r & _ & _ & Hs & Hq & _)%fill_step_level. unfold in_bounds. lia.
Qed.

Lemma fill_step_claims w l w' l' id : fill_step w l w' l' id -> claims_bounded w -> claims_bounded w'.
Proof.
  intros (_ & _ & _ & _ & _ & b & r & Hb & <- & _ & Hq & t & E)%fill_step_level Hc k b'. rewrite E.
  intros [[<- <-]|[Hne Hk]]%lookup_insert_Some; [|by apply Hc]. destruct (Hc _ _ Hb) as (? & ? & ? & ?).
  do 3 (split; [done|]). done.
Qed.

(** The claims the loop has still to look at, and what is known of the others. *)
Record pending (w : Warehouse) (l : InventoryLevel) (limit : Z) (claims : list Backorder) : Prop := {
  pe_level : wh_levels w !! lv_ID l = Some l;
  pe_bounds : in_bounds l;
  pe_claims : claims_bounded w;
  pe_limit : sellable l <= limit;
  pe_once : NoDup (bo_ID <$> claims);
  pe_rows c : c ∈ claims -> wh_backorders w !! bo_ID c = Some c /\
    fits_at (lv_InventoryItemID l) (lv_LocationID l) limit c;
  pe_rest k b : wh_backorders w !! k = Some b ->
    fits_at (lv_InventoryItemID l) (lv_LocationID l) limit b ->
    b ∈ claims \/ sellable l < bo_Quantity b - bo_WithdrawnQuantity b
}.

Lemma pending_owed w l limit claim claims : pending w l limit (claim :: claims) ->
  Owed claim = bo_Quantity claim - bo_WithdrawnQuantity claim /\ 0 < Owed claim.
Proof.
  intros H. destruct (pe_rows _ _ _ _ H claim (list_elem_of_here _ _)) as [Hb Hf].
  destruct (fits_owed w claim (pe_claims _ _ _ _ H) Hb) as [Eo _]. destruct Hf as ([_ Hs] & _).
  destruct (pe_claims _ _ _ _ H _ _ Hb) as (_ & _ & _ & Hlt). specialize (Hlt Hs). lia.
Qed.

Lemma pending_skip w l limit claim claims : pending w l limit (claim :: claims) -> sellable l < Owed claim ->
  pending w l limit claims.
Proof.
  intros H Hs. destruct (pending_owed _ _ _ _ _ H) as [Eo _]. destruct H as [Hl Hb Hc Hlim Hnd Hrows Hrest].
  rewrite fmap_cons in Hnd. apply NoDup_cons in Hnd as [Hnin Hnd]. split; try done.
  - intros c Hin. apply Hrows. by apply list_elem_of_further.
  - intros k b Hk Hf. destruct (Hrest k b Hk Hf) as [[->|Hin]%elem_of_cons|Hlt]; [right; lia|by left|by right].
Qed.

Lemma pending_fill w l limit claim claims w' l' : pending w l limit (claim :: claims) ->
  fill_step w l w' l' (bo_ID claim) -> pending w' l' limit claims.
Proof.
  intros H Hf. pose proof (fill_step_bounds _ _ _ _ _ Hf (pe_bounds _ _ _ _ H)) as Hb'.
  pose proof (fill_step_claims _ _ _ _ _ Hf (pe_claims _ _ _ _ H)) as Hc'.
  destruct (fill_step_level _ _ _ _ _ Hf) as (Hid & [Hsi Hsl] & _ & Hl' & Hr & b & r & Hbo & Hbid & Hs & Hq & t & E).
  destruct H as [Hl Hb Hc Hlim Hnd Hrows Hrest]. rewrite fmap_cons in Hnd. apply NoDup_cons in Hnd as [Hnin Hnd].
  assert (forall c, c ∈ claims -> bo_ID c <> bo_ID claim) as Hne.
  { intros c Hin E'. apply Hnin. rewrite <- E'. by apply list_elem_of_fmap_2. }
  assert (sellable l' <= sellable l) as Hle by (unfold sellable; lia).
  split; try done; rewrite ?Hsi, ?Hsl.
  - lia.
  - intros c Hin. rewrite E, lookup_insert_ne by (intros E'; by destruct (Hne c Hin)).
    apply Hrows. by apply list_elem_of_further.
  - intros k b0. rewrite E. intros [[<- <-]|[Hne' Hk]]%lookup_insert_Some Hfit; [by destruct Hfit as ([_ ?] & _)|].
    destruct (Hrest k b0 Hk Hfit) as [[->|Hin]%elem_of_cons|Hlt]; [|by left|right; lia].
    destruct (Hc _ _ Hk) as [E' _]. congruence.
Qed.

(** What a fill takes of what is sellable. *)
Lemma fill_step_sellable w l w' l' claim : wh_backorders w !! bo_ID claim = Some claim ->
  fill_step w l w' l' (bo_ID claim) ->
  sellable l' = sellable l - (bo_Quantity claim - bo_WithdrawnQuantity claim).
Proof.
  intros Hb (_ & _ & _ & _ & Hr & b & r & Hbo & Eb & Hs & _)%fill_step_level. rewrite Eb, Hb in Hbo.
  injection Hbo as <-. unfold sellable. lia.
Qed.

Lemma fill_claims_yields (rec : write_fn) limit claims : forall g level filled st,
  pending (view st) level limit claims ->
  yields st (fill_claims db (write_with db rec) g level claims filled) (fun out st' =>
    exists ids, out.2 = filled ++ ids /\ fills (view st) level ids (view st') out.1 /\
      pending (view st') out.1 limit [] /\ greedy (sellable level) claims = (ids, sellable out.1)).
Proof.
  induction claims as [|claim claims IH]; intros g level filled st Hp; cbn [fill_claims].
  { apply yields_ret. exists []. rewrite app_nil_r. by split_and!; [|constructor|..]. }
  destruct (pending_owed _ _ _ _ _ Hp) as [Eo Hpos].
  rewrite (Available_exact level) by apply Hp. destruct (Z.leb_spec (Owed claim) 0); [lia|]. cbn [orb].
  cbn [greedy]. rewrite <- Eo, Z.leb_antisym.
  destruct (Z.ltb_spec (sellable level) (Owed claim)) as [Hlt|Hle]; cbn [negb].
  { apply IH. by eapply pending_skip. }
  destruct (pe_rows _ _ _ _ Hp claim (list_elem_of_here _ _)) as [Hb (Hf1 & Hf2 & _)].
  tx_step. eapply yields_mono; [apply fill_claim_yields; [apply Hp|apply Hp|apply Hp|done|split_and!; [done|done|lia]|done]|].
  intros l1 st1 Hstep. cbn beta in Hstep. eapply yields_mono; [apply IH; by eapply pending_fill|].
  intros out st2 (ids & Eo2 & Hfs & Hend & Eg). exists (bo_ID claim :: ids).
  split_and!; [by rewrite Eo2, <- app_assoc|by econstructor|done|].
  rewrite Eo, <- (fill_step_sellable (view st) level (view st1) l1 claim Hb Hstep). by rewrite Eg.
Qed.

Lemma locked_pending w l claims : wh_levels w !! lv_ID l = Some l -> in_bounds l -> claims_bounded w ->
  locked_claims (fits_at (lv_InventoryItemID l) (lv_LocationID l) (sellable l)) w claims ->
  pending w l (sellable l) claims.
Proof.
  intros Hl Hb Hc [Hrows Hall Hnd _]. split; try done. intros k b Hk Hf. left. by apply (Hall k).
Qed.

Lemma pending_served w l limit : pending w l limit [] -> served w l.
Proof.
  intros [? ? ? Hlim _ _ Hrest] k b Hb (Hw & Hin & Hfit).
  destruct (Hrest k b Hb) as [Hnil|Hlt]; [split_and!; [done..|lia]|by apply not_elem_of_nil in Hnil|lia].
Qed.

Lemma fill_yields (rec : write_fn) g level st :
  wh_levels (view st) !! lv_ID level = Some level -> in_bounds level -> claims_bounded (view st) ->
  yields st (fill_with db (write_with db rec) g level) (fun out st' =>
    fills (view st) level out.2 (view st') out.1 /\ served (view st') out.1 /\ queued (view st) level out.2 out.1).
Proof.
  intros Hl Hb Hc. unfold fill_with. tx_step. tx_step. apply law_lock_waiting in H.
  rewrite Available_exact in H by done.
  eapply yields_mono; [apply (fill_claims_yields rec (sellable level)); by apply locked_pending|].
  intros out st' (ids & -> & Hf & Hp & Eg). split; [done|]. split; [by eapply pending_served|]. by exists a.
Qed.

(** ** A write *)

Lemma write_yields (rec : write_fn) g l s q reason reservation reference line st :
  wh_levels (view st) !! lv_ID l = Some l -> 0 <= q <= s -> s <= int64_max -> claims_bounded (view st) ->
  yields st (write_with db (write_with db rec) g l s q reason reservation reference line) (fun l' st' =>
    exists l1 ms ids, written (view st) l l1 s q ms /\ Forall (described reason reservation reference line) ms /\
      fills (append_entries ms (put_level l1 (view st))) l1 ids (view st') l' /\
      (Available l < Available l1 -> served (view st') l' /\ queued (view st) l1 ids l')).
Proof.
  intros Hl Hq Hs Hc. unfold write_with at 1. tx_step. intros st1 l1 (l0 & t & Hl0 & El1 & Hv)%law_update_level.
  rewrite Hl in Hl0. injection Hl0 as <-. tx_step. eapply yields_mono; [apply recordMovement_yields|].
  intros _ st2 (ms & Ha & Hd & Hv2).
  assert (written (view st) l l1 s q ms) as Hwr by (split; [by exists t|done]).
  assert (view st2 = append_entries ms (put_level l1 (view st))) as Ev2 by by rewrite Hv2, Hv, El1.
  destruct (Z.ltb_spec (Available l) (Available l1)) as [Hlt|Hle].
  - tx_step. eapply yields_mono; [apply fill_yields|].
    + rewrite Ev2, El1. cbn. by rewrite lookup_insert_eq.
    + rewrite El1. unfold in_bounds. cbn. lia.
    + by rewrite Ev2.
    + intros out st3 (Hf & Hse & Hqu). apply yields_ret. exists l1, ms, out.2. rewrite <- Ev2. split_and!; try done.
      intros _. split; [done|]. destruct Hqu as (claims & Hcl & Eids). exists claims. split; [|done].
      rewrite Ev2 in Hcl. by destruct Hcl.
  - apply yields_ret. exists l1, ms, []. split_and!; [done|done|rewrite <- Ev2; constructor|lia].
Qed.
End Fill.

(** * The nesting of writes stops

    A write that fills writes again, but a hold lowers what is sellable and a deduction leaves it, so
    the inner writes do not fill. Whatever would have been called deeper is never called: the program's
    unbounded recursion is the recursion to [depth]. *)

(** Two runs agree when their first parts do and the rests agree on what the first part can give. *)
Lemma run_bind {St A B} (m1 m2 : tx St A) (f1 f2 : A -> tx St B) (Q : A -> St -> Prop) st :
  m1 st = m2 st -> yields st m1 Q -> (forall a st', Q a st' -> f1 a st' = f2 a st') ->
  (m1 ≫= f1) st = (m2 ≫= f2) st.
Proof.
  intros E HQ Hf. unfold mbind, tx_bind. rewrite <- E. destruct (m1 st) as [st1 [a|e]] eqn:E1; [|done].
  apply Hf. by apply (HQ st1 a).
Qed.

Lemma run_same {St A B} (m : tx St A) (f1 f2 : A -> tx St B) (Q : A -> St -> Prop) st :
  yields st m Q -> (forall a st', Q a st' -> f1 a st' = f2 a st') -> (m ≫= f1) st = (m ≫= f2) st.
Proof. by apply run_bind. Qed.

Section Nest.
Context {St : Type} (db : Store St) (view : St -> Warehouse) `{!InventoryLaws db view}.

Abbreviation write_fn := (seeds -> InventoryLevel -> Z -> Z -> MovementReason -> string -> string -> string ->
  tx St InventoryLevel).

Variables (rec1 rec2 : write_fn).

Lemma write_quiet_same g l s q reason reservation reference line st :
  wh_levels (view st) !! lv_ID l = Some l -> (s -₆₄ q) <= Available l ->
  write_with db rec1 g l s q reason reservation reference line st =
  write_with db rec2 g l s q reason reservation reference line st.
Proof.
  intros Hl Hq. unfold write_with.
  apply (run_same _ _ _ (fun l1 _ => Available l1 = s -₆₄ q)).
  { intros st1 l1 (l0 & t & Hl0 & -> & _)%law_update_level. done. }
  intros l1 st1 E. apply (run_same _ _ _ (fun _ _ => True)); [done|].
  intros [] st2 _. rewrite E. destruct (Z.ltb_spec (Available l) (s -₆₄ q)); [lia|done].
Qed.

Lemma deduct_same g r level orderID st :
  wh_levels (view st) !! lv_ID level = Some level -> in_bounds level -> 0 < rs_Quantity r <= int64_max ->
  deduct_with db (write_with db rec1) g r level orderID st =
  deduct_with db (write_with db rec2) g r level orderID st.
Proof.
  intros Hl Hb Hq. unfold deduct_with, in_bounds in *. rewrite !sub64_exact by in64.
  apply (run_same _ _ _ (fun _ st' => st' = st /\ 0 <= lv_StockedQuantity level - rs_Quantity r /\ 0 <= lv_ReservedQuantity level - rs_Quantity r)).
  { apply yields_check. intros H. allowed. split; [done|lia]. }
  intros [] ? (-> & Hs & Hr). apply (run_bind _ _ _ _ (fun _ _ => True)); [|done|done].
  apply write_quiet_same; [done|]. rewrite Available_exact by done. unfold sellable. rewrite sub64_exact by in64. lia.
Qed.

Lemma fill_claim_same g level claim st :
  wh_levels (view st) !! lv_ID level = Some level -> in_bounds level -> 0 < Owed claim <= sellable level ->
  fill_claim db (write_with db rec1) g level claim (Owed claim) st =
  fill_claim db (write_with db rec2) g level claim (Owed claim) st.
Proof.
  intros Hl Hb Ho. unfold fill_claim, in_bounds, sellable in *.
  apply (run_same _ _ _ (fun r st' => wh_levels (view st') = wh_levels (view st) /\ rs_Quantity r = Owed claim)).
  { intros st1 r (_ & t & -> & Hv)%law_create_reservation. by rewrite Hv. }
  intros r st1 [E1 Er]. apply (run_same _ _ _ (fun q st' => st' = st1 /\ q = lv_ReservedQuantity level + Owed claim)).
  { tx_step. apply addQuantity_Ok in H as [-> _]; [done|in64..]. }
  intros q ? [-> ->].
  assert (lv_StockedQuantity level -₆₄ (lv_ReservedQuantity level + Owed claim) <= Available level) as Hquiet.
  { rewrite Available_exact by done. unfold sellable. rewrite sub64_exact by in64. lia. }
  apply (run_bind _ _ _ _ (fun held st' => wh_levels (view st') !! lv_ID held = Some held /\ in_bounds held)).
  { apply write_quiet_same; [by rewrite E1|done]. }
  { eapply yields_mono; [apply (write_quiet_yields db view); [by rewrite E1|done]|].
    intros held st2 (ms & [[t ->] _] & _ & Hv). rewrite Hv. cbn. rewrite lookup_insert_eq. split; [done|].
    unfold in_bounds. cbn. lia. }
  intros held st2 [Hl2 Hb2]. apply (run_bind _ _ _ _ (fun _ _ => True)); [|done|done].
  apply deduct_same; [done|done|in64].
Qed.

Lemma fill_claims_same limit claims : forall g level filled st,
  pending (view st) level limit claims ->
  fill_claims db (write_with db rec1) g level claims filled st =
  fill_claims db (write_with db rec2) g level claims filled st.
Proof.
  induction claims as [|claim claims IH]; intros g level filled st Hp; [done|]. cbn [fill_claims].
  destruct (pending_owed _ _ _ _ _ Hp) as [Eo Hpos].
  rewrite (Available_exact level) by apply Hp. destruct (Z.leb_spec (Owed claim) 0); [lia|]. cbn [orb].
  destruct (Z.ltb_spec (sellable level) (Owed claim)) as [Hlt|Hle].
  { apply IH. by eapply pending_skip. }
  destruct (pe_rows _ _ _ _ Hp claim (list_elem_of_here _ _)) as [Hb (Hf1 & Hf2 & _)].
  apply (run_bind _ _ _ _ (fun l' st' => fill_step (view st) level (view st') l' (bo_ID claim))).
  - apply fill_claim_same; [apply Hp|apply Hp|lia].
  - apply fill_claim_yields; [done|apply Hp|apply Hp|apply Hp|done|split_and!; [done|done|lia]|done].
  - intros l' st' Hs. apply IH. by eapply pending_fill.
Qed.

Lemma write_same g l s q reason reservation reference line st :
  wh_levels (view st) !! lv_ID l = Some l -> 0 <= q <= s -> s <= int64_max -> claims_bounded (view st) ->
  write_with db (write_with db rec1) g l s q reason reservation reference line st =
  write_with db (write_with db rec2) g l s q reason reservation reference line st.
Proof.
  intros Hl Hq Hs Hc. unfold write_with at 1 3.
  apply (run_same _ _ _ (fun l1 st' => wh_levels (view st') !! lv_ID l1 = Some l1 /\ in_bounds l1 /\
    wh_backorders (view st') = wh_backorders (view st))).
  { intros st1 l1 (l0 & t & Hl0 & -> & Hv)%law_update_level. rewrite Hl in Hl0. injection Hl0 as <-.
    rewrite Hv. cbn. rewrite lookup_insert_eq. split_and!; [done|unfold in_bounds; cbn; lia|done]. }
  intros l1 st1 (Hl1 & Hb1 & Ec). apply (run_same _ _ _ (fun _ st' => exists ms, view st' = append_entries ms (view st1))).
  { eapply yields_mono; [apply (recordMovement_yields db view)|]. intros _ st' (ms & _ & _ & E). by exists ms. }
  intros [] st2 [ms E2]. destruct (Available l <? Available l1); [|done].
  apply (run_bind _ _ _ _ (fun _ _ => True)); [|done|done]. unfold fill_with.
  apply (run_same _ _ _ (fun claims st' => st' = st2 /\ pending (view st2) l1 (sellable l1) claims)).
  { tx_step. split; [done|]. apply (law_lock_waiting (view := view)) in H. rewrite Available_exact in H by done.
    apply locked_pending; [by rewrite E2|done| |done]. intros k b. rewrite E2. cbn. rewrite Ec. apply Hc. }
  intros claims ? [-> Hp]. by eapply fill_claims_same.
Qed.
End Nest.
