(* ===== verification/InventoryClaims.v ===== *)
(** * Counts, promises, claims and receipts: the operations as runs of moves

    First the physical count, what the operations that write a new one do: the level takes it, the ledger explains it, and the
    claims that wait are filled from what became sellable. *)
From S2P Require Import Prelude GoText Errors Tx Identifiers Database InventoryModels InventoryService InventoryMoves InventoryKept InventoryPromises InventoryFill.
Set Warnings "-level-tolerance,-clear-no-such-hyp".

(** A level became [l1] by [d], a movement with this reason and reference explains it, and then claims
    were filled. *)
Record recounted (w : Warehouse) (l1 : InventoryLevel) (d : Z) (reason : MovementReason)
    (reference line : string) (w' : Warehouse) (l' : InventoryLevel) : Prop := {
  rc_counted : counted w l1 d;
  rc_open : open_location w (lv_LocationID l1);
  rc_ledger : exists ms ids, accounted l1 d ms /\
    Forall (described reason EmptyString reference line) ms /\
    fills (append_entries ms (put_level l1 w)) l1 ids w' l' /\ (0 < d -> queued w l1 ids l');
  rc_served : 0 < d -> served w' l'
}.

Lemma described_plain d reason reference line ms : LeavesAgainstAPromise reason = false ->
  (adds reason = true -> 0 < d) -> Forall (described reason EmptyString reference line) ms ->
  Forall (plain d) ms.
Proof.
  intros Hl Ha H. eapply Forall_impl; [exact H|]. intros m (E & _ & _ & _). unfold plain. by rewrite E.
Qed.

Lemma recounted_moves w l1 d reason reference line w' l' : recounted w l1 d reason reference line w' l' ->
  LeavesAgainstAPromise reason = false -> (adds reason = true -> 0 < d) ->
  reason <> MovementSupplierReceipt -> rtc move w w'.
Proof.
  intros [Hc Ho (ms & ids & Ha & Hd & Hf & _) _] Hl Hadd Hne.
  eapply rtc_l; [|by eapply fills_moves]. apply (mv_count w l1 d); [done..|]. apply Forall_and. split.
  - by eapply described_plain.
  - eapply Forall_impl; [exact Hd|]. intros m (E & _ & _ & _). by rewrite E.
Qed.

(** ** Rules for the reads *)

Section Reads.
Context {St : Type}.

Lemma yields_lock (f : St -> option err) st (Q : unit -> St -> Prop) :
  (f st = None -> Q tt st) -> yields st (tx_lock f) Q.
Proof. intros H. apply yields_read. intros []. destruct (f st); [done|]. intros _. by apply H. Qed.

Lemma yields_find {A} (f : St -> result A) st (Q : option A -> St -> Prop) :
  (forall a, f st = Ok a -> Q (Some a) st) ->
  (forall e, f st = Fail e -> HasKind (Some e) KindNotFound = true -> Q None st) -> yields st (tx_find f) Q.
Proof.
  intros Hs Hn. apply yields_read. intros r. destruct (f st) as [a|e]; [intros [= <-]; by apply Hs|].
  destruct (HasKind (Some e) KindNotFound) eqn:E; [|done]. intros [= <-]. by apply (Hn e).
Qed.

End Reads.

Lemma yields_open {St} (db : Store St) (view : St -> Warehouse) `{!InventoryLaws db view} location st (Q : unit -> St -> Prop) :
  (open_location (view st) location -> Q tt st) -> yields st (requireOpenLocation db location) Q.
Proof.
  intros H. unfold requireOpenLocation. tx_step. tx_step. apply yields_check. intros Ho. allowed.
  apply H. exists a. split; [by apply law_lock_location_shared|done].
Qed.

(** Follows a body by the shape of its next statement. *)
Ltac inv_step :=
  lazymatch goal with
  | |- yields _ (WithTx _ _) _ => apply yields_atomically
  | |- yields _ (mbind _ (tx_check _)) _ => apply yields_guard; intros ?
  | |- yields _ (mbind _ (tx_lock _)) _ => apply yields_bind, yields_lock; intros ?
  | |- yields _ (mbind _ (tx_read _)) _ => apply yields_bind, yields_read; intros ? ?
  | |- yields _ (mbind _ (tx_of _)) _ => apply yields_bind, yields_of; intros ? ?
  | |- yields _ (mbind _ (tx_do _)) _ => apply yields_bind, yields_do; intros ? ?
  | L : InventoryLaws _ ?view |- yields _ (mbind _ (requireOpenLocation _ _)) _ =>
      apply yields_bind, (yields_open _ view); intros ?
  | |- yields _ (mbind _ _) _ => apply yields_bind
  | |- yields _ (tx_read _) _ => apply yields_read; intros ? ?
  | |- yields _ (tx_of _) _ => apply yields_of; intros ? ?
  | |- yields _ (tx_check _) _ => apply yields_check; intros ?
  | |- yields _ (tx_do _) _ => apply yields_do; intros ? ?
  | |- yields _ (mret _) _ => apply yields_ret
  end.

(** What the locks that were taken say of the tables. *)
Ltac locked view :=
  repeat match goal with
  | H : db_LockInventoryItem _ _ _ = None |- _ => apply (law_lock_item (view := view)) in H
  | H : db_LockInventoryItemShared _ _ _ = None |- _ => apply (law_lock_item_shared (view := view)) in H
  | H : db_LockInventoryLevel _ _ _ _ = Ok _ |- _ => apply (law_lock_level (view := view)) in H as [? [? ?]]
  | H : db_LockReservation _ _ _ = Ok _ |- _ => apply (law_lock_reservation (view := view)) in H
  | H : db_LockSupplierReceipt _ _ _ = Ok _ |- _ => apply (law_lock_receipt (view := view)) in H
  | H : db_GetSupplierReceipt _ _ _ = Ok _ |- _ => apply (law_get_receipt (view := view)) in H
  | H : db_LockStockLocation _ _ _ = Ok _ |- _ => apply (law_lock_location (view := view)) in H
  | H : db_ReturnedForLine _ _ _ _ = Ok _ |- _ => apply (law_returned (view := view)) in H
  end.

Section Counts.
Context {St : Type} (db : Store St) (view : St -> Warehouse) `{!InventoryLaws db view}.

(** ** The write *)

Lemma writeQuantities_recounted g l s reason reference line st :
  sound (view st) -> wh_levels (view st) !! lv_ID l = Some l -> open_location (view st) (lv_LocationID l) ->
  lv_ReservedQuantity l <= s <= int64_max ->
  yields st (writeQuantities db depth g l s (lv_ReservedQuantity l) reason EmptyString reference line)
    (fun l' st' => exists l1, lv_StockedQuantity l1 = s /\
      at_shelf (lv_InventoryItemID l) (lv_LocationID l) l1 /\
      recounted (view st) l1 (s - lv_StockedQuantity l) reason reference line (view st') l').
Proof.
  intros Hw Hl Ho Hs. destruct (so_levels _ Hw _ _ Hl) as [_ Hb _ _ _ _].
  eapply yields_mono; [apply (write_yields db view (fun _ _ _ _ _ _ _ _ => tx_of (Fail too_deep))); [done|lia|lia|by apply sound_claims]|].
  intros l' st' (l1 & ms & ids & [[t ->] Ha] & Hd & Hf & Hse). rewrite sub64_exact in Ha by in64.
  exists (with_quantities s (lv_ReservedQuantity l) t l). split_and!; [done|done|]. split.
  - by constructor.
  - done.
  - exists ms, ids. split_and!; [done..|]. intros Hpos. apply Hse. rewrite !Available_exact; unfold in_bounds, sellable; cbn; lia.
  - intros Hpos. apply Hse. rewrite !Available_exact; unfold in_bounds, sellable; cbn; lia.
Qed.

Lemma openLevel_recounted g item location s reason reference st :
  sound (view st) -> open_location (view st) location -> is_Some (wh_items (view st) !! item) ->
  0 <= s <= int64_max ->
  yields st (openLevel db g item location s reason reference)
    (fun l' st' => exists l1, lv_StockedQuantity l1 = s /\ at_shelf item location l1 /\
      recounted (view st) l1 s reason reference EmptyString (view st') l').
Proof.
  intros Hw Ho Hi Hs. unfold openLevel. tx_step. intros st1 l1 (Hn & Hno & t & El & Hv)%law_create_level.
  tx_step. eapply yields_mono; [apply (recordMovement_yields db view)|]. intros _ st2 (ms & Ha & Hd & Hv2). rewrite El in *.
  set (l1' := new_level t _) in *.
  assert (counted (view st) l1' s) as Hc.
  { apply (ct_open (view st) l1'); try done. intros (k & l & Hk & Hsh). by apply (Hno k l). }
  assert (view st2 = append_entries ms (put_level l1' (view st))) as Ev2 by by rewrite Hv2, Hv.
  assert (in_bounds l1') as Hb by (unfold in_bounds; cbn; lia).
  assert (Available l1' = s) as -> by (rewrite Available_exact by done; unfold sellable; cbn; lia).
  destruct (Z.ltb_spec 0 s) as [Hpos|Hz].
  - tx_step. eapply yields_mono; [apply (fill_yields db view (writeQuantities db 1))|].
    + rewrite Ev2. cbn. by rewrite lookup_insert_eq.
    + done.
    + rewrite Ev2. apply (sound_claims _ Hw).
    + intros out st3 (Hf & Hse & Hqu). apply yields_ret. exists l1'. split_and!; [done|done|]. split; try done.
      exists ms, out.2. rewrite <- Ev2. split_and!; [done..|]. intros _. destruct Hqu as (claims & Hcl & Eids).
      exists claims. split; [|done]. rewrite Ev2 in Hcl. by destruct Hcl.
  - apply yields_ret. exists l1'. split_and!; [done|done|]. split; try done; [|lia].
    exists ms, []. split_and!; [done|done|rewrite <- Ev2; constructor|lia].
Qed.

(** ** The operations *)

Lemma locked_bounds l st : sound (view st) -> wh_levels (view st) !! lv_ID l = Some l -> in_bounds l.
Proof. intros Hw Hl. apply (lk_bounds _ _ _ (so_levels _ Hw _ _ Hl)). Qed.

Lemma setInventoryLevel_yields g item location s read st :
  sound (view st) -> s <= int64_max ->
  yields st (setInventoryLevel db g item location s read) (fun l' st' => exists l1 d,
    lv_StockedQuantity l1 = s /\ at_shelf item location l1 /\
    recounted (view st) l1 d MovementStockCount EmptyString EmptyString (view st') l').
Proof.
  intros Hw Hs. unfold setInventoryLevel. do 6 inv_step. allowed. locked view. apply yields_find.
  - intros l Hl. locked view. do 2 inv_step. allowed.
    eapply yields_mono; [apply writeQuantities_recounted; [done|done|congruence|lia]|].
    intros l' st' (l1 & E & [Hi Hl1] & Hr). exists l1, (s - lv_StockedQuantity l). split_and!; [done| |done].
    split; congruence.
  - intros e He Hk. inv_step.
    eapply yields_mono; [apply openLevel_recounted; [done|done|done|lia]|].
    intros l' st' (l1 & E & Ha & Hr). by exists l1, s.
Qed.

Lemma adjust_yields g item location delta reason st : sound (view st) -> in_int64 delta ->
  yields st (adjust db g item location delta reason) (fun l' st' => exists l1,
    at_shelf item location l1 /\ recounted (view st) l1 delta reason EmptyString EmptyString (view st') l').
Proof.
  intros Hw Hd. unfold adjust. do 5 inv_step. rename a into l. locked view.
  assert (in_bounds l) as Hb by by apply (locked_bounds l st). unfold in_bounds in Hb. inv_step.
  match goal with H : addQuantity _ _ = Ok _ |- _ => apply addQuantity_Ok in H as [-> Hmax]; [|in64..] end.
  inv_step. allowed.
  eapply yields_mono; [apply writeQuantities_recounted; [done|done|congruence|lia]|].
  intros l' st' (l1 & _ & [Hi Hl1] & Hr). exists l1. split; [split; congruence|].
  by replace delta with (lv_StockedQuantity l + delta - lv_StockedQuantity l) by lia.
Qed.

(** What cancellations put back for a line. *)
Definition returned (item line : string) (w : Warehouse) : Z :=
  log_sum (fun m => if decide (put_back item line m) then mv_Delta m else 0) (wh_movements w).

Lemma returned_range item line w : sound w -> 0 <= returned item line w.
Proof.
  intros Hw. unfold returned, log_sum. apply sumZ_nonneg, Forall_fmap. pose proof (so_ledger _ Hw) as Hled.
  induction Hled as [|led m Hled IH He]; [constructor|]. apply Forall_app. split; [exact IH|]. constructor; [|constructor].
  cbn. destruct (decide _) as [[E _]|]; [|lia]. pose proof (ex_adds _ _ He) as Ha. rewrite E in Ha. specialize (Ha eq_refl). lia.
Qed.

Lemma ReturnCanceledInventory_yields g item location line target reference st :
  sound (view st) -> in_int64 target ->
  yields st (ReturnCanceledInventory db g item location line target reference) (fun l' st' => exists l1 d,
    at_shelf item location l1 /\ 0 < d /\ (returned item line (view st) <= int64_max -> d = target - returned item line (view st)) /\
    recounted (view st) l1 d MovementCancellation reference line (view st') l').
Proof.
  intros Hw Ht. unfold ReturnCanceledInventory. do 8 inv_step. rename a into l. inv_step. allowed. locked view.
  assert (in_bounds l) as Hb by by apply (locked_bounds l st). unfold in_bounds in Hb. subst a.
  fold (returned item line (view st)) in *. do 2 inv_step. allowed.
  match goal with H : addQuantity _ _ = Ok _ |- _ => apply addQuantity_Ok in H as [-> Hmax]; [|in64|apply wrap64_range|lia] end.
  eapply yields_mono; [apply writeQuantities_recounted; [done|done|congruence|lia]|].
  intros l' st' (l1 & _ & [Hi Hl1] & Hr).
  exists l1, (target -₆₄ returned item line (view st)). split_and!; [split; congruence|done| |].
  - intros Hr64. apply sub64_exact. pose proof (returned_range item line (view st) Hw). in64.
  - by replace (target -₆₄ returned item line (view st)) with
      (lv_StockedQuantity l + (target -₆₄ returned item line (view st)) - lv_StockedQuantity l) by lia.
Qed.
End Counts.

(** * Promises

    What reserving, releasing, confirming and recalling do. A release gives units back before it marks
    the promise released, so the fill it starts runs on tables that still show the promise; the fill
    does not see it. *)

(** The tables after a promise is made, released and kept. *)
Definition after_hold (l : InventoryLevel) (t : moment) (r : Reservation) : Warehouse -> Warehouse := fun w =>
  on_reservations <[rs_ID r := r]>
    (put_level (with_quantities (lv_StockedQuantity l) (lv_ReservedQuantity l + rs_Quantity r) t l) w).

Definition after_release (l : InventoryLevel) (t : moment) (r : Reservation) (t' : moment) : Warehouse -> Warehouse :=
  fun w => on_reservations <[rs_ID r := with_status ReservationReleased t' r]>
    (put_level (with_quantities (lv_StockedQuantity l) (lv_ReservedQuantity l - rs_Quantity r) t l) w).

Definition after_confirm (l' : InventoryLevel) (r : Reservation) (t' : moment) (m : Movement) :
    Warehouse -> Warehouse := fun w =>
  on_reservations <[rs_ID r := with_status ReservationConfirmed t' r]> (append_entries [m] (put_level l' w)).

Section Holds.
Context {St : Type} (db : Store St) (view : St -> Warehouse) `{!InventoryLaws db view}.

Lemma Reserve_yields g in_ st : sound (view st) ->
  yields st (Reserve db g in_) (fun r st' => exists l t,
    wh_levels (view st) !! lv_ID l = Some l /\ at_shelf (ri_InventoryItemID in_) (ri_LocationID in_) l /\
    wh_reservations (view st) !! rs_ID r = None /\ rs_ID r <> EmptyString /\ promised_at l r /\
    rs_Status r = ReservationActive /\ ReservationPurpose_Valid (rs_Purpose r) = true /\
    rs_Quantity r = ri_Quantity in_ /\ 0 < ri_Quantity in_ <= sellable l /\
    view st' = after_hold l t r (view st)).
Proof.
  intros Hw. unfold Reserve. do 8 inv_step. rename a into l. locked view.
  assert (in_bounds l) as Hb by by apply (locked_bounds view l st). unfold in_bounds in Hb. inv_step.
  allowed. rewrite Available_exact in * by done. unfold sellable in *. inv_step.
  match goal with H : addQuantity _ _ = Ok _ |- _ => apply addQuantity_Ok in H as [-> Hmax]; [|in64..] end.
  inv_step. eapply yields_mono; [apply (write_quiet_yields db view); [done|]|].
  { rewrite Available_exact by done. unfold sellable. rewrite sub64_exact by in64. lia. }
  intros l1 st1 (ms & [[t ->] Ha] & _ & Hv1). rewrite sub64_exact, Z.sub_diag in Ha by in64.
  apply accounted_zero in Ha as ->. rewrite append_nothing in Hv1.
  intros st2 r (Hn & t0 & -> & Hv2)%law_create_reservation. rewrite Hv1 in Hn, Hv2.
  exists l, t. split_and!; try done; try lia.
Qed.

(** A promise is given back once: then, or earlier. *)
Lemma ReleaseReservation_yields g id st : sound (view st) ->
  yields st (ReleaseReservation db g id) (fun _ st' => exists r, wh_reservations (view st) !! id = Some r /\
    ((rs_Status r = ReservationReleased /\ view st' = view st) \/
     (rs_Status r = ReservationActive /\ exists l t t' ids l',
       let l1 := with_quantities (lv_StockedQuantity l) (lv_ReservedQuantity l - rs_Quantity r) t l in
       wh_levels (view st) !! lv_ID l = Some l /\ promised_at l r /\
       fills (after_release l t r t' (view st)) l1 ids (view st') l' /\ served (view st') l'))).
Proof.
  intros Hw. unfold ReleaseReservation. do 3 inv_step. rename a into r. locked view.
  match goal with H : wh_reservations _ !! _ = Some _ |- _ => rename H into Hr end.
  pose proof (so_reservations _ Hw _ _ Hr) as Hrok. pose proof (rk_quantity _ _ _ Hrok) as Hq.
  case_bool_decide as Hs1; [inv_step; exists r; split; [done|by left]|].
  case_bool_decide as Hs2; [inv_step; done|]. destruct (bool_decide (rs_Status r = ReservationActive)) eqn:Hs3; cbn [negb]; [|by inv_step].
  reflect_bools. do 2 inv_step. rename a into l. locked view.
  assert (in_bounds l) as Hb by by apply (locked_bounds view l st). pose proof Hb as Hb'. unfold in_bounds in Hb'.
  inv_step. allowed. rewrite sub64_exact in * by in64.
  inv_step. eapply yields_mono; [apply (write_yields db view (fun _ _ _ _ _ _ _ _ => tx_of (Fail too_deep))); [done|lia|lia|by apply sound_claims]|].
  intros l2 st1 (l1 & ms & ids & [[t ->] Ha] & _ & Hf & Hse). rewrite sub64_exact, Z.sub_diag in Ha by in64.
  apply accounted_zero in Ha as ->. rewrite append_nothing in Hf.
  inv_step. match goal with H : db_SetReservationStatus _ _ _ _ = _ |- _ => apply (law_set_status (view := view)) in H as (r0 & t' & Hr0 & Hv) end.
  destruct (fun H => fills_reservation _ _ _ _ _ id (with_status ReservationReleased t' r0) H Hf) as [Ek Hf']; [by exists r|].
  rewrite Ek in Hr0. cbn in Hr0. rewrite Hr in Hr0. injection Hr0 as <-.
  exists r. split; [done|]. right. split; [done|]. exists l, t, t', ids, l2. split_and!; [done|done| |].
  - rewrite Hv. unfold after_release. by rewrite (rk_id _ _ _ Hrok).
  - intros k b. rewrite Hv. cbn. eapply Hse. rewrite !Available_exact; unfold in_bounds, sellable; cbn; lia.
Qed.

(** A promise is kept once. *)
Lemma ConfirmReservation_yields g id orderID st : sound (view st) ->
  yields st (ConfirmReservation db g id orderID) (fun _ st' => exists r, wh_reservations (view st) !! id = Some r /\
    ((rs_Status r = ReservationConfirmed /\ view st' = view st) \/
     (rs_Status r = ReservationActive /\ exists l l' t t' m,
       wh_levels (view st) !! lv_ID l = Some l /\ promised_at l r /\
       l' = with_quantities (lv_StockedQuantity l - rs_Quantity r) (lv_ReservedQuantity l - rs_Quantity r) t l /\
       leaving l' r m /\ mv_Reference m = orderID /\ view st' = after_confirm l' r t' m (view st)))).
Proof.
  intros Hw. unfold ConfirmReservation. do 3 inv_step. rename a into r. locked view.
  match goal with H : wh_reservations _ !! _ = Some _ |- _ => rename H into Hr end.
  pose proof (so_reservations _ Hw _ _ Hr) as Hrok. pose proof (rk_quantity _ _ _ Hrok) as Hq.
  case_bool_decide as Hs1; [inv_step; exists r; split; [done|by left]|].
  case_bool_decide as Hs2; [inv_step; done|]. destruct (bool_decide (rs_Status r = ReservationActive)) eqn:Hs3; cbn [negb]; [|by inv_step].
  reflect_bools. do 2 inv_step. rename a into l. locked view.
  assert (in_bounds l) as Hb by by apply (locked_bounds view l st).
  inv_step. eapply yields_mono; [apply (deduct_yields db view (writeQuantities db 1)); [done|done|by rewrite (rk_id _ _ _ Hrok)|done]|].
  intros l' st1 (t & t' & m & El' & Hm & Href & _ & Hv). inv_step. exists r. split; [done|]. right. split; [done|].
  by exists l, l', t, t', m.
Qed.

Lemma RecallReplacementUnits_yields g id st : sound (view st) ->
  yields st (RecallReplacementUnits db g id) (fun l' st' => exists r l1, wh_reservations (view st) !! id = Some r /\
    rs_Status r = ReservationConfirmed /\ rs_Purpose r = PurposeReplacement /\
    Forall (fun m => ~ cancellation_of id m) (wh_movements (view st)) /\
    at_shelf (rs_InventoryItemID r) (rs_LocationID r) l1 /\ 0 < rs_Quantity r /\
    recounted (view st) l1 (rs_Quantity r) MovementCancellation id EmptyString (view st') l').
Proof.
  intros Hw. unfold RecallReplacementUnits. do 3 inv_step. rename a into r. locked view.
  match goal with H : wh_reservations _ !! _ = Some _ |- _ => rename H into Hr end.
  pose proof (so_reservations _ Hw _ _ Hr) as Hrok. pose proof (rk_quantity _ _ _ Hrok) as Hq.
  do 3 inv_step. rename a into recorded. inv_step. allowed.
  match goal with H : db_CancellationRecorded _ _ _ = _ |- _ => apply (law_recorded (view := view)) in H; rename H into Hrec end.
  do 3 inv_step. rename a into l. locked view.
  assert (in_bounds l) as Hb by by apply (locked_bounds view l st). unfold in_bounds in Hb. inv_step.
  match goal with H : addQuantity _ _ = Ok _ |- _ => apply addQuantity_Ok in H as [-> Hmax]; [|in64..|lia] end.
  eapply yields_mono; [apply (writeQuantities_recounted db view); [done|done|congruence|lia]|].
  intros l' st' (l1 & _ & [Hi Hl1] & Hrc). exists r, l1. split_and!; try done; try lia; [| |].
  - apply Forall_forall. intros m Hm Hc. assert (recorded = true) as E by (apply Hrec, Exists_exists; by exists m). congruence.
  - split; congruence.
  - by replace (rs_Quantity r) with (lv_StockedQuantity l + rs_Quantity r - lv_StockedQuantity l) by lia.
Qed.

(** ** As moves *)

Lemma Reserve_moves g in_ st : sound (view st) ->
  yields st (Reserve db g in_) (fun _ st' => rtc move (view st) (view st')).
Proof.
  intros Hw. eapply yields_mono; [by apply Reserve_yields|].
  intros r st' (l & t & Hl & _ & Hn & Hid & Hp & Hs & Hpu & Hq & Hle & ->). apply rtc_once, mv_hold; try done.
  unfold sellable in *. lia.
Qed.

Lemma ReleaseReservation_moves g id st : sound (view st) ->
  yields st (ReleaseReservation db g id) (fun _ st' => rtc move (view st) (view st')).
Proof.
  intros Hw. eapply yields_mono; [by apply ReleaseReservation_yields|].
  intros _ st' (r & Hr & [[_ ->]|(Hs & l & t & t' & ids & l' & Hl & Hp & Hf & _)]); [constructor|].
  eapply rtc_l; [|by eapply fills_moves]. apply mv_release; try done.
  by rewrite (rk_id _ _ _ (so_reservations _ Hw _ _ Hr)).
Qed.

Lemma ConfirmReservation_moves g id orderID st : sound (view st) ->
  yields st (ConfirmReservation db g id orderID) (fun _ st' => rtc move (view st) (view st')).
Proof.
  intros Hw. eapply yields_mono; [by apply ConfirmReservation_yields|].
  intros _ st' (r & Hr & [[_ ->]|(Hs & l & l' & t & t' & m & Hl & Hp & El & Hm & _ & ->)]); [constructor|].
  apply rtc_once. eapply mv_confirm; try done. by rewrite (rk_id _ _ _ (so_reservations _ Hw _ _ Hr)).
Qed.

Lemma RecallReplacementUnits_moves g id st : sound (view st) ->
  yields st (RecallReplacementUnits db g id) (fun _ st' => rtc move (view st) (view st')).
Proof.
  intros Hw. eapply yields_mono; [by apply RecallReplacementUnits_yields|].
  intros l' st' (r & l1 & _ & _ & _ & _ & _ & Hq & Hrc). by eapply recounted_moves.
Qed.
End Holds.

(** * Claims

    Recording a claim, settling a line's claims and draining the shelves for the ones that still wait. *)

(** What of a claim is withdrawn once [window] of the [bought] will not leave. *)
Definition settled (bought window : Z) (b : Backorder) : Z :=
  Z.max (bo_WithdrawnQuantity b) (Z.min (bo_Quantity b) (window * (bo_Quantity b / bought))).

(** A computation whose error the caller looks at. *)
Lemma yields_try {St A} st (m : tx St A) (Q : result A -> St -> Prop) : atomic m ->
  yields st m (fun a st' => Q (Ok a) st') -> (forall e, Q (Fail e) st) -> yields st (tx_try m) Q.
Proof.
  intros Hat Hy Hf st' r. unfold tx_try. destruct (m st) as [st1 [a|e]] eqn:E; cbn; intros [= <- <-].
  - by apply (Hy st1 a).
  - by rewrite (Hat st st1 e E).
Qed.

Section Claims.
Context {St : Type} (db : Store St) (view : St -> Warehouse) `{!InventoryLaws db view}.

Lemma ClaimBackorder_yields g in_ st : sound (view st) -> cb_Quantity in_ <= int64_max ->
  yields st (ClaimBackorder db g in_) (fun b st' =>
    (wh_backorders (view st) !! bo_ID b = None /\ move (view st) (view st') /\
      view st' = on_backorders <[bo_ID b := b]> (view st) /\ bo_Status b = BackorderWaiting /\
      bo_WithdrawnQuantity b = 0) \/
    (view st' = view st /\ wh_backorders (view st) !! bo_ID b = Some b)).
Proof.
  intros Hw Hmax. unfold ClaimBackorder. do 8 inv_step. intros st1 [b fresh] Hc%law_create_backorder. cbn [fst snd].
  locked view. allowed. destruct fresh.
  - inv_step. destruct Hc as (Hn & Hno & seq & t & -> & Hv). left. cbn.
    split_and!; [done| |done|done|done]. rewrite Hv.
    match goal with |- move _ (on_backorders <[_ := ?r]> _) => by apply (mv_claim (view st) r) end.
  - do 3 inv_step. right. split; [exact Hc|].
    match goal with H : db_GetBackorderOfLine _ _ _ _ = Ok _ |- _ => apply (law_backorder_of_line (view := view)) in H as [Hb _] end.
    by rewrite <- Hc.
Qed.

(** ** Settling *)

Lemma settle_claim_yields bought window claim st : sound (view st) ->
  wh_backorders (view st) !! bo_ID claim = Some claim -> 0 <= window <= bought -> 0 < bought <= int64_max ->
  yields st (settle_claim db bought window claim) (fun claim' st' =>
    rtc move (view st) (view st') /\ bo_ID claim' = bo_ID claim /\
    wh_backorders (view st') = <[bo_ID claim := claim']> (wh_backorders (view st)) /\
    (exists t, claim' = claim \/ claim' = withdrawn_backorder (settled bought window claim)
      (if settled bought window claim =? bo_Quantity claim then BackorderWithdrawn else BackorderWaiting) t claim) /\
    (bo_Status claim = BackorderWaiting -> bo_WithdrawnQuantity claim' = settled bought window claim)).
Proof.
  intros Hw Hb Hwin Hbt. destruct (so_backorders _ Hw _ _ Hb) as [_ Hq Hwd _ _ _ _].
  pose proof (Z.div_pos (bo_Quantity claim) bought ltac:(lia) ltac:(lia)) as Hd0.
  pose proof (Z.mul_div_le (bo_Quantity claim) bought ltac:(lia)) as Hdm.
  assert (bo_Quantity claim / bought <= bo_Quantity claim) as Hdle by (apply Z.div_le_upper_bound; nia).
  assert (div64 (bo_Quantity claim) bought = bo_Quantity claim / bought) as Ed.
  { unfold div64. rewrite Z.quot_div_nonneg by lia. apply wrap64_id. in64. }
  unfold settle_claim. rewrite Ed. inv_step. allowed. rewrite mul64_exact in * by in64.
  assert (window *₆₄ (bo_Quantity claim / bought) = window * (bo_Quantity claim / bought)) as -> by (apply mul64_exact; unfold in_int64, int64_min, int64_max in *; nia).
  fold (settled bought window claim).
  assert (bo_WithdrawnQuantity claim <= settled bought window claim <= bo_Quantity claim) as Hrange by (unfold settled; lia).
  assert (<[bo_ID claim := claim]> (wh_backorders (view st)) = wh_backorders (view st)) as Esame by by apply insert_id.
  case_bool_decide as Hs.
  - destruct (Z.eqb_spec (settled bought window claim) (bo_WithdrawnQuantity claim)) as [E|E]; cbn [negb].
    + inv_step. split_and!; [constructor|done|done|exists 0; by left|done].
    + intros st1 claim' (b & t & Hb' & -> & Hv)%law_withdraw. rewrite Hb in Hb'. injection Hb' as <-.
      rewrite Hv. split_and!; [by apply rtc_once, mv_withdraw|done|done|exists t; by right|done].
  - inv_step. split_and!; [constructor|done|done|exists 0; by left|done].
Qed.

Lemma settle_claims_moves bought window claims : forall out waiting st, sound (view st) ->
  0 <= window <= bought -> 0 < bought <= int64_max -> NoDup (bo_ID <$> claims) ->
  (forall c, c ∈ claims -> wh_backorders (view st) !! bo_ID c = Some c) ->
  yields st (settle_claims db bought window claims out waiting) (fun _ st' => rtc move (view st) (view st')).
Proof.
  induction claims as [|claim claims IH]; intros out waiting st Hw Hwin Hbt Hnd Hrows; cbn [settle_claims].
  { inv_step. constructor. }
  rewrite fmap_cons in Hnd. apply NoDup_cons in Hnd as [Hnin Hnd]. inv_step.
  eapply yields_mono; [apply settle_claim_yields; [done|apply Hrows, list_elem_of_here|done|done]|].
  intros claim' st1 (Hm & Hid & E & _ & _). cbn beta zeta.
  eapply yields_mono; [apply IH; [by eapply moves_sound|done|done|done|]|].
  - intros c Hc. rewrite E, lookup_insert_ne; [apply Hrows; by apply list_elem_of_further|].
    intros Hic. apply Hnin. rewrite Hic. by apply list_elem_of_fmap_2.
  - intros out' st2 Hm2. by etrans.
Qed.

(** ** Draining *)

Lemma drain_at_yields g claim location st : sound (view st) ->
  yields st (drain_at db g claim location) (fun done_ st' =>
    exists l ids l', at_shelf (bo_InventoryItemID claim) location l /\ fills (view st) l ids (view st') l' /\
      (done_ = true -> bo_ID claim ∈ ids)).
Proof.
  intros Hw. unfold drain_at. do 4 inv_step. rename a into l. locked view.
  assert (in_bounds l) as Hb by by apply (locked_bounds view l st).
  destruct (Available l <=? 0).
  - inv_step. exists l, [], l. split_and!; [done|constructor|done].
  - inv_step. eapply yields_mono; [apply (fill_yields db view (writeQuantities db 1)); [done|done|by apply sound_claims]|].
    intros out st1 (Hf & _). inv_step. exists l, out.2, out.1. split_and!; [done|done|by intros ?%Contains_spec].
Qed.

Lemma drain_moves g claim locations : forall st, sound (view st) ->
  yields st (drain db g claim locations) (fun _ st' => rtc move (view st) (view st')).
Proof.
  revert g. induction locations as [|location locations IH]; intros g st Hw; cbn [drain]; [inv_step; constructor|].
  inv_step. apply yields_try; [apply atomic_atomically|..].
  - eapply yields_mono; [by apply drain_at_yields|]. intros filled st1 (l & ids & l' & _ & Hf & _). apply fills_moves in Hf.
    destruct filled; [by inv_step|]. eapply yields_mono; [apply IH; by eapply moves_sound|]. intros e st2 Hm. by etrans.
  - intros e. destruct (_ || _); [by apply IH|inv_step; constructor].
Qed.

Lemma drain_all_moves g waiting : forall st, sound (view st) ->
  yields st (drain_all db g waiting) (fun _ st' => rtc move (view st) (view st')).
Proof.
  revert g. induction waiting as [|claim waiting IH]; intros g st Hw; cbn [drain_all]; [inv_step; constructor|].
  inv_step. eapply yields_mono; [by apply drain_moves|]. intros e st1 Hm. cbn beta. inv_step.
  eapply yields_mono; [apply IH; by eapply moves_sound|]. intros es st2 Hm2. inv_step. etrans; [exact Hm|exact Hm2].
Qed.

Lemma SettleBackorder_moves g line bought window st : sound (view st) -> bought <= int64_max ->
  yields st (SettleBackorder db g line bought window) (fun _ st' => rtc move (view st) (view st')).
Proof.
  intros Hw Hmax. unfold SettleBackorder. do 6 inv_step. allowed.
  match goal with H : db_LockBackordersOfLine _ _ _ = Ok _ |- _ => apply (law_lock_line (view := view)) in H as [Hrows _ Hnd _] end.
  eapply yields_mono; [apply settle_claims_moves; [done|lia|lia|done|by intros c Hc; apply Hrows]|].
  intros settled_ st1 Hm. cbn beta. inv_step. eapply yields_mono; [apply drain_all_moves; by eapply moves_sound|].
  intros errs st2 Hm2. inv_step. etrans; [exact Hm|exact Hm2].
Qed.

Lemma ClaimBackorder_moves g in_ st : sound (view st) -> cb_Quantity in_ <= int64_max ->
  yields st (ClaimBackorder db g in_) (fun _ st' => rtc move (view st) (view st')).
Proof.
  intros Hw Hmax. eapply yields_mono; [by apply ClaimBackorder_yields|].
  intros b st' [(_ & Hm & _)|[-> _]]; [by apply rtc_once|constructor].
Qed.
End Claims.

(** * Supplier receipts, locations and items *)

(** Moves that leave the claims alone, and what is at the shelves but for shelves that go. *)
Record beside (w w' : Warehouse) : Prop := {
  bs_moves : rtc move w w';
  bs_levels : wh_levels w' ⊆ wh_levels w;
  bs_claims : wh_backorders w' = wh_backorders w
}.

Lemma beside_same w : beside w w.
Proof. by split; [constructor|..]. Qed.

Lemma beside_move w w' : move w w' -> wh_levels w' ⊆ wh_levels w -> wh_backorders w' = wh_backorders w -> beside w w'.
Proof. intros Hm Hl Hc. by split; [apply rtc_once|..]. Qed.

Section Arrivals.
Context {St : Type} (db : Store St) (view : St -> Warehouse) `{!InventoryLaws db view}.

(** ** Supplier receipts *)

Lemma RecordSupplierReceipt_beside g in_ st :
  yields st (RecordSupplierReceipt db g in_) (fun _ st' => beside (view st) (view st')).
Proof.
  unfold RecordSupplierReceipt. do 8 inv_step. allowed. locked view.
  intros st1 r (Hn & t & -> & ->)%law_create_receipt. apply beside_move; [|done..].
  match goal with |- move _ (on_receipts <[_ := ?r]> _) => by apply (mv_expect (view st) r) end.
Qed.

(** A receipt as its item and its count left it. *)
Definition closed_by (view_ : Warehouse) (id : string) (r : SupplierReceipt) (quantity : Z) : Prop :=
  sr_Status r = SupplierReceiptReceived /\ sr_ReceivedQuantity r = quantity /\
  wh_receipts view_ !! id = Some r.

(** The units of an expected receipt came in and closed it, and claims were filled. *)
Definition arrived (w : Warehouse) (id : string) (quantity : Z) (w' : Warehouse) : Prop :=
  exists r l1 m ids l', wh_receipts w !! id = Some r /\ sr_Status r = SupplierReceiptExpected /\
    counted w l1 quantity /\ at_shelf (sr_InventoryItemID r) (sr_LocationID r) l1 /\
    open_location w (sr_LocationID r) /\ entry l1 quantity m /\ plain quantity m /\ receipt_movement id m /\
    fills (on_receipts <[id := received_receipt m r]> (append_entries [m] (put_level l1 w))) l1 ids w' l' /\
    served w' l' /\ queued w l1 ids l'.

Lemma receivedAlready_None r quantity : receivedAlready r quantity = None ->
  sr_Status r = SupplierReceiptReceived /\ sr_ReceivedQuantity r = quantity.
Proof.
  unfold receivedAlready.
  destruct (bool_decide (sr_Status r = SupplierReceiptReceived) && (sr_ReceivedQuantity r =? quantity)) eqn:E.
  - intros _. by reflect_bools.
  - destruct (bool_decide (sr_Status r = SupplierReceiptCanceled)); discriminate.
Qed.

(** The level a receipt's units are put at. *)
Definition shelf_state (w : Warehouse) (item location : string) (current : option InventoryLevel) : Prop :=
  open_location w location /\ is_Some (wh_items w !! item) /\
  match current with
  | Some l => wh_levels w !! lv_ID l = Some l /\ at_shelf item location l
  | None => True
  end.

Lemma arrive_yields g item r quantity current st : sound (view st) -> 0 < quantity <= int64_max ->
  shelf_state (view st) item (sr_LocationID r) current ->
  yields st (arrive db g item r quantity current) (fun l' st' => exists l1, at_shelf item (sr_LocationID r) l1 /\
    recounted (view st) l1 quantity MovementSupplierReceipt (sr_ID r) EmptyString (view st') l').
Proof.
  intros Hw Hq (Ho & Hi & Hcur). destruct current as [l|]; cbn [arrive].
  - destruct Hcur as [Hl [Hli Hll]]. assert (in_bounds l) as Hb by by apply (locked_bounds view l st).
    unfold in_bounds in Hb. inv_step.
    match goal with H : addQuantity _ _ = Ok _ |- _ => apply addQuantity_Ok in H as [-> Hm]; [|in64..|lia] end.
    eapply yields_mono; [apply (writeQuantities_recounted db view); [done|done|congruence|lia]|].
    intros l' st' (l1 & _ & [Hi1 Hl1] & Hrc). exists l1. split; [split; congruence|].
    by replace quantity with (lv_StockedQuantity l + quantity - lv_StockedQuantity l) by lia.
  - eapply yields_mono; [apply (openLevel_recounted db view); [done|done|done|lia]|].
    intros l' st' (l1 & _ & Ha & Hrc). by exists l1.
Qed.

(** The one movement that names the receipt is the one just written. *)
Lemma receipt_movement_unique w id r m ms m0 : sound w -> wh_receipts w !! id = Some r ->
  sr_Status r = SupplierReceiptExpected -> Forall (fun m => mv_Reason m = MovementSale) ms ->
  m0 ∈ (wh_movements w ++ [m]) ++ ms -> receipt_movement id m0 -> m0 = m.
Proof.
  intros Hw Hr Hs Hsales Hin Hm0. rewrite !elem_of_app, list_elem_of_singleton in Hin.
  destruct Hin as [[Hin| ->]|Hin]; [|done|].
  - destruct (ck_none _ _ _ (so_receipts _ Hw _ _ Hr)) as [_ Hnone]; [by rewrite Hs|].
    rewrite Forall_forall in Hnone. by destruct (Hnone m0 Hin).
  - rewrite Forall_forall in Hsales. specialize (Hsales m0 Hin). destruct Hm0 as [E _]. by rewrite Hsales in E.
Qed.

Lemma receive_locked_yields g item id quantity current r st : sound (view st) -> 0 < quantity <= int64_max ->
  wh_receipts (view st) !! id = Some r -> sr_Status r = SupplierReceiptExpected ->
  sr_InventoryItemID r = item -> shelf_state (view st) item (sr_LocationID r) current ->
  yields st (receive_locked db g item id quantity current) (fun out st' =>
    closed_by (view st') id out.1 quantity /\ arrived (view st) id quantity (view st')).
Proof.
  intros Hw Hq Hr Hs Hi Hcur. pose proof (ck_id _ _ _ (so_receipts _ Hw _ _ Hr)) as Eid.
  unfold receive_locked. inv_step. locked view.
  match goal with H : wh_receipts _ !! id = Some ?x |- _ => assert (x = r) as -> by congruence end.
  rewrite bool_decide_true by done. cbn [negb]. inv_step. eapply yields_mono; [by apply arrive_yields|].
  intros l' st1 (l1 & Hsh & [Hc Ho (ms & ids & Ha & Hd & Hf & Hqu) Hse]). rewrite Eid in *.
  destruct (accounted_nonzero l1 quantity ms) as (m & -> & Hm); [lia|done|].
  apply Forall_cons in Hd as [(Hd1 & _ & Hd3 & _) _].
  destruct (fills_receipts _ _ _ _ _ (fun rs => rs) Hf) as [Erc _].
  destruct (fills_ledger _ _ _ _ _ Hf) as (sales & Eled & Hsales).
  inv_step. intros st2 changed Hch. inv_step. allowed.
  match goal with H : changed <> 0 |- _ => apply (law_receive _ _ _ _ Hch) in H as (r0 & m0 & Hr0 & _ & Hin & Hm0 & Hv) end.
  rewrite Erc in Hr0. cbn in Hr0. assert (r0 = r) as -> by congruence. rewrite Eled in Hin.
  apply (receipt_movement_unique (view st) id r m sales) in Hin as ->; [|done..].
  do 2 inv_step. locked view. rewrite Hv in *.
  match goal with H : wh_receipts (on_receipts _ _) !! id = Some _ |- _ => cbn in H; rewrite lookup_insert_eq in H; injection H as <- end.
  split; [split_and!; [done|apply (en_delta _ _ _ Hm)|cbn; by rewrite lookup_insert_eq]|].
  exists r, l1, m, ids, l'. split_and!; try done.
  - by rewrite Hi.
  - apply Hcur.
  - split; [by rewrite Hd1|intros _; lia].
  - by apply (fills_receipts _ _ _ _ _ <[id := received_receipt m r]>) in Hf as [_ Hf].
  - intros k b. apply Hse. lia.
  - apply Hqu. lia.
Qed.

(** Receiving brings the units in once; asked again with the same count it answers what was done. *)
Lemma ReceiveSupplierReceipt_yields g item id quantity st : sound (view st) -> quantity <= int64_max ->
  yields st (ReceiveSupplierReceipt db g item id quantity) (fun out st' =>
    closed_by (view st') id out.1 quantity /\ (view st' = view st \/ arrived (view st) id quantity (view st'))).
Proof.
  intros Hw Hmax. unfold ReceiveSupplierReceipt. do 3 inv_step. allowed. inv_step. unfold supplierReceiptOf.
  do 3 inv_step. rename a into r. allowed. locked view.
  match goal with H : wh_receipts _ !! _ = Some _ |- _ => rename H into Hr end.
  destruct (bool_decide (sr_Status r = SupplierReceiptExpected)) eqn:Es; cbn [negb]; reflect_bools.
  - do 3 inv_step. locked view. inv_step.
    assert (forall current, match current with
      | Some l => wh_levels (view st) !! lv_ID l = Some l /\ at_shelf item (sr_LocationID r) l
      | None => True end -> yields st (receive_locked db g item id quantity current) (fun out st' =>
        closed_by (view st') id out.1 quantity /\ (view st' = view st \/ arrived (view st) id quantity (view st')))) as Hbody.
    { intros current Hcur. eapply yields_mono; [by apply (receive_locked_yields g item id quantity current r)|].
      intros out st' [Hcl Harr]. split; [done|by right]. }
    apply yields_find.
    + intros l Hl. locked view. by apply Hbody.
    + intros e He Hk. by apply Hbody.
  - inv_step. match goal with H : receivedAlready _ _ = None |- _ => apply receivedAlready_None in H as [Hs Hrq] end.
    unfold levelAt. do 4 inv_step. split; [done|by left].
Qed.

Lemma ReceiveSupplierReceipt_moves g item id quantity st : sound (view st) -> quantity <= int64_max ->
  yields st (ReceiveSupplierReceipt db g item id quantity) (fun _ st' => rtc move (view st) (view st')).
Proof.
  intros Hw Hmax. eapply yields_mono; [by apply ReceiveSupplierReceipt_yields|].
  intros out st' [_ [->|(r & l1 & m & ids & l' & Hr & Hs & Hc & [_ Hl] & Ho & Hm & Hp & Hrm & Hf & _)]]; [constructor|].
  eapply rtc_l; [|by eapply fills_moves]. eapply mv_receive; try done. by rewrite Hl.
Qed.

Lemma CancelSupplierReceipt_beside g_item id st : sound (view st) ->
  yields st (CancelSupplierReceipt db g_item id) (fun _ st' => beside (view st) (view st')).
Proof.
  intros Hw. unfold CancelSupplierReceipt. do 3 inv_step. unfold supplierReceiptOf. do 3 inv_step. rename a into r. locked view.
  match goal with H : wh_receipts _ !! _ = Some _ |- _ => rename H into Hr end.
  destruct (bool_decide (sr_Status r = SupplierReceiptExpected)) eqn:Es; cbn [negb]; [|do 2 inv_step; apply beside_same].
  do 2 inv_step. rename a into locked_. locked view.
  match goal with H : wh_receipts _ !! _ = Some locked_ |- _ => assert (locked_ = r) as -> by congruence end.
  rewrite Es. cbn [negb]. inv_step. intros st1 changed Hch. inv_step. allowed.
  match goal with H : changed <> 0 |- _ => apply (law_cancel_receipt _ _ _ _ Hch) in H as (r0 & t & Hr0 & Hs0 & Hv) end.
  inv_step. rewrite Hv. apply beside_move; [|done..]. rewrite (ck_id _ _ _ (so_receipts _ Hw _ _ Hr)) in *.
  assert (r0 = r) as -> by congruence. rewrite <- (ck_id _ _ _ (so_receipts _ Hw _ _ Hr)) at 1.
  apply mv_cancel; [|done]. by rewrite (ck_id _ _ _ (so_receipts _ Hw _ _ Hr)).
Qed.

(** ** Locations and items *)

Lemma CreateStockLocation_beside g in_ st :
  yields st (CreateStockLocation db g in_) (fun _ st' => beside (view st) (view st')).
Proof.
  unfold CreateStockLocation. do 7 inv_step. intros st1 r (Hn & t & -> & ->)%law_create_location.
  apply beside_move; [|done..]. match goal with |- move _ (on_locations <[_ := ?r]> _) => by apply (mv_location (view st) r) end.
Qed.

(** A location closes when nothing is there. *)
Lemma CloseStockLocation_yields id st : sound (view st) ->
  yields st (CloseStockLocation db id) (fun _ st' => beside (view st) (view st') /\
    (exists l, wh_locations (view st') !! id = Some l /\ Closed l = true) /\ vacant (view st) id).
Proof.
  intros Hw. unfold CloseStockLocation. do 3 inv_step. rename a into l. locked view.
  match goal with H : wh_locations _ !! _ = Some _ |- _ => rename H into Hl end.
  destruct (Closed l) eqn:Ec.
  { inv_step. split; [apply beside_same|]. split; [by exists l|by apply (so_closed _ Hw id l)]. }
  inv_step. destruct a as [s q]. cbn [fst snd].
  match goal with H : db_StockHeldAtLocation _ _ _ = _ |- _ => apply (law_held_at (view := view)) in H as [-> _] end.
  do 2 inv_step. match goal with H : db_CountActiveReservationsAtLocation _ _ _ = _ |- _ => apply (law_count_active_at (view := view)) in H as -> end.
  do 2 inv_step. match goal with H : db_CountExpectedSupplierReceiptsAtLocation _ _ _ = _ |- _ => apply (law_count_expected_at (view := view)) in H as -> end.
  inv_step. allowed. intros st1 r (l0 & t & Hl0 & -> & Hv)%law_close_location. assert (l0 = l) as -> by congruence.
  assert (vacant (view st) id) as Hvac.
  { split.
    - intros k lv Hk Hloc. pose proof (lk_bounds _ _ _ (so_levels _ Hw k lv Hk)) as Hb.
      enough (lv_StockedQuantity lv <= 0) by lia.
      match goal with H : sum_of _ _ <= 0 |- _ => etrans; [|exact H] end.
      pose proof (sum_of_le (fun l => if decide (lv_LocationID l = id) then lv_StockedQuantity l else 0) (wh_levels (view st)) k lv) as Hle.
      cbn beta in Hle. rewrite decide_True in Hle by done. apply Hle; [|done].
      intros k' l' Hk'. destruct (decide _); [|done]. pose proof (lk_bounds _ _ _ (so_levels _ Hw k' l' Hk')). lia.
    - intros k r Hk. by eapply count_none; [|exact Hk].
    - intros k r Hk. by eapply count_none; [|exact Hk]. }
  rewrite Hv. split; [apply beside_move; [by apply mv_close|done..]|]. split; [|done].
  exists (closed_location t l). cbn. by rewrite lookup_insert_eq.
Qed.

Lemma CloseStockLocation_beside id st : sound (view st) ->
  yields st (CloseStockLocation db id) (fun _ st' => beside (view st) (view st')).
Proof.
  intros Hw. eapply yields_mono; [by apply CloseStockLocation_yields|].
  by intros _ st' (Hm & _).
Qed.

Lemma CreateInventoryItem_beside g in_ st :
  yields st (CreateInventoryItem db g in_) (fun _ st' => beside (view st) (view st')).
Proof.
  unfold CreateInventoryItem. do 3 inv_step. intros st1 r (Hn & Hret & t & -> & ->)%law_create_item.
  apply beside_move; [|done..]. match goal with |- move _ (on_items <[_ := ?r]> _) => by apply (mv_item (view st) r) end.
Qed.

Lemma DeleteInventoryItem_beside id st :
  yields st (DeleteInventoryItem db id) (fun _ st' => beside (view st) (view st')).
Proof.
  unfold DeleteInventoryItem. do 4 inv_step. match goal with H : db_CountActiveReservations _ _ _ = _ |- _ => apply (law_count_active (view := view)) in H as -> end.
  do 2 inv_step. match goal with H : db_CountWaitingBackorders _ _ _ = _ |- _ => apply (law_count_waiting (view := view)) in H as -> end.
  do 2 inv_step. match goal with H : db_CountExpectedSupplierReceipts _ _ _ = _ |- _ => apply (law_count_expected (view := view)) in H as -> end.
  inv_step. allowed. locked view. inv_step.
  match goal with H : db_SoftDeleteInventoryLevelsByItem _ _ _ = _ |- _ => apply (law_delete_levels (view := view)) in H; rename H into Hv1 end.
  inv_step. match goal with H : db_SoftDeleteInventoryItem _ _ _ = _ |- _ => apply (law_delete_item (view := view)) in H as [_ Hv2] end.
  rewrite Hv2, Hv1. apply beside_move; [|apply map_filter_subseteq|done].
  apply mv_delete; [done|..]; intros k r Hk; by eapply count_none; [|exact Hk].
Qed.
End Arrivals.
