(* ===== verification/InventoryMemory.v ===== *)
(** * The inventory's tables in memory

    An instance of the store after [internal/modules/inventory/queries/*.sql]: it shows that
    [InventoryLaws] can hold and is what the operations are tried on. A statement that writes takes the
    next moment of the clock, which is also the queue position of a new claim. *)
From S2P Require Import Prelude GoText Errors Tx Identifiers Database InventoryModels InventoryService InventoryMoves.
Set Warnings "-clear-no-such-hyp".

Record Tables := mkTables { tb_rows : Warehouse; tb_clock : Z }.

Definition no_rows : Warehouse := mkWarehouse ∅ ∅ ∅ ∅ ∅ [] ∅ ∅.

Definition no_tables : Tables := mkTables no_rows 1.

Definition absent (what id : string) : err := NotFound "inventory_not_found" "%s not found: %s" [AStr what; AStr id].

Definition violated : err := Conflict "inventory_conflict" "a constraint was violated" [].

(** One row by its key. *)
Definition fetch {V} (what : string) (f : Warehouse -> gmap string V) (id : string) (st : Tables) : result V :=
  match f (tb_rows st) !! id with Some v => Ok v | None => Fail (absent what id) end.

(** A new row at a key that is free, where the rows allow it. *)
Definition insert_row {V} (free : Warehouse -> bool) (row : moment -> V) (put : V -> Warehouse -> Warehouse)
    (st : Tables) : Tables * result V :=
  let t := tb_clock st in
  if free (tb_rows st) then (mkTables (put (row t) (tb_rows st)) (t + 1), Ok (row t)) else (st, Fail violated).

(** A row written anew. *)
Definition update_row {V} (what : string) (f : Warehouse -> gmap string V) (id : string) (g : moment -> V -> V)
    (put : V -> Warehouse -> Warehouse) (st : Tables) : Tables * result V :=
  let t := tb_clock st in
  match f (tb_rows st) !! id with
  | Some v => (mkTables (put (g t v) (tb_rows st)) (t + 1), Ok (g t v))
  | None => (st, Fail (absent what id))
  end.

(** As many rows as the condition lets be written. *)
Definition update_rows {V} (P : V -> bool) (f : Warehouse -> gmap string V) (id : string)
    (g : moment -> Warehouse -> V -> option V) (put : V -> Warehouse -> Warehouse) (st : Tables) :
    Tables * result Z :=
  let t := tb_clock st in
  match f (tb_rows st) !! id with
  | Some v =>
      match (if P v then g t (tb_rows st) v else None) with
      | Some v' => (mkTables (put v' (tb_rows st)) (t + 1), Ok 1)
      | None => (st, Ok 0)
      end
  | None => (st, Ok 0)
  end.

Definition rows {V} (m : gmap string V) : list V := (map_to_list m).*2.

(** The rows a page shows, and how many there are. *)
Definition page_of {V} (limit offset : Z) (all : list V) : result (list V * Z) :=
  Ok (take (Z.to_nat limit) (drop (Z.to_nat offset) all), Z.of_nat (length all)).

Definition total (f : InventoryLevel -> Z) (id : string) (w : Warehouse) : Z :=
  sum_of (fun l => if decide (lv_LocationID l = id) then f l else 0) (wh_levels w).

Definition exists_row {V} (P : V -> Prop) `{!forall v, Decision (P v)} (m : gmap string V) : bool :=
  existsb (fun v => bool_decide (P v)) (rows m).

(** The claims that a statement selects, in queue order; the primary key is the row's id. *)
Definition in_queue (P : Backorder -> Prop) `{!forall b, Decision (P b)} (st : Tables) :
    result (list Backorder) :=
  let claims := wh_backorders (tb_rows st) in
  if forallb (fun kb => bool_decide (bo_ID kb.2 = kb.1)) (map_to_list claims) then
    Ok (SortFunc (cmp_on bo_Seq cmpZ) (filter P (rows claims)))
  else Fail violated.

(** The row a unique index finds, by its primary key. *)
Definition by_index {V} (what : string) (P : V -> Prop) `{!forall v, Decision (P v)} (key : V -> string)
    (m : gmap string V) : result V :=
  match head (filter P (rows m)) with
  | Some v =>
      match m !! key v with
      | Some v' => if bool_decide (P v' /\ key v' = key v) then Ok v' else Fail violated
      | None => Fail violated
      end
  | None => Fail (absent what EmptyString)
  end.

Definition lock_item (id : string) (st : Tables) : option err :=
  if bool_decide (is_Some (wh_items (tb_rows st) !! id)) then None else Some (absent "item" id).

(** An update that answers nothing. *)
Definition no_answer {V} (r : Tables * result V) : Tables * option err :=
  (r.1, match r.2 with Ok _ => None | Fail e => Some e end).

Definition same_line (line item : string) (b : Backorder) : Prop :=
  bo_OrderLineItemID b = line /\ bo_InventoryItemID b = item.

#[export] Instance same_line_dec line item b : Decision (same_line line item b).
Proof. unfold same_line. apply _. Defined.

Definition insert_claim (b : Backorder) (st : Tables) : Tables * result (Backorder * bool) :=
  let w := tb_rows st in
  if exists_row (same_line (bo_OrderLineItemID b) (bo_InventoryItemID b)) (wh_backorders w) then (st, Ok (b, false))
  else
    match insert_row (fun w => bool_decide (wh_backorders w !! bo_ID b = None))
      (fun t => new_backorder t t b) (fun r => on_backorders <[bo_ID b := r]>) st with
    | (st', Ok r) => (st', Ok (r, true))
    | (st', Fail e) => (st', Fail e)
    end.

Definition still_expected (r : SupplierReceipt) : bool := bool_decide (sr_Status r = SupplierReceiptExpected).

Definition sellable_of (ids : list string) (w : Warehouse) : list InventoryLevel :=
  filter (fun l => lv_InventoryItemID l ∈ ids) (rows (wh_levels w)).

Definition stock_tables : Store Tables := mkStore Tables
  (fun _ => None)
  (fun l => insert_row (fun w => bool_decide (wh_locations w !! sl_ID l = None))
    (fun t => new_location t l) (fun r => on_locations <[sl_ID l := r]>))
  (fetch "location" wh_locations)
  (fun limit offset closed st =>
    page_of limit offset (filter (fun l => closed || negb (Closed l) = true) (rows (wh_locations (tb_rows st)))))
  (fetch "location" wh_locations)
  (fetch "location" wh_locations)
  (fun id => update_row "location" wh_locations id closed_location (fun r => on_locations <[id := r]>))
  (fun id st => Ok (total lv_StockedQuantity id (tb_rows st), total lv_ReservedQuantity id (tb_rows st)))
  (fun id st => Ok (count (active_at_location id) (wh_reservations (tb_rows st))))
  (fun i => insert_row (fun w => bool_decide (wh_items w !! it_ID i = None /\ it_ID i ∉ wh_retired w))
    (fun t => new_item t i) (fun r => on_items <[it_ID i := r]>))
  (fetch "item" wh_items)
  lock_item
  lock_item
  (fun f st => page_of (if_Limit f) (if_Offset f) (filter (fun i =>
    (if_SKU f = None \/ if_SKU f = Some (it_SKU i)) /\
    (if_RequiresShipping f = None \/ if_RequiresShipping f = Some (it_RequiresShipping i))) (rows (wh_items (tb_rows st)))))
  (fun ids st => Ok (filter (fun i => it_ID i ∈ ids) (rows (wh_items (tb_rows st)))))
  (fun id st => match lock_item id st with
    | None => (mkTables (retire_item id (tb_rows st)) (tb_clock st + 1), None)
    | Some e => (st, Some e)
    end)
  (fun id st => (mkTables (on_levels (filter (fun kl => lv_InventoryItemID kl.2 <> id)) (tb_rows st))
    (tb_clock st + 1), None))
  (fun item location st => by_index "level" (at_shelf item location) lv_ID (wh_levels (tb_rows st)))
  (fun l => insert_row (fun w => bool_decide (wh_levels w !! lv_ID l = None) &&
      negb (exists_row (at_shelf (lv_InventoryItemID l) (lv_LocationID l)) (wh_levels w)))
    (fun t => new_level t l) (fun r => on_levels <[lv_ID l := r]>))
  (fun id s q => update_row "level" wh_levels id (with_quantities s q) (fun r => on_levels <[id := r]>))
  (fun item st => Ok (filter (fun l => lv_InventoryItemID l = item) (rows (wh_levels (tb_rows st)))))
  (fun ids st => Ok (foldl (fun out l => <[lv_InventoryItemID l := default 0 (out !! lv_InventoryItemID l) + Available l]> out) ∅
    (sellable_of ids (tb_rows st))))
  (fun ids st => Ok (foldl (fun out l => <[lv_InventoryItemID l :=
      <[lv_LocationID l := Available l]> (default ∅ (out !! lv_InventoryItemID l))]> out) ∅
    (filter (fun l => 0 < Available l) (sellable_of ids (tb_rows st)))))
  (fun r => insert_row (fun w => bool_decide (wh_reservations w !! rs_ID r = None))
    (fun t => new_reservation t r) (fun r' => on_reservations <[rs_ID r := r']>))
  (fetch "reservation" wh_reservations)
  (fetch "reservation" wh_reservations)
  (fun id status st => no_answer (update_row "reservation" wh_reservations id (with_status status)
    (fun r => on_reservations <[id := r]>) st))
  (fun id st => Ok (count (active_of_item id) (wh_reservations (tb_rows st))))
  (fun m st => (mkTables (on_movements (fun led => led ++ [m]) (tb_rows st)) (tb_clock st + 1), Ok m))
  (fun item line st => Ok (log_sum (fun m => if decide (put_back item line m) then mv_Delta m else 0)
    (wh_movements (tb_rows st))))
  (fun reference st => Ok (bool_decide (Exists (cancellation_of reference) (wh_movements (tb_rows st)))))
  (fun order st => Ok (foldr (fun m out => <[mv_InventoryItemID m := mv_LocationID m]> out) ∅
    (filter (fun m => mv_Reason m = MovementSale /\ mv_Reference m = order /\
      exists_row (fun b => bo_ReservationID b = mv_ReservationID m) (wh_backorders (tb_rows st)) = false)
      (wh_movements (tb_rows st)))))
  (fun f st => Ok (take (Z.to_nat (mf_Limit f)) (filter (fun m => mv_InventoryItemID m = mf_InventoryItemID f)
    (rev (wh_movements (tb_rows st))))))
  insert_claim
  (fun line item st => by_index "claim" (same_line line item) bo_ID (wh_backorders (tb_rows st)))
  (fun line => in_queue (fun b => bo_OrderLineItemID b = line))
  (fun item location available => in_queue (fits_at item location available))
  (fun id reservation location => update_rows (fun b => bool_decide (bo_Status b = BackorderWaiting)) wh_backorders id
    (fun t _ b => Some (filled_backorder reservation location t b)) (fun b => on_backorders <[id := b]>))
  (fun id withdrawn status => update_row "claim" wh_backorders id (withdrawn_backorder withdrawn status)
    (fun b => on_backorders <[id := b]>))
  (fun id st => Ok (count (waiting_of_item id) (wh_backorders (tb_rows st))))
  (fun f st => all ← in_queue (fun b => bo_InventoryItemID b = sf_InventoryItemID f /\
      (sf_Status f = EmptyString \/ bo_Status b = sf_Status f)) st;
    page_of (sf_Limit f) (sf_Offset f) all)
  (fun st => Ok (fst <$> filter (fun kl => Closed kl.2 = false) (map_to_list (wh_locations (tb_rows st)))))
  (fun r => insert_row (fun w => bool_decide (wh_receipts w !! sr_ID r = None))
    (fun t => new_receipt t r) (fun r' => on_receipts <[sr_ID r := r']>))
  (fetch "receipt" wh_receipts)
  (fetch "receipt" wh_receipts)
  (fun id => update_rows still_expected wh_receipts id
    (fun _ w r => (fun m => received_receipt m r) <$> head (filter (receipt_movement id) (wh_movements w)))
    (fun r => on_receipts <[id := r]>))
  (fun id => update_rows still_expected wh_receipts id (fun t _ r => Some (canceled_receipt t r))
    (fun r => on_receipts <[id := r]>))
  (fun f st => page_of (sf_Limit f) (sf_Offset f) (filter (fun r => sr_InventoryItemID r = sf_InventoryItemID f /\
    (sf_Status f = EmptyString \/ sr_Status r = sf_Status f)) (rows (wh_receipts (tb_rows st)))))
  (fun id st => Ok (count (expected_of_item id) (wh_receipts (tb_rows st))))
  (fun id st => Ok (count (expected_at_location id) (wh_receipts (tb_rows st))))
  (fun ids st => Ok (filter (fun r => sr_InventoryItemID r ∈ ids /\ sr_Status r = SupplierReceiptExpected)
    (rows (wh_receipts (tb_rows st)))))
  (fun ids => in_queue (fun b => bo_InventoryItemID b ∈ ids /\ bo_Status b = BackorderWaiting)).

(** ** The laws *)

Lemma insert_row_Ok {V} free (row : moment -> V) put st st' r : insert_row free row put st = (st', Ok r) ->
  free (tb_rows st) = true /\ exists t, r = row t /\ tb_rows st' = put r (tb_rows st).
Proof.
  unfold insert_row. destruct (free (tb_rows st)); [|done]. intros [= <- <-]. split; [done|]. by eexists.
Qed.

Lemma insert_row_Fail {V} free (row : moment -> V) put st st' e :
  insert_row free row put st = (st', Fail e) -> st' = st.
Proof. unfold insert_row. destruct (free (tb_rows st)); [done|]. by intros [= ->]. Qed.

Lemma fetch_Ok {V} what (f : Warehouse -> gmap string V) id st v : fetch what f id st = Ok v -> f (tb_rows st) !! id = Some v.
Proof. unfold fetch. destruct (f _ !! id); [|done]. by intros [= <-]. Qed.

Lemma update_row_Ok {V} what (f : Warehouse -> gmap string V) id g put st st' r :
  update_row what f id g put st = (st', Ok r) ->
  exists v t, f (tb_rows st) !! id = Some v /\ r = g t v /\ tb_rows st' = put r (tb_rows st).
Proof.
  unfold update_row. destruct (f _ !! id) as [v|] eqn:E; [|done]. intros [= <- <-]. by eexists v, _.
Qed.

Lemma update_rows_Ok {V} P (f : Warehouse -> gmap string V) id g put st st' n :
  update_rows P f id g put st = (st', Ok n) -> n <> 0 ->
  exists v v' t, f (tb_rows st) !! id = Some v /\ P v = true /\ g t (tb_rows st) v = Some v' /\
    tb_rows st' = put v' (tb_rows st).
Proof.
  unfold update_rows. destruct (f _ !! id) as [v|] eqn:E; [|by intros [= _ <-]].
  destruct (P v) eqn:EP; [|by intros [= _ <-]]. destruct (g _ _ v) as [v'|] eqn:Eg; [|by intros [= _ <-]].
  intros [= <- _] _. by exists v, v', (tb_clock st).
Qed.

Lemma elem_of_rows {V} (m : gmap string V) v : v ∈ rows m <-> exists k, m !! k = Some v.
Proof.
  unfold rows. rewrite list_elem_of_fmap. split.
  - intros ([k u] & -> & Hk%elem_of_map_to_list). by exists k.
  - intros [k Hk]. exists (k, v). by rewrite elem_of_map_to_list.
Qed.

Lemma exists_row_false {V} (P : V -> Prop) `{!forall v, Decision (P v)} (m : gmap string V) k v :
  exists_row P m = false -> m !! k = Some v -> ~ P v.
Proof.
  unfold exists_row. intros Hex Hk HP. assert (existsb (fun v => bool_decide (P v)) (rows m) = true) as E; [|congruence].
  apply existsb_exists. exists v. split; [apply list_elem_of_In, elem_of_rows; by exists k|by apply bool_decide_eq_true].
Qed.

Lemma by_index_Ok {V} what (P : V -> Prop) `{!forall v, Decision (P v)} key (m : gmap string V) v :
  by_index what P key m = Ok v -> m !! key v = Some v /\ P v.
Proof.
  unfold by_index. destruct (head _) as [u|]; [|done]. destruct (m !! key u) as [v'|] eqn:E; [|done].
  case_bool_decide as Hc; [|done]. intros [= <-]. destruct Hc as [HP Ek]. by rewrite Ek.
Qed.

Lemma by_index_none {V} what (P : V -> Prop) `{!forall v, Decision (P v)} key (m : gmap string V) e k v :
  by_index what P key m = Fail e -> HasKind (Some e) KindNotFound = true -> m !! k = Some v -> ~ P v.
Proof.
  unfold by_index. intros Hf He Hk HP. destruct (head (filter P (rows m))) as [u|] eqn:E.
  - destruct (m !! key u); [case_bool_decide|]; [done|..]; injection Hf as <-; by vm_compute in He.
  - assert (v ∈ filter P (rows m)) as Hin by (apply list_elem_of_filter; split; [done|]; apply elem_of_rows; by exists k).
    apply head_None in E. rewrite E in Hin. by apply not_elem_of_nil in Hin.
Qed.

Lemma in_queue_locked (P : Backorder -> Prop) `{!forall b, Decision (P b)} st claims :
  in_queue P st = Ok claims -> locked_claims P (tb_rows st) claims.
Proof.
  unfold in_queue. destruct (forallb _ _) eqn:E; [|done]. intros [= <-].
  assert (forall k b, wh_backorders (tb_rows st) !! k = Some b -> bo_ID b = k) as Hkeys.
  { intros k b Hb. apply forallb_forall with (x := (k, b)) in E; [by apply bool_decide_eq_true in E|].
    by apply list_elem_of_In, elem_of_map_to_list. }
  split.
  - intros b. rewrite SortFunc_elem, list_elem_of_filter, elem_of_rows. intros [HP [k Hk]].
    by rewrite (Hkeys k b Hk).
  - intros k b Hk HP. rewrite SortFunc_elem, list_elem_of_filter, elem_of_rows. split; [done|]. by exists k.
  - rewrite (SortFunc_perm (cmp_on bo_Seq cmpZ)).
    assert (NoDup (bo_ID <$> rows (wh_backorders (tb_rows st)))) as Hnd.
    { unfold rows. rewrite <- list_fmap_compose.
      replace ((bo_ID ∘ snd) <$> map_to_list (wh_backorders (tb_rows st))) with
        (fst <$> map_to_list (wh_backorders (tb_rows st))); [apply NoDup_fst_map_to_list|].
      apply list_fmap_ext. intros i [k b] Hi. symmetry. apply Hkeys, elem_of_map_to_list.
      by eapply list_elem_of_lookup_2. }
    eapply sublist_NoDup; [exact Hnd|]. apply fmap_sublist, sublist_filter.
  - apply (StronglySorted_fmap bo_Seq (cmp_le (cmp_on bo_Seq cmpZ))); [|apply SortFunc_sorted; apply _].
    intros a b. unfold cmp_le, cmp_on, cmpZ. destruct (Z.compare_spec (bo_Seq a) (bo_Seq b)); lia.
Qed.

Lemma insert_claim_Ok b st st' r fresh : insert_claim b st = (st', Ok (r, fresh)) ->
  if fresh : bool then
    wh_backorders (tb_rows st) !! bo_ID b = None /\
    (forall k b', wh_backorders (tb_rows st) !! k = Some b' ->
      ~ (bo_OrderLineItemID b' = bo_OrderLineItemID b /\ bo_InventoryItemID b' = bo_InventoryItemID b)) /\
    exists seq t, r = new_backorder seq t b /\ tb_rows st' = on_backorders <[bo_ID b := r]> (tb_rows st)
  else tb_rows st' = tb_rows st.
Proof.
  unfold insert_claim. destruct (exists_row _ _) eqn:Ex; [by intros [= <- <- <-]|].
  destruct (insert_row _ _ _ st) as [st1 [r1|e]] eqn:E; [|done]. intros [= <- <- <-].
  apply insert_row_Ok in E as [Hn%bool_decide_eq_true (t & -> & Hv)]. split; [done|]. split; [|by exists t, t].
  intros k b' Hk. by apply (exists_row_false _ _ _ _ Ex Hk).
Qed.

Lemma lock_item_None id st : lock_item id st = None -> is_Some (wh_items (tb_rows st) !! id).
Proof. unfold lock_item. by case_bool_decide. Qed.

(** A law that is one statement's. *)
Ltac by_statement :=
  lazymatch goal with
  | |- insert_row _ _ _ _ = (_, Ok _) -> _ => intros [Hf%bool_decide_eq_true (t & -> & Hv)]%insert_row_Ok; naive_solver
  | |- insert_row _ _ _ _ = (_, Fail _) -> _ => apply insert_row_Fail
  | |- fetch _ _ _ _ = Ok _ -> _ => apply fetch_Ok
  | |- update_row _ _ _ _ _ _ = (_, Ok _) -> _ => intros (v & t & Hv & -> & E)%update_row_Ok; by exists v, t
  | |- lock_item _ _ = None -> _ => apply lock_item_None
  | |- by_index _ _ _ _ = Ok _ -> _ => apply by_index_Ok
  | |- in_queue _ _ = Ok _ -> _ => apply in_queue_locked
  | |- insert_claim _ _ = _ -> _ => apply insert_claim_Ok
  | |- Ok _ = Ok _ -> _ => by intros [= <-]
  end.

#[export] Instance stock_tables_laws : InventoryLaws stock_tables tb_rows.
Proof.
  split; cbn; intros.
  all: repeat match goal with H : ?P |- _ => match type of P with Prop => revert H end end.
  all: try by_statement.
  - destruct (lock_item id st) eqn:E; [done|]. intros [= <-]. by apply lock_item_None in E.
  - by intros [= <-].
  - intros E He Hk. by apply (by_index_none _ _ _ _ _ _ _ E He Hk).
  - intros [Hf (t & -> & Hv)]%insert_row_Ok. apply andb_true_iff in Hf as [Hn%bool_decide_eq_true Hs%negb_true_iff].
    split; [done|]. split; [|by exists t]. intros k l' Hk. by apply (exists_row_false _ _ _ _ Hs Hk).
  - unfold no_answer. destruct (update_row _ _ _ _ _ _) as [st1 [r|e]] eqn:E; [|done]. intros [= <-].
    apply update_row_Ok in E as (v & t & Hv & -> & E). by exists v, t.
  - by intros [= <- _].
  - intros [= <-]. apply bool_decide_eq_true.
  - intros E. by apply by_index_Ok in E.
  - intros E Hn. apply (update_rows_Ok _ _ _ _ _ _ _ _ E) in Hn as (v & v' & t & Hv & Hs%bool_decide_eq_true & [= <-] & Ev).
    by exists v, t.
  - intros E Hn. apply (update_rows_Ok _ _ _ _ _ _ _ _ E) in Hn as (v & v' & t & Hv & Hs%bool_decide_eq_true & Hm & Ev).
    apply fmap_Some in Hm as (m & Hm & ->). apply head_Some_elem_of, list_elem_of_filter in Hm as [Hr Hin]. by exists v, m.
  - intros E Hn. apply (update_rows_Ok _ _ _ _ _ _ _ _ E) in Hn as (v & v' & t & Hv & Hs%bool_decide_eq_true & [= <-] & Ev).
    by exists v, t.
Qed.
