(* ===== verification/InventoryQueue.v ===== *)
(** * Any sequence of calls on the stock

    The calls of the inventory service that can change its tables as one type, and what every one of
    them keeps: a call that answers an error left the tables as they were, and one that succeeds is a
    run of moves. *)
From S2P Require Import Prelude GoText Errors Tx Identifiers Database InventoryModels InventoryService InventoryMoves InventoryPromises InventoryFill InventoryClaims.
Set Warnings "-level-tolerance,-clear-no-such-hyp".

Inductive stock_call :=
| CallCreateStockLocation (in_ : CreateStockLocationInput)
| CallCloseStockLocation (id : string)
| CallCreateInventoryItem (in_ : CreateInventoryItemInput)
| CallCreateItemForStock (sku title : string)
| CallDeleteInventoryItem (id : string)
| CallSetInventoryLevel (item location : string) (stocked : Z)
| CallSetInventoryLevelFrom (item location : string) (read stocked : Z)
| CallAdjustInventory (item location : string) (delta : Z)
| CallRestockInventory (item location : string) (quantity : Z)
| CallReturnCanceledInventory (item location line : string) (target : Z) (reference : string)
| CallReserve (in_ : ReserveInput)
| CallReleaseReservation (id : string)
| CallConfirmReservation (id order : string)
| CallRecallReplacementUnits (id : string)
| CallClaimBackorder (in_ : ClaimBackorderInput)
| CallSettleBackorder (line : string) (bought window : Z)
| CallRecordSupplierReceipt (in_ : RecordSupplierReceiptInput)
| CallReceiveSupplierReceipt (item id : string) (quantity : Z)
| CallCancelSupplierReceipt (item id : string).

(** The amounts a call names are Go's int64. *)
Definition call_ok (c : stock_call) : Prop :=
  match c with
  | CallSetInventoryLevel _ _ q | CallAdjustInventory _ _ q | CallRestockInventory _ _ q
  | CallReturnCanceledInventory _ _ _ q _ | CallReceiveSupplierReceipt _ _ q => in_int64 q
  | CallSetInventoryLevelFrom _ _ r q => in_int64 r /\ in_int64 q
  | CallReserve in_ => in_int64 (ri_Quantity in_)
  | CallClaimBackorder in_ => in_int64 (cb_Quantity in_)
  | CallSettleBackorder _ b w => in_int64 b /\ in_int64 w
  | CallRecordSupplierReceipt in_ => in_int64 (rr_Quantity in_)
  | _ => True
  end.

Section Requests.
Context {St : Type} (db : Store St).

Definition answer (g : seeds) (c : stock_call) : tx St unit :=
  match c with
  | CallCreateStockLocation in_ => ignore (CreateStockLocation db g in_)
  | CallCloseStockLocation id => ignore (CloseStockLocation db id)
  | CallCreateInventoryItem in_ => ignore (CreateInventoryItem db g in_)
  | CallCreateItemForStock sku title => ignore (CreateItemForStock db g sku title)
  | CallDeleteInventoryItem id => DeleteInventoryItem db id
  | CallSetInventoryLevel item location q => ignore (SetInventoryLevel db g item location q)
  | CallSetInventoryLevelFrom item location r q => ignore (SetInventoryLevelFrom db g item location r q)
  | CallAdjustInventory item location d => ignore (AdjustInventory db g item location d)
  | CallRestockInventory item location q => ignore (RestockInventory db g item location q)
  | CallReturnCanceledInventory item location line target reference =>
      ignore (ReturnCanceledInventory db g item location line target reference)
  | CallReserve in_ => ignore (Reserve db g in_)
  | CallReleaseReservation id => ReleaseReservation db g id
  | CallConfirmReservation id order => ConfirmReservation db g id order
  | CallRecallReplacementUnits id => ignore (RecallReplacementUnits db g id)
  | CallClaimBackorder in_ => ignore (ClaimBackorder db g in_)
  | CallSettleBackorder line bought window => ignore (SettleBackorder db g line bought window)
  | CallRecordSupplierReceipt in_ => ignore (RecordSupplierReceipt db g in_)
  | CallReceiveSupplierReceipt item id q => ignore (ReceiveSupplierReceipt db g item id q)
  | CallCancelSupplierReceipt item id => ignore (CancelSupplierReceipt db item id)
  end.

(** One call after another, each with the identifiers it draws. *)
Definition answer_all (calls : list (seeds * stock_call)) (st : St) : St :=
  foldl (fun st c => (answer c.1 c.2 st).1) st calls.

Context (view : St -> Warehouse) `{!InventoryLaws db view}.

(** ** A failed call changes nothing *)

Lemma drain_all_sure g waiting st : is_ok (drain_all db g waiting st).2 = true.
Proof.
  assert (forall g claim locations st, is_ok (drain db g claim locations st).2 = true) as Hdrain.
  { intros g0 claim locations. revert g0. induction locations as [|l locations IH]; intros g0 st0; [done|]. cbn [drain].
    unfold mbind, tx_bind, tx_try. destruct (drain_at db (inner 0 g0) claim l st0) as [st1 [[]|e]]; cbn; [done|apply IH|].
    destruct (_ || _); [apply IH|done]. }
  revert g st. induction waiting as [|claim waiting IH]; intros g st; [done|]. cbn [drain_all].
  unfold mbind, tx_bind. specialize (Hdrain (inner 0 g) claim (bo_LocationIDs claim) st).
  destruct (drain _ _ _ _ st) as [st1 [e|e]]; [|done]. specialize (IH (inner 1 g) st1).
  by destruct (drain_all _ _ _ st1) as [st2 [es|es]].
Qed.

Lemma SettleBackorder_atomic g line bought window : atomic (SettleBackorder db g line bought window).
Proof.
  unfold SettleBackorder. do 3 apply atomic_guard. apply atomic_sure; [apply atomic_atomically|].
  intros settled_ st. pose proof (drain_all_sure g settled_.2 st) as Hs. unfold mbind, tx_bind.
  by destruct (drain_all _ _ _ st) as [st1 [es|es]].
Qed.

Lemma CreateStockLocation_atomic g in_ : atomic (CreateStockLocation db g in_).
Proof. unfold CreateStockLocation. do 7 apply atomic_guard. intros st st' e. apply law_create_location_fails. Qed.

Lemma CreateInventoryItem_atomic g in_ : atomic (CreateInventoryItem db g in_).
Proof. unfold CreateInventoryItem. do 3 apply atomic_guard. intros st st' e. apply law_create_item_fails. Qed.

Ltac atomic_tac :=
  repeat first
    [ apply SettleBackorder_atomic
    | apply CreateStockLocation_atomic
    | apply CreateInventoryItem_atomic
    | apply atomic_guard
    | apply atomic_atomically
    | apply atomic_pure; intros ? ?
    | apply atomic_after ].

Lemma supplierReceiptOf_atomic {A} item id (f : SupplierReceipt -> tx St A) :
  (forall r, atomic (f r)) -> atomic (supplierReceiptOf db item id ≫= f).
Proof.
  intros Hf. apply atomic_before; [by intros st r _|]. intros st. unfold supplierReceiptOf, mbind, tx_bind, tx_read, tx_check.
  destruct (db_GetSupplierReceipt db id st); [|done]. by destruct (refuse _ _).
Qed.

Lemma ReceiveSupplierReceipt_atomic g item id q : atomic (ReceiveSupplierReceipt db g item id q).
Proof.
  unfold ReceiveSupplierReceipt. do 3 apply atomic_guard. apply supplierReceiptOf_atomic. intros r.
  destruct (negb _); [|apply atomic_atomically]. apply atomic_guard, atomic_after. unfold levelAt. by apply atomic_query.
Qed.

Lemma CancelSupplierReceipt_atomic item id : atomic (CancelSupplierReceipt db item id).
Proof.
  unfold CancelSupplierReceipt. do 2 apply atomic_guard. apply supplierReceiptOf_atomic. intros r.
  destruct (negb _); [|apply atomic_atomically]. by apply atomic_guard.
Qed.

Lemma answer_atomic g c : atomic (answer g c).
Proof.
  destruct c; cbn [answer]; unfold ignore, CloseStockLocation, CreateItemForStock, DeleteInventoryItem, SetInventoryLevel,
    SetInventoryLevelFrom, setInventoryLevel, AdjustInventory, RestockInventory, adjust, ReturnCanceledInventory, Reserve,
    ReleaseReservation, ConfirmReservation, RecallReplacementUnits, ClaimBackorder, RecordSupplierReceipt, WithTx;
    try apply atomic_after; first [apply ReceiveSupplierReceipt_atomic|apply CancelSupplierReceipt_atomic|atomic_tac].
Qed.

(** ** A call that succeeds is a run of moves *)

Lemma beside_moves {A} (m : tx St A) st : yields st m (fun _ st' => beside (view st) (view st')) ->
  yields st m (fun _ st' => rtc move (view st) (view st')).
Proof. intros H. eapply yields_mono; [exact H|]. by intros a st' [Hm _ _]. Qed.

Lemma setInventoryLevel_moves g item location q read st : sound (view st) -> in_int64 q ->
  yields st (setInventoryLevel db g item location q read) (fun _ st' => rtc move (view st) (view st')).
Proof.
  intros Hw Hq. eapply yields_mono; [apply (setInventoryLevel_yields db view); [done|in64]|].
  intros l' st' (l1 & d & _ & _ & Hr). by eapply recounted_moves.
Qed.

Lemma adjust_moves g item location d reason st : sound (view st) -> in_int64 d ->
  LeavesAgainstAPromise reason = false -> (adds reason = true -> 0 < d) -> reason <> MovementSupplierReceipt ->
  yields st (adjust db g item location d reason) (fun _ st' => rtc move (view st) (view st')).
Proof.
  intros Hw Hd Hl Ha Hr. eapply yields_mono; [by apply (adjust_yields db view)|].
  intros l' st' (l1 & _ & Hc). by eapply recounted_moves.
Qed.

Lemma answer_yields g c st : sound (view st) -> call_ok c ->
  yields st (answer g c) (fun _ st' => rtc move (view st) (view st')).
Proof.
  intros Hw Hc. destruct c; cbn [answer call_ok] in *; try apply yields_ignore.
  - by apply beside_moves, CreateStockLocation_beside.
  - by apply beside_moves, CloseStockLocation_beside.
  - by apply beside_moves, CreateInventoryItem_beside.
  - unfold CreateItemForStock. by apply yields_part, beside_moves, CreateInventoryItem_beside.
  - by apply beside_moves, DeleteInventoryItem_beside.
  - by apply setInventoryLevel_moves.
  - apply setInventoryLevel_moves; [done|apply Hc].
  - apply yields_guard. intros _. by apply adjust_moves.
  - apply yields_guard. intros Hq. allowed. by apply adjust_moves.
  - eapply yields_mono; [by apply (ReturnCanceledInventory_yields db view)|].
    intros l' st' (l1 & d & _ & Hd & _ & Hr). by eapply recounted_moves.
  - by apply Reserve_moves.
  - by apply ReleaseReservation_moves.
  - by apply ConfirmReservation_moves.
  - by apply RecallReplacementUnits_moves.
  - apply ClaimBackorder_moves; [done..|]. in64.
  - destruct Hc as [Hb _]. apply SettleBackorder_moves; [done..|]. in64.
  - by apply beside_moves, RecordSupplierReceipt_beside.
  - apply ReceiveSupplierReceipt_moves; [done..|]. in64.
  - by apply beside_moves, CancelSupplierReceipt_beside.
Qed.

Lemma answer_moves g c st : sound (view st) -> call_ok c -> rtc move (view st) (view (answer g c st).1).
Proof.
  intros Hw Hc. destruct (answer g c st) as [st' [u|e]] eqn:E; cbn.
  - by apply (answer_yields g c st Hw Hc st' u).
  - rewrite (answer_atomic g c st st' e E). constructor.
Qed.

Lemma answer_all_moves calls : forall st, sound (view st) -> Forall (fun c => call_ok c.2) calls ->
  rtc move (view st) (view (answer_all calls st)).
Proof.
  induction calls as [|c calls IH]; intros st Hw Hc; [constructor|]. apply Forall_cons in Hc as [Hc Hcs].
  pose proof (answer_moves c.1 c.2 st Hw Hc) as Hm. etrans; [exact Hm|]. apply IH; [|done]. by eapply moves_sound.
Qed.
End Requests.

(** * The queue of claims

    What fills leave alone, the greedy pass they make over the queue, and that no claim is left waiting
    for units that are there: every call but the two that change claims keeps it so. *)

(** ** What fills touch *)

Lemma fills_level w l ids w' l' : fills w l ids w' l' -> wh_levels w !! lv_ID l = Some l ->
  lv_ID l' = lv_ID l /\ at_shelf (lv_InventoryItemID l) (lv_LocationID l) l' /\ sellable l' <= sellable l /\
  wh_levels w' = <[lv_ID l := l']> (wh_levels w).
Proof.
  intros H. induction H as [w l|w l w1 l1 id ids w2 l2 Hs _ IH]; intros Hl.
  { do 3 (split; [done|]). by rewrite insert_id. }
  destruct (fill_step_level _ _ _ _ _ Hs) as (Hid & [Hi Hlo] & Ev & Hl1 & Hr & b & r & _ & _ & Est & Hq & _).
  destruct (IH Hl1) as (Hid2 & [Hi2 Hlo2] & Hle & Ev2). split; [congruence|]. split; [split; congruence|]. split; [unfold sellable in *; lia|].
  rewrite Ev2, Ev, Hid. by rewrite insert_insert_eq.
Qed.

Lemma fills_claims w l ids w' l' : fills w l ids w' l' -> forall k b,
  (wh_backorders w' !! k = Some b -> bo_Status b = BackorderWaiting -> wh_backorders w !! k = Some b /\ k ∉ ids) /\
  (wh_backorders w !! k = Some b -> k ∉ ids -> wh_backorders w' !! k = Some b).
Proof.
  intros H. induction H as [w l|w l w1 l1 id ids w2 l2 Hs _ IH]; intros k b.
  { split; [|done]. intros Hk _. split; [done|apply not_elem_of_nil]. }
  destruct (fill_step_level _ _ _ _ _ Hs) as (_ & _ & _ & _ & _ & b0 & r & _ & _ & _ & _ & t & E).
  destruct (IH k b) as [IH1 IH2]. rewrite E in IH1, IH2. rewrite not_elem_of_cons. split.
  - intros Hk Hw. destruct (IH1 Hk Hw) as [[[<- <-]|[Hne Hk']]%lookup_insert_Some Hn]; [done|]. split; [done|]. split; [by intros ->|done].
  - intros Hk [Hne Hn]. apply IH2; [|done]. by rewrite lookup_insert_ne.
Qed.

(** ** The greedy pass *)

(** Of two claims that fit at first, the one that came later is served before the other only where the
    other needs more than it and what is left. *)
Lemma greedy_left units claims : Forall (fun c => 0 < bo_Quantity c - bo_WithdrawnQuantity c) claims ->
  (greedy units claims).2 <= units.
Proof.
  revert units. induction claims as [|c claims IH]; intros units Hc; cbn; [lia|].
  apply Forall_cons in Hc as [Hp Hc]. destruct (Z.leb_spec (bo_Quantity c - bo_WithdrawnQuantity c) units).
  - cbn. specialize (IH (units - (bo_Quantity c - bo_WithdrawnQuantity c)) Hc). lia.
  - by apply IH.
Qed.

Lemma greedy_sub units claims id : id ∈ (greedy units claims).1 -> id ∈ bo_ID <$> claims.
Proof.
  revert units. induction claims as [|c claims IH]; intros units; cbn; [done|].
  destruct (_ <=? _); cbn; rewrite ?elem_of_cons; naive_solver.
Qed.

(** A claim that is served is served whole out of the units. *)
Lemma greedy_served units claims c : Forall (fun c => 0 < bo_Quantity c - bo_WithdrawnQuantity c) claims ->
  NoDup (bo_ID <$> claims) -> c ∈ claims -> bo_ID c ∈ (greedy units claims).1 ->
  bo_Quantity c - bo_WithdrawnQuantity c + (greedy units claims).2 <= units.
Proof.
  revert units. induction claims as [|c0 claims IH]; intros units Hp Hnd Hin Hid; [by apply not_elem_of_nil in Hin|].
  apply Forall_cons in Hp as [Hp0 Hp]. rewrite fmap_cons in Hnd. apply NoDup_cons in Hnd as [Hnin Hnd]. cbn in *.
  assert (forall u, bo_ID c ∈ (greedy u claims).1 -> c ∈ claims) as Hc.
  { intros u Hu. apply elem_of_cons in Hin as [->|Hin]; [|done]. by apply greedy_sub in Hu. }
  destruct (Z.leb_spec (bo_Quantity c0 - bo_WithdrawnQuantity c0) units); cbn in *.
  - apply elem_of_cons in Hid as [E|Hid].
    + assert (c = c0) as ->.
      { apply elem_of_cons in Hin as [->|Hin]; [done|]. destruct Hnin. rewrite <- E. by apply list_elem_of_fmap_2. }
      pose proof (greedy_left (units - (bo_Quantity c0 - bo_WithdrawnQuantity c0)) claims Hp). lia.
    + specialize (IH _ Hp Hnd (Hc _ Hid) Hid). lia.
  - by apply IH; [..|by apply (Hc units)|].
Qed.

Lemma greedy_order units before c between c' after :
  let claims := before ++ c :: between ++ c' :: after in
  Forall (fun c => 0 < bo_Quantity c - bo_WithdrawnQuantity c) claims -> NoDup (bo_ID <$> claims) ->
  bo_ID c ∉ (greedy units claims).1 -> bo_ID c' ∈ (greedy units claims).1 ->
  bo_Quantity c' - bo_WithdrawnQuantity c' + (greedy units claims).2 < bo_Quantity c - bo_WithdrawnQuantity c.
Proof.
  revert units. induction before as [|c0 before IH]; intros units claims Hp Hnd Hn Hin; unfold claims in *; cbn [app] in *.
  - apply Forall_cons in Hp as [Hp0 Hp]. rewrite fmap_cons in Hnd. apply NoDup_cons in Hnd as [Hnin Hnd].
    cbn [greedy] in *. destruct (Z.leb_spec (bo_Quantity c - bo_WithdrawnQuantity c) units).
    + cbn in Hn. by destruct Hn; apply list_elem_of_here.
    + enough (bo_Quantity c' - bo_WithdrawnQuantity c' + (greedy units (between ++ c' :: after)).2 <= units) by lia.
      apply greedy_served; try done. set_solver.
  - apply Forall_cons in Hp as [Hp0 Hp]. rewrite fmap_cons in Hnd. apply NoDup_cons in Hnd as [Hnin Hnd].
    cbn [greedy] in *. destruct (Z.leb_spec (bo_Quantity c0 - bo_WithdrawnQuantity c0) units); cbn [fst snd] in *; [|by apply IH].
    apply not_elem_of_cons in Hn as [_ Hn]. apply IH; try done. apply elem_of_cons in Hin as [E|Hin]; [|done].
    destruct Hnin. rewrite <- E. apply list_elem_of_fmap_2. set_solver.
Qed.

(** ** No claim waits for units that are there *)

Definition none_in_vain (w : Warehouse) : Prop := forall k l, wh_levels w !! k = Some l -> served w l.

(** No claim waits that did not wait before, nor as another. *)
Definition no_more_waiting (w w' : Warehouse) : Prop := forall k b,
  wh_backorders w' !! k = Some b -> bo_Status b = BackorderWaiting -> wh_backorders w !! k = Some b.

Lemma served_shrinks w w' l l' : no_more_waiting w w' -> at_shelf (lv_InventoryItemID l) (lv_LocationID l) l' ->
  sellable l' <= sellable l -> served w l -> served w' l'.
Proof.
  intros Hm [Ei El] Hle Hs k b Hk ([Hi Hw] & Hin & Hf). rewrite Ei in Hi. rewrite El in Hin. apply (Hs k b); [by apply Hm|]. split_and!; [done..|lia].
Qed.

Lemma none_beside w w' : wh_levels w' ⊆ wh_levels w -> no_more_waiting w w' -> none_in_vain w -> none_in_vain w'.
Proof.
  intros Hl Hm Hn k l Hk. apply (served_shrinks w w' l l Hm); [apply at_own_shelf|done|].
  apply (Hn k). by eapply lookup_weaken.
Qed.

Lemma none_put w w' k l' : wh_levels w' = <[k := l']> (wh_levels w) -> no_more_waiting w w' ->
  served w' l' -> none_in_vain w -> none_in_vain w'.
Proof.
  intros Hl Hm Hs Hn j l. rewrite Hl. intros [[<- <-]|[Hne Hj]]%lookup_insert_Some; [done|].
  apply (served_shrinks w w' l l Hm); [apply at_own_shelf|done|by apply (Hn j)].
Qed.

(** Nothing fits where nothing is. *)
Lemma served_empty w l : claims_bounded w -> sellable l <= 0 -> served w l.
Proof. intros Hc Hs k b Hk ([_ Hw] & _ & Hf). destruct (Hc k b Hk) as (_ & _ & _ & Hlt). specialize (Hlt Hw). lia. Qed.

Lemma fills_fewer w0 w l ids w' l' : wh_backorders w = wh_backorders w0 -> fills w l ids w' l' -> no_more_waiting w0 w'.
Proof. intros E H k b Hk Hw. rewrite <- E. by apply (fills_claims _ _ _ _ _ H k b). Qed.

(** The claims of a count that lowers or leaves what is there. *)
Lemma counted_served w l1 d l' : sound w -> none_in_vain w -> counted w l1 d -> d <= 0 ->
  at_shelf (lv_InventoryItemID l1) (lv_LocationID l1) l' -> sellable l' <= sellable l1 -> served w l'.
Proof.
  intros Hw Hn [l t s Hl Hs|l Hl Hno Hi Hr Hst] Hd Ha Hle.
  - apply (served_shrinks w w l l'); [by intros k b|done| |by apply (Hn (lv_ID l))]. unfold sellable in *. cbn in Hle. lia.
  - apply served_empty; [by apply sound_claims|]. unfold sellable in *. lia.
Qed.

Lemma recounted_none w l1 d reason reference line w' l' : sound w -> none_in_vain w ->
  recounted w l1 d reason reference line w' l' -> none_in_vain w'.
Proof.
  intros Hw Hn [Hc _ (ms & ids & _ & _ & Hf & _) Hse]. pose proof (fills_fewer w (append_entries ms (put_level l1 w)) _ _ _ _ eq_refl Hf) as Hm.
  destruct (fills_level _ _ _ _ _ Hf) as (_ & Ha & Hle & Hl); [cbn; by rewrite lookup_insert_eq|].
  eapply none_put; [rewrite Hl; apply insert_insert_eq|done| |done]. destruct (Z.lt_ge_cases 0 d) as [Hd|Hd]; [by apply Hse|].
  apply (served_shrinks w w' l' l' Hm); [apply at_own_shelf|done|]. by eapply counted_served.
Qed.

Lemma arrived_none w id q w' : none_in_vain w -> arrived w id q w' -> none_in_vain w'.
Proof.
  intros Hn (r & l1 & m & ids & l' & _ & _ & _ & _ & _ & _ & _ & _ & Hf & Hse & _).
  destruct (fills_level _ _ _ _ _ Hf) as (_ & _ & _ & Hl); [cbn; by rewrite lookup_insert_eq|].
  eapply none_put; [rewrite Hl; apply insert_insert_eq|by eapply fills_fewer; [|exact Hf]|done|done].
Qed.

Section Queue.
Context {St : Type} (db : Store St) (view : St -> Warehouse) `{!InventoryLaws db view}.

(** The calls that change no claim themselves. *)
Definition keeps_claims (c : stock_call) : bool :=
  match c with CallClaimBackorder _ | CallSettleBackorder _ _ _ => false | _ => true end.

Lemma beside_none {A} (m : tx St A) st : none_in_vain (view st) ->
  yields st m (fun _ st' => beside (view st) (view st')) -> yields st m (fun _ st' => none_in_vain (view st')).
Proof.
  intros Hn H. eapply yields_mono; [exact H|]. intros a st' [_ Hl Hc].
  apply (none_beside (view st)); [done| |done]. intros k b. by rewrite Hc.
Qed.

Lemma Reserve_none g in_ st : sound (view st) -> none_in_vain (view st) ->
  yields st (Reserve db g in_) (fun _ st' => none_in_vain (view st')).
Proof.
  intros Hw Hn. eapply yields_mono; [by apply (Reserve_yields db view)|].
  intros r st' (l & t & Hl & _ & _ & _ & _ & _ & _ & Hq & Hle & ->). eapply (none_put (view st)); [done|by intros k b| |done].
  apply (served_shrinks (view st) _ l); [by intros k b|done|unfold sellable in *; cbn; lia|by apply (Hn (lv_ID l))].
Qed.

Lemma ReleaseReservation_none g id st : sound (view st) -> none_in_vain (view st) ->
  yields st (ReleaseReservation db g id) (fun _ st' => none_in_vain (view st')).
Proof.
  intros Hw Hn. eapply yields_mono; [by apply (ReleaseReservation_yields db view)|].
  intros _ st' (r & Hr & [[_ ->]|(Hs & l & t & t' & ids & l' & Hl & Hp & Hf & Hse)]); [done|].
  destruct (fills_level _ _ _ _ _ Hf) as (_ & _ & _ & Hlv); [cbn; by rewrite lookup_insert_eq|].
  eapply none_put; [rewrite Hlv; apply insert_insert_eq|by eapply fills_fewer; [|exact Hf]|done|done].
Qed.

Lemma ConfirmReservation_none g id orderID st : sound (view st) -> none_in_vain (view st) ->
  yields st (ConfirmReservation db g id orderID) (fun _ st' => none_in_vain (view st')).
Proof.
  intros Hw Hn. eapply yields_mono; [by apply (ConfirmReservation_yields db view)|].
  intros _ st' (r & Hr & [[_ ->]|(Hs & l & l' & t & t' & m & Hl & Hp & El & Hm & _ & ->)]); [done|].
  eapply (none_put (view st)); [done|by intros k b| |done].
  apply (served_shrinks (view st) _ l); rewrite ?El; [by intros k b|done|unfold sellable; cbn; lia|by apply (Hn (lv_ID l))].
Qed.

Lemma answer_none g c st : sound (view st) -> none_in_vain (view st) -> call_ok c -> keeps_claims c = true ->
  yields st (answer db g c) (fun _ st' => none_in_vain (view st')).
Proof.
  intros Hw Hn Hc Hk.
  destruct c; cbn [answer call_ok keeps_claims] in *; try discriminate; try apply yields_ignore.
  - apply beside_none; [done|]. by apply CreateStockLocation_beside.
  - apply beside_none; [done|]. by apply CloseStockLocation_beside.
  - apply beside_none; [done|]. by apply CreateInventoryItem_beside.
  - unfold CreateItemForStock. apply yields_part, beside_none; [done|]. by apply CreateInventoryItem_beside.
  - apply beside_none; [done|]. by apply DeleteInventoryItem_beside.
  - eapply yields_mono; [apply (setInventoryLevel_yields db view); [done|in64]|].
    intros l' st' (l1 & d & _ & _ & Hr). by eapply recounted_none.
  - destruct Hc as [_ Hc]. eapply yields_mono; [apply (setInventoryLevel_yields db view); [done|in64]|].
    intros l' st' (l1 & d & _ & _ & Hr). by eapply recounted_none.
  - apply yields_guard. intros _. eapply yields_mono; [by apply (adjust_yields db view)|].
    intros l' st' (l1 & _ & Hr). by eapply recounted_none.
  - apply yields_guard. intros _. eapply yields_mono; [by apply (adjust_yields db view)|].
    intros l' st' (l1 & _ & Hr). by eapply recounted_none.
  - eapply yields_mono; [by apply (ReturnCanceledInventory_yields db view)|].
    intros l' st' (l1 & d & _ & _ & _ & Hr). by eapply recounted_none.
  - by apply Reserve_none.
  - by apply ReleaseReservation_none.
  - by apply ConfirmReservation_none.
  - eapply yields_mono; [by apply (RecallReplacementUnits_yields db view)|].
    intros l' st' (r & l1 & _ & _ & _ & _ & _ & _ & Hr). by eapply recounted_none.
  - apply beside_none; [done|]. by apply RecordSupplierReceipt_beside.
  - eapply yields_mono; [apply (ReceiveSupplierReceipt_yields db view); [done|in64]|].
    intros out st' [_ [->|Ha]]; [done|]. by eapply arrived_none.
  - apply beside_none; [done|]. by apply CancelSupplierReceipt_beside.
Qed.

Lemma answer_all_none calls : forall st, sound (view st) -> none_in_vain (view st) ->
  Forall (fun c => call_ok c.2 /\ keeps_claims c.2 = true) calls -> none_in_vain (view (answer_all db calls st)).
Proof.
  induction calls as [|c calls IH]; intros st Hw Hn Hc; [done|]. apply Forall_cons in Hc as [[Hc Hk] Hcs].
  cbn [answer_all foldl]. apply IH; [|..|done].
  - eapply moves_sound; [exact Hw|]. by apply (answer_moves db view).
  - destruct (answer db c.1 c.2 st) as [st' [u|e]] eqn:E; cbn.
    + by apply (answer_none c.1 c.2 st Hw Hn Hc Hk st' u).
    + by rewrite (answer_atomic db view c.1 c.2 st st' e E).
Qed.
End Queue.
