(* ===== verification/InventoryForecast.v ===== *)
(** * The restock forecast: [internal/modules/inventory/service/forecast.go]

    When each warehouse with nothing to sell will have units again: the expected receipts in turn, each
    given to the waiting claims as receiving it would. *)
From S2P Require Import Prelude GoText Errors Tx Identifiers Database InventoryModels InventoryService InventoryMoves InventoryPromises InventoryFill InventoryClaims InventoryQueue.
Set Warnings "-level-tolerance,-clear-no-such-hyp".

(** The loop over the claims at a receipt's location: what is left there and which claims are filled. *)
Fixpoint forecast_claims (location : string) (claims : list Backorder) (filled : list bool) (available : Z) :
    Z * list bool :=
  match claims, filled with
  | claim :: claims, f :: filled =>
      let need := Owed claim in
      if f || (need <=? 0) || (available <? need) || negb (Contains (bo_LocationIDs claim) location) then
        let r := forecast_claims location claims filled available in (r.1, f :: r.2)
      else
        let r := forecast_claims location claims filled (available -₆₄ need) in (r.1, true :: r.2)
  | _, _ => (available, filled)
  end.

Record Forecast := mkForecast {
  fc_available : gmap string Z;
  fc_filled : list bool;
  fc_out : gmap string moment
}.

(** A quantity by its location; an absent key reads zero. *)
Definition quantity_at (m : gmap string Z) (location : string) : Z := default 0 (m !! location).

(** One receipt of the forecast. *)
Definition forecast_receipt (now : gmap string Z) (claims : list Backorder) (fc : Forecast) (receipt : SupplierReceipt) :
    Forecast :=
  let location := sr_LocationID receipt in
  let r := forecast_claims location claims (fc_filled fc)
    (quantity_at (fc_available fc) location +₆₄ sr_Quantity receipt) in
  mkForecast (<[location := r.1]> (fc_available fc)) r.2
    (if bool_decide (fc_out fc !! location = None) && (quantity_at now location <=? 0) && (0 <? r.1)
     then <[location := sr_ExpectedAt receipt]> (fc_out fc) else fc_out fc).

Definition by_seq : Backorder -> Backorder -> Z := cmp_on bo_Seq cmpZ.

#[export] Instance by_seq_order : CmpOrder by_seq.
Proof. unfold by_seq. apply _. Qed.

Definition by_expected : SupplierReceipt -> SupplierReceipt -> Z :=
  cmp_then (cmp_on sr_ExpectedAt cmpZ) (cmp_on sr_ID cmpS).

Definition restockDates (now : gmap string Z) (claims : list Backorder) (receipts : list SupplierReceipt) :
    gmap string moment :=
  let claims := SortFunc by_seq claims in
  fc_out (foldl (forecast_receipt now claims) (mkForecast now (replicate (length claims) false) ∅)
    (SortFunc by_expected receipts)).

(** Rows appended under their keys. *)
Definition grouped {V} (key : V -> string) (rows : list V) : gmap string (list V) :=
  foldl (fun out row => <[key row := default [] (out !! key row) ++ [row]]> out) ∅ rows.

Definition RestockForecast {St} (db : Store St) (itemIDs : list string) : tx St (gmap string (gmap string moment)) :=
  if bool_decide (itemIDs = []) then mret ∅
  else
    now ← AvailableQuantitiesByLocation db itemIDs;
    claims ← tx_read (db_WaitingBackordersOfItems db itemIDs);
    receipts ← tx_read (db_ExpectedSupplierReceiptsOfItems db itemIDs);
    let waiting := grouped bo_InventoryItemID claims in
    mret (map_imap (fun itemID expected =>
      let dates := restockDates (default ∅ (now !! itemID)) (default [] (waiting !! itemID)) expected in
      if bool_decide (dates = ∅) then None else Some dates) (grouped sr_InventoryItemID receipts)).

(** ** The loop is the greedy pass *)

Definition need (c : Backorder) : Z := bo_Quantity c - bo_WithdrawnQuantity c.

(** The claims that are not filled yet. *)
Fixpoint unfilled (claims : list Backorder) (filled : list bool) : list Backorder :=
  match claims, filled with
  | c :: claims, f :: filled => if f : bool then unfilled claims filled else c :: unfilled claims filled
  | _, _ => []
  end.

(** Claims whose need the code computes exactly. *)
Definition needy (c : Backorder) : Prop := Owed c = need c /\ 0 < need c.

Definition named_at (location : string) (c : Backorder) : Prop := location ∈ bo_LocationIDs c.

#[export] Instance named_at_dec location c : Decision (named_at location c).
Proof. unfold named_at. apply _. Defined.

Lemma filter_unserved (c : Backorder) (ids : list string) (claims : list Backorder) : bo_ID c ∉ bo_ID <$> claims ->
  filter (fun x => bo_ID x ∉ bo_ID c :: ids) claims = filter (fun x => bo_ID x ∉ ids) claims.
Proof.
  induction claims as [|x claims IH]; intros Hn; [done|]. rewrite fmap_cons in Hn. apply not_elem_of_cons in Hn as [Hne Hn].
  rewrite !filter_cons, IH by done.
  destruct (decide (bo_ID x ∉ ids)) as [H|H], (decide (bo_ID x ∉ bo_ID c :: ids)) as [H'|H']; set_solver.
Qed.

(** What one pass of the forecast's loop comes to. *)
Record passed (location : string) (claims : list Backorder) (filled : list bool) (units : Z) (r : Z * list bool) : Prop := {
  pa_left : r.1 = (greedy units (filter (named_at location) (unfilled claims filled))).2;
  pa_length : length r.2 = length claims;
  pa_open : unfilled claims r.2 =
    filter (fun c => bo_ID c ∉ (greedy units (filter (named_at location) (unfilled claims filled))).1)
      (unfilled claims filled)
}.

Lemma served_elsewhere location units (claims : list Backorder) id : id ∉ bo_ID <$> claims ->
  id ∉ (greedy units (filter (named_at location) claims)).1.
Proof.
  intros Hn Hin. apply Hn. apply greedy_sub, list_elem_of_fmap in Hin as (c & -> & Hc).
  apply list_elem_of_filter in Hc as [_ Hc]. by apply list_elem_of_fmap_2.
Qed.

Lemma forecast_claims_passed location claims : forall filled units, length filled = length claims ->
  Forall needy (unfilled claims filled) -> NoDup (bo_ID <$> unfilled claims filled) -> 0 <= units <= int64_max ->
  passed location claims filled units (forecast_claims location claims filled units).
Proof.
  induction claims as [|c claims IH]; intros [|f filled] units Hlen Hneed Hnd Hu; try discriminate; [by split|].
  injection Hlen as Hlen. cbn [forecast_claims]. destruct f; cbn [unfilled orb] in *.
  { destruct (IH filled units Hlen Hneed Hnd Hu) as [H1 H2 H3]. split; cbn; [done|by rewrite H2|done]. }
  apply Forall_cons in Hneed as [[Eo Hp] Hneed]. rewrite fmap_cons in Hnd. apply NoDup_cons in Hnd as [Hnin Hnd].
  rewrite Eo. destruct (Z.leb_spec (need c) 0); [lia|]. cbn [orb].
  destruct (Z.ltb_spec units (need c)) as [Hlt|Hle]; cbn [orb].
  - destruct (IH filled units Hlen Hneed Hnd Hu) as [H1 H2 H3].
    assert (greedy units (filter (named_at location) (c :: unfilled claims filled)) =
      greedy units (filter (named_at location) (unfilled claims filled))) as E.
    { rewrite filter_cons. destruct (decide (named_at location c)); [|done]. cbn [greedy]. fold (need c).
      by destruct (Z.leb_spec (need c) units); [lia|]. }
    split; cbn [unfilled]; rewrite ?E; cbn [fst snd length unfilled]; [done|by rewrite H2|]. rewrite filter_cons_True; [by rewrite H3|]. by apply served_elsewhere.
  - destruct (Contains (bo_LocationIDs c) location) eqn:Ec; cbn [negb].
    + apply Contains_spec in Ec. rewrite sub64_exact by in64.
      assert (0 <= units - need c <= int64_max) as Hu' by lia. destruct (IH filled _ Hlen Hneed Hnd Hu') as [H1 H2 H3].
      assert (greedy units (filter (named_at location) (c :: unfilled claims filled)) =
        let r := greedy (units - need c) (filter (named_at location) (unfilled claims filled)) in (bo_ID c :: r.1, r.2)) as E.
      { rewrite filter_cons_True by done. cbn [greedy]. fold (need c). by destruct (Z.leb_spec (need c) units); [|lia]. }
      split; cbn [unfilled]; rewrite ?E; cbn [fst snd length unfilled]; [done|by rewrite H2|]. rewrite filter_cons_False by set_solver.
      by rewrite H3, filter_unserved.
    + destruct (IH filled units Hlen Hneed Hnd Hu) as [H1 H2 H3].
      assert (greedy units (filter (named_at location) (c :: unfilled claims filled)) =
        greedy units (filter (named_at location) (unfilled claims filled))) as E.
      { rewrite filter_cons_False; [done|]. intros H'. apply Contains_spec in H'. congruence. }
      split; cbn [unfilled]; rewrite ?E; cbn [fst snd length unfilled]; [done|by rewrite H2|]. rewrite filter_cons_True; [by rewrite H3|]. by apply served_elsewhere.
Qed.

(** Claims that never fit do not matter to the pass. *)
Lemma greedy_fitting units limit claims : units <= limit -> Forall (fun c => 0 < need c) claims ->
  greedy units (filter (fun c => need c <= limit) claims) = greedy units claims.
Proof.
  revert units. induction claims as [|c claims IH]; intros units Hle Hp; [done|]. apply Forall_cons in Hp as [Hc Hp].
  rewrite filter_cons. destruct (decide (need c <= limit)) as [Hf|Hf]; cbn [greedy]; fold (need c).
  - destruct (Z.leb_spec (need c) units); [|by apply IH]. rewrite IH; [done|lia|done].
  - destruct (Z.leb_spec (need c) units); [lia|]. by apply IH.
Qed.

(** ** Queues *)

(** Queue positions are the database's identity column: no two claims share one. *)
Definition queue_positions (w : Warehouse) : Prop := forall k k' b b',
  wh_backorders w !! k = Some b -> wh_backorders w !! k' = Some b' -> bo_Seq b = bo_Seq b' -> k = k'.

Lemma sublist_sorted {A} (R : relation A) l k : sublist l k -> StronglySorted R k -> StronglySorted R l.
Proof.
  induction 1 as [|x l k Hs IH|x l k Hs IH]; intros Hk; [done| |]; apply StronglySorted_inv in Hk as [Hk Hx].
  - constructor; [by apply IH|]. rewrite Forall_forall in *. intros y Hy. apply Hx.
    eapply elem_of_submseteq; [exact Hy|by apply sublist_submseteq].
  - by apply IH.
Qed.

Lemma seq_sorted claims : StronglySorted Z.le (bo_Seq <$> claims) -> StronglySorted (cmp_le by_seq) claims.
Proof.
  induction claims as [|c claims IH]; intros H; [constructor|]. rewrite fmap_cons in H.
  apply StronglySorted_inv in H as [H Hc]. constructor; [by apply IH|]. rewrite Forall_fmap in Hc.
  eapply Forall_impl; [exact Hc|]. intros x Hx. cbn in Hx. unfold cmp_le, by_seq, cmp_on, cmpZ.
  destruct (Z.compare_spec (bo_Seq c) (bo_Seq x)); lia.
Qed.

Lemma by_seq_eq a b : by_seq a b = 0 -> bo_Seq a = bo_Seq b.
Proof. unfold by_seq, cmp_on, cmpZ. by destruct (Z.compare_spec (bo_Seq a) (bo_Seq b)). Qed.

Lemma NoDup_unmap {A B} (f : A -> B) l : NoDup (f <$> l) -> NoDup l.
Proof. apply NoDup_fmap_1. Qed.

(** A statement that selects some of what another one selects gives them in the same order. *)
Lemma locked_part (P Q R : Backorder -> Prop) `{!forall b, Decision (R b)} w claims part :
  queue_positions w -> (forall b, Q b <-> P b /\ R b) ->
  locked_claims P w claims -> locked_claims Q w part -> part = filter R claims.
Proof.
  intros Hpos HQ [Hrows Hall Hnd Hsort] [Hrows' Hall' Hnd' Hsort'].
  assert (part ≡ₚ filter R claims) as Hperm.
  { apply NoDup_Permutation; [by eapply NoDup_unmap|by apply NoDup_filter; eapply NoDup_unmap|]. intros b.
    rewrite list_elem_of_filter. split.
    - intros Hb. destruct (Hrows' b Hb) as [Hk [HP HR]%HQ]. split; [done|]. by apply (Hall (bo_ID b)).
    - intros [HR Hb]. destruct (Hrows b Hb) as [Hk HP]. apply (Hall' (bo_ID b)); [done|]. by apply HQ. }
  rewrite <- (SortFunc_unique by_seq part (filter R claims)); [|..|exact Hperm|].
  - symmetry. apply (SortFunc_unique by_seq); [|done|by apply seq_sorted].
    intros a b Ha Hb E%by_seq_eq. destruct (Hrows' a Ha) as [Ka _], (Hrows' b Hb) as [Kb _].
    rewrite <- (Hpos _ _ _ _ Ka Kb E) in Kb. congruence.
  - intros a b Ha Hb E%by_seq_eq. destruct (Hrows' a Ha) as [Ka _], (Hrows' b Hb) as [Kb _].
    rewrite <- (Hpos _ _ _ _ Ka Kb E) in Kb. congruence.
  - eapply sublist_sorted; [apply sublist_filter|by apply seq_sorted].
Qed.

(** ** Units at a shelf *)

Definition units_at (w : Warehouse) (item location : string) : Z :=
  sum_of (fun l => if decide (at_shelf item location l) then sellable l else 0) (wh_levels w).

Lemma units_at_level w k l item location : sound w -> wh_levels w !! k = Some l -> at_shelf item location l ->
  units_at w item location = sellable l.
Proof.
  intros Hw Hk Ha. unfold units_at. rewrite (sum_of_delete _ _ k l Hk), decide_True by done.
  rewrite sum_of_zero; [lia|]. intros k' l' [Hne Hk']%lookup_delete_Some. apply decide_False. intros Ha'.
  apply Hne. apply (so_shelves _ Hw k k' l l' Hk Hk'). destruct Ha as [-> ->]. done.
Qed.

Lemma units_at_none w item location : ~ has_level w item location -> units_at w item location = 0.
Proof. intros Hn. apply sum_of_zero. intros k l Hk. apply decide_False. intros Ha. apply Hn. by exists k, l. Qed.

Lemma units_at_nonneg w item location : sound w -> 0 <= units_at w item location.
Proof.
  intros Hw. apply sum_of_nonneg. intros k l Hk. destruct (decide _); [|done].
  pose proof (lk_bounds _ _ _ (so_levels _ Hw k l Hk)). unfold sellable. lia.
Qed.

(** A count that adds [d] leaves so much more at its shelf. *)
Lemma counted_units w l d item location : sound w -> counted w l d -> at_shelf item location l ->
  sellable l = units_at w item location + d.
Proof.
  intros Hw [l0 t s Hl Hs|l0 Hl Hno Hi Hr Hst] Ha.
  - rewrite (units_at_level w (lv_ID l0) l0) by done. unfold sellable. cbn. lia.
  - rewrite units_at_none; [unfold sellable; lia|]. destruct Ha as [<- <-]. done.
Qed.

(** A level written changes its own shelf only. *)
Lemma units_at_elsewhere w w' l item location : wh_levels w' = <[lv_ID l := l]> (wh_levels w) ->
  (forall l0, wh_levels w !! lv_ID l = Some l0 -> at_shelf (lv_InventoryItemID l) (lv_LocationID l) l0) ->
  ~ at_shelf item location l -> units_at w' item location = units_at w item location.
Proof.
  intros E Hold Hn. unfold units_at. rewrite E. destruct (wh_levels w !! lv_ID l) as [l0|] eqn:El.
  - apply (sum_of_same _ _ _ l0 l El). rewrite !decide_False; [done| |done]. intros [Hi Hlo]. apply Hn.
    destruct (Hold l0 eq_refl). split; congruence.
  - rewrite sum_of_insert by done. rewrite decide_False by done. lia.
Qed.

(** ** The forecast keeps in step with the tables *)

(** The forecast's account of an item is the tables': what every warehouse sells and who still waits. *)
Record agrees (item : string) (claims : list Backorder) (fc : Forecast) (w : Warehouse) : Prop := {
  ag_length : length (fc_filled fc) = length claims;
  ag_units location : quantity_at (fc_available fc) location = units_at w item location;
  ag_open : locked_claims (waiting_of_item item) w (unfilled claims (fc_filled fc))
}.

Lemma agrees_needy item claims fc w : sound w -> agrees item claims fc w -> Forall needy (unfilled claims (fc_filled fc)).
Proof.
  intros Hw [_ _ [Hrows _ _ _]]. apply Forall_forall. intros c Hc. destruct (Hrows c Hc) as [Hk [_ Hs]].
  pose proof (sound_claims _ Hw) as Hb. destruct (fits_owed w c Hb Hk) as [Eo _].
  destruct (Hb _ _ Hk) as (_ & _ & _ & Hlt). specialize (Hlt Hs). unfold needy, need. lia.
Qed.

(** The claims that wait on are those that were not served. *)
Lemma locked_rest item w l ids w' l' claims : claims_bounded w ->
  (exists w0, wh_backorders w0 = wh_backorders w /\ fills w0 l ids w' l') ->
  locked_claims (waiting_of_item item) w claims ->
  locked_claims (waiting_of_item item) w' (filter (fun c => bo_ID c ∉ ids) claims).
Proof.
  intros Hb (w0 & E & Hf) [Hrows Hall Hnd Hsort].
  assert (forall R : relation Z, StronglySorted R (bo_Seq <$> claims) ->
    StronglySorted R (bo_Seq <$> filter (fun c => bo_ID c ∉ ids) claims)) as Hsub.
  { intros R. apply sublist_sorted, fmap_sublist, sublist_filter. }
  split; [| | |by apply Hsub].
  - intros b [Hn Hin]%list_elem_of_filter. destruct (Hrows b Hin) as [Hk Hw]. split; [|done].
    apply (fills_claims _ _ _ _ _ Hf); [by rewrite E|done].
  - intros k b Hk Hw. destruct (fills_claims _ _ _ _ _ Hf k b) as [Hkeep _].
    destruct (Hkeep Hk) as [Hk0 Hn]; [by apply Hw|]. rewrite E in Hk0. apply list_elem_of_filter.
    destruct (Hb k b Hk0) as [-> _]. split; [done|]. by apply (Hall k).
  - eapply sublist_NoDup; [exact Hnd|]. apply fmap_sublist, sublist_filter.
Qed.

Lemma counted_in_bounds w l d : sound w -> counted w l d -> in_bounds l.
Proof.
  intros Hw [l0 t s Hl Hs|l0 Hl Hno Hi Hr Hst]; unfold in_bounds; cbn; [|lia].
  pose proof (lk_bounds _ _ _ (so_levels _ Hw _ _ Hl)). lia.
Qed.

(** What receiving a receipt in full does to a shelf, as the forecast counts it. *)
Lemma forecast_pass item claims fc w r l1 ids l' : sound w -> queue_positions w -> agrees item claims fc w ->
  counted w l1 (sr_Quantity r) -> at_shelf item (sr_LocationID r) l1 -> queued w l1 ids l' ->
  let p := forecast_claims (sr_LocationID r) claims (fc_filled fc)
    (quantity_at (fc_available fc) (sr_LocationID r) +₆₄ sr_Quantity r) in
  p.1 = sellable l' /\ length p.2 = length claims /\
  unfilled claims p.2 = filter (fun c => bo_ID c ∉ ids) (unfilled claims (fc_filled fc)).
Proof.
  intros Hw Hpos Hag Hc Hsh (part & Hpart & Eg). pose proof (agrees_needy _ _ _ _ Hw Hag) as Hneed.
  destruct Hag as [Hlen Hunits Hopen]. pose proof (counted_units _ _ _ _ _ Hw Hc Hsh) as Eu.
  pose proof (counted_in_bounds _ _ _ Hw Hc) as Hb. unfold in_bounds in Hb.
  assert (quantity_at (fc_available fc) (sr_LocationID r) +₆₄ sr_Quantity r = sellable l1) as ->.
  { rewrite add64_exact, Hunits; [done|]. rewrite Hunits, <- Eu. unfold sellable. in64. }
  destruct Hsh as [Ei El]. rewrite Ei, El in Hpart.
  rewrite (locked_part (waiting_of_item item) (fits_at item (sr_LocationID r) (sellable l1)) (fun c => need c <= sellable l1 /\ named_at (sr_LocationID r) c)
    w (unfilled claims (fc_filled fc)) part Hpos) in Eg; [|unfold fits_at, named_at, need; tauto|done|done].
  rewrite <- list_filter_filter, greedy_fitting in Eg; [|done|].
  2:{ rewrite Forall_forall in *. intros c [_ Hc']%list_elem_of_filter. by apply Hneed. }
  destruct (forecast_claims_passed (sr_LocationID r) claims (fc_filled fc) (sellable l1) Hlen Hneed) as [H1 H2 H3];
    [apply Hopen|unfold sellable; lia|]. rewrite Eg in H1, H3. done.
Qed.

Lemma forecast_agrees now item claims fc w w' r : sound w -> sound w' -> queue_positions w ->
  agrees item claims fc w -> sr_InventoryItemID r = item -> wh_receipts w !! sr_ID r = Some r ->
  arrived w (sr_ID r) (sr_Quantity r) w' ->
  agrees item claims (forecast_receipt now claims fc r) w' /\
  (forecast_claims (sr_LocationID r) claims (fc_filled fc)
    (quantity_at (fc_available fc) (sr_LocationID r) +₆₄ sr_Quantity r)).1 = units_at w' item (sr_LocationID r).
Proof.
  intros Hw Hw' Hpos Hag Hi Hr (r0 & l1 & m & ids & l' & Hr0 & _ & Hc & Hsh & _ & _ & _ & _ & Hf & _ & Hq).
  assert (r0 = r) as -> by congruence. rewrite Hi in Hsh.
  destruct (forecast_pass item claims fc w r l1 ids l' Hw Hpos Hag Hc Hsh Hq) as (H1 & H2 & H3).
  destruct (fills_level _ _ _ _ _ Hf) as (Eid & [Ei El] & _ & Hl); [cbn; by rewrite lookup_insert_eq|].
  cbn in Hl. rewrite insert_insert_eq, <- Eid in Hl. destruct Hsh as [Hsi Hsl].
  assert (at_shelf item (sr_LocationID r) l') as Hsh' by (split; congruence).
  assert (units_at w' item (sr_LocationID r) = sellable l') as Eu.
  { apply (units_at_level w' (lv_ID l') l'); [done| |done]. by rewrite Hl, lookup_insert_eq. }
  split; [|by rewrite Eu]. split; cbn [forecast_receipt fc_available fc_filled].
  - done.
  - intros location. unfold quantity_at. destruct (decide (location = sr_LocationID r)) as [->|Hne].
    + by rewrite lookup_insert_eq, Eu.
    + rewrite lookup_insert_ne by done. fold (quantity_at (fc_available fc) location).
      rewrite (ag_units _ _ _ _ Hag). symmetry. apply (units_at_elsewhere w w' l'); [done| |].
      * intros l0. rewrite Eid. destruct Hc as [l2 t s Hl2 _|l2 Hl2 _ _ _ _]; [|congruence]. cbn in *.
        intros E. assert (l0 = l2) as -> by congruence. split; congruence.
      * intros [_ E]. destruct Hsh' as [_ E']. congruence.
  - rewrite H3. apply (locked_rest item w l1 ids w' l'); [by apply sound_claims| |apply Hag]. eexists. split; [|exact Hf]. done.
Qed.

Lemma fills_positions w0 w l ids w' l' : wh_backorders w = wh_backorders w0 -> fills w l ids w' l' ->
  queue_positions w0 -> queue_positions w'.
Proof.
  intros E Hf Hpos. assert (forall k b', wh_backorders w' !! k = Some b' ->
    exists b, wh_backorders w0 !! k = Some b /\ bo_Seq b = bo_Seq b') as Hold.
  { rewrite <- E. clear E Hpos w0. induction Hf as [w l|w l w1 l1 id ids w2 l2 Hs _ IH]; intros k b' Hk; [by exists b'|].
    destruct (IH k b' Hk) as (b & Hb & Es). destruct (fill_step_level _ _ _ _ _ Hs) as (_ & _ & _ & _ & _ & b0 & r & H0 & <- & _ & _ & t & Ec).
    rewrite Ec in Hb. apply lookup_insert_Some in Hb as [[<- <-]|[_ Hb]]; [by exists b0|by exists b]. }
  intros k k' b b' Hb Hb' Es. destruct (Hold _ _ Hb) as (c & Hc & Ec), (Hold _ _ Hb') as (c' & Hc' & Ec').
  apply (Hpos k k' c c'); [done..|congruence].
Qed.

(** The date a warehouse gets when the units of a receipt are in: the first that leaves something where
    nothing was. *)
Definition dated (before : string -> Z) (r : SupplierReceipt) (left_ : Z) (out : gmap string moment) : gmap string moment :=
  if decide (out !! sr_LocationID r = None /\ before (sr_LocationID r) <= 0 /\ 0 < left_)
  then <[sr_LocationID r := sr_ExpectedAt r]> out else out.

Lemma forecast_dates now claims fc r left_ before :
  (forecast_claims (sr_LocationID r) claims (fc_filled fc)
    (quantity_at (fc_available fc) (sr_LocationID r) +₆₄ sr_Quantity r)).1 = left_ ->
  before (sr_LocationID r) = quantity_at now (sr_LocationID r) ->
  fc_out (forecast_receipt now claims fc r) = dated before r left_ (fc_out fc).
Proof.
  intros <- Hb. unfold forecast_receipt, dated. cbn [fc_out]. rewrite Hb.
  destruct (decide (fc_out fc !! sr_LocationID r = None)) as [Hn|Hn].
  - rewrite bool_decide_true by done. cbn [andb]. destruct (Z.leb_spec (quantity_at now (sr_LocationID r)) 0) as [Hz|Hz]; cbn [andb].
    + destruct (Z.ltb_spec 0 (forecast_claims (sr_LocationID r) claims (fc_filled fc)
        (quantity_at (fc_available fc) (sr_LocationID r) +₆₄ sr_Quantity r)).1); [by rewrite decide_True|].
      rewrite decide_False; [done|lia].
    + rewrite decide_False; [done|lia].
  - rewrite bool_decide_false by done. cbn [andb]. by rewrite decide_False by tauto.
Qed.

Section Forecasts.
Context {St : Type} (db : Store St) (view : St -> Warehouse) `{!InventoryLaws db view}.

(** The receipts of an item received one after another, each in full, with the dates they come to. *)
Inductive arrivals (item : string) (before : string -> Z) :
    gmap string moment -> list SupplierReceipt -> St -> gmap string moment -> Prop :=
| ar_none out st : arrivals item before out [] st out
| ar_next out g r rs st st1 got out' : wh_receipts (view st) !! sr_ID r = Some r ->
    sr_Status r = SupplierReceiptExpected -> sr_InventoryItemID r = item ->
    ReceiveSupplierReceipt db g item (sr_ID r) (sr_Quantity r) st = (st1, Ok got) ->
    arrivals item before (dated before r (units_at (view st1) item (sr_LocationID r)) out) rs st1 out' ->
    arrivals item before out (r :: rs) st out'.

Lemma receive_arrives g item r st st1 got : sound (view st) -> sr_Quantity r <= int64_max ->
  wh_receipts (view st) !! sr_ID r = Some r -> sr_Status r = SupplierReceiptExpected ->
  ReceiveSupplierReceipt db g item (sr_ID r) (sr_Quantity r) st = (st1, Ok got) ->
  arrived (view st) (sr_ID r) (sr_Quantity r) (view st1) /\ sound (view st1).
Proof.
  intros Hw Hmax Hr Hs E. destruct (ReceiveSupplierReceipt_yields db view g item (sr_ID r) (sr_Quantity r) st Hw Hmax _ _ E)
    as [(Hst & _ & Hg) [Ev|Ha]].
  - rewrite Ev, Hr in Hg. injection Hg as Eg. rewrite <- Eg, Hs in Hst. by vm_compute in Hst.
  - split; [done|]. eapply moves_sound; [exact Hw|].
    by apply (ReceiveSupplierReceipt_moves db view g item (sr_ID r) (sr_Quantity r) st Hw Hmax _ _ E).
Qed.

Lemma arrivals_forecast item before now claims out rs st out' : arrivals item before out rs st out' ->
  forall fc, sound (view st) -> queue_positions (view st) -> agrees item claims fc (view st) -> fc_out fc = out ->
  (forall location, before location = quantity_at now location) -> Forall (fun r => sr_Quantity r <= int64_max) rs ->
  fc_out (foldl (forecast_receipt now claims) fc rs) = out'.
Proof.
  induction 1 as [out st|out g r rs st st1 got out' Hr Hs Hi E _ IH]; intros fc Hw Hpos Hag Hout Hbefore Hmax; [done|].
  apply Forall_cons in Hmax as [Hm Hmax]. destruct (receive_arrives g item r st st1 got Hw Hm Hr Hs E) as [Ha Hw1].
  destruct (forecast_agrees now item claims fc _ _ r Hw Hw1 Hpos Hag Hi Hr Ha) as [Hag1 Eu].
  cbn [foldl]. apply IH; [done| |done| |done|done].
  - destruct Ha as (r0 & l1 & m & ids & l' & _ & _ & _ & _ & _ & _ & _ & _ & Hf & _). by eapply fills_positions; [|exact Hf|].
  - rewrite <- Hout. by apply forecast_dates.
Qed.
End Forecasts.

(** * The stock for the other modules: [internal/modules/inventory/service/interop.go]

    The surface the checkout, return and cancellation flows call: identifiers for rows, and a flag where
    the units an act puts back were back already. *)

(** [errors.Is(err, models.ErrMovementAlreadyRecorded)]. *)
Definition already_recorded (e : err) : bool := Is e "inventory: that movement is already in the ledger".

(** An error that says the units are back already is the answer [true]. *)
Definition alreadyBack {St A} (m : tx St A) : tx St bool :=
  r ← tx_try m;
  match r with
  | Ok _ => mret false
  | Fail e => if already_recorded e then mret true else tx_of (Fail e)
  end.

Section Interop.
Context {St : Type} (db : Store St).

Definition Interop_Reserve (g : seeds) (inventoryItemID locationID : string) (quantity : Z) (lineItemID : string) :
    tx St string :=
  res ← Reserve db g (mkReserveInput inventoryItemID locationID quantity lineItemID EmptyString EmptyString);
  mret (rs_ID res).

Definition Interop_ReserveForReplacement (g : seeds) (inventoryItemID locationID : string) (quantity : Z)
    (orderLineItemID : string) : tx St string :=
  res ← Reserve db g (mkReserveInput inventoryItemID locationID quantity orderLineItemID EmptyString PurposeReplacement);
  mret (rs_ID res).

Definition Interop_ReleaseReservation (g : seeds) (reservationID : string) : tx St unit :=
  ReleaseReservation db g reservationID.

Definition Interop_Restock (g : seeds) (inventoryItemID locationID : string) (quantity : Z) : tx St unit :=
  ignore (RestockInventory db g inventoryItemID locationID quantity).

Definition Interop_ConfirmReservation (g : seeds) (reservationID orderID : string) : tx St unit :=
  ConfirmReservation db g reservationID orderID.

Definition Interop_ReturnCanceled (g : seeds) (inventoryItemID locationID lineItemID : string) (target : Z)
    (reference : string) : tx St bool :=
  alreadyBack (ReturnCanceledInventory db g inventoryItemID locationID lineItemID target reference).

Definition Interop_RecallReplacement (g : seeds) (reservationID : string) : tx St bool :=
  alreadyBack (RecallReplacementUnits db g reservationID).

Definition Interop_SaleLocations (orderID : string) : tx St (gmap string string) := SaleLocations db orderID.

Definition Interop_AvailableQuantity (inventoryItemID : string) : tx St Z := AvailableQuantity db inventoryItemID.

Definition Interop_LocationsWithStock (inventoryItemID : string) (quantity : Z) : tx St (list string) :=
  LocationsWithStock db inventoryItemID quantity.

Definition Interop_ClaimBackorder (g : seeds) (inventoryItemID orderID orderLineItemID : string) (quantity : Z)
    (locationIDs : list string) : tx St string :=
  claim ← ClaimBackorder db g (mkClaimBackorderInput inventoryItemID orderID orderLineItemID quantity locationIDs);
  mret (bo_ID claim).

Definition Interop_SettleBackorder (g : seeds) (orderLineItemID : string) (bought window : Z) :
    tx St (gmap string Z * gmap string string * option err) :=
  settled ← SettleBackorder db g orderLineItemID bought window;
  mret (se_Undeducted settled.1, se_FilledAt settled.1, settled.2).

Definition Interop_OpenLocations : tx St (list string) := OpenLocationIDs db.

Context (view : St -> Warehouse) `{!InventoryLaws db view}.

(** ** Returned units *)

Lemma yields_alreadyBack {A} (m : tx St A) st (Q : bool -> St -> Prop) : atomic m ->
  yields st m (fun _ st' => Q false st') ->
  (forall e, m st = (st, Fail e) -> already_recorded e = true -> Q true st) -> yields st (alreadyBack m) Q.
Proof.
  intros Ha Hok Hback st' b. unfold alreadyBack, mbind, tx_bind, tx_try. destruct (m st) as [st1 [a|e]] eqn:E; cbn.
  - intros [= <- <-]. by apply (Hok st1 a).
  - assert (st1 = st) as -> by apply (Ha st st1 e E). destruct (already_recorded e) eqn:Er; [|done].
    intros [= <- <-]. by apply (Hback e).
Qed.

(** A cancellation puts back what is missing to its target. *)
Lemma recounted_returned w l1 d item location line reference w' l' : at_shelf item location l1 -> 0 < d ->
  recounted w l1 d MovementCancellation reference line w' l' ->
  returned item line w' = returned item line w + d.
Proof.
  intros [Hi _] Hd [_ _ (ms & ids & Ha & Hdesc & Hf & _) _]. destruct (fills_ledger _ _ _ _ _ Hf) as (sales & Eled & Hsales).
  destruct (accounted_nonzero l1 d ms) as (m & -> & Hm); [lia|done|]. apply Forall_cons in Hdesc as [(Er & _ & _ & El) _].
  unfold returned. rewrite Eled. cbn [append_entries on_movements wh_movements put_level on_levels].
  rewrite log_sum_app_zero.
  - rewrite log_sum_snoc, decide_True; [by rewrite (en_delta _ _ _ Hm)|]. split_and!; [done|done|]. by rewrite (en_item _ _ _ Hm).
  - eapply Forall_impl; [exact Hsales|]. intros x Ex. apply decide_False. intros [E _]. by rewrite Ex in E.
Qed.

Lemma ReturnCanceled_yields g item location line target reference st : sound (view st) -> in_int64 target ->
  returned item line (view st) <= int64_max ->
  yields st (Interop_ReturnCanceled g item location line target reference) (fun back st' =>
    if back : bool then view st' = view st
    else returned item line (view st) < target /\ returned item line (view st') = target).
Proof.
  intros Hw Ht Hr. apply yields_alreadyBack.
  - unfold ReturnCanceledInventory. do 4 apply atomic_guard. apply atomic_atomically.
  - eapply yields_mono; [by apply (ReturnCanceledInventory_yields db view)|].
    intros l' st' (l1 & d & Ha & Hd & Ed & Hrc). specialize (Ed Hr). split; [lia|].
    rewrite (recounted_returned _ _ _ _ _ _ _ _ _ Ha Hd Hrc). lia.
  - done.
Qed.

(** ** What a confirmation names *)

Lemma ConfirmReservation_names g id orderID st : sound (view st) ->
  yields st (Interop_ConfirmReservation g id orderID) (fun _ st' => exists r, wh_reservations (view st) !! id = Some r /\
    (rs_Status r = ReservationActive -> orderID <> EmptyString <-> rs_Purpose r = PurposeSale)).
Proof.
  intros Hw. eapply yields_mono; [by apply (ConfirmReservation_yields db view)|].
  intros _ st' (r & Hr & Hcase). exists r. split; [done|]. intros Hs.
  destruct Hcase as [[Hs' _]|(_ & l & l' & t & t' & m & _ & _ & _ & (Hm & _ & Ereason) & Eref & _)]; [by rewrite Hs in Hs'|].
  pose proof (en_reference _ _ _ Hm) as Hname. rewrite Eref, Ereason in Hname. rewrite Hname. clear Hname Eref Ereason.
  pose proof (rk_purpose _ _ _ (so_reservations _ Hw _ _ Hr)) as Hp. unfold ReservationPurpose_Valid in Hp. apply Contains_spec in Hp.
  rewrite !elem_of_cons in Hp. destruct Hp as [->|[->|Hp]]; [done|done|by apply not_elem_of_nil in Hp].
Qed.
End Interop.
