(* ===== verification/InventoryProps.v ===== *)
(** * The properties of the inventory *)
From S2P Require Import Prelude GoText Errors Tx Identifiers Database InventoryModels InventoryService InventoryMoves InventoryPromises InventoryFill InventoryClaims InventoryMemory InventoryQueue InventoryForecast.
Set Warnings "-level-tolerance,-clear-no-such-hyp".

(** ** What moves leave standing *)

Lemma move_ledger w w' : move w w' -> exists ms, wh_movements w' = wh_movements w ++ ms.
Proof. intros Hm. destruct Hm; cbn; first [by exists []; rewrite app_nil_r|by eexists]. Qed.

(** A promise's terms; only a standing one is settled. *)
Definition same_promise (r r' : Reservation) : Prop :=
  rs_InventoryItemID r' = rs_InventoryItemID r /\ rs_LocationID r' = rs_LocationID r /\
  rs_Quantity r' = rs_Quantity r /\ rs_Purpose r' = rs_Purpose r /\
  (rs_Status r <> ReservationActive -> rs_Status r' = rs_Status r).

Lemma same_promise_trans r1 r2 r3 : same_promise r1 r2 -> same_promise r2 r3 -> same_promise r1 r3.
Proof.
  intros (H1 & H2 & H3 & H4 & H5) (K1 & K2 & K3 & K4 & K5). split_and!; try congruence.
  intros Hs. rewrite K5; [by apply H5|]. by rewrite H5.
Qed.

Lemma settled_promise k (rs : gmap string Reservation) r r0 r' : rs !! k = Some r -> rs !! rs_ID r0 = Some r0 ->
  rs_Status r0 = ReservationActive -> same_promise r0 r' ->
  exists r2, <[rs_ID r0 := r']> rs !! k = Some r2 /\ same_promise r r2.
Proof.
  intros Hk Hr Hs Hp. destruct (decide (k = rs_ID r0)) as [->|Hne].
  - assert (r = r0) as -> by congruence. exists r'. by rewrite lookup_insert_eq.
  - exists r. by rewrite lookup_insert_ne.
Qed.

Lemma new_promise k (rs : gmap string Reservation) r r0 : rs !! k = Some r -> rs !! rs_ID r0 = None ->
  exists r2, <[rs_ID r0 := r0]> rs !! k = Some r2 /\ same_promise r r2.
Proof. intros Hk Hn. exists r. rewrite lookup_insert_ne; [by split|]. intros E. congruence. Qed.

Lemma move_promise w w' k r : move w w' -> wh_reservations w !! k = Some r ->
  exists r', wh_reservations w' !! k = Some r' /\ same_promise r r'.
Proof.
  intros Hm Hk. destruct Hm; cbn; try (by exists r); try (by apply new_promise).
  - by eapply settled_promise.
  - by eapply settled_promise.
Qed.

Lemma moves_promise w w' k r : rtc move w w' -> wh_reservations w !! k = Some r ->
  exists r', wh_reservations w' !! k = Some r' /\ same_promise r r'.
Proof.
  intros Hm. revert r. induction Hm as [w|w w1 w2 Hm _ IH]; intros r Hk; [by exists r|].
  destruct (move_promise _ _ _ _ Hm Hk) as (r1 & Hk1 & H1). destruct (IH _ Hk1) as (r2 & Hk2 & H2).
  exists r2. split; [done|]. by eapply same_promise_trans.
Qed.

Lemma moves_ledger w w' : rtc move w w' -> exists ms, wh_movements w' = wh_movements w ++ ms.
Proof.
  induction 1 as [w|w w1 w2 Hm _ (ms2 & E2)]; [by exists []; rewrite app_nil_r|].
  destruct (move_ledger _ _ Hm) as (ms1 & E1). exists (ms1 ++ ms2). by rewrite E2, E1, app_assoc.
Qed.

Lemma move_closed w w' k l : move w w' -> wh_locations w !! k = Some l -> Closed l = true ->
  exists l', wh_locations w' !! k = Some l' /\ Closed l' = true.
Proof.
  intros Hm Hk Hc. destruct Hm as [l0 Hn Ho|id l0 t Hl Hv| | | | | | | | | | | |]; cbn; try (by exists l).
  - exists l. rewrite lookup_insert_ne; [done|]. intros E. congruence.
  - destruct (decide (k = id)) as [->|Hne]; [rewrite lookup_insert_eq; by exists (closed_location t l0)|].
    exists l. by rewrite lookup_insert_ne.
Qed.

Lemma moves_closed w w' k l : rtc move w w' -> wh_locations w !! k = Some l -> Closed l = true ->
  exists l', wh_locations w' !! k = Some l' /\ Closed l' = true.
Proof.
  intros Hm. revert l. induction Hm as [w|w w1 w2 Hm _ IH]; intros l Hk Hc; [by exists l|].
  destruct (move_closed _ _ _ _ Hm Hk Hc) as (l1 & Hk1 & Hc1). by apply (IH l1).
Qed.

Lemma fills_filled w l ids w' l' id : fills w l ids w' l' -> id ∈ ids ->
  exists b, wh_backorders w' !! id = Some b /\ bo_Status b = BackorderFilled.
Proof.
  intros H. assert (forall w l ids w' l' b, fills w l ids w' l' -> wh_backorders w !! id = Some b -> bo_Status b = BackorderFilled ->
    exists b', wh_backorders w' !! id = Some b' /\ bo_Status b' = BackorderFilled) as Hkeep.
  { clear. intros w l ids w' l' b H. revert b. induction H as [w l|w l w1 l1 id0 ids w2 l2 Hs _ IH]; intros b Hb Hf; [by exists b|].
    destruct (fill_step_level _ _ _ _ _ Hs) as (_ & _ & _ & _ & _ & b0 & r & _ & _ & _ & _ & t & E).
    destruct (decide (id = id0)) as [->|Hne].
    - eapply IH; [by rewrite E, lookup_insert_eq|done].
    - eapply IH; [by rewrite E, lookup_insert_ne|done]. }
  induction H as [w l|w l w1 l1 id0 ids w2 l2 Hs Hf IH]; intros Hin; [by apply not_elem_of_nil in Hin|].
  apply elem_of_cons in Hin as [->|Hin]; [|by apply IH].
  destruct (fill_step_level _ _ _ _ _ Hs) as (_ & _ & _ & _ & _ & b0 & r & _ & _ & _ & _ & t & E).
  eapply Hkeep; [exact Hf|by rewrite E, lookup_insert_eq|done].
Qed.

Lemma unfilled_none claims : unfilled claims (replicate (length claims) false) = claims.
Proof. induction claims as [|c claims IH]; cbn; congruence. Qed.

(** ** The properties *)

(** C5: whatever calls are served, in whatever order and over any store that keeps its laws, the three
    accounts of the stock agree. A level's reserved quantity is what the standing promises at its shelf
    add up to, its physical count what the ledger adds up to, entry by entry, and it never promises more
    than it has; a promise was taken out of the count exactly when it is confirmed; a claim is filled by
    one confirmed promise of its own for what it still owed; a receipt brought in what it says and only
    if it was received; what is closed is empty. *)
Theorem stock_stays_sound {St} (db : Store St) (view : St -> Warehouse) `{!InventoryLaws db view}
    (calls : list (seeds * stock_call)) (st : St) :
  sound (view st) -> Forall (fun c => call_ok c.2) calls -> sound (view (answer_all db calls st)).
Proof. intros Hw Hc. eapply moves_sound; [exact Hw|]. by apply answer_all_moves. Qed.

(** C6: a promise is settled once. No sequence of calls loses a reservation, changes its terms or settles
    again one that was released or confirmed; the ledger only grows; and in it exactly the promised units
    left for the reservation when it was confirmed, nothing otherwise. *)
Theorem promise_settled_once {St} (db : Store St) (view : St -> Warehouse) `{!InventoryLaws db view}
    (calls : list (seeds * stock_call)) (st : St) (id : string) (r : Reservation) :
  sound (view st) -> Forall (fun c => call_ok c.2) calls -> wh_reservations (view st) !! id = Some r ->
  let w' := view (answer_all db calls st) in
  exists r', wh_reservations w' !! id = Some r' /\ same_promise r r' /\
    log_sum (left_for id) (wh_movements w') =
      (if decide (rs_Status r' = ReservationConfirmed) then - rs_Quantity r else 0) /\
    exists ms, wh_movements w' = wh_movements (view st) ++ ms.
Proof.
  intros Hw Hc Hr w'. assert (rtc move (view st) w') as Hm by by apply answer_all_moves.
  destruct (moves_promise _ _ _ _ Hm Hr) as (r' & Hr' & Hp). exists r'. split; [done|]. split; [done|].
  split; [|by apply moves_ledger]. destruct Hp as (_ & _ & <- & _).
  apply (rk_left _ _ _ (so_reservations _ (moves_sound _ _ Hw Hm) _ _ Hr')).
Qed.

(** C25: no claim is left waiting for units that are there. Once no waiting claim could be completed from
    a warehouse that it names, none can after any sequence of calls that change no claim themselves:
    every count that rises, every promise given back and every receipt is offered to the queue before
    the call answers. *)
Theorem no_claim_waits_in_vain {St} (db : Store St) (view : St -> Warehouse) `{!InventoryLaws db view}
    (calls : list (seeds * stock_call)) (st : St) :
  sound (view st) -> none_in_vain (view st) ->
  Forall (fun c => call_ok c.2 /\ keeps_claims c.2 = true) calls -> none_in_vain (view (answer_all db calls st)).
Proof. apply answer_all_none. done. Qed.

(** C28: units go to the claims in the order of the queue, each that what is left completes whole. A claim
    that could be completed at first is passed over for a later one only where it owes more than that
    one and what is left; the claims that are filled are exactly those of the pass, and nothing that
    still waits fits what remains. *)
Theorem fillWaiting_queue {St} (db : Store St) (view : St -> Warehouse) `{!InventoryLaws db view}
    (g : seeds) (level level' : InventoryLevel) (ids : list string) (st st' : St) :
  sound (view st) -> wh_levels (view st) !! lv_ID level = Some level ->
  fillWaiting db depth g level st = (st', Ok (level', ids)) ->
  exists claims,
    locked_claims (fits_at (lv_InventoryItemID level) (lv_LocationID level) (sellable level)) (view st) claims /\
    greedy (sellable level) claims = (ids, sellable level') /\ served (view st') level' /\
    (forall c, c ∈ claims -> bo_ID c ∈ ids <->
      exists b, wh_backorders (view st') !! bo_ID c = Some b /\ bo_Status b = BackorderFilled) /\
    (forall before c between c' after, claims = before ++ c :: between ++ c' :: after ->
      bo_ID c ∉ ids -> bo_ID c' ∈ ids -> need c' + sellable level' < need c).
Proof.
  intros Hw Hl E. pose proof (sound_claims _ Hw) as Hb.
  destruct (fill_yields db view (writeQuantities db 1) g level st Hl (locked_bounds view level st Hw Hl) Hb _ _ E)
    as (Hf & Hs & claims & Hc & Eg). cbn [fst snd] in *. exists claims. split; [done|]. split; [done|]. split; [done|].
  pose proof Hc as [Hrows _ Hnd _]. split.
  - intros c Hin. split; [by eapply fills_filled|]. intros (b & Hk & Hfilled).
    destruct (decide (bo_ID c ∈ ids)) as [Hi|Hi]; [done|]. destruct (Hrows c Hin) as [Hk0 ([_ Hst] & _)].
    apply (fills_claims _ _ _ _ _ Hf (bo_ID c) c) in Hk0; [|done]. rewrite Hk in Hk0. injection Hk0 as ->.
    rewrite Hfilled in Hst. by vm_compute in Hst.
  - intros before c between c' after -> Hn Hin.
    assert (ids = (greedy (sellable level) (before ++ c :: between ++ c' :: after)).1 /\
      sellable level' = (greedy (sellable level) (before ++ c :: between ++ c' :: after)).2) as [Ei El] by by rewrite Eg.
    rewrite El. rewrite Ei in Hn, Hin. apply greedy_order; try done. apply Forall_forall. intros x Hx.
    destruct (Hrows x Hx) as [Hk ([_ Hst] & _)]. destruct (Hb _ _ Hk) as (_ & _ & _ & Hlt). specialize (Hlt Hst). lia.
Qed.

(** C26: the forecast comes true. If the expected receipts of an item are received in the order they are
    expected, each with the quantity expected and nothing else happening, the dates of the forecast are
    those at which each warehouse that had nothing to sell first has something left, after the claims
    that wait were served. *)
Theorem restockDates_comes_true {St} (db : Store St) (view : St -> Warehouse) `{!InventoryLaws db view}
    (item : string) (now : gmap string Z) (claims : list Backorder) (receipts : list SupplierReceipt)
    (st : St) (out : gmap string moment) :
  sound (view st) -> queue_positions (view st) ->
  (forall location, quantity_at now location = units_at (view st) item location) ->
  (forall c, c ∈ claims <-> wh_backorders (view st) !! bo_ID c = Some c /\ waiting_of_item item c) ->
  NoDup (bo_ID <$> claims) -> Forall (fun r => sr_Quantity r <= int64_max) receipts ->
  arrivals db view item (units_at (view st) item) ∅ (SortFunc by_expected receipts) st out ->
  restockDates now claims receipts = out.
Proof.
  intros Hw Hpos Hnow Hclaims Hnd Hmax Harr. unfold restockDates.
  eapply (arrivals_forecast db view); [exact Harr|done|done| |done|by intros location|].
  - split; cbn [fc_filled fc_available]; [apply length_replicate|done|].
    rewrite unfilled_none.
    split.
    + intros b. rewrite SortFunc_elem. apply Hclaims.
    + intros k b Hk Hb. apply SortFunc_elem. apply Hclaims. by destruct (sound_claims _ Hw k b Hk) as [-> _].
    + by rewrite (SortFunc_perm by_seq).
    + apply (StronglySorted_fmap bo_Seq (cmp_le by_seq)); [|apply (SortFunc_sorted by_seq)].
      intros a b. unfold cmp_le, by_seq, cmp_on, cmpZ. destruct (Z.compare_spec (bo_Seq a) (bo_Seq b)); lia.
  - rewrite Forall_forall in *. intros r Hr. apply Hmax. by apply SortFunc_elem in Hr.
Qed.

(** The units a line's cancellations put back are brought up to a target, whatever was put back
    before. When the call answers that it wrote, the line's total was below the target and is the target
    now; when it answers that the units are back already nothing changed; and a target that is met already
    changes nothing. *)
Theorem ReturnCanceled_target {St} (db : Store St) (view : St -> Warehouse) `{!InventoryLaws db view}
    (g : seeds) (item location line reference : string) (target : Z) (st st' : St) (back : bool) :
  sound (view st) -> in_int64 target -> returned item line (view st) <= int64_max ->
  Interop_ReturnCanceled db g item location line target reference st = (st', Ok back) ->
  (back = false -> returned item line (view st) < target /\ returned item line (view st') = target) /\
  (back = true -> view st' = view st) /\
  (target <= returned item line (view st) -> view st' = view st).
Proof.
  intros Hw Ht Hr E. pose proof (ReturnCanceled_yields db view g item location line target reference st Hw Ht Hr _ _ E) as H.
  destruct back; (split; [|split]); try done. intros Hle. destruct H. lia.
Qed.

(** A reservation takes what is there and no more. When it is made, the shelf had that much that was
    not promised; afterwards the level promises so much more and still counts the same, the promise
    stands for exactly the quantity asked, and nothing else changed. When the shelf has less, the call is
    refused; and a refusal changes nothing. *)
Theorem Reserve_exact {St} (db : Store St) (view : St -> Warehouse) `{!InventoryLaws db view}
    (g : seeds) (in_ : ReserveInput) (st st' : St) (out : result Reservation) :
  sound (view st) -> Reserve db g in_ st = (st', out) ->
  match out with
  | Ok r => exists l t, wh_levels (view st) !! lv_ID l = Some l /\
      at_shelf (ri_InventoryItemID in_) (ri_LocationID in_) l /\ 0 < ri_Quantity in_ <= sellable l /\
      wh_reservations (view st) !! rs_ID r = None /\ promised_at l r /\ rs_Status r = ReservationActive /\
      rs_Quantity r = ri_Quantity in_ /\
      view st' = on_reservations <[rs_ID r := r]>
        (put_level (with_quantities (lv_StockedQuantity l) (lv_ReservedQuantity l + rs_Quantity r) t l) (view st)) /\
      (forall l0, db_LockInventoryLevel db (ri_InventoryItemID in_) (ri_LocationID in_) st = Ok l0 -> l0 = l)
  | Fail _ => st' = st
  end.
Proof.
  intros Hw E. destruct out as [r|e].
  - destruct (Reserve_yields db view g in_ st Hw _ _ E) as (l & t & Hl & Ha & Hn & _ & Hp & Hs & _ & Hq & Hle & Hv).
    exists l, t. do 3 (split; [done|]). split_and!; try done. intros l0 [Hl0 Ha0]%(law_lock_level (view := view)).
    assert (lv_ID l = lv_ID l0) as Ek; [|congruence]. apply (so_shelves _ Hw _ _ l l0 Hl Hl0).
    destruct Ha as [-> ->]. done.
  - by apply (answer_atomic db view g (CallReserve in_) st st' e); cbn; unfold ignore, mbind, tx_bind; rewrite E.
Qed.

(** A closed warehouse is empty and stays so. A warehouse closes only when no unit is counted there, no
    promise stands there and no receipt is expected there; and no sequence of calls opens it again or
    brings anything to it. *)
Theorem closed_location_stays_empty {St} (db : Store St) (view : St -> Warehouse) `{!InventoryLaws db view}
    (calls : list (seeds * stock_call)) (id : string) (st st' : St) (l : StockLocation) :
  sound (view st) -> CloseStockLocation db id st = (st', Ok l) -> Forall (fun c => call_ok c.2) calls ->
  vacant (view st) id /\
  exists l', wh_locations (view (answer_all db calls st')) !! id = Some l' /\ Closed l' = true /\
    vacant (view (answer_all db calls st')) id.
Proof.
  intros Hw E Hc. destruct (CloseStockLocation_yields db view id st Hw _ _ E) as (Hm & (l1 & Hl1 & Hcl) & Hv).
  split; [done|]. assert (sound (view st')) as Hw' by (eapply moves_sound; [exact Hw|apply Hm]).
  assert (rtc move (view st') (view (answer_all db calls st'))) as Hm' by by apply answer_all_moves.
  destruct (moves_closed _ _ _ _ Hm' Hl1 Hcl) as (l' & Hl' & Hcl'). exists l'. split; [done|]. split; [done|].
  by apply (so_closed _ (moves_sound _ _ Hw' Hm') id l').
Qed.

(** A write that fills and a fill that writes come to an end: two writes deep is as deep as it goes.
    Allowing any number more changes neither the answer nor the tables. *)
Theorem writes_nest_twice {St} (db : Store St) (view : St -> Warehouse) `{!InventoryLaws db view}
    (more : nat) (g : seeds) (level : InventoryLevel) (stocked reserved : Z) (reason : MovementReason)
    (reservation reference line : string) (st : St) :
  sound (view st) -> wh_levels (view st) !! lv_ID level = Some level -> 0 <= reserved <= stocked ->
  stocked <= int64_max ->
  writeQuantities db (depth + more) g level stocked reserved reason reservation reference line st =
  writeQuantities db depth g level stocked reserved reason reservation reference line st.
Proof.
  intros Hw Hl Hq Hs. change (depth + more)%nat with (S (S more)). cbn [writeQuantities depth].
  apply (write_same db view); try done. by apply sound_claims.
Qed.

(** ** A sample depot, for the witnesses *)

Module Depot.

(** The identifiers of the [n]-th call: its number and where in the call they are drawn. *)
Definition ids (n : nat) : seeds := fun path =>
  mkSeed 1700000000000000000 (Some (take 10 (Z.of_nat n :: Z.of_nat (length path) :: (Z.of_nat <$> path) ++ replicate 10 0))).

Definition main_id : string := Eval vm_compute in NewStockLocationID (ids 1 []).
Definition side_id : string := Eval vm_compute in NewStockLocationID (ids 2 []).
Definition item_id : string := Eval vm_compute in NewInventoryItemID (ids 3 []).
Definition hold_id : string := Eval vm_compute in NewReservationID (ids 5 []).

Definition location_named (name : string) : CreateStockLocationInput :=
  let e := EmptyString in mkCreateStockLocationInput name e e e e e "tr".

Definition hold (q : Z) : ReserveInput := mkReserveInput item_id main_id q "line_1" EmptyString EmptyString.

Definition claim (order line : string) (q : Z) : ClaimBackorderInput :=
  mkClaimBackorderInput item_id order line q [main_id].

Definition delivery (q : Z) (at_ : moment) : RecordSupplierReceiptInput :=
  mkRecordSupplierReceiptInput item_id main_id q at_ "po_7".

(** Five units, three of them promised; two orders wait for four and three, and three and six are on their
    way. *)
Definition calls : list (seeds * stock_call) :=
  [(ids 1, CallCreateStockLocation (location_named "Main"));
   (ids 2, CallCreateStockLocation (location_named "Side"));
   (ids 3, CallCreateInventoryItem (mkCreateInventoryItemInput "MUG" "Mug" EmptyString None));
   (ids 4, CallSetInventoryLevel item_id main_id 5);
   (ids 5, CallReserve (hold 3));
   (ids 6, CallReserve (hold 2));
   (ids 7, CallClaimBackorder (claim "order_1" "ol_1" 4));
   (ids 8, CallClaimBackorder (claim "order_2" "ol_2" 3));
   (ids 9, CallRecordSupplierReceipt (delivery 3 50));
   (ids 10, CallRecordSupplierReceipt (delivery 6 90))].

Definition depot : Tables := Eval vm_compute in answer_all stock_tables calls no_tables.

Lemma empty_sound : sound (tb_rows no_tables).
Proof. split; cbn; intros; try done; [constructor|by apply not_elem_of_nil in H]. Qed.

Lemma calls_ok : Forall (fun c => call_ok c.2) calls.
Proof. repeat constructor; unfold in_int64; vm_compute; intros [=]. Qed.

Lemma depot_sound : sound (tb_rows depot).
Proof.
  assert (depot = answer_all stock_tables calls no_tables) as -> by (vm_compute; reflexivity).
  eapply moves_sound; [apply empty_sound|]. apply (answer_all_moves stock_tables tb_rows); [apply empty_sound|apply calls_ok].
Qed.
End Depot.

Lemma stock_stays_sound_witness :
  sound (tb_rows (answer_all stock_tables Depot.calls no_tables)) /\
  answer_all stock_tables Depot.calls no_tables = Depot.depot.
Proof.
  split; [|vm_compute; reflexivity].
  apply (stock_stays_sound stock_tables tb_rows); [apply Depot.empty_sound|apply Depot.calls_ok].
Defined.

Module Settled.
(** The promise is kept, then kept again, then given back, to no effect. *)
Definition calls : list (seeds * stock_call) :=
  [(Depot.ids 11, CallConfirmReservation Depot.hold_id "order_0");
   (Depot.ids 12, CallConfirmReservation Depot.hold_id "order_0");
   (Depot.ids 13, CallReleaseReservation Depot.hold_id)].

Definition no_hold : Reservation :=
  let e := EmptyString in mkReservation e e e 0 e e e e 0 0.

Definition held : Reservation :=
  Eval vm_compute in default no_hold (wh_reservations (tb_rows Depot.depot) !! Depot.hold_id).
End Settled.

Lemma promise_settled_once_witness : exists r',
  wh_reservations (tb_rows (answer_all stock_tables Settled.calls Depot.depot)) !! Depot.hold_id = Some r' /\
  rs_Status r' = ReservationConfirmed /\
  log_sum (left_for Depot.hold_id) (wh_movements (tb_rows (answer_all stock_tables Settled.calls Depot.depot))) = -3.
Proof.
  destruct (promise_settled_once stock_tables tb_rows Settled.calls Depot.depot Depot.hold_id Settled.held)
    as (r' & Hr & Hp & Hl & _); [apply Depot.depot_sound|repeat constructor|vm_compute; reflexivity|].
  exists r'. split; [exact Hr|].
  assert (rs_Status r' = ReservationConfirmed) as Hs.
  { assert (rs_Status <$> wh_reservations (tb_rows (answer_all stock_tables Settled.calls Depot.depot)) !! Depot.hold_id
      = Some ReservationConfirmed) as E by (vm_compute; reflexivity). rewrite Hr in E. by injection E. }
  split; [exact Hs|]. rewrite Hl, decide_True by exact Hs. reflexivity.
Defined.

Module Busy.
(** The promise is given back, which fills the second order's claim; then units are put back. *)
Definition calls : list (seeds * stock_call) :=
  [(Depot.ids 11, CallReleaseReservation Depot.hold_id);
   (Depot.ids 12, CallRestockInventory Depot.item_id Depot.main_id 1)].

Lemma nothing_sellable : map_Forall (fun _ l => sellable l <= 0) (wh_levels (tb_rows Depot.depot)).
Proof. apply (bool_decide_unpack _). vm_compute. exact I. Qed.

Lemma none_waits_in_vain : none_in_vain (tb_rows Depot.depot).
Proof.
  intros k l Hk. apply served_empty; [apply sound_claims, Depot.depot_sound|]. by apply (nothing_sellable k).
Qed.

Lemma busy_calls_ok : Forall (fun c => call_ok c.2 /\ keeps_claims c.2 = true) calls.
Proof. repeat constructor; unfold in_int64; vm_compute; intros [=]. Qed.
End Busy.

Lemma no_claim_waits_in_vain_witness :
  none_in_vain (tb_rows (answer_all stock_tables Busy.calls Depot.depot)) /\
  count (fun b => bo_Status b = BackorderFilled)
    (wh_backorders (tb_rows (answer_all stock_tables Busy.calls Depot.depot))) = 1.
Proof.
  split; [|vm_compute; reflexivity].
  apply (no_claim_waits_in_vain stock_tables tb_rows);
    [apply Depot.depot_sound|apply Busy.none_waits_in_vain|apply Busy.busy_calls_ok].
Defined.

Module Queue.
(** Five units on hand, and orders that wait for three, four and two. *)
Definition calls : list (seeds * stock_call) :=
  take 4 Depot.calls ++
  [(Depot.ids 21, CallClaimBackorder (Depot.claim "order_1" "ol_1" 3));
   (Depot.ids 22, CallClaimBackorder (Depot.claim "order_2" "ol_2" 4));
   (Depot.ids 23, CallClaimBackorder (Depot.claim "order_3" "ol_3" 2))].

Definition depot : Tables := Eval vm_compute in answer_all stock_tables calls no_tables.

Lemma queue_calls_ok : Forall (fun c => call_ok c.2) calls.
Proof. repeat constructor; unfold in_int64; vm_compute; intros [=]. Qed.

Lemma queue_sound : sound (tb_rows depot).
Proof.
  assert (depot = answer_all stock_tables calls no_tables) as -> by (vm_compute; reflexivity).
  eapply moves_sound; [apply Depot.empty_sound|].
  apply (answer_all_moves stock_tables tb_rows); [apply Depot.empty_sound|apply queue_calls_ok].
Qed.

Definition no_level : InventoryLevel := let e := EmptyString in mkInventoryLevel e e e 0 0 0 0.

Definition level : InventoryLevel := Eval vm_compute in default no_level (head (rows (wh_levels (tb_rows depot)))).
End Queue.

Lemma fillWaiting_queue_witness : exists st' level' ids claims,
  fillWaiting stock_tables depth (Depot.ids 30) Queue.level Queue.depot = (st', Ok (level', ids)) /\
  length ids = 2%nat /\ sellable level' = 0 /\ greedy (sellable Queue.level) claims = (ids, sellable level') /\
  served (tb_rows st') level'.
Proof.
  destruct (run_ok (fillWaiting stock_tables depth (Depot.ids 30) Queue.level) Queue.depot)
    as (st' & [level' ids] & E); [vm_compute; reflexivity|].
  destruct (fillWaiting_queue stock_tables tb_rows (Depot.ids 30) Queue.level level' ids Queue.depot st')
    as (claims & _ & Hg & Hs & _); [apply Queue.queue_sound|vm_compute; reflexivity|exact E|].
  exists st', level', ids, claims. split; [exact E|].
  assert ((fun out => (length out.2, sellable out.1)) <$> (fillWaiting stock_tables depth (Depot.ids 30) Queue.level Queue.depot).2
    = Ok (2%nat, 0)) as Ev by (vm_compute; reflexivity).
  rewrite E in Ev. cbn [snd] in Ev. injection Ev as El Es. split; [exact El|]. split; [exact Es|]. split; [exact Hg|exact Hs].
Defined.

Module Coming.
(** The depot's claims and receipts as they are read. *)
Definition claims : list Backorder :=
  Eval vm_compute in filter (waiting_of_item Depot.item_id) (rows (wh_backorders (tb_rows Depot.depot))).

Definition receipts : list SupplierReceipt := Eval vm_compute in rows (wh_receipts (tb_rows Depot.depot)).

Lemma claims_read c : c ∈ claims <->
  wh_backorders (tb_rows Depot.depot) !! bo_ID c = Some c /\ waiting_of_item Depot.item_id c.
Proof.
  assert (claims = filter (waiting_of_item Depot.item_id) (rows (wh_backorders (tb_rows Depot.depot)))) as ->
    by (vm_compute; reflexivity).
  rewrite list_elem_of_filter, elem_of_rows. split.
  - intros [Hw [k Hk]]. split; [|exact Hw].
    destruct (sound_claims _ Depot.depot_sound k c Hk) as [E _]. rewrite E. exact Hk.
  - intros [Hk Hw]. split; [exact Hw|]. exists (bo_ID c). exact Hk.
Qed.

Lemma positions : queue_positions (tb_rows Depot.depot).
Proof.
  assert (map_Forall (fun k b => map_Forall (fun k' b' => bo_Seq b = bo_Seq b' -> k = k')
    (wh_backorders (tb_rows Depot.depot))) (wh_backorders (tb_rows Depot.depot))) as H
    by (apply (bool_decide_unpack _); vm_compute; exact I).
  intros k k' b b' Hb Hb'. exact (H k b Hb k' b' Hb').
Qed.

Lemma nothing_now location : quantity_at ∅ location = units_at (tb_rows Depot.depot) Depot.item_id location.
Proof.
  symmetry. apply sum_of_zero. intros k l Hk. destruct (decide _); [|reflexivity].
  pose proof (Busy.nothing_sellable k l Hk) as Hle. cbn in Hle.
  pose proof (lk_bounds _ _ _ (so_levels _ Depot.depot_sound k l Hk)). unfold sellable in *. lia.
Qed.

(** The three units that come first go to an order that waits; of the six that follow two are left. *)
Lemma received : arrivals stock_tables tb_rows Depot.item_id (units_at (tb_rows Depot.depot) Depot.item_id) ∅
  (SortFunc by_expected receipts) Depot.depot {[ Depot.main_id := 90 ]}.
Proof.
  replace (SortFunc by_expected receipts) with (rev receipts) by (vm_compute; reflexivity).
  eapply (ar_next _ _ _ _ _ (Depot.ids 40)); [vm_compute; reflexivity..|].
  eapply (ar_next _ _ _ _ _ (Depot.ids 41)); [vm_compute; reflexivity..|].
  match goal with |- arrivals _ _ _ _ ?out _ _ _ =>
    replace out with ({[ Depot.main_id := 90 ]} : gmap string moment) by (vm_compute; reflexivity) end.
  constructor.
Qed.

Lemma distinct : NoDup (bo_ID <$> claims).
Proof. apply (bool_decide_unpack _). vm_compute. exact I. Qed.

Lemma receipts_ok : Forall (fun r => sr_Quantity r <= int64_max) receipts.
Proof. apply (bool_decide_unpack _). vm_compute. exact I. Qed.
End Coming.

Lemma restockDates_comes_true_witness :
  restockDates ∅ Coming.claims Coming.receipts = {[ Depot.main_id := 90 ]} /\ length Coming.claims = 2%nat.
Proof.
  split; [|reflexivity].
  apply (restockDates_comes_true stock_tables tb_rows Depot.item_id ∅ Coming.claims Coming.receipts Depot.depot);
    [apply Depot.depot_sound|apply Coming.positions|apply Coming.nothing_now|apply Coming.claims_read
    |apply Coming.distinct|apply Coming.receipts_ok|apply Coming.received].
Defined.

Lemma ReturnCanceled_target_witness : exists st',
  Interop_ReturnCanceled stock_tables (Depot.ids 50) Depot.item_id Depot.main_id "ol_9" 2 "order_9" Depot.depot
    = (st', Ok false) /\
  returned Depot.item_id "ol_9" (tb_rows st') = 2 /\ returned Depot.item_id "ol_9" (tb_rows Depot.depot) < 2.
Proof.
  assert (exists st', Interop_ReturnCanceled stock_tables (Depot.ids 50) Depot.item_id Depot.main_id "ol_9" 2 "order_9"
    Depot.depot = (st', Ok false)) as [st' E] by (eexists; vm_compute; reflexivity).
  destruct (ReturnCanceled_target stock_tables tb_rows (Depot.ids 50) Depot.item_id Depot.main_id "ol_9" "order_9" 2
    Depot.depot st' false) as (Hw & _); [apply Depot.depot_sound|in64|vm_compute; intros [=]|exact E|].
  exists st'. split; [exact E|]. destruct (Hw eq_refl) as [Hlt Heq]. split; [exact Heq|exact Hlt].
Defined.

Lemma Reserve_exact_witness : exists st' r l,
  Reserve stock_tables (Depot.ids 51) (Depot.hold 4) Queue.depot = (st', Ok r) /\ rs_Quantity r = 4 /\
  at_shelf Depot.item_id Depot.main_id l /\ 4 <= sellable l.
Proof.
  destruct (run_ok (Reserve stock_tables (Depot.ids 51) (Depot.hold 4)) Queue.depot) as (st' & r & E);
    [vm_compute; reflexivity|].
  destruct (Reserve_exact stock_tables tb_rows (Depot.ids 51) (Depot.hold 4) Queue.depot st' (Ok r) Queue.queue_sound E)
    as (l & t & _ & Ha & [_ Hle] & _ & _ & _ & Hq & _).
  exists st', r, l. split; [exact E|]. split; [exact Hq|]. split; [exact Ha|exact Hle].
Defined.

Module Shut.
Definition calls : list (seeds * stock_call) :=
  [(Depot.ids 60, CallSetInventoryLevel Depot.item_id Depot.side_id 4);
   (Depot.ids 61, CallRecordSupplierReceipt (mkRecordSupplierReceiptInput Depot.item_id Depot.side_id 4 70 "po_8"))].

Lemma shut_calls_ok : Forall (fun c => call_ok c.2) calls.
Proof. repeat constructor; unfold in_int64; vm_compute; intros [=]. Qed.
End Shut.

Lemma closed_location_stays_empty_witness : exists st' l l',
  CloseStockLocation stock_tables Depot.side_id Depot.depot = (st', Ok l) /\
  wh_locations (tb_rows (answer_all stock_tables Shut.calls st')) !! Depot.side_id = Some l' /\ Closed l' = true.
Proof.
  destruct (run_ok (CloseStockLocation stock_tables Depot.side_id) Depot.depot) as (st' & l & E); [vm_compute; reflexivity|].
  destruct (closed_location_stays_empty stock_tables tb_rows Shut.calls Depot.side_id Depot.depot st' l
    Depot.depot_sound E Shut.shut_calls_ok) as (_ & l' & Hl & Hc & _).
  exists st', l, l'. split; [exact E|]. split; [exact Hl|exact Hc].
Defined.

Lemma writes_nest_twice_witness :
  writeQuantities stock_tables 5 (Depot.ids 70) Queue.level 12 0 MovementStockCount EmptyString EmptyString EmptyString
    Queue.depot =
  writeQuantities stock_tables 2 (Depot.ids 70) Queue.level 12 0 MovementStockCount EmptyString EmptyString EmptyString
    Queue.depot.
Proof.
  apply (writes_nest_twice stock_tables tb_rows 3); [apply Queue.queue_sound|vm_compute; reflexivity|lia|vm_compute; intros [=]].
Defined.
