(* ===== verification/PaymentModels.v ===== *)
(** * Payment data and state machine

    [internal/modules/payment/models/*.go], the session types of [core/provider/payment.go] and the
    input checks of [internal/modules/payment/service/validate.go]. The Go types of statuses and kinds
    are strings, and the code answers for the strings it does not know. *)
From S2P Require Import Prelude GoText Errors Identifiers.
Set Warnings "-level-tolerance,-register-all".

(** ** The state machine: [models/status.go] *)

Abbreviation SessionStatus := string (only parsing).
Definition SessionPending : SessionStatus := "pending".
Definition SessionAuthorized : SessionStatus := "authorized".
Definition SessionCaptured : SessionStatus := "captured".
Definition SessionCanceled : SessionStatus := "canceled".
Definition SessionFailed : SessionStatus := "failed".

Definition SessionStatus_Terminal (s : SessionStatus) : bool :=
  bool_decide (s = SessionCanceled) || bool_decide (s = SessionFailed).

Definition SessionStatus_Valid (s : SessionStatus) : bool :=
  Contains [SessionPending; SessionAuthorized; SessionCaptured; SessionCanceled; SessionFailed] s.

Inductive SessionAction := ActionConflict | ActionProceed | ActionNoop.

#[export] Instance SessionAction_eq_dec : EqDecision SessionAction.
Proof. solve_decision. Defined.

Definition AuthorizeAction (s : SessionStatus) : SessionAction :=
  if bool_decide (s = SessionPending) then ActionProceed
  else if bool_decide (s = SessionAuthorized) then ActionNoop
  else ActionConflict.

Definition CaptureAction (s : SessionStatus) : SessionAction :=
  if bool_decide (s = SessionAuthorized) then ActionProceed
  else if bool_decide (s = SessionCaptured) then ActionNoop
  else ActionConflict.

Definition CancelAction (s : SessionStatus) : SessionAction :=
  if Contains [SessionPending; SessionAuthorized; SessionFailed] s then ActionProceed
  else if bool_decide (s = SessionCanceled) then ActionNoop
  else ActionConflict.

Abbreviation CollectionStatus := string (only parsing).
Definition CollectionNotPaid : CollectionStatus := "not_paid".
Definition CollectionAwaiting : CollectionStatus := "awaiting".
Definition CollectionAuthorized : CollectionStatus := "authorized".
Definition CollectionPartiallyCaptured : CollectionStatus := "partially_captured".
Definition CollectionCaptured : CollectionStatus := "captured".
Definition CollectionPartiallyRefunded : CollectionStatus := "partially_refunded".
Definition CollectionRefunded : CollectionStatus := "refunded".
Definition CollectionCanceled : CollectionStatus := "canceled".

(** The order of [collectionStatusNames]. *)
Definition collectionStatusNames : list string :=
  [CollectionNotPaid; CollectionAwaiting; CollectionAuthorized; CollectionPartiallyCaptured;
    CollectionCaptured; CollectionPartiallyRefunded; CollectionRefunded; CollectionCanceled].

Definition CollectionStatus_Valid (c : CollectionStatus) : bool := Contains collectionStatusNames c.

(** ** Records *)

(** A decoded JSON value: a number is its literal, an object its members with their keys in order. *)
Inductive json :=
| JNull
| JBool (b : bool)
| JNumber (literal : string)
| JString (s : string)
| JArray (l : list json)
| JObject (l : list (string * json)).

(** A [json.RawMessage] or a JSONB column: [None] where the code sees no value. [toJSONRaw] reads
    [null] and an empty object as no value. *)
Definition raw := option json.

Definition toJSONRaw (d : raw) : raw :=
  match d with
  | None | Some JNull | Some (JObject []) => None
  | Some v => Some v
  end.

(** [map[string]any] of data decoded from JSON; a nil map encodes as [null]. *)
Definition Data := option (gmap string json).

Definition keys_in_order (l : list (string * json)) : list (string * json) := SortFunc (cmp_on fst cmpS) l.

(** [json.Marshal] of a map writes its keys in order. *)
Definition marshal_data (d : Data) : raw :=
  match d with None => Some JNull | Some m => Some (JObject (keys_in_order (map_to_list m))) end.

Definition MinAmount : Z := 1.
Definition MaxAmount : Z := 1000000000000.

Record PaymentCollection := mkPaymentCollection {
  pc_ID : string;
  pc_Reference : string;
  pc_Amount : Z;
  pc_CurrencyCode : string;
  pc_CustomerID : string;
  pc_Status : CollectionStatus;
  pc_AuthorizedAmount : Z;
  pc_CapturedAmount : Z;
  pc_RefundedAmount : Z;
  pc_Metadata : Data;
  pc_CreatedAt : moment;
  pc_UpdatedAt : moment
}.

Record PaymentSession := mkPaymentSession {
  ps_ID : string;
  ps_PaymentCollectionID : string;
  ps_ProviderID : string;
  ps_ExternalID : string;
  ps_Status : SessionStatus;
  ps_Amount : Z;
  ps_AuthorizedAmount : Z;
  ps_CurrencyCode : string;
  ps_Data : raw;
  ps_IdempotencyKey : string;
  ps_DeclineReason : string;
  ps_CreatedAt : moment;
  ps_UpdatedAt : moment
}.

Record Payment := mkPayment {
  py_ID : string;
  py_PaymentSessionID : string;
  py_PaymentCollectionID : string;
  py_Amount : Z;
  py_CurrencyCode : string;
  py_RefundedAmount : Z;
  py_CapturedAt : moment;
  py_CreatedAt : moment;
  py_UpdatedAt : moment
}.

Definition Payment_RefundableAmount (p : Payment) : Z :=
  if py_Amount p <=? py_RefundedAmount p then 0 else sub64 (py_Amount p) (py_RefundedAmount p).

Record Refund := mkRefund {
  rf_ID : string;
  rf_PaymentID : string;
  rf_Amount : Z;
  rf_Reason : string;
  rf_Reference : string;
  rf_CreatedAt : moment;
  rf_UpdatedAt : moment
}.

Record SessionCounts := mkSessionCounts { sn_Live : Z; sn_Canceled : Z; sn_Failed : Z; sn_Total : Z }.

Definition CollectionStatusFor (c : PaymentCollection) (counts : SessionCounts) : CollectionStatus :=
  if 0 <? pc_CapturedAmount c then
    if pc_CapturedAmount c <=? pc_RefundedAmount c then CollectionRefunded
    else if 0 <? pc_RefundedAmount c then CollectionPartiallyRefunded
    else if pc_Amount c <=? pc_CapturedAmount c then CollectionCaptured
    else CollectionPartiallyCaptured
  else if (0 <? pc_AuthorizedAmount c) && (pc_Amount c <=? pc_AuthorizedAmount c) then CollectionAuthorized
  else if 0 <? sn_Live counts then CollectionAwaiting
  else if 0 <? sn_Canceled counts then CollectionCanceled
  else CollectionNotPaid.

Record ManualSession := mkManualSession {
  ms_ID : string;
  ms_IdempotencyKey : string;
  ms_Reference : string;
  ms_Amount : Z;
  ms_CurrencyCode : string;
  ms_Status : SessionStatus;
  ms_AuthorizedAmount : Z;
  ms_CapturedAmount : Z;
  ms_RefundedAmount : Z;
  ms_Data : raw;
  ms_DeclineReason : string;
  ms_CreatedAt : moment;
  ms_UpdatedAt : moment
}.

Definition ManualSession_RefundableAmount (m : ManualSession) : Z :=
  if ms_CapturedAmount m <=? ms_RefundedAmount m then 0
  else sub64 (ms_CapturedAmount m) (ms_RefundedAmount m).

(** *** The balances: [models/tender.go], [models/storecredit.go], [models/loyalty.go] *)

Definition LoyaltyTenderID : string := "loyalty_points".
Definition StoreCreditTenderID : string := "store_credit".
Definition GiftCardTenderID : string := "gift_card".

Record TenderSession := mkTenderSession {
  ts_ID : string;
  ts_IdempotencyKey : string;
  ts_Reference : string;
  ts_OwnerID : string;
  ts_Amount : Z;
  ts_CurrencyCode : string;
  ts_Status : SessionStatus;
  ts_Partial : bool;
  ts_AuthorizedAmount : Z;
  ts_CapturedAmount : Z;
  ts_RefundedAmount : Z;
  ts_DeclineReason : string;
  ts_CreatedAt : moment;
  ts_UpdatedAt : moment
}.

Abbreviation EntryKind := string (only parsing).
Definition KindIssue : EntryKind := "issue".
Definition KindHold : EntryKind := "hold".
Definition KindRelease : EntryKind := "release".
Definition KindRefund : EntryKind := "refund".
Definition KindExpire : EntryKind := "expire".
Definition KindEarn : EntryKind := "earn".
Definition KindReverse : EntryKind := "reverse".
Definition KindVoid : EntryKind := "void".

Record StoreCreditEntry := mkStoreCreditEntry {
  sc_ID : string;
  sc_CustomerID : string;
  sc_CurrencyCode : string;
  sc_Amount : Z;
  sc_Kind : EntryKind;
  sc_Reference : string;
  sc_Reason : string;
  sc_ExpiresAt : option moment;
  sc_OrderID : string;
  sc_CreatedAt : moment
}.

(** [StoreCreditBalanceRef]: a customer and a currency. *)
Definition StoreCreditBalanceRef : Type := string * string.

Record StoreCreditExpiryFigures := mkExpiryFigures {
  ef_Balance : Z;
  ef_Unexpired : Z;
  ef_Expired : Z;
  ef_Written : Z
}.

Definition Due (f : StoreCreditExpiryFigures) : Z :=
  Z.max (Z.min (sub64 (ef_Balance f) (ef_Unexpired f)) (sub64 (ef_Expired f) (ef_Written f))) 0.

Record LoyaltyEntry := mkLoyaltyEntry {
  ly_ID : string;
  ly_CustomerID : string;
  ly_CurrencyCode : string;
  ly_Points : Z;
  ly_Kind : EntryKind;
  ly_Reference : string;
  ly_CreatedAt : moment
}.

(** *** Gift cards: [models/giftcard.go] *)

Definition GiftCardIssued : string := "issued".
Definition GiftCardSold : string := "sold".

Record GiftCard := mkGiftCard {
  gc_ID : string;
  gc_CodeTail : string;
  gc_CurrencyCode : string;
  gc_Reason : string;
  gc_Source : string;
  gc_SourceReference : string;
  gc_CreatedAt : moment;
  gc_CodeChangedAt : option moment;
  gc_DisabledAt : option moment;
  gc_DisableReason : string;
  gc_ExpiresAt : option moment
}.

Definition ExpiredAt (c : GiftCard) (now : moment) : bool :=
  match gc_ExpiresAt c with None => false | Some t => t <=? now end.

Record GiftCardEntry := mkGiftCardEntry {
  ge_ID : string;
  ge_GiftCardID : string;
  ge_Amount : Z;
  ge_Kind : EntryKind;
  ge_Reference : string;
  ge_CreatedAt : moment
}.

Definition GiftCardCodeLength : Z := 16.

(** The printed groups of four. *)
Fixpoint print_groups (groups : nat) (code : string) : string :=
  match groups with
  | O => code
  | S n => String.append (String.substring 0 4 code)
      (String.append "-" (print_groups n (String.substring 4 (String.length code - 4) code)))
  end.

(** [NewGiftCardCode] of the ten random bytes. *)
Definition NewGiftCardCode (random : list Z) : string := print_groups 3 (EncodeToString random).

Definition typed_rune (c : Z) : Z :=
  if c =? 79 then 48 else if (c =? 73) || (c =? 76) then 49 else c.

Definition in_alphabet (c : Z) : bool := bool_decide (c ∈ bytes alphabet).

(** The runes of a code that can be one are ASCII: any other is outside the alphabet. *)
Fixpoint normalize_runes (l : list Z) : option (list Z) :=
  match l with
  | [] => Some []
  | c :: rest =>
      if (c =? 45) || (c =? 32) then normalize_runes rest
      else if in_alphabet (typed_rune c) then cons (typed_rune c) <$> normalize_runes rest
      else None
  end.

Definition NormalizeGiftCardCode (typed : string) : option string :=
  out ← normalize_runes (bytes (ToUpper typed));
  if Z.of_nat (length out) =? GiftCardCodeLength then Some (of_bytes out) else None.

Definition GiftCardCodeDigest (normalized : string) : string := hex (Sum256 (bytes normalized)).

Definition GiftCardCodeTail (normalized : string) : string :=
  String.substring (String.length normalized - 4) 4 normalized.

(** ** The provider's contract: [core/provider/payment.go] *)

Record ProviderInput := mkProviderInput {
  pi_Amount : Z;
  pi_CurrencyCode : string;
  pi_Reference : string;
  pi_IdempotencyKey : string;
  pi_CustomerID : string;
  pi_Data : Data
}.

Record ProviderSession := mkProviderSession {
  pv_ID : string;
  pv_Status : SessionStatus;
  pv_Amount : Z;
  pv_CurrencyCode : string;
  pv_Data : raw
}.

Record AuthResult := mkAuthResult {
  ar_Status : SessionStatus;
  ar_AuthorizedAmount : Z;
  ar_Data : raw;
  ar_DeclineReason : string
}.

Record SessionInspection := mkSessionInspection {
  si_Status : SessionStatus;
  si_AuthorizedAmount : Z;
  si_CapturedAmount : Z;
  si_RefundedAmount : Z
}.

(** ** Checks: [service/validate.go] *)

Definition CodeInvalidInput : string := "payment_invalid_input".
Definition maxTextLen : Z := 512.

Definition checkTextLen (label value : string) : option err :=
  if maxTextLen <? len value
  then Some (Invalid CodeInvalidInput "%s can be at most %d bytes: %d" [AStr label; AInt maxTextLen; AInt (len value)])
  else None.

Definition requireText (label value : string) : option err :=
  if bool_decide (TrimSpace value = EmptyString)
  then Some (Invalid CodeInvalidInput "%s cannot be empty" [AStr label])
  else checkTextLen label value.

Definition normalizeCurrency (code : string) : result string :=
  let normalized := ToUpper (TrimSpace code) in
  if negb (len normalized =? 3)
  then Fail (Invalid CodeInvalidInput "the currency has to be a three-letter ISO 4217 code: %q" [AStr code])
  else if forallb is_upper (bytes normalized) then Ok normalized
  else Fail (Invalid CodeInvalidInput "the currency can only contain letters: %q" [AStr code]).

Definition requireAmount (label : string) (amount : Z) : option err :=
  if (amount <? MinAmount) || (MaxAmount <? amount)
  then Some (Invalid CodeInvalidInput "%s has to be between %d and %d: %d"
    [AStr label; AInt MinAmount; AInt MaxAmount; AInt amount])
  else None.

Definition requireOptionalAmount (label : string) (amount : Z) : option err :=
  if amount =? 0 then None
  else if amount <? 0
  then Some (Invalid CodeInvalidInput "%s cannot be negative: %d" [AStr label; AInt amount])
  else requireAmount label amount.

Definition checkReference (reference : string) : option err :=
  match checkTextLen "reference" reference with
  | Some e => Some e
  | None =>
      if bool_decide (reference = TrimSpace reference) then None
      else Some (Invalid CodeInvalidInput
        "the refund reference is an id and cannot carry surrounding space: %q" [AStr reference])
  end.

Fixpoint join_comma (l : list string) : string :=
  match l with
  | [] => EmptyString
  | [x] => x
  | x :: rest => String.append x (String.append ", " (join_comma rest))
  end.

Definition invalidStatus (value : string) : err :=
  Invalid CodeInvalidInput "%q is not a recognized payment collection status; the valid ones are: %s"
    [AStr value; AStr (join_comma collectionStatusNames)].

(** *** Pages: [Page.normalize] *)

Definition DefaultLimit : Z := 50.
Definition MaxLimit : Z := 100.

Definition Page_normalize (limit offset : Z) : result (Z * Z) :=
  if limit <? 0 then Fail (Invalid CodeInvalidInput "limit cannot be negative: %d" [AInt limit])
  else if offset <? 0 then Fail (Invalid CodeInvalidInput "offset cannot be negative: %d" [AInt offset])
  else if MaxLimit <? limit
  then Fail (Invalid CodeInvalidInput "limit can be at most %d: %d" [AInt MaxLimit; AInt limit])
  else Ok (if limit =? 0 then DefaultLimit else limit, offset).

(** ** Lemmas *)

Lemma code_example : NewGiftCardCode [0;1;2;3;4;5;6;7;8;255] = "000G-40R4-0M30-E27Z".
Proof. vm_compute. reflexivity. Qed.

Lemma requireAmount_ok label a : requireAmount label a = None <-> MinAmount <= a <= MaxAmount.
Proof.
  unfold requireAmount. destruct (Z.ltb_spec a MinAmount), (Z.ltb_spec MaxAmount a); simpl; split; (lia || done).
Qed.

Lemma requireOptionalAmount_ok label a : requireOptionalAmount label a = None <-> 0 <= a <= MaxAmount.
Proof.
  unfold requireOptionalAmount. destruct (Z.eqb_spec a 0) as [->|]; [unfold MaxAmount; split; (lia || done)|].
  destruct (Z.ltb_spec a 0); [split; [done|lia]|]. rewrite requireAmount_ok. unfold MinAmount. lia.
Qed.

Lemma Payment_RefundableAmount_exact p : 0 <= py_RefundedAmount p <= py_Amount p -> py_Amount p <= MaxAmount ->
  Payment_RefundableAmount p = py_Amount p - py_RefundedAmount p.
Proof.
  unfold Payment_RefundableAmount, MaxAmount. intros H1 H2. destruct (Z.leb_spec (py_Amount p) (py_RefundedAmount p)); [lia|].
  apply sub64_exact. in64.
Qed.

Lemma CollectionStatusFor_valid c n : CollectionStatus_Valid (CollectionStatusFor c n) = true.
Proof. unfold CollectionStatusFor. repeat case_match; reflexivity. Qed.

(** * Gift card codes: what a typed code is read as

    [typing] is the specification of [NormalizeGiftCardCode]: which texts a person may type for a code. A
    printed code reads back as what was hashed, and two codes are the same only for the same random bytes. *)

(** The text [s] a person may write for the digit [d]: itself, its small letter, an [o] for a zero, an
    [i] or an [l] for a one; Go's upper case also takes a dotless i to [I] and a long s to [S]. *)
Definition stands_for (d : Z) (s : list Z) : bool :=
  in_alphabet d && match s with
  | [c] => (c =? d) || (65 <=? d) && (d <=? 90) && (c =? d + 32) || (d =? 48) && ((c =? 79) || (c =? 111)) ||
      (d =? 49) && ((c =? 73) || (c =? 105) || (c =? 76) || (c =? 108))
  | [0xC4; 0xB1] => d =? 49
  | [0xC5; 0xBF] => d =? 83
  | _ => false
  end.

Definition is_gap (c : Z) : bool := (c =? 45) || (c =? 32).

Inductive typing : list Z -> list Z -> Prop :=
| typing_done : typing [] []
| typing_gap c n t : is_gap c = true -> typing n t -> typing n (c :: t)
| typing_digit d s n t : stands_for d s = true -> typing n t -> typing (d :: n) (s ++ t).

(** ** One byte *)

Definition all_bytes : list Z := Eval vm_compute in seqZ 0 256.

Lemma every_byte (P : Z -> bool) : forallb P all_bytes = true -> forall c, 0 <= c < 256 -> P c = true.
Proof.
  intros H c Hc. rewrite forallb_forall in H. apply H, list_elem_of_In. change all_bytes with (seqZ 0 256).
  apply elem_of_seqZ. lia.
Qed.

Lemma upper1_gap c : 0 <= c < 256 -> is_gap (upper1 c) = is_gap c.
Proof.
  intros Hc. apply eqb_prop. revert c Hc. apply (every_byte (fun c => Bool.eqb (is_gap (upper1 c)) (is_gap c))). vm_compute. reflexivity.
Qed.

Lemma single_digit c : 0 <= c < 256 -> is_gap c = false -> forall d,
  stands_for d [c] = true <-> in_alphabet (typed_rune (upper1 c)) = true /\ d = typed_rune (upper1 c).
Proof.
  intros Hc Hg d.
  assert (H : forall x, 0 <= x < 256 -> negb (is_gap x) = true -> (if in_alphabet (typed_rune (upper1 x))
    then stands_for (typed_rune (upper1 x)) [x] else true) &&
    forallb (fun e => implb (stands_for e [x]) (in_alphabet (typed_rune (upper1 x)) && (e =? typed_rune (upper1 x)))) (bytes alphabet) = true).
  { intros x Hx. apply implb_true_iff. revert x Hx. apply (every_byte (fun x => implb (negb (is_gap x)) _)). vm_compute. reflexivity. }
  specialize (H c Hc). rewrite Hg in H. specialize (H eq_refl). apply andb_true_iff in H as [H1 H2]. split.
  - intros Hs. assert (Hd : d ∈ bytes alphabet).
    { unfold stands_for in Hs. apply andb_true_iff in Hs as [Hs%bool_decide_eq_true _]. done. }
    rewrite forallb_forall in H2. specialize (H2 d (proj1 (list_elem_of_In _ _) Hd)). rewrite Hs in H2. cbn [implb] in H2.
    apply andb_true_iff in H2 as [H2 H3%Z.eqb_eq]. done.
  - intros [Ha ->]. by rewrite Ha in H1.
Qed.

(** ** The runes *)

Lemma normalize_cons c t : normalize_runes (c :: t) =
  if is_gap c then normalize_runes t
  else if in_alphabet (typed_rune c) then cons (typed_rune c) <$> normalize_runes t else None.
Proof. reflexivity. Qed.

Lemma stands_shape d s : stands_for d s = true ->
  (exists c, s = [c]) \/ (s = [0xC4; 0xB1] /\ d = 49) \/ (s = [0xC5; 0xBF] /\ d = 83).
Proof.
  unfold stands_for. intros [_ H]%andb_true_iff. destruct s as [|c s]; [done|]. destruct s as [|c2 s]; [left; by exists c|right].
  repeat (case_match; try done); apply Z.eqb_eq in H; subst; auto.
Qed.

Lemma gap_no_digit d c : is_gap c = true -> stands_for d [c] = false.
Proof.
  intros Hg. apply not_true_iff_false. intros Hs.
  assert (Hd : d ∈ bytes alphabet) by (unfold stands_for in Hs; by apply andb_true_iff in Hs as [Hs%bool_decide_eq_true _]).
  assert (H : forallb (fun d => negb (stands_for d [45] || stands_for d [32])) (bytes alphabet) = true) by (vm_compute; reflexivity).
  rewrite forallb_forall in H. specialize (H d (proj1 (list_elem_of_In _ _) Hd)).
  apply negb_true_iff, orb_false_iff in H as [H1 H2]. apply orb_true_iff in Hg as [->%Z.eqb_eq | ->%Z.eqb_eq]; congruence.
Qed.

Lemma typing_reads n t : Forall (fun c => 0 <= c < 256) t -> typing n t -> normalize_runes (upper_bytes t) = Some n.
Proof.
  intros Hb H. revert Hb. induction H as [|c n t Hg H IH|d s n t Hs H IH]; intros Hb; [done|..].
  - apply Forall_cons in Hb as [Hc Hb]. destruct (upper_split c t) as [(r & -> & _)|[(r & -> & _)| ->]]; [done..|].
    rewrite normalize_cons, upper1_gap, Hg by done. by apply IH.
  - apply Forall_app in Hb as [Hbs Hb]. specialize (IH Hb).
    destruct (stands_shape d s Hs) as [[c ->]|[[-> ->]|[-> ->]]].
    + apply Forall_cons in Hbs as [Hbs _]. cbn [app].
      destruct (is_gap c) eqn:Hg; [by rewrite gap_no_digit in Hs|].
      destruct (upper_split c t) as [(r & -> & _)|[(r & -> & _)| ->]].
      * by apply (single_digit 0xC4) in Hs as [Hs _].
      * by apply (single_digit 0xC5) in Hs as [Hs _].
      * apply (single_digit c Hbs Hg) in Hs as [Ha ->]. by rewrite normalize_cons, upper1_gap, Hg, Ha, IH by done.
    + change (normalize_runes (73 :: upper_bytes t) = Some (49 :: n)). by rewrite normalize_cons, IH.
    + change (normalize_runes (83 :: upper_bytes t) = Some (83 :: n)). by rewrite normalize_cons, IH.
Qed.

Lemma reads_typing n t : Forall (fun c => 0 <= c < 256) t -> normalize_runes (upper_bytes t) = Some n -> typing n t.
Proof.
  remember (length t) as k eqn:Ek. revert t n Ek. induction (lt_wf k) as [k _ IH]; intros t n -> Hb H.
  destruct t as [|c t]; [injection H as <-; constructor|]. apply Forall_cons in Hb as [Hc Hb].
  destruct (upper_split c t) as [(r & -> & -> & E)|[(r & -> & -> & E)|E]]; rewrite E, normalize_cons in H; clear E.
  - apply Forall_cons in Hb as [_ Hb]. change (fmap (cons 49) (normalize_runes (upper_bytes r)) = Some n) in H.
    apply fmap_Some in H as (n' & Hn & ->). apply (typing_digit 49 [0xC4; 0xB1]); [done|]. eapply IH; [|done..]. cbn. lia.
  - apply Forall_cons in Hb as [_ Hb]. change (fmap (cons 83) (normalize_runes (upper_bytes r)) = Some n) in H.
    apply fmap_Some in H as (n' & Hn & ->). apply (typing_digit 83 [0xC5; 0xBF]); [done|]. eapply IH; [|done..]. cbn. lia.
  - rewrite upper1_gap in H by done. destruct (is_gap c) eqn:Hg.
    + apply typing_gap; [done|]. eapply IH; [|done..]. cbn. lia.
    + destruct (in_alphabet _) eqn:Ha; [|done]. apply fmap_Some in H as (n' & Hn & ->).
      apply (typing_digit _ [c]); [by apply single_digit|]. eapply IH; [|done..]. cbn. lia.
Qed.

Lemma typing_alphabet n t : typing n t -> Forall (fun d => d ∈ bytes alphabet) n.
Proof.
  induction 1 as [|c n t _ _ IH|d s n t Hs _ IH]; [done|done|]. constructor; [|done].
  unfold stands_for in Hs. by apply andb_true_iff in Hs as [Hs%bool_decide_eq_true _].
Qed.

Lemma alphabet_range : Forall (fun c => 0 <= c < 256) (bytes alphabet).
Proof. apply bytes_range. Qed.

(** What a typed code is read as. *)
Lemma NormalizeGiftCardCode_reads typed code :
  NormalizeGiftCardCode typed = Some code <-> String.length code = 16%nat /\ typing (bytes code) (bytes typed).
Proof.
  unfold NormalizeGiftCardCode, ToUpper. rewrite bytes_of_bytes by (apply upper_bytes_range, bytes_range).
  assert (Hl : length (bytes code) = String.length code)
    by (unfold bytes; rewrite length_fmap; rewrite <- (String.string_of_list_ascii_of_string code) at 2; by rewrite string_of_list_length).
  split.
  - destruct (normalize_runes _) as [l|] eqn:E; [|done]. cbn. destruct (Z.eqb_spec (Z.of_nat (length l)) GiftCardCodeLength) as [El|]; [|done].
    intros [= <-]. apply reads_typing in E; [|apply bytes_range]. pose proof (typing_alphabet _ _ E) as Ha.
    assert (Hr : Forall (fun c => 0 <= c < 256) l).
    { eapply Forall_impl; [exact Ha|]. intros d Hd. by apply (proj1 (Forall_forall _ _) alphabet_range). }
    rewrite bytes_of_bytes in Hl |- * by done. unfold GiftCardCodeLength in El. split; [lia|done].
  - intros [Hn Ht]. rewrite (typing_reads _ _ (bytes_range _) Ht). cbn. rewrite Hl, Hn. cbn. by rewrite of_bytes_bytes.
Qed.

(** ** The printed code *)

Lemma bytes_append a b : bytes (String.append a b) = bytes a ++ bytes b.
Proof. unfold bytes. rewrite <- fmap_app. f_equal. induction a as [|c a IH]; [done|]. exact (f_equal (cons c) IH). Qed.

Lemma substring_all s : String.substring 0 (String.length s) s = s.
Proof. induction s as [|c s IH]; [done|]. cbn. by rewrite IH. Qed.

Lemma typing_app n t n' t' : typing n t -> typing n' t' -> typing (n ++ n') (t ++ t').
Proof.
  induction 1 as [|c n t Hg _ IH|d s n t Hs _ IH]; intros H; [done|apply typing_gap; [done|by apply IH]|].
  rewrite <- (app_assoc s). cbn [app]. apply typing_digit; [done|]. by apply IH.
Qed.

Lemma typing_self n : Forall (fun d => d ∈ bytes alphabet) n -> typing n n.
Proof.
  induction 1 as [|d n Hd _ IH]; [constructor|]. apply (typing_digit d [d] n n); [|done].
  assert (E : stands_for d [d] = in_alphabet d && ((d =? d) || (65 <=? d) && (d <=? 90) && (d =? d + 32) ||
    (d =? 48) && ((d =? 79) || (d =? 111)) || (d =? 49) && ((d =? 73) || (d =? 105) || (d =? 76) || (d =? 108))))
    by (unfold stands_for; repeat (case_match; try done)).
  unfold in_alphabet in E. by rewrite E, bool_decide_true, Z.eqb_refl.
Qed.

(** A dash after every four digits. *)
Lemma print_typing groups : forall code, Forall (fun d => d ∈ bytes alphabet) (bytes code) ->
  (4 * groups <= String.length code)%nat -> typing (bytes code) (bytes (print_groups groups code)).
Proof.
  induction groups as [|groups IH]; intros code Ha Hl; [by apply typing_self|].
  destruct code as [|a [|b [|c [|d rest]]]]; cbn [String.length] in Hl; try lia.
  set (four := String a (String b (String c (String d EmptyString)))).
  change (String a (String b (String c (String d rest)))) with (String.append four rest) in *.
  assert (E : print_groups (S groups) (String.append four rest) = String.append four (String.append "-" (print_groups groups rest))).
  { cbn [print_groups]. replace (String.length (String.append four rest) - 4)%nat with (String.length rest)
      by (rewrite append_length; cbn; lia).
    change (String.substring 4 (String.length rest) (String.append four rest)) with (String.substring 0 (String.length rest) rest).
    rewrite substring_all. by destruct rest. }
  rewrite E, !bytes_append. rewrite bytes_append in Ha. apply Forall_app in Ha as [Hf Hr].
  apply typing_app; [by apply typing_self|]. apply typing_gap; [done|]. apply IH; [done|lia].
Qed.

Lemma digit_char_alphabet d : 0 <= d < 32 -> byte_of (digit_char d) ∈ bytes alphabet.
Proof.
  intros Hd. assert (H : forallb (fun i => in_alphabet (byte_of (digit_char (Z.of_nat i)))) (seq 0 32) = true) by (vm_compute; reflexivity).
  rewrite forallb_forall in H. specialize (H (Z.to_nat d) ltac:(apply in_seq; lia)). rewrite Z2Nat.id in H by lia.
  by apply bool_decide_eq_true in H.
Qed.

Lemma digits32_range n v : Forall (fun d => 0 <= d < 32) (digits32 n v).
Proof. induction n as [|n IH]; constructor; [|done]. apply Z.mod_pos_bound. lia. Qed.

Lemma EncodeToString_alphabet l : Forall (fun d => d ∈ bytes alphabet) (bytes (EncodeToString l)).
Proof.
  unfold EncodeToString, bytes at 2. rewrite String.list_ascii_of_string_of_list_ascii. apply Forall_fmap, Forall_fmap.
  eapply Forall_impl; [apply digits32_range|]. intros d Hd. by apply digit_char_alphabet.
Qed.

Lemma EncodeToString_length l : String.length (EncodeToString l) = encoded_len (length l).
Proof. unfold EncodeToString. by rewrite string_of_list_length, length_fmap, digits32_length. Qed.

Lemma big_endian_inj l : forall k, length l = length k -> is_byte_list l -> is_byte_list k -> big_endian l = big_endian k -> l = k.
Proof.
  induction l as [|a l IH]; intros [|b k] Hn Hl Hk E; try done. apply Forall_cons in Hl as [Ha Hl]. apply Forall_cons in Hk as [Hb Hk].
  injection Hn as Hn. change (a :: l) with ([a] ++ l) in E. change (b :: k) with ([b] ++ k) in E. rewrite !big_endian_app, Hn in E.
  change (big_endian [a]) with (0 * 256 + a) in E. change (big_endian [b]) with (0 * 256 + b) in E.
  pose proof (big_endian_bound l Hl) as B1. pose proof (big_endian_bound k Hk) as B2. rewrite Hn in B1.
  assert (a = b) by nia. subst b. f_equal. apply IH; [done..|]. nia.
Qed.

Lemma string_compare_self s : String.compare s s = Eq.
Proof.
  induction s as [|c s IH]; [done|].
  change (match Ascii.compare c c with Eq => String.compare s s | Lt => Lt | Gt => Gt end = Eq). by rewrite ascii_compare_refl.
Qed.

(** Ten bytes are sixteen digits, exactly. *)
Lemma EncodeToString_inj l k : length l = 10%nat -> length k = 10%nat -> is_byte_list l -> is_byte_list k ->
  EncodeToString l = EncodeToString k -> l = k.
Proof.
  intros Hl Hk Bl Bk E. apply big_endian_inj; [congruence|done..|].
  pose proof (digits32_compare 16 (big_endian l) (big_endian k)) as H. unfold EncodeToString in E. rewrite Hl, Hk in E.
  change (encoded_len 10) with 16%nat in E. change (2 ^ (5 * Z.of_nat 16 - 8 * Z.of_nat 10)) with 1 in E. rewrite !Z.mul_1_r in E.
  rewrite E, string_compare_self in H. symmetry in H. apply Z.compare_eq in H.
  pose proof (big_endian_bound l Bl) as B1. pose proof (big_endian_bound k Bk) as B2. rewrite Hl in B1. rewrite Hk in B2.
  change (32 ^ Z.of_nat 16) with (256 ^ Z.of_nat 10) in H. by rewrite !Z.mod_small in H.
Qed.

Lemma NewGiftCardCode_reads random : length random = 10%nat ->
  NormalizeGiftCardCode (NewGiftCardCode random) = Some (EncodeToString random).
Proof.
  intros Hl. apply NormalizeGiftCardCode_reads. rewrite EncodeToString_length, Hl. split; [reflexivity|].
  apply print_typing; [apply EncodeToString_alphabet|]. rewrite EncodeToString_length, Hl. vm_compute. lia.
Qed.
