(* ===== verification/PaymentStore.v ===== *)
(** * The payment module's database: [internal/modules/payment/repository], [queries/*.sql] and the
    constraints of [migrations/*.sql]

    Two groups of tables: the books, which the payment service alone writes, and the tills, where the
    module's own providers keep their sessions and balances. What lies outside the database (the other
    payment institutions, the clock, randomness, the event bus, the database's failures) is a type [W]
    with the answers of [Outside]; a transaction that fails does not undo it. A locking read is a read:
    the transactions that share rows follow one another, as the locks make them. A listing's text order
    is the byte order of its ASCII identifiers. *)
From S2P Require Import Prelude GoText Errors Tx Identifiers Database PaymentModels.

(** ** The tables *)

Record OutboxEvent := mkOutboxEvent {
  ob_ID : string;
  ob_Name : string;
  ob_CollectionID : string;
  ob_OccurredAt : moment
}.

Record SessionReport := mkSessionReport {
  sr_SessionID : string;
  sr_ReportedAt : moment;
  sr_Attempts : Z;
  sr_NextAttemptAt : moment;
  sr_LastFailure : string;
  sr_Outcome : string;
  sr_SettledAt : option moment
}.

(** [payment_session_answers]: the digest of the completion secret and when it was spent. *)
Record SessionAnswer := mkSessionAnswer { sa_Digest : list Z; sa_AnsweredAt : option moment }.

Record Books := mkBooks {
  bk_collections : gmap string PaymentCollection;
  bk_sessions : gmap string PaymentSession;
  bk_payments : gmap string Payment;
  bk_refunds : gmap string Refund;
  bk_outbox : gmap string OutboxEvent;
  bk_reports : gmap string SessionReport;
  bk_answers : gmap string SessionAnswer
}.

Definition set_collections m b := mkBooks m (bk_sessions b) (bk_payments b) (bk_refunds b) (bk_outbox b) (bk_reports b) (bk_answers b).
Definition set_sessions m b := mkBooks (bk_collections b) m (bk_payments b) (bk_refunds b) (bk_outbox b) (bk_reports b) (bk_answers b).
Definition set_payments m b := mkBooks (bk_collections b) (bk_sessions b) m (bk_refunds b) (bk_outbox b) (bk_reports b) (bk_answers b).
Definition set_refunds m b := mkBooks (bk_collections b) (bk_sessions b) (bk_payments b) m (bk_outbox b) (bk_reports b) (bk_answers b).
Definition set_outbox m b := mkBooks (bk_collections b) (bk_sessions b) (bk_payments b) (bk_refunds b) m (bk_reports b) (bk_answers b).
Definition set_reports m b := mkBooks (bk_collections b) (bk_sessions b) (bk_payments b) (bk_refunds b) (bk_outbox b) m (bk_answers b).
Definition set_answers m b := mkBooks (bk_collections b) (bk_sessions b) (bk_payments b) (bk_refunds b) (bk_outbox b) (bk_reports b) m.

(** The ledgers are in the order of their writes. [tl_digests] is the [code_digest] column of the cards,
    which the model of a card leaves out. *)
Record Tills := mkTills {
  tl_manual : gmap string ManualSession;
  tl_credit : list StoreCreditEntry;
  tl_credit_sessions : gmap string TenderSession;
  tl_points : list LoyaltyEntry;
  tl_point_sessions : gmap string TenderSession;
  tl_cards : gmap string GiftCard;
  tl_digests : gmap string string;
  tl_card_entries : list GiftCardEntry;
  tl_card_sessions : gmap string TenderSession
}.

Record Sys (W : Type) := mkSys { sy_books : Books; sy_tills : Tills; sy_outside : W }.
Arguments mkSys {W}.
Arguments sy_books {W}.
Arguments sy_tills {W}.
Arguments sy_outside {W}.

(** ** What the database answers with *)

Class Outside (W : Type) := {
  (** Whether a statement fails, by its name. *)
  out_fault : string -> W -> W * option dberr;
  (** The driver's error for a refused write. *)
  out_refusal : string -> string -> err;
  (** [now()] of the database. *)
  out_now : W -> moment;
  (** [time.Now()]. *)
  out_clock : W -> W * moment;
  (** What an identifier is made of. *)
  out_seed : W -> W * seed;
  (** So many bytes of [crypto/rand]. *)
  out_random : nat -> W -> W * option (list Z);
  (** [EventPublisher.Publish]. *)
  out_publish : OutboxEvent -> W -> W * option err;
  (** [OrderLinks.List] of the named link. *)
  out_links : string -> string -> W -> result (list string)
}.

(** *** [repository/convert.go] *)

Definition codeCollectionNotFound : string := "payment_collection_not_found".
Definition codeSessionNotFound : string := "payment_session_not_found".
Definition codeStoreCreditSessionNotFound : string := "payment_store_credit_session_not_found".
Definition codeLoyaltySessionNotFound : string := "payment_loyalty_session_not_found".
Definition codeGiftCardNotFound : string := "payment_gift_card_not_found".
Definition codeGiftCardSessionNotFound : string := "payment_gift_card_session_not_found".
Definition codePaymentNotFound : string := "payment_not_found".
Definition codeManualSessionNotFound : string := "payment_manual_session_not_found".
Definition codeSessionExists : string := "payment_session_idempotency_key_exists".
Definition codePaymentExists : string := "payment_session_already_captured".
Definition codeAmountOutOfRange : string := "payment_amount_out_of_range".
Definition codeInconsistentAmounts : string := "payment_amounts_inconsistent".
Definition codeStatusInvalid : string := "payment_status_invalid".
Definition codeCurrencyInvalid : string := "payment_currency_invalid".
Definition codeTxBeginFailed : string := "payment_tx_begin_failed".
Definition codeTxCommitFailed : string := "payment_tx_commit_failed".
Definition codeQueryFailed : string := "payment_query_failed".
Definition codeConcurrentUpdate : string := "payment_concurrent_update".

Definition collectionNotFound (id : string) : err :=
  NotFound codeCollectionNotFound "payment collection not found: %s" [AStr id].
Definition sessionNotFound (id : string) : err :=
  NotFound codeSessionNotFound "payment session not found: %s" [AStr id].
Definition paymentNotFound (id : string) : err :=
  NotFound codePaymentNotFound "capture not found: %s" [AStr id].
Definition manualSessionNotFound (id : string) : err :=
  NotFound codeManualSessionNotFound "manual provider session not found: %s" [AStr id].

Definition msgAuthorizedNonneg : string := "the authorized amount cannot be negative".
Definition msgCapturedNonneg : string := "the captured amount cannot be negative".
Definition msgRefundedNonneg : string := "the refunded amount cannot be negative".
Definition msgRefundLeCapture : string := "the refunded amount cannot exceed the captured amount".

Definition amountConstraints : gmap string string := list_to_map [
  ("payment_collections_refund_le_capture", msgRefundLeCapture);
  ("payment_collections_authorized_le_amount", "the authorized amount cannot exceed the collection amount");
  ("payment_collections_captured_le_amount", "the captured amount cannot exceed the collection amount");
  ("payment_sessions_authorized_le_amount", "the authorized amount cannot exceed the session amount");
  ("payments_refund_le_amount", "the refunded amount cannot exceed the capture amount");
  ("payment_manual_sessions_captured_le_auth", "the captured amount cannot exceed the authorized amount");
  ("payment_manual_sessions_refund_le_capture", msgRefundLeCapture);
  ("payment_collections_authorized_nonneg", msgAuthorizedNonneg);
  ("payment_collections_captured_nonneg", msgCapturedNonneg);
  ("payment_collections_refunded_nonneg", msgRefundedNonneg);
  ("payment_sessions_authorized_nonneg", msgAuthorizedNonneg);
  ("payments_refunded_nonneg", msgRefundedNonneg);
  ("payment_manual_sessions_authorized_nonneg", msgAuthorizedNonneg);
  ("payment_manual_sessions_captured_nonneg", msgCapturedNonneg);
  ("payment_manual_sessions_refunded_nonneg", msgRefundedNonneg)]%string.

Fixpoint str_contains (s sub : string) : bool :=
  String.prefix sub s ||
  match s with EmptyString => false | String _ rest => str_contains rest sub end.

Definition has_suffix (s suffix : string) : bool :=
  bool_decide (String.substring (String.length s - String.length suffix) (String.length suffix) s = suffix).

Definition foreignKeyError (e : err) (constraint : string) : err :=
  if str_contains constraint "payment_session_id"
  then wrap e KindNotFound codeSessionNotFound "payment session not found" []
  else if str_contains constraint "payment_collection_id"
  then wrap e KindNotFound codeCollectionNotFound "payment collection not found" []
  else if str_contains constraint "payment_id"
  then wrap e KindNotFound codePaymentNotFound "capture not found" []
  else wrap e KindNotFound codeCollectionNotFound "the linked record was not found" [].

Definition checkError (e : err) (constraint code format : string) (a : list arg) : err :=
  match amountConstraints !! constraint with
  | Some message => wrap e KindConflict codeInconsistentAmounts "%s" [AStr message]
  | None =>
      if has_suffix constraint "_amount_positive"
      then wrap e KindInvalid codeAmountOutOfRange "the amount has to be positive" []
      else if has_suffix constraint "_currency_format"
      then wrap e KindInvalid codeCurrencyInvalid "the currency has to be a three-letter ISO 4217 code" []
      else if has_suffix constraint "_status_valid"
      then wrap e KindInvalid codeStatusInvalid "undefined status value" []
      else wrap e KindInternal code format a
  end.

Section Statements.
Context {W : Type} `{!Outside W}.

Definition classify (d : dberr) (code format : string) (a : list arg) : err :=
  match d with
  | DriverError e => wrap e KindInternal code format a
  | PgError state constraint =>
      let e := out_refusal state constraint in
      if bool_decide (state = sqlStateUniqueViolation) && Contains
           ["payment_sessions_provider_idempotency_uniq"; "payment_manual_sessions_idempotency_uniq"] constraint
      then wrap e KindConflict codeSessionExists "a session opened with this idempotency key already exists" []
      else if bool_decide (state = sqlStateUniqueViolation) && bool_decide (constraint = "payments_session_uniq")
      then wrap e KindConflict codePaymentExists "a capture has already come out of this session" []
      else if bool_decide (state = sqlStateForeignKeyViolation) then foreignKeyError e constraint
      else if bool_decide (state = sqlStateCheckViolation) then checkError e constraint code format a
      else if bool_decide (state = sqlStateDeadlockDetected)
      then wrap e KindConflict codeConcurrentUpdate
        "the request collided with a concurrent transaction; it can be retried" []
      else wrap e KindInternal code format a
  end.

(** ** Statements and transactions *)

Definition set_outside (w : W) (st : Sys W) : Sys W := mkSys (sy_books st) (sy_tills st) w.

(** A statement named [name]: it fails as the database does, or does [f] at [now()]. *)
Definition statement {A} (name format : string) (a : list arg)
    (f : moment -> Books -> Tills -> answer (Books * Tills * A)) : tx (Sys W) A := fun st =>
  let '(w, fault) := out_fault name (sy_outside st) in
  match fault with
  | Some d => (set_outside w st, Fail (classify d codeQueryFailed format a))
  | None =>
      match f (out_now w) (sy_books st) (sy_tills st) with
      | Rows (b, t, x) => (mkSys b t w, Ok x)
      | Refused d => (set_outside w st, Fail (classify d codeQueryFailed format a))
      end
  end.

(** A query, a write of the books and a write of the tills. *)
Definition ask {A} (name format : string) (a : list arg) (f : moment -> Books -> Tills -> answer A) : tx (Sys W) A :=
  statement name format a (fun now b t =>
    match f now b t with Rows x => Rows (b, t, x) | Refused d => Refused d end).

Definition put {A} (name format : string) (a : list arg) (f : moment -> Books -> answer (Books * A)) : tx (Sys W) A :=
  statement name format a (fun now b t =>
    match f now b with Rows (b', x) => Rows (b', t, x) | Refused d => Refused d end).

Definition till {A} (name format : string) (a : list arg) (f : moment -> Tills -> answer (Tills * A)) : tx (Sys W) A :=
  statement name format a (fun now b t =>
    match f now t with Rows (t', x) => Rows (b, t', x) | Refused d => Refused d end).

(** [pgx.ErrNoRows] of a statement that answers one row. *)
Definition one {A} (missing : err) (m : tx (Sys W) (option A)) : tx (Sys W) A :=
  r ← m; match r with Some x => mret x | None => tx_of (Fail missing) end.

(** [Repository.WithTx]: inside a transaction it joins it; outside one it begins and commits one, and
    an error of the body or of the commit undoes what was written. *)
Definition WithTx {A} (inside : bool) (m : tx (Sys W) A) : tx (Sys W) A :=
  if inside then m else fun st =>
  match out_fault "BEGIN" (sy_outside st) with
  | (w, Some d) => (set_outside w st, Fail (classify d codeTxBeginFailed "the transaction could not begin" []))
  | (w, None) =>
      match m (set_outside w st) with
      | (st', Fail e) => (set_outside (sy_outside st') st, Fail e)
      | (st', Ok a) =>
          match out_fault "COMMIT" (sy_outside st') with
          | (w', None) => (set_outside w' st', Ok a)
          | (w', Some d) =>
              (set_outside w' st, Fail (classify d codeTxCommitFailed "the transaction could not be committed" []))
          end
      end
  end.

(** Drawing an identifier, reading the clock. *)
Definition new_id (prefix : string) : tx (Sys W) string := fun st =>
  let '(w, s) := out_seed (sy_outside st) in (set_outside w st, Ok (newID prefix s)).

Definition clock : tx (Sys W) moment := fun st =>
  let '(w, t) := out_clock (sy_outside st) in (set_outside w st, Ok t).

(** ** Constraints *)

Definition collection_checks (c : PaymentCollection) : list (string * bool) := [
  chk "payment_collections_amount_positive" (0 <? pc_Amount c);
  chk "payment_collections_authorized_le_amount" (pc_AuthorizedAmount c <=? pc_Amount c);
  chk "payment_collections_authorized_nonneg" (0 <=? pc_AuthorizedAmount c);
  chk "payment_collections_captured_le_amount" (pc_CapturedAmount c <=? pc_Amount c);
  chk "payment_collections_captured_nonneg" (0 <=? pc_CapturedAmount c);
  chk "payment_collections_currency_format" (currency_format (pc_CurrencyCode c));
  chk "payment_collections_customer_not_blank"
    (bool_decide (pc_CustomerID c = EmptyString) || not_blank (pc_CustomerID c));
  chk "payment_collections_refund_le_capture" (pc_RefundedAmount c <=? pc_CapturedAmount c);
  chk "payment_collections_refunded_nonneg" (0 <=? pc_RefundedAmount c);
  chk "payment_collections_status_valid" (CollectionStatus_Valid (pc_Status c))].

Definition session_checks (s : PaymentSession) : list (string * bool) := [
  chk "payment_sessions_amount_positive" (0 <? ps_Amount s);
  chk "payment_sessions_authorized_le_amount" (ps_AuthorizedAmount s <=? ps_Amount s);
  chk "payment_sessions_authorized_nonneg" (0 <=? ps_AuthorizedAmount s);
  chk "payment_sessions_currency_format" (currency_format (ps_CurrencyCode s));
  chk "payment_sessions_status_valid" (SessionStatus_Valid (ps_Status s))].

Definition payment_checks (p : Payment) : list (string * bool) := [
  chk "payments_amount_positive" (0 <? py_Amount p);
  chk "payments_currency_format" (currency_format (py_CurrencyCode p));
  chk "payments_refund_le_amount" (py_RefundedAmount p <=? py_Amount p);
  chk "payments_refunded_nonneg" (0 <=? py_RefundedAmount p)].

(** ** Collections *)

Definition new_collection_row (now : moment) (c : PaymentCollection) : PaymentCollection :=
  mkPaymentCollection (pc_ID c) (pc_Reference c) (pc_Amount c) (pc_CurrencyCode c) (pc_CustomerID c)
    (pc_Status c) 0 0 0 (pc_Metadata c) now now.

Definition CreatePaymentCollection (c : PaymentCollection) : tx (Sys W) PaymentCollection :=
  put "CreatePaymentCollection" "the payment collection could not be created" [] (fun now b =>
    let row := new_collection_row now c in
    match bk_collections b !! pc_ID c with
    | Some _ => refuse sqlStateUniqueViolation "payment_collections_pkey"
    | None => checked (collection_checks row) (set_collections (<[pc_ID c := row]> (bk_collections b)) b, row)
    end).

Definition GetPaymentCollection (id : string) : tx (Sys W) PaymentCollection :=
  one (collectionNotFound id) (ask "GetPaymentCollection" "the payment collection could not be read" []
    (fun _ b _ => Rows (bk_collections b !! id))).

Definition LockPaymentCollection (id : string) : tx (Sys W) PaymentCollection :=
  one (collectionNotFound id) (ask "LockPaymentCollection" "the payment collection could not be locked" []
    (fun _ b _ => Rows (bk_collections b !! id))).

Definition collection_matches (reference status : option string) (c : PaymentCollection) : bool :=
  match reference with None => true | Some r => bool_decide (pc_Reference c = r) end &&
  match status with None => true | Some s => bool_decide (pc_Status c = s) end.

Definition ListPaymentCollections (reference status : option string) (limit offset : Z)
    : tx (Sys W) (list PaymentCollection * Z) :=
  rows_ ← ask "ListPaymentCollections" "the payment collections could not be listed" [] (fun _ b _ => Rows
    (paged limit offset (newest_first pc_CreatedAt pc_ID
      (filter (fun c => collection_matches reference status c = true) (rows (bk_collections b))))));
  total ← ask "CountPaymentCollections" "the payment collections could not be counted" [] (fun _ b _ => Rows
    (Z.of_nat (length (filter (fun c => collection_matches reference status c = true) (rows (bk_collections b))))));
  mret (rows_, total).

Definition PaymentCollectionsByIDs (ids : list string) : tx (Sys W) (list PaymentCollection) :=
  match ids with
  | [] => mret []
  | _ => ask "GetPaymentCollectionsByIDs" "the payment collections could not be read" [] (fun _ b _ => Rows
      (SortFunc (cmp_on pc_ID cmpS) (filter (fun c => pc_ID c ∈ ids) (rows (bk_collections b)))))
  end.

Definition set_totals (now : moment) (status : CollectionStatus) (authorized captured refunded : Z)
    (c : PaymentCollection) : PaymentCollection :=
  mkPaymentCollection (pc_ID c) (pc_Reference c) (pc_Amount c) (pc_CurrencyCode c) (pc_CustomerID c)
    status authorized captured refunded (pc_Metadata c) (pc_CreatedAt c) now.

Definition UpdatePaymentCollectionTotals (id : string) (status : CollectionStatus)
    (authorized captured refunded : Z) : tx (Sys W) PaymentCollection :=
  one (collectionNotFound id) (put "UpdatePaymentCollectionTotals" "the payment collection could not be updated" []
    (fun now b =>
      match bk_collections b !! id with
      | None => Rows (b, None)
      | Some c =>
          let row := set_totals now status authorized captured refunded c in
          checked (collection_checks row) (set_collections (<[id := row]> (bk_collections b)) b, Some row)
      end)).

(** ** Sessions *)

Definition new_session_row (now : moment) (s : PaymentSession) : PaymentSession :=
  mkPaymentSession (ps_ID s) (ps_PaymentCollectionID s) (ps_ProviderID s) (ps_ExternalID s) (ps_Status s)
    (ps_Amount s) (ps_AuthorizedAmount s) (ps_CurrencyCode s) (toJSONRaw (ps_Data s)) (ps_IdempotencyKey s)
    EmptyString now now.

Definition same_key (providerID key : string) (s : PaymentSession) : bool :=
  bool_decide (ps_ProviderID s = providerID) && bool_decide (ps_IdempotencyKey s = key).

Definition session_of_key (providerID key : string) (b : Books) : option PaymentSession :=
  head (filter (fun s => same_key providerID key s = true) (rows (bk_sessions b))).

Definition CreatePaymentSession (s : PaymentSession) : tx (Sys W) PaymentSession :=
  put "CreatePaymentSession" "the payment session could not be created" [] (fun now b =>
    let row := new_session_row now s in
    match bk_sessions b !! ps_ID s, session_of_key (ps_ProviderID s) (ps_IdempotencyKey s) b,
          bk_collections b !! ps_PaymentCollectionID s with
    | Some _, _, _ => refuse sqlStateUniqueViolation "payment_sessions_pkey"
    | None, Some _, _ => refuse sqlStateUniqueViolation "payment_sessions_provider_idempotency_uniq"
    | None, None, None => refuse sqlStateForeignKeyViolation "payment_sessions_payment_collection_id_fkey"
    | None, None, Some _ => checked (session_checks row) (set_sessions (<[ps_ID s := row]> (bk_sessions b)) b, row)
    end).

Definition GetPaymentSession (id : string) : tx (Sys W) PaymentSession :=
  one (sessionNotFound id) (ask "GetPaymentSession" "the payment session could not be read" []
    (fun _ b _ => Rows (bk_sessions b !! id))).

Definition LockPaymentSession (id : string) : tx (Sys W) PaymentSession :=
  one (sessionNotFound id) (ask "LockPaymentSession" "the payment session could not be locked" []
    (fun _ b _ => Rows (bk_sessions b !! id))).

Definition PaymentSessionByIdempotencyKey (providerID key : string) : tx (Sys W) PaymentSession :=
  one (NotFound codeSessionNotFound "no session was opened with this idempotency key: %s/%s" [AStr providerID; AStr key])
    (ask "GetPaymentSessionByIdempotencyKey" "the payment session could not be read" []
      (fun _ b _ => Rows (session_of_key providerID key b))).

Definition sessions_of (id : string) (b : Books) : list PaymentSession :=
  filter (fun s => ps_PaymentCollectionID s = id) (rows (bk_sessions b)).

Definition ListPaymentSessionsByCollection (id : string) : tx (Sys W) (list PaymentSession) :=
  ask "ListPaymentSessionsByCollection" "the payment sessions could not be listed" []
    (fun _ b _ => Rows (newest_first ps_CreatedAt ps_ID (sessions_of id b))).

Definition is_live (s : PaymentSession) : Prop := ps_Status s ∈ [SessionPending; SessionAuthorized].

#[export] Instance is_live_dec s : Decision (is_live s).
Proof. unfold is_live. apply _. Defined.

Definition count_if (P : PaymentSession -> Prop) `{!forall s, Decision (P s)} (l : list PaymentSession) : Z :=
  Z.of_nat (length (filter P l)).

Definition SessionCounts_of (id : string) (b : Books) : SessionCounts :=
  mkSessionCounts
    (count_if is_live (sessions_of id b))
    (count_if (fun s => ps_Status s = SessionCanceled) (sessions_of id b))
    (count_if (fun s => ps_Status s = SessionFailed) (sessions_of id b))
    (Z.of_nat (length (sessions_of id b))).

Definition SessionCounts (id : string) : tx (Sys W) SessionCounts :=
  ask "CountPaymentSessionStates" "the payment sessions could not be counted" []
    (fun _ b _ => Rows (SessionCounts_of id b)).

(** What a live session reserves of its collection. *)
Definition reserved (s : PaymentSession) : Z :=
  if bool_decide (ps_Status s = SessionPending) then ps_Amount s
  else if bool_decide (ps_Status s = SessionAuthorized) then ps_AuthorizedAmount s
  else 0.

Definition LiveSessionAmount (id : string) : tx (Sys W) Z :=
  ask "SumLiveSessionAmounts" "the live session amounts could not be summed" []
    (fun _ b _ => to_bigint (sumZ (reserved <$> sessions_of id b))).

Definition set_session_state (now : moment) (status : SessionStatus) (authorized : Z) (data : raw)
    (reason : string) (s : PaymentSession) : PaymentSession :=
  mkPaymentSession (ps_ID s) (ps_PaymentCollectionID s) (ps_ProviderID s) (ps_ExternalID s) status
    (ps_Amount s) authorized (ps_CurrencyCode s) (toJSONRaw data) (ps_IdempotencyKey s) reason (ps_CreatedAt s) now.

Definition UpdatePaymentSessionState (id : string) (status : SessionStatus) (authorized : Z) (data : raw)
    (reason : string) : tx (Sys W) PaymentSession :=
  one (sessionNotFound id) (put "UpdatePaymentSessionState" "the payment session could not be updated" []
    (fun now b =>
      match bk_sessions b !! id with
      | None => Rows (b, None)
      | Some s =>
          let row := set_session_state now status authorized data reason s in
          checked (session_checks row) (set_sessions (<[id := row]> (bk_sessions b)) b, Some row)
      end)).

(** ** Captures and refunds *)

Definition new_payment_row (now : moment) (p : Payment) : Payment :=
  mkPayment (py_ID p) (py_PaymentSessionID p) (py_PaymentCollectionID p) (py_Amount p) (py_CurrencyCode p)
    0 (py_CapturedAt p) now now.

Definition payment_of_session (id : string) (b : Books) : option Payment :=
  head (filter (fun p => py_PaymentSessionID p = id) (rows (bk_payments b))).

Definition CreatePayment (p : Payment) : tx (Sys W) Payment :=
  put "CreatePayment" "the capture could not be created" [] (fun now b =>
    let row := new_payment_row now p in
    match bk_payments b !! py_ID p, payment_of_session (py_PaymentSessionID p) b,
          bk_sessions b !! py_PaymentSessionID p, bk_collections b !! py_PaymentCollectionID p with
    | Some _, _, _, _ => refuse sqlStateUniqueViolation "payments_pkey"
    | None, Some _, _, _ => refuse sqlStateUniqueViolation "payments_session_uniq"
    | None, None, None, _ => refuse sqlStateForeignKeyViolation "payments_payment_session_id_fkey"
    | None, None, Some _, None => refuse sqlStateForeignKeyViolation "payments_payment_collection_id_fkey"
    | None, None, Some _, Some _ =>
        checked (payment_checks row) (set_payments (<[py_ID p := row]> (bk_payments b)) b, row)
    end).

Definition GetPayment (id : string) : tx (Sys W) Payment :=
  one (paymentNotFound id) (ask "GetPayment" "the capture could not be read" []
    (fun _ b _ => Rows (bk_payments b !! id))).

Definition LockPayment (id : string) : tx (Sys W) Payment :=
  one (paymentNotFound id) (ask "LockPayment" "the capture could not be locked" []
    (fun _ b _ => Rows (bk_payments b !! id))).

Definition PaymentBySession (id : string) : tx (Sys W) Payment :=
  one (NotFound codePaymentNotFound "no capture came from the session: %s" [AStr id])
    (ask "GetPaymentBySession" "the capture could not be read" [] (fun _ b _ => Rows (payment_of_session id b))).

Definition payments_of (id : string) (b : Books) : list Payment :=
  filter (fun p => py_PaymentCollectionID p = id) (rows (bk_payments b)).

Definition ListPaymentsByCollection (id : string) : tx (Sys W) (list Payment) :=
  ask "ListPaymentsByCollection" "the captures could not be listed" []
    (fun _ b _ => Rows (newest_first py_CreatedAt py_ID (payments_of id b))).

Definition set_refunded (now : moment) (refunded : Z) (p : Payment) : Payment :=
  mkPayment (py_ID p) (py_PaymentSessionID p) (py_PaymentCollectionID p) (py_Amount p) (py_CurrencyCode p)
    refunded (py_CapturedAt p) (py_CreatedAt p) now.

Definition UpdatePaymentRefundedAmount (id : string) (refunded : Z) : tx (Sys W) Payment :=
  one (paymentNotFound id) (put "UpdatePaymentRefundedAmount" "the capture could not be updated" []
    (fun now b =>
      match bk_payments b !! id with
      | None => Rows (b, None)
      | Some p =>
          let row := set_refunded now refunded p in
          checked (payment_checks row) (set_payments (<[id := row]> (bk_payments b)) b, Some row)
      end)).

Definition new_refund_row (now : moment) (r : Refund) : Refund :=
  mkRefund (rf_ID r) (rf_PaymentID r) (rf_Amount r) (rf_Reason r) (rf_Reference r) now now.

Definition CreateRefund (r : Refund) : tx (Sys W) Refund :=
  put "CreateRefund" "the refund could not be created" [] (fun now b =>
    let row := new_refund_row now r in
    match bk_refunds b !! rf_ID r, bk_payments b !! rf_PaymentID r with
    | Some _, _ => refuse sqlStateUniqueViolation "refunds_pkey"
    | None, None => refuse sqlStateForeignKeyViolation "refunds_payment_id_fkey"
    | None, Some _ =>
        checked [chk "refunds_amount_positive" (0 <? rf_Amount r); chk "refunds_reference_trimmed" (btrimmed (rf_Reference r))]
          (set_refunds (<[rf_ID r := row]> (bk_refunds b)) b, row)
    end).

Definition refunds_of (id : string) (b : Books) : list Refund :=
  filter (fun r => rf_PaymentID r = id) (rows (bk_refunds b)).

Definition ListRefundsByPayment (id : string) : tx (Sys W) (list Refund) :=
  ask "ListRefundsByPayment" "the refunds could not be listed" []
    (fun _ b _ => Rows (newest_first rf_CreatedAt rf_ID (refunds_of id b))).

Definition refunds_naming (reference : string) (b : Books) : list Refund :=
  filter (fun r => rf_Reference r = reference /\ rf_Reference r <> EmptyString) (rows (bk_refunds b)).

Definition RefundedForReference (reference : string) : tx (Sys W) Z :=
  ask "RefundedForReference" "the refunds of cause %s could not be summed" [AStr reference]
    (fun _ b _ => to_bigint (sumZ (rf_Amount <$> refunds_naming reference b))).

(** What a collection captured and did not refund, through every provider but the excluded. *)
Definition net_of (excluded : list string) (b : Books) (p : Payment) : Z :=
  match bk_sessions b !! py_PaymentSessionID p with
  | Some s => if bool_decide (ps_ProviderID s ∈ excluded) then 0 else py_Amount p - py_RefundedAmount p
  | None => 0
  end.

Definition CollectionNetCapturedExcludingProviders (id : string) (excluded : list string) : tx (Sys W) Z :=
  ask "CollectionNetCapturedExcludingProviders" "the collection's captures could not be summed by provider" []
    (fun _ b _ => to_bigint (sumZ (net_of excluded b <$> payments_of id b))).

(** [outbox.Write]: [ON CONFLICT (id) DO NOTHING]. *)
Definition event_check (e : OutboxEvent) : option err :=
  if bool_decide (ob_Name e = EmptyString)
  then Some (Invalid "outbox_invalid_event" "an outbox event needs a name" [])
  else if bool_decide (ob_ID e = EmptyString)
  then Some (Invalid "outbox_invalid_event"
    "an outbox event needs an id; without one a retry writes a SECOND event instead of the same one" [])
  else None.

Definition insert_event (e : OutboxEvent) (b : Books) : Books :=
  match bk_outbox b !! ob_ID e with
  | Some _ => b
  | None => set_outbox (<[ob_ID e := e]> (bk_outbox b)) b
  end.

Definition driver_error (d : dberr) : err :=
  match d with DriverError e => e | PgError s c => out_refusal s c end.

Definition write_event (e : OutboxEvent) : tx (Sys W) unit := fun st =>
  match out_fault "WriteOutboxEvent" (sy_outside st) with
  | (w, Some d) =>
      (set_outside w st, Fail (wrap (driver_error d) KindInternal "outbox_write_failed"
        "event %q could not be written to the outbox" [AStr (ob_Name e)]))
  | (w, None) => (mkSys (insert_event e (sy_books st)) (sy_tills st) w, Ok tt)
  end.

Definition WriteOutboxEvent (e : OutboxEvent) : tx (Sys W) unit :=
  _ ← tx_check (event_check e); write_event e.

(** ** What reconciliation and the reports read: [repository/reconcile.go], [overdue.go],
    [session_reports.go] *)

Definition oldest_first {A} (at_ : A -> moment) (id : A -> string) (l : list A) : list A :=
  SortFunc (cmp_then (cmp_on at_ cmpZ) (cmp_on id cmpS)) l.

Definition SessionsOfCollections (ids : list string) : tx (Sys W) (list PaymentSession) :=
  match ids with
  | [] => mret []
  | _ => ask "ListPaymentSessionsOfCollections" "the collections' payment sessions could not be read" []
      (fun _ b _ => Rows (oldest_first ps_CreatedAt ps_ID
        (filter (fun s => ps_PaymentCollectionID s ∈ ids) (rows (bk_sessions b)))))
  end.

(** The queries order by [updated_at] alone; sessions of one moment may come in any order. *)
Definition ListSessionsForReconciliation (unchangedSince : moment) (excluded : list string) (limit : Z)
    : tx (Sys W) (list PaymentSession) :=
  ask "ListSessionsForReconciliation" "the sessions to reconcile could not be listed" [] (fun _ b _ => Rows
    (paged limit 0 (oldest_first ps_UpdatedAt ps_ID (filter (fun s =>
      ps_Status s = SessionAuthorized /\ ps_UpdatedAt s < unchangedSince /\ ps_ProviderID s ∉ excluded)
      (rows (bk_sessions b)))))).

Definition ListPendingSessionsForReconciliation (unchangedSince settledAfter : moment) (providerIDs : list string)
    (limit : Z) : tx (Sys W) (list PaymentSession) :=
  match providerIDs with
  | [] => mret []
  | _ => ask "ListPendingSessionsForReconciliation" "the pending sessions to reconcile could not be listed" []
      (fun _ b _ => Rows (paged limit 0 (newest_first ps_UpdatedAt ps_ID (filter (fun s =>
        ps_Status s ∈ [SessionPending; SessionCanceled] /\ ps_UpdatedAt s < unchangedSince /\
        settledAfter <= ps_UpdatedAt s /\ ps_ProviderID s ∈ providerIDs) (rows (bk_sessions b))))))
  end.

(** The cutoff of a session's provider: the first of the list that is its. *)
Fixpoint cutoff_of (providerIDs : list string) (cutoffs : list moment) (id : string) : option moment :=
  match providerIDs, cutoffs with
  | p :: ps, c :: cs => if decide (p = id) then Some c else cutoff_of ps cs id
  | _, _ => None
  end.

Definition is_overdue (providerIDs : list string) (cutoffs : list moment) (after : moment * string) (b : Books)
    (s : PaymentSession) : bool :=
  bool_decide (ps_Status s = SessionAuthorized) &&
  match cutoff_of providerIDs cutoffs (ps_ProviderID s) with None => false | Some c => ps_CreatedAt s <? c end &&
  (0 <? cmp_then (cmp_on fst cmpZ) (cmp_on snd cmpS) (ps_CreatedAt s, ps_ID s) after) &&
  match bk_collections b !! ps_PaymentCollectionID s with
  | None => false
  | Some c => pc_CapturedAmount c =? 0
  end.

Definition ListOverdueOfflineSessions (providerIDs : list string) (cutoffs : list moment) (after : moment * string)
    (limit : Z) : tx (Sys W) (list PaymentSession) :=
  ask "ListOverdueOfflineSessions" "the overdue offline sessions could not be listed" [] (fun _ b _ => Rows
    (paged limit 0 (oldest_first ps_CreatedAt ps_ID
      (filter (fun s => is_overdue providerIDs cutoffs after b s = true) (rows (bk_sessions b)))))).

Definition ListSessionsByExternalID (providerID externalID : string) : tx (Sys W) (list PaymentSession) :=
  ask "ListSessionsByExternalID" "the sessions of %s at %s could not be listed" [AStr externalID; AStr providerID]
    (fun _ b _ => Rows (oldest_first ps_CreatedAt ps_ID
      (filter (fun s => ps_ProviderID s = providerID /\ ps_ExternalID s = externalID) (rows (bk_sessions b))))).

Definition RecordSessionReport (sessionID : string) (firstDue : moment) : tx (Sys W) bool :=
  put "RecordSessionReport" "the report of session %s could not be recorded" [AStr sessionID] (fun now b =>
    match bk_reports b !! sessionID, bk_sessions b !! sessionID with
    | Some _, _ => Rows (b, false)
    | None, None => refuse sqlStateForeignKeyViolation "payment_session_reports_session_id_fkey"
    | None, Some _ =>
        Rows (set_reports (<[sessionID := mkSessionReport sessionID now 0 firstDue EmptyString EmptyString None]>
          (bk_reports b)) b, true)
    end).

Definition ListDueSessionReports (dueBy : moment) (limit : Z) : tx (Sys W) (list SessionReport) :=
  ask "ListDueSessionReports" "the due session reports could not be listed" [] (fun _ b _ => Rows
    (paged limit 0 (oldest_first sr_NextAttemptAt sr_SessionID
      (filter (fun r => sr_Outcome r = EmptyString /\ sr_NextAttemptAt r <= dueBy) (rows (bk_reports b)))))).

(** A missing report is the driver's error, which [classify] does not tell from any other. *)
Definition ErrNoRows : err := Sentinel "no rows in result set".

Definition GetSessionReport (sessionID : string) : tx (Sys W) SessionReport :=
  ask "GetSessionReport" "the report of session %s could not be read" [AStr sessionID] (fun _ b _ =>
    match bk_reports b !! sessionID with Some r => Rows r | None => Refused (DriverError ErrNoRows) end).

Definition RecordSessionReportAttempt (sessionID failure : string) (next : moment) : tx (Sys W) bool :=
  put "RecordSessionReportAttempt" "the attempt on session %s could not be recorded" [AStr sessionID] (fun _ b =>
    match bk_reports b !! sessionID with
    | Some r =>
        if bool_decide (sr_Outcome r = EmptyString)
        then Rows (set_reports (<[sessionID := mkSessionReport sessionID (sr_ReportedAt r) (sr_Attempts r + 1) next
          failure EmptyString (sr_SettledAt r)]> (bk_reports b)) b, true)
        else Rows (b, false)
    | None => Rows (b, false)
    end).

(** The outcomes the schema knows; an open report has the empty one. *)
Definition report_outcomes : list string := [EmptyString; "completed"; "refunded"; "closed"; "left"; "gave_up"].

Definition SettleSessionReport (sessionID outcome note : string) : tx (Sys W) bool :=
  put "SettleSessionReport" "the report of session %s could not be settled" [AStr sessionID] (fun now b =>
    match bk_reports b !! sessionID with
    | Some r =>
        if bool_decide (sr_Outcome r = EmptyString)
        then checked [chk "payment_session_reports_outcome_known" (bool_decide (outcome ∈ report_outcomes));
              chk "payment_session_reports_settled_with_outcome" (negb (bool_decide (outcome = EmptyString)))]
          (set_reports (<[sessionID := mkSessionReport sessionID (sr_ReportedAt r) (sr_Attempts r)
          (sr_NextAttemptAt r) note outcome (Some now)]> (bk_reports b)) b, true)
        else Rows (b, false)
    | None => Rows (b, false)
    end).

Definition RecordSessionAnswer (sessionID : string) (digest : list Z) : tx (Sys W) unit :=
  put "RecordSessionAnswer" "the completion secret of session %s could not be kept" [AStr sessionID] (fun _ b =>
    match bk_answers b !! sessionID, bk_sessions b !! sessionID with
    | Some _, _ => refuse sqlStateUniqueViolation "payment_session_answers_pkey"
    | None, None => refuse sqlStateForeignKeyViolation "payment_session_answers_session_id_fkey"
    | None, Some _ =>
        checked [chk "payment_session_answers_digest_width" (Nat.eqb (length digest) 32)]
          (set_answers (<[sessionID := mkSessionAnswer digest None]> (bk_answers b)) b, tt)
    end).

Definition ClaimSessionAnswer (sessionID : string) (digest : list Z) : tx (Sys W) bool :=
  put "ClaimSessionAnswer" "the answer of session %s could not be claimed" [AStr sessionID] (fun now b =>
    match bk_answers b !! sessionID with
    | Some (mkSessionAnswer d None) =>
        if bool_decide (d = digest)
        then Rows (set_answers (<[sessionID := mkSessionAnswer d (Some now)]> (bk_answers b)) b, true)
        else Rows (b, false)
    | _ => Rows (b, false)
    end).
End Statements.
