(* ===== verification/PaymentRules.v ===== *)
(** * Rules for the payment module's computations

    A view is the part of the system a proof looks at: the books or the tills. [keeps] says that a
    computation leaves a view alone, [gives] what holds of the answer and the view when it succeeds, and
    [steps] how the view after it, failed or not, relates to the view before. *)
From S2P Require Import Prelude GoText Errors Tx Identifiers Database PaymentModels PaymentStore.

Class View {W X} (view : Sys W -> X) := view_outside : forall w st, view (set_outside w st) = view st.

#[export] Instance books_view W : View (@sy_books W). Proof. done. Qed.
#[export] Instance tills_view W : View (@sy_tills W). Proof. done. Qed.

Section Views.
Context {W : Type} `{!Outside W} {X : Type} (view : Sys W -> X) `{!View view}.

Definition keeps {A} (m : tx (Sys W) A) : Prop := forall st, view (m st).1 = view st.

Definition gives {A} (x : X) (m : tx (Sys W) A) (Q : A -> X -> Prop) : Prop :=
  forall st st' a, view st = x -> m st = (st', Ok a) -> Q a (view st').

Definition steps {A} (R : X -> X -> Prop) (m : tx (Sys W) A) : Prop := forall st, R (view st) (view (m st).1).

(** ** What leaves the view alone *)

Lemma keeps_ret {A} (a : A) : keeps (mret a).
Proof. by intros st. Qed.

Lemma keeps_of {A} (r : result A) : keeps (tx_of r).
Proof. by intros st. Qed.

Lemma keeps_check c : keeps (tx_check c).
Proof. by intros st. Qed.

Lemma keeps_read {A} (f : Sys W -> result A) : keeps (tx_read f).
Proof. by intros st. Qed.

Lemma keeps_bind {A B} (m : tx (Sys W) A) (f : A -> tx (Sys W) B) :
  keeps m -> (forall a, keeps (f a)) -> keeps (m ≫= f).
Proof.
  intros Hm Hf st. unfold mbind, tx_bind. specialize (Hm st). destruct (m st) as [st1 [a|e]]; [|exact Hm].
  etrans; [apply Hf|exact Hm].
Qed.

Lemma keeps_new_id prefix : keeps (new_id prefix).
Proof. intros st. unfold new_id. destruct (out_seed _). apply view_outside. Qed.

Lemma keeps_clock : keeps clock.
Proof. intros st. unfold clock. destruct (out_clock _). apply view_outside. Qed.

Lemma keeps_one {A} e (m : tx (Sys W) (option A)) : keeps m -> keeps (one e m).
Proof. intros H. apply keeps_bind; [done|]. intros []; [apply keeps_ret|apply keeps_of]. Qed.

Lemma keeps_ignore {A} (m : tx (Sys W) A) : keeps m -> keeps (ignore m).
Proof. intros H. apply keeps_bind; [done|]. intros a. apply keeps_ret. Qed.

Lemma keeps_WithTx {A} inside (m : tx (Sys W) A) : keeps m -> keeps (WithTx inside m).
Proof.
  intros H. destruct inside; [exact H|]. intros st. unfold WithTx.
  destruct (out_fault _ _) as [w [d|]]; [apply view_outside|].
  specialize (H (set_outside w st)). destruct (m _) as [st' [a|e]]; [|apply view_outside].
  destruct (out_fault _ _) as [w' [d|]]; cbn [fst]; rewrite view_outside; [done|].
  etrans; [exact H|apply view_outside].
Qed.

(** ** What a success gives *)

Lemma gives_keep {A} x (m : tx (Sys W) A) (Q : A -> X -> Prop) : keeps m -> (forall a, Q a x) -> gives x m Q.
Proof. intros Hm HQ st st' a <- E. specialize (Hm st). rewrite E in Hm. cbn in Hm. rewrite Hm. apply HQ. Qed.

Lemma gives_ret {A} x (a : A) (Q : A -> X -> Prop) : Q a x -> gives x (mret a) Q.
Proof. by intros H st st' a' <- [= <- <-]. Qed.

Lemma gives_of {A} x (r : result A) (Q : A -> X -> Prop) : (forall a, r = Ok a -> Q a x) -> gives x (tx_of r) Q.
Proof. intros H st st' a <- [= <- E]. by apply H. Qed.

Lemma gives_check x c (Q : unit -> X -> Prop) : (c = None -> Q tt x) -> gives x (tx_check c) Q.
Proof. intros H st st' [] <-. unfold tx_check. destruct c; intros [= <-]. by apply H. Qed.

Lemma gives_bind {A B} x (m : tx (Sys W) A) (f : A -> tx (Sys W) B) Q :
  gives x m (fun a x1 => gives x1 (f a) Q) -> gives x (m ≫= f) Q.
Proof.
  intros H st st' b Ex. unfold mbind, tx_bind. destruct (m st) as [st1 [a|e]] eqn:E; [|done].
  by apply (H st st1 a Ex E).
Qed.

Lemma gives_mono {A} x (m : tx (Sys W) A) (P Q : A -> X -> Prop) :
  gives x m P -> (forall a x', P a x' -> Q a x') -> gives x m Q.
Proof. intros H HPQ st st' a Ex E. eapply HPQ, H; done. Qed.

Lemma gives_one {A} x e (m : tx (Sys W) (option A)) (Q : A -> X -> Prop) :
  gives x m (fun r x' => forall a, r = Some a -> Q a x') -> gives x (one e m) Q.
Proof.
  intros H. apply gives_bind. eapply gives_mono; [exact H|]. intros [a|] x' HQ.
  - apply gives_ret. by apply HQ.
  - by apply gives_of.
Qed.

Lemma gives_ignore {A} x (m : tx (Sys W) A) (Q : unit -> X -> Prop) :
  gives x m (fun _ => Q tt) -> gives x (ignore m) Q.
Proof. intros H. apply gives_bind. eapply gives_mono; [exact H|]. intros a x' HQ. by apply gives_ret. Qed.

Lemma gives_inside {A} x (m : tx (Sys W) A) Q : gives x m Q -> gives x (WithTx true m) Q.
Proof. done. Qed.

Lemma gives_outside {A} x (m : tx (Sys W) A) (Q : A -> X -> Prop) : gives x m Q -> gives x (WithTx false m) Q.
Proof.
  intros H st st' a Ex. unfold WithTx. destruct (out_fault _ _) as [w [d|]]; [done|].
  destruct (m _) as [st1 [b|e]] eqn:E; [|done]. destruct (out_fault _ _) as [w' [d|]]; [done|]. intros [= <- <-].
  rewrite view_outside. eapply H; [|exact E]. by rewrite view_outside.
Qed.

(** A guard that fails is not followed. *)
Lemma gives_fail {A} x e (Q : A -> X -> Prop) : gives x (tx_of (Fail e)) Q.
Proof. by apply gives_of. Qed.

(** A read: the question's answer, about the view as it is. *)
Lemma gives_statement {A} x name format a (f : moment -> Books -> Tills -> answer (Books * Tills * A)) Q :
  (forall st, view st = x ->
    forall now b t y, f now (sy_books st) (sy_tills st) = Rows (b, t, y) -> forall w, Q y (view (mkSys b t w))) ->
  gives x (statement name format a f) Q.
Proof.
  intros H st st' y Ex. unfold statement. destruct (out_fault _ _) as [w [d|]]; [done|].
  destruct (f _ _ _) as [[[b t] z]|d] eqn:E; [|done]. intros [= <- <-]. by eapply H.
Qed.

(** ** Failures *)

(** A failure leaves the view as it was. *)
Definition undone {A} (m : tx (Sys W) A) : Prop := forall st st' e, m st = (st', Fail e) -> view st' = view st.

Lemma undone_keeps {A} (m : tx (Sys W) A) : keeps m -> undone m.
Proof. intros H st st' e E. specialize (H st). by rewrite E in H. Qed.

Lemma undone_WithTx {A} (m : tx (Sys W) A) : undone (WithTx false m).
Proof.
  intros st st' e. unfold WithTx. destruct (out_fault _ _) as [w [d|]]; [intros [= <- _]; apply view_outside|].
  destruct (m _) as [st1 [a|e']]; [|intros [= <- _]; apply view_outside].
  destruct (out_fault _ _) as [w' [d|]]; [|done]. intros [= <- _]. apply view_outside.
Qed.

Lemma undone_before {A B} (m : tx (Sys W) A) (f : A -> tx (Sys W) B) :
  keeps m -> (forall a, undone (f a)) -> undone (m ≫= f).
Proof.
  intros Hm Hf st st' e. unfold mbind, tx_bind. specialize (Hm st). destruct (m st) as [st1 [a|e1]]; cbn in Hm.
  - intros E. by rewrite (Hf a _ _ _ E).
  - by intros [= <- _].
Qed.

Lemma undone_after {A B} (m : tx (Sys W) A) (f : A -> tx (Sys W) B) :
  undone m -> (forall a st, is_ok (f a st).2 = true) -> undone (m ≫= f).
Proof.
  intros Hm Hf st st' e. unfold mbind, tx_bind. specialize (Hm st). destruct (m st) as [st1 [a|e1]].
  - intros E. specialize (Hf a st1). by rewrite E in Hf.
  - intros [= <- <-]. by eapply Hm.
Qed.

(** ** Steps *)

Lemma steps_keeps {A} (R : X -> X -> Prop) (m : tx (Sys W) A) : (forall x, R x x) -> keeps m -> steps R m.
Proof. intros HR H st. rewrite H. apply HR. Qed.

Lemma steps_before {A B} R (m : tx (Sys W) A) (f : A -> tx (Sys W) B) :
  (forall x, R x x) -> keeps m -> (forall a, steps R (f a)) -> steps R (m ≫= f).
Proof.
  intros HR Hm Hf st. unfold mbind, tx_bind. specialize (Hm st). destruct (m st) as [st1 [a|e]]; cbn in *.
  - rewrite <- Hm. apply Hf.
  - rewrite Hm. apply HR.
Qed.

(** What comes before may also tell something of its answer. *)
Lemma steps_given {A B} R (P : A -> Prop) (m : tx (Sys W) A) (f : A -> tx (Sys W) B) :
  (forall x, R x x) -> keeps m -> (forall st st' a, m st = (st', Ok a) -> P a) -> (forall a, P a -> steps R (f a)) ->
  steps R (m ≫= f).
Proof.
  intros HR Hm HP Hf st. unfold mbind, tx_bind. specialize (Hm st). destruct (m st) as [st1 [a|e]] eqn:E; cbn in *.
  - rewrite <- Hm. apply Hf. by eapply HP.
  - rewrite Hm. apply HR.
Qed.

Lemma steps_after {A B} R (m : tx (Sys W) A) (f : A -> tx (Sys W) B) :
  steps R m -> (forall a, keeps (f a)) -> steps R (m ≫= f).
Proof.
  intros Hm Hf st. unfold mbind, tx_bind. specialize (Hm st). destruct (m st) as [st1 [a|e]]; cbn in *; [|done].
  by rewrite Hf.
Qed.

Lemma steps_bind {A B} R (m : tx (Sys W) A) (f : A -> tx (Sys W) B) :
  (forall x y z, R x y -> R y z -> R x z) -> steps R m -> (forall a, steps R (f a)) -> steps R (m ≫= f).
Proof.
  intros HR Hm Hf st. unfold mbind, tx_bind. specialize (Hm st). destruct (m st) as [st1 [a|e]]; cbn in *; [|done].
  eapply HR; [exact Hm|apply Hf].
Qed.

Lemma steps_mono {A} (R R' : X -> X -> Prop) (m : tx (Sys W) A) : (forall x y, R x y -> R' x y) -> steps R m -> steps R' m.
Proof. intros HR H st. apply HR, H. Qed.

(** The same from one state of the view, where what came before told something of it. *)
Definition steps_at {A} (x : X) (R : X -> X -> Prop) (m : tx (Sys W) A) : Prop :=
  forall st, view st = x -> R x (view (m st).1).

Lemma steps_everywhere {A} R (m : tx (Sys W) A) : (forall x, steps_at x R m) -> steps R m.
Proof. intros H st. by apply H. Qed.

Lemma steps_at_any {A} x R (m : tx (Sys W) A) : steps R m -> steps_at x R m.
Proof. intros H st <-. apply H. Qed.

Lemma steps_at_read {A B} x R (P : A -> Prop) (m : tx (Sys W) A) (f : A -> tx (Sys W) B) :
  R x x -> keeps m -> gives x m (fun a _ => P a) -> (forall a, P a -> steps_at x R (f a)) -> steps_at x R (m ≫= f).
Proof.
  intros HR Hm HP Hf st Ex. unfold mbind, tx_bind. specialize (Hm st). specialize (HP st).
  destruct (m st) as [st1 [a|e]]; cbn in *; [|by rewrite Hm, Ex].
  apply Hf; [by eapply HP|congruence].
Qed.

Lemma steps_at_after {A B} x R (m : tx (Sys W) A) (f : A -> tx (Sys W) B) :
  steps_at x R m -> (forall a, keeps (f a)) -> steps_at x R (m ≫= f).
Proof.
  intros Hm Hf st Ex. unfold mbind, tx_bind. specialize (Hm st Ex). destruct (m st) as [st1 [a|e]]; cbn in *; [|done].
  by rewrite Hf.
Qed.

Lemma steps_at_WithTx {A} x (R : X -> X -> Prop) (m : tx (Sys W) A) :
  R x x -> gives x m (fun _ x' => R x x') -> steps_at x R (WithTx false m).
Proof.
  intros HR Hm st Ex. unfold WithTx. destruct (out_fault _ _) as [w [d|]]; cbn [fst]; [by rewrite view_outside, Ex|].
  destruct (m _) as [st' [a|e]] eqn:E; cbn [fst]; [|by rewrite view_outside, Ex].
  destruct (out_fault _ _) as [w' [d|]]; cbn [fst]; rewrite view_outside; [by rewrite Ex|].
  eapply Hm; [|exact E]. by rewrite view_outside.
Qed.

(** A transaction of its own takes the step of its body, or none. *)
Lemma steps_WithTx {A} (R : X -> X -> Prop) (m : tx (Sys W) A) :
  (forall x, R x x) -> (forall x, gives x m (fun _ x' => R x x')) -> steps R (WithTx false m).
Proof. intros HR Hm. apply steps_everywhere. intros x. by apply steps_at_WithTx. Qed.
End Views.

Section Reads.
Context {W : Type} `{!Outside W} {X : Type} (view : Sys W -> X) `{!View view}.

Lemma statement_kept {A} name format a (f : moment -> Books -> Tills -> answer (Books * Tills * A)) :
  (forall st now b t y, f now (sy_books st) (sy_tills st) = Rows (b, t, y) -> forall w, view (mkSys b t w) = view st) ->
  keeps view (statement name format a f).
Proof.
  intros H st. unfold statement. destruct (out_fault _ _) as [w [d|]]; [apply view_outside|].
  destruct (f _ _ _) as [[[b t] y]|d] eqn:E; [by eapply H|apply view_outside].
Qed.

Lemma keeps_ask {A} name format a (f : moment -> Books -> Tills -> answer A) : keeps view (ask name format a f).
Proof.
  apply (statement_kept _). intros st now b t y E w. destruct (f _ _ _); [|done]. injection E as <- <- <-.
  apply (view_outside w st).
Qed.
End Reads.

Section Groups.
Context {W : Type} `{!Outside W}.

Lemma keeps_put {A} name format a (f : moment -> Books -> answer (Books * A)) :
  keeps (@sy_tills W) (put name format a f).
Proof. apply (statement_kept _). intros st now b t y E w. destruct (f _ _) as [[b' x]|]; [|done]. by injection E as <- <- <-. Qed.

Lemma keeps_till {A} name format a (f : moment -> Tills -> answer (Tills * A)) :
  keeps (@sy_books W) (till name format a f).
Proof. apply (statement_kept _). intros st now b t y E w. destruct (f _ _) as [[b' x]|]; [|done]. by injection E as <- <- <-. Qed.

Lemma gives_ask_books {A} b name format a (f : moment -> Books -> Tills -> answer A) (Q : A -> Books -> Prop) :
  (forall now t y, f now b t = Rows y -> Q y b) -> gives (@sy_books W) b (ask name format a f) Q.
Proof.
  intros H. apply gives_statement. intros st <- now b' t y E w. destruct (f _ _ _) eqn:Ef; [|done].
  injection E as <- <- <-. by eapply H.
Qed.

Lemma gives_ask_tills {A} t name format a (f : moment -> Books -> Tills -> answer A) (Q : A -> Tills -> Prop) :
  (forall now b y, f now b t = Rows y -> Q y t) -> gives (@sy_tills W) t (ask name format a f) Q.
Proof.
  intros H. apply gives_statement. intros st <- now b' t' y E w. destruct (f _ _ _) eqn:Ef; [|done].
  injection E as <- <- <-. by eapply H.
Qed.

Lemma gives_put {A} b name format a (f : moment -> Books -> answer (Books * A)) (Q : A -> Books -> Prop) :
  (forall now b' y, f now b = Rows (b', y) -> Q y b') -> gives (@sy_books W) b (put name format a f) Q.
Proof.
  intros H. apply gives_statement. intros st <- now b' t y E w. destruct (f _ _) as [[b1 x]|] eqn:Ef; [|done].
  injection E as <- <- <-. by eapply H.
Qed.

Lemma steps_put {A} R name format a (f : moment -> Books -> answer (Books * A)) : (forall b, R b b) ->
  (forall now b b' y, f now b = Rows (b', y) -> R b b') -> steps (@sy_books W) R (put name format a f).
Proof.
  intros HR H st. unfold put, statement. destruct (out_fault _ _) as [w [d|]]; [apply HR|].
  destruct (f _ _) as [[b1 x]|] eqn:Ef; [|apply HR]. by eapply H.
Qed.

Lemma gives_till {A} t name format a (f : moment -> Tills -> answer (Tills * A)) (Q : A -> Tills -> Prop) :
  (forall now t' y, f now t = Rows (t', y) -> Q y t') -> gives (@sy_tills W) t (till name format a f) Q.
Proof.
  intros H. apply gives_statement. intros st <- now b' t' y E w. destruct (f _ _) as [[b1 x]|] eqn:Ef; [|done].
  injection E as <- <- <-. by eapply H.
Qed.
End Groups.

(** The tables: both groups together. *)
Definition tables {W} (st : Sys W) : Books * Tills := (sy_books st, sy_tills st).
#[export] Instance tables_view W : View (@tables W). Proof. done. Qed.

Lemma keeps_both {W A} (m : tx (Sys W) A) : keeps (@sy_books W) m -> keeps (@sy_tills W) m -> keeps (@tables W) m.
Proof. intros H1 H2 st. unfold tables. by rewrite H1, H2. Qed.

(** A statement that fails wrote nothing. *)
Lemma undone_statement {W} `{!Outside W} {A} name format a (f : moment -> Books -> Tills -> answer (Books * Tills * A)) :
  undone (@tables W) (statement name format a f).
Proof.
  intros st st' e. unfold statement. destruct (out_fault _ _) as [w [d|]]; [by intros [= <- _]|].
  destruct (f _ _ _) as [[[b t] y]|d]; [done|]. by intros [= <- _].
Qed.

Lemma undone_one {W} {A} e (m : tx (Sys W) (option A)) : undone (@tables W) m ->
  (forall st st', m st = (st', Ok None) -> tables st' = tables st) -> undone (@tables W) (one e m).
Proof.
  intros Hm Hn st st' e'. unfold one, mbind, tx_bind. specialize (Hm st). specialize (Hn st).
  destruct (m st) as [st1 [[x|]|e1]]; [done| |].
  - intros [= <- _]. by apply Hn.
  - intros [= <- <-]. by eapply Hm.
Qed.

(** ** Automation *)

Create HintDb keeps.
#[export] Hint Resolve keeps_ret keeps_of keeps_check keeps_read keeps_new_id keeps_clock keeps_ask keeps_put keeps_till
  keeps_one keeps_ignore keeps_WithTx : keeps.
#[export] Hint Extern 1 (View _) => typeclasses eauto : keeps.

(** Proves that a computation keeps a view, statement by statement. *)
Ltac keeps_tac :=
  repeat first
    [ solve [eauto 4 with keeps]
    | apply keeps_WithTx
    | apply keeps_bind; [|intros ?]
    | case_match ].

Lemma undone_transaction {W} `{!Outside W} {A} (m : tx (Sys W) A) : undone (@tables W) (WithTx false m).
Proof. apply undone_WithTx, _. Qed.

Lemma undone_ignore {W A} (m : tx (Sys W) A) : undone (@tables W) m -> undone (@tables W) (ignore m).
Proof. intros H. by apply undone_after. Qed.

Create HintDb undone.
#[export] Hint Resolve undone_transaction undone_statement undone_ignore : undone.

(** Proves that a failure of a computation undoes it: checks and reads, then one transaction or one
    statement, then what never fails. *)
Ltac undone_tac :=
  repeat first
    [ solve [eauto 3 with undone]
    | solve [apply undone_after; [solve [eauto 3 with undone]|intros; repeat case_match; done]]
    | apply undone_before; [solve [eauto 4 with keeps]|intros ?]
    | solve [apply undone_keeps; eauto 4 with keeps] ].
