(* ===== verification/PaymentTills.v ===== *)
(** * The tills: the statements of [repository/storecredit.go], [loyalty.go], [giftcard.go] and the
    manual provider's ledger

    The sessions and ledgers of the module's own providers. A ledger is only ever appended to. *)
From S2P Require Import Prelude GoText Errors Tx Identifiers Database PaymentModels PaymentStore.

Definition set_manual m t := mkTills m (tl_credit t) (tl_credit_sessions t) (tl_points t) (tl_point_sessions t) (tl_cards t) (tl_digests t) (tl_card_entries t) (tl_card_sessions t).
Definition set_credit l t := mkTills (tl_manual t) l (tl_credit_sessions t) (tl_points t) (tl_point_sessions t) (tl_cards t) (tl_digests t) (tl_card_entries t) (tl_card_sessions t).
Definition set_credit_sessions m t := mkTills (tl_manual t) (tl_credit t) m (tl_points t) (tl_point_sessions t) (tl_cards t) (tl_digests t) (tl_card_entries t) (tl_card_sessions t).
Definition set_points l t := mkTills (tl_manual t) (tl_credit t) (tl_credit_sessions t) l (tl_point_sessions t) (tl_cards t) (tl_digests t) (tl_card_entries t) (tl_card_sessions t).
Definition set_point_sessions m t := mkTills (tl_manual t) (tl_credit t) (tl_credit_sessions t) (tl_points t) m (tl_cards t) (tl_digests t) (tl_card_entries t) (tl_card_sessions t).
Definition set_cards m d t := mkTills (tl_manual t) (tl_credit t) (tl_credit_sessions t) (tl_points t) (tl_point_sessions t) m d (tl_card_entries t) (tl_card_sessions t).
Definition set_card_entries l t := mkTills (tl_manual t) (tl_credit t) (tl_credit_sessions t) (tl_points t) (tl_point_sessions t) (tl_cards t) (tl_digests t) l (tl_card_sessions t).
Definition set_card_sessions m t := mkTills (tl_manual t) (tl_credit t) (tl_credit_sessions t) (tl_points t) (tl_point_sessions t) (tl_cards t) (tl_digests t) (tl_card_entries t) m.

Definition state_checks (table : string) (amount authorized captured refunded : Z) (status : SessionStatus)
    : list (string * bool) := [
  chk (String.append table "_amount_positive") (0 <? amount);
  chk (String.append table "_authorized_nonneg") (0 <=? authorized);
  chk (String.append table "_captured_le_auth") (captured <=? authorized);
  chk (String.append table "_captured_nonneg") (0 <=? captured);
  chk (String.append table "_refund_le_capture") (refunded <=? captured);
  chk (String.append table "_refunded_nonneg") (0 <=? refunded);
  chk (String.append table "_status_valid") (SessionStatus_Valid status)].

Section Tills.
Context {W : Type} `{!Outside W}.

(** ** The manual provider's sessions *)

Definition manual_checks (s : ManualSession) : list (string * bool) :=
  state_checks "payment_manual_sessions" (ms_Amount s) (ms_AuthorizedAmount s) (ms_CapturedAmount s)
    (ms_RefundedAmount s) (ms_Status s).

Definition new_manual_row (now : moment) (s : ManualSession) : ManualSession :=
  mkManualSession (ms_ID s) (ms_IdempotencyKey s) (ms_Reference s) (ms_Amount s) (ms_CurrencyCode s)
    (ms_Status s) 0 0 0 (toJSONRaw (ms_Data s)) EmptyString now now.

Definition manual_of_key (key : string) (t : Tills) : option ManualSession :=
  head (filter (fun s => ms_IdempotencyKey s = key) (rows (tl_manual t))).

Definition InsertManualSessionIfAbsent (s : ManualSession) : tx (Sys W) (option ManualSession) :=
  till "InsertManualSessionIfAbsent" "the manual provider session could not be created" [] (fun now t =>
    let row := new_manual_row now s in
    match manual_of_key (ms_IdempotencyKey s) t, tl_manual t !! ms_ID s with
    | Some _, _ => Rows (t, None)
    | None, Some _ => refuse sqlStateUniqueViolation "payment_manual_sessions_pkey"
    | None, None => checked (manual_checks row) (set_manual (<[ms_ID s := row]> (tl_manual t)) t, Some row)
    end).

Definition ManualSession_ (id : string) : tx (Sys W) ManualSession :=
  one (manualSessionNotFound id) (ask "GetManualSession" "the manual provider session could not be read" []
    (fun _ _ t => Rows (tl_manual t !! id))).

Definition ManualSessionByIdempotencyKey (key : string) : tx (Sys W) ManualSession :=
  one (NotFound codeManualSessionNotFound "no provider session was opened with this idempotency key: %s" [AStr key])
    (ask "GetManualSessionByIdempotencyKey" "the manual provider session could not be read" []
      (fun _ _ t => Rows (manual_of_key key t))).

Definition LockManualSession (id : string) : tx (Sys W) ManualSession :=
  one (manualSessionNotFound id) (ask "LockManualSession" "the manual provider session could not be locked" []
    (fun _ _ t => Rows (tl_manual t !! id))).

Definition set_manual_state (now : moment) (status : SessionStatus) (authorized captured refunded : Z)
    (reason : string) (s : ManualSession) : ManualSession :=
  mkManualSession (ms_ID s) (ms_IdempotencyKey s) (ms_Reference s) (ms_Amount s) (ms_CurrencyCode s)
    status authorized captured refunded (ms_Data s) reason (ms_CreatedAt s) now.

Definition UpdateManualSessionState (id : string) (status : SessionStatus) (authorized captured refunded : Z)
    (reason : string) : tx (Sys W) ManualSession :=
  one (manualSessionNotFound id) (till "UpdateManualSessionState" "the manual provider session could not be updated" []
    (fun now t =>
      match tl_manual t !! id with
      | None => Rows (t, None)
      | Some s =>
          let row := set_manual_state now status authorized captured refunded reason s in
          checked (manual_checks row) (set_manual (<[id := row]> (tl_manual t)) t, Some row)
      end)).

(** ** The sessions of the balance tenders

    The three tables differ in their names and in what they call the owner; [table] is what they differ
    in. A gift card's session keeps no [partial] column. *)

Record table := mkTable {
  tb_noun : string;
  tb_queries : string;
  tb_name : string;
  tb_not_found : string;
  tb_get : Tills -> gmap string TenderSession;
  tb_set : gmap string TenderSession -> Tills -> Tills;
  (** The columns' foreign key on the owner, where the table has one. *)
  tb_owner_known : Tills -> string -> bool;
  tb_keeps_partial : bool
}.

Definition credit_table : table :=
  mkTable "store credit" "StoreCredit" "payment_store_credit_sessions" codeStoreCreditSessionNotFound tl_credit_sessions set_credit_sessions
    (fun _ _ => true) true.

Definition loyalty_table : table :=
  mkTable "loyalty" "Loyalty" "payment_loyalty_sessions" codeLoyaltySessionNotFound tl_point_sessions set_point_sessions
    (fun _ _ => true) true.

Definition card_table : table :=
  mkTable "gift card" "GiftCard" "payment_gift_card_sessions" codeGiftCardSessionNotFound tl_card_sessions set_card_sessions
    (fun t id => bool_decide (is_Some (tl_cards t !! id))) false.

Definition tender_checks (tb : table) (s : TenderSession) : list (string * bool) :=
  state_checks (tb_name tb) (ts_Amount s) (ts_AuthorizedAmount s) (ts_CapturedAmount s) (ts_RefundedAmount s)
    (ts_Status s) ++
  (if tb_keeps_partial tb then [chk (String.append (tb_name tb) "_customer_not_blank") (not_blank (ts_OwnerID s))] else []).

Definition new_tender_row (tb : table) (now : moment) (s : TenderSession) : TenderSession :=
  mkTenderSession (ts_ID s) (ts_IdempotencyKey s) (ts_Reference s) (ts_OwnerID s) (ts_Amount s) (ts_CurrencyCode s)
    (ts_Status s) (ts_Partial s && tb_keeps_partial tb) 0 0 0 EmptyString now now.

Definition tender_of_key (tb : table) (key : string) (t : Tills) : option TenderSession :=
  head (filter (fun s => ts_IdempotencyKey s = key) (rows (tb_get tb t))).

Definition InsertSessionIfAbsent (tb : table) (s : TenderSession) : tx (Sys W) (option TenderSession) :=
  till (String.append "Insert" (String.append (tb_queries tb) "SessionIfAbsent")) "the %s session could not be written"
    [AStr (tb_noun tb)] (fun now t =>
    let row := new_tender_row tb now s in
    match tender_of_key tb (ts_IdempotencyKey s) t, tb_get tb t !! ts_ID s with
    | Some _, _ => Rows (t, None)
    | None, Some _ => refuse sqlStateUniqueViolation (String.append (tb_name tb) "_pkey")
    | None, None =>
        if tb_owner_known tb t (ts_OwnerID s)
        then checked (tender_checks tb row) (tb_set tb (<[ts_ID s := row]> (tb_get tb t)) t, Some row)
        else refuse sqlStateForeignKeyViolation (String.append (tb_name tb) "_gift_card_id_fkey")
    end).

Definition SessionByIdempotencyKey (tb : table) (key : string) : tx (Sys W) TenderSession :=
  one (NotFound (tb_not_found tb) "no %s session was opened with this key: %s" [AStr (tb_noun tb); AStr key])
    (ask (String.append "Get" (String.append (tb_queries tb) "SessionByIdempotencyKey"))
      "the %s session could not be read" [AStr (tb_noun tb)] (fun _ _ t => Rows (tender_of_key tb key t))).

Definition no_such_session (tb : table) (id : string) : err :=
  NotFound (tb_not_found tb) "no such %s session: %s" [AStr (tb_noun tb); AStr id].

Definition Session (tb : table) (id : string) : tx (Sys W) TenderSession :=
  one (no_such_session tb id) (ask (String.append "Get" (String.append (tb_queries tb) "Session"))
    "the %s session could not be read" [AStr (tb_noun tb)] (fun _ _ t => Rows (tb_get tb t !! id))).

Definition LockSession (tb : table) (id : string) : tx (Sys W) TenderSession :=
  one (no_such_session tb id) (ask (String.append "Lock" (String.append (tb_queries tb) "Session"))
    "the %s session could not be locked" [AStr (tb_noun tb)] (fun _ _ t => Rows (tb_get tb t !! id))).

Definition set_tender_state (now : moment) (status : SessionStatus) (authorized captured refunded : Z)
    (reason : string) (s : TenderSession) : TenderSession :=
  mkTenderSession (ts_ID s) (ts_IdempotencyKey s) (ts_Reference s) (ts_OwnerID s) (ts_Amount s) (ts_CurrencyCode s)
    status (ts_Partial s) authorized captured refunded reason (ts_CreatedAt s) now.

(** An update of no row is the driver's error. *)
Definition UpdateSessionState (tb : table) (id : string) (status : SessionStatus) (authorized captured refunded : Z)
    (reason : string) : tx (Sys W) TenderSession :=
  till (String.append "Update" (String.append (tb_queries tb) "SessionState")) "the %s session could not be updated"
    [AStr (tb_noun tb)] (fun now t =>
      match tb_get tb t !! id with
      | None => Refused (DriverError ErrNoRows)
      | Some s =>
          let row := set_tender_state now status authorized captured refunded reason s in
          checked (tender_checks tb row) (tb_set tb (<[id := row]> (tb_get tb t)) t, row)
      end).

(** ** Store credit *)

Definition signed (negative : list EntryKind) (kind : EntryKind) (amount : Z) : bool :=
  if Contains negative kind then amount <? 0 else 0 <? amount.

Definition credit_checks (now : moment) (e : StoreCreditEntry) : list (string * bool) := [
  chk "payment_store_credit_entries_amount_not_zero" (negb (sc_Amount e =? 0));
  chk "payment_store_credit_entries_currency_not_blank" (not_blank (sc_CurrencyCode e));
  chk "payment_store_credit_entries_customer_not_blank" (not_blank (sc_CustomerID e));
  chk "payment_store_credit_entries_expiry_on_issue"
    (match sc_ExpiresAt e with None => true | Some x => bool_decide (sc_Kind e = KindIssue) && (now <? x) end);
  chk "payment_store_credit_entries_kind_valid"
    (Contains [KindIssue; KindHold; KindRelease; KindRefund; KindExpire] (sc_Kind e));
  chk "payment_store_credit_entries_order_on_issue"
    (bool_decide (sc_OrderID e = EmptyString) || bool_decide (sc_Kind e = KindIssue) && not_blank (sc_OrderID e));
  chk "payment_store_credit_entries_sign_matches_kind" (signed [KindHold; KindExpire] (sc_Kind e) (sc_Amount e))].

Definition AppendStoreCreditEntry (e : StoreCreditEntry) : tx (Sys W) StoreCreditEntry :=
  till "InsertStoreCreditEntry" "the store credit entry could not be written" [] (fun now t =>
    let row := mkStoreCreditEntry (sc_ID e) (sc_CustomerID e) (sc_CurrencyCode e) (sc_Amount e) (sc_Kind e)
      (sc_Reference e) (sc_Reason e) (sc_ExpiresAt e) (sc_OrderID e) now in
    if bool_decide (sc_ID e ∈ sc_ID <$> tl_credit t)
    then refuse sqlStateUniqueViolation "payment_store_credit_entries_pkey"
    else checked (credit_checks now row) (set_credit (tl_credit t ++ [row]) t, row)).

Definition credit_of (customerID currency : string) (t : Tills) : list StoreCreditEntry :=
  filter (fun e => sc_CustomerID e = customerID /\ sc_CurrencyCode e = currency) (tl_credit t).

(** The advisory lock of a balance. *)
Definition LockBalance (customerID currency : string) : tx (Sys W) unit :=
  ask "LockBalance" "the balance lock could not be taken" [] (fun _ _ _ => Rows tt).

Definition ListStoreCreditEntries (customerID currency orderID : string) (limit offset : Z)
    : tx (Sys W) (list StoreCreditEntry * Z) :=
  let of_order (e : StoreCreditEntry) := orderID = EmptyString \/ sc_OrderID e = orderID in
  rows_ ← ask "ListStoreCreditEntries" "the store credit history could not be read" [] (fun _ _ t => Rows
    (paged limit offset (newest_first sc_CreatedAt sc_ID (filter of_order (credit_of customerID currency t)))));
  total ← ask "CountStoreCreditEntries" "the store credit history could not be counted" [] (fun _ _ t => Rows
    (Z.of_nat (length (filter of_order (credit_of customerID currency t)))));
  mret (rows_, total).

Definition unexpired_at (at_ : moment) (e : StoreCreditEntry) : bool :=
  bool_decide (sc_Kind e = KindRefund) ||
  (bool_decide (sc_Kind e = KindIssue) && match sc_ExpiresAt e with None => true | Some x => at_ <? x end).

Definition expired_at (at_ : moment) (e : StoreCreditEntry) : bool :=
  bool_decide (sc_Kind e = KindIssue) && match sc_ExpiresAt e with None => false | Some x => x <=? at_ end.

Definition expiry_figures (at_ : moment) (l : list StoreCreditEntry) : StoreCreditExpiryFigures :=
  mkExpiryFigures
    (log_sum sc_Amount l)
    (log_sum sc_Amount (filter (fun e => unexpired_at at_ e = true) l))
    (log_sum sc_Amount (filter (fun e => expired_at at_ e = true) l))
    (- log_sum sc_Amount (filter (fun e => sc_Kind e = KindExpire) l)).

(** [LEAST(GREATEST(balance - unexpired, 0), expired - written) > 0] on unbounded sums. *)
Definition expiry_owed (f : StoreCreditExpiryFigures) : bool :=
  0 <? Z.min (Z.max (ef_Balance f - ef_Unexpired f) 0) (ef_Expired f - ef_Written f).

Definition credit_refs (at_ : moment) (t : Tills) : list StoreCreditBalanceRef :=
  remove_dups ((fun e => (sc_CustomerID e, sc_CurrencyCode e)) <$> filter (fun e => expired_at at_ e = true) (tl_credit t)).

Definition StoreCreditExpiryDue (at_ : moment) (limit : Z) : tx (Sys W) (list StoreCreditBalanceRef) :=
  ask "StoreCreditExpiryDue" "the store credit balances due to expire could not be read" [] (fun _ _ t => Rows
    (paged limit 0 (SortFunc (cmp_then (cmp_on fst cmpS) (cmp_on snd cmpS))
      (filter (fun r => expiry_owed (expiry_figures at_ (credit_of (fst r) (snd r) t)) = true) (credit_refs at_ t))))).

Definition figures_fit (f : StoreCreditExpiryFigures) : answer StoreCreditExpiryFigures :=
  match to_bigint (ef_Balance f), to_bigint (ef_Unexpired f), to_bigint (ef_Expired f), to_bigint (ef_Written f) with
  | Rows _, Rows _, Rows _, Rows _ => Rows f
  | _, _, _, _ => refuse sqlStateOutOfRange EmptyString
  end.

Definition StoreCreditExpiryFigures_ (ref : StoreCreditBalanceRef) (at_ : moment) : tx (Sys W) StoreCreditExpiryFigures :=
  ask "StoreCreditExpiryFigures" "the store credit expiry figures could not be read" []
    (fun _ _ t => figures_fit (expiry_figures at_ (credit_of (fst ref) (snd ref) t))).

(** An error that [classify] gave, classified again: a deadlock's stays a conflict. *)
Definition classify_again {A} (format : string) (m : tx (Sys W) A) : tx (Sys W) A := fun st =>
  match m st with
  | (st', Ok a) => (st', Ok a)
  | (st', Fail e) =>
      (st', Fail (if bool_decide (KindOf e = KindConflict)
        then wrap e KindConflict codeConcurrentUpdate
          "the request collided with a concurrent transaction; it can be retried" []
        else wrap e KindInternal codeQueryFailed format []))
  end.

(** What can be spent: the sum less what expired credit still holds. *)
Definition StoreCreditBalance (customerID currency : string) : tx (Sys W) Z :=
  at_ ← clock;
  figures ← classify_again "the store credit balance could not be read"
    (StoreCreditExpiryFigures_ (customerID, currency) at_);
  mret (sub64 (ef_Balance figures) (Due figures)).

(** ** Loyalty points *)

Definition point_checks (e : LoyaltyEntry) : list (string * bool) := [
  chk "payment_loyalty_entries_currency_format" (currency_format (ly_CurrencyCode e));
  chk "payment_loyalty_entries_customer_not_blank" (not_blank (ly_CustomerID e));
  chk "payment_loyalty_entries_kind_valid"
    (Contains [KindEarn; KindReverse; KindHold; KindRelease; KindRefund] (ly_Kind e));
  chk "payment_loyalty_entries_points_not_zero" (negb (ly_Points e =? 0));
  chk "payment_loyalty_entries_reference_not_blank" (not_blank (ly_Reference e));
  chk "payment_loyalty_entries_sign_matches_kind" (signed [KindReverse; KindHold] (ly_Kind e) (ly_Points e))].

Definition AppendLoyaltyEntry (e : LoyaltyEntry) : tx (Sys W) LoyaltyEntry :=
  till "InsertLoyaltyEntry" "the loyalty point entry could not be written" [] (fun now t =>
    let row := mkLoyaltyEntry (ly_ID e) (ly_CustomerID e) (ly_CurrencyCode e) (ly_Points e) (ly_Kind e)
      (ly_Reference e) now in
    if bool_decide (ly_ID e ∈ ly_ID <$> tl_points t)
    then refuse sqlStateUniqueViolation "payment_loyalty_entries_pkey"
    else checked (point_checks row) (set_points (tl_points t ++ [row]) t, row)).

Definition earned_for (reference : string) (t : Tills) : Z :=
  log_sum ly_Points (filter (fun e => ly_Reference e = reference /\ ly_Kind e ∈ [KindEarn; KindReverse]) (tl_points t)).

Definition LoyaltyPointsForReference (reference : string) : tx (Sys W) Z :=
  ask "LoyaltyPointsForReference" "the collection's loyalty points could not be read" []
    (fun _ _ t => to_bigint (earned_for reference t)).

Definition points_of (customerID currency : string) (t : Tills) : list LoyaltyEntry :=
  filter (fun e => ly_CustomerID e = customerID /\ ly_CurrencyCode e = currency) (tl_points t).

Definition LoyaltyBalance (customerID currency : string) : tx (Sys W) Z :=
  ask "LoyaltyBalance" "the loyalty point balance could not be read" []
    (fun _ _ t => to_bigint (log_sum ly_Points (points_of customerID currency t))).

Definition ListLoyaltyEntries (customerID currency : string) (limit offset : Z) : tx (Sys W) (list LoyaltyEntry * Z) :=
  rows_ ← ask "ListLoyaltyEntries" "the loyalty point history could not be read" [] (fun _ _ t => Rows
    (paged limit offset (newest_first ly_CreatedAt ly_ID (points_of customerID currency t))));
  total ← ask "CountLoyaltyEntries" "the loyalty point history could not be counted" [] (fun _ _ t => Rows
    (Z.of_nat (length (points_of customerID currency t))));
  mret (rows_, total).

(** ** Gift cards *)

Definition gift_card_not_found (id : string) : err := NotFound codeGiftCardNotFound "no such gift card: %s" [AStr id].

Definition is_hex64 (s : string) : bool :=
  Nat.eqb (String.length s) 64 && forallb (fun c => is_digit c || between 97 102 c) (bytes s).

Definition card_checks (digest : string) (c : GiftCard) : list (string * bool) := [
  chk "payment_gift_cards_currency_not_blank" (not_blank (gc_CurrencyCode c));
  chk "payment_gift_cards_digest_is_sha256" (is_hex64 digest);
  chk "payment_gift_cards_disable_explained"
    (Bool.eqb (bool_decide (gc_DisabledAt c = None)) (bool_decide (gc_DisableReason c = EmptyString)));
  chk "payment_gift_cards_disable_reason_not_blank"
    (bool_decide (gc_DisableReason c = EmptyString) || not_blank (gc_DisableReason c));
  chk "payment_gift_cards_expires_after_issue"
    (match gc_ExpiresAt c with None => true | Some x => gc_CreatedAt c <? x end);
  chk "payment_gift_cards_reason_not_blank" (not_blank (gc_Reason c));
  chk "payment_gift_cards_sold_names_its_sale"
    (Bool.eqb (bool_decide (gc_Source c = GiftCardSold)) (negb (bool_decide (gc_SourceReference c = EmptyString))));
  chk "payment_gift_cards_source_valid" (Contains [GiftCardIssued; GiftCardSold] (gc_Source c));
  chk "payment_gift_cards_tail_four" (len (gc_CodeTail c) =? 4)].

Definition card_sold_as (reference : string) (t : Tills) : option GiftCard :=
  head (filter (fun c => gc_SourceReference c = reference /\ gc_SourceReference c <> EmptyString) (rows (tl_cards t))).

Definition card_of_digest (digest : string) (t : Tills) : option GiftCard :=
  id ← head (fst <$> filter (fun p : string * string => p.2 = digest) (map_to_list (tl_digests t)));
  tl_cards t !! id.

(** The validity of an installation starts at [now()]; a day is 86400 seconds in UTC. *)
Definition card_expiry (now : moment) (given : option moment) (validityDays : Z) : option moment :=
  match given with
  | Some x => Some x
  | None => if 0 <? validityDays then Some (now + validityDays * 86400000000000) else None
  end.

Definition new_card_row (now : moment) (validityDays : Z) (c : GiftCard) : GiftCard :=
  mkGiftCard (gc_ID c) (gc_CodeTail c) (gc_CurrencyCode c) (gc_Reason c) (gc_Source c) (gc_SourceReference c)
    now None None EmptyString (card_expiry now (gc_ExpiresAt c) validityDays).

Definition InsertGiftCard (c : GiftCard) (digest : string) (validityDays : Z) : tx (Sys W) (option GiftCard) :=
  till "InsertGiftCard" "the gift card could not be written" [] (fun now t =>
    let row := new_card_row now validityDays c in
    match card_sold_as (gc_SourceReference c) t, tl_cards t !! gc_ID c, card_of_digest digest t with
    | Some _, _, _ => Rows (t, None)
    | None, Some _, _ => refuse sqlStateUniqueViolation "payment_gift_cards_pkey"
    | None, None, Some _ => refuse sqlStateUniqueViolation "payment_gift_cards_code_digest_uniq"
    | None, None, None =>
        checked (card_checks digest row)
          (set_cards (<[gc_ID c := row]> (tl_cards t)) (<[gc_ID c := digest]> (tl_digests t)) t, Some row)
    end).

Definition GiftCardBySourceReference (reference : string) : tx (Sys W) GiftCard :=
  one (NotFound codeGiftCardNotFound "no gift card was sold as %s" [AStr reference])
    (ask "GetGiftCardBySourceReference" "the gift card could not be read" []
      (fun _ _ t => Rows (card_sold_as reference t))).

Definition SoldGiftCardReferences_ (references : list string) : tx (Sys W) (list string) :=
  ask "SoldGiftCardReferences" "the sold gift cards could not be read" [] (fun _ _ t => Rows
    (gc_SourceReference <$> filter (fun c => gc_SourceReference c <> EmptyString /\ gc_SourceReference c ∈ references)
      (rows (tl_cards t)))).

Definition disabled_card (now : moment) (reason : string) (c : GiftCard) : GiftCard :=
  mkGiftCard (gc_ID c) (gc_CodeTail c) (gc_CurrencyCode c) (gc_Reason c) (gc_Source c) (gc_SourceReference c)
    (gc_CreatedAt c) (gc_CodeChangedAt c) (Some now) reason (gc_ExpiresAt c).

Definition digest_of (id : string) (t : Tills) : string := default EmptyString (tl_digests t !! id).

Definition DisableGiftCard_ (id reason : string) : tx (Sys W) GiftCard :=
  one (NotFound codeGiftCardNotFound "no open gift card %s" [AStr id])
    (till "DisableGiftCard" "the gift card could not be closed" [] (fun now t =>
      match tl_cards t !! id with
      | Some c =>
          match gc_DisabledAt c with
          | Some _ => Rows (t, None)
          | None =>
              let row := disabled_card now reason c in
              checked (card_checks (digest_of id t) row)
                (set_cards (<[id := row]> (tl_cards t)) (tl_digests t) t, Some row)
          end
      | None => Rows (t, None)
      end)).

(** Ordered by the moment, then by the id. *)
Definition ExpiredOpenGiftCards (limit : Z) : tx (Sys W) (list string) :=
  ask "ExpiredOpenGiftCards" "the expired gift cards could not be read" [] (fun now _ t => Rows
    (gc_ID <$> paged limit 0 (oldest_first (fun c => default 0 (gc_ExpiresAt c)) gc_ID
      (filter (fun c => gc_DisabledAt c = None /\ ExpiredAt c now = true) (rows (tl_cards t)))))).

Definition open_holds (id : string) (t : Tills) : Z :=
  Z.of_nat (length (filter (fun s => ts_OwnerID s = id /\ ts_Status s = SessionAuthorized) (rows (tl_card_sessions t)))).

Definition GiftCardOpenHolds (id : string) : tx (Sys W) Z :=
  ask "GiftCardOpenHolds" "the gift card's holds could not be read" [] (fun _ _ t => Rows (open_holds id t)).

Definition recoded_card (now : moment) (tail : string) (c : GiftCard) : GiftCard :=
  mkGiftCard (gc_ID c) tail (gc_CurrencyCode c) (gc_Reason c) (gc_Source c) (gc_SourceReference c)
    (gc_CreatedAt c) (Some now) (gc_DisabledAt c) (gc_DisableReason c) (gc_ExpiresAt c).

Definition ReplaceGiftCardCode_ (id digest tail : string) : tx (Sys W) GiftCard :=
  one (gift_card_not_found id) (till "ReplaceGiftCardCode" "the gift card's code could not be replaced" []
    (fun now t =>
      match tl_cards t !! id with
      | None => Rows (t, None)
      | Some c =>
          let row := recoded_card now tail c in
          match card_of_digest digest t with
          | Some other =>
              if bool_decide (gc_ID other = id)
              then checked (card_checks digest row)
                (set_cards (<[id := row]> (tl_cards t)) (<[id := digest]> (tl_digests t)) t, Some row)
              else refuse sqlStateUniqueViolation "payment_gift_cards_code_digest_uniq"
          | None => checked (card_checks digest row)
              (set_cards (<[id := row]> (tl_cards t)) (<[id := digest]> (tl_digests t)) t, Some row)
          end
      end)).

Definition GiftCard_ (id : string) : tx (Sys W) GiftCard :=
  one (gift_card_not_found id) (ask "GetGiftCard" "the gift card could not be read" []
    (fun _ _ t => Rows (tl_cards t !! id))).

Definition GiftCardByDigest (digest : string) : tx (Sys W) GiftCard :=
  one (NotFound codeGiftCardNotFound "no gift card has this code" [])
    (ask "GetGiftCardByDigest" "the gift card could not be read" [] (fun _ _ t => Rows (card_of_digest digest t))).

Definition ListGiftCards_ (limit offset : Z) : tx (Sys W) (list GiftCard * Z) :=
  rows_ ← ask "ListGiftCards" "the gift cards could not be read" [] (fun _ _ t => Rows
    (paged limit offset (newest_first gc_CreatedAt gc_ID (rows (tl_cards t)))));
  total ← ask "CountGiftCards" "the gift cards could not be counted" [] (fun _ _ t => Rows
    (Z.of_nat (size (tl_cards t))));
  mret (rows_, total).

Definition card_entry_checks (e : GiftCardEntry) : list (string * bool) := [
  chk "payment_gift_card_entries_amount_not_zero" (negb (ge_Amount e =? 0));
  chk "payment_gift_card_entries_kind_valid"
    (Contains [KindIssue; KindHold; KindRelease; KindRefund; KindVoid] (ge_Kind e));
  chk "payment_gift_card_entries_session_named"
    (Bool.eqb (Contains [KindIssue; KindVoid] (ge_Kind e)) (bool_decide (ge_Reference e = EmptyString)));
  chk "payment_gift_card_entries_sign_matches_kind" (signed [KindHold; KindVoid] (ge_Kind e) (ge_Amount e))].

(** The card's issue is one row, and so is its void. *)
Definition only_one (kind : EntryKind) (e : GiftCardEntry) (t : Tills) : bool :=
  negb (bool_decide (ge_Kind e = kind) &&
    existsb (fun x => bool_decide (ge_GiftCardID x = ge_GiftCardID e) && bool_decide (ge_Kind x = kind)) (tl_card_entries t)).

Definition AppendGiftCardEntry (e : GiftCardEntry) : tx (Sys W) GiftCardEntry :=
  till "InsertGiftCardEntry" "the gift card entry could not be written" [] (fun now t =>
    let row := mkGiftCardEntry (ge_ID e) (ge_GiftCardID e) (ge_Amount e) (ge_Kind e) (ge_Reference e) now in
    if bool_decide (ge_ID e ∈ ge_ID <$> tl_card_entries t)
    then refuse sqlStateUniqueViolation "payment_gift_card_entries_pkey"
    else if negb (only_one KindIssue e t)
    then refuse sqlStateUniqueViolation "payment_gift_card_entries_one_issue"
    else if negb (only_one KindVoid e t)
    then refuse sqlStateUniqueViolation "payment_gift_card_entries_one_void"
    else if bool_decide (tl_cards t !! ge_GiftCardID e = None)
    then refuse sqlStateForeignKeyViolation "payment_gift_card_entries_gift_card_id_fkey"
    else checked (card_entry_checks row) (set_card_entries (tl_card_entries t ++ [row]) t, row)).

Definition card_balance (id : string) (t : Tills) : Z :=
  log_sum ge_Amount (filter (fun e => ge_GiftCardID e = id) (tl_card_entries t)).

Definition GiftCardBalance (id : string) : tx (Sys W) Z :=
  ask "GiftCardBalance" "the gift card balance could not be read" [] (fun _ _ t => to_bigint (card_balance id t)).

(** The balances of the cards that have entries. *)
Definition GiftCardBalances (ids : list string) : tx (Sys W) (gmap string Z) :=
  ask "GiftCardBalances" "the gift card balances could not be read" [] (fun _ _ t => Rows
    (list_to_map ((fun id => (id, card_balance id t)) <$>
      filter (fun id => id ∈ ge_GiftCardID <$> tl_card_entries t) (remove_dups ids)))).

Definition ListGiftCardEntries_ (id : string) (limit offset : Z) : tx (Sys W) (list GiftCardEntry * Z) :=
  rows_ ← ask "ListGiftCardEntries" "the gift card history could not be read" [] (fun _ _ t => Rows
    (paged limit offset (newest_first ge_CreatedAt ge_ID (filter (fun e => ge_GiftCardID e = id) (tl_card_entries t)))));
  total ← ask "CountGiftCardEntries" "the gift card history could not be counted" [] (fun _ _ t => Rows
    (Z.of_nat (length (filter (fun e => ge_GiftCardID e = id) (tl_card_entries t)))));
  mret (rows_, total).

Definition LockGiftCardBalance (id : string) : tx (Sys W) unit :=
  c ← one (gift_card_not_found id) (ask "LockGiftCard" "the gift card could not be locked" []
    (fun _ _ t => Rows (tl_cards t !! id)));
  mret tt.
End Tills.
