(* ===== verification/PaymentProviders.v ===== *)
(** * Payment providers: [core/provider/payment.go], [service/registry.go], and the module's own
    providers [payment/manual], [payment/offline], [payment/balancetender] with [payment/storecredit],
    [payment/loyaltypoints] and [payment/giftcard]

    A provider is what the payment service calls: any record of operations over the system. The module's
    own are definitions; another institution's is any record. *)
From S2P Require Import Prelude GoText Errors Tx Identifiers Database PaymentModels PaymentStore PaymentTills.

Record PaymentProvider (W : Type) := mkPaymentProvider {
  pp_ID : string;
  pp_CreateSession : ProviderInput -> tx (Sys W) ProviderSession;
  pp_Authorize : string -> tx (Sys W) AuthResult;
  pp_Capture : string -> Z -> tx (Sys W) unit;
  pp_Refund : string -> Z -> tx (Sys W) unit;
  pp_Cancel : string -> tx (Sys W) unit;
  (** The optional interfaces: [SessionInspector], [paymentChecker], [laterCapturer],
      [customerAuthorizer]. *)
  pp_InspectSession : option (string -> tx (Sys W) SessionInspection);
  pp_CheckPayment : option (ProviderInput -> tx (Sys W) unit);
  pp_CapturesLater : bool;
  pp_CustomerAuthorizes : bool
}.
Arguments mkPaymentProvider {W}.
Arguments pp_ID {W}.
Arguments pp_CreateSession {W}.
Arguments pp_Authorize {W}.
Arguments pp_Capture {W}.
Arguments pp_Refund {W}.
Arguments pp_Cancel {W}.
Arguments pp_InspectSession {W}.
Arguments pp_CheckPayment {W}.
Arguments pp_CapturesLater {W}.
Arguments pp_CustomerAuthorizes {W}.

(** ** The registry: [service/registry.go] *)

Definition CodeProviderNotFound : string := "payment_provider_not_found".
Definition CodeProviderExists : string := "payment_provider_already_registered".

Section Registry.
Context {W : Type}.

Definition Registry : Type := gmap string (PaymentProvider W).

Definition sortedIDs (r : Registry) : list string := SortFunc cmpS (map_to_list r).*1.

(** A nil provider is [None]. *)
Definition Register (p : option (PaymentProvider W)) (r : Registry) : Registry * option err :=
  match p with
  | None => (r, Some (Invalid CodeInvalidInput "the provider cannot be nil" []))
  | Some p =>
      let id := TrimSpace (pp_ID p) in
      if bool_decide (id = EmptyString)
      then (r, Some (Invalid CodeInvalidInput "the provider identity cannot be empty" []))
      else match r !! id with
      | Some _ => (r, Some (Conflict CodeProviderExists
          "a payment provider with the identity %q is already registered" [AStr id]))
      | None => (<[id := p]> r, None)
      end
  end.

Definition Get (r : Registry) (id : string) : result (PaymentProvider W) :=
  let wanted := TrimSpace id in
  if bool_decide (wanted = EmptyString)
  then Fail (Invalid CodeInvalidInput "the provider identity cannot be empty" [])
  else match r !! wanted with
  | Some p => Ok p
  | None => Fail (NotFound CodeProviderNotFound
      "the payment provider %q is not registered; the registered ones are: %s"
      [AStr wanted; AStr (join_comma (sortedIDs r))])
  end.
End Registry.
Arguments Registry : clear implicits.

(** ** The manual provider: [manual/manual.go] *)

Module Manual.
Definition ID : string := "manual".
Definition DataKeyOutcome : string := "manual_outcome".
Definition DataKeyDeclineReason : string := "manual_decline_reason".
Definition DataKeyAuthorizedAmount : string := "manual_authorized_amount".
Definition OutcomeAuthorize : string := "authorize".
Definition OutcomeDecline : string := "decline".
Definition OutcomeError : string := "error".
Definition CodeInvalidInput : string := "payment_manual_invalid_input".
Definition CodeInvalidState : string := "payment_manual_invalid_state".
Definition CodeIdempotencyMismatch : string := "payment_manual_idempotency_mismatch".
Definition CodeSimulatedFailure : string := "payment_manual_simulated_failure".
Definition CodeDataInvalid : string := "payment_manual_data_invalid".
Definition declineReasonDefault : string := "declined by the manual provider (test)".

Record sessionData := mkSessionData {
  sd_Outcome : string;
  sd_DeclineReason : string;
  sd_AuthorizedAmount : option Z
}.

(** [encoding/json] matches a member to a field by its exact name or, failing that, by its folded one:
    the runes that fold to an ASCII letter are that letter in either case, [ſ] and the Kelvin sign. *)
Fixpoint fold_bytes (l : list Z) : list Z :=
  match l with
  | 0xC5 :: 0xBF :: rest => 83 :: fold_bytes rest
  | 0xE2 :: 0x84 :: 0xAA :: rest => 75 :: fold_bytes rest
  | c :: rest => (if (97 <=? c) && (c <=? 122) then c - 32 else c) :: fold_bytes rest
  | [] => []
  end.

Definition names_field (member field : string) : bool :=
  bool_decide (fold_bytes (bytes member) = fold_bytes (bytes field)).

(** One member of the object; [None] where its value is of another type than the field's. *)
Definition read_member (m : string * json) (d : sessionData) : option sessionData :=
  let '(name, v) := m in
  if names_field name DataKeyOutcome then
    match v with
    | JNull => Some d
    | JString s => Some (mkSessionData s (sd_DeclineReason d) (sd_AuthorizedAmount d))
    | _ => None
    end
  else if names_field name DataKeyDeclineReason then
    match v with
    | JNull => Some d
    | JString s => Some (mkSessionData (sd_Outcome d) s (sd_AuthorizedAmount d))
    | _ => None
    end
  else if names_field name DataKeyAuthorizedAmount then
    match v with
    | JNull => Some (mkSessionData (sd_Outcome d) (sd_DeclineReason d) None)
    | JNumber lit =>
        n ← ParseInt lit; Some (mkSessionData (sd_Outcome d) (sd_DeclineReason d) (Some n))
    | _ => None
    end
  else Some d.

Fixpoint read_members (l : list (string * json)) (d : sessionData) : option sessionData :=
  match l with
  | [] => Some d
  | m :: rest => d' ← read_member m d; read_members rest d'
  end.

Definition no_data : sessionData := mkSessionData EmptyString EmptyString None.

Section Manual.
Context {W : Type} `{!Outside W}.

(** The error of [encoding/json] is the cause of [CodeDataInvalid]. *)
Context (json_error : json -> err).

Definition parseSessionData (r : raw) : result sessionData :=
  match r with
  | None | Some JNull => Ok no_data
  | Some v =>
      match (match v with JObject l => read_members l no_data | _ => None end) with
      | None => Fail (wrap (json_error v) KindInvalid CodeDataInvalid "the session data could not be decoded" [])
      | Some d =>
          if Contains [EmptyString; OutcomeAuthorize; OutcomeDecline; OutcomeError] (sd_Outcome d) then Ok d
          else Fail (Invalid CodeInvalidInput "%q is not a recognized %s value; it has to be %q, %q or %q"
            [AStr (sd_Outcome d); AStr DataKeyOutcome; AStr OutcomeAuthorize; AStr OutcomeDecline; AStr OutcomeError])
      end
  end.

Definition toProviderSession (s : ManualSession) : ProviderSession :=
  mkProviderSession (ms_ID s) (ms_Status s) (ms_Amount s) (ms_CurrencyCode s) (ms_Data s).

Definition input_check (i : ProviderInput) : option err :=
  if bool_decide (TrimSpace (pi_IdempotencyKey i) = EmptyString)
  then Some (Invalid CodeInvalidInput "the idempotency key is required" [])
  else if bool_decide (TrimSpace (pi_Reference i) = EmptyString)
  then Some (Invalid CodeInvalidInput "the reference is required" [])
  else if (pi_Amount i <? MinAmount) || (MaxAmount <? pi_Amount i)
  then Some (Invalid CodeInvalidInput "the amount has to be between %d and %d: %d"
    [AInt MinAmount; AInt MaxAmount; AInt (pi_Amount i)])
  else if negb (len (ToUpper (TrimSpace (pi_CurrencyCode i))) =? 3)
  then Some (Invalid CodeInvalidInput "the currency has to be a three-letter ISO 4217 code: %q" [AStr (pi_CurrencyCode i)])
  else None.

(** The data decodes from JSON, so it encodes. *)
Definition CreateSession (i : ProviderInput) : tx (Sys W) ProviderSession :=
  _ ← tx_check (input_check i);
  let key := TrimSpace (pi_IdempotencyKey i) in
  let currency := ToUpper (TrimSpace (pi_CurrencyCode i)) in
  let data := marshal_data (pi_Data i) in
  _ ← tx_of (parseSessionData data);
  id ← new_id "manses_";
  created ← InsertManualSessionIfAbsent (mkManualSession id key (TrimSpace (pi_Reference i)) (pi_Amount i) currency
    SessionPending 0 0 0 data EmptyString zero_time zero_time);
  match created with
  | Some s => mret (toProviderSession s)
  | None =>
      existing ← ManualSessionByIdempotencyKey key;
      _ ← tx_check (if negb (ms_Amount existing =? pi_Amount i) || negb (bool_decide (ms_CurrencyCode existing = currency))
        then Some (Conflict CodeIdempotencyMismatch
          "the same idempotency key was used with a different amount: existing %d %s, requested %d %s"
          [AInt (ms_Amount existing); AStr (ms_CurrencyCode existing); AInt (pi_Amount i); AStr currency])
        else None);
      mret (toProviderSession existing)
  end.

Definition decideAuthorize (s : ManualSession) : result (SessionStatus * Z * string) :=
  data ← parseSessionData (ms_Data s);
  if bool_decide (sd_Outcome data = OutcomeError)
  then Fail (Unavailable CodeSimulatedFailure
    "the manual provider could not be reached (an error injected for a test): %s" [AStr (ms_ID s)])
  else if bool_decide (sd_Outcome data = OutcomeDecline)
  then
    let reason := TrimSpace (sd_DeclineReason data) in
    Ok (SessionFailed, 0, if bool_decide (reason = EmptyString) then declineReasonDefault else reason)
  else match sd_AuthorizedAmount data with
  | None => Ok (SessionAuthorized, ms_Amount s, EmptyString)
  | Some authorized =>
      if (authorized <=? 0) || (ms_Amount s <? authorized)
      then Fail (Invalid CodeInvalidInput "%s has to be between 1 and %d: %d"
        [AStr DataKeyAuthorizedAmount; AInt (ms_Amount s); AInt authorized])
      else Ok (SessionAuthorized, authorized, EmptyString)
  end.

Definition auth_result (s : ManualSession) : AuthResult :=
  mkAuthResult (ms_Status s) (ms_AuthorizedAmount s) (ms_Data s) (ms_DeclineReason s).

Definition session_given (sessionID : string) : option err :=
  if bool_decide (TrimSpace sessionID = EmptyString)
  then Some (Invalid CodeInvalidInput "the session identifier is required" []) else None.

Definition Authorize (sessionID : string) : tx (Sys W) AuthResult :=
  _ ← tx_check (session_given sessionID);
  WithTx true (
    s ← LockManualSession sessionID;
    if negb (bool_decide (ms_Status s = SessionPending)) then mret (auth_result s)
    else
      decision ← tx_of (decideAuthorize s);
      let '(status, authorized, reason) := decision in
      updated ← UpdateManualSessionState (ms_ID s) status authorized (ms_CapturedAmount s) (ms_RefundedAmount s) reason;
      mret (auth_result updated)).

Definition Capture (sessionID : string) (amount : Z) : tx (Sys W) unit :=
  _ ← tx_check (session_given sessionID);
  _ ← tx_check (if amount <? 0
    then Some (Invalid CodeInvalidInput "the capture amount cannot be negative: %d" [AInt amount]) else None);
  WithTx true (
    s ← LockManualSession sessionID;
    match CaptureAction (ms_Status s) with
    | ActionNoop =>
        tx_check (if negb (amount =? 0) && negb (amount =? ms_CapturedAmount s)
          then Some (Conflict CodeInvalidState
            "the session was captured with an amount of %d; it cannot be captured again with %d (%s)"
            [AInt (ms_CapturedAmount s); AInt amount; AStr sessionID])
          else None)
    | ActionConflict =>
        tx_of (Fail (Conflict CodeInvalidState "a session in the %q state cannot be captured: %s"
          [AStr (ms_Status s); AStr sessionID]))
    | ActionProceed =>
        let captured := if amount =? 0 then ms_AuthorizedAmount s else amount in
        _ ← tx_check (if ms_AuthorizedAmount s <? captured
          then Some (Conflict CodeInvalidState
            "the capture amount cannot exceed the authorized amount: %d requested, %d held (%s)"
            [AInt captured; AInt (ms_AuthorizedAmount s); AStr sessionID])
          else None);
        ignore (UpdateManualSessionState (ms_ID s) SessionCaptured captured captured (ms_RefundedAmount s)
          (ms_DeclineReason s))
    end).

Definition Refund (sessionID : string) (amount : Z) : tx (Sys W) unit :=
  _ ← tx_check (session_given sessionID);
  _ ← tx_check (if amount <? 0
    then Some (Invalid CodeInvalidInput "the refund amount cannot be negative: %d" [AInt amount]) else None);
  WithTx true (
    s ← LockManualSession sessionID;
    _ ← tx_check (if bool_decide (ms_Status s = SessionCaptured) then None
      else Some (Conflict CodeInvalidState "a session in the %q state cannot be refunded: %s"
        [AStr (ms_Status s); AStr sessionID]));
    let remaining := ManualSession_RefundableAmount s in
    if (amount =? 0) && (remaining =? 0) then mret tt
    else
      let refund := if amount =? 0 then remaining else amount in
      _ ← tx_check (if remaining <? refund
        then Some (Conflict CodeInvalidState
          "the refund amount cannot exceed the remaining amount: %d requested, %d remaining (%s)"
          [AInt refund; AInt remaining; AStr sessionID])
        else None);
      ignore (UpdateManualSessionState (ms_ID s) (ms_Status s) (ms_AuthorizedAmount s) (ms_CapturedAmount s)
        (add64 (ms_RefundedAmount s) refund) (ms_DeclineReason s))).

Definition Cancel (sessionID : string) : tx (Sys W) unit :=
  _ ← tx_check (session_given sessionID);
  WithTx true (
    s ← LockManualSession sessionID;
    match CancelAction (ms_Status s) with
    | ActionNoop => mret tt
    | ActionConflict =>
        tx_of (Fail (Conflict CodeInvalidState "a session in the %q state cannot be canceled; use a refund: %s"
          [AStr (ms_Status s); AStr sessionID]))
    | ActionProceed =>
        ignore (UpdateManualSessionState (ms_ID s) SessionCanceled 0 (ms_CapturedAmount s) (ms_RefundedAmount s)
          (ms_DeclineReason s))
    end).

Definition GetSession (sessionID : string) : tx (Sys W) ManualSession :=
  _ ← tx_check (session_given sessionID); ManualSession_ sessionID.

Definition InspectSession (sessionID : string) : tx (Sys W) SessionInspection :=
  s ← GetSession sessionID;
  mret (mkSessionInspection (ms_Status s) (ms_AuthorizedAmount s) (ms_CapturedAmount s) (ms_RefundedAmount s)).

Definition Provider : PaymentProvider W :=
  mkPaymentProvider ID CreateSession Authorize Capture Refund Cancel (Some InspectSession) None false false.
End Manual.
End Manual.

(** ** Offline methods: [offline/offline.go] *)

Module Offline.
Definition CodeInvalidMethod : string := "payment_offline_invalid_method".
Definition CodeInvalidInput : string := "payment_offline_invalid_input".
Definition CodeUnknownSession : string := "payment_offline_unknown_session".
Definition maxMethodLen : Z := 40.
Definition sessionDigestLen : nat := 32.

Definition method_rune (c : Z) : bool := is_lower c || is_digit c || (c =? 95).

Definition validMethod (method : string) : bool :=
  match bytes method with
  | [] => false
  | c :: rest => (len method <=? maxMethodLen) && is_lower c && forallb method_rune (c :: rest)
  end.

Definition sessionPrefix (method : string) : string := String.append method "_".

Definition is_hex_digit (c : Z) : bool := is_digit c || between 97 102 c || between 65 70 c.

(** [strings.CutPrefix] and [hex.DecodeString] of the rest. *)
Definition owns (method sessionID : string) : option err :=
  let digest := String.substring (String.length (sessionPrefix method))
    (String.length sessionID - String.length (sessionPrefix method)) sessionID in
  if String.prefix (sessionPrefix method) sessionID && Nat.eqb (String.length digest) sessionDigestLen &&
     forallb is_hex_digit (bytes digest)
  then None
  else Some (NotFound CodeUnknownSession "the offline method %q gave no session %q" [AStr method; AStr sessionID]).

Definition session_id (method key : string) : string :=
  String.append (sessionPrefix method) (hex (take (sessionDigestLen / 2) (Sum256 (bytes method ++ [0] ++ bytes key)))).

Section Offline.
Context {W : Type}.

Definition CreateSession (method : string) (i : ProviderInput) : tx (Sys W) ProviderSession :=
  _ ← tx_check (if bool_decide (TrimSpace (pi_IdempotencyKey i) = EmptyString)
    then Some (Invalid CodeInvalidInput
      "an offline session is opened with an idempotency key; its id is derived from it" [])
    else None);
  mret (mkProviderSession (session_id method (pi_IdempotencyKey i)) SessionPending (pi_Amount i) (pi_CurrencyCode i) None).

Definition Authorize (method sessionID : string) : tx (Sys W) AuthResult :=
  _ ← tx_check (owns method sessionID);
  mret (mkAuthResult SessionAuthorized 0 None EmptyString).

Definition Provider (method : string) : PaymentProvider W :=
  mkPaymentProvider method (CreateSession method) (Authorize method)
    (fun id _ => tx_check (owns method id)) (fun id _ => tx_check (owns method id)) (fun id => tx_check (owns method id))
    None None true false.

Definition New (method : string) : result (PaymentProvider W) :=
  if validMethod method then Ok (Provider method)
  else Fail (Invalid CodeInvalidMethod
    "an offline payment method is named with lower-case letters, digits and underscores, starting with a letter and at most %d long: %q"
    [AInt maxMethodLen; AStr method]).
End Offline.
End Offline.

(** ** The balance tenders: [balancetender/balancetender.go] *)

Module Tender.
Abbreviation Movement := string (only parsing).

(** One ledger row the machine asks for. *)
Record Entry := mkEntry {
  en_OwnerID : string;
  en_CurrencyCode : string;
  en_Movement : Movement;
  en_Amount : Z;
  en_SessionID : string
}.

Definition DataPartial : string := "partial".

Section Machine.
Context {W : Type} `{!Outside W}.

(** [Store] and [Identity] of one tender: its table of sessions, the adapter of its ledger, its nouns
    and codes. *)
Record Machine := mkMachine {
  mc_ID : string;
  mc_table : table;
  mc_Unit : string;
  mc_InvalidInput : string;
  mc_NoCustomer : string;
  mc_Insufficient : string;
  mc_InvalidState : string;
  mc_prefix : string;
  mc_Partial : bool;
  mc_Owner : option (ProviderInput -> tx (Sys W) string);
  mc_Move : Entry -> tx (Sys W) unit;
  mc_Balance : string -> string -> tx (Sys W) Z;
  mc_LockBalance : string -> string -> tx (Sys W) unit
}.

Variable m : Machine.

Definition CheckOwner (customerID : string) : option err :=
  if bool_decide (TrimSpace customerID = EmptyString)
  then Some (Conflict (mc_NoCustomer m)
    "a balance of %s belongs to one person and this payment names nobody: the cart has no customer" [AStr (mc_Unit m)])
  else None.

Definition owner (i : ProviderInput) : tx (Sys W) string :=
  match mc_Owner m with
  | Some f => f i
  | None => _ ← tx_check (CheckOwner (pi_CustomerID i)); mret (TrimSpace (pi_CustomerID i))
  end.

Definition CheckPayment (i : ProviderInput) : tx (Sys W) unit := ignore (owner i).

(** Go's name of a value's type, as [%T] writes it. *)
Definition type_name (v : json) : string :=
  match v with
  | JNull => "<nil>"
  | JBool _ => "bool"
  | JNumber _ => "json.Number"
  | JString _ => "string"
  | JArray _ => "[]interface {}"
  | JObject _ => "map[string]interface {}"
  end.

Definition partial (d : Data) : result bool :=
  match (d ≫= fun l => l !! DataPartial) with
  | None => Ok false
  | Some (JBool asked) => Ok asked
  | Some v => Fail (Invalid (mc_InvalidInput m) "%s in the payment's data has to be true or false, %s given"
      [AStr DataPartial; AStr (type_name v)])
  end.

Definition CreateSession (i : ProviderInput) : tx (Sys W) ProviderSession :=
  ownerID ← owner i;
  _ ← tx_check (if pi_Amount i <=? 0
    then Some (Invalid (mc_InvalidInput m) "the session amount has to be positive, %d given" [AInt (pi_Amount i)])
    else None);
  let key := TrimSpace (pi_IdempotencyKey i) in
  _ ← tx_check (if bool_decide (key = EmptyString)
    then Some (Invalid (mc_InvalidInput m) "the idempotency key is required" []) else None);
  asked ← tx_of (partial (pi_Data i));
  id ← new_id (mc_prefix m);
  inserted ← InsertSessionIfAbsent (mc_table m) (mkTenderSession id key (pi_Reference i) ownerID (pi_Amount i)
    (pi_CurrencyCode i) SessionPending asked 0 0 0 EmptyString zero_time zero_time);
  written ← match inserted with Some s => mret s | None => SessionByIdempotencyKey (mc_table m) key end;
  mret (mkProviderSession (ts_ID written) (ts_Status written) (ts_Amount written) (ts_CurrencyCode written) None).

Definition authResultOf (s : TenderSession) : AuthResult :=
  mkAuthResult (ts_Status s) (ts_AuthorizedAmount s) None (ts_DeclineReason s).

Definition insufficientReason (balance : Z) (s : TenderSession) : string :=
  ErrorText (Invalid (mc_Insufficient m) "the balance does not cover this payment: %d held, %d asked (%s)"
    [AInt balance; AInt (ts_Amount s); AStr (ts_CurrencyCode s)]).

Definition session_given (sessionID : string) : option err :=
  if bool_decide (TrimSpace sessionID = EmptyString)
  then Some (Invalid (mc_InvalidInput m) "the session identifier is required" []) else None.

(** What a session holds of a balance. *)
Definition to_hold (balance : Z) (s : TenderSession) : Z :=
  if (balance <? ts_Amount s) && (mc_Partial m || ts_Partial s) && (0 <? balance) then balance else ts_Amount s.

Definition Authorize (sessionID : string) : tx (Sys W) AuthResult :=
  _ ← tx_check (session_given sessionID);
  WithTx true (
    s ← LockSession (mc_table m) sessionID;
    if negb (bool_decide (ts_Status s = SessionPending)) then mret (authResultOf s)
    else
      _ ← mc_LockBalance m (ts_OwnerID s) (ts_CurrencyCode s);
      balance ← mc_Balance m (ts_OwnerID s) (ts_CurrencyCode s);
      let held := to_hold balance s in
      if balance <? held then
        updated ← UpdateSessionState (mc_table m) (ts_ID s) SessionFailed 0 (ts_CapturedAmount s)
          (ts_RefundedAmount s) (insufficientReason balance s);
        mret (authResultOf updated)
      else
        _ ← mc_Move m (mkEntry (ts_OwnerID s) (ts_CurrencyCode s) KindHold (- held) (ts_ID s));
        updated ← UpdateSessionState (mc_table m) (ts_ID s) SessionAuthorized held (ts_CapturedAmount s)
          (ts_RefundedAmount s) EmptyString;
        mret (authResultOf updated)).

Definition Capture (sessionID : string) (amount : Z) : tx (Sys W) unit :=
  _ ← tx_check (session_given sessionID);
  WithTx true (
    s ← LockSession (mc_table m) sessionID;
    if bool_decide (ts_Status s = SessionCaptured) then mret tt
    else if negb (bool_decide (ts_Status s = SessionAuthorized))
    then tx_of (Fail (Conflict (mc_InvalidState m) "a session in the %q state cannot be captured: %s"
      [AStr (ts_Status s); AStr (ts_ID s)]))
    else
      let taken := if amount =? 0 then ts_AuthorizedAmount s else amount in
      _ ← tx_check (if ts_AuthorizedAmount s <? taken
        then Some (Conflict (mc_InvalidState m)
          "the capture cannot exceed the authorized amount: asked %d, held %d (%s)"
          [AInt taken; AInt (ts_AuthorizedAmount s); AStr (ts_ID s)])
        else None);
      let remainder := sub64 (ts_AuthorizedAmount s) taken in
      _ ← (if 0 <? remainder
        then mc_Move m (mkEntry (ts_OwnerID s) (ts_CurrencyCode s) KindRelease remainder (ts_ID s))
        else mret tt);
      ignore (UpdateSessionState (mc_table m) (ts_ID s) SessionCaptured taken taken (ts_RefundedAmount s) EmptyString)).

Definition Refund (sessionID : string) (amount : Z) : tx (Sys W) unit :=
  _ ← tx_check (session_given sessionID);
  WithTx true (
    s ← LockSession (mc_table m) sessionID;
    _ ← tx_check (if bool_decide (ts_Status s = SessionCaptured) then None
      else Some (Conflict (mc_InvalidState m) "only a captured session can be refunded, this one is %q: %s"
        [AStr (ts_Status s); AStr (ts_ID s)]));
    let given := if amount =? 0 then sub64 (ts_CapturedAmount s) (ts_RefundedAmount s) else amount in
    if given <=? 0 then mret tt
    else
      _ ← tx_check (if ts_CapturedAmount s <? add64 (ts_RefundedAmount s) given
        then Some (Conflict (mc_InvalidState m)
          "the refund cannot exceed what was captured: asked %d, captured %d, already refunded %d (%s)"
          [AInt given; AInt (ts_CapturedAmount s); AInt (ts_RefundedAmount s); AStr (ts_ID s)])
        else None);
      _ ← mc_Move m (mkEntry (ts_OwnerID s) (ts_CurrencyCode s) KindRefund given (ts_ID s));
      ignore (UpdateSessionState (mc_table m) (ts_ID s) SessionCaptured (ts_AuthorizedAmount s) (ts_CapturedAmount s)
        (add64 (ts_RefundedAmount s) given) EmptyString)).

(** A status the switch does not name falls through it, as an authorized one does. *)
Definition Cancel (sessionID : string) : tx (Sys W) unit :=
  _ ← tx_check (session_given sessionID);
  WithTx true (
    s ← LockSession (mc_table m) sessionID;
    let closed := UpdateSessionState (mc_table m) (ts_ID s) SessionCanceled 0 (ts_CapturedAmount s)
      (ts_RefundedAmount s) EmptyString in
    if SessionStatus_Terminal (ts_Status s) then mret tt
    else if bool_decide (ts_Status s = SessionCaptured)
    then tx_of (Fail (Conflict (mc_InvalidState m)
      "a captured session cannot be canceled, it is refunded: %s" [AStr (ts_ID s)]))
    else if bool_decide (ts_Status s = SessionPending) then ignore closed
    else
      _ ← (if 0 <? ts_AuthorizedAmount s
        then mc_Move m (mkEntry (ts_OwnerID s) (ts_CurrencyCode s) KindRelease (ts_AuthorizedAmount s) (ts_ID s))
        else mret tt);
      ignore closed).

Definition InspectSession (sessionID : string) : tx (Sys W) SessionInspection :=
  _ ← tx_check (session_given sessionID);
  s ← Session (mc_table m) sessionID;
  mret (mkSessionInspection (ts_Status s) (ts_AuthorizedAmount s) (ts_CapturedAmount s) (ts_RefundedAmount s)).

Definition Provider : PaymentProvider W :=
  mkPaymentProvider (mc_ID m) CreateSession Authorize Capture Refund Cancel (Some InspectSession)
    (Some CheckPayment) false false.
End Machine.
Arguments Machine : clear implicits.

(** *** Store credit: [storecredit/storecredit.go] *)

Section Tenders.
Context {W : Type} `{!Outside W}.

Definition credit_move (e : Entry) : tx (Sys W) unit :=
  id ← new_id "scredit_";
  ignore (AppendStoreCreditEntry (mkStoreCreditEntry id (en_OwnerID e) (en_CurrencyCode e) (en_Amount e)
    (en_Movement e) (en_SessionID e) EmptyString None EmptyString zero_time)).

Definition StoreCredit : Machine W :=
  mkMachine StoreCreditTenderID credit_table "store credit" "payment_store_credit_invalid_input"
    "payment_store_credit_no_customer" "payment_store_credit_insufficient" "payment_store_credit_invalid_state"
    "scrses_" false None credit_move StoreCreditBalance LockBalance.

(** *** Loyalty points: [loyaltypoints/loyaltypoints.go] *)

Definition points_move (e : Entry) : tx (Sys W) unit :=
  id ← new_id "lpoint_";
  ignore (AppendLoyaltyEntry (mkLoyaltyEntry id (en_OwnerID e) (en_CurrencyCode e) (en_Amount e)
    (en_Movement e) (en_SessionID e) zero_time)).

Definition Points : Machine W :=
  mkMachine LoyaltyTenderID loyalty_table "loyalty points" "payment_loyalty_points_invalid_input"
    "payment_loyalty_points_no_customer" "payment_loyalty_points_insufficient" "payment_loyalty_points_invalid_state"
    "lpses_" false None points_move LoyaltyBalance LockBalance.

(** *** Gift cards: [giftcard/giftcard.go] *)

Definition DataCode : string := "code".
Definition CodeUnknown : string := "payment_gift_card_unknown".
Definition CodeCurrency : string := "payment_gift_card_currency".
Definition CodeDisabled : string := "payment_gift_card_disabled".
Definition CodeExpired : string := "payment_gift_card_expired".

Definition unknown : err := Invalid CodeUnknown "no gift card has this code" [].

(** The moment of the message is its nanoseconds here. *)
Definition unusable (c : GiftCard) (now : moment) : option err :=
  match gc_DisabledAt c with
  | Some _ => Some (Conflict CodeDisabled "gift card %s is closed" [AStr (gc_ID c)])
  | None =>
      if ExpiredAt c now
      then Some (Conflict CodeExpired "gift card %s expired at %s" [AStr (gc_ID c); AInt (default 0 (gc_ExpiresAt c))])
      else None
  end.

(** The code in a payment's data; what is not text is no code. *)
Definition typed_code (d : Data) : string :=
  match (d ≫= fun l => l !! DataCode) with Some (JString s) => s | _ => EmptyString end.

(** A missing card answers as an unknown code does. *)
Definition found_card (m : tx (Sys W) GiftCard) : tx (Sys W) GiftCard := fun st =>
  match m st with
  | (st', Fail e) => (st', Fail (if bool_decide (KindOf e = KindNotFound) then unknown else e))
  | r => r
  end.

(** [strings.EqualFold] of ASCII texts. *)
Definition EqualFold (s t : string) : bool := bool_decide (ToUpper s = ToUpper t).

Definition cardOf (i : ProviderInput) : tx (Sys W) string :=
  match NormalizeGiftCardCode (typed_code (pi_Data i)) with
  | None => tx_of (Fail unknown)
  | Some code =>
      card ← found_card (GiftCardByDigest (GiftCardCodeDigest code));
      now ← clock;
      _ ← tx_check (unusable card now);
      _ ← tx_check (if EqualFold (gc_CurrencyCode card) (TrimSpace (pi_CurrencyCode i)) then None
        else Some (Conflict CodeCurrency "the gift card holds %s and this payment is in %s"
          [AStr (gc_CurrencyCode card); AStr (pi_CurrencyCode i)]));
      mret (gc_ID card)
  end.

Definition card_move (e : Entry) : tx (Sys W) unit :=
  _ ← (if bool_decide (en_Movement e = KindRefund) then
      _ ← LockGiftCardBalance (en_OwnerID e);
      card ← GiftCard_ (en_OwnerID e);
      now ← clock;
      tx_check (unusable card now)
    else mret tt);
  id ← new_id "gcentry_";
  ignore (AppendGiftCardEntry (mkGiftCardEntry id (en_OwnerID e) (en_Amount e) (en_Movement e) (en_SessionID e) zero_time)).

Definition GiftCards : Machine W :=
  mkMachine GiftCardTenderID card_table "gift card" "payment_gift_card_invalid_input"
    CodeUnknown "payment_gift_card_insufficient" "payment_gift_card_invalid_state"
    "gcses_" true (Some cardOf) card_move (fun id _ => GiftCardBalance id) (fun id _ => LockGiftCardBalance id).
End Tenders.
End Tender.
