(* ===== verification/PaymentService.v ===== *)
(** * The payment service: [service/collection.go], [session.go], [capture.go], [refund_collection.go],
    [loyalty.go], [events.go], [tender.go], [later.go], [customer_authorizes.go], [order_canceled.go]

    Every operation is a computation over the system: what it read and wrote, and what it answered. The
    collection's lock orders the calls that move its money, so a call runs from its start to its end. *)
From S2P Require Import Prelude GoText Errors Tx Identifiers Database PaymentModels PaymentStore PaymentTills PaymentProviders.

Definition CodeInvalidTransition : string := "payment_invalid_transition".
Definition CodeAuthorizationDeclined : string := "payment_authorization_declined".
Definition CodeIdempotencyMismatch : string := "payment_idempotency_key_mismatch".
Definition CodeCollectionClosed : string := "payment_collection_closed".
Definition CodeSessionTerminal : string := "payment_session_terminal".
Definition CodeNothingToRefund : string := "payment_nothing_to_refund".
Definition CodeProviderContract : string := "payment_provider_contract_violation".
Definition CodeInconsistentState : string := "payment_inconsistent_state".
Definition CodeNotReady : string := "payment_service_not_ready".
Definition CodeCollectionNothingToRefund : string := "payment_collection_nothing_to_refund".
Definition CodeRefundExceedsCause : string := "payment_refund_exceeds_cause".
Definition CodeSessionCapturesNow : string := "payment_session_captures_now".
Definition CodeSessionNotReportable : string := "payment_session_not_reportable".
Definition CodeOrderEventUnusable : string := "payment_order_event_unusable".

Definition EventPaymentCaptured : string := "payment.captured".
Definition EventPaymentRefunded : string := "payment.refunded".
Definition LinkOrderPayment : string := "order_payment".
Definition basisPointDivisor : Z := 10000.

Record CreateCollectionInput := mkCreateCollectionInput {
  cc_Reference : string;
  cc_Amount : Z;
  cc_CurrencyCode : string;
  cc_CustomerID : string;
  cc_Metadata : Data
}.

Record CreateSessionInput := mkCreateSessionInput {
  cs_Amount : Z;
  cs_IdempotencyKey : string;
  cs_Data : Data
}.

(** *** Checks of what a provider answers *)

Definition providerStatus (status : SessionStatus) (providerID : string) : result SessionStatus :=
  if SessionStatus_Valid status then Ok status
  else Fail (Internal CodeProviderContract "provider %q returned an unrecognized session status: %q"
    [AStr providerID; AStr status]).

Definition authorizedAmount (reported : Z) (s : PaymentSession) : result Z :=
  if reported <? 0
  then Fail (Internal CodeProviderContract "provider %q returned a negative held amount: %d (%s)"
    [AStr (ps_ProviderID s); AInt reported; AStr (ps_ID s)])
  else if reported =? 0 then Ok (ps_Amount s)
  else if ps_Amount s <? reported
  then Fail (Internal CodeProviderContract "provider %q held more than the session amount: %d > %d (%s)"
    [AStr (ps_ProviderID s); AInt reported; AInt (ps_Amount s); AStr (ps_ID s)])
  else Ok reported.

Definition mergeData (current incoming : raw) : raw :=
  match incoming with None => current | Some _ => incoming end.

Definition session_details (s : PaymentSession) : gmap string arg :=
  {["payment_session_id"%string := AStr (ps_ID s); "status"%string := AStr (ps_Status s)]}.

Definition conflictTransition (action : string) (s : PaymentSession) : err :=
  WithDetails (Conflict CodeInvalidTransition "a payment session in the %q status %s: %s"
    [AStr (ps_Status s); AStr action; AStr (ps_ID s)]) (session_details s).

Definition declineError (s : PaymentSession) : err :=
  WithDetails (Conflict CodeAuthorizationDeclined "the payment was declined: %s (%s)"
    [AStr (ps_DeclineReason s); AStr (ps_ID s)])
    {["payment_session_id"%string := AStr (ps_ID s); "provider_id"%string := AStr (ps_ProviderID s);
      "decline_reason"%string := AStr (ps_DeclineReason s)]}.

(** *** A refund's plan: [refund_collection.go] *)

Definition refundableOf (l : list Payment) : Z :=
  sum64 ((fun p => sub64 (py_Amount p) (py_RefundedAmount p)) <$> l).

(** The captures in their order, each for what is left on it. *)
Fixpoint refund_parts (l : list Payment) (left : Z) : list (string * Z) :=
  match l with
  | [] => []
  | p :: rest =>
      if left =? 0 then []
      else
        let available := sub64 (py_Amount p) (py_RefundedAmount p) in
        if available <=? 0 then refund_parts rest left
        else
          let part := if left <? available then left else available in
          (py_ID p, part) :: refund_parts rest (sub64 left part)
  end.

Definition planRefund (collectionID : string) (l : list Payment) (amount : Z) : result (list (string * Z)) :=
  let refundable := refundableOf l in
  if refundable <=? 0
  then Fail (Conflict CodeCollectionNothingToRefund "collection %s has nothing left to refund" [AStr collectionID])
  else
    let amount := if amount =? 0 then refundable else amount in
    if refundable <? amount
    then Fail (Conflict CodeCollectionNothingToRefund
      "more was asked back than collection %s holds: %d requested, %d refundable"
      [AStr collectionID; AInt amount; AInt refundable])
    else Ok (refund_parts l amount).

Section Service.
Context {W : Type} `{!Outside W}.

(** The service's dependencies besides the store: the registered providers and the earn rate. *)
Context (providers : Registry W) (earnBasisPoints : Z).

(** ** Totals and points *)

(** The points a collection's money should have earned. *)
Definition earn_target (net : Z) : Z := div64 (mul64 net earnBasisPoints) basisPointDivisor.

Definition earnLoyaltyPoints (col : PaymentCollection) : tx (Sys W) unit :=
  if (earnBasisPoints <=? 0) || bool_decide (pc_CustomerID col = EmptyString) then mret tt
  else
    net ← CollectionNetCapturedExcludingProviders (pc_ID col) [LoyaltyTenderID; GiftCardTenderID];
    let net := if net <=? 0 then 0 else net in
    written ← LoyaltyPointsForReference (pc_ID col);
    let points := sub64 (earn_target net) written in
    if points =? 0 then mret tt
    else
      id ← new_id "lpoint_";
      ignore (AppendLoyaltyEntry (mkLoyaltyEntry id (pc_CustomerID col) (pc_CurrencyCode col) points
        (if points <? 0 then KindReverse else KindEarn) (pc_ID col) zero_time)).

Definition totals_check (col : PaymentCollection) (authorized captured refunded : Z) : option err :=
  if (authorized <? 0) || (captured <? 0) || (refunded <? 0)
  then Some (Internal CodeInconsistentState
    "the collection amount would fall below zero: held %d, captured %d, refunded %d (%s)"
    [AInt authorized; AInt captured; AInt refunded; AStr (pc_ID col)])
  else None.

Definition with_totals (col : PaymentCollection) (authorized captured refunded : Z) : PaymentCollection :=
  set_totals (pc_UpdatedAt col) (pc_Status col) authorized captured refunded col.

Definition writeCollectionTotals (col : PaymentCollection) (authorized captured refunded : Z)
    : tx (Sys W) PaymentCollection :=
  _ ← tx_check (totals_check col authorized captured refunded);
  counts ← SessionCounts (pc_ID col);
  updated ← UpdatePaymentCollectionTotals (pc_ID col)
    (CollectionStatusFor (with_totals col authorized captured refunded) counts) authorized captured refunded;
  _ ← earnLoyaltyPoints updated;
  mret updated.

(** ** Collections *)

Definition CreateCollection (i : CreateCollectionInput) : tx (Sys W) PaymentCollection :=
  let reference := TrimSpace (cc_Reference i) in
  _ ← tx_check (requireText "reference" reference);
  _ ← tx_check (requireAmount "amount" (cc_Amount i));
  currency ← tx_of (normalizeCurrency (cc_CurrencyCode i));
  id ← new_id "paycol_";
  CreatePaymentCollection (mkPaymentCollection id reference (cc_Amount i) currency (TrimSpace (cc_CustomerID i))
    CollectionNotPaid 0 0 0 (cc_Metadata i) zero_time zero_time).

Definition GetCollection (id : string) : tx (Sys W) PaymentCollection :=
  _ ← tx_check (requireText "id" id); GetPaymentCollection id.

Definition status_filter (status : option string) : result (option string) :=
  match status with
  | None => Ok None
  | Some s =>
      if CollectionStatus_Valid (TrimSpace s) then Ok (Some (TrimSpace s)) else Fail (invalidStatus s)
  end.

Definition ListCollections (reference status : option string) (limit offset : Z)
    : tx (Sys W) (list PaymentCollection * Z) :=
  page ← tx_of (Page_normalize limit offset);
  _ ← tx_check (match reference with None => None | Some r => requireText "reference" (TrimSpace r) end);
  st ← tx_of (status_filter status);
  ListPaymentCollections (TrimSpace <$> reference) st (fst page) (snd page).

Definition ListPaymentCollectionsByIDs (ids : list string) : tx (Sys W) (list PaymentCollection) :=
  match ids with [] => mret [] | _ => PaymentCollectionsByIDs ids end.

Definition ListPaymentSessions (collectionID : string) : tx (Sys W) (list PaymentSession) :=
  _ ← tx_check (requireText "payment_collection_id" collectionID);
  _ ← GetPaymentCollection collectionID;
  ListPaymentSessionsByCollection collectionID.

Definition ListPayments (collectionID : string) : tx (Sys W) (list Payment) :=
  _ ← tx_check (requireText "payment_collection_id" collectionID);
  _ ← GetPaymentCollection collectionID;
  ListPaymentsByCollection collectionID.

Definition GetSession (id : string) : tx (Sys W) PaymentSession :=
  _ ← tx_check (requireText "id" id); GetPaymentSession id.

Definition GetPayment_ (id : string) : tx (Sys W) Payment :=
  _ ← tx_check (requireText "id" id); GetPayment id.

Definition ListRefunds (paymentID : string) : tx (Sys W) (list Refund) :=
  _ ← tx_check (requireText "payment_id" paymentID);
  _ ← GetPayment paymentID;
  ListRefundsByPayment paymentID.

(** ** Sessions: [session.go] *)

Definition remainingToOpen (col : PaymentCollection) : tx (Sys W) (Z * Z) :=
  reserved ← LiveSessionAmount (pc_ID col);
  let taken := add64 (pc_CapturedAmount col) reserved in
  mret (if pc_Amount col <=? taken then (0, reserved) else (sub64 (pc_Amount col) taken, reserved)).

(** The session a key already opened, [None] where the store says [NotFound]. *)
Definition session_opened (providerID key : string) : tx (Sys W) (option PaymentSession) := fun st =>
  match PaymentSessionByIdempotencyKey providerID key st with
  | (st', Ok s) => (st', Ok (Some s))
  | (st', Fail e) => (st', if bool_decide (KindOf e = KindNotFound) then Ok None else Fail e)
  end.

Definition reuse_check (collectionID key : string) (s : PaymentSession) : option err :=
  if negb (bool_decide (ps_PaymentCollectionID s = collectionID))
  then Some (Conflict CodeIdempotencyMismatch "this idempotency key was used for collection %s: %s"
    [AStr (ps_PaymentCollectionID s); AStr key])
  else if SessionStatus_Terminal (ps_Status s)
  then Some (WithDetails (Conflict CodeSessionTerminal
    "this idempotency key's session is in the %q status; a new key is needed: %s"
    [AStr (ps_Status s); AStr (ps_ID s)]) (session_details s))
  else None.

Definition open_checks (col : PaymentCollection) (remaining reserved amount : Z) : option err :=
  if remaining <=? 0
  then Some (Conflict CodeCollectionClosed
    "no amount is left to open on the collection: amount %d, captured %d, reserved by open sessions %d (%s)"
    [AInt (pc_Amount col); AInt (pc_CapturedAmount col); AInt reserved; AStr (pc_ID col)])
  else if remaining <? amount
  then Some (Conflict CodeInvalidTransition
    "the session amount cannot exceed the remaining amount: %d requested, %d remaining (%s)"
    [AInt amount; AInt remaining; AStr (pc_ID col)])
  else None.

(** Opens the session the key has not opened yet. *)
Definition open_session (col : PaymentCollection) (prov : PaymentProvider W) (key : string) (i : CreateSessionInput)
    : tx (Sys W) PaymentSession :=
  rr ← remainingToOpen col;
  let '(remaining, reserved) := rr in
  let amount := if cs_Amount i =? 0 then remaining else cs_Amount i in
  _ ← tx_check (open_checks col remaining reserved amount);
  session ← pp_CreateSession prov (mkProviderInput amount (pc_CurrencyCode col) (pc_ID col) key (pc_CustomerID col) (cs_Data i));
  status ← tx_of (providerStatus (pv_Status session) (pp_ID prov));
  _ ← tx_check (if bool_decide (TrimSpace (pv_ID session) = EmptyString)
    then Some (Internal CodeProviderContract "provider %q returned a session without an identifier" [AStr (pp_ID prov)])
    else None);
  id ← new_id "payses_";
  created ← CreatePaymentSession (mkPaymentSession id (pc_ID col) (pp_ID prov) (pv_ID session) status amount 0
    (pc_CurrencyCode col) (pv_Data session) key EmptyString zero_time zero_time);
  _ ← writeCollectionTotals col (pc_AuthorizedAmount col) (pc_CapturedAmount col) (pc_RefundedAmount col);
  mret created.

Definition CreateSession (collectionID providerID : string) (i : CreateSessionInput) : tx (Sys W) PaymentSession :=
  _ ← tx_check (requireText "payment_collection_id" collectionID);
  _ ← tx_check (requireText "provider_id" providerID);
  let key := TrimSpace (cs_IdempotencyKey i) in
  _ ← tx_check (requireText "idempotency_key" key);
  _ ← tx_check (requireOptionalAmount "amount" (cs_Amount i));
  prov ← tx_of (Get providers providerID);
  WithTx false (
    col ← LockPaymentCollection collectionID;
    existing ← session_opened (pp_ID prov) key;
    match existing with
    | Some s => _ ← tx_check (reuse_check collectionID key s); mret s
    | None => open_session col prov key i
    end).

Definition providerForSession (sessionID : string) : tx (Sys W) (PaymentProvider W) :=
  s ← GetPaymentSession sessionID; tx_of (Get providers (ps_ProviderID s)).

Definition lockCollectionAndSession (sessionID : string) : tx (Sys W) (PaymentCollection * PaymentSession) :=
  preview ← GetPaymentSession sessionID;
  col ← LockPaymentCollection (ps_PaymentCollectionID preview);
  s ← LockPaymentSession sessionID;
  _ ← tx_check (if bool_decide (ps_PaymentCollectionID s = pc_ID col) then None
    else Some (Internal CodeInconsistentState "after collection %s was locked, the session was found in collection %s"
      [AStr (pc_ID col); AStr (ps_PaymentCollectionID s)]));
  mret (col, s).

(** An authorized or a declined session, [inr] the declined one. *)
Definition authorize_session (prov : PaymentProvider W) (col : PaymentCollection) (s : PaymentSession)
    : tx (Sys W) (PaymentSession + PaymentSession) :=
  r ← pp_Authorize prov (ps_ExternalID s);
  status ← tx_of (providerStatus (ar_Status r) (ps_ProviderID s));
  if bool_decide (status = SessionAuthorized) then
    authorized ← tx_of (authorizedAmount (ar_AuthorizedAmount r) s);
    updated ← UpdatePaymentSessionState (ps_ID s) SessionAuthorized authorized (mergeData (ps_Data s) (ar_Data r)) EmptyString;
    _ ← writeCollectionTotals col (add64 (pc_AuthorizedAmount col) authorized) (pc_CapturedAmount col) (pc_RefundedAmount col);
    mret (inl updated)
  else if bool_decide (status = SessionFailed) then
    updated ← UpdatePaymentSessionState (ps_ID s) SessionFailed 0 (mergeData (ps_Data s) (ar_Data r)) (ar_DeclineReason r);
    _ ← writeCollectionTotals col (pc_AuthorizedAmount col) (pc_CapturedAmount col) (pc_RefundedAmount col);
    mret (inr updated)
  else tx_of (Fail (Internal CodeProviderContract
    "provider %q returned the %q status from an authorization; %q or %q was expected"
    [AStr (ps_ProviderID s); AStr status; AStr SessionAuthorized; AStr SessionFailed])).

Definition AuthorizePayment (sessionID : string) : tx (Sys W) PaymentSession :=
  _ ← tx_check (requireText "payment_session_id" sessionID);
  prov ← providerForSession sessionID;
  out ← WithTx false (
    cs ← lockCollectionAndSession sessionID;
    let '(col, s) := cs in
    match AuthorizeAction (ps_Status s) with
    | ActionNoop => mret (inl s)
    | ActionConflict => tx_of (Fail (conflictTransition "cannot be authorized" s))
    | ActionProceed => authorize_session prov col s
    end);
  match out with
  | inl s => mret s
  | inr s => tx_of (Fail (declineError s))
  end.

Definition hold_check (col : PaymentCollection) (s : PaymentSession) : option err :=
  if pc_AuthorizedAmount col <? ps_AuthorizedAmount s
  then Some (Internal CodeInconsistentState
    "the collection's held amount (%d) is smaller than the session's (%d) (%s)"
    [AInt (pc_AuthorizedAmount col); AInt (ps_AuthorizedAmount s); AStr (ps_ID s)])
  else None.

Definition CancelPayment (sessionID : string) : tx (Sys W) unit :=
  _ ← tx_check (requireText "payment_session_id" sessionID);
  prov ← providerForSession sessionID;
  WithTx false (
    cs ← lockCollectionAndSession sessionID;
    let '(col, s) := cs in
    match CancelAction (ps_Status s) with
    | ActionNoop => mret tt
    | ActionConflict => tx_of (Fail (conflictTransition "cannot be canceled; use a refund" s))
    | ActionProceed =>
        _ ← pp_Cancel prov (ps_ExternalID s);
        _ ← tx_check (hold_check col s);
        _ ← UpdatePaymentSessionState (ps_ID s) SessionCanceled 0 (ps_Data s) (ps_DeclineReason s);
        ignore (writeCollectionTotals col (sub64 (pc_AuthorizedAmount col) (ps_AuthorizedAmount s))
          (pc_CapturedAmount col) (pc_RefundedAmount col))
    end).

(** ** Events: [events.go] *)

Definition moneyMovedEventID (topic rowID : string) : string := String.append topic (String.append ":" rowID).

Definition money_moved (topic rowID collectionID : string) (at_ : moment) : OutboxEvent :=
  mkOutboxEvent (moneyMovedEventID topic rowID) topic collectionID at_.

Definition recordMoneyMoved (topic rowID collectionID : string) (at_ : moment) : tx (Sys W) unit :=
  WriteOutboxEvent (money_moved topic rowID collectionID at_).

(** A failure is logged. *)
Definition publishMoneyMoved (topic rowID collectionID : string) (at_ : moment) : tx (Sys W) unit := fun st =>
  (set_outside (fst (out_publish (money_moved topic rowID collectionID at_) (sy_outside st))) st, Ok tt).

(** ** Captures: [capture.go] *)

Definition capture_session (prov : PaymentProvider W) (col : PaymentCollection) (s : PaymentSession) (amount : Z)
    : tx (Sys W) Payment :=
  let captured := if amount =? 0 then ps_AuthorizedAmount s else amount in
  _ ← tx_check (if ps_AuthorizedAmount s <? captured
    then Some (Conflict CodeInvalidTransition
      "the capture amount cannot exceed the held amount: %d requested, %d held (%s)"
      [AInt captured; AInt (ps_AuthorizedAmount s); AStr (ps_ID s)])
    else None);
  _ ← pp_Capture prov (ps_ExternalID s) captured;
  let blocked := ps_AuthorizedAmount s in
  _ ← tx_check (hold_check col s);
  _ ← UpdatePaymentSessionState (ps_ID s) SessionCaptured captured (ps_Data s) (ps_DeclineReason s);
  id ← new_id "pay_";
  at_ ← clock;
  payment ← CreatePayment (mkPayment id (ps_ID s) (pc_ID col) captured (ps_CurrencyCode s) 0 at_ zero_time zero_time);
  _ ← writeCollectionTotals col (sub64 (pc_AuthorizedAmount col) blocked) (add64 (pc_CapturedAmount col) captured)
    (pc_RefundedAmount col);
  _ ← recordMoneyMoved EventPaymentCaptured (py_ID payment) (pc_ID col) (py_CapturedAt payment);
  mret payment.

Definition recapture_check (s : PaymentSession) (amount : Z) (p : Payment) : option err :=
  if negb (amount =? 0) && negb (amount =? py_Amount p)
  then Some (Conflict CodeInvalidTransition
    "the session was captured with an amount of %d; it cannot be captured again with %d (%s)"
    [AInt (py_Amount p); AInt amount; AStr (ps_ID s)])
  else None.

Definition CapturePayment (sessionID : string) (amount : Z) : tx (Sys W) Payment :=
  _ ← tx_check (requireText "payment_session_id" sessionID);
  _ ← tx_check (requireOptionalAmount "amount" amount);
  prov ← providerForSession sessionID;
  out ← WithTx false (
    cs ← lockCollectionAndSession sessionID;
    let '(col, s) := cs in
    match CaptureAction (ps_Status s) with
    | ActionNoop =>
        existing ← PaymentBySession (ps_ID s);
        _ ← tx_check (recapture_check s amount existing);
        mret existing
    | ActionConflict => tx_of (Fail (conflictTransition "cannot be captured" s))
    | ActionProceed => capture_session prov col s amount
    end);
  _ ← publishMoneyMoved EventPaymentCaptured (py_ID out) (py_PaymentCollectionID out) (py_CapturedAt out);
  mret out.

(** ** Refunds *)

Definition cause_check (reference : string) (given refund ceiling : Z) : option err :=
  if ceiling <? add64 given refund
  then Some (Conflict CodeRefundExceedsCause
    "the refunds naming %s gave back %d of the %d it may give back, so %d more would pass it"
    [AStr reference; AInt given; AInt ceiling; AInt refund])
  else None.

Definition refund_checks (p : Payment) (refund : Z) : option err :=
  let remaining := Payment_RefundableAmount p in
  if remaining =? 0
  then Some (Conflict CodeNothingToRefund "the whole capture has already been refunded: %s" [AStr (py_ID p)])
  else if remaining <? refund
  then Some (Conflict CodeInvalidTransition
    "the refund amount cannot exceed the remaining amount: %d requested, %d remaining (%s)"
    [AInt refund; AInt remaining; AStr (py_ID p)])
  else None.

Definition refund_capture (prov : PaymentProvider W) (col : PaymentCollection) (s : PaymentSession) (p : Payment)
    (amount : Z) (reason reference : string) (ceiling : Z) : tx (Sys W) Refund :=
  let refund := if amount =? 0 then Payment_RefundableAmount p else amount in
  _ ← tx_check (refund_checks p refund);
  _ ← (if bool_decide (reference = EmptyString) then mret tt
    else given ← RefundedForReference reference; tx_check (cause_check reference given refund ceiling));
  _ ← pp_Refund prov (ps_ExternalID s) refund;
  _ ← UpdatePaymentRefundedAmount (py_ID p) (add64 (py_RefundedAmount p) refund);
  id ← new_id "refund_";
  created ← CreateRefund (mkRefund id (py_ID p) refund (TrimSpace reason) reference zero_time zero_time);
  _ ← writeCollectionTotals col (pc_AuthorizedAmount col) (pc_CapturedAmount col) (add64 (pc_RefundedAmount col) refund);
  _ ← recordMoneyMoved EventPaymentRefunded (rf_ID created) (pc_ID col) (rf_CreatedAt created);
  mret created.

Definition refundPayment (paymentID : string) (amount : Z) (reason reference : string) (ceiling : Z)
    : tx (Sys W) Refund :=
  _ ← tx_check (requireText "payment_id" paymentID);
  _ ← tx_check (requireOptionalAmount "amount" amount);
  _ ← tx_check (checkTextLen "reason" reason);
  _ ← tx_check (checkReference reference);
  preview ← GetPayment paymentID;
  prov ← providerForSession (py_PaymentSessionID preview);
  out ← WithTx false (
    cs ← lockCollectionAndSession (py_PaymentSessionID preview);
    let '(col, s) := cs in
    p ← LockPayment paymentID;
    r ← refund_capture prov col s p amount reason reference ceiling;
    mret (r, pc_ID col));
  let '(r, collectionID) := out in
  _ ← publishMoneyMoved EventPaymentRefunded (rf_ID r) collectionID (rf_CreatedAt r);
  mret r.

Definition RefundPayment (paymentID : string) (amount : Z) (reason : string) : tx (Sys W) Refund :=
  refundPayment paymentID amount reason EmptyString 0.

(** What was refunded before an error is answered beside it. *)
Fixpoint refund_each (collectionID : string) (planned : Z) (reason reference : string) (ceiling : Z)
    (plan : list (string * Z)) (made : list Refund) : tx (Sys W) (list Refund * option err) :=
  match plan with
  | [] => mret (made, None)
  | (paymentID, amount) :: rest => fun st =>
      match refundPayment paymentID amount reason reference ceiling st with
      | (st', Ok r) => refund_each collectionID planned reason reference ceiling rest (made ++ [r]) st'
      | (st', Fail e) =>
          match made with
          | [] => (st', Ok ([], Some e))
          | _ => (st', Ok (made, Some (wrap e (KindOf e) CodeCollectionNothingToRefund
              "the refund of collection %s was made only in part: %d of %d refunds succeeded"
              [AStr collectionID; AInt (Z.of_nat (length made)); AInt planned])))
          end
      end
  end.

Definition ceiling_check (reference : string) (ceiling : Z) : option err :=
  if ceiling <=? 0
  then Some (Invalid CodeInvalidInput "the refunds naming %s are held to a ceiling, and it has to be positive: %d"
    [AStr reference; AInt ceiling])
  else None.

(** What the cause has left, as far as the collection holds, where no amount is given. *)
Definition cause_amount (reference : string) (given ceiling amount : Z) (l : list Payment) : result Z :=
  let left := sub64 ceiling given in
  if left <=? 0
  then Fail (Conflict CodeRefundExceedsCause
    "the refunds naming %s gave back %d of the %d it may give back, so nothing is left"
    [AStr reference; AInt given; AInt ceiling])
  else
    let amount := if amount =? 0 then Z.min left (refundableOf l) else amount in
    if left <? amount
    then Fail (Conflict CodeRefundExceedsCause
      "%d was asked back for %s, whose refunds gave back %d of the %d it may give back, so %d is left"
      [AInt amount; AStr reference; AInt given; AInt ceiling; AInt left])
    else Ok amount.

Definition RefundCollection (collectionID : string) (amount ceiling : Z) (reason reference : string)
    : tx (Sys W) (list Refund * option err) :=
  _ ← tx_check (requireText "collection_id" collectionID);
  _ ← tx_check (requireOptionalAmount "amount" amount);
  _ ← tx_check (checkTextLen "reason" reason);
  _ ← tx_check (requireText "reference" reference);
  _ ← tx_check (checkReference reference);
  _ ← tx_check (ceiling_check reference ceiling);
  l ← ListPaymentsByCollection collectionID;
  given ← RefundedForReference reference;
  amount ← tx_of (cause_amount reference given ceiling amount l);
  plan ← tx_of (planRefund collectionID l amount);
  refund_each collectionID (Z.of_nat (length plan)) reason reference ceiling plan [].

(** ** Asking before paying: [tender.go], [later.go], [customer_authorizes.go] *)

Definition CheckTender (providerID customerID currency : string) (d : Data) : tx (Sys W) unit :=
  prov ← tx_of (Get providers providerID);
  match pp_CheckPayment prov with
  | Some checks => checks (mkProviderInput 0 currency EmptyString EmptyString customerID d)
  | None => mret tt
  end.

Definition CapturesLater (providerID : string) : result bool := pp_CapturesLater <$> Get providers providerID.

Definition ids_that (P : PaymentProvider W -> bool) : list string :=
  filter (fun id => match Get providers id with Ok p => P p | Fail _ => false end = true) (sortedIDs providers).

Definition laterCapturing : list string := ids_that pp_CapturesLater.

Definition customerAuthorizing : list string := ids_that pp_CustomerAuthorizes.

Definition CustomerAuthorizes (providerID : string) : result bool := pp_CustomerAuthorizes <$> Get providers providerID.

(** The sessions of each collection, in the order they were read. *)
Definition ListAwaitingSessions (collectionIDs : list string) : tx (Sys W) (gmap string (list PaymentSession)) :=
  match collectionIDs, laterCapturing with
  | [], _ | _, [] => mret ∅
  | _, later =>
      sessions ← SessionsOfCollections collectionIDs;
      mret (foldl (fun out s =>
        if decide (ps_Status s = SessionAuthorized /\ ps_ProviderID s ∈ later)
        then <[ps_PaymentCollectionID s := default [] (out !! ps_PaymentCollectionID s) ++ [s]]> out
        else out) ∅ sessions)
  end.

Definition RecordReceived (sessionID : string) : tx (Sys W) Payment :=
  s ← GetSession sessionID;
  prov ← tx_of (Get providers (ps_ProviderID s));
  _ ← tx_check (if pp_CapturesLater prov then None
    else Some (Conflict CodeSessionCapturesNow
      "session %s is paid through %q at the checkout; only an offline method's money is recorded as received"
      [AStr sessionID; AStr (ps_ProviderID s)]));
  CapturePayment sessionID 0.

Definition CheckoutSession (sessionID : string) : tx (Sys W) (PaymentSession * PaymentCollection) :=
  s ← GetSession sessionID;
  col ← GetCollection (ps_PaymentCollectionID s);
  mret (s, col).

Definition ReportedStatus (sessionID : string) : tx (Sys W) SessionStatus :=
  s ← GetSession sessionID;
  prov ← tx_of (Get providers (ps_ProviderID s));
  match pp_CustomerAuthorizes prov, pp_InspectSession prov with
  | true, Some inspect => i ← inspect (ps_ExternalID s); mret (si_Status i)
  | _, _ => tx_of (Fail (Invalid CodeSessionNotReportable
      "session %s is paid through %q, which does not report on its own sessions; its status is the one this module holds"
      [AStr sessionID; AStr (ps_ProviderID s)]))
  end.

(** ** A canceled order: [order_canceled.go] *)

Fixpoint cancel_held (l : list PaymentSession) : tx (Sys W) unit :=
  match l with
  | [] => mret tt
  | s :: rest =>
      if negb (bool_decide (ps_Status s = SessionAuthorized)) then cancel_held rest
      else fun st =>
        match CancelPayment (ps_ID s) st with
        | (st', Ok _) => cancel_held rest st'
        | (st', Fail e) => if bool_decide (KindOf e = KindConflict) then cancel_held rest st' else (st', Fail e)
        end
  end.

Fixpoint cancel_collections (l : list string) : tx (Sys W) unit :=
  match l with
  | [] => mret tt
  | id :: rest =>
      sessions ← ListPaymentSessionsByCollection id;
      _ ← cancel_held sessions;
      cancel_collections rest
  end.

Definition HandleOrderCanceled (eventName orderID : string) : tx (Sys W) unit :=
  _ ← tx_check (if bool_decide (orderID = EmptyString)
    then Some (Invalid CodeOrderEventUnusable "the %q event carries no %s" [AStr eventName; AStr "order_id"]) else None);
  collections ← tx_read (fun st => out_links LinkOrderPayment orderID (sy_outside st));
  cancel_collections collections.
End Service.
