(* ===== verification/PaymentCredit.v ===== *)
(** * Balances the shop owes: [service/storecredit.go], [service/giftcard.go] and the reads of
    [service/loyalty.go]

    What the service writes in the ledgers: issues, expiries and voids. Holds, releases and refunds are
    the tenders'. *)
From S2P Require Import Prelude GoText Errors Tx Identifiers Database PaymentModels PaymentStore PaymentTills PaymentProviders PaymentService.

Definition CodeStoreCreditInvalidInput : string := "payment_store_credit_invalid_input".
Definition CodeGiftCardInvalidInput : string := "payment_gift_card_invalid_input".
Definition CodeGiftCardHeld : string := "payment_gift_card_held".
Definition CodeGiftCardClosed : string := "payment_gift_card_disabled".
Definition CodeLoyaltyInvalidInput : string := "payment_loyalty_invalid_input".
Definition ReasonCreditExpired : string := "the credit's moment came".
Definition ReasonExpired : string := "expired".
Definition maxOrderIDLen : Z := 128.

Record IssueCreditInput := mkIssueCreditInput {
  ic_CustomerID : string;
  ic_CurrencyCode : string;
  ic_Amount : Z;
  ic_Reason : string;
  ic_Reference : string;
  ic_ExpiresAt : option moment;
  ic_OrderID : string
}.

Record IssueGiftCardInput := mkIssueGiftCardInput {
  ig_CurrencyCode : string;
  ig_Amount : Z;
  ig_Reason : string;
  ig_ExpiresAt : option moment
}.

Record SoldGiftCardInput := mkSoldGiftCardInput {
  sg_Reference : string;
  sg_OrderID : string;
  sg_CurrencyCode : string;
  sg_Amount : Z
}.

(** The code of an issued card is empty where the card was there already. *)
Record IssuedGiftCard := mkIssuedGiftCard { ix_Card : GiftCard; ix_Code : string; ix_Balance : Z }.

Section Credit.
Context {W : Type} `{!Outside W}.
Context (giftCardValidityDays : Z).

(** ** Store credit *)

(** A moment that is given has to be ahead; the message's moment is its nanoseconds here. *)
Definition ahead_check (code format : string) (given : option moment) : tx (Sys W) unit :=
  match given with
  | None => mret tt
  | Some at_ =>
      now ← clock;
      tx_check (if now <? at_ then None else Some (Invalid code format [AInt at_]))
  end.

Definition IssueCredit (i : IssueCreditInput) : tx (Sys W) StoreCreditEntry :=
  let customerID := TrimSpace (ic_CustomerID i) in
  _ ← tx_check (if bool_decide (customerID = EmptyString)
    then Some (Invalid CodeStoreCreditInvalidInput "the credit needs an owner: customer_id cannot be empty" []) else None);
  currency ← tx_of (normalizeCurrency (ic_CurrencyCode i));
  _ ← tx_check (if ic_Amount i <=? 0
    then Some (Invalid CodeStoreCreditInvalidInput
      "the credit amount has to be positive, %d given; taking credit back is a separate decision and a negative row would push the balance below zero"
      [AInt (ic_Amount i)])
    else None);
  let reason := TrimSpace (ic_Reason i) in
  _ ← tx_check (if bool_decide (reason = EmptyString)
    then Some (Invalid CodeStoreCreditInvalidInput
      "the credit needs a reason: WHY the balance exists will never exist again if it is not in the record the moment it is asked" [])
    else None);
  _ ← ahead_check CodeStoreCreditInvalidInput "the credit's moment has to be in the future, %s given" (ic_ExpiresAt i);
  let orderID := TrimSpace (ic_OrderID i) in
  _ ← tx_check (if maxOrderIDLen <? len orderID
    then Some (Invalid CodeStoreCreditInvalidInput "order_id can be at most %d bytes: %d"
      [AInt maxOrderIDLen; AInt (len orderID)])
    else None);
  id ← new_id "scredit_";
  AppendStoreCreditEntry (mkStoreCreditEntry id customerID currency (ic_Amount i) KindIssue (TrimSpace (ic_Reference i))
    reason (ic_ExpiresAt i) orderID zero_time).

Definition owner_check (code format : string) (customerID : string) : option err :=
  if bool_decide (customerID = EmptyString) then Some (Invalid code format []) else None.

Definition CreditBalance (customerID currencyCode : string) : tx (Sys W) Z :=
  let customerID := TrimSpace customerID in
  _ ← tx_check (owner_check CodeStoreCreditInvalidInput "the balance needs an owner: customer_id cannot be empty" customerID);
  currency ← tx_of (normalizeCurrency currencyCode);
  StoreCreditBalance customerID currency.

Definition ListStoreCredit (customerID currencyCode orderID : string) (limit offset : Z)
    : tx (Sys W) (list StoreCreditEntry * Z) :=
  let customerID := TrimSpace customerID in
  _ ← tx_check (owner_check CodeStoreCreditInvalidInput "the history needs an owner: customer_id cannot be empty" customerID);
  currency ← tx_of (normalizeCurrency currencyCode);
  page ← tx_of (Page_normalize limit offset);
  ListStoreCreditEntries customerID currency (TrimSpace orderID) (fst page) (snd page).

(** One balance's expiry inside its transaction: whether a row was written. *)
Definition expire_body (at_ : moment) (ref : StoreCreditBalanceRef) : tx (Sys W) bool :=
  _ ← LockBalance (fst ref) (snd ref);
  figures ← StoreCreditExpiryFigures_ ref at_;
  let amount := Due figures in
  if amount =? 0 then mret false
  else
    id ← new_id "scredit_";
    _ ← AppendStoreCreditEntry (mkStoreCreditEntry id (fst ref) (snd ref) (- amount) KindExpire EmptyString
      ReasonCreditExpired None EmptyString zero_time);
    mret true.

(** The count goes up inside the transaction, so it stays up when the commit fails. *)
Definition counted (m : tx (Sys W) bool) (st : Sys W) : bool :=
  match out_fault "BEGIN" (sy_outside st) with
  | (w, None) => match m (set_outside w st) with (_, Ok wrote) => wrote | _ => false end
  | _ => false
  end.

Definition expire_balance (at_ : moment) (ref : StoreCreditBalanceRef) : tx (Sys W) (bool * option err) := fun st =>
  match WithTx false (expire_body at_ ref) st with
  | (st', Ok wrote) => (st', Ok (wrote, None))
  | (st', Fail e) => (st', Ok (counted (expire_body at_ ref) st, Some e))
  end.

(** How many rows were written, and the error that stopped the pass. *)
Fixpoint expire_balances (at_ : moment) (l : list StoreCreditBalanceRef) (written : Z) : tx (Sys W) (Z * option err) :=
  match l with
  | [] => mret (written, None)
  | ref :: rest =>
      out ← expire_balance at_ ref;
      let written' := if fst out : bool then written + 1 else written in
      match snd out with
      | None => expire_balances at_ rest written'
      | Some e => mret (written', Some e)
      end
  end.

Definition ExpireStoreCredit (limit : Z) : tx (Sys W) (Z * option err) :=
  _ ← tx_check (if (limit <=? 0) || (MaxLimit <? limit)
    then Some (Invalid CodeStoreCreditInvalidInput "the expiry pass reads between 1 and %d balances, %d asked"
      [AInt MaxLimit; AInt limit])
    else None);
  at_ ← clock;
  due ← StoreCreditExpiryDue at_ limit;
  expire_balances at_ due 0.

(** ** Loyalty points *)

Definition PointBalance (customerID currencyCode : string) : tx (Sys W) Z :=
  let customerID := TrimSpace customerID in
  _ ← tx_check (owner_check CodeLoyaltyInvalidInput "the balance needs an owner: customer_id cannot be empty" customerID);
  currency ← tx_of (normalizeCurrency currencyCode);
  LoyaltyBalance customerID currency.

Definition ListLoyalty (customerID currencyCode : string) (limit offset : Z) : tx (Sys W) (list LoyaltyEntry * Z) :=
  let customerID := TrimSpace customerID in
  _ ← tx_check (owner_check CodeLoyaltyInvalidInput "the history needs an owner: customer_id cannot be empty" customerID);
  currency ← tx_of (normalizeCurrency currencyCode);
  page ← tx_of (Page_normalize limit offset);
  ListLoyaltyEntries customerID currency (fst page) (snd page).

(** ** Gift cards *)

(** [crypto/rand] does not fail on the platforms Go supports; the code panics where it does, which no
    caller sees as an answer. *)
Definition draw_code : tx (Sys W) string := fun st =>
  match out_random 10 (sy_outside st) with
  | (w, Some random) => (set_outside w st, Ok (NewGiftCardCode random))
  | (w, None) => (set_outside w st, Fail (Sentinel "gift card code"))
  end.

Definition normalized_code (code : string) : string := default EmptyString (NormalizeGiftCardCode code).

Definition issueGiftCard (card : GiftCard) (amount : Z) : tx (Sys W) (IssuedGiftCard * bool) :=
  code ← draw_code;
  let normalized := normalized_code code in
  id ← new_id "gcard_";
  let card := mkGiftCard id (GiftCardCodeTail normalized) (gc_CurrencyCode card) (gc_Reason card) (gc_Source card)
    (gc_SourceReference card) zero_time None None EmptyString (gc_ExpiresAt card) in
  WithTx false (
    inserted ← InsertGiftCard card (GiftCardCodeDigest normalized) giftCardValidityDays;
    match inserted with
    | None =>
        existing ← GiftCardBySourceReference (gc_SourceReference card);
        balance ← GiftCardBalance (gc_ID existing);
        mret (mkIssuedGiftCard existing EmptyString balance, false)
    | Some written =>
        entry ← new_id "gcentry_";
        _ ← AppendGiftCardEntry (mkGiftCardEntry entry (gc_ID written) amount KindIssue EmptyString zero_time);
        mret (mkIssuedGiftCard written code amount, true)
    end).

Definition IssueGiftCard (i : IssueGiftCardInput) : tx (Sys W) IssuedGiftCard :=
  currency ← tx_of (normalizeCurrency (ig_CurrencyCode i));
  _ ← tx_check (requireAmount "amount" (ig_Amount i));
  let reason := TrimSpace (ig_Reason i) in
  _ ← tx_check (if bool_decide (reason = EmptyString)
    then Some (Invalid CodeGiftCardInvalidInput
      "the gift card needs a reason: why it was issued will never exist again if it is not in the record the moment it is asked" [])
    else None);
  _ ← ahead_check CodeGiftCardInvalidInput "a gift card's expiry has to be ahead: %s" (ig_ExpiresAt i);
  out ← issueGiftCard (mkGiftCard EmptyString EmptyString currency reason GiftCardIssued EmptyString zero_time None None
    EmptyString (ig_ExpiresAt i)) (ig_Amount i);
  mret (fst out).

Definition IssueSoldGiftCard (i : SoldGiftCardInput) : tx (Sys W) (IssuedGiftCard * bool) :=
  let reference := TrimSpace (sg_Reference i) in
  let orderID := TrimSpace (sg_OrderID i) in
  _ ← tx_check (if bool_decide (reference = EmptyString) || bool_decide (orderID = EmptyString)
    then Some (Invalid CodeGiftCardInvalidInput "a sold gift card needs the sale it came from and its order" [])
    else None);
  currency ← tx_of (normalizeCurrency (sg_CurrencyCode i));
  _ ← tx_check (requireAmount "amount" (sg_Amount i));
  issueGiftCard (mkGiftCard EmptyString EmptyString currency (String.append "sold on order " orderID) GiftCardSold
    reference zero_time None None EmptyString None) (sg_Amount i).

Definition SoldGiftCardReferences (references : list string) : tx (Sys W) (list string) :=
  match references with [] => mret [] | _ => SoldGiftCardReferences_ references end.

Definition card_id_check (id : string) : option err :=
  if bool_decide (TrimSpace id = EmptyString)
  then Some (Invalid CodeGiftCardInvalidInput "the gift card id is required" []) else None.

Definition ReplaceGiftCardCode (id : string) : tx (Sys W) IssuedGiftCard :=
  _ ← tx_check (card_id_check id);
  current ← GiftCard_ id;
  _ ← tx_check (match gc_DisabledAt current with
    | Some _ => Some (Conflict CodeGiftCardClosed "gift card %s is closed; a new code would open nothing" [AStr id])
    | None => None
    end);
  code ← draw_code;
  let normalized := normalized_code code in
  card ← ReplaceGiftCardCode_ id (GiftCardCodeDigest normalized) (GiftCardCodeTail normalized);
  balance ← GiftCardBalance (gc_ID card);
  mret (mkIssuedGiftCard card code balance).

Definition DisableGiftCard (id reason : string) : tx (Sys W) (GiftCard * Z) :=
  _ ← tx_check (card_id_check id);
  let reason := TrimSpace reason in
  _ ← tx_check (if bool_decide (reason = EmptyString)
    then Some (Invalid CodeGiftCardInvalidInput "a gift card is closed with a reason" []) else None);
  _ ← tx_check (checkTextLen "reason" reason);
  WithTx false (
    first ← GiftCard_ id;
    _ ← LockGiftCardBalance (gc_ID first);
    card ← GiftCard_ id;
    match gc_DisabledAt card with
    | Some _ => mret (card, 0)
    | None =>
        held ← GiftCardOpenHolds (gc_ID card);
        _ ← tx_check (if 0 <? held
          then Some (Conflict CodeGiftCardHeld
            "gift card %s is held by %d payment sessions; it is closed once they are captured or canceled"
            [AStr (gc_ID card); AInt held])
          else None);
        balance ← GiftCardBalance (gc_ID card);
        _ ← (if 0 <? balance then
            entry ← new_id "gcentry_";
            ignore (AppendGiftCardEntry (mkGiftCardEntry entry (gc_ID card) (- balance) KindVoid EmptyString zero_time))
          else mret tt);
        closed ← DisableGiftCard_ (gc_ID card) reason;
        mret (closed, 0)
    end).

(** How many cards were closed and how many are held, and the error that stopped the pass. *)
Fixpoint expire_cards (l : list string) (closed held : Z) : tx (Sys W) (Z * Z * option err) :=
  match l with
  | [] => mret (closed, held, None)
  | id :: rest => fun st =>
      match DisableGiftCard id ReasonExpired st with
      | (st', Ok _) => expire_cards rest (closed + 1) held st'
      | (st', Fail e) =>
          if bool_decide (CodeOf e = CodeGiftCardHeld) then expire_cards rest closed (held + 1) st'
          else (st', Ok (closed, held, Some e))
      end
  end.

Definition ExpireGiftCards (limit : Z) : tx (Sys W) (Z * Z * option err) :=
  _ ← tx_check (if (limit <=? 0) || (MaxLimit <? limit)
    then Some (Invalid CodeGiftCardInvalidInput "the expiry pass reads between 1 and %d cards, %d asked"
      [AInt MaxLimit; AInt limit])
    else None);
  ids ← ExpiredOpenGiftCards limit;
  expire_cards ids 0 0.

Definition GetGiftCard (id : string) : tx (Sys W) (GiftCard * Z) :=
  _ ← tx_check (card_id_check id);
  card ← GiftCard_ id;
  balance ← GiftCardBalance (gc_ID card);
  mret (card, balance).

Definition ListGiftCards (limit offset : Z) : tx (Sys W) (list (GiftCard * Z) * Z) :=
  page ← tx_of (Page_normalize limit offset);
  found ← ListGiftCards_ (fst page) (snd page);
  balances ← GiftCardBalances (gc_ID <$> fst found);
  mret ((fun c => (c, default 0 (balances !! gc_ID c))) <$> fst found, snd found).

Definition ListGiftCardEntries (id : string) (limit offset : Z) : tx (Sys W) (list GiftCardEntry * Z) :=
  _ ← tx_check (card_id_check id);
  page ← tx_of (Page_normalize limit offset);
  _ ← GiftCard_ id;
  ListGiftCardEntries_ id (fst page) (snd page).
End Credit.

(** * Reconciliation and the providers' reports: [service/reconcile.go], [service/session_reports.go] and
    [models/completion_secret.go]

    Nothing here moves money. Durations and moments are nanoseconds. *)

Definition MaxReconcileLimit : Z := 1000.
Definition UnreportedWindow : Z := 86400000000000.
Definition UnreportedCoverage : Z := 3600000000000.
Definition ReportFirstRetry : Z := 300000000000.
Definition CodeReconcileFailed : string := "payment_reconcile_failed".
Definition CodeReportOutcomeUnknown : string := "payment_report_outcome_unknown".
Definition CodeReportedSessionClosed : string := "payment_report_session_closed".
Definition reportOutcomes : list string := ["completed"; "refunded"; "closed"; "left"; "gave_up"].
Definition CompletionSecretPrefix : string := "cpsec_".

Record Divergence := mkDivergence {
  dv_SessionID : string;
  dv_CollectionID : string;
  dv_ProviderID : string;
  dv_ExternalID : string;
  dv_LocalStatus : SessionStatus;
  dv_LocalAuthorized : Z;
  dv_ProviderStatus : SessionStatus;
  dv_ProviderCaptured : Z;
  dv_CurrencyCode : string
}.

Record ReconciliationReport := mkReport {
  rr_Examined : Z;
  rr_Agreed : Z;
  rr_Divergences : list Divergence;
  rr_Unaskable : Z;
  rr_Unreachable : Z;
  rr_Unknown : Z;
  rr_Truncated : bool;
  rr_UnreportedTruncated : bool
}.

Definition Clean (r : ReconciliationReport) : bool :=
  match rr_Divergences r with [] => true | _ => false end &&
  (rr_Unaskable r =? 0) && (rr_Unreachable r =? 0) && (rr_Unknown r =? 0) && negb (rr_UnreportedTruncated r).

Definition one_agreed (r : ReconciliationReport) : ReconciliationReport :=
  mkReport (rr_Examined r) (rr_Agreed r + 1) (rr_Divergences r) (rr_Unaskable r) (rr_Unreachable r) (rr_Unknown r)
    (rr_Truncated r) (rr_UnreportedTruncated r).
Definition one_unaskable (r : ReconciliationReport) : ReconciliationReport :=
  mkReport (rr_Examined r) (rr_Agreed r) (rr_Divergences r) (rr_Unaskable r + 1) (rr_Unreachable r) (rr_Unknown r)
    (rr_Truncated r) (rr_UnreportedTruncated r).
Definition one_unreachable (r : ReconciliationReport) : ReconciliationReport :=
  mkReport (rr_Examined r) (rr_Agreed r) (rr_Divergences r) (rr_Unaskable r) (rr_Unreachable r + 1) (rr_Unknown r)
    (rr_Truncated r) (rr_UnreportedTruncated r).
Definition one_unknown (r : ReconciliationReport) : ReconciliationReport :=
  mkReport (rr_Examined r) (rr_Agreed r) (rr_Divergences r) (rr_Unaskable r) (rr_Unreachable r) (rr_Unknown r + 1)
    (rr_Truncated r) (rr_UnreportedTruncated r).
Definition one_divergence (d : Divergence) (r : ReconciliationReport) : ReconciliationReport :=
  mkReport (rr_Examined r) (rr_Agreed r) (rr_Divergences r ++ [d]) (rr_Unaskable r) (rr_Unreachable r) (rr_Unknown r)
    (rr_Truncated r) (rr_UnreportedTruncated r).

(** On the page of pending and canceled sessions what counts is money kept. *)
Definition money_taken (s : PaymentSession) (i : SessionInspection) : Z :=
  if Contains [SessionPending; SessionCanceled] (ps_Status s)
  then sub64 (si_CapturedAmount i) (si_RefundedAmount i) else si_CapturedAmount i.

Definition divergence_of (s : PaymentSession) (i : SessionInspection) : Divergence :=
  mkDivergence (ps_ID s) (ps_PaymentCollectionID s) (ps_ProviderID s) (ps_ExternalID s) (ps_Status s)
    (ps_AuthorizedAmount s) (si_Status i) (si_CapturedAmount i) (ps_CurrencyCode s).

Section Reconcile.
Context {W : Type} `{!Outside W}.
Context (providers : Registry W).

(** A failed question is counted and never fails the pass. *)
Definition reconcileOne (s : PaymentSession) (r : ReconciliationReport) : tx (Sys W) ReconciliationReport :=
  match Get providers (ps_ProviderID s) with
  | Fail _ => mret (one_unaskable r)
  | Ok prov =>
      match pp_InspectSession prov with
      | None => mret (one_unaskable r)
      | Some inspect => fun st =>
          match inspect (ps_ExternalID s) st with
          | (st', Fail e) =>
              (st', Ok (if bool_decide (KindOf e = KindNotFound) then one_unknown r else one_unreachable r))
          | (st', Ok i) =>
              (st', Ok (if money_taken s i <=? 0 then one_agreed r else one_divergence (divergence_of s i) r))
          end
      end
  end.

Fixpoint reconcile_each (l : list PaymentSession) (r : ReconciliationReport) : tx (Sys W) ReconciliationReport :=
  match l with
  | [] => mret r
  | s :: rest => r' ← reconcileOne s r; reconcile_each rest r'
  end.

(** A listing's failure, wrapped. *)
Definition reconcile_list {A} (format : string) (m : tx (Sys W) A) : tx (Sys W) A := fun st =>
  match m st with
  | (st', Fail e) => (st', Fail (wrap e (KindOf e) CodeReconcileFailed format []))
  | r => r
  end.

Definition last_updated (l : list PaymentSession) : moment :=
  match last l with Some s => ps_UpdatedAt s | None => 0 end.

Definition Reconcile (unchangedFor limit : Z) : tx (Sys W) ReconciliationReport :=
  _ ← tx_check (if unchangedFor <=? 0
    then Some (Invalid CodeInvalidInput
      "reconciliation needs a positive settling window; a capture in flight sits in exactly the suspect state for as long as the provider takes" [])
    else if (limit <=? 0) || (MaxReconcileLimit <? limit)
    then Some (Invalid CodeInvalidInput "the reconciliation limit has to be between 1 and %d" [AInt MaxReconcileLimit])
    else None);
  now ← clock;
  suspects ← reconcile_list "the sessions to reconcile could not be listed"
    (ListSessionsForReconciliation (now - unchangedFor) (laterCapturing providers) (limit + 1));
  now' ← clock;
  let settled := now' - unchangedFor in
  pending ← reconcile_list "the pending sessions to reconcile could not be listed"
    (ListPendingSessionsForReconciliation settled (settled - UnreportedWindow) (customerAuthorizing providers)
      (MaxReconcileLimit + 1));
  let truncated := limit <? Z.of_nat (length suspects) in
  let too_many := MaxReconcileLimit <? Z.of_nat (length pending) in
  let kept := take (Z.to_nat MaxReconcileLimit) pending in
  let all := take (Z.to_nat limit) suspects ++ kept in
  reconcile_each all (mkReport (Z.of_nat (length all)) 0 [] 0 0 0 truncated
    (too_many && (settled - UnreportedCoverage <? last_updated kept))).

(** ** Reports: [session_reports.go] *)

Definition providerHolds (providerID externalID : string) : tx (Sys W) bool :=
  match Get providers providerID with
  | Fail _ => mret true
  | Ok prov =>
      match pp_InspectSession prov with
      | None => mret true
      | Some inspect => fun st =>
          match inspect externalID st with
          | (st', Fail _) => (st', Ok true)
          | (st', Ok i) => (st', Ok (0 <? sub64 (si_CapturedAmount i) (si_RefundedAmount i)))
          end
      end
  end.

(** The ids whose report is open, and whether every session named is closed. *)
Fixpoint report_each (firstDue : moment) (l : list PaymentSession) (ids : list string) (closedOnly : bool)
    : tx (Sys W) (list string * bool) :=
  match l with
  | [] => mret (ids, closedOnly)
  | s :: rest =>
      if is_live_dec s then
        _ ← RecordSessionReport (ps_ID s) firstDue;
        report ← GetSessionReport (ps_ID s);
        report_each firstDue rest
          (if bool_decide (sr_Outcome report = EmptyString) then ids ++ [ps_ID s] else ids) false
      else if SessionStatus_Terminal (ps_Status s) then report_each firstDue rest ids closedOnly
      else report_each firstDue rest ids false
  end.

Definition ReportSession (providerID externalID : string) : tx (Sys W) (list string) :=
  _ ← tx_check (requireText "provider_id" providerID);
  _ ← tx_check (requireText "external_id" externalID);
  sessions ← ListSessionsByExternalID providerID externalID;
  now ← clock;
  out ← report_each (now + ReportFirstRetry) sessions [] (match sessions with [] => false | _ => true end);
  let '(ids, closedOnly) := out in
  if closedOnly : bool then
    holds ← providerHolds providerID externalID;
    _ ← tx_check (if holds : bool
      then Some (Conflict CodeReportedSessionClosed
        "%q reported a payment for %s, whose every session here is canceled or declined" [AStr providerID; AStr externalID])
      else None);
    mret ids
  else mret ids.

(** Whether a provider says it took money for a session it was not asked about. *)
Definition says_paid (s : PaymentSession) : tx (Sys W) bool :=
  if negb (bool_decide (ps_Status s = SessionPending)) then mret false
  else match Get providers (ps_ProviderID s) with
  | Fail _ => mret false
  | Ok prov =>
      match pp_InspectSession prov with
      | None => mret false
      | Some inspect => fun st =>
          match inspect (ps_ExternalID s) st with
          | (st', Fail _) => (st', Ok false)
          | (st', Ok i) => (st', Ok (0 <? sub64 (si_CapturedAmount i) (si_RefundedAmount i)))
          end
      end
  end.

(** Whether looking at one session opened a report; the error of opening it stops the pass. *)
Definition discover_one (firstDue : moment) (s : PaymentSession) : tx (Sys W) (bool + err) :=
  paid ← says_paid s;
  if paid : bool then
    (fun st => match RecordSessionReport (ps_ID s) firstDue st with
     | (st', Fail e) => (st', Ok (inr e))
     | (st', Ok opened) => (st', Ok (inl opened))
     end) : tx (Sys W) (bool + err)
  else mret (inl false).

(** The reports opened, and the error that stopped the pass. *)
Fixpoint discover_each (firstDue : moment) (l : list PaymentSession) (found : list string)
    : tx (Sys W) (list string * option err) :=
  match l with
  | [] => mret (found, None)
  | s :: rest =>
      opened ← discover_one firstDue s;
      match opened with
      | inr e => mret (found, Some e)
      | inl opened => discover_each firstDue rest (if opened : bool then found ++ [ps_ID s] else found)
      end
  end.

Definition DiscoverReportedSessions (now : moment) : tx (Sys W) (list string * option err) :=
  match customerAuthorizing providers with
  | [] => mret ([], None)
  | authorizing =>
      sessions ← ListPendingSessionsForReconciliation now (now - UnreportedWindow) authorizing MaxReconcileLimit;
      discover_each (now + ReportFirstRetry) sessions []
  end.

Definition DueSessionReports (dueBy : moment) (limit : Z) : tx (Sys W) (list SessionReport) :=
  _ ← tx_check (if (limit <=? 0) || (MaxReconcileLimit <? limit)
    then Some (Invalid CodeInvalidInput "the report page has to be between 1 and %d" [AInt MaxReconcileLimit])
    else None);
  ListDueSessionReports dueBy limit.

Definition ReportAttempt (sessionID failure : string) (next : moment) : tx (Sys W) unit :=
  ignore (RecordSessionReportAttempt sessionID failure next).

Definition SettleReport (sessionID outcome note : string) : tx (Sys W) unit :=
  _ ← tx_check (if Contains reportOutcomes outcome then None
    else Some (Invalid CodeReportOutcomeUnknown "%q is not an outcome a report settles with" [AStr outcome]));
  ignore (SettleSessionReport sessionID outcome note).

(** ** Completion secrets *)

(** [base64.RawURLEncoding]. *)
Definition base64_alphabet : string := "ABCDEFGHIJKLMNOPQRSTUVWXYZabcdefghijklmnopqrstuvwxyz0123456789-_".

Definition base64_char (d : Z) : Z := default 0 (bytes base64_alphabet !! Z.to_nat d).

Fixpoint base64_bytes (l : list Z) : list Z :=
  match l with
  | a :: b :: c :: rest =>
      base64_char (a / 4) :: base64_char (a mod 4 * 16 + b / 16) :: base64_char (b mod 16 * 4 + c / 64) ::
      base64_char (c mod 64) :: base64_bytes rest
  | [a; b] => [base64_char (a / 4); base64_char (a mod 4 * 16 + b / 16); base64_char (b mod 16 * 4)]
  | [a] => [base64_char (a / 4); base64_char (a mod 4 * 16)]
  | [] => []
  end.

Definition CompletionSecret (body : list Z) : string :=
  String.append CompletionSecretPrefix (of_bytes (base64_bytes body)).

Definition CompletionSecretDigest (plaintext : string) : list Z := Sum256 (bytes plaintext).

Definition rand_failure : err := Sentinel "crypto/rand".

Definition OpenSessionAnswer (sessionID : string) : tx (Sys W) string :=
  _ ← tx_check (requireText "session_id" sessionID);
  secret ← (fun st => match out_random 32 (sy_outside st) with
    | (w, Some body) => (set_outside w st, Ok (CompletionSecret body))
    | (w, None) => (set_outside w st, Fail (wrap rand_failure KindInternal CodeInvalidInput
        "no completion secret could be made for session %s" [AStr sessionID]))
    end) : tx (Sys W) string;
  _ ← RecordSessionAnswer sessionID (CompletionSecretDigest secret);
  mret secret.

Definition ClaimAnswer (sessionID secret : string) : tx (Sys W) bool :=
  _ ← tx_check (requireText "session_id" sessionID);
  ClaimSessionAnswer sessionID (CompletionSecretDigest secret).
End Reconcile.
