(* ===== verification/PaymentMoves.v ===== *)
(** * The moves of the payment books, and what they keep

    The abstract machine behind [service/session.go], [capture.go] and [refund_collection.go]: seven
    moves of the money in the books, and the notes taken beside it. [Sound] says what the four tables of money promise one another; every move keeps
    it, and that a move's new totals pass the table's constraints follows from it. *)
From S2P Require Import Prelude GoText Errors Tx Identifiers Database PaymentModels PaymentStore PaymentRules PaymentTills PaymentProviders PaymentService.

(** ** Sums over the tables *)

Definition held_by (s : PaymentSession) : Z :=
  if decide (ps_Status s = SessionAuthorized) then ps_AuthorizedAmount s else 0.

(** What a row of collection [id] counts for. *)
Definition of_session (id : string) (f : PaymentSession -> Z) (s : PaymentSession) : Z :=
  if decide (ps_PaymentCollectionID s = id) then f s else 0.
Definition of_payment (id : string) (f : Payment -> Z) (p : Payment) : Z :=
  if decide (py_PaymentCollectionID p = id) then f p else 0.

Definition held (id : string) (b : Books) : Z := sum_of (of_session id held_by) (bk_sessions b).
Definition saved (id : string) (b : Books) : Z := sum_of (of_session id reserved) (bk_sessions b).
Definition taken (id : string) (b : Books) : Z := sum_of (of_payment id py_Amount) (bk_payments b).
Definition returned (id : string) (b : Books) : Z := sum_of (of_payment id py_RefundedAmount) (bk_payments b).
Definition given_back (id : string) (b : Books) : Z :=
  sum_of (fun r => if decide (rf_PaymentID r = id) then rf_Amount r else 0) (bk_refunds b).

(** ** The moves *)

Definition collection_ok (c : PaymentCollection) : Prop := check_violated (collection_checks c) = None.
Definition session_ok (s : PaymentSession) : Prop := check_violated (session_checks s) = None.
Definition payment_ok (p : Payment) : Prop := check_violated (payment_checks p) = None.

Definition put_session (s : PaymentSession) (b : Books) : Books := set_sessions (<[ps_ID s := s]> (bk_sessions b)) b.
Definition put_payment (p : Payment) (b : Books) : Books := set_payments (<[py_ID p := p]> (bk_payments b)) b.
Definition put_refund (r : Refund) (b : Books) : Books := set_refunds (<[rf_ID r := r]> (bk_refunds b)) b.

(** The totals' row with new figures and the status they and the sessions give. *)
Definition settle (now : moment) (id : string) (authorized captured refunded : Z) (b : Books) : Books :=
  match bk_collections b !! id with
  | None => b
  | Some c => set_collections (<[id := set_totals now
      (CollectionStatusFor (with_totals c authorized captured refunded) (SessionCounts_of id b))
      authorized captured refunded c]> (bk_collections b)) b
  end.

(** A report is of a session, and its row stays of it. *)
Definition noted_report (b : Books) (id : string) (r : SessionReport) : Prop :=
  bk_reports b !! id = Some r \/
  (sr_SessionID r = id /\ (is_Some (bk_reports b !! id) \/ is_Some (bk_sessions b !! id))).

(** A secret's digest is written once and spent once. *)
Definition noted_answer (b : Books) (id : string) (a : SessionAnswer) : Prop :=
  bk_answers b !! id = Some a \/
  (bk_answers b !! id = None /\ is_Some (bk_sessions b !! id) /\ length (sa_Digest a) = 32%nat /\ sa_AnsweredAt a = None) \/
  (exists a', bk_answers b !! id = Some a' /\ sa_Digest a = sa_Digest a' /\ sa_AnsweredAt a' = None).

Inductive move (b : Books) : Books -> Prop :=
| move_note reports answers :
    map_Forall (noted_report b) reports -> map_Forall (noted_answer b) answers ->
    (forall id, is_Some (bk_answers b !! id) -> is_Some (answers !! id)) ->
    move b (set_answers answers (set_reports reports b))
| move_collection c :
    bk_collections b !! pc_ID c = None -> collection_ok c -> pc_Amount c <= MaxAmount ->
    pc_Status c = CollectionNotPaid ->
    pc_AuthorizedAmount c = 0 -> pc_CapturedAmount c = 0 -> pc_RefundedAmount c = 0 ->
    move b (set_collections (<[pc_ID c := c]> (bk_collections b)) b)
| move_open now s c :
    bk_sessions b !! ps_ID s = None ->
    bk_collections b !! ps_PaymentCollectionID s = Some c ->
    session_of_key (ps_ProviderID s) (ps_IdempotencyKey s) b = None ->
    session_ok s -> ps_AuthorizedAmount s = 0 -> ps_CurrencyCode s = pc_CurrencyCode c ->
    pc_CapturedAmount c + saved (pc_ID c) b + ps_Amount s <= pc_Amount c ->
    move b (settle now (pc_ID c) (pc_AuthorizedAmount c) (pc_CapturedAmount c) (pc_RefundedAmount c) (put_session s b))
| move_hold now now' s c amount data :
    bk_sessions b !! ps_ID s = Some s -> bk_collections b !! ps_PaymentCollectionID s = Some c ->
    ps_Status s = SessionPending -> 0 <= amount <= ps_Amount s ->
    move b (settle now' (pc_ID c) (pc_AuthorizedAmount c + amount) (pc_CapturedAmount c) (pc_RefundedAmount c)
      (put_session (set_session_state now SessionAuthorized amount data EmptyString s) b))
| move_decline now now' s c data reason :
    bk_sessions b !! ps_ID s = Some s -> bk_collections b !! ps_PaymentCollectionID s = Some c ->
    ps_Status s = SessionPending ->
    move b (settle now' (pc_ID c) (pc_AuthorizedAmount c) (pc_CapturedAmount c) (pc_RefundedAmount c)
      (put_session (set_session_state now SessionFailed 0 data reason s) b))
| move_cancel now now' s c :
    bk_sessions b !! ps_ID s = Some s -> bk_collections b !! ps_PaymentCollectionID s = Some c ->
    CancelAction (ps_Status s) = ActionProceed ->
    move b (settle now' (pc_ID c) (pc_AuthorizedAmount c - ps_AuthorizedAmount s) (pc_CapturedAmount c)
      (pc_RefundedAmount c) (put_session (set_session_state now SessionCanceled 0 (ps_Data s) (ps_DeclineReason s) s) b))
| move_capture now now' s c p :
    bk_sessions b !! ps_ID s = Some s -> bk_collections b !! ps_PaymentCollectionID s = Some c ->
    ps_Status s = SessionAuthorized -> 0 < py_Amount p <= ps_AuthorizedAmount s ->
    bk_payments b !! py_ID p = None -> py_PaymentSessionID p = ps_ID s -> py_PaymentCollectionID p = pc_ID c ->
    py_CurrencyCode p = ps_CurrencyCode s -> py_RefundedAmount p = 0 ->
    move b (insert_event (money_moved EventPaymentCaptured (py_ID p) (pc_ID c) (py_CapturedAt p))
      (settle now' (pc_ID c) (pc_AuthorizedAmount c - ps_AuthorizedAmount s) (pc_CapturedAmount c + py_Amount p)
        (pc_RefundedAmount c) (put_payment p
        (put_session (set_session_state now SessionCaptured (py_Amount p) (ps_Data s) (ps_DeclineReason s) s) b))))
| move_refund now now' p c r :
    bk_payments b !! py_ID p = Some p -> bk_collections b !! py_PaymentCollectionID p = Some c ->
    bk_refunds b !! rf_ID r = None -> rf_PaymentID r = py_ID p ->
    0 < rf_Amount r -> py_RefundedAmount p + rf_Amount r <= py_Amount p ->
    move b (insert_event (money_moved EventPaymentRefunded (rf_ID r) (pc_ID c) (rf_CreatedAt r))
      (settle now' (pc_ID c) (pc_AuthorizedAmount c) (pc_CapturedAmount c) (pc_RefundedAmount c + rf_Amount r)
        (put_refund r (put_payment (set_refunded now (py_RefundedAmount p + rf_Amount r) p) b)))).

(** ** What the books promise *)

Definition collection_sound (id : string) (c : PaymentCollection) : Prop :=
  pc_ID c = id /\ collection_ok c /\ pc_Amount c <= MaxAmount.

(** Money is held by an authorized session alone; a captured one remembers what it took. *)
Definition session_sound (b : Books) (id : string) (s : PaymentSession) : Prop :=
  ps_ID s = id /\ session_ok s /\
  (ps_Status s <> SessionAuthorized -> ps_Status s <> SessionCaptured -> ps_AuthorizedAmount s = 0) /\
  exists c, bk_collections b !! ps_PaymentCollectionID s = Some c /\ ps_CurrencyCode s = pc_CurrencyCode c.

Definition payment_sound (b : Books) (id : string) (p : Payment) : Prop :=
  py_ID p = id /\ payment_ok p /\ py_RefundedAmount p = given_back id b /\
  exists s, bk_sessions b !! py_PaymentSessionID p = Some s /\ ps_Status s = SessionCaptured /\
    ps_AuthorizedAmount s = py_Amount p /\ ps_PaymentCollectionID s = py_PaymentCollectionID p /\
    ps_CurrencyCode s = py_CurrencyCode p.

Definition refund_sound (b : Books) (id : string) (r : Refund) : Prop :=
  rf_ID r = id /\ 0 < rf_Amount r /\ is_Some (bk_payments b !! rf_PaymentID r).

Definition balanced (b : Books) (id : string) (c : PaymentCollection) : Prop :=
  pc_AuthorizedAmount c = held id b /\ pc_CapturedAmount c = taken id b /\ pc_RefundedAmount c = returned id b /\
  pc_CapturedAmount c + saved id b <= pc_Amount c /\
  pc_Status c = CollectionStatusFor c (SessionCounts_of id b).

(** The collections of [P] are balanced. *)
Record SoundFor (P : string -> Prop) (b : Books) : Prop := mkSound {
  sound_collections : map_Forall collection_sound (bk_collections b);
  sound_sessions : map_Forall (session_sound b) (bk_sessions b);
  sound_payments : map_Forall (payment_sound b) (bk_payments b);
  sound_refunds : map_Forall (refund_sound b) (bk_refunds b);
  sound_keys : forall i j s s', bk_sessions b !! i = Some s -> bk_sessions b !! j = Some s' ->
    ps_ProviderID s = ps_ProviderID s' -> ps_IdempotencyKey s = ps_IdempotencyKey s' -> i = j;
  sound_once : forall i j p p', bk_payments b !! i = Some p -> bk_payments b !! j = Some p' ->
    py_PaymentSessionID p = py_PaymentSessionID p' -> i = j;
  sound_totals : forall id c, P id -> bk_collections b !! id = Some c -> balanced b id c
}.

Definition Sound : Books -> Prop := SoundFor (fun _ => True).

(** ** Sums *)

Lemma saved_read id b : sumZ (reserved <$> sessions_of id b) = saved id b.
Proof. apply sum_of_filter. Qed.

(** The counts of one collection's sessions. *)
Lemma count_if_read (P : PaymentSession -> Prop) `{!forall s, Decision (P s)} id b :
  count_if P (sessions_of id b) = sum_of (of_session id (fun s => if decide (P s) then 1 else 0)) (bk_sessions b).
Proof.
  unfold of_session, sessions_of. rewrite <- sum_of_filter. unfold count_if.
  induction (filter _ (rows _)) as [|s l IH]; [done|]. rewrite fmap_cons, sumZ_cons, filter_cons.
  destruct (decide (P s)); cbn [length]; lia.
Qed.

(** A session of another collection does not count. *)
Lemma of_session_other id (f : PaymentSession -> Z) s b :
  ps_PaymentCollectionID s <> id ->
  (forall o, bk_sessions b !! ps_ID s = Some o -> ps_PaymentCollectionID o = ps_PaymentCollectionID s) ->
  sum_of (of_session id f) (bk_sessions (put_session s b)) = sum_of (of_session id f) (bk_sessions b).
Proof.
  intros Hs Ho. cbn. rewrite sum_of_put. unfold of_session at 3. rewrite decide_False by done.
  destruct (bk_sessions b !! ps_ID s) as [o|] eqn:E; cbn; [|lia].
  unfold of_session at 2. rewrite (Ho o eq_refl), decide_False by done. lia.
Qed.

(** The status a collection gets asks only whether there is a live session and whether there is a
    canceled one. *)
Lemma status_of_counts c n n' : sn_Live n = sn_Live n' -> sn_Canceled n = sn_Canceled n' ->
  CollectionStatusFor c n = CollectionStatusFor c n'.
Proof. intros H1 H2. unfold CollectionStatusFor. by rewrite H1, H2. Qed.

Lemma status_of_totals c c' n : pc_Amount c = pc_Amount c' -> pc_AuthorizedAmount c = pc_AuthorizedAmount c' ->
  pc_CapturedAmount c = pc_CapturedAmount c' -> pc_RefundedAmount c = pc_RefundedAmount c' ->
  CollectionStatusFor c n = CollectionStatusFor c' n.
Proof. intros H1 H2 H3 H4. unfold CollectionStatusFor. by rewrite H1, H2, H3, H4. Qed.

(** ** What the constraints say *)

Lemma collection_ok_iff c : collection_ok c <->
  0 < pc_Amount c /\ 0 <= pc_AuthorizedAmount c <= pc_Amount c /\
  0 <= pc_RefundedAmount c <= pc_CapturedAmount c /\ pc_CapturedAmount c <= pc_Amount c /\
  (currency_format (pc_CurrencyCode c) = true /\
   bool_decide (pc_CustomerID c = EmptyString) || not_blank (pc_CustomerID c) = true) /\
  CollectionStatus_Valid (pc_Status c) = true.
Proof.
  unfold collection_ok, collection_checks. rewrite !check_violated_cons, check_violated_nil, ?Z.ltb_lt, ?Z.leb_le.
  intuition lia.
Qed.

Lemma session_ok_iff s : session_ok s <->
  0 < ps_Amount s /\ 0 <= ps_AuthorizedAmount s <= ps_Amount s /\
  currency_format (ps_CurrencyCode s) = true /\ SessionStatus_Valid (ps_Status s) = true.
Proof.
  unfold session_ok, session_checks. rewrite !check_violated_cons, check_violated_nil, ?Z.ltb_lt, ?Z.leb_le. intuition lia.
Qed.

Lemma payment_ok_iff p : payment_ok p <->
  0 < py_Amount p /\ 0 <= py_RefundedAmount p <= py_Amount p /\ currency_format (py_CurrencyCode p) = true.
Proof.
  unfold payment_ok, payment_checks. rewrite !check_violated_cons, check_violated_nil, ?Z.ltb_lt, ?Z.leb_le. intuition lia.
Qed.

(** * The payment books stay sound: every move keeps [Sound] *)

Lemma sound_weaken (P Q : string -> Prop) b : (forall id, Q id -> P id) -> SoundFor P b -> SoundFor Q b.
Proof. intros HPQ H. constructor; [apply H..|]. intros id c HQ. by apply (sound_totals _ _ H), HPQ. Qed.

(** [Sound] is about the tables of money. *)
Lemma sound_tables P b b' :
  bk_collections b' = bk_collections b -> bk_sessions b' = bk_sessions b ->
  bk_payments b' = bk_payments b -> bk_refunds b' = bk_refunds b -> SoundFor P b -> SoundFor P b'.
Proof.
  destruct b, b'; cbn. intros -> -> -> -> []. constructor; assumption.
Qed.

Lemma settle_eq now id a k r b c : bk_collections b !! id = Some c ->
  settle now id a k r b = set_collections (<[id := set_totals now
      (CollectionStatusFor (with_totals c a k r) (SessionCounts_of id b)) a k r c]> (bk_collections b)) b.
Proof. unfold settle. by intros ->. Qed.

Section Figures.
Context {P : string -> Prop} {b : Books} (H : SoundFor P b).

Lemma session_amounts i s : bk_sessions b !! i = Some s -> 0 < ps_Amount s /\ 0 <= ps_AuthorizedAmount s <= ps_Amount s.
Proof. intros (_ & [? [? _]]%session_ok_iff & _)%(sound_sessions _ _ H). done. Qed.

Lemma reserved_bounds s : 0 < ps_Amount s -> 0 <= ps_AuthorizedAmount s <= ps_Amount s ->
  0 <= held_by s <= reserved s /\ reserved s <= ps_Amount s.
Proof.
  unfold held_by, reserved. intros. case_decide as E.
  { rewrite E, bool_decide_false, bool_decide_true by done. lia. }
  repeat case_bool_decide; (congruence || lia).
Qed.

Lemma held_saved id : 0 <= held id b <= saved id b.
Proof.
  split; [apply sum_of_nonneg|apply sum_of_mono]; intros i s Hs; pose proof (session_amounts i s Hs) as [? ?];
    pose proof (reserved_bounds s); unfold of_session; case_decide; lia.
Qed.

Lemma payment_amounts i p : bk_payments b !! i = Some p -> 0 < py_Amount p /\ 0 <= py_RefundedAmount p <= py_Amount p.
Proof. intros (_ & [? [? _]]%payment_ok_iff & _)%(sound_payments _ _ H). done. Qed.

Lemma returned_taken id : 0 <= returned id b <= taken id b.
Proof.
  split; [apply sum_of_nonneg|apply sum_of_mono]; intros i p Hp; pose proof (payment_amounts i p Hp) as [? ?];
    unfold of_payment; case_decide; lia.
Qed.

Lemma collection_amounts id c : bk_collections b !! id = Some c ->
  0 < pc_Amount c <= MaxAmount /\ 0 <= pc_AuthorizedAmount c <= pc_Amount c /\
  0 <= pc_RefundedAmount c <= pc_CapturedAmount c /\ pc_CapturedAmount c <= pc_Amount c.
Proof. intros (_ & [? [? [? [? _]]]]%collection_ok_iff & ?)%(sound_collections _ _ H). done. Qed.

(** A session of no capture has none. *)
Lemma no_payment_of i s j p : bk_sessions b !! i = Some s -> ps_Status s <> SessionCaptured ->
  bk_payments b !! j = Some p -> py_PaymentSessionID p <> i.
Proof.
  intros Hs Hc Hp E. apply (sound_payments _ _ H) in Hp as (_ & _ & _ & s' & Hs' & Hc' & _).
  rewrite E, Hs in Hs'. injection Hs' as ->. done.
Qed.
End Figures.

(** A session of the books is its own row. *)
Lemma put_session_same P b i s : SoundFor P b -> bk_sessions b !! i = Some s -> ps_ID s = i.
Proof. intros H (Hi & _)%(sound_sessions _ _ H). done. Qed.

(** ** The totals' row *)

Lemma settle_collection now id a k r b c P : SoundFor P b -> bk_collections b !! id = Some c ->
  a = held id b -> k = taken id b -> r = returned id b -> k + saved id b <= pc_Amount c ->
  collection_sound id (set_totals now (CollectionStatusFor (with_totals c a k r) (SessionCounts_of id b)) a k r c).
Proof.
  intros H Hc -> -> -> Hroom. pose proof (held_saved H id). pose proof (returned_taken H id).
  apply (sound_collections _ _ H) in Hc as (Hi & (? & _ & _ & _ & [? ?] & _)%collection_ok_iff & Hm).
  split; [done|]. split; [|done]. apply collection_ok_iff. cbn. split_and!; try (done || lia).
  apply CollectionStatusFor_valid.
Qed.

Lemma settle_sound now id a k r b c : SoundFor (fun i => i <> id) b -> bk_collections b !! id = Some c ->
  a = held id b -> k = taken id b -> r = returned id b -> k + saved id b <= pc_Amount c ->
  Sound (settle now id a k r b).
Proof.
  intros H Hc Ha Hk Hr Hroom. pose proof (settle_collection now id a k r b c _ H Hc Ha Hk Hr Hroom) as Hrow.
  rewrite (settle_eq _ _ _ _ _ _ _ Hc). destruct H as [H1 H2 H3 H4 H5 H6 H7].
  constructor; cbn [bk_collections bk_sessions bk_payments bk_refunds set_collections]; try done.
  - by apply map_Forall_insert_2.
  - intros i s Hs. apply H2 in Hs as (? & ? & ? & c' & Hc' & Hcur). split_and!; try done.
    cbn. destruct (decide (id = ps_PaymentCollectionID s)) as [E|NE].
    + rewrite <- E, lookup_insert_eq. eexists. split; [done|]. rewrite <- E, Hc in Hc'. injection Hc' as <-. done.
    + rewrite lookup_insert_ne by done. by exists c'.
  - intros i c' _. destruct (decide (id = i)) as [<-|NE].
    + rewrite lookup_insert_eq. intros [= <-]. split_and!; done.
    + rewrite lookup_insert_ne by done. intros Hc'. by apply H7.
Qed.

(** ** A session's row *)

Definition replaces (b : Books) (s : PaymentSession) : Prop :=
  match bk_sessions b !! ps_ID s with
  | None => session_of_key (ps_ProviderID s) (ps_IdempotencyKey s) b = None
  | Some o => ps_PaymentCollectionID o = ps_PaymentCollectionID s /\ ps_ProviderID o = ps_ProviderID s /\
      ps_IdempotencyKey o = ps_IdempotencyKey s /\ ps_Status o <> SessionCaptured
  end.

Lemma session_of_key_None provider key b : session_of_key provider key b = None ->
  forall i s, bk_sessions b !! i = Some s -> ps_ProviderID s = provider -> ps_IdempotencyKey s = key -> False.
Proof.
  intros H i s Hs <- <-. apply (proj1 (head_filter_None _ _) H i s Hs). unfold same_key. by rewrite !bool_decide_true.
Qed.

Lemma put_session_keys b s : Sound b -> replaces b s ->
  forall i j x y, bk_sessions (put_session s b) !! i = Some x -> bk_sessions (put_session s b) !! j = Some y ->
    ps_ProviderID x = ps_ProviderID y -> ps_IdempotencyKey x = ps_IdempotencyKey y -> i = j.
Proof.
  intros H Hr i j x y. cbn. intros Hx Hy Hp Hk.
  assert (Hold : forall i x, i <> ps_ID s -> bk_sessions b !! i = Some x ->
    ps_ProviderID x = ps_ProviderID s -> ps_IdempotencyKey x = ps_IdempotencyKey s -> False).
  { clear -H Hr. intros i x Hi Hx Hp Hk. unfold replaces in Hr. destruct (bk_sessions b !! ps_ID s) as [o|] eqn:Ho.
    - destruct Hr as (_ & Ep & Ek & _). apply Hi. eapply (sound_keys _ _ H i (ps_ID s) x o); congruence.
    - by eapply session_of_key_None. }
  destruct (decide (ps_ID s = i)) as [<-|Hi], (decide (ps_ID s = j)) as [<-|Hj];
    rewrite ?lookup_insert_eq, ?lookup_insert_ne in Hx by done; rewrite ?lookup_insert_eq, ?lookup_insert_ne in Hy by done.
  - done.
  - injection Hx as <-. exfalso. by eapply (Hold j y).
  - injection Hy as <-. exfalso. by eapply (Hold i x).
  - by eapply (sound_keys _ _ H i j x y).
Qed.

Lemma put_session_totals b s id c : Sound b -> replaces b s -> id <> ps_PaymentCollectionID s ->
  bk_collections b !! id = Some c -> balanced (put_session s b) id c.
Proof.
  intros H Hr Hid Hc. destruct (sound_totals _ _ H id c I Hc) as (Ha & Hk & Hrf & Hroom & Hst).
  assert (E : forall f, sum_of (of_session id f) (bk_sessions (put_session s b)) = sum_of (of_session id f) (bk_sessions b)).
  { intros f. apply of_session_other; [done|]. intros o Ho. unfold replaces in Hr. rewrite Ho in Hr. by destruct Hr. }
  split_and!; [by rewrite Ha; unfold held; rewrite E|done|done|by unfold saved; rewrite E|].
  rewrite Hst. apply status_of_counts; cbn [sn_Live sn_Canceled SessionCounts_of]; by rewrite !count_if_read, E.
Qed.

Lemma put_session_sound b s c : Sound b -> replaces b s -> session_ok s ->
  bk_collections b !! ps_PaymentCollectionID s = Some c -> ps_CurrencyCode s = pc_CurrencyCode c ->
  (ps_Status s <> SessionAuthorized -> ps_Status s <> SessionCaptured -> ps_AuthorizedAmount s = 0) ->
  SoundFor (fun i => i <> ps_PaymentCollectionID s) (put_session s b).
Proof.
  intros H Hr Hok Hc Hcur Hz. pose proof H as [H1 H2 H3 H4 H5 H6 H7].
  constructor; [done| |intros i p Hp|done|by apply put_session_keys|done|].
  - apply map_Forall_insert_2; [split_and!; [done..|by exists c]|exact H2].
  - pose proof Hp as (? & ? & ? & s' & Hs' & Hc' & ?)%H3. split_and!; [done..|]. exists s'. split; [|done].
    cbn. rewrite lookup_insert_ne; [done|]. intros E. unfold replaces in Hr. rewrite E, Hs' in Hr. by destruct Hr as (_ & _ & _ & Hn).
  - intros id c' Hid Hc'. by apply put_session_totals.
Qed.

(** ** A capture's row *)

Lemma no_refund_of b pid : Sound b -> bk_payments b !! pid = None -> given_back pid b = 0.
Proof.
  intros H Hp. apply sum_of_zero. intros i r Hr. case_decide as E; [|done].
  apply (sound_refunds _ _ H) in Hr as (_ & _ & [p Hp']). by rewrite E, Hp in Hp'.
Qed.

Lemma put_payment_sound b p s : SoundFor (fun i => i <> py_PaymentCollectionID p) b ->
  bk_payments b !! py_ID p = None -> given_back (py_ID p) b = 0 -> (forall j p', bk_payments b !! j = Some p' -> py_PaymentSessionID p' <> py_PaymentSessionID p) ->
  payment_ok p -> py_RefundedAmount p = 0 ->
  bk_sessions b !! py_PaymentSessionID p = Some s -> ps_Status s = SessionCaptured -> ps_AuthorizedAmount s = py_Amount p ->
  ps_PaymentCollectionID s = py_PaymentCollectionID p -> ps_CurrencyCode s = py_CurrencyCode p ->
  SoundFor (fun i => i <> py_PaymentCollectionID p) (put_payment p b).
Proof.
  intros [H1 H2 H3 H4 H5 H6 H7] Hnew Hg Hfree Hok Hz Hs ????. constructor; [done|done| |intros i r Hr|done| |].
  - apply map_Forall_insert_2; [split_and!; [done|done|by rewrite Hz|by exists s]|exact H3].
  - apply H4 in Hr as (? & ? & [p' Hp']). split_and!; [done..|]. cbn. rewrite lookup_insert_ne; [by exists p'|]. congruence.
  - intros i j x y. cbn. destruct (decide (py_ID p = i)) as [<-|Hi], (decide (py_ID p = j)) as [<-|Hj];
      rewrite ?lookup_insert_eq, ?lookup_insert_ne by done; [done| | |by apply H6].
    + intros [= <-] Hy E. by destruct (Hfree j y).
    + intros Hx [= <-] E. by destruct (Hfree i x).
  - intros id c Hid Hc. destruct (H7 id c Hid Hc) as (Ha & Hk & Hr & Hroom & Hst). unfold balanced.
    assert (E : forall f, of_payment id f p = 0) by (intros f; unfold of_payment; by rewrite decide_False).
    unfold taken, returned. cbn. rewrite !sum_of_insert, !E by done. done.
Qed.

(** ** A refund's rows *)

Lemma given_back_put r b pid : bk_refunds b !! rf_ID r = None ->
  given_back pid (put_refund r b) = given_back pid b + (if decide (rf_PaymentID r = pid) then rf_Amount r else 0).
Proof. intros H. unfold given_back. cbn. rewrite sum_of_insert by done. lia. Qed.

Lemma put_refund_sound b p r now refunded : Sound b -> bk_payments b !! py_ID p = Some p ->
  bk_refunds b !! rf_ID r = None -> rf_PaymentID r = py_ID p -> 0 < rf_Amount r ->
  refunded = py_RefundedAmount p + rf_Amount r -> refunded <= py_Amount p ->
  SoundFor (fun i => i <> py_PaymentCollectionID p) (put_refund r (put_payment (set_refunded now refunded p) b)).
Proof.
  intros H Hp Hr Hpid Hpos -> Hle. pose proof H as [H1 H2 H3 H4 H5 H6 H7].
  constructor; [done|done| | |done| |].
  - intros i q Hq. cbn in Hq. apply lookup_insert_Some in Hq as [[<- <-]|[Hne Hq]].
    + destruct (H3 _ _ Hp) as (_ & (? & ? & ?)%payment_ok_iff & Hg & s & Hs). split; [done|].
      split; [apply payment_ok_iff; cbn; split_and!; try done; lia|].
      split; [|by exists s]. rewrite given_back_put by done. rewrite Hpid, decide_True by done. cbn. unfold given_back in *. cbn. lia.
    + destruct (H3 _ _ Hq) as (Hi & ? & Hg & ?). split_and!; try done. rewrite given_back_put by done.
      rewrite decide_False by congruence. unfold given_back in *. cbn. lia.
  - apply map_Forall_insert_2.
    + split_and!; [done|done|]. rewrite Hpid. cbn. rewrite lookup_insert_eq. done.
    + intros i r' Hr'. apply H4 in Hr' as (? & ? & [q Hq]). split_and!; try done.
      cbn. rewrite lookup_insert_is_Some'. right. by exists q.
  - intros i j x y. cbn. rewrite !lookup_insert_Some. intros [[<- <-]|[? Hx]] [[<- <-]|[? Hy]] E; [done| | |by eapply H6].
    + by eapply (H6 _ _ p y).
    + by eapply (H6 _ _ x p).
  - intros id c Hid Hc. destruct (H7 id c I Hc) as (Ha & Hk & Hrf & Hroom & Hst). unfold balanced.
    unfold taken, returned. cbn. rewrite !(sum_of_same _ _ _ p) by (try done; unfold of_payment; cbn; by rewrite !decide_False). done.
Qed.

(** ** The figures after a move *)

Lemma held_put s b : held (ps_PaymentCollectionID s) (put_session s b) =
  held (ps_PaymentCollectionID s) b - from_option (of_session (ps_PaymentCollectionID s) held_by) 0 (bk_sessions b !! ps_ID s) + held_by s.
Proof. unfold held. cbn. rewrite sum_of_put. unfold of_session at 3. by rewrite decide_True. Qed.

Lemma saved_put s b : saved (ps_PaymentCollectionID s) (put_session s b) =
  saved (ps_PaymentCollectionID s) b - from_option (of_session (ps_PaymentCollectionID s) reserved) 0 (bk_sessions b !! ps_ID s) + reserved s.
Proof. unfold saved. cbn. rewrite sum_of_put. unfold of_session at 3. by rewrite decide_True. Qed.

Lemma insert_event_sound P e b : SoundFor P b -> SoundFor P (insert_event e b).
Proof. intros H. unfold insert_event. case_match; [done|]. by apply (sound_tables P b). Qed.

(** ** Every move keeps the books sound *)

Lemma held_by_other s : ps_Status s <> SessionAuthorized -> held_by s = 0.
Proof. intros H. unfold held_by. by rewrite decide_False. Qed.

Lemma reserved_pending s : ps_Status s = SessionPending -> reserved s = ps_Amount s.
Proof. intros H. unfold reserved. by rewrite bool_decide_true. Qed.

Lemma reserved_authorized s : ps_Status s = SessionAuthorized -> reserved s = ps_AuthorizedAmount s.
Proof. intros H. unfold reserved. rewrite H. by rewrite bool_decide_false, bool_decide_true. Qed.

Lemma reserved_other s : ps_Status s ∉ [SessionPending; SessionAuthorized] -> reserved s = 0.
Proof. intros H. unfold reserved. rewrite !bool_decide_false; set_solver. Qed.

(** A session's row moved to another state, and its collection settled. *)
Lemma move_session_sound b now s s' c a : Sound b -> bk_sessions b !! ps_ID s = Some s ->
  bk_collections b !! ps_PaymentCollectionID s = Some c -> ps_Status s <> SessionCaptured ->
  ps_ID s' = ps_ID s -> ps_PaymentCollectionID s' = ps_PaymentCollectionID s -> ps_ProviderID s' = ps_ProviderID s ->
  ps_IdempotencyKey s' = ps_IdempotencyKey s -> ps_CurrencyCode s' = ps_CurrencyCode s -> session_ok s' ->
  ps_Status s' <> SessionCaptured -> (ps_Status s' <> SessionAuthorized -> ps_AuthorizedAmount s' = 0) ->
  a = pc_AuthorizedAmount c - held_by s + held_by s' -> reserved s' <= reserved s ->
  Sound (settle now (pc_ID c) a (pc_CapturedAmount c) (pc_RefundedAmount c) (put_session s' b)).
Proof.
  intros H Hs Hc Hst Ei Ec Ep Ek Ecur Hok Hnc Hz -> Hres.
  pose proof (sound_collections _ _ H _ _ Hc) as (Eid & _). rewrite Eid, <- Ec.
  destruct (sound_totals _ _ H _ c I Hc) as (Ha & Hk & Hrf & Hroom & _).
  pose proof (sound_sessions _ _ H _ _ Hs) as (_ & _ & _ & c' & Hc' & Hcur). rewrite Hc in Hc'. injection Hc' as <-.
  assert (Hself : forall f, from_option (of_session (ps_PaymentCollectionID s') f) 0 (bk_sessions b !! ps_ID s') = f s).
  { intros f. rewrite Ei, Hs. cbn. unfold of_session. by rewrite Ec, decide_True. }
  apply (settle_sound _ _ _ _ _ _ c).
  - apply (put_session_sound b s' c); try done; [unfold replaces; rewrite Ei, Hs; done|by rewrite Ec|congruence|auto].
  - cbn. by rewrite Ec.
  - rewrite held_put, Hself, Ec. lia.
  - rewrite Ec. done.
  - rewrite Ec. done.
  - rewrite saved_put, Hself, Ec. lia.
Qed.

Lemma move_open_sound b now s c : Sound b -> bk_sessions b !! ps_ID s = None ->
  bk_collections b !! ps_PaymentCollectionID s = Some c ->
  session_of_key (ps_ProviderID s) (ps_IdempotencyKey s) b = None ->
  session_ok s -> ps_AuthorizedAmount s = 0 -> ps_CurrencyCode s = pc_CurrencyCode c ->
  pc_CapturedAmount c + saved (pc_ID c) b + ps_Amount s <= pc_Amount c ->
  Sound (settle now (pc_ID c) (pc_AuthorizedAmount c) (pc_CapturedAmount c) (pc_RefundedAmount c) (put_session s b)).
Proof.
  intros H Hs Hc Hkey Hok Hz Hcur Hroom. pose proof (sound_collections _ _ H _ _ Hc) as (Eid & _). rewrite Eid in *.
  destruct (sound_totals _ _ H _ c I Hc) as (Ha & Hk & Hrf & _ & _).
  pose proof Hok as (Hpos & Hau & _)%session_ok_iff. pose proof (reserved_bounds s Hpos Hau) as [Hr1 Hr2].
  apply (settle_sound _ _ _ _ _ _ c).
  - apply (put_session_sound b s c); try done. unfold replaces. by rewrite Hs.
  - done.
  - rewrite held_put, Hs. cbn. unfold held_by. case_decide; lia.
  - done.
  - done.
  - rewrite saved_put, Hs. cbn. lia.
Qed.

Lemma move_capture_sound b now now' s c p : Sound b ->
  bk_sessions b !! ps_ID s = Some s -> bk_collections b !! ps_PaymentCollectionID s = Some c ->
  ps_Status s = SessionAuthorized -> 0 < py_Amount p <= ps_AuthorizedAmount s ->
  bk_payments b !! py_ID p = None -> py_PaymentSessionID p = ps_ID s -> py_PaymentCollectionID p = pc_ID c ->
  py_CurrencyCode p = ps_CurrencyCode s -> py_RefundedAmount p = 0 ->
  Sound (settle now' (pc_ID c) (pc_AuthorizedAmount c - ps_AuthorizedAmount s) (pc_CapturedAmount c + py_Amount p)
    (pc_RefundedAmount c) (put_payment p
    (put_session (set_session_state now SessionCaptured (py_Amount p) (ps_Data s) (ps_DeclineReason s) s) b))).
Proof.
  intros H Hs Hc Hst Ham Hnew Eps Epc Ecur Hz.
  pose proof (sound_collections _ _ H _ _ Hc) as (Eid & _). rewrite Eid in *.
  destruct (sound_totals _ _ H _ c I Hc) as (Ha & Hk & Hrf & Hroom & _).
  pose proof (sound_sessions _ _ H _ _ Hs) as (_ & (Hpos & Hau & Hcf & _)%session_ok_iff & _ & c' & Hc' & Hcur).
  rewrite Hc in Hc'. injection Hc' as <-.
  assert (Hnc : ps_Status s <> SessionCaptured) by (rewrite Hst; done).
  set (s' := set_session_state now SessionCaptured _ _ _ s).
  assert (Hself : forall f, from_option (of_session (ps_PaymentCollectionID s') f) 0 (bk_sessions b !! ps_ID s') = f s).
  { intros f. change (ps_ID s') with (ps_ID s). rewrite Hs. cbn. unfold of_session. by rewrite decide_True. }
  assert (Eh : held_by s = ps_AuthorizedAmount s) by (unfold held_by; by rewrite decide_True).
  assert (Er : reserved s = ps_AuthorizedAmount s) by by apply reserved_authorized.
  apply (settle_sound _ _ _ _ _ _ c).
  - rewrite <- Epc. apply (put_payment_sound _ p s'); rewrite ?Epc; try done.
    + change (ps_PaymentCollectionID s) with (ps_PaymentCollectionID s'). apply (put_session_sound b s' c); try done.
      * unfold replaces. change (ps_ID s') with (ps_ID s). by rewrite Hs.
      * apply session_ok_iff. unfold s'. cbn. split_and!; (lia || assumption || reflexivity).
    + exact (no_refund_of b (py_ID p) H Hnew).
    + intros j p' Hp'. rewrite Eps. by apply (no_payment_of H (ps_ID s) s j p').
    + apply payment_ok_iff. rewrite Hz, Ecur. split_and!; (lia || assumption || reflexivity).
    + cbn. by rewrite Eps, lookup_insert_eq.
  - done.
  - change (held (ps_PaymentCollectionID s) _) with (held (ps_PaymentCollectionID s') (put_session s' b)).
    rewrite held_put, Hself, (held_by_other s') by done. change (ps_PaymentCollectionID s') with (ps_PaymentCollectionID s). lia.
  - unfold taken. cbn. rewrite sum_of_insert by done. unfold of_payment at 1. rewrite decide_True by done.
    unfold taken in Hk. lia.
  - unfold returned. cbn. rewrite sum_of_insert by done. unfold of_payment at 1. rewrite decide_True by done.
    unfold returned in Hrf. lia.
  - change (saved (ps_PaymentCollectionID s) _) with (saved (ps_PaymentCollectionID s') (put_session s' b)).
    rewrite saved_put, Hself. change (ps_PaymentCollectionID s') with (ps_PaymentCollectionID s).
    change (reserved s') with 0. lia.
Qed.

Lemma move_refund_sound b now now' p c r : Sound b ->
  bk_payments b !! py_ID p = Some p -> bk_collections b !! py_PaymentCollectionID p = Some c ->
  bk_refunds b !! rf_ID r = None -> rf_PaymentID r = py_ID p ->
  0 < rf_Amount r -> py_RefundedAmount p + rf_Amount r <= py_Amount p ->
  Sound (settle now' (pc_ID c) (pc_AuthorizedAmount c) (pc_CapturedAmount c) (pc_RefundedAmount c + rf_Amount r)
    (put_refund r (put_payment (set_refunded now (py_RefundedAmount p + rf_Amount r) p) b))).
Proof.
  intros H Hp Hc Hr Epid Hpos Hle. pose proof (sound_collections _ _ H _ _ Hc) as (Eid & _). rewrite Eid in *.
  destruct (sound_totals _ _ H _ c I Hc) as (Ha & Hk & Hrf & Hroom & _).
  apply (settle_sound _ _ _ _ _ _ c); try done.
  - by eapply put_refund_sound.
  - unfold taken. cbn. rewrite (sum_of_same _ _ _ p) by done. done.
  - unfold returned. cbn. rewrite (sum_of_update _ _ _ p) by done. unfold of_payment at 2 3. cbn.
    rewrite !decide_True by done. unfold returned in Hrf. lia.
Qed.

Lemma move_collection_sound b c : Sound b -> bk_collections b !! pc_ID c = None -> collection_ok c ->
  pc_Amount c <= MaxAmount -> pc_Status c = CollectionNotPaid ->
  pc_AuthorizedAmount c = 0 -> pc_CapturedAmount c = 0 -> pc_RefundedAmount c = 0 ->
  Sound (set_collections (<[pc_ID c := c]> (bk_collections b)) b).
Proof.
  intros H Hnew Hok Hmax Hst Ha Hk Hrf. pose proof H as [H1 H2 H3 H4 H5 H6 H7].
  assert (Hs : forall i s, bk_sessions b !! i = Some s -> ps_PaymentCollectionID s <> pc_ID c).
  { intros i s (_ & _ & _ & c' & Hc' & _)%H2 E. by rewrite E, Hnew in Hc'. }
  assert (Hp : forall i p, bk_payments b !! i = Some p -> py_PaymentCollectionID p <> pc_ID c).
  { intros i p (_ & _ & _ & s & Hss & _ & _ & <- & _)%H3. by eapply Hs. }
  assert (Zs : forall f, sum_of (of_session (pc_ID c) f) (bk_sessions b) = 0).
  { intros f. apply sum_of_zero. intros i s Hi. unfold of_session. rewrite decide_False; [done|]. by eapply Hs. }
  assert (Zp : forall f, sum_of (of_payment (pc_ID c) f) (bk_payments b) = 0).
  { intros f. apply sum_of_zero. intros i p Hi. unfold of_payment. rewrite decide_False; [done|]. by eapply Hp. }
  constructor; try done.
  - by apply map_Forall_insert_2.
  - intros i s Hi. pose proof Hi as (? & ? & ? & c' & Hc' & ?)%H2. split_and!; try done. exists c'. split; [|done].
    cbn. rewrite lookup_insert_ne; [done|]. intros E. by eapply Hs.
  - intros id c' _. cbn. intros [[<- <-]|[Hne Hc']]%lookup_insert_Some; [|by apply H7].
    unfold balanced, held, saved, taken, returned. cbn. rewrite !Zs, !Zp, Ha, Hk, Hrf.
    apply collection_ok_iff in Hok as (? & _). split_and!; try (done || lia).
    rewrite Hst. unfold CollectionStatusFor. rewrite Ha, Hk. cbn [sn_Live sn_Canceled SessionCounts_of].
    by rewrite !count_if_read, !Zs.
Qed.

(** The amount a session holds, where it was not captured. *)
Lemma held_by_sound P b i s : SoundFor P b -> bk_sessions b !! i = Some s -> ps_Status s <> SessionCaptured ->
  held_by s = ps_AuthorizedAmount s.
Proof.
  intros H (_ & _ & Hz & _)%(sound_sessions _ _ H) Hc. unfold held_by. case_decide; [done|]. symmetry. by apply Hz.
Qed.

Lemma moved_books_sound b b' : Sound b -> move b b' -> Sound b'.
Proof.
  intros H [ reports answers ? ? ?
    | c ? ? ? ? ? ? ?
    | now s c ? ? ? ? ? ? ?
    | now now' s c amount data Hs Hc Hst Ham
    | now now' s c data reason Hs Hc Hst
    | now now' s c Hs Hc Hst
    | now now' s c p ? ? ? ? ? ? ? ? ?
    | now now' p c r ? ? ? ? ? ? ].
  - by apply (sound_tables _ b).
  - by apply move_collection_sound.
  - by apply move_open_sound.
  - pose proof (sound_sessions _ _ H _ _ Hs) as (_ & (? & ? & ? & _)%session_ok_iff & _).
    eapply (move_session_sound b now' s); try done.
    + rewrite Hst. done.
    + apply session_ok_iff. cbn. split_and!; (lia || assumption || reflexivity).
    + rewrite (held_by_other s) by (rewrite Hst; done). unfold held_by. rewrite decide_True by done. cbn. lia.
    + rewrite (reserved_pending s), reserved_authorized by done. cbn. lia.
  - pose proof (sound_sessions _ _ H _ _ Hs) as (_ & (? & ? & ? & _)%session_ok_iff & _).
    eapply (move_session_sound b now' s); try done.
    + rewrite Hst. done.
    + apply session_ok_iff. cbn. split_and!; (lia || assumption || reflexivity).
    + rewrite !held_by_other by (cbn; rewrite ?Hst; done). lia.
    + rewrite (reserved_pending s), reserved_other by (done || set_solver). lia.
  - pose proof (sound_sessions _ _ H _ _ Hs) as (_ & (? & ? & ? & _)%session_ok_iff & _).
    assert (Hnc : ps_Status s <> SessionCaptured) by (intros E; rewrite E in Hst; done).
    eapply (move_session_sound b now' s); try done.
    + apply session_ok_iff. cbn. split_and!; (lia || assumption || reflexivity).
    + rewrite (held_by_sound _ b (ps_ID s) s) by done. rewrite held_by_other by done. lia.
    + pose proof (reserved_bounds s). rewrite (reserved_other (set_session_state _ _ _ _ _ _)) by set_solver. lia.
  - by apply insert_event_sound, move_capture_sound.
  - by apply insert_event_sound, move_refund_sound.
Qed.
