(* ===== verification/PaymentRefines.v ===== *)
(** * The payment service refines the moves of the books

    Every call of the service takes at most one move of [PaymentMoves], whatever its providers answer and
    wherever the database fails; [RefundCollection] and [HandleOrderCanceled] take a sequence of them. *)
From S2P Require Import Prelude GoText Errors Tx Identifiers Database PaymentModels PaymentStore PaymentRules PaymentTills PaymentProviders PaymentService PaymentMoves.

Section Writes.
Context {W : Type} `{!Outside W}.
Abbreviation gives_books := (gives (@sy_books W)).

(** ** The writes, by what they leave *)

Lemma gives_update_session b id status authorized data reason (Q : PaymentSession -> Books -> Prop) :
  (forall now s, bk_sessions b !! id = Some s ->
    let row := set_session_state now status authorized data reason s in
    session_ok row -> Q row (set_sessions (<[id := row]> (bk_sessions b)) b)) ->
  gives_books b (UpdatePaymentSessionState id status authorized data reason) Q.
Proof.
  intros H. apply gives_one, gives_put. intros now b' y E a ->. destruct (bk_sessions b !! id) as [s|] eqn:Hs; [|done].
  apply checked_rows in E as [[= -> ->] Hok]. by apply H.
Qed.

Lemma gives_create_session b s (Q : PaymentSession -> Books -> Prop) :
  (forall now, let row := new_session_row now s in
    bk_sessions b !! ps_ID s = None -> session_of_key (ps_ProviderID s) (ps_IdempotencyKey s) b = None ->
    session_ok row -> Q row (put_session row b)) ->
  gives_books b (CreatePaymentSession s) Q.
Proof.
  intros H. apply gives_put. intros now b' y E.
  destruct (bk_sessions b !! ps_ID s) eqn:Hs; [done|]. destruct (session_of_key _ _ b) eqn:Hk; [done|].
  destruct (bk_collections b !! _); [|done]. apply checked_rows in E as [[= -> ->] Hok]. by apply H.
Qed.

Lemma gives_create_payment b p (Q : Payment -> Books -> Prop) :
  (forall now, let row := new_payment_row now p in
    bk_payments b !! py_ID p = None -> payment_ok row -> Q row (put_payment row b)) ->
  gives_books b (CreatePayment p) Q.
Proof.
  intros H. apply gives_put. intros now b' y E. destruct (bk_payments b !! py_ID p) eqn:Hp; [done|].
  destruct (payment_of_session _ b); [done|]. destruct (bk_sessions b !! _); [|done].
  destruct (bk_collections b !! _); [|done]. apply checked_rows in E as [[= -> ->] Hok]. by apply H.
Qed.

Lemma gives_update_payment b id refunded (Q : Payment -> Books -> Prop) :
  (forall now p, bk_payments b !! id = Some p ->
    let row := set_refunded now refunded p in
    payment_ok row -> Q row (set_payments (<[id := row]> (bk_payments b)) b)) ->
  gives_books b (UpdatePaymentRefundedAmount id refunded) Q.
Proof.
  intros H. apply gives_one, gives_put. intros now b' y E a ->. destruct (bk_payments b !! id) as [s|] eqn:Hs; [|done].
  apply checked_rows in E as [[= -> ->] Hok]. by apply H.
Qed.

Lemma gives_create_refund b r (Q : Refund -> Books -> Prop) :
  (forall now, let row := new_refund_row now r in
    bk_refunds b !! rf_ID r = None -> 0 < rf_Amount r -> Q row (put_refund row b)) ->
  gives_books b (CreateRefund r) Q.
Proof.
  intros H. apply gives_put. intros now b' y E. destruct (bk_refunds b !! rf_ID r) eqn:Hr; [done|].
  destruct (bk_payments b !! _); [|done]. apply checked_rows in E as [[= -> ->] Hok].
  apply check_violated_cons in Hok as [Hpos%Z.ltb_lt _]. by apply H.
Qed.

Lemma gives_write_event b e (Q : unit -> Books -> Prop) : Q tt (insert_event e b) -> gives_books b (WriteOutboxEvent e) Q.
Proof.
  intros H. apply gives_bind, gives_check. intros _ st st' [] <-. unfold write_event.
  destruct (out_fault _ _) as [w [d|]]; [done|]. by intros [= <-].
Qed.

(** A row that is read. *)
Lemma gives_read {A} b e name format a (f : Books -> option A) (Q : A -> Books -> Prop) :
  (forall x, f b = Some x -> Q x b) -> gives_books b (one e (ask name format a (fun _ b _ => Rows (f b)))) Q.
Proof. intros H. apply gives_one, gives_ask_books. intros now t y [= <-] x. apply H. Qed.

(** ** What keeps the books *)

Lemma keeps_till_rows {A} name format a (f : moment -> Tills -> answer (Tills * A)) :
  keeps (@sy_books W) (till name format a f).
Proof. apply keeps_till. Qed.

Lemma keeps_earn earn col : keeps (@sy_books W) (earnLoyaltyPoints earn col).
Proof. unfold earnLoyaltyPoints, CollectionNetCapturedExcludingProviders, LoyaltyPointsForReference, AppendLoyaltyEntry. keeps_tac. Qed.

Lemma keeps_publish topic row coll at_ : keeps (@sy_books W) (publishMoneyMoved topic row coll at_).
Proof. done. Qed.

Lemma gives_totals earn b col a k r (Q : PaymentCollection -> Books -> Prop) :
  bk_collections b !! pc_ID col = Some col ->
  (forall now row, bk_collections (settle now (pc_ID col) a k r b) !! pc_ID col = Some row ->
    Q row (settle now (pc_ID col) a k r b)) ->
  gives_books b (writeCollectionTotals earn col a k r) Q.
Proof.
  intros Hc H. apply gives_bind, gives_check. intros _. apply gives_bind, gives_ask_books.
  intros _ t counts [= <-]. apply gives_bind, gives_one, gives_put. intros now b' y E row ->. rewrite Hc in E.
  apply checked_rows in E as [[= -> ->] _].
  assert (Es : settle now (pc_ID col) a k r b = set_collections (<[pc_ID col := set_totals now
      (CollectionStatusFor (with_totals col a k r) (SessionCounts_of (pc_ID col) b)) a k r col]> (bk_collections b)) b)
    by by apply settle_eq.
  apply gives_bind, gives_keep; [apply keeps_earn|]. intros []. apply gives_ret. rewrite <- Es. apply H.
  rewrite Es. apply lookup_insert_eq.
Qed.

Lemma gives_lock b sessionID (Q : PaymentCollection * PaymentSession -> Books -> Prop) :
  (forall col s, bk_sessions b !! sessionID = Some s -> bk_collections b !! ps_PaymentCollectionID s = Some col ->
    ps_PaymentCollectionID s = pc_ID col -> Q (col, s) b) ->
  gives_books b (lockCollectionAndSession sessionID) Q.
Proof.
  intros H. apply gives_bind, gives_read. intros s Hs. apply gives_bind, gives_read. intros col Hc.
  apply gives_bind, gives_read. intros s' Hs'. rewrite Hs in Hs'. injection Hs' as <-.
  apply gives_bind, gives_check. intros E. apply gives_ret. apply H; [done..|].
  by case_bool_decide.
Qed.
End Writes.

(** A provider that leaves a view alone, failing or not. *)
Record stays_out {W X} (view : Sys W -> X) (p : PaymentProvider W) : Prop := mkStaysOut {
  out_create : forall i, keeps view (pp_CreateSession p i);
  out_authorize : forall id, keeps view (pp_Authorize p id);
  out_capture : forall id a, keeps view (pp_Capture p id a);
  out_refund : forall id a, keeps view (pp_Refund p id a);
  out_cancel : forall id, keeps view (pp_Cancel p id);
  out_inspect : forall f id, pp_InspectSession p = Some f -> keeps view (f id);
  out_check : forall f i, pp_CheckPayment p = Some f -> keeps view (f i)
}.

(** A provider writes no row of the books. *)
Abbreviation quiet := (stays_out sy_books).

Definition all_quiet {W} (providers : Registry W) : Prop := forall id p, Get providers id = Ok p -> quiet p.

(** The tables a settled total and an event leave alone. *)
Lemma settle_sessions now id a k r b : bk_sessions (settle now id a k r b) = bk_sessions b.
Proof. unfold settle. by case_match. Qed.
Lemma settle_payments now id a k r b : bk_payments (settle now id a k r b) = bk_payments b.
Proof. unfold settle. by case_match. Qed.
Lemma settle_refunds now id a k r b : bk_refunds (settle now id a k r b) = bk_refunds b.
Proof. unfold settle. by case_match. Qed.
Lemma settle_outbox now id a k r b : bk_outbox (settle now id a k r b) = bk_outbox b.
Proof. unfold settle. by case_match. Qed.
Lemma insert_event_sessions e b : bk_sessions (insert_event e b) = bk_sessions b.
Proof. unfold insert_event. by case_match. Qed.
Lemma insert_event_payments e b : bk_payments (insert_event e b) = bk_payments b.
Proof. unfold insert_event. by case_match. Qed.
Lemma insert_event_refunds e b : bk_refunds (insert_event e b) = bk_refunds b.
Proof. unfold insert_event. by case_match. Qed.
Lemma insert_event_collections e b : bk_collections (insert_event e b) = bk_collections b.
Proof. unfold insert_event. by case_match. Qed.

Create Rewrite HintDb books.
#[export] Hint Rewrite settle_sessions settle_payments settle_refunds settle_outbox insert_event_sessions
  insert_event_payments insert_event_refunds insert_event_collections : books.

(** At most one move, from sound books. *)
Definition refines (b b' : Books) : Prop := Sound b -> b' = b \/ move b b'.

Lemma refines_refl b : refines b b.
Proof. by left. Qed.

Lemma refines_sound b b' : Sound b -> refines b b' -> Sound b'.
Proof. intros H HR. destruct (HR H) as [->|Hm]; [done|]. by eapply moved_books_sound. Qed.

Section Refines.
Context {W : Type} `{!Outside W}.
Context (providers : Registry W) (earnBasisPoints : Z) (Hq : all_quiet providers).
Abbreviation gives_books := (gives (@sy_books W)).
Abbreviation steps_books := (steps (@sy_books W)).

Lemma collection_int64 b id c : Sound b -> bk_collections b !! id = Some c ->
  0 <= pc_AuthorizedAmount c <= MaxAmount /\ 0 <= pc_CapturedAmount c <= MaxAmount /\
  0 <= pc_RefundedAmount c <= MaxAmount /\ 0 < pc_Amount c <= MaxAmount.
Proof. intros H Hc. pose proof (collection_amounts H id c Hc). lia. Qed.

(** A session's hold fits what the collection holds, and its amount what the collection may take. *)
Lemma session_fits b c s : Sound b -> bk_sessions b !! ps_ID s = Some s ->
  bk_collections b !! ps_PaymentCollectionID s = Some c ->
  held_by s <= pc_AuthorizedAmount c /\ pc_CapturedAmount c + reserved s <= pc_Amount c /\
  pc_AuthorizedAmount c + reserved s - held_by s <= pc_Amount c.
Proof.
  intros H Hs Hc. destruct (sound_totals _ _ H _ c I Hc) as (Ha & Hk & _ & Hroom & _).
  pose proof (collection_amounts H _ c Hc).
  assert (Eself : forall f, of_session (ps_PaymentCollectionID s) f s = f s) by (intros f; unfold of_session; by rewrite decide_True).
  assert (Hle : forall f g, (forall i x, bk_sessions b !! i = Some x -> 0 <= f x <= g x) ->
    f s <= sum_of (of_session (ps_PaymentCollectionID s) f) (bk_sessions b) /\
    sum_of (of_session (ps_PaymentCollectionID s) f) (bk_sessions b) + g s - f s <=
      sum_of (of_session (ps_PaymentCollectionID s) g) (bk_sessions b)).
  { intros f g Hfg. rewrite !(sum_of_delete _ (bk_sessions b) _ s Hs). rewrite !Eself.
    enough (0 <= sum_of (of_session (ps_PaymentCollectionID s) f) (delete (ps_ID s) (bk_sessions b)) <=
      sum_of (of_session (ps_PaymentCollectionID s) g) (delete (ps_ID s) (bk_sessions b))) by lia.
    split; [apply sum_of_nonneg|apply sum_of_mono]; intros i x [_ Hx]%lookup_delete_Some; specialize (Hfg i x Hx);
      unfold of_session; case_decide; lia. }
  destruct (Hle held_by reserved) as [H1 H2].
  { intros i x Hx. pose proof (session_amounts H i x Hx) as [? ?]. by apply reserved_bounds. }
  destruct (Hle reserved reserved) as [H3 _].
  { intros i x Hx. pose proof (session_amounts H i x Hx) as [? ?]. pose proof (reserved_bounds x). lia. }
  unfold held, saved in *. lia.
Qed.

(** A body that makes a move of sound books. *)
Lemma gives_refines {A} b (m : tx (Sys W) A) :
  (Sound b -> gives_books b m (fun _ b' => move b b')) -> gives_books b m (fun _ b' => refines b b').
Proof. intros H st st' a Eb E Hs. right. by eapply H. Qed.

(** ** Collections and sessions *)

Lemma steps_CreateCollection i : steps_books refines (CreateCollection i).
Proof.
  unfold CreateCollection. apply steps_before; [apply refines_refl|apply keeps_check|intros _].
  eapply (steps_given _ _ (fun _ => cc_Amount i <= MaxAmount)); [apply refines_refl|apply keeps_check| |intros _ Ham].
  { intros st st' []. unfold tx_check. destruct (requireAmount _ _) eqn:E; [done|]. intros _.
    by apply requireAmount_ok in E as [_ E]. }
  apply steps_before; [apply refines_refl|apply keeps_of|intros currency].
  apply steps_before; [apply refines_refl|apply keeps_new_id, _|intros id].
  apply steps_put; [apply refines_refl|]. intros now b b' y E. destruct (bk_collections b !! _) eqn:Hnew; [done|].
  apply checked_rows in E as [[= -> _] Hok]. intros H. right.
  set (row := new_collection_row now _) in *. by apply (move_collection b row).
Qed.

(** What a collection has left to open. *)
Lemma gives_remaining b col : Sound b -> bk_collections b !! pc_ID col = Some col ->
  gives_books b (remainingToOpen col) (fun out b' => b' = b /\
    out = (pc_Amount col - (pc_CapturedAmount col + saved (pc_ID col) b), saved (pc_ID col) b)).
Proof.
  intros H Hc. apply gives_bind, gives_ask_books.
  intros _ t live Hl%to_bigint_rows. rewrite saved_read in Hl. subst live. apply gives_ret.
  pose proof (held_saved H (pc_ID col)). pose proof (collection_int64 b _ col H Hc).
  destruct (sound_totals _ _ H _ col I Hc) as (_ & _ & _ & Hroom & _).
  rewrite add64_exact by (unfold MaxAmount in *; in64). split; [done|].
  destruct (Z.leb_spec (pc_Amount col) (pc_CapturedAmount col + saved (pc_ID col) b)); [f_equal; lia|].
  f_equal. apply sub64_exact. unfold MaxAmount in *. in64.
Qed.

Lemma gives_open b col prov key i : quiet prov -> Sound b -> bk_collections b !! pc_ID col = Some col ->
  0 <= cs_Amount i ->
  gives_books b (open_session earnBasisPoints col prov key i) (fun s b' => move b b' /\ bk_sessions b' !! ps_ID s = Some s).
Proof.
  intros Hp H Hc Hpos. apply gives_bind. eapply gives_mono; [by apply gives_remaining|].
  intros [remaining live] b' [-> [= -> ->]]. set (amount := if cs_Amount i =? 0 then _ else _).
  apply gives_bind, gives_check. unfold open_checks.
  destruct (_ <=? 0); [done|]. destruct (_ <? amount) eqn:Hle; [done|]. apply Z.ltb_ge in Hle.
  intros _. apply gives_bind, gives_keep; [apply Hp|]. intros ps. apply gives_bind, gives_of. intros status _.
  apply gives_bind, gives_check. intros _. apply gives_bind, gives_keep; [apply keeps_new_id, _|]. intros id.
  apply gives_bind, gives_create_session. cbn -[put_session]. intros now Hnew Hkey Hok.
  set (row := new_session_row now _) in *. apply gives_bind.
  apply gives_totals; [done|]. intros now' c' _. apply gives_ret. split.
  - apply (move_open b now' row col); try done. cbn -[saved]. lia.
  - autorewrite with books. apply lookup_insert_eq.
Qed.

Lemma keeps_session_opened providerID key : keeps (@sy_books W) (session_opened providerID key).
Proof.
  intros st. unfold session_opened. assert (Hk : keeps (@sy_books W) (PaymentSessionByIdempotencyKey providerID key)).
  { unfold PaymentSessionByIdempotencyKey. keeps_tac. }
  specialize (Hk st). by destruct (PaymentSessionByIdempotencyKey providerID key st) as [st' [s|e]].
Qed.

Lemma steps_CreateSession collectionID providerID i : steps_books refines (CreateSession providers earnBasisPoints collectionID providerID i).
Proof.
  unfold CreateSession. do 3 (apply steps_before; [apply refines_refl|apply keeps_check|intros _]).
  eapply (steps_given _ _ (fun _ => 0 <= cs_Amount i <= MaxAmount)); [apply refines_refl|apply keeps_check| |intros _ Ham].
  { intros st st' []. unfold tx_check. destruct (requireOptionalAmount _ _) eqn:E; [done|].
    by apply requireOptionalAmount_ok in E. }
  eapply (steps_given _ _ quiet); [apply refines_refl|apply keeps_of| |intros prov Hp].
  { intros st st' p [= <- E]. by eapply Hq. }
  apply steps_WithTx; [apply _|apply refines_refl|]. intros b. apply gives_bind, gives_read. intros col Hc.
  apply gives_bind, gives_keep; [apply keeps_session_opened|]. intros [s|].
  - apply gives_bind, gives_check. intros _. apply gives_ret, refines_refl.
  - apply gives_refines. intros H. pose proof (sound_collections _ _ H _ _ Hc) as (Eid & _). rewrite <- Eid in Hc.
    eapply gives_mono; [apply (gives_open b col prov _ i Hp H Hc), Ham|]. by intros s b' [].
Qed.

(** ** Holding and letting go *)

Lemma keeps_providerForSession id : keeps (@sy_books W) (providerForSession providers id).
Proof. unfold providerForSession, GetPaymentSession. keeps_tac. Qed.

Lemma providerForSession_quiet id st st' p : providerForSession providers id st = (st', Ok p) -> quiet p.
Proof.
  unfold providerForSession, mbind, tx_bind. destruct (GetPaymentSession id st) as [st1 [s|e]]; [|done].
  intros [= _ E]. by eapply Hq.
Qed.

Lemma authorizedAmount_ok reported s a : 0 < ps_Amount s -> authorizedAmount reported s = Ok a -> 0 <= a <= ps_Amount s.
Proof.
  unfold authorizedAmount. intros Hp. destruct (Z.ltb_spec reported 0); [done|]. destruct (Z.eqb_spec reported 0).
  - intros [= <-]. lia.
  - destruct (Z.ltb_spec (ps_Amount s) reported); [done|]. intros [= <-]. lia.
Qed.

(** An authorization's answer is the row it left: held, or declined. *)
Definition authorized_row (s : PaymentSession) (out : PaymentSession + PaymentSession) (b : Books) : Prop :=
  match out with
  | inl u => bk_sessions b !! ps_ID s = Some u /\ ps_Status u = SessionAuthorized /\ 0 <= ps_AuthorizedAmount u <= ps_Amount u
  | inr u => bk_sessions b !! ps_ID s = Some u /\ ps_Status u = SessionFailed /\ ps_AuthorizedAmount u = 0
  end.

Lemma gives_authorize b col prov s : quiet prov -> Sound b -> bk_sessions b !! ps_ID s = Some s ->
  bk_collections b !! ps_PaymentCollectionID s = Some col -> ps_Status s = SessionPending ->
  gives_books b (authorize_session earnBasisPoints prov col s) (fun out b' => move b b' /\ authorized_row s out b').
Proof.
  intros Hp H Hs Hc Hst. pose proof (sound_collections _ _ H _ _ Hc) as (Eid & _).
  pose proof (session_fits b col s H Hs Hc) as (_ & _ & Hfit). pose proof (collection_int64 b _ col H Hc).
  pose proof (session_amounts H _ _ Hs) as [Hpos Hau].
  rewrite (held_by_other s), (reserved_pending s) in Hfit by (rewrite ?Hst; done).
  apply gives_bind, gives_keep; [apply Hp|]. intros r. apply gives_bind, gives_of. intros status _.
  case_bool_decide; [|case_bool_decide]; [| |by apply gives_of].
  - apply gives_bind, gives_of. intros a Ha%(authorizedAmount_ok _ _ _ Hpos). apply gives_bind, gives_update_session.
    intros now s' Hs' row Hok. rewrite Hs in Hs'. injection Hs' as <-. apply gives_bind.
    rewrite (add64_exact (pc_AuthorizedAmount col)) by (unfold MaxAmount in *; in64).
    apply gives_totals; [cbn; by rewrite Eid|]. intros now' c _. apply gives_ret. split.
    + by apply (move_hold b now now' s).
    + unfold authorized_row. autorewrite with books. split; [apply lookup_insert_eq|]. done.
  - apply gives_bind, gives_update_session. intros now s' Hs' row Hok. rewrite Hs in Hs'. injection Hs' as <-.
    apply gives_bind, gives_totals; [cbn; by rewrite Eid|]. intros now' c _. apply gives_ret. split.
    + by apply (move_decline b now now' s).
    + unfold authorized_row. autorewrite with books. split; [apply lookup_insert_eq|]. done.
Qed.

Lemma steps_AuthorizePayment id : steps_books refines (AuthorizePayment providers earnBasisPoints id).
Proof.
  unfold AuthorizePayment. apply steps_before; [apply refines_refl|apply keeps_check|intros _].
  eapply (steps_given _ _ quiet); [apply refines_refl|apply keeps_providerForSession|apply providerForSession_quiet|].
  intros prov Hp. apply steps_after; [|intros []; [apply keeps_ret|apply keeps_of]].
  apply steps_WithTx; [apply _|apply refines_refl|]. intros b. apply gives_bind, gives_lock. intros col s Hs Hc Eid.
  destruct (AuthorizeAction (ps_Status s)) eqn:Ha; [by apply gives_of| |apply gives_ret, refines_refl].
  apply gives_refines. intros H. eapply gives_mono; [apply gives_authorize|by intros ? ? []]; try done.
  - by rewrite (put_session_same _ _ _ _ H Hs).
  - unfold AuthorizeAction in Ha. repeat case_bool_decide; done.
Qed.

Lemma hold_check_ok b col s : Sound b -> bk_sessions b !! ps_ID s = Some s ->
  bk_collections b !! ps_PaymentCollectionID s = Some col -> ps_Status s <> SessionCaptured -> hold_check col s = None.
Proof.
  intros H Hs Hc Hn. pose proof (session_fits b col s H Hs Hc) as [Hle _]. rewrite (held_by_sound _ b _ _ H Hs Hn) in Hle.
  unfold hold_check. by rewrite (proj2 (Z.ltb_ge _ _)).
Qed.

Lemma steps_CancelPayment id : steps_books refines (CancelPayment providers earnBasisPoints id).
Proof.
  unfold CancelPayment. apply steps_before; [apply refines_refl|apply keeps_check|intros _].
  eapply (steps_given _ _ quiet); [apply refines_refl|apply keeps_providerForSession|apply providerForSession_quiet|].
  intros prov Hp. apply steps_WithTx; [apply _|apply refines_refl|]. intros b. apply gives_bind, gives_lock.
  intros col s Hs Hc Eid. destruct (CancelAction (ps_Status s)) eqn:Ha; [by apply gives_of| |apply gives_ret, refines_refl].
  apply gives_refines. intros H. pose proof (put_session_same _ _ _ _ H Hs) as Es. rewrite <- Es in Hs.
  assert (Hn : ps_Status s <> SessionCaptured) by (intros E; rewrite E in Ha; done).
  pose proof (session_fits b col s H Hs Hc) as [Hle _]. rewrite (held_by_sound _ b _ _ H Hs Hn) in Hle.
  pose proof (collection_int64 b _ col H Hc). pose proof (session_amounts H _ _ Hs) as [Hpos Hau].
  apply gives_bind, gives_keep; [apply Hp|]. intros []. apply gives_bind, gives_check. intros _.
  apply gives_bind, gives_update_session. intros now s' Hs' row Hok. rewrite Hs in Hs'. injection Hs' as <-.
  apply gives_ignore. rewrite (sub64_exact (pc_AuthorizedAmount col)) by (unfold MaxAmount in *; in64).
  apply gives_totals; [cbn; by rewrite <- Eid|]. intros now' c _. by apply (move_cancel b now now' s).
Qed.

(** ** Captures *)

Lemma gives_capture b col prov s amount : quiet prov -> Sound b -> bk_sessions b !! ps_ID s = Some s ->
  bk_collections b !! ps_PaymentCollectionID s = Some col -> ps_Status s = SessionAuthorized ->
  gives_books b (capture_session earnBasisPoints prov col s amount) (fun p b' => move b b' /\
    bk_payments b' !! py_ID p = Some p /\ py_PaymentSessionID p = ps_ID s /\
    py_PaymentCollectionID p = ps_PaymentCollectionID s /\
    py_Amount p = (if amount =? 0 then ps_AuthorizedAmount s else amount)).
Proof.
  intros Hp H Hs Hc Hst. pose proof (sound_collections _ _ H _ _ Hc) as (Eid & _).
  pose proof (session_fits b col s H Hs Hc) as (Hhold & Hroom & _). pose proof (collection_int64 b _ col H Hc).
  pose proof (session_amounts H _ _ Hs) as [Hpos Hau].
  rewrite (reserved_authorized s), (held_by_sound _ b (ps_ID s) s) in * by (rewrite ?Hst; done).
  unfold capture_session. set (captured := if amount =? 0 then _ else _).
  apply gives_bind, gives_check. destruct (Z.ltb_spec (ps_AuthorizedAmount s) captured) as [|Hle]; [done|]. intros _.
  apply gives_bind, gives_keep; [apply Hp|]. intros _. apply gives_bind, gives_check. intros _.
  apply gives_bind, gives_update_session. intros now s' Hs' row Hok. rewrite Hs in Hs'. injection Hs' as <-.
  apply gives_bind, gives_keep; [apply keeps_new_id, _|]. intros id.
  apply gives_bind, gives_keep; [apply keeps_clock, _|]. intros at_.
  apply gives_bind, gives_create_payment. intros now1 p Hnew Hpok. pose proof Hpok as (Hppos & _)%payment_ok_iff. cbn in Hppos.
  rewrite (sub64_exact (pc_AuthorizedAmount col)), (add64_exact (pc_CapturedAmount col)) by (unfold MaxAmount in *; in64).
  apply gives_bind, gives_totals; [cbn; by rewrite Eid|]. intros now' c _.
  apply gives_bind, gives_write_event, gives_ret. split.
  - apply (move_capture b now now' s col p); done.
  - autorewrite with books. split; [apply lookup_insert_eq|]. cbn. by rewrite Eid.
Qed.

Lemma steps_CapturePayment id amount : steps_books refines (CapturePayment providers earnBasisPoints id amount).
Proof.
  unfold CapturePayment. do 2 (apply steps_before; [apply refines_refl|apply keeps_check|intros _]).
  eapply (steps_given _ _ quiet); [apply refines_refl|apply keeps_providerForSession|apply providerForSession_quiet|].
  intros prov Hp. apply steps_after; [|intros p; apply keeps_bind; [apply keeps_publish|intros; apply keeps_ret]].
  apply steps_WithTx; [apply _|apply refines_refl|]. intros b. apply gives_bind, gives_lock. intros col s Hs Hc Eid.
  destruct (CaptureAction (ps_Status s)) eqn:Ha; [by apply gives_of| |].
  - apply gives_refines. intros H. eapply gives_mono; [apply gives_capture|by intros ? ? []]; try done.
    + by rewrite (put_session_same _ _ _ _ H Hs).
    + unfold CaptureAction in Ha. by repeat case_bool_decide.
  - apply gives_bind, gives_read. intros p _. apply gives_bind, gives_check. intros _. apply gives_ret, refines_refl.
Qed.

(** ** Refunds *)

(** A capture fits what its collection captured, and what is left on it what its collection may refund. *)
Lemma payment_fits b c p : Sound b -> bk_payments b !! py_ID p = Some p ->
  bk_collections b !! py_PaymentCollectionID p = Some c ->
  py_Amount p <= pc_CapturedAmount c /\ pc_RefundedAmount c + (py_Amount p - py_RefundedAmount p) <= pc_CapturedAmount c.
Proof.
  intros H Hp Hc. destruct (sound_totals _ _ H _ c I Hc) as (_ & -> & -> & _). unfold taken, returned.
  assert (Eself : forall f, of_payment (py_PaymentCollectionID p) f p = f p)
    by (intros f; unfold of_payment; by rewrite decide_True).
  rewrite !(sum_of_delete _ (bk_payments b) _ p Hp), !Eself.
  enough (0 <= sum_of (of_payment (py_PaymentCollectionID p) py_RefundedAmount) (delete (py_ID p) (bk_payments b)) <=
    sum_of (of_payment (py_PaymentCollectionID p) py_Amount) (delete (py_ID p) (bk_payments b))).
  { pose proof (payment_amounts H _ _ Hp). lia. }
  split; [apply sum_of_nonneg|apply sum_of_mono]; intros i x [_ Hx]%lookup_delete_Some;
    pose proof (payment_amounts H _ _ Hx) as [? ?]; unfold of_payment; case_decide; lia.
Qed.

(** What the refunds of a cause gave back. *)
Definition caused (reference : string) (b : Books) : Z := sumZ (rf_Amount <$> refunds_naming reference b).

Lemma gives_cause b reference refund ceiling :
  gives_books b (if bool_decide (reference = EmptyString) then mret tt
    else given ← RefundedForReference reference; tx_check (cause_check reference given refund ceiling))
    (fun _ b' => b' = b /\ (reference <> EmptyString -> cause_check reference (caused reference b) refund ceiling = None)).
Proof.
  case_bool_decide; [by apply gives_ret|]. apply gives_bind, gives_ask_books. intros _ t given Hg%to_bigint_rows.
  subst given. by apply gives_check.
Qed.

(** The refund asked for, or all that is left. *)
Definition refund_amount (p : Payment) (amount : Z) : Z :=
  if amount =? 0 then py_Amount p - py_RefundedAmount p else amount.

Lemma gives_refund b col prov s p amount reason reference ceiling : quiet prov -> Sound b ->
  bk_payments b !! py_ID p = Some p -> bk_collections b !! py_PaymentCollectionID p = Some col ->
  gives_books b (refund_capture earnBasisPoints prov col s p amount reason reference ceiling) (fun r b' => move b b' /\
    bk_refunds b !! rf_ID r = None /\ bk_refunds b' = <[rf_ID r := r]> (bk_refunds b) /\
    rf_PaymentID r = py_ID p /\ rf_Reference r = reference /\ rf_Amount r = refund_amount p amount /\
    (reference <> EmptyString -> cause_check reference (caused reference b) (rf_Amount r) ceiling = None)).
Proof.
  intros Hpr H Hp Hc. pose proof (sound_collections _ _ H _ _ Hc) as (Eid & _).
  pose proof (payment_fits b col p H Hp Hc) as (Hle & Hroom). pose proof (collection_int64 b _ col H Hc).
  pose proof (payment_amounts H _ _ Hp) as [Hpos Hau].
  unfold refund_capture. rewrite Payment_RefundableAmount_exact by (try done; lia).
  fold (refund_amount p amount). apply gives_bind, gives_check. unfold refund_checks.
  rewrite Payment_RefundableAmount_exact by (try done; lia).
  destruct (_ =? 0); [done|]. destruct (Z.ltb_spec (py_Amount p - py_RefundedAmount p) (refund_amount p amount)) as [|Hr]; [done|].
  intros _. apply gives_bind. eapply gives_mono; [apply gives_cause|].
  intros [] b1 [-> Hcause]. apply gives_bind, gives_keep; [apply Hpr|]. intros _.
  apply gives_bind, gives_update_payment. intros now p' Hp' row Hok. rewrite Hp in Hp'. injection Hp' as <-.
  pose proof Hok as (_ & Hrow & _)%payment_ok_iff. cbn in Hrow.
  apply gives_bind, gives_keep; [apply keeps_new_id, _|]. intros id.
  apply gives_bind, gives_create_refund. intros now1 r Hnew Hrpos. cbn in Hrpos.
  subst row. rewrite (add64_exact (py_RefundedAmount p)), (add64_exact (pc_RefundedAmount col)) by (unfold MaxAmount in *; in64).
  apply gives_bind, gives_totals; [cbn; by rewrite Eid|]. intros now' c _.
  apply gives_bind, gives_write_event, gives_ret. split.
  - apply (move_refund b now now' p col r); try done. cbn. lia.
  - by autorewrite with books.
Qed.

Lemma steps_refundPayment paymentID amount reason reference ceiling :
  steps_books refines (refundPayment providers earnBasisPoints paymentID amount reason reference ceiling).
Proof.
  unfold refundPayment. do 4 (apply steps_before; [apply refines_refl|apply keeps_check|intros _]).
  apply steps_everywhere. intros b.
  apply (steps_at_read _ b refines (fun preview => bk_payments b !! paymentID = Some preview));
    [apply refines_refl|unfold GetPayment; keeps_tac|by apply gives_read|]. intros preview Hpre.
  apply (steps_at_read _ b refines quiet); [apply refines_refl|apply keeps_providerForSession|
    intros st st' a _; apply providerForSession_quiet|].
  intros prov Hp. apply steps_at_after; [|intros [r c]; apply keeps_bind; [apply keeps_publish|intros; apply keeps_ret]].
  apply steps_at_WithTx; [apply _|apply refines_refl|]. apply gives_bind, gives_lock. intros col s Hs Hc Eid.
  apply gives_bind, gives_read. intros p Hpay. rewrite Hpre in Hpay. injection Hpay as <-.
  apply gives_refines. intros H. apply gives_bind.
  destruct (sound_payments _ _ H _ _ Hpre) as (Ep & _ & _ & s' & Hs' & _ & _ & Ec & _).
  rewrite Hs in Hs'. injection Hs' as <-. rewrite Ec in Hc. rewrite <- Ep in Hpre.
  eapply gives_mono; [by apply gives_refund|]. intros r b' [Hm _]. by apply gives_ret.
Qed.

(** ** Sequences of moves *)

Definition refines_all (b b' : Books) : Prop := Sound b -> Sound b' /\ rtc move b b'.

Lemma refines_all_refl b : refines_all b b.
Proof. by split. Qed.

Lemma refines_all_trans b1 b2 b3 : refines_all b1 b2 -> refines_all b2 b3 -> refines_all b1 b3.
Proof. intros H1 H2 H. destruct (H1 H) as [Hs M1], (H2 Hs) as [Hs' M2]. split; [done|]. by etrans. Qed.

Lemma refines_one b b' : refines b b' -> refines_all b b'.
Proof.
  intros HR H. split; [by eapply refines_sound|]. destruct (HR H) as [->|Hm]; [done|]. by apply rtc_once.
Qed.

Abbreviation steps_all := (steps (@sy_books W) refines_all).

Lemma steps_refund_each coll planned reason reference ceiling plan made :
  steps_all (refund_each providers earnBasisPoints coll planned reason reference ceiling plan made).
Proof.
  revert made. induction plan as [|[pid amount] plan IH]; intros made st; [apply refines_all_refl|].
  cbn. pose proof (steps_refundPayment pid amount reason reference ceiling st) as Hstep%refines_one.
  destruct (refundPayment _ _ _ _ _ _ _ st) as [st' [r|e]]; cbn in Hstep.
  - eapply refines_all_trans; [exact Hstep|]. apply IH.
  - by destruct made.
Qed.

Lemma steps_RefundCollection coll amount ceiling reason reference :
  steps_all (RefundCollection providers earnBasisPoints coll amount ceiling reason reference).
Proof.
  unfold RefundCollection. do 6 (apply steps_before; [apply refines_all_refl|apply keeps_check|intros _]).
  apply steps_before; [apply refines_all_refl|unfold ListPaymentsByCollection; keeps_tac|intros l].
  apply steps_before; [apply refines_all_refl|unfold RefundedForReference; keeps_tac|intros given].
  do 2 (apply steps_before; [apply refines_all_refl|apply keeps_of|intros ?]). apply steps_refund_each.
Qed.

Lemma steps_cancel_held l : steps_all (cancel_held providers earnBasisPoints l).
Proof.
  induction l as [|s l IH]; intros st; [apply refines_all_refl|]. cbn. case_bool_decide; [|apply IH]. cbn.
  pose proof (steps_CancelPayment (ps_ID s) st) as Hstep%refines_one.
  destruct (CancelPayment _ _ _ st) as [st' [u|e]]; cbn in Hstep.
  - eapply refines_all_trans; [exact Hstep|]. apply IH.
  - case_bool_decide; [|done]. eapply refines_all_trans; [exact Hstep|]. apply IH.
Qed.

Lemma steps_HandleOrderCanceled event order : steps_all (HandleOrderCanceled providers earnBasisPoints event order).
Proof.
  unfold HandleOrderCanceled. apply steps_before; [apply refines_all_refl|apply keeps_check|intros _].
  apply steps_before; [apply refines_all_refl|apply keeps_read|intros l].
  induction l as [|c l IH]; [apply steps_keeps; [apply refines_all_refl|apply keeps_ret]|].
  cbn. apply steps_before; [apply refines_all_refl|unfold ListPaymentSessionsByCollection; keeps_tac|intros sessions].
  apply steps_bind; [apply refines_all_trans|apply steps_cancel_held|]. intros []. apply IH.
Qed.
End Refines.
