(* ===== verification/PaymentFrames.v ===== *)
(** * What the providers and the service leave alone, and what they keep

    [stays_out] of a view for each provider of the module, from what its statements do; and, for any
    property of the tills that every registered provider keeps, that the service keeps it too. *)
From S2P Require Import Prelude GoText Errors Tx Identifiers Database PaymentModels PaymentStore PaymentRules PaymentTills PaymentProviders PaymentService PaymentCredit PaymentMoves PaymentRefines.

(** ** The module's own providers *)

Create HintDb payment_statements.
#[export] Hint Unfold ManualSession_ ManualSessionByIdempotencyKey LockManualSession
  SessionByIdempotencyKey Session LockSession LockBalance StoreCreditExpiryFigures_ LoyaltyBalance
  GiftCard_ GiftCardByDigest GiftCardBalance LockGiftCardBalance
  GiftCardBySourceReference GiftCardOpenHolds StoreCreditExpiryDue ExpiredOpenGiftCards : payment_statements.

Ltac quiet_tac := repeat progress (autounfold with payment_statements); keeps_tac.

Section Out.
Context {W : Type} `{!Outside W} {X : Type} (view : Sys W -> X) `{!View view}.

Lemma offline_out method : stays_out view (Offline.Provider method : PaymentProvider W).
Proof.
  split; [intros i|intros id|intros id a|intros id a|intros id|done|done];
    cbn [Offline.Provider pp_CreateSession pp_Authorize pp_Capture pp_Refund pp_Cancel].
  - unfold Offline.CreateSession. keeps_tac.
  - unfold Offline.Authorize. keeps_tac.
  - apply keeps_check.
  - apply keeps_check.
  - apply keeps_check.
Qed.

Lemma manual_out json_error :
  (forall s, keeps view (InsertManualSessionIfAbsent s)) ->
  (forall id st a c r reason, keeps view (UpdateManualSessionState id st a c r reason)) ->
  stays_out view (Manual.Provider json_error : PaymentProvider W).
Proof.
  intros Hi Hu.
  split; [intros i|intros id|intros id a|intros id a|intros id|intros f id [= <-]|done];
    cbn [Manual.Provider pp_CreateSession pp_Authorize pp_Capture pp_Refund pp_Cancel].
  - unfold Manual.CreateSession. quiet_tac.
  - unfold Manual.Authorize. quiet_tac.
  - unfold Manual.Capture. quiet_tac.
  - unfold Manual.Refund. quiet_tac.
  - unfold Manual.Cancel. quiet_tac.
  - unfold Manual.InspectSession, Manual.GetSession. quiet_tac.
Qed.

(** What a tender's machine asks of its ledger and of its table. *)
Record machine_out (m : Tender.Machine W) : Prop := mkMachineOut {
  machine_owner : forall f i, Tender.mc_Owner m = Some f -> keeps view (f i);
  machine_move : forall e, keeps view (Tender.mc_Move m e);
  machine_balance : forall o c, keeps view (Tender.mc_Balance m o c);
  machine_lock : forall o c, keeps view (Tender.mc_LockBalance m o c);
  machine_insert : forall s, keeps view (InsertSessionIfAbsent (Tender.mc_table m) s);
  machine_update : forall id st a c r reason, keeps view (UpdateSessionState (Tender.mc_table m) id st a c r reason)
}.

Lemma owner_out m i : (forall f i, Tender.mc_Owner m = Some f -> keeps view (f i)) -> keeps view (Tender.owner m i).
Proof. intros H. unfold Tender.owner. destruct (Tender.mc_Owner m) eqn:E; [by eapply H|]. keeps_tac. Qed.

Lemma tender_out m : machine_out m -> stays_out view (Tender.Provider m).
Proof.
  intros [Ho Hm Hb Hl Hi Hu]. pose proof (fun i => owner_out m i Ho) as How.
  split; [intros i|intros id|intros id a|intros id a|intros id|intros f id [= <-]|intros f id [= <-]];
    cbn [Tender.Provider pp_CreateSession pp_Authorize pp_Capture pp_Refund pp_Cancel].
  - unfold Tender.CreateSession. quiet_tac.
  - unfold Tender.Authorize. quiet_tac.
  - unfold Tender.Capture. quiet_tac.
  - unfold Tender.Refund. quiet_tac.
  - unfold Tender.Cancel. quiet_tac.
  - unfold Tender.InspectSession. quiet_tac.
  - unfold Tender.CheckPayment. quiet_tac.
Qed.

Lemma keeps_classify_again {A} format (m : tx (Sys W) A) : keeps view m -> keeps view (classify_again format m).
Proof. intros H st. specialize (H st). unfold classify_again. by destruct (m st) as [st' [a|e]]. Qed.

Lemma keeps_found_card (m : tx (Sys W) GiftCard) : keeps view m -> keeps view (Tender.found_card m).
Proof. intros H st. specialize (H st). unfold Tender.found_card. by destruct (m st) as [st' [a|e]]. Qed.

Lemma keeps_credit_balance o c : keeps view (StoreCreditBalance o c).
Proof.
  unfold StoreCreditBalance. apply keeps_bind; [apply keeps_clock, _|intros]. apply keeps_bind; [|intros; apply keeps_ret].
  apply keeps_classify_again. quiet_tac.
Qed.

Lemma credit_out : (forall e, keeps view (AppendStoreCreditEntry e)) ->
  (forall s, keeps view (InsertSessionIfAbsent credit_table s)) ->
  (forall id st a c r reason, keeps view (UpdateSessionState credit_table id st a c r reason)) ->
  machine_out Tender.StoreCredit.
Proof.
  intros Ha Hi Hu. split; [done|intros e|apply keeps_credit_balance|intros o c; cbn; quiet_tac|done|done].
  cbn. unfold Tender.credit_move. keeps_tac.
Qed.

Lemma points_out : (forall e, keeps view (AppendLoyaltyEntry e)) ->
  (forall s, keeps view (InsertSessionIfAbsent loyalty_table s)) ->
  (forall id st a c r reason, keeps view (UpdateSessionState loyalty_table id st a c r reason)) ->
  machine_out Tender.Points.
Proof.
  intros Ha Hi Hu. split; [done|intros e|intros o c; cbn; quiet_tac|intros o c; cbn; quiet_tac|done|done].
  cbn. unfold Tender.points_move. keeps_tac.
Qed.

Lemma keeps_cardOf i : keeps view (Tender.cardOf i).
Proof.
  unfold Tender.cardOf. case_match; [|apply keeps_of]. apply keeps_bind; [apply keeps_found_card; quiet_tac|intros]. quiet_tac.
Qed.

Lemma cards_out : (forall e, keeps view (AppendGiftCardEntry e)) ->
  (forall s, keeps view (InsertSessionIfAbsent card_table s)) ->
  (forall id st a c r reason, keeps view (UpdateSessionState card_table id st a c r reason)) ->
  machine_out Tender.GiftCards.
Proof.
  intros Ha Hi Hu. split; [|intros e|intros o c; cbn; quiet_tac|intros o c; cbn; quiet_tac|done|done].
  - intros f i [= <-]. apply keeps_cardOf.
  - cbn. unfold Tender.card_move. quiet_tac.
Qed.
End Out.

(** ** The module's own providers stay out of the books *)

Section Quiet.
Context {W : Type} `{!Outside W}.

Definition in_module json_error (p : PaymentProvider W) : Prop :=
  p = Manual.Provider json_error \/ (exists method, p = Offline.Provider method) \/
  p = Tender.Provider Tender.StoreCredit \/ p = Tender.Provider Tender.Points \/ p = Tender.Provider Tender.GiftCards.

Lemma quiet_in_module json_error p : in_module json_error p -> quiet p.
Proof.
  intros [-> | [[method ->] | [-> | [-> | ->]]]].
  - apply (manual_out _); intros; [apply keeps_till|apply keeps_one, keeps_till].
  - apply (offline_out _).
  - apply (tender_out _), (credit_out _); intros; apply keeps_till.
  - apply (tender_out _), (points_out _); intros; apply keeps_till.
  - apply (tender_out _), (cards_out _); intros; apply keeps_till.
Qed.
End Quiet.

(** ** A property of the tills, kept by the service *)

Section Keep.
Context {W : Type} `{!Outside W} (Good : Tills -> Prop).

(** Kept by a success, as inside a transaction; and kept whatever comes. *)
Definition holds {A} (m : tx (Sys W) A) : Prop :=
  forall st st' a, Good (sy_tills st) -> m st = (st', Ok a) -> Good (sy_tills st').
Definition stays {A} (m : tx (Sys W) A) : Prop := forall st, Good (sy_tills st) -> Good (sy_tills (m st).1).

Lemma holds_keeps {A} (m : tx (Sys W) A) : keeps (@sy_tills W) m -> holds m.
Proof. intros H st st' a Hg E. specialize (H st). rewrite E in H. cbn in H. by rewrite H. Qed.

Lemma holds_gives {A} (m : tx (Sys W) A) : (forall t, Good t -> gives (@sy_tills W) t m (fun _ t' => Good t')) -> holds m.
Proof. intros H st st' a Hg E. by eapply (H _ Hg). Qed.

Lemma holds_bind {A B} (m : tx (Sys W) A) (f : A -> tx (Sys W) B) : holds m -> (forall a, holds (f a)) -> holds (m ≫= f).
Proof.
  intros Hm Hf st st' b Hg. unfold mbind, tx_bind. destruct (m st) as [st1 [a|e]] eqn:E; [|done].
  apply Hf. by eapply Hm.
Qed.

Lemma holds_given {A B} (P : A -> Prop) (m : tx (Sys W) A) (f : A -> tx (Sys W) B) :
  (forall st st' a, m st = (st', Ok a) -> P a) -> holds m -> (forall a, P a -> holds (f a)) -> holds (m ≫= f).
Proof.
  intros HP Hm Hf st st' b Hg. unfold mbind, tx_bind. destruct (m st) as [st1 [a|e]] eqn:E; [|done].
  apply Hf; [by eapply HP|by eapply Hm].
Qed.

Lemma holds_ignore {A} (m : tx (Sys W) A) : holds m -> holds (ignore m).
Proof. intros H. apply holds_bind; [done|]. intros a. apply holds_keeps, keeps_ret. Qed.

Lemma stays_keeps {A} (m : tx (Sys W) A) : keeps (@sy_tills W) m -> stays m.
Proof. intros H st Hg. by rewrite H. Qed.

Lemma stays_bind {A B} (m : tx (Sys W) A) (f : A -> tx (Sys W) B) : stays m -> (forall a, stays (f a)) -> stays (m ≫= f).
Proof.
  intros Hm Hf st Hg. unfold mbind, tx_bind. specialize (Hm st Hg). destruct (m st) as [st1 [a|e]]; [|done]. by apply Hf.
Qed.

Lemma stays_given {A B} (P : A -> Prop) (m : tx (Sys W) A) (f : A -> tx (Sys W) B) :
  (forall st st' a, m st = (st', Ok a) -> P a) -> stays m -> (forall a, P a -> stays (f a)) -> stays (m ≫= f).
Proof.
  intros HP Hm Hf st Hg. unfold mbind, tx_bind. specialize (Hm st Hg). destruct (m st) as [st1 [a|e]] eqn:E; [|done].
  apply Hf; [by eapply HP|done].
Qed.

Lemma stays_check {A} c (m : tx (Sys W) A) : (c = None -> stays m) -> stays (tx_check c ≫= fun _ => m).
Proof. intros H st Hg. unfold mbind, tx_bind, tx_check. destruct c; [done|]. by apply H. Qed.

Lemma stays_ignore {A} (m : tx (Sys W) A) : stays m -> stays (ignore m).
Proof. intros H. apply stays_bind; [done|]. intros a. apply stays_keeps, keeps_ret. Qed.

Lemma stays_WithTx {A} (m : tx (Sys W) A) : holds m -> stays (WithTx false m).
Proof.
  intros H st Hg. unfold WithTx. destruct (out_fault _ _) as [w [d|]]; [done|].
  destruct (m _) as [st' [a|e]] eqn:E; [|done]. destruct (out_fault _ _) as [w' [d|]]; [done|].
  exact (H (set_outside w st) st' a Hg E).
Qed.

(** A statement that succeeds or writes nothing. *)
Lemma stays_till {A} name format a (f : moment -> Tills -> answer (Tills * A)) :
  holds (till name format a f) -> stays (till name format a f).
Proof.
  intros H st Hg. specialize (H st). revert H. unfold till, statement. destruct (out_fault _ _) as [w [d|]]; [done|].
  destruct (f _ _) as [[t x]|d]; [|done]. intros H. by eapply H.
Qed.

Lemma holds_till {A} name format a (f : moment -> Tills -> answer (Tills * A)) :
  (forall now t t' y, Good t -> f now t = Rows (t', y) -> Good t') -> holds (till name format a f).
Proof. intros H. apply holds_gives. intros t Hg. apply gives_till. intros now t' y E. by eapply H. Qed.

Lemma holds_one {A} e (m : tx (Sys W) (option A)) : holds m -> holds (one e m).
Proof. intros H. apply holds_bind; [done|]. intros [x|]; apply holds_keeps; [apply keeps_ret|apply keeps_of]. Qed.

(** ** Providers under a law *)

Record lawful (p : PaymentProvider W) : Prop := mkLawful {
  lawful_create : forall i, in_int64 (pi_Amount i) -> holds (pp_CreateSession p i);
  lawful_authorize : forall id, holds (pp_Authorize p id);
  lawful_capture : forall id a, holds (pp_Capture p id a);
  lawful_refund : forall id a, in_int64 a -> holds (pp_Refund p id a);
  lawful_cancel : forall id, holds (pp_Cancel p id);
  lawful_inspect : forall f id, pp_InspectSession p = Some f -> keeps (@sy_tills W) (f id)
}.

(** Another institution's provider writes no row of the tills. *)
Lemma lawful_out p : stays_out (@sy_tills W) p -> lawful p.
Proof. intros [H1 H2 H3 H4 H5 H6 _]. split; intros; [apply holds_keeps; auto..|]. by eapply H6. Qed.

Context (providers : Registry W) (earnBasisPoints : Z).
Context (Hlaw : forall id p, Get providers id = Ok p -> lawful p).
Context (Hearn : forall e, ly_Kind e ∈ [KindEarn; KindReverse] -> holds (AppendLoyaltyEntry e)).

Lemma holds_earn col : holds (earnLoyaltyPoints earnBasisPoints col).
Proof.
  unfold earnLoyaltyPoints. case_match; [apply holds_keeps, keeps_ret|].
  apply holds_bind; [apply holds_keeps; unfold CollectionNetCapturedExcludingProviders; keeps_tac|intros net].
  apply holds_bind; [apply holds_keeps; unfold LoyaltyPointsForReference; keeps_tac|intros written].
  case_match; [apply holds_keeps, keeps_ret|].
  apply holds_bind; [apply holds_keeps, keeps_new_id, _|intros id]. apply holds_ignore, Hearn. cbn. destruct (_ <? 0); [apply list_elem_of_further|]; apply list_elem_of_here.
Qed.

Lemma holds_totals col a k r : holds (writeCollectionTotals earnBasisPoints col a k r).
Proof.
  unfold writeCollectionTotals. apply holds_bind; [apply holds_keeps, keeps_check|intros _].
  apply holds_bind; [apply holds_keeps; unfold SessionCounts; keeps_tac|intros counts].
  apply holds_bind; [apply holds_keeps; unfold UpdatePaymentCollectionTotals; keeps_tac|intros c].
  apply holds_bind; [apply holds_earn|intros _]. apply holds_keeps, keeps_ret.
Qed.

Lemma keeps_write_event e : keeps (@sy_tills W) (WriteOutboxEvent e).
Proof.
  apply keeps_bind; [apply keeps_check|intros _]. intros st. unfold write_event. by destruct (out_fault _ _) as [w [d|]].
Qed.

Create HintDb holds.
Create HintDb books_statements.
#[local] Hint Resolve holds_totals holds_ignore : holds.
#[local] Hint Extern 2 (holds _) => solve [apply holds_keeps; eauto 4 with keeps] : holds.
#[local] Hint Unfold lockCollectionAndSession GetPaymentSession LockPaymentCollection LockPaymentSession
  UpdatePaymentSessionState CreatePayment PaymentBySession LockPayment UpdatePaymentRefundedAmount CreateRefund
  RefundedForReference CreatePaymentSession recordMoneyMoved GetPayment : books_statements.
#[local] Hint Resolve keeps_write_event : keeps.

Ltac holds_tac :=
  repeat progress (autounfold with books_statements);
  repeat first [solve [eauto 3 with holds] | apply holds_bind; [|intros ?] | case_match].

Lemma sub64_in a b : in_int64 (sub64 a b).
Proof. unfold sub64. apply wrap64_range. Qed.

Lemma holds_open col prov key i : lawful prov -> 0 <= cs_Amount i <= MaxAmount ->
  holds (open_session earnBasisPoints col prov key i).
Proof.
  intros Hp Hi. unfold open_session. apply (holds_given (fun rr => in_int64 (fst rr))).
  { intros st st' [rem res]. unfold remainingToOpen, mbind, tx_bind. destruct (LiveSessionAmount _ st) as [st1 [live|e]]; [|done].
    intros [= _ E]. revert E. case_match; intros [= <- _]; cbn; [in64|apply sub64_in]. }
  { apply holds_keeps. unfold remainingToOpen, LiveSessionAmount. keeps_tac. }
  intros [rem res] Hr. cbn in Hr. apply holds_bind; [apply holds_keeps, keeps_check|intros _].
  apply holds_bind; [|intros ps].
  - apply lawful_create; [done|]. cbn. case_match; [done|]. unfold MaxAmount in *. in64.
  - holds_tac.
Qed.

Lemma holds_authorize col prov s : lawful prov -> holds (authorize_session earnBasisPoints prov col s).
Proof. intros Hp. unfold authorize_session. apply holds_bind; [by apply lawful_authorize|intros r]. holds_tac. Qed.

Lemma holds_capture col prov s amount : lawful prov -> holds (capture_session earnBasisPoints prov col s amount).
Proof.
  intros Hp. unfold capture_session. apply holds_bind; [apply holds_keeps, keeps_check|intros _].
  apply holds_bind; [by apply lawful_capture|intros _]. holds_tac.
Qed.

Lemma refundable_in p : in_int64 (Payment_RefundableAmount p).
Proof. unfold Payment_RefundableAmount. case_match; [in64|apply sub64_in]. Qed.

Lemma holds_refund col prov s p amount reason reference ceiling : lawful prov -> 0 <= amount <= MaxAmount ->
  holds (refund_capture earnBasisPoints prov col s p amount reason reference ceiling).
Proof.
  intros Hp Ha. unfold refund_capture. apply holds_bind; [apply holds_keeps, keeps_check|intros _].
  apply holds_bind; [apply holds_keeps; unfold RefundedForReference; keeps_tac|intros _].
  apply holds_bind; [apply lawful_refund; [done|]|intros _]; [|holds_tac].
  case_match; [apply refundable_in|unfold MaxAmount in *; in64].
Qed.

(** ** The service's calls *)

Lemma keeps_provider_tills id : keeps (@sy_tills W) (providerForSession providers id).
Proof. unfold providerForSession, GetPaymentSession. keeps_tac. Qed.

Lemma provider_lawful id st st' p : providerForSession providers id st = (st', Ok p) -> lawful p.
Proof.
  unfold providerForSession, mbind, tx_bind. destruct (GetPaymentSession id st) as [st1 [s|e]]; [|done].
  intros [= _ E]. by eapply Hlaw.
Qed.

Lemma stays_with_provider {A} id (f : PaymentProvider W -> tx (Sys W) A) :
  (forall p, lawful p -> stays (f p)) -> stays (providerForSession providers id ≫= f).
Proof. intros H. eapply stays_given; [by apply provider_lawful|apply stays_keeps, keeps_provider_tills|done]. Qed.

Lemma stays_answer {A B} (m : tx (Sys W) A) (f : A -> tx (Sys W) B) :
  stays m -> (forall a, keeps (@sy_tills W) (f a)) -> stays (m ≫= f).
Proof. intros Hm Hf. apply stays_bind; [done|]. intros a. by apply stays_keeps. Qed.

Lemma stays_CreateSession coll prov i : stays (CreateSession providers earnBasisPoints coll prov i).
Proof.
  unfold CreateSession. do 3 (apply stays_check; intros _). apply stays_check. intros Hi%requireOptionalAmount_ok.
  eapply (stays_given lawful); [intros st st' p [= _ E]; by eapply Hlaw|apply stays_keeps, keeps_of|intros p Hp].
  apply stays_WithTx. apply holds_bind; [apply holds_keeps; unfold LockPaymentCollection; keeps_tac|intros col].
  apply holds_bind; [|intros [s|]].
  - apply holds_keeps. intros st. unfold session_opened.
    assert (Hk : keeps (@sy_tills W) (PaymentSessionByIdempotencyKey (pp_ID p) (TrimSpace (cs_IdempotencyKey i))))
      by (unfold PaymentSessionByIdempotencyKey; keeps_tac).
    specialize (Hk st). by destruct (PaymentSessionByIdempotencyKey _ _ st) as [st' [s|e]].
  - holds_tac.
  - by apply holds_open.
Qed.

Lemma stays_AuthorizePayment id : stays (AuthorizePayment providers earnBasisPoints id).
Proof.
  unfold AuthorizePayment. apply stays_check. intros _. apply stays_with_provider. intros p Hp.
  apply stays_answer; [|intros []; [apply keeps_ret|apply keeps_of]]. apply stays_WithTx.
  apply holds_bind; [holds_tac|intros [col s]]. case_match; [holds_tac|by apply holds_authorize|holds_tac].
Qed.

Lemma stays_CancelPayment id : stays (CancelPayment providers earnBasisPoints id).
Proof.
  unfold CancelPayment. apply stays_check. intros _. apply stays_with_provider. intros p Hp. apply stays_WithTx.
  apply holds_bind; [holds_tac|intros [col s]]. case_match; [holds_tac| |holds_tac].
  apply holds_bind; [by apply lawful_cancel|intros _]. holds_tac.
Qed.

Lemma stays_CapturePayment id amount : stays (CapturePayment providers earnBasisPoints id amount).
Proof.
  unfold CapturePayment. do 2 (apply stays_check; intros _). apply stays_with_provider. intros p Hp.
  apply stays_answer; [|intros q; apply keeps_bind; [done|intros; apply keeps_ret]]. apply stays_WithTx.
  apply holds_bind; [holds_tac|intros [col s]]. case_match; [holds_tac|by apply holds_capture|holds_tac].
Qed.

Lemma stays_refundPayment pid amount reason reference ceiling :
  stays (refundPayment providers earnBasisPoints pid amount reason reference ceiling).
Proof.
  unfold refundPayment. apply stays_check. intros _. apply stays_check. intros Ha%requireOptionalAmount_ok.
  do 2 (apply stays_check; intros _). apply stays_bind; [apply stays_keeps; unfold GetPayment; keeps_tac|intros preview].
  apply stays_with_provider. intros p Hp.
  apply stays_answer; [|intros [r c]; apply keeps_bind; [done|intros; apply keeps_ret]]. apply stays_WithTx.
  apply holds_bind; [holds_tac|intros [col s]]. apply holds_bind; [holds_tac|intros q].
  apply holds_bind; [by apply holds_refund|intros r]. holds_tac.
Qed.

Lemma stays_refund_each coll planned reason reference ceiling plan made :
  stays (refund_each providers earnBasisPoints coll planned reason reference ceiling plan made).
Proof.
  revert made. induction plan as [|[pid amount] plan IH]; intros made st Hg; [done|]. cbn.
  pose proof (stays_refundPayment pid amount reason reference ceiling st Hg) as H1.
  destruct (refundPayment _ _ _ _ _ _ _ st) as [st' [r|e]]; [by apply IH|by destruct made].
Qed.

Lemma stays_RefundCollection coll amount ceiling reason reference :
  stays (RefundCollection providers earnBasisPoints coll amount ceiling reason reference).
Proof.
  unfold RefundCollection. do 6 (apply stays_check; intros _).
  apply stays_bind; [apply stays_keeps; unfold ListPaymentsByCollection; keeps_tac|intros l].
  apply stays_bind; [apply stays_keeps; unfold RefundedForReference; keeps_tac|intros given].
  do 2 (apply stays_bind; [apply stays_keeps, keeps_of|intros ?]). apply stays_refund_each.
Qed.

Lemma stays_RecordReceived id : stays (RecordReceived providers earnBasisPoints id).
Proof.
  unfold RecordReceived, GetSession, GetPaymentSession. apply stays_bind; [apply stays_keeps; keeps_tac|intros s].
  apply stays_bind; [apply stays_keeps, keeps_of|intros p]. apply stays_check. intros _. apply stays_CapturePayment.
Qed.

Lemma stays_HandleOrderCanceled event order : stays (HandleOrderCanceled providers earnBasisPoints event order).
Proof.
  unfold HandleOrderCanceled. apply stays_check. intros _. apply stays_bind; [apply stays_keeps, keeps_read|intros l].
  induction l as [|c l IH]; [apply stays_keeps, keeps_ret|]. cbn.
  apply stays_bind; [apply stays_keeps; unfold ListPaymentSessionsByCollection; keeps_tac|intros sessions].
  apply stays_bind; [|intros _; apply IH]. clear IH. induction sessions as [|s l' IH]; [apply stays_keeps, keeps_ret|].
  cbn. case_bool_decide; [|apply IH]. cbn. intros st Hg. pose proof (stays_CancelPayment (ps_ID s) st Hg) as H1.
  destruct (CancelPayment _ _ _ st) as [st' [u|e]]; [by apply IH|]. case_bool_decide; [by apply IH|done].
Qed.
End Keep.
