(* ===== verification/PaymentLedger.v ===== *)
(** * The ledgers of the balance tenders: [balancetender/balancetender.go] over any ledger

    What the machine promises of any ledger that appends the rows it is asked for ([Ledger]): what a
    session moved on the ledger is what it owes, at every status, and a balance that may not go below zero
    does not. The three tenders' ledgers are instances in [PaymentTenders]. *)
From S2P Require Import Prelude GoText Errors Tx Identifiers Database PaymentModels PaymentStore PaymentRules PaymentTills PaymentProviders PaymentService PaymentRefines PaymentFrames.

(** A row of a ledger: whose balance, which movement, how much, and for which session. *)
Record lrow := mkRow { lr_owner : string * string; lr_kind : EntryKind; lr_amount : Z; lr_session : string }.

Definition movements : list EntryKind := [KindHold; KindRelease; KindRefund].
Definition taking : list EntryKind := [KindHold; KindExpire; KindReverse; KindVoid].

(** A row's sign is its kind's. *)
Definition row_ok (r : lrow) : Prop := if decide (lr_kind r ∈ taking) then lr_amount r < 0 else 0 < lr_amount r.

Definition moved (id : string) (l : list lrow) : Z :=
  log_sum (fun r => if decide (lr_session r = id /\ lr_kind r ∈ movements) then lr_amount r else 0) l.

Definition balance (key : string * string) (l : list lrow) : Z :=
  log_sum (fun r => if decide (lr_owner r = key) then lr_amount r else 0) l.

(** What a session has taken off its balance and not given back. *)
Definition outstanding (s : TenderSession) : Z :=
  if decide (ts_Status s = SessionAuthorized) then ts_AuthorizedAmount s
  else if decide (ts_Status s = SessionCaptured) then ts_CapturedAmount s - ts_RefundedAmount s
  else 0.

Definition tender_fine (s : TenderSession) : Prop :=
  SessionStatus_Valid (ts_Status s) = true /\ ts_Amount s <= int64_max /\
  0 <= ts_AuthorizedAmount s <= int64_max /\ 0 <= ts_RefundedAmount s <= ts_CapturedAmount s /\
  ts_CapturedAmount s <= ts_AuthorizedAmount s /\
  (ts_Status s <> SessionCaptured -> ts_CapturedAmount s = 0 /\ ts_RefundedAmount s = 0).

Section Ledger.
Context {W : Type} `{!Outside W}.

Definition entry_row (key : string -> string -> string * string) (e : Tender.Entry) : lrow :=
  mkRow (key (Tender.en_OwnerID e) (Tender.en_CurrencyCode e)) (Tender.en_Movement e) (Tender.en_Amount e)
    (Tender.en_SessionID e).

(** What a machine's ledger has to do; [lg_floor] says whether its balances stay at zero or above, and
    [lg_closed] which balances are closed: a closed one takes no refund back. *)
Record Ledger (m : Tender.Machine W) := mkLedger {
  lg_rows : Tills -> list lrow;
  lg_key : string -> string -> string * string;
  lg_floor : bool;
  lg_closed : Tills -> string * string -> Prop;
  lg_get_set : forall x t, tb_get (Tender.mc_table m) (tb_set (Tender.mc_table m) x t) = x;
  lg_rows_set : forall x t, lg_rows (tb_set (Tender.mc_table m) x t) = lg_rows t;
  lg_closed_set : forall x t k, lg_closed (tb_set (Tender.mc_table m) x t) k -> lg_closed t k;
  lg_move : forall e t, Tender.en_Movement e ∈ movements -> gives sy_tills t (Tender.mc_Move m e) (fun _ t' =>
    lg_rows t' = lg_rows t ++ [entry_row lg_key e] /\ row_ok (entry_row lg_key e) /\
    tb_get (Tender.mc_table m) t' = tb_get (Tender.mc_table m) t /\ (forall k, lg_closed t' k -> lg_closed t k) /\
    (Tender.en_Movement e = KindRefund -> ~ lg_closed t (lr_owner (entry_row lg_key e))));
  lg_balance : forall o c t, (lg_floor = true -> 0 <= balance (lg_key o c) (lg_rows t)) ->
    gives sy_tills t (Tender.mc_Balance m o c) (fun x t' => t' = t /\ x <= balance (lg_key o c) (lg_rows t));
  lg_lock : forall o c, keeps sy_tills (Tender.mc_LockBalance m o c);
  lg_owner : forall i, keeps sy_tills (Tender.owner m i)
}.
Arguments lg_rows {m}.
Arguments lg_key {m}.
Arguments lg_floor {m}.
Arguments lg_closed {m}.
Arguments lg_closed_set {m}.
Arguments lg_get_set {m}.
Arguments lg_rows_set {m}.
Arguments lg_move {m}.
Arguments lg_balance {m}.
Arguments lg_lock {m}.
Arguments lg_owner {m}.

Context {m : Tender.Machine W} (L : Ledger m).
Abbreviation table_of := (tb_get (Tender.mc_table m)).
Abbreviation gives_tills := (gives (@sy_tills W)).

Definition key_of (s : TenderSession) : string * string := lg_key L (ts_OwnerID s) (ts_CurrencyCode s).

Record LedgerSound (t : Tills) : Prop := mkLedgerSound {
  ledger_rows : Forall row_ok (lg_rows L t);
  ledger_sessions : map_Forall (fun id s => ts_ID s = id /\ tender_fine s /\ moved id (lg_rows L t) = - outstanding s)
    (table_of t);
  ledger_rest : forall id, table_of t !! id = None -> moved id (lg_rows L t) = 0;
  ledger_floor : lg_floor L = true -> forall key, 0 <= balance key (lg_rows L t);
  ledger_closed : forall key, lg_closed L t key -> balance key (lg_rows L t) = 0 /\
    forall id s, table_of t !! id = Some s -> key_of s = key -> ts_Status s <> SessionAuthorized
}.

(** ** Rows appended *)

Lemma moved_app id l k : moved id (l ++ k) = moved id l + moved id k.
Proof. apply log_sum_app. Qed.

Lemma balance_app key l k : balance key (l ++ k) = balance key l + balance key k.
Proof. apply log_sum_app. Qed.

Lemma moved_other id l : Forall (fun r => lr_session r <> id) l -> moved id l = 0.
Proof.
  intros H. apply log_sum_zero. intros r Hr. rewrite decide_False; [done|]. intros [E _].
  by eapply (proj1 (Forall_forall _ _) H r Hr).
Qed.

Lemma moved_one id r : lr_session r = id -> lr_kind r ∈ movements -> moved id [r] = lr_amount r.
Proof. intros H1 H2. unfold moved, log_sum. cbn [fmap list_fmap]. rewrite sumZ_cons, sumZ_nil, decide_True by done. lia. Qed.

Lemma balance_other key l : Forall (fun r => lr_owner r <> key) l -> balance key l = 0.
Proof.
  intros H. apply log_sum_zero. intros r Hr. rewrite decide_False; [done|]. by apply (proj1 (Forall_forall _ _) H).
Qed.

Lemma balance_one key r : balance key [r] = if decide (lr_owner r = key) then lr_amount r else 0.
Proof. unfold balance, log_sum. cbn [fmap list_fmap]. rewrite sumZ_cons, sumZ_nil. lia. Qed.

(** The rows that go with a session's move: of it and of its balance, which is open if there are any. *)
Definition rows_of (t : Tills) (s : TenderSession) (new : list lrow) : Prop :=
  Forall (fun r => row_ok r /\ lr_session r = ts_ID s /\ lr_owner r = key_of s) new /\
  (new <> [] -> ~ lg_closed L t (key_of s)).

(** One session moved to another state, with the rows that go with it. *)
Lemma ledger_step t t' s s' new : LedgerSound t -> table_of t !! ts_ID s = Some s ->
  table_of t' = <[ts_ID s := s']> (table_of t) -> lg_rows L t' = lg_rows L t ++ new ->
  (forall k, lg_closed L t' k -> lg_closed L t k) ->
  ts_ID s' = ts_ID s -> key_of s' = key_of s -> tender_fine s' -> rows_of t s new ->
  (ts_Status s' = SessionAuthorized -> new <> []) -> outstanding s' = outstanding s - moved (ts_ID s) new ->
  (lg_floor L = true -> forall key, 0 <= balance key (lg_rows L t ++ new)) -> LedgerSound t'.
Proof.
  intros [H1 H2 H3 H4 H5] Hs Et Er Ecl Hid Hkey Hf [Hnew Hopen] Hauth Hout Hfl.
  assert (Hother : forall i, i <> ts_ID s -> moved i (lg_rows L t') = moved i (lg_rows L t)).
  { intros i Hi. rewrite Er, moved_app, (moved_other i new); [lia|].
    eapply Forall_impl; [exact Hnew|]. intros r (_ & E & _). congruence. }
  split.
  - rewrite Er. apply Forall_app. split; [done|]. eapply Forall_impl; [exact Hnew|]. by intros r (? & _).
  - rewrite Et. intros i x [[<- <-]|[Hne Hx]]%lookup_insert_Some.
    + split; [done|]. split; [done|]. rewrite Er, moved_app. destruct (H2 _ _ Hs) as (_ & _ & ->). lia.
    + rewrite Hother by done. by apply H2.
  - rewrite Et. intros i [Hi Hne]%lookup_insert_None. rewrite Hother by congruence. by apply H3.
  - intros Hfloor key. rewrite Er. by apply Hfl.
  - intros key Hcl%Ecl. destruct (H5 key Hcl) as [Hb Hh]. rewrite Er, balance_app, Hb. split.
    + rewrite balance_other; [done|]. destruct new as [|r l]; [done|].
      eapply Forall_impl; [exact Hnew|]. intros x (_ & _ & Ex) E. apply (Hopen ltac:(done)). by rewrite <- Ex, E.
    + rewrite Et. intros i x [[<- <-]|[Hne Hx]]%lookup_insert_Some; [|by eapply Hh].
      intros Ek Ea. apply (Hopen (Hauth Ea)). by rewrite <- Hkey, Ek.
Qed.

(** ** The statements *)

Lemma gives_lock_session t id (Q : TenderSession -> Tills -> Prop) :
  (forall s, table_of t !! id = Some s -> Q s t) -> gives_tills t (LockSession (Tender.mc_table m) id) Q.
Proof. intros H. apply gives_one, gives_ask_tills. intros now b y [= <-] s. apply H. Qed.

Lemma state_checks_ok name amount authorized captured refunded status :
  check_violated (state_checks name amount authorized captured refunded status) = None <->
  0 < amount /\ 0 <= authorized /\ captured <= authorized /\ 0 <= captured /\ refunded <= captured /\ 0 <= refunded /\
  SessionStatus_Valid status = true.
Proof.
  unfold state_checks. rewrite !check_violated_cons, check_violated_nil, ?Z.ltb_lt, ?Z.leb_le. intuition.
Qed.

Lemma check_violated_app l k : check_violated (l ++ k) = None -> check_violated l = None.
Proof. induction l as [|[name holds] l IH]; [done|]. cbn. by destruct holds. Qed.

Lemma gives_update_tender t id status authorized captured refunded reason (Q : TenderSession -> Tills -> Prop) :
  (forall now s, table_of t !! id = Some s ->
    let row := set_tender_state now status authorized captured refunded reason s in
    0 <= authorized /\ 0 <= refunded <= captured /\ captured <= authorized /\ SessionStatus_Valid status = true ->
    Q row (tb_set (Tender.mc_table m) (<[id := row]> (table_of t)) t)) ->
  gives_tills t (UpdateSessionState (Tender.mc_table m) id status authorized captured refunded reason) Q.
Proof.
  intros H. apply gives_till. intros now t' y E. destruct (table_of t !! id) as [s|] eqn:Hs; [|done].
  apply checked_rows in E as [[= -> ->] Hok%check_violated_app%state_checks_ok]. apply H; [done|]. cbn in Hok. intuition lia.
Qed.

(** Updating a session after its rows were written. *)
Lemma gives_settle t t1 s new status authorized captured refunded reason (Q : TenderSession -> Tills -> Prop) :
  LedgerSound t -> table_of t !! ts_ID s = Some s ->
  table_of t1 = table_of t -> lg_rows L t1 = lg_rows L t ++ new -> (forall k, lg_closed L t1 k -> lg_closed L t k) ->
  rows_of t s new -> (status = SessionAuthorized -> new <> []) ->
  (forall row, ts_Status row = status -> ts_AuthorizedAmount row = authorized -> ts_CapturedAmount row = captured ->
    ts_RefundedAmount row = refunded -> 0 <= authorized -> 0 <= refunded <= captured -> captured <= authorized ->
    outstanding row = outstanding s - moved (ts_ID s) new) ->
  authorized <= int64_max -> (status <> SessionCaptured -> captured = 0 /\ refunded = 0) ->
  (lg_floor L = true -> forall key, 0 <= balance key (lg_rows L t ++ new)) ->
  (forall row t', LedgerSound t' -> Q row t') ->
  gives_tills t1 (UpdateSessionState (Tender.mc_table m) (ts_ID s) status authorized captured refunded reason) Q.
Proof.
  intros H Hs Et Er Ecl Hnew Hauth Hout Hmax Hcap Hfl HQ. apply gives_update_tender.
  intros now s1 Hs1 row (Ha & Hr & Hc & Hv). rewrite Et, Hs in Hs1. injection Hs1 as <-. apply HQ.
  apply (ledger_step t _ s row new); try done.
  - by rewrite (lg_get_set L), Et.
  - by rewrite (lg_rows_set L).
  - intros k Hk%(lg_closed_set L). by apply Ecl.
  - destruct (ledger_sessions _ H _ _ Hs) as (_ & (_ & Hmaxs & _) & _). split; [done|]. cbn. split_and!; try (done || lia).
  - by apply Hout.
Qed.

(** No rows. *)
Lemma rows_of_none t s : rows_of t s [].
Proof. by split. Qed.

Lemma gives_settle_only t s status authorized captured refunded reason (Q : TenderSession -> Tills -> Prop) :
  LedgerSound t -> table_of t !! ts_ID s = Some s -> status <> SessionAuthorized ->
  (forall row, ts_Status row = status -> ts_AuthorizedAmount row = authorized -> ts_CapturedAmount row = captured ->
    ts_RefundedAmount row = refunded -> 0 <= authorized -> 0 <= refunded <= captured -> captured <= authorized ->
    outstanding row = outstanding s) ->
  authorized <= int64_max -> (status <> SessionCaptured -> captured = 0 /\ refunded = 0) ->
  (forall row t', LedgerSound t' -> Q row t') ->
  gives_tills t (UpdateSessionState (Tender.mc_table m) (ts_ID s) status authorized captured refunded reason) Q.
Proof.
  intros H Hs Hst Hout Hmax Hcap HQ. apply (gives_settle t t s []); try done.
  - by rewrite app_nil_r.
  - intros row E1 E2 E3 E4 B1 B2 B3. rewrite (Hout row) by done. change (moved (ts_ID s) []) with 0. lia.
  - rewrite app_nil_r. apply H.
Qed.

(** ** The machine's operations *)

Lemma add64_nonneg a g : 0 <= a <= int64_max -> 0 < g <= int64_max -> 0 <= add64 a g -> add64 a g = a + g.
Proof.
  intros Ha Hg Hs. unfold add64, wrap64, int64_max in *. pose proof (Z.div_mod (a + g + 2 ^ 63) (2 ^ 64)).
  pose proof (Z.mod_pos_bound (a + g + 2 ^ 63) (2 ^ 64)). lia.
Qed.

Lemma balance_floor t new : LedgerSound t -> Forall (fun r => 0 <= lr_amount r) new -> lg_floor L = true ->
  forall key, 0 <= balance key (lg_rows L t ++ new).
Proof.
  intros H Hn Hf key. rewrite balance_app. pose proof (ledger_floor _ H Hf key).
  enough (0 <= balance key new) by lia. unfold balance, log_sum. apply sumZ_nonneg, Forall_fmap.
  eapply Forall_impl; [exact Hn|]. intros r Hr. cbn in *. case_decide; lia.
Qed.

Lemma create_sound i : in_int64 (pi_Amount i) -> forall t, LedgerSound t ->
  gives_tills t (Tender.CreateSession m i) (fun _ t' => LedgerSound t').
Proof.
  intros Hi t H. unfold Tender.CreateSession. apply gives_bind, gives_keep; [apply (lg_owner L)|]. intros ownerID.
  apply gives_bind, gives_check. intros _. apply gives_bind, gives_check. intros _. apply gives_bind, gives_of. intros asked _.
  apply gives_bind, gives_keep; [apply keeps_new_id, _|]. intros id. apply gives_bind.
  apply (gives_mono _ _ _ (fun _ t' => LedgerSound t')).
  - apply gives_till. intros now t' y E. destruct (tender_of_key _ _ t); [by injection E as <- _|].
    cbn [ts_ID] in E. destruct (table_of t !! id) eqn:Hnew; [done|].
    destruct (tb_owner_known _ _ _); [|done]. apply checked_rows in E as [[= -> _] Hok%check_violated_app%state_checks_ok].
    cbn in Hok. set (row := new_tender_row _ now _) in *. destruct H as [H1 H2 H3 H4 H5].
    split; rewrite ?(lg_get_set L); [by rewrite (lg_rows_set L)| | |intros Hfl key; rewrite (lg_rows_set L); by apply H4|].
    + apply map_Forall_insert_2; [|intros x s Hx; rewrite (lg_rows_set L); by apply H2]. split; [done|]. split.
      * unfold tender_fine. cbn. unfold in_int64, int64_max in *. split_and!; try (done || lia).
      * rewrite (lg_rows_set L), H3 by done. reflexivity.
    + intros x [Hx _]%lookup_insert_None. rewrite (lg_rows_set L). by apply H3.
    + intros key Hcl%(lg_closed_set L). rewrite (lg_rows_set L). destruct (H5 key Hcl) as [Hb Hh]. split; [done|].
      intros x s [[<- <-]|[_ Hx]]%lookup_insert_Some; [done|by eapply Hh].
  - intros ins t' Ht'. apply gives_bind. apply gives_keep; [|intros; by apply gives_ret].
    destruct ins; [apply keeps_ret|]. unfold SessionByIdempotencyKey. keeps_tac.
Qed.

Lemma to_hold_le x s : Tender.to_hold m x s <= ts_Amount s.
Proof. unfold Tender.to_hold. destruct (Z.ltb_spec x (ts_Amount s)); cbn [andb]; [|lia]. case_match; lia. Qed.

(** The row of one movement of a session. *)
Lemma rows_of_one t s movement amount :
  row_ok (entry_row (lg_key L) (Tender.mkEntry (ts_OwnerID s) (ts_CurrencyCode s) movement amount (ts_ID s))) ->
  ~ lg_closed L t (key_of s) ->
  rows_of t s [entry_row (lg_key L) (Tender.mkEntry (ts_OwnerID s) (ts_CurrencyCode s) movement amount (ts_ID s))].
Proof. intros Hok Hcl. split; [|done]. by apply Forall_singleton. Qed.

Lemma authorize_sound id : forall t, LedgerSound t -> gives_tills t (Tender.Authorize m id) (fun _ t' => LedgerSound t').
Proof.
  intros t H. unfold Tender.Authorize. apply gives_bind, gives_check. intros _. apply gives_inside.
  apply gives_bind, gives_lock_session. intros s Hs. destruct (ledger_sessions _ H _ _ Hs) as (Hid & Hf & _).
  case_bool_decide as Hst; cbn [negb]; [|by apply gives_ret].
  apply gives_bind, gives_keep; [apply lg_lock, L|]. intros _. apply gives_bind. eapply gives_mono.
  { apply (lg_balance L). intros Hfl. by apply (ledger_floor _ H). }
  intros x t1 [-> Hx]. subst id. assert (Hout : outstanding s = 0) by (unfold outstanding; by rewrite Hst).
  assert (Hzero : ts_CapturedAmount s = 0 /\ ts_RefundedAmount s = 0) by (apply Hf; by rewrite Hst).
  destruct (Z.ltb_spec x (Tender.to_hold m x s)) as [Hlt|Hle].
  - apply gives_bind. apply gives_settle_only; try done.
    + intros row Er _ _ _ _ _ _. rewrite Hout. unfold outstanding. by rewrite Er.
    + intros row t' Ht'. by apply gives_ret.
  - apply gives_bind. eapply gives_mono; [apply (lg_move L); by apply list_elem_of_here|].
    intros [] t1 (Er & Hrow & Et & Ecl & _). set (new := entry_row _ _) in *.
    assert (Hpos : 0 < Tender.to_hold m x s) by (unfold row_ok in Hrow; cbn in Hrow; rewrite decide_True in Hrow by apply list_elem_of_here; lia).
    apply gives_bind. apply (gives_settle t t1 s [new]); try done.
    + apply rows_of_one; [done|]. intros Hcl. destruct (ledger_closed _ H _ Hcl) as [Hb _]. unfold key_of in Hb. lia.
    + intros row Erow Ea _ _ _ _ _. rewrite moved_one, Hout by (done || by apply list_elem_of_here).
      unfold outstanding. rewrite Erow, Ea, decide_True by done. cbn. lia.
    + pose proof (to_hold_le x s). destruct Hf as (_ & Hmax & _). lia.
    + intros Hfl key. rewrite balance_app, balance_one. pose proof (ledger_floor _ H Hfl key).
      case_decide as Ek; [|lia]. cbn in Ek |- *. subst key. lia.
    + intros row t' Ht'. by apply gives_ret.
Qed.

(** A movement that gives back to an open balance. *)
Lemma gives_back s movement amount t (Q : Tills -> Prop) :
  LedgerSound t -> movement ∈ [KindRelease; KindRefund] -> (movement = KindRelease -> ~ lg_closed L t (key_of s)) ->
  let e := Tender.mkEntry (ts_OwnerID s) (ts_CurrencyCode s) movement amount (ts_ID s) in
  (forall t1, lg_rows L t1 = lg_rows L t ++ [entry_row (lg_key L) e] -> table_of t1 = table_of t ->
    (forall k, lg_closed L t1 k -> lg_closed L t k) -> rows_of t s [entry_row (lg_key L) e] -> 0 < amount ->
    moved (ts_ID s) [entry_row (lg_key L) e] = amount ->
    (lg_floor L = true -> forall key, 0 <= balance key (lg_rows L t ++ [entry_row (lg_key L) e])) -> Q t1) ->
  gives_tills t (Tender.mc_Move m e) (fun _ t1 => Q t1).
Proof.
  intros H Hk Hopen e HQ. assert (Hin : movement ∈ movements) by by apply list_elem_of_further.
  eapply gives_mono; [by apply (lg_move L)|].
  intros _ t1 (Er & Hrow & Et & Ecl & Href). assert (Hpos : 0 < amount).
  { unfold row_ok in Hrow. cbn in Hrow. rewrite decide_False in Hrow; [done|].
    intros Ht. apply elem_of_cons in Hk as [-> | ->%list_elem_of_singleton]; by apply Contains_spec in Ht. }
  apply HQ; try done.
  - apply rows_of_one; [done|]. apply elem_of_cons in Hk as [Ek|Ek%list_elem_of_singleton]; [by apply Hopen|by apply Href].
  - by apply moved_one.
  - apply (balance_floor t); [done|]. apply Forall_singleton. cbn. lia.
Qed.

(** A session that holds is of an open balance. *)
Lemma holding_open t s : LedgerSound t -> table_of t !! ts_ID s = Some s -> ts_Status s = SessionAuthorized ->
  ~ lg_closed L t (key_of s).
Proof. intros H Hs Hst Hcl. by apply (proj2 (ledger_closed _ H _ Hcl) _ _ Hs). Qed.

Lemma capture_sound id amount : forall t, LedgerSound t ->
  gives_tills t (Tender.Capture m id amount) (fun _ t' => LedgerSound t').
Proof.
  intros t H. unfold Tender.Capture. apply gives_bind, gives_check. intros _. apply gives_inside.
  apply gives_bind, gives_lock_session. intros s Hs. destruct (ledger_sessions _ H _ _ Hs) as (Hid & Hf & _).
  case_bool_decide; [by apply gives_ret|]. case_bool_decide as Hst; cbn [negb]; [|by apply gives_of].
  subst id. assert (Hout : outstanding s = ts_AuthorizedAmount s) by (unfold outstanding; by rewrite decide_True).
  destruct Hf as (_ & _ & Hau & _ & _ & Hz). destruct Hz as [Hc Hr]; [done|].
  set (taken := if amount =? 0 then _ else _). apply gives_bind, gives_check.
  destruct (Z.ltb_spec (ts_AuthorizedAmount s) taken) as [|Hle]; [done|]. intros _. rewrite Hr.
  assert (Hcaptured : forall row, ts_Status row = SessionCaptured -> outstanding row = ts_CapturedAmount row - ts_RefundedAmount row).
  { intros row E. unfold outstanding. by rewrite decide_False, decide_True by (rewrite ?E; done). }
  apply gives_bind. destruct (Z.ltb_spec 0 (sub64 (ts_AuthorizedAmount s) taken)) as [Hrem|Hrem].
  - apply gives_back; [done|by apply list_elem_of_here|intros _; by apply holding_open|].
    intros t1 Er Et Ecl Hnew Hpos Hmv Hfl. apply gives_ignore.
    eapply (gives_settle t t1 s); [done|done|done|exact Er|done|done|done| |try done; try lia..].
    intros row Erow _ Ec Err Hn _ _. rewrite Hmv, Hout, Hcaptured, Ec, Err by done. rewrite sub64_exact by in64. lia.
  - apply gives_ret, gives_ignore. apply gives_settle_only; try done; try lia.
    intros row Erow _ Ec Err Hn _ _. rewrite Hcaptured, Ec, Err, Hout by done. rewrite sub64_exact in Hrem by in64. lia.
Qed.

Lemma refund_sound id amount : in_int64 amount -> forall t, LedgerSound t ->
  gives_tills t (Tender.Refund m id amount) (fun _ t' => LedgerSound t').
Proof.
  intros Ham t H. unfold Tender.Refund. apply gives_bind, gives_check. intros _. apply gives_inside.
  apply gives_bind, gives_lock_session. intros s Hs. destruct (ledger_sessions _ H _ _ Hs) as (Hid & Hf & _).
  apply gives_bind, gives_check. case_bool_decide as Hst; [|done]. intros _. subst id.
  assert (Hcaptured : forall row, ts_Status row = SessionCaptured -> outstanding row = ts_CapturedAmount row - ts_RefundedAmount row).
  { intros row E. unfold outstanding. by rewrite decide_False, decide_True by (rewrite ?E; done). }
  destruct Hf as (_ & _ & Hau & Hr & Hc & _).
  set (given := if amount =? 0 then _ else _).
  assert (Hg : in_int64 given) by (unfold given; case_match; [apply sub64_in|done]).
  destruct (Z.leb_spec given 0) as [|Hpos]; [by apply gives_ret|]. apply gives_bind, gives_check.
  destruct (Z.ltb_spec (ts_CapturedAmount s) (add64 (ts_RefundedAmount s) given)) as [|Hle]; [done|]. intros _.
  apply gives_bind, gives_back; [done|by apply list_elem_of_further, list_elem_of_here|done|].
  intros t1 Er Et Ecl Hnew _ Hmv Hfl. apply gives_ignore.
  eapply (gives_settle t t1 s); [done|done|done|exact Er|done|done|done| |try done; try lia..].
  intros row Erow _ Ec Err _ Hrr _. rewrite Hmv, !Hcaptured, Ec, Err by done.
  enough (add64 (ts_RefundedAmount s) given = ts_RefundedAmount s + given) by lia.
  apply add64_nonneg; in64.
Qed.

Lemma tender_cancel_sound id : forall t, LedgerSound t -> gives_tills t (Tender.Cancel m id) (fun _ t' => LedgerSound t').
Proof.
  intros t H. unfold Tender.Cancel. apply gives_bind, gives_check. intros _. apply gives_inside.
  apply gives_bind, gives_lock_session. intros s Hs. destruct (ledger_sessions _ H _ _ Hs) as (Hid & Hf & _).
  subst id. destruct (SessionStatus_Terminal (ts_Status s)) eqn:Hterm; [by apply gives_ret|].
  case_bool_decide as Hcap; [by apply gives_of|]. destruct Hf as (Hv & _ & Hau & _ & _ & Hz). destruct (Hz Hcap) as [Hc Hr].
  assert (Hclosed : forall row, ts_Status row = SessionCanceled -> outstanding row = 0).
  { intros row E. unfold outstanding. by rewrite !decide_False by (rewrite E; done). }
  case_bool_decide as Hpen.
  - apply gives_ignore. apply gives_settle_only; try done; try lia.
    intros row Erow _ _ _ _ _ _. rewrite Hclosed by done. unfold outstanding. rewrite !decide_False by (rewrite Hpen; done). done.
  - assert (Hst : ts_Status s = SessionAuthorized).
    { unfold SessionStatus_Valid, SessionStatus_Terminal in *. apply Contains_spec in Hv.
      apply orb_false_iff in Hterm as [T1%bool_decide_eq_false T2%bool_decide_eq_false].
      rewrite !elem_of_cons in Hv. destruct Hv as [|[|[|[|[|Hv]]]]]; try done. by apply not_elem_of_nil in Hv. }
    assert (Hout : outstanding s = ts_AuthorizedAmount s) by (unfold outstanding; by rewrite decide_True).
    apply gives_bind. destruct (Z.ltb_spec 0 (ts_AuthorizedAmount s)) as [Hpos|Hzero].
    + apply gives_back; [done|by apply list_elem_of_here|intros _; by apply holding_open|].
      intros t1 Er Et Ecl Hnew _ Hmv Hfl. apply gives_ignore.
      eapply (gives_settle t t1 s); [done|done|done|exact Er|done|done|done| |try done; try lia..].
      intros row Erow _ _ _ _ _ _. rewrite Hmv, Hout, Hclosed by done. lia.
    + apply gives_ret, gives_ignore. apply gives_settle_only; try done; try lia.
      intros row Erow _ _ _ _ _ _. rewrite Hclosed, Hout by done. lia.
Qed.

Lemma inspect_keeps id : keeps (@sy_tills W) (Tender.InspectSession m id).
Proof. unfold Tender.InspectSession, Session. keeps_tac. Qed.

(** ** What is not a tender's *)

(** The ledger's part of the tills as it was. *)
Lemma ledger_same t t' : lg_rows L t' = lg_rows L t -> table_of t' = table_of t ->
  (forall k, lg_closed L t' k -> lg_closed L t k) -> LedgerSound t -> LedgerSound t'.
Proof.
  intros Er Et Ecl [H1 H2 H3 H4 H5]. split; rewrite ?Er, ?Et; try done. intros key Hcl%Ecl. by apply H5.
Qed.

(** A row of no session, on an open balance. *)
Lemma ledger_append t t' r : lg_rows L t' = lg_rows L t ++ [r] -> table_of t' = table_of t ->
  (forall k, lg_closed L t' k -> lg_closed L t k) -> row_ok r -> lr_kind r ∉ movements -> ~ lg_closed L t (lr_owner r) ->
  (lg_floor L = true -> 0 <= balance (lr_owner r) (lg_rows L t) + lr_amount r) -> LedgerSound t -> LedgerSound t'.
Proof.
  intros Er Et Ecl Hok Hk Hopen Hfl [H1 H2 H3 H4 H5].
  assert (Hm : forall i, moved i (lg_rows L t') = moved i (lg_rows L t)).
  { intros i. rewrite Er, moved_app. enough (moved i [r] = 0) by lia. apply log_sum_zero.
    intros x ->%list_elem_of_singleton. rewrite decide_False; [done|]. by intros [_ ?]. }
  split.
  - rewrite Er. apply Forall_app. split; [done|]. by apply Forall_singleton.
  - rewrite Et. intros i s Hs. rewrite Hm. by apply H2.
  - rewrite Et. intros i Hi. rewrite Hm. by apply H3.
  - intros Hf key. rewrite Er, balance_app, balance_one. specialize (H4 Hf key). specialize (Hfl Hf).
    case_decide as E; [rewrite E in Hfl; lia|lia].
  - intros key Hcl%Ecl. rewrite Er, Et, balance_app, balance_one. destruct (H5 key Hcl) as [Hb Hh]. split; [|done].
    rewrite decide_False; [lia|]. by intros <-.
Qed.
End Ledger.
