(* ===== verification/PaymentCalls.v ===== *)
(** * Histories of the payment module

    The calls that change the module's tables, with the module's own providers and any other that stays
    out of the books, in any order and with any failures of the database. The books stay sound over every
    history, and every step of one is a sequence of moves. At the end, what a failed call leaves: which
    calls undo everything, and of which units the others are made. *)
From S2P Require Import Prelude GoText Errors Tx Identifiers Database PaymentModels PaymentStore PaymentRules PaymentTills PaymentProviders PaymentService PaymentCredit PaymentMoves PaymentRefines PaymentFrames.

(** ** What else leaves the money alone *)

#[local] Hint Unfold AppendStoreCreditEntry InsertGiftCard DisableGiftCard_ ReplaceGiftCardCode_ AppendGiftCardEntry
  : payment_statements.

Section Aside.
Context {W : Type} `{!Outside W}.
Context (providers : Registry W) (Hq : all_quiet providers).
Abbreviation keeps_books := (keeps (@sy_books W)).
Abbreviation steps_all := (steps (@sy_books W) refines_all).
Abbreviation steps_one := (steps (@sy_books W) refines).

Lemma steps_single {A} (m : tx (Sys W) A) : steps_one m -> steps_all m.
Proof. apply steps_mono, refines_one. Qed.

Lemma steps_kept {A} (m : tx (Sys W) A) : keeps_books m -> steps_all m.
Proof. apply steps_keeps, refines_all_refl. Qed.

Lemma steps_checked {A} c (m : tx (Sys W) A) : steps_all m -> steps_all (tx_check c ≫= fun _ => m).
Proof. intros H. apply steps_before; [apply refines_all_refl|apply keeps_check|done]. Qed.

Lemma one_checked {A} c (m : tx (Sys W) A) : steps_one m -> steps_one (tx_check c ≫= fun _ => m).
Proof. intros H. apply steps_before; [apply refines_refl|apply keeps_check|done]. Qed.

Lemma one_ignored {A} (m : tx (Sys W) A) : steps_one m -> steps_one (ignore m).
Proof. intros H. apply steps_after; [done|]. intros a. apply keeps_ret. Qed.

Definition noted (b : Books) (reports : gmap string SessionReport) (answers : gmap string SessionAnswer) : Prop :=
  map_Forall (noted_report b) reports /\ map_Forall (noted_answer b) answers /\
  forall id, is_Some (bk_answers b !! id) -> is_Some (answers !! id).

(** A write of the reports or of the answers. *)
Lemma steps_note {A} name format a (f : moment -> Books -> answer (Books * A)) :
  (forall now b b' y, f now b = Rows (b', y) ->
    exists reports answers, noted b reports answers /\ b' = set_answers answers (set_reports reports b)) ->
  steps_one (put name format a f).
Proof.
  intros H. apply steps_put; [apply refines_refl|]. intros now b b' y E.
  destruct (H now b b' y E) as (r & an & (H1 & H2 & H3) & ->). intros _. right. by apply move_note.
Qed.

Lemma noted_same b : exists reports answers, noted b reports answers /\ b = set_answers answers (set_reports reports b).
Proof.
  exists (bk_reports b), (bk_answers b). split; [|by destruct b]. split_and!; [..|done]; intros id x Hx; by left.
Qed.

Lemma noted_put_report b r : (is_Some (bk_reports b !! sr_SessionID r) \/ is_Some (bk_sessions b !! sr_SessionID r)) ->
  exists reports answers, noted b reports answers /\
    set_reports (<[sr_SessionID r := r]> (bk_reports b)) b = set_answers answers (set_reports reports b).
Proof.
  intros H. exists (<[sr_SessionID r := r]> (bk_reports b)), (bk_answers b). split; [|done]. split_and!; [|intros id x Hx; by left|done].
  apply map_Forall_insert_2; [by right|]. intros id x Hx. by left.
Qed.

Lemma noted_put_answer b id a : noted_answer b id a ->
  exists reports answers, noted b reports answers /\
    set_answers (<[id := a]> (bk_answers b)) b = set_answers answers (set_reports reports b).
Proof.
  intros H. exists (bk_reports b), (<[id := a]> (bk_answers b)). split; [|by destruct b].
  split_and!; [intros i x Hx; by left|apply map_Forall_insert_2; [done|intros i x Hx; by left]|].
  intros i Hi. apply lookup_insert_is_Some'. by right.
Qed.

Lemma steps_RecordSessionReport id due : steps_one (RecordSessionReport id due).
Proof.
  apply steps_note. intros now b b' y E. destruct (bk_reports b !! id) eqn:Er; [injection E as <- _; apply noted_same|].
  destruct (bk_sessions b !! id) eqn:Es; [|done]. injection E as <- _.
  apply (noted_put_report b (mkSessionReport id _ _ _ _ _ _)). right. cbn. by rewrite Es.
Qed.

Lemma steps_RecordSessionReportAttempt id failure next : steps_one (RecordSessionReportAttempt id failure next).
Proof.
  apply steps_note. intros now b b' y E. destruct (bk_reports b !! id) as [r|] eqn:Er; [|injection E as <- _; apply noted_same].
  case_bool_decide; injection E as <- _; [|apply noted_same].
  apply (noted_put_report b (mkSessionReport id _ _ _ _ _ _)). left. cbn. by rewrite Er.
Qed.

Lemma steps_SettleSessionReport id outcome note : steps_one (SettleSessionReport id outcome note).
Proof.
  apply steps_note. intros now b b' y E. destruct (bk_reports b !! id) as [r|] eqn:Er; [|injection E as <- _; apply noted_same].
  case_bool_decide; [|injection E as <- _; apply noted_same]. apply checked_rows in E as [[= -> _] _].
  apply (noted_put_report b (mkSessionReport id _ _ _ _ _ _)). left. cbn. by rewrite Er.
Qed.

Lemma steps_RecordSessionAnswer id digest : steps_one (RecordSessionAnswer id digest).
Proof.
  apply steps_note. intros now b b' y E. destruct (bk_answers b !! id) eqn:Ea; [done|].
  destruct (bk_sessions b !! id) eqn:Es; [|done]. apply checked_rows in E as [[= -> _] [Hw _]%check_violated_cons].
  apply noted_put_answer. right. left. apply Nat.eqb_eq in Hw. by rewrite Ea, Es.
Qed.

Lemma steps_ClaimSessionAnswer id digest : steps_one (ClaimSessionAnswer id digest).
Proof.
  apply steps_note. intros now b b' y E.
  destruct (bk_answers b !! id) as [[d [at_|]]|] eqn:Ea; [injection E as <- _; apply noted_same| |injection E as <- _; apply noted_same].
  case_bool_decide; injection E as <- _; [|apply noted_same].
  apply noted_put_answer. right. right. by exists (mkSessionAnswer d None).
Qed.

Lemma keeps_providerHolds provider id : keeps_books (providerHolds providers provider id).
Proof.
  unfold providerHolds. destruct (Get providers provider) as [p|e] eqn:E; [|apply keeps_ret].
  destruct (pp_InspectSession p) as [inspect|] eqn:Ei; [|apply keeps_ret].
  intros st. pose proof (out_inspect sy_books p (Hq _ _ E) inspect id Ei st) as H. by destruct (inspect id st) as [st' [i|e]].
Qed.

Lemma keeps_says_paid s : keeps_books (says_paid providers s).
Proof.
  unfold says_paid. case_match; [apply keeps_ret|]. destruct (Get providers _) as [p|e] eqn:E; [|apply keeps_ret].
  destruct (pp_InspectSession p) as [inspect|] eqn:Ei; [|apply keeps_ret].
  intros st. pose proof (out_inspect sy_books p (Hq _ _ E) inspect (ps_ExternalID s) Ei st) as Hi.
  by destruct (inspect _ st) as [st' [i|e]].
Qed.

Lemma steps_report_each due l ids closed : steps_all (report_each due l ids closed).
Proof.
  revert ids closed. induction l as [|s l IH]; intros ids closed; [apply steps_kept, keeps_ret|]. cbn.
  case_match; [|case_match; apply IH].
  apply steps_bind; [apply refines_all_trans|apply steps_single, steps_RecordSessionReport|intros _].
  apply steps_before; [apply refines_all_refl|unfold GetSessionReport; keeps_tac|intros report]. apply IH.
Qed.

Lemma steps_ReportSession provider id : steps_all (ReportSession providers provider id).
Proof.
  unfold ReportSession. do 2 apply steps_checked.
  apply steps_before; [apply refines_all_refl|unfold ListSessionsByExternalID; keeps_tac|intros l].
  apply steps_before; [apply refines_all_refl|apply keeps_clock, _|intros now].
  apply steps_bind; [apply refines_all_trans|apply steps_report_each|intros [ids closed]].
  destruct closed; [|apply steps_kept, keeps_ret]. apply steps_kept.
  apply keeps_bind; [apply keeps_providerHolds|intros held]. keeps_tac.
Qed.

Lemma steps_discover_each due l found : steps_all (discover_each providers due l found).
Proof.
  revert found. induction l as [|s l IH]; intros found; [apply steps_kept, keeps_ret|]. cbn.
  apply steps_bind; [apply refines_all_trans| |intros [b|e]; [apply IH|apply steps_kept, keeps_ret]].
  unfold discover_one. apply steps_before; [apply refines_all_refl|apply keeps_says_paid|intros []];
    [|apply steps_kept, keeps_ret].
  intros st. pose proof (steps_single _ (steps_RecordSessionReport (ps_ID s) due) st) as H.
  by destruct (RecordSessionReport (ps_ID s) due st) as [st' [b|e]].
Qed.

Lemma steps_Discover now : steps_all (DiscoverReportedSessions providers now).
Proof.
  unfold DiscoverReportedSessions. case_match; [apply steps_kept, keeps_ret|].
  apply steps_before; [apply refines_all_refl|unfold ListPendingSessionsForReconciliation; keeps_tac|intros l'].
  apply steps_discover_each.
Qed.

Lemma steps_OpenSessionAnswer id : steps_one (OpenSessionAnswer id).
Proof.
  unfold OpenSessionAnswer. apply one_checked. apply steps_before; [apply refines_refl| |intros secret].
  { intros st. by destruct (out_random _ _) as [w [body|]]. }
  apply steps_after; [apply steps_RecordSessionAnswer|]. intros _. apply keeps_ret.
Qed.

(** ** The balances *)

Lemma keeps_ahead code format given : keeps_books (ahead_check code format given).
Proof. unfold ahead_check. keeps_tac. Qed.

Lemma keeps_draw : keeps_books draw_code.
Proof. intros st. unfold draw_code. by destruct (out_random _ _) as [w [body|]]. Qed.

#[local] Hint Resolve keeps_ahead keeps_draw : keeps.

Lemma keeps_IssueCredit i : keeps_books (IssueCredit i).
Proof. unfold IssueCredit. quiet_tac. Qed.

Lemma keeps_expire_body at_ ref : keeps_books (expire_body at_ ref).
Proof. unfold expire_body. quiet_tac. Qed.

Lemma keeps_ExpireStoreCredit limit : keeps_books (ExpireStoreCredit limit).
Proof.
  unfold ExpireStoreCredit. apply keeps_bind; [apply keeps_check|intros _]. apply keeps_bind; [apply keeps_clock, _|intros at_].
  apply keeps_bind; [quiet_tac|intros l]. generalize 0. induction l as [|ref l IH]; intros n; [apply keeps_ret|].
  cbn. apply keeps_bind; [|intros out; case_match; [apply keeps_ret|apply IH]].
  intros st. pose proof (keeps_WithTx (@sy_books W) false _ (keeps_expire_body at_ ref) st) as H. unfold expire_balance.
  by destruct (WithTx false _ st) as [st' [b|e]].
Qed.

Lemma keeps_issueGiftCard days card amount : keeps_books (issueGiftCard days card amount).
Proof. unfold issueGiftCard. quiet_tac. Qed.

Lemma keeps_IssueGiftCard days i : keeps_books (IssueGiftCard days i).
Proof.
  unfold IssueGiftCard. do 4 (apply keeps_bind; [solve [eauto with keeps]|intros]).
  apply keeps_bind; [apply keeps_issueGiftCard|intros; apply keeps_ret].
Qed.

Lemma keeps_IssueSoldGiftCard days i : keeps_books (IssueSoldGiftCard days i).
Proof. unfold IssueSoldGiftCard. do 3 (apply keeps_bind; [solve [eauto with keeps]|intros]). apply keeps_issueGiftCard. Qed.

Lemma keeps_ReplaceGiftCardCode id : keeps_books (ReplaceGiftCardCode id).
Proof. unfold ReplaceGiftCardCode. quiet_tac. Qed.

Lemma keeps_DisableGiftCard id reason : keeps_books (DisableGiftCard id reason).
Proof. unfold DisableGiftCard. quiet_tac. Qed.

Lemma keeps_ExpireGiftCards limit : keeps_books (ExpireGiftCards limit).
Proof.
  unfold ExpireGiftCards. apply keeps_bind; [apply keeps_check|intros _]. apply keeps_bind; [quiet_tac|intros l].
  generalize 0 at 1. generalize 0. induction l as [|id l IH]; intros h c; [apply keeps_ret|]. intros st. cbn.
  pose proof (keeps_DisableGiftCard id ReasonExpired st) as H. destruct (DisableGiftCard _ _ st) as [st' [b|e]]; cbn in H.
  - by rewrite IH.
  - case_bool_decide; [by rewrite IH|done].
Qed.
End Aside.

(** ** Histories *)

Inductive Call :=
| CallCreateCollection (i : CreateCollectionInput)
| CallCreateSession (collectionID providerID : string) (i : CreateSessionInput)
| CallAuthorizePayment (sessionID : string)
| CallCapturePayment (sessionID : string) (amount : Z)
| CallCancelPayment (sessionID : string)
| CallRefundPayment (paymentID : string) (amount : Z) (reason : string)
| CallRefundCollection (collectionID : string) (amount ceiling : Z) (reason reference : string)
| CallRecordReceived (sessionID : string)
| CallHandleOrderCanceled (eventName orderID : string)
| CallIssueCredit (i : IssueCreditInput)
| CallExpireStoreCredit (limit : Z)
| CallIssueGiftCard (i : IssueGiftCardInput)
| CallIssueSoldGiftCard (i : SoldGiftCardInput)
| CallReplaceGiftCardCode (id : string)
| CallDisableGiftCard (id reason : string)
| CallExpireGiftCards (limit : Z)
| CallReportSession (providerID externalID : string)
| CallDiscoverReportedSessions (now : moment)
| CallReportAttempt (sessionID failure : string) (next : moment)
| CallSettleReport (sessionID outcome note : string)
| CallOpenSessionAnswer (sessionID : string)
| CallClaimAnswer (sessionID secret : string).

Section Histories.
Context {W : Type} `{!Outside W}.
Context (providers : Registry W) (earnBasisPoints giftCardValidityDays : Z).

Definition perform (c : Call) : tx (Sys W) unit :=
  match c with
  | CallCreateCollection i => ignore (CreateCollection i)
  | CallCreateSession coll prov i => ignore (CreateSession providers earnBasisPoints coll prov i)
  | CallAuthorizePayment id => ignore (AuthorizePayment providers earnBasisPoints id)
  | CallCapturePayment id amount => ignore (CapturePayment providers earnBasisPoints id amount)
  | CallCancelPayment id => CancelPayment providers earnBasisPoints id
  | CallRefundPayment id amount reason => ignore (RefundPayment providers earnBasisPoints id amount reason)
  | CallRefundCollection id amount ceiling reason reference =>
      ignore (RefundCollection providers earnBasisPoints id amount ceiling reason reference)
  | CallRecordReceived id => ignore (RecordReceived providers earnBasisPoints id)
  | CallHandleOrderCanceled event order => HandleOrderCanceled providers earnBasisPoints event order
  | CallIssueCredit i => ignore (IssueCredit i)
  | CallExpireStoreCredit limit => ignore (ExpireStoreCredit limit)
  | CallIssueGiftCard i => ignore (IssueGiftCard giftCardValidityDays i)
  | CallIssueSoldGiftCard i => ignore (IssueSoldGiftCard giftCardValidityDays i)
  | CallReplaceGiftCardCode id => ignore (ReplaceGiftCardCode id)
  | CallDisableGiftCard id reason => ignore (DisableGiftCard id reason)
  | CallExpireGiftCards limit => ignore (ExpireGiftCards limit)
  | CallReportSession prov id => ignore (ReportSession providers prov id)
  | CallDiscoverReportedSessions now => ignore (DiscoverReportedSessions providers now)
  | CallReportAttempt id failure next => ReportAttempt id failure next
  | CallSettleReport id outcome note => SettleReport id outcome note
  | CallOpenSessionAnswer id => ignore (OpenSessionAnswer id)
  | CallClaimAnswer id secret => ignore (ClaimAnswer id secret)
  end.

(** A call, or something that happens outside: time passes, another institution moves. *)
Inductive happens (st : Sys W) : Sys W -> Prop :=
| happens_call c : happens st (perform c st).1
| happens_outside w : happens st (set_outside w st).

Lemma steps_ignored {A} (m : tx (Sys W) A) : steps (@sy_books W) refines_all m -> steps (@sy_books W) refines_all (ignore m).
Proof. intros H. apply steps_after; [done|]. intros a. apply keeps_ret. Qed.

Lemma steps_RecordReceived (Hq : all_quiet providers) id : steps (@sy_books W) refines (RecordReceived providers earnBasisPoints id).
Proof.
  unfold RecordReceived, GetSession, GetPaymentSession.
  apply steps_before; [apply refines_refl|keeps_tac|intros s].
  apply steps_before; [apply refines_refl|apply keeps_of|intros prov].
  apply steps_before; [apply refines_refl|apply keeps_check|intros _]. by apply steps_CapturePayment.
Qed.

Lemma steps_perform (Hq : all_quiet providers) c : steps (@sy_books W) refines_all (perform c).
Proof.
  destruct c; cbn [perform]; try apply steps_ignored.
  - apply steps_single, steps_CreateCollection.
  - by apply steps_single, steps_CreateSession.
  - by apply steps_single, steps_AuthorizePayment.
  - by apply steps_single, steps_CapturePayment.
  - by apply steps_single, steps_CancelPayment.
  - by apply steps_single, steps_refundPayment.
  - by apply steps_RefundCollection.
  - by apply steps_single, steps_RecordReceived.
  - by apply steps_HandleOrderCanceled.
  - apply steps_kept, keeps_IssueCredit.
  - apply steps_kept, keeps_ExpireStoreCredit.
  - apply steps_kept, keeps_IssueGiftCard.
  - apply steps_kept, keeps_IssueSoldGiftCard.
  - apply steps_kept, keeps_ReplaceGiftCardCode.
  - apply steps_kept, keeps_DisableGiftCard.
  - apply steps_kept, keeps_ExpireGiftCards.
  - by apply steps_ReportSession.
  - by apply steps_Discover.
  - apply steps_single, steps_RecordSessionReportAttempt.
  - apply steps_checked, steps_ignored, steps_single, steps_SettleSessionReport.
  - apply steps_single, steps_OpenSessionAnswer.
  - apply steps_checked, steps_single, steps_ClaimSessionAnswer.
Qed.

Lemma history_moves (Hq : all_quiet providers) st st' : rtc happens st st' -> refines_all (sy_books st) (sy_books st').
Proof.
  induction 1 as [st|st st1 st2 Hstep _ IH]; [apply refines_all_refl|].
  eapply refines_all_trans; [|exact IH]. destruct Hstep as [c|w]; [by apply steps_perform|apply refines_all_refl].
Qed.
End Histories.

(** ** Failed calls *)

(** The calls that are one transaction or one statement of the payment module. Of the others a refund of
    a collection, a canceled order and the passes over credit, cards and reports go unit by unit; a new gift
    card code is a write and a read after it; a declined authorization is recorded. *)
Definition one_transaction (c : Call) : bool :=
  match c with
  | CallCreateCollection _ | CallCreateSession _ _ _ | CallCapturePayment _ _ | CallCancelPayment _
  | CallRefundPayment _ _ _ | CallRecordReceived _ | CallIssueCredit _ | CallIssueGiftCard _ | CallIssueSoldGiftCard _
  | CallDisableGiftCard _ _ | CallReportAttempt _ _ _ | CallSettleReport _ _ _ | CallOpenSessionAnswer _
  | CallClaimAnswer _ _ => true
  | _ => false
  end.

Section Failures.
Context {W : Type} `{!Outside W}.

Lemma ignored_state {A} (m : tx (Sys W) A) st : (ignore m st).1 = (m st).1.
Proof. unfold ignore, mbind, tx_bind. by destruct (m st) as [st1 [a|e]]. Qed.

Lemma ignored_failure {A} (m : tx (Sys W) A) st st' e : ignore m st = (st', Fail e) -> m st = (st', Fail e).
Proof. unfold ignore, mbind, tx_bind. destruct (m st) as [st1 [a|e1]]; [done|]. by intros [= -> ->]. Qed.

Context (providers : Registry W) (earnBasisPoints giftCardValidityDays : Z).

Lemma keeps_session_read id : keeps (@tables W) (GetPaymentSession id).
Proof. unfold GetPaymentSession. keeps_tac. Qed.

Lemma keeps_provider_read id : keeps (@tables W) (providerForSession providers id).
Proof. unfold providerForSession. apply keeps_bind; [apply keeps_session_read|intros; apply keeps_of]. Qed.

#[local] Hint Resolve keeps_session_read keeps_provider_read : keeps.

Lemma undone_create_collection i : undone (@tables W) (CreateCollection i).
Proof. unfold CreateCollection, CreatePaymentCollection, put. undone_tac. Qed.

Lemma undone_create_session coll prov i : undone (@tables W) (CreateSession providers earnBasisPoints coll prov i).
Proof. unfold CreateSession. undone_tac. Qed.

Lemma undone_capture id amount : undone (@tables W) (CapturePayment providers earnBasisPoints id amount).
Proof. unfold CapturePayment. undone_tac. Qed.

Lemma undone_cancel id : undone (@tables W) (CancelPayment providers earnBasisPoints id).
Proof. unfold CancelPayment. undone_tac. Qed.

Lemma undone_refund_of id amount reason reference ceiling :
  undone (@tables W) (refundPayment providers earnBasisPoints id amount reason reference ceiling).
Proof.
  unfold refundPayment. do 4 (apply undone_before; [apply keeps_check|intros ?]).
  apply undone_before; [unfold GetPayment; keeps_tac|intros p]. undone_tac.
Qed.

Lemma undone_refund id amount reason : undone (@tables W) (RefundPayment providers earnBasisPoints id amount reason).
Proof. apply undone_refund_of. Qed.

Lemma undone_received id : undone (@tables W) (RecordReceived providers earnBasisPoints id).
Proof.
  unfold RecordReceived, GetSession. do 3 (apply undone_before; [keeps_tac|intros ?]). apply undone_capture.
Qed.

Lemma keeps_ahead_tables code format given : keeps (@tables W) (ahead_check code format given).
Proof. unfold ahead_check. keeps_tac. Qed.

Lemma keeps_draw_tables : keeps (@tables W) draw_code.
Proof. intros st. unfold draw_code. by destruct (out_random _ _) as [w [body|]]. Qed.

#[local] Hint Resolve keeps_ahead_tables keeps_draw_tables : keeps.

Lemma undone_issue_credit i : undone (@tables W) (IssueCredit i).
Proof. unfold IssueCredit, AppendStoreCreditEntry, till. undone_tac. Qed.

Lemma undone_issue_card days card amount : undone (@tables W) (issueGiftCard days card amount).
Proof. unfold issueGiftCard. undone_tac. Qed.

Lemma undone_disable_card id reason : undone (@tables W) (DisableGiftCard id reason).
Proof. unfold DisableGiftCard. undone_tac. Qed.
Lemma undone_transactional c : one_transaction c = true -> undone (@tables W) (perform providers earnBasisPoints giftCardValidityDays c).
Proof.
  destruct c; intros [=]; cbn [perform]; try apply undone_ignore.
  - apply undone_create_collection.
  - apply undone_create_session.
  - apply undone_capture.
  - apply undone_cancel.
  - apply undone_refund.
  - apply undone_received.
  - apply undone_issue_credit.
  - unfold IssueGiftCard. do 4 (apply undone_before; [solve [eauto with keeps]|intros ?]).
    apply undone_after; [apply undone_issue_card|by intros].
  - unfold IssueSoldGiftCard. do 3 (apply undone_before; [solve [eauto with keeps]|intros ?]). apply undone_issue_card.
  - apply undone_disable_card.
  - unfold RecordSessionReportAttempt, put. undone_tac.
  - unfold SettleReport. apply undone_before; [apply keeps_check|intros _]. unfold SettleSessionReport, put. undone_tac.
  - unfold OpenSessionAnswer. apply undone_before; [apply keeps_check|intros _]. apply undone_before.
    { intros st. by destruct (out_random _ _) as [w [body|]]. }
    intros secret. apply undone_after; [unfold RecordSessionAnswer, put; undone_tac|done].
  - unfold ClaimAnswer. apply undone_before; [apply keeps_check|intros _]. unfold ClaimSessionAnswer, put. undone_tac.
Qed.

(** A refused authorization of sound books is a decline, recorded on the session. *)
Definition declined (id : string) (e : err) (st st' : Sys W) : Prop :=
  CodeOf e = CodeAuthorizationDeclined /\ KindOf e = KindConflict /\ move (sy_books st) (sy_books st') /\
  exists s, bk_sessions (sy_books st') !! id = Some s /\ ps_Status s = SessionFailed /\ ps_AuthorizedAmount s = 0.

Lemma authorize_inside (Hq : all_quiet providers) b prov id : quiet prov -> Sound b ->
  gives (@sy_books W) b (
    cs ← lockCollectionAndSession id;
    let '(col, s) := cs in
    match AuthorizeAction (ps_Status s) with
    | ActionNoop => mret (inl s)
    | ActionConflict => tx_of (Fail (conflictTransition "cannot be authorized" s))
    | ActionProceed => authorize_session earnBasisPoints prov col s
    end)
    (fun out b' => match out with
      | inl _ => True
      | inr u => move b b' /\ bk_sessions b' !! id = Some u /\ ps_Status u = SessionFailed /\ ps_AuthorizedAmount u = 0
      end).
Proof.
  intros Hp H. apply gives_bind, gives_lock. intros col s Hs Hc Eid.
  pose proof (put_session_same _ _ _ _ H Hs) as Es.
  destruct (AuthorizeAction (ps_Status s)) eqn:Ha; [by apply gives_of| |by apply gives_ret].
  rewrite <- Es in Hs. eapply gives_mono; [apply gives_authorize; try done|].
  - unfold AuthorizeAction in Ha. by repeat case_bool_decide.
  - intros [u|u] b' [Hm Hr]; [done|]. rewrite <- Es. by destruct Hr as (? & ? & ?).
Qed.

Lemma authorize_failure (Hq : all_quiet providers) id st st' e : Sound (sy_books st) ->
  AuthorizePayment providers earnBasisPoints id st = (st', Fail e) -> tables st' = tables st \/ declined id e st st'.
Proof.
  intros H. unfold AuthorizePayment, mbind at 1 2, tx_bind. destruct (tx_check _ st) as [st1 [[]|e1]] eqn:E1; [|intros [= <- _]; left].
  2: { pose proof (keeps_check (@tables W) (requireText "payment_session_id" id) st) as Hk. by rewrite E1 in Hk. }
  pose proof (keeps_check (@tables W) (requireText "payment_session_id" id) st) as Hk1. rewrite E1 in Hk1. cbn in Hk1.
  pose proof (keeps_provider_read id st1) as Hk2. destruct (providerForSession providers id st1) as [st2 [prov|e2]] eqn:E2; cbn in Hk2.
  2: { intros [= <- _]. left. congruence. }
  pose proof (providerForSession_quiet providers Hq _ _ _ _ E2) as Hp.
  assert (Hb : tables st2 = tables st) by congruence. unfold mbind, tx_bind.
  set (body := fun st => _). destruct (WithTx false _ st2) as [st3 [[u|u]|e3]] eqn:E3; [done| |].
  - intros [= <- <-]. right. assert (Eb : sy_books st2 = sy_books st) by by injection Hb.
    pose proof (gives_outside (@sy_books W) _ _ _ (authorize_inside Hq (sy_books st) prov id Hp H) st2 st3 (inr u) Eb E3)
      as (Hm & Hs & Hst & Hz).
    split; [done|]. split; [done|]. split; [done|]. by exists u.
  - intros [= <- _]. left. rewrite <- Hb. by eapply undone_transaction.
Qed.

(** ** Calls of several units *)

(** A run that succeeded, by the tables around it. *)
Definition completed {A} (m : tx (Sys W) A) (t t' : Books * Tills) : Prop :=
  exists st st' a, tables st = t /\ tables st' = t' /\ m st = (st', Ok a).

(** What each of these calls commits at a time: a refund, a cancellation, an expired balance, a closed
    gift card, an opened report. *)
Definition unit_of (c : Call) (t t' : Books * Tills) : Prop :=
  match c with
  | CallRefundCollection _ _ ceiling reason reference => exists id amount,
      completed (refundPayment providers earnBasisPoints id amount reason reference ceiling) t t'
  | CallHandleOrderCanceled _ _ => exists id, completed (CancelPayment providers earnBasisPoints id) t t'
  | CallExpireStoreCredit _ => exists at_ ref, completed (WithTx false (expire_body at_ ref)) t t'
  | CallExpireGiftCards _ => exists id, completed (DisableGiftCard id ReasonExpired) t t'
  | CallReportSession _ _ | CallDiscoverReportedSessions _ => exists id due, completed (RecordSessionReport id due) t t'
  | _ => False
  end.

Definition by_units (c : Call) : bool :=
  match c with
  | CallRefundCollection _ _ _ _ _ | CallHandleOrderCanceled _ _ | CallExpireStoreCredit _ | CallExpireGiftCards _
  | CallReportSession _ _ | CallDiscoverReportedSessions _ => true
  | _ => false
  end.

(** Asking a provider about a session reads. *)
Definition asking_reads : Prop := forall id p inspect session,
  Get providers id = Ok p -> pp_InspectSession p = Some inspect -> keeps (@tables W) (inspect session).

Lemma asking_in_module json_error p inspect session : in_module json_error p -> pp_InspectSession p = Some inspect ->
  keeps (@tables W) (inspect session).
Proof.
  intros [-> | [[method ->] | [-> | [-> | ->]]]]; intros [= <-].
  - unfold Manual.InspectSession, Manual.GetSession. quiet_tac.
  - unfold Tender.InspectSession. quiet_tac.
  - unfold Tender.InspectSession. quiet_tac.
  - unfold Tender.InspectSession. quiet_tac.
Qed.

Abbreviation units R := (steps (@tables W) (rtc R)).

Lemma unit_once {A} (R : Books * Tills -> Books * Tills -> Prop) (m : tx (Sys W) A) st :
  undone (@tables W) m -> (forall t t', completed m t t' -> R t t') -> rtc R (tables st) (tables (m st).1).
Proof.
  intros Hm HR. destruct (m st) as [st' [a|e]] eqn:E; cbn [fst].
  - apply rtc_once, HR. by exists st, st', a.
  - by rewrite (Hm _ _ _ E).
Qed.

Lemma units_read {A B} R (m : tx (Sys W) A) (f : A -> tx (Sys W) B) :
  keeps (@tables W) m -> (forall a, units R (f a)) -> units R (m ≫= f).
Proof. apply steps_before. intros t. apply rtc_refl. Qed.

Lemma units_still {A} R (m : tx (Sys W) A) : keeps (@tables W) m -> units R m.
Proof. apply steps_keeps. intros t. apply rtc_refl. Qed.

Lemma units_refund_each coll amount' reason reference ceiling planned plan made :
  units (unit_of (CallRefundCollection coll amount' ceiling reason reference))
    (refund_each providers earnBasisPoints coll planned reason reference ceiling plan made).
Proof.
  revert made. induction plan as [|[id amount] plan IH]; intros made st; [apply rtc_refl|]. cbn [refund_each].
  pose proof (unit_once (unit_of (CallRefundCollection coll amount' ceiling reason reference)) _ st
    (undone_refund_of id amount reason reference ceiling)) as Hu.
  destruct (refundPayment _ _ _ _ _ _ _ st) as [st' [r|e]]; cbn [fst] in Hu.
  - etrans; [apply Hu; by exists id, amount|]. apply IH.
  - destruct made; cbn [fst]; apply Hu; by exists id, amount.
Qed.

Lemma units_cancel_held event order l :
  units (unit_of (CallHandleOrderCanceled event order)) (cancel_held providers earnBasisPoints l).
Proof.
  induction l as [|s l IH]; intros st; [apply rtc_refl|]. cbn [cancel_held]. case_bool_decide; [|apply IH]. cbn [negb].
  pose proof (unit_once (unit_of (CallHandleOrderCanceled event order)) _ st (undone_cancel (ps_ID s))) as Hu.
  destruct (CancelPayment _ _ _ st) as [st' [u|e]]; cbn [fst] in Hu.
  - etrans; [apply Hu; by exists (ps_ID s)|]. apply IH.
  - case_bool_decide; [etrans; [|apply IH]|cbn [fst]]; apply Hu; by exists (ps_ID s).
Qed.

Lemma units_canceled event order :
  units (unit_of (CallHandleOrderCanceled event order)) (HandleOrderCanceled providers earnBasisPoints event order).
Proof.
  unfold HandleOrderCanceled. apply units_read; [apply keeps_check|intros _]. apply units_read; [apply keeps_read|intros l].
  induction l as [|c l IH]; [apply units_still, keeps_ret|]. cbn.
  apply units_read; [unfold ListPaymentSessionsByCollection; keeps_tac|intros sessions].
  apply steps_bind; [intros x y z; apply rtc_trans|apply units_cancel_held|]. intros []. apply IH.
Qed.

Lemma units_expire limit : units (unit_of (CallExpireStoreCredit limit)) (ExpireStoreCredit limit).
Proof.
  unfold ExpireStoreCredit. apply units_read; [apply keeps_check|intros _]. apply units_read; [apply keeps_clock, _|intros at_].
  apply units_read; [unfold StoreCreditExpiryDue; keeps_tac|intros l]. generalize 0.
  induction l as [|ref l IH]; intros n st; [apply rtc_refl|]. cbn [expire_balances]. unfold mbind, tx_bind, expire_balance.
  pose proof (unit_once (unit_of (CallExpireStoreCredit limit)) _ st (undone_transaction (expire_body at_ ref))) as Hu.
  destruct (WithTx false _ st) as [st' [wrote|e]]; cbn [fst snd] in *.
  - etrans; [apply Hu; by exists at_, ref|]. apply IH.
  - apply Hu. by exists at_, ref.
Qed.

Lemma units_expire_cards limit : units (unit_of (CallExpireGiftCards limit)) (ExpireGiftCards limit).
Proof.
  unfold ExpireGiftCards. apply units_read; [apply keeps_check|intros _].
  apply units_read; [unfold ExpiredOpenGiftCards; keeps_tac|intros l]. generalize 0 at 1. generalize 0.
  induction l as [|id l IH]; intros h n st; [apply rtc_refl|]. cbn [expire_cards].
  pose proof (unit_once (unit_of (CallExpireGiftCards limit)) _ st (undone_disable_card id ReasonExpired)) as Hu.
  destruct (DisableGiftCard _ _ st) as [st' [card|e]]; cbn [fst] in Hu.
  - etrans; [apply Hu; by exists id|]. apply IH.
  - case_bool_decide; [etrans; [|apply IH]|cbn [fst]]; apply Hu; by exists id.
Qed.

Lemma undone_report id due : undone (@tables W) (RecordSessionReport id due).
Proof. unfold RecordSessionReport, put. undone_tac. Qed.

Lemma units_report (Hasks : asking_reads) provider id :
  units (unit_of (CallReportSession provider id)) (ReportSession providers provider id).
Proof.
  unfold ReportSession. do 2 (apply units_read; [apply keeps_check|intros _]).
  apply units_read; [unfold ListSessionsByExternalID; keeps_tac|intros l].
  apply units_read; [apply keeps_clock, _|intros now].
  apply steps_bind; [intros x y z; apply rtc_trans| |intros [ids closed]].
  - match goal with |- context [report_each _ _ _ ?b] => generalize b end. generalize (@nil string).
    induction l as [|s l IH]; intros ids closed; [apply units_still, keeps_ret|]. cbn [report_each].
    case_match; [|case_match; apply IH]. apply steps_bind; [intros x y z; apply rtc_trans| |intros _].
    + intros st. apply unit_once; [apply undone_report|]. intros t t' Ht. by eexists _, _.
    + apply units_read; [unfold GetSessionReport; keeps_tac|intros report; apply IH].
  - destruct closed; [|apply units_still, keeps_ret]. apply units_still. apply keeps_bind; [|intros held; keeps_tac].
    unfold providerHolds. destruct (Get providers provider) as [p|e] eqn:E; [|apply keeps_ret].
    destruct (pp_InspectSession p) as [inspect|] eqn:Ei; [|apply keeps_ret].
    intros st. pose proof (Hasks _ _ inspect id E Ei st) as Hk. by destruct (inspect id st) as [st' [i|e]].
Qed.

Lemma units_discover (Hasks : asking_reads) now :
  units (unit_of (CallDiscoverReportedSessions now)) (DiscoverReportedSessions providers now).
Proof.
  unfold DiscoverReportedSessions. case_match; [apply units_still, keeps_ret|].
  apply units_read; [unfold ListPendingSessionsForReconciliation; keeps_tac|intros l']. generalize (@nil string).
  induction l' as [|ses l' IH]; intros found; [apply units_still, keeps_ret|]. cbn [discover_each].
  apply steps_bind; [intros x y z; apply rtc_trans| |intros [b|e]; [apply IH|apply units_still, keeps_ret]].
  unfold discover_one. apply units_read; [|intros []; [|apply units_still, keeps_ret]].
  - unfold says_paid. case_match; [apply keeps_ret|]. destruct (Get providers _) as [p|e] eqn:E; [|apply keeps_ret].
    destruct (pp_InspectSession p) as [inspect|] eqn:Ei; [|apply keeps_ret].
    intros st. pose proof (Hasks _ _ inspect (ps_ExternalID ses) E Ei st) as Hk. by destruct (inspect _ st) as [st' [i|e]].
  - intros st. pose proof (unit_once (unit_of (CallDiscoverReportedSessions now)) _ st
      (undone_report (ps_ID ses) (now + ReportFirstRetry))) as Hu.
    destruct (RecordSessionReport _ _ st) as [st' [b|e]]; cbn [fst] in *; apply Hu; intros t t' Ht; by eexists _, _.
Qed.

Lemma units_perform (Hasks : asking_reads) c : by_units c = true ->
  units (unit_of c) (perform providers earnBasisPoints giftCardValidityDays c).
Proof.
  destruct c; intros [=]; cbn [perform]; try (apply steps_after; [|intros a; apply keeps_ret]).
  - unfold RefundCollection. do 6 (apply units_read; [apply keeps_check|intros _]).
    apply units_read; [unfold ListPaymentsByCollection; keeps_tac|intros l].
    apply units_read; [unfold RefundedForReference; keeps_tac|intros given].
    do 2 (apply units_read; [apply keeps_of|intros ?]). apply units_refund_each.
  - apply units_canceled.
  - apply units_expire.
  - apply units_expire_cards.
  - by apply units_report.
  - by apply units_discover.
Qed.

(** A new code that fails: nothing, or the code written and the read after it failed. *)
Definition code_replaced (id : string) (t t' : Books * Tills) : Prop :=
  exists digest tail, completed (ReplaceGiftCardCode_ id digest tail) t t'.

Lemma replace_left id :
  steps (@tables W) (fun t t' => t' = t \/ code_replaced id t t') (ReplaceGiftCardCode id).
Proof.
  assert (HR : forall t : Books * Tills, t = t \/ code_replaced id t t) by by left.
  unfold ReplaceGiftCardCode. apply steps_before; [exact HR|apply keeps_check|intros _].
  apply steps_before; [exact HR|unfold GiftCard_; keeps_tac|intros current].
  apply steps_before; [exact HR|apply keeps_check|intros _].
  apply steps_before; [exact HR|apply keeps_draw_tables|intros code].
  apply steps_after; [|intros card; unfold GiftCardBalance; keeps_tac].
  intros st. destruct (ReplaceGiftCardCode_ _ _ _ st) as [st' [card|e]] eqn:E; cbn [fst].
  - right. eexists _, _. by exists st, st', card.
  - left. revert E. apply undone_one; [apply undone_statement|]. clear. intros st st'.
    unfold till, statement. destruct (out_fault _ _) as [w [d|]]; [done|].
    destruct (tl_cards (sy_tills st) !! id) as [card|]; [|by intros [= <-]].
    destruct (card_of_digest _ _) as [other|]; [case_bool_decide; [|done]|]; unfold checked; by destruct (check_violated _).
Qed.
End Failures.
