(* ===== verification/PaymentTenders.v ===== *)
(** * Store credit, loyalty points and gift cards

    The three ledgers behind the balance tenders ([storecredit/storecredit.go], [loyaltypoints/loyaltypoints.go],
    [giftcard/giftcard.go]) as instances of [PaymentLedger.Ledger], and what the service itself writes in
    them: issues, expiries, voids, earned and reversed points. *)
From S2P Require Import Prelude GoText Errors Tx Identifiers Database PaymentModels PaymentStore PaymentRules PaymentTills PaymentProviders PaymentService PaymentCredit PaymentMoves PaymentRefines PaymentFrames PaymentLedger PaymentCalls.

(** ** The three ledgers as rows *)

Definition credit_row (e : StoreCreditEntry) : lrow :=
  mkRow (sc_CustomerID e, sc_CurrencyCode e) (sc_Kind e) (sc_Amount e) (sc_Reference e).
Definition points_row (e : LoyaltyEntry) : lrow :=
  mkRow (ly_CustomerID e, ly_CurrencyCode e) (ly_Kind e) (ly_Points e) (ly_Reference e).
Definition card_row (e : GiftCardEntry) : lrow :=
  mkRow (ge_GiftCardID e, EmptyString) (ge_Kind e) (ge_Amount e) (ge_Reference e).

Definition credit_rows (t : Tills) : list lrow := credit_row <$> tl_credit t.
Definition points_rows (t : Tills) : list lrow := points_row <$> tl_points t.
Definition card_rows (t : Tills) : list lrow := card_row <$> tl_card_entries t.

Definition card_key (id currency : string) : string * string := (id, EmptyString).

(** A filtered sum is the balance of its key. *)
Lemma balance_filter {A} (row : A -> lrow) (P : A -> Prop) `{!forall x, Decision (P x)} (key : string * string) l :
  (forall x, P x <-> lr_owner (row x) = key) ->
  log_sum (fun x => lr_amount (row x)) (filter P l) = balance key (row <$> l).
Proof.
  intros HP. unfold balance, log_sum. induction l as [|x l IH]; [done|].
  rewrite filter_cons, !fmap_cons, sumZ_cons, <- IH. specialize (HP x).
  destruct (decide (P x)), (decide (lr_owner (row x) = key)); try tauto; rewrite ?fmap_cons, ?sumZ_cons; lia.
Qed.

Lemma credit_balance customer currency t :
  log_sum sc_Amount (credit_of customer currency t) = balance (customer, currency) (credit_rows t).
Proof.
  unfold credit_of, credit_rows. rewrite <- (balance_filter credit_row (fun e => sc_CustomerID e = customer /\ sc_CurrencyCode e = currency)); [done|].
  intros x. cbn. split; [by intros [-> ->]|by intros [= -> ->]].
Qed.

Lemma points_balance customer currency t :
  log_sum ly_Points (points_of customer currency t) = balance (customer, currency) (points_rows t).
Proof.
  unfold points_of, points_rows. rewrite <- (balance_filter points_row (fun e => ly_CustomerID e = customer /\ ly_CurrencyCode e = currency)); [done|].
  intros x. cbn. split; [by intros [-> ->]|by intros [= -> ->]].
Qed.

Lemma card_balance_row id t : card_balance id t = balance (id, EmptyString) (card_rows t).
Proof.
  unfold card_balance, card_rows. rewrite <- (balance_filter card_row (fun e => ge_GiftCardID e = id)); [done|].
  intros x. cbn. split; [by intros ->|by intros [= ->]].
Qed.

(** ** Appending *)

Section Balances.
Context {W : Type} `{!Outside W}.
Abbreviation gives_tills := (gives (@sy_tills W)).

Lemma signed_row negative kind amount owner session :
  signed negative kind amount = true -> (kind ∈ negative <-> kind ∈ taking) -> row_ok (mkRow owner kind amount session).
Proof.
  unfold signed, row_ok, Contains. cbn. intros H E. destruct (decide (kind ∈ taking)).
  - rewrite bool_decide_true in H by tauto. by apply Z.ltb_lt.
  - rewrite bool_decide_false in H by tauto. by apply Z.ltb_lt.
Qed.

Lemma kinds_agree (kinds negative : list string) kind : Contains kinds kind = true ->
  forallb (fun k => Bool.eqb (Contains negative k) (Contains taking k)) kinds = true -> kind ∈ negative <-> kind ∈ taking.
Proof.
  intros Hk%Contains_spec Hall. rewrite forallb_forall in Hall. apply list_elem_of_In, Hall, eqb_prop in Hk.
  rewrite <- !Contains_spec. by rewrite Hk.
Qed.

Lemma gives_append_credit t e (Q : StoreCreditEntry -> Tills -> Prop) :
  (forall now, let row := mkStoreCreditEntry (sc_ID e) (sc_CustomerID e) (sc_CurrencyCode e) (sc_Amount e) (sc_Kind e)
      (sc_Reference e) (sc_Reason e) (sc_ExpiresAt e) (sc_OrderID e) now in
    row_ok (credit_row e) -> Q row (set_credit (tl_credit t ++ [row]) t)) ->
  gives_tills t (AppendStoreCreditEntry e) Q.
Proof.
  intros H. apply gives_till. intros now t' y E. case_bool_decide; [done|].
  apply checked_rows in E as [[= -> ->] Hok]. unfold credit_checks in Hok. rewrite !check_violated_cons in Hok.
  destruct Hok as (_ & _ & _ & _ & Hkind & _ & Hsign & _). apply H.
  apply (signed_row _ _ _ _ _ Hsign), (kinds_agree _ _ _ Hkind). reflexivity.
Qed.

Lemma gives_append_points t e (Q : LoyaltyEntry -> Tills -> Prop) :
  (forall now, let row := mkLoyaltyEntry (ly_ID e) (ly_CustomerID e) (ly_CurrencyCode e) (ly_Points e) (ly_Kind e)
      (ly_Reference e) now in
    row_ok (points_row e) -> Q row (set_points (tl_points t ++ [row]) t)) ->
  gives_tills t (AppendLoyaltyEntry e) Q.
Proof.
  intros H. apply gives_till. intros now t' y E. case_bool_decide; [done|].
  apply checked_rows in E as [[= -> ->] Hok]. unfold point_checks in Hok. rewrite !check_violated_cons in Hok.
  destruct Hok as (_ & _ & Hkind & _ & _ & Hsign & _). apply H.
  apply (signed_row _ _ _ _ _ Hsign), (kinds_agree _ _ _ Hkind). reflexivity.
Qed.

Lemma gives_append_card t e (Q : GiftCardEntry -> Tills -> Prop) :
  (forall now, let row := mkGiftCardEntry (ge_ID e) (ge_GiftCardID e) (ge_Amount e) (ge_Kind e) (ge_Reference e) now in
    row_ok (card_row e) -> is_Some (tl_cards t !! ge_GiftCardID e) ->
    Q row (set_card_entries (tl_card_entries t ++ [row]) t)) ->
  gives_tills t (AppendGiftCardEntry e) Q.
Proof.
  intros H. apply gives_till. intros now t' y E. case_bool_decide; [done|]. destruct (negb _); [done|].
  destruct (negb _); [done|]. case_bool_decide as Hcard; [done|].
  apply checked_rows in E as [[= -> ->] Hok]. unfold card_entry_checks in Hok. rewrite !check_violated_cons in Hok.
  destruct Hok as (_ & Hkind & _ & Hsign & _). apply H; [|by destruct (tl_cards t !! _)].
  apply (signed_row _ _ _ _ _ Hsign), (kinds_agree _ _ _ Hkind). reflexivity.
Qed.

(** ** The instances *)

Lemma Due_nonneg f : 0 <= Due f.
Proof. unfold Due. lia. Qed.

Lemma Due_le f : in_int64 (Due f).
Proof. unfold Due. pose proof (sub64_in (ef_Balance f) (ef_Unexpired f)). pose proof (sub64_in (ef_Expired f) (ef_Written f)). in64. Qed.

Lemma to_bigint_in z x : to_bigint z = Rows x -> in_int64 z.
Proof.
  unfold to_bigint. destruct (Z.leb_spec int64_min z), (Z.leb_spec z int64_max); cbn; [|done..]. intros _. by split.
Qed.

Lemma figures_fit_ok f y : figures_fit f = Rows y ->
  y = f /\ in_int64 (ef_Balance f) /\ in_int64 (ef_Unexpired f) /\ in_int64 (ef_Expired f) /\ in_int64 (ef_Written f).
Proof.
  unfold figures_fit. destruct (to_bigint (ef_Balance f)) eqn:E1; [|done]. destruct (to_bigint (ef_Unexpired f)) eqn:E2; [|done].
  destruct (to_bigint (ef_Expired f)) eqn:E3; [|done]. destruct (to_bigint (ef_Written f)) eqn:E4; [|done].
  intros [= <-]. eauto 10 using to_bigint_in.
Qed.

(** The figures that fit are the sums. *)
Lemma gives_figures t ref at_ (Q : StoreCreditExpiryFigures -> Tills -> Prop) :
  (let f := expiry_figures at_ (credit_of (fst ref) (snd ref) t) in
   in_int64 (ef_Balance f) -> in_int64 (ef_Unexpired f) -> in_int64 (ef_Expired f) -> in_int64 (ef_Written f) -> Q f t) ->
  gives_tills t (StoreCreditExpiryFigures_ ref at_) Q.
Proof.
  intros H. apply gives_ask_tills. intros now b y (-> & H1 & H2 & H3 & H4)%figures_fit_ok. by apply H.
Qed.

Lemma gives_classify_again {A} t format (m : tx (Sys W) A) Q : gives_tills t m Q -> gives_tills t (classify_again format m) Q.
Proof.
  intros H st st' a Et. unfold classify_again. destruct (m st) as [st1 [x|e]] eqn:E; [|done]. intros [= <- <-]. by eapply H.
Qed.

Lemma gives_credit_balance o c t : 0 <= balance (o, c) (credit_rows t) ->
  gives_tills t (StoreCreditBalance o c) (fun x t' => t' = t /\ x <= balance (o, c) (credit_rows t)).
Proof.
  intros Hb. apply gives_bind, gives_keep; [apply keeps_clock, _|]. intros at_. apply gives_bind, gives_classify_again, gives_figures.
  intros f Hf _ _ _. apply gives_ret. split; [done|]. rewrite <- (credit_balance o c t) in *. change (log_sum sc_Amount _) with (ef_Balance f) in *.
  pose proof (Due_nonneg f). pose proof (Due_le f). rewrite sub64_exact by in64. lia.
Qed.

Definition nothing_closed (t : Tills) (key : string * string) : Prop := False.

Definition card_closed (t : Tills) (key : string * string) : Prop :=
  exists id c, key = (id, EmptyString) /\ tl_cards t !! id = Some c /\ gc_DisabledAt c <> None.

Definition credit_ledger : Ledger (Tender.StoreCredit : Tender.Machine W).
Proof.
  refine (mkLedger _ credit_rows pair true nothing_closed _ _ _ _ _ _ _); [done|done|done|..].
  - intros e t _. apply gives_bind, gives_keep; [apply keeps_new_id, _|]. intros id. apply gives_ignore, gives_append_credit.
    intros now row Hok. split; [|split_and!; by try intros ? []]. unfold credit_rows. cbn. by rewrite fmap_app.
  - intros o c t Hb. apply gives_credit_balance. by apply Hb.
  - intros o c. cbn. unfold LockBalance. keeps_tac.
  - intros i. by apply owner_out.
Defined.

Definition points_ledger : Ledger (Tender.Points : Tender.Machine W).
Proof.
  refine (mkLedger _ points_rows pair false nothing_closed _ _ _ _ _ _ _); [done|done|done|..].
  - intros e t _. apply gives_bind, gives_keep; [apply keeps_new_id, _|]. intros id. apply gives_ignore, gives_append_points.
    intros now row Hok. split; [|split_and!; by try intros ? []]. unfold points_rows. cbn. by rewrite fmap_app.
  - intros o c t _. apply gives_ask_tills. intros now b y ->%to_bigint_rows. rewrite points_balance. done.
  - intros o c. cbn. unfold LockBalance. keeps_tac.
  - intros i. by apply owner_out.
Defined.

(** A refund to a closed card fails before its row. *)
Lemma gives_usable e t (Q : Tills -> Prop) :
  ((Tender.en_Movement e = KindRefund -> ~ card_closed t (Tender.en_OwnerID e, EmptyString)) -> Q t) ->
  gives_tills t (if bool_decide (Tender.en_Movement e = KindRefund) then
      _ ← LockGiftCardBalance (Tender.en_OwnerID e);
      card ← GiftCard_ (Tender.en_OwnerID e);
      now ← clock;
      tx_check (Tender.unusable card now)
    else mret tt) (fun _ => Q).
Proof.
  intros HQ. case_bool_decide; [|apply gives_ret, HQ; done].
  apply gives_bind, gives_keep; [unfold LockGiftCardBalance; keeps_tac|]. intros [].
  apply gives_bind, gives_one, gives_ask_tills. intros _ b y [= <-] card Hcard.
  apply gives_bind, gives_keep; [apply keeps_clock, _|]. intros now. apply gives_check. intros Hu. apply HQ.
  intros _ (id & c & [= <-] & Hc & Hd). rewrite Hcard in Hc. injection Hc as <-. apply Hd.
  unfold Tender.unusable in Hu. by destruct (gc_DisabledAt card).
Qed.

Definition cards_ledger : Ledger (Tender.GiftCards : Tender.Machine W).
Proof.
  refine (mkLedger _ card_rows card_key true card_closed _ _ _ _ _ _ _); [done|done|done|..].
  - intros e t _. cbn. unfold Tender.card_move. apply gives_bind, gives_usable. intros Hopen.
    apply gives_bind, gives_keep; [apply keeps_new_id, _|]. intros id. apply gives_ignore, gives_append_card.
    intros now row Hok _. split; [|done]. unfold card_rows. cbn. by rewrite fmap_app.
  - intros o c t _. apply gives_ask_tills. intros now b y ->%to_bigint_rows. by rewrite card_balance_row.
  - intros o c. cbn. unfold LockGiftCardBalance. keeps_tac.
  - intros i. apply owner_out. intros f j [= <-]. apply keeps_cardOf, _.
Defined.

(** ** The three together *)

Record TillsSound (t : Tills) : Prop := mkTillsSound {
  tills_credit : LedgerSound credit_ledger t;
  tills_points : LedgerSound points_ledger t;
  tills_cards : LedgerSound cards_ledger t;
  tills_card_ids : map_Forall (fun id c => gc_ID c = id) (tl_cards t)
}.

Definition credit_part (t : Tills) := (tl_credit t, tl_credit_sessions t).
Definition points_part (t : Tills) := (tl_points t, tl_point_sessions t).
Definition cards_part (t : Tills) := (tl_card_entries t, tl_card_sessions t, tl_cards t).

Abbreviation holds_tills := (holds (W := W) TillsSound).
Abbreviation stays_tills := (stays (W := W) TillsSound).
Abbreviation keeps_part := (fun X (part : Tills -> X) A (m : tx (Sys W) A) => keeps (fun st => part (sy_tills st)) m).

Lemma keeps_part_till {X A} (part : Tills -> X) name format a (f : moment -> Tills -> answer (Tills * A)) :
  (forall now t t' y, f now t = Rows (t', y) -> part t' = part t) ->
  keeps (fun st : Sys W => part (sy_tills st)) (till name format a f).
Proof.
  intros H st. unfold till, statement. destruct (out_fault _ _) as [w [d|]]; [done|].
  destruct (f _ _) as [[t y]|d] eqn:E; [|done]. cbn. by eapply H.
Qed.

Lemma credit_sound_part t t' : credit_part t' = credit_part t -> LedgerSound credit_ledger t -> LedgerSound credit_ledger t'.
Proof. intros [= E1 E2]. apply (ledger_same credit_ledger t t'); [by cbn; unfold credit_rows; rewrite E1|done|done]. Qed.

Lemma points_sound_part t t' : points_part t' = points_part t -> LedgerSound points_ledger t -> LedgerSound points_ledger t'.
Proof. intros [= E1 E2]. apply (ledger_same points_ledger t t'); [by cbn; unfold points_rows; rewrite E1|done|done]. Qed.

Lemma cards_sound_part t t' : cards_part t' = cards_part t -> LedgerSound cards_ledger t -> LedgerSound cards_ledger t'.
Proof.
  intros [= E1 E2 E3]. apply (ledger_same cards_ledger t t'); [by cbn; unfold card_rows; rewrite E1|done|].
  intros k. cbn. unfold card_closed. by rewrite E3.
Qed.

(** What one tender does, the others' parts being left alone. *)
Lemma holds_credit {A} (m : tx (Sys W) A) : (forall t, LedgerSound credit_ledger t -> gives_tills t m (fun _ t' => LedgerSound credit_ledger t')) ->
  keeps (fun st => points_part (sy_tills st)) m -> keeps (fun st => cards_part (sy_tills st)) m -> holds_tills m.
Proof.
  intros Hm Hp Hc st st' a [H1 H2 H3 H4] E. specialize (Hp st). specialize (Hc st). rewrite E in Hp, Hc. cbn in Hp, Hc.
  split; [by eapply Hm|by eapply points_sound_part|by eapply cards_sound_part|]. by injection Hc as _ _ ->.
Qed.

Lemma holds_points {A} (m : tx (Sys W) A) : (forall t, LedgerSound points_ledger t -> gives_tills t m (fun _ t' => LedgerSound points_ledger t')) ->
  keeps (fun st => credit_part (sy_tills st)) m -> keeps (fun st => cards_part (sy_tills st)) m -> holds_tills m.
Proof.
  intros Hm Hp Hc st st' a [H1 H2 H3 H4] E. specialize (Hp st). specialize (Hc st). rewrite E in Hp, Hc. cbn in Hp, Hc.
  split; [by eapply credit_sound_part|by eapply Hm|by eapply cards_sound_part|]. by injection Hc as _ _ ->.
Qed.

Lemma holds_cards {A} (m : tx (Sys W) A) : (forall t, LedgerSound cards_ledger t -> map_Forall (fun id c => gc_ID c = id) (tl_cards t) ->
    gives_tills t m (fun _ t' => LedgerSound cards_ledger t' /\ map_Forall (fun id c => gc_ID c = id) (tl_cards t'))) ->
  keeps (fun st => credit_part (sy_tills st)) m -> keeps (fun st => points_part (sy_tills st)) m -> holds_tills m.
Proof.
  intros Hm Hp Hc st st' a [H1 H2 H3 H4] E. specialize (Hp st). specialize (Hc st). rewrite E in Hp, Hc. cbn in Hp, Hc.
  destruct (Hm _ H3 H4 st st' a eq_refl E). split; [by eapply credit_sound_part|by eapply points_sound_part|done|done].
Qed.

(** ** The statements and the parts *)

Ltac part_tac := apply keeps_part_till; intros now t t' y E; cbn in E; repeat case_match; simplify_eq;
  try (apply checked_rows in E as [[= -> _] _]); done.

Lemma append_credit_points e : keeps (fun st : Sys W => points_part (sy_tills st)) (AppendStoreCreditEntry e).
Proof. part_tac. Qed.
Lemma append_credit_cards e : keeps (fun st : Sys W => cards_part (sy_tills st)) (AppendStoreCreditEntry e).
Proof. part_tac. Qed.
Lemma append_points_credit e : keeps (fun st : Sys W => credit_part (sy_tills st)) (AppendLoyaltyEntry e).
Proof. part_tac. Qed.
Lemma append_points_cards e : keeps (fun st : Sys W => cards_part (sy_tills st)) (AppendLoyaltyEntry e).
Proof. part_tac. Qed.
Lemma append_card_credit e : keeps (fun st : Sys W => credit_part (sy_tills st)) (AppendGiftCardEntry e).
Proof. part_tac. Qed.
Lemma append_card_points e : keeps (fun st : Sys W => points_part (sy_tills st)) (AppendGiftCardEntry e).
Proof. part_tac. Qed.

Lemma insert_part {X} (part : Tills -> X) tb s : (forall x t, part (tb_set tb x t) = part t) ->
  keeps (fun st : Sys W => part (sy_tills st)) (InsertSessionIfAbsent tb s).
Proof.
  intros H. apply keeps_part_till. intros now t t' y E. destruct (tender_of_key _ _ t); [by injection E as <- _|].
  destruct (tb_get tb t !! _); [done|]. destruct (tb_owner_known _ _ _); [|done].
  by apply checked_rows in E as [[= -> _] _].
Qed.

Lemma update_part {X} (part : Tills -> X) tb id st a c r reason : (forall x t, part (tb_set tb x t) = part t) ->
  keeps (fun st : Sys W => part (sy_tills st)) (UpdateSessionState tb id st a c r reason).
Proof.
  intros H. apply keeps_part_till. intros now t t' y E. case_match; [|done]. by apply checked_rows in E as [[= -> _] _].
Qed.
End Balances.

(** * The tills over histories

    The providers of the module keep the three ledgers sound ([lawful]), and so does every call of the
    service: the tenders' movements, the points a collection earns, credit and cards issued, expired,
    voided and closed. *)

#[export] Instance part_view W X (part : Tills -> X) : View (fun st : Sys W => part (sy_tills st)). Proof. done. Qed.

Section Tenders.
Context {W : Type} `{!Outside W}.
Abbreviation gives_tills := (gives (@sy_tills W)).
Abbreviation holds_tills := (holds (W := W) TillsSound).
Abbreviation stays_tills := (stays (W := W) TillsSound).
Abbreviation lawful_tills := (lawful (W := W) TillsSound).

Lemma holds_parts {A} (m : tx (Sys W) A) : keeps (fun st => credit_part (sy_tills st)) m ->
  keeps (fun st => points_part (sy_tills st)) m -> keeps (fun st => cards_part (sy_tills st)) m -> holds_tills m.
Proof.
  intros H1 H2 H3. apply holds_points; [|done|done]. intros t Ht st st' a <- E. specialize (H2 st). rewrite E in H2.
  by eapply points_sound_part.
Qed.

(** ** The providers *)

Section Out.
Context {X : Type} (part : Tills -> X).
Abbreviation view := (fun st : Sys W => part (sy_tills st)).

Lemma manual_part json_error : (forall x t, part (set_manual x t) = part t) -> stays_out view (Manual.Provider json_error).
Proof.
  intros H. apply (manual_out _).
  - intros s. apply keeps_part_till. intros now t t' y E. cbn zeta in E. repeat case_match; simplify_eq;
    (done || by apply checked_rows in E as [[= -> _] _]).
  - intros id st a c r reason. apply (keeps_one _), keeps_part_till. intros now t t' y E.
    destruct (tl_manual t !! id); [|by injection E as <- _]. by apply checked_rows in E as [[= -> _] _].
Qed.

Lemma credit_machine_part : (forall e, keeps view (AppendStoreCreditEntry e)) ->
  (forall x t, part (set_credit_sessions x t) = part t) -> stays_out view (Tender.Provider Tender.StoreCredit).
Proof. intros Ha H. apply (tender_out _), (credit_out _); [done|intros; by apply insert_part|intros; by apply update_part]. Qed.

Lemma points_machine_part : (forall e, keeps view (AppendLoyaltyEntry e)) ->
  (forall x t, part (set_point_sessions x t) = part t) -> stays_out view (Tender.Provider Tender.Points).
Proof. intros Ha H. apply (tender_out _), (points_out _); [done|intros; by apply insert_part|intros; by apply update_part]. Qed.

Lemma cards_machine_part : (forall e, keeps view (AppendGiftCardEntry e)) ->
  (forall x t, part (set_card_sessions x t) = part t) -> stays_out view (Tender.Provider Tender.GiftCards).
Proof. intros Ha H. apply (tender_out _), (cards_out _); [done|intros; by apply insert_part|intros; by apply update_part]. Qed.
End Out.

Lemma lawful_credit : lawful_tills (Tender.Provider Tender.StoreCredit).
Proof.
  pose proof (credit_machine_part points_part append_credit_points (fun _ _ => eq_refl)) as [P1 P2 P3 P4 P5 P6 _].
  pose proof (credit_machine_part cards_part append_credit_cards (fun _ _ => eq_refl)) as [C1 C2 C3 C4 C5 C6 _].
  split; intros.
  - apply holds_credit; [by apply (create_sound credit_ledger)|done|done].
  - apply holds_credit; [by apply (authorize_sound credit_ledger)|done|done].
  - apply holds_credit; [by apply (capture_sound credit_ledger)|done|done].
  - apply holds_credit; [by apply (refund_sound credit_ledger)|done|done].
  - apply holds_credit; [by apply (tender_cancel_sound credit_ledger)|done|done].
  - cbn in *. simplify_eq. apply inspect_keeps.
Qed.

Lemma lawful_points : lawful_tills (Tender.Provider Tender.Points).
Proof.
  pose proof (points_machine_part credit_part append_points_credit (fun _ _ => eq_refl)) as [P1 P2 P3 P4 P5 P6 _].
  pose proof (points_machine_part cards_part append_points_cards (fun _ _ => eq_refl)) as [C1 C2 C3 C4 C5 C6 _].
  split; intros.
  - apply holds_points; [by apply (create_sound points_ledger)|done|done].
  - apply holds_points; [by apply (authorize_sound points_ledger)|done|done].
  - apply holds_points; [by apply (capture_sound points_ledger)|done|done].
  - apply holds_points; [by apply (refund_sound points_ledger)|done|done].
  - apply holds_points; [by apply (tender_cancel_sound points_ledger)|done|done].
  - cbn in *. simplify_eq. apply inspect_keeps.
Qed.

(** The machine of the gift cards leaves the cards themselves alone. *)
Lemma holds_card_machine {A} (m : tx (Sys W) A) :
  (forall t, LedgerSound cards_ledger t -> gives_tills t m (fun _ t' => LedgerSound cards_ledger t')) ->
  keeps (fun st => tl_cards (sy_tills st)) m -> keeps (fun st => credit_part (sy_tills st)) m ->
  keeps (fun st => points_part (sy_tills st)) m -> holds_tills m.
Proof.
  intros Hm Hk H1 H2. apply holds_cards; [|done|done]. intros t Ht Hid st st' a <- E. specialize (Hk st). rewrite E in Hk.
  cbn in Hk. rewrite Hk. split; [by eapply Hm|done].
Qed.

Lemma append_card_cards e : keeps (fun st : Sys W => tl_cards (sy_tills st)) (AppendGiftCardEntry e).
Proof.
  apply keeps_part_till. intros now t t' y E. cbn in E. repeat case_match; simplify_eq.
  by apply checked_rows in E as [[= -> _] _].
Qed.

Lemma lawful_cards : lawful_tills (Tender.Provider Tender.GiftCards).
Proof.
  pose proof (cards_machine_part tl_cards append_card_cards (fun _ _ => eq_refl)) as [K1 K2 K3 K4 K5 K6 _].
  pose proof (cards_machine_part credit_part append_card_credit (fun _ _ => eq_refl)) as [C1 C2 C3 C4 C5 C6 _].
  pose proof (cards_machine_part points_part append_card_points (fun _ _ => eq_refl)) as [P1 P2 P3 P4 P5 P6 _].
  split; intros.
  - apply holds_card_machine; [by apply (create_sound cards_ledger)|done..].
  - apply holds_card_machine; [by apply (authorize_sound cards_ledger)|done..].
  - apply holds_card_machine; [by apply (capture_sound cards_ledger)|done..].
  - apply holds_card_machine; [by apply (refund_sound cards_ledger)|done..].
  - apply holds_card_machine; [by apply (tender_cancel_sound cards_ledger)|done..].
  - cbn in *. simplify_eq. apply inspect_keeps.
Qed.

Lemma lawful_parts p : stays_out (fun st => credit_part (sy_tills st)) p -> stays_out (fun st => points_part (sy_tills st)) p ->
  stays_out (fun st => cards_part (sy_tills st)) p -> (forall f id, pp_InspectSession p = Some f -> keeps (@sy_tills W) (f id)) ->
  lawful_tills p.
Proof.
  intros [C1 C2 C3 C4 C5 C6 _] [P1 P2 P3 P4 P5 P6 _] [K1 K2 K3 K4 K5 K6 _] Hi. split; intros; try (apply holds_parts; auto).
  by eapply Hi.
Qed.

Lemma lawful_in_module json_error p : in_module json_error p -> lawful_tills p.
Proof.
  intros [-> | [[method ->] | [-> | [-> | ->]]]].
  - apply lawful_parts; [by apply manual_part..|]. intros f id [= <-]. unfold Manual.InspectSession, Manual.GetSession. quiet_tac.
  - apply lawful_out, (offline_out _).
  - apply lawful_credit.
  - apply lawful_points.
  - apply lawful_cards.
Qed.

(** ** The service *)

Lemma holds_earned e : ly_Kind e ∈ [KindEarn; KindReverse] -> holds_tills (AppendLoyaltyEntry e).
Proof.
  intros Hk. apply holds_points; [|apply append_points_credit|apply append_points_cards].
  intros t H. apply gives_append_points. intros now row Hok. eapply (ledger_append points_ledger t _ (points_row row)).
  - cbn. unfold points_rows. cbn. by rewrite fmap_app.
  - done.
  - by intros k.
  - exact Hok.
  - cbn. intros Hm%Contains_spec. apply elem_of_cons in Hk as [Hk | Hk%list_elem_of_singleton]; by rewrite Hk in Hm.
  - by intros [].
  - done.
  - done.
Qed.

(** A row of store credit: an issue, or an expiry the balance covers. *)
Lemma gives_credit_row e t : LedgerSound credit_ledger t -> sc_Kind e ∈ [KindIssue; KindExpire] ->
  (sc_Kind e = KindExpire -> 0 <= balance (sc_CustomerID e, sc_CurrencyCode e) (credit_rows t) + sc_Amount e) ->
  gives_tills t (AppendStoreCreditEntry e) (fun _ t' => LedgerSound credit_ledger t').
Proof.
  intros H Hk Hb. apply gives_append_credit. intros now row Hok. eapply (ledger_append credit_ledger t _ (credit_row row)).
  - cbn. unfold credit_rows. cbn. by rewrite fmap_app.
  - done.
  - by intros k.
  - exact Hok.
  - cbn. intros Hm%Contains_spec. apply elem_of_cons in Hk as [Hk | Hk%list_elem_of_singleton]; by rewrite Hk in Hm.
  - by intros [].
  - intros _. cbn. pose proof (ledger_floor credit_ledger t H eq_refl (sc_CustomerID e, sc_CurrencyCode e)) as Hf. cbn in Hf.
    apply elem_of_cons in Hk as [Hk | Hk%list_elem_of_singleton]; [|by apply Hb].
    unfold row_ok in Hok. cbn in Hok. rewrite Hk in Hok. case_decide as Hd; [by apply Contains_spec in Hd|]. lia.
  - done.
Qed.

Lemma stays_kept {A} (m : tx (Sys W) A) : keeps (@sy_tills W) m -> stays_tills m.
Proof. apply stays_keeps. Qed.

Lemma stays_IssueCredit i : stays_tills (IssueCredit i).
Proof.
  unfold IssueCredit. do 4 (apply stays_bind; [apply stays_kept; (apply keeps_check || apply keeps_of)|intros ?]).
  apply stays_bind; [apply stays_kept; unfold ahead_check; keeps_tac|intros _].
  apply stays_bind; [apply stays_kept, keeps_check|intros _]. apply stays_bind; [apply stays_kept, keeps_new_id, _|intros id].
  apply stays_till. apply holds_credit; [|apply append_credit_points|apply append_credit_cards].
  intros t H. apply gives_credit_row; [done|by apply list_elem_of_here|done].
Qed.

(** The unexpired part of a balance is not negative: it is issues and refunds. *)
Lemma unexpired_nonneg t at_ o c : LedgerSound credit_ledger t -> 0 <= ef_Unexpired (expiry_figures at_ (credit_of o c t)).
Proof.
  intros [H _ _ _ _]. cbn in *. unfold credit_rows in H. apply sumZ_nonneg, Forall_fmap, Forall_forall.
  intros e [Hu [_ He]%list_elem_of_filter]%list_elem_of_filter. rewrite Forall_fmap in H. apply (proj1 (Forall_forall _ _) H) in He.
  unfold unexpired_at in Hu. apply orb_true_iff in Hu as [Hk%bool_decide_eq_true|[Hk%bool_decide_eq_true _]%andb_true_iff];
  unfold compose, row_ok, credit_row in He; cbn in He |- *; rewrite Hk in He; case_decide as Hd;
  try (by apply Contains_spec in Hd). all: lia.
Qed.

Lemma stays_expire at_ ref : stays_tills (expire_balance at_ ref).
Proof.
  intros st Hg. unfold expire_balance. enough (H : stays_tills (WithTx false (expire_body at_ ref))).
  { specialize (H st Hg). by destruct (WithTx false _ st) as [st' [b|e]]. }
  clear st Hg. apply stays_WithTx. destruct ref as [o c]. unfold expire_body. apply holds_credit.
  2: { pose proof append_credit_points. unfold LockBalance, StoreCreditExpiryFigures_. keeps_tac. }
  2: { pose proof append_credit_cards. unfold LockBalance, StoreCreditExpiryFigures_. keeps_tac. }
  intros t H. apply gives_bind, gives_keep; [unfold LockBalance; keeps_tac|intros _]. apply gives_bind, gives_figures.
  intros f Hb Hu _ _. case_match; [by apply gives_ret|]. apply gives_bind, gives_keep; [apply keeps_new_id, _|intros id].
  apply gives_bind, (gives_mono _ _ _ (fun _ t' => LedgerSound credit_ledger t')); [|intros x t' Ht'; by apply gives_ret].
  apply gives_credit_row; [done|by apply list_elem_of_further, list_elem_of_here|]. intros _. cbn [sc_CustomerID sc_CurrencyCode sc_Amount fst snd].
  pose proof (unexpired_nonneg t at_ o c H) as Hn. pose proof (ledger_floor credit_ledger t H eq_refl (o, c)) as Hf. cbn in Hf.
  rewrite <- (credit_balance o c t) in *. cbn [fst snd] in f. change (log_sum sc_Amount _) with (ef_Balance f) in *.
  change (0 <= ef_Unexpired f) in Hn. clearbody f. unfold Due. rewrite (sub64_exact (ef_Balance f)) by in64. lia.
Qed.

Lemma stays_ExpireStoreCredit limit : stays_tills (ExpireStoreCredit limit).
Proof.
  unfold ExpireStoreCredit. apply stays_bind; [apply stays_kept, keeps_check|intros _].
  apply stays_bind; [apply stays_kept, keeps_clock, _|intros at_]. apply stays_bind; [apply stays_kept; unfold StoreCreditExpiryDue; keeps_tac|intros l].
  generalize 0. induction l as [|ref l IH]; intros n; [apply stays_kept, keeps_ret|]. cbn.
  apply stays_bind; [apply stays_expire|intros out]. case_match; [apply stays_kept, keeps_ret|apply IH].
Qed.

(** ** Gift cards *)

(** The cards rewritten, none closed that was not. *)
Lemma cards_same t t' : tl_card_entries t' = tl_card_entries t -> tl_card_sessions t' = tl_card_sessions t ->
  (forall k, card_closed t' k -> card_closed t k) -> LedgerSound cards_ledger t -> LedgerSound cards_ledger t'.
Proof. intros E1 E2 Hc. apply (ledger_same cards_ledger t t'); [by cbn; unfold card_rows; rewrite E1|done|exact Hc]. Qed.

(** A card of the same state put in its place. *)
Lemma closed_put t digests id c k : (gc_DisabledAt c = None \/ exists old, tl_cards t !! id = Some old /\ gc_DisabledAt old = gc_DisabledAt c) ->
  card_closed (set_cards (<[id := c]> (tl_cards t)) digests t) k -> card_closed t k.
Proof.
  intros Hc (i & x & -> & Hx & Hd). cbn in Hx. apply lookup_insert_Some in Hx as [[<- <-]|[_ Hx]]; [|by exists i, x].
  destruct Hc as [|(old & Hold & E)]; [done|]. exists id, old. split_and!; [done..|by rewrite E].
Qed.

Abbreviation card_ids := (fun t : Tills => map_Forall (fun id c => gc_ID c = id) (tl_cards t)).

(** A card's issue row, on a card that is open. *)
Lemma gives_issue_row e t : LedgerSound cards_ledger t -> card_ids t -> ge_Kind e ∈ [KindIssue; KindVoid] ->
  ~ card_closed t (ge_GiftCardID e, EmptyString) -> (ge_Kind e = KindVoid -> 0 <= card_balance (ge_GiftCardID e) t + ge_Amount e) ->
  gives_tills t (AppendGiftCardEntry e) (fun _ t' => LedgerSound cards_ledger t' /\ card_ids t' /\ tl_cards t' = tl_cards t /\
    tl_card_sessions t' = tl_card_sessions t /\ card_balance (ge_GiftCardID e) t' = card_balance (ge_GiftCardID e) t + ge_Amount e).
Proof.
  intros H Hid Hk Hopen Hb. apply gives_append_card. intros now row Hok _.
  assert (Er : card_rows (set_card_entries (tl_card_entries t ++ [row]) t) = card_rows t ++ [card_row row])
    by (unfold card_rows; cbn; by rewrite fmap_app).
  split; [|split; [done|split; [done|split; [done|]]]].
  - eapply (ledger_append cards_ledger t _ (card_row row)); [exact Er|done|done|exact Hok| |exact Hopen| |done].
    + cbn. intros Hm%Contains_spec. apply elem_of_cons in Hk as [Hk | Hk%list_elem_of_singleton]; by rewrite Hk in Hm.
    + intros _. pose proof (ledger_floor cards_ledger t H eq_refl (ge_GiftCardID e, EmptyString)) as Hf. cbn in Hf |- *.
      rewrite <- card_balance_row in *.
      apply elem_of_cons in Hk as [Hk | Hk%list_elem_of_singleton]; [|by apply Hb].
      unfold row_ok, card_row in Hok. cbn in Hok. rewrite Hk in Hok. case_decide as Hd; [by apply Contains_spec in Hd|]. lia.
  - rewrite !card_balance_row, Er, balance_app, balance_one. cbn. by rewrite decide_True.
Qed.

Ltac card_part_tac := apply keeps_part_till; intros now t t' y E; cbn zeta in E; repeat case_match; simplify_eq;
  (done || by apply checked_rows in E as [[= -> _] _]).

Lemma insert_card_credit c digest days : keeps (fun st : Sys W => credit_part (sy_tills st)) (InsertGiftCard c digest days).
Proof. card_part_tac. Qed.
Lemma insert_card_points c digest days : keeps (fun st : Sys W => points_part (sy_tills st)) (InsertGiftCard c digest days).
Proof. card_part_tac. Qed.
Lemma disable_card_credit id reason : keeps (fun st : Sys W => credit_part (sy_tills st)) (DisableGiftCard_ id reason).
Proof. apply (keeps_one _). card_part_tac. Qed.
Lemma disable_card_points id reason : keeps (fun st : Sys W => points_part (sy_tills st)) (DisableGiftCard_ id reason).
Proof. apply (keeps_one _). card_part_tac. Qed.
Lemma replace_code_credit id digest tail : keeps (fun st : Sys W => credit_part (sy_tills st)) (ReplaceGiftCardCode_ id digest tail).
Proof. apply (keeps_one _). card_part_tac. Qed.
Lemma replace_code_points id digest tail : keeps (fun st : Sys W => points_part (sy_tills st)) (ReplaceGiftCardCode_ id digest tail).
Proof. apply (keeps_one _). card_part_tac. Qed.

Lemma stays_issueGiftCard days card amount : stays_tills (issueGiftCard days card amount).
Proof.
  unfold issueGiftCard. apply stays_bind; [apply stays_kept|intros code].
  { intros st. unfold draw_code. by destruct (out_random _ _) as [w [body|]]. }
  apply stays_bind; [apply stays_kept, keeps_new_id, _|intros id]. set (new := mkGiftCard id _ _ _ _ _ _ _ _ _ _).
  apply stays_WithTx. apply holds_cards.
  - intros t H Hid. apply gives_bind, gives_till. intros now t' out E. destruct (card_sold_as _ t).
    { injection E as <- <-. apply gives_bind, gives_keep; [unfold GiftCardBySourceReference; keeps_tac|intros existing].
      apply gives_bind, gives_keep; [unfold GiftCardBalance; keeps_tac|intros b]. by apply gives_ret. }
    destruct (tl_cards t !! _) eqn:Hnew; [done|]. destruct (card_of_digest _ t); [done|].
    apply checked_rows in E as [[= -> ->] _]. set (row := new_card_row now days new).
    apply gives_bind, gives_keep; [apply keeps_new_id, _|intros entry].
    apply gives_bind. eapply gives_mono; [apply gives_issue_row|].
    + apply (cards_same t); [done|done| |done]. intros k. apply closed_put. by left.
    + by apply map_Forall_insert_2.
    + by apply list_elem_of_here.
    + intros (i & c & [= <-] & Hc & Hd). cbn in Hc. rewrite lookup_insert_eq in Hc. injection Hc as <-. by apply Hd.
    + done.
    + intros x t' (? & ? & _). by apply gives_ret.
  - pose proof append_card_credit. pose proof insert_card_credit. quiet_tac.
  - pose proof append_card_points. pose proof insert_card_points. quiet_tac.
Qed.

Lemma keeps_ahead_tills code format given : keeps (@sy_tills W) (ahead_check code format given).
Proof. unfold ahead_check. keeps_tac. Qed.

Lemma keeps_draw_tills : keeps (@sy_tills W) draw_code.
Proof. intros st. unfold draw_code. by destruct (out_random _ _) as [w [body|]]. Qed.

Lemma stays_IssueGiftCard days i : stays_tills (IssueGiftCard days i).
Proof.
  unfold IssueGiftCard. do 4 (apply stays_bind; [apply stays_kept; (apply keeps_ahead_tills || apply keeps_check || apply keeps_of)|intros ?]).
  apply stays_bind; [apply stays_issueGiftCard|intros out; apply stays_kept, keeps_ret].
Qed.

Lemma stays_IssueSoldGiftCard days i : stays_tills (IssueSoldGiftCard days i).
Proof.
  unfold IssueSoldGiftCard. do 3 (apply stays_bind; [apply stays_kept; (apply keeps_check || apply keeps_of)|intros ?]).
  apply stays_issueGiftCard.
Qed.

(** A statement whose one row may be missing. *)
Lemma stays_one_till {A} e name format a (f : moment -> Tills -> answer (Tills * option A)) :
  (forall now t t', f now t = Rows (t', None) -> t' = t) ->
  holds_tills (one e (till name format a f)) -> stays_tills (one e (till name format a f)).
Proof.
  intros Hn H st Hg. specialize (H st). revert H. unfold one, till, statement, mbind, tx_bind.
  destruct (out_fault _ _) as [w [d|]]; [done|]. destruct (f _ _) as [[t [x|]]|d] eqn:E; [|intros _|done].
  - intros H. by eapply H.
  - by rewrite (Hn _ _ _ E).
Qed.

Lemma holds_replace_code id digest tail : holds_tills (ReplaceGiftCardCode_ id digest tail).
Proof.
  apply holds_cards; [|apply replace_code_credit|apply replace_code_points].
  intros t H Hid. apply gives_one, gives_till. intros now t' out E c ->.
  destruct (tl_cards t !! id) as [old|] eqn:Hold; [|done]. set (row := recoded_card now tail old) in *.
  assert (E' : t' = set_cards (<[id := row]> (tl_cards t)) (<[id := digest]> (tl_digests t)) t).
  { destruct (card_of_digest digest t); [case_bool_decide; [|done]|]; by apply checked_rows in E as [[= -> _] _]. }
  subst t'. split.
  - apply (cards_same t); [done|done| |done]. intros k. apply closed_put. right. by exists old.
  - apply map_Forall_insert_2; [|done]. cbn. by apply Hid.
Qed.

Lemma stays_ReplaceGiftCardCode id : stays_tills (ReplaceGiftCardCode id).
Proof.
  unfold ReplaceGiftCardCode. apply stays_bind; [apply stays_kept, keeps_check|intros _].
  apply stays_bind; [apply stays_kept; unfold GiftCard_; keeps_tac|intros card].
  apply stays_bind; [apply stays_kept, keeps_check|intros _]. apply stays_bind; [apply stays_kept, keeps_draw_tills|intros code].
  apply stays_bind; [|intros c; apply stays_kept; unfold GiftCardBalance; keeps_tac].
  apply stays_one_till; [|apply holds_replace_code]. intros now t t' E. destruct (tl_cards t !! id); [|by injection E].
  destruct (card_of_digest _ t); [case_bool_decide; [|done]|]; by apply checked_rows in E as [[=] _].
Qed.

Lemma open_holds_none id t i s : open_holds id t = 0 -> tl_card_sessions t !! i = Some s -> ts_OwnerID s = id ->
  ts_Status s <> SessionAuthorized.
Proof.
  unfold open_holds. intros H Hs Ho Hst. assert (Hin : s ∈ filter (fun s => ts_OwnerID s = id /\ ts_Status s = SessionAuthorized)
    (rows (tl_card_sessions t))) by (apply list_elem_of_filter; split; [done|]; apply elem_of_table; by exists i).
  destruct (filter _ _); [by apply not_elem_of_nil in Hin|]. cbn in H. lia.
Qed.

(** A card is closed: its balance is voided before, and no session holds it. *)
Lemma gives_close id reason t : LedgerSound cards_ledger t -> card_ids t -> card_balance id t = 0 -> open_holds id t = 0 ->
  gives_tills t (DisableGiftCard_ id reason) (fun _ t' => LedgerSound cards_ledger t' /\ card_ids t').
Proof.
  intros H Hid Hb Ho. apply gives_one, gives_till. intros now t' out E c ->.
  destruct (tl_cards t !! id) as [old|] eqn:Hold; [|done]. destruct (gc_DisabledAt old); [done|].
  apply checked_rows in E as [[= -> _] _]. split; [|apply map_Forall_insert_2; [by apply (Hid id old)|done]].
  destruct H as [H1 H2 H3 H4 H5]. split; try done. cbn. intros key (i & x & -> & Hx & Hd). cbn in Hx.
  apply lookup_insert_Some in Hx as [[<- _]|[Hne Hx]].
  - split; [change (balance (id, EmptyString) (card_rows t) = 0); by rewrite <- card_balance_row|]. intros j s Hs [= Ek]. by eapply open_holds_none.
  - apply H5. by exists i, x.
Qed.

Lemma holds_disable id reason : holds_tills (
  first ← GiftCard_ id;
  _ ← LockGiftCardBalance (gc_ID first);
  card ← GiftCard_ id;
  match gc_DisabledAt card with
  | Some _ => mret (card, 0)
  | None =>
      held ← GiftCardOpenHolds (gc_ID card);
      _ ← tx_check (if 0 <? held
        then Some (Conflict CodeGiftCardHeld
          "gift card %s is held by %d payment sessions; it is closed once they are captured or canceled"
          [AStr (gc_ID card); AInt held])
        else None);
      balance ← GiftCardBalance (gc_ID card);
      _ ← (if 0 <? balance then
          entry ← new_id "gcentry_";
          ignore (AppendGiftCardEntry (mkGiftCardEntry entry (gc_ID card) (- balance) KindVoid EmptyString zero_time))
        else mret tt);
      closed ← DisableGiftCard_ (gc_ID card) reason;
      mret (closed, 0)
  end).
Proof.
  apply holds_cards.
  2: { pose proof append_card_credit. pose proof disable_card_credit. quiet_tac. }
  2: { pose proof append_card_points. pose proof disable_card_points. quiet_tac. }
  intros t H Hid. apply gives_bind, gives_keep; [unfold GiftCard_; keeps_tac|intros first].
  apply gives_bind, gives_keep; [unfold LockGiftCardBalance; keeps_tac|intros _].
  apply gives_bind, gives_one, gives_ask_tills. intros _ _ y [= <-] card Hcard.
  destruct (gc_DisabledAt card) eqn:Hopen; [by apply gives_ret|].
  apply gives_bind, gives_ask_tills. intros _ _ held [= <-]. apply gives_bind, gives_check.
  destruct (Z.ltb_spec 0 (open_holds (gc_ID card) t)) as [|Hnone]; [done|]. intros _.
  assert (Ho : open_holds (gc_ID card) t = 0) by (unfold open_holds in *; lia).
  apply gives_bind, gives_ask_tills. intros _ _ b ->%to_bigint_rows.
  pose proof (ledger_floor cards_ledger t H eq_refl (gc_ID card, EmptyString)) as Hf. cbn in Hf. rewrite <- card_balance_row in Hf.
  set (after := fun t' => LedgerSound cards_ledger t' /\ card_ids t' /\ card_balance (gc_ID card) t' = 0 /\ open_holds (gc_ID card) t' = 0).
  apply gives_bind, (gives_mono _ _ _ (fun _ => after)).
  - destruct (Z.ltb_spec 0 (card_balance (gc_ID card) t)) as [Hpos|Hz]; [|apply gives_ret; unfold after; split_and!; (done || lia)].
    apply gives_bind, gives_keep; [apply keeps_new_id, _|intros entry]. apply gives_ignore.
    eapply gives_mono; [apply gives_issue_row; try done|].
    + by apply list_elem_of_further, list_elem_of_here.
    + cbn. intros (i & c & [= <-] & Hc & Hd). rewrite (Hid _ _ Hcard) in Hc. rewrite Hcard in Hc. injection Hc as <-. by rewrite Hopen in Hd.
    + cbn. lia.
    + intros x t' (? & ? & Ec & Es & Eb). cbn in Eb. unfold after. split_and!; [done|done|lia|]. unfold open_holds in *. by rewrite Es.
  - intros [] t' (H' & Hid' & Hb' & Ho'). apply gives_bind. eapply gives_mono; [by apply gives_close|].
    intros closed t2 Ht2. by apply gives_ret.
Qed.

Lemma stays_DisableGiftCard id reason : stays_tills (DisableGiftCard id reason).
Proof. unfold DisableGiftCard. do 3 (apply stays_check; intros _). apply stays_WithTx, holds_disable. Qed.

Lemma stays_ExpireGiftCards limit : stays_tills (ExpireGiftCards limit).
Proof.
  unfold ExpireGiftCards. apply stays_check. intros _. apply stays_bind; [apply stays_kept; unfold ExpiredOpenGiftCards; keeps_tac|intros l].
  generalize 0 at 1. generalize 0. induction l as [|id l IH]; intros h c; [apply stays_kept, keeps_ret|]. intros st Hg. cbn.
  pose proof (stays_DisableGiftCard id ReasonExpired st Hg) as H. destruct (DisableGiftCard _ _ st) as [st' [b|e]]; cbn in H.
  - by apply IH.
  - case_bool_decide; [by apply IH|done].
Qed.

(** ** Histories *)

Context (providers : Registry W) (earnBasisPoints giftCardValidityDays : Z).
Context (Hlaw : forall id p, Get providers id = Ok p -> lawful_tills p).

Lemma keeps_providerHolds_tills provider id : keeps (@sy_tills W) (providerHolds providers provider id).
Proof.
  unfold providerHolds. destruct (Get providers provider) as [p|e] eqn:E; [|apply keeps_ret].
  destruct (pp_InspectSession p) as [inspect|] eqn:Ei; [|apply keeps_ret].
  intros st. pose proof (lawful_inspect TillsSound p (Hlaw _ _ E) inspect id Ei st) as H. by destruct (inspect id st) as [st' [i|e]].
Qed.

Lemma keeps_says_paid_tills s : keeps (@sy_tills W) (says_paid providers s).
Proof.
  unfold says_paid. case_match; [apply keeps_ret|]. destruct (Get providers _) as [p|e] eqn:E; [|apply keeps_ret].
  destruct (pp_InspectSession p) as [inspect|] eqn:Ei; [|apply keeps_ret].
  intros st. pose proof (lawful_inspect TillsSound p (Hlaw _ _ E) inspect (ps_ExternalID s) Ei st) as Hi.
  by destruct (inspect _ st) as [st' [i|e]].
Qed.

Lemma keeps_record_report id due : keeps (@sy_tills W) (RecordSessionReport id due).
Proof. unfold RecordSessionReport. keeps_tac. Qed.

Lemma keeps_report_each due l ids closed : keeps (@sy_tills W) (report_each due l ids closed).
Proof.
  revert ids closed. induction l as [|s l IH]; intros ids closed; [apply keeps_ret|]. cbn.
  case_match; [|case_match; apply IH]. apply keeps_bind; [apply keeps_record_report|intros _].
  apply keeps_bind; [unfold GetSessionReport; keeps_tac|intros report]. apply IH.
Qed.

Lemma keeps_ReportSession provider id : keeps (@sy_tills W) (ReportSession providers provider id).
Proof.
  unfold ReportSession, ListSessionsByExternalID. pose proof keeps_report_each. pose proof keeps_providerHolds_tills.
  do 2 (apply keeps_bind; [apply keeps_check|intros _]). keeps_tac.
Qed.

Lemma keeps_discover_each due l found : keeps (@sy_tills W) (discover_each providers due l found).
Proof.
  revert found. induction l as [|s l IH]; intros found; [apply keeps_ret|]. cbn.
  apply keeps_bind; [|intros [b|e]; [apply IH|apply keeps_ret]].
  unfold discover_one. apply keeps_bind; [apply keeps_says_paid_tills|intros []; [|apply keeps_ret]].
  intros st. pose proof (keeps_record_report (ps_ID s) due st) as H.
  by destruct (RecordSessionReport (ps_ID s) due st) as [st' [b|e]].
Qed.

Lemma keeps_Discover now : keeps (@sy_tills W) (DiscoverReportedSessions providers now).
Proof.
  unfold DiscoverReportedSessions. case_match; [apply keeps_ret|].
  apply keeps_bind; [unfold ListPendingSessionsForReconciliation; keeps_tac|intros l']. apply keeps_discover_each.
Qed.

Lemma stays_perform c : stays_tills (perform providers earnBasisPoints giftCardValidityDays c).
Proof.
  pose proof holds_earned as He.
  destruct c; cbn [perform]; try apply stays_ignore.
  - apply stays_kept. unfold CreateCollection, CreatePaymentCollection. keeps_tac.
  - by apply stays_CreateSession.
  - by apply stays_AuthorizePayment.
  - by apply stays_CapturePayment.
  - by apply stays_CancelPayment.
  - by apply stays_refundPayment.
  - by apply stays_RefundCollection.
  - by apply stays_RecordReceived.
  - by apply stays_HandleOrderCanceled.
  - apply stays_IssueCredit.
  - apply stays_ExpireStoreCredit.
  - apply stays_IssueGiftCard.
  - apply stays_IssueSoldGiftCard.
  - apply stays_ReplaceGiftCardCode.
  - apply stays_DisableGiftCard.
  - apply stays_ExpireGiftCards.
  - apply stays_kept, keeps_ReportSession.
  - apply stays_kept, keeps_Discover.
  - apply stays_kept. unfold ReportAttempt, RecordSessionReportAttempt. keeps_tac.
  - apply stays_kept. unfold SettleReport, SettleSessionReport. keeps_tac.
  - apply stays_kept. unfold OpenSessionAnswer, RecordSessionAnswer. apply keeps_bind; [apply keeps_check|intros _].
    apply keeps_bind; [intros st; by destruct (out_random _ _) as [w [body|]]|intros secret]. keeps_tac.
  - apply stays_kept. unfold ClaimAnswer, ClaimSessionAnswer. keeps_tac.
Qed.

Lemma history_tills st st' : rtc (happens providers earnBasisPoints giftCardValidityDays) st st' ->
  TillsSound (sy_tills st) -> TillsSound (sy_tills st').
Proof.
  induction 1 as [st|st st1 st2 Hstep _ IH]; [done|]. intros H. apply IH. destruct Hstep as [c|w]; [by apply stays_perform|done].
Qed.
End Tenders.
