(* ===== verification/PaymentHistory.v ===== *)
(** * What the moves of the payment books keep besides their soundness

    Every capture and every refund has its outbox event and the outbox holds no other; a capture, once
    made, is never remade; a settled session stays settled. Then what the service answers: the plan of a
    refund, refunds by cause, captures. *)
From S2P Require Import Prelude GoText Errors Tx Identifiers Database PaymentModels PaymentStore PaymentRules PaymentTills PaymentProviders PaymentService PaymentCredit PaymentMoves PaymentRefines PaymentFrames PaymentCalls.

(** ** Announcements *)

Definition capture_event (pid : string) (p : Payment) : OutboxEvent :=
  money_moved EventPaymentCaptured pid (py_PaymentCollectionID p) (py_CapturedAt p).

Definition refund_event (rid : string) (r : Refund) (p : Payment) : OutboxEvent :=
  money_moved EventPaymentRefunded rid (py_PaymentCollectionID p) (rf_CreatedAt r).

Record Announced (b : Books) : Prop := mkAnnounced {
  announced_captures : forall pid p, bk_payments b !! pid = Some p ->
    bk_outbox b !! moneyMovedEventID EventPaymentCaptured pid = Some (capture_event pid p);
  announced_refunds : forall rid r p, bk_refunds b !! rid = Some r -> bk_payments b !! rf_PaymentID r = Some p ->
    bk_outbox b !! moneyMovedEventID EventPaymentRefunded rid = Some (refund_event rid r p);
  announced_only : forall k e, bk_outbox b !! k = Some e ->
    (exists pid, is_Some (bk_payments b !! pid) /\ k = moneyMovedEventID EventPaymentCaptured pid) \/
    (exists rid, is_Some (bk_refunds b !! rid) /\ k = moneyMovedEventID EventPaymentRefunded rid)
}.

Lemma append_inj p s t : String.append p s = String.append p t -> s = t.
Proof. induction p as [|c p IH]; [done|]. intros [= E]. by apply IH. Qed.

Lemma event_ids topic x y : moneyMovedEventID topic x = moneyMovedEventID topic y -> x = y.
Proof. intros E%append_inj%append_inj. done. Qed.

Lemma event_topics x y : moneyMovedEventID EventPaymentCaptured x <> moneyMovedEventID EventPaymentRefunded y.
Proof. done. Qed.

(** The event of a row that is new is new. *)
Lemma capture_event_new b pid : Announced b -> bk_payments b !! pid = None ->
  bk_outbox b !! moneyMovedEventID EventPaymentCaptured pid = None.
Proof.
  intros H Hp. destruct (bk_outbox b !! _) eqn:E; [|done]. exfalso.
  apply (announced_only _ H) in E as [(x & [p Hx] & Ex)|(x & _ & Ex)].
  - apply event_ids in Ex. by rewrite <- Ex, Hp in Hx.
  - by apply event_topics in Ex.
Qed.

Lemma refund_event_new b rid : Announced b -> bk_refunds b !! rid = None ->
  bk_outbox b !! moneyMovedEventID EventPaymentRefunded rid = None.
Proof.
  intros H Hr. destruct (bk_outbox b !! _) eqn:E; [|done]. exfalso.
  apply (announced_only _ H) in E as [(x & _ & Ex)|(x & [r Hx] & Ex)].
  - symmetry in Ex. by apply event_topics in Ex.
  - apply event_ids in Ex. by rewrite <- Ex, Hr in Hx.
Qed.

Lemma announced_tables b b' : bk_payments b' = bk_payments b -> bk_refunds b' = bk_refunds b ->
  bk_outbox b' = bk_outbox b -> Announced b -> Announced b'.
Proof. intros E1 E2 E3 []. split; rewrite ?E1, ?E2, ?E3; assumption. Qed.

Lemma insert_new_event e b : bk_outbox b !! ob_ID e = None -> bk_outbox (insert_event e b) = <[ob_ID e := e]> (bk_outbox b).
Proof. unfold insert_event. by intros ->. Qed.

Lemma announced_capture b b1 p : Sound b -> Announced b -> bk_payments b !! py_ID p = None ->
  bk_payments b1 = <[py_ID p := p]> (bk_payments b) -> bk_refunds b1 = bk_refunds b -> bk_outbox b1 = bk_outbox b ->
  Announced (insert_event (capture_event (py_ID p) p) b1).
Proof.
  intros Hs H Hnew Ep Er Eo. pose proof (capture_event_new _ _ H Hnew) as Hn. destruct H as [H1 H2 H3].
  split; autorewrite with books; rewrite insert_new_event by (by rewrite Eo); rewrite ?Ep, ?Er, Eo; cbn.
  - intros pid p' [[<- <-]|[Hne Hp']]%lookup_insert_Some; [apply lookup_insert_eq|].
    rewrite lookup_insert_ne; [by apply H1|]. by intros E%event_ids.
  - intros rid r p' Hr Hp'. rewrite lookup_insert_ne by done. apply H2; [done|].
    apply lookup_insert_Some in Hp' as [[E _]|[_ Hp']]; [|done].
    apply (sound_refunds _ _ Hs) in Hr as (_ & _ & [x Hx]). by rewrite <- E, Hnew in Hx.
  - intros k e [[<- <-]|[Hne Hk]]%lookup_insert_Some.
    + left. exists (py_ID p). by rewrite lookup_insert_eq.
    + destruct (H3 _ _ Hk) as [(x & Hx & ->)|Hx]; [left|by right]. exists x. split; [|done].
      apply lookup_insert_is_Some'. by right.
Qed.

Lemma announced_refund b b1 r p p' : Announced b -> bk_refunds b !! rf_ID r = None ->
  bk_payments b !! py_ID p = Some p -> rf_PaymentID r = py_ID p ->
  py_PaymentCollectionID p' = py_PaymentCollectionID p -> py_CapturedAt p' = py_CapturedAt p ->
  bk_payments b1 = <[py_ID p := p']> (bk_payments b) -> bk_refunds b1 = <[rf_ID r := r]> (bk_refunds b) ->
  bk_outbox b1 = bk_outbox b -> Announced (insert_event (refund_event (rf_ID r) r p) b1).
Proof.
  intros H Hnew Hp Erp Ec Et Ep Er Eo. pose proof (refund_event_new _ _ H Hnew) as Hn. destruct H as [H1 H2 H3].
  assert (Hold : forall i x, <[py_ID p := p']> (bk_payments b) !! i = Some x -> exists y, bk_payments b !! i = Some y /\
    py_PaymentCollectionID x = py_PaymentCollectionID y /\ py_CapturedAt x = py_CapturedAt y).
  { intros i x [[<- <-]|[_ Hx]]%lookup_insert_Some; [by exists p|by exists x]. }
  split; autorewrite with books; rewrite insert_new_event by (by rewrite Eo); rewrite ?Ep, ?Er, Eo; cbn.
  - intros pid x (y & Hy & Ey1 & Ey2)%Hold. rewrite lookup_insert_ne by done. rewrite (H1 _ _ Hy).
    unfold capture_event. by rewrite Ey1, Ey2.
  - intros rid r' x [[<- <-]|[Hne Hr]]%lookup_insert_Some.
    + rewrite Erp, lookup_insert_eq, lookup_insert_eq. intros [= <-]. unfold refund_event. by rewrite Ec.
    + intros (y & Hy & Ey1 & _)%Hold. rewrite lookup_insert_ne by (by intros E%event_ids).
      rewrite (H2 _ _ _ Hr Hy). unfold refund_event. by rewrite Ey1.
  - intros k e [[<- <-]|[Hne Hk]]%lookup_insert_Some.
    + right. exists (rf_ID r). by rewrite lookup_insert_eq.
    + destruct (H3 _ _ Hk) as [(x & Hx & ->)|(x & Hx & ->)]; [left|right]; exists x; (split; [|done]);
        apply lookup_insert_is_Some'; by right.
Qed.

Lemma move_announced b b' : Sound b -> move b b' -> Announced b -> Announced b'.
Proof.
  intros Hs Hm H. destruct Hm as [reports answers ? ? ?|c| | | | |now now' s c p Hss Hc Hst Ham Hnew Eps Epc|now now' p c r Hp Hc Hr Epid];
    try (apply (announced_tables b); autorewrite with books; done).
  - rewrite <- Epc. apply (announced_capture b); try done; by autorewrite with books.
  - pose proof (sound_collections _ _ Hs _ _ Hc) as (-> & _).
    apply (announced_refund b _ r p (set_refunded now (py_RefundedAmount p + rf_Amount r) p)); try done; by autorewrite with books.
Qed.

(** ** What stays *)

Definition same_capture (p q : Payment) : Prop :=
  py_ID q = py_ID p /\ py_PaymentSessionID q = py_PaymentSessionID p /\
  py_PaymentCollectionID q = py_PaymentCollectionID p /\ py_Amount q = py_Amount p /\
  py_CurrencyCode q = py_CurrencyCode p /\ py_CapturedAt q = py_CapturedAt p /\ py_RefundedAmount p <= py_RefundedAmount q.

Lemma same_capture_refl p : same_capture p p.
Proof. split_and!; done. Qed.

Lemma same_capture_trans p q r : same_capture p q -> same_capture q r -> same_capture p r.
Proof. unfold same_capture. intros (?&?&?&?&?&?&?) (?&?&?&?&?&?&?). split_and!; (congruence || lia). Qed.

Lemma move_capture_stays b b' i p : move b b' -> bk_payments b !! i = Some p ->
  exists q, bk_payments b' !! i = Some q /\ same_capture p q.
Proof.
  intros Hm Hp. destruct Hm; autorewrite with books; cbn;
    try (exists p; split; [done|apply same_capture_refl]).
  - exists p. split; [|apply same_capture_refl]. rewrite lookup_insert_ne; [done|]. congruence.
  - destruct (decide (py_ID p0 = i)) as [<-|Hne].
    + rewrite lookup_insert_eq. eexists. split; [done|]. rewrite H in Hp. injection Hp as ->.
      split_and!; try done. cbn. lia.
    + rewrite lookup_insert_ne by done. exists p. split; [done|apply same_capture_refl].
Qed.

Lemma capture_stays b b' i p : rtc move b b' -> bk_payments b !! i = Some p ->
  exists q, bk_payments b' !! i = Some q /\ same_capture p q.
Proof.
  intros Hm. revert p. induction Hm as [|b b1 b' Hstep _ IH]; intros p Hp; [exists p; split; [done|apply same_capture_refl]|].
  destruct (move_capture_stays _ _ _ _ Hstep Hp) as (q & Hq & Sq). destruct (IH q Hq) as (r & Hr & Sr).
  exists r. split; [done|]. by eapply same_capture_trans.
Qed.

(** ** Reports and secrets *)

(** Every report and every secret is of a session, and a digest is one of SHA-256. *)
Record Filed (b : Books) : Prop := mkFiled {
  filed_reports : map_Forall (fun id r => sr_SessionID r = id /\ is_Some (bk_sessions b !! id)) (bk_reports b);
  filed_answers : map_Forall (fun id a => length (sa_Digest a) = 32%nat /\ is_Some (bk_sessions b !! id)) (bk_answers b)
}.

(** A session's row is never deleted. *)
Lemma move_session_stays b b' i : move b b' -> is_Some (bk_sessions b !! i) -> is_Some (bk_sessions b' !! i).
Proof. intros Hm Hi. destruct Hm; autorewrite with books; cbn; try done; apply lookup_insert_is_Some'; by right. Qed.

Lemma settle_reports now id a k r b : bk_reports (settle now id a k r b) = bk_reports b.
Proof. unfold settle. by case_match. Qed.
Lemma settle_answers now id a k r b : bk_answers (settle now id a k r b) = bk_answers b.
Proof. unfold settle. by case_match. Qed.
Lemma insert_event_reports e b : bk_reports (insert_event e b) = bk_reports b.
Proof. unfold insert_event. by case_match. Qed.
Lemma insert_event_answers e b : bk_answers (insert_event e b) = bk_answers b.
Proof. unfold insert_event. by case_match. Qed.
#[export] Hint Rewrite settle_reports settle_answers insert_event_reports insert_event_answers : books.

(** Only a note touches the reports and the answers. *)
Lemma move_notes b b' : move b b' ->
  map_Forall (noted_report b) (bk_reports b') /\ map_Forall (noted_answer b) (bk_answers b') /\
  (forall id, is_Some (bk_answers b !! id) -> is_Some (bk_answers b' !! id)).
Proof.
  intros Hm. destruct Hm as [reports answers H1 H2 H3|c| | | | | |]; autorewrite with books; cbn; [done|..];
    (split; [intros i x Hx; by left|split; [intros i x Hx; by left|done]]).
Qed.

Lemma move_filed b b' : move b b' -> Filed b -> Filed b'.
Proof.
  intros Hm [H1 H2]. destruct (move_notes _ _ Hm) as (Hr & Ha & _). pose proof (move_session_stays b b') as Hs.
  split.
  - intros id r Hid. destruct (Hr id r Hid) as [Hold|[-> Hold]]; [destruct (H1 _ _ Hold); by auto|].
    split; [done|]. apply Hs; [done|]. destruct Hold as [[r' Hr']|Hses]; [|done]. by destruct (H1 _ _ Hr').
  - intros id a Hid. destruct (Ha id a Hid) as [Hold|[(_ & Hses & Hw & _)|(a' & Hold & -> & _)]];
      [destruct (H2 _ _ Hold)| |destruct (H2 _ _ Hold)]; by auto.
Qed.

(** A secret that was spent stays spent. *)
Definition spent (b : Books) (id : string) : Prop :=
  exists a t, bk_answers b !! id = Some a /\ sa_AnsweredAt a = Some t.

Lemma move_spent b b' id : move b b' -> spent b id -> spent b' id.
Proof.
  intros Hm (a & t & Ha & Ht). destruct (move_notes _ _ Hm) as (_ & Hn & Hk).
  destruct (Hk id) as [a' Ha']; [by exists a|].
  destruct (Hn id a' Ha') as [Hold|[(Hno & _)|(x & Hold & _ & Hx)]]; [|congruence|congruence].
  exists a, t. split; [congruence|done].
Qed.

Lemma spent_stays b b' id : rtc move b b' -> spent b id -> spent b' id.
Proof. induction 1 as [|b b1 b' Hm _ IH]; [done|]. intros Hs. by apply IH, (move_spent b). Qed.

(** What moves keep, over a sequence of them from sound books. *)
Lemma moves_keep (P : Books -> Prop) b b' :
  (forall x y, Sound x -> move x y -> P x -> P y) -> Sound b -> rtc move b b' -> P b -> P b'.
Proof.
  intros HP Hs Hm. revert Hs. induction Hm as [|b b1 b' Hstep _ IH]; [done|].
  intros Hs Hb. apply IH; [by eapply moved_books_sound|by eapply HP].
Qed.

(** ** What the rows of the books are *)

Definition sessionStatuses : list SessionStatus :=
  [SessionPending; SessionAuthorized; SessionCaptured; SessionCanceled; SessionFailed].

Definition amount_in (low high z : Z) : Prop := low <= z <= high.

(** Every column within its type and every reference to a row that is there. *)
Record well_typed (b : Books) : Prop := mkWellTyped {
  typed_collections : map_Forall (fun id c => pc_ID c = id /\ amount_in MinAmount MaxAmount (pc_Amount c) /\
    amount_in 0 (pc_Amount c) (pc_AuthorizedAmount c) /\ amount_in 0 (pc_Amount c) (pc_CapturedAmount c) /\
    amount_in 0 (pc_CapturedAmount c) (pc_RefundedAmount c) /\ currency_format (pc_CurrencyCode c) = true /\
    pc_Status c ∈ collectionStatusNames) (bk_collections b);
  typed_sessions : map_Forall (fun id s => ps_ID s = id /\ amount_in MinAmount MaxAmount (ps_Amount s) /\
    amount_in 0 (ps_Amount s) (ps_AuthorizedAmount s) /\ ps_Status s ∈ sessionStatuses /\
    exists c, bk_collections b !! ps_PaymentCollectionID s = Some c /\ ps_CurrencyCode s = pc_CurrencyCode c)
    (bk_sessions b);
  typed_payments : map_Forall (fun id p => py_ID p = id /\ amount_in MinAmount MaxAmount (py_Amount p) /\
    amount_in 0 (py_Amount p) (py_RefundedAmount p) /\
    exists s c, bk_sessions b !! py_PaymentSessionID p = Some s /\ bk_collections b !! py_PaymentCollectionID p = Some c /\
      ps_PaymentCollectionID s = py_PaymentCollectionID p /\ py_CurrencyCode p = pc_CurrencyCode c) (bk_payments b);
  typed_refunds : map_Forall (fun id r => rf_ID r = id /\
    exists p, bk_payments b !! rf_PaymentID r = Some p /\ amount_in MinAmount (py_Amount p) (rf_Amount r)) (bk_refunds b);
  typed_events : map_Forall (fun k e => ob_ID e = k /\ ob_Name e ∈ [EventPaymentCaptured; EventPaymentRefunded] /\
    is_Some (bk_collections b !! ob_CollectionID e)) (bk_outbox b);
  typed_reports : map_Forall (fun id r => sr_SessionID r = id /\ is_Some (bk_sessions b !! id)) (bk_reports b);
  typed_answers : map_Forall (fun id a => length (sa_Digest a) = 32%nat /\ is_Some (bk_sessions b !! id)) (bk_answers b)
}.

(** A session's amount is within its collection's bound: it was opened under it and never changes. *)
Definition sessions_bounded (b : Books) : Prop := map_Forall (fun _ s => ps_Amount s <= MaxAmount) (bk_sessions b).

Lemma move_bounded b b' : Sound b -> move b b' -> sessions_bounded b -> sessions_bounded b'.
Proof.
  intros H Hm Hb. unfold sessions_bounded.
  destruct Hm as [|c|now s c Hn Hc _ Hok Hz Hcur Hroom|now now' s c amount data Hs|now now' s c data reason Hs|now now' s c Hs|now now' s c p Hs|];
    autorewrite with books; cbn; try done; apply map_Forall_insert_2; try done; cbn; try by apply (Hb _ _ Hs).
  pose proof (collection_amounts H _ _ Hc). pose proof (held_saved H (pc_ID c)). lia.
Qed.

Lemma refund_of_payment b i r p : Sound b -> bk_refunds b !! i = Some r -> bk_payments b !! rf_PaymentID r = Some p ->
  rf_Amount r <= py_Amount p.
Proof.
  intros H Hr Hp. pose proof (sound_payments _ _ H _ _ Hp) as (_ & (_ & Hle & _)%payment_ok_iff & Hg & _).
  enough (rf_Amount r <= py_RefundedAmount p) by lia. rewrite Hg. unfold given_back.
  pose proof (sum_of_le (fun x => if decide (rf_PaymentID x = rf_PaymentID r) then rf_Amount x else 0) (bk_refunds b) i r) as Hs.
  cbn beta in Hs. rewrite decide_True in Hs by done. apply Hs; [|done].
  intros k x (_ & Hx & _)%(sound_refunds _ _ H). case_decide; lia.
Qed.

Lemma announced_event b k e : Sound b -> Announced b -> bk_outbox b !! k = Some e ->
  ob_ID e = k /\ ob_Name e ∈ [EventPaymentCaptured; EventPaymentRefunded] /\ is_Some (bk_collections b !! ob_CollectionID e).
Proof.
  intros H Ha He.
  assert (Hcol : forall i p, bk_payments b !! i = Some p -> is_Some (bk_collections b !! py_PaymentCollectionID p)).
  { intros i p (_ & _ & _ & s & Hs & _ & _ & <- & _)%(sound_payments _ _ H).
    by apply (sound_sessions _ _ H) in Hs as (_ & _ & _ & c & -> & _). }
  destruct (announced_only _ Ha _ _ He) as [(x & [p Hp] & ->)|(x & [r Hr] & ->)].
  - rewrite (announced_captures _ Ha _ _ Hp) in He. injection He as <-. split; [done|]. split; [set_solver|]. by eapply Hcol.
  - pose proof (sound_refunds _ _ H _ _ Hr) as (_ & _ & [p Hp]). rewrite (announced_refunds _ Ha _ _ _ Hr Hp) in He.
    injection He as <-. split; [done|]. split; [set_solver|]. by eapply Hcol.
Qed.

Lemma sound_well_typed b : Sound b -> Announced b -> Filed b -> sessions_bounded b -> well_typed b.
Proof.
  intros H Ha Hf Hb. split; try (unfold amount_in, MinAmount).
  - intros id c (Hid & (? & ? & ? & ? & [? _] & ?%Contains_spec)%collection_ok_iff & ?)%(sound_collections _ _ H).
    split_and!; (done || lia).
  - intros id s Hs. pose proof (Hb _ _ Hs) as Hmax. cbn in Hmax. apply (sound_sessions _ _ H) in Hs as (Hid & (? & ? & ? & ?%Contains_spec)%session_ok_iff & _ & Hc).
    split_and!; (done || lia).
  - intros id p Hp. pose proof Hp as (Hid & (? & ? & ?)%payment_ok_iff & _ & s & Hs & _ & _ & Ec & Ecur)%(sound_payments _ _ H).
    pose proof (sound_sessions _ _ H _ _ Hs) as (_ & _ & _ & c & Hc & Hcc). rewrite Ec in Hc. rewrite <- Hid in Hp.
    pose proof (payment_fits b c p H Hp Hc) as [Hle _]. pose proof (collection_amounts H _ _ Hc).
    split; [done|]. split; [lia|]. split; [lia|]. exists s, c. split_and!; (done || congruence).
  - intros id r Hr. pose proof Hr as (Hid & Hpos & [p Hp])%(sound_refunds _ _ H). split; [done|]. exists p.
    split; [done|]. pose proof (refund_of_payment b id r p H Hr Hp). lia.
  - intros k e He. by apply announced_event.
  - apply Hf.
  - apply Hf.
Qed.

(** ** What a collection's status says *)

Lemma count_if_pos (P : PaymentSession -> Prop) `{!forall s, Decision (P s)} id b :
  0 < count_if P (sessions_of id b) <->
  exists i s, bk_sessions b !! i = Some s /\ ps_PaymentCollectionID s = id /\ P s.
Proof.
  unfold count_if. split.
  - intros Hn. destruct (filter P (sessions_of id b)) as [|s l] eqn:E; [cbn in Hn; lia|].
    assert (Hs : s ∈ filter P (sessions_of id b)) by (rewrite E; apply list_elem_of_here).
    apply list_elem_of_filter in Hs as [HP [Hid (i & Hi)%elem_of_table]%list_elem_of_filter]. by exists i, s.
  - intros (i & s & Hi & Hid & HP). assert (Hs : s ∈ filter P (sessions_of id b)).
    { apply list_elem_of_filter. split; [done|]. apply list_elem_of_filter. split; [done|]. apply elem_of_table. by exists i. }
    destruct (filter P (sessions_of id b)); [by apply not_elem_of_nil in Hs|cbn; lia].
Qed.

Definition has_session (b : Books) (id : string) (P : PaymentSession -> Prop) : Prop :=
  exists i s, bk_sessions b !! i = Some s /\ ps_PaymentCollectionID s = id /\ P s.

(** The eight statuses, by the rows of the collection. *)
Inductive status_means (b : Books) (id : string) (amount : Z) : CollectionStatus -> Prop :=
| means_refunded : 0 < taken id b -> returned id b = taken id b -> status_means b id amount CollectionRefunded
| means_partially_refunded : 0 < returned id b < taken id b -> status_means b id amount CollectionPartiallyRefunded
| means_captured : 0 < taken id b -> taken id b = amount -> returned id b = 0 -> status_means b id amount CollectionCaptured
| means_partially_captured : 0 < taken id b < amount -> returned id b = 0 ->
    status_means b id amount CollectionPartiallyCaptured
| means_authorized : taken id b = 0 -> held id b = amount -> status_means b id amount CollectionAuthorized
| means_awaiting : taken id b = 0 -> held id b < amount -> has_session b id is_live ->
    status_means b id amount CollectionAwaiting
| means_canceled : taken id b = 0 -> held id b < amount -> ~ has_session b id is_live ->
    has_session b id (fun s => ps_Status s = SessionCanceled) -> status_means b id amount CollectionCanceled
| means_not_paid : taken id b = 0 -> held id b < amount -> ~ has_session b id is_live ->
    ~ has_session b id (fun s => ps_Status s = SessionCanceled) -> status_means b id amount CollectionNotPaid.

Lemma status_means_one b id amount s s' : status_means b id amount s -> status_means b id amount s' -> s = s'.
Proof. intros [] []; try done; exfalso; lia. Qed.

Lemma status_sound b id c : Sound b -> bk_collections b !! id = Some c -> status_means b id (pc_Amount c) (pc_Status c).
Proof.
  intros H Hc. destruct (sound_totals _ _ H id c I Hc) as (Ha & Hk & Hr & Hroom & ->).
  pose proof (collection_amounts H id c Hc). pose proof (held_saved H id). pose proof (returned_taken H id).
  pose proof (count_if_pos is_live id b) as Hl. pose proof (count_if_pos (fun s => ps_Status s = SessionCanceled) id b) as Hx.
  fold (has_session b id is_live) in Hl. fold (has_session b id (fun s => ps_Status s = SessionCanceled)) in Hx.
  unfold CollectionStatusFor. cbn [sn_Live sn_Canceled SessionCounts_of]. rewrite Ha, Hk, Hr in *.
  destruct (Z.ltb_spec 0 (taken id b)).
  - destruct (Z.leb_spec (taken id b) (returned id b)); [constructor; lia|].
    destruct (Z.ltb_spec 0 (returned id b)); [constructor; lia|].
    destruct (Z.leb_spec (pc_Amount c) (taken id b)); constructor; lia.
  - destruct (Z.ltb_spec 0 (held id b)), (Z.leb_spec (pc_Amount c) (held id b)); cbn [andb]; try (constructor; lia); try lia;
    (destruct (Z.ltb_spec 0 (count_if is_live (sessions_of id b)));
      [apply means_awaiting; [lia|lia|by apply Hl]|]);
    (destruct (Z.ltb_spec 0 (count_if (fun s => ps_Status s = SessionCanceled) (sessions_of id b)));
      [apply means_canceled|apply means_not_paid]); try lia; rewrite <- ?Hl, <- ?Hx; lia.
Qed.

(** * What the payment service answers

    Captures, refunds and refunds of a collection by what they answer and what they leave. *)

(** ** Plans of refunds *)

Definition refundable (p : Payment) : Z := py_Amount p - py_RefundedAmount p.

(** What the rows of one collection look like: no capture over-refunded, and all of them within the
    bound of a collection. *)
Definition captures_ok (l : list Payment) : Prop :=
  Forall (fun p => 0 <= py_RefundedAmount p <= py_Amount p) l /\ (sumZ (py_Amount <$> l) <= MaxAmount).

Lemma captures_ok_cons p l : captures_ok (p :: l) ->
  0 <= refundable p <= MaxAmount /\ (0 <= py_RefundedAmount p <= py_Amount p /\ py_Amount p <= MaxAmount) /\
  captures_ok l /\ 0 <= sumZ (refundable <$> l) <= MaxAmount - refundable p.
Proof.
  intros [HF Hs]. apply Forall_cons in HF as [Hp HF]. rewrite fmap_cons, sumZ_cons in Hs.
  assert (Hn : 0 <= sumZ (refundable <$> l) <= sumZ (py_Amount <$> l)).
  { clear Hs. induction HF as [|q l Hq HF IH]; [done|]. rewrite !fmap_cons, !sumZ_cons. unfold refundable at 1 3. lia. }
  unfold refundable in *. split; [lia|]. split; [lia|]. split; [split; [done|lia]|lia].
Qed.

Lemma left_on p l : captures_ok (p :: l) -> sub64 (py_Amount p) (py_RefundedAmount p) = refundable p.
Proof. intros (_ & H & _)%captures_ok_cons. unfold refundable. apply sub64_exact. unfold MaxAmount in *. in64. Qed.

Lemma refundableOf_exact l : captures_ok l -> refundableOf l = sumZ (refundable <$> l).
Proof.
  intros H. unfold refundableOf.
  assert (E : (fun p => sub64 (py_Amount p) (py_RefundedAmount p)) <$> l = refundable <$> l).
  { induction l as [|p l IH]; [done|]. rewrite !fmap_cons, (left_on p l H). f_equal. apply IH.
    by apply captures_ok_cons in H as (_ & _ & ? & _). }
  rewrite E. apply sum64_exact.
  - apply Forall_fmap. destruct H as [HF _]. eapply Forall_impl; [exact HF|]. intros p Hp. change (0 <= refundable p). unfold refundable. cbn in Hp. lia.
  - destruct l as [|p l]; [done|]. rewrite fmap_cons, sumZ_cons. apply captures_ok_cons in H as (_ & _ & _ & ?). unfold MaxAmount in *. in64.
Qed.

(** A plan's parts: captures of the list, in its order, each at most once and for no more than is left. *)
Inductive planned : list Payment -> list (string * Z) -> Prop :=
| planned_end l : planned l []
| planned_skip p l plan : planned l plan -> planned (p :: l) plan
| planned_part p l plan part : 0 < part <= refundable p -> planned l plan -> planned (p :: l) ((py_ID p, part) :: plan).

Lemma refund_parts_planned l left : captures_ok l -> 0 <= left <= sumZ (refundable <$> l) ->
  planned l (refund_parts l left) /\ sumZ (snd <$> refund_parts l left) = left.
Proof.
  revert left. induction l as [|p l IH]; intros left H Hl; [split; [apply planned_end|change (0 <= left <= 0) in Hl; change (0 = left); lia]|].
  cbn [refund_parts]. destruct (Z.eqb_spec left 0) as [->|Hne]; [split; [apply planned_end|done]|].
  rewrite (left_on p l H). pose proof (captures_ok_cons p l H) as (Hp & _ & Hok & Hs).
  rewrite fmap_cons, sumZ_cons in Hl. destruct (Z.leb_spec (refundable p) 0).
  - destruct (IH left Hok) as [H1 H2]; [lia|]. split; [by apply planned_skip|done].
  - set (part := if left <? refundable p then left else refundable p).
    assert (Hpart : 0 < part <= refundable p /\ part <= left /\ left - part <= sumZ (refundable <$> l)).
    { unfold part. destruct (Z.ltb_spec left (refundable p)); lia. }
    rewrite sub64_exact by (unfold MaxAmount in *; in64).
    destruct (IH (left - part) Hok) as [H1 H2]; [lia|]. split; [apply planned_part; [lia|done]|].
    rewrite fmap_cons, sumZ_cons, H2. change (part + (left - part) = left). lia.
Qed.

(** The amount a plan is for. *)
Definition planned_amount (l : list Payment) (amount : Z) : Z :=
  if amount =? 0 then sumZ (refundable <$> l) else amount.

Lemma planRefund_ok coll l amount : captures_ok l -> 0 <= amount ->
  (exists plan, planRefund coll l amount = Ok plan) <-> 0 < sumZ (refundable <$> l) /\ amount <= sumZ (refundable <$> l).
Proof.
  intros H Ha. unfold planRefund. rewrite refundableOf_exact by done.
  destruct (Z.leb_spec (sumZ (refundable <$> l)) 0).
  - split; [by intros []|lia].
  - destruct (Z.eqb_spec amount 0) as [->|]; (case_match eqn:E; [apply Z.ltb_lt in E|apply Z.ltb_ge in E]);
      (split; [intros []; (done || lia)|intros; first [by eexists|lia]]).
Qed.

Lemma planRefund_parts coll l amount plan : captures_ok l -> 0 <= amount -> planRefund coll l amount = Ok plan ->
  planned l plan /\ sumZ (snd <$> plan) = planned_amount l amount.
Proof.
  intros H Ha. unfold planRefund, planned_amount. rewrite refundableOf_exact by done.
  destruct (Z.leb_spec (sumZ (refundable <$> l)) 0); [done|].
  set (am := if amount =? 0 then _ else _). destruct (Z.ltb_spec (sumZ (refundable <$> l)) am); [done|].
  intros [= <-]. apply refund_parts_planned; [done|]. unfold am in *. destruct (amount =? 0); lia.
Qed.

(** The captures of a collection of sound books, in any order. *)
Lemma captures_of_sound b coll l : Sound b -> l ≡ₚ payments_of coll b -> captures_ok l.
Proof.
  intros H Hl. split.
  - apply Forall_forall. intros p Hp. rewrite Hl in Hp. apply list_elem_of_filter in Hp as [_ (k & Hk)%elem_of_table].
    by apply (payment_amounts H k p).
  - rewrite (sumZ_perm _ _ (fmap_Permutation py_Amount _ _ Hl)). unfold payments_of. rewrite sum_of_filter. change (taken coll b <= MaxAmount).
    destruct (bk_collections b !! coll) as [c|] eqn:Hc.
    + destruct (sound_totals _ _ H coll c I Hc) as (_ & <- & _). pose proof (collection_amounts H coll c Hc). lia.
    + unfold taken. rewrite sum_of_zero; [unfold MaxAmount; lia|]. intros k p Hp. unfold of_payment.
      case_decide as E; [|done]. apply (sound_payments _ _ H) in Hp as (_ & _ & _ & s & Hs & _ & _ & Ec & _).
      apply (sound_sessions _ _ H) in Hs as (_ & _ & _ & c & Hc' & _). congruence.
Qed.

(** ** Refunds by cause *)

Lemma caused_read reference b :
  caused reference b = sum_of (fun r => if decide (rf_Reference r = reference /\ rf_Reference r <> EmptyString)
    then rf_Amount r else 0) (bk_refunds b).
Proof. apply sum_of_filter. Qed.

Lemma caused_insert reference b b' r : bk_refunds b !! rf_ID r = None -> bk_refunds b' = <[rf_ID r := r]> (bk_refunds b) ->
  reference <> EmptyString -> rf_Reference r = reference -> caused reference b' = caused reference b + rf_Amount r.
Proof.
  intros Hn E Hne <-. rewrite !caused_read, E, sum_of_insert by done. rewrite decide_True by done. lia.
Qed.

Lemma caused_nonneg P reference b : SoundFor P b -> 0 <= caused reference b.
Proof.
  intros H. rewrite caused_read. apply sum_of_nonneg. intros k r (_ & Hr & _)%(sound_refunds _ _ H). case_decide; lia.
Qed.

(** A refund is for no more than a collection's bound. *)
Lemma refund_bounded b i r : Sound b -> bk_refunds b !! i = Some r -> rf_Amount r <= MaxAmount.
Proof.
  intros H Hr. pose proof (sound_refunds _ _ H _ _ Hr) as (_ & _ & [p Hp]).
  pose proof (sound_payments _ _ H _ _ Hp) as (Ep & (_ & Hpr & _)%payment_ok_iff & Hg & s & Hs & _ & _ & Ec & _).
  pose proof (sound_sessions _ _ H _ _ Hs) as (_ & _ & _ & c & Hc & _). rewrite Ec in Hc. rewrite <- Ep in Hp.
  pose proof (payment_fits b c p H Hp Hc) as [Hfit _]. pose proof (collection_amounts H _ c Hc).
  enough (rf_Amount r <= py_RefundedAmount p) by lia. rewrite Hg. unfold given_back.
  pose proof (sum_of_le (fun x => if decide (rf_PaymentID x = rf_PaymentID r) then rf_Amount x else 0) (bk_refunds b) i r) as Hle.
  cbn beta in Hle. rewrite decide_True in Hle by done. apply Hle; [|done].
  intros k x (_ & Hx & _)%(sound_refunds _ _ H). case_decide; lia.
Qed.

Section Answers.
Context {W : Type} `{!Outside W}.
Context (providers : Registry W) (earnBasisPoints : Z) (Hq : all_quiet providers).
Abbreviation gives_books := (gives (@sy_books W)).

Record refund_made (pid : string) (amount : Z) (reference : string) (ceiling : Z) (b : Books) (r : Refund) (b' : Books)
    : Prop := mkRefundMade {
  made_moves : move b b';
  made_of : exists p, bk_payments b !! pid = Some p /\ rf_Amount r = refund_amount p amount;
  made_payment : rf_PaymentID r = pid;
  made_reference : rf_Reference r = reference;
  made_new : bk_refunds b !! rf_ID r = None;
  made_row : bk_refunds b' = <[rf_ID r := r]> (bk_refunds b);
  made_within : reference <> EmptyString -> cause_check reference (caused reference b) (rf_Amount r) ceiling = None
}.

Lemma gives_refundPayment b pid amount reason reference ceiling : Sound b ->
  gives_books b (refundPayment providers earnBasisPoints pid amount reason reference ceiling)
    (refund_made pid amount reference ceiling b).
Proof.
  intros H. unfold refundPayment. do 4 (apply gives_bind, gives_check; intros _).
  apply gives_bind, gives_read. intros p Hp.
  apply gives_bind. intros st st1 prov Eb E st2 st3 r E2. revert E2.
  assert (Hb : sy_books st1 = b).
  { rewrite <- Eb. pose proof (keeps_providerForSession providers (py_PaymentSessionID p) st) as Hk. by rewrite E in Hk. }
  pose proof (providerForSession_quiet providers Hq _ _ _ _ E) as Hpq. rewrite Hb. revert st2 st3 r.
  apply gives_bind, gives_outside; [apply _|]. apply gives_bind, gives_lock. intros col s Hs Hc Eid.
  apply gives_bind, gives_read. intros p' Hp'. rewrite Hp in Hp'. injection Hp' as <-.
  destruct (sound_payments _ _ H _ _ Hp) as (Ep & _ & _ & s' & Hs' & _ & _ & Ec & _).
  rewrite Hs in Hs'. injection Hs' as <-. rewrite Ec in Hc. rewrite <- Ep in Hp.
  apply gives_bind. eapply gives_mono; [by apply gives_refund|]. intros r b' (Hm & Hn & Hi & Epid & Er & Ea & Hw).
  apply gives_ret. cbn [fst snd]. apply gives_bind, gives_keep; [apply keeps_publish|]. intros _. apply gives_ret.
  split; try done; [exists p; by rewrite <- Ep|congruence].
Qed.

Lemma undone_refundPayment pid amount reason reference ceiling :
  undone (@sy_books W) (refundPayment providers earnBasisPoints pid amount reason reference ceiling).
Proof.
  unfold refundPayment. do 4 (apply undone_before; [apply keeps_check|intros _]).
  apply undone_before; [unfold GetPayment; keeps_tac|intros p].
  apply undone_before; [apply keeps_providerForSession|intros prov].
  apply undone_after; [apply undone_WithTx, _|]. by intros [r c] st.
Qed.

(** ** A refund of a collection, move by move *)

Lemma refund_each_counted coll planned reason reference ceiling plan made st : Sound (sy_books st) ->
  exists n out, (refund_each providers earnBasisPoints coll planned reason reference ceiling plan made st).2 = Ok out /\
    length out.1 = (length made + n)%nat /\
    nsteps move n (sy_books st)
      (sy_books (refund_each providers earnBasisPoints coll planned reason reference ceiling plan made st).1).
Proof.
  revert made st. induction plan as [|[pid amount] plan IH]; intros made st H.
  { exists 0%nat, (made, None). cbn. split; [done|]. split; [lia|constructor]. }
  cbn [refund_each]. destruct (refundPayment _ _ _ _ _ _ _ st) as [st1 [r|e]] eqn:E.
  - destruct (gives_refundPayment _ _ _ _ _ _ H st st1 r eq_refl E) as [Hm _ _ _ _ _ _].
    destruct (IH (made ++ [r]) st1 (moved_books_sound _ _ H Hm)) as (n & out & Eo & El & Hn).
    exists (S n), out. split; [done|]. rewrite length_app in El. split; [cbn in El; lia|]. by eapply nsteps_l.
  - pose proof (undone_refundPayment _ _ _ _ _ _ _ _ E) as Hb. exists 0%nat.
    destruct made; eexists; (split; [reflexivity|]); (split; [cbn; lia|]); cbn [fst]; rewrite Hb; constructor.
Qed.

(** How many refunds a run answers. *)
Definition refunds_made (r : result (list Refund * option err)) : nat :=
  match r with Ok out => length out.1 | Fail _ => 0 end.

Definition one_move_each (m : tx (Sys W) (list Refund * option err)) : Prop :=
  forall st, Sound (sy_books st) -> nsteps move (refunds_made (m st).2) (sy_books st) (sy_books (m st).1).

Lemma each_before {A} (m : tx (Sys W) A) f : keeps (@sy_books W) m -> (forall a, one_move_each (f a)) -> one_move_each (m ≫= f).
Proof.
  intros Hm Hf st H. unfold mbind, tx_bind. specialize (Hm st). destruct (m st) as [st1 [a|e]]; cbn in *; rewrite <- Hm.
  - apply Hf. by rewrite Hm.
  - constructor.
Qed.

(** A refund of a collection takes one move per refund it answers, also when it fails part-way. *)
Lemma RefundCollection_each coll amount ceiling reason reference :
  one_move_each (RefundCollection providers earnBasisPoints coll amount ceiling reason reference).
Proof.
  unfold RefundCollection. do 6 (apply each_before; [apply keeps_check|intros _]).
  apply each_before; [unfold ListPaymentsByCollection; keeps_tac|intros l].
  apply each_before; [unfold RefundedForReference; keeps_tac|intros given].
  do 2 (apply each_before; [apply keeps_of|intros ?]). intros st H.
  match goal with |- context [refund_each _ _ _ ?n _ _ _ ?plan _] =>
    destruct (refund_each_counted coll n reason reference ceiling plan [] st H) as (k & out & Eo & El & Hn) end.
  rewrite Eo. cbn [refunds_made]. rewrite El. exact Hn.
Qed.

(** What a run over a plan made. *)
Record run_made (plan : list (string * Z)) (reference : string) (ceiling : Z) (b : Books) (new : list Refund)
    (failed : option err) (b' : Books) : Prop := mkRunMade {
  run_prefix : ((fun r => (rf_PaymentID r, rf_Amount r)) <$> new) `prefix_of` plan;
  run_whole : failed = None -> ((fun r => (rf_PaymentID r, rf_Amount r)) <$> new) = plan;
  run_reference : Forall (fun r => rf_Reference r = reference) new;
  run_caused : caused reference b' = caused reference b + sumZ (rf_Amount <$> new);
  run_within : caused reference b' <= ceiling
}.

Lemma refund_each_made coll planned reason reference ceiling plan made st st' out failed :
  Sound (sy_books st) -> Forall (fun q => q.2 <> 0) plan -> reference <> EmptyString ->
  caused reference (sy_books st) <= ceiling -> ceiling <= int64_max - MaxAmount ->
  refund_each providers earnBasisPoints coll planned reason reference ceiling plan made st = (st', Ok (out, failed)) ->
  exists new, out = made ++ new /\ run_made plan reference ceiling (sy_books st) new failed (sy_books st').
Proof.
  intros H Hplan Hne Hle Hceil. revert made st H Hle. induction Hplan as [|[pid amount] plan Ham Hplan IH]; intros made st H Hle.
  { intros [= <- <- <-]. exists []. split; [by rewrite app_nil_r|]. split; try done.
    rewrite fmap_nil, sumZ_nil. lia. }
  cbn [refund_each]. destruct (refundPayment _ _ _ _ _ _ _ st) as [st1 [r|e]] eqn:E; intros Hrun.
  - destruct (gives_refundPayment _ _ _ _ _ _ H st st1 r eq_refl E) as [Hm (p & Hp & Ea) Ep Er Hn Hi Hw].
    unfold refund_amount in Ea. destruct (Z.eqb_spec amount 0); [done|].
    pose proof (moved_books_sound _ _ H Hm) as H1. pose proof (caused_insert reference _ _ r Hn Hi Hne Er) as Ec.
    assert (Hc1 : caused reference (sy_books st1) <= ceiling).
    { specialize (Hw Hne). unfold cause_check in Hw. pose proof (caused_nonneg _ reference _ H).
      pose proof (sound_refunds _ _ H1 (rf_ID r) r) as Hr. rewrite Hi, lookup_insert_eq in Hr. specialize (Hr eq_refl) as (_ & Hpos & _).
      assert (rf_Amount r <= MaxAmount) by (by eapply refund_bounded; [exact H1|rewrite Hi; apply lookup_insert_eq]).
      rewrite add64_exact in Hw by (unfold MaxAmount in *; in64). destruct (Z.ltb_spec ceiling (caused reference (sy_books st) + rf_Amount r)); [done|lia]. }
    destruct (IH _ _ H1 Hc1 Hrun) as (new & -> & [H2 H3 H4 H5 H6]). exists (r :: new). split; [by rewrite <- app_assoc|].
    split; [| | | |done].
    + rewrite fmap_cons, Ep, Ea. by apply prefix_cons.
    + intros Hf. rewrite fmap_cons, Ep, Ea. f_equal. by apply H3.
    + by constructor.
    + rewrite H5, Ec, fmap_cons, sumZ_cons. lia.
  - pose proof (undone_refundPayment _ _ _ _ _ _ _ _ E) as Hb.
    assert (Eo : exists e', (st', out, failed) = (st1, made, Some e')) by (destruct made; injection Hrun as <- <- <-; by eexists).
    destruct Eo as [e' [= -> -> ->]]. exists []. split; [by rewrite app_nil_r|]. rewrite Hb.
    split; try done; [apply prefix_nil|]. rewrite fmap_nil, sumZ_nil. lia.
Qed.
Lemma planned_nonzero l plan : planned l plan -> Forall (fun q => q.2 <> 0) plan.
Proof. induction 1; [done|done|]. constructor; [cbn; lia|done]. Qed.

Lemma requireText_nonempty label v : requireText label v = None -> v <> EmptyString.
Proof. intros H ->. by vm_compute in H. Qed.

(** The amount a refund of a collection plans for. *)
Lemma cause_amount_ok reference given ceiling amount l a : captures_ok l -> 0 <= amount -> 0 <= given <= int64_max ->
  0 < ceiling <= int64_max -> cause_amount reference given ceiling amount l = Ok a ->
  given < ceiling /\ 0 <= a <= ceiling - given /\
  a = (if amount =? 0 then Z.min (ceiling - given) (sumZ (refundable <$> l)) else amount).
Proof.
  intros Hl Ha Hg Hc. unfold cause_amount. rewrite sub64_exact by in64. rewrite refundableOf_exact by done.
  assert (Hn : 0 <= sumZ (refundable <$> l)).
  { apply sumZ_nonneg, Forall_fmap. destruct Hl as [HF _]. eapply Forall_impl; [exact HF|]. intros p Hp.
    change (0 <= refundable p). unfold refundable. cbn in Hp. lia. }
  destruct (Z.leb_spec (ceiling - given) 0); [done|].
  destruct (amount =? 0); (case_match eqn:E; [done|]); intros [= <-]; apply Z.ltb_ge in E; lia.
Qed.

(** What [RefundCollection] answers. *)
Definition refund_outcome (coll reference : string) (amount ceiling : Z) (b : Books) (out : list Refund * option err)
    (b' : Books) : Prop :=
  exists l plan, l ≡ₚ payments_of coll b /\ planned l plan /\
    run_made plan reference ceiling b (fst out) (snd out) b' /\
    sumZ (snd <$> plan) = (if amount =? 0
      then Z.min (ceiling - caused reference b) (sumZ (refundable <$> l)) else amount).

Lemma gives_RefundCollection b coll amount ceiling reason reference : Sound b -> ceiling <= int64_max - MaxAmount ->
  gives_books b (RefundCollection providers earnBasisPoints coll amount ceiling reason reference)
    (refund_outcome coll reference amount ceiling b).
Proof.
  intros H Hceil. unfold RefundCollection. apply gives_bind, gives_check; intros _.
  apply gives_bind, gives_check; intros [Ham _]%requireOptionalAmount_ok. apply gives_bind, gives_check; intros _.
  apply gives_bind, gives_check; intros Hne%requireText_nonempty. apply gives_bind, gives_check; intros _.
  apply gives_bind, gives_check. unfold ceiling_check. destruct (Z.leb_spec ceiling 0) as [|Hpos]; [done|]. intros _.
  apply gives_bind, gives_ask_books. intros _ _ l [= <-]. set (l := newest_first _ _ _).
  assert (Hl : l ≡ₚ payments_of coll b) by apply SortFunc_perm.
  pose proof (captures_of_sound b coll l H Hl) as Hok.
  apply gives_bind, gives_ask_books. intros _ _ given Hg. fold (caused reference b) in Hg.
  assert (Hg64 : caused reference b <= int64_max) by (unfold to_bigint in Hg; case_match; [lia|done]).
  apply to_bigint_rows in Hg as ->. pose proof (caused_nonneg _ reference b H).
  apply gives_bind, gives_of. intros a Hc%cause_amount_ok; [|done|done|lia|unfold MaxAmount in *; lia].
  destruct Hc as (Hlt & Hale & Ea). apply gives_bind, gives_of. intros plan Hplan.
  destruct (planRefund_parts coll l a plan Hok (proj1 Hale) Hplan) as [Hp Hsum].
  assert (Ha0 : planned_amount l a = a).
  { unfold planned_amount. destruct (Z.eqb_spec a 0) as [->|]; [|done].
    assert (Hex : exists plan, planRefund coll l 0 = Ok plan) by by exists plan.
    apply planRefund_ok in Hex as [Hpos' _]; [|done..]. destruct (amount =? 0) eqn:E; lia. }
  intros st st' [out failed] Eb Hrun. exists l, plan. split; [done|]. split; [done|]. rewrite Ha0 in Hsum.
  assert (Hs : Sound (sy_books st)) by by rewrite Eb.
  assert (Hle : caused reference (sy_books st) <= ceiling) by (rewrite Eb; lia).
  destruct (refund_each_made _ _ _ _ _ _ _ st st' out failed Hs (planned_nonzero _ _ Hp) Hne Hle Hceil Hrun)
    as (new & -> & Hmade). rewrite Eb in Hmade.
  split; [done|]. by rewrite Hsum.
Qed.

(** ** Captures *)

Record capture_answered (id : string) (amount : Z) (b : Books) (p : Payment) (b' : Books) : Prop := mkCaptureAnswered {
  answered_moves : b' = b \/ move b b';
  answered_row : bk_payments b' !! py_ID p = Some p;
  answered_session : py_PaymentSessionID p = id;
  answered_amount : amount = 0 \/ py_Amount p = amount
}.

Lemma payment_of_session_Some b id p : Sound b -> payment_of_session id b = Some p ->
  bk_payments b !! py_ID p = Some p /\ py_PaymentSessionID p = id.
Proof.
  intros H [E (k & Hk)]%head_filter_Some. pose proof (sound_payments _ _ H _ _ Hk) as (<- & _). done.
Qed.

Lemma gives_CapturePayment b id amount : Sound b ->
  gives_books b (CapturePayment providers earnBasisPoints id amount) (capture_answered id amount b).
Proof.
  intros H. unfold CapturePayment. do 2 (apply gives_bind, gives_check; intros _).
  apply gives_bind. intros st st1 prov Eb E st2 st3 r E2. revert E2.
  assert (Hb : sy_books st1 = b).
  { rewrite <- Eb. pose proof (keeps_providerForSession providers id st) as Hk. by rewrite E in Hk. }
  pose proof (providerForSession_quiet providers Hq _ _ _ _ E) as Hpq. rewrite Hb. revert st2 st3 r.
  apply gives_bind. apply (gives_mono _ _ _ (capture_answered id amount b)).
  - apply gives_outside; [apply _|]. apply gives_bind, gives_lock. intros col s Hs Hc Eid.
    pose proof (put_session_same _ _ _ _ H Hs) as Es. destruct (CaptureAction (ps_Status s)) eqn:Ha; [by apply gives_of| |].
    + rewrite <- Es in Hs. assert (Hst : ps_Status s = SessionAuthorized) by (unfold CaptureAction in Ha; by repeat case_bool_decide).
      eapply gives_mono; [by apply gives_capture|]. intros p b' (Hm & Hp & Eps & _ & Eam).
      split; [by right|done|congruence|]. destruct (Z.eqb_spec amount 0); [by left|by right].
    + apply gives_bind, gives_read. intros p Hp. apply gives_bind, gives_check. intros Hre. apply gives_ret.
      apply payment_of_session_Some in Hp as [Hp Eps]; [|done]. split; [by left|done|congruence|].
      unfold recapture_check in Hre. destruct (Z.eqb_spec amount 0); [by left|]. destruct (Z.eqb_spec amount (py_Amount p)); [by right|done].
  - intros p b' Hp. apply gives_bind, gives_keep; [apply keeps_publish|]. intros _. by apply gives_ret.
Qed.

(** ** A session captured already *)

(** What a capture of a captured session comes to: it reads. *)
Definition recapture (id : string) (amount : Z) : tx (Sys W) Payment :=
  out ← WithTx false (
    cs ← lockCollectionAndSession id;
    existing ← PaymentBySession (ps_ID cs.2);
    _ ← tx_check (recapture_check cs.2 amount existing);
    mret existing);
  _ ← publishMoneyMoved EventPaymentCaptured (py_ID out) (py_PaymentCollectionID out) (py_CapturedAt out);
  mret out.

Lemma keeps_recapture id amount : keeps (@tables W) (recapture id amount).
Proof.
  unfold recapture, lockCollectionAndSession, GetPaymentSession, PaymentBySession. keeps_tac.
  all: try (intros st; reflexivity).
Qed.

Lemma gives_recapture b id amount p : Sound b -> bk_payments b !! py_ID p = Some p -> py_PaymentSessionID p = id ->
  gives_books b (recapture id amount) (fun q _ => q = p).
Proof.
  intros H Hp Eps. pose proof (sound_payments _ _ H _ _ Hp) as (_ & _ & _ & s & Hs & _). rewrite Eps in Hs.
  apply gives_bind. apply (gives_mono _ _ _ (fun q _ => q = p)).
  - apply gives_outside; [apply _|]. apply gives_bind, gives_lock. intros col s' Hs' Hc Eid.
    rewrite Hs in Hs'. injection Hs' as <-. cbn [snd].
    apply gives_bind, gives_read. intros q Hq'. apply gives_bind, gives_check. intros _. apply gives_ret.
    apply payment_of_session_Some in Hq' as [Hq' Eq]; [|done]. pose proof (put_session_same _ _ _ _ H Hs) as Es.
    assert (E : py_ID q = py_ID p) by (eapply (sound_once _ _ H); [exact Hq'|exact Hp|congruence]).
    rewrite E, Hp in Hq'. congruence.
  - intros q b' ->. apply gives_bind, gives_keep; [apply keeps_publish|]. intros _. by apply gives_ret.
Qed.

(** Two transactions whose bodies agree on the books they find. *)
Lemma WithTx_same {A} (m m' : tx (Sys W) A) st :
  (forall st', sy_books st' = sy_books st -> m st' = m' st') -> WithTx false m st = WithTx false m' st.
Proof. intros Hm. unfold WithTx. destruct (out_fault _ _) as [w [d|]]; [done|]. by rewrite Hm. Qed.

(** A captured session's capture is [recapture], with any registry: no provider is asked. *)
Lemma CapturePayment_again (other : Registry W) id amount b s (prov : PaymentProvider W) st : sy_books st = b -> Sound b ->
  bk_sessions b !! id = Some s -> ps_Status s = SessionCaptured ->
  forall st1, requireText "payment_session_id" id = None -> requireOptionalAmount "amount" amount = None ->
  providerForSession other id st = (st1, Ok prov) ->
  CapturePayment other earnBasisPoints id amount st = recapture id amount st1.
Proof.
  intros Eb H Hs Hst st1 E1 E2 E3. unfold CapturePayment, recapture, mbind, tx_bind. unfold tx_check at 1 2. rewrite E1, E2, E3.
  pose proof (keeps_providerForSession other id st) as Hk. rewrite E3 in Hk. cbn in Hk.
  match goal with |- match ?x with _ => _ end = match ?y with _ => _ end => enough (E : x = y) by (by rewrite E) end.
  apply WithTx_same. intros st2 Eb2.
  destruct (lockCollectionAndSession id st2) as [st3 [[col s']|e]] eqn:El; [|done]. cbn [snd].
  assert (Es : s' = s).
  { refine (gives_lock b id (fun cs _ => cs.2 = s) _ st2 st3 (col, s') _ El); [|congruence].
    intros col0 s0 Hs0 _ _. cbn [snd]. congruence. }
  by rewrite Es, Hst.
Qed.

(** The provider of a session is read off the books. *)
Lemma providerForSession_same (other : Registry W) id st st1 prov :
  (forall i p, Get providers i = Ok p -> exists p', Get other i = Ok p') ->
  providerForSession providers id st = (st1, Ok prov) -> exists prov', providerForSession other id st = (st1, Ok prov').
Proof.
  intros Ho. unfold providerForSession, mbind, tx_bind. destruct (GetPaymentSession id st) as [st' [s|e]]; [|done].
  unfold tx_of. intros [= <- E]. destruct (Ho _ _ E) as [p' Hp']. exists p'. by rewrite Hp'.
Qed.

(** A session of a payment is captured again without a trace, and without asking a provider: every
    table is as it was, and the run, the world after it included, is the same whatever providers stand
    behind the registered names. *)
Lemma capture_again_reads b id amount p st st' q : sy_books st = b -> Sound b ->
  bk_payments b !! py_ID p = Some p -> py_PaymentSessionID p = id ->
  CapturePayment providers earnBasisPoints id amount st = (st', Ok q) ->
  q = p /\ tables st' = tables st /\
  forall other : Registry W, (forall i pr, Get providers i = Ok pr -> exists pr', Get other i = Ok pr') ->
    CapturePayment other earnBasisPoints id amount st = (st', Ok q).
Proof.
  intros Eb H Hp Eps E. pose proof (sound_payments _ _ H _ _ Hp) as (_ & _ & _ & s & Hs & Hst & _). rewrite Eps in Hs.
  assert (Hchecks : requireText "payment_session_id" id = None /\ requireOptionalAmount "amount" amount = None /\
    exists st1 prov, providerForSession providers id st = (st1, Ok prov)).
  { revert E. unfold CapturePayment, mbind, tx_bind, tx_check at 1 2. destruct (requireText _ _); [done|].
    destruct (requireOptionalAmount _ _); [done|]. destruct (providerForSession _ _ _) as [st1 [prov|e]]; [|done]. by eauto. }
  destruct Hchecks as (E1 & E2 & st1 & prov & E3).
  rewrite (CapturePayment_again providers id amount b s prov st Eb H Hs Hst st1 E1 E2 E3) in E.
  assert (Ht : tables st1 = tables st) by (pose proof (keeps_provider_read providers id st) as Hk; by rewrite E3 in Hk).
  assert (Eb1 : sy_books st1 = b) by (injection Ht; congruence).
  split; [exact (gives_recapture b id amount p H Hp Eps st1 st' q Eb1 E)|]. split.
  - pose proof (keeps_recapture id amount st1) as Hk. rewrite E in Hk. cbn in Hk. congruence.
  - intros other Ho. destruct (providerForSession_same other id st st1 prov Ho E3) as [prov' E3'].
    by rewrite (CapturePayment_again other id amount b s prov' st Eb H Hs Hst st1 E1 E2 E3').
Qed.
End Answers.
