(* ===== verification/PaymentProps.v ===== *)
(** * Properties of the payment module *)
From S2P Require Import Prelude GoText Errors Tx Identifiers Database PaymentModels PaymentStore PaymentRules PaymentTills PaymentProviders PaymentService PaymentCredit PaymentMoves PaymentRefines PaymentFrames PaymentLedger PaymentCalls PaymentTenders PaymentHistory.

(** ** Books without rows *)

Definition no_books : Books := mkBooks ∅ ∅ ∅ ∅ ∅ ∅ ∅.
Definition no_tills : Tills := mkTills ∅ [] ∅ [] ∅ ∅ ∅ [] ∅.

Lemma no_books_sound : Sound no_books.
Proof. by split; try apply map_Forall_empty; intros; simplify_map_eq. Qed.

Lemma no_books_announced : Announced no_books.
Proof. by split; intros; simplify_map_eq. Qed.

Lemma no_books_filed : Filed no_books.
Proof. by split; apply map_Forall_empty. Qed.

(** ** A shop for the examples *)

Module Shop.
(** The world is its clock, which also makes the identifiers. *)
Definition at_tick (n : Z) : seed := mkSeed (n * 1000000) (Some [1;2;3;4;5;6;7;8;9;10]).

#[global] Instance ticking : Outside Z := {|
  out_fault _ w := (w, None);
  out_refusal state constraint := Sentinel constraint;
  out_now w := w;
  out_clock w := (w + 1, w);
  out_seed w := (w + 1, at_tick w);
  out_random n w := (w + 1, Some (replicate n 7));
  out_publish _ w := (w, None);
  out_links _ _ _ := Ok []
|}.

Definition no_json_error (v : json) : err := Sentinel "json".

Definition providers : gmap string (PaymentProvider Z) :=
  <["manual"%string := Manual.Provider no_json_error]> (<["cod"%string := Offline.Provider "cod"]>
    (<[StoreCreditTenderID := Tender.Provider Tender.StoreCredit]> ∅)).

Definition opened : Sys Z := mkSys no_books no_tills 1.

Definition run (l : list Call) (st : Sys Z) : Sys Z := foldl (fun st c => (perform providers 100 0 c st).1) st l.

Lemma run_happens l st : rtc (happens providers 100 0) st (run l st).
Proof.
  revert st. induction l as [|c l IH]; intros st; [done|]. eapply rtc_l; [apply happens_call|]. apply IH.
Qed.

Lemma providers_in_module id p : Get providers id = Ok p -> in_module no_json_error p.
Proof.
  unfold Get. case_bool_decide; [done|].
  assert (Hall : forall k q, providers !! k = Some q -> in_module no_json_error q).
  { clear. intros k q E. unfold providers in E.
    apply lookup_insert_Some in E as [[_ <-]|[_ E]]; [by left|].
    apply lookup_insert_Some in E as [[_ <-]|[_ E]]; [right; left; by eexists|].
    apply lookup_insert_Some in E as [[_ <-]|[_ E]]; [by right; right; left|done]. }
  destruct (_ !! TrimSpace id) as [q|] eqn:E; [|done]. intros [= <-]. by apply (Hall (TrimSpace id)).
Qed.

Lemma providers_quiet : all_quiet providers.
Proof. intros id p Hp. by apply (quiet_in_module no_json_error), (providers_in_module id). Qed.

Definition collection : string := Eval vm_compute in newID "paycol_" (at_tick 1).
Definition session : string := Eval vm_compute in newID "payses_" (at_tick 3).
Definition payment : string := Eval vm_compute in newID "pay_" (at_tick 4).

Definition buying : list Call := [
  CallCreateCollection (mkCreateCollectionInput "cart_1" 1000 "eur" "cus_1" None);
  CallCreateSession collection "manual" (mkCreateSessionInput 0 "key_1" None);
  CallAuthorizePayment session;
  CallCapturePayment session 700].
End Shop.

Section Props.
Context {W : Type} `{!Outside W}.
Context (providers : Registry W) (earnBasisPoints giftCardValidityDays : Z).
Abbreviation performs := (perform providers earnBasisPoints giftCardValidityDays).
Abbreviation history := (rtc (happens providers earnBasisPoints giftCardValidityDays)).

Lemma keeps_ClaimAnswer_fail b id secret : gives (@sy_books W) b (ClaimAnswer id secret)
  (fun won b' => if won : bool then ~ spent b id /\ spent b' id else b' = b).
Proof.
  apply gives_bind, gives_check. intros _. apply gives_put. intros now b' won E.
  destruct (bk_answers b !! id) as [[d [at_|]]|] eqn:Ea; [by injection E as <- <-| |by injection E as <- <-].
  case_bool_decide; injection E as <- <-; [|done]. split.
  - intros (a & t & Ha & Ht). rewrite Ea in Ha. by injection Ha as <-.
  - eexists _, now. split; [apply lookup_insert_eq|done].
Qed.

(** ** The properties *)

(** C8: The books of payments stay sound over every history of calls, whatever other institutions
    answer (they only stay out of the module's own books), whatever fails and in whatever order: a
    collection's held, captured and refunded money are the sums of its sessions and captures, what it
    captured and what its open sessions reserve never exceed its amount, no capture is refunded past its
    amount and what it says was refunded is the sum of its refunds, a session has one capture at most and
    a key one session, and a collection's status is the one its figures and sessions give. *)
Theorem payments_stay_sound (Hq : all_quiet providers) (st st' : Sys W) :
  Sound (sy_books st) -> history st st' -> Sound (sy_books st').
Proof. intros H Hh. by destruct (history_moves _ _ _ Hq _ _ Hh H). Qed.

(** C10: The service refines the machine of the books' moves: from sound books every call, with any answers
    of the providers and any failures, takes a sequence of moves. How many: opening a collection or a
    session, authorizing, capturing, canceling, refunding one capture, recording money received and the
    calls on one report or one answer take at most one; a refund of a collection takes exactly one for each
    refund it answers, also when it fails part-way; the calls on credit and gift cards take none; and
    the calls that go over several sessions, a canceled order and the two passes over reports, take a
    sequence of them. *)
Theorem calls_are_moves (Hq : all_quiet providers) (c : Call) (st : Sys W) : Sound (sy_books st) ->
  let b := sy_books st in
  let b' := sy_books (performs c st).1 in
  match c with
  | CallCreateCollection _ | CallCreateSession _ _ _ | CallAuthorizePayment _ | CallCapturePayment _ _
  | CallCancelPayment _ | CallRefundPayment _ _ _ | CallRecordReceived _ | CallReportAttempt _ _ _
  | CallSettleReport _ _ _ | CallOpenSessionAnswer _ | CallClaimAnswer _ _ => b' = b \/ move b b'
  | CallRefundCollection id amount ceiling reason reference =>
      nsteps move (refunds_made (RefundCollection providers earnBasisPoints id amount ceiling reason reference st).2) b b'
  | CallIssueCredit _ | CallExpireStoreCredit _ | CallIssueGiftCard _ | CallIssueSoldGiftCard _ | CallReplaceGiftCardCode _
  | CallDisableGiftCard _ _ | CallExpireGiftCards _ => b' = b
  | CallHandleOrderCanceled _ _ | CallReportSession _ _ | CallDiscoverReportedSessions _ => rtc move b b'
  end.
Proof.
  intros H. cbn zeta. pose proof (steps_perform providers earnBasisPoints giftCardValidityDays Hq c st H) as [_ Hall].
  destruct c; try exact Hall; cbn [perform].
  - exact (one_ignored _ (steps_CreateCollection i) st H).
  - exact (one_ignored _ (steps_CreateSession providers earnBasisPoints Hq _ _ _) st H).
  - exact (one_ignored _ (steps_AuthorizePayment providers earnBasisPoints Hq _) st H).
  - exact (one_ignored _ (steps_CapturePayment providers earnBasisPoints Hq _ _) st H).
  - exact (steps_CancelPayment providers earnBasisPoints Hq _ st H).
  - exact (one_ignored _ (steps_refundPayment providers earnBasisPoints Hq _ _ _ _ _) st H).
  - rewrite ignored_state. by apply RefundCollection_each.
  - exact (one_ignored _ (steps_RecordReceived providers earnBasisPoints Hq _) st H).
  - exact (keeps_ignore _ _ (keeps_IssueCredit i) st).
  - exact (keeps_ignore _ _ (keeps_ExpireStoreCredit limit) st).
  - exact (keeps_ignore _ _ (keeps_IssueGiftCard giftCardValidityDays i) st).
  - exact (keeps_ignore _ _ (keeps_IssueSoldGiftCard giftCardValidityDays i) st).
  - exact (keeps_ignore _ _ (keeps_ReplaceGiftCardCode id) st).
  - exact (keeps_ignore _ _ (keeps_DisableGiftCard id reason) st).
  - exact (keeps_ignore _ _ (keeps_ExpireGiftCards limit) st).
  - exact (one_ignored _ (steps_RecordSessionReportAttempt _ _ _) st H).
  - exact (one_checked _ _ (one_ignored _ (steps_SettleSessionReport _ _ _)) st H).
  - exact (one_ignored _ (steps_OpenSessionAnswer _) st H).
  - exact (one_ignored _ (one_checked _ _ (steps_ClaimSessionAnswer _ _)) st H).
Qed.

(** C30: Money moves with its event: over every history each capture and each refund has exactly its own
    event in the outbox, naming its collection and its moment, and the outbox holds no event of a row
    that is not there. *)
Theorem money_is_announced (Hq : all_quiet providers) (st st' : Sys W) :
  Sound (sy_books st) -> Announced (sy_books st) -> history st st' -> Announced (sy_books st').
Proof.
  intros H Ha Hh. destruct (history_moves _ _ _ Hq _ _ Hh H) as [_ Hm].
  by apply (moves_keep Announced _ _ (fun x y Hx Hxy => move_announced x y Hx Hxy) H Hm).
Qed.

(** C22: A session is captured once. When a capture has been answered, then after any further history a
    successful capture of the same session answers the same capture (only its refunded part can have
    grown), for the amount that was captured or for none named; every table, the books and the tills of
    the module's own providers, is as it was; and no provider is asked: the run, the outside world after it
    included, is the same whatever providers stand behind the registered names. *)
Theorem capture_once (Hq : all_quiet providers) (id : string) (amount again : Z) (st st1 st2 st3 : Sys W) (p q : Payment) :
  Sound (sy_books st) -> CapturePayment providers earnBasisPoints id amount st = (st1, Ok p) -> history st1 st2 ->
  CapturePayment providers earnBasisPoints id again st2 = (st3, Ok q) ->
  same_capture p q /\ (again = 0 \/ again = py_Amount p) /\ tables st3 = tables st2 /\
  forall other : Registry W, (forall i pr, Get providers i = Ok pr -> exists pr', Get other i = Ok pr') ->
    CapturePayment other earnBasisPoints id again st2 = (st3, Ok q).
Proof.
  intros H E1 Hh E2.
  destruct (gives_CapturePayment providers earnBasisPoints Hq _ id amount H st st1 p eq_refl E1) as [Hm Hp Eps _].
  assert (H1 : Sound (sy_books st1)) by (destruct Hm as [->|Hm]; [done|by eapply moved_books_sound]).
  destruct (history_moves _ _ _ Hq _ _ Hh H1) as [H2 Hmoves].
  destruct (capture_stays _ _ _ _ Hmoves Hp) as (p' & Hp' & Hsame).
  assert (Ei : py_ID p' = py_ID p) by apply Hsame. rewrite <- Ei in Hp'.
  assert (Es : py_PaymentSessionID p' = id) by (destruct Hsame as (_ & -> & _); done).
  destruct (capture_again_reads providers earnBasisPoints _ id again p' st2 st3 q eq_refl H2 Hp' Es E2) as (-> & Et & Ho).
  destruct (gives_CapturePayment providers earnBasisPoints Hq _ id again H2 st2 st3 p' eq_refl E2) as [_ _ _ Ea].
  split; [done|]. split; [|done]. destruct Ea as [|<-]; [by left|right]. apply Hsame.
Qed.

(** C23: What a successful refund of a collection gives back, and that it stays under its cause's ceiling:
    the refunds it made are, in order, parts of captures of the collection, each at most what was left on
    its capture, all naming the cause; the cause's refunds grew by their sum and stay within the ceiling,
    also when the run failed part-way; and when it did not fail the sum is the amount asked for, or what
    the cause and the captures have left where none is. *)
Theorem refund_within_cause (Hq : all_quiet providers) (coll reference reason : string) (amount ceiling : Z)
    (st st' : Sys W) (made : list Refund) (failed : option err) :
  Sound (sy_books st) -> ceiling <= int64_max - MaxAmount ->
  RefundCollection providers earnBasisPoints coll amount ceiling reason reference st = (st', Ok (made, failed)) ->
  exists l plan, l ≡ₚ payments_of coll (sy_books st) /\ planned l plan /\
    run_made plan reference ceiling (sy_books st) made failed (sy_books st') /\
    sumZ (snd <$> plan) = (if amount =? 0
      then Z.min (ceiling - caused reference (sy_books st)) (sumZ (refundable <$> l)) else amount).
Proof. intros H Hc E. by apply (gives_RefundCollection providers earnBasisPoints Hq _ coll amount ceiling reason reference H Hc st st' (made, failed)). Qed.

(** A refund's plan: over the captures of sound books a plan exists exactly when something is left
    and no more than that is asked; its parts are positive, none more than is left on its capture, each
    capture at most once and in order, and they add up to the amount, or to all that is left. *)
Theorem planRefund_exact (coll : string) (b : Books) (l : list Payment) (amount : Z) :
  Sound b -> l ≡ₚ payments_of coll b -> 0 <= amount ->
  ((exists plan, planRefund coll l amount = Ok plan) <->
    0 < sumZ (refundable <$> l) /\ amount <= sumZ (refundable <$> l)) /\
  (forall plan, planRefund coll l amount = Ok plan -> planned l plan /\
    sumZ (snd <$> plan) = if amount =? 0 then sumZ (refundable <$> l) else amount).
Proof.
  intros H Hl Ha. pose proof (captures_of_sound b coll l H Hl) as Hok.
  split; [by apply planRefund_ok|]. intros plan. by apply planRefund_parts.
Qed.

(** C34: No call leaves half of what it does, whatever statement failed. A refund of a collection, a
    canceled order, the expiry passes and the two passes over reports leave the tables, the books and the
    tills of the module's own providers alike, as a sequence of complete units left them (a refund, a
    cancellation, an expired balance, a closed card, an opened report), whatever they answer. Every other
    call that fails leaves every table as it was, but for two: a declined authorization is recorded and
    answered as a conflict with its own code, and a new gift card code whose answer could not be read is
    written whole. *)
Theorem failed_call_leaves_tables (Hq : all_quiet providers) (Hasks : asking_reads providers) (c : Call) (st : Sys W) :
  Sound (sy_books st) ->
  let '(st', r) := performs c st in
  if by_units c then rtc (unit_of providers earnBasisPoints c) (tables st) (tables st')
  else forall e, r = Fail e -> tables st' = tables st \/
    (exists id, c = CallAuthorizePayment id /\ declined id e st st') \/
    (exists id, c = CallReplaceGiftCardCode id /\ code_replaced id (tables st) (tables st')).
Proof.
  intros H. pose proof (units_perform providers earnBasisPoints giftCardValidityDays Hasks c) as Hu.
  destruct (performs c st) as [st' r] eqn:E. destruct (by_units c) eqn:Eu.
  { specialize (Hu eq_refl st). by rewrite E in Hu. }
  intros e ->. destruct (one_transaction c) eqn:Eo; [left; by eapply undone_transactional|].
  destruct c; try discriminate; cbn [perform] in E; apply ignored_failure in E.
  - apply authorize_failure in E as [E|E]; [by left| |done|done]. right. left. by eexists.
  - pose proof (replace_left id st) as Hr. rewrite E in Hr. destruct Hr as [Hr|Hr]; [by left|]. right. right. by eexists.
Qed.

(** A completion secret is spent once: after a claim that won, no later claim of the same session
    wins, with any secret and whatever happened in between. *)
Theorem secret_spent_once (Hq : all_quiet providers) (id secret again : string) (st st1 st2 st3 : Sys W) (won : bool) :
  Sound (sy_books st) -> ClaimAnswer id secret st = (st1, Ok true) -> history st1 st2 ->
  ClaimAnswer id again st2 = (st3, Ok won) -> won = false /\ sy_books st3 = sy_books st2.
Proof.
  intros H E1 Hh E2. pose proof (keeps_ClaimAnswer_fail _ id secret st st1 true eq_refl E1) as [_ Hs]. cbn in Hs.
  assert (H1 : Sound (sy_books st1)).
  { pose proof (steps_ClaimSessionAnswer id (CompletionSecretDigest secret)) as Hst.
    destruct (steps_checked (requireText "session_id" id) _ (steps_single _ Hst) st H) as [H1 _]. unfold ClaimAnswer in E1. by rewrite E1 in H1. }
  destruct (history_moves _ _ _ Hq _ _ Hh H1) as [_ Hmoves]. pose proof (spent_stays _ _ _ Hmoves Hs) as Hs2.
  pose proof (keeps_ClaimAnswer_fail _ id again st2 st3 won eq_refl E2) as Hw. destruct won; [by destruct Hw|done].
Qed.

(** C33: The types of the rows: over every history from empty books, with any answers of the providers,
    each of the seven tables holds rows of their types only: every status is one the state machine names,
    every amount lies between its bounds (one to the largest amount, what was refunded under what was
    captured under the collection's amount), every reference names a row that is there with the same
    currency, every event names a collection and one of the two topics, and every digest is 32 bytes. *)
Theorem tables_well_typed (Hq : all_quiet providers) (st st' : Sys W) :
  sy_books st = no_books -> history st st' -> well_typed (sy_books st').
Proof.
  intros E Hh. assert (H : Sound (sy_books st)) by (rewrite E; apply no_books_sound).
  destruct (history_moves _ _ _ Hq _ _ Hh H) as [H' Hm]. rewrite E in *.
  apply sound_well_typed; [done|..].
  - by apply (moves_keep Announced _ _ (fun x y Hx Hxy => move_announced x y Hx Hxy) H Hm), no_books_announced.
  - by apply (moves_keep Filed _ _ (fun x y _ Hxy => move_filed x y Hxy) H Hm), no_books_filed.
  - by apply (moves_keep sessions_bounded _ _ (fun x y Hx Hxy => move_bounded x y Hx Hxy) H Hm), map_Forall_empty.
Qed.

(** What a collection's status says, after any history from sound books: the column is one status
    exactly when the captures, the refunds, the holds and the sessions of the collection are in the case
    that status names (all of it refunded; part of what was captured; captured in full; in part; held in
    full; some session open; none open and one canceled; none of these). *)
Theorem status_says (Hq : all_quiet providers) (st st' : Sys W) (id : string) (c : PaymentCollection) (s : CollectionStatus) :
  Sound (sy_books st) -> history st st' -> bk_collections (sy_books st') !! id = Some c ->
  pc_Status c = s <-> status_means (sy_books st') id (pc_Amount c) s.
Proof.
  intros H Hh Hc. destruct (history_moves _ _ _ Hq _ _ Hh H) as [H' _]. pose proof (status_sound _ id c H' Hc) as Hs.
  split; [by intros <-|]. intros Hs'. by eapply status_means_one.
Qed.
End Props.

(** ** Witnesses *)

Definition bought : Sys Z := Shop.run Shop.buying Shop.opened.

Lemma shop_history l : rtc (happens Shop.providers 100 0) Shop.opened (Shop.run l Shop.opened).
Proof. apply Shop.run_happens. Qed.

Lemma bought_sound : Sound (sy_books bought).
Proof. destruct (history_moves _ _ _ Shop.providers_quiet _ _ (shop_history Shop.buying) no_books_sound) as [H _]. exact H. Qed.

Lemma payments_stay_sound_witness : Sound (sy_books bought).
Proof. exact (payments_stay_sound Shop.providers 100 0 Shop.providers_quiet Shop.opened _ no_books_sound (shop_history _)). Defined.

(** A refund of 500 asked back of the collection for a return. *)
Definition giving_back : Call := CallRefundCollection Shop.collection 0 500 "broken" "ret_1".

Lemma calls_are_moves_witness :
  rf_Amount <$> rows (bk_refunds (sy_books (perform Shop.providers 100 0 giving_back bought).1)) = [500] /\
  nsteps move 1 (sy_books bought) (sy_books (perform Shop.providers 100 0 giving_back bought).1).
Proof.
  split; [vm_compute; reflexivity|].
  assert (E : refunds_made (RefundCollection Shop.providers 100 Shop.collection 0 500 "broken" "ret_1" bought).2 = 1%nat)
    by (vm_compute; reflexivity).
  rewrite <- E. exact (calls_are_moves Shop.providers 100 0 Shop.providers_quiet giving_back bought bought_sound).
Defined.

Lemma money_is_announced_witness : size (bk_outbox (sy_books bought)) = 1%nat /\ Announced (sy_books bought).
Proof.
  split; [vm_compute; reflexivity|].
  exact (money_is_announced Shop.providers 100 0 Shop.providers_quiet Shop.opened _ no_books_sound no_books_announced (shop_history _)).
Defined.

Lemma answered {A} (m : tx (Sys Z) A) st r : (m st).2 = r -> m st = ((m st).1, r).
Proof. by destruct (m st) as [st' x]; cbn; intros ->. Qed.

(** The capture of the session, its row after a refund of 200, and the states around them. *)
Definition the_capture : Payment := mkPayment Shop.payment Shop.session Shop.collection 700 "EUR" 0 5 6 6.
Abbreviation captured_again := ((CapturePayment Shop.providers 100 Shop.session 0 bought).1).
Definition refunded_some : Sys Z := Shop.run [CallRefundPayment Shop.payment 200 "broken"] captured_again.
Abbreviation captured_late := ((CapturePayment Shop.providers 100 Shop.session 700 refunded_some).1).

(** The same names with nothing but an offline method behind them. *)
Definition other_providers : gmap string (PaymentProvider Z) := (fun _ => Offline.Provider "other") <$> Shop.providers.

Lemma other_registered i pr : Get Shop.providers i = Ok pr -> exists pr', Get other_providers i = Ok pr'.
Proof.
  unfold Get, Registry, other_providers. case_bool_decide; [done|]. rewrite lookup_fmap.
  destruct (Shop.providers !! TrimSpace i); [intros _; by eexists|done].
Qed.

Lemma capture_once_witness :
  same_capture the_capture (set_refunded 7 200 the_capture) /\ tables captured_late = tables refunded_some /\
  CapturePayment other_providers 100 Shop.session 700 refunded_some = (captured_late, Ok (set_refunded 7 200 the_capture)).
Proof.
  destruct (capture_once Shop.providers 100 0 Shop.providers_quiet Shop.session 0 700 bought captured_again refunded_some
    captured_late the_capture (set_refunded 7 200 the_capture) bought_sound) as (H1 & _ & H2 & H3).
  - apply (answered _ _ (Ok _)). vm_compute. reflexivity.
  - apply Shop.run_happens.
  - apply (answered _ _ (Ok _)). vm_compute. reflexivity.
  - split; [exact H1|]. split; [exact H2|]. exact (H3 other_providers other_registered).
Defined.

Abbreviation returned_some := (RefundCollection Shop.providers 100 Shop.collection 0 500 "broken" "ret_1" bought).

Definition the_refund : Refund := mkRefund (newID "refund_" (Shop.at_tick 7)) Shop.payment 500 "broken" "ret_1" 8 8.

Lemma refund_within_cause_witness : exists l plan, l ≡ₚ payments_of Shop.collection (sy_books bought) /\ planned l plan /\
  run_made plan "ret_1" 500 (sy_books bought) [the_refund] None (sy_books (fst returned_some)) /\
  sumZ (snd <$> plan) = Z.min (500 - caused "ret_1" (sy_books bought)) (sumZ (refundable <$> l)).
Proof.
  apply (refund_within_cause Shop.providers 100 Shop.providers_quiet Shop.collection "ret_1" "broken" 0 500 bought
    (fst returned_some) [the_refund] None bought_sound); [vm_compute; discriminate|].
  apply answered. vm_compute. reflexivity.
Defined.

Lemma planRefund_exact_witness :
  (exists plan, planRefund Shop.collection [the_capture] 300 = Ok plan) /\ [the_capture] ≡ₚ payments_of Shop.collection (sy_books bought).
Proof.
  assert (Hl : [the_capture] ≡ₚ payments_of Shop.collection (sy_books bought)) by (vm_compute; reflexivity).
  split; [|exact Hl]. apply (planRefund_exact Shop.collection (sy_books bought) [the_capture] 300 bought_sound Hl); [lia|].
  split; vm_compute; (reflexivity || discriminate).
Defined.

(** A capture past the hold. *)
Definition over_capture : Call := CallCapturePayment Shop.session 1001.

Lemma shop_asking_reads : asking_reads Shop.providers.
Proof. intros id p inspect session Hp Hi. by eapply (asking_in_module Shop.no_json_error), Hi; eapply Shop.providers_in_module. Qed.

Lemma failed_call_leaves_tables_witness :
  let held := Shop.run (take 3 Shop.buying) Shop.opened in
  tables (perform Shop.providers 100 0 over_capture held).1 = tables held /\
  rtc (unit_of Shop.providers 100 giving_back) (tables bought) (tables (perform Shop.providers 100 0 giving_back bought).1).
Proof.
  intros held. assert (Hheld : Sound (sy_books held)).
  { destruct (history_moves _ _ _ Shop.providers_quiet _ _ (shop_history (take 3 Shop.buying)) no_books_sound) as [H _]. exact H. }
  pose proof (failed_call_leaves_tables Shop.providers 100 0 Shop.providers_quiet shop_asking_reads over_capture held Hheld) as H1.
  pose proof (failed_call_leaves_tables Shop.providers 100 0 Shop.providers_quiet shop_asking_reads giving_back bought bought_sound) as H2.
  split.
  - destruct (perform Shop.providers 100 0 over_capture held) as [st' r] eqn:E. cbn [by_units over_capture] in H1.
    destruct r as [u|e]; [exfalso; revert E; vm_compute; discriminate|].
    destruct (H1 e eq_refl) as [Ht|[(id & Hc & _)|(id & Hc & _)]]; [exact Ht|discriminate Hc|discriminate Hc].
  - destruct (perform Shop.providers 100 0 giving_back bought) as [st' r]. exact H2.
Defined.

(** A secret opened and claimed. *)
Definition secret : string := CompletionSecret (replicate 32 7).
Definition answer_open : Sys Z := Shop.run [CallOpenSessionAnswer Shop.session] bought.
Abbreviation answer_claimed := ((ClaimAnswer Shop.session secret answer_open).1).

Lemma secret_spent_once_witness : false = false /\
  sy_books (ClaimAnswer Shop.session secret answer_claimed).1 = sy_books answer_claimed.
Proof.
  apply (secret_spent_once Shop.providers 100 0 Shop.providers_quiet Shop.session secret secret answer_open answer_claimed
    answer_claimed (ClaimAnswer Shop.session secret answer_claimed).1 false).
  - destruct (history_moves Shop.providers 100 0 Shop.providers_quiet _ _ (Shop.run_happens [CallOpenSessionAnswer Shop.session] bought)
      bought_sound) as [H _]. exact H.
  - apply (answered _ _ (Ok _)). vm_compute. reflexivity.
  - apply rtc_refl.
  - apply (answered _ _ (Ok _)). vm_compute. reflexivity.
Defined.

Lemma tables_well_typed_witness : well_typed (sy_books bought).
Proof. exact (tables_well_typed Shop.providers 100 0 Shop.providers_quiet Shop.opened _ eq_refl (shop_history _)). Defined.

Definition the_collection : PaymentCollection :=
  mkPaymentCollection Shop.collection "cart_1" 1000 "EUR" "cus_1" CollectionPartiallyCaptured 0 700 0 None 2 6.

Lemma status_says_witness :
  pc_Status the_collection = CollectionPartiallyCaptured <-> status_means (sy_books bought) Shop.collection 1000 CollectionPartiallyCaptured.
Proof.
  apply (status_says Shop.providers 100 0 Shop.providers_quiet Shop.opened bought Shop.collection the_collection
    CollectionPartiallyCaptured no_books_sound (shop_history _)).
  vm_compute. reflexivity.
Defined.

(** * Properties of the balances and of the gift cards *)

Section Props.
Context {W : Type} `{!Outside W}.
Context (providers : Registry W) (earnBasisPoints giftCardValidityDays : Z) (json_error : json -> err).

(** C9: The balances of the shop stay sound over every history of calls, with the module's own providers
    and any others that leave its tills alone: on each of the three ledgers every row has its kind's sign,
    what a payment session moved is exactly what it holds, or captured and did not refund, and nothing for
    any other session; a customer's store credit and a gift card's balance never go below zero; and a closed
    gift card has nothing on it and no session holding of it. *)
Theorem tenders_stay_sound
    (Hown : forall id p, Get providers id = Ok p -> in_module json_error p \/ stays_out (@sy_tills W) p) (st st' : Sys W) :
  TillsSound (sy_tills st) -> rtc (happens providers earnBasisPoints giftCardValidityDays) st st' ->
  TillsSound (sy_tills st').
Proof.
  intros H Hh. eapply history_tills; [|exact Hh|exact H].
  intros id p [Hp|Hp]%Hown; [by eapply lawful_in_module|by apply lawful_out].
Qed.
End Props.

(** A gift card's code: the text that is printed reads back as the code whose digest is kept; a text
    reads as that code exactly when it is a [typing] of it (in either case, with dashes and spaces anywhere,
    an O for a zero, an I or an L for a one); and two draws of ten random bytes print the same code only
    when they are the same. *)
Theorem gift_card_code_roundtrip (random other : list Z) (typed : string) :
  length random = 10%nat -> length other = 10%nat -> is_byte_list random -> is_byte_list other ->
  NormalizeGiftCardCode (NewGiftCardCode random) = Some (EncodeToString random) /\
  (NormalizeGiftCardCode typed = Some (EncodeToString random) <-> typing (bytes (EncodeToString random)) (bytes typed)) /\
  (NewGiftCardCode random = NewGiftCardCode other -> random = other).
Proof.
  intros Hr Ho Br Bo. split; [by apply NewGiftCardCode_reads|]. split.
  - rewrite NormalizeGiftCardCode_reads, EncodeToString_length, Hr. change (encoded_len 10) with 16%nat. tauto.
  - intros E. apply EncodeToString_inj; [done..|].
    pose proof (NewGiftCardCode_reads random Hr) as H1. rewrite E, NewGiftCardCode_reads in H1 by done. congruence.
Qed.

(** ** Witnesses *)

Lemma no_tills_sound : TillsSound no_tills.
Proof.
  split; [..|apply map_Forall_empty]; (split; [constructor|apply map_Forall_empty|done|done|]);
  intros key; [by intros []..|]; by intros (id & c & _ & Hc & _).
Qed.

(** Credit of 500 issued, 300 held of it, and 200 of them captured. *)
Definition credit_collection : string := Eval vm_compute in newID "paycol_" (Shop.at_tick 2).
Definition credit_session : string := Eval vm_compute in newID "payses_" (Shop.at_tick 4).

Definition spending : list Call := [
  CallIssueCredit (mkIssueCreditInput "cus_1" "eur" 500 "gift" EmptyString None EmptyString);
  CallCreateCollection (mkCreateCollectionInput "cart_1" 300 "eur" "cus_1" None);
  CallCreateSession credit_collection StoreCreditTenderID (mkCreateSessionInput 0 "key_1" None);
  CallAuthorizePayment credit_session;
  CallCapturePayment credit_session 200].

Definition spent_some : Sys Z := Shop.run spending Shop.opened.

Lemma tenders_stay_sound_witness :
  sc_Amount <$> credit_of "cus_1" "EUR" (sy_tills spent_some) = [500; -300; 100] /\ TillsSound (sy_tills spent_some).
Proof.
  split; [vm_compute; reflexivity|].
  apply (tenders_stay_sound Shop.providers 100 0 Shop.no_json_error
    (fun id p H => or_introl (Shop.providers_in_module id p H)) Shop.opened spent_some no_tills_sound).
  apply Shop.run_happens.
Defined.

Definition drawn : list Z := [0;1;2;3;4;5;6;7;8;255].

Lemma gift_card_code_roundtrip_witness :
  NormalizeGiftCardCode (NewGiftCardCode drawn) = Some "000G40R40M30E27Z" /\
  NormalizeGiftCardCode "oOog 40r4-0m30-e27z" = Some (EncodeToString drawn) /\
  typing (bytes (EncodeToString drawn)) (bytes "oOog 40r4-0m30-e27z").
Proof.
  destruct (gift_card_code_roundtrip drawn [9;1;2;3;4;5;6;7;8;255] "oOog 40r4-0m30-e27z" eq_refl eq_refl) as (H1 & H2 & _).
  - repeat (constructor; [lia|]). constructor.
  - repeat (constructor; [lia|]). constructor.
  - split; [exact H1|]. assert (E : NormalizeGiftCardCode "oOog 40r4-0m30-e27z" = Some (EncodeToString drawn)) by (vm_compute; reflexivity).
    split; [exact E|]. by apply H2.
Defined.
